(* ===== verification/_CoqProject ===== *)
-Q . S2P
Prelude.v
VllmTypes.v
Bucketing.v
CoreUtils.v
DPUtils.v
BlockMapping.v
Eviction.v
PrefixCache.v
PrefixCacheSpec.v
RblnScheduler.v
RblnSchedulerInv.v
RblnSchedulerWait.v
RblnSchedulerSpec.v
SubBlock.v
SubBlockSpec.v
KvPlacement.v
KvPlacementSpec.v
WorkerUtils.v
WorkerUtilsSpec.v
DynamicKvSizer.v
DynamicKvSizerSpec.v
RejectionSampler.v
RejectionSamplerSpec.v
RejectionGraphSpec.v
OptimumKv.v
OptimumKvSpec.v
OptimumKvUse.v
OptimumScheduler.v
OptimumSchedulerInv.v
OptimumSchedulerSpec.v
Effects.v
EcWorld.v
EcProducer.v
EcProducerSpec.v
EcConsumer.v
EcConnector.v
EcConsumerInv.v
EcPulls.v
EcWait.v
EcConsumerSpec.v
EcConnectorSpec.v
KvTransfer.v
KvLayout.v
KvBands.v
KvTransferSpec.v
KvFanSpec.v
KvHandshake.v
KvHandshakeSpec.v
KvShardSpec.v
KvFlowSpec.v
KvWriteSpec.v
KvRegister.v
KvRegisterSpec.v
KvUse.v
KvConnector.v
RunnerInputs.v
FlatRows.v
RunnerInputsSpec.v
RunnerTokens.v
RunnerTokensSpec.v
RunnerTokensSim.v
RunnerTokensRun.v
RunnerTokensRing.v
RunnerTokensMain.v
RunnerTokensTheorems.v
RunnerTokensUse.v
OptimumInputs.v
OptimumInputsSpec.v
OptimumPrefillSpec.v
RunnerReorder.v
InputStager.v
EagleDraft.v
EaglePasses.v
EagleDraftSpec.v
AttnMetadata.v
AttnMetadataSpec.v
