(* ===== verification/Prelude.v ===== *)
(** * Verification of vllm-rbln

    vllm-rbln runs vLLM on Rebellions NPUs.  An engine process schedules requests and manages
    the blocks of the KV cache; workers run compiled graphs of fixed shapes; every step the
    engine sends the workers a scheduler output and gets sampled tokens back.  Engines that
    prefill, decode or encode can be different processes that send each other KV caches and
    encoder outputs.  This library models the decisions of the program -- what is scheduled,
    which blocks hold what, how large the KV cache may be, which graph a rank runs, what a
    step's tensors hold, which draft tokens are kept, which bytes are sent to a peer -- as
    executable functions translated from the Python source, and proves what they promise.
    Tensor arithmetic, compilation and device calls are not modelled; where a decision needs
    an answer of theirs, or of vLLM, PyTorch, NIXL or the runtime, it is a parameter.

    Paths are below [src/vllm_rbln/]; a definition has the name of the function or method it
    translates.  A component has a file of definitions (with its own lemmas where it is
    small) and, where it is large, files of lemmas and a file [...Spec] of theorems.

    ** Scheduling and the KV cache of the engine

    - [VllmTypes]: the attributes of vLLM's requests, specs and outputs that the code uses.
    - [CoreUtils] ([v1/core/utils.py]): the phase of a step, the decode budget, the tokens
      a pipeline rank is told about ([propagated_token_write_correct]), sub-block sizes.
    - [RblnScheduler] ([v1/core/rbln_scheduler.py]): one call of [schedule].  Requests live in
      the store [reqs], and the running list, the waiting queues and the lists of the step
      hold ids, because the code shares the objects.  [RblnSchedulerInv] carries the
      invariants of the running loop and of preemption, [RblnSchedulerWait] those of the
      waiting loop and of the eviction of the decode batch, [RblnSchedulerSpec] the
      theorems: a step never mixes a prefill with decodes ([no_mixed_batch]), no request is
      lost ([no_request_lost]), the call returns ([schedule_returns]).
    - [SubBlock], [SubBlockSpec] ([v1/core/rbln_kv_cache_manager.py]): prefix caching at a
      granularity below the block.  A match holds exactly the tokens of the query
      ([sub_block_match_sound], for an injective hash), and the events published replay to
      the index ([events_mirror_index]); references taken for copies are given back.
    - [BlockMapping], [Eviction], [PrefixCache], [PrefixCacheSpec]
      ([v1/core/prefix_cache_manager/]): the prefix cache of the models compiled ahead of
      time, where device (outer) blocks hold several of vLLM's (inner) blocks.  The manager
      is proved against the class [EvictionPolicyLaws], which the three policies discharge.
      [prefix_cache_accounting] is the invariant of every reachable state: each outer block
      is free, or mapped and owned or inactive, never two of them; [admission_is_sound]:
      what [can_allocate] admits can be allocated.
    - [OptimumKv], [OptimumKvSpec], [OptimumKvUse] ([v1/core/optimum_kv_cache_manager.py],
      [optimum_block_pool.py], [optimum_kv_cache_coordinator.py]): the manager on top of the
      prefix cache.  [allocate_slots_in_step]: a request gets its inner and outer blocks
      together or neither; the padding moves a chunk that would straddle a block.
    - [OptimumScheduler], [OptimumSchedulerInv], [OptimumSchedulerSpec]
      ([v1/core/optimum_scheduler.py]): the scheduler of those models.  A call returns
      ([optimum_schedule_returns]), a prefill runs alone ([optimum_prefill_alone]), the
      oldest running request always progresses ([first_running_progresses]), and a running
      request keeps the cache slot it has ([cache_slots_pinned]).

    ** Sizes and batches of the worker

    - [Bucketing] ([v1/worker/bucketing/]): the decode batch sizes that get a graph, and the
      lookup that rounds a batch up to one ([bucketing_manager_correct]).  The class
      [BucketFinder] is what other components rely on.
    - [DPUtils] ([v1/worker/dp_utils.py]): every step the data-parallel ranks exchange one
      packed word each (int32 addition, bit fields); [dp_ranks_agree]: all ranks, idle ones
      included, choose the same padded batch, and it fits each of them.
    - [KvPlacement], [KvPlacementSpec] ([v1/worker/kv_placement.py]): the replay of the caching
      allocator, the bytes a number of blocks takes on every chiplet, and [max_num_blocks],
      the largest count that fits ([max_num_blocks_largest]).  Floats are IEEE doubles.
    - [WorkerUtils], [WorkerUtilsSpec] ([v1/worker/utils.py]): CPU binding, memory estimates,
      and the reordering of the input batch ([reorder_moves_requests]).
    - [DynamicKvSizer], [DynamicKvSizerSpec] ([v1/worker/dynamic_kv_sizer.py],
      [patches/dynamic_kv.py]): a worker shrinks the cache for the compilation, measures, and
      reallocates at one count that the engine settles from all ranks
      ([resized_ranks_agree]).

    ** A step of the model runner

    - [RunnerInputs], [FlatRows], [RunnerInputsSpec] ([v1/worker/rbln_model_runner.py],
      [_prepare_inputs]): tokens and positions flattened over the requests, with the fixed
      decode window.  [window_holds_request]: every request has consecutive positions within
      the model length and its own tokens in them; [sampled_rows_follow_tokens]: the rows
      that are sampled stand behind the last scheduled token and behind every draft.
    - [AttnMetadata], [AttnMetadataSpec] ([v1/attention/backends/flash_attention.py], the
      metadata builder): what the attention kernels are told of the windows of
      [RunnerInputs].  [attention_follows_window], without the custom kernel: first
      positions, blocks, sliding windows, and the exact cells of the masks, those included
      that the findings list; [metadata_shapes_fixed]: the shapes depend on the graph only.
    - [RunnerTokens] ([rbln_model_runner.py], [async_output.py]): the cached requests and the
      persistent batch over the steps, and asynchronous scheduling, whose placeholders (-1)
      are written back when the sampled tokens have left the device; and the two device
      buffers that [_stage_into] ([v1/sample/rbln_sampler.py]) writes in turns, so an output
      is a reference to a buffer that the second sampling after it overwrites.
      [RunnerTokensSpec], [RunnerTokensSim], [RunnerTokensRing] (the buffers),
      [RunnerTokensRun] and [RunnerTokensMain] relate an asynchronous run to the run that
      samples at once; [RunnerTokensTheorems]: as long as at most one output is late at
      every sampling ([fetched_in_time], needed only with these buffers), it settles to the
      same requests and batch ([async_run_settles]), and no placeholder is staged for the
      model ([staged_tokens_are_real]).  [RunnerTokensUse] has a batch that keeps the laws,
      and a run with two late outputs that does not settle ([late_output_overwritten]).
    - [RunnerReorder] ([_may_reorder_batch] of both runners): [runners_sort_alike], the batch
      sorted in one pass and by recorded swaps is the same batch.
    - [InputStager] ([v1/worker/input_stager.py]): [staged_inputs_padded], a staged tensor is
      its input and padding, whatever the kept buffer held.
    - [OptimumInputs], [OptimumInputsSpec], [OptimumPrefillSpec]
      ([v1/worker/optimum_model_runner.py]): the inputs of a step of the models compiled
      ahead of time.  [decode_rows_apart]: padding rows write to no request's blocks or
      slots; [prefill_covers_request]: what is not staged reads right from the copied blocks,
      also when a copy fails, as long as the cached lengths leave no gap inside a block.  New
      memory has any contents, so it is the parameter [empty].
    - [RejectionSampler] ([v1/sample/rbln_rejection_sampler.py],
      [v1/sample/ops/top_k_top_p.py]): which draft tokens survive.  [RejectionSamplerSpec]
      has the PyTorch path: greedy verification emits what plain decoding would
      ([greedy_lossless]), and only tokens of the vocabulary, whatever the drafts
      ([emitted_tokens_valid]); [RejectionGraphSpec] the compiled path, which asserts that no
      draft is a placeholder: nothing of an earlier step's buffers shows
      ([stale_buffers_never_show]).
    - [EagleDraft], [EaglePasses], [EagleDraftSpec] ([v1/spec_decode/eagle.py], [utils.py]):
      the drafter.  [draft_follows_accepted]: the draft model reads, up to the last token
      kept, the token that follows each position, and later what it drafted itself.

    ** Encoder outputs sent to another engine

    [Effects] is a state and error monad with a weakest precondition calculus; calls of the
    environment are recorded in a history with their answers.  [EcWorld], [EcProducer],
    [EcConsumer] and [EcConnector] model
    [distributed/ec_transfer/ec_connector/rbln_ec_nixl_connector.py]; the background threads
    take turns at the [Deliver] points, times are integers in ns, and a raise keeps the
    state.  [EcConsumerInv], [EcPulls] and [EcWait] carry the lemmas, [EcProducerSpec],
    [EcConsumerSpec] and [EcConnectorSpec] the theorems: what is registered with NIXL
    is held by the cache of outputs, was given back once, or leaked in a deregistration that
    raised ([producer_cache_invariant]), and so is what the pulls of a run take, as long as
    no call of the run raises ([pulls_accounted]); every hash asked for is settled, with one
    acknowledgement at most ([one_ack_per_lifetime]); and a pull reads the bytes that were
    pushed ([pull_reads_what_was_pushed]).

    ** KV caches sent to another engine

    [distributed/kv_transfer/kv_connector/v1/rbln_nixl/]:
    - [KvTransfer], [KvLayout], [KvBands], [KvTransferSpec], [KvFanSpec]: which regions of two
      engines pair, and the descriptors of their bytes ([fan_in_partitions_areas]: the areas
      of a rank spread over a finer peer without gap or overlap).
    - [KvHandshake], [KvHandshakeSpec], [KvShardSpec]: the descriptor lists prepared for every
      shard of a peer ([handshake_prepares_shards]), and what a transfer moves between them
      ([transfer_moves_same_bytes]).  [KvFlowSpec], [KvWriteSpec]: a read is issued for all
      shards or for none ([read_publishes_all_or_nothing]), what is published and forgotten.
    - [KvRegister], [KvRegisterSpec]: the registration of a worker's caches establishes what
      the others assume of it ([registration_establishes_worker_ok]).
    - [KvConnector] ([base_scheduler.py], [connector.py], [v1/utils.py]): how much of a prompt
      is fetched, and the reads held until a submission is in flight
      ([deferred_reads_issued_once]).
    - [KvUse]: two engines to which the theorems are applied.

    ** How the parts meet

    The scheduler calls [CoreUtils] for budgets and phases and the sub-block manager through
    the calls it makes of a KV cache manager (class [Upstream]; its laws are [UpstreamLaws]).
    [OptimumScheduler] calls [OptimumKv], which calls [PrefixCache], which uses
    [BlockMapping] and an [EvictionPolicy]; the blocks and slots of its output are what
    [OptimumInputs] lays out, with [Bucketing] and [KvPlacement.bisect_left] for sizes.
    [DPUtils] rounds batches through [BucketFinder], which [Bucketing] implements.
    [DynamicKvSizer] computes with [KvPlacement] and [WorkerUtils], and [RunnerReorder]
    moves rows as [WorkerUtils.reorder_input_batch] does.  [RunnerTokens] writes tokens by
    [CoreUtils].  [AttnMetadata] takes the windows of [RunnerInputs].
    [EagleDraft] reads the buffers that [RunnerInputs] has filled and the rows
    of the rejection sampler, stages through [InputStager], and pads by [DPUtils].  The
    registration of [KvRegister] gives the worker from which [KvHandshake] prepares the
    lists that transfers use; the producer of [EcProducer] pushes the metadata that
    [EcConsumer] pulls by.

    ** Conventions

    - A call that can raise returns [res]: a value or an exception.  Where state written
      before an exception matters, the state is kept with the exception ([DynamicKvSizer],
      and everything in the monad of [Effects]); elsewhere a raise ends the step and the
      state with it.
    - Integers are Python's, so [Z]; where the code packs into int32 ([DPUtils]) the wrap is
      written out.  Floats are [spec_float] with 53 bits, except in the sampler, whose
      arithmetic is PyTorch's and stays abstract.
    - A dict whose order matters is an [odict], an association list without duplicate keys;
      one whose order does not is a [gmap].
    - [OutOfFuel] is the only outcome that is not Python's.  Fuel occurs where a loop is not
      over a list: [grow_buckets] (fuel: the limit on buckets, every turn adds one);
      [allocate_or_preempt] and [running_loop] of both schedulers (the running list, of which
      every turn takes or passes over one request); [waiting_loop] (the queued requests);
      [pad_loop] (the query length); [follow_cycle] (the requests, as a turn of a cycle puts
      one in place); in the encoder transfer the drains (the queue), the admission (the
      cache), the wait for metadata (32 turns, more than its timeout allows) and the wait for
      pulls (30003 turns, its timeout in steps).  That it suffices is part of
      [bucketing_manager_correct], [schedule_returns], [optimum_schedule_returns],
      [runners_sort_alike] and, for the encoder transfer, of [consumer_calls_end].
    - Code outside the repository is a class of operations over an abstract state, with its
      documented behaviour as a class of laws: [Upstream]/[UpstreamLaws] and
      [Base]/[BaseLaws] (vLLM's schedulers), [Coordinator]/[CoordinatorLaws] and [Pool]
      (its block pool), [BatchOps]/[BatchLaws] (its input batch), [Workers] and [Device]
      (runtime and model runner), [Torch]/[TorchLaws] and [OpLaws] (PyTorch and the NPU
      operation), [Env]/[EnvLaws] (NIXL, ZMQ and the clock), [NixlBase]/[NixlBaseLaws],
      [Nixl] and [Plugin] (vLLM's NIXL worker and the plugin).  The draft model is a
      function that answers with a row for every staged row ([model_ok]).  Every theorem
      that uses laws has a witness over a concrete instance ([Toy], [BlockList], [OptToy],
      [SubBlockToy], [PlacementToy], [WorkerToy], [SizerToy], [IntTorch], [IntOp], [EcToy],
      [KvToy], [RunnerToy], [BatchToy], [InputsToy], [PrefillToy], [ReorderToy], [StagerToy],
      [EagleToy], [AttnToy]).

    ** What does not hold

    Some lemmas state a defect: [partial_hit_leaves_a_gap] (a prefix hit can be counted past
    tokens that no copied block holds), [passed_over_prefill_mixes_later] (two running
    prefills, and later a mixed step), [rank_minimum_may_not_fit] (fitting is not monotone,
    so the minimum over the ranks may not fit one of them), [signal_before_clear_is_lost]
    (a message between a wait and its clear waits for the timeout), [refused_pull_leaks],
    [no_capacity_no_save], [replica_write_is_not_narrowed] (a producer writes every copy of
    a head to a peer that asked for one), [nothing_to_push_asserts] and the trim to zero
    blocks, which keeps all of them.  So do [late_output_overwritten]; [short_prefix_unseen]
    (a masked chunk does not see a cached prefix shorter than a chunk), [last_chunk_raises],
    [decode_sees_past_end] (a decode mask takes in the position behind the sequence), and
    [many_cache_lens_raise] and [zero_cache_len_dropped] (the custom kernel's metadata asks
    for the truth value of a tensor).

    ** Not modelled

    Attention layers and kernels, quantisation, models, LoRA and compilation are
    numeric code or calls of the compiler.  The workers load models and warm them up; the
    sampler computes on logits; the platform hooks, environment variables and most patches
    set up vLLM objects whose code is not here.  Of the model runners, what only calls the
    model or hands tensors on is left out: the forward passes, log-probabilities, sampling
    parameters, multimodal features, warm-up; of the drafters, Medusa, DFlash and the
    pipeline variant of EAGLE3, and the check of the attention metadata's type.  Of the KV
    transfer, the staging through host buffers, the compatibility hash and the statistics;
    NumPy's unsigned descriptor arrays are lists of integers.  [WorkerUtils] leaves out the
    helpers that only reshape tensors or touch the file system.  The sizer models one device
    per worker, gives failures to the queries of the device and not to its commands, and has
    one number for the GPU and CPU block counts, which the code keeps equal.  The theorems
    about runs of the model runner are those of the rank that samples, and an output is
    fetched between two steps.  Logging, metrics and
    profiling are left out everywhere.

    ** This file

    The error monad, Python's integers, slices and dictionaries, tactics, and the lemmas on
    lists and dictionaries that the components share. *)
From Stdlib Require Export ZArith Lia.
From stdpp Require Export base tactics option list numbers gmap strings sorting.

#[global] Open Scope Z_scope.

(** ** Python exceptions and the error monad

    A call either returns or raises.  [OutOfFuel] is not a Python exception: it is
    what a fuelled loop answers when its fuel runs out, and the development proves
    for every loop that the fuel passed to it is enough. *)
Inductive exn :=
  | ValueError | RuntimeError | AssertionError | IndexError | KeyError
  | AttributeError | NotImplementedError | MemoryError | ZeroDivisionError
  | StopIteration | OverflowError | OutOfFuel.

#[export] Instance exn_eq_dec : EqDecision exn.
Proof. solve_decision. Defined.

Inductive res (A : Type) :=
  | Ok (a : A)
  | Raise (e : exn).
Arguments Ok {A} a.
Arguments Raise {A} e.

#[export] Instance res_ret : MRet res := @Ok.
#[export] Instance res_bind : MBind res := fun A B f m =>
  match m with Ok a => f a | Raise e => Raise e end.
#[export] Instance res_fmap : FMap res := fun A B f m =>
  match m with Ok a => Ok (f a) | Raise e => Raise e end.

(** [assert cond] and [if not cond: raise e]. *)
Definition require (b : bool) (e : exn) : res unit :=
  if b then Ok tt else Raise e.

Notation "'assert!' b ; k" := (mbind (fun _ : unit => k) (require b AssertionError))
  (at level 20, b at level 200, k at level 200, right associativity) : stdpp_scope.

Fixpoint foldM {S A} (f : S -> A -> res S) (s : S) (l : list A) : res S :=
  match l with
  | [] => Ok s
  | a :: l => s' ← f s a; foldM f s' l
  end.

Definition of_option {A} (o : option A) (e : exn) : res A :=
  match o with Some a => Ok a | None => Raise e end.

Fixpoint mapM {A B} (f : A -> res B) (l : list A) : res (list B) :=
  match l with
  | [] => Ok []
  | a :: l => b ← f a; k ← mapM f l; Ok (b :: k)
  end.

(** The call returns, and what it returns satisfies [Q]: total correctness. *)
Definition returns {A} (m : res A) (Q : A -> Prop) : Prop :=
  match m with Ok a => Q a | Raise _ => False end.

Lemma returns_bind {A B} (m : res A) (f : A -> res B) (P : A -> Prop) Q :
  returns m P -> (forall a, P a -> returns (f a) Q) -> returns (m ≫= f) Q.
Proof. destruct m as [a|e]; cbn; [|done]. intros Ha Hf. by apply Hf. Qed.

Lemma returns_mono {A} (m : res A) (P Q : A -> Prop) :
  returns m P -> (forall a, P a -> Q a) -> returns m Q.
Proof. destruct m as [a|e]; cbn; [|done]. auto. Qed.

Lemma returns_require {A} b e (f : unit -> res A) Q :
  b = true -> returns (f tt) Q -> returns (require b e ≫= f) Q.
Proof. by intros -> Hf. Qed.

Lemma returns_of_option {A B} (o : option A) x e (f : A -> res B) Q :
  o = Some x -> returns (f x) Q -> returns (of_option o e ≫= f) Q.
Proof. by intros -> Hf. Qed.

Lemma returns_and {A} (m : res A) (P Q : A -> Prop) :
  returns m P -> returns m Q -> returns m (fun a => P a /\ Q a).
Proof. by destruct m. Qed.

Lemma returns_Ok {A} (m : res A) Q : returns m Q -> exists a, m = Ok a /\ Q a.
Proof. destruct m as [a|e]; cbn; [|done]. eauto. Qed.

Lemma mapM_total {A B} (R : A -> B -> Prop) (f : A -> res B) l :
  (forall x, x ∈ l -> exists y, f x = Ok y /\ R x y) -> exists k, mapM f l = Ok k /\ Forall2 R l k.
Proof.
  induction l as [|x l IH]; intros Hf; [by exists []|]. cbn [mapM].
  destruct (Hf x) as (y & -> & Hy); [by left|]. destruct IH as (k & -> & Hk); [intros z Hz; apply Hf; by right|].
  exists (y :: k). split; [done|by constructor].
Qed.

(** ** Python integers: lengths, ceilings, indices *)

Definition len {A} (l : list A) : Z := Z.of_nat (length l).

(** [-(-a // b)], and [math.ceil(a / b)] while the float quotient is exact, that is
    for operands below 2^53. *)
Definition cdiv (a b : Z) : Z := - ((- a) / b).

(** [l[i]] for an index that may be negative. *)
Definition py_nth {A} (l : list A) (i : Z) : option A :=
  if i <? 0 then
    if len l + i <? 0 then None else l !! Z.to_nat (len l + i)
  else l !! Z.to_nat i.

(** [l[a:b]] for [0 <= a]; slices never raise. *)
Definition py_slice {A} (l : list A) (a b : Z) : list A :=
  take (Z.to_nat (b - a)) (drop (Z.to_nat a) l).

(** [l[:n]] for [0 <= n]. *)
Definition py_take {A} (n : Z) (l : list A) : list A := take (Z.to_nat n) l.

Definition sumZ (l : list Z) : Z := foldr Z.add 0 l.

(** [max(l)] and [min(l)] of a non-empty list. *)
Definition maxZ (x : Z) (l : list Z) : Z := foldl Z.max x l.
Definition minZ (x : Z) (l : list Z) : Z := foldl Z.min x l.

(** [max(l)] and [min(l)], which raise [ValueError] on an empty list. *)
Definition py_max (l : list Z) : res Z :=
  match l with [] => Raise ValueError | x :: l => Ok (maxZ x l) end.
Definition py_min (l : list Z) : res Z :=
  match l with [] => Raise ValueError | x :: l => Ok (minZ x l) end.

(** [a // b] and [a % b], which raise on a zero divisor. *)
Definition py_floordiv (a b : Z) : res Z :=
  if b =? 0 then Raise ZeroDivisionError else Ok (a / b).

Definition py_mod (a b : Z) : res Z :=
  if b =? 0 then Raise ZeroDivisionError else Ok (a mod b).

(** [math.ceil(a / b)] (exact below 2^53). *)
Definition py_ceil_div (a b : Z) : res Z :=
  if b =? 0 then Raise ZeroDivisionError else Ok (cdiv a b).

(** [list(range(n))]. *)
Definition py_range (n : Z) : list Z := seqZ 0 n.

(** [sorted(set(l))]. *)
Definition sorted_set (l : list Z) : list Z := merge_sort Z.le (remove_dups l).

(** ** Insertion-ordered dictionaries

    A Python [dict] (and [OrderedDict]) iterates in insertion order: assigning to a
    key that is present keeps its position. *)
Abbreviation odict K V := (list (K * V)) (only parsing).

Section odict.
Context {K V : Type} `{EqDecision K}.

Fixpoint od_get (k : K) (d : odict K V) : option V :=
  match d with
  | [] => None
  | (k', v) :: d => if decide (k = k') then Some v else od_get k d
  end.

Fixpoint od_set (k : K) (v : V) (d : odict K V) : odict K V :=
  match d with
  | [] => [(k, v)]
  | (k', v') :: d => if decide (k = k') then (k', v) :: d else (k', v') :: od_set k v d
  end.

Definition od_pop (k : K) (d : odict K V) : odict K V :=
  filter (fun kv => kv.1 <> k) d.

(** [{k: f(v) for k, v in d.items()}] *)
Definition od_map {W} (f : V -> W) (d : odict K V) : odict K W :=
  (fun kv => (kv.1, f kv.2)) <$> d.

Definition od_keys (d : odict K V) : list K := d.*1.
Definition od_values (d : odict K V) : list V := d.*2.
End odict.
#[global] Arguments od_keys : simpl never.
#[global] Arguments od_values : simpl never.
#[global] Arguments od_pop : simpl never.

(** ** Tactics *)

(** Inverts every [... = Ok _] hypothesis built from the monad. *)
Ltac res_inv :=
  repeat match goal with
  | H : Raise _ = Ok _ |- _ => discriminate H
  | H : Ok _ = Raise _ |- _ => discriminate H
  | H : Ok _ = Ok _ |- _ => injection H as H; try subst
  | H : mret _ = Ok _ |- _ => injection H as H; try subst
  | H : mbind _ ?m = Ok _ |- _ =>
      let E := fresh "E" in
      destruct m eqn:E; cbn [mbind res_bind] in H; [|discriminate H]
  | H : fmap _ ?m = Ok _ |- _ =>
      let E := fresh "E" in
      destruct m eqn:E; cbn [fmap res_fmap] in H; [|discriminate H]
  | H : require ?b _ = Ok _ |- _ =>
      let E := fresh "E" in
      unfold require in H; destruct b eqn:E; [clear H|discriminate H]
  | H : of_option ?o _ = Ok _ |- _ =>
      let E := fresh "E" in
      unfold of_option in H; destruct o eqn:E; [|discriminate H]
  | H : (if ?b then Raise _ else _) = Ok _ |- _ =>
      let E := fresh "E" in destruct b eqn:E; [discriminate H|]
  | H : (if ?b then _ else Raise _) = Ok _ |- _ =>
      let E := fresh "E" in destruct b eqn:E; [|discriminate H]
  end.

(** Two results of one call are the same. *)
Ltac ok_eq :=
  repeat match goal with
  | H1 : ?x = Ok _, H2 : ?x = Ok _ |- _ => rewrite H1 in H2; simplify_eq
  end.

(** Reads boolean comparisons of integers as propositions. *)
Ltac zbool :=
  repeat match goal with
  | H : (_ <? _) = true |- _ => apply Z.ltb_lt in H
  | H : (_ <? _) = false |- _ => apply Z.ltb_ge in H
  | H : (_ <=? _) = true |- _ => apply Z.leb_le in H
  | H : (_ <=? _) = false |- _ => apply Z.leb_gt in H
  | H : (_ =? _) = true |- _ => apply Z.eqb_eq in H
  | H : (_ =? _) = false |- _ => apply Z.eqb_neq in H
  | H : (_ >? _) = _ |- _ => rewrite Z.gtb_ltb in H
  | H : (_ >=? _) = _ |- _ => rewrite Z.geb_leb in H
  | H : andb _ _ = true |- _ => apply andb_true_iff in H; destruct H
  | H : orb _ _ = false |- _ => apply orb_false_iff in H; destruct H
  | H : negb _ = true |- _ => apply negb_true_iff in H
  | H : negb _ = false |- _ => apply negb_false_iff in H
  | H : bool_decide _ = true |- _ => apply bool_decide_eq_true in H
  | H : bool_decide _ = false |- _ => apply bool_decide_eq_false in H
  end.

(** ** Lemmas on lists and integers *)

Lemma len_nonneg {A} (l : list A) : 0 <= len l.
Proof. unfold len. lia. Qed.

Lemma len_app {A} (l k : list A) : len (l ++ k) = len l + len k.
Proof. unfold len. rewrite length_app. lia. Qed.

Lemma len_nil {A} : len (@nil A) = 0.
Proof. reflexivity. Qed.

Lemma len_cons {A} (x : A) l : len (x :: l) = 1 + len l.
Proof. unfold len. simpl length. lia. Qed.

Lemma cdiv_spec a b : 0 < b -> b * (cdiv a b - 1) < a <= b * cdiv a b.
Proof.
  intros Hb. unfold cdiv.
  pose proof (Z.div_mod (- a) b). pose proof (Z.mod_pos_bound (- a) b). nia.
Qed.

Lemma cdiv_unique a b q : 0 < b -> b * (q - 1) < a <= b * q -> cdiv a b = q.
Proof. intros Hb H. pose proof (cdiv_spec a b Hb). nia. Qed.

Lemma maxZ_spec x l : x <= maxZ x l /\ (forall y, y ∈ l -> y <= maxZ x l) /\ maxZ x l ∈ x :: l.
Proof.
  unfold maxZ. revert x. induction l as [|a l IH]; intros x; cbn.
  { split; [lia|]. split; [|set_solver]. intros y Hy. by apply not_elem_of_nil in Hy. }
  destruct (IH (Z.max x a)) as (H1 & H2 & H3). split; [lia|]. split.
  - intros y [->|Hy]%elem_of_cons; [lia|auto].
  - apply elem_of_cons in H3 as [H3|H3]; [|set_solver].
    destruct (Z.max_spec x a) as [[_ E]|[_ E]]; rewrite H3, E; set_solver.
Qed.

Lemma minZ_spec x l : minZ x l <= x /\ (forall y, y ∈ l -> minZ x l <= y) /\ minZ x l ∈ x :: l.
Proof.
  unfold minZ. revert x. induction l as [|a l IH]; intros x; cbn.
  { split; [lia|]. split; [|set_solver]. intros y Hy. by apply not_elem_of_nil in Hy. }
  destruct (IH (Z.min x a)) as (H1 & H2 & H3). split; [lia|]. split.
  - intros y [->|Hy]%elem_of_cons; [lia|auto].
  - apply elem_of_cons in H3 as [H3|H3]; [|set_solver].
    destruct (Z.min_spec x a) as [[_ E]|[_ E]]; rewrite H3, E; set_solver.
Qed.

Lemma py_max_ok l : l <> [] -> exists m, py_max l = Ok m /\ m ∈ l /\ forall x, x ∈ l -> x <= m.
Proof.
  destruct l as [|x l]; [done|]. intros _. exists (maxZ x l). split; [done|].
  destruct (maxZ_spec x l) as (H1 & H2 & H3). split; [done|].
  intros y [->|Hy]%elem_of_cons; auto.
Qed.

Lemma py_min_ok l : l <> [] -> exists m, py_min l = Ok m /\ m ∈ l /\ forall x, x ∈ l -> m <= x.
Proof.
  destruct l as [|x l]; [done|]. intros _. exists (minZ x l). split; [done|].
  destruct (minZ_spec x l) as (H1 & H2 & H3). split; [done|].
  intros y [->|Hy]%elem_of_cons; auto.
Qed.

Lemma mapM_Ok {A B} (f : A -> res B) g l :
  (forall x, x ∈ l -> f x = Ok (g x)) -> mapM f l = Ok (g <$> l).
Proof.
  induction l as [|x l IH]; intros H; [done|]. simpl. rewrite H by set_solver. simpl.
  rewrite IH by set_solver. done.
Qed.

Lemma mapM_over {X A B} (h : A -> res B) (f : X -> A) (g : X -> B) xs :
  (forall x, x ∈ xs -> h (f x) = Ok (g x)) -> mapM h (f <$> xs) = Ok (g <$> xs).
Proof.
  induction xs as [|x xs IH]; intros H; [done|]. rewrite !fmap_cons. cbn [mapM]. rewrite H by (by left). cbn [mbind res_bind].
  rewrite IH; [done|]. intros y Hy. apply H. by right.
Qed.

Lemma mapM_Raise {A B} (f : A -> res B) e l :
  (forall x, x ∈ l -> (exists y, f x = Ok y) \/ f x = Raise e) ->
  (exists x, x ∈ l /\ f x = Raise e) -> mapM f l = Raise e.
Proof.
  induction l as [|x l IH]; intros H [x0 [Hx0 Hr]]; [by apply not_elem_of_nil in Hx0|]. simpl.
  destruct (H x ltac:(set_solver)) as [[y Hy]| ->]; [|done]. rewrite Hy. simpl.
  rewrite IH; [done|set_solver|]. exists x0. split; [|done].
  apply elem_of_cons in Hx0 as [->|]; [congruence|done].
Qed.

Lemma elem_of_sorted_set x l : x ∈ sorted_set l <-> x ∈ l.
Proof.
  unfold sorted_set. rewrite (merge_sort_Permutation Z.le (remove_dups l)).
  apply elem_of_remove_dups.
Qed.

Lemma NoDup_sorted_set l : NoDup (sorted_set l).
Proof.
  unfold sorted_set. rewrite (merge_sort_Permutation Z.le (remove_dups l)).
  apply NoDup_remove_dups.
Qed.

Lemma length_remove_dups_le (l : list Z) : (length (remove_dups l) <= length l)%nat.
Proof. induction l as [|x l IH]; simpl; [lia|]. case_decide; simpl; lia. Qed.

Lemma length_sorted_set_le l : (length (sorted_set l) <= length l)%nat.
Proof.
  unfold sorted_set. rewrite (merge_sort_Permutation Z.le (remove_dups l)).
  apply length_remove_dups_le.
Qed.

(** A sorted list without duplicates is strictly increasing. *)
Lemma sorted_set_strict l : StronglySorted Z.lt (sorted_set l).
Proof.
  pose proof (NoDup_sorted_set l) as Hnd.
  assert (Hs : StronglySorted Z.le (sorted_set l)).
  { apply Sorted_StronglySorted; [intros ???; lia|]. apply (Sorted_merge_sort Z.le). }
  induction Hs as [|x k Hk IH HF]; [constructor|].
  apply NoDup_cons in Hnd as [Hx Hnd]. constructor; [auto|].
  rewrite Forall_forall in HF |- *. intros y Hy.
  specialize (HF y Hy). assert (x <> y) by (intros ->; auto). lia.
Qed.

Lemma py_nth_last {A} (l : list A) : py_nth l (-1) = last l.
Proof.
  unfold py_nth. simpl. destruct (len l + -1 <? 0) eqn:E; zbool.
  - destruct l; [done|]. rewrite len_cons in E. pose proof (len_nonneg l). lia.
  - rewrite last_lookup. f_equal. unfold len in *. lia.
Qed.

Lemma lookup_py_slice {A} (l : list A) a b i :
  0 <= a -> py_slice l a b !! i =
    if decide (Z.of_nat i < b - a) then l !! (Z.to_nat a + i)%nat else None.
Proof.
  intros Ha. unfold py_slice. case_decide.
  - rewrite lookup_take_lt by lia. by rewrite lookup_drop.
  - apply lookup_take_ge. lia.
Qed.

Lemma len_py_slice {A} (l : list A) a b :
  0 <= a <= b -> b <= len l -> len (py_slice l a b) = b - a.
Proof. intros Ha Hb. unfold py_slice, len in *. rewrite length_take, length_drop. lia. Qed.

Lemma py_slice_slice {A} (l : list A) a b c d :
  0 <= a -> 0 <= c -> d <= b - a ->
  py_slice (py_slice l a b) c d = py_slice l (a + c) (a + d).
Proof.
  intros Ha Hc Hd. apply list_eq. intros i. rewrite !lookup_py_slice by lia.
  repeat case_decide; try lia; [|done].
  f_equal. lia.
Qed.

Lemma py_slice_app {A} (l : list A) a b c :
  0 <= a <= b -> b <= c -> py_slice l a b ++ py_slice l b c = py_slice l a c.
Proof.
  intros Ha Hb. apply list_eq. intros i. rewrite lookup_py_slice by lia.
  destruct (decide (b <= len l)).
  - assert (Hl : len (py_slice l a b) = b - a) by (apply len_py_slice; lia).
    unfold len in Hl. destruct (decide (Z.of_nat i < b - a)).
    + rewrite lookup_app_l by lia. rewrite lookup_py_slice by lia.
      rewrite decide_True by lia. by rewrite decide_True by lia.
    + rewrite lookup_app_r by lia. rewrite lookup_py_slice by lia.
      repeat case_decide; try lia; [|done]. f_equal. lia.
  - assert (py_slice l b c = []) as ->.
    { apply list_eq. intros j. rewrite lookup_py_slice by lia. case_decide; [|done].
      apply lookup_ge_None. unfold len in *. lia. }
    rewrite app_nil_r, lookup_py_slice by lia. repeat case_decide; try lia; try done.
    symmetry. apply lookup_ge_None. unfold len in *. lia.
Qed.

Lemma NoDup_py_slice {A} (l : list A) a b : NoDup l -> NoDup (py_slice l a b).
Proof.
  intros H. unfold py_slice. eapply sublist_NoDup; [done|].
  etrans; [apply sublist_take|apply sublist_drop].
Qed.

Lemma elem_of_py_slice {A} (l : list A) a b x :
  0 <= a -> x ∈ py_slice l a b <-> exists k : nat, l !! k = Some x /\ a <= Z.of_nat k < b.
Proof.
  intros Ha. rewrite list_elem_of_lookup. setoid_rewrite lookup_py_slice; [|done]. split.
  - intros [i Hi]. case_decide; [|done]. exists (Z.to_nat a + i)%nat. split; [done|lia].
  - intros (k & Hk & Hab). exists (k - Z.to_nat a)%nat. rewrite decide_True by lia.
    replace (Z.to_nat a + (k - Z.to_nat a))%nat with k by lia. done.
Qed.

(** Slices of a list without duplicates that do not overlap are disjoint. *)
Lemma py_slice_disjoint {A} (l : list A) a b c d x :
  NoDup l -> 0 <= a -> 0 <= c -> b <= c \/ d <= a ->
  x ∈ py_slice l a b -> x ∉ py_slice l c d.
Proof.
  intros Hl Ha Hc Hbc. rewrite !elem_of_py_slice by done. intros (k & Hk & ?) (k' & Hk' & ?).
  pose proof (NoDup_lookup _ _ _ _ Hl Hk Hk'). lia.
Qed.

Lemma list_filter_all {A} (P : A -> Prop) `{!forall x, Decision (P x)} (l : list A) :
  (forall x, x ∈ l -> P x) -> filter P l = l.
Proof.
  induction l as [|x l IH]; intros HP; [done|].
  rewrite filter_cons, decide_True by (apply HP; by left).
  rewrite IH; [done|]. intros y Hy. apply HP. by right.
Qed.

(** ** Dictionaries *)
Section odict_lemmas.
Context {K V : Type} `{EqDecision K}.
Implicit Types d : odict K V.

Lemma od_get_set k v k' d :
  od_get k' (od_set k v d) = if decide (k' = k) then Some v else od_get k' d.
Proof. induction d as [|[k0 v0] d IH]; simpl; repeat (case_decide; simplify_eq/=); auto. Qed.

Lemma od_get_set_eq k v d : od_get k (od_set k v d) = Some v.
Proof. rewrite od_get_set. by case_decide. Qed.

Lemma od_get_set_ne k v k' d : k' <> k -> od_get k' (od_set k v d) = od_get k' d.
Proof. intros. rewrite od_get_set. by case_decide. Qed.

Lemma od_get_pop k k' d :
  od_get k' (od_pop k d) = if decide (k' = k) then None else od_get k' d.
Proof.
  unfold od_pop. induction d as [|[k0 v0] d IH]; [by case_decide|]. rewrite filter_cons.
  cbn [fst od_get]. repeat (case_decide; cbn [od_get]; simplify_eq/=); auto.
Qed.

Lemma elem_of_od_keys k d : k ∈ od_keys d <-> is_Some (od_get k d).
Proof.
  unfold od_keys. induction d as [|[k0 v0] d IH]; simpl.
  { split; [by intros ?%not_elem_of_nil|by intros []]. }
  rewrite elem_of_cons, IH. case_decide; [naive_solver|]. split; [intros [->|]|]; auto. done.
Qed.

Lemma not_elem_of_od_keys k d : k ∉ od_keys d <-> od_get k d = None.
Proof. rewrite elem_of_od_keys. symmetry. apply eq_None_not_Some. Qed.

Lemma od_keys_set k v d :
  od_keys (od_set k v d) = od_keys d ++ (if decide (k ∈ od_keys d) then [] else [k]).
Proof.
  unfold od_keys. induction d as [|[k0 v0] d IH]; [done|].
  cbn [od_set]. destruct (decide (k = k0)) as [->|Hk]; rewrite !fmap_cons; cbn [fst].
  - rewrite decide_True by (by left). by rewrite app_nil_r.
  - rewrite IH. simpl. do 2 f_equal. apply decide_ext. rewrite elem_of_cons. naive_solver.
Qed.

Lemma NoDup_od_set k v d : NoDup (od_keys d) -> NoDup (od_keys (od_set k v d)).
Proof.
  intros Hd. rewrite od_keys_set. case_decide; [by rewrite app_nil_r|].
  apply NoDup_app. split; [done|]. split; [set_solver|apply NoDup_singleton].
Qed.

Lemma od_keys_pop k d : od_keys (od_pop k d) = filter (fun x => x <> k) (od_keys d).
Proof.
  unfold od_keys, od_pop. induction d as [|[k0 v0] d IH]; [done|].
  rewrite fmap_cons, !filter_cons. cbn [fst]. repeat case_decide; rewrite ?fmap_cons, ?IH; done.
Qed.

Lemma NoDup_od_pop k d : NoDup (od_keys d) -> NoDup (od_keys (od_pop k d)).
Proof. intros. rewrite od_keys_pop. by apply NoDup_filter. Qed.

Lemma od_set_new k v d : k ∉ od_keys d -> od_set k v d = d ++ [(k, v)].
Proof.
  induction d as [|[k' v'] d IH]; [done|]. unfold od_keys. cbn. intros Hk.
  rewrite decide_False by set_solver. by rewrite IH by (unfold od_keys; set_solver).
Qed.

Lemma od_pop_notin k d : k ∉ od_keys d -> od_pop k d = d.
Proof.
  intros Hk. unfold od_pop. apply list_filter_all. intros [k' v'] Hin Heq. cbn in Heq. subst.
  apply Hk. unfold od_keys. by apply (list_elem_of_fmap_2 fst) in Hin.
Qed.

Lemma od_pop_split k v d : NoDup (od_keys d) -> od_get k d = Some v ->
  exists d1 d2, d = d1 ++ (k, v) :: d2 /\ od_pop k d = d1 ++ d2.
Proof.
  unfold od_keys. induction d as [|[k' v'] d IH]; [done|]. cbn. intros [Hn Hnd]%NoDup_cons Hg.
  unfold od_pop. case_decide; simplify_eq.
  - exists [], d. split; [done|]. rewrite filter_cons_False by (cbn; naive_solver).
    by apply od_pop_notin.
  - destruct IH as (d1 & d2 & -> & Hp); [done|done|]. exists ((k', v') :: d1), d2. split; [done|].
    rewrite filter_cons_True by (cbn; naive_solver). cbn. by f_equal.
Qed.

Lemma elem_of_odict k v d : NoDup (od_keys d) -> (k, v) ∈ d <-> od_get k d = Some v.
Proof.
  unfold od_keys. induction d as [|[k0 v0] d IH]; simpl; intros Hd.
  { split; [by intros ?%not_elem_of_nil|done]. }
  apply NoDup_cons in Hd as [Hk0 Hd]. rewrite elem_of_cons, IH by done. case_decide; simplify_eq.
  - split; [intros [[= ->]|Hg]; [done|]|intros [= ->]; by left].
    exfalso. apply Hk0. change (d.*1) with (od_keys d). apply elem_of_od_keys. eauto.
  - split; [intros [[= -> ->]|]|]; auto. done.
Qed.
Lemma od_get_map {W} (f : V -> W) k d : od_get k (od_map f d) = f <$> od_get k d.
Proof. unfold od_map. induction d as [|[k' v] d IH]; cbn; [done|]. by case_decide. Qed.

Lemma od_set_map {W} (f : V -> W) k v d : od_set k (f v) (od_map f d) = od_map f (od_set k v d).
Proof.
  unfold od_map. induction d as [|[k' w] d IH]; cbn; [done|]. case_decide; cbn; [done|]. by rewrite <- IH.
Qed.

Lemma od_keys_map {W} (f : V -> W) d : od_keys (od_map f d) = od_keys d.
Proof. unfold od_keys, od_map. by rewrite <- list_fmap_compose. Qed.

Lemma od_get_Forall (P : V -> Prop) k v d :
  Forall (fun kv => P kv.2) d -> od_get k d = Some v -> P v.
Proof.
  induction 1 as [|[k' w] d Hw Hd IH]; cbn; [done|]. case_decide; [|auto]. intros [= <-]. done.
Qed.

Lemma Forall_od_set (P : V -> Prop) k v d :
  Forall (fun kv => P kv.2) d -> P v -> Forall (fun kv => P kv.2) (od_set k v d).
Proof.
  induction 1 as [|[k' w] d Hw Hd IH]; cbn; intros Hv; [by repeat constructor|].
  case_decide; constructor; auto.
Qed.
End odict_lemmas.

Create HintDb rbln.
Create Rewrite HintDb rbln.
#[export] Hint Resolve len_nonneg NoDup_sorted_set sorted_set_strict : rbln.
#[export] Hint Resolve NoDup_od_set NoDup_od_pop NoDup_py_slice : rbln.
#[export] Hint Rewrite @od_get_set_eq : rbln.
#[export] Hint Rewrite @len_app @len_nil @len_cons : rbln.
#[export] Hint Rewrite @lookup_py_slice @len_py_slice using lia : rbln.

Lemma sumZ_app l k : sumZ (l ++ k) = sumZ l + sumZ k.
Proof. unfold sumZ. induction l as [|x l IH]; cbn; lia. Qed.

Lemma sumZ_cons x l : sumZ (x :: l) = x + sumZ l.
Proof. done. Qed.

Lemma sumZ_perm l k : l ≡ₚ k -> sumZ l = sumZ k.
Proof. induction 1; rewrite ?sumZ_cons; lia. Qed.

Lemma sumZ_nonneg l : Forall (Z.le 0) l -> 0 <= sumZ l.
Proof. induction 1; rewrite ?sumZ_cons; cbn; lia. Qed.
