(* ===== verification/VllmTypes.v ===== *)
(** * Data the program shares with vLLM

    Requests, KV cache specs and scheduler outputs are classes of vLLM, which is not part
    of the repository.  The records below hold the attributes the repository's code reads
    and writes; they carry no behaviour of their own, except the read-only properties
    [num_tokens] and [num_tokens_with_spec], which vLLM defines as lengths. *)

From S2P Require Import Prelude.

(** [RequestStatus], the members the schedulers test or assign. *)
Inductive RequestStatus :=
  | WAITING | WAITING_FOR_STRUCTURED_OUTPUT_GRAMMAR | WAITING_FOR_REMOTE_KVS
  | WAITING_FOR_STREAMING_REQ | RUNNING | PREEMPTED | FINISHED.

#[export] Instance RequestStatus_eq_dec : EqDecision RequestStatus.
Proof. solve_decision. Defined.

Record Request := mkRequest {
  request_id : string;
  status : RequestStatus;
  num_prompt_tokens : Z;
  (** prompt and generated tokens, committed *)
  all_token_ids : list Z;
  num_computed_tokens : Z;
  spec_token_ids : list Z;
  num_output_placeholders : Z;
  max_tokens : Z;
  priority : Z;
  arrival_time : Z;
  num_preemptions : Z;
  num_external_computed_tokens : Z;
  skip_reading_prefix_cache : bool;
  lora_int_id : option Z;
  has_encoder_inputs : bool;
  shared_prefix_boundary : Z;
  (** prompt, locally cached and externally cached tokens of the first prefill *)
  prefill_stats : option (Z * Z * Z)
}.

Definition num_tokens (r : Request) : Z := len (all_token_ids r).
Definition num_tokens_with_spec (r : Request) : Z :=
  len (all_token_ids r) + len (spec_token_ids r).

(** The attributes the code assigns. *)
Definition with_status (x : RequestStatus) (r : Request) : Request :=
  mkRequest (request_id r) x (num_prompt_tokens r) (all_token_ids r)
    (num_computed_tokens r) (spec_token_ids r) (num_output_placeholders r)
    (max_tokens r) (priority r) (arrival_time r) (num_preemptions r)
    (num_external_computed_tokens r) (skip_reading_prefix_cache r) (lora_int_id r)
    (has_encoder_inputs r) (shared_prefix_boundary r) (prefill_stats r).

Definition with_num_computed_tokens (x : Z) (r : Request) : Request :=
  mkRequest (request_id r) (status r) (num_prompt_tokens r) (all_token_ids r) x
    (spec_token_ids r) (num_output_placeholders r) (max_tokens r) (priority r)
    (arrival_time r) (num_preemptions r) (num_external_computed_tokens r)
    (skip_reading_prefix_cache r) (lora_int_id r) (has_encoder_inputs r)
    (shared_prefix_boundary r) (prefill_stats r).

Definition with_spec_token_ids (x : list Z) (r : Request) : Request :=
  mkRequest (request_id r) (status r) (num_prompt_tokens r) (all_token_ids r)
    (num_computed_tokens r) x (num_output_placeholders r) (max_tokens r) (priority r)
    (arrival_time r) (num_preemptions r) (num_external_computed_tokens r)
    (skip_reading_prefix_cache r) (lora_int_id r) (has_encoder_inputs r)
    (shared_prefix_boundary r) (prefill_stats r).

Definition with_num_preemptions (x : Z) (r : Request) : Request :=
  mkRequest (request_id r) (status r) (num_prompt_tokens r) (all_token_ids r)
    (num_computed_tokens r) (spec_token_ids r) (num_output_placeholders r)
    (max_tokens r) (priority r) (arrival_time r) x (num_external_computed_tokens r)
    (skip_reading_prefix_cache r) (lora_int_id r) (has_encoder_inputs r)
    (shared_prefix_boundary r) (prefill_stats r).

Definition with_num_external_computed_tokens (x : Z) (r : Request) : Request :=
  mkRequest (request_id r) (status r) (num_prompt_tokens r) (all_token_ids r)
    (num_computed_tokens r) (spec_token_ids r) (num_output_placeholders r)
    (max_tokens r) (priority r) (arrival_time r) (num_preemptions r) x
    (skip_reading_prefix_cache r) (lora_int_id r) (has_encoder_inputs r)
    (shared_prefix_boundary r) (prefill_stats r).

Definition with_shared_prefix_boundary (x : Z) (r : Request) : Request :=
  mkRequest (request_id r) (status r) (num_prompt_tokens r) (all_token_ids r)
    (num_computed_tokens r) (spec_token_ids r) (num_output_placeholders r)
    (max_tokens r) (priority r) (arrival_time r) (num_preemptions r)
    (num_external_computed_tokens r) (skip_reading_prefix_cache r) (lora_int_id r)
    (has_encoder_inputs r) x (prefill_stats r).

Definition with_prefill_stats (x : option (Z * Z * Z)) (r : Request) : Request :=
  mkRequest (request_id r) (status r) (num_prompt_tokens r) (all_token_ids r)
    (num_computed_tokens r) (spec_token_ids r) (num_output_placeholders r)
    (max_tokens r) (priority r) (arrival_time r) (num_preemptions r)
    (num_external_computed_tokens r) (skip_reading_prefix_cache r) (lora_int_id r)
    (has_encoder_inputs r) (shared_prefix_boundary r) x.

(** The classes of [KVCacheSpec] the code tests with [isinstance]; a subclass counts as
    its parent (MLA attention as full attention). *)
Inductive spec_class :=
  | FullAttentionSpec | SlidingWindowSpec | ChunkedLocalAttentionSpec | MambaSpec
  | OtherSpec.

Record KVCacheSpec := mkSpec { spec_kind : spec_class; spec_block_size : Z }.
