(* ===== verification/Bucketing.v ===== *)
(** * Decode bucketing ([src/vllm_rbln/v1/worker/bucketing/])

    The managers that turn a maximal decode batch into the ascending list of batch
    sizes for which a graph is compiled, and the lookup that rounds a decode batch up
    to one of them.  [grow_buckets] is the [while] loop both generated strategies
    share; its fuel is the [limit], because every turn makes the list longer and the
    loop stops at [limit] entries. *)

From S2P Require Import Prelude.

(** ** Data *)

Inductive strategy := Exponential | Linear | Manual.

Record RBLNBucketingManager := mkManager {
  kind : strategy;
  max_batch_size : Z;
  decode_batch_buckets : list Z;
  batch_buckets : list Z
}.

(** ** Operations *)

(** The checks run in this order, each with its own [ValueError]. *)
Definition check_config (max_batch_size min_batch_size limit step : Z) : res unit :=
  if max_batch_size <? min_batch_size then Raise ValueError
  else if limit <=? 0 then Raise ValueError
  else if step <=? 0 then Raise ValueError
  else if min_batch_size <=? 0 then Raise ValueError
  else Ok tt.

(** [while len(buckets) < limit: candidate = next(buckets[-1]); ...]. *)
Fixpoint grow_buckets (fuel : nat) (next : Z -> Z) (min_batch_size limit : Z)
    (buckets : list Z) : res (list Z) :=
  if len buckets <? limit then
    match fuel with
    | O => Raise OutOfFuel
    | S fuel =>
        last_bucket ← of_option (py_nth buckets (-1)) IndexError;
        let candidate := next last_bucket in
        if candidate <? min_batch_size then Ok buckets
        else grow_buckets fuel next min_batch_size limit (buckets ++ [candidate])
    end
  else Ok buckets.

Definition exponential_build (max_batch_size min_batch_size limit step : Z)
    : res (list Z) :=
  if step <=? 1 then Raise ValueError
  else
    buckets ← grow_buckets (Z.to_nat limit) (fun b => b / step) min_batch_size limit
                [max_batch_size];
    Ok (sorted_set buckets).

Definition linear_build (max_batch_size min_batch_size limit step : Z)
    : res (list Z) :=
  buckets ← grow_buckets (Z.to_nat limit) (fun b => b - step) min_batch_size limit
              [max_batch_size];
  Ok (sorted_set buckets).

Definition manual_build (max_batch_size : Z) (manual_buckets : list Z)
    : res (list Z) :=
  let buckets := sorted_set manual_buckets in
  last_bucket ← of_option (py_nth buckets (-1)) IndexError;
  if last_bucket =? max_batch_size then Ok buckets else Raise ValueError.

(** [RBLNBucketingManager.__init__]: build, then [sorted({1, *decode_buckets})]. *)
Definition init_manager (k : strategy) (max_batch_size : Z) (build : res (list Z))
    : res RBLNBucketingManager :=
  buckets ← build;
  Ok (mkManager k max_batch_size buckets (sorted_set (1 :: buckets))).

Definition ExponentialBucketingManager (max_batch_size min_batch_size limit step : Z)
    : res RBLNBucketingManager :=
  _ ← check_config max_batch_size min_batch_size limit step;
  init_manager Exponential max_batch_size
    (exponential_build max_batch_size min_batch_size limit step).

Definition LinearBucketingManager (max_batch_size min_batch_size limit step : Z)
    : res RBLNBucketingManager :=
  _ ← check_config max_batch_size min_batch_size limit step;
  init_manager Linear max_batch_size
    (linear_build max_batch_size min_batch_size limit step).

Definition ManualBucketingManager (max_batch_size : Z) (manual_buckets : list Z)
    : res RBLNBucketingManager :=
  assert! (0 <? len manual_buckets);
  init_manager Manual max_batch_size (manual_build max_batch_size manual_buckets).

Definition get_bucketing_manager (strategy_name : string)
    (max_batch_size min_batch_size limit step : Z) (manual_buckets : option (list Z))
    : res RBLNBucketingManager :=
  if decide (strategy_name = "exponential"%string) then
    ExponentialBucketingManager max_batch_size min_batch_size limit step
  else if decide (strategy_name = "linear"%string) then
    LinearBucketingManager max_batch_size min_batch_size limit step
  else if decide (strategy_name = "manual"%string) then
    ManualBucketingManager max_batch_size (default [] manual_buckets)
  else Raise ValueError.

Fixpoint find_bucket_in (buckets : list Z) (batch_size : Z) : res Z :=
  match buckets with
  | [] => Raise ValueError
  | bucket :: buckets =>
      if batch_size <=? bucket then Ok bucket else find_bucket_in buckets batch_size
  end.

Definition find_decode_batch_bucket (m : RBLNBucketingManager) (batch_size : Z)
    : res Z :=
  find_bucket_in (decode_batch_buckets m) batch_size.

Definition batch_buckets_count (m : RBLNBucketingManager) : Z := len (batch_buckets m).

Definition decode_batch_buckets_count (m : RBLNBucketingManager) : Z :=
  len (decode_batch_buckets m).

(** ** The interface other components use

    The scheduler, the runner and the data-parallel rule only see an ascending list of
    compiled sizes and a lookup into it.  [BucketFinder] is that promise; the managers
    below discharge it and [DPUtils] is proved against it. *)
Class BucketFinder (buckets : list Z) (find : Z -> res Z) : Prop := {
  bf_sorted : StronglySorted Z.lt buckets;
  bf_nonempty : buckets <> [];
  bf_find_ok : forall n b, find n = Ok b ->
    b ∈ buckets /\ n <= b /\ forall b', b' ∈ buckets -> n <= b' -> b <= b';
  bf_find_total : forall n b, b ∈ buckets -> n <= b -> exists b', find n = Ok b'
}.

(** ** The generated lists *)

(** What the loop produces: an [iter]-chain of [next] from the first element, each
    link above [min_batch_size]. *)
Inductive chain (next : Z -> Z) (lo : Z) : Z -> list Z -> Prop :=
  | chain_one b : chain next lo b [b]
  | chain_snoc b l c : chain next lo b l -> last l = Some c -> lo <= next c ->
      chain next lo b (l ++ [next c]).

Lemma grow_buckets_total next lo limit : forall fuel l,
  l <> [] -> limit <= len l + Z.of_nat fuel ->
  exists l', grow_buckets fuel next lo limit l = Ok l'.
Proof.
  induction fuel as [|fuel IH]; intros l Hl Hf; simpl.
  - destruct (len l <? limit) eqn:E; zbool; [lia|eauto].
  - destruct (len l <? limit) eqn:E; [|eauto].
    rewrite py_nth_last. destruct (last l) as [c|] eqn:El.
    2:{ apply last_None in El. done. }
    simpl. destruct (next c <? lo); [eauto|].
    apply IH; [destruct l; discriminate|].
    rewrite len_app, len_cons, len_nil. lia.
Qed.

Lemma grow_buckets_chain next lo limit b : forall fuel l l',
  chain next lo b l -> len l <= Z.max 1 limit ->
  grow_buckets fuel next lo limit l = Ok l' ->
  chain next lo b l' /\ len l' <= Z.max 1 limit /\
  (len l' < limit -> forall c, last l' = Some c -> next c < lo).
Proof.
  induction fuel as [|fuel IH]; intros l l' Hc Hlen; simpl;
    (destruct (len l <? limit) eqn:E; zbool;
      [|intros [= <-]; split; [done|split; [done|lia]]]); [done|].
  rewrite py_nth_last. destruct (last l) as [c|] eqn:El; [|done]. simpl.
  destruct (next c <? lo) eqn:Ec; zbool.
  - intros [= <-]. split; [done|]. split; [done|]. intros _ c' Hc'. congruence.
  - apply IH; [by constructor|]. rewrite len_app, len_cons, len_nil. lia.
Qed.

Lemma chain_head next lo b l : chain next lo b l -> exists k, l = b :: k.
Proof.
  induction 1 as [b|b l c _ [k ->] _ _]; [by exists []|]. by exists (k ++ [next c]).
Qed.

(** The i-th element of a chain is the i-th iterate. *)
Lemma chain_lookup next lo b l : chain next lo b l ->
  forall i x, l !! i = Some x <-> (i < length l)%nat /\ x = Nat.iter i next b.
Proof.
  induction 1 as [b|b l c Hc IH Hl Hlo]; intros i x.
  - destruct i as [|i]; simpl; [split; [intros [= <-]; split; [lia|done]|intros [_ ->]; done]|].
    split; [done|lia].
  - rewrite length_app. simpl. rewrite last_lookup in Hl.
    apply IH in Hl as [Hlt ->].
    destruct (decide (i < length l)%nat) as [Hi|Hi].
    + rewrite lookup_app_l by done. rewrite IH. intuition lia.
    + rewrite lookup_app_r by lia. destruct (decide (i = length l)) as [->|].
      * rewrite Nat.sub_diag. simpl.
        replace (Nat.iter (length l) next b) with
          (next (Nat.iter (Nat.pred (length l)) next b)).
        2:{ destruct (length l); [lia|done]. }
        split; [intros [= <-]; split; [lia|done]|intros [_ ->]; done].
      * destruct (i - length l)%nat eqn:Ei; [lia|]. simpl. split; [done|lia].
Qed.

Lemma chain_ge next lo b l : lo <= b -> chain next lo b l -> Forall (fun x => lo <= x) l.
Proof.
  intros Hb. induction 1 as [b|b l c Hc IH Hl Hlo]; [by constructor|].
  apply Forall_app; auto.
Qed.

Lemma chain_tail_ge next lo b l : chain next lo b l ->
  forall i x, l !! i = Some x -> i <> O -> lo <= x.
Proof.
  induction 1 as [b|b l c Hc IH Hl Hlo]; intros i x Hx Hi; [by destruct i as [|[]]|].
  apply lookup_app_Some in Hx as [Hx|[_ Hx]]; [eauto|].
  apply list_lookup_singleton_Some in Hx as [_ <-]. done.
Qed.

(** ** Lookup *)

Lemma find_bucket_in_ok : forall buckets n b,
  StronglySorted Z.lt buckets -> find_bucket_in buckets n = Ok b ->
  b ∈ buckets /\ n <= b /\ forall b', b' ∈ buckets -> n <= b' -> b <= b'.
Proof.
  induction buckets as [|x l IH]; intros n b Hs; simpl; [done|].
  apply StronglySorted_inv in Hs as [Hs HF]. rewrite Forall_forall in HF.
  destruct (n <=? x) eqn:E; zbool.
  - intros [= <-]. split; [set_solver|]. split; [done|].
    intros b' [->|Hb']%elem_of_cons _; [lia|]. specialize (HF b' Hb'). lia.
  - intros (Hb & Hn & Hleast)%IH; [|done]. split; [set_solver|]. split; [done|].
    intros b' [->|Hb']%elem_of_cons Hn'; [lia|auto].
Qed.

Lemma find_bucket_in_total : forall buckets n b,
  b ∈ buckets -> n <= b -> exists b', find_bucket_in buckets n = Ok b'.
Proof.
  induction buckets as [|x l IH]; intros n b Hb Hn; [by apply not_elem_of_nil in Hb|].
  simpl. destruct (n <=? x) eqn:E; zbool; [eauto|].
  apply elem_of_cons in Hb as [->|Hb]; [lia|eauto].
Qed.

Lemma find_bucket_in_raise : forall buckets n,
  (forall b, b ∈ buckets -> b < n) -> find_bucket_in buckets n = Raise ValueError.
Proof.
  induction buckets as [|x l IH]; intros n Hn; [done|]. simpl.
  destruct (n <=? x) eqn:E; zbool; [|apply IH; set_solver].
  specialize (Hn x ltac:(set_solver)). lia.
Qed.

#[export] Instance BucketFinder_list buckets :
  StronglySorted Z.lt buckets -> buckets <> [] ->
  BucketFinder buckets (find_bucket_in buckets).
Proof.
  intros Hs Hne. split; [done|done| |].
  - intros n b. by apply find_bucket_in_ok.
  - intros n b. apply find_bucket_in_total.
Qed.

(** ** Well-formed managers *)

(** Every bucket list a constructor returns: ascending, non-empty, topped by
    [max_batch_size]. *)
Definition manager_wf (m : RBLNBucketingManager) : Prop :=
  StronglySorted Z.lt (decode_batch_buckets m) /\
  max_batch_size m ∈ decode_batch_buckets m /\
  (forall b, b ∈ decode_batch_buckets m -> b <= max_batch_size m) /\
  batch_buckets m = sorted_set (1 :: decode_batch_buckets m).

Lemma manager_wf_nonempty m : manager_wf m -> decode_batch_buckets m <> [].
Proof. intros (_ & H & _) E. rewrite E in H. by apply not_elem_of_nil in H. Qed.

Lemma chain_le next lo b l :
  (forall c, lo <= c -> next c <= c) -> lo <= b -> chain next lo b l ->
  Forall (fun x => x <= b) l.
Proof.
  intros Hn Hb Hc. pose proof (chain_ge _ _ _ _ Hb Hc) as Hge.
  induction Hc as [b|b l c Hc IH Hl Hlo]; [repeat constructor; lia|].
  apply Forall_app in Hge as [Hge _]. specialize (IH Hb Hge).
  apply Forall_app. split; [done|]. constructor; [|constructor].
  assert (Hin : c ∈ l) by (by apply last_Some_elem_of).
  rewrite Forall_forall in IH, Hge. specialize (IH c Hin). specialize (Hge c Hin).
  specialize (Hn c Hge). lia.
Qed.

Lemma generated_wf k next mx lo limit l :
  (forall c, lo <= c -> next c <= c) -> lo <= mx -> chain next lo mx l ->
  manager_wf (mkManager k mx (sorted_set l) (sorted_set (1 :: sorted_set l))) /\
  Forall (fun b => lo <= b) (sorted_set l) /\ (len l <= limit -> len (sorted_set l) <= limit).
Proof.
  intros Hn Hmx Hc. split; [split; [apply sorted_set_strict|split; [|split]]|split].
  - cbn. rewrite elem_of_sorted_set. destruct (chain_head _ _ _ _ Hc) as [k' ->]. set_solver.
  - cbn. intros b Hb. rewrite elem_of_sorted_set in Hb.
    pose proof (chain_le _ _ _ _ Hn Hmx Hc) as HF. rewrite Forall_forall in HF. auto.
  - done.
  - rewrite Forall_forall. intros b Hb. rewrite elem_of_sorted_set in Hb.
    pose proof (chain_ge _ _ _ _ Hmx Hc) as HF. rewrite Forall_forall in HF. auto.
  - unfold len. pose proof (length_sorted_set_le l). lia.
Qed.

Lemma iter_nonincreasing next (P : Z -> Prop) b :
  (forall c, P c -> P (next c) /\ next c <= c) -> P b ->
  forall j i, (i <= j)%nat ->
  P (Nat.iter j next b) /\ Nat.iter j next b <= Nat.iter i next b.
Proof.
  intros Hn Hb. induction j as [|j IH]; intros i Hi.
  - replace i with 0%nat by lia. simpl. split; [done|lia].
  - destruct (decide (i = S j)) as [->|].
    + destruct (IH j ltac:(lia)) as [HP _]. simpl. destruct (Hn _ HP). split; [done|lia].
    + destruct (IH i ltac:(lia)) as [HP Hle]. simpl. destruct (Hn _ HP). split; [done|lia].
Qed.

(** The elements of a maximal chain: the iterates that stay above [lo], [limit] of
    them at most. *)
Lemma grow_elements next (P : Z -> Prop) lo limit b l :
  (forall c, P c -> P (next c) /\ next c <= c) -> P b -> 0 < limit ->
  chain next lo b l -> len l <= Z.max 1 limit ->
  (len l < limit -> forall c, last l = Some c -> next c < lo) ->
  forall x, x ∈ l <->
    exists i : nat, Z.of_nat i < limit /\ x = Nat.iter i next b /\ (i = O \/ lo <= x).
Proof.
  intros Hn Hb Hlim Hc Hlen Hmax x. rewrite list_elem_of_lookup.
  pose proof (chain_lookup _ _ _ _ Hc) as Hlk. destruct (chain_head _ _ _ _ Hc) as [k Hk].
  split.
  - intros [i Hi]. exists i. pose proof Hi as Hi'. apply Hlk in Hi' as [Hlt ->].
    split; [unfold len in *; lia|]. split; [done|].
    destruct i as [|i]; [by left|right].
    by apply (chain_tail_ge _ _ _ _ Hc (S i)).
  - intros (i & Hi & -> & Hor). exists i. apply Hlk. split; [|done].
    destruct (decide (i < length l)%nat) as [|Hge]; [done|exfalso].
    destruct l as [|b0 l0]; [done|]. set (l := b0 :: l0) in *.
    assert (Hlast : last l = Some (Nat.iter (Nat.pred (length l)) next b)).
    { rewrite last_lookup. apply Hlk. split; [simpl; lia|done]. }
    assert (Hll : len l < limit) by (unfold len; lia).
    specialize (Hmax Hll _ Hlast).
    replace (next (Nat.iter (Nat.pred (length l)) next b)) with (Nat.iter (length l) next b)
      in Hmax by done.
    destruct (iter_nonincreasing next P b Hn Hb i (length l) ltac:(lia)) as [_ Hle].
    destruct Hor as [->|Hor]; [simpl in Hge; lia|lia].
Qed.

Lemma iter_div step b i : 0 < step ->
  Nat.iter i (fun c => c / step) b = b / step ^ Z.of_nat i.
Proof.
  intros Hs. induction i as [|i IH]; [simpl; by rewrite Z.div_1_r|].
  change (Nat.iter (S i) (fun c => c / step) b) with (Nat.iter i (fun c => c / step) b / step).
  rewrite IH, Nat2Z.inj_succ, Z.pow_succ_r by lia.
  rewrite Z.div_div by (try lia; apply Z.pow_nonzero; lia). by rewrite (Z.mul_comm step).
Qed.

Lemma iter_sub step b i : Nat.iter i (fun c => c - step) b = b - step * Z.of_nat i.
Proof.
  induction i as [|i IH]; [simpl; lia|].
  change (Nat.iter (S i) (fun c => c - step) b) with (Nat.iter i (fun c => c - step) b - step).
  rewrite IH. lia.
Qed.

Lemma check_config_ok mx lo limit step :
  check_config mx lo limit step = Ok tt <-> lo <= mx /\ 0 < limit /\ 0 < step /\ 0 < lo.
Proof. unfold check_config. repeat case_match; zbool; intuition (try done; lia). Qed.

(** The two generated strategies at once: [next] is [b // step] or [b - step]. *)
Lemma grow_from_max next (P : Z -> Prop) mx lo limit :
  (forall c, P c -> P (next c) /\ next c <= c) -> (forall c, lo <= c -> P c) ->
  lo <= mx -> 0 < limit ->
  exists l, grow_buckets (Z.to_nat limit) next lo limit [mx] = Ok l /\
    chain next lo mx l /\ len l <= limit /\
    forall x, x ∈ l <->
      exists i : nat, Z.of_nat i < limit /\ x = Nat.iter i next mx /\ (i = O \/ lo <= x).
Proof.
  intros Hn HP Hmx Hlim.
  destruct (grow_buckets_total next lo limit (Z.to_nat limit) [mx]) as [l Hl];
    [done|rewrite len_cons, len_nil; lia|].
  destruct (grow_buckets_chain next lo limit mx (Z.to_nat limit) [mx] l)
    as (Hc & Hlen & Hmax); [constructor|rewrite len_cons, len_nil; lia|done|].
  exists l. split; [done|]. split; [done|]. split; [lia|].
  apply (grow_elements next P lo limit mx l); auto.
Qed.

Lemma div_next_ok step : 1 < step ->
  forall c, 0 <= c -> 0 <= c / step /\ c / step <= c.
Proof.
  intros Hs c Hc. split; [apply Z.div_pos; lia|].
  pose proof (Z.div_le_upper_bound c step c). nia.
Qed.

Lemma exponential_ok mx lo limit step :
  lo <= mx -> 0 < limit -> 1 < step -> 0 < lo ->
  exists m, ExponentialBucketingManager mx lo limit step = Ok m /\ manager_wf m /\
    max_batch_size m = mx /\ decode_batch_buckets_count m <= limit /\
    forall x, x ∈ decode_batch_buckets m <->
      exists i, 0 <= i < limit /\ x = mx / step ^ i /\ (i = 0 \/ lo <= x).
Proof.
  intros Hmx Hlim Hst Hlo. unfold ExponentialBucketingManager.
  rewrite (proj2 (check_config_ok mx lo limit step)) by lia. simpl.
  unfold exponential_build. destruct (step <=? 1) eqn:E; zbool; [lia|].
  destruct (grow_from_max (fun b => b / step) (fun c => 0 <= c) mx lo limit)
    as (l & -> & Hc & Hlen & Hel); [by apply div_next_ok|lia..|]. simpl.
  destruct (generated_wf Exponential (fun b => b / step) mx lo limit l)
    as (Hwf & _ & Hcnt); [|done..|].
  { intros c Hc'. apply div_next_ok; lia. }
  eexists. split; [done|]. split; [done|]. split; [done|]. split; [by apply Hcnt|].
  cbn. intros x. rewrite elem_of_sorted_set, Hel. split.
  - intros (i & Hi & -> & Ho). exists (Z.of_nat i). rewrite <- iter_div by lia.
    split; [lia|]. split; [done|]. destruct Ho; [left; lia|by right].
  - intros (i & Hi & -> & Ho). exists (Z.to_nat i). rewrite iter_div, Z2Nat.id by lia.
    split; [lia|]. split; [done|]. destruct Ho; [left; lia|by right].
Qed.

Lemma linear_ok mx lo limit step :
  lo <= mx -> 0 < limit -> 0 < step -> 0 < lo ->
  exists m, LinearBucketingManager mx lo limit step = Ok m /\ manager_wf m /\
    max_batch_size m = mx /\ decode_batch_buckets_count m <= limit /\
    forall x, x ∈ decode_batch_buckets m <->
      exists i, 0 <= i < limit /\ x = mx - step * i /\ (i = 0 \/ lo <= x).
Proof.
  intros Hmx Hlim Hst Hlo. unfold LinearBucketingManager.
  rewrite (proj2 (check_config_ok mx lo limit step)) by lia. simpl. unfold linear_build.
  destruct (grow_from_max (fun b => b - step) (fun _ => True) mx lo limit)
    as (l & -> & Hc & Hlen & Hel); [intros; split; [done|lia]|done|lia..|]. simpl.
  destruct (generated_wf Linear (fun b => b - step) mx lo limit l)
    as (Hwf & _ & Hcnt); [intros; lia|done..|].
  eexists. split; [done|]. split; [done|]. split; [done|]. split; [by apply Hcnt|].
  cbn. intros x. rewrite elem_of_sorted_set, Hel. split.
  - intros (i & Hi & -> & Ho). exists (Z.of_nat i). rewrite <- iter_sub.
    split; [lia|]. split; [done|]. destruct Ho; [left; lia|by right].
  - intros (i & Hi & -> & Ho). exists (Z.to_nat i). rewrite iter_sub, Z2Nat.id by lia.
    split; [lia|]. split; [done|]. destruct Ho; [left; lia|by right].
Qed.

Lemma strongly_sorted_last_max (l : list Z) x :
  StronglySorted Z.lt l -> last l = Some x -> forall y, y ∈ l -> y <= x.
Proof.
  induction l as [|a l IH]; [done|]. intros Hs Hx y Hy.
  apply StronglySorted_inv in Hs as [Hs HF]. rewrite Forall_forall in HF.
  destruct l as [|b l]; [injection Hx as ->; set_solver|].
  apply elem_of_cons in Hy as [->|Hy]; [|by apply IH].
  assert (x ∈ b :: l) by (by apply last_Some_elem_of).
  specialize (HF x ltac:(done)). lia.
Qed.

Lemma manual_ok mx l m : ManualBucketingManager mx l = Ok m ->
  manager_wf m /\ max_batch_size m = mx /\ forall x, x ∈ decode_batch_buckets m <-> x ∈ l.
Proof.
  unfold ManualBucketingManager, init_manager, manual_build. intros H.
  rewrite py_nth_last in H. res_inv. zbool. subst.
  match goal with H : last _ = Some _ |- _ => rename H into Hl end.
  split; [|split; [done|intros x; apply elem_of_sorted_set]].
  split; [apply sorted_set_strict|]. split.
  - cbn. by apply last_Some_elem_of.
  - split; [|done]. cbn. apply strongly_sorted_last_max; auto with rbln.
Qed.

Lemma generated_inv name mx lo limit step mb m :
  get_bucketing_manager name mx lo limit step mb = Ok m ->
  manager_wf m /\ max_batch_size m = mx /\
  (name <> "manual"%string -> decode_batch_buckets_count m <= limit /\
     forall b, b ∈ decode_batch_buckets m -> lo <= b).
Proof.
  unfold get_bucketing_manager. repeat case_decide; subst; [| | |done]; intros Hm.
  - assert (check_config mx lo limit step = Ok tt /\ 1 < step) as [Hcfg Hst].
    { unfold ExponentialBucketingManager, init_manager, exponential_build in Hm.
      res_inv. zbool. destruct_or?; subst. by destruct a. }
    apply check_config_ok in Hcfg.
    destruct (exponential_ok mx lo limit step) as (m' & Hm' & Hwf & Hmx & Hcnt & Hel); [lia..|].
    rewrite Hm' in Hm. injection Hm as <-. split; [done|]. split; [done|]. intros _.
    split; [done|]. intros b (i & _ & -> & [->|Hb])%Hel; [|done].
    rewrite Z.pow_0_r, Z.div_1_r. lia.
  - assert (check_config mx lo limit step = Ok tt) as Hcfg.
    { unfold LinearBucketingManager in Hm. res_inv. by destruct a. }
    apply check_config_ok in Hcfg.
    destruct (linear_ok mx lo limit step) as (m' & Hm' & Hwf & Hmx & Hcnt & Hel); [lia..|].
    rewrite Hm' in Hm. injection Hm as <-. split; [done|]. split; [done|]. intros _.
    split; [done|]. intros b (i & _ & -> & [->|Hb])%Hel; lia.
  - apply manual_ok in Hm as (? & ? & _). by split.
Qed.

#[export] Instance BucketFinder_manager m :
  manager_wf m -> BucketFinder (decode_batch_buckets m) (find_decode_batch_bucket m).
Proof. intros Hwf. apply BucketFinder_list; [apply Hwf|by apply manager_wf_nonempty]. Qed.

(** ** Properties *)

(** C27: whatever the strategy, a manager that is constructed rounds every decode batch
    up to the smallest compiled size that holds it, and the lookup raises exactly for
    the batches above [max_batch_size]; its list is ascending, and a generated one
    (exponential, linear) has [limit] entries at most, none below [min_batch_size]. *)
Theorem bucketing_manager_correct name mx lo limit step mb m :
  get_bucketing_manager name mx lo limit step mb = Ok m ->
  StronglySorted Z.lt (decode_batch_buckets m) /\
  (forall n, n <= mx -> exists b, find_decode_batch_bucket m n = Ok b /\
     b ∈ decode_batch_buckets m /\ n <= b <= mx /\
     forall b', b' ∈ decode_batch_buckets m -> n <= b' -> b <= b') /\
  (forall n, mx < n -> find_decode_batch_bucket m n = Raise ValueError) /\
  (name <> "manual"%string -> decode_batch_buckets_count m <= limit /\
     forall b, b ∈ decode_batch_buckets m -> lo <= b).
Proof.
  intros (Hwf & Hmx & Hgen)%generated_inv. pose proof (BucketFinder_manager m Hwf) as BF.
  destruct Hwf as (Hs & Htop & Hle & _). rewrite Hmx in *. split; [done|]. split; [|split; [|done]].
  - intros n Hn. destruct (bf_find_total n mx Htop Hn) as [b Hb].
    destruct (bf_find_ok n b Hb) as (Hin & Hnb & Hleast). exists b. auto 6.
  - intros n Hn. apply find_bucket_in_raise. intros b Hb. specialize (Hle b Hb). lia.
Qed.

Lemma bucketing_manager_correct_witness : exists m,
  get_bucketing_manager "exponential" 32 2 4 2 None = Ok m /\
  find_decode_batch_bucket m 5 = Ok 8 /\ decode_batch_buckets m = [4; 8; 16; 32] /\
  find_decode_batch_bucket m 33 = Raise ValueError.
Proof.
  eexists. split; [vm_compute; reflexivity|]. split; [reflexivity|]. split; [reflexivity|].
  refine (proj1 (proj2 (proj2 (bucketing_manager_correct "exponential" 32 2 4 2 None _ _)))
    33 _); [vm_compute; reflexivity|lia].
Defined.

(** For a valid configuration both generated strategies terminate and return a
    manager, and their buckets are given in closed form: the sizes
    [max_batch_size // step^i] (exponential) or [max_batch_size - i*step] (linear), for
    the [i] below [limit], that do not fall below [min_batch_size]. *)
Theorem generated_buckets_closed_form mx lo limit step :
  0 < lo <= mx -> 0 < limit -> 0 < step ->
  (1 < step -> exists m, get_bucketing_manager "exponential" mx lo limit step None = Ok m /\
     forall x, x ∈ decode_batch_buckets m <->
       exists i, 0 <= i < limit /\ x = mx / step ^ i /\ (i = 0 \/ lo <= x)) /\
  (exists m, get_bucketing_manager "linear" mx lo limit step None = Ok m /\
     forall x, x ∈ decode_batch_buckets m <->
       exists i, 0 <= i < limit /\ x = mx - step * i /\ (i = 0 \/ lo <= x)).
Proof.
  intros Hlo Hlim Hst. split.
  - intros Hst'. destruct (exponential_ok mx lo limit step) as (m & Hm & _ & _ & _ & Hel);
      [lia..|]. by exists m.
  - destruct (linear_ok mx lo limit step) as (m & Hm & _ & _ & _ & Hel); [lia..|].
    by exists m.
Qed.

Lemma generated_buckets_closed_form_witness :
  (1 < 4 -> exists m, get_bucketing_manager "exponential" 16 2 3 4 None = Ok m /\
     forall x, x ∈ decode_batch_buckets m <->
       exists i, 0 <= i < 3 /\ x = 16 / 4 ^ i /\ (i = 0 \/ 2 <= x)) /\
  (exists m, get_bucketing_manager "linear" 16 2 3 4 None = Ok m /\
     forall x, x ∈ decode_batch_buckets m <->
       exists i, 0 <= i < 3 /\ x = 16 - 4 * i /\ (i = 0 \/ 2 <= x)).
Proof. apply (generated_buckets_closed_form 16 2 3 4); lia. Defined.

(** The worked example of docs/bucketing.md; the code keeps the list ascending. *)
Example bucketing_doc_example :
  (m ← get_bucketing_manager "linear" 16 2 32 4 None; Ok (decode_batch_buckets m))
  = Ok [4; 8; 12; 16].
Proof. reflexivity. Qed.
