(* ===== verification/CoreUtils.v ===== *)
(** * Scheduler helpers ([src/vllm_rbln/v1/core/utils.py])

    The step-phase predicates, the decode-admission budget of one [schedule()] call, the
    token bookkeeping of speculative decoding under pipeline parallelism, and the rules on
    the sub-block size. *)

From S2P Require Import Prelude VllmTypes.

(** ** Step phase *)

Definition is_prefill (r : Request) : bool :=
  num_computed_tokens r <? num_tokens r - 1.

Definition num_base_tokens (num_scheduled_tokens : odict string Z)
    (scheduled_spec_decode_tokens : odict string (list Z)) (req_id : string) : Z :=
  default 0 (od_get req_id num_scheduled_tokens)
  - len (default [] (od_get req_id scheduled_spec_decode_tokens)).

Definition step_is_prefill (num_scheduled_tokens : odict string Z)
    (scheduled_spec_decode_tokens : odict string (list Z)) : bool :=
  existsb
    (fun req_id =>
       1 <? num_base_tokens num_scheduled_tokens scheduled_spec_decode_tokens req_id)
    (od_keys num_scheduled_tokens).

(** [pipeline_parallel_size] is at least one (checked by the platform). *)
Definition decode_batch_size (max_num_seqs pipeline_parallel_size : Z) : Z :=
  max_num_seqs / pipeline_parallel_size.

Definition should_defer_spec_step (num_spec_tokens : Z) (spec_token_ids : list Z)
    (num_new_tokens : Z) : bool :=
  if num_spec_tokens <=? 0 then false
  else
    match spec_token_ids with
    | _ :: _ => num_new_tokens - len spec_token_ids <=? 0
    | [] => num_new_tokens <? 0
    end.

(** ** Token propagation to the non-last pipeline rank *)

(** [RBLNScheduler._make_cached_request_data]: the payload of one request,
    [req.all_token_ids[lo:hi]]. *)
Definition propagated_payload (all_token_ids : list Z)
    (num_computed_tokens num_spec_tokens base : Z) : list Z :=
  let lo := Z.max 0 (num_computed_tokens - num_spec_tokens) in
  let hi := num_computed_tokens + base in
  py_slice all_token_ids lo hi.

Definition resolve_propagated_token_write (cursor num_computed_tokens base : Z)
    (new_token_ids : list Z) : res (option (Z * list Z)) :=
  let committed_tip := num_computed_tokens + base in
  if committed_tip <=? cursor then Ok None
  else
    let span := committed_tip - cursor in
    let lo := cursor - (committed_tip - len new_token_ids) in
    assert! (0 <=? lo);
    Ok (Some (committed_tip, py_slice new_token_ids lo (lo + span))).

(** ** Decode admission budget *)

Record DecodeBatchBudget := mkBudget { hard_cap : Z; soft_cap : Z; count : Z }.

Definition new_budget (hard_cap soft_cap : Z) : res DecodeBatchBudget :=
  assert! ((1 <=? hard_cap) && (1 <=? soft_cap));
  Ok (mkBudget hard_cap soft_cap 0).

Definition for_step (max_num_seqs pipeline_parallel_size demand : Z)
    : res DecodeBatchBudget :=
  let hard := decode_batch_size max_num_seqs pipeline_parallel_size in
  let soft := Z.max 1 (cdiv demand pipeline_parallel_size) in
  new_budget hard soft.

Definition can_admit (b : DecodeBatchBudget) (apply_soft_cap : bool) : bool :=
  if hard_cap b <=? count b then false
  else negb (apply_soft_cap && (soft_cap b <=? count b)).

Definition budget_admit (b : DecodeBatchBudget) (n : Z) : DecodeBatchBudget :=
  mkBudget (hard_cap b) (soft_cap b) (count b + n).

Definition budget_discard (b : DecodeBatchBudget) (n : Z) : res DecodeBatchBudget :=
  assert! (n <=? count b);
  Ok (mkBudget (hard_cap b) (soft_cap b) (count b - n)).

Definition budget_reset (b : DecodeBatchBudget) : DecodeBatchBudget :=
  mkBudget (hard_cap b) (soft_cap b) 0.

(** ** Sub-block size *)

Definition sub_block_eligible (k : spec_class) : bool :=
  match k with
  | FullAttentionSpec | SlidingWindowSpec | ChunkedLocalAttentionSpec => true
  | MambaSpec | OtherSpec => false
  end.

(** [RBLNKVCacheManager.can_use_sub_block_caching]. *)
Definition can_use_sub_block_caching (groups : list KVCacheSpec) (sub_block_size : Z)
    : bool :=
  if sub_block_size <=? 0 then false
  else
    forallb
      (fun spec =>
         let bs := spec_block_size spec in
         sub_block_eligible (spec_kind spec)
         && negb ((bs <=? sub_block_size) || negb (bs mod sub_block_size =? 0)))
      groups.

(** [if wanted:] holds for a size other than [None] and [0]. *)
Definition truthy (o : option Z) : bool :=
  match o with Some n => negb (n =? 0) | None => false end.

Definition sub_block_size_in_use (enable_prefix_caching sub_block_cache : bool)
    (block_size max_num_batched_tokens : Z) (groups : list KVCacheSpec)
    (wanted : option Z) (is_cr13 : bool) : res (option Z) :=
  if negb (sub_block_cache && enable_prefix_caching) then
    if truthy wanted then Raise ValueError else Ok None
  else
    let sub_block_size := if truthy wanted then default 0 wanted
                          else max_num_batched_tokens in
    let eligible := can_use_sub_block_caching groups sub_block_size in
    let fits := (max_num_batched_tokens <=? block_size)
                && (sub_block_size <=? max_num_batched_tokens) in
    let finish :=
      if negb (sub_block_size =? max_num_batched_tokens) && negb is_cr13
      then Raise ValueError else Ok (Some sub_block_size) in
    if negb (truthy wanted) then
      if negb (eligible && fits) then Ok None else finish
    else if negb fits then Raise ValueError
    else if negb eligible then Raise ValueError
    else finish.

(** ** Lemmas *)

Lemma resolve_propagated_spec ids nc base nspec cursor :
  0 <= nc -> 0 <= nspec -> 0 <= base -> nc + base <= len ids -> 0 <= cursor ->
  resolve_propagated_token_write cursor nc base (propagated_payload ids nc nspec base) =
    if nc + base <=? cursor then Ok None
    else if Z.max 0 (nc - nspec) <=? cursor
    then Ok (Some (nc + base, py_slice ids cursor (nc + base)))
    else Raise AssertionError.
Proof.
  intros Hnc Hsp Hb Htip Hcur. unfold resolve_propagated_token_write, propagated_payload.
  destruct (nc + base <=? cursor) eqn:E; [done|]. zbool.
  rewrite len_py_slice by lia. unfold require.
  destruct (Z.max 0 (nc - nspec) <=? cursor) eqn:E'; zbool.
  - replace (0 <=? _) with true by (symmetry; apply Z.leb_le; lia). cbn.
    rewrite py_slice_slice by lia. do 4 f_equal; lia.
  - by replace (0 <=? _) with false by (symmetry; apply Z.leb_gt; lia).
Qed.

(** *** The budget as a state machine *)

(** What [schedule()] does to one budget: it admits one request after [can_admit] said
    yes, drops an admitted request (priority preemption), or drops the whole batch. *)
Inductive budget_step : DecodeBatchBudget -> DecodeBatchBudget -> Prop :=
  | step_admit b soft : can_admit b soft = true -> budget_step b (budget_admit b 1)
  | step_discard b b' : budget_discard b 1 = Ok b' -> budget_step b b'
  | step_reset b : budget_step b (budget_reset b).

Lemma budget_step_inv b b' : budget_step b b' ->
  0 <= count b <= hard_cap b ->
  0 <= count b' <= hard_cap b' /\ hard_cap b' = hard_cap b /\ soft_cap b' = soft_cap b.
Proof.
  destruct 1 as [b soft Hc|b b' Hd|b]; intros Hb.
  - unfold can_admit in Hc. destruct (hard_cap b <=? count b) eqn:E; [done|].
    zbool. cbn. lia.
  - unfold budget_discard in Hd. res_inv. zbool. cbn. lia.
  - cbn. lia.
Qed.

Lemma budget_reach_inv b b' : rtc budget_step b b' ->
  0 <= count b <= hard_cap b ->
  0 <= count b' <= hard_cap b' /\ hard_cap b' = hard_cap b /\ soft_cap b' = soft_cap b.
Proof.
  induction 1 as [b|b b1 b2 Hs Hr IH]; intros Hb; [done|].
  apply budget_step_inv in Hs as (H1 & H2 & H3); [|done].
  destruct (IH H1) as (H4 & H5 & H6). lia.
Qed.

Lemma for_step_ok mns pp demand : 1 <= pp <= mns ->
  for_step mns pp demand = Ok (mkBudget (mns / pp) (Z.max 1 (cdiv demand pp)) 0).
Proof.
  intros H. unfold for_step, new_budget, require, decode_batch_size.
  assert (1 <= mns / pp) by (apply Z.div_le_lower_bound; lia).
  by replace ((1 <=? mns / pp) && (1 <=? Z.max 1 (cdiv demand pp))) with true
    by (symmetry; apply andb_true_iff; split; apply Z.leb_le; lia).
Qed.

(** *** Sub-block eligibility *)

Lemma can_use_sub_block_caching_spec groups s :
  can_use_sub_block_caching groups s = true <->
  0 < s /\ forall g, g ∈ groups ->
    sub_block_eligible (spec_kind g) = true /\ s < spec_block_size g /\
    spec_block_size g mod s = 0.
Proof.
  unfold can_use_sub_block_caching. destruct (s <=? 0) eqn:E; zbool.
  - split; [done|lia].
  - rewrite forallb_forall. split.
    + intros H. split; [lia|]. intros g Hg%list_elem_of_In%H. zbool. auto with lia.
    + intros [_ H] g Hg%list_elem_of_In%H. destruct Hg as (-> & Hlt & Hm).
      apply andb_true_iff. split; [done|]. rewrite Hm. simpl. rewrite orb_false_r.
      apply negb_true_iff, Z.leb_gt. lia.
Qed.

Lemma finish_inv sz mnbt cr13 s :
  (if negb (sz =? mnbt) && negb cr13 then Raise ValueError else Ok (Some sz)) = Ok (Some s) ->
  s = sz /\ (sz < mnbt -> cr13 = true).
Proof.
  destruct cr13; rewrite ?andb_false_r, ?andb_true_r.
  - intros [= <-]. done.
  - destruct (sz =? mnbt) eqn:E; simpl; [|done]. zbool. intros [= <-]. split; [done|lia].
Qed.

(** ** Properties *)

(** C28: the payload the scheduler ships to a non-last pipeline rank always covers the
    rank's write.  A rank whose cursor lags [num_computed_tokens] by at most
    [num_spec_tokens] and holds the committed tokens below the cursor ends, after the
    planned write, with the committed tokens up to the committed tip; a rank that already
    reached the tip writes nothing; and the fail-fast assertion trips exactly when the
    lag is larger than that. *)
Theorem propagated_token_write_correct ids nc base nspec cursor slots :
  0 <= nc -> 0 <= nspec -> 0 <= base -> nc + base <= len ids ->
  0 <= cursor -> py_take cursor slots = py_take cursor ids -> len ids <= len slots ->
  match resolve_propagated_token_write cursor nc base
          (propagated_payload ids nc nspec base) with
  | Ok None => nc + base <= cursor
  | Ok (Some (tip, toks)) =>
      tip = nc + base /\ cursor < tip /\
      py_take tip (py_take cursor slots ++ toks ++ py_slice slots tip (len slots))
      = py_take tip ids
  | Raise e => e = AssertionError /\ cursor < nc - nspec
  end.
Proof.
  intros Hnc Hsp Hb Htip Hcur Hslots Hlen. rewrite resolve_propagated_spec by lia.
  destruct (nc + base <=? cursor) eqn:E; zbool; [done|].
  destruct (Z.max 0 (nc - nspec) <=? cursor) eqn:E'; zbool; [|split; [done|lia]].
  split; [done|]. split; [lia|]. rewrite Hslots.
  assert (Hlead : py_take cursor ids ++ py_slice ids cursor (nc + base)
                  = py_take (nc + base) ids).
  { replace (py_take cursor ids) with (py_slice ids 0 cursor).
    2:{ unfold py_slice, py_take. by rewrite Z.sub_0_r. }
    rewrite py_slice_app by lia. unfold py_slice, py_take. by rewrite Z.sub_0_r. }
  rewrite (app_assoc (py_take cursor ids)), Hlead. unfold py_take at 1.
  apply take_app_length'. unfold py_take, len in *. rewrite length_take. lia.
Qed.

Lemma propagated_token_write_correct_witness :
  resolve_propagated_token_write 3 5 1 (propagated_payload [10;11;12;13;14;15;16] 5 2 1)
    = Ok (Some (6, [13; 14; 15])) /\
  match resolve_propagated_token_write 3 5 1
          (propagated_payload [10;11;12;13;14;15;16] 5 2 1) with
  | Ok None => 5 + 1 <= 3
  | Ok (Some (tip, toks)) =>
      tip = 5 + 1 /\ 3 < tip /\
      py_take tip (py_take 3 [10;11;12;0;0;0;0;0] ++ toks
                   ++ py_slice [10;11;12;0;0;0;0;0] tip 8)
      = py_take tip [10;11;12;13;14;15;16]
  | Raise e => e = AssertionError /\ 3 < 5 - 2
  end.
Proof.
  split; [reflexivity|].
  apply (propagated_token_write_correct [10;11;12;13;14;15;16] 5 1 2 3
           [10;11;12;0;0;0;0;0]); vm_compute; try done.
Defined.

(** Through any sequence of guarded admissions, discards and resets, the decode
    batch of a step stays within the compiled shape and the pipeline's [pp] microbatches
    within [max_num_seqs]; the budget can always be built when [1 <= pp <= max_num_seqs],
    starts by admitting, and its soft cap spreads the demand over [pp] microbatches
    without being a bound at [pp = 1]. *)
Theorem decode_budget_safe mns pp demand :
  1 <= pp <= mns ->
  exists b0, for_step mns pp demand = Ok b0 /\ can_admit b0 true = true /\
    (0 < demand -> demand <= pp * soft_cap b0 < demand + pp) /\
    (pp = 1 -> forall b, rtc budget_step b0 b -> count b < demand ->
       can_admit b true = can_admit b false) /\
    (forall b, rtc budget_step b0 b ->
       0 <= count b <= decode_batch_size mns pp /\ pp * count b <= mns /\
       (count b = decode_batch_size mns pp -> forall soft, can_admit b soft = false)).
Proof.
  intros Hpp. eexists. split; [by apply for_step_ok|].
  assert (Hh : 1 <= mns / pp) by (apply Z.div_le_lower_bound; lia).
  split.
  { unfold can_admit. cbn. destruct (mns / pp <=? 0) eqn:E; zbool; [lia|].
    destruct (_ <=? 0) eqn:E'; zbool; [lia|done]. }
  split.
  { intros Hd. cbn. pose proof (cdiv_spec demand pp ltac:(lia)). nia. }
  split.
  { intros -> b Hb Hc. apply budget_reach_inv in Hb as (_ & _ & Hs); [|cbn; lia].
    unfold can_admit. destruct (hard_cap b <=? count b); [done|].
    rewrite Hs. cbn. pose proof (cdiv_spec demand 1 ltac:(lia)).
    destruct (_ <=? count b) eqn:E; zbool; [lia|done]. }
  intros b Hb. apply budget_reach_inv in Hb as (Hc & Hcap & _); [|cbn; lia].
  rewrite Hcap in Hc. cbn in Hc. split; [done|]. split.
  - pose proof (Z.mul_div_le mns pp ltac:(lia)). nia.
  - intros Heq soft. unfold can_admit. rewrite Hcap, Heq. cbn.
    destruct (_ <=? _) eqn:E; zbool; [done|]. unfold decode_batch_size in E. lia.
Qed.

Lemma decode_budget_safe_witness : exists b0, for_step 8 2 5 = Ok b0 /\
  can_admit b0 true = true /\
  (0 < 5 -> 5 <= 2 * soft_cap b0 < 5 + 2) /\
  (2 = 1 -> forall b, rtc budget_step b0 b -> count b < 5 ->
     can_admit b true = can_admit b false) /\
  (forall b, rtc budget_step b0 b ->
     0 <= count b <= decode_batch_size 8 2 /\ 2 * count b <= 8 /\
     (count b = decode_batch_size 8 2 -> forall soft, can_admit b soft = false)).
Proof. apply (decode_budget_safe 8 2 5). lia. Defined.

(** A sub-block size that was asked for is honoured or refused, never dropped or
    changed; without one the derivation never fails; and a size in use satisfies every
    rule: it divides and is smaller than each group's block size, each group stores
    per-token KV, it is at most the prefill chunk, which is at most a block, and it is
    smaller than the chunk on CR13 only. *)
Theorem sub_block_size_rules epc sbc bs mnbt groups wanted cr13 :
  (forall w, wanted = Some w -> w <> 0 ->
     sub_block_size_in_use epc sbc bs mnbt groups wanted cr13 = Ok (Some w) \/
     sub_block_size_in_use epc sbc bs mnbt groups wanted cr13 = Raise ValueError) /\
  (wanted = None -> exists o,
     sub_block_size_in_use epc sbc bs mnbt groups wanted cr13 = Ok o) /\
  (forall s, sub_block_size_in_use epc sbc bs mnbt groups wanted cr13 = Ok (Some s) ->
     epc = true /\ sbc = true /\ 0 < s <= mnbt /\ mnbt <= bs /\
     (forall g, g ∈ groups -> sub_block_eligible (spec_kind g) = true /\
        s < spec_block_size g /\ spec_block_size g mod s = 0) /\
     (s < mnbt -> cr13 = true)).
Proof.
  unfold sub_block_size_in_use. split; [|split].
  - intros w -> Hw. simpl. replace (w =? 0) with false by (symmetry; by apply Z.eqb_neq).
    simpl. repeat case_match; auto; congruence.
  - intros ->. simpl. rewrite Z.eqb_refl. simpl. repeat case_match; eauto; congruence.
  - intros s H. destruct (sbc && epc) eqn:Eon; simpl in H; [|by case_match].
    zbool. set (sz := if truthy wanted then default 0 wanted else mnbt) in *.
    assert (can_use_sub_block_caching groups sz = true /\
            (mnbt <=? bs) && (sz <=? mnbt) = true /\ s = sz /\ (sz < mnbt -> cr13 = true))
      as (Hel & Hfit & -> & Hcr).
    { destruct (truthy wanted); simpl in H.
      - destruct ((mnbt <=? bs) && (sz <=? mnbt)); simpl in H; [|discriminate].
        destruct (can_use_sub_block_caching groups sz); simpl in H; [|discriminate].
        by apply finish_inv in H as [-> Hcr].
      - destruct (can_use_sub_block_caching groups sz); simpl in H; [|discriminate].
        destruct ((mnbt <=? bs) && (sz <=? mnbt)); simpl in H; [|discriminate].
        by apply finish_inv in H as [-> Hcr]. }
    zbool.
    apply can_use_sub_block_caching_spec in Hel as [Hpos Hel].
    repeat split; try done; try lia; by apply Hel.
Qed.

Lemma sub_block_size_rules_witness :
  sub_block_size_in_use true true 4096 1024 [mkSpec SlidingWindowSpec 4096] (Some 512) true
  = Ok (Some 512) /\ (512 < 1024 -> true = true).
Proof.
  split; [reflexivity|].
  apply (proj2 (proj2 (sub_block_size_rules true true 4096 1024
    [mkSpec SlidingWindowSpec 4096] (Some 512) true)) 512). reflexivity.
Defined.

(** The defaults of a 1024-token chunk over 4096-token blocks, and an explicit 512. *)
Example sub_block_size_default :
  sub_block_size_in_use true true 4096 1024 [mkSpec FullAttentionSpec 4096] None false
  = Ok (Some 1024).
Proof. reflexivity. Qed.

Example sub_block_size_explicit :
  sub_block_size_in_use true true 4096 1024 [mkSpec FullAttentionSpec 4096] (Some 512) false
  = Raise ValueError.
Proof. reflexivity. Qed.
