(* ===== verification/DPUtils.v ===== *)
(** * Data-parallel batch agreement ([src/vllm_rbln/v1/worker/dp_utils.py])

    Every step each data-parallel rank reports [(num_tokens, num_reqs, is_prefill,
    is_idle)] packed into one int32, a sum all-reduce gathers the reports, and each rank
    decides its padded batch from them.  The all-reduce is [torch.distributed]'s: it is
    the parameter of section [collective], with its documented behaviour (the
    element-wise sum of the contributions, in int32) as hypothesis.  The decisions are
    functions of the status, so "the ranks agree" is a statement about one status and
    several ranks.  The bucket lookup is used through [BucketFinder]. *)

From S2P Require Import Prelude Bucketing.

(** ** Data *)

Inductive BatchRoute :=
  | PINNED | LOCAL | UNSPECIALIZED | ANY_PREFILL | ALL_IDLE | QLEN_ASYM | AGREED.

Record DPStatus := mkStatus {
  st_num_tokens : list Z;
  st_num_reqs : list Z;
  st_is_prefill : list bool;
  st_is_idle : list bool;
  st_num_tokens_across_dp : list Z
}.

Record ShapeConfig := mkShapeConfig {
  cfg_buckets : list Z;
  find_bucket : Z -> res Z;
  max_num_tokens : Z;
  specialized_moe_decode : bool
}.

Record BatchDescriptor := mkDescriptor {
  num_reqs_padded : Z;
  query_len : Z;
  num_tokens_padded : option Z
}.

(** [BatchDescriptor.__post_init__]: the staged rows fit the token dimension. *)
Definition batch_descriptor (num_reqs_padded query_len : Z)
    (num_tokens_padded : option Z) : res BatchDescriptor :=
  assert! (match num_tokens_padded with
           | None => true
           | Some padded => num_reqs_padded * query_len <=? padded
           end);
  Ok (mkDescriptor num_reqs_padded query_len num_tokens_padded).

(** ** The decision *)

(** [[i for i, idle in enumerate(status.is_idle) if not idle]]. *)
Definition busy_ranks (status : DPStatus) : list nat :=
  (filter (fun p : nat * bool => p.2 = false) (imap pair (st_is_idle status))).*1.

Definition at_rank {A} (l : list A) (i : nat) : res A := of_option (l !! i) IndexError.

(** [all(status.num_tokens[i] % status.num_reqs[i] == 0 for i in busy)]. *)
Fixpoint all_uniform (status : DPStatus) (busy : list nat) : res bool :=
  match busy with
  | [] => Ok true
  | i :: busy =>
      t ← at_rank (st_num_tokens status) i;
      r ← at_rank (st_num_reqs status) i;
      x ← py_mod t r;
      if x =? 0 then all_uniform status busy else Ok false
  end.

Definition query_len_at (status : DPStatus) (i : nat) : res Z :=
  t ← at_rank (st_num_tokens status) i;
  r ← at_rank (st_num_reqs status) i;
  py_floordiv t r.

Definition top_bucket (cfg : ShapeConfig) : res Z :=
  of_option (py_nth (cfg_buckets cfg) (-1)) IndexError.

Definition determine_batch_execution_and_padding (cfg : ShapeConfig)
    (num_reqs num_tokens : Z) (is_prefill : bool) (status : option DPStatus)
    (pinned_num_tokens_padded : option Z)
    : res (option BatchDescriptor * BatchRoute) :=
  assert! (1 <=? num_reqs);
  assert! (num_tokens mod num_reqs =? 0);
  let query_len := num_tokens / num_reqs in
  local_num_reqs_padded ← (if is_prefill then Ok num_reqs else find_bucket cfg num_reqs);
  match pinned_num_tokens_padded with
  | Some pinned =>
      d ← batch_descriptor local_num_reqs_padded query_len (Some pinned);
      Ok (Some d, PINNED)
  | None =>
  match status with
  | None =>
      d ← batch_descriptor local_num_reqs_padded query_len None;
      Ok (Some d, LOCAL)
  | Some status =>
      let busy := busy_ranks status in
      if bool_decide (busy = []) then Ok (None, ALL_IDLE)
      else if negb (specialized_moe_decode cfg) then
        d ← batch_descriptor local_num_reqs_padded query_len (Some (max_num_tokens cfg));
        Ok (Some d, UNSPECIALIZED)
      else if existsb id (st_is_prefill status) then
        padded ← (if is_prefill then Ok num_reqs else top_bucket cfg);
        d ← batch_descriptor padded query_len (Some (max_num_tokens cfg));
        Ok (Some d, ANY_PREFILL)
      else
        uniform ← all_uniform status busy;
        assert! uniform;
        query_lens ← mapM (query_len_at status) busy;
        max_query_len ← py_max query_lens;
        min_query_len ← py_min query_lens;
        if negb (min_query_len =? max_query_len) then
          top ← top_bucket cfg;
          d ← batch_descriptor top query_len (Some (top * max_query_len));
          Ok (Some d, QLEN_ASYM)
        else
          busy_reqs ← mapM (at_rank (st_num_reqs status)) busy;
          max_reqs ← py_max busy_reqs;
          num_reqs_padded ← find_bucket cfg max_reqs;
          d ← batch_descriptor num_reqs_padded max_query_len
                (Some (num_reqs_padded * max_query_len));
          Ok (Some d, AGREED)
  end
  end.

(** [zip(tokens_per_rank, status.num_reqs)] with [tokens // reqs]. *)
Definition draft_query_lens (tokens_per_rank num_reqs : list Z) : res (list Z) :=
  mapM (fun p : Z * Z => py_floordiv p.1 p.2) (zip tokens_per_rank num_reqs).

(** [if first_pass: ... else: ...]: the per-rank token counts this pass runs with, whether
    a rank prefills, and what the forward context consumes. *)
Definition draft_counts (status : DPStatus) (dp_rank : nat) (num_tokens query_len : Z)
    (first_pass : bool) : res (list Z * bool * list Z) :=
  if first_pass then
    idle ← at_rank (st_is_idle status) dp_rank;
    ok ← (if (idle : bool) then Ok true
          else t ← at_rank (st_num_tokens status) dp_rank; Ok (t =? num_tokens));
    assert! ok;
    Ok (st_num_tokens status, existsb id (st_is_prefill status),
        st_num_tokens_across_dp status)
  else
    let tokens := (fun reqs => reqs * query_len) <$> st_num_reqs status in
    Ok (tokens, false, tokens).

(** [if not draft_has_moe: ... elif ... else: ...]: the batch and the token dimension. *)
Definition draft_padding (cfg : ShapeConfig) (status : DPStatus)
    (tokens_per_rank : list Z) (num_reqs_padded query_len : Z)
    (any_prefill is_prefill draft_has_moe : bool) : res (Z * Z) :=
  if negb draft_has_moe then Ok (num_reqs_padded, num_reqs_padded * query_len)
  else if specialized_moe_decode cfg && negb is_prefill then
    if any_prefill then
      top ← top_bucket cfg; Ok (top, max_num_tokens cfg)
    else
      max_reqs ← py_max (st_num_reqs status);
      padded ← find_bucket cfg max_reqs;
      qls ← draft_query_lens tokens_per_rank (st_num_reqs status);
      max_qlen ← py_max qls;
      Ok (padded, padded * max_qlen)
  else Ok (num_reqs_padded, max_num_tokens cfg).

Definition determine_draft_batch_execution_and_padding (cfg : ShapeConfig)
    (status : option DPStatus) (dp_rank : nat) (num_reqs num_tokens : Z)
    (is_prefill draft_has_moe first_pass : bool) (pinned_num_tokens_padded : option Z)
    : res (BatchDescriptor * option (list Z)) :=
  assert! (1 <=? num_reqs);
  assert! (num_tokens mod num_reqs =? 0);
  let query_len := num_tokens / num_reqs in
  num_reqs_padded ← (if is_prefill then Ok num_reqs else find_bucket cfg num_reqs);
  match status with
  | None =>
      d ← batch_descriptor num_reqs_padded query_len pinned_num_tokens_padded;
      Ok (d, None)
  | Some status =>
      own_reqs ← at_rank (st_num_reqs status) dp_rank;
      assert! (own_reqs =? num_reqs);
      '(tokens_per_rank, any_prefill, tokens_across_dp) ←
        draft_counts status dp_rank num_tokens query_len first_pass;
      '(num_reqs_padded, num_tokens_padded) ←
        draft_padding cfg status tokens_per_rank num_reqs_padded query_len any_prefill
          is_prefill draft_has_moe;
      let num_tokens_padded :=
        match pinned_num_tokens_padded with Some p => p | None => num_tokens_padded end in
      d ← batch_descriptor num_reqs_padded query_len (Some num_tokens_padded);
      Ok (d, Some tokens_across_dp)
  end.

(** ** The collective *)

Definition token_bits := 16.
Definition req_bits := 13.
Definition token_mask := Z.shiftl 1 token_bits - 1.
Definition req_mask_raw := Z.shiftl 1 req_bits - 1.
Definition req_mask_shifted := Z.shiftl req_mask_raw token_bits.
Definition prefill_flag := Z.shiftl 1 (token_bits + req_bits).
Definition idle_flag := Z.shiftl 1 (token_bits + req_bits + 1).

(** What one rank passes to [_synchronize_dp_ranks]. *)
Record report := mkReport {
  r_tokens : Z; r_reqs : Z; r_prefill : bool; r_idle : bool
}.

Definition encode_report (r : report) : res Z :=
  assert! (r_tokens r <=? token_mask);
  assert! (r_reqs r <=? req_mask_raw);
  let encoded := Z.lor (r_tokens r) (Z.shiftl (r_reqs r) token_bits) in
  let encoded := if r_prefill r then Z.lor encoded prefill_flag else encoded in
  let encoded := if r_idle r then Z.lor encoded idle_flag else encoded in
  Ok encoded.

(** The value a [torch.int32] cell holds after an addition. *)
Definition wrap32 (z : Z) : Z := (z + 2 ^ 31) mod 2 ^ 32 - 2 ^ 31.

(** [_run_ar]'s local tensor: this rank's value in its slot.  [torch.tensor] refuses a
    value outside int32; [slots[dp_rank]] refuses a rank outside the group. *)
Definition run_ar_slots (value : Z) (dp_size dp_rank : nat) : res (list Z) :=
  if (dp_rank <? dp_size)%nat then
    if (- 2 ^ 31 <=? value) && (value <? 2 ^ 31)
    then Ok (<[dp_rank := value]> (replicate dp_size 0)) else Raise RuntimeError
  else Raise IndexError.

Definition unpack_status (packed_per_rank : list Z) : DPStatus :=
  mkStatus
    ((fun value => Z.land value token_mask) <$> packed_per_rank)
    ((fun value => Z.shiftr (Z.land value req_mask_shifted) token_bits) <$> packed_per_rank)
    ((fun value => negb (Z.land value prefill_flag =? 0)) <$> packed_per_rank)
    ((fun value => negb (Z.land value idle_flag =? 0)) <$> packed_per_rank)
    ((fun value => Z.land value token_mask) <$> packed_per_rank).

Section collective.
(** [dist.all_reduce] over the group: the contributions, one tensor per rank, and the
    tensor every rank holds afterwards. *)
Variable all_reduce : list (list Z) -> list Z.

(** The group's step: every rank encodes its report, contributes, and unpacks. *)
Definition synchronize_dp_ranks (reports : list report) : res DPStatus :=
  let dp_size := length reports in
  contributions ←
    mapM (fun p : nat * report =>
            encoded ← encode_report p.2; run_ar_slots encoded dp_size p.1)
         (imap pair reports);
  Ok (unpack_status (all_reduce contributions)).

Definition coordinate_batch_across_dp (cfg : ShapeConfig) (reports : list report)
    (dp_rank : nat) (pinned_num_tokens_padded : option Z)
    : res (option BatchDescriptor * BatchRoute * DPStatus) :=
  status ← synchronize_dp_ranks reports;
  r ← at_rank reports dp_rank;
  '(batch_desc, route) ←
    determine_batch_execution_and_padding cfg (r_reqs r) (r_tokens r) (r_prefill r)
      (Some status) pinned_num_tokens_padded;
  Ok (batch_desc, route, status).
End collective.

(** Element-wise int32 sum of the contributions: what a sum all-reduce computes. *)
Definition vec_add32 (a b : list Z) : list Z := zip_with (fun x y => wrap32 (x + y)) a b.
Definition sum_all_reduce (contributions : list (list Z)) : list Z :=
  match contributions with [] => [] | c :: cs => foldl vec_add32 c cs end.

(** The status the reports describe. *)
Definition status_of (reports : list report) : DPStatus :=
  mkStatus (r_tokens <$> reports) (r_reqs <$> reports) (r_prefill <$> reports)
    (r_idle <$> reports) (r_tokens <$> reports).

(** ** The packed word *)

Lemma lor_shiftl a b k : 0 <= k -> 0 <= a < 2 ^ k ->
  Z.lor a (Z.shiftl b k) = a + b * 2 ^ k.
Proof.
  intros Hk Ha. rewrite <- Z.shiftl_mul_pow2 by done. symmetry.
  apply Z.add_nocarry_lor. apply Z.bits_inj'. intros n Hn.
  rewrite Z.land_spec, Z.bits_0. destruct (Z.lt_ge_cases n k) as [Hlt|Hge].
  - rewrite Z.shiftl_spec_low by done. apply andb_false_r.
  - replace (Z.testbit a n) with false; [done|]. symmetry. apply Z.testbit_false; [done|].
    rewrite Z.div_small; [done|]. split; [lia|].
    pose proof (Z.pow_le_mono_r 2 k n). lia.
Qed.

Lemma land_bit v k : 0 <= k -> Z.land v (Z.shiftl 1 k) = if Z.testbit v k then 2 ^ k else 0.
Proof.
  intros Hk. rewrite Z.shiftl_1_l. apply Z.bits_inj'. intros n Hn.
  rewrite Z.land_spec, Z.pow2_bits_eqb by done. destruct (Z.eqb_spec k n) as [->|Hne].
  - rewrite andb_true_r. destruct (Z.testbit v n); [by rewrite Z.pow2_bits_true|by rewrite Z.bits_0].
  - rewrite andb_false_r. destruct (Z.testbit v k); [by rewrite Z.pow2_bits_false by lia|by rewrite Z.bits_0].
Qed.

Definition in_limits (r : report) : Prop :=
  0 <= r_tokens r <= 65535 /\ 0 <= r_reqs r <= 8191.

Definition packed (r : report) : Z :=
  r_tokens r + r_reqs r * 2 ^ 16 + Z.b2z (r_prefill r) * 2 ^ 29 + Z.b2z (r_idle r) * 2 ^ 30.

Lemma encode_report_packed r : in_limits r -> encode_report r = Ok (packed r).
Proof.
  intros [Ht Hr]. unfold encode_report, packed. change token_mask with 65535.
  change req_mask_raw with 8191. change prefill_flag with (Z.shiftl 1 29).
  change idle_flag with (Z.shiftl 1 30). change token_bits with 16.
  rewrite (proj2 (Z.leb_le _ _)) by lia. rewrite (proj2 (Z.leb_le _ _)) by lia. simpl require. cbn.
  rewrite (lor_shiftl (r_tokens r)) by lia.
  destruct (r_prefill r), (r_idle r); cbn [Z.b2z];
    repeat rewrite (lor_shiftl (_ + _)) by lia; f_equal; lia.
Qed.

Lemma packed_range r : in_limits r -> 0 <= packed r < 2 ^ 31.
Proof.
  intros [Ht Hr]. unfold packed. destruct (r_prefill r), (r_idle r); cbn [Z.b2z]; lia.
Qed.

Lemma packed_fields r : in_limits r ->
  Z.land (packed r) token_mask = r_tokens r /\
  Z.shiftr (Z.land (packed r) req_mask_shifted) token_bits = r_reqs r /\
  negb (Z.land (packed r) prefill_flag =? 0) = r_prefill r /\
  negb (Z.land (packed r) idle_flag =? 0) = r_idle r.
Proof.
  intros [Ht Hr]. change token_mask with (Z.ones 16). change token_bits with 16.
  change prefill_flag with (Z.shiftl 1 29). change idle_flag with (Z.shiftl 1 30).
  rewrite Z.land_ones, Z.shiftr_land by lia. change (Z.shiftr req_mask_shifted 16) with (Z.ones 13).
  rewrite Z.land_ones, Z.shiftr_div_pow2, !land_bit by lia. unfold packed.
  set (t := r_tokens r) in *. set (n := r_reqs r) in *.
  assert (forall k, 0 <= k -> forall v, Z.testbit v k = negb ((v / 2 ^ k) mod 2 =? 0)) as Htb.
  { intros k Hk v. rewrite <- (Z.testbit_spec' v k) by done. by destruct (Z.testbit v k). }
  rewrite !Htb by lia.
  assert (0 <= Z.b2z (r_prefill r) <= 1 /\ 0 <= Z.b2z (r_idle r) <= 1) as [Hp Hi]
    by (by destruct (r_prefill r), (r_idle r)).
  set (p := Z.b2z (r_prefill r)) in *. set (i := Z.b2z (r_idle r)) in *.
  assert ((t + n * 2 ^ 16 + p * 2 ^ 29 + i * 2 ^ 30) / 2 ^ 16 = n + p * 2 ^ 13 + i * 2 ^ 14)
    as -> by (symmetry; apply (Z.div_unique _ _ _ t); lia).
  assert ((t + n * 2 ^ 16 + p * 2 ^ 29 + i * 2 ^ 30) / 2 ^ 29 = p + i * 2)
    as -> by (symmetry; apply (Z.div_unique _ _ _ (t + n * 2 ^ 16)); lia).
  assert ((t + n * 2 ^ 16 + p * 2 ^ 29 + i * 2 ^ 30) / 2 ^ 30 = i)
    as -> by (symmetry; apply (Z.div_unique _ _ _ (t + n * 2 ^ 16 + p * 2 ^ 29)); lia).
  split; [|split; [|split]].
  - symmetry. apply (Z.mod_unique _ _ (n + p * 2 ^ 13 + i * 2 ^ 14)); lia.
  - symmetry. apply (Z.mod_unique _ _ (p + i * 2)); lia.
  - subst p i. by destruct (r_prefill r), (r_idle r).
  - subst i. by destruct (r_idle r).
Qed.

(** ** The gather *)

Lemma wrap32_id z : 0 <= z < 2 ^ 31 -> wrap32 z = z.
Proof. intros H. unfold wrap32. rewrite Z.mod_small; lia. Qed.

(** One rank's row: its value in its slot, zero elsewhere. *)
Definition row (n i : nat) (v : Z) : list Z := <[i := v]> (replicate n 0).

Lemma vec_add32_row pre v m :
  Forall (fun z => 0 <= z < 2 ^ 31) pre -> 0 <= v < 2 ^ 31 ->
  vec_add32 (pre ++ replicate (S m) 0) (row (length pre + S m) (length pre) v)
  = (pre ++ [v]) ++ replicate m 0.
Proof.
  intros Hpre Hv. unfold vec_add32, row. rewrite replicate_add.
  rewrite insert_app_r_alt by (rewrite length_replicate; lia).
  rewrite length_replicate, Nat.sub_diag. simpl.
  rewrite zip_with_app by (by rewrite length_replicate). rewrite <- app_assoc. f_equal.
  - apply list_eq. intros i. rewrite lookup_zip_with.
    destruct (pre !! i) as [x|] eqn:Hx; simpl; [|done].
    rewrite lookup_replicate_2 by (by eapply lookup_lt_Some). simpl.
    rewrite Forall_lookup in Hpre. f_equal. rewrite Z.add_0_r. apply wrap32_id. eauto.
  - simpl. f_equal; [by apply wrap32_id|]. apply list_eq. intros i. rewrite lookup_zip_with.
    destruct (replicate m 0 !! i) as [x|] eqn:Hx; simpl; [|done].
    apply lookup_replicate in Hx as [-> _]. done.
Qed.

Lemma fold_rows vs : forall pre,
  Forall (fun z => 0 <= z < 2 ^ 31) (pre ++ vs) ->
  foldl vec_add32 (pre ++ replicate (length vs) 0)
    (imap (fun i v => row (length pre + length vs) (length pre + i) v) vs) = pre ++ vs.
Proof.
  induction vs as [|v vs IH]; intros pre H; [done|].
  pose proof H as H'. rewrite Forall_app, Forall_cons in H'. destruct H' as (Hpre & Hv & Hvs).
  change (length (v :: vs)) with (S (length vs)).
  rewrite imap_cons, Nat.add_0_r. cbn [foldl]. rewrite vec_add32_row by done.
  replace (pre ++ v :: vs) with ((pre ++ [v]) ++ vs) in * by (by rewrite <- app_assoc).
  etrans; [|apply (IH (pre ++ [v])); done]. f_equal. apply imap_ext. intros i x _.
  rewrite length_app. simpl. f_equal; lia.
Qed.

Lemma all_reduce_gathers vs : Forall (fun z => 0 <= z < 2 ^ 31) vs ->
  sum_all_reduce (imap (fun i v => row (length vs) i v) vs) = vs.
Proof.
  intros H. destruct vs as [|v vs]; [done|]. pose proof H as H'. apply Forall_cons in H' as [Hv _].
  rewrite imap_cons. cbn [sum_all_reduce].
  change (row (length (v :: vs)) 0 v) with ([v] ++ replicate (length vs) 0).
  apply (fold_rows vs [v] H).
Qed.

Lemma synchronize_ok all_reduce reports :
  (forall c, all_reduce c = sum_all_reduce c) -> Forall in_limits reports ->
  synchronize_dp_ranks all_reduce reports = Ok (status_of reports).
Proof.
  intros Har Hlim. unfold synchronize_dp_ranks.
  rewrite (mapM_Ok _ (fun p => row (length reports) p.1 (packed p.2))).
  2:{ intros [i r] Hir. apply list_elem_of_lookup in Hir as [j Hj].
      rewrite list_lookup_imap in Hj. destruct (reports !! j) as [r'|] eqn:Hr; [|done].
      simplify_eq/=. rewrite Forall_lookup in Hlim. pose proof (Hlim _ _ Hr) as Hl.
      rewrite encode_report_packed by done. simpl. unfold run_ar_slots.
      pose proof (packed_range _ Hl). apply lookup_lt_Some in Hr.
      rewrite (proj2 (Nat.ltb_lt _ _)) by lia.
      rewrite (proj2 (Z.leb_le _ _)) by lia. rewrite (proj2 (Z.ltb_lt _ _)) by lia. done. }
  simpl. rewrite Har, fmap_imap.
  rewrite (imap_ext _ (fun i r => row (length (packed <$> reports)) i (packed r)))
    by (intros; by rewrite length_fmap).
  pose proof (imap_fmap (fun i v => row (length (packed <$> reports)) i v) packed reports) as E.
  unfold compose in E. rewrite <- E. clear E.
  rewrite all_reduce_gathers.
  2:{ rewrite Forall_fmap. eapply Forall_impl; [done|]. apply packed_range. }
  f_equal. unfold unpack_status, status_of. rewrite <- !list_fmap_compose.
  f_equal; apply list_fmap_ext; intros i r Hr; rewrite Forall_lookup in Hlim;
    apply (packed_fields r); eauto.
Qed.

Lemma synchronize_over_limit all_reduce reports :
  Forall (fun r => 0 <= r_tokens r /\ 0 <= r_reqs r) reports -> ~ Forall in_limits reports ->
  synchronize_dp_ranks all_reduce reports = Raise AssertionError.
Proof.
  intros Hpos Hlim. unfold synchronize_dp_ranks.
  assert (forall r, r ∈ reports ->
    in_limits r \/ (~ in_limits r /\ encode_report r = Raise AssertionError)) as Hcase.
  { intros r Hr. rewrite Forall_forall in Hpos. specialize (Hpos r Hr).
    unfold in_limits, encode_report. change token_mask with 65535. change req_mask_raw with 8191.
    destruct (Z.leb_spec (r_tokens r) 65535); cbn; [|right; split; [lia|done]].
    destruct (Z.leb_spec (r_reqs r) 8191); cbn; [left; lia|right; split; [lia|done]]. }
  rewrite (mapM_Raise _ AssertionError); [done| |].
  - intros [i r] Hir. apply list_elem_of_lookup in Hir as [j Hj].
    rewrite list_lookup_imap in Hj. destruct (reports !! j) as [r'|] eqn:Hr; [|done].
    simplify_eq/=. destruct (Hcase r) as [Hl|[_ ->]]; [by eapply list_elem_of_lookup_2| |by right].
    left. rewrite encode_report_packed by done. simpl. unfold run_ar_slots.
    pose proof (packed_range _ Hl). apply lookup_lt_Some in Hr.
    rewrite (proj2 (Nat.ltb_lt _ _)) by lia.
    rewrite (proj2 (Z.leb_le _ _)) by lia. rewrite (proj2 (Z.ltb_lt _ _)) by lia. eauto.
  - assert (exists r, r ∈ reports /\ ~ in_limits r) as (r & Hr & Hnot).
    { clear Hcase Hpos. induction reports as [|r l IH]; [by destruct Hlim|].
      destruct (decide (r_tokens r <= 65535 /\ 0 <= r_tokens r /\
                        r_reqs r <= 8191 /\ 0 <= r_reqs r)) as [Hd|Hd].
      - destruct IH as (r' & ? & ?); [|set_solver].
        intros HF. apply Hlim. constructor; [unfold in_limits; lia|done].
      - exists r. split; [set_solver|]. unfold in_limits. lia. }
    pose proof Hr as Hr'. apply list_elem_of_lookup in Hr as [i Hi]. exists (i, r). split.
    + apply list_elem_of_lookup. exists i. by rewrite list_lookup_imap, Hi.
    + destruct (Hcase r Hr') as [|[_ E]]; [done|]. simpl. by rewrite E.
Qed.

(** ** The decision over a well-formed group *)

#[local] Arguments busy_ranks : simpl never.
#[local] Arguments status_of : simpl never.

Definition qlen (r : report) : Z := r_tokens r / r_reqs r.

(** What a rank may report: within the packed word, one query length, a batch the
    compiled graphs can hold; an idle rank reports the minimal decode. *)
Definition report_wf (cfg : ShapeConfig) (top : Z) (r : report) : Prop :=
  in_limits r /\ 1 <= r_reqs r /\ r_tokens r = r_reqs r * qlen r /\ 1 <= qlen r /\
  (if r_prefill r then r_tokens r <= max_num_tokens cfg
   else r_reqs r <= top /\ top * qlen r <= max_num_tokens cfg) /\
  (r_idle r = true -> r_reqs r = 1 /\ qlen r = 1 /\ r_prefill r = false).

Lemma status_idle reports : st_is_idle (status_of reports) = r_idle <$> reports.
Proof. done. Qed.

Lemma elem_of_busy reports i :
  i ∈ busy_ranks (status_of reports) <->
  exists r, reports !! i = Some r /\ r_idle r = false.
Proof.
  unfold busy_ranks. rewrite status_idle, list_elem_of_fmap. split.
  - intros ([j b] & -> & [Hb Hj]%list_elem_of_filter). cbn in *. subst.
    apply list_elem_of_lookup in Hj as [k Hk]. rewrite list_lookup_imap, list_lookup_fmap in Hk.
    destruct (reports !! k) as [r|] eqn:Hr; [|done]. simplify_eq/=. by exists r.
  - intros (r & Hr & Hb). exists (i, false). split; [done|].
    apply list_elem_of_filter. split; [done|]. apply list_elem_of_lookup. exists i.
    by rewrite list_lookup_imap, list_lookup_fmap, Hr, <- Hb.
Qed.

Lemma at_rank_fmap {A} (f : report -> A) reports i r :
  reports !! i = Some r -> at_rank (f <$> reports) i = Ok (f r).
Proof. intros H. unfold at_rank. by rewrite list_lookup_fmap, H. Qed.

Section group.
Context (cfg : ShapeConfig) (top : Z) (reports : list report).
Context `{BF : !BucketFinder (cfg_buckets cfg) (find_bucket cfg)}.
Hypothesis Htop : last (cfg_buckets cfg) = Some top.
Hypothesis Hwf : Forall (report_wf cfg top) reports.

Lemma wf_at i r : reports !! i = Some r -> report_wf cfg top r.
Proof. intros H. rewrite Forall_lookup in Hwf. eauto. Qed.

Lemma top_bucket_ok : top_bucket cfg = Ok top.
Proof. unfold top_bucket. by rewrite py_nth_last, Htop. Qed.

Lemma top_in : top ∈ cfg_buckets cfg.
Proof. by apply last_Some_elem_of. Qed.

Lemma top_max b : b ∈ cfg_buckets cfg -> b <= top.
Proof. by apply strongly_sorted_last_max; [apply bf_sorted|]. Qed.

Lemma find_ok n : n <= top ->
  exists b, find_bucket cfg n = Ok b /\ b ∈ cfg_buckets cfg /\ n <= b <= top.
Proof.
  intros Hn. destruct (bf_find_total n top top_in Hn) as [b Hb]. exists b.
  destruct (bf_find_ok n b Hb) as (Hin & ? & _). pose proof (top_max b Hin). auto.
Qed.

Lemma local_ok r : report_wf cfg top r ->
  exists b, (if r_prefill r then Ok (r_reqs r) else find_bucket cfg (r_reqs r)) = Ok b /\
    r_reqs r <= b /\ b * qlen r <= max_num_tokens cfg /\
    (if r_prefill r then b = r_reqs r else b ∈ cfg_buckets cfg).
Proof.
  intros (_ & Hr & Ht & Hq & Hfit & _). destruct (r_prefill r).
  - exists (r_reqs r). split; [done|]. split; [lia|]. split; [lia|done].
  - destruct (find_ok (r_reqs r)) as (b & Hb & Hin & Hle); [lia|]. exists b.
    split; [done|]. split; [lia|]. split; [nia|done].
Qed.

(** The numbers of one rank, by index. *)
Definition rank_qlen (i : nat) : Z := match reports !! i with Some r => qlen r | None => 0 end.
Definition rank_reqs (i : nat) : Z := match reports !! i with Some r => r_reqs r | None => 0 end.

Lemma query_lens_ok : mapM (query_len_at (status_of reports)) (busy_ranks (status_of reports))
  = Ok (rank_qlen <$> busy_ranks (status_of reports)).
Proof.
  apply mapM_Ok. intros i (r & Hr & _)%elem_of_busy. unfold query_len_at, rank_qlen.
  unfold status_of. cbn [st_num_tokens st_num_reqs]. rewrite !(at_rank_fmap _ _ _ _ Hr). cbn. rewrite Hr.
  unfold py_floordiv. apply wf_at in Hr as (_ & Hr & _).
  destruct (r_reqs r =? 0) eqn:E; zbool; [lia|done].
Qed.

Lemma busy_reqs_ok : mapM (at_rank (st_num_reqs (status_of reports)))
  (busy_ranks (status_of reports)) = Ok (rank_reqs <$> busy_ranks (status_of reports)).
Proof.
  apply mapM_Ok. intros i (r & Hr & _)%elem_of_busy. unfold rank_reqs. rewrite Hr.
  by apply (at_rank_fmap r_reqs).
Qed.

Lemma all_uniform_ok l : (forall i, i ∈ l -> is_Some (reports !! i)) ->
  all_uniform (status_of reports) l = Ok true.
Proof.
  induction l as [|i l IH]; intros Hl; [done|]. simpl.
  destruct (Hl i ltac:(set_solver)) as [r Hr].
  change (st_num_tokens (status_of reports)) with (r_tokens <$> reports).
  change (st_num_reqs (status_of reports)) with (r_reqs <$> reports).
  rewrite !(at_rank_fmap _ _ _ _ Hr).
  cbn. apply wf_at in Hr as (_ & Hr & Ht & _). unfold py_mod. destruct (r_reqs r =? 0) eqn:E; zbool; [lia|]. cbn.
  rewrite Ht, Z.mul_comm, Z.mod_mul by lia. cbn. apply IH. set_solver.
Qed.

Lemma batch_descriptor_ok n q t : n * q <= t ->
  batch_descriptor n q (Some t) = Ok (mkDescriptor n q (Some t)).
Proof. intros H. unfold batch_descriptor. by rewrite (proj2 (Z.leb_le _ _)). Qed.

Lemma prologue_ok r : report_wf cfg top r ->
  (1 <=? r_reqs r) = true /\ (r_tokens r mod r_reqs r =? 0) = true.
Proof.
  intros (_ & Hr & Ht & _). split; [apply Z.leb_le; lia|].
  rewrite Ht, Z.mul_comm, Z.mod_mul by lia. done.
Qed.

(** What a rank needs from the shape it is handed: its requests fit the batch, the batch
    fits the token dimension the group shares, a decode batch is a compiled size, and a
    busy rank keeps its own query length. *)
Definition serves (r : report) (n : Z) (d : BatchDescriptor) : Prop :=
  num_tokens_padded d = Some n /\ r_reqs r <= num_reqs_padded d /\
  num_reqs_padded d * query_len d <= n /\
  (if r_prefill r then num_reqs_padded d = r_reqs r else num_reqs_padded d ∈ cfg_buckets cfg) /\
  (r_idle r = false -> query_len d = qlen r).

Lemma decide_idle r : (forall r, r ∈ reports -> r_idle r = true) -> r ∈ reports ->
  determine_batch_execution_and_padding cfg (r_reqs r) (r_tokens r) (r_prefill r)
    (Some (status_of reports)) None = Ok (None, ALL_IDLE).
Proof.
  intros Hall Hr. rewrite Forall_forall in Hwf. specialize (Hwf r Hr).
  unfold determine_batch_execution_and_padding.
  destruct (prologue_ok r Hwf) as [-> ->]. cbn.
  destruct (local_ok r Hwf) as (b & -> & _). cbn.
  assert (busy_ranks (status_of reports) = []) as ->; [|done].
  destruct (busy_ranks (status_of reports)) as [|i l] eqn:E; [done|exfalso].
  assert (i ∈ busy_ranks (status_of reports)) as Hi by (rewrite E; set_solver).
  apply elem_of_busy in Hi as (r' & Hr' & Hb). apply list_elem_of_lookup_2 in Hr'.
  specialize (Hall r' Hr'). congruence.
Qed.

Lemma busy_not_nil : (exists r, r ∈ reports /\ r_idle r = false) ->
  busy_ranks (status_of reports) <> [].
Proof.
  intros (r & Hr & Hb) E. apply list_elem_of_lookup in Hr as [i Hi].
  assert (i ∈ busy_ranks (status_of reports)) as H by (apply elem_of_busy; eauto).
  rewrite E in H. by apply not_elem_of_nil in H.
Qed.

(** The bounds of the busy ranks' query lengths and request counts. *)
Lemma busy_max : busy_ranks (status_of reports) <> [] ->
  existsb id (st_is_prefill (status_of reports)) = false ->
  exists q lo n, py_max (rank_qlen <$> busy_ranks (status_of reports)) = Ok q /\
    py_min (rank_qlen <$> busy_ranks (status_of reports)) = Ok lo /\
    py_max (rank_reqs <$> busy_ranks (status_of reports)) = Ok n /\
    1 <= q /\ top * q <= max_num_tokens cfg /\ 1 <= n <= top /\
    forall r, r ∈ reports -> r_prefill r = false /\ r_reqs r <= n /\ qlen r <= q /\
      (r_idle r = false -> lo <= qlen r).
Proof.
  intros Hne Hpre.
  destruct (py_max_ok (rank_qlen <$> busy_ranks (status_of reports))) as (q & Hq & Hqin & Hqmax);
    [by destruct (busy_ranks _)|].
  destruct (py_min_ok (rank_qlen <$> busy_ranks (status_of reports))) as (lo & Hlo & _ & Hmin);
    [by destruct (busy_ranks _)|].
  destruct (py_max_ok (rank_reqs <$> busy_ranks (status_of reports))) as (n & Hn & Hnin & Hnmax);
    [by destruct (busy_ranks _)|].
  assert (forall r, r ∈ reports -> r_prefill r = false) as Hdec.
  { intros r Hr. destruct (r_prefill r) eqn:E; [|done].
    assert (existsb id (st_is_prefill (status_of reports)) = true) as H; [|congruence].
    apply existsb_exists. exists true. split; [|done]. cbn. apply list_elem_of_In.
    rewrite <- E. by apply list_elem_of_fmap_2. }
  apply list_elem_of_fmap in Hqin as (iq & Eq & (rq & Hrq & _)%elem_of_busy).
  apply list_elem_of_fmap in Hnin as (i & En & (rn & Hrn & _)%elem_of_busy).
  unfold rank_qlen in Eq. unfold rank_reqs in En. rewrite Hrq in Eq. rewrite Hrn in En. subst q n.
  pose proof (wf_at _ _ Hrq) as (_ & _ & _ & Hq1 & Hfq & _).
  pose proof (wf_at _ _ Hrn) as (_ & Hn1 & _ & _ & Hfn & _).
  rewrite Hdec in Hfq, Hfn by (by eapply list_elem_of_lookup_2).
  exists (qlen rq), lo, (r_reqs rn). split; [done|]. split; [done|]. split; [done|].
  split; [done|]. split; [lia|]. split; [lia|].
  intros r Hr. split; [by apply Hdec|]. pose proof Hr as Hr'.
  apply list_elem_of_lookup in Hr' as [j Hj].
  pose proof (wf_at _ _ Hj) as (_ & Hr1 & _ & Hqr & _ & Hidle).
  destruct (r_idle r) eqn:Eid.
  - destruct (Hidle eq_refl) as (-> & -> & _). split; [lia|]. split; [lia|done].
  - assert (j ∈ busy_ranks (status_of reports)) as Hjb by (apply elem_of_busy; eauto).
    assert (rank_qlen j = qlen r) as Ejq by (unfold rank_qlen; by rewrite Hj).
    assert (rank_reqs j = r_reqs r) as Ejn by (unfold rank_reqs; by rewrite Hj).
    split; [rewrite <- Ejn; apply Hnmax; by apply list_elem_of_fmap_2|].
    split; [rewrite <- Ejq; apply Hqmax; by apply list_elem_of_fmap_2|].
    intros _. rewrite <- Ejq; apply Hmin; by apply list_elem_of_fmap_2.
Qed.

Lemma decide_busy : (exists r, r ∈ reports /\ r_idle r = false) ->
  exists route n common, n <= max_num_tokens cfg /\
  forall r, r ∈ reports -> exists d,
    determine_batch_execution_and_padding cfg (r_reqs r) (r_tokens r) (r_prefill r)
      (Some (status_of reports)) None = Ok (Some d, route) /\
    serves r n d /\ (route = AGREED -> d = common).
Proof.
  intros Hbusy. apply busy_not_nil in Hbusy as Hne.
  assert (forall r, r ∈ reports -> report_wf cfg top r) as Hin by (by apply Forall_forall).
  unfold determine_batch_execution_and_padding. cbv zeta.
  rewrite bool_decide_false by done.
  destruct (specialized_moe_decode cfg); cbn [negb].
  2:{ exists UNSPECIALIZED, (max_num_tokens cfg), (mkDescriptor 0 0 None). split; [lia|].
      intros r Hr. specialize (Hin r Hr). destruct (prologue_ok r Hin) as [-> ->]. cbn.
      destruct (local_ok r Hin) as (b & -> & Hb & Hfit & Hkind). cbn. fold (qlen r).
      rewrite batch_descriptor_ok by done. eexists. split; [done|]. split; [|done].
      split; [done|]. by destruct (r_prefill r). }
  destruct (existsb id (st_is_prefill (status_of reports))) eqn:Hpre.
  { exists ANY_PREFILL, (max_num_tokens cfg), (mkDescriptor 0 0 None). split; [lia|].
    intros r Hr. specialize (Hin r Hr). destruct (prologue_ok r Hin) as [-> ->]. cbn.
    destruct (local_ok r Hin) as (b & -> & _). cbn. fold (qlen r).
    destruct Hin as (_ & _ & Ht & _ & Hfit & _). rewrite top_bucket_ok.
    destruct (r_prefill r) eqn:Ep; cbn; rewrite batch_descriptor_ok by lia;
      (eexists; split; [done|]); (split; [|done]); unfold serves; cbn; rewrite Ep.
    - split; [done|]. split; [lia|]. split; [lia|done].
    - split; [done|]. split; [lia|]. split; [lia|]. split; [apply top_in|done]. }
  destruct (busy_max Hne Hpre) as (q & lo & n & Hq & Hlo & Hn & Hq1 & Htq & Hnb & Hall).
  destruct (find_ok n) as (b & Hb & Hbin & Hbn); [lia|].
  rewrite all_uniform_ok by (intros i (r & ? & _)%elem_of_busy; eauto).
  rewrite query_lens_ok, busy_reqs_ok, top_bucket_ok. cbn. rewrite Hq, Hlo, Hn. cbn. rewrite Hb.
  destruct (lo =? q) eqn:Elo; zbool; cbn.
  - exists AGREED, (b * q), (mkDescriptor b q (Some (b * q))). split; [nia|].
    intros r Hr. specialize (Hin r Hr). destruct (prologue_ok r Hin) as [-> ->]. cbn.
    destruct (local_ok r Hin) as (b' & -> & _). cbn. rewrite batch_descriptor_ok by lia.
    eexists. split; [done|]. split; [|done]. destruct (Hall r Hr) as (Ep & Hrn & Hrq & Hrlo).
    unfold serves; cbn. rewrite Ep. split; [done|]. split; [lia|]. split; [lia|].
    split; [done|]. intros Eid. specialize (Hrlo Eid). lia.
  - exists QLEN_ASYM, (top * q), (mkDescriptor 0 0 None). split; [lia|].
    intros r Hr. specialize (Hin r Hr). destruct (prologue_ok r Hin) as [-> ->]. cbn.
    destruct (local_ok r Hin) as (b' & -> & _). cbn. fold (qlen r).
    destruct (Hall r Hr) as (Ep & Hrn & Hrq & _).
    rewrite batch_descriptor_ok by nia. eexists. split; [done|]. split; [|done].
    unfold serves; cbn. rewrite Ep. split; [done|]. split; [lia|]. split; [nia|].
    split; [apply top_in|done].
Qed.

Lemma coordinate_at all_reduce i r pin :
  (forall c, all_reduce c = sum_all_reduce c) -> reports !! i = Some r ->
  coordinate_batch_across_dp all_reduce cfg reports i pin =
    ('(d, route) ← determine_batch_execution_and_padding cfg (r_reqs r) (r_tokens r)
                     (r_prefill r) (Some (status_of reports)) pin;
     Ok (d, route, status_of reports)).
Proof.
  intros Har Hr. unfold coordinate_batch_across_dp. rewrite synchronize_ok; [|done|].
  2:{ eapply Forall_impl; [done|]. by intros r' (? & _). }
  cbn. unfold at_rank. by rewrite Hr.
Qed.

(** ** The draft *)

Lemma draft_query_lens_ok g h l :
  (forall r, r ∈ l -> 1 <= r_reqs r /\ g r = r_reqs r * h r) ->
  draft_query_lens (g <$> l) (r_reqs <$> l) = Ok (h <$> l).
Proof.
  unfold draft_query_lens. induction l as [|r l IH]; intros H; [done|].
  rewrite !fmap_cons. cbn [zip_with mapM fst snd]. rewrite IH by set_solver.
  destruct (H r ltac:(set_solver)) as [Hr ->]. unfold py_floordiv.
  destruct (r_reqs r =? 0) eqn:E; zbool; [lia|]. cbn.
  rewrite Z.mul_comm, Z.div_mul by lia. done.
Qed.

(** The query length every rank stages in a draft pass.  First pass: what the step ran,
    where an idle rank may have adopted a decoding peer's length.  Later passes: one
    length the drafter fixes, and only decode-sized batches are left. *)
Definition staged_ok (first_pass : bool) (staged : nat -> Z) : Prop :=
  if first_pass then
    forall i r, reports !! i = Some r ->
      if r_idle r then staged i = 1 \/
        exists r', r' ∈ reports /\ r_idle r' = false /\ r_prefill r' = false /\ staged i = qlen r'
      else staged i = qlen r
  else exists q, (forall i, staged i = q) /\ 1 <= q /\ top * q <= max_num_tokens cfg /\
    forall r, r ∈ reports -> r_reqs r <= top.

Lemma staged_fits first_pass staged i r :
  staged_ok first_pass staged -> reports !! i = Some r ->
  1 <= staged i /\
  (if first_pass && r_prefill r then r_reqs r * staged i <= max_num_tokens cfg
   else r_reqs r <= top /\ top * staged i <= max_num_tokens cfg).
Proof.
  intros Hst Hi. pose proof (wf_at _ _ Hi) as (_ & Hr & Ht & Hq & Hfit & Hidle).
  destruct first_pass; cbn in *.
  2:{ destruct Hst as (q & Hs & Hq1 & Hqt & Hle). rewrite Hs. split; [done|].
      split; [|done]. apply Hle. by eapply list_elem_of_lookup_2. }
  specialize (Hst _ _ Hi). destruct (r_idle r).
  - destruct (Hidle eq_refl) as (Er & Eq & Ep). rewrite Ep in *.
    destruct Hst as [->|(r' & Hr' & _ & Ep' & ->)]; [rewrite Eq in Hfit; lia|].
    apply list_elem_of_lookup in Hr' as [j Hj].
    destruct (wf_at _ _ Hj) as (_ & _ & _ & Hq' & Hfit' & _). rewrite Ep' in Hfit'. lia.
  - rewrite Hst. split; [done|]. destruct (r_prefill r); lia.
Qed.

(** The numbers all ranks read off the status in a draft pass. *)
Definition draft_any_prefill (first_pass : bool) : bool :=
  first_pass && existsb id (r_prefill <$> reports).
Definition draft_tokens (first_pass : bool) (staged : nat -> Z) : list Z :=
  if first_pass then r_tokens <$> reports
  else (fun reqs => reqs * staged 0%nat) <$> (r_reqs <$> reports).
Definition draft_qlen (first_pass : bool) (staged : nat -> Z) (r : report) : Z :=
  if first_pass then qlen r else staged 0%nat.

Lemma draft_tokens_qlens first_pass staged :
  draft_query_lens (draft_tokens first_pass staged) (r_reqs <$> reports)
  = Ok (draft_qlen first_pass staged <$> reports).
Proof.
  assert (draft_tokens first_pass staged
    = (fun r => r_reqs r * draft_qlen first_pass staged r) <$> reports) as ->.
  { unfold draft_tokens, draft_qlen. destruct first_pass; [|by rewrite <- list_fmap_compose].
    apply list_fmap_ext. intros i r Hr. by destruct (wf_at _ _ Hr) as (_ & _ & ? & _). }
  apply draft_query_lens_ok. intros r Hr. split; [|done].
  apply list_elem_of_lookup in Hr as [i Hi]. by destruct (wf_at _ _ Hi) as (_ & ? & _).
Qed.

Lemma staged_le_qlen first_pass staged mq i r :
  staged_ok first_pass staged ->
  (forall x, x ∈ draft_qlen first_pass staged <$> reports -> x <= mq) ->
  reports !! i = Some r -> staged i <= mq.
Proof.
  intros Hst Hmq Hi. assert (forall r', r' ∈ reports -> draft_qlen first_pass staged r' <= mq) as H.
  { intros r' Hr'. by apply Hmq, list_elem_of_fmap_2. }
  pose proof (list_elem_of_lookup_2 _ _ _ Hi) as Hr. pose proof (H r Hr) as Hle.
  unfold draft_qlen in *. destruct first_pass; cbn in Hst.
  - specialize (Hst _ _ Hi). destruct (wf_at _ _ Hi) as (_ & _ & _ & ? & _ & Hidle).
    destruct (r_idle r); [|lia]. destruct Hst as [->|(r' & Hr' & _ & _ & ->)]; [lia|auto].
  - destruct Hst as (q & Hs & _). rewrite Hs in *. lia.
Qed.

Lemma no_prefill first_pass i r :
  draft_any_prefill first_pass = false -> reports !! i = Some r ->
  first_pass && r_prefill r = false.
Proof.
  unfold draft_any_prefill. intros Hf Hi. destruct first_pass; [|done]. cbn in *.
  destruct (r_prefill r) eqn:E; [|done].
  enough (existsb id (r_prefill <$> reports) = true) by congruence.
  apply existsb_exists. exists true. split; [|done]. apply list_elem_of_In.
  rewrite <- E. apply list_elem_of_fmap_2. by eapply list_elem_of_lookup_2.
Qed.

(** Without a prefilling rank the shared padding is a compiled size times a length the
    padding target holds. *)
Lemma draft_bounds first_pass staged mr mq :
  staged_ok first_pass staged -> draft_any_prefill first_pass = false ->
  mr ∈ r_reqs <$> reports -> mq ∈ draft_qlen first_pass staged <$> reports ->
  top * mq <= max_num_tokens cfg /\ 1 <= mq /\
  exists b, find_bucket cfg mr = Ok b /\ mr <= b <= top.
Proof.
  intros Hst Hf (r & -> & [i Hi]%list_elem_of_lookup)%list_elem_of_fmap
    (r' & -> & [j Hj]%list_elem_of_lookup)%list_elem_of_fmap.
  destruct (staged_fits _ _ _ _ Hst Hi) as [_ Hfit]. rewrite (no_prefill _ _ _ Hf Hi) in Hfit.
  destruct (find_ok (r_reqs r)) as (b & Hb & _ & Hle); [lia|].
  unfold draft_qlen. destruct first_pass; cbn in Hst.
  - pose proof (no_prefill _ _ _ Hf Hj) as Hp. cbn in Hp.
    destruct (wf_at _ _ Hj) as (_ & _ & _ & ? & Hf' & _). rewrite Hp in Hf'.
    split; [lia|]. split; [done|]. eauto.
  - destruct Hst as (q & Hs & ? & ? & _). rewrite Hs. split; [done|]. split; [done|]. eauto.
Qed.

Lemma draft_counts_ok first_pass staged i r :
  staged_ok first_pass staged -> reports !! i = Some r ->
  draft_counts (status_of reports) i (r_reqs r * staged i) (staged i) first_pass
  = Ok (draft_tokens first_pass staged, draft_any_prefill first_pass,
        draft_tokens first_pass staged).
Proof.
  intros Hst Hi. unfold draft_counts. destruct first_pass; cbn in *.
  - change (st_is_idle (status_of reports)) with (r_idle <$> reports).
    change (st_num_tokens (status_of reports)) with (r_tokens <$> reports).
    rewrite !(at_rank_fmap _ _ _ _ Hi). cbn. specialize (Hst _ _ Hi).
    destruct (r_idle r); [done|]. cbn. rewrite Hst. destruct (wf_at _ _ Hi) as (_ & _ & <- & _).
    by rewrite Z.eqb_refl.
  - unfold draft_tokens. destruct Hst as (q & Hs & _). by rewrite !Hs.
Qed.

(** The batch a rank's draft runs, given the rank's own padded batch [b]. *)
Lemma draft_padding_ok first_pass staged moe i r b n :
  staged_ok first_pass staged -> reports !! i = Some r ->
  r_reqs r <= b -> b * staged i <= max_num_tokens cfg ->
  n = (if specialized_moe_decode cfg && negb (draft_any_prefill first_pass) then
         match py_max (r_reqs <$> reports), py_max (draft_qlen first_pass staged <$> reports) with
         | Ok mr, Ok mq => match find_bucket cfg mr with Ok b => b * mq | Raise _ => 0 end
         | _, _ => 0
         end
       else max_num_tokens cfg) ->
  exists b' p, draft_padding cfg (status_of reports) (draft_tokens first_pass staged) b
      (staged i) (draft_any_prefill first_pass) (first_pass && r_prefill r) moe = Ok (b', p) /\
    r_reqs r <= b' /\ b' * staged i <= p /\ (moe = true -> p = n) /\ n <= max_num_tokens cfg.
Proof.
  intros Hst Hi Hbr Hbt ->. assert (reports <> []) as Hne by (by intros ->).
  destruct (py_max_ok (r_reqs <$> reports)) as (mr & Hmr & Hmrin & Hmrle); [by destruct reports|].
  destruct (py_max_ok (draft_qlen first_pass staged <$> reports)) as (mq & Hmq & Hmqin & Hmqle);
    [by destruct reports|]. rewrite Hmr, Hmq.
  pose proof (fun H => draft_bounds _ _ _ _ Hst H Hmrin Hmqin) as Hb.
  pose proof (staged_fits _ _ _ _ Hst Hi) as [Hs1 Hfit].
  pose proof (staged_le_qlen _ _ _ _ _ Hst Hmqle Hi) as Hsq.
  assert (r_reqs r <= mr) as Hrm
    by (apply Hmrle, list_elem_of_fmap_2; by eapply list_elem_of_lookup_2).
  unfold draft_padding. change (st_num_reqs (status_of reports)) with (r_reqs <$> reports).
  rewrite draft_tokens_qlens, top_bucket_ok. cbn. rewrite Hmr, Hmq. cbn.
  pose proof (fun H => no_prefill first_pass i r H Hi) as Hnp.
  pose proof (wf_at _ _ Hi) as (_ & Hr1 & _).
  destruct (draft_any_prefill first_pass) eqn:Ea, (first_pass && r_prefill r) eqn:Ep;
    try (by specialize (Hnp eq_refl));
    try (destruct (Hb eq_refl) as (Ht & Hq & b0 & -> & Hb0);
         assert (b0 * mq <= top * mq) by nia; assert (b0 * staged i <= b0 * mq) by nia);
    destruct moe, (specialized_moe_decode cfg); cbn;
    (eexists _, _; split; [reflexivity|]); (split; [lia|]); (split; [nia|]); (split; [done|nia]).
Qed.

Lemma decide_draft first_pass staged moe : reports <> [] ->
  staged_ok first_pass staged ->
  exists n tokens, n <= max_num_tokens cfg /\ forall i r, reports !! i = Some r -> exists d,
    determine_draft_batch_execution_and_padding cfg (Some (status_of reports)) i (r_reqs r)
      (r_reqs r * staged i) (first_pass && r_prefill r) moe first_pass None
      = Ok (d, Some tokens) /\
    query_len d = staged i /\ r_reqs r <= num_reqs_padded d /\
    exists p, num_tokens_padded d = Some p /\ num_reqs_padded d * query_len d <= p /\
      (moe = true -> p = n).
Proof.
  intros Hne Hst.
  exists (if specialized_moe_decode cfg && negb (draft_any_prefill first_pass) then
       match py_max (r_reqs <$> reports), py_max (draft_qlen first_pass staged <$> reports) with
       | Ok mr, Ok mq => match find_bucket cfg mr with Ok b => b * mq | Raise _ => 0 end
       | _, _ => 0
       end
     else max_num_tokens cfg), (draft_tokens first_pass staged).
  assert (forall i r, reports !! i = Some r -> exists b,
    (if first_pass && r_prefill r then Ok (r_reqs r) else find_bucket cfg (r_reqs r)) = Ok b /\
    r_reqs r <= b /\ b * staged i <= max_num_tokens cfg) as Hloc.
  { intros i r Hi. destruct (staged_fits _ _ _ _ Hst Hi) as [Hs1 Hfit].
    destruct (first_pass && r_prefill r); [exists (r_reqs r); split; [done|lia]|].
    destruct (find_ok (r_reqs r)) as (b & -> & _ & ?); [lia|]. exists b. split; [done|]. nia. }
  split.
  { destruct (reports !! 0%nat) as [r|] eqn:Hi; [|by destruct reports].
    destruct (Hloc _ _ Hi) as (b & _ & Hb1 & Hb2).
    by destruct (draft_padding_ok _ _ moe _ _ b _ Hst Hi Hb1 Hb2 eq_refl)
      as (? & ? & _ & _ & _ & _ & ?). }
  intros i r Hi. pose proof (wf_at _ _ Hi) as (_ & Hr1 & Ht & Hq1 & _).
  destruct (Hloc _ _ Hi) as (b & Hb & Hb1 & Hb2).
  destruct (draft_padding_ok _ _ moe _ _ b _ Hst Hi Hb1 Hb2 eq_refl)
    as (b' & p & Hpad & Hb'1 & Hb'2 & Hn & _).
  unfold determine_draft_batch_execution_and_padding. rewrite Hb.
  rewrite (proj2 (Z.leb_le _ _)) by lia.
  assert ((r_reqs r * staged i) mod r_reqs r = 0) as ->
    by (rewrite Z.mul_comm; apply Z.mod_mul; lia).
  assert ((r_reqs r * staged i) / r_reqs r = staged i) as ->
    by (rewrite Z.mul_comm; apply Z.div_mul; lia). cbn.
  change (st_num_reqs (status_of reports)) with (r_reqs <$> reports).
  rewrite (at_rank_fmap r_reqs _ _ _ Hi). cbn. rewrite Z.eqb_refl. cbn.
  rewrite (draft_counts_ok _ _ _ _ Hst Hi). cbn. rewrite Hpad. cbn.
  rewrite batch_descriptor_ok by done. eexists. split; [done|]. split; [done|]. split; [done|].
  by exists p.
Qed.
End group.

(** ** Properties *)

(** The packed all-reduce is a gather: when every report fits its bit fields, each
    rank reads back exactly what every rank said, and a count beyond 65535 tokens or 8191
    requests is refused by the assertion instead of being corrupted. *)
Theorem dp_reports_round_trip all_reduce reports :
  (forall c, all_reduce c = sum_all_reduce c) ->
  Forall (fun r => 0 <= r_tokens r /\ 0 <= r_reqs r) reports ->
  (Forall in_limits reports ->
     synchronize_dp_ranks all_reduce reports = Ok (status_of reports)) /\
  (~ Forall in_limits reports ->
     synchronize_dp_ranks all_reduce reports = Raise AssertionError).
Proof.
  intros Har Hpos. split; [by apply synchronize_ok|by apply synchronize_over_limit].
Qed.

Definition ex_reports : list report :=
  [mkReport 6 3 false false; mkReport 1 1 false true; mkReport 10 5 false false].

Lemma dp_reports_round_trip_witness :
  synchronize_dp_ranks sum_all_reduce ex_reports = Ok (status_of ex_reports) /\
  synchronize_dp_ranks sum_all_reduce [mkReport 65536 1 true false] = Raise AssertionError.
Proof.
  split.
  - apply (dp_reports_round_trip sum_all_reduce ex_reports); [done| |];
      repeat constructor; cbn; lia.
  - apply (dp_reports_round_trip sum_all_reduce [mkReport 65536 1 true false]); [done| |].
    + repeat constructor; cbn; lia.
    + intros H. apply Forall_inv in H as [H _]. cbn in H. lia.
Defined.

(** C20: in a group whose reports are well formed no rank's decision fails, a drained group
    stops on every rank, and otherwise all ranks take the same route and the same token
    dimension, at most [max_num_tokens]; each rank's batch holds its requests and fits
    that dimension, and on the agreed route they all run one and the same graph. *)
Theorem dp_ranks_agree all_reduce cfg top reports :
  (forall c, all_reduce c = sum_all_reduce c) ->
  BucketFinder (cfg_buckets cfg) (find_bucket cfg) ->
  last (cfg_buckets cfg) = Some top ->
  Forall (report_wf cfg top) reports ->
  ((forall r, r ∈ reports -> r_idle r = true) ->
     forall i r, reports !! i = Some r ->
     coordinate_batch_across_dp all_reduce cfg reports i None
     = Ok (None, ALL_IDLE, status_of reports)) /\
  ((exists r, r ∈ reports /\ r_idle r = false) ->
     exists route n common, n <= max_num_tokens cfg /\
     forall i r, reports !! i = Some r -> exists d,
       coordinate_batch_across_dp all_reduce cfg reports i None
       = Ok (Some d, route, status_of reports) /\
       serves cfg r n d /\ (route = AGREED -> d = common)).
Proof.
  intros Har BF Htop Hwf. split.
  - intros Hall i r Hi. erewrite coordinate_at by done.
    rewrite (decide_idle cfg top reports Htop Hwf r Hall); [done|].
    by eapply list_elem_of_lookup_2.
  - intros Hbusy. destruct (decide_busy cfg top reports Htop Hwf Hbusy)
      as (route & n & common & Hn & Hd).
    exists route, n, common. split; [done|]. intros i r Hi.
    destruct (Hd r) as (d & E & ?); [by eapply list_elem_of_lookup_2|]. exists d.
    erewrite coordinate_at by done. by rewrite E.
Qed.

Definition ex_cfg : ShapeConfig := mkShapeConfig [1; 4; 8] (find_bucket_in [1; 4; 8]) 128 true.

Lemma ex_bucket_finder : BucketFinder (cfg_buckets ex_cfg) (find_bucket ex_cfg).
Proof. apply BucketFinder_list; [repeat constructor; lia|done]. Defined.

Lemma ex_reports_wf : Forall (report_wf ex_cfg 8) ex_reports.
Proof. repeat constructor; cbn; try done; lia. Defined.

Lemma dp_ranks_agree_witness : exists route n common, n <= 128 /\
  forall i r, ex_reports !! i = Some r -> exists d,
    coordinate_batch_across_dp sum_all_reduce ex_cfg ex_reports i None
    = Ok (Some d, route, status_of ex_reports) /\
    serves ex_cfg r n d /\ (route = AGREED -> d = common).
Proof.
  apply (dp_ranks_agree sum_all_reduce ex_cfg 8 ex_reports);
    [done|apply ex_bucket_finder|done|apply ex_reports_wf|].
  exists (mkReport 6 3 false false). split; [set_solver|done].
Defined.

(** The idle rank adopts the agreed length and runs the busy ranks' graph. *)
Example idle_rank_adopts :
  coordinate_batch_across_dp sum_all_reduce ex_cfg ex_reports 1 None
  = Ok (Some (mkDescriptor 8 2 (Some 16)), AGREED, status_of ex_reports).
Proof. vm_compute. reflexivity. Qed.

(** A draft pass decided from the status the step published never fails on a
    well-formed group: every rank stages its own query length in a batch that holds its
    requests and fits the token dimension, the forward contexts receive the same token
    counts, and for a draft with fused MoE the token dimension is the same on all ranks. *)
Theorem dp_draft_agrees cfg top reports first_pass staged moe :
  BucketFinder (cfg_buckets cfg) (find_bucket cfg) ->
  last (cfg_buckets cfg) = Some top ->
  Forall (report_wf cfg top) reports -> reports <> [] ->
  staged_ok cfg top reports first_pass staged ->
  exists n tokens, n <= max_num_tokens cfg /\ forall i r, reports !! i = Some r -> exists d,
    determine_draft_batch_execution_and_padding cfg (Some (status_of reports)) i (r_reqs r)
      (r_reqs r * staged i) (first_pass && r_prefill r) moe first_pass None
      = Ok (d, Some tokens) /\
    query_len d = staged i /\ r_reqs r <= num_reqs_padded d /\
    exists p, num_tokens_padded d = Some p /\ num_reqs_padded d * query_len d <= p /\
      (moe = true -> p = n).
Proof. intros BF Htop Hwf Hne Hst. by eapply decide_draft. Qed.

Lemma dp_draft_agrees_witness : exists n tokens, n <= 128 /\
  forall i r, ex_reports !! i = Some r -> exists d,
    determine_draft_batch_execution_and_padding ex_cfg (Some (status_of ex_reports)) i
      (r_reqs r) (r_reqs r * 2) (true && r_prefill r) true true None = Ok (d, Some tokens) /\
    query_len d = 2 /\ r_reqs r <= num_reqs_padded d /\
    exists p, num_tokens_padded d = Some p /\ num_reqs_padded d * query_len d <= p /\
      (true = true -> p = n).
Proof.
  apply (dp_draft_agrees ex_cfg 8 ex_reports true (fun _ => 2) true);
    [apply ex_bucket_finder|done|apply ex_reports_wf|done|].
  intros [|[|[|i]]] r [= <-]; cbn; try done.
  right. exists (mkReport 6 3 false false). split; [set_solver|done].
Defined.
