(* ===== verification/BlockMapping.v ===== *)
(** * Outer and inner blocks
    ([src/vllm_rbln/v1/core/prefix_cache_manager/optimum_block_mapping_manager.py])

    The prefix cache of the precompiled ("optimum") path keeps two indexes over blocks:
    each outer (device) block lists the inner (vLLM) blocks it holds, and each inner
    block names the outer block that holds it.  [mapping_wf] says the two agree; every
    operation keeps it, in particular the reassignment of an inner block that is still
    listed by a stale outer block.  [_block_mappings] is an insertion-ordered
    dictionary: its order is the order eviction candidates are offered in. *)

From S2P Require Import Prelude.

(** ** Data *)

Record RBLNBlock := mkBlock { block_id : Z }.

Record BlockMapping := mkMapping {
  outer_block_id : Z;
  inner_block_ids : list Z;
  mapping_request_id : option string;
  is_active : bool
}.

Record BlockMappingManager := mkMM {
  block_mappings : odict Z BlockMapping;
  inner_to_outer : gmap Z Z;
  request_to_outer_blocks : gmap string (list Z)
}.

Definition new_mapping_manager : BlockMappingManager := mkMM [] ∅ ∅.

(** ** Operations *)

Definition is_request_registered (request_id : string) (mm : BlockMappingManager) : bool :=
  bool_decide (is_Some (request_to_outer_blocks mm !! request_id)).

Definition is_inner_block_mapped (inner_block_id : Z) (mm : BlockMappingManager) : bool :=
  bool_decide (is_Some (inner_to_outer mm !! inner_block_id)).

Definition get_mapping (outer : Z) (mm : BlockMappingManager) : option BlockMapping :=
  od_get outer (block_mappings mm).

Definition get_outer_block_for_inner (inner : Z) (mm : BlockMappingManager) : option Z :=
  inner_to_outer mm !! inner.

Definition get_inner_blocks_for_outer (outer : Z) (mm : BlockMappingManager) : list Z :=
  match get_mapping outer mm with Some m => inner_block_ids m | None => [] end.

(** [l.remove(x)]: the first occurrence. *)
Fixpoint list_remove_first (x : Z) (l : list Z) : list Z :=
  match l with
  | [] => []
  | y :: l => if decide (x = y) then l else y :: list_remove_first x l
  end.

Definition set_inner_block_ids (ids : list Z) (m : BlockMapping) : BlockMapping :=
  mkMapping (outer_block_id m) ids (mapping_request_id m) (is_active m).

(** Stores back a [BlockMapping] object that was mutated in place. *)
Definition put_mapping (outer : Z) (m : BlockMapping) (mm : BlockMappingManager)
    : BlockMappingManager :=
  mkMM (od_set outer m (block_mappings mm)) (inner_to_outer mm)
    (request_to_outer_blocks mm).

Definition detach_inner_from_stale_outer (inner new_outer : Z) (mm : BlockMappingManager)
    : BlockMappingManager :=
  match inner_to_outer mm !! inner with
  | None => mm
  | Some prev_outer =>
      if prev_outer =? new_outer then mm
      else
        match get_mapping prev_outer mm with
        | None => mm
        | Some prev_mapping =>
            if bool_decide (inner ∈ inner_block_ids prev_mapping) then
              put_mapping prev_outer
                (set_inner_block_ids
                   (list_remove_first inner (inner_block_ids prev_mapping)) prev_mapping) mm
            else mm
        end
  end.

Definition add_new_inner_to_outer (inner outer : Z) (mm : BlockMappingManager)
    : BlockMappingManager :=
  let mm := detach_inner_from_stale_outer inner outer mm in
  mkMM (block_mappings mm) (<[inner := outer]> (inner_to_outer mm))
    (request_to_outer_blocks mm).

Definition add_all_inner (inners : list Z) (outer : Z) (mm : BlockMappingManager)
    : BlockMappingManager :=
  foldl (fun mm inner => add_new_inner_to_outer inner outer mm) mm inners.

Definition create_mapping (outer_block : RBLNBlock) (inner_blocks : list Z)
    (request_id : string) (mm : BlockMappingManager) : BlockMappingManager :=
  let outer := block_id outer_block in
  let mm := put_mapping outer (mkMapping outer inner_blocks (Some request_id) true) mm in
  let mm := add_all_inner inner_blocks outer mm in
  mkMM (block_mappings mm) (inner_to_outer mm)
    (<[request_id := default [] (request_to_outer_blocks mm !! request_id) ++ [outer]]>
       (request_to_outer_blocks mm)).

Definition remove_mapping (outer : Z) (mm : BlockMappingManager)
    : option BlockMapping * BlockMappingManager :=
  let inner_block_ids := get_inner_blocks_for_outer outer mm in
  (get_mapping outer mm,
   mkMM (od_pop outer (block_mappings mm))
     (foldl (fun i2o inner => delete inner i2o) (inner_to_outer mm) inner_block_ids)
     (request_to_outer_blocks mm)).

Definition get_request_blocks (request_id : string) (mm : BlockMappingManager)
    : res (list Z) :=
  if is_request_registered request_id mm then
    of_option (request_to_outer_blocks mm !! request_id) KeyError
  else Raise ValueError.

Definition remove_request (request_id : string) (mm : BlockMappingManager)
    : list Z * BlockMappingManager :=
  (default [] (request_to_outer_blocks mm !! request_id),
   mkMM (block_mappings mm) (inner_to_outer mm)
     (delete request_id (request_to_outer_blocks mm))).

Definition get_inactive_mappings (mm : BlockMappingManager) : list BlockMapping :=
  filter (fun m => is_active m = false) (od_values (block_mappings mm)).

Fixpoint get_common_prefix (arr1 arr2 : list Z) : list Z :=
  match arr1, arr2 with
  | x :: arr1, y :: arr2 => if x =? y then x :: get_common_prefix arr1 arr2 else []
  | _, _ => []
  end.

Definition get_longest_matched_block (cached_ib_segment : list Z)
    (mm : BlockMappingManager) : res (Z * Z) :=
  first ← of_option (py_nth cached_ib_segment 0) IndexError;
  match get_outer_block_for_inner first mm with
  | None => Ok (-1, 0)
  | Some matched_ob =>
      let cached_ibs := get_inner_blocks_for_outer matched_ob mm in
      let cache_hit_size := len (get_common_prefix cached_ibs cached_ib_segment) in
      if 0 <? cache_hit_size then Ok (matched_ob, cache_hit_size) else Ok (-1, 0)
  end.

(** ** Well-formedness

    The two indexes describe one relation: an inner block is listed by an outer block
    exactly when it points back at it, and no outer block lists an inner block twice. *)
Record mapping_wf (mm : BlockMappingManager) : Prop := {
  mwf_keys : NoDup (od_keys (block_mappings mm));
  mwf_id : forall o m, get_mapping o mm = Some m -> outer_block_id m = o;
  mwf_nodup : forall o m, get_mapping o mm = Some m -> NoDup (inner_block_ids m);
  mwf_agree : forall o i,
    i ∈ get_inner_blocks_for_outer o mm <-> inner_to_outer mm !! i = Some o
}.

(** ** Lemmas *)

Lemma elem_of_list_remove_first x y l :
  NoDup l -> y ∈ list_remove_first x l <-> y ∈ l /\ y <> x.
Proof.
  induction l as [|z l IH]; simpl; intros Hnd; [set_solver|].
  apply NoDup_cons in Hnd as [Hz Hnd]. case_decide; [set_solver|].
  rewrite !elem_of_cons, IH by done. naive_solver.
Qed.

Lemma NoDup_list_remove_first x l : NoDup l -> NoDup (list_remove_first x l).
Proof.
  induction l as [|z l IH]; simpl; intros Hnd; [done|]. pose proof Hnd as Hnd'.
  apply NoDup_cons in Hnd as [Hz Hnd]. case_decide; [done|]. apply NoDup_cons. split; [|auto].
  rewrite elem_of_list_remove_first by done. naive_solver.
Qed.

Lemma get_mapping_put o m o' mm :
  get_mapping o' (put_mapping o m mm) = if decide (o' = o) then Some m else get_mapping o' mm.
Proof. apply od_get_set. Qed.

Lemma get_inner_put o m o' mm :
  get_inner_blocks_for_outer o' (put_mapping o m mm)
  = if decide (o' = o) then inner_block_ids m else get_inner_blocks_for_outer o' mm.
Proof. unfold get_inner_blocks_for_outer. rewrite get_mapping_put. by case_decide. Qed.

Lemma list_remove_first_id x l : x ∉ l -> list_remove_first x l = l.
Proof.
  induction l as [|y l IH]; simpl; intros Hx; [done|]. apply not_elem_of_cons in Hx as [? ?].
  rewrite decide_False by done. by rewrite IH.
Qed.

Lemma set_inner_block_ids_id m : set_inner_block_ids (inner_block_ids m) m = m.
Proof. by destruct m. Qed.

(** What a reassignment leaves of an outer block. *)
Lemma get_mapping_detach inner outer mm o :
  get_mapping o (detach_inner_from_stale_outer inner outer mm) =
    match get_mapping o mm with
    | Some m =>
        if decide (inner_to_outer mm !! inner = Some o /\ o <> outer) then
          Some (set_inner_block_ids (list_remove_first inner (inner_block_ids m)) m)
        else Some m
    | None => None
    end.
Proof.
  unfold detach_inner_from_stale_outer.
  destruct (inner_to_outer mm !! inner) as [prev|]; [|by destruct (get_mapping o mm)].
  destruct (Z.eqb_spec prev outer) as [->|Hne].
  { destruct (get_mapping o mm); [|done]. rewrite decide_False; [done|]. naive_solver. }
  destruct (get_mapping prev mm) as [pm|] eqn:Ep.
  2:{ destruct (get_mapping o mm) eqn:Eo; [|done]. rewrite decide_False; [done|]. naive_solver. }
  case_bool_decide as Hin; rewrite ?get_mapping_put.
  - destruct (decide (o = prev)) as [->|Ho].
    + rewrite Ep. by rewrite decide_True.
    + destruct (get_mapping o mm); [|done]. rewrite decide_False; [done|]. naive_solver.
  - destruct (get_mapping o mm) as [m|] eqn:Eo; [|done]. case_decide as Hd; [|done].
    destruct Hd as [[= ->] _]. rewrite Eo in Ep. injection Ep as ->.
    rewrite list_remove_first_id by done. by rewrite set_inner_block_ids_id.
Qed.

Lemma detach_keys inner outer mm :
  od_keys (block_mappings (detach_inner_from_stale_outer inner outer mm))
  = od_keys (block_mappings mm).
Proof.
  unfold detach_inner_from_stale_outer. repeat case_match; try done.
  unfold put_mapping. cbn [block_mappings]. rewrite od_keys_set, decide_True, app_nil_r; [done|].
  apply elem_of_od_keys. by eexists.
Qed.

Lemma detach_i2o inner outer mm :
  inner_to_outer (detach_inner_from_stale_outer inner outer mm) = inner_to_outer mm /\
  request_to_outer_blocks (detach_inner_from_stale_outer inner outer mm)
  = request_to_outer_blocks mm.
Proof. unfold detach_inner_from_stale_outer. by repeat case_match. Qed.

(** The state inside [create_mapping]'s loop: outer block [o] already lists the inner
    blocks in [todo], which still point elsewhere. *)
Record mapping_pending (o : Z) (todo : list Z) (mm : BlockMappingManager) : Prop := {
  mp_keys : NoDup (od_keys (block_mappings mm));
  mp_id : forall o' m, get_mapping o' mm = Some m -> outer_block_id m = o';
  mp_nodup : forall o' m, get_mapping o' mm = Some m -> NoDup (inner_block_ids m);
  mp_agree : forall o' i, i ∈ get_inner_blocks_for_outer o' mm <->
    inner_to_outer mm !! i = Some o' \/ (o' = o /\ i ∈ todo);
  mp_todo : forall i, i ∈ todo -> inner_to_outer mm !! i <> Some o
}.

Lemma mapping_pending_nil o mm : mapping_pending o [] mm <-> mapping_wf mm.
Proof.
  split.
  - intros [H1 H2 H3 H4 _]. split; [done|done|done|]. intros o' i. rewrite H4. set_solver.
  - intros [H1 H2 H3 H4]. split; [done|done|done| |set_solver].
    intros o' i. rewrite H4. set_solver.
Qed.

Lemma get_inner_detach inner outer mm o :
  get_inner_blocks_for_outer o (detach_inner_from_stale_outer inner outer mm) =
    if decide (inner_to_outer mm !! inner = Some o /\ o <> outer)
    then list_remove_first inner (get_inner_blocks_for_outer o mm)
    else get_inner_blocks_for_outer o mm.
Proof.
  unfold get_inner_blocks_for_outer. rewrite get_mapping_detach.
  destruct (get_mapping o mm); repeat case_decide; done.
Qed.

Lemma NoDup_get_inner o mm :
  (forall o' m, get_mapping o' mm = Some m -> NoDup (inner_block_ids m)) ->
  NoDup (get_inner_blocks_for_outer o mm).
Proof.
  intros H. unfold get_inner_blocks_for_outer. destruct (get_mapping o mm) eqn:E; eauto.
  constructor.
Qed.

Lemma add_new_inner_pending o i todo mm :
  i ∉ todo -> mapping_pending o (i :: todo) mm ->
  mapping_pending o todo (add_new_inner_to_outer i o mm).
Proof.
  intros Hi [Hk Hid Hnd Hag Htodo]. unfold add_new_inner_to_outer.
  destruct (detach_i2o i o mm) as [Ei _]. rewrite Ei.
  set (mm' := detach_inner_from_stale_outer i o mm).
  assert (forall o' m, get_mapping o' mm' = Some m ->
    exists m0, get_mapping o' mm = Some m0 /\ outer_block_id m = outer_block_id m0 /\
      NoDup (inner_block_ids m)) as Hm.
  { intros o' m. subst mm'. rewrite get_mapping_detach. destruct (get_mapping o' mm) as [m0|] eqn:E;
      [|done]. case_decide; intros [= <-]; exists m0; (split; [done|]); (split; [done|]).
    - cbn. apply NoDup_list_remove_first. eauto.
    - eauto. }
  split; cbn.
  - subst mm'. by rewrite detach_keys.
  - intros o' m (m0 & Hm0 & -> & _)%Hm. eauto.
  - intros o' m (m0 & _ & _ & ?)%Hm. done.
  - intros o' j. change (get_inner_blocks_for_outer o' _) with (get_inner_blocks_for_outer o' mm').
    subst mm'. rewrite get_inner_detach. rewrite lookup_insert. specialize (Hag o').
    assert (NoDup (get_inner_blocks_for_outer o' mm)) as Hnd' by (by apply NoDup_get_inner).
    specialize (Htodo i ltac:(set_solver)).
    case_decide as Hd; rewrite ?elem_of_list_remove_first by done; rewrite Hag, !elem_of_cons;
      repeat case_decide; simplify_eq; naive_solver.
  - intros j Hj. rewrite lookup_insert_ne by set_solver. apply Htodo. set_solver.
Qed.

Lemma add_all_inner_wf o todo : forall mm,
  NoDup todo -> mapping_pending o todo mm -> mapping_wf (add_all_inner todo o mm).
Proof.
  induction todo as [|i todo IH]; intros mm Hnd H; [by apply (mapping_pending_nil o)|].
  apply NoDup_cons in Hnd as [Hi Hnd]. apply IH; [done|]. by apply add_new_inner_pending.
Qed.

(** ** Preservation *)

Lemma get_inner_unmapped o mm : get_mapping o mm = None -> get_inner_blocks_for_outer o mm = [].
Proof. unfold get_inner_blocks_for_outer. by intros ->. Qed.

Lemma unmapped_not_target o mm i :
  mapping_wf mm -> get_mapping o mm = None -> inner_to_outer mm !! i <> Some o.
Proof.
  intros Hwf Ho Hi. apply (mwf_agree _ Hwf) in Hi. rewrite get_inner_unmapped in Hi by done.
  by apply not_elem_of_nil in Hi.
Qed.

Lemma new_manager_wf : mapping_wf new_mapping_manager.
Proof.
  split; cbn; [constructor|done|done|]. intros o i. rewrite lookup_empty.
  split; [by intros ?%not_elem_of_nil|done].
Qed.

(** An outer block none of whose inner blocks is reassigned keeps its mapping. *)
Lemma add_all_inner_keeps o o' m l : forall mm,
  NoDup l -> mapping_pending o l mm -> o' <> o -> get_mapping o' mm = Some m ->
  (forall i, i ∈ l -> i ∉ inner_block_ids m) ->
  get_mapping o' (add_all_inner l o mm) = Some m.
Proof.
  induction l as [|i l IH]; intros mm Hnd Hp Ho Hm Hl; [done|].
  apply NoDup_cons in Hnd as [Hi Hnd].
  change (add_all_inner (i :: l) o mm) with (add_all_inner l o (add_new_inner_to_outer i o mm)).
  apply IH; [done|by apply add_new_inner_pending|done| |set_solver].
  change (get_mapping o' (add_new_inner_to_outer i o mm))
    with (get_mapping o' (detach_inner_from_stale_outer i o mm)).
  rewrite get_mapping_detach, Hm, decide_False; [done|]. intros [Hi2 _].
  assert (i ∈ get_inner_blocks_for_outer o' mm) as Hin by (apply (mp_agree _ _ _ Hp); by left).
  unfold get_inner_blocks_for_outer in Hin. rewrite Hm in Hin. apply (Hl i); [by left|done].
Qed.

Lemma put_fresh_pending o inners r mm :
  mapping_wf mm -> get_mapping o mm = None -> NoDup inners ->
  mapping_pending o inners (put_mapping o (mkMapping o inners (Some r) true) mm).
Proof.
  intros Hwf Ho Hnd. split.
  - apply NoDup_od_set, (mwf_keys _ Hwf).
  - intros o' m. rewrite get_mapping_put. case_decide; [by intros [= <-]|]. apply (mwf_id _ Hwf).
  - intros o' m. rewrite get_mapping_put. case_decide; [by intros [= <-]|]. apply (mwf_nodup _ Hwf).
  - intros o' i. rewrite get_inner_put. cbn. pose proof (unmapped_not_target o mm i Hwf Ho) as Hno.
    case_decide as Hd; [subst; naive_solver|]. rewrite (mwf_agree _ Hwf). naive_solver.
  - intros i _. cbn. by apply unmapped_not_target.
Qed.

Lemma create_mapping_wf b inners r mm :
  mapping_wf mm -> get_mapping (block_id b) mm = None -> NoDup inners ->
  mapping_wf (create_mapping b inners r mm).
Proof.
  intros Hwf Ho Hnd. unfold create_mapping.
  destruct (add_all_inner_wf (block_id b) inners _ Hnd (put_fresh_pending _ inners r _ Hwf Ho Hnd)).
  by split.
Qed.

Lemma create_mapping_keeps b inners r mm o' m :
  mapping_wf mm -> get_mapping (block_id b) mm = None -> NoDup inners ->
  o' <> block_id b -> get_mapping o' mm = Some m ->
  (forall i, i ∈ inners -> i ∉ inner_block_ids m) ->
  get_mapping o' (create_mapping b inners r mm) = Some m.
Proof.
  intros Hwf Ho Hnd Hne Hm Hl.
  apply (add_all_inner_keeps (block_id b) o' m inners _ Hnd (put_fresh_pending _ inners r _ Hwf Ho Hnd));
    [done| |done]. rewrite get_mapping_put. by rewrite decide_False.
Qed.

Lemma lookup_delete_all (l : list Z) (m : gmap Z Z) i :
  foldl (fun i2o inner => delete inner i2o) m l !! i = if decide (i ∈ l) then None else m !! i.
Proof.
  revert m. induction l as [|x l IH]; intros m; cbn [foldl].
  { rewrite decide_False; [done|]. apply not_elem_of_nil. }
  rewrite IH, lookup_delete. repeat case_decide; set_solver.
Qed.

Lemma get_mapping_remove o o' mm :
  get_mapping o' (remove_mapping o mm).2 = if decide (o' = o) then None else get_mapping o' mm.
Proof. apply od_get_pop. Qed.

Lemma get_inner_remove o o' mm :
  get_inner_blocks_for_outer o' (remove_mapping o mm).2
  = if decide (o' = o) then [] else get_inner_blocks_for_outer o' mm.
Proof. unfold get_inner_blocks_for_outer. rewrite get_mapping_remove. by case_decide. Qed.

Lemma remove_mapping_wf o mm : mapping_wf mm -> mapping_wf (remove_mapping o mm).2.
Proof.
  intros Hwf. split.
  - apply NoDup_od_pop, (mwf_keys _ Hwf).
  - intros o' m. rewrite get_mapping_remove. case_decide; [done|]. apply (mwf_id _ Hwf).
  - intros o' m. rewrite get_mapping_remove. case_decide; [done|]. apply (mwf_nodup _ Hwf).
  - intros o' i. rewrite get_inner_remove. cbn. rewrite lookup_delete_all.
    pose proof (mwf_agree _ Hwf o i) as Ho. pose proof (mwf_agree _ Hwf o' i) as Ho'.
    repeat case_decide; simplify_eq; [set_solver..| |done].
    split; [|done]. intros Hi. rewrite Ho' in Hi. rewrite Ho in H0. congruence.
Qed.

(** In-place updates that leave the inner list alone. *)
Lemma put_mapping_wf o m m0 mm :
  mapping_wf mm -> get_mapping o mm = Some m0 ->
  outer_block_id m = outer_block_id m0 -> inner_block_ids m = inner_block_ids m0 ->
  mapping_wf (put_mapping o m mm).
Proof.
  intros Hwf Hm0 Hid Hin. split.
  - apply NoDup_od_set, (mwf_keys _ Hwf).
  - intros o' m'. rewrite get_mapping_put. case_decide; [|apply (mwf_id _ Hwf)].
    intros [= <-]. subst. rewrite Hid. by apply (mwf_id _ Hwf).
  - intros o' m'. rewrite get_mapping_put. case_decide; [|apply (mwf_nodup _ Hwf)].
    intros [= <-]. rewrite Hin. by eapply (mwf_nodup _ Hwf).
  - intros o' i. rewrite get_inner_put. case_decide; [|apply (mwf_agree _ Hwf)].
    subst. rewrite Hin. rewrite <- (mwf_agree _ Hwf). unfold get_inner_blocks_for_outer.
    by rewrite Hm0.
Qed.

(** [mapping.inner_block_ids.append(ib)] followed by [add_new_inner_to_outer]. *)
Lemma append_inner_wf o i m mm :
  mapping_wf mm -> get_mapping o mm = Some m -> inner_to_outer mm !! i <> Some o ->
  mapping_wf (add_new_inner_to_outer i o
    (put_mapping o (set_inner_block_ids (inner_block_ids m ++ [i]) m) mm)).
Proof.
  intros Hwf Hm Hi. apply (mapping_pending_nil o). apply add_new_inner_pending; [set_solver|].
  assert (get_inner_blocks_for_outer o mm = inner_block_ids m) as Hl
    by (unfold get_inner_blocks_for_outer; by rewrite Hm).
  split.
  - apply NoDup_od_set, (mwf_keys _ Hwf).
  - intros o' m'. rewrite get_mapping_put. case_decide; [|apply (mwf_id _ Hwf)].
    intros [= <-]. subst. cbn. by apply (mwf_id _ Hwf).
  - intros o' m'. rewrite get_mapping_put. case_decide; [|apply (mwf_nodup _ Hwf)].
    intros [= <-]. cbn. apply NoDup_app. split; [by eapply (mwf_nodup _ Hwf)|].
    split; [|apply NoDup_singleton]. intros x Hx ->%list_elem_of_singleton.
    rewrite <- Hl in Hx. by apply (mwf_agree _ Hwf) in Hx.
  - intros o' j. rewrite get_inner_put. cbn. case_decide; [subst|rewrite (mwf_agree _ Hwf); naive_solver].
    rewrite elem_of_app, list_elem_of_singleton, <- Hl, (mwf_agree _ Hwf). set_solver.
  - intros j ->%list_elem_of_singleton. done.
Qed.

(** Metadata: what reassignments never change of another outer block. *)
Definition meta (m : BlockMapping) : Z * option string * bool :=
  (outer_block_id m, mapping_request_id m, is_active m).

Lemma meta_detach i o o' mm :
  meta <$> get_mapping o' (detach_inner_from_stale_outer i o mm) = meta <$> get_mapping o' mm.
Proof. rewrite get_mapping_detach. destruct (get_mapping o' mm); [|done]. by case_decide. Qed.

Lemma add_new_inner_frame i o mm :
  (forall o', meta <$> get_mapping o' (add_new_inner_to_outer i o mm) = meta <$> get_mapping o' mm) /\
  od_keys (block_mappings (add_new_inner_to_outer i o mm)) = od_keys (block_mappings mm) /\
  request_to_outer_blocks (add_new_inner_to_outer i o mm) = request_to_outer_blocks mm /\
  get_mapping o (add_new_inner_to_outer i o mm) = get_mapping o mm.
Proof.
  unfold add_new_inner_to_outer. split; [|split; [|split]].
  - intros o'. apply meta_detach.
  - apply detach_keys.
  - apply (detach_i2o i o mm).
  - change (get_mapping o (detach_inner_from_stale_outer i o mm) = get_mapping o mm).
    rewrite get_mapping_detach. destruct (get_mapping o mm); [|done].
    rewrite decide_False; [done|naive_solver].
Qed.

Lemma add_all_inner_frame l o : forall mm,
  (forall o', meta <$> get_mapping o' (add_all_inner l o mm) = meta <$> get_mapping o' mm) /\
  od_keys (block_mappings (add_all_inner l o mm)) = od_keys (block_mappings mm) /\
  request_to_outer_blocks (add_all_inner l o mm) = request_to_outer_blocks mm /\
  get_mapping o (add_all_inner l o mm) = get_mapping o mm.
Proof.
  induction l as [|i l IH]; intros mm; [done|].
  change (add_all_inner (i :: l) o mm) with (add_all_inner l o (add_new_inner_to_outer i o mm)).
  destruct (add_new_inner_frame i o mm) as (H1 & H2 & H3 & H4).
  destruct (IH (add_new_inner_to_outer i o mm)) as (E1 & E2 & E3 & E4).
  rewrite E2, E3, E4. split; [|done]. intros o'. by rewrite E1.
Qed.

Lemma create_mapping_frame b inners r mm :
  (forall o', o' <> block_id b ->
     meta <$> get_mapping o' (create_mapping b inners r mm) = meta <$> get_mapping o' mm) /\
  od_keys (block_mappings (create_mapping b inners r mm))
    = od_keys (od_set (block_id b) (mkMapping (block_id b) inners (Some r) true)
                 (block_mappings mm)) /\
  request_to_outer_blocks (create_mapping b inners r mm)
    = <[r := default [] (request_to_outer_blocks mm !! r) ++ [block_id b]]>
        (request_to_outer_blocks mm) /\
  get_mapping (block_id b) (create_mapping b inners r mm)
    = Some (mkMapping (block_id b) inners (Some r) true).
Proof.
  unfold create_mapping. set (mm0 := put_mapping _ _ mm).
  destruct (add_all_inner_frame inners (block_id b) mm0) as (E1 & E2 & E3 & E4).
  split; [|split; [|split]].
  - intros o' Ho. etrans; [apply E1|]. subst mm0. rewrite get_mapping_put. by case_decide.
  - apply E2.
  - cbn. rewrite E3. done.
  - etrans; [apply E4|]. subst mm0. rewrite get_mapping_put. by case_decide.
Qed.

(** ** The longest match *)

Lemma common_prefix_spec a b :
  get_common_prefix a b `prefix_of` a /\ get_common_prefix a b `prefix_of` b /\
  forall c, c `prefix_of` a -> c `prefix_of` b -> c `prefix_of` get_common_prefix a b.
Proof.
  revert b. induction a as [|x a IH]; intros b; cbn.
  { split; [apply prefix_nil|]. split; [apply prefix_nil|done]. }
  destruct b as [|y b]; cbn.
  { split; [apply prefix_nil|]. split; [done|]. intros c _ Hc. done. }
  destruct (Z.eqb_spec x y) as [->|Hne].
  - destruct (IH b) as (H1 & H2 & H3). split; [by apply prefix_cons|].
    split; [by apply prefix_cons|]. intros [|z c] Hca Hcb; [apply prefix_nil|].
    pose proof Hca as ->%prefix_cons_inv_1. apply prefix_cons.
    apply H3; by eapply prefix_cons_inv_2.
  - split; [apply prefix_nil|]. split; [apply prefix_nil|].
    intros [|z c] Hca Hcb; [done|]. apply prefix_cons_inv_1 in Hca, Hcb. congruence.
Qed.

(** How much of [seg] outer block [o] holds, from its start. *)
Definition match_len (o : Z) (seg : list Z) (mm : BlockMappingManager) : Z :=
  len (get_common_prefix (get_inner_blocks_for_outer o mm) seg).

(** Only the block the first inner block points at can match at all. *)
Lemma match_len_pos o x seg mm : mapping_wf mm ->
  0 < match_len o (x :: seg) mm -> inner_to_outer mm !! x = Some o.
Proof.
  intros Hwf. unfold match_len. destruct (get_inner_blocks_for_outer o mm) as [|y l] eqn:E;
    cbn; [done|]. destruct (Z.eqb_spec y x) as [->|]; [|done].
  intros _. apply (mwf_agree _ Hwf). rewrite E. by left.
Qed.

Lemma longest_match_cases seg mm :
  mapping_wf mm -> seg <> [] ->
  (exists o, get_longest_matched_block seg mm = Ok (o, match_len o seg mm) /\
     0 < match_len o seg mm /\ forall o', o' <> o -> match_len o' seg mm = 0) \/
  (get_longest_matched_block seg mm = Ok (-1, 0) /\ forall o', match_len o' seg mm = 0).
Proof.
  intros Hwf Hne. destruct seg as [|x seg]; [done|].
  assert (forall o, 0 <= match_len o (x :: seg) mm) as Hnn by (intros; apply len_nonneg).
  unfold get_longest_matched_block, get_outer_block_for_inner.
  change (py_nth (x :: seg) 0) with (Some x). cbn.
  destruct (inner_to_outer mm !! x) as [o|] eqn:Hx.
  - fold (match_len o (x :: seg) mm). destruct (Z.ltb_spec 0 (match_len o (x :: seg) mm)).
    + left. exists o. split; [done|]. split; [done|]. intros o' Ho'.
      specialize (Hnn o'). destruct (Z.lt_trichotomy 0 (match_len o' (x :: seg) mm)) as [Hp|[|]];
        [|lia..]. apply match_len_pos in Hp; [congruence|done].
    + right. split; [done|]. intros o'. specialize (Hnn o').
      destruct (decide (o' = o)) as [->|]; [lia|].
      destruct (Z.lt_trichotomy 0 (match_len o' (x :: seg) mm)) as [Hp|[|]]; [|lia..].
      apply match_len_pos in Hp; [congruence|done].
  - right. split; [done|]. intros o'. specialize (Hnn o').
    destruct (Z.lt_trichotomy 0 (match_len o' (x :: seg) mm)) as [Hp|[|]]; [|lia..].
    apply match_len_pos in Hp; [congruence|done].
Qed.

(** ** Properties *)

(** Assigning inner blocks to a fresh outer block keeps both indexes in agreement, and
    a later eviction of any other outer block, including the stale one the inner blocks
    came from, leaves the live mapping intact: the inner blocks still point at their
    outer block, which still lists exactly them. *)
Theorem reassigned_block_survives_eviction b inners r p mm :
  mapping_wf mm -> get_mapping (block_id b) mm = None -> NoDup inners -> p <> block_id b ->
  let mm' := create_mapping b inners r mm in
  let mm'' := (remove_mapping p mm').2 in
  mapping_wf mm' /\ mapping_wf mm'' /\
  get_mapping (block_id b) mm'' = Some (mkMapping (block_id b) inners (Some r) true) /\
  forall i, i ∈ inners -> get_outer_block_for_inner i mm'' = Some (block_id b).
Proof.
  intros Hwf Hb Hnd Hp mm' mm''.
  assert (mapping_wf mm') as Hwf' by (by apply create_mapping_wf).
  assert (mapping_wf mm'') as Hwf'' by (by apply remove_mapping_wf).
  split; [done|]. split; [done|].
  assert (get_mapping (block_id b) mm'' = Some (mkMapping (block_id b) inners (Some r) true)) as E.
  { subst mm''. rewrite get_mapping_remove, decide_False by done. apply create_mapping_frame. }
  split; [done|]. intros i Hi. apply (mwf_agree _ Hwf''). unfold get_inner_blocks_for_outer.
  by rewrite E.
Qed.

Lemma reassigned_block_survives_eviction_witness :
  let mm := create_mapping (mkBlock 0) [5; 6] "a" new_mapping_manager in
  let mm' := (remove_mapping 0 (create_mapping (mkBlock 1) [6; 7] "b" mm)).2 in
  get_outer_block_for_inner 6 mm' = Some 1 /\ get_outer_block_for_inner 5 mm' = None.
Proof.
  split; [|vm_compute; reflexivity].
  refine (proj2 (proj2 (proj2 (reassigned_block_survives_eviction (mkBlock 1) [6; 7] "b" 0
    (create_mapping (mkBlock 0) [5; 6] "a" new_mapping_manager) _ _ _ _))) 6 _).
  - apply create_mapping_wf; [apply new_manager_wf|reflexivity|repeat constructor; set_solver].
  - reflexivity.
  - repeat constructor; set_solver.
  - done.
  - set_solver.
Defined.

(** The match search looks at one outer block only, and that is enough: what it returns
    is the longest prefix of the segment that any outer block holds (no other block
    matches at all), it answers [(-1, 0)] exactly when none matches, and an empty segment
    raises. *)
Theorem longest_match_is_longest seg mm :
  mapping_wf mm -> get_mapping (-1) mm = None ->
  (seg = [] -> get_longest_matched_block seg mm = Raise IndexError) /\
  (seg <> [] -> exists o n, get_longest_matched_block seg mm = Ok (o, n) /\
     0 <= n /\ (forall o', match_len o' seg mm <= n) /\
     (o = -1 <-> forall o', match_len o' seg mm = 0) /\
     (o <> -1 -> n = match_len o seg mm /\
        py_take n (get_inner_blocks_for_outer o mm) = py_take n seg /\
        forall o', o' <> o -> match_len o' seg mm = 0)).
Proof.
  intros Hwf Hneg. split; [by intros ->|]. intros Hne.
  assert (match_len (-1) seg mm = 0) as H1.
  { unfold match_len. by rewrite get_inner_unmapped. }
  destruct (longest_match_cases seg mm Hwf Hne) as [(o & E & Hpos & Hoth)|[E Hoth]].
  - exists o, (match_len o seg mm). split; [done|]. split; [lia|]. split.
    { intros o'. destruct (decide (o' = o)) as [->|]; [lia|]. rewrite Hoth by done. lia. }
    split; [split; [intros ->; lia|intros H; specialize (H o); lia]|].
    intros _. split; [done|]. split; [|done].
    destruct (common_prefix_spec (get_inner_blocks_for_outer o mm) seg) as ([k1 H2] & [k2 H3] & _).
    unfold match_len, py_take, len. rewrite Nat2Z.id.
    set (c := get_common_prefix _ _) in *. rewrite H2 at 1. rewrite H3.
    by rewrite !take_app_length.
  - exists (-1), 0. split; [done|]. split; [lia|]. split; [intros o'; rewrite Hoth; lia|].
    by split; [|].
Qed.

Lemma longest_match_is_longest_witness :
  let mm := create_mapping (mkBlock 3) [5; 6; 7] "a" new_mapping_manager in
  exists o n, get_longest_matched_block [5; 6; 9] mm = Ok (o, n) /\
    (o <> -1 -> n = match_len o [5; 6; 9] mm) /\ (o, n) = (3, 2).
Proof.
  intros mm. destruct (longest_match_is_longest [5; 6; 9] mm) as [_ H].
  - apply create_mapping_wf; [apply new_manager_wf|reflexivity|repeat constructor; set_solver].
  - reflexivity.
  - destruct H as (o & n & E & _ & _ & _ & H); [done|]. exists o, n. split; [done|].
    split; [intros Ho; apply (H Ho)|]. vm_compute in E. congruence.
Defined.
