(* ===== verification/Eviction.v ===== *)
(** * Eviction policies
    ([src/vllm_rbln/v1/core/prefix_cache_manager/optimum_eviction_policy.py])

    Which inactive outer blocks are given up first.  The cache manager only uses the
    interface [EvictionPolicy]; [EvictionPolicyLaws] is what it relies on, and the
    simple, FIFO and LRU policies discharge it. *)

From S2P Require Import Prelude BlockMapping.

(** ** The interface *)

Class EvictionPolicy (P : Type) := {
  register_block : Z -> P -> res P;
  unregister_block : Z -> P -> P;
  (** [for ob_id in reversed(hits): touch(ob_id)], done for an LRU policy only *)
  touch_hits : list Z -> P -> res P;
  select_blocks_for_eviction : BlockMappingManager -> Z -> P -> list Z
}.

(** ** The three policies *)

Definition SimpleEvictionPolicy : Type := unit.
Record FIFOEvictionPolicy := mkFIFO { allocation_order : odict Z bool }.
Record LRUEvictionPolicy := mkLRU { access_order : odict Z bool }.

Definition inactive_block_ids (mm : BlockMappingManager) : list Z :=
  outer_block_id <$> get_inactive_mappings mm.

(** [[] if len(l) < count else l[:count]]. *)
Definition take_if_enough (count : Z) (l : list Z) : list Z :=
  if len l <? count then [] else py_take count l.

Definition simple_select (mm : BlockMappingManager) (count : Z)
    (_ : SimpleEvictionPolicy) : list Z :=
  take_if_enough count (inactive_block_ids mm).

#[export] Instance simple_policy : EvictionPolicy SimpleEvictionPolicy := {
  register_block _ p := Ok p;
  unregister_block _ p := p;
  touch_hits _ p := Ok p;
  select_blocks_for_eviction := simple_select
}.

(** [assert block_id not in order; order[block_id] = True]. *)
Definition order_register (b : Z) (order : odict Z bool) : res (odict Z bool) :=
  assert! (bool_decide (b ∉ od_keys order));
  Ok (od_set b true order).

Definition fifo_register (b : Z) (p : FIFOEvictionPolicy) : res FIFOEvictionPolicy :=
  order ← order_register b (allocation_order p); Ok (mkFIFO order).

Definition fifo_unregister (b : Z) (p : FIFOEvictionPolicy) : FIFOEvictionPolicy :=
  mkFIFO (od_pop b (allocation_order p)).

Definition fifo_select (mm : BlockMappingManager) (count : Z)
    (p : FIFOEvictionPolicy) : list Z :=
  let inactive := inactive_block_ids mm in
  take_if_enough count (filter (fun b => b ∈ inactive) (od_keys (allocation_order p))).

#[export] Instance fifo_policy : EvictionPolicy FIFOEvictionPolicy := {
  register_block := fifo_register;
  unregister_block := fifo_unregister;
  touch_hits _ p := Ok p;
  select_blocks_for_eviction := fifo_select
}.

Definition lru_register (b : Z) (p : LRUEvictionPolicy) : res LRUEvictionPolicy :=
  order ← order_register b (access_order p); Ok (mkLRU order).

Definition lru_unregister (b : Z) (p : LRUEvictionPolicy) : LRUEvictionPolicy :=
  mkLRU (od_pop b (access_order p)).

(** [OrderedDict.move_to_end], which raises [KeyError] on a missing key. *)
Definition touch (p : LRUEvictionPolicy) (b : Z) : res LRUEvictionPolicy :=
  v ← of_option (od_get b (access_order p)) KeyError;
  Ok (mkLRU (od_set b v (od_pop b (access_order p)))).

Definition lru_select (mm : BlockMappingManager) (count : Z)
    (p : LRUEvictionPolicy) : list Z :=
  let inactive := inactive_block_ids mm in
  let untouched := filter (fun b => b ∉ od_keys (access_order p)) inactive in
  let touched := filter (fun b => b ∈ inactive) (od_keys (access_order p)) in
  take_if_enough count (untouched ++ touched).

#[export] Instance lru_policy : EvictionPolicy LRUEvictionPolicy := {
  register_block := lru_register;
  unregister_block := lru_unregister;
  touch_hits hits p := foldM touch p (reverse hits);
  select_blocks_for_eviction := lru_select
}.

(** ** The contract

    [tracks p live]: the policy's record is consistent with the set of live outer
    blocks.  A selection is all or nothing, never repeats a block and never offers an
    active one; and when the policy tracks the mapped blocks it succeeds whenever there
    are enough inactive ones. *)
Class EvictionPolicyLaws (P : Type) `{EvictionPolicy P} (tracks : P -> gset Z -> Prop)
    : Prop := {
  tracks_register : forall p live b, tracks p live -> b ∉ live ->
    exists p', register_block b p = Ok p' /\ tracks p' ({[b]} ∪ live);
  tracks_unregister : forall p live b, tracks p live ->
    tracks (unregister_block b p) (live ∖ {[b]});
  tracks_touch : forall p live hits, tracks p live -> (forall o, o ∈ hits -> o ∈ live) ->
    exists p', touch_hits hits p = Ok p' /\ tracks p' live;
  select_sound : forall p live mm n, tracks p live -> NoDup (inactive_block_ids mm) -> 0 <= n ->
    let l := select_blocks_for_eviction mm n p in
    (l = [] \/ len l = n) /\ NoDup l /\ forall o, o ∈ l -> o ∈ inactive_block_ids mm;
  select_complete : forall p live mm n, tracks p live -> NoDup (inactive_block_ids mm) ->
    (forall o, o ∈ inactive_block_ids mm -> o ∈ live) ->
    0 <= n <= len (inactive_block_ids mm) ->
    len (select_blocks_for_eviction mm n p) = n
}.

(** ** Lemmas *)

Lemma elem_of_inactive mm o : mapping_wf mm ->
  o ∈ inactive_block_ids mm <->
  exists m, get_mapping o mm = Some m /\ is_active m = false.
Proof.
  intros Hwf. unfold inactive_block_ids, get_inactive_mappings. rewrite list_elem_of_fmap.
  setoid_rewrite list_elem_of_filter. unfold od_values. setoid_rewrite list_elem_of_fmap.
  split.
  - intros (m & -> & Ha & ([k v] & -> & Hkv)). cbn in *.
    apply elem_of_odict in Hkv; [|apply (mwf_keys _ Hwf)]. exists v.
    pose proof (mwf_id _ Hwf k v Hkv) as ->. done.
  - intros (m & Hm & Ha). exists m. pose proof (mwf_id _ Hwf o m Hm). split; [done|].
    split; [done|]. exists (o, m). split; [done|]. apply elem_of_odict; [apply (mwf_keys _ Hwf)|done].
Qed.

Lemma NoDup_inactive mm : mapping_wf mm -> NoDup (inactive_block_ids mm).
Proof.
  intros Hwf. unfold inactive_block_ids, get_inactive_mappings, od_values.
  assert (forall d : odict Z BlockMapping, NoDup (od_keys d) ->
    (forall k v, (k, v) ∈ d -> outer_block_id v = k) ->
    NoDup (outer_block_id <$> filter (fun m => is_active m = false) d.*2) /\
    forall o, o ∈ outer_block_id <$> filter (fun m => is_active m = false) d.*2 -> o ∈ od_keys d)
    as H.
  { induction d as [|[k v] d IH]; intros Hnd Hid; [split; [constructor|done]|].
    change (od_keys ((k, v) :: d)) with (k :: od_keys d) in *. apply NoDup_cons in Hnd as [Hk Hnd].
    destruct IH as [IH1 IH2]; [done|intros; apply Hid; by right|].
    rewrite fmap_cons, filter_cons. cbn [snd].
    case_decide; [rewrite fmap_cons, (Hid k v) by (by left)|].
    - split; [apply NoDup_cons; split; [by intros ?%IH2|done]|].
      intros o [->|Ho]%elem_of_cons; [by left|right; auto].
    - split; [done|]. intros o Ho. right. auto. }
  apply H; [apply (mwf_keys _ Hwf)|]. intros k v Hkv%elem_of_odict; [|apply (mwf_keys _ Hwf)].
  by apply (mwf_id _ Hwf).
Qed.

Lemma take_if_enough_sound n l (P : Z -> Prop) :
  0 <= n -> NoDup l -> (forall o, o ∈ l -> P o) ->
  (take_if_enough n l = [] \/ len (take_if_enough n l) = n) /\
  NoDup (take_if_enough n l) /\ forall o, o ∈ take_if_enough n l -> P o.
Proof.
  intros Hn Hnd HP. unfold take_if_enough. destruct (Z.ltb_spec (len l) n).
  - split; [by left|]. split; [constructor|]. intros o Ho. by apply not_elem_of_nil in Ho.
  - unfold py_take, len in *. split; [right; rewrite length_take; lia|].
    assert (take (Z.to_nat n) l `sublist_of` l) as Hs by apply sublist_take.
    split; [by eapply sublist_NoDup|]. intros o Ho. apply HP. by eapply elem_of_sublist.
Qed.

Lemma take_if_enough_complete n l : 0 <= n <= len l -> len (take_if_enough n l) = n.
Proof.
  intros Hn. unfold take_if_enough. destruct (Z.ltb_spec (len l) n); [lia|].
  unfold py_take, len in *. rewrite length_take. lia.
Qed.

(** The inactive blocks an order lists, and, for LRU, the ones it does not. *)
Lemma filter_order_perm (order inactive : list Z) :
  NoDup order -> NoDup inactive -> (forall o, o ∈ inactive -> o ∈ order) ->
  filter (fun b => b ∈ inactive) order ≡ₚ inactive.
Proof.
  intros H1 H2 H. apply NoDup_Permutation; [by apply NoDup_filter|done|].
  intros x. rewrite list_elem_of_filter. naive_solver.
Qed.

(** [order_tracks]: an order dictionary lists the live blocks, each once. *)
Definition order_tracks (order : odict Z bool) (live : gset Z) : Prop :=
  NoDup (od_keys order) /\ forall b, b ∈ od_keys order <-> b ∈ live.

Lemma order_register_ok order live b :
  order_tracks order live -> b ∉ live ->
  exists order', order_register b order = Ok order' /\ order_tracks order' ({[b]} ∪ live).
Proof.
  intros [Hnd Hin] Hb. unfold order_register. rewrite bool_decide_true by (by rewrite Hin).
  eexists. split; [done|]. split; [by apply NoDup_od_set|]. intros x. rewrite od_keys_set.
  rewrite decide_False by (by rewrite Hin). set_solver.
Qed.

Lemma order_pop_tracks order live b :
  order_tracks order live -> order_tracks (od_pop b order) (live ∖ {[b]}).
Proof.
  intros [Hnd Hin]. split; [by apply NoDup_od_pop|]. intros x. rewrite od_keys_pop.
  rewrite list_elem_of_filter, Hin. set_solver.
Qed.

Lemma touch_ok p live b : order_tracks (access_order p) live -> b ∈ live ->
  exists p', touch p b = Ok p' /\ order_tracks (access_order p') live.
Proof.
  intros [Hnd Hin] Hb. apply Hin, elem_of_od_keys in Hb as Hg. destruct Hg as [v Hv].
  unfold touch. rewrite Hv. cbn. eexists. split; [done|].
  split; cbn; [by apply NoDup_od_set, NoDup_od_pop|]. intros x.
  rewrite od_keys_set, od_keys_pop, decide_False.
  - rewrite elem_of_app, list_elem_of_filter, Hin, list_elem_of_singleton.
    destruct (decide (x = b)); naive_solver.
  - rewrite list_elem_of_filter. naive_solver.
Qed.

Lemma touch_all_ok live : forall hits p,
  order_tracks (access_order p) live -> (forall o, o ∈ hits -> o ∈ live) ->
  exists p', foldM touch p hits = Ok p' /\ order_tracks (access_order p') live.
Proof.
  induction hits as [|b hits IH]; intros p Hp Hh; [by exists p|]. cbn.
  destruct (touch_ok p live b Hp) as (p' & -> & Hp'); [apply Hh; by left|]. cbn.
  apply IH; [done|]. intros; apply Hh; by right.
Qed.

(** ** The instances *)

#[export] Instance simple_laws : EvictionPolicyLaws SimpleEvictionPolicy (fun _ _ => True).
Proof.
  split; cbn; eauto.
  - intros p live mm n _ Hnd Hn. by apply take_if_enough_sound.
  - intros p live mm n _ _ _ Hn. by apply take_if_enough_complete.
Qed.

#[export] Instance fifo_laws :
  EvictionPolicyLaws FIFOEvictionPolicy (fun p => order_tracks (allocation_order p)).
Proof.
  split; cbn.
  - intros p live b Hp Hb. unfold fifo_register.
    destruct (order_register_ok _ _ _ Hp Hb) as (o & -> & Ho). by exists (mkFIFO o).
  - intros p live b Hp. by apply order_pop_tracks.
  - eauto.
  - intros p live mm n [Hnd Hin] Hi Hn. apply take_if_enough_sound; [done|by apply NoDup_filter|].
    intros o [? _]%list_elem_of_filter. done.
  - intros p live mm n [Hnd Hin] Hi Hl Hn. unfold fifo_select. apply take_if_enough_complete.
    unfold len. rewrite filter_order_perm; [done..|]. intros o Ho. by apply Hin, Hl.
Qed.

#[export] Instance lru_laws :
  EvictionPolicyLaws LRUEvictionPolicy (fun p => order_tracks (access_order p)).
Proof.
  split; cbn.
  - intros p live b Hp Hb. unfold lru_register.
    destruct (order_register_ok _ _ _ Hp Hb) as (o & -> & Ho). by exists (mkLRU o).
  - intros p live b Hp. by apply order_pop_tracks.
  - intros p live hits Hp Hh. apply touch_all_ok; [done|]. intros o. rewrite elem_of_reverse. auto.
  - intros p live mm n [Hnd Hin] Hi Hn. apply take_if_enough_sound; [done| |].
    + apply NoDup_app. split; [by apply NoDup_filter|]. split; [|by apply NoDup_filter].
      intros x [Hx _]%list_elem_of_filter [_ Hx']%list_elem_of_filter. done.
    + intros o [[_ Ho]%list_elem_of_filter|[Ho _]%list_elem_of_filter]%elem_of_app; done.
  - intros p live mm n [Hnd Hin] Hi Hl Hn. unfold lru_select. apply take_if_enough_complete.
    rewrite len_app. pose proof (len_nonneg (filter (fun b => b ∉ od_keys (access_order p))
      (inactive_block_ids mm))).
    assert (len (filter (fun b => b ∈ inactive_block_ids mm) (od_keys (access_order p)))
            = len (inactive_block_ids mm)); [|lia].
    unfold len. rewrite filter_order_perm; [done..|]. intros o Ho. by apply Hin, Hl.
Qed.

(** ** Orders *)

Lemma touch_keys p p' b : touch p b = Ok p' ->
  od_keys (access_order p') = filter (fun x => x <> b) (od_keys (access_order p)) ++ [b].
Proof.
  unfold touch. intros H. res_inv. cbn [access_order].
  rewrite od_keys_set, od_keys_pop, decide_False; [done|].
  rewrite list_elem_of_filter. naive_solver.
Qed.

Lemma filter_filter_ne (l hits : list Z) b :
  filter (fun x => x <> b) (filter (fun x => x ∉ hits) l) = filter (fun x => x ∉ b :: hits) l.
Proof.
  induction l as [|x l IH]; [done|]. rewrite !filter_cons.
  destruct (decide (x ∉ hits)) as [Hx|Hx]; rewrite ?filter_cons, IH.
  - destruct (decide (x <> b)), (decide (x ∉ b :: hits)); try done; set_solver.
  - destruct (decide (x ∉ b :: hits)); [set_solver|done].
Qed.

(** Touching in reverse leaves the first hit most recent. *)
Lemma touch_hits_keys hits : forall p p', NoDup hits ->
  foldM touch p (reverse hits) = Ok p' ->
  od_keys (access_order p')
    = filter (fun x => x ∉ hits) (od_keys (access_order p)) ++ reverse hits.
Proof.
  induction hits as [|b hits IH]; intros p p' Hnd Hp'.
  - cbn in Hp'. injection Hp' as <-. rewrite app_nil_r, list_filter_all; [done|].
    intros. apply not_elem_of_nil.
  - apply NoDup_cons in Hnd as [Hb Hnd]. rewrite reverse_cons in Hp' |- *.
    assert (exists q, foldM touch p (reverse hits) = Ok q /\ touch q b = Ok p')
      as (q & Hq & Hqp).
    { clear -Hp'. revert p Hp'. induction (reverse hits) as [|x l IH]; cbn; intros p Hp'.
      - exists p. res_inv. done.
      - destruct (touch p x); [|done]. cbn in *. auto. }
    rewrite (touch_keys _ _ _ Hqp), (IH _ _ Hnd Hq), filter_app, filter_filter_ne.
    rewrite app_assoc. do 2 f_equal. apply list_filter_all. intros x Hx.
    rewrite elem_of_reverse in Hx. set_solver.
Qed.

Lemma fifo_register_all bs : forall p,
  NoDup (od_keys (allocation_order p) ++ bs) ->
  exists p', foldM (fun p b => fifo_register b p) p bs = Ok p' /\
    od_keys (allocation_order p') = od_keys (allocation_order p) ++ bs.
Proof.
  induction bs as [|b bs IH]; intros p Hnd; [exists p; by rewrite app_nil_r|].
  pose proof Hnd as Hnd'. apply NoDup_app in Hnd' as (_ & Hdis & _).
  assert (b ∉ od_keys (allocation_order p)) as Hb by (intros Hin; eapply Hdis; [done|by left]).
  cbn [foldM].
  assert (fifo_register b p = Ok (mkFIFO (od_set b true (allocation_order p)))) as ->
    by (unfold fifo_register, order_register; by rewrite bool_decide_true by done).
  cbn [mbind res_bind].
  destruct (IH (mkFIFO (od_set b true (allocation_order p)))) as (p' & -> & Hk).
  - cbn. rewrite od_keys_set, decide_False, <- app_assoc by done. done.
  - exists p'. split; [done|]. rewrite Hk. cbn.
    by rewrite od_keys_set, decide_False, <- app_assoc by done.
Qed.

(** ** Property *)

(** FIFO gives up the inactive blocks in allocation order, the oldest first, and
    nothing at all when there are too few; LRU, after a prefix-cache hit, gives up a
    block of the hit only together with every inactive block that was not hit, and keeps
    the hit's first block (the one every longer prefix needs) for last. *)
Theorem eviction_order :
  (forall bs mm count, NoDup bs ->
     exists p, foldM (fun p b => fifo_register b p) (mkFIFO []) bs = Ok p /\
       select_blocks_for_eviction mm count p
       = take_if_enough count (filter (fun b => b ∈ inactive_block_ids mm) bs)) /\
  (forall p p' live hits mm count, order_tracks (access_order p) live -> NoDup hits ->
     (forall o, o ∈ hits -> o ∈ live) -> touch_hits hits p = Ok p' ->
     last (od_keys (access_order p')) = (if hits is h :: _ then Some h
                                         else last (od_keys (access_order p))) /\
     forall h o, h ∈ hits -> h ∈ select_blocks_for_eviction mm count p' ->
       o ∈ inactive_block_ids mm -> o ∉ hits -> o ∈ select_blocks_for_eviction mm count p').
Proof.
  split.
  - intros bs mm count Hnd. destruct (fifo_register_all bs (mkFIFO [])) as (p & Hp & Hk); [done|].
    exists p. split; [done|]. cbn. unfold fifo_select. by rewrite Hk.
  - intros p p' live hits mm count [Hnd Hin] Hh Hl Hp'. cbn in Hp'.
    pose proof (touch_hits_keys _ _ _ Hh Hp') as Hk. rewrite Hk. split.
    { destruct hits as [|h hits]; [cbn; rewrite app_nil_r, list_filter_all;
        [done|intros; apply not_elem_of_nil]|]. by rewrite reverse_cons, app_assoc, last_snoc. }
    intros h o Hhh Hsel Ho Hoh. cbn in *. unfold lru_select, take_if_enough in *.
    rewrite Hk in *. destruct (_ <? _); [by apply not_elem_of_nil in Hsel|].
    rewrite filter_app, app_assoc in *.
    set (kept := _ ++ filter _ (filter _ _)) in *. unfold py_take in *.
    assert (o ∈ kept) as Hok.
    { subst kept. rewrite elem_of_app, !list_elem_of_filter, elem_of_app, elem_of_reverse,
        !list_elem_of_filter.
      destruct (decide (o ∈ od_keys (access_order p))); [by right|left].
      split; [|done]. naive_solver. }
    assert (h ∉ kept) as Hhk.
    { subst kept. rewrite elem_of_app, !list_elem_of_filter, elem_of_app, elem_of_reverse. naive_solver. }
    rewrite take_app in Hsel |- *. apply elem_of_app in Hsel as [Hsel|Hsel].
    { exfalso. apply Hhk. eapply elem_of_sublist; [done|apply sublist_take]. }
    apply elem_of_app. left. rewrite take_ge; [done|].
    destruct (decide (length kept <= Z.to_nat count)%nat); [done|].
    replace (Z.to_nat count - length kept)%nat with 0%nat in Hsel by lia.
    by apply not_elem_of_nil in Hsel.
Qed.

Lemma eviction_order_witness :
  let p := mkLRU [(1, true); (2, true); (3, true)] in
  let p' := mkLRU [(1, true); (3, true); (2, true)] in
  touch_hits [2] p = Ok p' /\ last (od_keys (access_order p')) = Some 2.
Proof.
  intros p p'. split; [vm_compute; reflexivity|].
  refine (proj1 (proj2 eviction_order p p' (list_to_set [1; 2; 3]) [2] new_mapping_manager 1
    _ _ _ _)).
  - split; [repeat constructor; set_solver|]. intros b. rewrite elem_of_list_to_set.
    unfold p, od_keys. cbn. done.
  - repeat constructor; set_solver.
  - set_solver.
  - vm_compute. reflexivity.
Defined.
