(* ===== verification/PrefixCache.v ===== *)
(** * The prefix cache manager of the precompiled path
    ([src/vllm_rbln/v1/core/prefix_cache_manager/optimum_prefix_cache_manager.py])

    Allocator, cache search, block-table pool and the manager that ties them to the
    block mapping and to an eviction policy.  The manager is written against the
    interface [EvictionPolicy] and verified against [EvictionPolicyLaws]; the code
    constructs it with the FIFO policy.  [RBLNBlock] objects are handed around by
    reference but never mutated, so they are values here; [BlockMapping] objects are
    mutated in place through the dictionary that holds them, and the model stores the
    mutated record back under its key. *)

From S2P Require Import Prelude BlockMapping Eviction.

(** ** Configuration *)

Record BlockConfiguration := mkBlockConfig {
  ob_size : Z;
  ib_size : Z;
  max_model_len : Z;
  max_num_seqs : Z;
  num_ob : Z
}.

(** [BlockConfiguration(...)], with the check of [__post_init__]. *)
Definition block_configuration (ob_size ib_size max_model_len max_num_seqs num_ob : Z)
    : res BlockConfiguration :=
  x ← py_mod ob_size ib_size;
  assert! (x =? 0);
  Ok (mkBlockConfig ob_size ib_size max_model_len max_num_seqs num_ob).

Definition block_ratio (c : BlockConfiguration) : Z := ob_size c / ib_size c.

(** ** The allocator of outer blocks *)

Record RBLNBlockAllocator := mkAllocator {
  free_blocks : list RBLNBlock;
  allocated_blocks : gmap Z RBLNBlock
}.

Definition new_allocator (num_blocks : Z) : RBLNBlockAllocator :=
  mkAllocator (mkBlock <$> py_range num_blocks) ∅.

(** [for _ in range(count): popleft(); ...]; [popleft] of an empty deque raises. *)
Fixpoint allocate_loop (count : nat) (allocated : list RBLNBlock) (a : RBLNBlockAllocator)
    : res (list RBLNBlock * RBLNBlockAllocator) :=
  match count with
  | O => Ok (allocated, a)
  | S count =>
      match free_blocks a with
      | [] => Raise IndexError
      | b :: free =>
          allocate_loop count (allocated ++ [b])
            (mkAllocator free (<[block_id b := b]> (allocated_blocks a)))
      end
  end.

Definition allocate (count : Z) (a : RBLNBlockAllocator)
    : res (list RBLNBlock * RBLNBlockAllocator) :=
  if len (free_blocks a) <? count then Raise RuntimeError
  else allocate_loop (Z.to_nat count) [] a.

(** Deallocating a block that is not allocated only logs a warning. *)
Definition deallocate (b : RBLNBlock) (a : RBLNBlockAllocator) : RBLNBlockAllocator :=
  match allocated_blocks a !! block_id b with
  | Some _ => mkAllocator (free_blocks a ++ [b]) (delete (block_id b) (allocated_blocks a))
  | None => a
  end.

Definition get_free_count (a : RBLNBlockAllocator) : Z := len (free_blocks a).

Definition get_allocated_block (b : Z) (a : RBLNBlockAllocator) : option RBLNBlock :=
  allocated_blocks a !! b.

Definition peek_dummy_block (a : RBLNBlockAllocator) : res Z :=
  match free_blocks a with [] => Raise IndexError | b :: _ => Ok (block_id b) end.

(** ** The cache search *)

Record CacheSearchResult := mkSearch {
  cached_outer_blocks : list Z;
  cached_lengths : list Z
}.

Definition has_cache_hit (r : CacheSearchResult) : bool := 0 <? len (cached_outer_blocks r).

(** [for start_ib_idx in range(0, len(cached_ib), block_ratio)], with its [break]. *)
Fixpoint match_segments (starts : list Z) (c : BlockConfiguration) (cached_ib : list Z)
    (mm : BlockMappingManager) (acc : CacheSearchResult) : res CacheSearchResult :=
  match starts with
  | [] => Ok acc
  | start_ib_idx :: starts =>
      let end_ib_idx := Z.min (start_ib_idx + block_ratio c) (len cached_ib) in
      '(cached_ob, num_cached_ibs) ←
        get_longest_matched_block (py_slice cached_ib start_ib_idx end_ib_idx) mm;
      if cached_ob =? -1 then Ok acc
      else match_segments starts c cached_ib mm
             (mkSearch (cached_outer_blocks acc ++ [cached_ob])
                       (cached_lengths acc ++ [num_cached_ibs * ib_size c]))
  end.

(** [range] refuses a zero step. *)
Definition try_match_request (c : BlockConfiguration) (cached_ib : list Z)
    (mm : BlockMappingManager) : res CacheSearchResult :=
  if block_ratio c =? 0 then Raise ValueError
  else
    match_segments ((fun i => i * block_ratio c) <$>
                      py_range (cdiv (len cached_ib) (block_ratio c)))
      c cached_ib mm (mkSearch [] []).

(** ** The pool that renders block tables *)

(** [torch.tensor(ids, dtype=int16)] refuses an id outside int16; the slice assignment
    refuses a list longer than the pooled tensor, except a single id, which broadcasts
    to an empty slice. *)
Definition get_tensor_for_blocks (pool_size : Z) (block_ids : list Z) : res (list Z) :=
  if bool_decide (Forall (fun b => - 2 ^ 15 <= b < 2 ^ 15) block_ids) then
    if (len block_ids <=? pool_size) || (len block_ids =? 1) && (pool_size =? 0) then
      Ok (py_take pool_size (block_ids ++ replicate (Z.to_nat (pool_size - len block_ids)) (-1)))
    else Raise RuntimeError
  else Raise RuntimeError.

(** ** The manager *)

Section manager.
Context {P : Type} `{Policy : EvictionPolicy P}.

Record RBLNPrefixKVCacheManager := mkPM {
  config : BlockConfiguration;
  allocator : RBLNBlockAllocator;
  mapping_manager : BlockMappingManager;
  pool_size : Z;
  eviction_policy : P
}.

Definition set_allocator (a : RBLNBlockAllocator) (s : RBLNPrefixKVCacheManager) :=
  mkPM (config s) a (mapping_manager s) (pool_size s) (eviction_policy s).
Definition set_mapping (mm : BlockMappingManager) (s : RBLNPrefixKVCacheManager) :=
  mkPM (config s) (allocator s) mm (pool_size s) (eviction_policy s).
Definition set_policy (p : P) (s : RBLNPrefixKVCacheManager) :=
  mkPM (config s) (allocator s) (mapping_manager s) (pool_size s) p.

(** [__init__], with the policy it starts from. *)
Definition new_prefix_manager (policy : P)
    (ob_size ib_size max_model_len max_num_seqs num_inner_blocks : Z)
    : res RBLNPrefixKVCacheManager :=
  x ← py_mod ob_size ib_size;
  assert! (x =? 0);
  num_ob ← py_ceil_div num_inner_blocks (ob_size / ib_size);
  config ← block_configuration ob_size ib_size max_model_len max_num_seqs num_ob;
  pool_size ← py_floordiv max_model_len ob_size;
  Ok (mkPM config (new_allocator num_ob) new_mapping_manager pool_size policy).

Definition is_full_block_available (s : RBLNPrefixKVCacheManager) : bool :=
  let blocks_per_seq := cdiv (max_model_len (config s)) (ob_size (config s)) in
  max_num_seqs (config s) * blocks_per_seq <=? num_ob (config s).

Definition compute_num_blocks_to_allocate (c : BlockConfiguration)
    (num_inner_blocks num_allocated_tokens : Z) : Z :=
  if num_inner_blocks =? 0 then 0
  else if num_allocated_tokens =? 0 then cdiv num_inner_blocks (block_ratio c)
  else
    let num_already_allocated_ibs := num_allocated_tokens / ib_size c in
    if num_already_allocated_ibs mod block_ratio c =? 0 then 1 else 0.

(** The loop body of [_allocate_new_blocks]: map the i-th new block and register it. *)
Definition map_new_block (request_id : string) (inner_blocks : list Z)
    (s : RBLNPrefixKVCacheManager) (i_block : nat * RBLNBlock)
    : res RBLNPrefixKVCacheManager :=
  let '(i, block) := i_block in
  let start_idx := Z.of_nat i * block_ratio (config s) in
  let end_idx := Z.min ((Z.of_nat i + 1) * block_ratio (config s)) (len inner_blocks) in
  let block_inner_blocks := py_slice inner_blocks start_idx end_idx in
  let s := set_mapping
             (create_mapping block block_inner_blocks request_id (mapping_manager s)) s in
  p ← register_block (block_id block) (eviction_policy s);
  Ok (set_policy p s).

Definition allocate_new_blocks (request_id : string) (num_new_ob : Z)
    (inner_blocks : list Z) (s : RBLNPrefixKVCacheManager) : res RBLNPrefixKVCacheManager :=
  assert! (0 <? num_new_ob);
  '(new_blocks, a) ← allocate num_new_ob (allocator s);
  foldM (map_new_block request_id inner_blocks) (set_allocator a s) (imap pair new_blocks).

Definition append_to_existing_block (outer : Z) (inner_blocks : list Z)
    (s : RBLNPrefixKVCacheManager) : res RBLNPrefixKVCacheManager :=
  assert! (len inner_blocks =? 1);
  ib_id ← of_option (py_nth inner_blocks 0) IndexError;
  mapping ← of_option (get_mapping outer (mapping_manager s)) RuntimeError;
  let mapping := set_inner_block_ids (inner_block_ids mapping ++ [ib_id]) mapping in
  Ok (set_mapping (add_new_inner_to_outer ib_id outer
                     (put_mapping outer mapping (mapping_manager s))) s).

Definition get_block_ids (request_id : string) (s : RBLNPrefixKVCacheManager)
    : res (list Z) :=
  get_request_blocks request_id (mapping_manager s).

Definition handle_decode_allocation (request_id : string) (num_new_ob : Z)
    (inner_blocks : list Z) (s : RBLNPrefixKVCacheManager) : res RBLNPrefixKVCacheManager :=
  if 0 <? num_new_ob then allocate_new_blocks request_id num_new_ob inner_blocks s
  else
    request_blocks ← get_block_ids request_id s;
    last_ob_id ← of_option (py_nth request_blocks (-1)) IndexError;
    append_to_existing_block last_ob_id inner_blocks s.

Definition handle_prefill_allocation (request_id : string) (num_new_ob : Z)
    (inner_blocks : list Z) (s : RBLNPrefixKVCacheManager) : res RBLNPrefixKVCacheManager :=
  allocate_new_blocks request_id num_new_ob inner_blocks s.

Definition check_free_blocks (num_new_blocks : Z) (s : RBLNPrefixKVCacheManager) : res unit :=
  require (num_new_blocks <=? get_free_count (allocator s)) AssertionError.

Definition evict_block (s : RBLNPrefixKVCacheManager) (b : Z) : RBLNPrefixKVCacheManager :=
  let '(mapping, mm) := remove_mapping b (mapping_manager s) in
  let s := set_mapping mm s in
  match mapping with
  | None => s
  | Some _ =>
      match get_allocated_block b (allocator s) with
      | Some block =>
          set_policy (unregister_block b (eviction_policy s))
            (set_allocator (deallocate block (allocator s)) s)
      | None => s
      end
  end.

Definition can_allocate (num_new_blocks num_computed_tokens : Z)
    (s : RBLNPrefixKVCacheManager) : bool * RBLNPrefixKVCacheManager :=
  let required_num_ob :=
    compute_num_blocks_to_allocate (config s) num_new_blocks num_computed_tokens in
  let free_count := get_free_count (allocator s) in
  if required_num_ob <=? free_count then (true, s)
  else
    let evict_count := required_num_ob - free_count in
    let blocks_to_evict :=
      select_blocks_for_eviction (mapping_manager s) evict_count (eviction_policy s) in
    if evict_count <=? len blocks_to_evict
    then (true, foldl evict_block s blocks_to_evict)
    else (false, s).

Definition allocate_blocks (request_id : string) (num_allocated_tokens : Z)
    (inner_blocks : list Z) (s : RBLNPrefixKVCacheManager) : res RBLNPrefixKVCacheManager :=
  let num_new_ib := len inner_blocks in
  if num_new_ib =? 0 then Ok s
  else
    let num_new_ob :=
      compute_num_blocks_to_allocate (config s) num_new_ib num_allocated_tokens in
    _ ← check_free_blocks num_new_ob s;
    if is_request_registered request_id (mapping_manager s)
    then handle_decode_allocation request_id num_new_ob inner_blocks s
    else handle_prefill_allocation request_id num_new_ob inner_blocks s.

(** [mapping.is_active = False; mapping.request_id = None]. *)
Definition deactivate (m : BlockMapping) : BlockMapping :=
  mkMapping (outer_block_id m) (inner_block_ids m) None false.

(** The loop body of [free_request]. *)
Definition free_outer_block (preemption : bool) (s : RBLNPrefixKVCacheManager) (b : Z)
    : res RBLNPrefixKVCacheManager :=
  if preemption then Ok (evict_block s b)
  else
    mapping ← of_option (get_mapping b (mapping_manager s)) AssertionError;
    Ok (set_mapping (put_mapping b (deactivate mapping) (mapping_manager s)) s).

Definition free_request (request_id : string) (preemption : bool)
    (s : RBLNPrefixKVCacheManager) : res RBLNPrefixKVCacheManager :=
  let '(outer_blocks, mm) := remove_request request_id (mapping_manager s) in
  foldM (free_outer_block preemption) (set_mapping mm s) outer_blocks.

(** [find_cached_blocks] only adds log lines to [_try_match_request]. *)
Definition get_matched_outer_blocks (request_id : string) (cached_blocks : list Z)
    (s : RBLNPrefixKVCacheManager) : res (list Z * list Z * RBLNPrefixKVCacheManager) :=
  allocated_blocks ← get_block_ids request_id s;
  result ← try_match_request (config s) cached_blocks (mapping_manager s);
  assert! (bool_decide (Forall (fun o => o ∉ allocated_blocks) (cached_outer_blocks result)));
  p ← (if has_cache_hit result
       then touch_hits (cached_outer_blocks result) (eviction_policy s)
       else Ok (eviction_policy s));
  Ok (cached_outer_blocks result, cached_lengths result, set_policy p s).

Definition get_blocks (request_id : string) (s : RBLNPrefixKVCacheManager) : res (list Z) :=
  block_ids ← get_block_ids request_id s;
  get_tensor_for_blocks (pool_size s) block_ids.

Definition get_dummy_block (s : RBLNPrefixKVCacheManager)
    : res (Z * RBLNPrefixKVCacheManager) :=
  if negb (is_full_block_available s) then Ok (num_ob (config s), s)
  else
    let '(can, s) := can_allocate 1 0 s in
    if negb can then Raise RuntimeError
    else
      _ ← check_free_blocks 1 s;
      dummy_block ← peek_dummy_block (allocator s);
      Ok (dummy_block, s).
End manager.
Arguments RBLNPrefixKVCacheManager : clear implicits.
#[local] Arguments evict_block : simpl never.
#[local] Arguments can_allocate : simpl never.
#[local] Arguments create_mapping : simpl never.

(** ** The invariant

    Every outer block id is free or allocated, never both; an allocated block is mapped
    and known to the policy; a request owns distinct active blocks that name it, and an
    active block is owned.  Inside an operation some blocks are exempt: [pending] ones are
    allocated and not mapped yet, [orphans] are active and owned by no request. *)
Section invariant.
Context {P : Type} `{Policy : EvictionPolicy P}.
Context {tracks : P -> gset Z -> Prop} `{Laws : !EvictionPolicyLaws P tracks}.
Implicit Types s : RBLNPrefixKVCacheManager P.

Definition free_ids (s : RBLNPrefixKVCacheManager P) : list Z :=
  block_id <$> free_blocks (allocator s).
Definition mapping_at (o : Z) (s : RBLNPrefixKVCacheManager P) : option BlockMapping :=
  get_mapping o (mapping_manager s).
Definition requests (s : RBLNPrefixKVCacheManager P) : gmap string (list Z) :=
  request_to_outer_blocks (mapping_manager s).

Record pm_inv (pending orphans : list Z) (s : RBLNPrefixKVCacheManager P) : Prop := {
  inv_cfg : 0 < ib_size (config s) /\ 0 < ob_size (config s) /\
    ob_size (config s) mod ib_size (config s) = 0;
  inv_mapping : mapping_wf (mapping_manager s);
  inv_free_nodup : NoDup (free_ids s);
  inv_range : forall o, (o ∈ free_ids s \/ is_Some (allocated_blocks (allocator s) !! o))
    <-> 0 <= o < num_ob (config s);
  inv_disjoint : forall o, o ∈ free_ids s -> allocated_blocks (allocator s) !! o = None;
  inv_alloc_id : forall o b, allocated_blocks (allocator s) !! o = Some b -> block_id b = o;
  inv_mapped : forall o, is_Some (mapping_at o s)
    <-> is_Some (allocated_blocks (allocator s) !! o) /\ o ∉ pending;
  inv_pending : forall o, o ∈ pending -> is_Some (allocated_blocks (allocator s) !! o);
  inv_tracks : tracks (eviction_policy s)
    (dom (allocated_blocks (allocator s)) ∖ list_to_set pending);
  inv_owned : forall r os, requests s !! r = Some os -> os <> [] /\ NoDup os /\
    forall o, o ∈ os -> exists m, mapping_at o s = Some m /\ is_active m = true /\
      mapping_request_id m = Some r;
  inv_active : forall o m, mapping_at o s = Some m -> is_active m = true ->
    o ∈ orphans \/ exists r os, mapping_request_id m = Some r /\
      requests s !! r = Some os /\ o ∈ os
}.

Lemma block_ratio_pos s pending orphans : pm_inv pending orphans s -> 0 < block_ratio (config s).
Proof.
  intros I. destruct (inv_cfg _ _ _ I) as (H1 & H2 & H3). unfold block_ratio.
  apply Z.div_exact in H3; [|lia]. nia.
Qed.

Lemma free_not_mapped s pending orphans o :
  pm_inv pending orphans s -> o ∈ free_ids s -> mapping_at o s = None.
Proof.
  intros I Ho. destruct (mapping_at o s) eqn:E; [|done].
  destruct (proj1 (inv_mapped _ _ _ I o)) as [[b0 Hb] _]; [by eexists|].
  rewrite (inv_disjoint _ _ _ I o Ho) in Hb. done.
Qed.

(** Construction. *)
Lemma new_manager_inv policy ob ib mml mns nib s :
  tracks policy ∅ -> 0 < ib -> 0 < ob -> 0 <= nib ->
  new_prefix_manager policy ob ib mml mns nib = Ok s -> pm_inv [] [] s.
Proof.
  intros Htr Hib Hob Hn. unfold new_prefix_manager, py_mod, py_ceil_div, block_configuration,
    py_floordiv, py_mod. intros Hnew. res_inv. zbool. split; cbn.
  - done.
  - apply new_manager_wf.
  - unfold free_ids, py_range; cbn. rewrite <- list_fmap_compose. rewrite (list_fmap_ext _ id), list_fmap_id;
      [apply NoDup_seqZ|done].
  - intros o. unfold free_ids, py_range; cbn. rewrite <- list_fmap_compose.
    rewrite (list_fmap_ext _ id), list_fmap_id by done. rewrite elem_of_seqZ, lookup_empty.
    split; [intros [|[]]; [lia|done]|]. intros; left; lia.
  - intros o _. apply lookup_empty.
  - intros o b. by rewrite lookup_empty.
  - intros o. unfold mapping_at. cbn. rewrite lookup_empty. split; [by intros []|by intros [[] _]].
  - intros o Ho. by apply not_elem_of_nil in Ho.
  - rewrite dom_empty_L. by rewrite difference_empty_L.
  - intros r os. unfold requests. cbn. by rewrite lookup_empty.
  - done.
Qed.

(** *** Eviction *)

Lemma evict_block_frame s o :
  config (evict_block s o) = config s /\ requests (evict_block s o) = requests s /\
  forall o', mapping_at o' (evict_block s o) = if decide (o' = o) then None else mapping_at o' s.
Proof.
  unfold evict_block, mapping_at, requests. pose proof (get_mapping_remove o) as Hm.
  destruct (remove_mapping o (mapping_manager s)) as [mo mm] eqn:E.
  assert (request_to_outer_blocks mm = request_to_outer_blocks (mapping_manager s)) as Er
    by (unfold remove_mapping in E; by injection E as <- <-).
  assert (forall o', get_mapping o' mm
    = if decide (o' = o) then None else get_mapping o' (mapping_manager s)) as Hm'.
  { intros o'. rewrite <- Hm, E. done. }
  destruct mo; [destruct (get_allocated_block o _)|]; by split_and!.
Qed.

Lemma evict_block_mapped s o pending orphans :
  pm_inv pending orphans s -> is_Some (mapping_at o s) ->
  evict_block s o =
    mkPM (config s)
      (mkAllocator (free_blocks (allocator s) ++ [mkBlock o])
         (delete o (allocated_blocks (allocator s))))
      (remove_mapping o (mapping_manager s)).2 (pool_size s)
      (unregister_block o (eviction_policy s)).
Proof.
  intros I Hm. destruct (proj1 (inv_mapped _ _ _ I o) Hm) as [[b Hb] _].
  pose proof (inv_alloc_id _ _ _ I o b Hb) as Hid.
  unfold evict_block, mapping_at in *. destruct Hm as [m Hm]. unfold remove_mapping. rewrite Hm.
  unfold get_allocated_block. cbn. rewrite Hb. unfold deallocate. rewrite Hid, Hb. cbn.
  destruct b as [i]. cbn in Hid. by subst.
Qed.

Lemma evict_block_inv s o orphans :
  pm_inv [] (o :: orphans) s -> is_Some (mapping_at o s) ->
  (forall r os, requests s !! r = Some os -> o ∉ os) ->
  pm_inv [] orphans (evict_block s o) /\
  free_ids (evict_block s o) = free_ids s ++ [o].
Proof.
  intros I Hm Hown. destruct (evict_block_frame s o) as (Ec & Er & Em).
  pose proof (proj1 (inv_mapped _ _ _ I o) Hm) as [[b Hb] _].
  rewrite (evict_block_mapped s o _ _ I Hm) in *.
  assert (o ∉ free_ids s) as Hof.
  { intros Hf. by rewrite (inv_disjoint _ _ _ I o Hf) in Hb. }
  set (s' := mkPM _ _ _ _ _) in *.
  assert (free_ids s' = free_ids s ++ [o]) as Hfree
    by (unfold free_ids; cbn; by rewrite fmap_app). split; [|done].
  split; rewrite ?Ec, ?Hfree; subst s'; cbn [allocator allocated_blocks eviction_policy mapping_manager] in *.
  - apply (inv_cfg _ _ _ I).
  - by apply remove_mapping_wf, (inv_mapping _ _ _ I).
  - apply NoDup_app. split; [apply (inv_free_nodup _ _ _ I)|].
    split; [set_solver|apply NoDup_singleton].
  - intros o'. rewrite <- (inv_range _ _ _ I o'), elem_of_app, list_elem_of_singleton, lookup_delete.
    case_decide; [subst; naive_solver|naive_solver].
  - intros o'. rewrite elem_of_app, list_elem_of_singleton, lookup_delete. case_decide; [done|].
    intros [Ho'|]; [by apply (inv_disjoint _ _ _ I)|naive_solver].
  - intros o' b'. rewrite lookup_delete. case_decide; [done|]. apply (inv_alloc_id _ _ _ I).
  - intros o'. rewrite Em, lookup_delete. pose proof (inv_mapped _ _ _ I o').
    repeat case_decide; subst; try done. split; [by intros []|by intros [[] _]].
  - intros o' Ho'. by apply not_elem_of_nil in Ho'.
  - rewrite dom_delete_L. pose proof (inv_tracks _ _ _ I) as Ht.
    apply tracks_unregister with (b := o) in Ht. by rewrite list_to_set_nil, difference_empty_L in *.
  - intros r os Hr. rewrite Er in Hr. destruct (inv_owned _ _ _ I r os Hr) as (H1 & H2 & H3).
    split; [done|]. split; [done|]. intros o' Ho'. rewrite Em.
    rewrite decide_False by (intros ->; by eapply Hown). auto.
  - intros o' m. rewrite Em. case_decide; [done|]. intros Hm' Ha.
    destruct (inv_active _ _ _ I o' m Hm' Ha) as [Ho'|Ho']; [left; set_solver|right].
    by rewrite Er.
Qed.

Lemma inactive_unowned s pending orphans o m :
  pm_inv pending orphans s -> mapping_at o s = Some m -> is_active m = false ->
  forall r os, requests s !! r = Some os -> o ∉ os.
Proof.
  intros I Hm Ha r os Hr Ho. destruct (inv_owned _ _ _ I r os Hr) as (_ & _ & H).
  destruct (H o Ho) as (m' & Hm' & Ha' & _). congruence.
Qed.

Lemma orphan_weaken s pending orphans o :
  pm_inv pending orphans s -> pm_inv pending (o :: orphans) s.
Proof.
  intros [? ? ? ? ? ? ? ? ? ? Ha]. split; try done. intros o' m Hm Hac.
  destruct (Ha o' m Hm Hac); [left; by right|by right].
Qed.

(** Evicting distinct inactive blocks. *)
Lemma evict_all_inv l : forall s, pm_inv [] [] s -> NoDup l ->
  (forall o, o ∈ l -> exists m, mapping_at o s = Some m /\ is_active m = false) ->
  let s' := foldl evict_block s l in
  pm_inv [] [] s' /\ config s' = config s /\ requests s' = requests s /\
  free_ids s' = free_ids s ++ l /\
  forall o, mapping_at o s' = if decide (o ∈ l) then None else mapping_at o s.
Proof.
  induction l as [|b l IH]; intros s I Hnd Hl; cbn.
  { rewrite app_nil_r. split; [done|]. do 3 (split; [done|]). intros o.
    rewrite decide_False; [done|apply not_elem_of_nil]. }
  apply NoDup_cons in Hnd as [Hb Hnd]. destruct (evict_block_frame s b) as (Ec & Er & Em).
  destruct (Hl b) as (m & Hm & Ha); [by left|].
  destruct (evict_block_inv s b []) as [I' Ef].
  { by apply orphan_weaken. } { by eexists. } { by eapply inactive_unowned. }
  destruct (IH (evict_block s b)) as (I'' & Ec' & Er' & Ef' & Em'); [done|done| |].
  { intros o Ho. rewrite Em, decide_False by (intros ->; done). apply Hl. by right. }
  split; [done|]. split; [congruence|]. split; [congruence|].
  split; [rewrite Ef', Ef, <- app_assoc; done|]. intros o. rewrite Em', Em.
  repeat case_decide; set_solver.
Qed.

(** *** [can_allocate] *)
Lemma can_allocate_spec s n tokens b s' :
  pm_inv [] [] s -> 0 <= n -> 0 <= tokens -> can_allocate n tokens s = (b, s') ->
  pm_inv [] [] s' /\ config s' = config s /\ requests s' = requests s /\
  (forall o m, mapping_at o s = Some m -> is_active m = true -> mapping_at o s' = Some m) /\
  (forall o, is_Some (mapping_at o s') -> mapping_at o s' = mapping_at o s) /\
  let required := compute_num_blocks_to_allocate (config s) n tokens in
  (b = true -> required <= get_free_count (allocator s')) /\
  (b = false -> s' = s /\
     get_free_count (allocator s) + len (inactive_block_ids (mapping_manager s)) < required).
Proof.
  intros I Hn Ht. unfold can_allocate.
  set (req := compute_num_blocks_to_allocate (config s) n tokens).
  set (free := get_free_count (allocator s)).
  destruct (Z.leb_spec req free) as [Hle|Hlt].
  { intros [= <- <-]. do 3 (split; [done|]). split; [auto|]. split; [done|]. split; [done|]. done. }
  pose proof (NoDup_inactive _ (inv_mapping _ _ _ I)) as Hnd.
  set (l := select_blocks_for_eviction _ _ _).
  destruct (select_sound (eviction_policy s) _ (mapping_manager s) (req - free)
    (inv_tracks _ _ _ I) Hnd ltac:(lia)) as (Hcnt & Hndl & Hin). fold l in Hcnt, Hndl, Hin.
  assert (forall o, o ∈ l -> exists m, mapping_at o s = Some m /\ is_active m = false) as Hl.
  { intros o Ho. apply elem_of_inactive; [apply (inv_mapping _ _ _ I)|auto]. }
  destruct (Z.leb_spec (req - free) (len l)) as [Hle|Hlt2]; intros [= <- <-].
  - destruct (evict_all_inv l s I Hndl Hl) as (I' & Ec & Er & Ef & Em).
    split; [done|]. split; [done|]. split; [done|]. split.
    { intros o m Hm Ha. rewrite Em, decide_False; [done|]. intros Ho.
      destruct (Hl o Ho) as (m' & Hm' & Ha'). congruence. }
    split; [intros o; rewrite Em; case_decide; [by intros []|done]|]. split; [|done]. intros _.
    unfold get_free_count. assert (len (free_blocks (allocator (foldl evict_block s l)))
      = len (free_ids (foldl evict_block s l))) as -> by (unfold len, free_ids; by rewrite length_fmap).
    rewrite Ef, len_app. unfold free, get_free_count, free_ids, len in *. rewrite length_fmap. lia.
  - do 3 (split; [done|]). split; [auto|]. split; [done|]. split; [done|]. intros _. split; [done|].
    destruct (Z.le_gt_cases (req - free) (len (inactive_block_ids (mapping_manager s))))
      as [Hc|Hc]; [exfalso|lia].
    assert (len l = req - free); [|lia].
    apply (select_complete _ _ _ _ (inv_tracks _ _ _ I) Hnd); [|lia].
    intros o (m & Hm & _)%elem_of_inactive; [|apply (inv_mapping _ _ _ I)].
    destruct (proj1 (inv_mapped _ _ _ I o)) as [Ha _]; [by eexists|].
    rewrite list_to_set_nil, difference_empty_L. by apply elem_of_dom.
Qed.

(** *** Allocation *)

Definition insert_all (l : list RBLNBlock) (m : gmap Z RBLNBlock) : gmap Z RBLNBlock :=
  foldl (fun m b => <[block_id b := b]> m) m l.

Lemma allocate_loop_ok n : forall acc a,
  (n <= length (free_blocks a))%nat ->
  allocate_loop n acc a = Ok (acc ++ take n (free_blocks a),
    mkAllocator (drop n (free_blocks a))
      (insert_all (take n (free_blocks a)) (allocated_blocks a))).
Proof.
  induction n as [|n IH]; intros acc a Hn; cbn [allocate_loop].
  { destruct a. cbn. by rewrite app_nil_r. }
  destruct a as [[|b free] alloc]; cbn [free_blocks length] in *; [lia|].
  rewrite IH by (cbn; lia). cbn. by rewrite <- app_assoc.
Qed.

Lemma lookup_insert_all l m o :
  (forall b, b ∈ l -> m !! block_id b = None) -> NoDup (block_id <$> l) ->
  insert_all l m !! o = if decide (o ∈ block_id <$> l) then Some (mkBlock o) else m !! o.
Proof.
  unfold insert_all. revert m. induction l as [|b l IH]; intros m Hm Hnd; [done|].
  rewrite fmap_cons in *. apply NoDup_cons in Hnd as [Hb Hnd]. cbn [foldl]. rewrite IH; [|..|done].
  - rewrite lookup_insert. repeat case_decide; try done; try set_solver.
    subst. by destruct b.
  - intros b' Hb'. rewrite lookup_insert_ne; [apply Hm; by right|].
    intros E. apply Hb. rewrite E. by apply list_elem_of_fmap_2.
Qed.

Lemma allocate_inv s n orphans :
  pm_inv [] orphans s -> 0 <= n <= get_free_count (allocator s) ->
  exists blocks a, allocate n (allocator s) = Ok (blocks, a) /\ len blocks = n /\
    block_id <$> blocks = take (Z.to_nat n) (free_ids s) /\
    pm_inv (block_id <$> blocks) orphans (set_allocator a s) /\
    free_ids (set_allocator a s) = drop (Z.to_nat n) (free_ids s).
Proof.
  intros I Hn. unfold allocate, get_free_count in *.
  destruct (Z.ltb_spec (len (free_blocks (allocator s))) n); [lia|].
  rewrite allocate_loop_ok by (unfold len in *; lia). cbn [app].
  set (blocks := take _ _). set (a := mkAllocator _ _). exists blocks, a.
  assert (block_id <$> blocks = take (Z.to_nat n) (free_ids s)) as Eb
    by (unfold blocks, free_ids; by rewrite fmap_take).
  assert (free_ids (set_allocator a s) = drop (Z.to_nat n) (free_ids s)) as Ef
    by (unfold free_ids; cbn; by rewrite fmap_drop).
  pose proof (take_drop (Z.to_nat n) (free_ids s)) as Etd. rewrite <- Eb, <- Ef in Etd.
  pose proof (inv_free_nodup _ _ _ I) as Hnd. rewrite <- Etd in Hnd.
  apply NoDup_app in Hnd as (Hnd1 & Hdis & Hnd2).
  assert (forall o, allocated_blocks a !! o = if decide (o ∈ block_id <$> blocks)
    then Some (mkBlock o) else allocated_blocks (allocator s) !! o) as Hlk.
  { intros o. cbn. apply lookup_insert_all; [|done]. intros b Hb. apply (inv_disjoint _ _ _ I).
    rewrite <- Etd. apply elem_of_app. left. by apply list_elem_of_fmap_2. }
  assert (forall o, o ∈ block_id <$> blocks -> mapping_at o s = None) as Hunm.
  { intros o Ho. eapply free_not_mapped; [done|]. rewrite <- Etd. set_solver. }
  split; [done|]. split; [unfold blocks, len in *; rewrite length_take; lia|]. split; [done|].
  split; [|done]. split; try apply I; cbn [set_allocator allocator eviction_policy config].
  - done.
  - intros o. rewrite <- (inv_range _ _ _ I o), <- Etd, elem_of_app, Hlk.
    case_decide; naive_solver.
  - intros o Ho. rewrite Hlk, decide_False by naive_solver.
    apply (inv_disjoint _ _ _ I). rewrite <- Etd, elem_of_app. by right.
  - intros o b. rewrite Hlk. case_decide; [by intros [= <-]|apply (inv_alloc_id _ _ _ I)].
  - intros o. change (mapping_at o (set_allocator a s)) with (mapping_at o s).
    rewrite Hlk. pose proof (inv_mapped _ _ _ I o) as Hm. pose proof (Hunm o) as Hu.
    case_decide; [rewrite Hu by done; split; [by intros []|naive_solver]|].
    rewrite Hm. split; [naive_solver|]. intros [? _]. split; [done|apply not_elem_of_nil].
  - intros o Ho. rewrite Hlk, decide_True by done. by eexists.
  - pose proof (inv_tracks _ _ _ I) as Ht. rewrite list_to_set_nil, difference_empty_L in Ht.
    replace (dom (allocated_blocks a) ∖ list_to_set (block_id <$> blocks))
      with (dom (allocated_blocks (allocator s))); [done|].
    apply set_eq. intros o. rewrite elem_of_difference, !elem_of_dom, elem_of_list_to_set, Hlk.
    case_decide as Ho; [|naive_solver]. split; [|naive_solver]. intros [b Hb].
    rewrite (inv_disjoint _ _ _ I o) in Hb; [done|]. rewrite <- Etd. set_solver.
Qed.

(** The inner blocks the i-th new outer block receives. *)
Definition chunk (c : BlockConfiguration) (inner_blocks : list Z) (i : nat) : list Z :=
  py_slice inner_blocks (Z.of_nat i * block_ratio c)
    (Z.min ((Z.of_nat i + 1) * block_ratio c) (len inner_blocks)).

Lemma meta_inv m m' : meta m = meta m' ->
  is_active m = is_active m' /\ mapping_request_id m = mapping_request_id m'.
Proof. unfold meta. by intros [= _ ? ?]. Qed.

Lemma meta_some (x : option BlockMapping) m (y : option BlockMapping) :
  meta <$> x = meta <$> y -> y = Some m ->
  exists m', x = Some m' /\ is_active m' = is_active m /\
    mapping_request_id m' = mapping_request_id m.
Proof.
  intros E ->. destruct x as [m'|]; [|done]. exists m'. injection E as E.
  split; [done|]. unfold meta in *. naive_solver.
Qed.

(** Ownership after one more block [o] went to request [r]. *)
Section give_block.
Context (s s' : RBLNPrefixKVCacheManager P) (o : Z) (r : string) (m_new : BlockMapping).
Context (pending orphans : list Z).
Hypothesis I : pm_inv pending orphans s.
Hypothesis Hom : mapping_at o s = None.
Hypothesis Ho : mapping_at o s' = Some m_new.
Hypothesis Hact : is_active m_new = true.
Hypothesis Hreq : mapping_request_id m_new = Some r.
Hypothesis Hmeta : forall o', o' <> o -> meta <$> mapping_at o' s' = meta <$> mapping_at o' s.
Hypothesis Er : requests s' = <[r := default [] (requests s !! r) ++ [o]]> (requests s).

Lemma owned_kept r' os o' : requests s !! r' = Some os -> o' ∈ os ->
  exists m, mapping_at o' s' = Some m /\ is_active m = true /\ mapping_request_id m = Some r'.
Proof.
  intros Hos Ho'. destruct (inv_owned _ _ _ I r' os Hos) as (_ & _ & H3).
  destruct (H3 o' Ho') as (m & Hm & Ha & Hr).
  destruct (meta_some _ m _ (Hmeta o' ltac:(intros ->; congruence)) Hm) as (m' & ? & E1 & E2).
  exists m'. rewrite E1, E2. done.
Qed.

Lemma give_block_owned r' os : requests s' !! r' = Some os -> os <> [] /\ NoDup os /\
  forall o', o' ∈ os -> exists m, mapping_at o' s' = Some m /\ is_active m = true /\
    mapping_request_id m = Some r'.
Proof.
  rewrite Er, lookup_insert_Some. intros [[<- <-]|[Hne Hos]].
  2:{ destruct (inv_owned _ _ _ I r' os Hos) as (H1 & H2 & _). split; [done|]. split; [done|].
      intros o'. by apply owned_kept. }
  split; [by destruct (default [] _)|].
  destruct (requests s !! r) as [os|] eqn:Eos; cbn.
  - destruct (inv_owned _ _ _ I r os Eos) as (_ & H2 & H3). split.
    + apply NoDup_app. split; [done|]. split; [|apply NoDup_singleton].
      intros o' Ho' ->%list_elem_of_singleton. destruct (H3 o Ho') as (? & ? & _). congruence.
    + intros o' [Ho'| ->%list_elem_of_singleton]%elem_of_app; [by eapply owned_kept|by exists m_new].
  - split; [apply NoDup_singleton|]. intros o' ->%list_elem_of_singleton. by exists m_new.
Qed.

Lemma give_block_active o' m : mapping_at o' s' = Some m -> is_active m = true ->
  o' ∈ orphans \/ exists r' os, mapping_request_id m = Some r' /\
    requests s' !! r' = Some os /\ o' ∈ os.
Proof.
  intros Hm Ha. rewrite Er. destruct (decide (o' = o)) as [->|Hne].
  - right. rewrite Ho in Hm. injection Hm as <-. exists r. eexists. split; [done|].
    rewrite lookup_insert_eq. split; [done|]. set_solver.
  - destruct (meta_some _ m _ (eq_sym (Hmeta o' Hne)) Hm) as (m0 & Hm0 & E1 & E2).
    destruct (inv_active _ _ _ I o' m0 Hm0 ltac:(congruence)) as [|(r' & os & Hr' & Hos & Hin)];
      [by left|right]. rewrite E2 in Hr'. destruct (decide (r' = r)) as [->|].
    + exists r. eexists. split; [done|]. rewrite lookup_insert_eq. split; [done|].
      rewrite Hos. set_solver.
    + exists r', os. rewrite lookup_insert_ne by done. done.
Qed.
End give_block.

Lemma map_new_block_inv s o pending orphans r inner i :
  pm_inv (o :: pending) orphans s -> NoDup (o :: pending) -> NoDup inner ->
  exists s', map_new_block r inner s (i, mkBlock o) = Ok s' /\
    pm_inv pending orphans s' /\ config s' = config s /\ allocator s' = allocator s /\
    requests s' = <[r := default [] (requests s !! r) ++ [o]]> (requests s) /\
    mapping_at o s' = Some (mkMapping o (chunk (config s) inner i) (Some r) true) /\
    (forall o', o' <> o -> meta <$> mapping_at o' s' = meta <$> mapping_at o' s) /\
    (forall o' m, o' <> o -> mapping_at o' s = Some m ->
       (forall x, x ∈ chunk (config s) inner i -> x ∉ inner_block_ids m) ->
       mapping_at o' s' = Some m).
Proof.
  intros I Hnd Hinner. apply NoDup_cons in Hnd as [Hop Hnd].
  assert (mapping_at o s = None) as Hom.
  { destruct (mapping_at o s) eqn:E; [|done].
    destruct (proj1 (inv_mapped _ _ _ I o)) as [_ Ho]; [by eexists|]. set_solver. }
  destruct (inv_pending _ _ _ I o) as [b0 Hb0]; [by left|].
  pose proof (inv_mapping _ _ _ I) as Hwf.
  set (ch := chunk (config s) inner i). assert (NoDup ch) as Hch by (by apply NoDup_py_slice).
  set (mm := create_mapping (mkBlock o) ch r (mapping_manager s)).
  destruct (create_mapping_frame (mkBlock o) ch r (mapping_manager s)) as (Fm & Fk & Fr & Fo).
  destruct (tracks_register (eviction_policy s)
    (dom (allocated_blocks (allocator s)) ∖ list_to_set (o :: pending)) o) as (p' & Hp' & Ht');
    [apply (inv_tracks _ _ _ I)|set_solver|].
  exists (set_policy p' (set_mapping mm s)).
  change (map_new_block r inner s (i, mkBlock o))
    with (p ← register_block o (eviction_policy s); Ok (set_policy p (set_mapping mm s))).
  rewrite Hp'. cbn [mbind res_bind].
  set (s' := set_policy p' (set_mapping mm s)).
  assert (forall o', o' <> o -> meta <$> mapping_at o' s' = meta <$> mapping_at o' s) as Hmeta
    by exact Fm.
  assert (mapping_at o s' = Some (mkMapping o ch (Some r) true)) as Ho by exact Fo.
  assert (requests s' = <[r := default [] (requests s !! r) ++ [o]]> (requests s)) as Er by exact Fr.
  split; [done|]. split; [|do 5 (split; [done|]); intros o' m ???;
    by apply (create_mapping_keeps (mkBlock o))].
  split; try apply I.
  - by apply create_mapping_wf.
  - intros o'. change (allocator s') with (allocator s). destruct (decide (o' = o)) as [->|Hne].
    + rewrite Ho, Hb0. split; [done|by eexists].
    + specialize (Hmeta o' Hne). rewrite <- (fmap_is_Some meta), Hmeta, fmap_is_Some.
      rewrite (inv_mapped _ _ _ I o'). rewrite elem_of_cons. naive_solver.
  - intros o' Ho'. apply (inv_pending _ _ _ I). by right.
  - change (eviction_policy s') with p'. change (allocator s') with (allocator s).
    replace (dom _ ∖ _) with ({[o]} ∪ dom (allocated_blocks (allocator s)) ∖ list_to_set (o :: pending));
      [done|]. apply set_eq. intros x. rewrite elem_of_union, !elem_of_difference, elem_of_singleton,
      !elem_of_list_to_set, elem_of_cons, !elem_of_dom. destruct (decide (x = o)); naive_solver.
  - by eapply (give_block_owned s s' o r).
  - by eapply (give_block_active s s' o r).
Qed.

Lemma chunk_disjoint c inner i j x : 0 < block_ratio c -> NoDup inner -> i <> j ->
  x ∈ chunk c inner i -> x ∉ chunk c inner j.
Proof. intros Hr Hnd Hij. apply py_slice_disjoint; [done|nia|nia|nia]. Qed.

Lemma chunk_sub c inner i x : 0 < block_ratio c -> x ∈ chunk c inner i -> x ∈ inner.
Proof.
  intros Hr (k & Hk & _)%elem_of_py_slice; [|nia]. by apply list_elem_of_lookup_2 in Hk.
Qed.

(** What allocating the blocks [ids] to [r] does, [k] being the first chunk's number. *)
Record given (r : string) (inner ids : list Z) (k : nat)
    (s s' : RBLNPrefixKVCacheManager P) : Prop := {
  gv_config : config s' = config s;
  gv_requests : default [] (requests s' !! r) = default [] (requests s !! r) ++ ids;
  gv_others : forall r', r' <> r -> requests s' !! r' = requests s !! r';
  gv_mapped : forall i o, ids !! i = Some o ->
    mapping_at o s' = Some (mkMapping o (chunk (config s) inner (k + i)) (Some r) true);
  gv_meta : forall o, o ∉ ids -> meta <$> mapping_at o s' = meta <$> mapping_at o s;
  gv_keeps : forall o m, o ∉ ids -> mapping_at o s = Some m ->
    (forall x, x ∈ inner_block_ids m -> forall j, (k <= j)%nat -> x ∉ chunk (config s) inner j) ->
    mapping_at o s' = Some m
}.

Lemma map_all_inv r inner orphans ids : forall k s,
  pm_inv ids orphans s -> NoDup ids -> NoDup inner ->
  exists s', foldM (map_new_block r inner) s
      (imap (fun i b => ((k + i)%nat, b)) (mkBlock <$> ids)) = Ok s' /\
    pm_inv [] orphans s' /\ allocator s' = allocator s /\ given r inner ids k s s'.
Proof.
  induction ids as [|o ids IH]; intros k s I Hnd Hinner.
  { exists s. do 3 (split; [done|]). split; try done. by rewrite app_nil_r. }
  destruct (map_new_block_inv s o ids orphans r inner k I Hnd Hinner)
    as (s1 & E1 & I1 & Ec & Ea & Er & Ho & Hmeta & Hkeep).
  pose proof (block_ratio_pos _ _ _ I) as Hratio.
  apply NoDup_cons in Hnd as [Hoi Hnd].
  destruct (IH (S k) s1 I1 Hnd Hinner) as (s2 & E2 & I2 & Ea2 & [Gc Gr Gn Gm Gme Gk]).
  exists s2. split.
  { rewrite fmap_cons, imap_cons. cbn [foldM]. rewrite Nat.add_0_r, E1. cbn [mbind res_bind].
    rewrite <- E2. f_equal. apply imap_ext. intros i b _. cbn. do 2 f_equal. lia. }
  split; [done|]. split; [by rewrite Ea2|]. rewrite Ec in *. split.
  - done.
  - rewrite Gr, Er, lookup_insert_eq. cbn. by rewrite <- app_assoc.
  - intros r' Hr'. rewrite Gn, Er by done. by rewrite lookup_insert_ne.
  - intros [|i] o' Hi; cbn in Hi.
    + injection Hi as <-. rewrite Nat.add_0_r. apply Gk; [done|done|]. cbn. intros x Hx j Hj.
      apply (chunk_disjoint _ _ k); [done|done|lia|done].
    + rewrite (Gm i o' Hi). do 3 f_equal. lia.
  - intros o' Ho'. apply not_elem_of_cons in Ho' as [? ?]. rewrite Gme by done. by apply Hmeta.
  - intros o' m Ho' Hm Hx. apply not_elem_of_cons in Ho' as [? ?]. apply Gk; [done| |].
    + apply Hkeep; [done|done|]. intros x Hxc Hxm. by apply (Hx x Hxm k).
    + intros x Hxm j Hj. apply Hx; [done|lia].
Qed.

Lemma allocate_new_blocks_ok r n inner orphans s :
  pm_inv [] orphans s -> 0 < n <= get_free_count (allocator s) -> NoDup inner ->
  exists s', allocate_new_blocks r n inner s = Ok s' /\ pm_inv [] orphans s' /\
    free_ids s' = drop (Z.to_nat n) (free_ids s) /\
    given r inner (take (Z.to_nat n) (free_ids s)) 0 s s'.
Proof.
  intros I Hn Hinner. unfold allocate_new_blocks. rewrite (proj2 (Z.ltb_lt _ _)) by lia.
  destruct (allocate_inv s n orphans I ltac:(lia)) as (blocks & a & Ea & _ & Eb & I' & Ef).
  cbn [require mbind res_bind]. rewrite Ea. cbn [mbind res_bind].
  assert (NoDup (block_id <$> blocks)) as Hnd.
  { rewrite Eb. eapply sublist_NoDup; [apply (inv_free_nodup _ _ _ I)|apply sublist_take]. }
  destruct (map_all_inv r inner orphans _ 0 _ I' Hnd Hinner) as (s' & E & I'' & Ea' & [Gc Gr Gn Gm Gme Gk]).
  exists s'. split.
  { rewrite <- E. f_equal. rewrite <- list_fmap_compose.
    rewrite (list_fmap_ext _ id), list_fmap_id; [done|]. by intros i [b] _. }
  split; [done|]. split; [unfold free_ids in *; by rewrite Ea'|]. rewrite <- Eb. by split.
Qed.

(** *** Appending to the last outer block *)

Lemma set_mapping_inv mm' pending orphans s :
  pm_inv pending orphans s -> mapping_wf mm' ->
  (forall o, meta <$> get_mapping o mm' = meta <$> mapping_at o s) ->
  request_to_outer_blocks mm' = requests s -> pm_inv pending orphans (set_mapping mm' s).
Proof.
  intros I Hwf Hmeta Hreq. split; try apply I; [done|..];
    unfold mapping_at, requests; cbn [mapping_manager set_mapping]; rewrite ?Hreq.
  - intros o. rewrite <- (fmap_is_Some meta), Hmeta, fmap_is_Some. apply (inv_mapped _ _ _ I).
  - intros r os Hos. destruct (inv_owned _ _ _ I r os Hos) as (H1 & H2 & H3).
    split; [done|]. split; [done|]. intros o Ho. destruct (H3 o Ho) as (m & Hm & Ha & Hr).
    destruct (meta_some _ m _ (Hmeta o) Hm) as (m' & ? & E1 & E2). exists m'. by rewrite E1, E2.
  - intros o m Hm Ha. destruct (meta_some _ m _ (eq_sym (Hmeta o)) Hm) as (m0 & Hm0 & E1 & E2).
    rewrite <- E2. apply (inv_active _ _ _ I o m0 Hm0). congruence.
Qed.

Lemma append_ok r os o i s :
  pm_inv [] [] s -> requests s !! r = Some os -> last os = Some o ->
  inner_to_outer (mapping_manager s) !! i <> Some o ->
  exists s' m, append_to_existing_block o [i] s = Ok s' /\ pm_inv [] [] s' /\
    config s' = config s /\ requests s' = requests s /\ allocator s' = allocator s /\
    mapping_at o s = Some m /\
    mapping_at o s' = Some (set_inner_block_ids (inner_block_ids m ++ [i]) m) /\
    (forall o' m', o' <> o -> mapping_at o' s = Some m' -> i ∉ inner_block_ids m' ->
       mapping_at o' s' = Some m').
Proof.
  intros I Hos Hlast Hi.
  assert (o ∈ os) as Ho by (by apply last_Some_elem_of).
  destruct (inv_owned _ _ _ I r os Hos) as (_ & _ & H3). destruct (H3 o Ho) as (m & Hm & _ & _).
  unfold append_to_existing_block. cbn [require]. change (len [i] =? 1) with true.
  change (py_nth [i] 0) with (Some i). unfold mapping_at in Hm. cbn. rewrite Hm. cbn.
  set (pm := put_mapping o _ _). destruct (add_new_inner_frame i o pm) as (F1 & _ & F3 & F4).
  set (s' := set_mapping _ s). exists s', m.
  assert (forall o', meta <$> mapping_at o' s' = meta <$> mapping_at o' s) as Hmeta.
  { intros o'. etrans; [apply F1|]. subst pm. rewrite get_mapping_put. case_decide; [|done].
    subst. unfold mapping_at. by rewrite Hm. }
  split; [done|]. split.
  { apply set_mapping_inv; [done| |exact Hmeta|exact F3].
    apply append_inner_wf; [apply (inv_mapping _ _ _ I)|done|done]. }
  split; [done|]. split; [exact F3|]. split; [done|]. split; [done|]. split.
  { etrans; [apply F4|]. subst pm. rewrite get_mapping_put. by rewrite decide_True. }
  intros o' m' Hne Hm' Him.
  change (get_mapping o' (detach_inner_from_stale_outer i o pm) = Some m').
  rewrite get_mapping_detach. subst pm. rewrite get_mapping_put, decide_False by done.
  unfold mapping_at in Hm'. rewrite Hm', decide_False; [done|]. cbn. intros [Hio _].
  apply (mwf_agree _ (inv_mapping _ _ _ I)) in Hio. unfold get_inner_blocks_for_outer in Hio.
  by rewrite Hm' in Hio.
Qed.

(** *** Freeing a request *)

Lemma remove_request_inv r s :
  pm_inv [] [] s ->
  pm_inv [] (default [] (requests s !! r)) (set_mapping (remove_request r (mapping_manager s)).2 s).
Proof.
  intros I. split; try apply I; unfold mapping_at, requests; cbn.
  - destruct (inv_mapping _ _ _ I). by split.
  - intros r' os. rewrite lookup_delete_Some. intros [_ Hos]. by apply (inv_owned _ _ _ I).
  - intros o m Hm Ha. destruct (inv_active _ _ _ I o m Hm Ha) as [H|(r' & os & Hr' & Hos & Ho)];
      [by apply not_elem_of_nil in H|]. destruct (decide (r' = r)) as [->|Hne].
    + left. unfold requests in Hos. by rewrite Hos.
    + right. exists r', os. by rewrite lookup_delete_ne.
Qed.

Lemma deactivate_inv s o m orphans :
  pm_inv [] (o :: orphans) s -> mapping_at o s = Some m ->
  (forall r os, requests s !! r = Some os -> o ∉ os) ->
  pm_inv [] orphans (set_mapping (put_mapping o (deactivate m) (mapping_manager s)) s).
Proof.
  intros I Hm Hown. set (s' := set_mapping _ s).
  assert (forall o', mapping_at o' s' = if decide (o' = o) then Some (deactivate m)
                                        else mapping_at o' s) as Em
    by (intros o'; apply get_mapping_put).
  split; try apply I.
  - by apply (put_mapping_wf o (deactivate m) m); [apply (inv_mapping _ _ _ I)|..].
  - intros o'. rewrite Em. pose proof (inv_mapped _ _ _ I o') as Hmp. case_decide; [|done].
    subst. rewrite Hm in Hmp. split; intros _; [apply Hmp|]; by eexists.
  - intros r os Hos. destruct (inv_owned _ _ _ I r os Hos) as (H1 & H2 & H3).
    split; [done|]. split; [done|]. intros o' Ho'. rewrite Em, decide_False; [auto|].
    intros ->. by eapply Hown.
  - intros o' m'. rewrite Em. case_decide; [by intros [= <-]|]. intros Hm' Ha.
    destruct (inv_active _ _ _ I o' m' Hm' Ha) as [Ho'|Ho']; [left; set_solver|by right].
Qed.

(** The loop of [free_request] over blocks no request owns any more. *)
Lemma free_loop_ok preemption os : forall s,
  pm_inv [] os s -> NoDup os ->
  (forall o, o ∈ os -> is_Some (mapping_at o s)) ->
  (forall r os', requests s !! r = Some os' -> forall o, o ∈ os -> o ∉ os') ->
  exists s', foldM (free_outer_block preemption) s os = Ok s' /\ pm_inv [] [] s' /\
    config s' = config s /\ requests s' = requests s /\
    free_ids s' = free_ids s ++ (if preemption then os else []) /\
    forall o, mapping_at o s' =
      if decide (o ∈ os) then (if preemption then None else deactivate <$> mapping_at o s)
      else mapping_at o s.
Proof.
  induction os as [|o os IH]; intros s I Hnd Hm Hown.
  { exists s. split; [done|]. do 3 (split; [done|]). split; [by destruct preemption; rewrite app_nil_r|].
    intros o. rewrite decide_False; [done|apply not_elem_of_nil]. }
  apply NoDup_cons in Hnd as [Ho Hnd]. destruct (Hm o) as [m Hmo]; [by left|].
  assert (forall r os', requests s !! r = Some os' -> o ∉ os') as Hown1.
  { intros r os' Hos'. apply (Hown r os' Hos'). by left. }
  assert (exists s1, free_outer_block preemption s o = Ok s1 /\ pm_inv [] os s1 /\
    config s1 = config s /\ requests s1 = requests s /\
    free_ids s1 = free_ids s ++ (if preemption then [o] else []) /\
    forall o', mapping_at o' s1 = if decide (o' = o)
      then (if preemption then None else Some (deactivate m)) else mapping_at o' s)
    as (s1 & E1 & I1 & Ec & Er & Ef & Em).
  { unfold free_outer_block. destruct preemption.
    - destruct (evict_block_inv s o os I) as [I' Ef]; [by eexists|done|].
      destruct (evict_block_frame s o) as (Ec & Er & Em).
      exists (evict_block s o). split_and!; done.
    - unfold mapping_at in Hmo. rewrite Hmo. cbn. eexists. split; [done|].
      split; [by apply (deactivate_inv s o m os)|]. split; [done|]. split; [done|].
      split; [by rewrite app_nil_r|]. intros o'. apply get_mapping_put. }
  destruct (IH s1 I1 Hnd) as (s2 & E2 & I2 & Ec2 & Er2 & Ef2 & Em2).
  { intros o' Ho'. rewrite Em, decide_False by (intros ->; done). apply Hm. by right. }
  { rewrite Er. intros r os' Hos' o' Ho'. apply (Hown r os' Hos'). by right. }
  exists s2. cbn [foldM]. rewrite E1. cbn [mbind res_bind]. split; [done|]. split; [done|].
  split; [congruence|]. split; [congruence|].
  split; [rewrite Ef2, Ef; destruct preemption; [by rewrite <- app_assoc|by rewrite !app_nil_r]|].
  intros o'. rewrite Em2, Em. destruct (decide (o' = o)) as [->|Hne].
  - rewrite decide_False, decide_True by (done || set_solver). destruct preemption; [done|by rewrite Hmo].
  - destruct (decide (o' ∈ os)); [rewrite decide_True by set_solver|rewrite decide_False by set_solver]; done.
Qed.

Lemma free_request_ok r preemption s :
  pm_inv [] [] s ->
  let os := default [] (requests s !! r) in
  exists s', free_request r preemption s = Ok s' /\ pm_inv [] [] s' /\ config s' = config s /\
    requests s' = delete r (requests s) /\
    free_ids s' = free_ids s ++ (if preemption then os else []) /\
    forall o, mapping_at o s' =
      if decide (o ∈ os) then (if preemption then None else deactivate <$> mapping_at o s)
      else mapping_at o s.
Proof.
  intros I os. pose proof (remove_request_inv r s I) as I0. fold os in I0.
  assert (NoDup os /\ forall o, o ∈ os -> exists m, mapping_at o s = Some m /\
    mapping_request_id m = Some r) as [Hnd Hm].
  { subst os. destruct (requests s !! r) as [os|] eqn:E; cbn.
    - destruct (inv_owned _ _ _ I r os E) as (_ & ? & H3). split; [done|].
      intros o Ho. destruct (H3 o Ho) as (m & ? & _ & ?). eauto.
    - split; [constructor|]. intros o Ho. by apply not_elem_of_nil in Ho. }
  destruct (free_loop_ok preemption os _ I0 Hnd) as (s' & E & I' & Ec & Er & Ef & Em).
  - intros o Ho. destruct (Hm o Ho) as (m & ? & _). by exists m.
  - intros r' os' Hos' o Ho Ho'. change (delete r (requests s) !! r' = Some os') in Hos'.
    apply lookup_delete_Some in Hos' as [Hne Hos'].
    destruct (inv_owned _ _ _ I r' os' Hos') as (_ & _ & H3).
    destruct (H3 o Ho') as (m & Hm1 & _ & Hr1), (Hm o Ho) as (m' & Hm2 & Hr2). congruence.
  - exists s'. split_and!; done.
Qed.

End invariant.
