(* ===== verification/PrefixCacheSpec.v ===== *)
(** * What the prefix cache manager promises

    The theorems about [PrefixCache]: the block accounting invariant over every sequence
    of operations, admission, eviction, release, the cache search and the dummy block.
    They hold for any eviction policy that satisfies [EvictionPolicyLaws]. *)

From S2P Require Import Prelude BlockMapping Eviction PrefixCache.

Section spec.
Context {P : Type} `{Policy : EvictionPolicy P}.
Context {tracks : P -> gset Z -> Prop} `{Laws : !EvictionPolicyLaws P tracks}.
Implicit Types s : RBLNPrefixKVCacheManager P.
#[local] Arguments evict_block : simpl never.
#[local] Arguments can_allocate : simpl never.
#[local] Arguments create_mapping : simpl never.
#[local] Abbreviation pm_inv := (PrefixCache.pm_inv (tracks := tracks)).

(** *** [allocate_blocks] after a successful admission check *)

Lemma concat_chunks c inner n : 0 < block_ratio c ->
  concat (chunk c inner <$> seq 0 n)
  = py_slice inner 0 (Z.min (Z.of_nat n * block_ratio c) (len inner)).
Proof.
  intros Hr. pose proof (len_nonneg inner) as Hl. induction n as [|n IH].
  { cbn [seq]. unfold py_slice. rewrite Z.min_l by lia. done. }
  rewrite seq_S, fmap_app, concat_app, IH. cbn [fmap list_fmap concat Nat.add]. rewrite app_nil_r.
  unfold chunk. replace (Z.of_nat (S n)) with (Z.of_nat n + 1) by lia.
  destruct (Z.le_gt_cases (Z.of_nat n * block_ratio c) (len inner)).
  - rewrite (Z.min_l (Z.of_nat n * _)) by lia. apply py_slice_app; nia.
  - rewrite (Z.min_r (Z.of_nat n * _)), !(Z.min_r ((Z.of_nat n + 1) * _)) by nia.
    assert (py_slice inner (Z.of_nat n * block_ratio c) (len inner) = []) as ->.
    { unfold py_slice. replace (Z.to_nat _) with 0%nat by lia. done. }
    by rewrite app_nil_r.
Qed.

Lemma concat_chunks_all c inner n : 0 < block_ratio c -> len inner <= Z.of_nat n * block_ratio c ->
  concat (chunk c inner <$> seq 0 n) = inner.
Proof.
  intros Hr Hn. rewrite concat_chunks, Z.min_r by lia. unfold py_slice, len.
  rewrite Z.sub_0_r, Nat2Z.id. cbn. by rewrite firstn_all.
Qed.

(** The inner blocks a request holds, in order. *)
Definition request_inner (r : string) (s : RBLNPrefixKVCacheManager P) : list Z :=
  concat ((fun o => get_inner_blocks_for_outer o (mapping_manager s))
            <$> default [] (requests s !! r)).

(** The contract the caller respects: a prefill of an unknown request starts from no
    tokens; a decode step of a known one appends a single inner block; the inner blocks
    are distinct and not already held by the request. *)
Definition phase_ok (r : string) (tokens : Z) (inner : list Z)
    (s : RBLNPrefixKVCacheManager P) : Prop :=
  inner <> [] /\ NoDup inner /\ (forall i, i ∈ inner -> i ∉ request_inner r s) /\
  match requests s !! r with
  | None => tokens = 0
  | Some _ => 0 < tokens /\ len inner = 1
  end.

Definition required (s : RBLNPrefixKVCacheManager P) (tokens : Z) (inner : list Z) : Z :=
  compute_num_blocks_to_allocate (config s) (len inner) tokens.

Lemma inner_eq_map s s' o : mapping_at o s' = mapping_at o s ->
  get_inner_blocks_for_outer o (mapping_manager s')
  = get_inner_blocks_for_outer o (mapping_manager s).
Proof. unfold mapping_at, get_inner_blocks_for_outer. by intros ->. Qed.

Lemma request_inner_ext r s s' :
  requests s' !! r = requests s !! r ->
  (forall o, o ∈ default [] (requests s !! r) -> mapping_at o s' = mapping_at o s) ->
  request_inner r s' = request_inner r s.
Proof.
  intros Er Hm. unfold request_inner. rewrite Er. f_equal. apply list_fmap_ext.
  intros i o Hi. apply inner_eq_map, Hm. by eapply list_elem_of_lookup_2.
Qed.

Lemma elem_of_request_inner r s o m i : o ∈ default [] (requests s !! r) ->
  mapping_at o s = Some m -> i ∈ inner_block_ids m -> i ∈ request_inner r s.
Proof.
  intros Ho Hm Hi. unfold request_inner. apply list_elem_of_In, in_concat.
  exists (inner_block_ids m). split; [|by apply list_elem_of_In].
  apply list_elem_of_In, list_elem_of_fmap. exists o. split; [|done].
  unfold get_inner_blocks_for_outer, mapping_at in *. by rewrite Hm.
Qed.

Lemma allocate_new_content r n inner s :
  pm_inv [] [] s -> 0 < n <= get_free_count (allocator s) -> NoDup inner ->
  len inner <= n * block_ratio (config s) -> (forall i, i ∈ inner -> i ∉ request_inner r s) ->
  exists s', allocate_new_blocks r n inner s = Ok s' /\ pm_inv [] [] s' /\
    config s' = config s /\
    default [] (requests s' !! r)
      = default [] (requests s !! r) ++ take (Z.to_nat n) (free_ids s) /\
    (forall r', r' <> r -> requests s' !! r' = requests s !! r') /\
    request_inner r s' = request_inner r s ++ inner.
Proof.
  intros I Hn Hnd Hlen Hfresh. pose proof (block_ratio_pos _ _ _ I) as Hratio.
  destruct (allocate_new_blocks_ok r n inner [] s I Hn Hnd) as (s' & E & I' & _ & G).
  exists s'. split; [done|]. split; [done|]. split; [apply G|].
  pose proof (gv_requests _ _ _ _ _ _ G) as Er. split; [done|]. split; [apply G|].
  unfold request_inner at 1. rewrite Er, fmap_app, concat_app. f_equal.
  - unfold request_inner. f_equal. apply list_fmap_ext. intros i o Hi.
    assert (o ∈ default [] (requests s !! r)) as Ho by (by eapply list_elem_of_lookup_2).
    destruct (requests s !! r) as [os|] eqn:Eos; [|by apply not_elem_of_nil in Ho].
    destruct (inv_owned _ _ _ I r os Eos) as (_ & _ & H3). destruct (H3 o Ho) as (m & Hm & _).
    apply inner_eq_map. rewrite Hm. eapply gv_keeps; [exact G| |done|].
    + intros Hin. assert (o ∈ free_ids s) as Hf by (eapply elem_of_sublist; [done|apply sublist_take]).
      by rewrite (free_not_mapped _ _ _ _ I Hf) in Hm.
    + intros x Hx j _ Hc. apply (Hfresh x); [by eapply chunk_sub|].
      eapply elem_of_request_inner; [|exact Hm|done]. by rewrite Eos.
  - rewrite <- (concat_chunks_all (config s) inner (Z.to_nat n)) at 1 by (rewrite ?Z2Nat.id; lia).
    f_equal. apply list_eq. intros i. rewrite !list_lookup_fmap.
    assert (length (take (Z.to_nat n) (free_ids s)) = Z.to_nat n) as Hl.
    { unfold free_ids, get_free_count, len in *. rewrite length_take, length_fmap. lia. }
    destruct (take (Z.to_nat n) (free_ids s) !! i) as [o|] eqn:Ei.
    + rewrite lookup_seq_lt by (rewrite <- Hl; by eapply lookup_lt_Some). cbn.
      pose proof (gv_mapped _ _ _ _ _ _ G i o Ei) as Hm. unfold get_inner_blocks_for_outer, mapping_at in *.
      rewrite Hm. done.
    + apply lookup_ge_None in Ei. rewrite lookup_seq_ge by lia. done.
Qed.

Lemma append_content r os o i s :
  pm_inv [] [] s -> requests s !! r = Some os -> last os = Some o -> i ∉ request_inner r s ->
  exists s', append_to_existing_block o [i] s = Ok s' /\ pm_inv [] [] s' /\
    config s' = config s /\ requests s' = requests s /\
    request_inner r s' = request_inner r s ++ [i].
Proof.
  intros I Hos Hlast Hi. destruct (inv_owned _ _ _ I r os Hos) as (_ & Hnd & Hown).
  assert (forall o' m, o' ∈ os -> mapping_at o' s = Some m -> i ∉ inner_block_ids m) as Hfresh.
  { intros o' m Ho' Hm Him. apply Hi. eapply elem_of_request_inner; [|done|done]. by rewrite Hos. }
  assert (o ∈ os) as Ho by (by apply last_Some_elem_of).
  destruct (append_ok r os o i s I Hos Hlast) as (s' & m & E & I' & Ec & Er & _ & Hm & Hm' & Hk).
  { intros Hio. destruct (Hown o Ho) as (m & Hm & _). apply (Hfresh o m Ho Hm).
    apply (mwf_agree _ (inv_mapping _ _ _ I)) in Hio. unfold get_inner_blocks_for_outer in Hio.
    unfold mapping_at in Hm. by rewrite Hm in Hio. }
  exists s'. do 4 (split; [done|]). apply last_Some in Hlast as [os0 ->].
  apply NoDup_app in Hnd as (_ & Hdis & _).
  unfold request_inner. rewrite Er, Hos. cbn [default id]. rewrite !fmap_app, !concat_app.
  cbn [fmap list_fmap concat]. rewrite !app_nil_r, <- app_assoc. f_equal.
  - f_equal. apply list_fmap_ext. intros k o' Hk'. apply list_elem_of_lookup_2 in Hk'.
    destruct (Hown o') as (m' & Hmo & _); [set_solver|]. apply inner_eq_map. rewrite Hmo.
    apply Hk; [intros ->; by apply (Hdis o Hk'); left|done|]. apply (Hfresh o'); [set_solver|done].
  - unfold get_inner_blocks_for_outer, mapping_at in *. by rewrite Hm, Hm'.
Qed.

Lemma compute_nonneg c n t : 0 < block_ratio c -> 0 <= n -> 0 <= compute_num_blocks_to_allocate c n t.
Proof.
  intros Hr Hn. unfold compute_num_blocks_to_allocate. repeat case_match; try lia.
  pose proof (cdiv_spec n (block_ratio c) Hr). nia.
Qed.

Lemma allocate_blocks_ok r tokens inner s :
  pm_inv [] [] s -> phase_ok r tokens inner s ->
  required s tokens inner <= get_free_count (allocator s) ->
  exists s', allocate_blocks r tokens inner s = Ok s' /\ pm_inv [] [] s' /\
    config s' = config s /\
    default [] (requests s' !! r) = default [] (requests s !! r) ++
      take (Z.to_nat (required s tokens inner)) (free_ids s) /\
    (forall r', r' <> r -> requests s' !! r' = requests s !! r') /\
    request_inner r s' = request_inner r s ++ inner.
Proof.
  intros I (Hne & Hnd & Hfresh & Hphase) Hreq. pose proof (block_ratio_pos _ _ _ I) as Hratio.
  assert (0 < len inner) as Hlen by (destruct inner; [done|rewrite len_cons; pose proof (len_nonneg inner); lia]).
  unfold allocate_blocks, check_free_blocks, is_request_registered. fold (required s tokens inner).
  destruct (Z.eqb_spec (len inner) 0); [lia|]. rewrite (proj2 (Z.leb_le _ _)) by done.
  cbn [require mbind res_bind]. unfold requests in Hphase.
  destruct (request_to_outer_blocks (mapping_manager s) !! r) as [os|] eqn:Eos.
  - rewrite bool_decide_true by (by eexists). destruct Hphase as [Ht Hl].
    unfold handle_decode_allocation. destruct (Z.ltb_spec 0 (required s tokens inner)) as [Hpos|Hz].
    + apply allocate_new_content; [done|lia|done|nia|done].
    + assert (required s tokens inner = 0) as E0.
      { pose proof (compute_nonneg (config s) (len inner) tokens Hratio ltac:(lia)).
        unfold required in *. lia. }
      rewrite E0. destruct inner as [|i [|j inner]]; [done| |rewrite !len_cons in Hl;
        pose proof (len_nonneg inner); lia].
      unfold get_block_ids, get_request_blocks, is_request_registered. rewrite Eos.
      rewrite bool_decide_true by (by eexists). cbn [of_option mbind res_bind].
      destruct (inv_owned _ _ _ I r os Eos) as (Hos & _). rewrite py_nth_last.
      destruct (last os) as [o|] eqn:El; [|by apply last_None in El].
      cbn [of_option mbind res_bind].
      destruct (append_content r os o i s I Eos El) as (s' & E & I' & Ec & Er & Ein);
        [apply Hfresh; by left|]. exists s'. rewrite Er. unfold requests. rewrite Eos.
      cbn. rewrite app_nil_r. done.
  - rewrite bool_decide_false by (by intros []). subst tokens. unfold handle_prefill_allocation.
    assert (required s 0 inner = cdiv (len inner) (block_ratio (config s))) as Er.
    { unfold required, compute_num_blocks_to_allocate. destruct (Z.eqb_spec (len inner) 0); [lia|done]. }
    pose proof (cdiv_spec (len inner) _ Hratio). apply allocate_new_content; [done|nia|done|nia|done].
Qed.

(** *** The cache search *)

Lemma chunk_start c i : Z.of_nat i * block_ratio c + block_ratio c
  = (Z.of_nat i + 1) * block_ratio c.
Proof. lia. Qed.

Lemma chunk_nonempty c l i : 0 < block_ratio c -> Z.of_nat i < cdiv (len l) (block_ratio c) ->
  chunk c l i <> [].
Proof.
  intros Hr Hi E. pose proof (cdiv_spec (len l) _ Hr). apply (f_equal len) in E.
  unfold chunk in E. rewrite len_py_slice in E by nia. rewrite len_nil in E. nia.
Qed.

Lemma match_segments_spec c l mm n : forall k acc,
  mapping_wf mm -> get_mapping (-1) mm = None -> 0 < block_ratio c ->
  Z.of_nat (k + n) <= cdiv (len l) (block_ratio c) ->
  exists hits : list (Z * Z),
    match_segments ((fun i => Z.of_nat i * block_ratio c) <$> seq k n) c l mm acc
      = Ok (mkSearch (cached_outer_blocks acc ++ hits.*1)
                     (cached_lengths acc ++ ((fun p => p.2 * ib_size c) <$> hits))) /\
    (forall j o m, hits !! j = Some (o, m) ->
       m = match_len o (chunk c l (k + j)) mm /\ 0 < m) /\
    (length hits <= n)%nat /\
    ((length hits < n)%nat -> forall o, match_len o (chunk c l (k + length hits)) mm = 0).
Proof.
  induction n as [|n IH]; intros k acc Hwf Hneg Hr Hk.
  { exists []. cbn. rewrite !app_nil_r. split; [by destruct acc|]. split; [done|]. split; lia. }
  cbn [seq]. rewrite fmap_cons. cbn [match_segments]. rewrite chunk_start.
  fold (chunk c l k).
  destruct (longest_match_cases (chunk c l k) mm Hwf) as [(o & -> & Hpos & _)|[-> Hno]].
  { apply chunk_nonempty; [done|lia]. }
  - cbn [mbind res_bind]. destruct (Z.eqb_spec o (-1)) as [->|].
    { exfalso. unfold match_len in Hpos. rewrite get_inner_unmapped in Hpos by done. cbn in Hpos. done. }
    destruct (IH (S k) (mkSearch (cached_outer_blocks acc ++ [o])
      (cached_lengths acc ++ [match_len o (chunk c l k) mm * ib_size c]))) as (hits & -> & H1 & H2 & H3);
      [done|done|done|lia|].
    exists ((o, match_len o (chunk c l k) mm) :: hits). cbn. rewrite <- !app_assoc. split; [done|].
    split; [|split; [lia|]].
    + intros [|j] o' m; cbn; [intros [= <- <-]; by rewrite Nat.add_0_r|].
      intros Hj. replace (k + S j)%nat with (S k + j)%nat by lia. by apply H1.
    + intros Hl o'. replace (k + S (length hits))%nat with (S k + length hits)%nat by lia.
      apply H3. lia.
  - cbn [mbind res_bind]. rewrite Z.eqb_refl. exists []. cbn. rewrite !app_nil_r.
    split; [by destruct acc|]. split; [done|]. split; [lia|]. intros _ o. by rewrite Nat.add_0_r.
Qed.

(** [hits]: the matched outer blocks with the number of inner blocks each holds. *)
Lemma try_match_spec c l mm : mapping_wf mm -> get_mapping (-1) mm = None -> 0 < block_ratio c ->
  exists hits : list (Z * Z),
    try_match_request c l mm
      = Ok (mkSearch hits.*1 ((fun p => p.2 * ib_size c) <$> hits)) /\
    (forall j o m, hits !! j = Some (o, m) -> m = match_len o (chunk c l j) mm /\ 0 < m) /\
    len hits <= cdiv (len l) (block_ratio c) /\
    (len hits < cdiv (len l) (block_ratio c) ->
       forall o, match_len o (chunk c l (length hits)) mm = 0).
Proof.
  intros Hwf Hneg Hr. unfold try_match_request. destruct (Z.eqb_spec (block_ratio c) 0) as [|_]; [lia|].
  pose proof (cdiv_spec (len l) _ Hr). pose proof (len_nonneg l).
  assert (0 <= cdiv (len l) (block_ratio c)) as Hc by nia.
  set (n := Z.to_nat (cdiv (len l) (block_ratio c))).
  destruct (match_segments_spec c l mm n 0 (mkSearch [] []) Hwf Hneg Hr) as (hits & E & H1 & H2 & H3);
    [lia|].
  assert (len hits = Z.of_nat (length hits)) as El by done.
  exists hits. rewrite El. split; [|split; [exact H1|split; [lia|intros Hl; apply H3; lia]]].
  etrans; [|exact E]. f_equal. unfold py_range, seqZ. rewrite <- list_fmap_compose. apply list_fmap_ext.
  intros i x _. cbn. lia.
Qed.

Lemma no_negative_block s pending orphans : pm_inv pending orphans s ->
  get_mapping (-1) (mapping_manager s) = None.
Proof.
  intros I. destruct (mapping_at (-1) s) as [m|] eqn:E; [|done].
  destruct (proj1 (inv_mapped _ _ _ I (-1))) as [Ha _]; [by eexists|].
  assert (0 <= -1 < num_ob (config s)) by (apply (inv_range _ _ _ I); by right). lia.
Qed.

Lemma set_policy_inv p' pending orphans s : pm_inv pending orphans s ->
  tracks p' (dom (allocated_blocks (allocator s)) ∖ list_to_set pending) ->
  pm_inv pending orphans (set_policy p' s).
Proof. intros I Ht. split; try apply I. exact Ht. Qed.

Lemma match_len_mapped o seg mm : 0 < match_len o seg mm -> is_Some (get_mapping o mm).
Proof.
  unfold match_len, get_inner_blocks_for_outer. destruct (get_mapping o mm); [by eexists|done].
Qed.

(** A matched block and its segment share an inner block. *)
Lemma match_len_shares o seg mm : 0 < match_len o seg mm ->
  exists i, i ∈ seg /\ i ∈ get_inner_blocks_for_outer o mm.
Proof.
  unfold match_len. destruct (common_prefix_spec (get_inner_blocks_for_outer o mm) seg)
    as ([k1 E1] & [k2 E2] & _).
  destruct (get_common_prefix _ _) as [|i l]; [done|]. intros _. exists i.
  rewrite E1, E2. set_solver.
Qed.

Lemma get_matched_ok r l s os : pm_inv [] [] s -> requests s !! r = Some os ->
  (forall i, i ∈ l -> i ∉ request_inner r s) ->
  exists hits p', get_matched_outer_blocks r l s
      = Ok (hits.*1, (fun p => p.2 * ib_size (config s)) <$> hits, set_policy p' s) /\
    pm_inv [] [] (set_policy p' s) /\
    (forall j o m, hits !! j = Some (o, m) ->
       m = match_len o (chunk (config s) l j) (mapping_manager s) /\ 0 < m).
Proof.
  intros I Hos Hfresh. pose proof (block_ratio_pos _ _ _ I) as Hratio.
  destruct (try_match_spec (config s) l (mapping_manager s)) as (hits & E & H1 & _);
    [apply (inv_mapping _ _ _ I)|by eapply no_negative_block|done|].
  assert (forall o, o ∈ hits.*1 -> exists j, 0 < match_len o (chunk (config s) l j) (mapping_manager s))
    as Hh.
  { intros o ([o' m] & -> & [j Hj]%list_elem_of_lookup)%list_elem_of_fmap.
    exists j. cbn [fst]. by destruct (H1 j o' m Hj) as [-> ?]. }
  unfold get_matched_outer_blocks, get_block_ids, get_request_blocks, is_request_registered.
  unfold requests in Hos. rewrite Hos, bool_decide_true by (by eexists).
  cbn [of_option mbind res_bind]. rewrite E. cbn [mbind res_bind cached_outer_blocks cached_lengths].
  rewrite bool_decide_true.
  2:{ apply Forall_forall. intros o Ho Hin. destruct (Hh o Ho) as [j Hj].
      apply match_len_shares in Hj as (i & Hi & Him). apply (Hfresh i); [by eapply chunk_sub|].
      unfold get_inner_blocks_for_outer in Him. destruct (get_mapping o _) as [m|] eqn:Em;
        [|by apply not_elem_of_nil in Him].
      eapply elem_of_request_inner; [|exact Em|done]. unfold requests. by rewrite Hos. }
  cbn [require mbind res_bind]. unfold has_cache_hit. cbn [cached_outer_blocks].
  assert (exists p', (if 0 <? len hits.*1 then touch_hits hits.*1 (eviction_policy s)
                      else Ok (eviction_policy s)) = Ok p' /\
    tracks p' (dom (allocated_blocks (allocator s)) ∖ list_to_set [])) as (p' & -> & Ht).
  { destruct (0 <? len hits.*1); [|eexists; split; [done|apply (inv_tracks _ _ _ I)]].
    apply tracks_touch; [apply (inv_tracks _ _ _ I)|]. intros o Ho. destruct (Hh o Ho) as [j Hj].
    apply match_len_mapped in Hj. apply (inv_mapped _ _ _ I) in Hj as [Ha _].
    rewrite list_to_set_nil, difference_empty_L. by apply elem_of_dom. }
  exists hits, p'. cbn [mbind res_bind]. split; [done|]. split; [by apply set_policy_inv|done].
Qed.

(** *** The dummy block *)

Lemma get_dummy_spec s d s' : pm_inv [] [] s -> get_dummy_block s = Ok (d, s') ->
  pm_inv [] [] s' /\ (d ∈ free_ids s' \/ d = num_ob (config s) /\ s' = s) /\
  forall r, requests s' !! r = requests s !! r.
Proof.
  intros I. unfold get_dummy_block. destruct (is_full_block_available s); cbn [negb].
  2:{ intros [= <- <-]. split; [done|]. split; [by right|done]. }
  destruct (can_allocate 1 0 s) as [b s1] eqn:E.
  destruct (can_allocate_spec s 1 0 b s1 I ltac:(lia) ltac:(lia) E) as (I1 & _ & Er & _).
  destruct b; cbn [negb]; [|done]. unfold check_free_blocks, peek_dummy_block, free_ids. intros H.
  destruct (free_blocks (allocator s1)) as [|b0 l] eqn:Ef;
    [by destruct (1 <=? get_free_count (allocator s1))|]. res_inv.
  split; [done|]. split; [left; rewrite Ef; by left|]. intros r. by rewrite Er.
Qed.

(** Free and inactive blocks suffice when the answer is yes. *)
Lemma can_allocate_enough n tokens s s' : pm_inv [] [] s -> 0 <= n -> can_allocate n tokens s = (true, s') ->
  compute_num_blocks_to_allocate (config s) n tokens
    <= get_free_count (allocator s) + len (inactive_block_ids (mapping_manager s)).
Proof.
  intros I Hn E. pose proof (len_nonneg (inactive_block_ids (mapping_manager s))) as Hnn.
  destruct (Z.le_gt_cases (compute_num_blocks_to_allocate (config s) n tokens) (get_free_count (allocator s)))
    as [Hle|Hgt]; [lia|].
  unfold can_allocate in E. rewrite (proj2 (Z.leb_gt _ _)) in E by lia.
  destruct (select_sound (eviction_policy s) _ (mapping_manager s)
    (compute_num_blocks_to_allocate (config s) n tokens - get_free_count (allocator s))
    (inv_tracks _ _ _ I) (NoDup_inactive _ (inv_mapping _ _ _ I)) ltac:(lia)) as (Hc & Hnd & Hin).
  destruct (Z.leb_spec (compute_num_blocks_to_allocate (config s) n tokens
    - get_free_count (allocator s)) (len (select_blocks_for_eviction (mapping_manager s)
      (compute_num_blocks_to_allocate (config s) n tokens - get_free_count (allocator s))
      (eviction_policy s)))); [|done].
  pose proof (submseteq_length _ _ (NoDup_submseteq _ _ Hnd Hin)). unfold len in *. lia.
Qed.

(** ** Every sequence of operations *)

Inductive pm_step : RBLNPrefixKVCacheManager P -> RBLNPrefixKVCacheManager P -> Prop :=
  | step_can_allocate n tokens b s s' : 0 <= n -> 0 <= tokens ->
      can_allocate n tokens s = (b, s') -> pm_step s s'
  | step_allocate_blocks r tokens inner s s' : phase_ok r tokens inner s ->
      allocate_blocks r tokens inner s = Ok s' -> pm_step s s'
  | step_free_request r preemption s s' : free_request r preemption s = Ok s' -> pm_step s s'
  | step_get_matched r l obs lens s s' : (forall i, i ∈ l -> i ∉ request_inner r s) ->
      get_matched_outer_blocks r l s = Ok (obs, lens, s') -> pm_step s s'
  | step_get_dummy d s s' : get_dummy_block s = Ok (d, s') -> pm_step s s'.

Lemma pm_step_inv s s' : pm_inv [] [] s -> pm_step s s' -> pm_inv [] [] s'.
Proof.
  intros I Hs. destruct Hs as [n t b s s' Hn Ht E|r t inner s s' Hp E|r pr s s' E
    |r l obs lens s s' Hf E|d s s' E].
  - by destruct (can_allocate_spec s n t b s' I Hn Ht E).
  - destruct (Z.le_gt_cases (required s t inner) (get_free_count (allocator s))) as [Hr|Hr].
    + destruct (allocate_blocks_ok r t inner s I Hp Hr) as (s1 & E1 & I1 & _). by ok_eq.
    + exfalso. unfold allocate_blocks, check_free_blocks in E. destruct Hp as (Hne & _).
      destruct (Z.eqb_spec (len inner) 0) as [H0|_].
      { destruct inner; [done|]. rewrite len_cons in H0. pose proof (len_nonneg inner). lia. }
      fold (required s t inner) in E. by rewrite (proj2 (Z.leb_gt _ _)) in E by done.
  - destruct (free_request_ok r pr s I) as (s1 & E1 & I1 & _). by ok_eq.
  - destruct (requests s !! r) as [os|] eqn:Eos.
    + destruct (get_matched_ok r l s os I Eos Hf) as (hits & p' & E1 & I1 & _). by ok_eq.
    + exfalso. unfold get_matched_outer_blocks, get_block_ids, get_request_blocks,
        is_request_registered in E. unfold requests in Eos.
      by rewrite Eos, bool_decide_false in E by (by intros []).
  - by destruct (get_dummy_spec s d s' I E).
Qed.

Lemma reachable_inv s s' : pm_inv [] [] s -> rtc pm_step s s' -> pm_inv [] [] s'.
Proof. intros I Hr. induction Hr; [done|]. eauto using pm_step_inv. Qed.

(** ** Properties *)

(** C5: after any sequence of the manager's operations every outer block id of the pool is
    either free or mapped, never both and never twice; a request's blocks are distinct,
    active, and belong to no other request; and an inner block is held by the one outer
    block that lists it. *)
Theorem prefix_cache_accounting policy ob ib mml mns nib s0 s :
  tracks policy ∅ -> 0 < ib -> 0 < ob -> 0 <= nib ->
  new_prefix_manager policy ob ib mml mns nib = Ok s0 -> rtc pm_step s0 s ->
  NoDup (free_ids s) /\
  (forall o, (o ∈ free_ids s \/ is_Some (mapping_at o s)) <-> 0 <= o < num_ob (config s)) /\
  (forall o, o ∈ free_ids s -> mapping_at o s = None) /\
  (forall r os, requests s !! r = Some os -> NoDup os /\
     forall o, o ∈ os -> exists m, mapping_at o s = Some m /\ is_active m = true /\
       forall r' os', requests s !! r' = Some os' -> o ∈ os' -> r' = r) /\
  (forall o i, i ∈ get_inner_blocks_for_outer o (mapping_manager s)
     <-> get_outer_block_for_inner i (mapping_manager s) = Some o).
Proof.
  intros Htr Hib Hob Hn E0 Hr.
  assert (pm_inv [] [] s) as I.
  { apply (reachable_inv s0); [|done]. by apply (new_manager_inv policy ob ib mml mns nib). }
  split; [apply I|]. split.
  { intros o. rewrite <- (inv_range _ _ _ I o), (inv_mapped _ _ _ I o).
    pose proof (not_elem_of_nil o). naive_solver. }
  split; [intros o; apply (free_not_mapped s [] [] o I)|]. split; [|apply (inv_mapping _ _ _ I)].
  intros r os Hos. destruct (inv_owned _ _ _ I r os Hos) as (_ & Hnd & Ho). split; [done|].
  intros o Hin. destruct (Ho o Hin) as (m & Hm & Ha & Hreq). exists m. split; [done|].
  split; [done|]. intros r' os' Hos' Hin'. destruct (inv_owned _ _ _ I r' os' Hos') as (_ & _ & Ho').
  destruct (Ho' o Hin') as (m' & Hm' & _ & Hreq'). congruence.
Qed.

(** C11: when [can_allocate] answers true, the allocation that follows succeeds: no
    assertion and no empty free list.  The request's inner blocks are extended by exactly
    the new ones, in order; other requests keep their blocks. *)
Theorem admission_is_sound r tokens inner s s1 :
  pm_inv [] [] s -> 0 <= tokens -> phase_ok r tokens inner s ->
  can_allocate (len inner) tokens s = (true, s1) ->
  exists s2, allocate_blocks r tokens inner s1 = Ok s2 /\ pm_inv [] [] s2 /\
    request_inner r s2 = request_inner r s ++ inner /\
    default [] (requests s2 !! r) = default [] (requests s !! r) ++
      take (Z.to_nat (required s tokens inner)) (free_ids s1) /\
    forall r', r' <> r -> requests s2 !! r' = requests s !! r'.
Proof.
  intros I Ht Hp E.
  destruct (can_allocate_spec s (len inner) tokens true s1 I (len_nonneg _) Ht E)
    as (I1 & Ec & Er & Hk & _ & Hreq & _).
  assert (forall r, request_inner r s1 = request_inner r s) as Hri.
  { intros r'. apply request_inner_ext; [by rewrite Er|]. intros o Ho.
    destruct (requests s !! r') as [os|] eqn:Eos; [|by apply not_elem_of_nil in Ho].
    destruct (inv_owned _ _ _ I r' os Eos) as (_ & _ & H3).
    destruct (H3 o Ho) as (m & Hm & Ha & _). rewrite Hm. by apply Hk. }
  destruct (allocate_blocks_ok r tokens inner s1 I1) as (s2 & E2 & I2 & _ & Eids & Eoth & Ein).
  - unfold phase_ok. by rewrite Er, Hri.
  - unfold required. rewrite Ec. by apply Hreq.
  - exists s2. split; [done|]. split; [done|]. rewrite Ein, Hri. split; [done|].
    rewrite Eids, Er. unfold required. rewrite Ec. split; [done|]. intros r' Hr'.
    by rewrite Eoth, Er by done.
Qed.

(** [can_allocate] evicts inactive blocks only, and only when that suffices: active
    mappings survive unchanged, no mapping is altered, a true answer leaves enough free
    blocks, and a false answer means that free and inactive blocks together are too few,
    and changes nothing. *)
Theorem eviction_is_safe n tokens b s s' :
  pm_inv [] [] s -> 0 <= n -> 0 <= tokens -> can_allocate n tokens s = (b, s') ->
  (forall o m, mapping_at o s = Some m -> is_active m = true -> mapping_at o s' = Some m) /\
  (forall o, is_Some (mapping_at o s') -> mapping_at o s' = mapping_at o s) /\
  (b = true -> compute_num_blocks_to_allocate (config s) n tokens
                 <= get_free_count (allocator s')) /\
  (b = false <-> get_free_count (allocator s) + len (inactive_block_ids (mapping_manager s))
                   < compute_num_blocks_to_allocate (config s) n tokens) /\
  (b = false -> s' = s).
Proof.
  intros I Hn Ht E. destruct (can_allocate_spec s n tokens b s' I Hn Ht E)
    as (I' & Ec & Er & H1 & H2 & H3 & H4).
  split; [done|]. split; [done|]. split; [done|]. split; [|intros ->; by apply H4].
  split; [intros ->; by apply H4|]. intros Hlt. destruct b; [exfalso|done].
  pose proof (can_allocate_enough n tokens s s' I Hn E). lia.
Qed.

(** Releasing a request never trips the assertion.  A finished request's blocks stay
    mapped, inactive, as cache; a preempted one's blocks all return to the free list; no
    other block changes. *)
Theorem free_request_correct r preemption s :
  pm_inv [] [] s ->
  exists s', free_request r preemption s = Ok s' /\ pm_inv [] [] s' /\
    requests s' = delete r (requests s) /\
    free_ids s' = free_ids s ++ (if preemption then default [] (requests s !! r) else []) /\
    forall o, mapping_at o s' =
      if decide (o ∈ default [] (requests s !! r))
      then (if preemption then None else deactivate <$> mapping_at o s)
      else mapping_at o s.
Proof.
  intros I. destruct (free_request_ok r preemption s I) as (s' & ? & ? & _ & ? & ? & ?).
  by exists s'.
Qed.

(** *** Where the cached tokens are *)

Lemma match_len_take o seg mm : py_take (match_len o seg mm) (get_inner_blocks_for_outer o mm)
  = py_take (match_len o seg mm) seg.
Proof.
  destruct (common_prefix_spec (get_inner_blocks_for_outer o mm) seg) as ([k1 H2] & [k2 H3] & _).
  unfold match_len, py_take, len. rewrite Nat2Z.id. set (c := get_common_prefix _ _) in *.
  rewrite H2 at 1. rewrite H3. by rewrite !take_app_length.
Qed.

Lemma match_len_le o seg mm : match_len o seg mm <= len seg.
Proof.
  destruct (common_prefix_spec (get_inner_blocks_for_outer o mm) seg) as (_ & H3 & _).
  apply prefix_length in H3. unfold match_len, len. lia.
Qed.

Lemma lookup_py_take {A} n (l : list A) (k : nat) : Z.of_nat k < n -> py_take n l !! k = l !! k.
Proof. intros. unfold py_take. apply lookup_take_lt. lia. Qed.

Lemma sum_full (c : Z) (hits : list (Z * Z)) r :
  (forall j o m, (S j < length hits)%nat -> hits !! j = Some (o, m) -> m = r) ->
  forall hits0 o m, hits = hits0 ++ [(o, m)] ->
  sumZ ((fun p => p.2 * c) <$> hits) = (r * len hits0 + m) * c.
Proof.
  intros Hfull hits0 o m ->. rewrite fmap_app. unfold sumZ. rewrite foldr_app. cbn.
  assert (forall p, p ∈ hits0 -> p.2 = r) as Hall.
  { intros [o' m'] [j Hj]%list_elem_of_lookup. apply (Hfull j o' m').
    - rewrite length_app. cbn. apply lookup_lt_Some in Hj. lia.
    - rewrite lookup_app_l by (by eapply lookup_lt_Some). done. }
  clear Hfull. induction hits0 as [|p hits0 IH]; cbn [fmap list_fmap foldr].
  - unfold len. cbn. lia.
  - rewrite IH by (intros; apply Hall; by right). rewrite (Hall p) by (by left).
    rewrite len_cons. lia.
Qed.

(** The cached inner block number [k] sits where the copy expects it: in slot
    [k mod ratio] of the [k // ratio]-th matched outer block. *)
Definition in_place (s : RBLNPrefixKVCacheManager P) (l obs : list Z) (k : Z) : Prop :=
  exists o i, obs !! Z.to_nat (k / block_ratio (config s)) = Some o /\ l !! Z.to_nat k = Some i /\
    get_inner_blocks_for_outer o (mapping_manager s) !! Z.to_nat (k mod block_ratio (config s)) = Some i.

Lemma hit_in_place s l hits k j o m :
  0 < block_ratio (config s) -> 0 <= k -> Z.of_nat j = k / block_ratio (config s) ->
  hits !! j = Some (o, m) -> m = match_len o (chunk (config s) l j) (mapping_manager s) ->
  k mod block_ratio (config s) < m -> in_place s l hits.*1 k.
Proof.
  intros Hr Hk Hj Ho Em Hm. set (ratio := block_ratio (config s)) in *.
  pose proof (Z.mod_pos_bound k ratio Hr). pose proof (Z.div_mod k ratio ltac:(lia)).
  set (a := Z.to_nat (k mod ratio)).
  assert (chunk (config s) l j !! a = l !! Z.to_nat k) as Ec.
  { pose proof (match_len_le o (chunk (config s) l j) (mapping_manager s)) as Hle.
    rewrite <- Em in Hle. unfold chunk in Hle |- *. fold ratio in Hle |- *.
    replace ((Z.of_nat j + 1) * ratio) with (Z.of_nat j * ratio + ratio) in * by lia.
    assert (0 <= Z.of_nat j * ratio) by nia.
    assert (k = Z.of_nat j * ratio + k mod ratio) by (rewrite Hj; lia).
    set (jr := Z.of_nat j * ratio) in *.
    rewrite lookup_py_slice by lia. unfold py_slice, len in *.
    rewrite length_take, length_drop in Hle. rewrite decide_True by (subst a; lia).
    f_equal. subst a. lia. }
  assert (is_Some (l !! Z.to_nat k)) as [i Hi].
  { rewrite <- Ec. apply lookup_lt_is_Some.
    pose proof (match_len_le o (chunk (config s) l j) (mapping_manager s)) as Hle.
    unfold len in Hle. subst a. lia. }
  exists o, i. fold ratio. split; [|split; [done|]].
  - rewrite <- Hj, Nat2Z.id. rewrite list_lookup_fmap, Ho. done.
  - rewrite <- Hi, <- Ec. fold a. rewrite <- (lookup_py_take m) by (subst a; lia).
    rewrite Em, match_len_take. apply lookup_py_take. subst a. lia.
Qed.

(** Full hits leave no gap: their sum counts inner blocks that all sit in place. *)
Lemma full_hits_in_place s l hits : 0 < block_ratio (config s) ->
  (forall j o m, hits !! j = Some (o, m) ->
     m = match_len o (chunk (config s) l j) (mapping_manager s) /\ 0 < m) ->
  (forall j o m, (S j < length hits)%nat -> hits !! j = Some (o, m) -> m = block_ratio (config s)) ->
  exists total, sumZ ((fun p => p.2 * ib_size (config s)) <$> hits) = total * ib_size (config s) /\
    forall k, 0 <= k < total -> in_place s l hits.*1 k.
Proof.
  intros Hratio H1 Hfull.
  destruct hits as [|h0 t0] using rev_ind; [exists 0; split; [done|lia]|clear IHt0].
  destruct h0 as [o m]. exists (block_ratio (config s) * len t0 + m).
  split; [by apply (sum_full _ _ _ Hfull t0 o m)|]. intros k Hk.
  set (ratio := block_ratio (config s)) in *.
  pose proof (Z.mod_pos_bound k ratio Hratio). pose proof (Z.div_mod k ratio ltac:(lia)).
  assert ((t0 ++ [(o, m)]) !! length t0 = Some (o, m)) as Hlast
    by (by rewrite lookup_app_r, Nat.sub_diag by lia).
  destruct (H1 _ _ _ Hlast) as [Em Hpos].
  assert (m <= ratio) as Hmr.
  { rewrite Em. etrans; [apply match_len_le|]. unfold chunk. fold ratio. unfold py_slice, len.
    rewrite length_take. lia. }
  destruct (decide (k / ratio < len t0)) as [Hlt|Hge].
  + assert (0 <= k / ratio) by (apply Z.div_pos; lia).
    destruct (lookup_lt_is_Some_2 (t0 ++ [(o, m)]) (Z.to_nat (k / ratio))) as [[o' m'] Hj].
    { rewrite length_app. unfold len in Hlt. lia. }
    destruct (H1 _ _ _ Hj) as [Em' _].
    apply (hit_in_place s l _ k (Z.to_nat (k / ratio)) o' m'); try done; [lia|by rewrite Z2Nat.id|].
    assert (S (Z.to_nat (k / ratio)) < length (t0 ++ [(o, m)]))%nat as Hs
      by (rewrite length_app; cbn; unfold len in Hlt; lia).
    fold ratio. rewrite (Hfull _ _ _ Hs Hj). lia.
  + assert (k / ratio = len t0) as Ek by nia.
    apply (hit_in_place s l _ k (length t0) o m); try done; [lia|].
    fold ratio. nia.
Qed.

(** The prefix search succeeds for a registered request.  Every outer block it returns
    starts with the inner blocks of its segment, as many as any outer block holds, and is
    none of the request's own; and when every hit but the last is a full outer block, the
    sum of the lengths counts cached blocks that all sit in place, so the copy of the
    matched blocks covers the prompt up to that sum without a gap. *)
Theorem cache_search_sound r os l s :
  pm_inv [] [] s -> requests s !! r = Some os -> (forall i, i ∈ l -> i ∉ request_inner r s) ->
  exists hits s',
    get_matched_outer_blocks r l s
      = Ok (hits.*1, (fun p => p.2 * ib_size (config s)) <$> hits, s') /\
    mapping_manager s' = mapping_manager s /\ pm_inv [] [] s' /\
    (forall j o m, hits !! j = Some (o, m) -> 0 < m /\ ~ (o ∈ os) /\
       py_take m (get_inner_blocks_for_outer o (mapping_manager s))
         = py_take m (chunk (config s) l j) /\
       forall o', match_len o' (chunk (config s) l j) (mapping_manager s) <= m) /\
    ((forall j o m, (S j < length hits)%nat -> hits !! j = Some (o, m) -> m = block_ratio (config s)) ->
       exists total, sumZ ((fun p => p.2 * ib_size (config s)) <$> hits) = total * ib_size (config s) /\
         forall k, 0 <= k < total -> in_place s l hits.*1 k).
Proof.
  intros I Hos Hfresh. pose proof (block_ratio_pos _ _ _ I) as Hratio.
  destruct (get_matched_ok r l s os I Hos Hfresh) as (hits & p' & E & I' & H1).
  exists hits, (set_policy p' s). split; [done|]. split; [done|]. split; [done|]. split.
  - intros j o m Hj. destruct (H1 j o m Hj) as [Em Hpos]. split; [done|]. split; [|split].
    + intros Ho. assert (exists i, i ∈ l /\ i ∈ request_inner r s) as (i & Hi & Hir).
      { rewrite Em in Hpos. destruct (match_len_shares _ _ _ Hpos) as (i & Hi & Him).
        exists i. split; [by eapply chunk_sub|].
        unfold get_inner_blocks_for_outer in Him. destruct (get_mapping o _) as [mp|] eqn:Emp;
          [|by apply not_elem_of_nil in Him].
        eapply elem_of_request_inner; [by rewrite Hos|exact Emp|done]. }
      by apply (Hfresh i).
    + rewrite Em. apply match_len_take.
    + intros o'. rewrite Em.
      destruct (longest_match_cases (chunk (config s) l j) (mapping_manager s)
        (inv_mapping _ _ _ I)) as [(o1 & _ & Hp1 & Hoth)|[_ Hno]].
      * intros Ec. rewrite Ec in Em. unfold match_len in Em. destruct (get_inner_blocks_for_outer o _);
          cbn in Em; rewrite len_nil in Em; lia.
      * destruct (decide (o = o1)) as [->|Hne]; [|rewrite Hoth in Em by done; lia].
        destruct (decide (o' = o1)) as [->|]; [lia|]. rewrite Hoth by done. lia.
      * rewrite Hno in Em. lia.
  - intros Hfull. by apply full_hits_in_place.
Qed.

(** The dummy block for padded rows is never one a request owns: it is the extra block
    behind the pool when the cache is smaller than full, and a free block otherwise; the
    requests' blocks are untouched by looking for it. *)
Theorem dummy_block_is_unowned s d s' :
  pm_inv [] [] s -> get_dummy_block s = Ok (d, s') ->
  pm_inv [] [] s' /\ mapping_at d s' = None /\
  (is_full_block_available s = false -> d = num_ob (config s) /\ s' = s) /\
  forall r os, requests s !! r = Some os -> requests s' !! r = Some os /\ d ∉ os.
Proof.
  intros I E. destruct (get_dummy_spec s d s' I E) as (I' & Hd & Er).
  assert (mapping_at d s' = None) as Hm.
  { destruct Hd as [Hf|[-> ->]]; [exact (free_not_mapped s' [] [] d I' Hf)|].
    destruct (mapping_at (num_ob (config s)) s) as [m|] eqn:Em; [|done].
    destruct (proj1 (inv_mapped _ _ _ I (num_ob (config s)))) as [Ha _]; [by eexists|].
    assert (0 <= num_ob (config s) < num_ob (config s)); [|lia].
    apply (inv_range _ _ _ I). by right. }
  split; [done|]. split; [done|]. split.
  { intros Hf. unfold get_dummy_block in E. rewrite Hf in E. by injection E as <- <-. }
  intros r os Hos. rewrite Er. split; [done|]. intros Hin. rewrite <- Er in Hos.
  destruct (inv_owned _ _ _ I' r os Hos) as (_ & _ & H3). destruct (H3 d Hin) as (m & ? & _).
  congruence.
Qed.

(** A common prefix ends where the lists differ. *)
Lemma common_prefix_stops a b i :
  a !! length (get_common_prefix a b) = Some i -> b !! length (get_common_prefix a b) <> Some i.
Proof.
  revert b. induction a as [|x a IH]; intros [|y b]; cbn; try done.
  destruct (Z.eqb_spec x y) as [->|Hne]; cbn; [apply IH|congruence].
Qed.

Lemma match_len_stops o seg mm i :
  get_inner_blocks_for_outer o mm !! Z.to_nat (match_len o seg mm) = Some i ->
  seg !! Z.to_nat (match_len o seg mm) <> Some i.
Proof. unfold match_len, len. rewrite Nat2Z.id. apply common_prefix_stops. Qed.

Lemma sum_before_gap (c r : Z) hits : 0 < c -> forall j o m,
  (forall o m, (o, m) ∈ hits -> 0 < m) ->
  (forall i o m, (i < j)%nat -> hits !! i = Some (o, m) -> m = r) ->
  hits !! j = Some (o, m) -> (S j < length hits)%nat ->
  (r * Z.of_nat j + m) * c < sumZ ((fun p : Z * Z => p.2 * c) <$> hits).
Proof.
  intros Hc. assert (forall h : list (Z * Z), (forall o m, (o, m) ∈ h -> 0 < m) ->
    0 <= sumZ ((fun p => p.2 * c) <$> h)) as Hnn.
  { induction h as [|[o' m'] h IH]; intros Hp; [done|]. unfold sumZ in *. cbn.
    pose proof (Hp o' m' ltac:(by left)). specialize (IH ltac:(intros; apply (Hp o); by right)). nia. }
  induction hits as [|[o0 m0] hits IH]; intros j o m Hpos Hfull Hj Hl; [done|].
  unfold sumZ in *. cbn [fmap list_fmap foldr snd]. cbn in Hl. destruct j as [|j].
  - injection Hj as <- <-. destruct hits as [|[o1 m1] hits]; [cbn in Hl; lia|].
    pose proof (Hpos o1 m1 ltac:(right; by left)).
    assert (forall o m, (o, m) ∈ hits -> 0 < m) as Hpos'.
    { intros o m Hin. apply (Hpos o). by do 2 right. }
    specialize (Hnn hits Hpos'). cbn [fmap list_fmap foldr snd]. nia.
  - rewrite (Hfull 0%nat o0 m0) by (done || lia).
    specialize (IH j o m). rewrite Nat2Z.inj_succ. enough ((r * Z.of_nat j + m) * c
      < foldr Z.add 0 ((fun p : Z * Z => p.2 * c) <$> hits)) by nia.
    apply IH; [intros o' m' Hin; apply (Hpos o'); by right| |done|lia].
    intros i o' m' Hi Hlk. apply (Hfull (S i) o' m'); [lia|done].
Qed.

(** The converse of the last clause of the cache search: the search goes on after a hit
    that does not fill its outer block, and the sum of the lengths then counts a cached
    inner block that is not where the copy puts it, the first one behind the partial hit.
    The caller takes the sum for the length of the cached prompt prefix. *)
Theorem partial_hit_leaves_a_gap r os l s obs lens s' j n :
  pm_inv [] [] s -> requests s !! r = Some os -> (forall i, i ∈ l -> i ∉ request_inner r s) ->
  get_matched_outer_blocks r l s = Ok (obs, lens, s') ->
  (forall i, (i < j)%nat -> lens !! i = Some (block_ratio (config s) * ib_size (config s))) ->
  lens !! j = Some (n * ib_size (config s)) -> n < block_ratio (config s) ->
  (S j < length lens)%nat ->
  (block_ratio (config s) * Z.of_nat j + n) * ib_size (config s) < sumZ lens /\
  ~ in_place s l obs (block_ratio (config s) * Z.of_nat j + n).
Proof.
  intros I Hos Hfresh E Hfull Hj Hn Hl. pose proof (block_ratio_pos _ _ _ I) as Hratio.
  pose proof (inv_cfg _ _ _ I) as (Hib & _).
  destruct (get_matched_ok r l s os I Hos Hfresh) as (hits & p' & E' & _ & H1).
  rewrite E in E'. injection E' as -> -> ->. set (ratio := block_ratio (config s)) in *.
  rewrite list_lookup_fmap in Hj. destruct (hits !! j) as [[o m]|] eqn:Ho; [|done].
  cbn in Hj. injection Hj as Em. assert (m = n) as -> by nia. clear Em.
  destruct (H1 j o n Ho) as [Em Hpos]. split.
  - apply (sum_before_gap _ _ _ Hib j o n); [| |done|by rewrite length_fmap in Hl].
    + intros o' m' [i Hi]%list_elem_of_lookup. by destruct (H1 i o' m' Hi) as [_ ?].
    + intros i o' m' Hi Hlk. specialize (Hfull i Hi). rewrite list_lookup_fmap, Hlk in Hfull.
      cbn in Hfull. injection Hfull as Ef. nia.
  - intros (o' & i & Ho' & Hi & Hm). fold ratio in Ho', Hm.
    rewrite (Z.mul_comm ratio), Z.div_add_l, Z.div_small, Z.add_0_r, Nat2Z.id in Ho' by lia.
    rewrite list_lookup_fmap, Ho in Ho'. injection Ho' as <-.
    rewrite Z.add_comm, Z.mul_comm, Z_mod_plus_full, Z.mod_small in Hm by lia.
    rewrite Em in Hm. apply match_len_stops in Hm. apply Hm. rewrite <- Em.
    unfold chunk. fold ratio. rewrite lookup_py_slice by nia.
    assert (Z.to_nat (ratio * Z.of_nat j + n) < length l)%nat as Hlt by (by eapply lookup_lt_Some).
    rewrite decide_True by (unfold len; nia). rewrite <- Hi. f_equal. nia.
Qed.
End spec.

(** ** Witnesses

    A cache of 24 inner blocks of 4 tokens in outer blocks of 8, with the FIFO policy the
    code constructs. *)
Abbreviation fifo_tracks := (fun p : FIFOEvictionPolicy => order_tracks (allocation_order p)).

Definition ex0 : RBLNPrefixKVCacheManager FIFOEvictionPolicy :=
  mkPM (mkBlockConfig 8 4 64 4 12) (new_allocator 12) new_mapping_manager 8 (mkFIFO []).

Lemma ex_empty_tracks : fifo_tracks (mkFIFO []) ∅.
Proof. split; cbn; [constructor|]. intros b. set_solver. Qed.

Lemma ex0_new : new_prefix_manager (mkFIFO []) 8 4 64 4 24 = Ok ex0.
Proof. reflexivity. Qed.

Lemma ex0_inv : pm_inv (tracks := fifo_tracks) [] [] ex0.
Proof.
  apply (new_manager_inv (mkFIFO []) 8 4 64 4 24); [apply ex_empty_tracks|lia..|apply ex0_new].
Qed.

Definition ok_or {A} (d : A) (r : res A) : A := match r with Ok a => a | Raise _ => d end.

(** A first request holding the inner blocks 1, 2 and 3. *)
Definition ex1 := ok_or ex0 (allocate_blocks "a" 0 [1; 2; 3] ex0).

Lemma ex1_phase : phase_ok "a" 0 [1; 2; 3] ex0.
Proof.
  split; [done|]. split; [apply (bool_decide_unpack _); vm_compute; exact I|].
  split; [|reflexivity]. intros i _. vm_compute. by intros ?%not_elem_of_nil.
Qed.

Lemma ex1_step : pm_step ex0 ex1.
Proof. apply (step_allocate_blocks "a" 0 [1; 2; 3]); [apply ex1_phase|reflexivity]. Qed.

Lemma ex1_inv : pm_inv (tracks := fifo_tracks) [] [] ex1.
Proof. eapply pm_step_inv; [apply ex0_inv|apply ex1_step]. Qed.

Lemma prefix_cache_accounting_witness :
  requests ex1 !! "a"%string = Some [0; 1] /\ NoDup (free_ids ex1) /\
  get_outer_block_for_inner 3 (mapping_manager ex1) = Some 1.
Proof.
  assert (H := prefix_cache_accounting (tracks := fifo_tracks) (mkFIFO []) 8 4 64 4 24 ex0 ex1
    ex_empty_tracks ltac:(lia) ltac:(lia) ltac:(lia) ex0_new (rtc_once _ _ ex1_step)).
  split; [reflexivity|]. split; [apply H|].
  apply (proj2 (proj2 (proj2 (proj2 H))) 1 3). apply (bool_decide_unpack _). vm_compute. exact I.
Defined.

Lemma admission_is_sound_witness : exists s2,
  allocate_blocks "a" 0 [1; 2; 3] ex0 = Ok s2 /\ request_inner "a" s2 = [1; 2; 3].
Proof.
  destruct (admission_is_sound (tracks := fifo_tracks) "a" 0 [1; 2; 3] ex0 ex0 ex0_inv ltac:(lia)
    ex1_phase ltac:(reflexivity)) as (s2 & E & _ & Ei & _).
  exists s2. split; [exact E|]. rewrite Ei. reflexivity.
Defined.

Lemma eviction_is_safe_witness :
  can_allocate 1 0 ex1 = (true, ex1) /\ 1 <= get_free_count (allocator ex1).
Proof.
  split; [reflexivity|].
  apply (eviction_is_safe (tracks := fifo_tracks) 1 0 true ex1 ex1 ex1_inv ltac:(lia) ltac:(lia)
    ltac:(reflexivity)). reflexivity.
Defined.

Lemma free_request_correct_witness : exists s',
  free_request "a" true ex1 = Ok s' /\ free_ids s' = [2; 3; 4; 5; 6; 7; 8; 9; 10; 11; 0; 1].
Proof.
  destruct (free_request_correct (tracks := fifo_tracks) "a" true ex1 ex1_inv)
    as (s' & E & _ & _ & Ef & _).
  exists s'. split; [exact E|]. rewrite Ef. vm_compute. reflexivity.
Defined.

Lemma dummy_block_is_unowned_witness :
  get_dummy_block ex1 = Ok (12, ex1) /\ mapping_at 12 ex1 = None.
Proof.
  split; [reflexivity|].
  apply (dummy_block_is_unowned (tracks := fifo_tracks) ex1 12 ex1 ex1_inv). reflexivity.
Defined.

(** A second request with the same prompt, whose blocks 4, 5 and 6 are already allocated,
    finds the first one's. *)
Definition ex2 := ok_or ex1 (allocate_blocks "b" 0 [4; 5; 6] ex1).

Lemma ex2_step : pm_step ex1 ex2.
Proof.
  apply (step_allocate_blocks "b" 0 [4; 5; 6]); [|reflexivity].
  split; [done|]. split; [apply (bool_decide_unpack _); vm_compute; exact I|].
  split; [|reflexivity]. intros i _. vm_compute. by intros ?%not_elem_of_nil.
Qed.

Lemma ex2_inv : pm_inv (tracks := fifo_tracks) [] [] ex2.
Proof. eapply pm_step_inv; [apply ex1_inv|apply ex2_step]. Qed.

Lemma ex2_request : requests ex2 !! "b"%string = Some [2; 3].
Proof. reflexivity. Qed.

Lemma ex2_foreign i : i ∈ [1; 2; 3] -> i ∉ request_inner "b" ex2.
Proof.
  revert i. apply Forall_forall. apply (bool_decide_unpack _). vm_compute. exact I.
Qed.

Lemma cache_search_sound_witness : exists hits s',
  get_matched_outer_blocks "b" [1; 2; 3] ex2 = Ok (hits.*1, (fun p => p.2 * 4) <$> hits, s') /\
  (hits.*1, (fun p => p.2 * 4) <$> hits) = ([0; 1], [8; 4]).
Proof.
  destruct (cache_search_sound (tracks := fifo_tracks) "b" [2; 3] [1; 2; 3] ex2 ex2_inv ex2_request
    ex2_foreign) as (hits & s' & E & _).
  exists hits, s'. split; [exact E|].
  assert (exists s2, get_matched_outer_blocks "b" [1; 2; 3] ex2 = Ok ([0; 1], [8; 4], s2))
    as [s2 E2] by (eexists; vm_compute; reflexivity).
  rewrite E2 in E. injection E as E3 E4 _. rewrite <- E3. f_equal. symmetry. exact E4.
Defined.

(** Request "a" runs with the inner blocks 1..6 of a prompt and a finished one, "b", left
    7..12 with the same content; "x" then reuses 12, 11 and 10.  For a third request with
    that prompt the inner cache answers 7, 8, 9 (of "b") and 4, 5, 6 (of "a"), and the
    lengths [8; 4; 8] add up to 20 tokens, but the block copied second holds only block 9. *)
Definition gap1 := ok_or ex0 (allocate_blocks "a" 0 [1; 2; 3; 4; 5; 6] ex0).
Definition gap2 := ok_or ex0 (allocate_blocks "b" 0 [7; 8; 9; 10; 11; 12] gap1).
Definition gap3 := ok_or ex0 (free_request "b" false gap2).
Definition gap4 := ok_or ex0 (allocate_blocks "x" 0 [12; 11; 10] gap3).
Definition gap5 := ok_or ex0 (allocate_blocks "c" 0 [13; 14; 15; 16; 17; 18] gap4).

Lemma prefill_step r inner (s : RBLNPrefixKVCacheManager FIFOEvictionPolicy) s' :
  inner <> [] -> NoDup inner -> requests s !! r = None ->
  allocate_blocks r 0 inner s = Ok s' -> pm_step s s'.
Proof.
  intros Hne Hnd Hr E. apply (step_allocate_blocks r 0 inner); [|done].
  split; [done|]. split; [done|]. rewrite Hr. split; [|done]. intros i _.
  unfold request_inner. rewrite Hr. apply not_elem_of_nil.
Qed.

Lemma gap5_inv : pm_inv (tracks := fifo_tracks) [] [] gap5.
Proof.
  assert (forall l : list Z, bool_decide (NoDup l) = true -> NoDup l) as Hnd
    by (intros; by apply (bool_decide_eq_true_1 (NoDup l))).
  apply (reachable_inv ex0); [apply ex0_inv|].
  apply (rtc_l _ _ gap1); [apply (prefill_step "a" [1; 2; 3; 4; 5; 6]); try done; by apply Hnd|].
  apply (rtc_l _ _ gap2); [apply (prefill_step "b" [7; 8; 9; 10; 11; 12]); try done; by apply Hnd|].
  apply (rtc_l _ _ gap3); [by apply (step_free_request "b" false)|].
  apply (rtc_l _ _ gap4); [apply (prefill_step "x" [12; 11; 10]); try done; by apply Hnd|].
  apply rtc_once, (prefill_step "c" [13; 14; 15; 16; 17; 18]); try done. by apply Hnd.
Qed.

Lemma partial_hit_leaves_a_gap_witness : exists s',
  get_matched_outer_blocks "c" [7; 8; 9; 4; 5; 6] gap5 = Ok ([3; 4; 2], [8; 4; 8], s') /\
  3 * 4 < sumZ [8; 4; 8] /\ ~ in_place gap5 [7; 8; 9; 4; 5; 6] [3; 4; 2] 3.
Proof.
  eexists. split; [vm_compute; reflexivity|].
  refine (partial_hit_leaves_a_gap (tracks := fifo_tracks) "c" [8; 9; 10] [7; 8; 9; 4; 5; 6] gap5
    [3; 4; 2] [8; 4; 8] _ 1 1 gap5_inv _ _ _ _ _ _ _).
  - reflexivity.
  - apply Forall_forall. apply (bool_decide_unpack _). vm_compute. exact I.
  - vm_compute. reflexivity.
  - intros [|i] Hi; [reflexivity|lia].
  - reflexivity.
  - reflexivity.
  - cbn. lia.
Defined.
