(* ===== verification/RblnScheduler.v ===== *)
(** * The scheduler ([src/vllm_rbln/v1/core/rbln_scheduler.py])

    One call of [RBLNScheduler.schedule]: the loop over the running requests with
    preemption, the admission of waiting requests with the eviction of the decode batch
    in favour of a lone prefill, and the finalisation that builds the output.

    [Request] objects are shared: the running list, the queues and the lists of the
    current step all refer to the same objects, which the loops mutate.  The model keeps
    them in one store [reqs], and every list holds request ids.

    The KV cache manager, the connectors, the encoder cache and the base class
    [vllm...Scheduler] are not part of the repository: [Upstream] names the calls that are
    made of them, over an abstract state [E], KV blocks [B] and sub-block matches [M].
    (The repository's own sub-block manager is reached through the same calls.)  Logging,
    metrics and profiler ranges are left out. *)

From S2P Require Import Prelude VllmTypes CoreUtils.

(** ** What is called and not part of the repository *)

Record alloc_args (B : Type) := mkAlloc {
  aa_num_new_tokens : Z;
  aa_num_new_computed_tokens : Z;
  aa_new_computed_blocks : option B;
  aa_num_lookahead_tokens : Z;
  aa_num_external_computed_tokens : Z;
  aa_num_encoder_tokens : Z;
  aa_has_scheduled_reqs : bool;
  aa_full_sequence_must_fit : bool
}.
Arguments mkAlloc {B}.

Class Upstream (E B M : Type) := {
  (** KV cache manager *)
  new_step_starts : E -> E;
  allocate_slots : Request -> alloc_args B -> E -> option B * E;
  get_computed_blocks : Request -> E -> B * Z * Z * E;
  kv_get_blocks : string -> E -> B;
  empty_kv_cache_blocks : B;
  cache_blocks : Request -> Z -> E -> E;
  take_new_block_ids : E -> list Z * E;
  (** [KVCacheBlocks] *)
  blocks_add : B -> B -> B;
  get_block_ids : B -> list (list Z);
  (** sub-block manager *)
  get_computed_blocks_sub_block : Request -> Z -> E -> option M * E;
  match_num_tokens : M -> Z;
  apply_sub_block_match : M -> E -> E;
  release_sub_block_match : M -> E -> E;
  schedule_sub_block_indexing : Request -> E -> E;
  drain_pending_copy_ops : E -> list M * E;
  (** connectors *)
  get_num_new_matched_tokens : Request -> Z -> E -> option Z * bool * E;
  connector_update_state : Request -> B -> Z -> E -> E;
  num_finished_recving : E -> Z;
  (** encoder cache; [ec_update] is [ec_connector.update_state_after_alloc] *)
  try_schedule_encoder_inputs : Request -> Z -> Z -> Z -> Z -> E ->
    option (list Z) * Z * Z * list Z;
  encoder_allocate : Request -> Z -> E -> E;
  encoder_free : Request -> E -> E;
  ec_update : Request -> Z -> E -> E;
  get_num_encoder_embeds : Request -> Z -> Z;
  get_freed_mm_hashes : E -> list string * E;
  (** base scheduler *)
  mamba_block_aligned_split : Request -> Z -> Z -> Z -> Z;
  super_preempt_request : Request -> gmap string Request -> list string -> E ->
    Request * list string * E;
  is_blocked_waiting_status : RequestStatus -> bool;
  try_promote_blocked : Request -> E -> bool * Request * E;
  (** request queues; [select_skipped] tells which queue's head comes first *)
  select_skipped : gmap string Request -> list string -> list string -> bool;
  queue_prepend : gmap string Request -> string -> list string -> list string;
  queue_prepend_all : gmap string Request -> list string -> list string -> list string
}.

(** ** Configuration and state *)

Inductive SchedulingPolicy := FCFS | PRIORITY.
Inductive PauseState := UNPAUSED | PAUSED_NEW | PAUSED_ALL.

#[export] Instance PauseState_eq_dec : EqDecision PauseState.
Proof. solve_decision. Defined.

Record SchedulerConfig := mkSC {
  max_num_scheduled_tokens : Z;
  max_num_running_reqs : Z;
  sc_max_model_len : Z;
  num_spec_tokens : Z;
  num_lookahead_tokens : Z;
  long_prefill_token_threshold : Z;
  enable_chunked_prefill : bool;
  policy : SchedulingPolicy;
  pp_size : Z;
  async_scheduling : bool;
  max_num_encoder_input_tokens : Z;
  use_eagle : bool;
  need_mamba_block_aligned_split : bool;
  is_encoder_decoder : bool;
  max_loras : option Z;
  has_connector : bool;
  has_ec_connector : bool;
  uses_sub_block : bool;
  needs_kv_cache_zeroing : bool;
  defer_block_free : bool
}.

(** [RBLNScheduler.__init__]: [max(self.num_lookahead_tokens, self.num_spec_tokens)]. *)
Definition init_lookahead (num_lookahead_tokens num_spec_tokens : Z) : Z :=
  Z.max num_lookahead_tokens num_spec_tokens.

Section scheduler.
Context {E B M : Type} `{U : Upstream E B M}.
Variable cfg : SchedulerConfig.

Record Scheduler := mkSched {
  reqs : gmap string Request;
  running : list string;
  waiting : list string;
  skipped_waiting : list string;
  pending_runner_block_deltas : gmap string B;
  prev_step_scheduled_req_ids : list string;
  sched_step_seq : Z;
  env : E
}.

(** The local variables of one [schedule] call. *)
Record Step := mkStep {
  scheduled_new_reqs : list string;
  scheduled_resumed_reqs : list string;
  scheduled_running_reqs : list string;
  preempted_reqs : list string;
  req_to_new_blocks : gmap string B;
  num_scheduled_tokens : odict string Z;
  token_budget : Z;
  scheduled_encoder_inputs : gmap string (list Z);
  encoder_compute_budget : Z;
  scheduled_spec_decode_tokens : odict string (list Z);
  decode_budget : DecodeBatchBudget;
  scheduled_loras : gset Z
}.

Definition state : Type := Scheduler * Step.

Definition set_reqs x (s : Scheduler) : Scheduler :=
  mkSched x (running s) (waiting s) (skipped_waiting s) (pending_runner_block_deltas s)
    (prev_step_scheduled_req_ids s) (sched_step_seq s) (env s).
Definition set_running x (s : Scheduler) : Scheduler :=
  mkSched (reqs s) x (waiting s) (skipped_waiting s) (pending_runner_block_deltas s)
    (prev_step_scheduled_req_ids s) (sched_step_seq s) (env s).
Definition set_queues w k (s : Scheduler) : Scheduler :=
  mkSched (reqs s) (running s) w k (pending_runner_block_deltas s)
    (prev_step_scheduled_req_ids s) (sched_step_seq s) (env s).
Definition set_deltas x (s : Scheduler) : Scheduler :=
  mkSched (reqs s) (running s) (waiting s) (skipped_waiting s) x
    (prev_step_scheduled_req_ids s) (sched_step_seq s) (env s).
Definition set_prev x (s : Scheduler) : Scheduler :=
  mkSched (reqs s) (running s) (waiting s) (skipped_waiting s)
    (pending_runner_block_deltas s) x (sched_step_seq s) (env s).
Definition set_seq x (s : Scheduler) : Scheduler :=
  mkSched (reqs s) (running s) (waiting s) (skipped_waiting s)
    (pending_runner_block_deltas s) (prev_step_scheduled_req_ids s) x (env s).
Definition set_env x (s : Scheduler) : Scheduler :=
  mkSched (reqs s) (running s) (waiting s) (skipped_waiting s)
    (pending_runner_block_deltas s) (prev_step_scheduled_req_ids s) (sched_step_seq s) x.

Definition put_req (r : Request) (s : Scheduler) : Scheduler :=
  set_reqs (<[request_id r := r]> (reqs s)) s.
Definition get_req (id : string) (s : Scheduler) : res Request :=
  of_option (reqs s !! id) KeyError.

(** Is the request behind [id] prefilling, as far as the store knows it? *)
Definition prefilling (s : Scheduler) (id : string) : bool :=
  match reqs s !! id with Some r => is_prefill r | None => false end.

(** [lst.remove(x)]. *)
Fixpoint remove_id (x : string) (l : list string) : list string :=
  match l with
  | [] => []
  | y :: l => if decide (x = y) then l else y :: remove_id x l
  end.

(** [max(self.running, key=lambda r: (r.priority, r.arrival_time))]: the first maximum. *)
Definition key_ltb (a b : Request) : bool :=
  (priority a <? priority b) ||
  ((priority a =? priority b) && (arrival_time a <? arrival_time b)).

Fixpoint max_by_key (s : Scheduler) (best : string) (l : list string) : res string :=
  match l with
  | [] => Ok best
  | y :: l =>
      rb ← get_req best s; ry ← get_req y s;
      max_by_key s (if key_ltb rb ry then y else best) l
  end.

Definition lowest_priority (s : Scheduler) : res string :=
  match running s with [] => Raise ValueError | x :: l => max_by_key s x l end.

(** ** Pending block deltas *)

Definition decode_demand (s : Scheduler) : Z :=
  len (filter (fun id => prefilling s id = false) (running s)) + num_finished_recving (env s).

Definition has_blocks (b : B) : bool :=
  existsb (fun group => 0 <? len group) (get_block_ids b).

Definition add_pending_runner_block_delta (id : string) (delta : option B) (s : Scheduler)
    : Scheduler :=
  match delta with
  | None => s
  | Some d =>
      if has_blocks d then
        set_deltas (<[id := match pending_runner_block_deltas s !! id with
                            | Some prev => blocks_add prev d
                            | None => d
                            end]> (pending_runner_block_deltas s)) s
      else s
  end.

Fixpoint drain_pending_runner_block_deltas (ids : list string) (blocks : gmap string B)
    (s : Scheduler) : res (gmap string B * Scheduler) :=
  match ids with
  | [] => Ok (blocks, s)
  | id :: ids =>
      match pending_runner_block_deltas s !! id with
      | None => drain_pending_runner_block_deltas ids blocks s
      | Some pending =>
          b ← of_option (blocks !! id) KeyError;
          drain_pending_runner_block_deltas ids (<[id := blocks_add pending b]> blocks)
            (set_deltas (delete id (pending_runner_block_deltas s)) s)
      end
  end.

(** [_preempt_request]: drop the stale delta, then the base class's preemption, which
    releases the request and puts it back into the waiting queue. *)
Definition preempt_request (r : Request) (s : Scheduler) : Scheduler :=
  let s := set_deltas (delete (request_id r) (pending_runner_block_deltas s)) s in
  let '(r', w, e) := super_preempt_request r (reqs s) (waiting s) (env s) in
  set_env e (set_queues w (skipped_waiting s) (put_req r' s)).

(** ** Step-local setters *)
Definition step_running (ids : list string) (p : Step) : Step :=
  mkStep (scheduled_new_reqs p) (scheduled_resumed_reqs p) ids (preempted_reqs p)
    (req_to_new_blocks p) (num_scheduled_tokens p) (token_budget p)
    (scheduled_encoder_inputs p) (encoder_compute_budget p)
    (scheduled_spec_decode_tokens p) (decode_budget p) (scheduled_loras p).
Definition step_preempted (ids : list string) (p : Step) : Step :=
  mkStep (scheduled_new_reqs p) (scheduled_resumed_reqs p) (scheduled_running_reqs p) ids
    (req_to_new_blocks p) (num_scheduled_tokens p) (token_budget p)
    (scheduled_encoder_inputs p) (encoder_compute_budget p)
    (scheduled_spec_decode_tokens p) (decode_budget p) (scheduled_loras p).
Definition step_admitted (new resumed : list string) (p : Step) : Step :=
  mkStep new resumed (scheduled_running_reqs p) (preempted_reqs p)
    (req_to_new_blocks p) (num_scheduled_tokens p) (token_budget p)
    (scheduled_encoder_inputs p) (encoder_compute_budget p)
    (scheduled_spec_decode_tokens p) (decode_budget p) (scheduled_loras p).
Definition step_tokens (blocks : gmap string B) (nst : odict string Z) (budget : Z)
    (p : Step) : Step :=
  mkStep (scheduled_new_reqs p) (scheduled_resumed_reqs p) (scheduled_running_reqs p)
    (preempted_reqs p) blocks nst budget
    (scheduled_encoder_inputs p) (encoder_compute_budget p)
    (scheduled_spec_decode_tokens p) (decode_budget p) (scheduled_loras p).
Definition step_encoder (enc : gmap string (list Z)) (budget : Z) (p : Step) : Step :=
  mkStep (scheduled_new_reqs p) (scheduled_resumed_reqs p) (scheduled_running_reqs p)
    (preempted_reqs p) (req_to_new_blocks p) (num_scheduled_tokens p) (token_budget p)
    enc budget (scheduled_spec_decode_tokens p) (decode_budget p) (scheduled_loras p).
Definition step_spec (spec : odict string (list Z)) (p : Step) : Step :=
  mkStep (scheduled_new_reqs p) (scheduled_resumed_reqs p) (scheduled_running_reqs p)
    (preempted_reqs p) (req_to_new_blocks p) (num_scheduled_tokens p) (token_budget p)
    (scheduled_encoder_inputs p) (encoder_compute_budget p) spec
    (decode_budget p) (scheduled_loras p).
Definition step_budget (b : DecodeBatchBudget) (p : Step) : Step :=
  mkStep (scheduled_new_reqs p) (scheduled_resumed_reqs p) (scheduled_running_reqs p)
    (preempted_reqs p) (req_to_new_blocks p) (num_scheduled_tokens p) (token_budget p)
    (scheduled_encoder_inputs p) (encoder_compute_budget p)
    (scheduled_spec_decode_tokens p) b (scheduled_loras p).
Definition step_loras (l : gset Z) (p : Step) : Step :=
  mkStep (scheduled_new_reqs p) (scheduled_resumed_reqs p) (scheduled_running_reqs p)
    (preempted_reqs p) (req_to_new_blocks p) (num_scheduled_tokens p) (token_budget p)
    (scheduled_encoder_inputs p) (encoder_compute_budget p)
    (scheduled_spec_decode_tokens p) (decode_budget p) l.

(** ** The running loop *)

(** Encoder inputs to schedule, the new encoder budget, and the inputs to load. *)
Definition encoder_plan : Type := option (list Z) * Z * list Z.

(** How many tokens the running request gets; [None] is [continue]. *)
Definition running_num_new_tokens (r : Request) (p : Step) (e : E)
    : option (Z * encoder_plan) :=
  if (0 <? num_output_placeholders r)
     && (num_prompt_tokens r + max_tokens r
         <=? num_computed_tokens r + 2 - num_output_placeholders r)
  then None
  else
    let n := num_tokens_with_spec r + num_output_placeholders r - num_computed_tokens r in
    if should_defer_spec_step (num_spec_tokens cfg) (spec_token_ids r) n then None
    else
      let threshold := long_prefill_token_threshold cfg in
      let n := if (0 <? threshold) && (threshold <? n) then threshold else n in
      let n := Z.min n (token_budget p) in
      let n := Z.min n (sc_max_model_len cfg - 1 - num_computed_tokens r) in
      let '(inputs, n, budget, external) :=
        if has_encoder_inputs r then
          try_schedule_encoder_inputs r (num_computed_tokens r) n
            (encoder_compute_budget p) (if use_eagle cfg then 1 else 0) e
        else (None, n, encoder_compute_budget p, []) in
      let n := if need_mamba_block_aligned_split cfg
               then mamba_block_aligned_split r n 0 0 else n in
      if n =? 0 then None else Some (n, (inputs, budget, external)).

(** What a preempted request that was already scheduled in this step gives back. *)
Definition unschedule (v : Request) (p : Step) : res Step :=
  let id := request_id v in
  let p := step_running (remove_id id (scheduled_running_reqs p)) p in
  b ← budget_discard (decode_budget p) 1;
  let p := step_budget b p in
  n ← of_option (od_get id (num_scheduled_tokens p)) KeyError;
  _ ← of_option (req_to_new_blocks p !! id) KeyError;
  let p := step_tokens (delete id (req_to_new_blocks p))
             (od_pop id (num_scheduled_tokens p)) (token_budget p + n) p in
  let p := step_spec (od_pop id (scheduled_spec_decode_tokens p)) p in
  let inputs := default [] (scheduled_encoder_inputs p !! id) in
  Ok (step_encoder (delete id (scheduled_encoder_inputs p))
        (encoder_compute_budget p + sumZ (get_num_encoder_embeds v <$> inputs)) p).

(** The victim leaves [running]; the pair is its id and the new [req_index]. *)
Definition pick_victim (req_index : Z) (st : state) : res (string * Z * state) :=
  let '(s, p) := st in
  match policy cfg with
  | PRIORITY =>
      victim ← lowest_priority s;
      let s := set_running (remove_id victim (running s)) s in
      if bool_decide (victim ∈ scheduled_running_reqs p) then
        v ← get_req victim s;
        p ← unschedule v p;
        Ok (victim, req_index - 1, (s, p))
      else Ok (victim, req_index, (s, p))
  | FCFS =>
      victim ← of_option (last (running s)) IndexError;
      Ok (victim, req_index, (set_running (removelast (running s)) s, p))
  end.

(** [while True: allocate_slots ... preempt ...].  Every turn but the last takes one
    request out of [running]. *)
Fixpoint allocate_or_preempt (fuel : nat) (id : string) (num_new_tokens req_index : Z)
    (st : state) : res (option B * Z * state) :=
  match fuel with
  | O => Raise OutOfFuel
  | S fuel =>
      let '(s, p) := st in
      r ← get_req id s;
      let '(new_blocks, e) :=
        allocate_slots r (mkAlloc num_new_tokens 0 None (num_lookahead_tokens cfg) 0 0
                            false false) (env s) in
      let s := set_env e s in
      match new_blocks with
      | Some b => Ok (Some b, req_index, (s, p))
      | None =>
          '(victim, req_index, (s, p)) ← pick_victim req_index (s, p);
          v ← get_req victim s;
          let s := preempt_request v s in
          let p := step_preempted (preempted_reqs p ++ [victim]) p in
          if decide (victim = id) then Ok (None, req_index, (s, p))
          else allocate_or_preempt fuel id num_new_tokens req_index (s, p)
      end
  end.

(** [encoder_cache_manager.allocate] and the connector update, for each input. *)
Definition allocate_encoder_inputs (r : Request) (inputs : list Z) (e : E) : E :=
  foldl (fun e i =>
           let e := encoder_allocate r i e in
           if has_ec_connector cfg then ec_update r i e else e) e inputs.

Definition record_encoder (r : Request) (plan : encoder_plan) (st : state) : state :=
  let '(inputs, budget, external) := plan in
  let '(s, p) := st in
  let '(s, p) :=
    match inputs with
    | Some (i :: l) =>
        (set_env (allocate_encoder_inputs r (i :: l) (env s)) s,
         step_encoder (<[request_id r := i :: l]> (scheduled_encoder_inputs p)) budget p)
    | _ => (s, p)
    end in
  (set_env (allocate_encoder_inputs r external (env s)) s, p).

(** The drafts that fit the step; the request's own list is cleared. *)
Definition record_spec (r : Request) (num_new_tokens : Z) (st : state) : state :=
  let '(s, p) := st in
  match spec_token_ids r with
  | [] => (s, p)
  | ids =>
      let num_scheduled_spec_tokens :=
        num_new_tokens + num_computed_tokens r - num_tokens r
        - num_output_placeholders r in
      let p :=
        if 0 <? num_scheduled_spec_tokens then
          step_spec (od_set (request_id r) (py_take num_scheduled_spec_tokens ids)
                       (scheduled_spec_decode_tokens p)) p
        else p in
      (put_req (with_spec_token_ids [] r) s, p)
  end.

(** "Schedule the request." *)
Definition commit_running (r : Request) (num_new_tokens : Z) (new_blocks : B)
    (plan : encoder_plan) (st : state) : state :=
  let '(s, p) := st in
  let id := request_id r in
  let p := step_running (scheduled_running_reqs p ++ [id]) p in
  let p := step_budget (budget_admit (decode_budget p) 1) p in
  let p := step_tokens (<[id := new_blocks]> (req_to_new_blocks p))
             (od_set id num_new_tokens (num_scheduled_tokens p))
             (token_budget p - num_new_tokens) p in
  record_encoder r plan (record_spec r num_new_tokens (s, p)).

Fixpoint running_loop (fuel : nat) (req_index : Z) (st : state) : res state :=
  let '(s, p) := st in
  if (req_index <? len (running s)) && (0 <? token_budget p) then
    match fuel with
    | O => Raise OutOfFuel
    | S fuel =>
        id ← of_option (py_nth (running s) req_index) IndexError;
        r ← get_req id s;
        match running_num_new_tokens r p (env s) with
        | None => running_loop fuel (req_index + 1) (s, p)
        | Some (num_new_tokens, plan) =>
            '(new_blocks, req_index, st) ←
              allocate_or_preempt (length (running s)) id num_new_tokens req_index (s, p);
            match new_blocks with
            | None => Ok st
            | Some b =>
                r ← get_req id st.1;
                let st := commit_running r num_new_tokens b plan st in
                if negb (can_admit (decode_budget st.2) true) then Ok st
                else running_loop fuel (req_index + 1) st
            end
        end
    end
  else Ok (s, p).

(** [req_index] starts at a trailing prefill: guard (A). *)
Definition first_index (s : Scheduler) : Z :=
  match last (running s) with
  | Some id => if prefilling s id then len (running s) - 1 else 0
  | None => 0
  end.

Definition loras_of (s : Scheduler) (ids : list string) : gset Z :=
  list_to_set (omap (fun id =>
    match reqs s !! id with
    | Some r => match lora_int_id r with
                | Some l => if 0 <? l then Some l else None
                | None => None
                end
    | None => None
    end) ids).

Definition record_loras (st : state) : res state :=
  let '(s, p) := st in
  match max_loras cfg with
  | None => Ok (s, p)
  | Some m =>
      let l := loras_of s (scheduled_running_reqs p) in
      assert! (Z.of_nat (size l) <=? m);
      Ok (s, step_loras l p)
  end.

(** ** The waiting loop *)

(** What one iteration does: [Go] with a value, [continue] or [break] with the state. *)
Inductive flow (A : Type) :=
  | Go (a : A)
  | Skip (st : state)
  | Break (st : state).
Arguments Go {A}. Arguments Skip {A}. Arguments Break {A}.

(** What is already computed for a waiting request. *)
Record prefix_plan := mkPlan {
  pl_blocks : B;
  pl_local : Z;
  pl_sub_match : option M;
  pl_sub : Z;
  pl_external : Z;
  pl_load_async : bool;
  pl_computed : Z
}.

Definition pop_waiting (skipped : bool) (s : Scheduler) : Scheduler :=
  if skipped then set_queues (waiting s) (tl (skipped_waiting s)) s
  else set_queues (tl (waiting s)) (skipped_waiting s) s.

(** [_try_sub_block_match] *)
Definition try_sub_block_match (r : Request) (num_local num_external : Z) (e : E)
    : option M * Z * E :=
  if negb (uses_sub_block cfg) then (None, 0, e)
  else
    let '(m, e) := get_computed_blocks_sub_block r num_local e in
    match m with
    | Some m =>
        if num_external <=? match_num_tokens m then (Some m, match_num_tokens m, e)
        else (None, 0, release_sub_block_match m e)
    | None => (None, 0, e)
    end.

(** The block under [if request.num_computed_tokens == 0] and its [else]; [None]: the
    connector cannot tell yet and the request is skipped. *)
Definition waiting_prefix (id : string) (s : Scheduler)
    : res (option prefix_plan * Scheduler) :=
  r ← get_req id s;
  if negb (num_computed_tokens r =? 0) then
    Ok (Some (mkPlan empty_kv_cache_blocks 0 None 0 0 false (num_computed_tokens r)), s)
  else
    let '(blocks, num_local, boundary, e) := get_computed_blocks r (env s) in
    let r := with_shared_prefix_boundary boundary r in
    let s := put_req r (set_env e s) in
    let '(ext, load_async, e) :=
      if has_connector cfg then get_num_new_matched_tokens r num_local (env s)
      else (Some 0, false, env s) in
    let s := set_env e s in
    match ext with
    | None => Ok (None, s)
    | Some ext =>
        let r := if has_connector cfg then with_num_external_computed_tokens ext r else r in
        let resuming_with_connector :=
          has_connector cfg && bool_decide (status r = PREEMPTED) in
        let '(sub_match, num_sub, e) :=
          if resuming_with_connector then (None, 0, env s)
          else try_sub_block_match r num_local ext (env s) in
        let s := set_env e s in
        let cancel := (0 <? num_sub) && (0 <? ext) in
        let r := if cancel then with_num_external_computed_tokens 0 r else r in
        let ext := if cancel then 0 else ext in
        let load_async := if cancel then false else load_async in
        let num_computed := num_local + num_sub + ext in
        assert! (num_computed <=? num_tokens r);
        assert! (match prefill_stats r with
                 | None => true
                 | Some _ => num_computed <=? num_prompt_tokens r
                 end);
        let r := match prefill_stats r with
                 | None => r
                 | Some _ => with_prefill_stats
                               (Some (num_prompt_tokens r, num_local + num_sub, ext)) r
                 end in
        Ok (Some (mkPlan blocks num_local sub_match num_sub ext load_async num_computed),
            put_req r s)
    end.

(** How many tokens the waiting request gets, [load_kv_async] aside; [None]: [break]. *)
Definition waiting_num_new_tokens (r : Request) (pl : prefix_plan) (st : state)
    : res (option (Z * encoder_plan)) :=
  let '(s, p) := st in
  let n := num_tokens r - pl_computed pl in
  let threshold := long_prefill_token_threshold cfg in
  let n := if (0 <? threshold) && (threshold <? n) then threshold else n in
  if negb (enable_chunked_prefill cfg) && (token_budget p <? n) then Ok None
  else
    let n := Z.min n (max_num_scheduled_tokens cfg) in
    assert! (0 <? n);
    if is_prefill r && ((0 <? len (scheduled_new_reqs p)) || (0 <? len (scheduled_resumed_reqs p)))
    then Ok None
    else if has_encoder_inputs r then
      let '(inputs, n, budget, external) :=
        try_schedule_encoder_inputs r (pl_computed pl) n (encoder_compute_budget p)
          (if use_eagle cfg then 1 else 0) (env s) in
      if n =? 0 then Ok None else Ok (Some (n, (inputs, budget, external)))
    else Ok (Some (n, (None, encoder_compute_budget p, []))).

(** The admission checks at the head of the loop body. *)
Definition waiting_gate (id : string) (skipped : bool) (step_skipped : list string)
    (st : state) : res (flow (state) * list string) :=
  let '(s, p) := st in
  r ← get_req id s;
  let apply_soft_cap := bool_decide (status r = WAITING_FOR_REMOTE_KVS) in
  if negb (can_admit (decode_budget p) apply_soft_cap) then Ok (Break (s, p), step_skipped)
  else
    let '(promoted, r, e) :=
      if is_blocked_waiting_status (status r) then try_promote_blocked r (env s)
      else (true, r, env s) in
    let s := put_req r (set_env e s) in
    let skip s := (Skip (pop_waiting skipped s, p),
                   queue_prepend (reqs s) id step_skipped) in
    if negb promoted then Ok (skip s)
    else
      match max_loras cfg, lora_int_id r with
      | Some m, Some l =>
          if (Z.of_nat (size (scheduled_loras p)) =? m)
             && negb (bool_decide (l ∈ scheduled_loras p))
          then Ok (skip s) else Ok (Go (s, p), step_skipped)
      | _, _ => Ok (Go (s, p), step_skipped)
      end.

(** [allocate_slots] for a waiting request. *)
Definition waiting_allocate (r : Request) (pl : prefix_plan) (num_new_tokens : Z)
    (inputs : option (list Z)) (s : Scheduler) : option B * E :=
  let limit_lookahead := pl_load_async pl && use_eagle cfg in
  let lookahead := if limit_lookahead then 0 else num_lookahead_tokens cfg in
  let num_encoder_tokens :=
    if is_encoder_decoder cfg && has_encoder_inputs r
    then sumZ (get_num_encoder_embeds r <$> default [] inputs) else 0 in
  allocate_slots r
    (mkAlloc (num_new_tokens + pl_sub pl) (pl_local pl) (Some (pl_blocks pl)) lookahead
       (pl_external pl) num_encoder_tokens (0 <? len (running s)) true) (env s).

(** "admit this prefill by evicting all scheduled running reqs": guard (D). *)
Fixpoint evict_running (ids : list string) (st : state) : res state :=
  match ids with
  | [] => Ok st
  | id :: ids =>
      let '(s, p) := st in
      r ← get_req id s;
      delta ← of_option (req_to_new_blocks p !! id) KeyError;
      _ ← of_option (od_get id (num_scheduled_tokens p)) KeyError;
      let p := step_tokens (delete id (req_to_new_blocks p))
                 (od_pop id (num_scheduled_tokens p)) (token_budget p) p in
      let s := put_req (with_spec_token_ids
                 (default [] (od_get id (scheduled_spec_decode_tokens p))) r) s in
      let p := step_spec (od_pop id (scheduled_spec_decode_tokens p)) p in
      let p := step_encoder (delete id (scheduled_encoder_inputs p))
                 (encoder_compute_budget p) p in
      evict_running ids (add_pending_runner_block_delta id (Some delta) s, p)
  end.

Definition evict_batch (st : state) : res state :=
  '(s, p) ← evict_running (scheduled_running_reqs st.2) st;
  let p := step_running [] p in
  let p := step_budget (budget_reset (decode_budget p)) p in
  Ok (s, step_tokens (req_to_new_blocks p) (num_scheduled_tokens p)
           (max_num_scheduled_tokens cfg) p).

(** The request joins [running]; [true]: it is decode-ready and the loop goes on, [false]:
    it is a prefill, the decode batch is evicted and the loop ends. *)
Definition admit_waiting (id : string) (pl : prefix_plan) (num_new_tokens : Z)
    (plan : encoder_plan) (st : state) : res (bool * state) :=
  let '(s, p) := st in
  r ← get_req id s;
  let s := set_running (running s ++ [id]) s in
  p ← match status r with
      | WAITING => Ok (step_admitted (scheduled_new_reqs p ++ [id]) (scheduled_resumed_reqs p) p)
      | PREEMPTED => Ok (step_admitted (scheduled_new_reqs p) (scheduled_resumed_reqs p ++ [id]) p)
      | _ => Raise RuntimeError
      end;
  let p := match max_loras cfg, lora_int_id r with
           | Some _, Some l => step_loras ({[l]} ∪ scheduled_loras p) p
           | _, _ => p
           end in
  let p := step_tokens (<[id := kv_get_blocks id (env s)]> (req_to_new_blocks p))
             (od_set id num_new_tokens (num_scheduled_tokens p))
             (token_budget p - num_new_tokens) p in
  let r := with_num_computed_tokens (pl_computed pl) (with_status RUNNING r) in
  let '(s, p) := record_encoder r plan (put_req r s, p) in
  if negb (is_prefill r) then
    assert! (num_new_tokens =? 1);
    Ok (true, (s, step_budget (budget_admit (decode_budget p) 1) p))
  else
    st ← evict_batch (s, p);
    Ok (false, st).

(** From the allocated blocks to the end of the loop body. *)
Definition waiting_commit (id : string) (skipped : bool) (pl : prefix_plan)
    (num_new_tokens : Z) (plan : encoder_plan) (step_skipped : list string) (st : state)
    : res (flow state * list string) :=
  let '(s, p) := st in
  let e := match pl_sub_match pl with
           | Some m => apply_sub_block_match m (env s) | None => env s end in
  r ← get_req id s;
  let e := if has_connector cfg
           then connector_update_state r (kv_get_blocks id e) (pl_external pl) e else e in
  let s := pop_waiting skipped (set_env e s) in
  if pl_load_async pl then
    let r := with_num_computed_tokens (pl_computed pl) (with_status WAITING_FOR_REMOTE_KVS r) in
    let s := put_req r s in
    Ok (Skip (s, p), queue_prepend (reqs s) id step_skipped)
  else
    '(again, st) ← admit_waiting id pl num_new_tokens plan (s, p);
    Ok (if (again : bool) then Skip st else Break st, step_skipped).

(** A [break] leaves the match of the request at hand un-applied. *)
Definition release_match (m : option M) (s : Scheduler) : Scheduler :=
  match m with Some m => set_env (release_sub_block_match m (env s)) s | None => s end.

(** The rest of the loop body for a request that passed the gate. *)
Definition waiting_body (id : string) (skipped : bool) (step_skipped : list string)
    (st : state) : res (flow state * list string) :=
  let '(s, p) := st in
  '(plan, s) ← waiting_prefix id s;
  match plan with
  | None => Ok (Skip (pop_waiting skipped s, p), queue_prepend (reqs s) id step_skipped)
  | Some pl =>
      r ← get_req id s;
      let stop s := Ok (Break (release_match (pl_sub_match pl) s, p), step_skipped) in
      tokens ← (if pl_load_async pl then
                  assert! (0 <? pl_external pl);
                  Ok (Some (0, (None, encoder_compute_budget p, [])))
                else waiting_num_new_tokens r pl (s, p));
      match tokens with
      | None => stop s
      | Some (n, ((inputs, _, _) as plan)) =>
          let n' := if need_mamba_block_aligned_split cfg
                    then mamba_block_aligned_split r n (pl_local pl) (pl_external pl)
                    else n in
          if need_mamba_block_aligned_split cfg && (n' =? 0) then stop s
          else
            let '(new_blocks, e) := waiting_allocate r pl n' inputs s in
            let s := set_env e s in
            match new_blocks with
            | None =>
                stop (if has_encoder_inputs r then set_env (encoder_free r (env s)) s else s)
            | Some _ => waiting_commit id skipped pl n' plan step_skipped (s, p)
            end
      end
  end.

Fixpoint waiting_loop (fuel : nat) (step_skipped : list string) (st : state)
    : res (state * list string) :=
  let '(s, p) := st in
  if bool_decide (waiting s = [] /\ skipped_waiting s = []) || (token_budget p <=? 0)
     || (len (running s) =? max_num_running_reqs cfg)
  then Ok (s, p, step_skipped)
  else
    match fuel with
    | O => Raise OutOfFuel
    | S fuel =>
        let skipped := select_skipped (reqs s) (waiting s) (skipped_waiting s) in
        id ← of_option (head (if skipped then skipped_waiting s else waiting s)) IndexError;
        '(gate, step_skipped) ← waiting_gate id skipped step_skipped (s, p);
        match gate with
        | Break st => Ok (st, step_skipped)
        | Skip st => waiting_loop fuel step_skipped st
        | Go st =>
            '(next, step_skipped) ← waiting_body id skipped step_skipped st;
            match next with
            | Skip st => waiting_loop fuel step_skipped st
            | Break st | Go st => Ok (st, step_skipped)
            end
        end
    end.

Definition schedule_waiting (pause : PauseState) (st : state) : res state :=
  let '(s, p) := st in
  let lone_prefill := match scheduled_running_reqs p with
                      | [] => false | id :: _ => prefilling s id end in
  if bool_decide (preempted_reqs p = []) && bool_decide (pause = UNPAUSED)
     && negb lone_prefill
  then
    '(s, p, step_skipped) ←
      waiting_loop (length (waiting s) + length (skipped_waiting s)) [] (s, p);
    Ok (match step_skipped with
        | [] => (s, p)
        | _ => (set_queues (waiting s)
                  (queue_prepend_all (reqs s) step_skipped (skipped_waiting s)) s, p)
        end)
  else Ok (s, p).

(** ** Finalisation *)

Record RBLNSchedulerOutput := mkOutput {
  out_new_reqs : list (string * list (list Z));
  out_running_reqs : list string;
  out_resumed_reqs : list string;
  out_new_blocks : gmap string B;
  out_num_scheduled_tokens : odict string Z;
  out_total : Z;
  out_spec_decode_tokens : odict string (list Z);
  out_encoder_inputs : gmap string (list Z);
  out_preempted : list string;
  out_new_token_ids : list (list Z);
  out_free_encoder_mm_hashes : list string;
  out_new_block_ids_to_zero : option (list Z);
  out_kv_cache_copy_ops : list M
}.

(** Upstream calls that take the whole output: the base class's [new_token_ids] payload,
    the connectors' metadata builders, and the base class's [_update_after_schedule]. *)
Variable super_new_token_ids : list string -> list string -> Step -> Scheduler -> list (list Z).
Variable build_connector_meta : RBLNSchedulerOutput -> E -> E.
Variable build_ec_meta : RBLNSchedulerOutput -> E -> E.
Variable update_after_schedule : RBLNSchedulerOutput -> Scheduler -> Scheduler.

(** The four checks on the scheduling constraints. *)
Definition check_constraints (st : state) : res Z :=
  let '(s, p) := st in
  let total := sumZ (od_values (num_scheduled_tokens p)) in
  assert! (total <=? max_num_scheduled_tokens cfg);
  assert! (0 <=? token_budget p);
  assert! (len (running s) <=? max_num_running_reqs cfg);
  assert! (len (scheduled_new_reqs p) + len (scheduled_resumed_reqs p)
           + len (scheduled_running_reqs p) <=? len (running s));
  Ok total.

Fixpoint cache_scheduled (ids : list string) (st : state) : res Scheduler :=
  let '(s, p) := st in
  match ids with
  | [] => Ok s
  | id :: ids =>
      r ← get_req id s;
      n ← of_option (od_get id (num_scheduled_tokens p)) KeyError;
      let e := cache_blocks r (Z.min (num_computed_tokens r + n) (num_tokens r)) (env s) in
      let e := if uses_sub_block cfg then schedule_sub_block_indexing r e else e in
      cache_scheduled ids (set_env e s, p)
  end.

(** [_make_cached_request_data]: under synchronous pipeline parallelism with drafts the
    payload of every cached request is extended backwards. *)
Definition cached_new_token_ids (use_pp : bool) (ids : list string) (p : Step) (s : Scheduler)
    (data : list (list Z)) : res (list (list Z)) :=
  if use_pp && negb (async_scheduling cfg) && (0 <? num_spec_tokens cfg)
     && negb (bool_decide (data = []))
  then
    payload ← mapM (fun id =>
      r ← get_req id s;
      let base := num_base_tokens (num_scheduled_tokens p) (scheduled_spec_decode_tokens p) id in
      Ok (propagated_payload (all_token_ids r) (num_computed_tokens r)
            (num_spec_tokens cfg) base)) (take (length data) ids);
    Ok (payload ++ drop (length payload) data)
  else Ok data.

Definition finalize (use_pp : bool) (st : state) : res (RBLNSchedulerOutput * state) :=
  let '(s, p) := st in
  total ← check_constraints (s, p);
  s ← cache_scheduled (scheduled_running_reqs p ++ scheduled_new_reqs p
                       ++ scheduled_resumed_reqs p) (s, p);
  '(blocks, s) ← drain_pending_runner_block_deltas (scheduled_running_reqs p)
                   (req_to_new_blocks p) s;
  let p := step_tokens blocks (num_scheduled_tokens p) (token_budget p) p in
  new_reqs ← mapM (fun id =>
    b ← of_option (req_to_new_blocks p !! id) KeyError; Ok (id, get_block_ids b))
    (scheduled_new_reqs p);
  let cached := scheduled_running_reqs p ++ scheduled_resumed_reqs p in
  token_ids ← cached_new_token_ids use_pp cached p s
    (super_new_token_ids (scheduled_running_reqs p) (scheduled_resumed_reqs p) p s);
  let s := set_prev (od_keys (num_scheduled_tokens p)) s in
  let '(zero, e) :=
    if needs_kv_cache_zeroing cfg then
      let '(ids, e) := take_new_block_ids (env s) in
      (match ids with [] => None | _ => Some ids end, e)
    else (None, env s) in
  let '(hashes, e) := get_freed_mm_hashes e in
  let '(ops, e) := if uses_sub_block cfg then drain_pending_copy_ops e else ([], e) in
  let out := mkOutput new_reqs (scheduled_running_reqs p) (scheduled_resumed_reqs p)
    (req_to_new_blocks p) (num_scheduled_tokens p) total (scheduled_spec_decode_tokens p)
    (scheduled_encoder_inputs p) (preempted_reqs p) token_ids hashes zero ops in
  let e := if has_connector cfg then build_connector_meta out e else e in
  let e := if has_ec_connector cfg then build_ec_meta out e else e in
  let s := set_env e s in
  let s := if defer_block_free cfg && (0 <? total) then set_seq (sched_step_seq s + 1) s else s in
  Ok (out, (update_after_schedule out s, p)).

(** ** [schedule] *)

Definition empty_step (pause : PauseState) (b : DecodeBatchBudget) : Step :=
  mkStep [] [] [] [] ∅ []
    (if decide (pause = PAUSED_ALL) then 0 else max_num_scheduled_tokens cfg)
    ∅ (max_num_encoder_input_tokens cfg) [] b ∅.

(** Everything up to the finalisation: which requests run, and with how many tokens. *)
Definition decide_step (pause : PauseState) (s : Scheduler) : res state :=
  let s := set_env (new_step_starts (env s)) s in
  b ← for_step (max_num_running_reqs cfg) (pp_size cfg) (decode_demand s);
  st ← running_loop (length (running s)) (first_index s) (s, empty_step pause b);
  st ← record_loras st;
  schedule_waiting pause st.

Definition schedule (use_pp : bool) (pause : PauseState) (s : Scheduler)
    : res (RBLNSchedulerOutput * Scheduler) :=
  st ← decide_step pause s;
  '(out, (s, _)) ← finalize use_pp st;
  Ok (out, s).

(** [_free_request]: the pending delta of a finished request is dropped before the base
    class frees it. *)
Definition free_request (super_free : Request -> E -> E) (r : Request) (s : Scheduler)
    : Scheduler :=
  let s := set_deltas (delete (request_id r) (pending_runner_block_deltas s)) s in
  set_env (super_free r (env s)) s.

(** [update_from_output]: after the base class has processed the step, index the pending
    sub-blocks and release the sources of the copies. *)
Definition update_from_output (super_update : RBLNSchedulerOutput -> Scheduler -> Scheduler)
    (do_pending_indexing : E -> E) (release_copy_ops : list M -> E -> E)
    (out : RBLNSchedulerOutput) (s : Scheduler) : Scheduler :=
  let s := super_update out s in
  if uses_sub_block cfg then
    let e := do_pending_indexing (env s) in
    let e := match out_kv_cache_copy_ops out with
             | [] => e | ops => release_copy_ops ops e end in
    set_env e s
  else s.
End scheduler.

Arguments Go {E B A}.
Arguments Skip {E B A}.
Arguments Break {E B A}.
