(* ===== verification/RblnSchedulerInv.v ===== *)
(** * Invariants of a scheduling step

    What [RblnScheduler] relies on from the calls it makes ([UpstreamLaws]), the
    well-formedness of the scheduler's queues and requests ([sinv]), the accounting of the
    step under construction ([pinv]), and that the loops keep both and terminate. *)

From S2P Require Import Prelude VllmTypes CoreUtils RblnScheduler.

(** ** What the scheduler relies on *)

(** The request is the same conversation: identity and committed tokens. *)
Definition same_request (r r' : Request) : Prop :=
  request_id r' = request_id r /\ all_token_ids r' = all_token_ids r /\
  num_prompt_tokens r' = num_prompt_tokens r /\ prefill_stats r' = prefill_stats r.

Definition waiting_status (st : RequestStatus) : Prop := st <> RUNNING /\ st <> FINISHED.

(** A request has a token, and its prefill statistics are only open while its tokens are
    the prompt; a waiting request that can be admitted has a token left to compute. *)
Definition req_ok (r : Request) : Prop :=
  0 < num_tokens r /\ 0 <= num_computed_tokens r /\
  (prefill_stats r <> None -> num_tokens r = num_prompt_tokens r).

Definition waiting_ok (r : Request) : Prop :=
  req_ok r /\ waiting_status (status r) /\
  (status r = WAITING \/ status r = PREEMPTED -> num_computed_tokens r < num_tokens r).

Class UpstreamLaws (E B M : Type) `{Upstream E B M} : Prop := {
  (** the blocked statuses are the three [WAITING_FOR_...] ones *)
  law_blocked : forall st, is_blocked_waiting_status st = false -> waiting_status st ->
    st = WAITING \/ st = PREEMPTED;
  (** a promoted request is schedulable, with a token left to compute *)
  law_promote : forall r e b r' e', try_promote_blocked r e = (b, r', e') -> waiting_ok r ->
    same_request r r' /\ waiting_ok r' /\
    (b = true -> status r' = WAITING \/ status r' = PREEMPTED);
  (** preemption resets the request and puts it into the waiting queue *)
  law_preempt : forall r st w e r' w' e', super_preempt_request r st w e = (r', w', e') ->
    same_request r r' /\ status r' = PREEMPTED /\ num_computed_tokens r' = 0 /\
    w' ≡ₚ request_id r :: w;
  law_prepend : forall st id q, queue_prepend st id q ≡ₚ id :: q;
  law_prepend_all : forall st l q, queue_prepend_all st l q ≡ₚ l ++ q;
  law_select : forall st w k, w <> [] \/ k <> [] ->
    if select_skipped st w k then k <> [] else w <> [];
  (** the encoder and the block-aligned split only shorten a chunk *)
  law_encoder : forall r c n b sh e i n' b' x,
    try_schedule_encoder_inputs r c n b sh e = (i, n', b', x) -> 0 <= n -> 0 <= n' <= n;
  law_mamba : forall r n l x, 0 <= n -> 0 <= mamba_block_aligned_split r n l x <= n;
  (** a prefix hit leaves a token to compute, except a load in the background *)
  law_computed : forall r e bl l bd e', get_computed_blocks r e = (bl, l, bd, e') ->
    0 < num_tokens r -> 0 <= l < num_tokens r;
  law_match : forall r l e m e', get_computed_blocks_sub_block r l e = (Some m, e') ->
    0 <= match_num_tokens m /\ l + match_num_tokens m < num_tokens r;
  law_matched : forall r l e x a e', get_num_new_matched_tokens r l e = (Some x, a, e') ->
    l < num_tokens r ->
    0 <= x /\ l + x <= num_tokens r /\ (if a : bool then 0 < x else l + x < num_tokens r)
}.

(** ** Requests *)

(** Equal up to the drafts, which a step takes from the request. *)
Definition spec_eq (r r' : Request) : Prop :=
  with_spec_token_ids [] r = with_spec_token_ids [] r'.

Lemma spec_eq_fields r r' : spec_eq r r' ->
  request_id r = request_id r' /\ is_prefill r = is_prefill r' /\
  lora_int_id r = lora_int_id r' /\ num_tokens r = num_tokens r' /\
  num_computed_tokens r = num_computed_tokens r' /\ status r = status r' /\
  num_prompt_tokens r = num_prompt_tokens r' /\ prefill_stats r = prefill_stats r' /\
  num_output_placeholders r = num_output_placeholders r'.
Proof.
  destruct r, r'. unfold spec_eq, is_prefill, num_tokens. cbn. intros Heq.
  simplify_eq. done.
Qed.

Lemma spec_eq_refl r : spec_eq r r.
Proof. done. Qed.

Lemma spec_eq_with l r : spec_eq r (with_spec_token_ids l r).
Proof. done. Qed.

Lemma req_ok_spec_eq r r' : spec_eq r r' -> req_ok r -> req_ok r'.
Proof.
  intros (_ & _ & _ & H1 & H2 & _ & H3 & H4 & _)%spec_eq_fields. unfold req_ok.
  by rewrite H1, H2, H3, H4.
Qed.

(** A running request never got ahead of its tokens, unless drafts took it there. *)
Definition running_ok (cfg : SchedulerConfig) (r : Request) : Prop :=
  num_computed_tokens r <= sc_max_model_len cfg - 1 /\
  (num_spec_tokens cfg <= 0 ->
     num_computed_tokens r <= num_tokens_with_spec r + num_output_placeholders r).

(** ** The queues and the store *)

(** [l] is every id in the running list and the queues; each id names its own request. *)
Record qinv (rs : gmap string Request) (run wait : list string) : Prop := {
  q_nodup : NoDup (run ++ wait);
  q_id : forall id r, rs !! id = Some r -> request_id r = id;
  q_running : forall id, id ∈ run -> exists r, rs !! id = Some r /\ req_ok r;
  q_waiting : forall id, id ∈ wait -> exists r, rs !! id = Some r /\ waiting_ok r
}.

(** ** The step under construction *)

Record pinv (max : Z) {B} (run ids : list string) (blocks : gmap string B)
    (nst : odict string Z) (budget : Z) : Prop := {
  pi_nodup : NoDup ids;
  pi_running : forall id, id ∈ ids -> id ∈ run;
  pi_keys : NoDup (od_keys nst);
  pi_sched : forall id, id ∈ ids <-> id ∈ od_keys nst;
  pi_blocks : forall id, id ∈ ids -> is_Some (blocks !! id);
  pi_pos : forall id n, od_get id nst = Some n -> 0 < n;
  pi_tokens : sumZ (od_values nst) + budget <= max;
  pi_budget : 0 <= budget
}.

(** ** Lists of ids *)

Lemma remove_id_notin x l : x ∉ l -> remove_id x l = l.
Proof.
  induction l as [|z l IH]; [done|]. intros Hx. cbn.
  rewrite decide_False by set_solver. by rewrite IH by set_solver.
Qed.

Lemma remove_id_split x l : x ∈ l -> exists l1 l2, l = l1 ++ x :: l2 /\ (x ∉ l1) /\
  remove_id x l = l1 ++ l2.
Proof.
  induction l as [|y l IH]; intros Hx; [by apply not_elem_of_nil in Hx|]. cbn.
  case_decide as Hd.
  - subst. exists [], l. split; [done|]. split; [apply not_elem_of_nil|done].
  - destruct IH as (l1 & l2 & -> & Hn & ->); [set_solver|].
    exists (y :: l1), l2. split; [done|]. split; [set_solver|done].
Qed.

Lemma remove_id_perm x l : x ∈ l -> l ≡ₚ x :: remove_id x l.
Proof. intros (l1 & l2 & -> & _ & ->)%remove_id_split. by rewrite Permutation_middle. Qed.

(** Removing an id from [d ++ x :: r] takes it from one of the three parts. *)
Lemma remove_id_app x d r l : NoDup l -> x ∈ l -> l = d ++ r ->
  (x ∈ d /\ remove_id x l = remove_id x d ++ r /\ (x ∉ r)) \/
  (x ∈ r /\ remove_id x l = d ++ remove_id x r /\ (x ∉ d)).
Proof.
  intros Hnd Hx ->. apply NoDup_app in Hnd as (_ & Hdr & _).
  destruct (decide (x ∈ d)) as [Hd|Hd].
  - left. split; [done|]. split; [|by apply Hdr].
    clear -Hd. induction d as [|y d IH]; [by apply not_elem_of_nil in Hd|]. cbn.
    case_decide; [done|]. cbn. f_equal. apply IH. set_solver.
  - right. assert (x ∈ r) as Hr by set_solver. split; [done|]. split; [|done].
    clear -Hd. induction d as [|y d IH]; [done|]. cbn.
    rewrite decide_False by set_solver. f_equal. apply IH. set_solver.
Qed.

Lemma length_remove_id x l : x ∈ l -> length l = S (length (remove_id x l)).
Proof. intros (l1 & l2 & -> & _ & ->)%remove_id_split. rewrite !length_app. cbn. lia. Qed.

Lemma removelast_remove_id x l : NoDup l -> last l = Some x -> removelast l = remove_id x l.
Proof.
  intros Hnd Hl. apply last_Some in Hl as [k ->]. rewrite removelast_last.
  destruct (remove_id_app x k [x] (k ++ [x]) Hnd) as [(Hk & _ & Hn)|(_ & -> & _)];
    [set_solver|done|set_solver|].
  cbn. rewrite decide_True by done. by rewrite app_nil_r.
Qed.

Lemma elem_of_remove_id x y l : y ∈ remove_id x l -> y ∈ l.
Proof.
  induction l as [|z l IH]; [done|]. cbn. case_decide; [set_solver|].
  rewrite !elem_of_cons. naive_solver.
Qed.

Lemma remove_id_sublist x l : sublist (remove_id x l) l.
Proof.
  induction l as [|z l IH]; cbn; [constructor|]. case_decide; by constructor.
Qed.

Lemma elem_of_remove_id_ne x y l : y ∈ l -> y <> x -> y ∈ remove_id x l.
Proof.
  induction l as [|z l IH]; [done|]. cbn. intros Hy Hne. apply elem_of_cons in Hy.
  case_decide; [naive_solver|]. apply elem_of_cons. naive_solver.
Qed.

Lemma remove_id_NoDup x l : NoDup l -> NoDup (remove_id x l) /\ (x ∉ remove_id x l).
Proof.
  induction l as [|z l IH]; cbn; [intros _; split; [constructor|apply not_elem_of_nil]|].
  intros [Hz Hl]%NoDup_cons. case_decide as Hd; [by subst|].
  destruct (IH Hl) as [H1 H2]. split; [|set_solver].
  apply NoDup_cons. split; [|done]. intros Hin%elem_of_remove_id. done.
Qed.

(** ** Scheduling and unscheduling one request *)

Section pinv.
Context {B : Type} (max : Z).
Implicit Types run ids : list string.
Implicit Types blocks : gmap string B.

Lemma pinv_empty run budget : 0 <= budget <= max -> pinv max run [] (∅ : gmap string B) [] budget.
Proof.
  intros Hb. assert (forall id : string, id ∈ [] -> False) as Hnil
    by (intros id; apply not_elem_of_nil).
  split.
  - apply NoDup_nil_2.
  - intros id Hid. by destruct (Hnil id).
  - exact (NoDup_nil_2 (A := string)).
  - done.
  - intros id Hid. by destruct (Hnil id).
  - done.
  - unfold od_values. cbn. lia.
  - lia.
Qed.

Lemma pinv_weaken run run' ids ids' blocks nst budget : ids ≡ₚ ids' ->
  (forall id, id ∈ ids -> id ∈ run -> id ∈ run') ->
  pinv max run ids blocks nst budget -> pinv max run' ids' blocks nst budget.
Proof.
  intros Hp Hr []. split; try done.
  - by rewrite <- Hp.
  - intros id. rewrite <- Hp. auto.
  - intros id. by rewrite <- Hp.
  - intros id. rewrite <- Hp. auto.
Qed.

Lemma pinv_add run ids ids' blocks nst budget id n b :
  pinv max run ids blocks nst budget -> ids' ≡ₚ id :: ids -> (id ∉ ids) -> id ∈ run ->
  0 < n -> n <= budget ->
  pinv max run ids' (<[id := b]> blocks) (od_set id n nst) (budget - n).
Proof.
  intros [] Hp Hn Hr Hpos Hb. assert (id ∉ od_keys nst) as Hk by (by rewrite <- pi_sched0).
  split.
  - rewrite Hp. by constructor.
  - intros k. rewrite Hp, elem_of_cons. naive_solver.
  - by apply NoDup_od_set.
  - intros k. rewrite Hp, od_set_new by done. unfold od_keys. rewrite fmap_app, elem_of_app. cbn.
    rewrite elem_of_cons, list_elem_of_singleton, pi_sched0. naive_solver.
  - intros k. rewrite Hp, elem_of_cons. destruct (decide (k = id)) as [->|Hne].
    + intros _. rewrite lookup_insert_eq. eauto.
    + intros [?|Hin]; [done|]. rewrite lookup_insert_ne by done. auto.
  - intros k m. rewrite od_get_set. case_decide; [naive_solver|]. apply pi_pos0.
  - rewrite od_set_new by done. unfold od_values in *. rewrite fmap_app, sumZ_app. cbn. lia.
  - lia.
Qed.

Lemma pinv_remove run run' ids ids' blocks nst budget id n :
  pinv max run ids blocks nst budget -> ids ≡ₚ id :: ids' -> od_get id nst = Some n ->
  (forall k, k ∈ ids' -> k ∈ run -> k ∈ run') ->
  pinv max run' ids' (delete id blocks) (od_pop id nst) (budget + n).
Proof.
  intros [] Hp Hg Hr. rewrite Hp in pi_nodup0. apply NoDup_cons in pi_nodup0 as [Hn Hnd].
  assert (forall k, k ∈ ids' -> k ∈ ids) as Hsub by (intros k; rewrite Hp; set_solver).
  split; try done.
  - eauto.
  - by apply NoDup_od_pop.
  - intros k. rewrite od_keys_pop, list_elem_of_filter, <- pi_sched0, Hp, elem_of_cons.
    naive_solver.
  - intros k Hk. rewrite lookup_delete_ne by naive_solver. auto.
  - intros k m. rewrite od_get_pop. case_decide; [done|]. apply pi_pos0.
  - destruct (od_pop_split id n nst) as (d1 & d2 & -> & ->); [done|done|].
    unfold od_values in *. rewrite fmap_app, fmap_cons, sumZ_app, sumZ_cons in pi_tokens0.
    rewrite fmap_app, sumZ_app. cbn [snd] in pi_tokens0. lia.
  - pose proof (pi_pos0 _ _ Hg). lia.
Qed.

Lemma pinv_lookup run ids blocks nst budget id :
  pinv max run ids blocks nst budget -> id ∈ ids ->
  exists n b, od_get id nst = Some n /\ blocks !! id = Some b.
Proof.
  intros [] Hid. destruct (pi_blocks0 id Hid) as [b Hb].
  apply pi_sched0, elem_of_od_keys in Hid as [n Hn]. eauto.
Qed.
End pinv.

(** ** The running loop *)

Section inv.
Context {E B M : Type} `{U : Upstream E B M} `{L : !UpstreamLaws E B M}.
Variable cfg : SchedulerConfig.

Abbreviation Scheduler := (@Scheduler E B).
Abbreviation Step := (@Step B).
Implicit Types s : Scheduler.
Implicit Types p : Step.

Definition sched p : list string :=
  scheduled_running_reqs p ++ scheduled_new_reqs p ++ scheduled_resumed_reqs p.

Definition queued s : list string := waiting s ++ skipped_waiting s.

(** Block deltas wait for running requests only. *)
Definition deltas_running s : Prop :=
  forall id, is_Some (pending_runner_block_deltas s !! id) -> id ∈ running s.

Definition accounted s p : Prop :=
  pinv (max_num_scheduled_tokens cfg) (running s) (sched p) (req_to_new_blocks p)
    (num_scheduled_tokens p) (token_budget p).

(** The scheduler and the step while the loop over the running requests is at work, with
    [s0] the scheduler it started from. *)
Record rinv s0 s p : Prop := {
  r_queues : qinv (reqs s) (running s) (queued s);
  r_step : accounted s p;
  r_new : scheduled_new_reqs p = [];
  r_resumed : scheduled_resumed_reqs p = [];
  r_count : count (decode_budget p) = len (scheduled_running_reqs p);
  r_kept : forall id, id ∈ running s ->
    exists r0 r, reqs s0 !! id = Some r0 /\ reqs s !! id = Some r /\ spec_eq r0 r;
  r_perm : running s0 ≡ₚ running s ++ preempted_reqs p;
  r_waiting : waiting s ≡ₚ preempted_reqs p ++ waiting s0;
  r_skipped : skipped_waiting s = skipped_waiting s0;
  r_deltas : deltas_running s;
  r_sub : sublist (running s) (running s0)
}.

Lemma sched_running s0 s p : rinv s0 s p -> sched p = scheduled_running_reqs p.
Proof. intros []. unfold sched. by rewrite r_new0, r_resumed0, !app_nil_r. Qed.

Lemma get_req_ok s id r : reqs s !! id = Some r -> get_req id s = Ok r.
Proof. unfold get_req. by intros ->. Qed.

(** *** Preemption *)

Lemma max_by_key_ok s best l :
  (forall id, id ∈ best :: l -> exists r, reqs s !! id = Some r) ->
  returns (max_by_key s best l) (fun v => v ∈ best :: l).
Proof.
  revert best. induction l as [|y l IH]; intros best Hst; cbn; [set_solver|].
  destruct (Hst best) as [rb Hb]; [set_solver|]. destruct (Hst y) as [ry Hy]; [set_solver|].
  unfold get_req. rewrite Hb, Hy. cbn.
  eapply returns_mono; [apply IH|].
  - intros id Hid. apply Hst. destruct (key_ltb rb ry); set_solver.
  - intros v. destruct (key_ltb rb ry); set_solver.
Qed.

Lemma lowest_priority_ok s : running s <> [] ->
  (forall id, id ∈ running s -> exists r, reqs s !! id = Some r) ->
  returns (lowest_priority s) (fun v => v ∈ running s).
Proof.
  unfold lowest_priority. destruct (running s); [done|]. intros _. apply max_by_key_ok.
Qed.

(** The request at hand sits between the visited part of [running], which holds everything
    scheduled so far, and the rest. *)
Definition at_hand (id : string) (idx : Z) s p (d r : list string) : Prop :=
  running s = d ++ id :: r /\ (forall x, x ∈ scheduled_running_reqs p -> x ∈ d) /\ len d <= idx.

(** What is left of the step when the scheduled request [id] gives its share back. *)
Definition unscheduled (id : string) (n : Z) p : Step :=
  step_spec (od_pop id (scheduled_spec_decode_tokens p))
    (step_tokens (delete id (req_to_new_blocks p)) (od_pop id (num_scheduled_tokens p))
       (token_budget p + n)
       (step_budget (budget_admit (decode_budget p) (- 1))
          (step_running (remove_id id (scheduled_running_reqs p)) p))).

Lemma unschedule_eq v p n b :
  request_id v ∈ scheduled_running_reqs p ->
  count (decode_budget p) = len (scheduled_running_reqs p) ->
  od_get (request_id v) (num_scheduled_tokens p) = Some n ->
  req_to_new_blocks p !! request_id v = Some b ->
  exists enc eb, unschedule v p = Ok (step_encoder enc eb (unscheduled (request_id v) n p)).
Proof.
  intros Hin Hc Hg Hb. unfold unschedule, budget_discard. cbn -[od_get].
  pose proof (length_remove_id _ _ Hin) as Hl.
  replace (1 <=? count (decode_budget p)) with true
    by (symmetry; apply Z.leb_le; unfold len in *; lia).
  cbn -[od_get]. rewrite Hg. cbn. rewrite Hb. cbn. eauto.
Qed.

Lemma unscheduled_ok s0 s p id n b d r x idx : rinv s0 s p -> at_hand x idx s p d r ->
  id ∈ scheduled_running_reqs p ->
  od_get id (num_scheduled_tokens p) = Some n -> req_to_new_blocks p !! id = Some b ->
  rinv s0 s (unscheduled id n p) /\ (id ∉ scheduled_running_reqs (unscheduled id n p)).
Proof.
  intros Hr (Hrun & Hd & _) Hin Hg Hb. pose proof (sched_running _ _ _ Hr) as Hsr.
  destruct Hr. unfold accounted in *. rewrite Hsr in r_step0.
  pose proof (remove_id_perm _ _ Hin) as Hp. split.
  - split; try done.
    + unfold accounted, sched. cbn. rewrite r_new0, r_resumed0, !app_nil_r.
      eapply pinv_remove; eauto.
    + cbn. rewrite r_count0. pose proof (length_remove_id _ _ Hin). unfold len in *. lia.
  - cbn. apply remove_id_NoDup, (pi_nodup _ _ _ _ _ _ r_step0).
Qed.

(** What taking the victim [v] out of [running] does, the request [x] being at hand. *)
Definition victim_taken s0 s p (x : string) (r : list string) (v : string) (idx : Z) s' p'
    : Prop :=
  exists run, s' = set_running run s /\
    (running s ≡ₚ v :: run /\ sublist run (running s)) /\ rinv s0 s p' /\
    (v ∉ scheduled_running_reqs p') /\
    (forall y, y ∈ scheduled_running_reqs p' -> y ∈ scheduled_running_reqs p) /\
    token_budget p <= token_budget p' /\
    count (decode_budget p') <= count (decode_budget p) /\
    hard_cap (decode_budget p') = hard_cap (decode_budget p) /\
    soft_cap (decode_budget p') = soft_cap (decode_budget p) /\
    (v = x \/ exists d' r', at_hand x idx s' p' d' r' /\
       (forall y, y ∈ r' -> y ∈ r) /\ (length r' <= length r)%nat).

Lemma at_hand_not_scheduled s0 s p x idx d r y : rinv s0 s p -> at_hand x idx s p d r ->
  y ∈ x :: r -> (y ∉ scheduled_running_reqs p).
Proof.
  intros [[Hnd _ _ _] _ _ _ _ _ _ _ _ _ _] (Hrun & Hd & _) Hy Hin%Hd. rewrite Hrun in Hnd.
  apply NoDup_app in Hnd as (Hnd & _ & _). apply NoDup_app in Hnd as (_ & Hdis & _).
  by apply (Hdis y).
Qed.

Lemma remove_at_hand s0 s p x idx d r v : rinv s0 s p -> at_hand x idx s p d r ->
  v ∈ running s -> v <> x ->
  exists d' r', remove_id v (running s) = d' ++ x :: r' /\
    (forall y, y ∈ d -> y <> v -> y ∈ d') /\ (forall y, y ∈ r' -> y ∈ r) /\
    (length r' <= length r)%nat /\ len d' <= len d /\ (v ∈ d -> len d' = len d - 1).
Proof.
  intros [[Hnd _ _ _] _ _ _ _ _ _ _ _ _ _] (Hrun & _ & _) Hv Hne.
  apply NoDup_app in Hnd as (Hnd & _ & _). rewrite Hrun in *.
  destruct (remove_id_app v d (x :: r) (d ++ x :: r) Hnd Hv eq_refl)
    as [(Hd & -> & _)|(Hr & -> & Hd)].
  - exists (remove_id v d), r. pose proof (length_remove_id _ _ Hd). unfold len.
    repeat split; try done; try lia. intros y Hy Hyv. by apply elem_of_remove_id_ne.
  - cbn. rewrite decide_False by done. exists d, (remove_id v r).
    assert (v ∈ r) as Hvr by set_solver. pose proof (length_remove_id _ _ Hvr). unfold len.
    repeat split; try done; try lia. intros y. apply elem_of_remove_id.
Qed.

(** A victim that is not scheduled in this step, or not any more. *)
Lemma take_victim s0 s p p' x idx idx' d r v :
  rinv s0 s p -> at_hand x idx s p d r -> v ∈ running s ->
  rinv s0 s p' -> (v ∉ scheduled_running_reqs p') ->
  (forall y, y ∈ scheduled_running_reqs p' -> y ∈ scheduled_running_reqs p) ->
  token_budget p <= token_budget p' -> count (decode_budget p') <= count (decode_budget p) ->
  hard_cap (decode_budget p') = hard_cap (decode_budget p) ->
  soft_cap (decode_budget p') = soft_cap (decode_budget p) ->
  idx' = idx \/ v ∈ d /\ idx' = idx - 1 ->
  victim_taken s0 s p x r v idx' (set_running (remove_id v (running s)) s) p'.
Proof.
  intros Hr Hat Hv Hr' Hn Hsub Hb Hc Hh Hs Hidx.
  exists (remove_id v (running s)). split; [done|].
  split; [split; [by apply remove_id_perm|apply remove_id_sublist]|].
  do 7 (split; [done|]). destruct (decide (v = x)) as [->|Hne]; [by left|right].
  destruct (remove_at_hand _ _ _ _ _ _ _ _ Hr Hat Hv Hne)
    as (d' & r' & Heq & Hd & Hr'' & Hlen & Hl & Hl').
  exists d', r'. destruct Hat as (_ & Hd0 & Hi). split; [|done].
  split; [done|]. split.
  - intros y Hy. apply Hd; [auto|]. intros ->. done.
  - destruct Hidx as [->|[Hvd ->]]; [lia|]. specialize (Hl' Hvd). lia.
Qed.

Lemma pick_victim_ok s0 s p x idx d r : rinv s0 s p -> at_hand x idx s p d r ->
  returns (pick_victim cfg idx (s, p))
    (fun '(v, idx', (s', p')) => victim_taken s0 s p x r v idx' s' p').
Proof.
  intros Hr Hat. pose proof Hat as (Hrun & Hd & Hidx).
  pose proof (r_queues _ _ _ Hr) as [Hnd _ Hst _]. apply NoDup_app in Hnd as (Hnd & _ & _).
  unfold pick_victim. destruct (policy cfg).
  - destruct (last (running s)) as [v|] eqn:El.
    2:{ apply last_None in El. rewrite Hrun in El. by destruct d. }
    cbn. rewrite (removelast_remove_id v) by done.
    assert (v ∈ x :: r) as Hv.
    { rewrite Hrun, last_app_cons in El. by apply last_Some_elem_of. }
    eapply take_victim; eauto; try done.
    + rewrite Hrun. set_solver.
    + eapply at_hand_not_scheduled; eauto.
  - eapply returns_bind.
    { apply lowest_priority_ok; [|naive_solver]. rewrite Hrun. by destruct d. }
    intros v Hv. case_bool_decide as Hin; cbn.
    2:{ eapply take_victim; eauto; done. }
    destruct (Hst v Hv) as (rv & Hrv & _). rewrite (get_req_ok _ v rv) by done. cbn.
    assert (request_id rv = v) as <- by (by apply (q_id _ _ _ (r_queues _ _ _ Hr))).
    pose proof (r_step _ _ _ Hr) as Hp.
    destruct (pinv_lookup _ _ _ _ _ _ (request_id rv) Hp) as (n & b & Hn & Hb).
    { by rewrite (sched_running s0 s). }
    destruct (unschedule_eq rv p n b) as (enc & eb & ->); [done|apply Hr|done|done|]. cbn.
    destruct (unscheduled_ok s0 s p _ n b d r x idx Hr Hat Hin Hn Hb) as [Hr' Hn'].
    pose proof (pi_pos _ _ _ _ _ _ Hp _ _ Hn).
    eapply (take_victim s0 s p (step_encoder enc eb (unscheduled (request_id rv) n p)));
      eauto; try done; try (cbn; lia).
    + destruct Hr'. by split.
    + cbn. intros y. apply elem_of_remove_id.
Qed.

(** The base class's preemption of a request taken from [running]. *)
Lemma preempt_ok s0 s p v rv run : rinv s0 s p -> running s ≡ₚ v :: run ->
  sublist run (running s) ->
  (v ∉ scheduled_running_reqs p) -> reqs s !! v = Some rv ->
  rinv s0 (preempt_request rv (set_running run s))
    (step_preempted (preempted_reqs p ++ [v]) p) /\
  running (preempt_request rv (set_running run s)) = run /\
  (forall y, y <> v ->
     reqs (preempt_request rv (set_running run s)) !! y = reqs s !! y).
Proof.
  intros Hr Hperm Hsub Hv Hrv. pose proof (sched_running _ _ _ Hr) as Hsr.
  destruct Hr as [[Hnd Hid Hrun Hwait] Hp Hnew Hres Hc Hk Hpm Hw Hsk Hdl Hsb].
  unfold preempt_request. cbn.
  destruct (super_preempt_request _ _ _ _) as [[r' w] e] eqn:Ep.
  apply law_preempt in Ep as (Hsame & Hst & Hnc & Hperm').
  assert (request_id rv = v) as Hidv by auto. destruct Hsame as (Hi & Ht & Hnp & Hps).
  assert (waiting_ok r') as Hwok.
  { destruct (Hrun v) as (r & Hr & Hrv1 & Hrv2 & Hrv3); [rewrite Hperm; set_solver|].
    simplify_eq. unfold waiting_ok, req_ok, waiting_status, num_tokens in *.
    rewrite Hst, Hnc, Ht, Hnp, Hps. naive_solver lia. }
  rewrite Hidv in *. rewrite Hperm in Hnd.
  assert (forall y, y ∈ run \/ y ∈ waiting s ++ skipped_waiting s -> y <> v) as Hne.
  { intros y Hy ->. apply (NoDup_cons_1_1 _ _ Hnd), elem_of_app. done. }
  cbn. rewrite Hi. split; [|split; [done|intros y Hy; by rewrite lookup_insert_ne]].
  split; cbn; try done; rewrite ?Hi.
  - split; cbn.
    + unfold queued. cbn. rewrite Hperm'. revert Hnd. unfold queued. cbn.
      by rewrite Permutation_middle.
    + intros y r. destruct (decide (y = v)) as [->|Hy].
      * rewrite lookup_insert_eq. intros [= <-]. done.
      * rewrite lookup_insert_ne by done. auto.
    + intros y Hy. rewrite lookup_insert_ne by (by apply not_eq_sym, Hne; left).
      apply Hrun. rewrite Hperm. set_solver.
    + intros y. unfold queued. cbn. rewrite Hperm'. cbn. intros [->|Hy]%elem_of_cons.
      * rewrite lookup_insert_eq. eauto.
      * rewrite lookup_insert_ne by (by apply not_eq_sym, Hne; right). auto.
  - unfold accounted, sched in *. cbn. eapply pinv_weaken; [reflexivity| |exact Hp].
    intros y Hy Hyr. rewrite Hperm in Hyr. apply elem_of_cons in Hyr as [->|?]; [|done].
    by rewrite Hsr in Hy.
  - intros y Hy. rewrite lookup_insert_ne by (by apply not_eq_sym, Hne; left).
    apply Hk. rewrite Hperm. set_solver.
  - rewrite Hpm, Hperm. solve_Permutation.
  - rewrite Hperm', Hw. solve_Permutation.
  - intros y Hy. cbn in *. destruct (decide (y = v)) as [->|Hyv].
    + rewrite lookup_delete_eq in Hy. by destruct Hy.
    + rewrite lookup_delete_ne in Hy by done. apply Hdl in Hy. rewrite Hperm in Hy.
      by apply elem_of_cons in Hy as [->|?].
  - by etransitivity.
Qed.

Definition allocated s0 s p (x : string) (r : list string) (ob : option B) (idx : Z) s' p'
    : Prop :=
  rinv s0 s' p' /\
  (forall y, y ∈ scheduled_running_reqs p' -> y ∈ scheduled_running_reqs p) /\
  token_budget p <= token_budget p' /\
  count (decode_budget p') <= count (decode_budget p) /\
  hard_cap (decode_budget p') = hard_cap (decode_budget p) /\
  soft_cap (decode_budget p') = soft_cap (decode_budget p) /\
  match ob with
  | None => x ∉ running s'
  | Some _ => exists d' r', at_hand x idx s' p' d' r' /\
      (forall y, y ∈ r' -> y ∈ r) /\ (length r' <= length r)%nat /\
      (forall y, y ∈ x :: r' -> reqs s' !! y = reqs s !! y)
  end.

(** The preemption loop ends: it takes one request out of [running] per turn, and the
    request at hand at the latest. *)
Lemma allocate_or_preempt_ok s0 fuel x n : forall idx s p d r,
  rinv s0 s p -> at_hand x idx s p d r -> (length d + length r < fuel)%nat ->
  returns (allocate_or_preempt cfg fuel x n idx (s, p))
    (fun '(ob, idx', (s', p')) => allocated s0 s p x r ob idx' s' p').
Proof.
  induction fuel as [|fuel IH]; intros idx s p d r Hr Hat Hf; [lia|].
  cbn [allocate_or_preempt]. pose proof Hat as (Hrun & _ & _).
  destruct (q_running _ _ _ (r_queues _ _ _ Hr) x) as (rx & Hrx & _).
  { rewrite Hrun. set_solver. }
  rewrite (get_req_ok _ x rx) by done. cbn [mbind res_bind].
  destruct (allocate_slots _ _ _) as [[b|] e]; cbn [mbind res_bind].
  - cbn. split; [destruct Hr; by split|]. do 5 (split; [done|]).
    exists d, r. split; [done|]. split; [done|]. split; [lia|done].
  - assert (rinv s0 (set_env e s) p) as Hr' by (destruct Hr; by split).
    eapply returns_bind; [by eapply (pick_victim_ok s0 _ p x idx d r)|].
    intros [[v idx'] [s' p']] (run & -> & [Hperm Hsubl] & Hr2 & Hv & Hss & Hb & Hc & Hh & Hs & Hcase).
    destruct (q_running _ _ _ (r_queues _ _ _ Hr) v) as (rv & Hrv & _).
    { cbn in Hperm. rewrite Hperm. set_solver. }
    rewrite (get_req_ok _ v rv) by done. cbn [mbind res_bind].
    destruct (preempt_ok s0 (set_env e s) p' v rv run Hr2 Hperm Hsubl Hv Hrv) as (Hr3 & Hrun3 & Hst3).
    case_decide as Hvx; cbn [returns].
    { split; [done|]. do 5 (split; [done|]). rewrite Hrun3. subst v.
      pose proof (q_nodup _ _ _ (r_queues _ _ _ Hr)) as Hnd. apply NoDup_app in Hnd as (Hnd & _ & _).
      cbn in Hperm. rewrite Hperm in Hnd. by apply NoDup_cons_1_1 in Hnd. }
    destruct Hcase as [?|(d' & r' & Hat' & Hsub & Hlen)]; [done|].
    destruct Hat' as (Hrun' & Hd' & Hi'). cbn in Hrun'.
    eapply returns_mono.
    { apply (IH idx' _ _ d' r' Hr3).
      - split; [by rewrite Hrun3|done].
      - assert (length (running s) = S (length run)) as Hl
          by (cbn in Hperm; by rewrite Hperm).
        rewrite Hrun, Hrun', !length_app in Hl. cbn in Hl. lia. }
    intros [[ob i] [s4 p4]] (H1 & H1' & H2 & H3 & H4 & H5 & H6). cbn in *.
    split; [done|]. split; [auto|]. do 4 (split; [congruence || lia|]). destruct ob; [|done].
    destruct H6 as (d4 & r4 & H6 & H7 & H8 & H9). exists d4, r4. split; [done|].
    split; [auto|]. split; [lia|]. intros y Hy. rewrite H9 by done.
    apply Hst3. intros ->. pose proof (q_nodup _ _ _ (r_queues _ _ _ Hr)) as Hnd.
    cbn in Hperm. rewrite Hperm in Hnd. apply (NoDup_cons_1_1 _ _ Hnd), elem_of_app. left.
    rewrite Hrun'. apply elem_of_cons in Hy as [->|Hy]; [done|].
    apply elem_of_app. right. apply elem_of_cons. auto.
Qed.

(** *** Scheduling the request at hand *)

Lemma record_encoder_eq r plan s p : exists e enc b,
  record_encoder cfg r plan (s, p) = (set_env e s, step_encoder enc b p).
Proof.
  destruct plan as [[[[|i l]|] b] ext]; cbn; destruct s, p; eexists _, _, _; reflexivity.
Qed.

Lemma record_spec_eq r n s p : exists rs spec,
  record_spec r n (s, p) = (set_reqs rs s, step_spec spec p) /\
  (rs = reqs s \/ rs = <[request_id r := with_spec_token_ids [] r]> (reqs s)).
Proof.
  unfold record_spec. destruct (spec_token_ids r) as [|t l].
  - eexists (reqs s), (scheduled_spec_decode_tokens p). split; [by destruct s, p|by left].
  - eexists _. destruct (0 <? _).
    + eexists _. split; [reflexivity|by right].
    + exists (scheduled_spec_decode_tokens p). split; [by destruct p|by right].
Qed.

Lemma running_num_new_tokens_ok r p e n plan :
  running_num_new_tokens cfg r p e = Some (n, plan) -> running_ok cfg r ->
  0 < token_budget p -> 0 < n <= token_budget p.
Proof.
  intros Hn [Hmax Hspec] Hb. unfold running_num_new_tokens in Hn.
  destruct (_ && (_ <=? _)); [done|].
  set (n0 := num_tokens_with_spec r + _ - _) in Hn.
  destruct (should_defer_spec_step _ _ _) eqn:Hdefer; [done|].
  assert (0 <= n0) as Hn0.
  { unfold should_defer_spec_step in Hdefer. destruct (num_spec_tokens cfg <=? 0) eqn:Hs; zbool.
    - specialize (Hspec Hs). unfold n0. lia.
    - destruct (spec_token_ids r) as [|t l]; zbool; [done|].
      pose proof (len_nonneg (t :: l)). lia. }
  set (n1 := if (0 <? _) && _ then _ else n0) in Hn.
  assert (0 <= n1) as Hn1.
  { unfold n1. destruct ((0 <? _) && _) eqn:Et; zbool; lia. }
  set (n2 := Z.min (Z.min n1 _) _) in Hn.
  assert (0 <= n2 <= token_budget p) as Hn2 by lia. clearbody n2.
  destruct (if has_encoder_inputs r then _ else _) as [[[i n3] b] x] eqn:Eenc.
  assert (0 <= n3 <= n2) as Hn3.
  { destruct (has_encoder_inputs r); [|by simplify_eq; lia].
    by apply law_encoder in Eenc; [|lia]. }
  destruct (need_mamba_block_aligned_split cfg).
  - pose proof (law_mamba r n3 0 0 ltac:(lia)). destruct (_ =? 0) eqn:E0; zbool; simplify_eq. lia.
  - destruct (_ =? 0) eqn:E0; zbool; simplify_eq. lia.
Qed.

Lemma commit_running_ok s0 s p id r n b plan : rinv s0 s p -> id ∈ running s ->
  (id ∉ scheduled_running_reqs p) -> reqs s !! id = Some r -> 0 < n <= token_budget p ->
  let '(s', p') := commit_running cfg r n b plan (s, p) in
  rinv s0 s' p' /\ running s' = running s /\
  scheduled_running_reqs p' = scheduled_running_reqs p ++ [id] /\
  decode_budget p' = budget_admit (decode_budget p) 1 /\
  (forall y, y <> id -> reqs s' !! y = reqs s !! y).
Proof.
  intros Hr Hid Hn Hrid Hb. pose proof (sched_running _ _ _ Hr) as Hsr.
  assert (request_id r = id) as Hidr by (by apply (q_id _ _ _ (r_queues _ _ _ Hr))).
  destruct Hr as [[Hnd Hids Hrun Hwait] Hp Hnew Hres Hc Hk Hpm Hw Hsk Hdl Hsb].
  unfold commit_running. rewrite Hidr.
  match goal with |- context [record_spec r n (s, ?q)] => set (p1 := q) end.
  destruct (record_spec_eq r n s p1) as (rs & spec & -> & Hrs). rewrite Hidr in Hrs.
  destruct (record_encoder_eq r plan (set_reqs rs s) (step_spec spec p1))
    as (e & enc & eb & ->).
  assert (forall y, y <> id -> rs !! y = reqs s !! y) as Hne.
  { intros y Hy. destruct Hrs as [->| ->]; [done|]. by rewrite lookup_insert_ne. }
  assert (exists r', rs !! id = Some r' /\ spec_eq r r') as (r' & Hr' & Hsp).
  { destruct Hrs as [->| ->]; [eauto using spec_eq_refl|].
    rewrite lookup_insert_eq. eauto using spec_eq_with. }
  assert (request_id r' = id) as Hidr'
    by (apply spec_eq_fields in Hsp as [Heq _]; congruence).
  split; [|split; [done|split; [done|split; [done|exact Hne]]]].
  split; cbn; try done.
  - split; cbn; try done.
    + intros y ry. destruct (decide (y = id)) as [->|Hy]; [naive_solver|].
      rewrite Hne by done. auto.
    + intros y Hy. destruct (decide (y = id)) as [->|Hyn].
      * exists r'. split; [done|]. destruct (Hrun id Hid) as (? & ? & ?).
        simplify_eq. by eapply req_ok_spec_eq.
      * rewrite Hne by done. auto.
    + intros y Hy. rewrite Hne; [auto|]. intros ->.
      apply NoDup_app in Hnd as (_ & Hdis & _). by apply (Hdis id).
  - unfold accounted. cbn. eapply pinv_add; eauto; try lia.
    + rewrite Hsr. unfold sched. cbn. rewrite Hnew, Hres, !app_nil_r. solve_Permutation.
    + by rewrite Hsr.
  - rewrite Hc, len_app. done.
  - intros y Hy. destruct (decide (y = id)) as [->|Hyn]; [|rewrite Hne by done; auto].
    destruct (Hk id Hid) as (r0 & r1 & H0 & H1 & Heq). simplify_eq.
    exists r0, r'. split; [done|]. split; [done|]. unfold spec_eq in *. congruence.
Qed.

(** *** The loop *)

Lemma py_nth_middle {A} (d r : list A) (x : A) i : i = len d -> py_nth (d ++ x :: r) i = Some x.
Proof.
  intros ->. unfold py_nth. pose proof (len_nonneg d).
  destruct (_ <? 0) eqn:Ei; zbool; [lia|].
  apply list_lookup_middle. unfold len. lia.
Qed.

(** The requests ahead of the index are visited, those behind it are still to come; [T] is
    where the scheduled requests come from. *)
Definition visiting (T : list string) s0 (idx : Z) (fuel : nat) s p : Prop :=
  rinv s0 s p /\ exists d r, running s = d ++ r /\ (len d = idx \/ r = [] /\ len d <= idx) /\
    (forall x, x ∈ scheduled_running_reqs p -> x ∈ d /\ x ∈ T) /\
    (forall x, x ∈ r -> x ∈ T /\ exists rq, reqs s !! x = Some rq /\ running_ok cfg rq) /\
    (length r <= fuel)%nat.

Definition budget_is (b : DecodeBatchBudget) (h sft : Z) : Prop :=
  hard_cap b = h /\ soft_cap b = sft.

Definition visited (T : list string) s0 (h sft : Z) s p : Prop :=
  rinv s0 s p /\ (forall x, x ∈ scheduled_running_reqs p -> x ∈ T) /\
  count (decode_budget p) <= h /\ budget_is (decode_budget p) h sft.

(** After the request at hand was scheduled, the index moves on. *)
Lemma visit_next T s0 s p s' p' x idx d r fuel : rinv s0 s' p' ->
  at_hand x idx s p d r -> running s' = running s ->
  scheduled_running_reqs p' = scheduled_running_reqs p ++ [x] -> x ∈ T ->
  (forall y, y ∈ scheduled_running_reqs p -> y ∈ T) ->
  (forall y, y ∈ r -> y ∈ T /\ exists rq, reqs s' !! y = Some rq /\ running_ok cfg rq) ->
  (length r <= fuel)%nat ->
  visiting T s0 (idx + 1) fuel s' p'.
Proof.
  intros Hr (Hrun & Hd & Hi) Hrun' Hsch Hx HT Hrest Hf. split; [done|].
  set (k := Z.to_nat (idx - len d)).
  exists (d ++ x :: take k r), (drop k r).
  split; [rewrite Hrun', Hrun, <- app_assoc; cbn; by rewrite take_drop|].
  pose proof (len_nonneg d). split; [|split; [|split]].
  - rewrite len_app, len_cons. unfold len. rewrite length_take.
    destruct (decide (k <= length r)%nat) as [Hk|Hk].
    + left. rewrite Nat.min_l by lia. unfold k, len in *. lia.
    + right. split; [apply drop_ge; lia|]. rewrite Nat.min_r by lia. unfold k, len in *. lia.
  - rewrite Hsch. intros y [Hy|Hy]%elem_of_app; [set_solver|].
    apply list_elem_of_singleton in Hy as ->. set_solver.
  - intros y Hy. apply Hrest. rewrite <- (take_drop k r). apply elem_of_app. by right.
  - rewrite length_drop. lia.
Qed.

Lemma running_loop_ok T s0 h sft fuel : forall idx s p,
  visiting T s0 idx fuel s p -> count (decode_budget p) < h -> budget_is (decode_budget p) h sft ->
  returns (running_loop cfg fuel idx (s, p)) (fun '(s', p') => visited T s0 h sft s' p').
Proof.
  induction fuel as [|fuel IH]; intros idx s p (Hr & d & r & Hrun & Hi & Hsch & Hrest & Hf) Hc Hh;
    cbn [running_loop]; destruct ((idx <? len (running s)) && _) eqn:Econd.
  2,4: split; [done|]; split; [naive_solver|]; split; [lia|done].
  - apply andb_true_iff in Econd as [Hlt _]. zbool. destruct r; [|cbn in Hf; lia].
    rewrite Hrun, app_nil_r in Hlt. lia.
  - apply andb_true_iff in Econd as [Hlt Hbud]. zbool. destruct r as [|x r].
    { rewrite Hrun, app_nil_r in Hlt. lia. }
    destruct Hi as [Hi|[? _]]; [|done]. cbn in Hf.
    rewrite Hrun, (py_nth_middle d r x idx) by done. cbn [of_option mbind res_bind].
    destruct (Hrest x) as (HxT & rx & Hrx & Hok); [set_solver|].
    rewrite (get_req_ok _ x rx) by done. cbn [mbind res_bind].
    assert (at_hand x idx s p d r) as Hat by (split; [done|split; [naive_solver|lia]]).
    destruct (running_num_new_tokens cfg rx p (env s)) as [[n plan]|] eqn:En.
    2:{ apply IH; [|done|done]. split; [done|]. exists (d ++ [x]), r.
        rewrite <- app_assoc, len_app. split; [done|]. split; [left; by rewrite Hi|].
        split; [set_solver|]. split; [set_solver|lia]. }
    eapply returns_bind.
    { apply (allocate_or_preempt_ok s0 _ x n idx s p d r Hr Hat).
      rewrite length_app. cbn. lia. }
    intros [[ob idx'] [s' p']] (Hr' & Hss & Hb & Hc' & Hh1 & Hs1 & Hob). destruct Hh as [Hh Hs].
    assert (forall y, y ∈ scheduled_running_reqs p' -> y ∈ T) as HT' by naive_solver.
    destruct ob as [b|]; cbn [returns].
    2:{ split; [done|]. split; [done|]. split; [lia|]. split; congruence. }
    destruct Hob as (d' & r' & Hat' & Hsub & Hlen & Hst). cbn [fst].
    assert (reqs s' !! x = Some rx) as Hrx' by (rewrite Hst by set_solver; done).
    rewrite (get_req_ok _ x rx) by done. cbn [mbind res_bind].
    pose proof (commit_running_ok s0 s' p' x rx n b plan Hr') as Hcm.
    destruct (commit_running cfg rx n b plan (s', p')) as [s2 p2].
    pose proof Hat' as (Hrun' & Hd' & _).
    destruct Hcm as (Hr2 & Hrun2 & Hsch2 & Hb2 & Hst2).
    { rewrite Hrun'. set_solver. }
    { eapply at_hand_not_scheduled; eauto. set_solver. }
    { done. }
    { pose proof (running_num_new_tokens_ok _ _ _ _ _ En Hok Hbud). lia. }
    assert (budget_is (decode_budget p2) h sft) as Hh2 by (rewrite Hb2; split; cbn; congruence).
    assert (count (decode_budget p2) <= h) as Hc2 by (rewrite Hb2; cbn; lia).
    cbn [snd]. destruct (can_admit (decode_budget p2) true) eqn:Ecan; cbn [negb returns].
    + apply IH; [|unfold can_admit in Ecan|done].
      * apply (visit_next T s0 s' p' s2 p2 x idx' d' r' fuel); try done.
        intros y Hy. destruct (Hrest y) as (HyT & ry & Hry & Hyok); [set_solver|].
        split; [done|]. exists ry. split; [|done]. rewrite Hst2, Hst; [done|set_solver|].
        intros ->. pose proof (q_nodup _ _ _ (r_queues _ _ _ Hr')) as Hnd.
        rewrite Hrun' in Hnd. apply NoDup_app in Hnd as (Hnd & _ & _).
        apply NoDup_app in Hnd as (_ & _ & Hnd). by apply NoDup_cons_1_1 in Hnd.
        lia.
      * destruct Hh2 as [Hh2 _]. rewrite Hh2 in Ecan.
        destruct (h <=? count (decode_budget p2)) eqn:E1; zbool; [done|lia].
    + split; [done|]. split; [|split; [done|done]].
      rewrite Hsch2. set_solver.
Qed.
(** A trailing request with a chunk to compute is scheduled or preempted. *)
Lemma running_loop_last s0 fuel idx s p d x rx :
  rinv s0 s p -> running s = d ++ [x] -> len d = idx -> scheduled_running_reqs p = [] ->
  reqs s !! x = Some rx -> running_ok cfg rx ->
  running_num_new_tokens cfg rx p (env s) <> None -> 0 < token_budget p ->
  returns (running_loop cfg (S fuel) idx (s, p)) (fun '(s', p') =>
    x ∈ scheduled_running_reqs p' \/ (x ∉ running s')).
Proof.
  intros Hr Hrun Hi Hsch Hrx Hok Hn Hb. cbn [running_loop].
  replace ((idx <? len (running s)) && (0 <? token_budget p)) with true.
  2:{ symmetry. rewrite Hrun, len_app, <- Hi. apply andb_true_iff.
      split; apply Z.ltb_lt; unfold len; cbn; lia. }
  rewrite Hrun, (py_nth_middle d [] x idx) by done. cbn [of_option mbind res_bind].
  rewrite (get_req_ok _ x rx) by done. cbn [mbind res_bind].
  destruct (running_num_new_tokens cfg rx p (env s)) as [[n plan]|] eqn:En; [|done].
  assert (at_hand x idx s p d []) as Hat.
  { split; [done|]. rewrite Hsch. split; [|lia]. intros y Hy. by apply not_elem_of_nil in Hy. }
  eapply returns_bind.
  { apply (allocate_or_preempt_ok s0 _ x n idx s p d [] Hr Hat).
    rewrite length_app. cbn. lia. }
  intros [[ob idx'] [s' p']] (Hr' & _ & Hb' & _ & _ & _ & Hob). destruct ob as [b|]; cbn [returns].
  2:{ by right. }
  destruct Hob as (d' & r' & Hat' & _ & Hlen & Hst). cbn [fst].
  assert (reqs s' !! x = Some rx) as Hrx' by (rewrite Hst by set_solver; done).
  rewrite (get_req_ok _ x rx) by done. cbn [mbind res_bind].
  pose proof (commit_running_ok s0 s' p' x rx n b plan Hr') as Hcm.
  destruct (commit_running cfg rx n b plan (s', p')) as [s2 p2].
  destruct r'; [|cbn in Hlen; lia]. pose proof Hat' as (Hrun' & _ & Hi').
  destruct Hcm as (_ & Hrun2 & Hsch2 & _ & _).
  { rewrite Hrun'. set_solver. }
  { eapply at_hand_not_scheduled; eauto. set_solver. }
  { done. }
  { pose proof (running_num_new_tokens_ok _ _ _ _ _ En Hok Hb). lia. }
  assert (x ∈ scheduled_running_reqs p2) as Hx by (rewrite Hsch2; set_solver).
  destruct (negb _); [by left|].
  assert ((idx' + 1 <? len (running s2)) = false) as Hend.
  { apply Z.ltb_ge. rewrite Hrun2, Hrun', len_app. unfold len in *. cbn. lia. }
  destruct fuel; cbn [running_loop]; rewrite Hend; by left.
Qed.
End inv.
