(* ===== verification/RblnSchedulerWait.v ===== *)
(** * The admission of waiting requests

    What the waiting loop of [schedule] keeps ([winv]), that every iteration keeps it and
    takes a request off a queue, and what holds when the loop is over ([settled]). *)

From S2P Require Import Prelude VllmTypes CoreUtils RblnScheduler RblnSchedulerInv.

Section wait.
Context {E B M : Type} `{U : Upstream E B M} `{L : !UpstreamLaws E B M}.
Variable cfg : SchedulerConfig.
Hypothesis tokens_pos : 0 < max_num_scheduled_tokens cfg.

(** When no running prefill was passed over, none but the last one can be left. *)
Variable clean : Prop.

Abbreviation Scheduler := (@Scheduler E B).
Abbreviation Step := (@Step B).
Implicit Types s : Scheduler.
Implicit Types p : Step.

(** [all]: every request the scheduler held when the step began; [h]: the compiled batch. *)
Record winv (all : list string) (h : Z) (extra : list string) s p : Prop := {
  w_queues : qinv (reqs s) (running s) (queued s ++ extra);
  w_step : accounted cfg s p;
  w_count : count (decode_budget p) = len (sched p);
  w_cap : len (sched p) <= h /\ hard_cap (decode_budget p) = h /\ 1 <= h;
  w_running : len (running s) <= max_num_running_reqs cfg;
  w_decode : forall id, id ∈ sched p -> prefilling s id = false;
  w_all : all ≡ₚ running s ++ queued s ++ extra;
  w_deltas : deltas_running s;
  w_clean : clean -> forall id, id ∈ running s -> prefilling s id = false
}.

(** The step is decided: a batch of decodes, or one prefill alone. *)
Definition one_phase s p : Prop :=
  (forall id, id ∈ sched p -> prefilling s id = false) \/
  (exists id, sched p = [id] /\ prefilling s id = true).

Record settled (all : list string) (h : Z) (extra : list string) s p : Prop := {
  st_queues : qinv (reqs s) (running s) (queued s ++ extra);
  st_step : pinv (max_num_scheduled_tokens cfg) (running s) (sched p)
    (req_to_new_blocks p) (num_scheduled_tokens p) 0;
  st_budget : 0 <= token_budget p;
  st_cap : len (sched p) <= h;
  st_running : len (running s) <= max_num_running_reqs cfg;
  st_phase : one_phase s p;
  st_all : all ≡ₚ running s ++ queued s ++ extra;
  st_deltas : deltas_running s;
  st_trailing : clean -> forall id, id ∈ removelast (running s) -> prefilling s id = false
}.

(** *** Bookkeeping of the queues *)

Lemma qinv_perm rs run w w' : w ≡ₚ w' -> qinv rs run w -> qinv rs run w'.
Proof.
  intros Hp []. split; try done.
  - by rewrite <- Hp.
  - intros id. rewrite <- Hp. auto.
Qed.

Lemma qinv_put rs run w id r : qinv rs run w -> id ∈ w -> request_id r = id -> waiting_ok r ->
  qinv (<[id := r]> rs) run w.
Proof.
  intros [] Hid Hr Hok. split; [done| | |].
  - intros y ry. destruct (decide (y = id)) as [->|Hy].
    + rewrite lookup_insert_eq. naive_solver.
    + rewrite lookup_insert_ne by done. auto.
  - intros y Hy. rewrite lookup_insert_ne; [auto|]. intros ->.
    apply NoDup_app in q_nodup as (_ & Hdis & _). by apply (Hdis y).
  - intros y Hy. destruct (decide (y = id)) as [->|Hyn].
    + rewrite lookup_insert_eq. eauto.
    + rewrite lookup_insert_ne by done. auto.
Qed.

Lemma winv_env all h extra s p e : winv all h extra s p -> winv all h extra (set_env e s) p.
Proof. intros []. by split. Qed.

Lemma winv_put all h extra s p r : winv all h extra s p ->
  request_id r ∈ queued s ++ extra -> waiting_ok r ->
  winv all h extra (put_req r s) p.
Proof.
  intros [] Hid Hok.
  assert (forall y, y ∈ running s -> prefilling (put_req r s) y = prefilling s y) as Hpre.
  { intros y Hy. unfold prefilling. cbn. rewrite lookup_insert_ne; [done|]. intros <-.
    destruct w_queues0. apply NoDup_app in q_nodup as (_ & Hdis & _). by apply (Hdis (request_id r)). }
  split; try done.
  - cbn. by apply qinv_put.
  - intros y Hy. rewrite Hpre; [by apply w_decode0|]. by apply (pi_running _ _ _ _ _ _ w_step0).
  - intros Hcl y Hy. rewrite Hpre by done. by apply w_clean0.
Qed.

Definition queue_of (skipped : bool) s : list string :=
  if skipped then skipped_waiting s else waiting s.

(** What bounds the number of iterations. *)
Definition pending s : nat := (length (waiting s) + length (skipped_waiting s))%nat.

Lemma pop_waiting_perm (skipped : bool) s id : head (queue_of skipped s) = Some id ->
  queued s ≡ₚ id :: queued (pop_waiting skipped s) /\
  pending s = S (pending (pop_waiting skipped s)).
Proof.
  unfold queue_of, queued, pending, pop_waiting. destruct skipped; cbn.
  - destruct (skipped_waiting s); cbn; [done|]. intros [= ->]. split; [solve_Permutation|lia].
  - destruct (waiting s); cbn; [done|]. intros [= ->]. split; [solve_Permutation|lia].
Qed.

Lemma winv_pop all h extra extra' skipped s p id : winv all h extra s p ->
  head (queue_of skipped s) = Some id -> extra' ≡ₚ id :: extra ->
  winv all h extra' (pop_waiting skipped s) p.
Proof.
  intros [] Hh Hp. pose proof (pop_waiting_perm _ _ _ Hh) as [Hq _].
  assert (queued s ++ extra ≡ₚ queued (pop_waiting skipped s) ++ extra') as Hqe.
  { rewrite Hq, Hp. solve_Permutation. }
  assert (running (pop_waiting skipped s) = running s /\
          reqs (pop_waiting skipped s) = reqs s) as [Hr Hs]
    by (unfold pop_waiting; by destruct skipped).
  split; try done; unfold accounted, prefilling in *; rewrite ?Hr, ?Hs; try done.
  - by eapply qinv_perm.
  - by rewrite <- Hqe.
  - unfold deltas_running, pop_waiting in *. by destruct skipped.
Qed.

Lemma winv_queued all h extra s p id : winv all h extra s p -> id ∈ queued s ++ extra ->
  exists r, reqs s !! id = Some r /\ waiting_ok r /\ request_id r = id.
Proof.
  intros [[_ Hid _ Hw] _ _ _ _ _ _ _ _] (r & Hr & Hok)%Hw. eauto.
Qed.

(** *** The checks at the head of the loop body *)

Definition schedulable (r : Request) : Prop :=
  waiting_ok r /\ (status r = WAITING \/ status r = PREEMPTED).

(** [id] heads its queue, and its request passed the checks. *)
Definition gated (all : list string) (h : Z) (id : string) (skipped : bool)
    (extra : list string) s p : Prop :=
  winv all h extra s p /\ head (queue_of skipped s) = Some id /\
  count (decode_budget p) < h /\
  exists r, reqs s !! id = Some r /\ schedulable r /\ request_id r = id.

Definition gate_ok (all : list string) (h : Z) (id : string) (skipped : bool) s0 p0
    (x : flow (@state E B) * list string) : Prop :=
  match x with
  | (Go (s, p), extra) => gated all h id skipped extra s p /\
      pending s = pending s0 /\ running s = running s0 /\ p = p0
  | (Skip (s, p), extra) => winv all h extra s p /\ pending s0 = S (pending s)
  | (Break (s, p), extra) => winv all h extra s p
  end.

Lemma head_queued skipped s id : head (queue_of skipped s) = Some id -> id ∈ queued s.
Proof.
  unfold queue_of, queued. destruct skipped, (skipped_waiting s), (waiting s); cbn;
    intros [= ->]; set_solver.
Qed.

Lemma skip_ok all h extra skipped s p id q : winv all h extra s p ->
  head (queue_of skipped s) = Some id ->
  winv all h (queue_prepend q id extra) (pop_waiting skipped s) p /\
  pending s = S (pending (pop_waiting skipped s)).
Proof.
  intros Hw Hh. split; [|by apply (pop_waiting_perm _ _ id)].
  eapply winv_pop; [done|done|apply law_prepend].
Qed.

Lemma waiting_gate_ok all h extra skipped s p id : winv all h extra s p ->
  head (queue_of skipped s) = Some id ->
  returns (waiting_gate cfg id skipped extra (s, p)) (gate_ok all h id skipped s p).
Proof.
  intros Hw Hh. assert (id ∈ queued s ++ extra) as Hin
    by (apply elem_of_app; left; by eapply head_queued).
  destruct (winv_queued _ _ _ _ _ _ Hw Hin) as (r & Hr & Hok & Hid).
  unfold waiting_gate. rewrite (get_req_ok _ _ r) by done. cbn [mbind res_bind].
  destruct (can_admit _ _) eqn:Ec; cbn [negb]; [|done].
  assert (count (decode_budget p) < h) as Hc.
  { destruct Hw as [_ _ _ (_ & <- & _) _ _ _ _ _]. unfold can_admit in Ec.
    destruct (_ <=? _) eqn:E1; zbool; [done|lia]. }
  set (pr := if is_blocked_waiting_status (status r) then _ else _).
  assert (exists b r' e, pr = (b, r', e) /\ request_id r' = id /\ waiting_ok r' /\
            (b = true -> status r' = WAITING \/ status r' = PREEMPTED))
    as (b & r' & e & -> & Hid' & Hok' & Hb).
  { unfold pr. destruct (is_blocked_waiting_status (status r)) eqn:Eb.
    - destruct (try_promote_blocked r (env s)) as [[b r'] e] eqn:Ep.
      apply law_promote in Ep as ((H1 & _) & H2 & H3); [|done].
      exists b, r', e. split; [done|]. split; [congruence|]. by split.
    - exists true, r, (env s). do 3 (split; [done|]). intros _.
      apply law_blocked; [done|apply Hok]. }
  assert (winv all h extra (put_req r' (set_env e s)) p) as Hw'.
  { apply winv_put; [by apply winv_env| |done]. by rewrite Hid'. }
  assert (head (queue_of skipped (put_req r' (set_env e s))) = Some id) as Hh' by done.
  assert (gate_ok all h id skipped s p
    (Skip (pop_waiting skipped (put_req r' (set_env e s)), p),
     queue_prepend (reqs (put_req r' (set_env e s))) id extra)) as Hskip.
  { by apply (skip_ok all h extra skipped (put_req r' (set_env e s)) p id). }
  destruct b; cbn [negb]; [|exact Hskip].
  assert (gate_ok all h id skipped s p (Go (put_req r' (set_env e s), p), extra)) as Hgo.
  { split; [|done]. split; [done|]. split; [done|]. split; [done|].
    exists r'. split; [cbn; rewrite Hid'; apply lookup_insert_eq|]. by split; [split; auto|]. }
  destruct (max_loras cfg), (lora_int_id r'); try exact Hgo.
  destruct (_ && _); [exact Hskip|exact Hgo].
Qed.
(** *** What is already computed *)

Definition plan_ok (r : Request) (pl : @prefix_plan B M) : Prop :=
  num_computed_tokens r <= pl_computed pl /\
  (pl_load_async pl = false -> pl_computed pl < num_tokens r) /\
  (pl_load_async pl = true -> 0 < pl_external pl).

(** Same request up to the bookkeeping of the prefix caches. *)
Definition prefix_eq (r r' : Request) : Prop :=
  request_id r' = request_id r /\ num_tokens r' = num_tokens r /\
  status r' = status r /\ num_computed_tokens r' = num_computed_tokens r /\
  num_prompt_tokens r' = num_prompt_tokens r /\
  (prefill_stats r' <> None -> prefill_stats r <> None).

Lemma schedulable_prefix_eq r r' : prefix_eq r r' -> schedulable r -> schedulable r'.
Proof.
  unfold prefix_eq, schedulable, waiting_ok, req_ok.
  intros (_ & H1 & H2 & H3 & H4 & H5). rewrite H1, H2, H3, H4. naive_solver.
Qed.

Lemma gated_put all h id skipped extra s p r r' e : gated all h id skipped extra s p ->
  reqs s !! id = Some r -> prefix_eq r r' ->
  gated all h id skipped extra (set_env e (put_req r' s)) p /\
  reqs (set_env e (put_req r' s)) !! id = Some r'.
Proof.
  intros (Hw & Hh & Hc & r0 & Hr0 & Hs & Hid) Hr Heq.
  assert (r0 = r) as -> by congruence. pose proof Heq as (Hid' & _). rewrite Hid in Hid'.
  assert (reqs (set_env e (put_req r' s)) !! id = Some r') as Hl
    by (cbn; rewrite Hid'; apply lookup_insert_eq).
  split; [|done]. pose proof (schedulable_prefix_eq _ _ Heq Hs) as Hs'.
  split; [|split; [done|split; [done|exists r'; by split]]].
  apply winv_env, winv_put; [done| |apply Hs'].
  rewrite Hid'. apply elem_of_app. left. by eapply head_queued.
Qed.

Definition prefix_ok (all : list string) (h : Z) (id : string) (skipped : bool) s0
    (extra : list string) p (r : Request) (x : option (@prefix_plan B M) * Scheduler) : Prop :=
  let '(plan, s) := x in
  gated all h id skipped extra s p /\ (pending s = pending s0 /\ running s = running s0) /\
  match plan with
  | None => True
  | Some pl => exists r', reqs s !! id = Some r' /\ prefix_eq r r' /\ plan_ok r' pl
  end.

(** The sub-block match leaves a token to compute, and only ever replaces what the
    connector found when it is at least as long. *)
Lemma try_sub_block_match_ok r l ext e m k e' :
  try_sub_block_match cfg r l ext e = (m, k, e') -> 0 <= l < num_tokens r ->
  0 <= k /\ (k <> 0 -> l + k < num_tokens r /\ ext <= k).
Proof.
  unfold try_sub_block_match. destruct (negb _); [intros; simplify_eq; lia|].
  destruct (get_computed_blocks_sub_block r l e) as [[m'|] e2] eqn:Em; [|intros; simplify_eq; lia].
  apply law_match in Em as [H1 H2].
  destruct (ext <=? _) eqn:El; zbool; intros; simplify_eq; lia.
Qed.
Lemma waiting_prefix_ok all h id skipped extra s p r : gated all h id skipped extra s p ->
  reqs s !! id = Some r ->
  returns (waiting_prefix cfg id s) (prefix_ok all h id skipped s extra p r).
Proof.
  intros Hg Hr. pose proof Hg as (Hw & Hh & _ & r0 & Hr0 & Hs & Hid).
  assert (r0 = r) as -> by congruence.
  destruct Hs as [((Hpos & Hnn & Hst) & _ & Hlt) Hstat]. specialize (Hlt Hstat).
  unfold waiting_prefix. rewrite (get_req_ok _ _ r) by done. cbn [mbind res_bind].
  destruct (num_computed_tokens r =? 0) eqn:E0; cbn [negb]; zbool.
  2:{ split; [done|]. split; [done|]. exists r. split; [done|].
      split; [by repeat split|]. split; [cbn; lia|]. by split. }
  destruct (get_computed_blocks r (env s)) as [[[blocks l] bd] e1] eqn:Ec.
  pose proof (law_computed _ _ _ _ _ _ Ec Hpos) as Hl.
  set (r1 := with_shared_prefix_boundary bd r).
  set (pe := if has_connector cfg then _ else (Some 0, false, _)).
  destruct pe as [[ext async] e2] eqn:Epe.
  assert (forall x, ext = Some x -> 0 <= x /\ l + x <= num_tokens r /\
            (if async then 0 < x else l + x < num_tokens r)) as Hext.
  { intros x ->. unfold pe in Epe. destruct (has_connector cfg).
    - apply law_matched in Epe; [done|]. cbn. change (l < num_tokens r). lia.
    - simplify_eq. lia. }
  destruct (gated_put _ _ _ _ _ _ _ r r1 e1 Hg Hr) as [Hg1 Hl1]; [by repeat split|].
  destruct ext as [ext|].
  2:{ cbn. destruct (gated_put _ _ _ _ _ _ _ r1 r1 e2 Hg1 Hl1) as [Hg2 _]; [by repeat split|].
      split; [|done]. revert Hg2. unfold put_req, set_env, set_reqs. cbn.
      by rewrite insert_insert_eq. }
  set (r2 := if has_connector cfg then _ else r1).
  destruct (if _ && bool_decide (status r2 = PREEMPTED) then _ else _)
    as [[m k] e3] eqn:Esub.
  assert (0 <= k /\ (k <> 0 -> l + k < num_tokens r /\ ext <= k)) as [Hk0 Hk].
  { destruct (_ && _); [simplify_eq; lia|].
    apply try_sub_block_match_ok in Esub; unfold r2 in *; by destruct (has_connector cfg). }
  set (cancel := (0 <? k) && (0 <? ext)).
  set (r3 := if cancel then _ else r2). set (ext' := if cancel then 0 else ext).
  set (async' := if cancel then false else async).
  destruct (Hext ext eq_refl) as (Hx0 & Hx1 & Hx2).
  assert (0 <= ext' /\ l + k + ext' <= num_tokens r /\
          (if async' then 0 < ext' else l + k + ext' < num_tokens r)) as (Hc0 & Hc1 & Hc2).
  { unfold async', ext', cancel. destruct (0 <? k) eqn:E1, (0 <? ext) eqn:E2; cbn; zbool;
      destruct async; lia. }
  assert (prefix_eq r r3) as Heq3
    by (unfold r3, r2, r1; destruct cancel, (has_connector cfg); by repeat split).
  pose proof Heq3 as (_ & Hn3 & _ & _ & Hp3 & Hst3).
  apply returns_require; [apply Z.leb_le; by rewrite Hn3|].
  apply returns_require.
  { destruct (prefill_stats r3) as [x|] eqn:E3; [|done]. apply Z.leb_le.
    rewrite Hp3, <- Hst; [lia|]. by apply Hst3. }
  set (r4 := match prefill_stats r3 with None => r3 | Some _ => _ end).
  assert (prefix_eq r r4) as Heq4.
  { unfold r4. destruct (prefill_stats r3) as [x|]; [|done].
    destruct Heq3 as (? & ? & ? & ? & ? & _). do 5 (split; [done|]). intros _. by apply Hst3. }
  assert (prefix_eq r1 r4) as Heq14 by exact Heq4.
  destruct (gated_put _ _ _ _ _ _ _ r1 r4 e3 Hg1 Hl1 Heq14) as [Hg4 Hl4].
  split; [exact Hg4|]. split; [done|]. exists r4. split; [exact Hl4|]. split; [done|].
  destruct Heq4 as (_ & Hn4 & _ & Hc4 & _). unfold plan_ok. cbn. rewrite Hc4, Hn4.
  destruct async'; split; try lia; split; try done; lia.
Qed.
Lemma waiting_num_new_tokens_ok r pl s p : plan_ok r pl -> pl_load_async pl = false ->
  returns (waiting_num_new_tokens cfg r pl (s, p)) (fun o =>
    match o with
    | None => True
    | Some (n, _) =>
        0 < n <= num_tokens r - pl_computed pl /\ n <= max_num_scheduled_tokens cfg /\
        (is_prefill r = true -> scheduled_new_reqs p = [] /\ scheduled_resumed_reqs p = [])
    end).
Proof.
  intros (Hc & Hlt & _) Hasync. specialize (Hlt Hasync). unfold waiting_num_new_tokens.
  set (n0 := num_tokens r - pl_computed pl).
  set (n1 := if _ && (_ <? n0) then _ else n0).
  assert (0 < n1 <= n0) as Hn1.
  { unfold n1. destruct (_ && _) eqn:E1; [|lia]. apply andb_true_iff in E1. zbool.
    destruct E1. zbool. lia. }
  destruct (_ && (_ <? n1)); [done|].
  apply returns_require; [apply Z.ltb_lt; lia|].
  destruct (is_prefill r && _) eqn:Ep; [done|].
  assert (is_prefill r = true -> scheduled_new_reqs p = [] /\ scheduled_resumed_reqs p = [])
    as Hlone.
  { intros Hpre. rewrite Hpre in Ep. cbn in Ep. zbool. unfold len in *.
    destruct (scheduled_new_reqs p), (scheduled_resumed_reqs p); cbn in *; done || lia. }
  destruct (has_encoder_inputs r); [|cbn; split; [lia|split; [lia|done]]].
  destruct (try_schedule_encoder_inputs _ _ _ _ _ _) as [[[i n2] b] x] eqn:Ee.
  apply law_encoder in Ee; [|lia]. destruct (n2 =? 0) eqn:E2; zbool; [done|].
  cbn. split; [lia|split; [lia|done]].
Qed.

(** *** Eviction of the decode batch *)

Lemma qinv_spec rs run w id r r' : qinv rs run w -> rs !! id = Some r -> spec_eq r r' ->
  id ∈ run -> qinv (<[id := r']> rs) run w.
Proof.
  intros [] Hr Hs Hid. pose proof (spec_eq_fields _ _ Hs) as (Hi & _).
  split; [done| | |].
  - intros y ry. destruct (decide (y = id)) as [->|Hy].
    + rewrite lookup_insert_eq. intros [= <-]. rewrite <- Hi. auto.
    + rewrite lookup_insert_ne by done. auto.
  - intros y Hy. destruct (decide (y = id)) as [->|Hyn].
    + rewrite lookup_insert_eq. destruct (q_running id Hy) as (r0 & H0 & Hok).
      simplify_eq. eauto using req_ok_spec_eq.
    + rewrite lookup_insert_ne by done. auto.
  - intros y Hy. rewrite lookup_insert_ne; [auto|]. intros <-.
    apply NoDup_app in q_nodup as (_ & Hdis & _). by apply (Hdis id).
Qed.

Lemma prefilling_spec s id r r' : reqs s !! id = Some r -> spec_eq r r' -> request_id r' = id ->
  forall y, prefilling (put_req r' s) y = prefilling s y.
Proof.
  intros Hr Hs Hid y. unfold prefilling. cbn. rewrite Hid. destruct (decide (y = id)) as [->|Hy].
  - rewrite lookup_insert_eq, Hr. by apply spec_eq_fields in Hs as (_ & <- & _).
  - by rewrite lookup_insert_ne.
Qed.

(** What the eviction leaves of the step, [rest] being what is not evicted. *)
Definition evicted (max b : Z) (rest w : list string) s p s' p' : Prop :=
  pinv max (running s') rest (req_to_new_blocks p') (num_scheduled_tokens p') b /\
  qinv (reqs s') (running s') w /\
  (running s' = running s /\ waiting s' = waiting s /\ skipped_waiting s' = skipped_waiting s) /\
  (scheduled_new_reqs p' = scheduled_new_reqs p /\
   scheduled_resumed_reqs p' = scheduled_resumed_reqs p) /\
  decode_budget p' = decode_budget p /\
  (forall y, prefilling s' y = prefilling s y) /\
  (forall y, y ∈ rest -> od_get y (num_scheduled_tokens p') = od_get y (num_scheduled_tokens p)) /\
  (deltas_running s -> deltas_running s').

Lemma evict_running_ok max b rest w ids : forall s p,
  pinv max (running s) (ids ++ rest) (req_to_new_blocks p) (num_scheduled_tokens p) b ->
  qinv (reqs s) (running s) w ->
  returns (evict_running ids (s, p)) (fun '(s', p') => evicted max b rest w s p s' p').
Proof.
  induction ids as [|id ids IH]; intros s p Hp Hq; [by repeat (split; [done|]); cbn; auto|].
  assert (id ∈ id :: ids ++ rest) as Hin by set_solver.
  destruct (pinv_lookup _ _ _ _ _ _ _ Hp Hin) as (n & blk & Hn & Hblk).
  pose proof (pi_running _ _ _ _ _ _ Hp id Hin) as Hrun.
  destruct (q_running _ _ _ Hq id Hrun) as (r & Hr & _).
  assert (request_id r = id) as Hid by (by apply (q_id _ _ _ Hq)).
  cbn [evict_running]. rewrite (get_req_ok _ _ r) by done. cbn [mbind res_bind].
  rewrite Hblk. cbn [of_option mbind res_bind]. rewrite Hn. cbn [of_option mbind res_bind].
  match goal with |- context [evict_running ids (?a, ?c)] => set (s1 := a); set (p1 := c) end.
  set (r' := with_spec_token_ids (default [] (od_get id (scheduled_spec_decode_tokens p))) r).
  assert (spec_eq r r') as Hsp by apply spec_eq_with.
  assert (running s1 = running s /\ waiting s1 = waiting s /\
          skipped_waiting s1 = skipped_waiting s /\ reqs s1 = <[id := r']> (reqs s))
    as (H1 & H2 & H3 & H4).
  { unfold s1, add_pending_runner_block_delta. destruct (has_blocks blk); cbn; by rewrite Hid. }
  assert (deltas_running s -> deltas_running s1) as H5.
  { intros Hd y. rewrite H1. unfold s1, add_pending_runner_block_delta.
    destruct (has_blocks blk); cbn; [|apply Hd]. destruct (decide (y = id)) as [->|Hy]; [done|].
    rewrite lookup_insert_ne by done. apply Hd. }
  eapply returns_mono; [apply IH|].
  - rewrite H1. cbn.
    pose proof (pinv_remove _ _ (running s) _ _ _ _ _ id n Hp (reflexivity _) Hn
                  (fun k _ H => H)) as Hp'.
    pose proof (pi_pos _ _ _ _ _ _ Hp _ _ Hn).
    pose proof (pi_budget _ _ _ _ _ _ Hp). destruct Hp'. split; try done. lia.
  - rewrite H1, H4. by apply (qinv_spec _ _ _ id r).
  - intros [s' p'] (Ha & Hb & (Hc1 & Hc2 & Hc3) & Hd & He & Hf & Hg & Hi).
    split; [done|]. split; [done|]. split; [by rewrite Hc1, Hc2, Hc3|]. split; [done|].
    split; [done|]. split; [|split; [|auto]].
    + intros y. rewrite Hf, <- (prefilling_spec s id r r') by done.
      unfold prefilling. rewrite H4. cbn. by rewrite Hid.
    + intros y Hy. rewrite Hg by done. cbn. rewrite od_get_pop. rewrite decide_False; [done|].
      intros ->. apply pi_nodup in Hp. cbn in Hp. apply NoDup_cons_1_1 in Hp. set_solver.
Qed.
(** *** Admission *)

Lemma qinv_admit rs run w w' id r : qinv rs run w -> w ≡ₚ id :: w' -> request_id r = id ->
  req_ok r -> qinv (<[id := r]> rs) (run ++ [id]) w'.
Proof.
  intros [] Hp Hid Hok.
  assert (NoDup (id :: run ++ w')) as Hnd.
  { revert q_nodup. rewrite Hp. by rewrite Permutation_middle. }
  apply NoDup_cons in Hnd as [Hn Hnd]. split.
  - rewrite <- app_assoc. cbn. rewrite <- Permutation_middle. by apply NoDup_cons.
  - intros y ry. destruct (decide (y = id)) as [->|Hy].
    + rewrite lookup_insert_eq. naive_solver.
    + rewrite lookup_insert_ne by done. auto.
  - intros y Hy. destruct (decide (y = id)) as [->|Hyn].
    + rewrite lookup_insert_eq. eauto.
    + rewrite lookup_insert_ne by done. apply q_running. set_solver.
  - intros y Hy. rewrite lookup_insert_ne by set_solver. apply q_waiting. rewrite Hp. set_solver.
Qed.

Lemma odict_singleton {V} (d : odict string V) id v : NoDup (od_keys d) ->
  (forall k, k ∈ [id] <-> k ∈ od_keys d) -> od_get id d = Some v -> d = [(id, v)].
Proof.
  unfold od_keys. destruct d as [|[k1 v1] [|[k2 v2] d]]; cbn; [done| |].
  - intros _ Hk. case_decide; [naive_solver|done].
  - intros Hnd Hk. exfalso. assert (k1 = id) as -> by (apply list_elem_of_singleton, Hk; set_solver).
    assert (k2 = id) as -> by (apply list_elem_of_singleton, Hk; set_solver).
    apply NoDup_cons_1_1 in Hnd. set_solver.
Qed.

Lemma pinv_more max run ids B' (blocks : gmap string B') nst b n : 0 <= n ->
  pinv max run ids blocks nst b -> pinv (max + n) run ids blocks nst (b + n).
Proof. intros Hn []. split; try done; lia. Qed.

(** The admission of a prefill: the decode batch goes, the prefill stays alone. *)
Lemma evict_batch_ok all h extra s p id n b :
  qinv (reqs s) (running s) (queued s ++ extra) ->
  pinv (max_num_scheduled_tokens cfg + n) (running s) (scheduled_running_reqs p ++ [id])
    (req_to_new_blocks p) (num_scheduled_tokens p) b ->
  scheduled_new_reqs p ++ scheduled_resumed_reqs p = [id] ->
  od_get id (num_scheduled_tokens p) = Some n -> n <= max_num_scheduled_tokens cfg ->
  1 <= h -> len (running s) <= max_num_running_reqs cfg -> prefilling s id = true ->
  all ≡ₚ running s ++ queued s ++ extra -> deltas_running s ->
  (clean -> forall id, id ∈ removelast (running s) -> prefilling s id = false) ->
  returns (evict_batch cfg (s, p)) (fun '(s', p') =>
    settled all h extra s' p' /\ pending s' = pending s).
Proof.
  intros Hq Hp Hadm Hn Hmax Hh Hrun Hpre Hall Hdl Htr. unfold evict_batch.
  eapply returns_bind; [by apply (evict_running_ok (max_num_scheduled_tokens cfg + n) b [id] (queued s ++ extra))|].
  intros [s' p'] (Hp' & Hq' & (Hr' & Hw' & Hk') & (Hnew & Hres) & _ & Hpre' & Hget & Hdl'). cbn.
  assert (num_scheduled_tokens p' = [(id, n)]) as Hnst.
  { apply odict_singleton; [apply Hp'|apply Hp'|]. rewrite Hget by set_solver. done. }
  split; [|unfold pending; by rewrite Hw', Hk'].
  assert (sched (step_tokens (req_to_new_blocks p') (num_scheduled_tokens p')
    (max_num_scheduled_tokens cfg) (step_budget (budget_reset (decode_budget p'))
       (step_running [] p'))) = [id]) as Hsched.
  { unfold sched. cbn. by rewrite Hnew, Hres. }
  assert (queued s' = queued s) as Hqs by (unfold queued; by rewrite Hw', Hk').
  split; rewrite ?Hqs, ?Hsched; cbn; try done; try lia.
  - destruct Hp'. split; try done. rewrite Hnst. unfold od_values. cbn. lia.
  - by rewrite Hr'.
  - right. exists id. split; [done|]. change (prefilling s' id = true). by rewrite Hpre'.
  - by rewrite Hr'.
  - by apply Hdl'.
  - intros Hcl y. rewrite Hr'. intros Hy. change (prefilling s' y = false).
    rewrite Hpre'. by apply Htr.
Qed.
(** The scheduler once the request [r] has joined [running]. *)
Definition joined (r : Request) (e : E) s : Scheduler :=
  set_env e (put_req r (set_running (running s ++ [request_id r]) s)).

Lemma joined_ok all h extra s p r e : winv all h (request_id r :: extra) s p -> req_ok r ->
  let s' := joined r e s in
  qinv (reqs s') (running s') (queued s' ++ extra) /\ accounted cfg s' p /\
  (request_id r ∉ sched p) /\ all ≡ₚ running s' ++ queued s' ++ extra /\
  prefilling s' (request_id r) = is_prefill r /\
  (forall y, y ∈ sched p -> prefilling s' y = false) /\ deltas_running s' /\
  (clean -> forall y, y ∈ running s -> prefilling s' y = false).
Proof.
  intros [Hq Hp _ _ _ Hdec Hall Hdl Hcl] Hok s'. set (id := request_id r) in *.
  assert (id ∉ running s) as Hnr.
  { intros Hin. destruct Hq as [Hnd _ _ _]. apply NoDup_app in Hnd as (_ & Hdis & _).
    apply (Hdis id Hin). set_solver. }
  assert (id ∉ sched p) as Hns by (intros Hin; by apply (pi_running _ _ _ _ _ _ Hp) in Hin).
  split; [|split; [|split; [done|split; [|split; [|split; [|split]]]]]].
  - apply (qinv_admit _ _ (queued s ++ id :: extra)); [done| |done|done].
    by rewrite <- Permutation_middle.
  - unfold accounted. eapply pinv_weaken; [reflexivity| |exact Hp].
    intros y _ Hy. cbn. set_solver.
  - cbn. rewrite Hall. change (queued s') with (queued s). fold id. solve_Permutation.
  - unfold prefilling. cbn. fold id. by rewrite lookup_insert_eq.
  - intros y Hy. unfold prefilling. cbn. fold id. rewrite lookup_insert_ne; [by apply Hdec|].
    by intros ->.
  - intros y Hy%Hdl. cbn. set_solver.
  - intros Hc y Hy. unfold prefilling. cbn. fold id. rewrite lookup_insert_ne; [by apply Hcl|].
    by intros ->.
Qed.

Lemma admit_lists r id p : status r = WAITING \/ status r = PREEMPTED -> exists a c,
  match status r with
  | WAITING => Ok (step_admitted (scheduled_new_reqs p ++ [id]) (scheduled_resumed_reqs p) p)
  | PREEMPTED => Ok (step_admitted (scheduled_new_reqs p) (scheduled_resumed_reqs p ++ [id]) p)
  | _ => Raise RuntimeError
  end = Ok (step_admitted a c p) /\
  a ++ c ≡ₚ id :: scheduled_new_reqs p ++ scheduled_resumed_reqs p.
Proof.
  intros [-> | ->]; eexists _, _; (split; [reflexivity|]); solve_Permutation.
Qed.

Lemma record_loras_eq (m l : option Z) p : exists x,
  match m, l with Some _, Some l => step_loras ({[l]} ∪ scheduled_loras p) p | _, _ => p end
  = step_loras x p.
Proof.
  destruct m, l; eexists; try reflexivity; instantiate (1 := scheduled_loras p); by destruct p.
Qed.

Lemma admit_waiting_ok all h extra s p id r pl n plan :
  winv all h (id :: extra) s p -> reqs s !! id = Some r -> schedulable r ->
  plan_ok r pl -> pl_load_async pl = false -> 0 < n <= num_tokens r - pl_computed pl ->
  n <= max_num_scheduled_tokens cfg -> 0 < token_budget p -> count (decode_budget p) < h ->
  len (running s) < max_num_running_reqs cfg ->
  (is_prefill r = true -> scheduled_new_reqs p = [] /\ scheduled_resumed_reqs p = []) ->
  returns (admit_waiting cfg id pl n plan (s, p)) (fun '(again, (s', p')) =>
    pending s' = pending s /\
    if (again : bool) then winv all h extra s' p' else settled all h extra s' p').
Proof.
  intros Hw Hr [((Hpos & Hnn & Hst) & _) Hstat] (Hc & _) Hasync Hn Hmax Htb Hcnt Hrun Hlone.
  pose proof (q_id _ _ _ (w_queues _ _ _ _ _ Hw) _ _ Hr) as Hid. subst id.
  unfold admit_waiting. rewrite (get_req_ok _ _ r) by done. cbn [mbind res_bind].
  destruct (admit_lists r (request_id r) p Hstat) as (a & c & -> & Hac). cbn [mbind res_bind].
  destruct (record_loras_eq (max_loras cfg) (lora_int_id r) (step_admitted a c p)) as [x ->].
  set (r' := with_num_computed_tokens (pl_computed pl) (with_status RUNNING r)).
  match goal with |- context [record_encoder _ r' plan (?s0, ?p0)] =>
    destruct (record_encoder_eq cfg r' plan s0 p0) as (e & enc & eb & ->) end.
  match goal with |- context [budget_admit (decode_budget ?p0) 1] => set (p3 := p0) end.
  destruct (joined_ok all h extra s p r' e Hw) as (Hq3 & Hp3 & Hns & Hall3 & Hpre & Hdec & Hdl3 & Hcl3).
  { split; [done|]. split; [cbn; lia|done]. }
  change (set_env e _) with (joined r' e s). set (s3 := joined r' e s) in *.
  assert (sched p3 ≡ₚ request_id r :: sched p) as Hs3
    by (unfold sched; cbn; rewrite Hac; solve_Permutation).
  assert (request_id r ∈ running s3) as Hin3 by (cbn; set_solver).
  assert (len (running s3) <= max_num_running_reqs cfg) as Hrun3
    by (cbn; rewrite len_app; unfold len in *; cbn; lia).
  assert (len (sched p3) = len (sched p) + 1) as Hl3 by (unfold len; rewrite Hs3; cbn [length]; lia).
  destruct Hw as [_ _ Hcount (Hcap & Hhard & Hh) _ _ _ _ _].
  unfold is_prefill in Hpre. cbn in Hpre. change (num_tokens r') with (num_tokens r) in Hpre.
  destruct (is_prefill r') eqn:Epre; cbn [negb]; unfold is_prefill in Epre;
    change (num_tokens r') with (num_tokens r) in Epre; cbn in Epre; zbool.
  - destruct Hlone as [Hnew Hres]; [unfold is_prefill; apply Z.ltb_lt; lia|].
    rewrite Hnew, Hres in Hac. eapply returns_bind.
    + apply (evict_batch_ok all h extra s3 p3 (request_id r) n (token_budget p)); try done.
      * replace (token_budget p) with (token_budget p + n - n) by lia.
        eapply pinv_add; [apply pinv_more; [lia|exact Hp3]| |done|done|lia|lia].
        cbn. unfold sched. rewrite Hnew, Hres, app_nil_r. solve_Permutation.
      * cbn. by apply Permutation_singleton_r.
      * cbn. rewrite od_get_set. by rewrite decide_True.
      * rewrite Hpre. apply Z.ltb_lt. lia.
      * intros Hcl y. unfold s3. cbn. rewrite removelast_last. by apply Hcl3.
    + intros [s' p'] [Hset Hpend]. cbn. by rewrite Hpend.
  - assert (n = 1) as -> by lia.
    apply returns_require; [done|]. cbn [returns]. split; [done|]. split; try done.
    + unfold accounted. eapply pinv_add; [exact Hp3|exact Hs3|done|done|lia|cbn; lia].
    + change (count (decode_budget p) + 1 = len (sched p3)). lia.
    + change (len (sched p3) <= h /\ hard_cap (decode_budget p) = h /\ 1 <= h). lia.
    + intros y Hy. change (y ∈ sched p3) in Hy. rewrite Hs3 in Hy.
      apply elem_of_cons in Hy as [->|Hy]; [|by apply Hdec].
      rewrite Hpre. apply Z.ltb_ge. lia.
    + intros Hcl y. unfold s3. cbn. intros [Hy|Hy]%elem_of_app; [by apply Hcl3|].
      apply list_elem_of_singleton in Hy as ->. change (prefilling s3 (request_id r) = false).
      rewrite Hpre. apply Z.ltb_ge. lia.
Qed.
(** *** The rest of the loop body *)

Lemma pinv_no_budget max run ids B' (blocks : gmap string B') nst b :
  pinv max run ids blocks nst b -> pinv max run ids blocks nst 0.
Proof. intros []. split; try done; lia. Qed.

(** A loop that stops before it admits a prefill leaves a batch of decodes. *)
Lemma winv_settled all h extra s p : winv all h extra s p -> settled all h extra s p.
Proof.
  intros []. split; try done; try tauto.
  - by eapply pinv_no_budget.
  - apply (pi_budget _ _ _ _ _ _ w_step0).
  - by left.
  - intros Hcl id Hid. apply w_clean0; [done|]. revert Hid.
    destruct (last (running s)) as [x|] eqn:El.
    + apply last_Some in El as [l ->]. rewrite removelast_last. set_solver.
    + apply last_None in El as ->. done.
Qed.

Definition body_ok (all : list string) (h : Z) (n : nat)
    (x : flow (@state E B) * list string) : Prop :=
  match x with
  | (Go _, _) => False
  | (Skip (s, p), extra) => winv all h extra s p /\ n = S (pending s)
  | (Break (s, p), extra) => settled all h extra s p
  end.

Lemma pop_waiting_same skipped s :
  running (pop_waiting skipped s) = running s /\ reqs (pop_waiting skipped s) = reqs s.
Proof. unfold pop_waiting. by destruct skipped. Qed.

Lemma waiting_commit_ok all h id skipped extra s p r pl n plan :
  gated all h id skipped extra s p -> reqs s !! id = Some r -> plan_ok r pl ->
  (pl_load_async pl = false -> 0 < n <= num_tokens r - pl_computed pl /\
     n <= max_num_scheduled_tokens cfg /\
     (is_prefill r = true -> scheduled_new_reqs p = [] /\ scheduled_resumed_reqs p = [])) ->
  0 < token_budget p -> len (running s) < max_num_running_reqs cfg ->
  returns (waiting_commit cfg id skipped pl n plan extra (s, p)) (body_ok all h (pending s)).
Proof.
  intros (Hw & Hh & Hcnt & r0 & Hr0 & Hs & Hid) Hr Hpl Htok Htb Hrun.
  assert (r0 = r) as -> by congruence. unfold waiting_commit.
  rewrite (get_req_ok _ _ r) by done. cbn [mbind res_bind].
  match goal with |- context [pop_waiting skipped (set_env ?e0 s)] => set (e := e0) end.
  destruct (pop_waiting_perm skipped (set_env e s) id Hh) as [_ Hpend].
  destruct (pop_waiting_same skipped (set_env e s)) as [Hrun' Hreqs'].
  destruct (pl_load_async pl) eqn:Ea.
  - cbn [returns body_ok]. split; [|done].
    set (s1 := pop_waiting skipped (set_env e s)) in *.
    assert (winv all h (queue_prepend (reqs (put_req (with_num_computed_tokens (pl_computed pl)
      (with_status WAITING_FOR_REMOTE_KVS r)) s1)) id extra) s1 p) as Hw1.
    { eapply winv_pop; [by apply winv_env|done|apply law_prepend]. }
    apply winv_put; [done| |].
    + cbn. rewrite Hid. apply elem_of_app. right. rewrite law_prepend. set_solver.
    + destruct Hs as [((? & ? & ?) & _) _], Hpl as (? & _).
      repeat split; cbn; try done; try lia. naive_solver.
  - destruct Htok as (Hn & Hmax & Hlone); [done|].
    eapply returns_bind.
    + apply (admit_waiting_ok all h extra _ p id r pl n plan); try done.
      * eapply winv_pop; [by apply winv_env|done|reflexivity].
      * by rewrite Hreqs'.
      * by rewrite Hrun'.
    + intros [again [s' p']] [Hp' Hres]. cbn. destruct again; cbn; [|done].
      split; [done|]. cbn in Hpend. rewrite Hp'. done.
Qed.

Lemma settled_release all h extra s p m : winv all h extra s p ->
  settled all h extra (release_match m s) p.
Proof. intros Hw. destruct m; apply winv_settled; [by apply winv_env|done]. Qed.

Lemma waiting_body_ok all h id skipped extra s p :
  gated all h id skipped extra s p -> 0 < token_budget p ->
  len (running s) < max_num_running_reqs cfg ->
  returns (waiting_body cfg id skipped extra (s, p)) (body_ok all h (pending s)).
Proof.
  intros Hg Htb Hrun. pose proof Hg as (_ & _ & _ & r & Hr & _). unfold waiting_body.
  eapply returns_bind; [by apply (waiting_prefix_ok all h id skipped extra s p r)|].
  intros [plan s1] (Hg1 & [Hp1 Hr1] & Hpl). rewrite <- Hp1. rewrite <- Hr1 in Hrun.
  pose proof Hg1 as (Hw1 & Hh1 & _). destruct plan as [pl|].
  2:{ cbn [returns body_ok]. by apply (skip_ok all h extra skipped s1 p id). }
  destruct Hpl as (r1 & Hl1 & _ & Hpl).
  rewrite (get_req_ok _ _ r1) by done. cbn [mbind res_bind].
  eapply (returns_bind _ _ (fun o => match o with
    | None => True
    | Some (n, _) => 0 <= n /\ (pl_load_async pl = false ->
        0 < n <= num_tokens r1 - pl_computed pl /\ n <= max_num_scheduled_tokens cfg /\
        (is_prefill r1 = true -> scheduled_new_reqs p = [] /\ scheduled_resumed_reqs p = []))
    end)).
  { destruct (pl_load_async pl) eqn:Ea.
    - apply returns_require; [apply Z.ltb_lt, Hpl, Ea|]. by split.
    - eapply returns_mono; [by apply waiting_num_new_tokens_ok|].
      intros [[n ?]|]; [|done]. intros Hn. split; [lia|done]. }
  intros [[n [[inputs b] x]]|] Hn; [|by apply settled_release].
  destruct Hn as [Hn0 Hn].
  set (n' := if need_mamba_block_aligned_split cfg then _ else n).
  destruct (_ && (n' =? 0)) eqn:Estop; [by apply settled_release|].
  destruct (waiting_allocate cfg r1 pl n' inputs s1) as [[nb|] e].
  2:{ apply settled_release. destruct (has_encoder_inputs r1); by repeat apply winv_env. }
  assert (0 <= n' <= n /\ (0 < n -> 0 < n')) as [Hn1 Hn2].
  { unfold n' in *. destruct (need_mamba_block_aligned_split cfg); [|lia].
    pose proof (law_mamba r1 n (pl_local pl) (pl_external pl) Hn0).
    cbn in Estop. zbool. lia. }
  destruct Hg1 as (_ & _ & Hc1 & Hg1).
  eapply returns_mono; [apply (waiting_commit_ok all h id skipped extra _ p r1)|]; try done.
  - split; [by apply winv_env|]. split; [done|]. split; [done|exact Hg1].
  - intros Ha. destruct (Hn Ha) as ([? ?] & ? & ?). split; [lia|]. split; [lia|done].
Qed.

Lemma waiting_loop_ok all h fuel : forall extra s p,
  winv all h extra s p -> (pending s <= fuel)%nat ->
  returns (waiting_loop cfg fuel extra (s, p)) (fun '(s', p', extra') =>
    settled all h extra' s' p').
Proof.
  induction fuel as [|fuel IH]; intros extra s p Hw Hf; cbn [waiting_loop];
    destruct (bool_decide _ || _ || _) eqn:Econd; try (by apply winv_settled).
  - exfalso. apply orb_false_iff in Econd as [[Hq _]%orb_false_iff _]. zbool. apply Hq.
    unfold pending in Hf. destruct (waiting s), (skipped_waiting s); cbn in Hf; done || lia.
  - apply orb_false_iff in Econd as [[Hq Htb]%orb_false_iff Hrun]. zbool.
    set (skipped := select_skipped _ _ _).
    change (if skipped then skipped_waiting s else waiting s) with (queue_of skipped s).
    assert (exists id, head (queue_of skipped s) = Some id) as [id Hid].
    { pose proof (law_select (reqs s) (waiting s) (skipped_waiting s)) as Hsel.
      fold skipped in Hsel. unfold queue_of.
      destruct skipped, (waiting s), (skipped_waiting s); cbn in *; eauto; naive_solver. }
    rewrite Hid. cbn [of_option mbind res_bind].
    eapply returns_bind; [by apply (waiting_gate_ok all h)|].
    intros [[[s1 p1]|[s1 p1]|[s1 p1]] ex]; cbn [gate_ok].
    + intros (Hg1 & Hp1 & Hr1 & ->). pose proof (w_running _ _ _ _ _ Hw) as Hcap.
      eapply returns_bind.
      * by apply (waiting_body_ok all h id skipped ex s1 p Hg1); rewrite ?Hr1; [|lia].
      * intros [[[s2 p2]|[s2 p2]|[s2 p2]] ex2]; cbn [body_ok]; [done| |done].
        intros [Hw2 Hp2]. apply IH; [done|lia].
    + intros [Hw1 Hp1]. apply IH; [done|lia].
    + by apply winv_settled.
Qed.

(** The requests skipped on the way are put back in front of the older ones. *)
Lemma requeue_ok all h extra s p : settled all h extra s p ->
  settled all h [] (match extra with
    | [] => s
    | _ => set_queues (waiting s) (queue_prepend_all (reqs s) extra (skipped_waiting s)) s
    end) p.
Proof.
  intros Hs. destruct extra as [|x extra]; [done|]. destruct Hs as [Hq ? ? ? ? ? Hall ? ?].
  assert (queued (set_queues (waiting s) (queue_prepend_all (reqs s) (x :: extra)
            (skipped_waiting s)) s) ++ [] ≡ₚ queued s ++ x :: extra) as Hp.
  { unfold queued. cbn. rewrite law_prepend_all. solve_Permutation. }
  split; try done.
  - eapply qinv_perm; [|exact Hq]. by symmetry.
  - cbn. by rewrite Hp.
Qed.

(** Guard (B) and the loop behind it. *)
Lemma schedule_waiting_ok all h pause s p : winv all h [] s p \/ settled all h [] s p /\
    (exists id, scheduled_running_reqs p = [id] /\ prefilling s id = true) ->
  returns (schedule_waiting cfg pause (s, p)) (fun '(s', p') => settled all h [] s' p').
Proof.
  intros Hor. unfold schedule_waiting.
  destruct (_ && _ && _) eqn:Econd.
  - destruct Hor as [Hw|(_ & id & Hid & Hpre)].
    + eapply returns_bind; [by apply (waiting_loop_ok all h _ [] s p)|].
      intros [[s' p'] extra] Hs. pose proof (requeue_ok _ _ _ _ _ Hs). by destruct extra.
    + rewrite Hid, Hpre in Econd. by rewrite andb_false_r in Econd.
  - destruct Hor as [Hw|[Hs _]]; [by apply winv_settled|done].
Qed.
End wait.
