(* ===== verification/RblnSchedulerSpec.v ===== *)
(** * What one call of [schedule] guarantees

    The theorems about [RblnScheduler]: the step always goes through, its batch is in one
    phase and within the compiled bounds, no request is lost, and the blocks of an evicted
    decode batch reach the runner later. *)

From S2P Require Import Prelude VllmTypes CoreUtils RblnScheduler RblnSchedulerInv RblnSchedulerWait.

Section spec.
Context {E B M : Type} `{U : Upstream E B M}.
Variable cfg : SchedulerConfig.

Abbreviation Scheduler := (@Scheduler E B).
Abbreviation Step := (@Step B).
Implicit Types s : Scheduler.
Implicit Types p : Step.

(** The configuration checks of the platform: room for one token, and a microbatch for
    each pipeline stage. *)
Record config_ok : Prop := {
  c_tokens : 0 < max_num_scheduled_tokens cfg;
  c_pp : 1 <= pp_size cfg <= max_num_running_reqs cfg
}.

(** A scheduler between two steps: every request it holds is well formed, at most the last
    running one is still prefilling, and the running ones respect the limits. *)
Record ready s : Prop := {
  rd_queues : qinv (reqs s) (running s) (queued s);
  rd_running : forall id, id ∈ running s -> exists r, reqs s !! id = Some r /\ running_ok cfg r;
  rd_trailing : forall id, id ∈ removelast (running s) -> prefilling s id = false;
  rd_limit : len (running s) <= max_num_running_reqs cfg;
  rd_loras : forall m, max_loras cfg = Some m -> Z.of_nat (size (loras_of s (running s))) <= m;
  rd_deltas : deltas_running s
}.

(** ** The decision *)

Definition compiled_batch : Z := decode_batch_size (max_num_running_reqs cfg) (pp_size cfg).

(** The running requests a step visits: the trailing prefill alone, or all of them. *)
Definition candidates s : list string := drop (Z.to_nat (first_index s)) (running s).

Lemma candidates_phase s : ready s ->
  (forall id, id ∈ running s -> prefilling s id = false) \/
  (exists l id, running s = l ++ [id] /\ candidates s = [id] /\ prefilling s id = true /\
     forall y, y ∈ l -> prefilling s y = false).
Proof.
  intros [_ _ Htr _ _ _]. unfold candidates, first_index.
  destruct (last (running s)) as [x|] eqn:El.
  2:{ apply last_None in El. rewrite El. left. intros id Hid. by apply not_elem_of_nil in Hid. }
  apply last_Some in El as [l Hl]. rewrite Hl in *. rewrite removelast_last in Htr.
  destruct (prefilling s x) eqn:Ep.
  - right. exists l, x. split; [done|]. split; [|done].
    replace (Z.to_nat (len (l ++ [x]) - 1)) with (length l)
      by (unfold len; rewrite length_app; cbn; lia).
    by rewrite drop_app_length.
  - left. intros id. rewrite elem_of_app, list_elem_of_singleton. naive_solver.
Qed.

Lemma candidates_split s : exists d, running s = d ++ candidates s /\ len d = first_index s.
Proof.
  unfold candidates. exists (take (Z.to_nat (first_index s)) (running s)).
  split; [by rewrite take_drop|]. unfold len. rewrite length_take. unfold first_index.
  destruct (last (running s)) as [x|] eqn:El; [|cbn; lia].
  apply last_Some in El as [l ->]. destruct (prefilling s x); [|cbn; lia].
  unfold len. rewrite length_app. cbn. lia.
Qed.

Lemma rinv_start pause b s e : ready s -> config_ok -> count b = 0 ->
  rinv cfg s (set_env e s) (empty_step cfg pause b).
Proof.
  intros [Hq Hrun _ _ _ Hdl] [Ht _] Hb. split; cbn; try done.
  - unfold accounted. cbn. apply pinv_empty. destruct (decide _); lia.
  - intros id (r & Hr & _)%Hrun. exists r, r. by split.
  - by rewrite app_nil_r.
Qed.

Lemma prefilling_kept s0 s p id : rinv cfg s0 s p -> id ∈ running s ->
  prefilling s id = prefilling s0 id.
Proof.
  intros Hr (r0 & r & H0 & H1 & Hs)%(r_kept _ _ _ _ Hr). unfold prefilling.
  rewrite H0, H1. by apply spec_eq_fields in Hs as (_ & <- & _).
Qed.

Lemma loras_kept s0 s p : rinv cfg s0 s p ->
  loras_of s (scheduled_running_reqs p) ⊆ loras_of s0 (running s0).
Proof.
  intros Hr x. unfold loras_of. rewrite !elem_of_list_to_set, !list_elem_of_omap.
  intros (id & Hid & Hx). exists id.
  assert (id ∈ running s) as Hin.
  { apply (pi_running _ _ _ _ _ _ (r_step _ _ _ _ Hr)). by rewrite (sched_running cfg s0 s). }
  split; [rewrite (r_perm _ _ _ _ Hr); set_solver|].
  destruct (r_kept _ _ _ _ Hr id Hin) as (r0 & r & H0 & H1 & Hs). rewrite H0. rewrite H1 in Hx.
  by apply spec_eq_fields in Hs as (_ & _ & -> & _).
Qed.
Lemma record_loras_ok s0 s p : ready s0 -> rinv cfg s0 s p ->
  returns (record_loras cfg (s, p)) (fun '(s', p') => s' = s /\ exists l, p' = step_loras l p).
Proof.
  intros [_ _ _ _ Hl _] Hr. unfold record_loras. destruct (max_loras cfg) as [m|] eqn:Em.
  - apply returns_require; [|cbn; eauto]. apply Z.leb_le. specialize (Hl m eq_refl).
    pose proof (subseteq_size _ _ (loras_kept s0 s p Hr)). lia.
  - cbn. split; [done|]. exists (scheduled_loras p). by destruct p.
Qed.

Context `{L : !UpstreamLaws E B M}.

(** The trailing prefill, if there is one, has a chunk to compute. *)
Definition no_prefill_passed_over pause s : Prop :=
  pause <> PAUSED_ALL /\
  forall x r, last (running s) = Some x -> reqs s !! x = Some r -> is_prefill r = true ->
    running_num_new_tokens cfg r (empty_step cfg pause (mkBudget 1 1 0))
      (new_step_starts (env s)) <> None.

Lemma removelast_sublist (k l : list string) x : sublist k (l ++ [x]) -> NoDup (l ++ [x]) ->
  x ∈ k -> sublist (removelast k) l.
Proof.
  intros (k1 & k2 & -> & H1 & H2)%sublist_app_r Hnd Hx.
  apply NoDup_app in Hnd as (_ & Hdis & _).
  assert (x ∈ k2) as Hx2.
  { apply elem_of_app in Hx as [Hx|Hx]; [|done]. destruct (Hdis x); [|set_solver].
    by eapply elem_of_sublist. }
  assert (k2 = [x]) as ->; [|by rewrite removelast_last].
  inversion H2 as [|? ? ? Hn|? ? ? Hn]; subst; apply sublist_nil_r in Hn as ->; [done|].
  by apply not_elem_of_nil in Hx2.
Qed.

(** The running loop ends with a batch of decodes or with the trailing prefill alone. *)
Lemma after_running_loop (clean : Prop) s s2 p2 sft l : ready s -> 1 <= compiled_batch ->
  visited cfg (candidates s) s compiled_batch sft s2 p2 ->
  (clean -> forall x, last (running s) = Some x -> prefilling s x = true ->
     x ∈ scheduled_running_reqs p2 \/ (x ∉ running s2)) ->
  let p3 := step_loras l p2 in
  winv cfg clean (running s ++ queued s) compiled_batch [] s2 p3 \/
  settled cfg clean (running s ++ queued s) compiled_batch [] s2 p3 /\
    (exists id, scheduled_running_reqs p3 = [id] /\ prefilling s2 id = true).
Proof.
  intros Hs Hh (Hr & HT & Hc & Hcap & _) Hlast p3. pose proof (sched_running _ _ _ _ Hr) as Hsr.
  assert (running s ++ queued s ≡ₚ running s2 ++ queued s2 ++ []) as Hall.
  { rewrite (r_perm _ _ _ _ Hr). unfold queued.
    rewrite (r_waiting _ _ _ _ Hr), (r_skipped _ _ _ _ Hr). solve_Permutation. }
  assert (len (running s2) <= max_num_running_reqs cfg) as Hrun.
  { pose proof (rd_limit s Hs) as Hl. unfold len in *. rewrite (r_perm _ _ _ _ Hr) in Hl.
    rewrite length_app in Hl. lia. }
  pose proof (fun id => prefilling_kept s s2 p2 id Hr) as Hpre.
  assert (forall id, id ∈ running s2 -> id ∈ running s) as Hsub
    by (intros id Hid; eapply elem_of_sublist; [exact Hid|apply (r_sub _ _ _ _ Hr)]).
  assert (count (decode_budget p2) = len (sched p2)) as Hcnt
    by (rewrite Hsr; apply (r_count _ _ _ _ Hr)).
  assert (qinv (reqs s2) (running s2) (queued s2 ++ [])) as Hq
    by (rewrite app_nil_r; apply Hr).
  pose proof (r_step _ _ _ _ Hr) as Hp. pose proof (r_deltas _ _ _ _ Hr) as Hdl.
  pose proof (pi_running _ _ _ _ _ _ Hp) as Hin.
  assert ((forall id, id ∈ sched p2 -> prefilling s2 id = false) ->
    (clean -> forall id, id ∈ running s2 -> prefilling s2 id = false) ->
    winv cfg clean (running s ++ queued s) compiled_batch [] s2 p3) as Hdecode.
  { intros Hdec Hcl.
    split; [exact Hq|exact Hp|exact Hcnt| |exact Hrun|exact Hdec|done|exact Hdl|exact Hcl].
    change (sched p3) with (sched p2). rewrite <- Hcnt. done. }
  destruct (candidates_phase s Hs) as [Hdec|(dec & id & Hrs & Hid & Hpid & Hdec)].
  { left. apply Hdecode; intros; rewrite Hpre by auto; auto. }
  assert (NoDup (dec ++ [id])) as Hnd.
  { pose proof (q_nodup _ _ _ (rd_queues s Hs)) as Hnd. rewrite Hrs in Hnd.
    by apply NoDup_app in Hnd as (? & _ & _). }
  destruct (scheduled_running_reqs p2) as [|x ids] eqn:Esr.
  { left. apply Hdecode; [rewrite Hsr; intros y Hy; by apply not_elem_of_nil in Hy|].
    intros Hcl y Hy. rewrite Hpre by done. apply Hdec.
    destruct (Hlast Hcl id) as [Hx|Hx]; [by rewrite Hrs, last_snoc|done|by apply not_elem_of_nil in Hx|].
    apply Hsub in Hy as Hy'. rewrite Hrs in Hy'. apply elem_of_app in Hy' as [?|Hy']; [done|].
    apply list_elem_of_singleton in Hy' as ->. done. }
  right. assert (x :: ids = [id]) as Heq.
  { pose proof (pi_nodup _ _ _ _ _ _ Hp) as Hnd'. rewrite Hsr in Hnd'. rewrite Hid in HT.
    assert (x = id) as -> by (apply list_elem_of_singleton, HT; set_solver).
    destruct ids as [|y ids]; [done|].
    assert (y = id) as -> by (apply list_elem_of_singleton, HT; set_solver).
    apply NoDup_cons_1_1 in Hnd'. set_solver. }
  rewrite Heq in Hsr, Esr. clear Heq.
  assert (id ∈ running s2) as Hin2 by (apply Hin; rewrite Hsr; set_solver).
  assert (prefilling s2 id = true) as Hp2 by (by rewrite Hpre).
  split; [|exists id; by split].
  split; try done.
  - eapply pinv_no_budget, Hp.
  - apply (pi_budget _ _ _ _ _ _ Hp).
  - change (sched p3) with (sched p2). by rewrite <- Hcnt.
  - right. by exists id.
  - intros _ y Hy. pose proof (r_sub _ _ _ _ Hr) as Hsl. rewrite Hrs in Hsl.
    rewrite Hpre.
    + apply Hdec. eapply elem_of_sublist; [exact Hy|]. by eapply removelast_sublist.
    + rewrite (removelast_firstn_len (running s2)) in Hy.
      eapply elem_of_sublist; [exact Hy|apply sublist_take].
Qed.

Lemma trailing_served pause s b s2 p2 : config_ok -> ready s -> count b = 0 ->
  running_loop cfg (length (running s)) (first_index s)
    (set_env (new_step_starts (env s)) s, empty_step cfg pause b) = Ok (s2, p2) ->
  no_prefill_passed_over pause s ->
  forall x, last (running s) = Some x -> prefilling s x = true ->
    x ∈ scheduled_running_reqs p2 \/ (x ∉ running s2).
Proof.
  intros Hcfg Hs Hb Hloop [Hpause Hclean] x Hx Hpx.
  assert (x ∈ running s) as Hin by (by apply last_Some_elem_of).
  destruct (rd_running s Hs x Hin) as (r & Hr & Hok).
  assert (is_prefill r = true) as Hpr by (unfold prefilling in Hpx; by rewrite Hr in Hpx).
  assert (first_index s = len (running s) - 1) as Hfi by (unfold first_index; by rewrite Hx, Hpx).
  pose proof Hx as Hx'. apply last_Some in Hx' as [d Hd].
  assert (exists f, length (running s) = S f) as [f Hf]
    by (rewrite Hd, length_app, Nat.add_comm; by eexists).
  rewrite Hf in Hloop. set (s1 := set_env (new_step_starts (env s)) s) in *.
  pose proof (running_loop_last cfg s f (first_index s) s1 (empty_step cfg pause b) d x r) as Hlast.
  rewrite Hloop in Hlast. apply Hlast; try done.
  - by apply rinv_start.
  - rewrite Hfi, Hd, len_app. unfold len. cbn. lia.
  - exact (Hclean x r Hx Hr Hpr).
  - cbn. destruct (decide _); [done|]. apply Hcfg.
Qed.

Lemma decide_step_ok pause s : config_ok -> ready s ->
  returns (decide_step cfg pause s) (fun '(s', p') =>
    settled cfg (no_prefill_passed_over pause s) (running s ++ queued s) compiled_batch [] s' p').
Proof.
  intros Hcfg Hs. unfold decide_step. pose proof (c_pp Hcfg) as Hpp.
  assert (1 <= compiled_batch) as Hh by (apply Z.div_le_lower_bound; lia).
  rewrite for_step_ok by done. cbn [mbind res_bind].
  set (b := mkBudget _ _ 0). set (s1 := set_env (new_step_starts (env s)) s).
  destruct (candidates_split s) as (d & Hd & Hlen).
  assert (visiting cfg (candidates s) s (first_index s) (length (running s)) s1
            (empty_step cfg pause b)) as Hv.
  { split; [by apply rinv_start|]. exists d, (candidates s). split; [done|].
    split; [by left|]. split; [intros x Hx; by apply not_elem_of_nil in Hx|].
    split; [|rewrite Hd, length_app; lia].
    intros x Hx. split; [done|]. apply (rd_running s Hs). rewrite Hd. set_solver. }
  assert (count b < compiled_batch) as Hb by (cbn; lia).
  pose proof (running_loop_ok cfg (candidates s) s compiled_batch (soft_cap b) _ _ _ _ Hv Hb
                (conj eq_refl eq_refl)) as Hloop.
  apply returns_Ok in Hloop as ([s2 p2] & Hloop & Hvis).
  eapply (returns_bind (running_loop cfg (length (running s)) (first_index s)
            (s1, empty_step cfg pause b)) _ (fun st => st = (s2, p2))); [by rewrite Hloop|].
  intros st ->.
  eapply returns_bind; [apply (record_loras_ok s); [done|apply Hvis]|].
  intros [s3 p3] (-> & l & ->). apply schedule_waiting_ok; [apply Hcfg|].
  eapply after_running_loop; [done|done|exact Hvis|].
  exact (trailing_served pause s b s2 p2 Hcfg Hs eq_refl Hloop).
Qed.

(** ** Finalisation *)



(** The blocks delivered for one request, with what was parked for it in front. *)
Definition with_parked (parked : option B) (b : option B) : option B :=
  match parked, b with
  | Some d, Some b => Some (blocks_add d b)
  | _, b => b
  end.

Lemma drain_ok ids : forall blocks s, NoDup ids ->
  (forall id, id ∈ ids -> is_Some (blocks !! id)) ->
  returns (drain_pending_runner_block_deltas ids blocks s) (fun '(blocks', s') =>
    (exists d, s' = set_deltas d s /\ forall id, d !! id =
       if decide (id ∈ ids) then None else pending_runner_block_deltas s !! id) /\
    forall id, blocks' !! id =
      if decide (id ∈ ids) then with_parked (pending_runner_block_deltas s !! id) (blocks !! id)
      else blocks !! id).
Proof.
  induction ids as [|id ids IH]; intros blocks s Hnd Hb; cbn [drain_pending_runner_block_deltas].
  - split.
    + exists (pending_runner_block_deltas s). split; [by destruct s|].
      intros id. rewrite decide_False; [done|apply not_elem_of_nil].
    + intros id. rewrite decide_False; [done|apply not_elem_of_nil].
  - apply NoDup_cons in Hnd as [Hn Hnd].
    destruct (pending_runner_block_deltas s !! id) as [d|] eqn:Ed.
    + destruct (Hb id) as [b Hbid]; [set_solver|]. rewrite Hbid. cbn [of_option mbind res_bind].
      eapply returns_mono; [apply IH; [done|]|].
      * intros y Hy. rewrite lookup_insert_ne by set_solver. apply Hb. set_solver.
      * intros [blocks' s'] [(d' & -> & Hd') Hbl]. split.
        -- exists d'. split; [done|]. intros y. rewrite Hd'. cbn.
           destruct (decide (y = id)) as [->|Hy].
           { rewrite (decide_True (P := id ∈ id :: ids)) by set_solver.
             rewrite lookup_delete_eq. by case_decide. }
           rewrite lookup_delete_ne by done. repeat case_decide; set_solver.
        -- intros y. rewrite Hbl. cbn. destruct (decide (y = id)) as [->|Hy].
           { rewrite decide_False by done. rewrite decide_True by set_solver.
             rewrite lookup_insert_eq. by rewrite Ed, Hbid. }
           rewrite lookup_delete_ne, lookup_insert_ne by done. repeat case_decide; set_solver.
    + eapply returns_mono; [apply IH; [done|]|].
      * intros y Hy. apply Hb. set_solver.
      * intros [blocks' s'] [(d' & -> & Hd') Hbl]. split.
        -- exists d'. split; [done|]. intros y. rewrite Hd'.
           destruct (decide (y = id)) as [->|Hy]; [|repeat case_decide; set_solver].
           rewrite (decide_True (P := id ∈ id :: ids)) by set_solver. rewrite Ed. by case_decide.
        -- intros y. rewrite Hbl. destruct (decide (y = id)) as [->|Hy].
           { rewrite decide_False by done. rewrite decide_True by set_solver. by rewrite Ed. }
           repeat case_decide; set_solver.
Qed.

Section output.
Variable super_new_token_ids : list string -> list string -> Step -> Scheduler -> list (list Z).
Variable build_connector_meta : @RBLNSchedulerOutput B M -> E -> E.
Variable build_ec_meta : @RBLNSchedulerOutput B M -> E -> E.
Variable update_after_schedule : @RBLNSchedulerOutput B M -> Scheduler -> Scheduler.

Abbreviation finalize := (finalize cfg super_new_token_ids build_connector_meta build_ec_meta
  update_after_schedule).
Abbreviation schedule := (schedule cfg super_new_token_ids build_connector_meta build_ec_meta
  update_after_schedule).





End output.

(** ** Eviction and the deltas *)

(** The block ids a delta holds for KV cache group [g]. *)
Definition group (b : B) (g : nat) : list Z := default [] (get_block_ids b !! g).
Definition group_of (b : option B) (g : nat) : list Z :=
  match b with Some b => group b g | None => [] end.

Lemma has_blocks_false b g : has_blocks b = false -> group b g = [].
Proof.
  unfold has_blocks, group. intros Hb. destruct (get_block_ids b !! g) as [l|] eqn:El; [|done].
  cbn. destruct l as [|x l]; [done|].
  assert (existsb (fun group => 0 <? len group) (get_block_ids b) = true); [|congruence].
  apply existsb_exists. exists (x :: l). split; [|done].
  apply list_elem_of_In. by eapply list_elem_of_lookup_2.
Qed.

Lemma evict_running_deltas ids : forall s p s' p', NoDup ids ->
  evict_running ids (s, p) = Ok (s', p') ->
  forall id, if decide (id ∈ ids)
    then exists d, req_to_new_blocks p !! id = Some d /\ req_to_new_blocks p' !! id = None /\
           od_get id (num_scheduled_tokens p') = None /\
           pending_runner_block_deltas s' !! id =
             pending_runner_block_deltas (add_pending_runner_block_delta id (Some d) s) !! id
    else pending_runner_block_deltas s' !! id = pending_runner_block_deltas s !! id /\
         req_to_new_blocks p' !! id = req_to_new_blocks p !! id /\
         od_get id (num_scheduled_tokens p') = od_get id (num_scheduled_tokens p).
Proof.
  induction ids as [|x ids IH]; intros s p s' p' Hnd Hev id; cbn [evict_running] in Hev.
  { injection Hev as <- <-. rewrite decide_False by apply not_elem_of_nil. done. }
  apply NoDup_cons in Hnd as [Hx Hnd].
  destruct (get_req x s) as [r|] eqn:Er; [|done]. cbn [mbind res_bind] in Hev.
  destruct (req_to_new_blocks p !! x) as [d|] eqn:Ed; [|done]. cbn [of_option mbind res_bind] in Hev.
  destruct (od_get x (num_scheduled_tokens p)) as [n|] eqn:En; [|done].
  cbn [of_option mbind res_bind] in Hev.
  pose proof (IH _ _ _ _ Hnd Hev id) as H1. cbn [req_to_new_blocks num_scheduled_tokens
    step_encoder step_spec step_tokens] in H1.
  assert (forall y, y <> x -> forall s0, pending_runner_block_deltas
    (add_pending_runner_block_delta x (Some d) s0) !! y = pending_runner_block_deltas s0 !! y) as Hne.
  { intros y Hy s0. cbn. destruct (has_blocks d); [|done]. cbn. by rewrite lookup_insert_ne. }
  destruct (decide (id = x)) as [->|Hid].
  - rewrite decide_False in H1 by done. rewrite decide_True by set_solver.
    destruct H1 as (H1 & H2 & H3). exists d. split; [done|].
    split; [by rewrite H2, lookup_delete_eq|]. split; [|rewrite H1; cbn; by destruct (has_blocks d)].
    rewrite H3, od_get_pop. by rewrite decide_True.
  - destruct (decide (id ∈ ids)) as [Hin|Hin].
    + rewrite decide_True by set_solver. destruct H1 as (d' & H1 & H2 & H3 & H4).
      rewrite lookup_delete_ne in H1 by done. exists d'. do 3 (split; [done|]).
      rewrite H4. cbn. destruct (has_blocks d'), (has_blocks d); cbn; rewrite ?lookup_insert_eq;
        by rewrite ?lookup_insert_ne by done.
    + rewrite decide_False by set_solver. destruct H1 as (H1 & H2 & H3).
      rewrite lookup_delete_ne in H2 by done. rewrite od_get_pop, decide_False in H3 by done.
      rewrite H1, Hne by done. done.
Qed.
(** *** Drafts and tokens of one running request *)

(** The drafts [record_spec] schedules with [n] tokens. *)
Definition drafts_scheduled (r : Request) (n : Z) : list Z :=
  let k := n + num_computed_tokens r - num_tokens r - num_output_placeholders r in
  if 0 <? k then py_take k (spec_token_ids r) else [].

Lemma len_drafts_scheduled r n : 0 <= len (drafts_scheduled r n) /\
  (let k := n + num_computed_tokens r - num_tokens r - num_output_placeholders r in
   0 < k -> k <= len (spec_token_ids r) -> len (drafts_scheduled r n) = k).
Proof.
  split; [apply len_nonneg|]. cbn. intros Hk Hle. unfold drafts_scheduled.
  rewrite (proj2 (Z.ltb_lt _ _) Hk). unfold py_take, len in *. rewrite length_take. lia.
Qed.

Lemma commit_running_step r n b plan s p s' p' : commit_running cfg r n b plan (s, p) = (s', p') ->
  num_scheduled_tokens p' = od_set (request_id r) n (num_scheduled_tokens p) /\
  req_to_new_blocks p' = <[request_id r := b]> (req_to_new_blocks p) /\
  (od_get (request_id r) (scheduled_spec_decode_tokens p) = None ->
   default [] (od_get (request_id r) (scheduled_spec_decode_tokens p')) = drafts_scheduled r n) /\
  reqs s' = match spec_token_ids r with
            | [] => reqs s
            | _ => <[request_id r := with_spec_token_ids [] r]> (reqs s)
            end.
Proof.
  unfold commit_running. intros Hc.
  match type of Hc with context [record_spec r n (s, ?q)] => set (p1 := q) in Hc end.
  destruct (record_spec r n (s, p1)) as [s2 p2] eqn:Er.
  destruct (record_encoder_eq cfg r plan s2 p2) as (e & enc & eb & Heq).
  rewrite Heq in Hc. injection Hc as <- <-. cbn. clear Heq.
  unfold record_spec, drafts_scheduled in *. destruct (spec_token_ids r) as [|t l] eqn:Espec.
  - injection Er as <- <-. do 2 (split; [done|]). split; [|done]. cbn. intros ->.
    unfold py_take. rewrite take_nil. by destruct (0 <? _).
  - injection Er as <- <-. destruct (0 <? _); cbn; (do 2 (split; [done|]); split; [|done]).
    + intros _. by rewrite od_get_set, decide_True.
    + by intros ->.
Qed.

Lemma running_chunk_bounds r p e n plan : running_num_new_tokens cfg r p e = Some (n, plan) ->
  has_encoder_inputs r = false -> need_mamba_block_aligned_split cfg = false ->
  let raw := num_tokens_with_spec r + num_output_placeholders r - num_computed_tokens r in
  n <= raw /\ n <= token_budget p /\ n <= sc_max_model_len cfg - 1 - num_computed_tokens r /\
  (n = raw \/ n = token_budget p \/ n = sc_max_model_len cfg - 1 - num_computed_tokens r \/
   n = long_prefill_token_threshold cfg /\ 0 < n).
Proof.
  intros Hn Henc Hmamba. unfold running_num_new_tokens in Hn.
  destruct (_ && (_ <=? _)); [done|]. destruct (should_defer_spec_step _ _ _); [done|].
  rewrite Henc, Hmamba in Hn. cbn in Hn. cbn.
  set (raw := num_tokens_with_spec r + _ - _) in *.
  destruct ((0 <? _) && _) eqn:Et; zbool.
  all: destruct (_ =? 0); simplify_eq; lia.
Qed.
(** [KVCacheBlocks.__add__]: blocks of the same KV cache groups are joined group by group. *)
Definition adds_by_group : Prop := forall a b : B,
  length (get_block_ids a) = length (get_block_ids b) ->
  get_block_ids (blocks_add a b) = zip_with app (get_block_ids a) (get_block_ids b).

Lemma group_add a b g : adds_by_group -> length (get_block_ids a) = length (get_block_ids b) ->
  group (blocks_add a b) g = group a g ++ group b g.
Proof.
  intros Hadd Hlen. unfold group. rewrite Hadd, lookup_zip_with by done.
  destruct (get_block_ids a !! g) as [x|] eqn:Ea, (get_block_ids b !! g) as [y|] eqn:Eb; try done.
  - apply lookup_lt_Some in Ea. apply lookup_ge_None in Eb. lia.
  - apply lookup_ge_None in Ea. apply lookup_lt_Some in Eb. lia.
Qed.

Lemma length_add a b : adds_by_group -> length (get_block_ids a) = length (get_block_ids b) ->
  length (get_block_ids (blocks_add a b)) = length (get_block_ids b).
Proof. intros Hadd Hlen. rewrite Hadd by done. rewrite length_zip_with. lia. Qed.

(** Everything parked, the evicted blocks and the new ones, in this order. *)
Lemma parked_group s id delta b : adds_by_group ->
  length (get_block_ids delta) = length (get_block_ids b) ->
  (forall d, pending_runner_block_deltas s !! id = Some d ->
     length (get_block_ids d) = length (get_block_ids b)) ->
  exists out, with_parked (pending_runner_block_deltas
      (add_pending_runner_block_delta id (Some delta) s) !! id) (Some b) = Some out /\
    forall g, group out g =
      group_of (pending_runner_block_deltas s !! id) g ++ group delta g ++ group b g.
Proof.
  intros Hadd Hlen Hpend. cbn. destruct (has_blocks delta) eqn:Eb; cbn.
  - rewrite lookup_insert_eq. cbn. eexists. split; [reflexivity|]. intros g.
    destruct (pending_runner_block_deltas s !! id) as [d|]; cbn; [|by rewrite group_add].
    specialize (Hpend d eq_refl).
    rewrite group_add; [|done|rewrite length_add; [done|done|congruence]].
    rewrite group_add; [|done|congruence]. by rewrite app_assoc.
  - destruct (pending_runner_block_deltas s !! id) as [d|]; cbn; (eexists; split; [reflexivity|]);
      intros g; rewrite (has_blocks_false delta g) by done; [|done]. by rewrite group_add; auto.
Qed.

(** ** Properties *)


(** C21: no request is lost or doubled by a step: the running list and the two queues hold
    the same requests after it, each known to the store; the waiting ones can be admitted
    later, the running list respects its limit, and only running requests have parked
    blocks. *)
Theorem no_request_lost pause s : config_ok -> ready s ->
  exists s' p', decide_step cfg pause s = Ok (s', p') /\
    running s ++ waiting s ++ skipped_waiting s
      ≡ₚ running s' ++ waiting s' ++ skipped_waiting s' /\
    NoDup (running s' ++ waiting s' ++ skipped_waiting s') /\
    len (running s') <= max_num_running_reqs cfg /\
    (forall id, id ∈ running s' -> exists r, reqs s' !! id = Some r /\ request_id r = id) /\
    (forall id, id ∈ waiting s' ++ skipped_waiting s' ->
       exists r, reqs s' !! id = Some r /\ request_id r = id /\ waiting_ok r) /\
    (forall id, is_Some (pending_runner_block_deltas s' !! id) -> id ∈ running s').
Proof.
  intros Hcfg Hs. destruct (returns_Ok _ _ (decide_step_ok pause s Hcfg Hs)) as ([s' p'] & Heq & Hset).
  exists s', p'. split; [done|]. destruct Hset as [[Hnd Hid Hr Hw] _ _ _ Hl _ Hall Hd _].
  rewrite app_nil_r in *. split; [done|]. split; [done|]. split; [done|].
  split; [|split; [|done]].
  - intros id (r & Hrid & _)%Hr. eauto.
  - intros id (r & Hrid & ?)%Hw. eauto.
Qed.

(** The order of the running list is kept from step to step.  Unless the trailing
    prefill was passed over without tokens, after a step again only the last running
    request can be prefilling, so that the next step can start at it. *)
Theorem trailing_prefill_kept pause s : config_ok -> ready s -> no_prefill_passed_over pause s ->
  exists s' p', decide_step cfg pause s = Ok (s', p') /\
    forall id, id ∈ removelast (running s') -> prefilling s' id = false.
Proof.
  intros Hcfg Hs Hclean.
  destruct (returns_Ok _ _ (decide_step_ok pause s Hcfg Hs)) as ([s' p'] & Heq & Hset).
  exists s', p'. split; [done|]. by apply (st_trailing _ _ _ _ _ _ _ Hset).
Qed.

(** Blocks allocated for a decode that is evicted in favour of a prefill are not lost.
    The eviction takes the request out of the step and parks its blocks behind those parked
    before; the next step that schedules the request delivers, group by group, the parked
    ids and then its own, and clears them. *)
Theorem parked_blocks_reach_the_runner s p s1 p1 id delta s2 ids blocks b :
  adds_by_group -> length (get_block_ids delta) = length (get_block_ids b) ->
  (forall d, pending_runner_block_deltas s !! id = Some d ->
     length (get_block_ids d) = length (get_block_ids b)) ->
  NoDup (scheduled_running_reqs p) -> id ∈ scheduled_running_reqs p ->
  req_to_new_blocks p !! id = Some delta -> evict_batch cfg (s, p) = Ok (s1, p1) ->
  pending_runner_block_deltas s2 !! id = pending_runner_block_deltas s1 !! id ->
  NoDup ids -> id ∈ ids -> (forall x, x ∈ ids -> is_Some (blocks !! x)) -> blocks !! id = Some b ->
  od_get id (num_scheduled_tokens p1) = None /\ req_to_new_blocks p1 !! id = None /\
  exists blocks' s3 out, drain_pending_runner_block_deltas ids blocks s2 = Ok (blocks', s3) /\
    blocks' !! id = Some out /\ pending_runner_block_deltas s3 !! id = None /\
    forall g, group out g =
      group_of (pending_runner_block_deltas s !! id) g ++ group delta g ++ group b g.
Proof.
  intros Hadd Hl1 Hl2 Hnd Hin Hd Hev Hs2 Hnd' Hids Hbl Hb. unfold evict_batch in Hev. cbn [snd] in Hev.
  destruct (evict_running (scheduled_running_reqs p) (s, p)) as [[s' p']|] eqn:Erun; [|done].
  cbn in Hev. injection Hev as <- <-. cbn.
  pose proof (evict_running_deltas _ _ _ _ _ Hnd Erun id) as Hdel. rewrite decide_True in Hdel by done.
  destruct Hdel as (d & Hd' & Hnone & Hnst & Hpark). rewrite Hd in Hd'. injection Hd' as <-.
  split; [done|]. split; [done|].
  destruct (returns_Ok _ _ (drain_ok ids blocks s2 Hnd' Hbl))
    as ([blocks' s3] & Hdr & (dd & -> & Hdd) & Hbl').
  exists blocks', (set_deltas dd s2). specialize (Hbl' id).
  rewrite decide_True, Hb, Hs2, Hpark in Hbl' by done.
  destruct (parked_group s id delta b Hadd Hl1 Hl2) as (out & Hout & Hg). rewrite Hout in Hbl'.
  exists out. split; [done|]. split; [done|]. split; [cbn; by rewrite Hdd, decide_True|done].
Qed.

(** Evicting a request undoes scheduling it.  For a decode that got all the tokens it
    asked for, being scheduled and evicted in the same step leaves the step's books and the
    request, its drafts included, as they were. *)
Theorem eviction_undoes_scheduling r n b plan s p s1 p1 s2 p2 :
  reqs s !! request_id r = Some r ->
  (request_id r ∉ od_keys (num_scheduled_tokens p)) ->
  req_to_new_blocks p !! request_id r = None ->
  od_get (request_id r) (scheduled_spec_decode_tokens p) = None ->
  n = num_tokens_with_spec r + num_output_placeholders r - num_computed_tokens r ->
  commit_running cfg r n b plan (s, p) = (s1, p1) ->
  evict_running [request_id r] (s1, p1) = Ok (s2, p2) ->
  reqs s2 = reqs s /\ num_scheduled_tokens p2 = num_scheduled_tokens p /\
  req_to_new_blocks p2 = req_to_new_blocks p /\
  scheduled_spec_decode_tokens p2 = od_pop (request_id r) (scheduled_spec_decode_tokens p1).
Proof.
  intros Hr Hk Hb Hsp Hn Hc Hev. set (id := request_id r) in *.
  destruct (commit_running_step _ _ _ _ _ _ _ _ Hc) as (Hnst & Hbl & Hspec & Hreqs).
  specialize (Hspec Hsp). fold id in Hnst, Hbl, Hspec, Hreqs.
  assert (drafts_scheduled r n = spec_token_ids r) as Hd.
  { unfold drafts_scheduled, num_tokens_with_spec, num_tokens in *.
    replace (n + num_computed_tokens r - len (all_token_ids r) - num_output_placeholders r)
      with (len (spec_token_ids r)) by lia.
    destruct (0 <? len (spec_token_ids r)) eqn:E0; zbool; unfold len in *.
    - unfold py_take. by rewrite Nat2Z.id, firstn_all.
    - destruct (spec_token_ids r); [done|]. cbn in E0. lia. }
  assert (exists r1, reqs s1 !! id = Some r1 /\ with_spec_token_ids (spec_token_ids r) r1 = r /\
     <[id := r]> (reqs s1) = reqs s) as (r1 & Hr1 & Hback & Hrs).
  { rewrite Hreqs. destruct (spec_token_ids r) as [|t l] eqn:Es.
    - exists r. split; [done|]. split; [destruct r; cbn in *; by subst|]. by apply insert_id.
    - exists (with_spec_token_ids [] r). split; [apply lookup_insert_eq|].
      split; [destruct r; cbn in *; by subst|]. rewrite insert_insert_eq. by apply insert_id. }
  cbn [evict_running] in Hev. rewrite (get_req_ok _ _ r1 Hr1) in Hev.
  cbn [mbind res_bind] in Hev. rewrite Hbl, Hnst, lookup_insert_eq, od_get_set_eq in Hev.
  cbn [of_option mbind res_bind] in Hev. injection Hev as <- <-. cbn.
  rewrite ?Hspec, ?Hd, ?Hback, ?Hbl, ?Hnst, ?od_set_new by done.
  split; [|split; [|split; [|done]]].
  - destruct (has_blocks b); cbn; fold id; exact Hrs.
  - unfold od_pop. rewrite filter_app, filter_cons_False, filter_nil, app_nil_r by (cbn; naive_solver).
    by apply od_pop_notin.
  - by rewrite delete_insert_id.
Qed.

(** The phase the runner reads off a step's token counts is the phase of the request.
    For a scheduled running request without encoder inputs, more than one base token (the
    scheduled tokens less the drafts) means that it is prefilling and at most one that it
    is decoding, as long as a prefill chunk may hold two tokens. *)
Theorem base_tokens_tell_the_phase r n b plan s p s1 p1 e :
  running_num_new_tokens cfg r p e = Some (n, plan) ->
  has_encoder_inputs r = false -> need_mamba_block_aligned_split cfg = false ->
  commit_running cfg r n b plan (s, p) = (s1, p1) ->
  od_get (request_id r) (scheduled_spec_decode_tokens p) = None ->
  (is_prefill r = true -> spec_token_ids r = [] /\ 0 <= num_output_placeholders r /\
     2 <= token_budget p /\ long_prefill_token_threshold cfg <> 1 /\
     num_tokens r <= sc_max_model_len cfg - 1) ->
  (is_prefill r = false ->
     num_tokens r - 1 + num_output_placeholders r <= num_computed_tokens r) ->
  (1 <? num_base_tokens (num_scheduled_tokens p1) (scheduled_spec_decode_tokens p1)
          (request_id r)) = is_prefill r.
Proof.
  intros Hn Henc Hmamba Hc Hsp Hpre Hdec.
  destruct (commit_running_step _ _ _ _ _ _ _ _ Hc) as (Hnst & _ & Hspec & _).
  destruct (running_chunk_bounds r p e n plan Hn Henc Hmamba) as (H1 & H2 & H3 & H4).
  unfold num_base_tokens. rewrite Hnst, od_get_set_eq, Hspec by done.
  change (default 0 (Some n)) with n.
  destruct (len_drafts_scheduled r n) as [H5 H6].
  unfold num_tokens_with_spec, num_tokens in *. destruct (is_prefill r) eqn:Ep.
  - destruct Hpre as (Hs & Hph & Hb & Ht & Hm); [done|].
    unfold is_prefill, num_tokens in Ep. zbool. rewrite Hs in *. cbn [len length Z.of_nat] in *.
    assert (drafts_scheduled r n = []) as Hd.
    { unfold drafts_scheduled. rewrite Hs. unfold py_take. rewrite take_nil. by destruct (_ <? _). }
    rewrite Hd. apply Z.ltb_lt. unfold len in *. cbn in *. lia.
  - specialize (Hdec eq_refl). apply Z.ltb_ge.
    set (k := n + num_computed_tokens r - len (all_token_ids r) - num_output_placeholders r) in *.
    destruct (decide (0 < k)) as [Hk|Hk].
    + rewrite H6 by (unfold k in *; lia). unfold k. lia.
    + unfold k in *. lia.
Qed.
End spec.

(** ** A small concrete instance

    A block pool that hands out numbered blocks one at a time, an encoder cache that is full
    or not, one KV cache group, no connector and no sub-blocks.  It shows that the hypotheses
    of the theorems can hold. *)
Module Toy.
#[export] Instance toy_upstream : Upstream (Z * bool) (list (list Z)) unit := {|
  new_step_starts := fun e => e;
  allocate_slots := fun r a e => if 0 <? e.1 then (Some [[e.1]], (e.1 - 1, e.2)) else (None, e);
  get_computed_blocks := fun r e => ([[]], 0, 0, e);
  kv_get_blocks := fun id e => [[e.1 + 1]];
  empty_kv_cache_blocks := [[]];
  cache_blocks := fun r n e => e;
  take_new_block_ids := fun e => ([], e);
  blocks_add := zip_with app;
  get_block_ids := fun b => b;
  get_computed_blocks_sub_block := fun r n e => (None, e);
  match_num_tokens := fun m => 0;
  apply_sub_block_match := fun m e => e;
  release_sub_block_match := fun m e => e;
  schedule_sub_block_indexing := fun r e => e;
  drain_pending_copy_ops := fun e => ([], e);
  get_num_new_matched_tokens := fun r n e => (Some 0, false, e);
  connector_update_state := fun r b n e => e;
  num_finished_recving := fun e => 0;
  try_schedule_encoder_inputs := fun r c n b sh e => (None, if e.2 : bool then 0 else n, b, []);
  encoder_allocate := fun r i e => e;
  encoder_free := fun r e => e;
  ec_update := fun r i e => e;
  get_num_encoder_embeds := fun r i => 0;
  get_freed_mm_hashes := fun e => ([], e);
  mamba_block_aligned_split := fun r n l x => n;
  super_preempt_request := fun r st w e =>
    (with_status PREEMPTED (with_num_computed_tokens 0 r), request_id r :: w, (e.1 + 1, e.2));
  is_blocked_waiting_status := fun st =>
    bool_decide (st ∈ [WAITING_FOR_STRUCTURED_OUTPUT_GRAMMAR; WAITING_FOR_REMOTE_KVS;
                       WAITING_FOR_STREAMING_REQ]);
  try_promote_blocked := fun r e =>
    if decide (status r = WAITING_FOR_REMOTE_KVS)
    then (true, with_status WAITING (with_num_computed_tokens (num_tokens r - 1) r), e)
    else (false, r, e);
  select_skipped := fun st w k => match w with [] => true | _ => false end;
  queue_prepend := fun st id q => id :: q;
  queue_prepend_all := fun st l q => l ++ q
|}.

#[export] Instance toy_laws : UpstreamLaws (Z * bool) (list (list Z)) unit.
Proof.
  split; cbn.
  - intros [] Hb [H1 H2]; auto; done.
  - intros r e b r' e' Hp [(H1 & H2 & H3) H4]. case_decide; simplify_eq; cbn.
    + split; [by repeat split|]. split; [|auto].
      unfold waiting_ok, req_ok, waiting_status, num_tokens in *. cbn. naive_solver lia.
    + done.
  - intros r st w e r' w' e' [= <- <- <-]. done.
  - done.
  - done.
  - intros st w k [H|H]; destruct w, k; done.
  - intros r c n b sh e i n' b' x Heq Hn. simplify_eq. destruct e.2; lia.
  - lia.
  - intros r e bl l bd e' Heq Hr. simplify_eq. lia.
  - done.
  - intros r l e x a e' Heq Hl. simplify_eq. lia.
Qed.

Definition toy_cfg : SchedulerConfig :=
  mkSC 128 4 1000 0 0 0 true FCFS 1 false 0 false false false None false false false false false.

Definition toy_request (id : string) (st : RequestStatus) (ids : list Z) (computed : Z)
    (encoder : bool) : Request :=
  mkRequest id st (len ids) ids computed [] 0 16 0 0 0 0 false None encoder 0 None.

Definition toy_scheduler (rs : list Request) (run wait : list string) (free : Z) (full : bool)
    : @Scheduler (Z * bool) (list (list Z)) :=
  mkSched (list_to_map ((fun r => (request_id r, r)) <$> rs)) run wait [] ∅ [] 0 (free, full).

(** A decode [a] runs and a prompt [b] waits. *)
Definition toy_one : @Scheduler (Z * bool) (list (list Z)) :=
  toy_scheduler [toy_request "a" RUNNING [1; 2; 3] 2 false;
                 toy_request "b" WAITING [4; 5; 6; 7] 0 false] ["a"] ["b"] 10 false.

(** Behind the decode [a] the prompt [p] is half computed, its next chunk needs the encoder
    cache, which is full, and [b] waits. *)
Definition toy_full : @Scheduler (Z * bool) (list (list Z)) :=
  toy_scheduler [toy_request "a" RUNNING [1; 2; 3] 2 false;
                 toy_request "p" RUNNING [1; 2; 3; 4; 5; 6] 2 true;
                 toy_request "b" WAITING [4; 5; 6; 7] 0 false] ["a"; "p"] ["b"] 10 true.

Lemma toy_id rs run wait free full id r :
  reqs (toy_scheduler rs run wait free full) !! id = Some r -> request_id r = id.
Proof.
  cbn. intros Hr. apply elem_of_list_to_map_2 in Hr.
  by apply list_elem_of_fmap in Hr as (? & [= -> ->] & _).
Qed.

Lemma toy_config_ok : config_ok toy_cfg.
Proof. split; cbn; lia. Qed.

Lemma toy_ready rs run b free full :
  let s := toy_scheduler rs run [b] free full in
  NoDup (run ++ [b]) -> len run <= 4 ->
  Forall (fun x => exists r, reqs s !! x = Some r /\ req_ok r /\ running_ok toy_cfg r) run ->
  Forall (fun x => prefilling s x = false) (removelast run) ->
  (exists r, reqs s !! b = Some r /\ waiting_ok r) -> ready toy_cfg s.
Proof.
  intros s Hnd Hlen Hrun Htr (rb & Hb & Hw). rewrite Forall_forall in Hrun, Htr. split.
  - split.
    + unfold queued. cbn. done.
    + apply toy_id.
    + intros id Hid. destruct (Hrun id Hid) as (r & ? & ? & ?). eauto.
    + intros id ->%list_elem_of_singleton. eauto.
  - intros id Hid. destruct (Hrun id Hid) as (r & ? & ? & ?). eauto.
  - exact Htr.
  - done.
  - done.
  - intros id Hid. cbn in Hid. rewrite lookup_empty in Hid. by destruct Hid.
Qed.

Lemma toy_one_ready : ready toy_cfg toy_one.
Proof.
  apply toy_ready; [by apply (bool_decide_unpack _)|done| |constructor|].
  - repeat constructor. eexists. split; [reflexivity|]. split; by vm_compute.
  - eexists. split; [reflexivity|]. split; [by vm_compute|]. split; [done|by vm_compute].
Qed.

Lemma toy_full_ready : ready toy_cfg toy_full.
Proof.
  apply toy_ready; [by apply (bool_decide_unpack _)|done| |by repeat constructor|].
  - repeat constructor; (eexists; split; [reflexivity|]; split; by vm_compute).
  - eexists. split; [reflexivity|]. split; [by vm_compute|]. split; [done|by vm_compute].
Qed.
End Toy.
Import Toy.



Lemma no_request_lost_witness : config_ok toy_cfg /\ ready toy_cfg toy_one /\
  exists s' p', decide_step toy_cfg UNPAUSED toy_one = Ok (s', p') /\
    ["a"] ++ ["b"] ++ [] ≡ₚ running s' ++ waiting s' ++ skipped_waiting s' /\
    NoDup (running s' ++ waiting s' ++ skipped_waiting s') /\
    len (running s') <= 4 /\
    (forall id, id ∈ running s' -> exists r, reqs s' !! id = Some r /\ request_id r = id) /\
    (forall id, id ∈ waiting s' ++ skipped_waiting s' ->
       exists r, reqs s' !! id = Some r /\ request_id r = id /\ waiting_ok r) /\
    (forall id, is_Some (pending_runner_block_deltas s' !! id) -> id ∈ running s').
Proof.
  split; [apply toy_config_ok|]. split; [apply toy_one_ready|].
  exact (no_request_lost toy_cfg UNPAUSED toy_one toy_config_ok toy_one_ready).
Defined.


Lemma trailing_prefill_kept_witness : config_ok toy_cfg /\ ready toy_cfg toy_one /\
  no_prefill_passed_over toy_cfg UNPAUSED toy_one /\
  exists s' p', decide_step toy_cfg UNPAUSED toy_one = Ok (s', p') /\
    forall id, id ∈ removelast (running s') -> prefilling s' id = false.
Proof.
  assert (no_prefill_passed_over toy_cfg UNPAUSED toy_one) as Hclean.
  { split; [done|]. intros x r Hx Hr Hp. cbn in Hx. injection Hx as <-.
    vm_compute in Hr. injection Hr as <-. by vm_compute in Hp. }
  split; [apply toy_config_ok|]. split; [apply toy_one_ready|]. split; [done|].
  exact (trailing_prefill_kept toy_cfg UNPAUSED toy_one toy_config_ok toy_one_ready Hclean).
Defined.

(** The exception is real.  When the trailing prefill [p] gets no tokens (here: the
    encoder cache is full), the step still admits the waiting prefill [b] behind it; once [b]
    decodes and the cache has room, a step schedules [p] together with the decode [a]. *)
Theorem passed_over_prefill_mixes_later :
  exists s1 p1, ready toy_cfg toy_full /\ decide_step toy_cfg UNPAUSED toy_full = Ok (s1, p1) /\
    running s1 = ["a"; "p"; "b"] /\ prefilling s1 "p" = true /\ prefilling s1 "b" = true /\
    exists s2 p2,
      decide_step toy_cfg UNPAUSED
        (set_env (9, false) (put_req (toy_request "b" RUNNING [4; 5; 6; 7; 8] 4 false) s1))
        = Ok (s2, p2) /\
      sched p2 = ["a"; "p"] /\ prefilling s2 "a" = false /\ prefilling s2 "p" = true.
Proof.
  eexists _, _. split; [apply toy_full_ready|]. split; [vm_compute; reflexivity|].
  do 3 (split; [vm_compute; reflexivity|]). eexists _, _. split; [vm_compute; reflexivity|].
  do 2 (split; [vm_compute; reflexivity|]). vm_compute. reflexivity.
Qed.

(** The step in which the decode [a] was scheduled with one token and block 7. *)
Module ToyStep.
Definition toy_step : @Step (list (list Z)) :=
  step_tokens {["a" := [[7]]]} [("a", 1)] 127
    (step_running ["a"] (empty_step toy_cfg UNPAUSED (mkBudget 4 1 0))).
Definition toy_start : @Step (list (list Z)) := empty_step toy_cfg UNPAUSED (mkBudget 4 1 0).
Definition toy_draft : Request :=
  mkRequest "a" RUNNING 3 [1; 2; 3] 2 [8; 9] 0 16 0 0 0 0 false None false 0 None.
Definition toy_speculating : @Scheduler (Z * bool) (list (list Z)) :=
  toy_scheduler [toy_draft] ["a"] [] 10 false.
End ToyStep.
Import ToyStep.

Lemma parked_blocks_reach_the_runner_witness : exists s1 p1,
  evict_batch toy_cfg (toy_one, toy_step) = Ok (s1, p1) /\
  (od_get "a" (num_scheduled_tokens p1) = None /\ req_to_new_blocks p1 !! "a" = None /\
   exists blocks' s3 out,
     drain_pending_runner_block_deltas ["a"] {["a" := [[8; 9]]]} s1 = Ok (blocks', s3) /\
     blocks' !! "a" = Some out /\ pending_runner_block_deltas s3 !! "a" = None /\
     forall g, group out g =
       group_of (pending_runner_block_deltas toy_one !! "a") g ++ group [[7]] g ++ group [[8; 9]] g).
Proof.
  eexists _, _. split; [vm_compute; reflexivity|].
  eapply (parked_blocks_reach_the_runner toy_cfg toy_one toy_step _ _ "a" [[7]] _ ["a"]
            {["a" := [[8; 9]]]} [[8; 9]]).
  - done.
  - done.
  - done.
  - apply NoDup_singleton.
  - set_solver.
  - reflexivity.
  - vm_compute. reflexivity.
  - reflexivity.
  - apply NoDup_singleton.
  - set_solver.
  - intros x ->%list_elem_of_singleton. by eexists.
  - reflexivity.
Defined.

Lemma eviction_undoes_scheduling_witness : exists s1 p1 s2 p2,
  commit_running toy_cfg toy_draft 3 [[7]] (None, 0, []) (toy_speculating, toy_start) = (s1, p1) /\
  evict_running ["a"] (s1, p1) = Ok (s2, p2) /\
  (reqs s2 = reqs toy_speculating /\ num_scheduled_tokens p2 = [] /\
   req_to_new_blocks p2 = ∅ /\
   scheduled_spec_decode_tokens p2 = od_pop "a" (scheduled_spec_decode_tokens p1)).
Proof.
  eexists _, _, _, _. split; [vm_compute; reflexivity|]. split; [vm_compute; reflexivity|].
  eapply (eviction_undoes_scheduling toy_cfg toy_draft 3 [[7]] (None, 0, []) toy_speculating toy_start).
  - reflexivity.
  - apply not_elem_of_nil.
  - reflexivity.
  - reflexivity.
  - reflexivity.
  - vm_compute. reflexivity.
  - vm_compute. reflexivity.
Defined.

Lemma base_tokens_tell_the_phase_witness : exists s1 p1,
  commit_running toy_cfg toy_draft 3 [[7]] (None, 0, []) (toy_speculating, toy_start) = (s1, p1) /\
  (1 <? num_base_tokens (num_scheduled_tokens p1) (scheduled_spec_decode_tokens p1) "a")
    = is_prefill toy_draft.
Proof.
  eexists _, _. split; [vm_compute; reflexivity|].
  eapply (base_tokens_tell_the_phase toy_cfg toy_draft 3 [[7]] (None, 0, []) toy_speculating
            toy_start _ _ (10, false)).
  - vm_compute. reflexivity.
  - reflexivity.
  - reflexivity.
  - vm_compute. reflexivity.
  - reflexivity.
  - by vm_compute.
  - by vm_compute.
Defined.
