(* ===== verification/SubBlock.v ===== *)
(** * Sub-block prefix caching ([src/vllm_rbln/v1/core/rbln_kv_cache_manager.py])

    The hasher, the per-group index from chained sub-block hashes to KV blocks, and the
    manager that extends vLLM's [KVCacheManager] with sub-block matches, copy operations,
    deferred indexing and KV events.

    The block pool, the coordinator and the methods of the base class are not part of the
    repository: [Pool] names the calls made of them over an abstract state [E], in which a
    KV block is its id.  The pool's eviction method is hooked by the manager
    ([_install_eviction_hook]), so a pool operation that can evict also says which blocks
    it evicted.  Logging and prefix-cache statistics are left out. *)

From S2P Require Import Prelude VllmTypes CoreUtils RblnScheduler.

(** ** Hashing *)

(** [range(a, b, step)] for a positive step. *)
Definition py_range_step (a b step : Z) : list Z :=
  (fun k => a + step * k) <$> seqZ 0 (Z.max 0 (cdiv (b - a) step)).

Section hashing.
Context {Hash Key : Type}.
Variable sub_block_size : Z.
(** [hash_block_tokens] with the configured hash function, [need_extra_keys] and
    [generate_block_hash_extra_keys] of vLLM *)
Variable hash_block_tokens : option Hash -> list Z -> option Key -> Hash.
Variable need_extra_keys : Request -> bool.
Variable generate_block_hash_extra_keys : Request -> Z -> Z -> Z -> option Key * Z.

Fixpoint hash_loop (request : Request) (use_extra : bool) (token_ids : list Z)
    (starts : list Z) (parent : option Hash) (mm_idx : Z)
    : list Hash * list (option Key) * Z :=
  match starts with
  | [] => ([], [], mm_idx)
  | i :: starts =>
      let '(extra_keys, mm_idx) :=
        if use_extra
        then generate_block_hash_extra_keys request i (i + sub_block_size) mm_idx
        else (None, mm_idx) in
      let h := hash_block_tokens parent (py_slice token_ids i (i + sub_block_size)) extra_keys in
      let '(hashes, keys, mm_idx) :=
        hash_loop request use_extra token_ids starts (Some h) mm_idx in
      (h :: hashes, extra_keys :: keys, mm_idx)
  end.

(** [SubBlockHasher.hash_tokens], always called with a request. *)
Definition hash_tokens (token_ids : list Z) (parent_hash : option Hash)
    (num_hashed_tokens : Z) (request : Request) (start_mm_idx : Z)
    : list Hash * list (option Key) * Z :=
  hash_loop request (need_extra_keys request) token_ids
    (py_range_step num_hashed_tokens (len token_ids - sub_block_size + 1) sub_block_size)
    parent_hash start_mm_idx.

Record SubHashState := mkSubHash {
  sh_hashes : list Hash;
  sh_extra_keys : list (option Key);
  sh_mm_idx : Z
}.

(** The body of [_get_or_compute_sub_hashes] on the request's cached state. *)
Definition extend_sub_hashes (state : SubHashState) (request : Request) : SubHashState :=
  let num_hashed_tokens := len (sh_hashes state) * sub_block_size in
  let '(new_hashes, new_extra_keys, new_mm_idx) :=
    hash_tokens (all_token_ids request) (last (sh_hashes state)) num_hashed_tokens request
      (sh_mm_idx state) in
  match new_hashes with
  | [] => state
  | _ => mkSubHash (sh_hashes state ++ new_hashes) (sh_extra_keys state ++ new_extra_keys)
           new_mm_idx
  end.
End hashing.
Arguments mkSubHash {Hash Key}.
Arguments SubHashState : clear implicits.

(** ** The index *)

Section index.
Context {Hash : Type} `{Countable Hash}.
(** [next(iter(blocks))]: some element of a non-empty set *)
Variable pick : gset Z -> option Z.

Record SubBlockIndex := mkIndex {
  hash_to_blocks : gmap Hash (gset Z);
  block_hashes : gmap Z (list Hash)
}.

Definition empty_index : SubBlockIndex := mkIndex ∅ ∅.

Definition bucket (h : Hash) (ix : SubBlockIndex) : gset Z :=
  default ∅ (hash_to_blocks ix !! h).

(** The loop of [SubBlockIndex.update]: [i] is the position of the next hash, [fresh] the
    first fresh position so far. *)
Fixpoint index_hashes (block_id : Z) (i fresh : Z) (hashes : list Hash) (ix : SubBlockIndex)
    : Z * SubBlockIndex :=
  match hashes with
  | [] => (fresh, ix)
  | h :: hashes =>
      let b := bucket h ix in
      let fresh := if bool_decide (b = ∅) && (i <? fresh) then i else fresh in
      let existing := default [] (block_hashes ix !! block_id) in
      index_hashes block_id (i + 1) fresh hashes
        (mkIndex (<[h := {[block_id]} ∪ b]> (hash_to_blocks ix))
                 (<[block_id := existing ++ [h]]> (block_hashes ix)))
  end.

Definition index_update (block_id : Z) (sub_block_hashes : list Hash) (ix : SubBlockIndex)
    : Z * SubBlockIndex :=
  let existing := default [] (block_hashes ix !! block_id) in
  let ix := mkIndex (hash_to_blocks ix) (<[block_id := existing]> (block_hashes ix)) in
  index_hashes block_id (len existing) (len sub_block_hashes)
    (drop (length existing) sub_block_hashes) ix.

(** The loop of [SubBlockIndex.pop]. *)
Fixpoint drop_hashes (block_id : Z) (hashes : list Hash) (m : gmap Hash (gset Z))
    : list Hash * gmap Hash (gset Z) :=
  match hashes with
  | [] => ([], m)
  | h :: hashes =>
      match m !! h with
      | None => drop_hashes block_id hashes m
      | Some s =>
          let s := s ∖ {[block_id]} in
          if bool_decide (s = ∅) then
            let '(removed, m) := drop_hashes block_id hashes (delete h m) in (h :: removed, m)
          else drop_hashes block_id hashes (<[h := s]> m)
      end
  end.

Definition index_pop (block_id : Z) (ix : SubBlockIndex) : list Hash * SubBlockIndex :=
  match block_hashes ix !! block_id with
  | None => ([], ix)
  | Some hashes =>
      let '(removed, m) := drop_hashes block_id hashes (hash_to_blocks ix) in
      (removed, mkIndex m (delete block_id (block_hashes ix)))
  end.

Definition index_contains (block_id : Z) (ix : SubBlockIndex) : bool :=
  bool_decide (is_Some (block_hashes ix !! block_id)).

Definition all_hashes (ix : SubBlockIndex) : list Hash := (map_to_list (hash_to_blocks ix)).*1.

Fixpoint match_from (depth : Z) (best : option Z * Z) (query : list Hash) (ix : SubBlockIndex)
    : option Z * Z :=
  match query with
  | [] => best
  | h :: query =>
      if bool_decide (bucket h ix = ∅) then best
      else match_from (depth + 1) (pick (bucket h ix), depth) query ix
  end.

Definition longest_match (query : list Hash) (ix : SubBlockIndex) : option Z * Z :=
  match_from 1 (None, 0) query ix.
End index.
Arguments SubBlockIndex Hash {_ _}.

(** ** The manager *)

Class Pool (E Hash : Type) := {
  (** [block_pool.touch], [free_blocks], and [block_hash is not None] of a block *)
  pool_touch : list Z -> E -> E;
  pool_free_blocks : list Z -> E -> E;
  block_is_cached : Z -> E -> bool;
  (** the synthetic hash [(group_id, block_id, last hash)] with its number of tokens, set
      on the block and inserted into the pool's map of cached blocks *)
  pool_mark_partial : Z -> Z -> Hash -> Z -> E -> E;
  (** [coordinator.get_blocks]: the block ids of a request, group by group *)
  coordinator_get_blocks : string -> E -> list (list Z);
  (** the base class *)
  super_reset_prefix_cache : E -> bool * E;
  super_free : Request -> E -> E;
  super_pop_blocks_for_free : Request -> E -> list Z * E
}.

Record KVCacheCopyOp := mkCopyOp {
  op_group_id : Z;
  op_src_block_id : Z;
  op_dst_block_id : Z;
  op_num_tokens : Z
}.

(** [_GroupPartialMatch] *)
Record GroupMatch := mkGroupMatch { gm_src_block : Z; gm_dst_req_block_index : Z }.

Record SubBlockMatch := mkMatch {
  sm_request : string;
  sm_num_tokens : Z;
  sm_group_matches : list GroupMatch
}.

Section manager.
Context {E Hash Key Ext : Type} `{Countable Hash} `{P : Pool E Hash}.
Variable pick : gset Z -> option Z.
Variable hash_block_tokens : option Hash -> list Z -> option Key -> Hash.
Variable need_extra_keys : Request -> bool.
Variable generate_block_hash_extra_keys : Request -> Z -> Z -> Z -> option Key * Z.
Variable maybe_convert_block_hash : Hash -> Ext.

Inductive KVCacheEvent :=
  | BlockStored (block_hashes : list Ext) (parent_block_hash : option Ext)
      (token_ids : list Z) (block_size : Z) (extra_keys : option (list (option Key)))
  | BlockRemoved (block_hashes : list Ext)
  | AllBlocksCleared.

Record GroupInfo := mkGroupInfo {
  gi_block_size : Z;
  gi_sub_blocks_per_block : Z;
  gi_index : SubBlockIndex Hash
}.

Record Manager := mkManager {
  m_sub_block_size : Z;
  m_groups : list GroupInfo;
  m_req_sub_hashes : gmap string (SubHashState Hash Key);
  m_pending_copy_ops : list KVCacheCopyOp;
  m_pending_indexing : odict string (list Z);
  m_events_enabled : bool;
  m_events : list KVCacheEvent;
  m_env : E
}.

Definition set_m_groups x (m : Manager) : Manager :=
  mkManager (m_sub_block_size m) x (m_req_sub_hashes m) (m_pending_copy_ops m)
    (m_pending_indexing m) (m_events_enabled m) (m_events m) (m_env m).
Definition set_sub_hashes x (m : Manager) : Manager :=
  mkManager (m_sub_block_size m) (m_groups m) x (m_pending_copy_ops m)
    (m_pending_indexing m) (m_events_enabled m) (m_events m) (m_env m).
Definition set_copy_ops x (m : Manager) : Manager :=
  mkManager (m_sub_block_size m) (m_groups m) (m_req_sub_hashes m) x
    (m_pending_indexing m) (m_events_enabled m) (m_events m) (m_env m).
Definition set_pending_indexing x (m : Manager) : Manager :=
  mkManager (m_sub_block_size m) (m_groups m) (m_req_sub_hashes m) (m_pending_copy_ops m) x
    (m_events_enabled m) (m_events m) (m_env m).
Definition set_events x (m : Manager) : Manager :=
  mkManager (m_sub_block_size m) (m_groups m) (m_req_sub_hashes m) (m_pending_copy_ops m)
    (m_pending_indexing m) (m_events_enabled m) x (m_env m).
Definition set_m_env x (m : Manager) : Manager :=
  mkManager (m_sub_block_size m) (m_groups m) (m_req_sub_hashes m) (m_pending_copy_ops m)
    (m_pending_indexing m) (m_events_enabled m) (m_events m) x.

(** [RBLNKVCacheManager.__init__], behind the base class's. *)
Definition new_manager (groups : list KVCacheSpec) (sub_block_size : Z)
    (enable_kv_cache_events : bool) (e : E) : res Manager :=
  assert! (can_use_sub_block_caching groups sub_block_size);
  let infos := (fun g => mkGroupInfo (spec_block_size g)
                 (spec_block_size g / sub_block_size) empty_index) <$> groups in
  if enable_kv_cache_events && (1 <? len infos) then Raise ValueError
  else Ok (mkManager sub_block_size infos ∅ [] [] enable_kv_cache_events [] e).

Definition get_or_compute_sub_hashes (request : Request) (m : Manager)
    : SubHashState Hash Key * Manager :=
  let state := default (mkSubHash [] [] 0) (m_req_sub_hashes m !! request_id request) in
  let state := extend_sub_hashes (m_sub_block_size m) hash_block_tokens need_extra_keys
                 generate_block_hash_extra_keys state request in
  (state, set_sub_hashes (<[request_id request := state]> (m_req_sub_hashes m)) m).

(** The loop over the groups of [get_computed_blocks_sub_block]; a group without a match
    ends it with [min_matched = 0]. *)
Fixpoint match_groups (sub_hashes : list Hash) (num_computed_tokens : Z)
    (groups : list GroupInfo) (min_matched : option Z) (acc : list GroupMatch)
    : option Z * list GroupMatch :=
  match groups with
  | [] => (min_matched, acc)
  | gi :: groups =>
      let num_full_blocks := num_computed_tokens / gi_block_size gi in
      let sbpb := gi_sub_blocks_per_block gi in
      let next_sub_start := num_full_blocks * sbpb in
      match py_slice sub_hashes next_sub_start (next_sub_start + sbpb - 1) with
      | [] => (Some 0, acc)
      | query =>
          match longest_match pick query (gi_index gi) with
          | (None, _) => (Some 0, acc)
          | (Some src, num_matched) =>
              let min_matched :=
                match min_matched with
                | None => Some num_matched
                | Some k => if num_matched <? k then Some num_matched else Some k
                end in
              match_groups sub_hashes num_computed_tokens groups min_matched
                (acc ++ [mkGroupMatch src num_full_blocks])
          end
      end
  end.

Definition get_computed_blocks_sub_block (request : Request) (num_computed_tokens : Z)
    (m : Manager) : option SubBlockMatch * Manager :=
  if skip_reading_prefix_cache request then (None, m)
  else
    let '(state, m) := get_or_compute_sub_hashes request m in
    let '(min_matched, group_matches) :=
      match_groups (sh_hashes state) num_computed_tokens (m_groups m) None [] in
    match min_matched with
    | None => (None, m)
    | Some num_matched =>
        if num_matched =? 0 then (None, m)
        else
          let max_allowed_extra_tokens := num_tokens request - 1 - num_computed_tokens in
          let max_allowed_sub_blocks := max_allowed_extra_tokens / m_sub_block_size m in
          let num_matched := Z.min num_matched max_allowed_sub_blocks in
          if num_matched =? 0 then (None, m)
          else
            (Some (mkMatch (request_id request) (num_matched * m_sub_block_size m) group_matches),
             set_m_env (pool_touch (gm_src_block <$> group_matches) (m_env m)) m)
    end.

(** The copy operations of a match, one per group. *)
Fixpoint copy_ops_of (num_tokens i : Z) (gms : list GroupMatch) (blocks : list (list Z))
    : res (list KVCacheCopyOp) :=
  match gms with
  | [] => Ok []
  | gm :: gms =>
      block_list ← of_option (py_nth blocks i) IndexError;
      dst ← of_option (py_nth block_list (gm_dst_req_block_index gm)) IndexError;
      ops ← copy_ops_of num_tokens (i + 1) gms blocks;
      Ok (mkCopyOp i (gm_src_block gm) dst num_tokens :: ops)
  end.

Definition apply_sub_block_match (match_ : SubBlockMatch) (m : Manager) : res Manager :=
  let blocks := coordinator_get_blocks (sm_request match_) (m_env m) in
  ops ← copy_ops_of (sm_num_tokens match_) 0 (sm_group_matches match_) blocks;
  Ok (set_copy_ops (m_pending_copy_ops m ++ ops) m).

Definition release_sub_block_match (match_ : SubBlockMatch) (m : Manager) : Manager :=
  set_m_env (pool_free_blocks (gm_src_block <$> sm_group_matches match_) (m_env m)) m.

Definition drain_pending_copy_ops (m : Manager) : list KVCacheCopyOp * Manager :=
  (m_pending_copy_ops m, set_copy_ops [] m).

Definition release_copy_ops (ops : list KVCacheCopyOp) (m : Manager) : Manager :=
  match ops with
  | [] => m
  | _ => set_m_env (pool_free_blocks (op_src_block_id <$> ops) (m_env m)) m
  end.

(** *** Events *)

Definition emit_block_stored (request : Request) (state : SubHashState Hash Key)
    (sub_start sub_end first_fresh_idx : Z) (m : Manager) : Manager :=
  if negb (m_events_enabled m) then m
  else
    let slice_len := sub_end - sub_start in
    if slice_len <=? first_fresh_idx then m
    else
      let fresh_start := sub_start + first_fresh_idx in
      let fresh_hashes := py_slice (sh_hashes state) fresh_start sub_end in
      let parent_hash := if 0 <? fresh_start
                         then py_nth (sh_hashes state) (fresh_start - 1) else None in
      let tok_start := fresh_start * m_sub_block_size m in
      let tok_end := sub_end * m_sub_block_size m in
      let extras := py_slice (sh_extra_keys state) fresh_start sub_end in
      set_events (m_events m ++
        [BlockStored (maybe_convert_block_hash <$> fresh_hashes)
           (maybe_convert_block_hash <$> parent_hash)
           (py_slice (all_token_ids request) tok_start tok_end)
           (m_sub_block_size m)
           (if existsb (fun e => match e with Some _ => true | None => false end) extras
            then Some extras else None)]) m.

Definition emit_block_removed (fully_removed : list Hash) (m : Manager) : Manager :=
  match fully_removed with
  | [] => m
  | _ => if negb (m_events_enabled m) then m
         else set_events (m_events m ++
                [BlockRemoved (maybe_convert_block_hash <$> fully_removed)]) m
  end.

Definition take_events (m : Manager) : list KVCacheEvent * Manager :=
  if negb (m_events_enabled m) then ([], m) else (m_events m, set_events [] m).

(** *** Indexing *)

(** [gi.sub_block_index.update(...)] on group [g], and its event. *)
Definition index_and_emit (request : Request) (state : SubHashState Hash Key) (g : nat)
    (gi : GroupInfo) (block sub_start sub_end : Z) (m : Manager) : Manager :=
  let '(first_fresh_idx, ix) :=
    index_update block (py_slice (sh_hashes state) sub_start sub_end) (gi_index gi) in
  let gi := mkGroupInfo (gi_block_size gi) (gi_sub_blocks_per_block gi) ix in
  emit_block_stored request state sub_start sub_end first_fresh_idx
    (set_m_groups (<[g := gi]> (m_groups m)) m).

Definition on_block_cached (request : Request) (blk_idx blk : Z) (g : nat) (m : Manager)
    : Manager :=
  let '(state, m) := get_or_compute_sub_hashes request m in
  match m_groups m !! g with
  | None => m
  | Some gi =>
      let sbpb := gi_sub_blocks_per_block gi in
      let sub_start := blk_idx * sbpb in
      let sub_end := Z.min (sub_start + sbpb) (len (sh_hashes state)) in
      if sub_end <=? sub_start then m
      else index_and_emit request state g gi blk sub_start sub_end m
  end.

(** The blocks of one group from index [blk_idx] on. *)
Fixpoint index_cached_blocks (request : Request) (g : nat) (blk_idx : Z) (blocks : list Z)
    (m : Manager) : Manager :=
  match blocks with
  | [] => m
  | blk :: blocks =>
      let m := if block_is_cached blk (m_env m)
               then on_block_cached request blk_idx blk g m else m in
      index_cached_blocks request g (blk_idx + 1) blocks m
  end.

(** [zip(self._group_infos, blocks, num_full_blocks_before)] *)
Fixpoint index_newly_cached_groups (request : Request) (g : nat) (groups : list GroupInfo)
    (blocks : list (list Z)) (befores : list Z) (m : Manager) : Manager :=
  match groups, blocks, befores with
  | _ :: groups, block_list :: blocks, before :: befores =>
      index_newly_cached_groups request (S g) groups blocks befores
        (index_cached_blocks request g before (drop (Z.to_nat before) block_list) m)
  | _, _, _ => m
  end.

Definition index_newly_cached_blocks (request : Request) (befores : list Z) (m : Manager)
    : Manager :=
  index_newly_cached_groups request 0 (m_groups m)
    (coordinator_get_blocks (request_id request) (m_env m)) befores m.

(** The partial block of group [g], if it has one with a full sub-block. *)
Definition index_partial_group (request : Request) (mark_cached : bool)
    (state : SubHashState Hash Key) (blocks : list (list Z)) (g : nat) (m : Manager)
    : res Manager :=
  match m_groups m !! g with
  | None => Ok m
  | Some gi =>
      let num_computed := num_computed_tokens request in
      let remainder := num_computed mod gi_block_size gi in
      if remainder =? 0 then Ok m
      else
        let num_sub_blocks := remainder / m_sub_block_size m in
        if num_sub_blocks =? 0 then Ok m
        else
          block_list ← of_option (blocks !! g) IndexError;
          match py_nth block_list (num_computed / gi_block_size gi) with
          | None => Ok m
          | Some blk =>
              let sub_start := num_computed / gi_block_size gi * gi_sub_blocks_per_block gi in
              let sub_end := Z.min (sub_start + num_sub_blocks) (len (sh_hashes state)) in
              if sub_end <=? sub_start then Ok m
              else
                let m := index_and_emit request state g gi blk sub_start sub_end m in
                if mark_cached then
                  h ← of_option (last (py_slice (sh_hashes state) sub_start sub_end)) IndexError;
                  Ok (set_m_env (pool_mark_partial (Z.of_nat g) blk h num_computed (m_env m)) m)
                else Ok m
          end
  end.

Definition index_partial_block (request : Request) (mark_cached : bool) (m : Manager)
    : res Manager :=
  let '(state, m) := get_or_compute_sub_hashes request m in
  let blocks := coordinator_get_blocks (request_id request) (m_env m) in
  foldM (fun m g => index_partial_group request mark_cached state blocks g m) m
    (seq 0 (length (m_groups m))).

Definition schedule_sub_block_indexing (request : Request) (m : Manager) : Manager :=
  match od_get (request_id request) (m_pending_indexing m) with
  | Some _ => m
  | None =>
      set_pending_indexing
        (od_set (request_id request)
           ((fun gi => num_computed_tokens request / gi_block_size gi) <$> m_groups m)
           (m_pending_indexing m)) m
  end.

(** [allocate_slots]: the base class's result and the blocks its call evicted. *)
Definition on_block_evicted (block_id : Z) (m : Manager) : Manager :=
  foldl (fun m g =>
           match m_groups m !! g with
           | None => m
           | Some gi =>
               let '(removed, ix) := index_pop block_id (gi_index gi) in
               emit_block_removed removed
                 (set_m_groups (<[g := mkGroupInfo (gi_block_size gi)
                                         (gi_sub_blocks_per_block gi) ix]> (m_groups m)) m)
           end) m (seq 0 (length (m_groups m))).

Definition allocate_slots {B} (super_allocate_slots : Request -> E -> option B * list Z * E)
    (request : Request) (delay_cache_blocks : bool) (m : Manager) : option B * Manager :=
  let '(result, evicted, e) := super_allocate_slots request (m_env m) in
  let m := set_m_env e (foldl (fun m b => on_block_evicted b m) m evicted) in
  match result with
  | Some _ =>
      (result, if delay_cache_blocks then m else schedule_sub_block_indexing request m)
  | None => (result, m)
  end.

(** The pending notes hold the request objects, whose attributes are read when the
    indexing runs: [objects] maps an id to its object. *)
Definition do_pending_indexing (objects : string -> Request) (m : Manager) : res Manager :=
  m ← foldM (fun m note =>
        let request := objects note.1 in
        index_partial_block request false (index_newly_cached_blocks request note.2 m))
        m (m_pending_indexing m);
  Ok (set_pending_indexing [] m).

Definition finalize_sub_block_state (request : Request) (m : Manager) : res Manager :=
  let id := request_id request in
  let pending := od_get id (m_pending_indexing m) in
  let m := set_pending_indexing (od_pop id (m_pending_indexing m)) m in
  let m := match pending with
           | Some befores => index_newly_cached_blocks request befores m
           | None => m
           end in
  m ← index_partial_block request true m;
  _ ← of_option (m_req_sub_hashes m !! id) KeyError;
  Ok (set_sub_hashes (delete id (m_req_sub_hashes m)) m).

Definition free (request : Request) (m : Manager) : res Manager :=
  m ← finalize_sub_block_state request m;
  Ok (set_m_env (super_free request (m_env m)) m).

Definition pop_blocks_for_free (request : Request) (m : Manager) : res (list Z * Manager) :=
  m ← finalize_sub_block_state request m;
  let '(blocks, e) := super_pop_blocks_for_free request (m_env m) in
  Ok (blocks, set_m_env e m).

Definition reset_prefix_cache (m : Manager) : bool * Manager :=
  let '(result, e) := super_reset_prefix_cache (m_env m) in
  let m := set_m_env e m in
  if (result : bool) then
    let m := if m_events_enabled m
             then set_events (m_events m ++ [AllBlocksCleared]) m else m in
    let m := set_m_groups ((fun gi => mkGroupInfo (gi_block_size gi)
                              (gi_sub_blocks_per_block gi) empty_index) <$> m_groups m) m in
    (true, set_pending_indexing [] m)
  else (false, m).
End manager.
Arguments Manager E Hash Key Ext {_ _}.
Arguments GroupInfo Hash {_ _}.
