(* ===== verification/SubBlockSpec.v ===== *)
(** * Sub-block prefix caching: what it guarantees

    The theorems about [SubBlock]: incremental hashing, the two-way index, what a match
    promises to the scheduler, the balance of block references, and the KV events as a
    faithful account of the index. *)

From S2P Require Import Prelude VllmTypes CoreUtils RblnScheduler SubBlock.

(** ** Hashing *)

Section hashing.
Context {Hash Key : Type}.
Variable sbs : Z.
Variable hbt : option Hash -> list Z -> option Key -> Hash.
Variable need : Request -> bool.
Variable gen : Request -> Z -> Z -> Z -> option Key * Z.
Hypothesis sbs_pos : 0 < sbs.

Abbreviation hash_loop := (hash_loop sbs hbt gen).
Abbreviation extend := (extend_sub_hashes sbs hbt need gen).

Lemma hash_loop_app r u ids l1 : forall l2 parent mm,
  hash_loop r u ids (l1 ++ l2) parent mm =
    let '(h1, k1, mm1) := hash_loop r u ids l1 parent mm in
    let '(h2, k2, mm2) := hash_loop r u ids l2 (match last h1 with Some h => Some h | None => parent end) mm1 in
    (h1 ++ h2, k1 ++ k2, mm2).
Proof.
  induction l1 as [|i l1 IH]; intros l2 parent mm; cbn [hash_loop app].
  - cbn. by destruct (hash_loop r u ids l2 parent mm) as [[h2 k2] mm2].
  - destruct (if u then _ else _) as [k mm1]. rewrite IH.
    set (h := hbt _ _ _).
    destruct (hash_loop r u ids l1 (Some h) mm1) as [[h1 k1] mm2].
    rewrite last_cons. destruct (last h1) as [y|];
      by destruct (hash_loop r u ids l2 _ mm2) as [[h2 k2] mm3].
Qed.

Lemma hash_loop_length r u ids l : forall parent mm,
  let '(h, k, _) := hash_loop r u ids l parent mm in
  length h = length l /\ length k = length l.
Proof.
  induction l as [|i l IH]; intros parent mm; cbn [hash_loop]; [done|].
  destruct (if u then _ else _) as [k mm1]. specialize (IH (Some (hbt parent (py_slice ids i (i + sbs)) k)) mm1).
  destruct (hash_loop r u ids l _ mm1) as [[h' k'] mm2]. cbn. lia.
Qed.

(** Only the hashed slices matter, and the generator may be another object's. *)
Lemma hash_loop_ext r r' u ids ids' l : forall parent mm,
  (forall i m, gen r i (i + sbs) m = gen r' i (i + sbs) m) ->
  (forall i, i ∈ l -> py_slice ids i (i + sbs) = py_slice ids' i (i + sbs)) ->
  hash_loop r u ids l parent mm = hash_loop r' u ids' l parent mm.
Proof.
  induction l as [|i l IH]; intros parent mm Hg Hs; cbn [hash_loop]; [done|].
  rewrite (Hs i) by set_solver. rewrite Hg.
  destruct (if u then _ else _) as [k mm1]. by rewrite IH by (done || set_solver).
Qed.

Lemma range_step_length a b : 0 <= a -> length (py_range_step a b sbs) = Z.to_nat (Z.max 0 (cdiv (b - a) sbs)).
Proof. intros _. unfold py_range_step. by rewrite length_fmap, length_seqZ. Qed.

Lemma range_step_elem a b i : i ∈ py_range_step a b sbs -> a <= i < b.
Proof.
  unfold py_range_step. intros (k & -> & Hk)%list_elem_of_fmap.
  apply elem_of_seqZ in Hk. pose proof (cdiv_spec (b - a) sbs sbs_pos). nia.
Qed.

Lemma seqZ_split a n m : 0 <= n <= m -> seqZ a m = seqZ a n ++ seqZ (a + n) (m - n).
Proof. intros Hn. rewrite <- seqZ_app by lia. f_equal. lia. Qed.

Lemma range_step_split a b b' : b <= b' ->
  py_range_step a b' sbs =
    py_range_step a b sbs ++ py_range_step (a + sbs * len (py_range_step a b sbs)) b' sbs.
Proof.
  intros Hb. set (n := Z.max 0 (cdiv (b - a) sbs)).
  assert (len (py_range_step a b sbs) = n) as Hlen.
  { unfold len, py_range_step. rewrite length_fmap, length_seqZ. unfold n. lia. }
  rewrite Hlen. unfold py_range_step. fold n.
  pose proof (cdiv_spec (b - a) sbs sbs_pos). pose proof (cdiv_spec (b' - a) sbs sbs_pos).
  assert (cdiv (b' - (a + sbs * n)) sbs = cdiv (b' - a) sbs - n) as Hc
    by (apply cdiv_unique; [done|]; nia).
  rewrite Hc. rewrite (seqZ_split 0 n (Z.max 0 (cdiv (b' - a) sbs))) by (unfold n; nia).
  rewrite fmap_app. f_equal.
  replace (Z.max 0 (cdiv (b' - a) sbs) - n) with (Z.max 0 (cdiv (b' - a) sbs - n)) by (unfold n; nia).
  rewrite Z.add_0_l. rewrite <- (Z.add_0_r n) at 1. rewrite <- (fmap_add_seqZ n 0).
  rewrite <- list_fmap_compose. apply list_fmap_ext. intros i x _. cbn. lia.
Qed.
Lemma extend_eq st r :
  extend st r =
    let '(h, k, mm) := hash_loop r (need r) (all_token_ids r)
      (py_range_step (len (sh_hashes st) * sbs) (num_tokens r - sbs + 1) sbs)
      (last (sh_hashes st)) (sh_mm_idx st) in
    mkSubHash (sh_hashes st ++ h) (sh_extra_keys st ++ k) mm.
Proof.
  unfold extend_sub_hashes, hash_tokens. fold (num_tokens r).
  set (l := py_range_step _ _ _).
  pose proof (hash_loop_length r (need r) (all_token_ids r) l (last (sh_hashes st)) (sh_mm_idx st)) as Hl.
  destruct l as [|i l].
  - cbn. rewrite !app_nil_r. by destruct st.
  - destruct (hash_loop r (need r) (all_token_ids r) (i :: l) _ _) as [[h k] mm].
    destruct h; [by destruct Hl|done].
Qed.

(** The state of a request whose hashes are computed in one go. *)
Definition hashed (r : Request) : SubHashState Hash Key := extend (mkSubHash [] [] 0) r.

Lemma hashed_length r : len (sh_hashes (hashed r)) = Z.max 0 (num_tokens r / sbs) /\
  length (sh_extra_keys (hashed r)) = length (sh_hashes (hashed r)).
Proof.
  unfold hashed. rewrite extend_eq. cbn [sh_hashes sh_mm_idx last]. rewrite Z.mul_0_l.
  set (l := py_range_step _ _ _).
  pose proof (hash_loop_length r (need r) (all_token_ids r) l None 0) as Hl.
  destruct (hash_loop _ _ _ _ _ _) as [[h k] mm]. destruct Hl as [Hh Hk].
  cbn. split; [|congruence]. unfold len. rewrite Hh. unfold l. rewrite range_step_length by lia.
  pose proof (cdiv_spec (num_tokens r - sbs + 1 - 0) sbs sbs_pos).
  assert (cdiv (num_tokens r - sbs + 1 - 0) sbs = num_tokens r / sbs); [|lia].
  apply cdiv_unique; [done|]. pose proof (Z.div_mod (num_tokens r) sbs ltac:(lia)).
  pose proof (Z.mod_pos_bound (num_tokens r) sbs sbs_pos). nia.
Qed.

Lemma slice_extend (l k : list Z) a b : 0 <= a -> b <= len l ->
  py_slice (l ++ k) a b = py_slice l a b.
Proof.
  intros Ha Hb. unfold py_slice, len in *. destruct (decide (a <= b)) as [Hab|Hab].
  - rewrite drop_app_le by lia. rewrite take_app_le; [done|]. rewrite length_drop. lia.
  - by replace (Z.to_nat (b - a)) with 0%nat by lia.
Qed.

Lemma extend_hashed r r' more : need r' = need r ->
  (forall i m, gen r i (i + sbs) m = gen r' i (i + sbs) m) ->
  all_token_ids r' = all_token_ids r ++ more -> extend (hashed r) r' = hashed r'.
Proof.
  intros Hneed Hgen Htok. unfold hashed. rewrite (extend_eq (mkSubHash [] [] 0) r).
  rewrite (extend_eq (mkSubHash [] [] 0) r'), extend_eq. cbn [sh_hashes sh_mm_idx last].
  replace (len [] * sbs) with 0 by (unfold len; cbn; lia).
  assert (num_tokens r <= num_tokens r') as Hn
    by (unfold num_tokens; rewrite Htok, len_app; pose proof (len_nonneg more); lia).
  rewrite (range_step_split 0 (num_tokens r - sbs + 1) (num_tokens r' - sbs + 1)) by lia.
  set (l := py_range_step 0 (num_tokens r - sbs + 1) sbs).
  rewrite hash_loop_app, <- Hneed.
  rewrite <- (hash_loop_ext r r' (need r') (all_token_ids r) (all_token_ids r') l None 0 Hgen).
  2:{ intros i Hi%range_step_elem. rewrite Htok, slice_extend; [done|lia|].
      unfold num_tokens in Hi. lia. }
  pose proof (hash_loop_length r (need r') (all_token_ids r) l None 0) as Hlen.
  destruct (hash_loop r (need r') (all_token_ids r) l None 0) as [[h1 k1] mm1].
  destruct Hlen as [Hlen _]. cbn [sh_hashes sh_mm_idx sh_extra_keys app].
  replace (0 + sbs * len l) with (len h1 * sbs) by (unfold len; rewrite Hlen; lia).
  destruct (last h1); by destruct (hash_loop r' _ _ _ _ _) as [[h2 k2] mm2].
Qed.
(** The hash of a run of sub-blocks, each with its tokens and extra keys. *)
Definition chain_from (p : option Hash) (cs : list (list Z * option Key)) : option Hash :=
  foldl (fun p c => Some (hbt p c.1 c.2)) p cs.
Definition chain : list (list Z * option Key) -> option Hash := chain_from None.

(** The full sub-blocks of a request, with the extra keys that go into their hashes. *)
Definition sub_blocks (r : Request) : list (list Z * option Key) :=
  zip ((fun i => py_slice (all_token_ids r) i (i + sbs)) <$>
         py_range_step 0 (num_tokens r - sbs + 1) sbs)
      (sh_extra_keys (hashed r)).

Lemma hash_loop_chain r u ids l : forall parent mm,
  let '(h, k, _) := hash_loop r u ids l parent mm in
  forall j x, h !! j = Some x ->
    chain_from parent (take (S j) (zip ((fun i => py_slice ids i (i + sbs)) <$> l) k)) = Some x.
Proof.
  induction l as [|i l IH]; intros parent mm; cbn [hash_loop]; [done|].
  destruct (if u then _ else _) as [k mm1].
  specialize (IH (Some (hbt parent (py_slice ids i (i + sbs)) k)) mm1).
  destruct (hash_loop r u ids l _ mm1) as [[h' k'] mm2].
  intros [|j] x Hx; cbn in Hx |- *; [done|]. by apply IH.
Qed.

Lemma hashed_chain r j h : sh_hashes (hashed r) !! j = Some h ->
  chain (take (S j) (sub_blocks r)) = Some h.
Proof.
  unfold sub_blocks. intros Hj.
  pose proof (hash_loop_chain r (need r) (all_token_ids r)
    (py_range_step 0 (num_tokens r - sbs + 1) sbs) None 0) as Hc.
  unfold hashed in *. rewrite extend_eq in *. cbn [sh_hashes sh_mm_idx last] in *.
  rewrite Z.mul_0_l in *. destruct (hash_loop _ _ _ _ _ _) as [[h1 k1] mm1]. by apply Hc.
Qed.

Lemma length_sub_blocks r : length (sub_blocks r) = length (sh_hashes (hashed r)).
Proof.
  destruct (hashed_length r) as [Hl Hk]. unfold sub_blocks. rewrite length_zip_with, length_fmap, Hk.
  rewrite range_step_length by lia. unfold len in Hl.
  pose proof (cdiv_spec (num_tokens r - sbs + 1 - 0) sbs sbs_pos).
  assert (cdiv (num_tokens r - sbs + 1 - 0) sbs = num_tokens r / sbs) as Hc; [|lia].
  apply cdiv_unique; [done|]. pose proof (Z.div_mod (num_tokens r) sbs ltac:(lia)).
  pose proof (Z.mod_pos_bound (num_tokens r) sbs sbs_pos). nia.
Qed.

(** Without hash collisions a hash determines everything that went into it. *)
Hypothesis hash_inj : forall p t k p' t' k', hbt p t k = hbt p' t' k' -> p = p' /\ t = t' /\ k = k'.

Lemma chain_inj cs : forall cs' h, chain cs = Some h -> chain cs' = Some h -> cs = cs'.
Proof.
  induction cs as [|c cs IH] using rev_ind; intros cs' h; [done|].
  destruct cs' as [|c' cs' _] using rev_ind; [done|].
  unfold chain, chain_from in *. rewrite !foldl_app. cbn. intros [= Heq] [= <-].
  apply hash_inj in Heq as (Hp & Ht & Hk).
  assert (cs = cs') as ->; [|destruct c, c'; cbn in *; congruence].
  destruct cs as [|c0 cs0 _] using rev_ind.
  - destruct cs' as [|c1 cs1 _] using rev_ind; [done|]. rewrite foldl_app in Hp. done.
  - rewrite foldl_app in Hp. cbn in Hp. apply (IH cs' (hbt (foldl (fun p c => Some (hbt p c.1 c.2)) None cs0) c0.1 c0.2)).
    + by rewrite foldl_app.
    + by rewrite <- Hp.
Qed.
(** The hash of a sub-block identifies its whole prefix.  If the [j]-th hash of one
    request equals the [j']-th of another, then [j = j'] and the first [j + 1] sub-blocks of
    the two requests have the same tokens and the same extra keys. *)
Theorem sub_hash_identifies_prefix r r' j j' h :
  sh_hashes (hashed r) !! j = Some h -> sh_hashes (hashed r') !! j' = Some h ->
  j = j' /\ take (S j) (sub_blocks r) = take (S j) (sub_blocks r').
Proof.
  intros Hj Hj'. pose proof (hashed_chain _ _ _ Hj) as Hc. pose proof (hashed_chain _ _ _ Hj') as Hc'.
  pose proof (chain_inj _ _ _ Hc Hc') as Heq.
  assert (j = j') as ->; [|done]. apply (f_equal length) in Heq.
  apply lookup_lt_Some in Hj. apply lookup_lt_Some in Hj'.
  rewrite !length_take, !length_sub_blocks in Heq. lia.
Qed.
End hashing.

(** ** The index *)

Section index.
Context {Hash : Type} `{Countable Hash}.
Implicit Types ix : SubBlockIndex Hash.

(** The two dictionaries say the same, and no empty set is kept. *)
Record index_ok ix : Prop := {
  ix_agree : forall h b, b ∈ bucket h ix <-> exists hs, block_hashes ix !! b = Some hs /\ h ∈ hs;
  ix_nonempty : forall h s, hash_to_blocks ix !! h = Some s -> s <> ∅
}.

(** Some block holds the sub-block. *)
Definition held (h : Hash) ix : Prop := bucket h ix <> ∅.

Lemma empty_index_ok : index_ok (empty_index (Hash := Hash)).
Proof.
  split.
  - intros h b. unfold bucket, empty_index. cbn. rewrite lookup_empty. cbn. split.
    + intros Hb. set_solver.
    + intros (hs & Hs & _). by rewrite lookup_empty in Hs.
  - intros h s. cbn. by rewrite lookup_empty.
Qed.

Lemma bucket_insert (h h' : Hash) s (m : gmap Hash (gset Z)) bh :
  bucket h' (mkIndex (<[h := s]> m) bh) = if decide (h' = h) then s else default ∅ (m !! h').
Proof.
  unfold bucket. cbn. case_decide; subst; [by rewrite lookup_insert_eq|by rewrite lookup_insert_ne].
Qed.

Lemma index_hashes_spec b hs : forall i f ix ex, index_ok ix ->
  block_hashes ix !! b = Some ex ->
  let '(f', ix') := index_hashes b i f hs ix in
  index_ok ix' /\ block_hashes ix' = <[b := ex ++ hs]> (block_hashes ix) /\
  (forall h, bucket h ix' = bucket h ix ∪ (if decide (h ∈ hs) then {[b]} else ∅)) /\
  f' <= f /\ Z.min i f <= f' /\
  (forall j h, hs !! j = Some h -> i + Z.of_nat j < f' -> held h ix) /\
  (f' < f -> exists h, hs !! Z.to_nat (f' - i) = Some h /\ ~ held h ix).
Proof.
  induction hs as [|h hs IH]; intros i f ix ex Hok Hex; cbn [index_hashes].
  { rewrite app_nil_r. rewrite insert_id by done. repeat (split; [done|]).
    split; [|split; [lia|split; [lia|split; [done|lia]]]].
    intros h. rewrite decide_False by apply not_elem_of_nil. set_solver. }
  rewrite Hex. cbn [default].
  set (f1 := if bool_decide (bucket h ix = ∅) && (i <? f) then i else f).
  set (ix1 := mkIndex _ _).
  assert (forall h', bucket h' ix1 = bucket h' ix ∪ (if decide (h' = h) then {[b]} else ∅)) as Hb1.
  { intros h'. unfold ix1. rewrite bucket_insert. case_decide; [subst|unfold bucket]; set_solver. }
  assert (index_ok ix1) as Hok1.
  { split.
    - intros h' b'. rewrite Hb1, elem_of_union, (ix_agree _ Hok). unfold ix1. cbn.
      destruct (decide (b' = b)) as [->|Hb'].
      + rewrite lookup_insert_eq. split.
        * intros [(hs' & Hs & Hin)|Hin].
          -- exists (ex ++ [h]). split; [done|]. simplify_eq. set_solver.
          -- exists (ex ++ [h]). split; [done|]. case_decide; set_solver.
        * intros (hs' & [= <-] & [Hin|Hin]%elem_of_app); [left; eauto|right].
          apply list_elem_of_singleton in Hin as ->. rewrite decide_True by done. set_solver.
      + rewrite lookup_insert_ne by done. split; [|naive_solver].
        intros [?|Hin]; [done|]. case_decide; set_solver.
    - intros h' s. unfold ix1. cbn. destruct (decide (h' = h)) as [->|Hh'].
      + rewrite lookup_insert_eq. intros [= <-]. set_solver.
      + rewrite lookup_insert_ne by done. apply Hok. }
  specialize (IH (i + 1) f1 ix1 (ex ++ [h]) Hok1).
  destruct (index_hashes b (i + 1) f1 hs ix1) as [f' ix'].
  destruct IH as (H1 & H2 & H3 & H4 & H5 & H6 & H7); [apply lookup_insert_eq|].
  assert (forall h', held h' ix1 -> held h' ix \/ h' = h) as Hheld.
  { intros h' Hh'. unfold held in *. rewrite Hb1 in Hh'. case_decide; [by right|left; set_solver]. }
  split; [done|]. split; [|split; [|split; [|split; [|split]]]].
  - rewrite H2. unfold ix1. cbn. rewrite insert_insert_eq, <- app_assoc. done.
  - intros h'. rewrite H3, Hb1. repeat case_decide; set_solver.
  - unfold f1 in *. destruct (bool_decide _ && _) eqn:E1; zbool; lia.
  - unfold f1 in *. destruct (bool_decide _ && _) eqn:E1; zbool; lia.
  - assert (i < f' -> held h ix) as H0.
    { intros Hi Hb. unfold f1 in *. rewrite bool_decide_true in H4 by done. cbn in H4.
      destruct (i <? f) eqn:E1; zbool; lia. }
    intros [|j] h' Hj Hlt; cbn in Hj; [simplify_eq; apply H0; lia|].
    assert (held h' ix1) as Hh' by (apply (H6 j); [done|lia]).
    destruct (Hheld h' Hh') as [?|Heq]; [done|]. rewrite Heq. assert (i < f') by lia. auto.
  - intros Hlt. unfold f1 in *. destruct (bool_decide _ && _) eqn:E1.
    + apply andb_true_iff in E1 as [E1 E2]. zbool. assert (f' = i) as -> by lia.
      rewrite Z.sub_diag. exists h. split; [done|]. intros Hn. by apply Hn.
    + destruct (H7 Hlt) as (x & Hx & Hnx). exists x.
      replace (Z.to_nat (f' - i)) with (S (Z.to_nat (f' - (i + 1)))) by lia.
      split; [done|]. intros Hh. apply Hnx. unfold held in *. rewrite Hb1. set_solver.
Qed.

Lemma index_update_spec b hs ix : index_ok ix ->
  let ex := default [] (block_hashes ix !! b) in
  let rest := drop (length ex) hs in
  let '(f, ix') := index_update b hs ix in
  index_ok ix' /\ block_hashes ix' = <[b := ex ++ rest]> (block_hashes ix) /\
  (forall h, bucket h ix' = bucket h ix ∪ (if decide (h ∈ rest) then {[b]} else ∅)) /\
  Z.min (len ex) (len hs) <= f <= len hs /\
  (forall j h, hs !! j = Some h -> len ex <= Z.of_nat j < f -> held h ix) /\
  (f < len hs -> exists h, hs !! Z.to_nat f = Some h /\ ~ held h ix).
Proof.
  intros Hok ex rest. unfold index_update. fold ex. fold rest.
  set (ix0 := mkIndex (hash_to_blocks ix) (<[b := ex]> (block_hashes ix))).
  assert (index_ok ix0) as Hok0.
  { split; [|apply Hok]. intros h b'. change (bucket h ix0) with (bucket h ix).
    rewrite (ix_agree _ Hok). unfold ix0. cbn. destruct (decide (b' = b)) as [->|Hb].
    - rewrite lookup_insert_eq. unfold ex. destruct (block_hashes ix !! b) as [l|]; cbn; [done|].
      split; [by intros (? & ? & _)|]. intros (hs' & [= <-] & Hin). by apply not_elem_of_nil in Hin.
    - by rewrite lookup_insert_ne. }
  pose proof (index_hashes_spec b rest (len ex) (len hs) ix0 ex Hok0 (lookup_insert_eq _ _ _)) as Hsp.
  destruct (index_hashes b (len ex) (len hs) rest ix0) as [f ix'].
  destruct Hsp as (H1 & H2 & H3 & H4 & H5 & H6 & H7). split; [done|].
  split; [rewrite H2; unfold ix0; cbn; by rewrite insert_insert_eq|].
  split; [exact H3|]. split; [lia|]. split.
  - intros j h Hj [Hle Hlt]. apply (H6 (j - length ex)%nat); unfold len in *; [|lia].
    unfold rest. rewrite lookup_drop. by replace (length ex + (j - length ex))%nat with j by lia.
  - intros Hf. destruct (H7 Hf) as (h & Hh & Hn). exists h. split; [|done].
    unfold rest in Hh. rewrite lookup_drop in Hh.
    assert (Z.to_nat (f - len ex) < length rest)%nat as Hlt.
    { apply lookup_lt_Some in Hh. unfold rest. rewrite length_drop. lia. }
    unfold rest in Hlt. rewrite length_drop in Hlt. unfold len in *.
    by replace (length ex + Z.to_nat (f - Z.of_nat (length ex)))%nat with (Z.to_nat f) in Hh by lia.
Qed.

Lemma drop_hashes_spec b hs : forall m : gmap Hash (gset Z),
  let '(removed, m') := drop_hashes b hs m in
  (forall h, m' !! h = if decide (h ∈ hs)
     then match m !! h with
          | Some s => if decide (s ∖ {[b]} = ∅) then None else Some (s ∖ {[b]})
          | None => None
          end
     else m !! h) /\
  (forall h, h ∈ removed <-> h ∈ hs /\ exists s, m !! h = Some s /\ s ∖ {[b]} = ∅).
Proof.
  induction hs as [|x hs IH]; intros m; cbn [drop_hashes].
  { split; intros h; [by rewrite decide_False by apply not_elem_of_nil|].
    split; [intros Hh; by apply not_elem_of_nil in Hh|intros [Hh _]; by apply not_elem_of_nil in Hh]. }
  destruct (m !! x) as [s|] eqn:Ex.
  - case_bool_decide as Hs.
    + specialize (IH (delete x m)). destruct (drop_hashes b hs (delete x m)) as [removed m'].
      destruct IH as [H1 H2]. split; intros h.
      * rewrite H1. destruct (decide (h = x)) as [->|Hne].
        -- rewrite (decide_True (P := x ∈ x :: hs)) by set_solver.
           rewrite Ex, lookup_delete_eq, (decide_True (P := s ∖ {[b]} = ∅)) by done.
           by case_decide.
        -- rewrite lookup_delete_ne by done. repeat case_decide; set_solver.
      * rewrite elem_of_cons, H2, elem_of_cons. destruct (decide (h = x)) as [->|Hne].
        -- split; [|by left]. intros _. split; [by left|eauto].
        -- rewrite lookup_delete_ne by done. naive_solver.
    + specialize (IH (<[x := s ∖ {[b]}]> m)).
      destruct (drop_hashes b hs (<[x := s ∖ {[b]}]> m)) as [removed m'].
      destruct IH as [H1 H2]. assert ((s ∖ {[b]}) ∖ {[b]} = s ∖ {[b]}) as Hss by set_solver.
      split; intros h.
      * rewrite H1. destruct (decide (h = x)) as [->|Hne].
        -- rewrite (decide_True (P := x ∈ x :: hs)) by set_solver.
           rewrite Ex, lookup_insert_eq, Hss, (decide_False (P := s ∖ {[b]} = ∅)) by done.
           by case_decide.
        -- rewrite lookup_insert_ne by done. repeat case_decide; set_solver.
      * rewrite H2, elem_of_cons. destruct (decide (h = x)) as [->|Hne].
        -- rewrite lookup_insert_eq. split.
           ++ intros [_ (s' & [= <-] & Hs')]. by rewrite Hss in Hs'.
           ++ intros [_ (s' & Hs' & Hemp)]. simplify_eq.
        -- rewrite lookup_insert_ne by done. naive_solver.
  - specialize (IH m). destruct (drop_hashes b hs m) as [removed m']. destruct IH as [H1 H2].
    split; intros h.
    + rewrite H1. destruct (decide (h = x)) as [->|Hne]; [|repeat case_decide; set_solver].
      rewrite (decide_True (P := x ∈ x :: hs)) by set_solver. rewrite Ex. by case_decide.
    + rewrite H2, elem_of_cons. destruct (decide (h = x)) as [->|Hne]; [|naive_solver].
      rewrite Ex. naive_solver.
Qed.

Lemma index_pop_spec b ix : index_ok ix ->
  let '(removed, ix') := index_pop b ix in
  index_ok ix' /\ block_hashes ix' = delete b (block_hashes ix) /\
  (forall h, bucket h ix' = bucket h ix ∖ {[b]}) /\
  (forall h, h ∈ removed <-> held h ix /\ ~ held h ix').
Proof.
  intros Hok. unfold index_pop. destruct (block_hashes ix !! b) as [hs|] eqn:Eb.
  2:{ split; [done|]. split; [by rewrite delete_id|].
      assert (forall h, b ∉ bucket h ix) as Hn
        by (intros h (l & Hl & _)%(ix_agree _ Hok); congruence).
      split; [intros h; specialize (Hn h); set_solver|].
      intros h. split; [intros Hh; by apply not_elem_of_nil in Hh|tauto]. }
  pose proof (drop_hashes_spec b hs (hash_to_blocks ix)) as Hd.
  destruct (drop_hashes b hs (hash_to_blocks ix)) as [removed m']. destruct Hd as [H1 H2].
  set (ix' := mkIndex m' (delete b (block_hashes ix))).
  assert (forall h, bucket h ix' = bucket h ix ∖ {[b]}) as Hbk.
  { intros h. unfold bucket, ix'. cbn. rewrite H1. destruct (decide (h ∈ hs)) as [Hh|Hh].
    - destruct (hash_to_blocks ix !! h) as [s|]; cbn; [|set_solver]. case_decide; cbn; set_solver.
    - assert (b ∉ bucket h ix) as Hnb.
      { intros (l & Hl & Hin)%(ix_agree _ Hok). simplify_eq. done. }
      unfold bucket in Hnb. set_solver. }
  assert (index_ok ix') as Hok'.
  { split.
    - intros h c. rewrite Hbk, elem_of_difference, (ix_agree _ Hok), elem_of_singleton. unfold ix'. cbn.
      destruct (decide (c = b)) as [->|Hc].
      + rewrite lookup_delete_eq. naive_solver.
      + rewrite lookup_delete_ne by done. naive_solver.
    - intros h s. unfold ix'. cbn. rewrite H1. case_decide; [|apply Hok].
      destruct (hash_to_blocks ix !! h) as [s0|]; [|done]. case_decide; naive_solver. }
  split; [done|]. split; [done|]. split; [done|]. intros h. unfold held. rewrite Hbk, H2. split.
  - intros [Hin (s & Hs & Hemp)]. pose proof (ix_nonempty _ Hok h s Hs) as Hne.
    unfold bucket. rewrite Hs. cbn. split; [done|]. rewrite Hemp. tauto.
  - intros [Hne Hemp]. unfold bucket in *. destruct (hash_to_blocks ix !! h) as [s|] eqn:Es; [|done].
    cbn in *. assert (s ∖ {[b]} = ∅) as Hs by (destruct (decide (s ∖ {[b]} = ∅)); tauto).
    split; [|eauto]. assert (b ∈ bucket h ix) as Hb.
    { unfold bucket. rewrite Es. cbn. apply set_choose_L in Hne as [c Hc].
      destruct (decide (c = b)) as [->|Hcb]; [done|]. set_solver. }
    apply (ix_agree _ Hok) in Hb as (l & Hl & Hin). by simplify_eq.
Qed.

Variable pick : gset Z -> option Z.
Hypothesis pick_elem : forall s, s <> ∅ -> exists b, pick s = Some b /\ b ∈ s.

Lemma match_from_spec query ix : forall depth best,
  let '(src, d) := match_from pick depth best query ix in
  (src, d) = best \/
  exists j h b, query !! j = Some h /\ d = depth + Z.of_nat j /\ src = Some b /\
    b ∈ bucket h ix /\ forall i h', (i <= j)%nat -> query !! i = Some h' -> held h' ix.
Proof.
  induction query as [|h query IH]; intros depth best; cbn [match_from]; [by destruct best; left|].
  case_bool_decide as Hb; [by destruct best; left|].
  specialize (IH (depth + 1) (pick (bucket h ix), depth)).
  destruct (match_from pick (depth + 1) _ query ix) as [src d].
  right. destruct IH as [[= -> ->]|(j & h' & b & Hj & -> & -> & Hbk & Hall)].
  - destruct (pick_elem _ Hb) as (b & -> & Hbk). exists 0%nat, h, b.
    split; [done|]. split; [lia|]. split; [done|]. split; [done|].
    intros [|i] h' Hi Hq; [|lia]. cbn in Hq. by simplify_eq.
  - exists (S j), h', b. split; [done|]. split; [lia|]. split; [done|]. split; [done|].
    intros [|i] h'' Hi Hq; cbn in Hq; [by simplify_eq|]. apply (Hall i); [lia|done].
Qed.
Lemma match_from_maximal query ix : forall depth best d,
  (match_from pick depth best query ix).2 = d -> best.2 = depth - 1 ->
  depth - 1 <= d <= depth - 1 + len query /\
  (forall h, query !! Z.to_nat (d - depth + 1) = Some h -> ~ held h ix).
Proof.
  induction query as [|h query IH]; intros depth best d Hd Hb; cbn [match_from] in Hd.
  { unfold len. cbn. split; [lia|]. intros h. by rewrite lookup_nil. }
  unfold len. cbn [length]. case_bool_decide as He.
  - split; [lia|]. intros h'. replace (Z.to_nat (d - depth + 1)) with 0%nat by lia. cbn.
    intros [= <-]. unfold held. tauto.
  - apply IH in Hd as [Hr Hn]; [|cbn; lia]. unfold len in Hr. split; [lia|]. intros h' Hh'.
    apply Hn. replace (Z.to_nat (d - depth + 1)) with (S (Z.to_nat (d - (depth + 1) + 1))) in Hh' by lia.
    done.
Qed.

(** The two dictionaries of a sub-block index stay each other's inverse.  [update]
    appends to the block's list the hashes behind those it already has and files the block
    under them, and the position it returns separates hashes held before from the first
    that was not; [pop] removes the block everywhere and returns exactly the hashes that
    nobody holds any more; [longest_match] finds the longest prefix of the query of which
    every hash is held, and a block that holds its last one. *)
Theorem sub_block_index_correct ix : index_ok ix ->
  (forall b hs, let ex := default [] (block_hashes ix !! b) in
     let '(f, ix') := index_update b hs ix in
     index_ok ix' /\
     block_hashes ix' = <[b := ex ++ drop (length ex) hs]> (block_hashes ix) /\
     (forall h, bucket h ix' =
        bucket h ix ∪ (if decide (h ∈ drop (length ex) hs) then {[b]} else ∅)) /\
     (forall j h, hs !! j = Some h -> len ex <= Z.of_nat j < f -> held h ix) /\
     (f < len hs -> exists h, hs !! Z.to_nat f = Some h /\ ~ held h ix)) /\
  (forall b, let '(removed, ix') := index_pop b ix in
     index_ok ix' /\ block_hashes ix' = delete b (block_hashes ix) /\
     (forall h, bucket h ix' = bucket h ix ∖ {[b]}) /\
     (forall h, h ∈ removed <-> held h ix /\ ~ held h ix')) /\
  (forall query, let '(src, d) := longest_match pick query ix in
     (d = 0 /\ src = None \/
      exists h b, query !! Z.to_nat (d - 1) = Some h /\ 0 < d /\ src = Some b /\ b ∈ bucket h ix) /\
     (forall i h, Z.of_nat i < d -> query !! i = Some h -> held h ix) /\
     (forall h, query !! Z.to_nat d = Some h -> ~ held h ix)).
Proof.
  intros Hok. split; [|split].
  - intros b hs. pose proof (index_update_spec b hs ix Hok) as Hs. cbn zeta in Hs |- *.
    destruct (index_update b hs ix) as [f ix']. destruct Hs as (H1 & H2 & H3 & _ & H4 & H5). by split_and!.
  - intros b. by apply index_pop_spec.
  - intros query. unfold longest_match. pose proof (match_from_spec query ix 1 (None, 0)) as Hs.
    destruct (match_from_maximal query ix 1 (None, 0) _ eq_refl eq_refl) as [_ Hn].
    destruct (match_from pick 1 (None, 0) query ix) as [src d]. cbn [snd] in Hn.
    replace (d - 1 + 1) with d in Hn by lia.
    destruct Hs as [[= -> ->]|(j & h & b & Hj & -> & -> & Hb & Hall)].
    + split; [by left|]. split; [lia|done].
    + split; [right; exists h, b; replace (Z.to_nat (1 + Z.of_nat j - 1)) with j by lia;
        by split_and!; [|lia| |]|].
      split; [|done]. intros i h' Hi. apply Hall. lia.
Qed.
End index.

(** ** Matches *)

Section matches.
Context {E Hash Key Ext : Type} `{Countable Hash} `{P : Pool E Hash}.
Variable pick : gset Z -> option Z.
Variable sbs : Z.
Variable hbt : option Hash -> list Z -> option Key -> Hash.
Variable need : Request -> bool.
Variable gen : Request -> Z -> Z -> Z -> option Key * Z.
Hypothesis sbs_pos : 0 < sbs.
Hypothesis pick_elem : forall s, s <> ∅ -> exists b, pick s = Some b /\ b ∈ s.
Hypothesis hash_inj : forall p t k p' t' k', hbt p t k = hbt p' t' k' -> p = p' /\ t = t' /\ k = k'.

Implicit Types m : Manager E Hash Key Ext.
Implicit Types gi : GroupInfo Hash.

Abbreviation hashed := (hashed sbs hbt need gen).
Abbreviation chain := (chain hbt).

(** What the index says of a block: its hashes are those of consecutive sub-blocks of some
    request, from a block boundary on. *)
Definition filed (sbpb : Z) (ix : SubBlockIndex Hash) : Prop :=
  forall b hs, block_hashes ix !! b = Some hs -> len hs <= sbpb /\
    exists cs a, 0 <= a /\ len cs = a * sbpb + len hs /\
      forall j h, hs !! j = Some h -> chain (take (S (Z.to_nat (a * sbpb) + j)) cs) = Some h.

Record group_ok gi : Prop := {
  go_sbpb : 0 < gi_sub_blocks_per_block gi;
  go_size : gi_block_size gi = sbs * gi_sub_blocks_per_block gi;
  go_index : index_ok (gi_index gi);
  go_filed : filed (gi_sub_blocks_per_block gi) (gi_index gi)
}.

(** The cached hashes of a request are those of an earlier prefix of its tokens. *)
Definition hashes_cached (r : Request) m : Prop :=
  forall st, m_req_sub_hashes m !! request_id r = Some st ->
    exists r0 more, st = hashed r0 /\ need r = need r0 /\
      (forall i mm, gen r0 i (i + sbs) mm = gen r i (i + sbs) mm) /\
      all_token_ids r = all_token_ids r0 ++ more.

Lemma get_or_compute_eq r m : m_sub_block_size m = sbs -> hashes_cached r m ->
  get_or_compute_sub_hashes hbt need gen r m =
    (hashed r, set_sub_hashes (<[request_id r := hashed r]> (m_req_sub_hashes m)) m).
Proof.
  intros Hsz Hc. unfold get_or_compute_sub_hashes. rewrite Hsz.
  assert (extend_sub_hashes sbs hbt need gen
    (default (mkSubHash [] [] 0) (m_req_sub_hashes m !! request_id r)) r = hashed r) as ->; [|done].
  destruct (m_req_sub_hashes m !! request_id r) as [st|] eqn:Est; [|done].
  destruct (Hc st Est) as (r0 & more & -> & Hneed & Hgen & Htok).
  by apply (extend_hashed sbs hbt need gen sbs_pos r0 r more).
Qed.

(** The source of a group holds the request's next [k] sub-blocks, at the same place. *)
Definition holds_next (hashes : list Hash) (first k : Z) (src : Z) (ix : SubBlockIndex Hash)
    : Prop :=
  exists hs, block_hashes ix !! src = Some hs /\
    forall j : nat, Z.of_nat j < k -> exists h,
      hs !! j = Some h /\ hashes !! (Z.to_nat first + j)%nat = Some h.

Lemma longest_match_holds r gi nfb src d : group_ok gi -> 0 <= nfb ->
  longest_match pick (py_slice (sh_hashes (hashed r)) (nfb * gi_sub_blocks_per_block gi)
      (nfb * gi_sub_blocks_per_block gi + gi_sub_blocks_per_block gi - 1)) (gi_index gi)
    = (Some src, d) ->
  0 < d < gi_sub_blocks_per_block gi /\
  holds_next (sh_hashes (hashed r)) (nfb * gi_sub_blocks_per_block gi) d src (gi_index gi).
Proof.
  intros [Hs _ Hok Hfiled] Hn Hm. set (sbpb := gi_sub_blocks_per_block gi) in *.
  unfold longest_match in Hm.
  match type of Hm with match_from _ _ _ ?q ?ix = _ =>
    pose proof (match_from_spec pick pick_elem q ix 1 (None, 0)) as Hsp end.
  rewrite Hm in Hsp. destruct Hsp as [[=]|(j & h & b & Hj & -> & [= <-] & Hb & _)].
  assert (0 <= nfb * sbpb) as Hstart by nia.
  rewrite lookup_py_slice in Hj by done. case_decide as Hjlt; [|done].
  split; [lia|]. apply (ix_agree _ Hok) in Hb as (hs & Hhs & Hin).
  exists hs. split; [done|]. destruct (Hfiled _ _ Hhs) as (Hle & cs & a & Ha & Hlen & Hcs).
  apply list_elem_of_lookup in Hin as [i Hi]. pose proof (Hcs _ _ Hi) as Hci.
  pose proof (hashed_chain sbs hbt need gen r _ _ Hj) as Hcj.
  pose proof (chain_inj hbt hash_inj _ _ _ Hci Hcj) as Heq.
  pose proof (lookup_lt_Some _ _ _ Hi) as Hilt. pose proof (lookup_lt_Some _ _ _ Hj) as Hjl.
  assert (Z.to_nat (a * sbpb) + i = Z.to_nat (nfb * sbpb) + j)%nat as Hpos.
  { apply (f_equal length) in Heq. rewrite !length_take, (length_sub_blocks sbs hbt need gen sbs_pos) in Heq.
    unfold len in *. lia. }
  assert (a = nfb) as -> by (unfold len in *; nia).
  assert (i = j) as -> by lia. intros i Hilt'.
  destruct (lookup_lt_is_Some_2 hs i) as [h1 Hh1]; [unfold len in *; lia|].
  destruct (lookup_lt_is_Some_2 (sh_hashes (hashed r)) (Z.to_nat (nfb * sbpb) + i)) as [h2 Hh2]; [lia|].
  exists h1. split; [done|].
  pose proof (Hcs _ _ Hh1) as Hc1. pose proof (hashed_chain sbs hbt need gen r _ _ Hh2) as Hc2.
  assert (take (S (Z.to_nat (nfb * sbpb) + i)) cs =
          take (S (Z.to_nat (nfb * sbpb) + i)) (sub_blocks sbs hbt need gen r)) as Htk.
  { apply (f_equal (take (S (Z.to_nat (nfb * sbpb) + i)))) in Heq.
    rewrite !take_take, !Nat.min_l in Heq by lia. done. }
  rewrite Htk, Hc2 in Hc1. congruence.
Qed.

(** What a group contributes to a match of [k] sub-blocks behind [c] computed tokens. *)
Definition contributes (r : Request) (c k : Z) gi (gm : GroupMatch) : Prop :=
  gm_dst_req_block_index gm = c / gi_block_size gi /\ k < gi_sub_blocks_per_block gi /\
  holds_next (sh_hashes (hashed r)) (c / gi_block_size gi * gi_sub_blocks_per_block gi) k
    (gm_src_block gm) (gi_index gi).

Lemma contributes_le r c k k' gi gm : k <= k' -> contributes r c k' gi gm -> contributes r c k gi gm.
Proof.
  intros Hk (H1 & H2 & hs & H3 & H4). split; [done|]. split; [lia|].
  exists hs. split; [done|]. intros j Hj. apply H4. lia.
Qed.

Lemma match_groups_spec r c groups : 0 <= c -> Forall group_ok groups ->
  forall min0 acc k gms,
  match_groups pick (sh_hashes (hashed r)) c groups min0 acc = (Some k, gms) -> k <> 0 ->
  exists new, gms = acc ++ new /\ Forall2 (contributes r c k) groups new /\
    (forall k0, min0 = Some k0 -> k <= k0 /\ (0 < k0 -> 0 < k)) /\ (min0 = None -> 0 < k).
Proof.
  intros Hc Hok. induction Hok as [|gi groups Hgi Hok IH]; intros min0 acc k gms Hm Hk;
    cbn [match_groups] in Hm.
  { simplify_eq. exists []. rewrite app_nil_r. split; [done|]. split; [constructor|].
    split; [intros k0 [= ->]; lia|done]. }
  set (nfb := c / gi_block_size gi) in *.
  assert (0 < gi_block_size gi) as Hbs by (rewrite (go_size _ Hgi); pose proof (go_sbpb _ Hgi); nia).
  assert (0 <= nfb) as Hn by (apply Z.div_pos; lia).
  destruct (py_slice _ _ _) as [|q query] eqn:Eq; [naive_solver|]. rewrite <- Eq in Hm.
  destruct (longest_match pick _ _) as [[src|] d] eqn:El; [|naive_solver].
  apply longest_match_holds in El as [Hd Hholds]; [|done|done].
  apply IH in Hm as (new & -> & Hnew & Hmin & _); [|done].
  exists (mkGroupMatch src nfb :: new). split; [by rewrite <- app_assoc|].
  assert (k <= d /\ (forall k0, min0 = Some k0 -> k <= k0 /\ (0 < k0 -> 0 < k)) /\
          (min0 = None -> 0 < k)) as (Hkd & H1 & H2).
  { destruct min0 as [k0|].
    - destruct (d <? k0) eqn:Elt; zbool; destruct (Hmin _ eq_refl) as [Ha Hb].
      + split; [lia|]. split; [|done]. intros k1 [= <-]. lia.
      + split; [lia|]. split; [|done]. intros k1 [= <-]. lia.
    - destruct (Hmin _ eq_refl) as [Ha Hb]. split; [lia|]. split; [done|]. intros _. lia. }
  split; [|done]. constructor; [|done].
  apply (contributes_le r c k d); [done|]. split; [done|]. split; [lia|done].
Qed.

(** C6: a sub-block match is sound.  Its length is a positive number of sub-blocks that
    leaves the last token to compute and stays below every group's block; in every group
    the source block holds, at the same place, exactly the sub-blocks of the request that
    follow its computed blocks (equal chained hashes, so equal tokens and an equal prefix),
    and the source blocks are touched so that they survive until the copy. *)
Theorem sub_block_match_sound r c m smatch m' :
  m_sub_block_size m = sbs -> hashes_cached r m -> Forall group_ok (m_groups m) ->
  0 <= c < num_tokens r ->
  get_computed_blocks_sub_block pick hbt need gen r c m = (Some smatch, m') ->
  exists k, 0 < k /\ sm_num_tokens smatch = k * sbs /\ sm_request smatch = request_id r /\
    c + sm_num_tokens smatch <= num_tokens r - 1 /\
    Forall2 (contributes r c k) (m_groups m) (sm_group_matches smatch) /\
    Forall (fun gi => sm_num_tokens smatch < gi_block_size gi) (m_groups m) /\
    m_env m' = pool_touch (gm_src_block <$> sm_group_matches smatch) (m_env m) /\
    m_groups m' = m_groups m /\ m_pending_copy_ops m' = m_pending_copy_ops m.
Proof.
  intros Hsz Hcache Hgroups Hc Hget. unfold get_computed_blocks_sub_block in Hget.
  destruct (skip_reading_prefix_cache r); [done|].
  rewrite get_or_compute_eq in Hget by done. cbn [m_groups set_sub_hashes m_sub_block_size] in Hget.
  rewrite Hsz in Hget. destruct (match_groups _ _ _ _ _ _) as [[k|] gms] eqn:Em; [|done].
  destruct (k =? 0) eqn:Ek; zbool; [done|].
  destruct (_ =? 0) eqn:Ek' in Hget; zbool; [done|]. injection Hget as <- <-.
  apply match_groups_spec in Em as (new & -> & Hall & _ & Hpos); [|lia|done|done].
  specialize (Hpos eq_refl). cbn [app] in *. set (k' := Z.min k _) in *.
  assert (0 <= (num_tokens r - 1 - c) / sbs) as Hq by (apply Z.div_pos; lia).
  pose proof (Z.mul_div_le (num_tokens r - 1 - c) sbs sbs_pos) as Hle.
  assert (0 < k') as Hk' by lia.
  assert (Forall2 (contributes r c k') (m_groups m) new) as Hall'.
  { eapply Forall2_impl; [exact Hall|]. intros gi gm. apply contributes_le. lia. }
  exists k'. cbn. split; [done|]. split; [done|]. split; [done|]. split; [nia|].
  split; [done|]. split; [|done].
  rewrite Forall_forall in *. intros gi Hgi. pose proof (go_size _ (Hgroups gi Hgi)) as ->.
  apply list_elem_of_lookup in Hgi as [i Hi].
  destruct (Forall2_lookup_l _ _ _ _ _ Hall' Hi) as (gm & _ & _ & Hlt & _). nia.
Qed.

(** Hashing is incremental.  The cached state of a request whose tokens have only been
    appended to is brought to exactly the state of hashing all its tokens at once, and
    stored; it has one hash and one entry of extra keys for each full sub-block, and each
    hash is that of the chain of sub-blocks up to it. *)
Theorem sub_hashes_incremental r m : m_sub_block_size m = sbs -> hashes_cached r m ->
  exists m', get_or_compute_sub_hashes hbt need gen r m = (hashed r, m') /\
    m_req_sub_hashes m' = <[request_id r := hashed r]> (m_req_sub_hashes m) /\
    len (sh_hashes (hashed r)) = num_tokens r / sbs /\
    length (sh_extra_keys (hashed r)) = length (sh_hashes (hashed r)) /\
    forall j h, sh_hashes (hashed r) !! j = Some h ->
      chain (take (S j) (sub_blocks sbs hbt need gen r)) = Some h.
Proof.
  intros Hs Hc. eexists. split; [by apply get_or_compute_eq|]. split; [done|].
  destruct (hashed_length sbs hbt need gen sbs_pos r) as [Hl Hk].
  split; [|split; [done|]]; [|apply hashed_chain].
  assert (0 <= num_tokens r / sbs) by (apply Z.div_pos; [apply len_nonneg|lia]). lia.
Qed.

(** ** The groups stay well formed *)

(** A block's hashes are only extended: what the index has for it and what is to be indexed
    agree as far as both go.  The pool gives a block new contents only after evicting it. *)
Definition compatible (b : Z) (hs : list Hash) (ix : SubBlockIndex Hash) : Prop :=
  let ex := default [] (block_hashes ix !! b) in
  ex ++ drop (length ex) hs = hs \/ drop (length ex) hs = [].

Lemma index_and_emit_groups conv r st g gi blk a b m :
  m_groups (index_and_emit (Ext := Ext) conv r st g gi blk a b m) =
    <[g := mkGroupInfo (gi_block_size gi) (gi_sub_blocks_per_block gi)
             (index_update blk (py_slice (sh_hashes st) a b) (gi_index gi)).2]> (m_groups m).
Proof.
  unfold index_and_emit, emit_block_stored. destruct (index_update _ _ _) as [f ix'].
  by repeat case_match.
Qed.

Lemma filed_update r sbpb blk a n ix : 0 < sbpb -> 0 <= a -> 0 <= n <= sbpb -> index_ok ix ->
  a * sbpb + n <= len (sh_hashes (hashed r)) -> filed sbpb ix ->
  compatible blk (py_slice (sh_hashes (hashed r)) (a * sbpb) (a * sbpb + n)) ix ->
  filed sbpb (index_update blk (py_slice (sh_hashes (hashed r)) (a * sbpb) (a * sbpb + n)) ix).2.
Proof.
  intros Hs Ha Hn Hok Hle Hf Hcomp. set (hs := py_slice _ _ _) in *.
  pose proof (index_update_spec blk hs ix Hok) as Hsp. destruct (index_update blk hs ix) as [f ix'].
  destruct Hsp as (_ & Hbh & _). cbn [snd]. intros b hs' Hb. rewrite Hbh in Hb.
  destruct (decide (b = blk)) as [->|Hne]; [|rewrite lookup_insert_ne in Hb by done; exact (Hf _ _ Hb)].
  rewrite lookup_insert_eq in Hb. injection Hb as <-.
  assert (0 <= a * sbpb) as H0 by nia.
  assert (len hs = n) as Hlen by (unfold hs; rewrite len_py_slice by lia; lia).
  assert (len hs <= sbpb /\ exists cs a, 0 <= a /\ len cs = a * sbpb + len hs /\
      forall j h, hs !! j = Some h -> chain (take (S (Z.to_nat (a * sbpb) + j)) cs) = Some h) as Hnew.
  { split; [lia|]. exists (take (Z.to_nat (a * sbpb + n)) (sub_blocks sbs hbt need gen r)), a.
    split; [done|]. split.
    - unfold len in *. rewrite length_take, (length_sub_blocks sbs hbt need gen sbs_pos). lia.
    - intros j h Hj. pose proof (lookup_lt_Some _ _ _ Hj) as Hjl. unfold hs in Hj.
      rewrite lookup_py_slice in Hj by lia. case_decide; [|done].
      rewrite take_take, Nat.min_l by (unfold len in *; lia).
      by apply (hashed_chain sbs hbt need gen). }
  destruct Hcomp as [-> | Hd]; [done|].
  rewrite Hd, app_nil_r. destruct (block_hashes ix !! blk) as [ex|] eqn:Eex; cbn; [exact (Hf _ _ Eex)|].
  cbn in Hd. rewrite drop_0 in Hd. rewrite Hd in Hnew. exact Hnew.
Qed.


Lemma index_pop_ok b gi : group_ok gi ->
  let ix := (index_pop b (gi_index gi)).2 in
  group_ok (mkGroupInfo (gi_block_size gi) (gi_sub_blocks_per_block gi) ix) /\
  index_contains b ix = false.
Proof.
  intros [Hs Hsz Hok Hf]. pose proof (index_pop_spec b (gi_index gi) Hok) as Hp.
  destruct (index_pop b (gi_index gi)) as [removed ix]. destruct Hp as (Hok' & Hbh & _).
  cbn. split.
  - split; cbn; [done|done|done|]. intros c hs Hc. rewrite Hbh in Hc.
    apply lookup_delete_Some in Hc as [_ Hc]. exact (Hf _ _ Hc).
  - unfold index_contains. apply bool_decide_eq_false_2. rewrite Hbh, lookup_delete_eq. by intros [? ?].
Qed.

Lemma empty_group_ok gi : 0 < gi_sub_blocks_per_block gi ->
  gi_block_size gi = sbs * gi_sub_blocks_per_block gi ->
  group_ok (mkGroupInfo (gi_block_size gi) (gi_sub_blocks_per_block gi) empty_index).
Proof.
  intros Hs Hsz. split; cbn; [done|done|apply empty_index_ok|].
  intros b hs. unfold empty_index. cbn. by rewrite lookup_empty.
Qed.

Lemma new_manager_ok groups ev e m : new_manager (Key := Key) (Ext := Ext) groups sbs ev e = Ok m ->
  m_sub_block_size m = sbs /\ Forall group_ok (m_groups m).
Proof.
  unfold new_manager. destruct (can_use_sub_block_caching groups sbs) eqn:Ec; [|done]. cbn.
  destruct (_ && _); [done|]. intros [= <-]. split; [done|]. cbn.
  apply can_use_sub_block_caching_spec in Ec as [_ Hg].
  apply Forall_fmap, Forall_forall. intros g Hin. destruct (Hg g Hin) as (_ & Hlt & Hdiv).
  pose proof (Z.div_mod (spec_block_size g) sbs ltac:(lia)) as Hd.
  apply (empty_group_ok (mkGroupInfo (spec_block_size g) (spec_block_size g / sbs) empty_index));
    cbn; nia.
Qed.

Lemma evicted_groups conv b m :
  m_groups (on_block_evicted (Ext := Ext) conv b m) =
    (fun gi => mkGroupInfo (gi_block_size gi) (gi_sub_blocks_per_block gi)
                 (index_pop b (gi_index gi)).2) <$> m_groups m.
Proof.
  set (pop := fun gi => _). unfold on_block_evicted.
  assert (forall rest pre m1, m_groups m1 = (pop <$> pre) ++ rest ->
    forall step, step = (fun (m : Manager E Hash Key Ext) g =>
           match m_groups m !! g with
           | None => m
           | Some gi =>
               let '(removed, ix) := index_pop b (gi_index gi) in
               emit_block_removed conv removed
                 (set_m_groups (<[g := mkGroupInfo (gi_block_size gi)
                                         (gi_sub_blocks_per_block gi) ix]> (m_groups m)) m)
           end) ->
    m_groups (foldl step m1 (seq (length pre) (length rest))) = pop <$> (pre ++ rest)) as Hgen.
  { induction rest as [|gi rest IH]; intros pre m1 Hm step Hstep; cbn [length seq foldl].
    { by rewrite Hm, !app_nil_r. }
    assert (m_groups (step m1 (length pre)) = (pop <$> (pre ++ [gi])) ++ rest) as Hs.
    { rewrite Hstep, Hm, lookup_app_r, length_fmap, Nat.sub_diag by (rewrite length_fmap; lia).
      cbn [lookup list_lookup]. destruct (index_pop b (gi_index gi)) as [removed ix] eqn:Ep.
      assert (pop gi = mkGroupInfo (gi_block_size gi) (gi_sub_blocks_per_block gi) ix) as Hp
        by (unfold pop; by rewrite Ep).
      unfold emit_block_removed. rewrite fmap_app, <- app_assoc. cbn [fmap list_fmap app]. rewrite Hp.
      transitivity (<[length pre := mkGroupInfo (gi_block_size gi) (gi_sub_blocks_per_block gi) ix]>
        ((pop <$> pre) ++ gi :: rest)); [by repeat case_match|].
      rewrite insert_app_r_alt, length_fmap, Nat.sub_diag by (rewrite length_fmap; lia). done. }
    replace (S (length pre)) with (length (pre ++ [gi])) by (rewrite length_app; cbn; lia).
    rewrite (IH _ _ Hs step Hstep). by rewrite <- app_assoc. }
  exact (Hgen (m_groups m) [] m eq_refl _ eq_refl).
Qed.

Lemma index_and_emit_ok conv r g gi blk a n m :
  Forall group_ok (m_groups m) -> m_groups m !! g = Some gi ->
  let start := a * gi_sub_blocks_per_block gi in
  0 <= a -> 0 <= n <= gi_sub_blocks_per_block gi -> start + n <= len (sh_hashes (hashed r)) ->
  compatible blk (py_slice (sh_hashes (hashed r)) start (start + n)) (gi_index gi) ->
  Forall group_ok (m_groups (index_and_emit (Ext := Ext) conv r (hashed r) g gi blk start (start + n) m)).
Proof.
  intros Hg Hgi start Ha Hn Hle Hcomp. rewrite index_and_emit_groups.
  pose proof (Forall_lookup_1 _ _ _ _ Hg Hgi) as [H1 H2 H3 H4].
  apply Forall_insert; [done|]. split; cbn; [done|done| |by apply filed_update].
  pose proof (index_update_spec blk (py_slice (sh_hashes (hashed r)) start (start + n)) _ H3) as Hsp.
  destruct (index_update _ _ _) as [f ix']. by destruct Hsp.
Qed.

(** The groups the manager starts with satisfy the hypotheses of the match theorem, and
    indexing a request's blocks, evicting a block and resetting the cache keep them, as
    long as a block gets other contents only after its eviction. *)
Theorem groups_stay_ok :
  (forall groups ev e m, new_manager (Key := Key) (Ext := Ext) groups sbs ev e = Ok m ->
     m_sub_block_size m = sbs /\ Forall group_ok (m_groups m)) /\
  (forall conv b m, Forall group_ok (m_groups m) ->
     Forall group_ok (m_groups (on_block_evicted conv b m)) /\
     Forall (fun gi => index_contains b (gi_index gi) = false) (m_groups (on_block_evicted conv b m))) /\
  (forall m, Forall group_ok (m_groups m) -> Forall group_ok (m_groups (reset_prefix_cache m).2)) /\
  (forall conv r g gi blk a n m, Forall group_ok (m_groups m) -> m_groups m !! g = Some gi ->
     let start := a * gi_sub_blocks_per_block gi in
     0 <= a -> 0 <= n <= gi_sub_blocks_per_block gi ->
     start + n <= len (sh_hashes (hashed r)) ->
     compatible blk (py_slice (sh_hashes (hashed r)) start (start + n)) (gi_index gi) ->
     Forall group_ok
       (m_groups (index_and_emit conv r (hashed r) g gi blk start (start + n) m))).
Proof.
  split; [|split; [|split]].
  - apply new_manager_ok.
  - intros conv b m Hg. rewrite evicted_groups. rewrite !Forall_fmap.
    split; (eapply Forall_impl; [exact Hg|]); intros gi Hgi; by apply (index_pop_ok b) in Hgi as [? ?].
  - intros m Hg. unfold reset_prefix_cache.
    destruct (super_reset_prefix_cache (m_env m)) as [[] e]; [|done]. cbn.
    replace (m_groups (if m_events_enabled m then _ else _)) with (m_groups m) by (by case_match).
    rewrite Forall_fmap. eapply Forall_impl; [exact Hg|]. intros gi [? ? _ _]. by apply empty_group_ok.
  - intros conv r g gi blk a n m Hg Hgi. by apply index_and_emit_ok.
Qed.

(** ** Copy operations and references *)

(** [count] of the pool's references to a block, which [touch] and [free_blocks] move. *)
Variable ref_cnt : Z -> E -> Z.

Definition occurrences (b : Z) (l : list Z) : Z := len (filter (fun x => x = b) l).

Record pool_counts : Prop := {
  count_touch : forall l e b, ref_cnt b (pool_touch l e) = ref_cnt b e + occurrences b l;
  count_free : forall l e b, ref_cnt b (pool_free_blocks l e) = ref_cnt b e - occurrences b l
}.

Lemma copy_ops_of_srcs n gms : forall i blocks ops, copy_ops_of n i gms blocks = Ok ops ->
  op_src_block_id <$> ops = gm_src_block <$> gms /\ Forall (fun op => op_num_tokens op = n) ops.
Proof.
  induction gms as [|gm gms IH]; intros i blocks ops Ho; cbn [copy_ops_of] in Ho;
    [by simplify_eq|].
  destruct (py_nth blocks i); [|done]. cbn in Ho. destruct (py_nth _ _); [|done]. cbn in Ho.
  destruct (copy_ops_of n (i + 1) gms blocks) as [ops'|] eqn:Eo; [|done]. cbn in Ho. simplify_eq.
  destruct (IH _ _ _ Eo) as [Hs Hn]. split; [cbn; by rewrite Hs|by constructor].
Qed.

(** References to source blocks balance.  A match holds one reference to each source
    block; releasing it gives them back; applying it moves them to its copy operations,
    which keep them while pending and drained, until [release_copy_ops] gives them back. *)
Theorem sub_block_refs_balanced r c m smatch m1 : pool_counts ->
  get_computed_blocks_sub_block pick hbt need gen r c m = (Some smatch, m1) ->
  let srcs := gm_src_block <$> sm_group_matches smatch in
  (forall b, ref_cnt b (m_env m1) = ref_cnt b (m_env m) + occurrences b srcs) /\
  (forall b, ref_cnt b (m_env (release_sub_block_match smatch m1)) = ref_cnt b (m_env m)) /\
  forall m2, apply_sub_block_match smatch m1 = Ok m2 ->
    m_env m2 = m_env m1 /\
    exists ops, drain_pending_copy_ops m2 = (m_pending_copy_ops m ++ ops, set_copy_ops [] m2) /\
      op_src_block_id <$> ops = srcs /\
      Forall (fun op => op_num_tokens op = sm_num_tokens smatch) ops /\
      (forall b, ref_cnt b (m_env (release_copy_ops ops (set_copy_ops [] m2))) = ref_cnt b (m_env m)).
Proof.
  intros [Ht Hf] Hget srcs.
  assert (m_env m1 = pool_touch srcs (m_env m) /\ m_pending_copy_ops m1 = m_pending_copy_ops m)
    as [Henv Hops].
  { unfold get_computed_blocks_sub_block in Hget. destruct (skip_reading_prefix_cache r); [done|].
    destruct (get_or_compute_sub_hashes hbt need gen r m) as [st m0] eqn:Es.
    unfold get_or_compute_sub_hashes in Es. injection Es as <- <-.
    destruct (match_groups _ _ _ _ _ _) as [[k|] gms]; [|done].
    destruct (k =? 0); [done|]. destruct (_ =? 0) in Hget; [done|]. by injection Hget as <- <-. }
  assert (forall b, ref_cnt b (m_env m1) = ref_cnt b (m_env m) + occurrences b srcs) as Hcnt
    by (intros b; by rewrite Henv, Ht).
  split; [done|]. split; [intros b; cbn; fold srcs; rewrite Hf, Hcnt; lia|].
  intros m2 Happ. unfold apply_sub_block_match in Happ.
  destruct (copy_ops_of _ _ _ _) as [ops|] eqn:Eo; [|done]. cbn in Happ. injection Happ as <-.
  split; [done|]. exists ops. apply copy_ops_of_srcs in Eo as [Hsrc Hn].
  split; [unfold drain_pending_copy_ops; cbn; by rewrite Hops|]. split; [done|]. split; [done|].
  intros b. unfold release_copy_ops. destruct ops as [|op ops].
  - cbn. rewrite Hcnt. unfold srcs in *. rewrite <- Hsrc. cbn. unfold occurrences, len. cbn. lia.
  - change (ref_cnt b (pool_free_blocks (op_src_block_id <$> op :: ops) (m_env m1)) = ref_cnt b (m_env m)).
    rewrite Hf, Hcnt, Hsrc. fold srcs. lia.
Qed.
End matches.

(** ** Events *)

Section events.
Context {E Hash Key Ext : Type} `{Countable Hash} `{Countable Ext} `{P : Pool E Hash}.
Variable pick : gset Z -> option Z.
Variable hbt : option Hash -> list Z -> option Key -> Hash.
Variable need : Request -> bool.
Variable gen : Request -> Z -> Z -> Z -> option Key * Z.
Variable conv : Hash -> Ext.
Hypothesis conv_inj : Inj (=) (=) conv.

Implicit Types m : Manager E Hash Key Ext.
Implicit Types gi : GroupInfo Hash.
Implicit Types log : list (KVCacheEvent (Key := Key) (Ext := Ext)).

(** What a listener knows after an event: the hashes it believes to be cached. *)
Definition apply_event (s : gset Ext) (ev : KVCacheEvent (Key := Key) (Ext := Ext)) : gset Ext :=
  match ev with
  | BlockStored hs _ _ _ _ => s ∪ list_to_set hs
  | BlockRemoved hs => s ∖ list_to_set hs
  | AllBlocksCleared => ∅
  end.

Definition replay (evs : list (KVCacheEvent (Key := Key) (Ext := Ext))) : gset Ext :=
  foldl apply_event ∅ evs.

Lemma replay_snoc evs ev : replay (evs ++ [ev]) = apply_event (replay evs) ev.
Proof. unfold replay. by rewrite foldl_app. Qed.

(** The listener's view is the index of the one group. *)
Definition mirrored log m : Prop :=
  m_events_enabled m = true -> exists gi, m_groups m = [gi] /\ index_ok (gi_index gi) /\
    forall x, x ∈ replay (log ++ m_events m) <-> exists h, x = conv h /\ held h (gi_index gi).

Definition notes_ok m : Prop :=
  Forall (fun note => Forall (fun z => 0 <= z) note.2) (m_pending_indexing m) /\
  Forall (fun gi => 0 < gi_block_size gi /\ 0 <= gi_sub_blocks_per_block gi) (m_groups m).

Definition minv log m : Prop := mirrored log m /\ notes_ok m.

Lemma emitted_hashes b (hs : list Hash) (ix : SubBlockIndex Hash) : index_ok ix ->
  let '(f, ix') := index_update b hs ix in
  index_ok ix' /\ 0 <= f /\
  forall h, held h ix' <-> held h ix \/ h ∈ drop (Z.to_nat f) hs.
Proof.
  intros Hok. pose proof (index_update_spec b hs ix Hok) as Hsp.
  destruct (index_update b hs ix) as [f ix']. destruct Hsp as (H1 & _ & H2 & H3 & H4 & _).
  set (ex := default [] (block_hashes ix !! b)) in *.
  pose proof (len_nonneg ex). pose proof (len_nonneg hs).
  split; [done|]. split; [lia|]. intros h. unfold held. rewrite H2.
  assert (h ∈ drop (Z.to_nat f) hs -> h ∈ drop (length ex) hs) as Hsub.
  { intros Hin. destruct (decide (len ex <= f)) as [Hle|Hgt].
    - apply list_elem_of_lookup in Hin as [i Hi]. rewrite lookup_drop in Hi.
      apply list_elem_of_lookup. exists (Z.to_nat f - length ex + i)%nat.
      rewrite lookup_drop. unfold len in *.
      by replace (length ex + (Z.to_nat f - length ex + i))%nat with (Z.to_nat f + i)%nat by lia.
    - rewrite drop_ge in Hin by (unfold len in *; lia). by apply not_elem_of_nil in Hin. }
  destruct (decide (h ∈ drop (length ex) hs)) as [Hin|Hn]; [|set_solver].
  split; [|set_solver]. intros _. apply list_elem_of_lookup in Hin as [i Hi].
  rewrite lookup_drop in Hi. destruct (decide (Z.of_nat (length ex + i) < f)) as [Hlt|Hge].
  - left. apply (H4 _ _ Hi). unfold len. lia.
  - right. apply list_elem_of_lookup. exists (length ex + i - Z.to_nat f)%nat.
    rewrite lookup_drop. by replace (Z.to_nat f + (length ex + i - Z.to_nat f))%nat
      with (length ex + i)%nat by lia.
Qed.

Lemma drop_py_slice {A} (l : list A) a b f : 0 <= a -> 0 <= f ->
  py_slice l (a + f) b = drop (Z.to_nat f) (py_slice l a b).
Proof.
  intros Ha Hf. apply list_eq. intros i. rewrite lookup_drop, !lookup_py_slice by lia.
  repeat case_decide; try lia; try done. f_equal. lia.
Qed.

Lemma index_and_emit_inv log r st g gi blk a b m : minv log m -> m_groups m !! g = Some gi ->
  0 <= a <= b -> b <= len (sh_hashes st) ->
  minv log (index_and_emit conv r st g gi blk a b m).
Proof.
  intros [Hm [Hn Hg]] Hgi Ha Hb. unfold index_and_emit.
  set (hs := py_slice (sh_hashes st) a b).
  pose proof (emitted_hashes blk hs (gi_index gi)) as Hem.
  destruct (index_update blk hs (gi_index gi)) as [f ix'].
  set (gi' := mkGroupInfo _ _ ix'). set (m1 := set_m_groups _ m).
  assert (notes_ok m1) as Hn1.
  { split; [done|]. unfold m1. cbn. apply Forall_insert; [done|]. by apply (Forall_lookup_1 _ _ _ _ Hg Hgi). }
  unfold emit_block_stored. change (m_events_enabled m1) with (m_events_enabled m).
  destruct (m_events_enabled m) eqn:Een; cbn [negb].
  2:{ split; [|done]. intros Hen. change (m_events_enabled m1) with (m_events_enabled m) in Hen. congruence. }
  destruct (Hm Een) as (gi0 & Hgs & Hok & Hrep). rewrite Hgs in Hgi.
  destruct g as [|g]; [|done]. cbn in Hgi. injection Hgi as ->.
  destruct (Hem Hok) as (Hok' & Hf & Hheld).
  assert (m_groups m1 = [gi']) as Hgs1 by (unfold m1; cbn; by rewrite Hgs).
  assert (len hs = b - a) as Hlen by (apply len_py_slice; lia).
  destruct (b - a <=? f) eqn:Ef; zbool.
  - split; [|done]. intros _. exists gi'. split; [done|]. split; [done|]. intros x.
    change (m_events m1) with (m_events m). rewrite Hrep. cbn.
    rewrite drop_ge in Hheld by (unfold len in Hlen; lia). set_solver.
  - split; [|done]. intros _. exists gi'. split; [done|]. split; [done|]. intros x. cbn.
    rewrite app_assoc, replay_snoc. cbn. rewrite elem_of_union, elem_of_list_to_set, Hrep.
    rewrite drop_py_slice by lia. fold hs. rewrite list_elem_of_fmap. cbn. split.
    + intros [(h & -> & Hh)|(h & -> & Hh)]; exists h; (split; [done|]); apply Hheld; tauto.
    + intros (h & -> & Hh). apply Hheld in Hh as [Hh|Hh]; [left|right]; eauto.
Qed.

Lemma get_or_compute_inv log r m : minv log m ->
  let '(_, m') := get_or_compute_sub_hashes hbt need gen r m in minv log m' /\ m_groups m' = m_groups m
    /\ m_env m' = m_env m.
Proof. intros Hm. unfold get_or_compute_sub_hashes. by split. Qed.

Lemma on_block_cached_inv log r i blk g m : minv log m -> 0 <= i ->
  minv log (on_block_cached hbt need gen conv r i blk g m).
Proof.
  intros Hm Hi. unfold on_block_cached. pose proof (get_or_compute_inv log r m Hm) as Hg.
  destruct (get_or_compute_sub_hashes hbt need gen r m) as [st m1]. destruct Hg as (Hm1 & Hgs & _).
  destruct (m_groups m1 !! g) as [gi|] eqn:Egi; [|done].
  pose proof Hm1 as [_ [_ Hall]]. destruct (Forall_lookup_1 _ _ _ _ Hall Egi) as [_ Hsb].
  destruct (_ <=? _) eqn:El; zbool; [done|]. apply index_and_emit_inv; [done|done|nia|lia].
Qed.

Lemma index_newly_cached_inv log r : forall groups blocks befores g m, minv log m ->
  Forall (fun z => 0 <= z) befores ->
  minv log (index_newly_cached_groups hbt need gen conv r g groups blocks befores m).
Proof.
  assert (forall bl i g m, minv log m -> 0 <= i ->
    minv log (index_cached_blocks hbt need gen conv r g i bl m)) as Hbl.
  { induction bl as [|b bl IH]; intros i g m Hm Hi; cbn; [done|]. apply IH; [|lia].
    destruct (block_is_cached b (m_env m)); [by apply on_block_cached_inv|done]. }
  induction groups as [|gi groups IH]; intros [|bl blocks] [|before befores] g m Hm Hb; cbn; try done.
  apply Forall_cons in Hb as [Hb1 Hb2]. apply IH; [|done]. by apply Hbl.
Qed.

Lemma foldM_inv {A} (I : A -> Prop) {B} (f : A -> B -> res A) l :
  (forall a x a', I a -> x ∈ l -> f a x = Ok a' -> I a') ->
  forall a a', I a -> foldM f a l = Ok a' -> I a'.
Proof.
  induction l as [|x l IH]; intros Hf a a' Ha Hr; cbn in Hr; [by simplify_eq|].
  destruct (f a x) as [a1|] eqn:E1; [|done]. cbn in Hr.
  apply (IH (fun b y b' Hb Hy => Hf b y b' Hb (proj2 (elem_of_cons l y x) (or_intror Hy))) a1 a');
    [|done]. eapply Hf; [exact Ha| |done]. apply elem_of_cons. by left.
Qed.

Lemma foldl_inv {A} (I : A -> Prop) {B} (f : A -> B -> A) l :
  (forall a x, I a -> I (f a x)) -> forall a, I a -> I (foldl f a l).
Proof. intros Hf. induction l as [|x l IH]; intros a Ha; cbn; auto. Qed.

Lemma minv_env log m e : minv log m -> minv log (set_m_env e m).
Proof. done. Qed.

Lemma index_partial_inv log r mark m m' : minv log m -> 0 <= num_computed_tokens r ->
  0 < m_sub_block_size m ->
  index_partial_block hbt need gen conv r mark m = Ok m' ->
  minv log m' /\ m_sub_block_size m' = m_sub_block_size m.
Proof.
  intros Hm Hc Hs Hi. unfold index_partial_block in Hi.
  pose proof (get_or_compute_inv log r m Hm) as Hg.
  assert (m_sub_block_size (get_or_compute_sub_hashes hbt need gen r m).2 = m_sub_block_size m)
    as Hs1 by done.
  destruct (get_or_compute_sub_hashes hbt need gen r m) as [st m1]. cbn in Hs1.
  destruct Hg as (Hm1 & _ & _). revert Hi.
  apply (foldM_inv (fun m' => minv log m' /\ m_sub_block_size m' = m_sub_block_size m)); [|done].
  intros m2 g m3 [Hm2 Hs2] _ Hp. unfold index_partial_group in Hp.
  destruct (m_groups m2 !! g) as [gi|] eqn:Egi; [|by simplify_eq].
  destruct (_ =? 0) in Hp; [by simplify_eq|]. destruct (_ =? 0) in Hp; [by simplify_eq|].
  destruct (_ !! g) as [bl|] in Hp; [|done]. cbn in Hp.
  destruct (py_nth bl _) as [blk|] in Hp; [|by simplify_eq].
  destruct (_ <=? _) eqn:El in Hp; zbool; [by simplify_eq|].
  pose proof Hm2 as [_ [_ Hall]]. destruct (Forall_lookup_1 _ _ _ _ Hall Egi) as [Hbs Hsb].
  assert (0 <= num_computed_tokens r / gi_block_size gi) by (apply Z.div_pos; lia).
  match type of Hp with context [index_and_emit conv r st g gi blk ?a ?b m2] =>
    assert (minv log (index_and_emit conv r st g gi blk a b m2)) as Hm3
      by (apply index_and_emit_inv; [done|done|nia|lia]);
    assert (m_sub_block_size (index_and_emit conv r st g gi blk a b m2) = m_sub_block_size m2) as Hs3
  end.
  { unfold index_and_emit, emit_block_stored. destruct (index_update _ _ _) as [f ix'].
    repeat case_match; done. }
  destruct mark; [|simplify_eq; by rewrite Hs3].
  destruct (last _) as [h|] in Hp; [|done]. cbn in Hp. simplify_eq. split; [done|]. by rewrite <- Hs3 in Hs2.
Qed.

Lemma evicted_inv log b m : minv log m -> minv log (on_block_evicted conv b m).
Proof.
  intros Hm. unfold on_block_evicted. apply foldl_inv; [|done]. clear m Hm.
  intros m g [Hm [Hn Hg]]. destruct (m_groups m !! g) as [gi|] eqn:Egi; [|done].
  pose proof (index_pop_spec b (gi_index gi)) as Hpop.
  destruct (index_pop b (gi_index gi)) as [removed ix'].
  set (gi' := mkGroupInfo _ _ ix'). set (m1 := set_m_groups _ m).
  assert (notes_ok m1) as Hn1.
  { split; [done|]. unfold m1. cbn. apply Forall_insert; [done|]. by apply (Forall_lookup_1 _ _ _ _ Hg Egi). }
  assert (m_events_enabled m = true -> m_groups m1 = [gi'] /\ index_ok ix' /\
    forall x, x ∈ replay (log ++ m_events m) ∖ list_to_set (conv <$> removed) <->
              exists h, x = conv h /\ held h ix') as Hmir.
  { intros Hen. destruct (Hm Hen) as (gi0 & Hgs & Hok & Hrep). rewrite Hgs in Egi.
    destruct g as [|g]; [|done]. cbn in Egi. injection Egi as ->.
    destruct (Hpop Hok) as (Hok' & _ & Hbk & Hrem).
    split; [unfold m1; cbn; by rewrite Hgs|]. split; [done|]. intros x.
    rewrite elem_of_difference, Hrep, elem_of_list_to_set, list_elem_of_fmap. split.
    - intros [(h & -> & Hh) Hnr]. exists h. split; [done|].
      destruct (decide (bucket h ix' = ∅)) as [He|Hne]; [|done].
      destruct Hnr. exists h. split; [done|]. apply Hrem. split; [done|]. intros Hh'. by apply Hh'.
    - intros (h & -> & Hh). split.
      + exists h. split; [done|]. unfold held in *. rewrite Hbk in Hh. set_solver.
      + intros (h' & Heq & Hin). apply conv_inj in Heq as <-. apply Hrem in Hin as [_ Hn']. done. }
  unfold emit_block_removed. destruct removed as [|h0 removed].
  - split; [|done]. intros Hen. destruct (Hmir Hen) as (H1 & H2 & H3). exists gi'. split; [done|].
    split; [done|]. intros x. etransitivity; [|exact (H3 x)]. cbn. set_solver.
  - change (m_events_enabled m1) with (m_events_enabled m).
    destruct (m_events_enabled m) eqn:Een; cbn [negb].
    + split; [|done]. intros _. destruct (Hmir eq_refl) as (H1 & H2 & H3). exists gi'.
      split; [done|]. split; [done|]. intros x. cbn. rewrite app_assoc, replay_snoc. apply H3.
    + split; [|done]. intros Hen. change (m_events_enabled m1) with (m_events_enabled m) in Hen. congruence.
Qed.

Lemma reset_inv log m : minv log m -> minv log (reset_prefix_cache m).2.
Proof.
  intros [Hm [Hn Hg]]. unfold reset_prefix_cache.
  destruct (super_reset_prefix_cache (m_env m)) as [[] e]; [|done]. cbn.
  split; [|split; [constructor|]].
  - intros Hen. assert (m_events_enabled m = true) as Hen'.
    { destruct (m_events_enabled m) eqn:Ee; [done|]. cbn in Hen. congruence. }
    destruct (Hm Hen') as (gi & Hgs & _ & _). rewrite Hen' in *. cbn. rewrite Hgs. cbn.
    eexists. split; [reflexivity|]. split; [apply empty_index_ok|]. intros x.
    rewrite app_assoc, replay_snoc. cbn. split; [set_solver|].
    intros (h & _ & Hh). destruct Hh. unfold bucket, empty_index. cbn. by rewrite lookup_empty.
  - cbn. apply Forall_fmap. destruct (m_events_enabled m); exact Hg.
Qed.

Abbreviation state := (list (KVCacheEvent (Key := Key) (Ext := Ext)) * Manager E Hash Key Ext)%type.

(** One call of the manager; the first component is what [take_events] has handed out. *)
Inductive op_step : state -> state -> Prop :=
  | op_match r c log m o m' :
      get_computed_blocks_sub_block pick hbt need gen r c m = (o, m') -> op_step (log, m) (log, m')
  | op_apply sm log m m' : apply_sub_block_match sm m = Ok m' -> op_step (log, m) (log, m')
  | op_release sm log m : op_step (log, m) (log, release_sub_block_match sm m)
  | op_allocate B (f : Request -> E -> option B * list Z * E) r delay log m o m' :
      0 <= num_computed_tokens r -> allocate_slots conv f r delay m = (o, m') ->
      op_step (log, m) (log, m')
  | op_schedule r log m : 0 <= num_computed_tokens r ->
      op_step (log, m) (log, schedule_sub_block_indexing r m)
  | op_drain log m : op_step (log, m) (log, (drain_pending_copy_ops m).2)
  | op_release_ops ops log m : op_step (log, m) (log, release_copy_ops ops m)
  | op_index objects log m m' : (forall id, 0 <= num_computed_tokens (objects id)) ->
      do_pending_indexing hbt need gen conv objects m = Ok m' -> op_step (log, m) (log, m')
  | op_free r log m m' : 0 <= num_computed_tokens r ->
      free hbt need gen conv r m = Ok m' -> op_step (log, m) (log, m')
  | op_pop_blocks r log m blocks m' : 0 <= num_computed_tokens r ->
      pop_blocks_for_free hbt need gen conv r m = Ok (blocks, m') -> op_step (log, m) (log, m')
  | op_reset log m : op_step (log, m) (log, (reset_prefix_cache m).2)
  | op_take log m : op_step (log, m) (log ++ (take_events m).1, (take_events m).2)
  (** the hook on the pool's eviction, outside a call of the manager *)
  | op_evict b log m : op_step (log, m) (log, on_block_evicted conv b m).

Definition good (st : state) : Prop := minv st.1 st.2 /\ 0 < m_sub_block_size st.2.

Lemma schedule_inv log r m : minv log m -> 0 <= num_computed_tokens r ->
  minv log (schedule_sub_block_indexing r m).
Proof.
  intros [Hm [Hn Hg]] Hc. unfold schedule_sub_block_indexing.
  destruct (od_get (request_id r) (m_pending_indexing m)) eqn:Eg; [done|].
  split; [done|]. split; [|done]. cbn.
  rewrite od_set_new by (by apply not_elem_of_od_keys). apply Forall_app. split; [done|].
  apply Forall_singleton. cbn. apply Forall_fmap. eapply Forall_impl; [exact Hg|].
  intros gi [Hbs _]. cbn. apply Z.div_pos; lia.
Qed.

Lemma notes_befores log m id l : minv log m -> od_get id (m_pending_indexing m) = Some l ->
  Forall (fun z => 0 <= z) l.
Proof.
  intros [_ [Hn _]] Hg. revert Hn Hg. induction (m_pending_indexing m) as [|[k v] d IH]; [done|].
  intros [H1 H2]%Forall_cons. cbn. case_decide; [|auto]. intros [= <-]. done.
Qed.

Lemma newly_cached_size r befores m :
  m_sub_block_size (index_newly_cached_blocks hbt need gen conv r befores m) = m_sub_block_size m.
Proof.
  assert (forall bl i g m, m_sub_block_size (index_cached_blocks hbt need gen conv r g i bl m)
            = m_sub_block_size m) as Hbl.
  { induction bl as [|b bl IH]; intros i g m0; cbn; [done|]. rewrite IH.
    destruct (block_is_cached b (m_env m0)); [|done]. unfold on_block_cached, get_or_compute_sub_hashes.
    cbn. destruct (m_groups m0 !! g); [|done]. destruct (_ <=? _); [done|].
    unfold index_and_emit, emit_block_stored. destruct (index_update _ _ _) as [f ix'].
    repeat case_match; done. }
  unfold index_newly_cached_blocks. generalize (coordinator_get_blocks (request_id r) (m_env m)).
  generalize (m_groups m), 0%nat. intros groups. revert m befores.
  induction groups as [|gi groups IH]; intros m [|b befores] g [|bl blocks]; cbn; try done.
  rewrite IH. apply Hbl.
Qed.

Lemma note_inv log r befores mark m m' : good (log, m) -> 0 <= num_computed_tokens r ->
  Forall (fun z => 0 <= z) befores ->
  index_partial_block hbt need gen conv r mark (index_newly_cached_blocks hbt need gen conv r befores m)
    = Ok m' -> good (log, m').
Proof.
  intros [Hm Hs] Hc Hb Hi. cbn in Hm, Hs.
  apply (index_partial_inv log) in Hi as [Hm' Hs'].
  - split; [done|]. cbn. rewrite Hs', newly_cached_size. done.
  - unfold index_newly_cached_blocks. by apply index_newly_cached_inv.
  - done.
  - by rewrite newly_cached_size.
Qed.

Lemma finalize_inv log r m m' : good (log, m) -> 0 <= num_computed_tokens r ->
  finalize_sub_block_state hbt need gen conv r m = Ok m' -> good (log, m').
Proof.
  intros Hg Hc Hf. unfold finalize_sub_block_state in Hf.
  set (m1 := set_pending_indexing _ m) in Hf.
  assert (good (log, m1)) as Hg1.
  { destruct Hg as [[Hm [Hn Hgr]] Hs]. split; [|done]. split; [done|]. split; [|done].
    unfold m1. cbn. rewrite Forall_forall in *. intros x [_ Hx]%list_elem_of_filter. auto. }
  destruct (od_get (request_id r) (m_pending_indexing m)) as [befores|] eqn:Ep.
  - destruct (index_partial_block _ _ _ _ r true _) as [m2|] eqn:Ei; [|done]. cbn in Hf.
    destruct (m_req_sub_hashes m2 !! request_id r); [|done]. cbn in Hf. injection Hf as <-.
    eapply (note_inv log r befores true m1) in Ei; [done|done|done|].
    destruct Hg as [Hg _]. by eapply notes_befores.
  - destruct (index_partial_block _ _ _ _ r true m1) as [m2|] eqn:Ei; [|done]. cbn in Hf.
    destruct (m_req_sub_hashes m2 !! request_id r); [|done]. cbn in Hf. injection Hf as <-.
    destruct Hg1 as [Hg1 Hs1]. apply (index_partial_inv log) in Ei as [H1 H2]; [|done|done|done].
    split; [done|]. cbn. by rewrite H2.
Qed.

Lemma evicted_size b m : m_sub_block_size (on_block_evicted conv b m) = m_sub_block_size m.
Proof.
  unfold on_block_evicted.
  apply (foldl_inv (fun m' => m_sub_block_size m' = m_sub_block_size m)); [|done].
  intros m1 g Hs. destruct (m_groups m1 !! g); [|done]. destruct (index_pop _ _) as [removed ix'].
  unfold emit_block_removed. repeat case_match; done.
Qed.

Lemma op_step_good st st' : op_step st st' -> good st -> good st'.
Proof.
  destruct 1 as [r c log m o m' Ho|sm log m m' Ho|sm log m|B f r delay log m o m' Hc Ho|r log m Hc
    |log m|ops log m|objects log m m' Hc Ho|r log m m' Hc Ho|r log m blocks m' Hc Ho|log m|log m|b log m];
    intros Hg; pose proof Hg as [Hm Hs]; cbn [fst snd] in *.
  - unfold get_computed_blocks_sub_block in Ho. destruct (skip_reading_prefix_cache r); [by simplify_eq|].
    unfold get_or_compute_sub_hashes in Ho. destruct (match_groups _ _ _ _ _ _) as [[k|] gms];
      [|by simplify_eq]. destruct (k =? 0); [by simplify_eq|]. destruct (_ =? 0) in Ho; by simplify_eq.
  - unfold apply_sub_block_match in Ho. destruct (copy_ops_of _ _ _ _); [|done]. cbn in Ho. by simplify_eq.
  - done.
  - unfold allocate_slots in Ho. destruct (f r (m_env m)) as [[res evicted] e].
    assert (good (log, foldl (fun m b => on_block_evicted conv b m) m evicted)) as Hg1.
    { apply (foldl_inv (fun m => good (log, m))); [|done]. intros m1 b [H1 H2].
      split; [by apply evicted_inv|]. cbn. by rewrite evicted_size. }
    destruct res; [destruct delay|]; simplify_eq; try exact Hg1.
    destruct Hg1 as [H1 H2]. split; cbn; [by apply schedule_inv|].
    unfold schedule_sub_block_indexing. by case_match.
  - split; cbn; [by apply schedule_inv|]. unfold schedule_sub_block_indexing. by case_match.
  - done.
  - by destruct ops.
  - unfold do_pending_indexing in Ho.
    destruct (foldM _ m (m_pending_indexing m)) as [m1|] eqn:Ef; [|done]. cbn in Ho. injection Ho as <-.
    assert (good (log, m1)) as [[H1 [_ H2]] H3].
    { revert Ef. apply (foldM_inv (fun m => good (log, m))); [|done].
      intros m2 note m3 Hg2 Hin Hn. eapply note_inv; [exact Hg2|done| |exact Hn].
      destruct Hm as [_ [Hn0 _]]. rewrite Forall_forall in Hn0. by apply Hn0. }
    split; [|done]. split; [done|]. split; [constructor|done].
  - unfold free in Ho. destruct (finalize_sub_block_state _ _ _ _ r m) as [m1|] eqn:Ef; [|done].
    cbn in Ho. injection Ho as <-. by apply (finalize_inv log) in Ef.
  - unfold pop_blocks_for_free in Ho. destruct (finalize_sub_block_state _ _ _ _ r m) as [m1|] eqn:Ef; [|done].
    cbn in Ho. destruct (super_pop_blocks_for_free r (m_env m1)) as [bl e]. injection Ho as _ <-.
    by apply (finalize_inv log) in Ef.
  - split; cbn [fst snd]; [by apply reset_inv|]. unfold reset_prefix_cache.
    destruct (super_reset_prefix_cache (m_env m)) as [[] e]; [|done]. cbn. by destruct (m_events_enabled m).
  - unfold take_events. destruct (m_events_enabled m) eqn:Een; cbn [negb fst snd].
    + split; [|done]. destruct Hm as [Hm Hn]. split; [|done]. intros _. cbn.
      destruct (Hm Een) as (gi & H1 & H2 & H3). exists gi. rewrite app_nil_r. done.
    + by rewrite app_nil_r.
  - split; [by apply evicted_inv|]. cbn. by rewrite evicted_size.
Qed.

(** *** What no operation changes *)

Definition cfg m : Z * bool * list (Z * Z) :=
  (m_sub_block_size m, m_events_enabled m,
   (fun gi => (gi_block_size gi, gi_sub_blocks_per_block gi)) <$> m_groups m).

Lemma cfg_set_group g gi ix m : m_groups m !! g = Some gi ->
  cfg (set_m_groups (<[g := mkGroupInfo (gi_block_size gi) (gi_sub_blocks_per_block gi) ix]>
         (m_groups m)) m) = cfg m.
Proof.
  intros Hg. unfold cfg. cbn. f_equal. rewrite list_fmap_insert. cbn. apply list_insert_id.
  by rewrite list_lookup_fmap, Hg.
Qed.

Lemma cfg_env e m : cfg (set_m_env e m) = cfg m.
Proof. done. Qed.

Lemma cfg_index_and_emit r st g gi blk a b m : m_groups m !! g = Some gi ->
  cfg (index_and_emit conv r st g gi blk a b m) = cfg m.
Proof.
  intros Hg. unfold index_and_emit, emit_block_stored. destruct (index_update _ _ _) as [f ix'].
  rewrite <- (cfg_set_group g gi ix' m Hg). by repeat case_match.
Qed.

Lemma cfg_newly_cached r befores m :
  cfg (index_newly_cached_blocks hbt need gen conv r befores m) = cfg m.
Proof.
  assert (forall bl i g m, cfg (index_cached_blocks hbt need gen conv r g i bl m) = cfg m) as Hbl.
  { induction bl as [|b bl IH]; intros i g m0; cbn; [done|]. rewrite IH.
    destruct (block_is_cached b (m_env m0)); [|done]. unfold on_block_cached, get_or_compute_sub_hashes.
    destruct (m_groups _ !! g) eqn:Eg; [|done]. destruct (_ <=? _); [done|].
    by rewrite cfg_index_and_emit. }
  unfold index_newly_cached_blocks. generalize (coordinator_get_blocks (request_id r) (m_env m)).
  generalize (m_groups m), 0%nat. intros groups. revert m befores.
  induction groups as [|gi groups IH]; intros m [|b befores] g [|bl blocks]; cbn; try done.
  rewrite IH. apply Hbl.
Qed.

Lemma cfg_partial_group r mark st blocks g m m' :
  index_partial_group conv r mark st blocks g m = Ok m' -> cfg m' = cfg m.
Proof.
  intros Hp. unfold index_partial_group in Hp.
  destruct (m_groups m !! g) as [gi|] eqn:Egi; [|by simplify_eq].
  destruct (_ =? 0) in Hp; [by simplify_eq|]. destruct (_ =? 0) in Hp; [by simplify_eq|].
  destruct (_ !! g) as [bl|] in Hp; [|done]. cbn in Hp.
  destruct (py_nth bl _) as [blk|] in Hp; [|by simplify_eq].
  destruct (_ <=? _) in Hp; [by simplify_eq|]. destruct mark.
  - destruct (last _) in Hp; [|done]. cbn in Hp. injection Hp as <-.
    rewrite cfg_env. by apply cfg_index_and_emit.
  - injection Hp as <-. by apply cfg_index_and_emit.
Qed.

Lemma cfg_partial r mark m m' : index_partial_block hbt need gen conv r mark m = Ok m' -> cfg m' = cfg m.
Proof.
  unfold index_partial_block, get_or_compute_sub_hashes.
  apply (foldM_inv (fun m' => cfg m' = cfg m)); [|done].
  intros m2 g m3 Hm2 _ Hp. rewrite <- Hm2. by apply cfg_partial_group in Hp.
Qed.

Lemma cfg_evicted b m : cfg (on_block_evicted conv b m) = cfg m.
Proof.
  unfold on_block_evicted. apply (foldl_inv (fun m' => cfg m' = cfg m)); [|done].
  intros m1 g Hs. destruct (m_groups m1 !! g) as [gi|] eqn:Eg; [|done].
  destruct (index_pop _ _) as [removed ix']. rewrite <- Hs, <- (cfg_set_group g gi ix' m1 Eg).
  unfold emit_block_removed. by repeat case_match.
Qed.

Lemma cfg_finalize r m m' : finalize_sub_block_state hbt need gen conv r m = Ok m' -> cfg m' = cfg m.
Proof.
  unfold finalize_sub_block_state. set (m1 := set_pending_indexing _ m). intros Hf.
  destruct (index_partial_block _ _ _ _ r true _) as [m2|] eqn:Ei; [|done]. cbn in Hf.
  destruct (m_req_sub_hashes m2 !! request_id r); [|done]. cbn in Hf. injection Hf as <-.
  apply cfg_partial in Ei. transitivity (cfg m2); [done|]. rewrite Ei.
  destruct (od_get _ _); [|done]. by rewrite cfg_newly_cached.
Qed.

Lemma cfg_reset m : cfg (reset_prefix_cache m).2 = cfg m.
Proof.
  unfold reset_prefix_cache. destruct (super_reset_prefix_cache (m_env m)) as [[] e]; [|done].
  unfold cfg. cbn. rewrite <- list_fmap_compose. destruct (m_events_enabled m) eqn:Ee; cbn; by rewrite Ee.
Qed.

Lemma op_step_cfg st st' : op_step st st' -> cfg st'.2 = cfg st.2.
Proof.
  destruct 1 as [r c log m o m' Ho|sm log m m' Ho|sm log m|B f r delay log m o m' Hc Ho|r log m Hc
    |log m|ops log m|objects log m m' Hc Ho|r log m m' Hc Ho|r log m blocks m' Hc Ho|log m|log m|b log m];
    cbn [fst snd].
  - unfold get_computed_blocks_sub_block in Ho. destruct (skip_reading_prefix_cache r); [by simplify_eq|].
    unfold get_or_compute_sub_hashes in Ho. destruct (match_groups _ _ _ _ _ _) as [[k|] gms];
      [|by simplify_eq]. destruct (k =? 0); [by simplify_eq|]. destruct (_ =? 0) in Ho; by simplify_eq.
  - unfold apply_sub_block_match in Ho. destruct (copy_ops_of _ _ _ _); [|done]. cbn in Ho. by simplify_eq.
  - done.
  - unfold allocate_slots in Ho. destruct (f r (m_env m)) as [[res evicted] e].
    assert (cfg (foldl (fun m b => on_block_evicted conv b m) m evicted) = cfg m) as Hf.
    { apply (foldl_inv (fun m' => cfg m' = cfg m)); [|done]. intros m1 b H1. by rewrite cfg_evicted. }
    rewrite <- Hf. destruct res; [destruct delay|]; simplify_eq; try done.
    unfold schedule_sub_block_indexing. by case_match.
  - unfold schedule_sub_block_indexing. by case_match.
  - done.
  - by destruct ops.
  - unfold do_pending_indexing in Ho.
    destruct (foldM _ m (m_pending_indexing m)) as [m1|] eqn:Ef; [|done]. cbn in Ho. injection Ho as <-.
    transitivity (cfg m1); [done|]. revert Ef. apply (foldM_inv (fun m' => cfg m' = cfg m)); [|done].
    intros m2 note m3 Hm2 _ Hn. apply cfg_partial in Hn. by rewrite Hn, cfg_newly_cached.
  - unfold free in Ho. destruct (finalize_sub_block_state _ _ _ _ r m) as [m1|] eqn:Ef; [|done].
    cbn in Ho. injection Ho as <-. by apply cfg_finalize in Ef.
  - unfold pop_blocks_for_free in Ho. destruct (finalize_sub_block_state _ _ _ _ r m) as [m1|] eqn:Ef; [|done].
    cbn in Ho. destruct (super_pop_blocks_for_free r (m_env m1)) as [bl e]. injection Ho as _ <-.
    by apply cfg_finalize in Ef.
  - apply cfg_reset.
  - unfold take_events. by destruct (m_events_enabled m).
  - apply cfg_evicted.
Qed.

Lemma new_manager_good groups sbs ev e m : groups <> [] ->
  new_manager groups sbs ev e = Ok m -> good ([], m) /\ m_events_enabled m = ev.
Proof.
  intros Hne. unfold new_manager.
  destruct (can_use_sub_block_caching groups sbs) eqn:Ec; [|done]. cbn [mbind res_bind].
  destruct (ev && _) eqn:El; [done|]. intros [= <-]. split; [|done].
  apply can_use_sub_block_caching_spec in Ec as [Hs Hg]. split; [|done]. split; [|split; [by constructor|]].
  - intros Hev. cbn in Hev. subst ev. cbn in El. zbool. destruct groups as [|g [|g' groups]]; [done| |].
    2:{ unfold len in El. cbn in El. lia. }
    eexists. split; [reflexivity|]. split; [apply empty_index_ok|]. intros x. cbn. split; [set_solver|].
    intros (h & _ & Hh). destruct Hh. unfold bucket, empty_index. cbn. by rewrite lookup_empty.
  - cbn. apply Forall_fmap, Forall_forall. intros g Hin. destruct (Hg g Hin) as (_ & Hlt & _). cbn.
    split; [lia|]. apply Z.div_pos; lia.
Qed.

(** C25: the KV events are a faithful account of the index.  Whatever the manager is asked to
    do, a listener that replays the events handed out so far and those still queued knows
    exactly the hashes some block of the one group is filed under; and the sizes of the
    group are what the configuration said. *)
Theorem events_mirror_index groups sbs e m0 log m : groups <> [] ->
  new_manager groups sbs true e = Ok m0 -> rtc op_step ([], m0) (log, m) ->
  exists gi, m_groups m = [gi] /\ index_ok (gi_index gi) /\
    [(gi_block_size gi, gi_sub_blocks_per_block gi)] =
      (fun g => (spec_block_size g, spec_block_size g / sbs)) <$> groups /\
    forall x, x ∈ replay (log ++ m_events m) <-> exists h, x = conv h /\ held h (gi_index gi).
Proof.
  intros Hne Hnew Hsteps. destruct (new_manager_good _ _ _ _ _ Hne Hnew) as [Hg Hev].
  assert (good (log, m) /\ cfg m = cfg m0) as [[[Hm _] _] Hcfg].
  { change (good (log, m) /\ cfg (log, m).2 = cfg ([] : list (KVCacheEvent (Key := Key) (Ext := Ext)), m0).2).
    induction Hsteps as [|st1 st2 st3 Hs _ IH]; [done|].
    destruct (IH (op_step_good _ _ Hs Hg)) as [H1 H2]. by rewrite H2, (op_step_cfg _ _ Hs). }
  unfold new_manager in Hnew. destruct (can_use_sub_block_caching groups sbs); [|done].
  cbn [mbind res_bind] in Hnew. destruct (_ && _); [done|]. injection Hnew as <-.
  unfold cfg in Hcfg. cbn in Hcfg. injection Hcfg as _ Hev' Hgs.
  cbn [fst snd] in *. destruct (Hm Hev') as (gi & Hgi & Hok & Hrep).
  exists gi. split; [done|]. split; [done|].
  split; [|done]. rewrite Hgi, <- list_fmap_compose in Hgs. exact Hgs.
Qed.

(** *** Finalisation and deferred indexing do not fail *)

(** The coordinator knows one list of blocks per group. *)
Definition lists_per_group m : Prop := forall id e,
  length (coordinator_get_blocks id e) = length (m_groups m).

Lemma cfg_groups m m' : cfg m' = cfg m -> length (m_groups m') = length (m_groups m).
Proof. intros [= _ _ Hg]. apply (f_equal length) in Hg. by rewrite !length_fmap in Hg. Qed.

Lemma foldM_total {A} (I : A -> Prop) {B} (f : A -> B -> res A) l :
  (forall a x, I a -> x ∈ l -> exists a', f a x = Ok a' /\ I a') ->
  forall a, I a -> exists a', foldM f a l = Ok a' /\ I a'.
Proof.
  induction l as [|x l IH]; intros Hf a Ha; cbn [foldM]; [by exists a|].
  destruct (Hf a x Ha) as (a1 & E1 & Ha1); [apply elem_of_cons; by left|].
  destruct (IH (fun b y Hb Hy => Hf b y Hb (proj2 (elem_of_cons l y x) (or_intror Hy))) a1 Ha1)
    as (a2 & E2 & Ha2).
  exists a2. rewrite E1. cbn. by rewrite E2.
Qed.

Lemma index_and_emit_requests r st g gi blk a b m :
  m_req_sub_hashes (index_and_emit conv r st g gi blk a b m) = m_req_sub_hashes m /\
  m_pending_indexing (index_and_emit conv r st g gi blk a b m) = m_pending_indexing m.
Proof.
  unfold index_and_emit, emit_block_stored. destruct (index_update _ _ _) as [f ix'].
  by repeat case_match.
Qed.

Lemma newly_cached_pending r befores m :
  m_pending_indexing (index_newly_cached_blocks hbt need gen conv r befores m) = m_pending_indexing m.
Proof.
  assert (forall bl i g m, m_pending_indexing (index_cached_blocks hbt need gen conv r g i bl m)
            = m_pending_indexing m) as Hbl.
  { induction bl as [|b bl IH]; intros i g m0; cbn; [done|]. rewrite IH.
    destruct (block_is_cached b (m_env m0)); [|done]. unfold on_block_cached, get_or_compute_sub_hashes.
    destruct (m_groups _ !! g); [|done]. destruct (_ <=? _); [done|].
    by rewrite (proj2 (index_and_emit_requests _ _ _ _ _ _ _ _)). }
  unfold index_newly_cached_blocks. generalize (coordinator_get_blocks (request_id r) (m_env m)).
  generalize (m_groups m), 0%nat. intros groups. revert m befores.
  induction groups as [|gi groups IH]; intros m [|b befores] g [|bl blocks]; cbn; try done.
  rewrite IH. apply Hbl.
Qed.

Definition sized m : Prop :=
  Forall (fun gi => 0 < gi_block_size gi /\ 0 <= gi_sub_blocks_per_block gi) (m_groups m).

Lemma cfg_sized m m' : cfg m' = cfg m -> sized m -> sized m'.
Proof.
  intros [= _ _ Hg] Hs. unfold sized in *.
  assert (Forall (fun z : Z * Z => 0 < z.1 /\ 0 <= z.2)
    ((fun gi => (gi_block_size gi, gi_sub_blocks_per_block gi)) <$> m_groups m')) as HF
    by (rewrite Hg; apply Forall_fmap; exact Hs).
  apply Forall_fmap in HF. exact HF.
Qed.

Lemma partial_group_total r mark st blocks g m : 0 <= num_computed_tokens r -> sized m ->
  (length (m_groups m) <= length blocks)%nat ->
  exists m', index_partial_group conv r mark st blocks g m = Ok m' /\
    m_req_sub_hashes m' = m_req_sub_hashes m /\ m_pending_indexing m' = m_pending_indexing m.
Proof.
  intros Hc Hg Hl. unfold index_partial_group. destruct (m_groups m !! g) as [gi|] eqn:Egi; [|by eauto].
  destruct (Forall_lookup_1 _ _ _ _ Hg Egi) as [Hbs Hsb].
  destruct (_ =? 0); [by eauto|]. destruct (_ =? 0); [by eauto|].
  destruct (lookup_lt_is_Some_2 blocks g) as [bl Hbl];
    [apply lookup_lt_Some in Egi; lia|]. rewrite Hbl. cbn [mbind res_bind of_option].
  destruct (py_nth bl _) as [blk|]; [|by eauto].
  assert (0 <= num_computed_tokens r / gi_block_size gi) by (apply Z.div_pos; lia).
  destruct (_ <=? _) eqn:El; zbool; [by eauto|].
  destruct mark; [|by eexists; split; [reflexivity|apply index_and_emit_requests]].
  set (hs := py_slice _ _ _).
  assert (exists h, last hs = Some h) as [h ->].
  { destruct (last hs) as [h|] eqn:Elast; [by exists h|]. apply last_None in Elast.
    assert (0 < len hs) as Hpos by (unfold hs; rewrite len_py_slice by nia; lia).
    rewrite Elast in Hpos. unfold len in Hpos. cbn in Hpos. lia. }
  cbn [mbind res_bind of_option]. eexists. split; [reflexivity|]. apply index_and_emit_requests.
Qed.

Lemma partial_total r mark m : 0 <= num_computed_tokens r -> lists_per_group m -> sized m ->
  exists m', index_partial_block hbt need gen conv r mark m = Ok m' /\
    is_Some (m_req_sub_hashes m' !! request_id r) /\ m_pending_indexing m' = m_pending_indexing m.
Proof.
  intros Hc Hl Hg. unfold index_partial_block, get_or_compute_sub_hashes. cbn zeta.
  set (st := extend_sub_hashes _ _ _ _ _ _). set (m1 := set_sub_hashes _ m).
  destruct (foldM_total (fun m' => cfg m' = cfg m /\ m_req_sub_hashes m' = m_req_sub_hashes m1 /\
      m_pending_indexing m' = m_pending_indexing m)
    (fun m' g => index_partial_group conv r mark st (coordinator_get_blocks (request_id r) (m_env m1)) g m')
    (seq 0 (length (m_groups m1)))) with (a := m1) as (m' & Hm' & _ & Hh & Hp); [|done|].
  - intros m2 g (H1 & H2 & H3) _.
    destruct (partial_group_total r mark st (coordinator_get_blocks (request_id r) (m_env m1)) g m2)
      as (m3 & E3 & H4 & H5); [done|by apply (cfg_sized m)|by rewrite Hl, (cfg_groups m)|].
    exists m3. split; [done|]. split; [|split; congruence].
    apply cfg_partial_group in E3. congruence.
  - exists m'. split; [done|]. split; [|done]. rewrite Hh. cbn. rewrite lookup_insert_eq. by eexists.
Qed.

Lemma finalize_total r m : 0 <= num_computed_tokens r -> lists_per_group m -> sized m ->
  exists m', finalize_sub_block_state hbt need gen conv r m = Ok m' /\
    m_req_sub_hashes m' !! request_id r = None /\
    m_pending_indexing m' = od_pop (request_id r) (m_pending_indexing m).
Proof.
  intros Hc Hl Hg. unfold finalize_sub_block_state.
  set (m1 := set_pending_indexing _ m).
  set (m2 := match od_get (request_id r) (m_pending_indexing m) with Some _ => _ | None => _ end).
  assert (cfg m2 = cfg m /\ m_pending_indexing m2 = od_pop (request_id r) (m_pending_indexing m))
    as [Hcfg Hp2].
  { unfold m2. destruct (od_get _ _); [|done].
    split; [by rewrite cfg_newly_cached|by rewrite newly_cached_pending]. }
  destruct (partial_total r true m2) as (m3 & -> & [st Hst] & Hp3);
    [done|intros id e; rewrite Hl; symmetry; by apply cfg_groups|by apply (cfg_sized m)|].
  cbn [mbind res_bind]. rewrite Hst. cbn [of_option res_bind].
  eexists. split; [reflexivity|]. cbn. by rewrite lookup_delete_eq, Hp3.
Qed.

(** Finishing and indexing never fail.  When the coordinator knows one list of blocks
    per group, [free] and [pop_blocks_for_free] of a request raise neither [IndexError] nor
    the [KeyError] of deleting its hashes, and leave neither hashes nor a note of it; the
    deferred indexing runs to its end and leaves no note. *)
Theorem free_succeeds r m : 0 <= num_computed_tokens r -> lists_per_group m -> sized m ->
  (exists m', free hbt need gen conv r m = Ok m' /\ m_req_sub_hashes m' !! request_id r = None /\
     forall id, od_get id (m_pending_indexing m') =
       if decide (id = request_id r) then None else od_get id (m_pending_indexing m)) /\
  (exists bl m', pop_blocks_for_free hbt need gen conv r m = Ok (bl, m') /\
     m_req_sub_hashes m' !! request_id r = None /\
     forall id, od_get id (m_pending_indexing m') =
       if decide (id = request_id r) then None else od_get id (m_pending_indexing m)) /\
  (forall objects, (forall id, 0 <= num_computed_tokens (objects id)) ->
     exists m', do_pending_indexing hbt need gen conv objects m = Ok m' /\
       m_pending_indexing m' = [] /\ sized m' /\ lists_per_group m').
Proof.
  intros Hc Hl Hg. destruct (finalize_total r m Hc Hl Hg) as (m1 & Hf & Hh & Hp).
  unfold free, pop_blocks_for_free. rewrite Hf. cbn [mbind res_bind].
  split; [|split].
  - eexists. split; [reflexivity|]. split; [exact Hh|]. intros id. cbn. rewrite Hp. apply od_get_pop.
  - destruct (super_pop_blocks_for_free r (m_env m1)) as [bl e]. eexists _, _. split; [reflexivity|].
    split; [exact Hh|]. intros id. cbn. rewrite Hp. apply od_get_pop.
  - intros objects Hobj. unfold do_pending_indexing.
    destruct (foldM_total (fun m' => cfg m' = cfg m) (fun m note =>
        index_partial_block hbt need gen conv (objects note.1) false
          (index_newly_cached_blocks hbt need gen conv (objects note.1) note.2 m))
      (m_pending_indexing m)) with (a := m) as (m' & -> & Hm'); [|done|].
    + intros m2 note Hm2 _. rewrite <- (cfg_newly_cached (objects note.1) note.2 m2) in Hm2.
      destruct (partial_total (objects note.1) false
        (index_newly_cached_blocks hbt need gen conv (objects note.1) note.2 m2)) as (m3 & E3 & _);
        [done|intros id e; rewrite Hl; symmetry; by apply cfg_groups|by apply (cfg_sized m)|].
      exists m3. split; [exact E3|]. by rewrite (cfg_partial _ _ _ _ E3).
    + cbn [mbind res_bind]. eexists. split; [reflexivity|]. split; [done|].
      split; [by apply (cfg_sized m)|]. intros id e. rewrite Hl. symmetry. by apply cfg_groups.
Qed.
End events.

(** ** A small instance

    Hashes are the hashed inputs themselves, the pool counts references and gives every
    request the blocks 5 (full) and 6. *)
Module SubBlockToy.
Definition hash : Type := list (list Z * option Z).
Definition hbt (p : option hash) (t : list Z) (k : option Z) : hash :=
  (t, k) :: match p with None => [] | Some l => ([], None) :: l end.
Definition need (r : Request) : bool := has_encoder_inputs r.
Definition gen (r : Request) (i j mm : Z) : option Z * Z := (Some i, mm + 1).
Definition pick (s : gset Z) : option Z := head (elements s).

Definition count (b : Z) (e : gmap Z Z) : Z := default 0 (e !! b).
Definition add (n : Z) (l : list Z) (e : gmap Z Z) : gmap Z Z :=
  foldr (fun b e => <[b := count b e + n]> e) e l.

#[export] Instance toy_pool : Pool (gmap Z Z) hash := {|
  pool_touch := add 1;
  pool_free_blocks := add (-1);
  block_is_cached := fun b e => b =? 5;
  pool_mark_partial := fun g b h n e => e;
  coordinator_get_blocks := fun id e => [[5; 6]];
  super_reset_prefix_cache := fun e => (true, e);
  super_free := fun r e => add (-1) [5; 6] e;
  super_pop_blocks_for_free := fun r e => ([6; 5], e)
|}.

Lemma hbt_inj p t k p' t' k' : hbt p t k = hbt p' t' k' -> p = p' /\ t = t' /\ k = k'.
Proof. unfold hbt. destruct p, p'; naive_solver. Qed.

Lemma pick_elem s : s <> ∅ -> exists b, pick s = Some b /\ b ∈ s.
Proof.
  intros Hs. unfold pick. destruct (elements s) as [|b l] eqn:E.
  - by apply elements_empty_inv, leibniz_equiv in E.
  - exists b. split; [done|]. apply elem_of_elements. rewrite E. by left.
Qed.

Lemma count_add n l e b : count b (add n l e) = count b e + n * occurrences b l.
Proof.
  induction l as [|x l IH]; [unfold occurrences, len; cbn; lia|].
  change (add n (x :: l) e) with (<[x := count x (add n l e) + n]> (add n l e)).
  unfold count at 1, occurrences. rewrite filter_cons. unfold occurrences in IH.
  case_decide as Hx; [rewrite Hx, lookup_insert_eq|rewrite lookup_insert_ne by done].
  - cbn [from_option id]. rewrite IH. unfold len. cbn [length]. lia.
  - exact IH.
Qed.

Definition request (id : string) (tokens : list Z) (computed : Z) : Request :=
  mkRequest id RUNNING (len tokens) tokens computed [] 0 16 0 0 0 0 false None true 0 None.
Definition ra : Request := request "a" [1; 2; 3; 4; 5; 6; 7] 0.
Definition rb : Request := request "b" [1; 2; 3; 8; 9; 9; 9; 9] 0.
Definition done_a : Request := request "a" [1; 2; 3; 4; 5; 6; 7] 7.

Definition manager : Type := Manager (gmap Z Z) hash Z hash.
Definition of_res (m : manager) (r : res manager) : manager :=
  match r with Ok m' => m' | Raise _ => m end.
Definition m0 : manager :=
  mkManager 2 [mkGroupInfo 4 2 empty_index] ∅ [] [] true [] ∅.
Definition m1 : manager := schedule_sub_block_indexing ra m0.
Definition m2 : manager :=
  of_res m1 (do_pending_indexing hbt need gen id (fun _ => done_a) m1).
End SubBlockToy.
Module ST := SubBlockToy.
#[export] Existing Instance ST.toy_pool.

Lemma sub_hash_identifies_prefix_witness : exists h,
  sh_hashes (hashed 1 ST.hbt ST.need ST.gen ST.ra) !! 2%nat = Some h /\
  (2%nat = 2%nat /\
   take 3 (sub_blocks 1 ST.hbt ST.need ST.gen ST.ra) = take 3 (sub_blocks 1 ST.hbt ST.need ST.gen ST.rb)).
Proof.
  eexists. split; [vm_compute; reflexivity|].
  eapply (sub_hash_identifies_prefix 1 ST.hbt ST.need ST.gen); [lia|exact ST.hbt_inj| |];
    vm_compute; reflexivity.
Defined.

Lemma sub_block_index_correct_witness :
  let ix := (index_update 5 [1; 2; 3] (empty_index (Hash := Z))).2 in
  longest_match ST.pick [1; 2; 4] ix = (Some 5, 2) /\
  forall b, let '(removed, ix') := index_pop b ix in
    index_ok ix' /\ block_hashes ix' = delete b (block_hashes ix) /\
    (forall h, bucket h ix' = bucket h ix ∖ {[b]}) /\
    (forall h, h ∈ removed <-> held h ix /\ ~ held h ix').
Proof.
  intros ix. split; [vm_compute; reflexivity|].
  assert (index_ok ix) as Hok.
  { pose proof (index_update_spec 5 [1; 2; 3] (empty_index (Hash := Z)) empty_index_ok) as Hs.
    unfold ix. destruct (index_update _ _ _). apply Hs. }
  exact (proj1 (proj2 (sub_block_index_correct ST.pick ST.pick_elem ix Hok))).
Defined.

Lemma sub_hashes_incremental_witness : exists m',
  get_or_compute_sub_hashes ST.hbt ST.need ST.gen ST.rb
    (get_or_compute_sub_hashes ST.hbt ST.need ST.gen (ST.request "b" [1; 2; 3] 0) ST.m0).2
  = (hashed 2 ST.hbt ST.need ST.gen ST.rb, m').
Proof.
  set (m := (get_or_compute_sub_hashes _ _ _ _ ST.m0).2).
  assert (hashes_cached 2 ST.hbt ST.need ST.gen ST.rb m) as Hc.
  { intros st Hst. exists (ST.request "b" [1; 2; 3] 0), [8; 9; 9; 9; 9].
    split; [|done]. apply (inj Some). rewrite <- Hst. vm_compute. reflexivity. }
  destruct (sub_hashes_incremental 2 ST.hbt ST.need ST.gen ltac:(lia) ST.rb m eq_refl Hc)
    as (m' & Hm' & _).
  by exists m'.
Defined.

(** Request "a" has filed its first four tokens under block 5; request "b" shares three. *)
Module SubBlockWarm.
Definition warm : ST.manager :=
  index_and_emit id ST.ra (hashed 2 ST.hbt ST.need ST.gen ST.ra) 0
    (mkGroupInfo 4 2 empty_index) 5 (0 * 2) (0 * 2 + 2) ST.m0.
Definition found : option SubBlockMatch * ST.manager :=
  get_computed_blocks_sub_block ST.pick ST.hbt ST.need ST.gen ST.rb 0 warm.
Definition found_match : SubBlockMatch := mkMatch "b" 2 [mkGroupMatch 5 0].

Lemma found_eq : found = (Some found_match, found.2).
Proof. vm_compute. reflexivity. Qed.

Lemma warm_ok : Forall (group_ok 2 ST.hbt) (m_groups warm).
Proof.
  apply (index_and_emit_ok 2 ST.hbt ST.need ST.gen ltac:(lia) id ST.ra 0
    (mkGroupInfo 4 2 empty_index) 5 0 2 ST.m0).
  - apply Forall_singleton. by apply (empty_group_ok 2 ST.hbt (mkGroupInfo 4 2 empty_index)).
  - done.
  - lia.
  - cbn. lia.
  - vm_compute. done.
  - left. vm_compute. done.
Qed.
End SubBlockWarm.
Import SubBlockWarm.

Lemma groups_stay_ok_witness :
  Forall (group_ok 2 ST.hbt) (m_groups (on_block_evicted id 5 warm)) /\
  Forall (fun gi => index_contains 5 (gi_index gi) = false) (m_groups (on_block_evicted id 5 warm)).
Proof.
  refine (proj1 (proj2 (groups_stay_ok 2 ST.hbt ST.need ST.gen ltac:(lia))) id 5 warm _).
  exact warm_ok.
Defined.

Lemma sub_block_match_sound_witness : exists k, 0 < k /\
  sm_num_tokens found_match = k * 2 /\
  Forall2 (contributes 2 ST.hbt ST.need ST.gen ST.rb 0 k) (m_groups warm) (sm_group_matches found_match).
Proof.
  destruct (sub_block_match_sound ST.pick 2 ST.hbt ST.need ST.gen ltac:(lia) ST.pick_elem ST.hbt_inj
    ST.rb 0 warm found_match found.2 eq_refl) as (k & H1 & H2 & _ & _ & H3 & _).
  - intros st Hst. vm_compute in Hst. done.
  - exact warm_ok.
  - vm_compute. done.
  - exact found_eq.
  - exists k. by split_and!.
Defined.

Lemma sub_block_refs_balanced_witness :
  ST.count 5 (m_env (release_sub_block_match found_match found.2)) = ST.count 5 (m_env warm).
Proof.
  refine (proj1 (proj2 (sub_block_refs_balanced ST.pick ST.hbt ST.need ST.gen ST.count
    ST.rb 0 warm found_match found.2 _ found_eq)) 5).
  split; intros l e b; cbn; rewrite ST.count_add; lia.
Defined.

Lemma events_mirror_index_witness : exists log m gi,
  rtc (op_step ST.pick ST.hbt ST.need ST.gen id) ([], ST.m0) (log, m) /\
  m_groups m = [gi] /\ len log = 2 /\
  forall x, x ∈ replay (log ++ m_events m) <-> exists h, x = id h /\ held h (gi_index gi).
Proof.
  assert (rtc (op_step ST.pick ST.hbt ST.need ST.gen id) ([], ST.m0)
            ((take_events ST.m2).1, (take_events ST.m2).2)) as Hrtc.
  { eapply rtc_l; [apply (op_schedule ST.pick ST.hbt ST.need ST.gen id ST.ra); vm_compute; done|].
    eapply rtc_l; [eapply (op_index _ _ _ _ _ (fun _ => ST.done_a) [] ST.m1 ST.m2)|].
    - intros _. vm_compute. done.
    - vm_compute. reflexivity.
    - eapply rtc_l; [|apply rtc_refl]. exact (op_take _ _ _ _ _ [] ST.m2). }
  destruct (events_mirror_index ST.pick ST.hbt ST.need ST.gen id _ [mkSpec FullAttentionSpec 4] 2 ∅
    ST.m0 _ _ ltac:(done) ltac:(vm_compute; reflexivity) Hrtc) as (gi & H1 & _ & _ & H2).
  exists (take_events ST.m2).1, (take_events ST.m2).2, gi. split; [done|]. split; [done|].
  split; [vm_compute; reflexivity|done].
Defined.

Lemma free_succeeds_witness : exists m',
  free ST.hbt ST.need ST.gen id ST.done_a ST.m1 = Ok m' /\ m_req_sub_hashes m' !! "a" = None.
Proof.
  destruct (free_succeeds ST.hbt ST.need ST.gen id ST.done_a ST.m1) as ((m' & H1 & H2 & _) & _).
  - vm_compute. done.
  - done.
  - by repeat constructor.
  - by exists m'.
Defined.
