(* ===== verification/KvPlacement.v ===== *)
(** * Sizing the KV cache from placements ([src/vllm_rbln/v1/worker/kv_placement.py])

    The caching allocator replayed by [allocator_reserved], the bytes a compiled program's
    KV inputs occupy on each chiplet as a function of the number of blocks, the memory
    snapshots, and [max_num_blocks].  A chiplet is the pair of its node and chiplet ids.

    Strings are sequences of ASCII characters.  [gpu_memory_utilization] is an IEEE double
    ([SpecFloat] with 53 bits of precision).  Error messages and [format_*] are left out;
    the sorted tuples that serve as dictionary keys are compared as multisets. *)

From S2P Require Import Prelude.
From Stdlib Require Import Ascii SpecFloat.

(** ** The caching allocator *)

Abbreviation Unit := (Z * Z)%type.

Definition ALLOC_MIN_BLOCK : Z := 4096.
Definition ALLOC_SMALL_MAX : Z := Z.shiftl 1 20.
Definition ALLOC_SMALL_BLOCK : Z := Z.shiftl 2 20.
Definition ALLOC_MEDIUM_MAX : Z := Z.shiftl 10 20.
Definition ALLOC_MEDIUM_BLOCK : Z := Z.shiftl 20 20.
Definition ALLOC_LARGE_ROUND : Z := Z.shiftl 2 20.

Definition allocation_size (nbytes : Z) : Z :=
  if nbytes <=? 0 then 0
  else if nbytes <=? ALLOC_SMALL_MAX then ALLOC_SMALL_BLOCK
  else if nbytes <=? ALLOC_MEDIUM_MAX then ALLOC_MEDIUM_BLOCK
  else cdiv nbytes ALLOC_LARGE_ROUND * ALLOC_LARGE_ROUND.

(** [bisect.bisect_left] and [bisect.insort] on a sorted list. *)
Fixpoint bisect_left (l : list Z) (x : Z) : nat :=
  match l with
  | [] => 0%nat
  | y :: l => if y <? x then S (bisect_left l x) else 0%nat
  end.

Fixpoint insort (l : list Z) (x : Z) : list Z :=
  match l with
  | [] => [x]
  | y :: l => if x <? y then x :: y :: l else y :: insort l x
  end.

(** The two free lists, of small and of large requests, and the bytes mapped so far. *)
Record AllocState := mkAlloc { free_small : list Z; free_large : list Z; reserved : Z }.

Definition free_pool (small : bool) (s : AllocState) : list Z :=
  if small then free_small s else free_large s.

Definition set_pool (small : bool) (pool : list Z) (s : AllocState) : AllocState :=
  if small then mkAlloc pool (free_large s) (reserved s)
  else mkAlloc (free_small s) pool (reserved s).

(** One iteration of the loop of [allocator_reserved]. *)
Definition serve (s : AllocState) (nbytes : Z) : AllocState :=
  if nbytes <=? 0 then s
  else
    let size := cdiv nbytes ALLOC_MIN_BLOCK * ALLOC_MIN_BLOCK in
    let small := size <=? ALLOC_SMALL_MAX in
    let pool := free_pool small s in
    let at_ := bisect_left pool size in
    let '(block, pool, mapped) :=
      match pool !! at_ with
      | Some block => (block, delete at_ pool, 0)
      | None => (allocation_size size, pool, allocation_size size)
      end in
    let remainder := block - size in
    let splits := if small then ALLOC_MIN_BLOCK <=? remainder else ALLOC_SMALL_MAX <? remainder in
    let pool := if splits then insort pool remainder else pool in
    let s := set_pool small pool s in
    mkAlloc (free_small s) (free_large s) (reserved s + mapped).

Definition allocator_reserved (requests : list Z) : Z :=
  reserved (foldl serve (mkAlloc [] [] 0) requests).

(** ** Placements *)

(** A [PlacementDim]: an [int], a [bool] (which Python counts as an [int]), a non-empty
    tuple headed by a string, or anything else. *)
Inductive PlacementDim :=
  | DimInt (z : Z)
  | DimBool (b : bool)
  | DimTuple (kind : string) (operands : list PlacementDim)
  | DimOther.

Definition prodZ (l : list Z) : Z := foldr Z.mul 1 l.

Fixpoint eval_placement_dim (dim : PlacementDim) (num_blocks : Z) : res Z :=
  match dim with
  | DimBool _ => Raise ValueError
  | DimInt z => Ok z
  | DimTuple kind operands =>
      if bool_decide (kind = "symbol"%string) then Ok num_blocks
      else if bool_decide (kind = "prod"%string) then
        vs ← mapM (fun x => eval_placement_dim x num_blocks) operands; Ok (prodZ vs)
      else if bool_decide (kind = "sum"%string) then
        vs ← mapM (fun x => eval_placement_dim x num_blocks) operands; Ok (sumZ vs)
      else Raise ValueError
  | DimOther => Raise ValueError
  end.

(** *** Element sizes *)

Definition is_digit (c : ascii) : bool :=
  let n := N_of_ascii c in (48 <=? n)%N && (n <=? 57)%N.

(** ASCII white space, as [str.strip] removes it. *)
Definition is_space (c : ascii) : bool :=
  let n := N_of_ascii c in
  ((9 <=? n)%N && (n <=? 13)%N) || ((28 <=? n)%N && (n <=? 32)%N).

Definition lower (c : ascii) : ascii :=
  let n := N_of_ascii c in
  if (65 <=? n)%N && (n <=? 90)%N then ascii_of_N (n + 32) else c.

Fixpoint drop_while {A} (p : A -> bool) (l : list A) : list A :=
  match l with [] => [] | x :: k => if p x then drop_while p k else l end.

Fixpoint take_while {A} (p : A -> bool) (l : list A) : list A :=
  match l with [] => [] | x :: k => if p x then x :: take_while p k else [] end.

Definition strip (s : list ascii) : list ascii :=
  reverse (drop_while is_space (reverse (drop_while is_space s))).

(** [int(s)] for a string of digits. *)
Definition int_of_digits (s : list ascii) : Z :=
  foldl (fun n c => n * 10 + (Z.of_N (N_of_ascii c) - 48)) 0 s.

Definition placement_itemsize (dtype : string) : res Z :=
  let name := lower <$> strip (String.list_ascii_of_string dtype) in
  if bool_decide (name = String.list_ascii_of_string "bool") then Ok 1
  else
    match reverse (take_while is_digit (reverse name)) with
    | [] => Raise ValueError
    | digits =>
        let bits := int_of_digits digits in
        if bits <=? 0 then Raise ValueError else Ok (cdiv bits 8)
    end.

(** *** KV inputs *)

Record Shard := mkShard { node_id : Z; chiplet_id : Z; slice_shape : list PlacementDim }.

Record PhysicalPlacement := mkPlacement {
  pl_shape : list PlacementDim;
  pl_dtype : string;
  pl_shards : list Shard
}.

Record InputSpec := mkInput {
  in_shape : list Z;
  physical_placement : option PhysicalPlacement
}.

Definition shard_unit (s : Shard) : Unit := (node_id s, chiplet_id s).

(** [isinstance(dim, int)] *)
Definition is_int (d : PlacementDim) : bool :=
  match d with DimInt _ | DimBool _ => true | _ => false end.

(** The loop of [dynamic_extent]: the extent at the first dim that is not an integer. *)
Fixpoint first_dynamic (shape : list Z) (index : Z) (dims : list PlacementDim) : res Z :=
  match dims with
  | [] => Raise ValueError
  | d :: dims =>
      if is_int d then first_dynamic shape (index + 1) dims
      else of_option (py_nth shape index) IndexError
  end.

Definition dynamic_extent (shape : list Z) (p : PhysicalPlacement) : res Z :=
  first_dynamic shape 0 (pl_shape p).

(** [requests.setdefault(unit, []).append(n)] *)
Definition append_request {A} (unit : Unit) (n : A) (requests : odict Unit (list A))
    : odict Unit (list A) :=
  od_set unit (default [] (od_get unit requests) ++ [n]) requests.

Definition shard_elems (symbol : Z) (s : Shard) : res Z :=
  vs ← mapM (fun d => eval_placement_dim d symbol) (slice_shape s); Ok (prodZ vs).

Definition add_shards (symbol itemsize : Z) (requests : odict Unit (list Z)) (shards : list Shard)
    : res (odict Unit (list Z)) :=
  foldM (fun requests s =>
           elems ← shard_elems symbol s;
           Ok (append_request (shard_unit s) (elems * itemsize) requests)) requests shards.

Definition add_input (num_blocks hint_blocks : Z) (requests : odict Unit (list Z))
    (spec : InputSpec) : res (odict Unit (list Z)) :=
  placement ← of_option (physical_placement spec) AttributeError;
  extent ← dynamic_extent (in_shape spec) placement;
  if negb (extent mod hint_blocks =? 0) then Raise RuntimeError
  else
    let symbol := extent / hint_blocks * num_blocks in
    itemsize ← placement_itemsize (pl_dtype placement);
    add_shards symbol itemsize requests (pl_shards placement).

Definition kv_requests_per_unit (specs : list InputSpec) (num_blocks hint_blocks : Z)
    : res (odict Unit (list Z)) :=
  if hint_blocks <=? 0 then Raise ValueError
  else foldM (add_input num_blocks hint_blocks) [] specs.

Definition kv_bytes_per_unit (specs : list InputSpec) (num_blocks hint_blocks : Z)
    : res (odict Unit Z) :=
  requests ← kv_requests_per_unit specs num_blocks hint_blocks;
  Ok (od_map sumZ requests).

(** *** Growth *)

Record KvGrowth := mkGrowth {
  per_block : odict Unit Z;
  hint_blocks : Z;
  num_inputs : Z;
  kv_specs : list InputSpec
}.

Definition bytes_at (g : KvGrowth) (num_blocks : Z) : odict Unit Z :=
  od_map (Z.mul num_blocks) (per_block g).

Definition allocated_at (g : KvGrowth) (num_blocks : Z) : res (odict Unit Z) :=
  requests ← kv_requests_per_unit (kv_specs g) num_blocks (hint_blocks g);
  Ok (od_map allocator_reserved requests).

(** [==] of two dictionaries. *)
Definition dict_eqb (d1 d2 : odict Unit Z) : bool :=
  bool_decide ((list_to_map d1 : gmap Unit Z) = list_to_map d2).

Definition nonzero (d : odict Unit Z) : odict Unit Z := filter (fun kv => kv.2 <> 0) d.

Definition slopes (at_zero at_one : odict Unit Z) : odict Unit Z :=
  filter (fun kv => 0 < kv.2)
    ((fun kv => (kv.1, kv.2 - default 0 (od_get kv.1 at_zero))) <$> at_one).

Definition kv_growth (specs : list InputSpec) (hint_blocks : Z) : res KvGrowth :=
  at_zero ← kv_bytes_per_unit specs 0 hint_blocks;
  at_one ← kv_bytes_per_unit specs 1 hint_blocks;
  let per_block := slopes at_zero at_one in
  match per_block with
  | [] => Raise RuntimeError
  | _ =>
      at_hint_all ← kv_bytes_per_unit specs hint_blocks hint_blocks;
      let offsets := nonzero at_zero in
      let at_hint := nonzero at_hint_all in
      let expected := od_map (Z.mul hint_blocks) per_block in
      if negb (bool_decide (offsets = [])) || negb (dict_eqb at_hint expected)
      then Raise RuntimeError
      else Ok (mkGrowth per_block hint_blocks (len specs) specs)
  end.

(** ** Snapshots *)

Record ChipletMemory := mkMemory { total : Z; used : Z }.

Fixpoint strip_prefix (p s : list ascii) : option (list ascii) :=
  match p, s with
  | [], _ => Some s
  | a :: p, b :: s => if bool_decide (a = b) then strip_prefix p s else None
  | _ :: _, [] => None
  end.

(** [\d+] followed by a character that is no digit. *)
Definition parse_number (s : list ascii) : option (Z * list ascii) :=
  match take_while is_digit s with
  | [] => None
  | digits => Some (int_of_digits digits, drop_while is_digit s)
  end.

Definition newline : ascii := ascii_of_N 10.

(** [(.+)$]: [.] is no newline, and [$] also matches before a final newline. *)
Definition parse_field (s : list ascii) : option (list ascii) :=
  let s := match last s with
           | Some c => if bool_decide (c = newline) then take (pred (length s)) s else s
           | None => s
           end in
  if bool_decide (s = []) || bool_decide (newline ∈ s) then None else Some s.

(** A match of [_KEY_RE]: node, chiplet and field of a statistics key. *)
Definition match_key (key : string) : option (Z * Z * list ascii) :=
  s ← strip_prefix (String.list_ascii_of_string "npu.") (String.list_ascii_of_string key);
  '(n, s) ← parse_number s;
  s ← strip_prefix (String.list_ascii_of_string ".chiplet.") s;
  '(c, s) ← parse_number s;
  s ← strip_prefix (String.list_ascii_of_string ".") s;
  field ← parse_field s;
  Some (n, c, field).

Definition per_unit (stats : odict string Z) (field : string) : odict Unit Z :=
  foldl (fun out kv =>
           match match_key kv.1 with
           | Some (n, c, f) =>
               if bool_decide (f = String.list_ascii_of_string field)
               then od_set (n, c) kv.2 out else out
           | None => out
           end) [] stats.

(** The order of tuples that [sorted] uses. *)
Definition unit_le (u v : Unit) : Prop := u.1 < v.1 \/ (u.1 = v.1 /\ u.2 <= v.2).

#[export] Instance unit_le_decision u v : Decision (unit_le u v).
Proof. unfold unit_le. apply _. Defined.

Definition sorted_units (l : list Unit) : list Unit := merge_sort unit_le l.

Definition snapshot_from_driver (stats : odict string Z) : res (odict Unit ChipletMemory) :=
  let total := per_unit stats "total" in
  let used := per_unit stats "used" in
  if bool_decide (total = [])
     || negb (bool_decide ((list_to_set (od_keys total) : gset Unit) = list_to_set (od_keys used)))
  then Raise RuntimeError
  else
    mapM (fun u => t ← of_option (od_get u total) KeyError;
                   b ← of_option (od_get u used) KeyError;
                   Ok (u, mkMemory t b)) (sorted_units (od_keys total)).

Definition snapshot_from_allocator (stats : odict string Z)
    (memory_per_chiplet foreign_card_used_bytes reserve_bytes : Z)
    : res (odict Unit ChipletMemory) :=
  let reserved := per_unit stats "reserved.current" in
  if bool_decide (reserved = []) then Raise RuntimeError
  else if memory_per_chiplet <=? 0 then Raise ValueError
  else
    let foreign_per_unit := Z.max 0 foreign_card_used_bytes / len reserved in
    mapM (fun u => r ← of_option (od_get u reserved) KeyError;
                   Ok (u, mkMemory memory_per_chiplet (r + foreign_per_unit + reserve_bytes)))
      (sorted_units (od_keys reserved)).

(** ** The count *)

Record UnitFit := mkFit {
  fit_total : Z;
  fit_budget : Z;
  fit_used : Z;
  fit_kv_resident : Z;
  fit_reserve : Z;
  fit_base : Z;
  fit_per_block : Z;
  fit_num_blocks : Z
}.

(** IEEE doubles: [float(n)], [x * y], and [int(x)], which truncates and raises on
    infinities and NaN. *)
Definition float_of_int (n : Z) : spec_float := binary_normalize 53 1024 n 0 false.
Definition float_mul (x y : spec_float) : spec_float := SFmul 53 1024 x y.
Definition int_of_float (x : spec_float) : res Z :=
  match x with
  | S754_zero _ => Ok 0
  | S754_finite s m e =>
      let n := if 0 <=? e then Z.pos m * 2 ^ e else Z.pos m / 2 ^ (- e) in
      Ok (if s then - n else n)
  | S754_infinity _ => Raise OverflowError
  | S754_nan => Raise ValueError
  end.

(** [int(total * gpu_memory_utilization)] *)
Definition budget_of (total : Z) (gmu : spec_float) : res Z :=
  int_of_float (float_mul (float_of_int total) gmu).

Definition base_of (mem : ChipletMemory) (resident reserve_bytes : Z) : Z :=
  used mem - resident + reserve_bytes.

(** The first loop: what each unit has room for, and the count if its cost were linear. *)
Definition unit_room (snapshot : odict Unit ChipletMemory) (gmu : spec_float)
    (kv_resident : odict Unit Z) (reserve_bytes : Z) (kv : Unit * Z) : res (Unit * (Z * Z)) :=
  mem ← of_option (od_get kv.1 snapshot) KeyError;
  budget ← budget_of (total mem) gmu;
  let base := base_of mem (default 0 (od_get kv.1 kv_resident)) reserve_bytes in
  let room := budget - base in
  q ← py_floordiv room kv.2;
  Ok (kv.1, (room, Z.max 0 q)).

Definition fits_all (g : KvGrowth) (room : odict Unit Z) (n : Z) : res bool :=
  allocated ← allocated_at g n;
  foldM (fun (ok : bool) kv =>
           if ok then a ← of_option (od_get kv.1 allocated) KeyError; Ok (a <=? kv.2)
           else Ok false) true room.

(** [while num_blocks > 0 and not fits_all(num_blocks): num_blocks -= 1] *)
Fixpoint scan_down (g : KvGrowth) (room : odict Unit Z) (num_blocks : nat) : res Z :=
  match num_blocks with
  | O => Ok 0
  | S n =>
      ok ← fits_all g room (Z.of_nat num_blocks);
      if ok : bool then Ok (Z.of_nat num_blocks) else scan_down g room n
  end.

Definition unit_fit (snapshot : odict Unit ChipletMemory) (g : KvGrowth) (gmu : spec_float)
    (kv_resident : odict Unit Z) (reserve_bytes : Z) (linear : odict Unit Z) (u : Unit)
    : res (Unit * UnitFit) :=
  cost ← of_option (od_get u (per_block g)) KeyError;
  mem ← of_option (od_get u snapshot) KeyError;
  budget ← budget_of (total mem) gmu;
  count ← of_option (od_get u linear) KeyError;
  let resident := default 0 (od_get u kv_resident) in
  Ok (u, mkFit (total mem) budget (used mem) resident reserve_bytes
           (base_of mem resident reserve_bytes) cost count).

Definition max_num_blocks (snapshot : odict Unit ChipletMemory) (g : KvGrowth)
    (gpu_memory_utilization : spec_float) (kv_resident : odict Unit Z) (reserve_bytes : Z)
    : res (Z * odict Unit UnitFit) :=
  if negb (SFltb (S754_zero false) gpu_memory_utilization
           && SFleb gpu_memory_utilization (float_of_int 1))
  then Raise ValueError
  else if negb (forallb (fun u => bool_decide (is_Some (od_get u snapshot)))
                  (od_keys (per_block g)))
  then Raise RuntimeError
  else
    rooms ← mapM (unit_room snapshot gpu_memory_utilization kv_resident reserve_bytes)
              (per_block g);
    let room := od_map fst rooms in
    let linear := od_map snd rooms in
    start ← py_min (od_values linear);
    num_blocks ← scan_down g room (Z.to_nat start);
    fits ← mapM (unit_fit snapshot g gpu_memory_utilization kv_resident reserve_bytes linear)
             (sorted_units (od_keys (per_block g)));
    Ok (num_blocks, fits).

(** ** The KV input sets of the compiled programs *)

#[export] Instance placement_dim_eq_dec : EqDecision PlacementDim.
Proof.
  refine (fix go (x y : PlacementDim) : Decision (x = y) :=
    let _ : EqDecision PlacementDim := go in
    match x, y with
    | DimInt a, DimInt b => cast_if (decide (a = b))
    | DimBool a, DimBool b => cast_if (decide (a = b))
    | DimTuple a l, DimTuple b k => cast_if_and (decide (a = b)) (decide (l = k))
    | DimOther, DimOther => left _
    | _, _ => right _
    end); congruence.
Defined.

#[export] Instance shard_eq_dec : EqDecision Shard.
Proof. solve_decision. Defined.

(** Equality of the sorted tuples made of two lists: the same elements up to order. *)
Section perm_eqb.
Context {A : Type}.
Variable eqb : A -> A -> bool.

Fixpoint remove_one (x : A) (l : list A) : option (list A) :=
  match l with
  | [] => None
  | y :: l => if eqb x y then Some l else (fun k => y :: k) <$> remove_one x l
  end.

Fixpoint perm_eqb (l k : list A) : bool :=
  match l with
  | [] => match k with [] => true | _ => false end
  | x :: l => match remove_one x k with Some k => perm_eqb l k | None => false end
  end.
End perm_eqb.

(** An input spec that has a placement. *)
Definition KvInput : Type := list Z * PhysicalPlacement.

(** [_tensor_fingerprint] and [_input_key], as the equality they are used for. *)
Definition same_fingerprint (a b : KvInput) : bool :=
  bool_decide (a.1 = b.1) && bool_decide (pl_shape a.2 = pl_shape b.2)
  && bool_decide (pl_dtype a.2 = pl_dtype b.2).

Definition same_input (a b : KvInput) : bool :=
  same_fingerprint a b
  && perm_eqb (fun s t => bool_decide (s = t)) (pl_shards a.2) (pl_shards b.2).

Record Program := mkProgram { prog_name : string; input_specs : list InputSpec }.

(** The specs of a program that carry a placement. *)
Definition kv_inputs (p : Program) : list KvInput :=
  omap (fun spec => (fun pl => (in_shape spec, pl)) <$> physical_placement spec) (input_specs p).

(** One iteration of the loop of [select_kv_input_groups]: the groups found so far, each
    standing for its key and its fingerprint. *)
Definition add_program (groups : list (list KvInput * Program)) (program : Program)
    : res (list (list KvInput * Program)) :=
  let specs := kv_inputs program in
  match specs with
  | [] => Ok groups
  | _ =>
      if existsb (fun g => perm_eqb same_input specs g.1) groups then Ok groups
      else if existsb (fun g => perm_eqb same_fingerprint specs g.1) groups then Raise RuntimeError
      else Ok (groups ++ [(specs, program)])
  end.

Definition select_kv_input_groups (programs : list Program)
    : res (list (list KvInput * Program)) :=
  groups ← foldM add_program [] programs;
  match groups with [] => Raise RuntimeError | _ => Ok groups end.
