(* ===== verification/KvPlacementSpec.v ===== *)
(** * Sizing the KV cache: what it guarantees

    The theorems about [KvPlacement]: the bounds of the replayed allocator, the linearity
    that [kv_growth] checks at three points, and that [max_num_blocks] returns the largest
    count that fits. *)

From S2P Require Import Prelude KvPlacement.
From Stdlib Require Import Ascii SpecFloat.

(** ** The allocator *)

Lemma allocation_size_ge n : n <= allocation_size n.
Proof.
  unfold allocation_size, ALLOC_SMALL_MAX, ALLOC_SMALL_BLOCK, ALLOC_MEDIUM_MAX,
    ALLOC_MEDIUM_BLOCK, ALLOC_LARGE_ROUND. rewrite !Z.shiftl_mul_pow2 by lia.
  destruct (n <=? 0) eqn:E1; zbool; [lia|]. destruct (n <=? _) eqn:E2; zbool; [lia|].
  destruct (n <=? _) eqn:E3 in |- *; zbool; [lia|]. pose proof (cdiv_spec n (2 * 2 ^ 20) ltac:(lia)). lia.
Qed.

Lemma allocation_size_seg n : allocation_size n mod ALLOC_LARGE_ROUND = 0.
Proof.
  unfold allocation_size, ALLOC_LARGE_ROUND. repeat case_match; try done. apply Z.mod_mul. done.
Qed.

Lemma bisect_left_ge l x b : l !! bisect_left l x = Some b -> x <= b.
Proof.
  induction l as [|y l IH]; cbn; [done|]. destruct (y <? x) eqn:E; zbool; cbn; [done|].
  intros [= <-]. done.
Qed.

Lemma insort_perm l x : insort l x ≡ₚ x :: l.
Proof.
  induction l as [|y l IH]; cbn; [done|]. destruct (x <? y); [done|]. rewrite IH. apply Permutation_swap.
Qed.

Lemma insort_sum l x : sumZ (insort l x) = x + sumZ l.
Proof. by rewrite (sumZ_perm _ _ (insort_perm l x)). Qed.

Lemma delete_sum (l : list Z) i b : l !! i = Some b -> sumZ l = b + sumZ (delete i l).
Proof. intros Hi. by rewrite (sumZ_perm _ _ (delete_Permutation l i b Hi)). Qed.

(** What a request is rounded to. *)
Definition rounded (n : Z) : Z := cdiv n ALLOC_MIN_BLOCK * ALLOC_MIN_BLOCK.

Lemma rounded_ge n : n <= rounded n.
Proof. unfold rounded, ALLOC_MIN_BLOCK. pose proof (cdiv_spec n 4096 ltac:(lia)). lia. Qed.

(** Bytes the allocator was asked for, and what it would map without any reuse. *)
Definition demand (requests : list Z) : Z := sumZ (Z.max 0 <$> requests).
Definition no_reuse (requests : list Z) : Z :=
  sumZ ((fun n => if n <=? 0 then 0 else allocation_size (rounded n)) <$> requests).

Definition alloc_inv (s : AllocState) (asked atmost : Z) : Prop :=
  Forall (Z.le 0) (free_small s) /\ Forall (Z.le 0) (free_large s) /\
  asked + sumZ (free_small s) + sumZ (free_large s) <= reserved s <= atmost /\
  reserved s mod ALLOC_LARGE_ROUND = 0.

Lemma set_pool_sum small pool s :
  sumZ (free_small (set_pool small pool s)) + sumZ (free_large (set_pool small pool s)) =
  sumZ (free_small s) + sumZ (free_large s) - sumZ (free_pool small s) + sumZ pool.
Proof. destruct small; cbn [free_small free_large set_pool free_pool]; lia. Qed.

Lemma serve_inv s n asked atmost : alloc_inv s asked atmost ->
  alloc_inv (serve s n) (asked + Z.max 0 n)
    (atmost + if n <=? 0 then 0 else allocation_size (rounded n)).
Proof.
  intros (Hs & Hl & Hr & Hm). unfold serve. destruct (n <=? 0) eqn:E0; zbool.
  { unfold alloc_inv. rewrite Z.max_l by lia. split; [done|]. split; [done|]. split; [lia|done]. }
  fold (rounded n). pose proof (rounded_ge n) as Hge. set (size := rounded n) in *.
  set (small := size <=? ALLOC_SMALL_MAX). set (pool := free_pool small s).
  set (found := match pool !! bisect_left pool size with Some block => _ | None => _ end).
  assert (exists block pool' mapped, found = (block, pool', mapped) /\ size <= block /\
    Forall (Z.le 0) pool' /\ block + sumZ pool' = sumZ pool + mapped /\ 0 <= mapped <= allocation_size size /\
    mapped mod ALLOC_LARGE_ROUND = 0) as (block & pool' & mapped & -> & Hb & Hpos & Hsum & Hmap & Hmod).
  { assert (Forall (Z.le 0) pool) as Hpool by (unfold pool; by destruct small). unfold found. pose proof (allocation_size_ge size) as Ha.
    destruct (pool !! bisect_left pool size) as [b|] eqn:Eb; eexists _, _, _; (split; [reflexivity|]).
    - pose proof (bisect_left_ge _ _ _ Eb). rewrite (delete_sum _ _ _ Eb). split; [done|].
      split; [by apply Forall_delete|]. split; [lia|]. split; [lia|done].
    - split; [lia|]. split; [done|]. split; [lia|]. split; [lia|apply allocation_size_seg]. }
  set (splits := if small then _ else _). set (pool'' := if splits then _ else pool').
  assert (sumZ pool'' <= sumZ pool' + (block - size) /\ Forall (Z.le 0) pool'') as [Hp Hpos''].
  { unfold pool''. destruct splits; [rewrite insort_sum, insort_perm|]; (split; [lia|]); [|done].
    constructor; [lia|done]. }
  pose proof (set_pool_sum small pool'' s) as Hset. fold pool in Hset.
  assert (reserved (set_pool small pool'' s) = reserved s) as Hres by (by destruct small).
  unfold alloc_inv. cbn [free_small free_large reserved]. rewrite Hres.
  split; [by destruct small|]. split; [by destruct small|]. split; [lia|].
  by rewrite Z.add_mod, Hm, Hmod by done.
Qed.

Lemma serve_all_inv requests : forall s asked atmost, alloc_inv s asked atmost ->
  alloc_inv (foldl serve s requests) (asked + demand requests) (atmost + no_reuse requests).
Proof.
  induction requests as [|n requests IH]; intros s asked atmost Hs; unfold demand, no_reuse in *; cbn.
  - unfold sumZ. cbn. by rewrite !Z.add_0_r.
  - rewrite !Z.add_assoc. apply IH. by apply serve_inv.
Qed.

Lemma allocator_reserved_ge requests : demand requests <= allocator_reserved requests.
Proof.
  unfold allocator_reserved.
  destruct (serve_all_inv requests (mkAlloc [] [] 0) 0 0) as (Hs & Hl & Hr & Hm); [done|].
  apply sumZ_nonneg in Hs, Hl. lia.
Qed.

(** The allocator's bounds.  It holds at least the bytes it was asked for and at most
    what the requests would map one by one, that is, reusing split remainders never costs
    more, in whole segments of 2 MiB. *)
Theorem allocator_reserved_bounds requests :
  demand requests <= allocator_reserved requests <= no_reuse requests /\
  allocator_reserved requests mod ALLOC_LARGE_ROUND = 0.
Proof.
  unfold allocator_reserved.
  destruct (serve_all_inv requests (mkAlloc [] [] 0) 0 0) as (Hs & Hl & Hr & Hm); [done|].
  split; [|done]. apply sumZ_nonneg in Hs, Hl. lia.
Qed.

(** ** Bytes as polynomials in the number of blocks *)

(** Polynomials with natural coefficients, lowest first. *)
Fixpoint peval (cs : list Z) (n : Z) : Z :=
  match cs with [] => 0 | c :: cs => c + n * peval cs n end.

Definition nonneg (cs : list Z) : Prop := Forall (Z.le 0) cs.

Fixpoint padd (p q : list Z) : list Z :=
  match p, q with
  | [], _ => q
  | _, [] => p
  | a :: p, b :: q => a + b :: padd p q
  end.

Fixpoint pmul (p q : list Z) : list Z :=
  match p with [] => [] | a :: p => padd (Z.mul a <$> q) (0 :: pmul p q) end.

(** [p (c * n)] *)
Fixpoint pscale (c : Z) (p : list Z) : list Z :=
  match p with [] => [] | a :: p => a :: (Z.mul c <$> pscale c p) end.

Lemma peval_add p : forall q n, peval (padd p q) n = peval p n + peval q n.
Proof. induction p as [|a p IH]; intros [|b q] n; cbn [peval padd]; rewrite ?IH; lia. Qed.

Lemma peval_fmap c p n : peval (Z.mul c <$> p) n = c * peval p n.
Proof. induction p as [|a p IH]; cbn [peval fmap list_fmap]; rewrite ?IH; lia. Qed.

Lemma peval_mul p q n : peval (pmul p q) n = peval p n * peval q n.
Proof.
  induction p as [|a p IH]; cbn [peval pmul]; [done|].
  rewrite peval_add, peval_fmap. cbn [peval]. rewrite IH. lia.
Qed.

Lemma peval_scale c p n : peval (pscale c p) n = peval p (c * n).
Proof. induction p as [|a p IH]; cbn [peval pscale]; [done|]. rewrite peval_fmap, IH. lia. Qed.

Lemma nonneg_add p : forall q, nonneg p -> nonneg q -> nonneg (padd p q).
Proof.
  induction p as [|a p IH]; intros [|b q] Hp Hq; cbn; try done.
  apply Forall_cons in Hp as [Ha Hp], Hq as [Hb Hq]. constructor; [lia|by apply IH].
Qed.

Lemma nonneg_fmap c p : 0 <= c -> nonneg p -> nonneg (Z.mul c <$> p).
Proof. intros Hc Hp. apply Forall_fmap. eapply Forall_impl; [exact Hp|]. intros x Hx. cbn in *. lia. Qed.

Lemma nonneg_mul p q : nonneg p -> nonneg q -> nonneg (pmul p q).
Proof.
  intros Hp Hq. induction Hp as [|a p Ha Hp IH]; cbn; [constructor|].
  apply nonneg_add; [by apply nonneg_fmap|]. by constructor.
Qed.

Lemma nonneg_scale c p : 0 <= c -> nonneg p -> nonneg (pscale c p).
Proof. intros Hc. induction 1; cbn; constructor; [done|by apply nonneg_fmap]. Qed.

Lemma peval_nonneg p n : nonneg p -> 0 <= n -> 0 <= peval p n.
Proof. intros Hp Hn. induction Hp; cbn [peval]; [lia|nia]. Qed.

Lemma peval_mono p m n : nonneg p -> 0 <= m <= n -> peval p m <= peval p n.
Proof.
  intros Hp Hn. induction Hp as [|a p Ha Hp IH]; cbn [peval]; [lia|].
  pose proof (peval_nonneg p m Hp ltac:(lia)). nia.
Qed.

(** Without a constant term the value grows at least linearly. *)
Lemma peval_superlinear p k : nonneg p -> peval p 0 = 0 -> 1 <= k -> k * peval p 1 <= peval p k.
Proof.
  intros Hp H0 Hk. destruct Hp as [|a p Ha Hp]; cbn [peval] in *; [lia|].
  pose proof (peval_mono p 1 k Hp ltac:(lia)). nia.
Qed.

Lemma peval_const p : nonneg p -> peval p 1 = 0 -> forall n, peval p n = 0.
Proof.
  intros Hp. induction Hp as [|a p Ha Hp IH]; cbn [peval]; [done|].
  intros Hv n. pose proof (peval_nonneg p 1 Hp ltac:(lia)). rewrite IH by lia. lia.
Qed.

(** Linear at 0, 1 and one further point means linear. *)
Lemma peval_linear p h : nonneg p -> peval p 0 = 0 -> 2 <= h -> peval p h = h * peval p 1 ->
  forall n, peval p n = n * peval p 1.
Proof.
  intros Hp H0 Hh Heq n. destruct Hp as [|a p Ha Hp]; cbn [peval] in *; [lia|].
  destruct Hp as [|b p Hb Hp]; cbn [peval] in *; [lia|].
  pose proof (peval_mono p 1 h Hp ltac:(lia)). pose proof (peval_nonneg p 1 Hp ltac:(lia)).
  assert (peval p 1 = 0) as Hz by nia. rewrite !(peval_const p Hp Hz). lia.
Qed.

Definition psum (ps : list (list Z)) : list Z := foldr padd [] ps.

Lemma peval_sum ps n : peval (psum ps) n = sumZ ((fun p => peval p n) <$> ps).
Proof. induction ps as [|p ps IH]; cbn [psum foldr]; [done|]. rewrite peval_add. cbn [fmap list_fmap]. by rewrite sumZ_cons, <- IH. Qed.

Lemma nonneg_sum ps : Forall nonneg ps -> nonneg (psum ps).
Proof. induction 1; cbn; [constructor|by apply nonneg_add]. Qed.

(** ** Dims are polynomials *)

Fixpoint nonneg_dim (d : PlacementDim) : bool :=
  match d with
  | DimInt z => 0 <=? z
  | DimTuple _ ops => forallb nonneg_dim ops
  | _ => true
  end.

Lemma placement_dim_ind' (P : PlacementDim -> Prop) :
  (forall z, P (DimInt z)) -> (forall b, P (DimBool b)) ->
  (forall k ops, Forall P ops -> P (DimTuple k ops)) -> P DimOther -> forall d, P d.
Proof.
  intros Hi Hb Ht Ho. fix go 1. intros [z|b|k ops|]; [apply Hi|apply Hb|apply Ht|apply Ho].
  revert ops. fix gos 1. intros [|d ops]; constructor; [apply go|apply gos].
Qed.

(** A call that returns for one count returns for all, the value of a polynomial. *)
Definition poly (f : Z -> res Z) : Prop :=
  (exists n v, f n = Ok v) -> exists p, nonneg p /\ forall n, f n = Ok (peval p n).

Lemma mapM_poly {A} (f : A -> Z -> res Z) l : Forall (fun x => poly (f x)) l ->
  (exists n vs, mapM (fun x => f x n) l = Ok vs) ->
  exists ps, Forall nonneg ps /\ forall n, mapM (fun x => f x n) l = Ok ((fun p => peval p n) <$> ps).
Proof.
  induction 1 as [|x l Hx Hl IH]; intros (n & vs & Hv); cbn [mapM] in Hv.
  - exists []. split; [constructor|done].
  - destruct (f x n) as [v|] eqn:Ef; [|done]. cbn in Hv.
    destruct (mapM _ l) as [k|] eqn:Em; [|done]. destruct (Hx (ex_intro _ n (ex_intro _ v Ef))) as (p & Hp & Hfp).
    destruct IH as (ps & Hps & Hall); [eauto|]. exists (p :: ps). split; [by constructor|].
    intros n'. cbn [mapM]. rewrite Hfp, Hall. done.
Qed.

Lemma prod_poly ps : Forall nonneg ps -> exists p, nonneg p /\
  forall n, prodZ ((fun p => peval p n) <$> ps) = peval p n.
Proof.
  induction 1 as [|q ps Hq Hps IH]; [exists [1]; split; [by repeat constructor|intros n; cbn; lia]|].
  destruct IH as (p & Hp & Hall). exists (pmul q p). split; [by apply nonneg_mul|].
  intros n. rewrite peval_mul, <- Hall. done.
Qed.

Lemma eval_poly d : nonneg_dim d = true -> poly (eval_placement_dim d).
Proof.
  induction d as [z|b|k ops IH|] using placement_dim_ind'; cbn [nonneg_dim]; intros Hd (n & v & Hv);
    cbn [eval_placement_dim] in Hv; try done.
  - zbool. exists [z]. split; [by repeat constructor|]. intros m. cbn. f_equal. lia.
  - assert (Forall (fun x => poly (eval_placement_dim x)) ops) as Hops.
    { rewrite Forall_forall in *. intros x Hx. apply IH; [done|]. rewrite forallb_forall in Hd.
      by apply Hd, list_elem_of_In. }
    repeat case_bool_decide; try done.
    + exists [0; 1]. split; [by repeat constructor|]. intros m. cbn [eval_placement_dim].
      rewrite bool_decide_true by done. cbn [peval]. f_equal. lia.
    + res_inv. destruct (mapM_poly _ ops Hops) as (ps & Hps & Hall); [eauto|].
      destruct (prod_poly ps Hps) as (p & Hp & Heq). exists p. split; [done|]. intros m.
      cbn [eval_placement_dim]. rewrite bool_decide_false, bool_decide_true by done.
      rewrite Hall. cbn. by rewrite Heq.
    + res_inv. destruct (mapM_poly _ ops Hops) as (ps & Hps & Hall); [eauto|].
      exists (psum ps). split; [by apply nonneg_sum|]. intros m.
      cbn [eval_placement_dim]. rewrite !bool_decide_false, bool_decide_true by done.
      rewrite Hall. cbn. by rewrite peval_sum.
Qed.

(** ** Requests, symbolically in the number of blocks *)

Definition at_count (d : odict Unit (list (list Z))) (n : Z) : odict Unit (list Z) :=
  od_map (fmap (fun p => peval p n)) d.

Definition sym_ok (d : odict Unit (list (list Z))) : Prop :=
  NoDup (od_keys d) /\ Forall (fun kv => Forall nonneg kv.2) d.

Lemma append_at u p d n :
  append_request u (peval p n) (at_count d n) = at_count (append_request u p d) n.
Proof.
  unfold append_request, at_count. rewrite <- od_set_map, od_get_map. f_equal.
  destruct (od_get u d) as [l|]; cbn; [by rewrite fmap_app|done].
Qed.

Lemma append_request_ok u p d : sym_ok d -> nonneg p -> sym_ok (append_request u p d).
Proof.
  intros [Hn Hf] Hp. split; [by apply NoDup_od_set|]. apply Forall_od_set; [done|].
  apply Forall_app. split; [|by constructor]. destruct (od_get u d) as [l|] eqn:E; cbn; [|done].
  by apply (od_get_Forall _ _ _ _ Hf E).
Qed.

Definition shard_ok (s : Shard) : Prop := forallb nonneg_dim (slice_shape s) = true.

(** Sizes are natural numbers, as sizes are. *)
Definition spec_ok (spec : InputSpec) : Prop :=
  forall pl, physical_placement spec = Some pl ->
    Forall (Z.le 0) (in_shape spec) /\ Forall shard_ok (pl_shards pl).

Lemma shard_elems_poly s : shard_ok s -> poly (fun n => shard_elems n s).
Proof.
  intros Hs (n & v & Hv). unfold shard_elems in *. res_inv.
  destruct (mapM_poly (fun d n => eval_placement_dim d n) (slice_shape s)) as (ps & Hps & Hall); [|eauto|].
  - rewrite Forall_forall. intros x Hx. apply eval_poly. unfold shard_ok in Hs.
    rewrite forallb_forall in Hs. by apply Hs, list_elem_of_In.
  - destruct (prod_poly ps Hps) as (p & Hp & Heq). exists p. split; [done|].
    intros m. rewrite Hall. cbn. by rewrite Heq.
Qed.

Lemma add_shards_sym c isz shards : 0 <= c -> 0 <= isz -> Forall shard_ok shards ->
  forall d n0 r0, sym_ok d -> add_shards (c * n0) isz (at_count d n0) shards = Ok r0 ->
  exists d', sym_ok d' /\ forall n, add_shards (c * n) isz (at_count d n) shards = Ok (at_count d' n).
Proof.
  intros Hc Hi Hs. unfold add_shards. induction Hs as [|s shards Hs Hss IH]; intros d n0 r0 Hd Hr;
    cbn [foldM] in *; [by exists d|].
  destruct (shard_elems (c * n0) s) as [v|] eqn:Ev; [|done]. cbn [mbind res_bind] in Hr.
  destruct (shard_elems_poly s Hs) as (p & Hp & Hall); [eauto|].
  rewrite Hall in Ev. injection Ev as <-.
  set (q := Z.mul isz <$> pscale c p).
  assert (forall n, peval p (c * n) * isz = peval q n) as Hq
    by (intros n; unfold q; rewrite peval_fmap, peval_scale; lia).
  rewrite Hq, append_at in Hr. apply IH in Hr as (d' & Hd' & Hall').
  - exists d'. split; [done|]. intros n. rewrite Hall. cbn [mbind res_bind].
    by rewrite Hq, append_at.
  - apply append_request_ok; [done|]. by apply nonneg_fmap, nonneg_scale.
Qed.

Lemma dynamic_extent_nonneg shape p e : Forall (Z.le 0) shape -> dynamic_extent shape p = Ok e -> 0 <= e.
Proof.
  intros Hs. unfold dynamic_extent. generalize 0 at 1 as i. induction (pl_shape p) as [|d l IH];
    intros i He; cbn in He; [done|]. destruct (is_int d); [by apply (IH (i + 1))|].
  destruct (py_nth shape i) as [x|] eqn:Ex; [|done]. injection He as ->.
  unfold py_nth in Ex. repeat case_match; try done; exact (Forall_lookup_1 _ _ _ _ Hs Ex).
Qed.

Lemma itemsize_pos t n : placement_itemsize t = Ok n -> 0 < n.
Proof.
  unfold placement_itemsize. case_bool_decide; [by intros [= <-]|].
  destruct (reverse _) as [|c l]; [done|]. destruct (_ <=? 0) eqn:E; [done|]. zbool. intros [= <-].
  match goal with |- 0 < cdiv ?b 8 => pose proof (cdiv_spec b 8 ltac:(lia)) end. lia.
Qed.

Lemma add_input_sym spec h d n0 r0 : 0 < h -> spec_ok spec -> sym_ok d ->
  add_input n0 h (at_count d n0) spec = Ok r0 ->
  exists d', sym_ok d' /\ forall n, add_input n h (at_count d n) spec = Ok (at_count d' n).
Proof.
  intros Hh Hspec Hd Hr. unfold add_input in *.
  destruct (physical_placement spec) as [pl|] eqn:Ep; [|done]. cbn [of_option mbind res_bind] in *.
  destruct (dynamic_extent (in_shape spec) pl) as [e|] eqn:Ee; [|done]. cbn [mbind res_bind] in *.
  destruct (negb _); [done|].
  destruct (placement_itemsize (pl_dtype pl)) as [isz|] eqn:Ei; [|done]. cbn [mbind res_bind] in *.
  destruct (Hspec pl Ep) as [Hshape Hsh].
  pose proof (dynamic_extent_nonneg _ _ _ Hshape Ee). pose proof (itemsize_pos _ _ Ei).
  assert (0 <= e / h) by (apply Z.div_pos; lia).
  by apply (add_shards_sym (e / h) isz (pl_shards pl) ltac:(done) ltac:(lia) Hsh d n0 r0 Hd).
Qed.

Lemma requests_sym specs h : Forall spec_ok specs ->
  (exists n r, kv_requests_per_unit specs n h = Ok r) ->
  0 < h /\ exists d, sym_ok d /\ forall n, kv_requests_per_unit specs n h = Ok (at_count d n).
Proof.
  intros Hs (n0 & r0 & Hr). unfold kv_requests_per_unit in *. destruct (h <=? 0) eqn:Eh; [done|]. zbool.
  split; [done|].
  assert (forall d, sym_ok d -> foldM (add_input n0 h) (at_count d n0) specs = Ok r0 ->
    exists d', sym_ok d' /\ forall n, foldM (add_input n h) (at_count d n) specs = Ok (at_count d' n)) as Hgen.
  { clear Hr. induction Hs as [|spec specs Hspec Hs IH]; intros d Hd Hr; cbn [foldM] in *; [by exists d|].
    destruct (add_input n0 h (at_count d n0) spec) as [r1|] eqn:Ea; [|done]. cbn [mbind res_bind] in Hr.
    destruct (add_input_sym _ _ _ _ _ Eh Hspec Hd Ea) as (d1 & Hd1 & Hall1).
    rewrite Hall1 in Ea. injection Ea as <-. destruct (IH d1 Hd1 Hr) as (d2 & Hd2 & Hall2).
    exists d2. split; [done|]. intros n. rewrite Hall1. cbn [mbind res_bind]. apply Hall2. }
  apply (Hgen []); [|done]. split; constructor.
Qed.

(** Everything there is to know about inputs whose growth was accepted: one polynomial per
    unit, without a constant term, and the slopes that are positive. *)
Record growth_poly (specs : list InputSpec) (h : Z) (g : KvGrowth) (d : odict Unit (list (list Z)))
    : Prop := {
  gp_ok : sym_ok d;
  gp_requests : forall n, kv_requests_per_unit specs n h = Ok (at_count d n);
  gp_fields : g = mkGrowth (per_block g) h (len specs) specs;
  gp_zero : forall u ps, od_get u d = Some ps -> peval (psum ps) 0 = 0;
  gp_slopes : forall u, od_get u (per_block g) =
    ps ← od_get u d; if decide (0 < peval (psum ps) 1) then Some (peval (psum ps) 1) else None;
  gp_keys : NoDup (od_keys (per_block g));
  gp_hint : forall u ps, od_get u d = Some ps ->
    peval (psum ps) h = h * peval (psum ps) 1;
  gp_nonempty : per_block g <> []
}.

Lemma od_get_filter {K V} `{EqDecision K} (P : K * V -> Prop) `{!forall x, Decision (P x)} k (d : odict K V) :
  NoDup (od_keys d) ->
  od_get k (filter P d) = v ← od_get k d; if decide (P (k, v)) then Some v else None.
Proof.
  unfold od_keys. induction d as [|[k' v] d IH]; intros Hn; [done|]. cbn in Hn.
  apply NoDup_cons in Hn as [Hk Hn]. rewrite filter_cons. cbn [od_get]. case_decide as Hp; cbn [od_get].
  - destruct (decide (k = k')) as [->|Hne]; [|by apply IH]. cbn. by rewrite decide_True.
  - destruct (decide (k = k')) as [->|Hne]; [|by apply IH]. cbn. rewrite decide_False by done.
    apply not_elem_of_od_keys. unfold od_keys. intros Hin. apply Hk.
    apply list_elem_of_fmap in Hin as (x & -> & Hx). apply list_elem_of_filter in Hx as [_ Hx].
    by apply (list_elem_of_fmap_2 fst).
Qed.

Lemma NoDup_keys_filter {K V} (P : K * V -> Prop) `{!forall x, Decision (P x)} (d : odict K V) :
  NoDup (od_keys d) -> NoDup (od_keys (filter P d)).
Proof.
  unfold od_keys. induction d as [|x d IH]; [done|].
  rewrite fmap_cons, filter_cons. intros [Hx Hn]%NoDup_cons. case_decide; [|by apply IH].
  rewrite fmap_cons. apply NoDup_cons. split; [|by apply IH].
  intros Hin. apply Hx. apply list_elem_of_fmap in Hin as (y & Hy & Hin).
  apply list_elem_of_filter in Hin as [_ Hin]. rewrite Hy. by apply (list_elem_of_fmap_2 fst).
Qed.

Lemma od_get_mapi {K V W} `{EqDecision K} (f : K -> V -> W) k (d : odict K V) :
  od_get k ((fun kv => (kv.1, f kv.1 kv.2)) <$> d) = f k <$> od_get k d.
Proof. induction d as [|[k' v] d IH]; cbn; [done|]. case_decide; [by subst|done]. Qed.

Lemma lookup_od_to_map {K V} `{Countable K} k (d : odict K V) :
  (list_to_map d : gmap K V) !! k = od_get k d.
Proof.
  induction d as [|[k' v] d IH]; cbn; [by rewrite lookup_empty|].
  case_decide; [subst; apply lookup_insert_eq|]. by rewrite lookup_insert_ne.
Qed.

Lemma bytes_at_count specs h d n : (forall n, kv_requests_per_unit specs n h = Ok (at_count d n)) ->
  exists bytes, kv_bytes_per_unit specs n h = Ok bytes /\ od_keys bytes = od_keys d /\
    forall u, od_get u bytes = (fun ps => peval (psum ps) n) <$> od_get u d.
Proof.
  intros Hall. unfold kv_bytes_per_unit. rewrite Hall. cbn [mbind res_bind]. eexists. split; [reflexivity|].
  unfold at_count. split; [by rewrite !od_keys_map|]. intros u. rewrite !od_get_map, <- option_fmap_compose.
  apply option_fmap_ext. intros ps. cbn. by rewrite peval_sum.
Qed.

Lemma sym_sum_ok d u ps : sym_ok d -> od_get u d = Some ps -> nonneg (psum ps).
Proof. intros [_ Hf] Hu. apply nonneg_sum. by apply (od_get_Forall _ _ _ _ Hf Hu). Qed.

Lemma kv_growth_poly specs h g : Forall spec_ok specs -> kv_growth specs h = Ok g ->
  0 < h /\ exists d, growth_poly specs h g d.
Proof.
  intros Hs Hg. unfold kv_growth in Hg.
  destruct (kv_bytes_per_unit specs 0 h) as [z|] eqn:Ez; [|done]. cbn [mbind res_bind] in Hg.
  destruct (requests_sym specs h Hs) as (Hh & d & Hd & Hall).
  { unfold kv_bytes_per_unit in Ez. destruct (kv_requests_per_unit specs 0 h) eqn:E; [eauto|done]. }
  split; [done|]. exists d.
  destruct (bytes_at_count specs h d 0 Hall) as (z' & Ez' & Kz & Hz). rewrite Ez in Ez'. injection Ez' as <-.
  destruct (bytes_at_count specs h d 1 Hall) as (o & Eo & Ko & Ho). rewrite Eo in Hg. cbn [mbind res_bind] in Hg.
  destruct (bytes_at_count specs h d h Hall) as (b & Eb & Kb & Hb). rewrite Eb in Hg. cbn [mbind res_bind] in Hg.
  destruct (slopes z o) as [|sl sls] eqn:Esl; [done|]. rewrite <- Esl in Hg. cbn zeta in Hg.
  destruct (negb _ || _) eqn:Ec in Hg; [done|]. injection Hg as <-. cbn [per_block].
  apply orb_false_iff in Ec as [Ec1 Ec2]. apply negb_false_iff in Ec1, Ec2.
  apply bool_decide_eq_true in Ec1. unfold dict_eqb in Ec2. apply bool_decide_eq_true in Ec2.
  assert (forall u ps, od_get u d = Some ps -> peval (psum ps) 0 = 0) as Hzero.
  { intros u ps Hu. assert (od_get u (nonzero z) = None) as Hn by (by rewrite Ec1).
    unfold nonzero in Hn. rewrite od_get_filter, Hz, Hu in Hn by (rewrite Kz; apply Hd). cbn in Hn.
    case_decide as Hnz; [done|]. cbn in Hnz. lia. }
  assert (forall u, od_get u (slopes z o) =
    ps ← od_get u d; if decide (0 < peval (psum ps) 1) then Some (peval (psum ps) 1) else None) as Hsl.
  { intros u. unfold slopes. rewrite od_get_filter.
    - rewrite (od_get_mapi (fun k v => v - default 0 (od_get k z))), Ho, Hz.
      destruct (od_get u d) as [ps|] eqn:Eu; [|done]. cbn. rewrite (Hzero u ps Eu), Z.sub_0_r. done.
    - unfold od_keys. rewrite <- list_fmap_compose. change (NoDup (od_keys o)). rewrite Ko. apply Hd. }
  split; cbn [per_block]; try done.
  - unfold slopes. apply NoDup_keys_filter. unfold od_keys. rewrite <- list_fmap_compose.
    change (NoDup (od_keys o)). rewrite Ko. apply Hd.
  - intros u ps Hu. pose proof (sym_sum_ok d u ps Hd Hu) as Hp.
    apply (f_equal (fun m => m !! u)) in Ec2. rewrite !lookup_od_to_map in Ec2.
    unfold nonzero in Ec2. rewrite od_get_filter, Hb, Hu, od_get_map, Hsl, Hu in Ec2 by (rewrite Kb; apply Hd).
    cbn in Ec2. pose proof (peval_nonneg _ 1 Hp ltac:(lia)).
    destruct (decide (0 < peval (psum ps) 1)) as [Hpos|Hn] in Ec2; cbn in Ec2.
    + case_decide; [|done]. by injection Ec2.
    + assert (peval (psum ps) 1 = 0) as H1 by lia. rewrite !(peval_const _ Hp H1). lia.
  - by rewrite Esl.
Qed.

Lemma demand_ge_sum l : sumZ l <= demand l.
Proof.
  unfold demand. induction l as [|x l IH]; [done|]. rewrite fmap_cons, !sumZ_cons.
  apply Z.add_le_mono; [lia|exact IH].
Qed.

Lemma allocated_at_count specs h g d n u : growth_poly specs h g d ->
  exists alloc, allocated_at g n = Ok alloc /\
    (od_get u alloc = None <-> od_get u d = None) /\
    forall ps, od_get u d = Some ps -> exists a, od_get u alloc = Some a /\ peval (psum ps) n <= a.
Proof.
  intros Hg. unfold allocated_at. rewrite (gp_fields _ _ _ _ Hg). cbn [kv_specs hint_blocks].
  rewrite (gp_requests _ _ _ _ Hg). cbn [mbind res_bind]. eexists. split; [reflexivity|].
  unfold at_count. rewrite !od_get_map. split; [by destruct (od_get u d)|]. intros ps Hu. rewrite Hu. cbn.
  eexists. split; [reflexivity|]. rewrite peval_sum.
  pose proof (allocator_reserved_ge ((fun p => peval p n) <$> ps)).
  pose proof (demand_ge_sum ((fun p => peval p n) <$> ps)). lia.
Qed.

(** KV bytes are linear in the count.  When [kv_growth] accepts inputs compiled with a
    hint of at least two blocks, checking 0, 1 and the hint is enough: on every chiplet and
    for every count the inputs occupy exactly [bytes_at], and the caching allocator holds at
    least that. *)
Theorem kv_growth_linear specs h g n : Forall spec_ok specs -> 2 <= h -> kv_growth specs h = Ok g ->
  exists bytes alloc, kv_bytes_per_unit specs n h = Ok bytes /\ allocated_at g n = Ok alloc /\
    forall u, default 0 (od_get u bytes) = default 0 (od_get u (bytes_at g n)) /\
      default 0 (od_get u bytes) <= default 0 (od_get u alloc).
Proof.
  intros Hs Hh Hg. destruct (kv_growth_poly specs h g Hs Hg) as (_ & d & Hp).
  destruct (bytes_at_count specs h d n (gp_requests _ _ _ _ Hp)) as (bytes & Hb & _ & Hget).
  destruct (allocated_at_count specs h g d n (0, 0) Hp) as (alloc & Ha & _).
  exists bytes, alloc. split; [done|]. split; [done|]. intros u.
  destruct (allocated_at_count specs h g d n u Hp) as (alloc' & Ha' & Hnone & Hsome).
  rewrite Ha in Ha'. injection Ha' as <-. unfold bytes_at. rewrite Hget, od_get_map, (gp_slopes _ _ _ _ Hp).
  destruct (od_get u d) as [ps|] eqn:Eu; cbn; [|by rewrite (proj2 Hnone eq_refl)].
  destruct (Hsome ps eq_refl) as (a & -> & Hle). split; [|done].
  pose proof (sym_sum_ok d u ps (gp_ok _ _ _ _ Hp) Eu) as Hnn.
  rewrite (peval_linear _ h Hnn (gp_zero _ _ _ _ Hp u ps Eu) Hh (gp_hint _ _ _ _ Hp u ps Eu)).
  pose proof (peval_nonneg _ 1 Hnn ltac:(lia)) as H1. revert H1. generalize (peval (psum ps) 1).
  intros s H1. case_decide; cbn; [done|]. replace s with 0 by lia. lia.
Qed.

(** ** The largest count *)

Lemma scan_down_spec g room m : (forall k, exists ok, fits_all g room k = Ok ok) ->
  exists n, scan_down g room m = Ok n /\ 0 <= n <= Z.of_nat m /\
    (0 < n -> fits_all g room n = Ok true) /\
    forall k, n < k <= Z.of_nat m -> fits_all g room k = Ok false.
Proof.
  intros Htot. induction m as [|m (n & Hn & Hr & Hfit & Hnot)]; [exists 0; split; [done|]; split; [lia|]; split; lia|].
  cbn [scan_down]. destruct (Htot (Z.of_nat (S m))) as [[|] Hok]; rewrite Hok; cbn [mbind res_bind].
  - exists (Z.of_nat (S m)). split; [done|]. split; [lia|]. split; [done|]. lia.
  - exists n. split; [done|]. split; [lia|]. split; [done|]. intros k Hk.
    destruct (decide (k = Z.of_nat (S m))) as [->|]; [done|]. apply Hnot. lia.
Qed.

Section sizing.
Variables (snapshot : odict Unit ChipletMemory) (gmu : spec_float) (kv_resident : odict Unit Z).
Variable reserve_bytes : Z.

(** [k] blocks fit: on every unit that grows, the base and what the allocator would hold
    stay within the budget. *)
Definition fits_at (g : KvGrowth) (k : Z) : Prop :=
  exists alloc, allocated_at g k = Ok alloc /\
  forall u c, od_get u (per_block g) = Some c -> exists mem budget a,
    od_get u snapshot = Some mem /\ budget_of (total mem) gmu = Ok budget /\ od_get u alloc = Some a /\
    base_of mem (default 0 (od_get u kv_resident)) reserve_bytes + a <= budget.

(** What the first loop records of a unit. *)
Definition room_ok (kv : Unit * Z) (y : Unit * (Z * Z)) : Prop :=
  y.1 = kv.1 /\ exists mem budget, od_get kv.1 snapshot = Some mem /\
    budget_of (total mem) gmu = Ok budget /\
    y.2.1 = budget - base_of mem (default 0 (od_get kv.1 kv_resident)) reserve_bytes /\
    y.2.2 = Z.max 0 (y.2.1 / kv.2).

Lemma fits_all_spec g (alloc room : odict Unit Z) k : allocated_at g k = Ok alloc ->
  (forall u, u ∈ od_keys room -> is_Some (od_get u alloc)) ->
  exists ok, fits_all g room k = Ok ok /\
    (ok = true <-> forall u r, (u, r) ∈ room -> exists a, od_get u alloc = Some a /\ a <= r).
Proof.
  intros Ha Hkeys. unfold fits_all. rewrite Ha. cbn [mbind res_bind].
  assert (forall b : bool, exists ok, foldM (fun (ok : bool) kv =>
      if ok then a ← of_option (od_get kv.1 alloc) KeyError; Ok (a <=? kv.2) else Ok false) b room = Ok ok /\
    (ok = true <-> b = true /\ forall u r, (u, r) ∈ room -> exists a, od_get u alloc = Some a /\ a <= r))
    as Hgen.
  { induction room as [|[u r] room IH]; intros b; cbn [foldM].
    - exists b. split; [done|]. split; [|tauto]. intros ->. split; [done|]. intros u r Hu.
      by apply not_elem_of_nil in Hu.
    - destruct (Hkeys u) as [a Hu]; [by left|].
      assert (forall u, u ∈ od_keys room -> is_Some (od_get u alloc)) as Hk' by (intros v Hv; apply Hkeys; by right).
      destruct b; cbn [fst snd].
      + rewrite Hu. cbn [of_option mbind res_bind]. destruct (IH Hk' (a <=? r)) as (ok & Hok & Hiff).
        exists ok. split; [done|]. rewrite Hiff. split.
        * intros [Hle Hall]. zbool. split; [done|]. intros v s [[= -> ->]|Hin]%elem_of_cons; [eauto|auto].
        * intros [_ Hall]. split; [|intros v s Hin; apply Hall; by right].
          destruct (Hall u r) as (a' & Ha' & Hle); [by left|]. apply Z.leb_le. congruence.
      + destruct (IH Hk' false) as (ok & Hok & Hiff). exists ok. split; [done|]. rewrite Hiff. naive_solver. }
  destruct (Hgen true) as (ok & Hok & Hiff). exists ok. split; [done|]. rewrite Hiff. tauto.
Qed.

Lemma rooms_total g : (forall u c, od_get u (per_block g) = Some c -> 0 < c) -> NoDup (od_keys (per_block g)) ->
  (forall u, u ∈ od_keys (per_block g) -> exists mem budget,
     od_get u snapshot = Some mem /\ budget_of (total mem) gmu = Ok budget) ->
  exists rooms, mapM (unit_room snapshot gmu kv_resident reserve_bytes) (per_block g) = Ok rooms /\
    Forall2 room_ok (per_block g) rooms.
Proof.
  intros Hpos Hnd Hcov. apply mapM_total. intros [u c] Hin.
  destruct (Hcov u) as (mem & budget & Hm & Hb); [by apply (list_elem_of_fmap_2 fst) in Hin|].
  apply elem_of_odict in Hin; [|done]. pose proof (Hpos u c Hin).
  unfold unit_room. cbn [fst snd]. rewrite Hm. cbn [of_option mbind res_bind]. rewrite Hb.
  cbn [mbind res_bind]. unfold py_floordiv. rewrite (proj2 (Z.eqb_neq c 0)) by lia. cbn [mbind res_bind].
  eexists. split; [reflexivity|]. split; [done|]. by exists mem, budget.
Qed.

Lemma rooms_keys pb rooms : Forall2 room_ok pb rooms -> od_keys (od_map fst rooms) = od_keys pb.
Proof.
  rewrite od_keys_map. unfold od_keys. induction 1 as [|kv y pb rooms [He _] _ IH]; [done|].
  by rewrite !fmap_cons, He, IH.
Qed.

(** The recorded room of a unit, read off either end. *)
Lemma rooms_elem pb rooms : Forall2 room_ok pb rooms ->
  (forall u c, (u, c) ∈ pb -> exists y, (u, y) ∈ rooms /\ room_ok (u, c) (u, y)) /\
  (forall u y, (u, y) ∈ rooms -> exists c, (u, c) ∈ pb /\ room_ok (u, c) (u, y)).
Proof.
  intros Hall. split; intros u z Hin; apply list_elem_of_lookup in Hin as [i Hi].
  - destruct (Forall2_lookup_l _ _ _ _ _ Hall Hi) as ([v y] & Hy & Hr). pose proof Hr as [Heq _].
    cbn in Heq. subst v. exists y. split; [|done]. by eapply list_elem_of_lookup_2.
  - destruct (Forall2_lookup_r _ _ _ _ _ Hall Hi) as ([v c] & Hc & Hr). pose proof Hr as [Heq _].
    cbn in Heq. subst v. exists c. split; [|done]. by eapply list_elem_of_lookup_2.
Qed.

Lemma fits_total g rooms : (forall u, u ∈ od_keys (per_block g) -> exists mem budget,
     od_get u snapshot = Some mem /\ budget_of (total mem) gmu = Ok budget) ->
  Forall2 room_ok (per_block g) rooms ->
  exists fits, mapM (unit_fit snapshot g gmu kv_resident reserve_bytes (od_map snd rooms))
    (sorted_units (od_keys (per_block g))) = Ok fits.
Proof.
  intros Hcov Hrooms. destruct (mapM_total (fun _ _ => True)
    (unit_fit snapshot g gmu kv_resident reserve_bytes (od_map snd rooms))
    (sorted_units (od_keys (per_block g)))) as (fits & -> & _); [|by exists fits].
  intros u Hu. unfold sorted_units in Hu. rewrite merge_sort_Permutation in Hu.
  unfold unit_fit. destruct (Hcov u Hu) as (mem & b & Hm' & Hb).
  apply elem_of_od_keys in Hu as Hc. destruct Hc as [c Hc]. rewrite Hc, Hm'. cbn [of_option mbind res_bind].
  rewrite Hb. cbn [mbind res_bind].
  destruct (od_get u (od_map snd rooms)) as [q|] eqn:Eq; [by eexists|].
  apply not_elem_of_od_keys in Eq. destruct Eq. rewrite od_keys_map, <- (od_keys_map fst).
  by rewrite (rooms_keys _ _ Hrooms).
Qed.

Lemma room_nonneg pb rooms m : Forall2 room_ok pb rooms -> m ∈ od_values (od_map snd rooms) -> 0 <= m.
Proof.
  intros Hrooms Hm. unfold od_values, od_map in Hm. rewrite <- list_fmap_compose in Hm.
  apply list_elem_of_fmap in Hm as ([u y] & -> & Hin).
  destruct (proj2 (rooms_elem _ _ Hrooms) u y Hin) as (c & _ & _ & mem & b & _ & _ & _ & Hq).
  cbn in *. lia.
Qed.

Lemma fits_all_iff g rooms alloc k : allocated_at g k = Ok alloc ->
  NoDup (od_keys (per_block g)) -> Forall2 room_ok (per_block g) rooms ->
  (forall u, u ∈ od_keys (per_block g) -> is_Some (od_get u alloc)) ->
  exists ok, fits_all g (od_map fst rooms) k = Ok ok /\ (ok = true <-> fits_at g k).
Proof.
  intros Ha Hnd Hrooms Hkeys. destruct (rooms_elem _ _ Hrooms) as [Hl Hr].
  destruct (fits_all_spec g alloc (od_map fst rooms) k Ha) as (ok & Hok & Hiff);
    [by rewrite (rooms_keys _ _ Hrooms)|].
  exists ok. split; [done|]. rewrite Hiff. split.
  - intros Hall. exists alloc. split; [done|]. intros u c Hc%elem_of_odict; [|done].
    destruct (Hl u c Hc) as ([r q] & Hin & _ & mem & budget & Hm & Hb & Hroom & _). cbn in Hroom.
    destruct (Hall u r) as (a & Hua & Hle).
    { unfold od_map. apply (list_elem_of_fmap_2 (fun kv : Unit * (Z * Z) => (kv.1, kv.2.1)) _ _ Hin). }
    exists mem, budget, a. split_and!; [done|done|done|lia].
  - intros (alloc' & Ha' & Hall) u r Hin. rewrite Ha in Ha'. injection Ha' as <-.
    apply list_elem_of_fmap in Hin as ([v y] & [= -> ->] & Hin).
    destruct (Hr v y Hin) as (c & Hc & _ & mem & budget & Hm & Hb & Hroom & _). cbn in Hm, Hroom.
    apply elem_of_odict in Hc; [|done]. destruct (Hall v c Hc) as (mem' & budget' & a & Hm' & Hb' & Hua & Hle).
    exists a. split; [done|]. rewrite Hm in Hm'. injection Hm' as <-. ok_eq. lia.
Qed.

(** Above the smallest linear bound nothing fits: the allocator holds at least the bytes,
    which grow at least linearly. *)
Lemma above_linear_bound specs h g d rooms m k : growth_poly specs h g d ->
  Forall2 room_ok (per_block g) rooms -> m ∈ od_values (od_map snd rooms) -> 0 <= m < k -> ~ fits_at g k.
Proof.
  intros Hp Hrooms Hm Hk (alloc & Ha & Hall). unfold od_values, od_map in Hm.
  rewrite <- list_fmap_compose in Hm. apply list_elem_of_fmap in Hm as ([u y] & -> & Hin). cbn in Hk.
  destruct (proj2 (rooms_elem _ _ Hrooms) u y Hin) as (c & Hc & _ & mem & budget & Hm & Hb & Hroom & Hq).
  cbn in Hm, Hroom, Hq. apply elem_of_odict in Hc; [|apply (gp_keys _ _ _ _ Hp)].
  destruct (Hall u c Hc) as (mem' & budget' & a & Hm' & Hb' & Hua & Hle).
  rewrite Hm in Hm'. injection Hm' as <-. ok_eq. pose proof Hc as Hslope. rewrite (gp_slopes _ _ _ _ Hp) in Hslope.
  destruct (od_get u d) as [ps|] eqn:Eu; [|done]. cbn in Hslope. case_decide as Hpos; [|done].
  injection Hslope as <-.
  destruct (allocated_at_count specs h g d k u Hp) as (alloc' & Ha' & _ & Hsome). ok_eq.
  destruct (Hsome ps Eu) as (a' & Hua' & Hge). rewrite Hua in Hua'. injection Hua' as <-.
  pose proof (peval_superlinear (psum ps) k (sym_sum_ok d u ps (gp_ok _ _ _ _ Hp) Eu)
    (gp_zero _ _ _ _ Hp u ps Eu) ltac:(lia)) as Hsup.
  revert Hq Hroom Hpos Hsup Hge. generalize (peval (psum ps) 1), (peval (psum ps) k). intros c v Hq Hroom Hpos Hsup Hge.
  pose proof (Z.mul_succ_div_gt y.1 c Hpos). nia.
Qed.
End sizing.

(** C9: the count is the largest that fits.  For accepted growth, a utilisation within
    (0, 1] and a snapshot that covers every unit the cache grows on, [max_num_blocks]
    returns; if its count is positive, the allocator's bytes at that count fit every unit's
    budget on top of its base, and no greater count does, although fitting is not monotone
    and only counts below the linear bound are tried. *)
Theorem max_num_blocks_largest snapshot gmu kv_resident reserve_bytes specs h g :
  Forall spec_ok specs -> kv_growth specs h = Ok g ->
  SFltb (S754_zero false) gmu = true -> SFleb gmu (float_of_int 1) = true ->
  (forall u, u ∈ od_keys (per_block g) -> exists mem budget,
     od_get u snapshot = Some mem /\ budget_of (total mem) gmu = Ok budget) ->
  exists n fits, max_num_blocks snapshot g gmu kv_resident reserve_bytes = Ok (n, fits) /\ 0 <= n /\
    (0 < n -> fits_at snapshot gmu kv_resident reserve_bytes g n) /\
    (forall k, n < k -> ~ fits_at snapshot gmu kv_resident reserve_bytes g k).
Proof.
  intros Hs Hg Hlo Hhi Hcov. destruct (kv_growth_poly specs h g Hs Hg) as (_ & d & Hp).
  pose proof (gp_keys _ _ _ _ Hp) as Hnd.
  assert (forall u c, od_get u (per_block g) = Some c -> 0 < c) as Hpos.
  { intros u c. rewrite (gp_slopes _ _ _ _ Hp). destruct (od_get u d); cbn; [|done].
    case_decide; [|done]. by intros [= <-]. }
  unfold max_num_blocks. rewrite Hlo, Hhi. cbn [andb negb].
  replace (forallb _ _) with true.
  2:{ symmetry. apply forallb_forall. intros u Hu%list_elem_of_In. apply bool_decide_eq_true_2.
      destruct (Hcov u Hu) as (mem & b & Hm & _). by rewrite Hm. }
  cbn [negb]. destruct (rooms_total snapshot gmu kv_resident reserve_bytes g Hpos Hnd Hcov) as (rooms & -> & Hrooms).
  cbn [mbind res_bind]. cbn zeta.
  destruct (py_min_ok (od_values (od_map snd rooms))) as (m & -> & Hm & Hmin).
  { intros Hnil. destruct rooms as [|y rooms]; [|done]. apply Forall2_nil_inv_r in Hrooms.
    by apply (gp_nonempty _ _ _ _ Hp). }
  cbn [mbind res_bind].
  assert (forall k, exists ok, fits_all g (od_map fst rooms) k = Ok ok /\
    (ok = true <-> fits_at snapshot gmu kv_resident reserve_bytes g k)) as Hfits.
  { intros k. destruct (allocated_at_count specs h g d k (0, 0) Hp) as (alloc & Ha & _).
    apply (fits_all_iff _ _ _ _ g rooms alloc k Ha Hnd Hrooms). intros u Hu%elem_of_od_keys.
    destruct (allocated_at_count specs h g d k u Hp) as (alloc' & Ha' & _ & Hsome). ok_eq.
    rewrite (gp_slopes _ _ _ _ Hp) in Hu. destruct (od_get u d) as [ps|]; [|by destruct Hu].
    destruct (Hsome ps eq_refl) as (a & -> & _). done. }
  destruct (scan_down_spec g (od_map fst rooms) (Z.to_nat m)) as (n & -> & Hn & Hfit & Hnot);
    [intros k; destruct (Hfits k) as (ok & Hok & _); eauto|].
  cbn [mbind res_bind].
  destruct (fits_total snapshot gmu kv_resident reserve_bytes g rooms Hcov Hrooms) as (fits & ->).
  cbn [mbind res_bind]. exists n, fits. split; [done|]. split; [lia|]. split.
  - intros Hn0. destruct (Hfits n) as (ok & Hok & Hiff). apply Hiff.
    specialize (Hfit Hn0). rewrite Hok in Hfit. by injection Hfit.
  - intros k Hk Hat. pose proof (room_nonneg _ _ _ _ _ _ _ Hrooms Hm).
    destruct (decide (k <= m)) as [Hle|Hgt].
    + destruct (Hfits k) as (ok & Hok & Hiff). specialize (Hnot k ltac:(lia)). rewrite Hok in Hnot.
      injection Hnot as ->. by apply Hiff in Hat.
    + by apply (above_linear_bound snapshot gmu kv_resident reserve_bytes specs h g d rooms m k Hp Hrooms Hm ltac:(lia)).
Qed.

(** ** A small instance *)
Module PlacementToy.
(** Two tensors of 4 blocks, "float16", sharded over two chiplets. *)
Definition tensor (rows : Z) : InputSpec :=
  mkInput [2; 4; rows] (Some (mkPlacement [DimInt 2; DimTuple "symbol" [DimOther]; DimInt rows] "float16"
    [mkShard 0 0 [DimInt 1; DimTuple "symbol" [DimOther]; DimInt rows];
     mkShard 0 1 [DimInt 1; DimTuple "symbol" [DimOther]; DimInt rows]])).
Definition specs : list InputSpec := [tensor 1048576; tensor 2097152].
Definition growth : KvGrowth := mkGrowth [((0, 0), 6291456); ((0, 1), 6291456)] 4 2 specs.
Definition snapshot : odict Unit ChipletMemory :=
  [((0, 0), mkMemory 1073741824 300000000); ((0, 1), mkMemory 1073741824 500000000)].
(** 0.5 *)
Definition half : spec_float := S754_finite false 4503599627370496 (-53).

Lemma growth_eq : kv_growth specs 4 = Ok growth.
Proof. vm_compute. reflexivity. Qed.

Lemma specs_ok : Forall spec_ok specs.
Proof.
  repeat constructor; cbn in H; injection H as <-; repeat constructor; done.
Qed.
End PlacementToy.
Import PlacementToy.

Lemma kv_growth_linear_witness : exists bytes alloc,
  kv_bytes_per_unit specs 37 4 = Ok bytes /\ allocated_at growth 37 = Ok alloc /\
  (default 0 (od_get (0, 1) bytes) = default 0 (od_get (0, 1) (bytes_at growth 37)) /\
   default 0 (od_get (0, 1) bytes) <= default 0 (od_get (0, 1) alloc)).
Proof.
  destruct (kv_growth_linear specs 4 growth 37 specs_ok ltac:(lia) growth_eq)
    as (bytes & alloc & Hb & Ha & Hall).
  exists bytes, alloc. split; [done|]. split; [done|]. exact (Hall (0, 1)).
Defined.

Lemma max_num_blocks_largest_witness : exists n fits,
  max_num_blocks snapshot growth half [] 0 = Ok (n, fits) /\ 0 <= n /\
  (0 < n -> fits_at snapshot half [] 0 growth n) /\
  (forall k, n < k -> ~ fits_at snapshot half [] 0 growth k).
Proof.
  apply (max_num_blocks_largest snapshot half [] 0 specs 4 growth specs_ok growth_eq);
    [vm_compute; reflexivity|vm_compute; reflexivity|].
  intros u Hu. unfold od_keys, growth in Hu. cbn in Hu.
  apply elem_of_cons in Hu as [->|Hu]; [|apply list_elem_of_singleton in Hu as ->];
    (eexists _, _; split; [reflexivity|vm_compute; reflexivity]).
Defined.

(** On this instance the linear bound is 5 and only 3 blocks fit: the allocator's segments
    cost more than the bytes. *)
Example toy_count : exists fits, max_num_blocks snapshot growth half [] 0 = Ok (3, fits).
Proof. eexists. vm_compute. reflexivity. Qed.

(** ** The KV input sets *)

Lemma perm_eqb_refl {A} (eqb : A -> A -> bool) l :
  (forall x, eqb x x = true) -> perm_eqb eqb l l = true.
Proof. intros Hr. induction l as [|x l IH]; cbn; [done|]. by rewrite Hr. Qed.

Lemma same_fingerprint_refl a : same_fingerprint a a = true.
Proof. unfold same_fingerprint. by rewrite !bool_decide_eq_true_2. Qed.

Lemma same_input_refl a : same_input a a = true.
Proof.
  unfold same_input. rewrite same_fingerprint_refl. apply perm_eqb_refl.
  intros x. by apply bool_decide_eq_true_2.
Qed.

(** The groups found so far: of programs seen, pairwise different, and one per program
    with KV inputs. *)
Record groups_ok (seen : list Program) (groups : list (list KvInput * Program)) : Prop := {
  go_from : forall g, g ∈ groups -> g.2 ∈ seen /\ g.1 = kv_inputs g.2 /\ g.1 <> [];
  go_distinct : forall i j a b, (i < j)%nat -> groups !! i = Some a -> groups !! j = Some b ->
    perm_eqb same_input b.1 a.1 = false /\ perm_eqb same_fingerprint b.1 a.1 = false;
  go_cover : forall p, p ∈ seen -> kv_inputs p <> [] ->
    exists g, g ∈ groups /\ perm_eqb same_input (kv_inputs p) g.1 = true
}.

Lemma existsb_false_elem {A} (f : A -> bool) l x : existsb f l = false -> x ∈ l -> f x = false.
Proof.
  intros Hf Hx. destruct (f x) eqn:E; [|done]. rewrite <- Hf. symmetry.
  apply existsb_exists. exists x. by rewrite <- list_elem_of_In.
Qed.

Lemma add_program_ok seen groups p groups' : groups_ok seen groups ->
  add_program groups p = Ok groups' -> groups_ok (seen ++ [p]) groups'.
Proof.
  intros [Hf Hd Hc] Ha. unfold add_program in Ha.
  assert (forall q, q ∈ seen ++ [p] -> q ∈ seen \/ q = p) as Hseen
    by (intros q [Hq|Hq%list_elem_of_singleton]%elem_of_app; auto).
  assert (forall g, g ∈ groups -> g.2 ∈ seen ++ [p] /\ g.1 = kv_inputs g.2 /\ g.1 <> []) as Hf'
    by (intros g Hg; destruct (Hf g Hg) as (? & ? & ?); split_and!; [apply elem_of_app; by left|done|done]).
  destruct (kv_inputs p) as [|s l] eqn:Ep.
  { injection Ha as <-. split; [done|done|]. intros q [Hq| ->]%Hseen Hne; [auto|congruence]. }
  rewrite <- Ep in *. destruct (existsb _ groups) eqn:Ek.
  { injection Ha as <-. split; [done|done|]. intros q [Hq| ->]%Hseen Hne; [auto|].
    apply existsb_exists in Ek as (g & Hg & Hk). exists g. by rewrite list_elem_of_In. }
  destruct (existsb _ groups) eqn:Ef in Ha; [done|]. injection Ha as <-. split.
  - intros g [Hg|Hg%list_elem_of_singleton]%elem_of_app; [auto|]. subst g. cbn.
    split_and!; [apply elem_of_app; right; by left|done|congruence].
  - intros i j a b Hij Hi Hj. apply lookup_app_Some in Hj as [Hj|[Hlen Hj]].
    + assert (i < length groups)%nat by (apply lookup_lt_Some in Hj; lia).
      rewrite lookup_app_l in Hi by done. by apply (Hd i j).
    + apply list_lookup_singleton_Some in Hj as [Hj <-].
      assert (i < length groups)%nat by lia. rewrite lookup_app_l in Hi by done.
      apply list_elem_of_lookup_2 in Hi. cbn.
      by split; [apply (existsb_false_elem _ _ _ Ek)|apply (existsb_false_elem _ _ _ Ef)].
  - intros q [Hq| ->]%Hseen Hne.
    + destruct (Hc q Hq Hne) as (g & Hg & Hk). exists g. split; [apply elem_of_app; by left|done].
    + exists (kv_inputs p, p). split; [apply elem_of_app; right; by left|].
      apply perm_eqb_refl, same_input_refl.
Qed.

Lemma select_kv_input_groups_ok programs groups :
  select_kv_input_groups programs = Ok groups -> groups <> [] /\ groups_ok programs groups.
Proof.
  intros Hs. unfold select_kv_input_groups in Hs.
  destruct (foldM add_program [] programs) as [gs|] eqn:Ef; [|done]. cbn [mbind res_bind] in Hs.
  assert (gs <> [] /\ groups = gs) as [Hne ->] by (destruct gs; [done|]; by injection Hs as <-).
  split; [done|]. clear Hs Hne.
  assert (forall seen gs0, groups_ok seen gs0 -> foldM add_program gs0 programs = Ok gs ->
    groups_ok (seen ++ programs) gs) as Hgen.
  { clear Ef. induction programs as [|p programs IH]; intros seen gs0 H0 Hf; cbn [foldM] in Hf.
    - injection Hf as <-. by rewrite app_nil_r.
    - destruct (add_program gs0 p) as [gs1|] eqn:Ea; [|done]. cbn [mbind res_bind] in Hf.
      apply (add_program_ok _ _ _ _ H0) in Ea. apply (IH _ _ Ea) in Hf. by rewrite <- app_assoc in Hf. }
  apply (Hgen [] []); [|done].
  split; [intros g Hg; by apply not_elem_of_nil in Hg|done|intros p Hp; by apply not_elem_of_nil in Hp].
Qed.
