(* ===== verification/WorkerUtils.v ===== *)
(** * Worker utilities ([src/vllm_rbln/v1/worker/utils.py])

    CPU binding, memory estimates, block-count minima, layer order and the vectorised
    reordering of the input batch.  The host's CPU list, the environment, the file system
    and vLLM's configuration objects are arguments.  Floats are IEEE doubles; [a / b] of
    integers is the quotient of the two doubles, which is Python's correctly rounded
    quotient for operands below 2^53. *)

From S2P Require Import Prelude VllmTypes KvPlacement.
From Stdlib Require Import Ascii SpecFloat.

(** ** CPU binding *)

Record LogicalCPUInfo := mkCPU { cpu_id : Z; physical_core : Z; numa_node : Z }.

Definition cpu_le (a b : LogicalCPUInfo) : Prop := cpu_id a <= cpu_id b.

#[export] Instance cpu_le_decision a b : Decision (cpu_le a b).
Proof. unfold cpu_le. apply _. Defined.

(** [d.setdefault(key(x), []).append(x)] over a list: grouping in first-seen order. *)
Definition group_by {A} (key : A -> Z) (l : list A) : odict Z (list A) :=
  foldl (fun d x => od_set (key x) (default [] (od_get (key x) d) ++ [x]) d) [] l.

(** The answer: ["all"], or a comma list of CPU ids. *)
Inductive CpuBinding := BindAll | BindNone | BindCpus (ids : list Z).

(** The CPUs of one NUMA node that are bound, one selection per physical core. *)
Definition selected_cpus (cpu_selector : list LogicalCPUInfo -> list LogicalCPUInfo)
    (cpus : list LogicalCPUInfo) : list LogicalCPUInfo :=
  merge_sort cpu_le
    (concat ((fun l => cpu_selector (merge_sort cpu_le l)) <$>
       od_values (group_by physical_core cpus))).

(** [ranks.index(x)] *)
Fixpoint index_of (x : Z) (l : list Z) : res Z :=
  match l with
  | [] => Raise ValueError
  | y :: l => if x =? y then Ok 0 else i ← index_of x l; Ok (i + 1)
  end.

(** The share of the rank at [rank_position] among [num_ranks]: the first [remainder]
    ranks get one CPU more. *)
Definition cpu_share {A} (l : list A) (num_ranks rank_position : Z) : list A :=
  let cpus_per_rank := len l / num_ranks in
  let remainder := len l mod num_ranks in
  let start_idx := rank_position * cpus_per_rank + Z.min rank_position remainder in
  let end_idx := start_idx + cpus_per_rank + (if rank_position <? remainder then 1 else 0) in
  py_slice l start_idx end_idx.

Definition ranks_on (num_nodes node_idx world_size : Z) : list Z :=
  filter (fun r => r mod num_nodes = node_idx) (py_range world_size).

(** The body of [get_autobind_cpu_ids] behind the choice of the rank. *)
Definition autobind (allowed_numa_nodes : list Z) (logical_cpu_list : list LogicalCPUInfo)
    (cpu_selector : list LogicalCPUInfo -> list LogicalCPUInfo)
    (rank_across_dp world_size_across_dp : Z) : res CpuBinding :=
  let numa_node_to_cpus := group_by numa_node logical_cpu_list in
  let available := filter (fun n => is_Some (od_get n numa_node_to_cpus)) allowed_numa_nodes in
  match available with
  | [] => Ok BindAll
  | _ =>
      let num_nodes := len available in
      let numa_node_idx := rank_across_dp mod num_nodes in
      selected ← of_option (py_nth available numa_node_idx) IndexError;
      cpus ← of_option (od_get selected numa_node_to_cpus) KeyError;
      let ranks_in_same_numa := ranks_on num_nodes numa_node_idx world_size_across_dp in
      let selected_cpu_list := selected_cpus cpu_selector cpus in
      mine ← (if 1 <? len ranks_in_same_numa then
                rank_position ← index_of rank_across_dp ranks_in_same_numa;
                Ok (cpu_share selected_cpu_list (len ranks_in_same_numa) rank_position)
              else Ok selected_cpu_list);
      match mine with
      | [] => Ok BindAll
      | _ => Ok (BindCpus (cpu_id <$> mine))
      end
  end.

Record ParallelConfig := mkParallel {
  world_size : Z;
  data_parallel_size : Z;
  world_size_across_dp : Z;
  data_parallel_rank : Z
}.

Definition get_autobind_cpu_ids (rank local_rank : Z) (p : ParallelConfig)
    (allowed_numa_nodes : list Z) (logical_cpu_list : list LogicalCPUInfo)
    (cpu_selector : list LogicalCPUInfo -> list LogicalCPUInfo) : res CpuBinding :=
  let '(world, rank_across_dp) :=
    if 1 <? data_parallel_size p
    then (world_size_across_dp p, data_parallel_rank p * world_size p + local_rank)
    else (world_size p, rank) in
  autobind allowed_numa_nodes logical_cpu_list cpu_selector rank_across_dp world.

Inductive CpuArch := POWERPC | S390X | X86 | OTHER_ARCH.

Definition smt8_selector (cpus : list LogicalCPUInfo) : list LogicalCPUInfo :=
  filter (fun c => cpu_id c mod 8 < 4) cpus.

Definition first_cpu (cpus : list LogicalCPUInfo) : list LogicalCPUInfo := py_take 1 cpus.

Definition compute_rbln_local_omp_cpuid (numa linux : bool) (arch : CpuArch)
    (rank local_rank : Z) (p : ParallelConfig) (allowed_numa_nodes : list Z)
    (logical_cpu_list : list LogicalCPUInfo) : res CpuBinding :=
  if numa && linux then
    match arch with
    | POWERPC | S390X =>
        get_autobind_cpu_ids rank local_rank p allowed_numa_nodes logical_cpu_list smt8_selector
    | X86 => get_autobind_cpu_ids rank local_rank p allowed_numa_nodes logical_cpu_list first_cpu
    | OTHER_ARCH => Ok BindNone
    end
  else Ok BindNone.

(** The number of CPUs a rank will be pinned to; [current]: the size of the current mask. *)
Definition get_rbln_planned_affinity_cpu_count (binding : CpuBinding) (current : Z) : Z :=
  match binding with
  | BindCpus ids => Z.max 1 (len ids)
  | BindAll | BindNone => Z.max 1 current
  end.

(** ** Devices *)

Definition REBEL_DRAM_NBYTES : Z := 144 * 2 ^ 30 - 4 * 2 ^ 30.

(** [reported]: the driver's total, [None] when it cannot answer. *)
Definition rbln_device_dram_total_bytes (reported : option Z) : option Z :=
  match reported with
  | None => None
  | Some total =>
      if total <=? 0 then None
      else if REBEL_DRAM_NBYTES <? total then Some REBEL_DRAM_NBYTES else Some total
  end.

(** [tokens]: the entries of [RBLN_VISIBLE_DEVICES], [fallback]: the cards sysfs names. *)
Definition get_rbln_owned_card_indices (present tokens fallback : list Z) : list Z :=
  match present with
  | [] => fallback
  | _ =>
      match tokens with
      | [] => present
      | _ =>
          let owned := omap (fun index =>
            if (0 <=? index) && (index <? len present) then py_nth present index
            else if bool_decide (index ∈ present) then Some index else None) tokens in
          match sorted_set owned with [] => present | l => l end
      end
  end.

(** [dram_used]: what sysfs reports for a card. *)
Definition read_rbln_card_dram_used_bytes (owned : list Z) (dram_used : Z -> option Z) : Z :=
  match omap dram_used owned with [] => 0 | x :: l => maxZ x l end.

(** ** Compile and warm-up, and the smallest pool *)

Inductive SkipReason := EnforceEager | CompileModelOff | WarmUpOff.

Definition compile_and_warmup_skip_reason (enforce_eager compile_model warm_up : bool)
    : option SkipReason :=
  if enforce_eager then Some EnforceEager
  else if negb compile_model then Some CompileModelOff
  else if negb warm_up then Some WarmUpOff else None.

(** What is read of the spec of a KV cache group: [max_memory_usage_bytes],
    [page_size_bytes], and of the spec (the first inner one of a uniform group)
    [max_admission_blocks_per_request] and whether its class must have it. *)
Record KvGroup := mkKvGroup {
  max_memory_usage_bytes : Z;
  page_size_bytes : Z;
  admission : option (Z -> Z -> Z);
  needs_admission : bool
}.

Record KvMinimum := mkKvMinimum { one_request : Z; decode_batch : Z }.

Definition needed (m : KvMinimum) : Z := 1 + Z.max (one_request m) (decode_batch m).

Definition add_group (in_flight_tokens max_model_len : Z) (acc : Z * Z) (g : KvGroup)
    : res (Z * Z) :=
  blocks ← py_ceil_div (max_memory_usage_bytes g) (page_size_bytes g);
  match admission g with
  | None =>
      if needs_admission g then Raise AttributeError else Ok (acc.1 + blocks, acc.2 + 1)
  | Some f => Ok (acc.1 + blocks, acc.2 + f in_flight_tokens max_model_len)
  end.

Definition minimum_kv_blocks (max_model_len in_flight_tokens max_num_seqs : Z)
    (groups : list KvGroup) : res KvMinimum :=
  '(one_request, per_seq) ← foldM (add_group in_flight_tokens max_model_len) (0, 0) groups;
  Ok (mkKvMinimum one_request (max_num_seqs * per_seq)).

Record KVCacheTensor := mkTensor { tensor_size : Z; shared_by : list string }.
Record KVCacheConfig := mkKvConfig { num_blocks : Z; kv_cache_tensors : list KVCacheTensor }.

Definition rescale_kv_cache_config (cfg : KVCacheConfig) (n : Z) : res KVCacheConfig :=
  if num_blocks cfg <=? 0 then Raise ValueError
  else Ok (mkKvConfig n
         ((fun t => mkTensor (tensor_size t * n / num_blocks cfg) (shared_by t)) <$>
            kv_cache_tensors cfg)).

(** ** Memory estimates *)

(** [nbytes // chiplet_replication_factor(...)] in integers. *)
Definition divide_by_chiplet_replication (nbytes num_key_value_heads rsd_size : Z) : Z :=
  if (num_key_value_heads <=? 0) || (rsd_size <=? 0) then nbytes
  else nbytes * num_key_value_heads / (rsd_size * cdiv num_key_value_heads rsd_size).

(** [a / b] of integers, [math.ceil] and the truncation of a float. *)
Definition truediv (a b : Z) : res spec_float :=
  if b =? 0 then Raise ZeroDivisionError
  else Ok (SFdiv 53 1024 (float_of_int a) (float_of_int b)).

Definition ceil_of_float (x : spec_float) : res Z :=
  match x with
  | S754_zero _ => Ok 0
  | S754_finite s m e =>
      let m := if s then Z.neg m else Z.pos m in
      Ok (if 0 <=? e then m * 2 ^ e else cdiv m (2 ^ (- e)))
  | S754_infinity _ => Raise OverflowError
  | S754_nan => Raise ValueError
  end.

(** [align(x, nbytes)] of an integer and of a float, for a power of two. *)
Definition align (x nbytes : Z) : res Z :=
  q ← truediv x nbytes; c ← ceil_of_float q; Ok (c * nbytes).

Definition align_float (x : spec_float) (nbytes : Z) : res Z :=
  c ← ceil_of_float (SFdiv 53 1024 x (float_of_int nbytes)); Ok (c * nbytes).

Record ModelShape := mkShape {
  num_layers : Z;
  vocab_size : Z;
  hidden_size : Z;
  tensor_parallel_size : Z;
  num_kv_heads : Z
}.

Definition estimate_model_kernel_size (s : ModelShape)
    (nbits_per_param n_model_params n_model_bytes : option Z) (default_bits_per_param : Z)
    : res Z :=
  match n_model_params, n_model_bytes with
  | None, None | Some _, Some _ => Raise ValueError
  | _, _ =>
      vocab ← align (vocab_size s) 64;
      let lm_heads_params := vocab * hidden_size s in
      let lm_heads_bytes := lm_heads_params * default_bits_per_param / 8 in
      per_rank ← truediv lm_heads_bytes (tensor_parallel_size s);
      lm_heads ← align_float per_rank (2 ^ 21);
      let lm_heads_nbytes := lm_heads * tensor_parallel_size s in
      layer_nbytes ←
        match n_model_bytes with
        | Some bytes =>
            let layer_bytes := bytes - lm_heads_bytes - lm_heads_bytes in
            per_layer ← truediv layer_bytes (num_layers s);
            a ← align_float per_layer (2 ^ 21); Ok (a * num_layers s)
        | None =>
            bits ← of_option nbits_per_param ValueError;
            let params := default 0 n_model_params - lm_heads_params - lm_heads_params in
            per_layer ← truediv (params * bits / 8) (num_layers s);
            a ← align_float per_layer (2 ^ 21); Ok (a * num_layers s)
        end;
      Ok (layer_nbytes + lm_heads_nbytes)
  end.

Inductive Device := ATOM | REBEL | OtherDevice.

(** [min(budgets, key=budgets.get)] and the value there. *)
Definition tightest_budget (gmu : spec_float) (chiplets : odict Unit ChipletMemory) : res Z :=
  budgets ← mapM (fun kv => b ← budget_of (total kv.2) gmu; Ok (b - used kv.2)) chiplets;
  py_min budgets.

Definition kernel_bytes (s : ModelShape) (nbits_per_param n_model_params n_model_bytes : option Z)
    (kernel_size : option Z) (default_bits_per_param : Z) : res Z :=
  match kernel_size with
  | Some k =>
      match n_model_params, n_model_bytes with
      | None, None => Ok k
      | _, _ => Raise ValueError
      end
  | None =>
      match n_model_params, n_model_bytes with
      | None, None | Some _, Some _ => Raise ValueError
      | Some _, None =>
          match nbits_per_param with
          | None => Raise ValueError
          | Some _ => estimate_model_kernel_size s nbits_per_param n_model_params n_model_bytes
                        default_bits_per_param
          end
      | None, Some _ => estimate_model_kernel_size s nbits_per_param n_model_params n_model_bytes
                          default_bits_per_param
      end
  end.

(** The KV bytes under either reading of the replication over chiplets. *)
Definition released_dram (available kvh rsd_size : Z) : res Z :=
  q ← py_floordiv rsd_size kvh; Ok (available / Z.max 1 q).

(** [reported]: the driver's DRAM total. *)
Definition estimate_available_memory (device : Device) (s : ModelShape)
    (nbits_per_param n_model_params n_model_bytes kernel_size buffer : option Z)
    (num_runtimes : Z) (gpu_memory_utilization : spec_float) (num_devices_per_local_rank : Z)
    (chiplet_memory : option (odict Unit ChipletMemory)) (exact_dram : bool)
    (reported : option Z) : res Z :=
  '(rsd_size, dram, default_bits) ←
    match device with
    | ATOM => Ok (num_devices_per_local_rank,
                  num_devices_per_local_rank * (16 * 2 ^ 30 - 288 * 2 ^ 20), 16)
    | REBEL =>
        assert! (num_devices_per_local_rank =? 1);
        Ok (4, if exact_dram
               then default REBEL_DRAM_NBYTES (rbln_device_dram_total_bytes reported)
               else REBEL_DRAM_NBYTES, 16)
    | OtherDevice => Raise ValueError
    end;
  let num_runtimes := num_runtimes * rsd_size in
  available ←
    match chiplet_memory with
    | None => budget_of dram gpu_memory_utilization
    | Some chiplets =>
        tightest ← tightest_budget gpu_memory_utilization chiplets;
        if negb (len chiplets =? rsd_size) then Raise ValueError else Ok (tightest * rsd_size)
    end;
  kernel ← kernel_bytes s nbits_per_param n_model_params n_model_bytes kernel_size default_bits;
  let buffer := default (2 ^ 28 * num_runtimes) buffer in
  let available := available - kernel - buffer in
  released ← released_dram available (num_kv_heads s) rsd_size;
  let exact := divide_by_chiplet_replication available (num_kv_heads s) rsd_size in
  let available := if exact_dram then exact else released in
  if available <=? 0 then Raise MemoryError else Ok available.

(** ** Layers *)

(** [s.split(".")] *)
Fixpoint split_dot (s : list ascii) : list (list ascii) :=
  match s with
  | [] => [[]]
  | c :: s =>
      match split_dot s with
      | [] => [[c]]
      | w :: ws => if bool_decide (c = "."%char) then [] :: w :: ws else (c :: w) :: ws
      end
  end.

(** [int(subname)] where it does not raise; of the spellings [int] accepts, plain digits. *)
Definition int_of_subname (w : list ascii) : option Z :=
  match w with
  | [] => None
  | _ => if forallb is_digit w then Some (int_of_digits w) else None
  end.

Fixpoint contains (p s : list ascii) : bool :=
  match strip_prefix p s with
  | Some _ => true
  | None => match s with [] => false | _ :: s => contains p s end
  end.

Definition extract_layer_index (layer_name : string) (num_attn_module : Z) : res Z :=
  let name := String.list_ascii_of_string layer_name in
  let has := fun p => contains (String.list_ascii_of_string p) name in
  let int_vals := omap int_of_subname (split_dot name) in
  if (num_attn_module <=? 1) || negb (has "attn") then
    assert! (len int_vals =? 1);
    of_option (head int_vals) IndexError
  else
    match int_vals with
    | [] => Raise AssertionError
    | base :: rest =>
        let sub := match rest with
                   | sub :: _ => sub
                   | [] => if has "scale" then 2 else if has "indexer" then 1 else 0
                   end in
        Ok (base * num_attn_module + sub)
    end.

(** [model]: the first and last layer of this pipeline stage and the number of layers. *)
Definition pipeline_adjusted_layer_index (layer_name : string) (model : option (Z * Z * Z))
    (num_attn_module : Z) : res Z :=
  raw ← extract_layer_index layer_name num_attn_module;
  match model with
  | None => Ok raw
  | Some (start, end_, total) =>
      if total * num_attn_module <=? raw
      then Ok ((end_ - start) * num_attn_module + (raw - total * num_attn_module))
      else Ok (raw - start * num_attn_module)
  end.

Definition num_attn_module (longcat_flash has_index_topk : bool) (cache_dtype : option string) : Z :=
  if longcat_flash then 2
  else if has_index_topk then
    match cache_dtype with
    | Some d =>
        match strip_prefix (String.list_ascii_of_string "fp8") (String.list_ascii_of_string d) with
        | Some _ => 3
        | None => 2
        end
    | None => 2
    end
  else 1.

(** [sharing]: the platform lets several layers have one index. *)
Definition get_kv_cache_names (sharing : bool) (kv_caches : list string) (num_attn_module : Z)
    : res (list string) :=
  index2name ← foldM (fun (d : odict Z (list string)) name =>
                        i ← extract_layer_index name num_attn_module;
                        Ok (od_set i (default [] (od_get i d) ++ [name]) d)) [] kv_caches;
  foldM (fun names i =>
           let layer_names := default [] (od_get i index2name) in
           if (1 <? len layer_names) && negb sharing then Raise NotImplementedError
           else Ok (names ++ layer_names)) [] (sorted_set (od_keys index2name)).

(** ** Reordering the input batch *)

Section batch.
(** prompt embeddings, generators, and floats of the sampling parameters *)
Context {T G F : Type}.

Record InputBatch := mkBatch {
  req_ids : list (option string);
  req_output_token_ids : list (list Z);
  spec_token_ids : list (list Z);
  req_id_to_index : gmap string Z;
  num_tokens_no_spec : list Z;
  num_prompt_tokens_ : list Z;
  num_computed_tokens_cpu : list Z;
  token_ids_cpu : list (list Z);
  is_token_ids : list (list bool);
  row_width : Z;
  req_prompt_embeds : odict Z T;
  block_tables : list (list Z * list (list Z));
  request_lora_mapping : list Z;
  is_pooling_model : bool;
  temperature : list F;
  top_p : list F;
  top_k : list Z;
  frequency_penalties : list F;
  presence_penalties : list F;
  repetition_penalties : list F;
  num_accepted_tokens : list Z;
  generators : odict Z G;
  bad_words_token_ids : odict Z (list (list Z));
  allowed_token_ids_mask : option (list (list bool))
}.

(** [arr[p]], and [arr[:n] = arr[p]] for [n = len(p)]. *)
Definition gather {A} (p : list Z) (l : list A) : res (list A) :=
  mapM (fun i => of_option (py_nth l i) IndexError) p.

Definition assign {A} (p : list Z) (l : list A) : res (list A) :=
  rows ← gather p l; Ok (rows ++ drop (length p) l).

(** [m[:n, :w] = m[p, :w]] *)
Definition assign_columns {A} (w : Z) (p : list Z) (m : list (list A)) : res (list (list A)) :=
  rows ← gather p m;
  Ok (zip_with (fun new old => py_take w new ++ drop (Z.to_nat w) old) rows m
      ++ drop (length p) m).

(** [{k: d[p[k]] for k in range(n) if p[k] in d}] *)
Definition remap {A} (p : list Z) (d : odict Z A) : odict Z A :=
  omap (fun ki : nat * Z => (fun v => (Z.of_nat ki.1, v)) <$> od_get ki.2 d)
    (imap (fun k i => (k, i)) p).

(** The loop that rewrites [req_id_to_index]. *)
Definition reindex (ids : list (option string)) (m : gmap string Z) : gmap string Z :=
  foldl (fun m (ki : nat * option string) =>
           match ki.2 with Some id => <[id := Z.of_nat ki.1]> m | None => m end) m
    (imap (fun k id => (k, id)) ids).

Definition permute_table (p : list Z) (bt : list Z * list (list Z)) : res (list Z * list (list Z)) :=
  counts ← assign p bt.1; rows ← assign p bt.2; Ok (counts, rows).

Definition valid_width (ib : InputBatch) (n : nat) : res Z :=
  let max_spec := maxZ 0 (len <$> take n (spec_token_ids ib)) in
  longest ← py_max (take n (num_tokens_no_spec ib));
  Ok (Z.min (longest + max_spec) (row_width ib)).

(** What every model carries: ids, tokens, embeddings, block tables. *)
Definition permute_requests (ib : InputBatch) (perm : list Z) : res InputBatch :=
  let n := length perm in
  valid_w ← valid_width ib n;
  ids ← assign perm (req_ids ib);
  outputs ← assign perm (req_output_token_ids ib);
  specs ← assign perm (spec_token_ids ib);
  let index := reindex (take n ids) (req_id_to_index ib) in
  ntok ← assign perm (num_tokens_no_spec ib);
  nprompt ← assign perm (num_prompt_tokens_ ib);
  ncomputed ← assign perm (num_computed_tokens_cpu ib);
  tokens ← assign_columns valid_w perm (token_ids_cpu ib);
  is_tok ← assign_columns valid_w perm (is_token_ids ib);
  let embeds := match req_prompt_embeds ib with [] => [] | d => remap perm d end in
  tables ← mapM (permute_table perm) (block_tables ib);
  lora ← assign perm (request_lora_mapping ib);
  Ok (mkBatch ids outputs specs index ntok nprompt ncomputed tokens is_tok (row_width ib) embeds
        tables lora (is_pooling_model ib) (temperature ib) (top_p ib) (top_k ib)
        (frequency_penalties ib) (presence_penalties ib) (repetition_penalties ib)
        (num_accepted_tokens ib) (generators ib) (bad_words_token_ids ib)
        (allowed_token_ids_mask ib)).

(** The sampling state, which a pooling model does not carry. *)
Definition permute_sampling (ib : InputBatch) (perm : list Z) : res InputBatch :=
  temp ← assign perm (temperature ib); tp ← assign perm (top_p ib);
  tk ← assign perm (top_k ib); fp ← assign perm (frequency_penalties ib);
  pp ← assign perm (presence_penalties ib); rp ← assign perm (repetition_penalties ib);
  acc ← assign perm (num_accepted_tokens ib);
  mask ← match allowed_token_ids_mask ib with
         | None => Ok None
         | Some rows => rows ← assign perm rows; Ok (Some rows)
         end;
  Ok (mkBatch (req_ids ib) (req_output_token_ids ib) (spec_token_ids ib) (req_id_to_index ib)
        (num_tokens_no_spec ib) (num_prompt_tokens_ ib) (num_computed_tokens_cpu ib)
        (token_ids_cpu ib) (is_token_ids ib) (row_width ib) (req_prompt_embeds ib)
        (block_tables ib) (request_lora_mapping ib) (is_pooling_model ib) temp tp tk fp pp rp acc
        (remap perm (generators ib)) (remap perm (bad_words_token_ids ib)) mask).

Definition reorder_input_batch (ib : InputBatch) (perm : list Z) : res InputBatch :=
  ib ← permute_requests ib perm;
  if is_pooling_model ib then Ok ib else permute_sampling ib perm.
End batch.
Arguments InputBatch : clear implicits.
