(* ===== verification/WorkerUtilsSpec.v ===== *)
(** * Worker utilities: what they guarantee

    The theorems about [WorkerUtils]: CPU shares partition the CPUs of a node and no CPU is
    bound twice, the exact replication factor never raises an estimate, and reordering the
    input batch moves whole requests. *)

From S2P Require Import Prelude VllmTypes KvPlacement WorkerUtils.
From Stdlib Require Import Ascii SpecFloat.

(** ** Grouping *)

Section group_by.
Context {A : Type}.
Variable key : A -> Z.

Lemma group_by_snoc l x : group_by key (l ++ [x]) =
  od_set (key x) (default [] (od_get (key x) (group_by key l)) ++ [x]) (group_by key l).
Proof. unfold group_by. by rewrite foldl_app. Qed.

Lemma group_by_get l : forall k, od_get k (group_by key l) =
  match filter (fun x => key x = k) l with [] => None | f => Some f end.
Proof.
  induction l as [|x l IH] using rev_ind; intros k; [done|].
  rewrite group_by_snoc, od_get_set, filter_app, filter_cons, filter_nil.
  case_decide as Hk; case_decide as Hx; try congruence.
  - rewrite IH, Hk. by destruct (filter _ l).
  - by rewrite app_nil_r.
Qed.

Lemma values_set (d : odict Z (list A)) k x :
  concat (od_values (od_set k (default [] (od_get k d) ++ [x]) d)) ≡ₚ x :: concat (od_values d).
Proof.
  unfold od_values. induction d as [|[k' l] d IH]; cbn; [done|]. case_decide; cbn.
  - rewrite <- app_assoc. symmetry. apply Permutation_middle.
  - rewrite IH. symmetry. apply Permutation_middle.
Qed.

Lemma group_by_values l : concat (od_values (group_by key l)) ≡ₚ l.
Proof.
  induction l as [|x l IH] using rev_ind; [done|]. rewrite group_by_snoc, values_set, IH.
  apply Permutation_cons_append.
Qed.
End group_by.

(** ** Shares *)

(** The start of a share, and that shares are consecutive. *)
Definition share_start {A} (l : list A) (m i : Z) : Z := i * (len l / m) + Z.min i (len l mod m).

Lemma cpu_share_eq {A} (l : list A) m i : 0 <= i ->
  cpu_share l m i = py_slice l (share_start l m i) (share_start l m (i + 1)).
Proof.
  intros Hi. unfold cpu_share, share_start. f_equal. destruct (i <? len l mod m) eqn:E; zbool; lia.
Qed.

Lemma share_start_mono {A} (l : list A) m i j : 0 < m -> 0 <= i <= j ->
  0 <= share_start l m i <= share_start l m j.
Proof.
  intros Hm Hi. unfold share_start. pose proof (len_nonneg l).
  pose proof (Z.mod_pos_bound (len l) m Hm). assert (0 <= len l / m) by (apply Z.div_pos; lia). nia.
Qed.

Lemma share_start_end {A} (l : list A) m : 0 < m -> share_start l m m = len l.
Proof.
  intros Hm. unfold share_start. pose proof (Z.mod_pos_bound (len l) m Hm).
  pose proof (Z.div_mod (len l) m ltac:(lia)). nia.
Qed.

Lemma py_slice_all {A} (l : list A) : py_slice l 0 (len l) = l.
Proof. unfold py_slice, len. rewrite drop_0. apply take_ge. lia. Qed.

(** The shares of all ranks, put together, are the list. *)
Lemma cpu_shares_concat {A} (l : list A) m : 0 < m ->
  concat ((fun i => cpu_share l m i) <$> py_range m) = l.
Proof.
  intros Hm. assert (forall n : nat, Z.of_nat n <= m ->
    concat ((fun i => cpu_share l m i) <$> py_range (Z.of_nat n)) =
      py_slice l 0 (share_start l m (Z.of_nat n))) as Hgen.
  { induction n as [|n IH]; intros Hn.
    - unfold py_range, share_start. cbn [seqZ Z.to_nat fmap list_fmap concat].
      replace (Z.of_nat 0) with 0 by lia. unfold py_slice.
      pose proof (Z.mod_pos_bound (len l) m Hm). by replace (Z.to_nat _) with 0%nat by lia.
    - unfold py_range in *. rewrite seqZ_S, Nat2Z.inj_succ, fmap_app, concat_app, IH by lia.
     
      cbn [fmap list_fmap concat]. rewrite app_nil_r, Z.add_0_l, cpu_share_eq by lia.
      pose proof (share_start_mono l m (Z.of_nat n) (Z.of_nat n + 1) Hm ltac:(lia)).
      rewrite py_slice_app by lia. f_equal. }
  specialize (Hgen (Z.to_nat m) ltac:(lia)). rewrite Z2Nat.id, share_start_end in Hgen by lia.
  rewrite Hgen. apply py_slice_all.
Qed.

Lemma cpu_share_balanced {A} (l : list A) m i : 0 < m -> 0 <= i < m ->
  len l / m <= len (cpu_share l m i) <= len l / m + 1.
Proof.
  intros Hm Hi. rewrite cpu_share_eq by lia.
  pose proof (share_start_mono l m i (i + 1) Hm ltac:(lia)).
  pose proof (share_start_mono l m (i + 1) m Hm ltac:(lia)) as Hend. rewrite share_start_end in Hend by lia.
  rewrite len_py_slice by lia. unfold share_start. nia.
Qed.

Lemma cpu_shares_disjoint {A} (l : list A) m i j x : NoDup l -> 0 < m -> 0 <= i < j ->
  x ∈ cpu_share l m i -> x ∈ cpu_share l m j -> False.
Proof.
  intros Hn Hm Hij. rewrite !cpu_share_eq by lia.
  pose proof (share_start_mono l m 0 i Hm ltac:(lia)). pose proof (share_start_mono l m (i + 1) j Hm ltac:(lia)).
  intros (a & Ha & Hra)%elem_of_py_slice (b & Hb & Hrb)%elem_of_py_slice; [|lia|lia].
  pose proof (NoDup_lookup _ _ _ _ Hn Ha Hb). lia.
Qed.

(** ** Selecting and binding *)

Section binding.
Variable cpu_selector : list LogicalCPUInfo -> list LogicalCPUInfo.
(** A selector drops CPUs. *)
Hypothesis selector_drops : forall l, cpu_selector l ⊆+ l.

Lemma concat_submseteq {A} (f : list A -> list A) (ls : list (list A)) :
  (forall l, f l ⊆+ l) -> concat (f <$> ls) ⊆+ concat ls.
Proof. intros Hf. induction ls as [|l ls IH]; cbn; [done|]. by apply submseteq_app. Qed.

Lemma selected_cpus_sub cpus : selected_cpus cpu_selector cpus ⊆+ cpus.
Proof.
  unfold selected_cpus. rewrite merge_sort_Permutation.
  rewrite <- (group_by_values physical_core cpus) at 2. apply concat_submseteq.
  intros l. rewrite selector_drops. by rewrite merge_sort_Permutation.
Qed.

Lemma index_of_ok x l : x ∈ l -> exists i, index_of x l = Ok i /\ 0 <= i /\ l !! Z.to_nat i = Some x.
Proof.
  induction l as [|y l IH]; intros Hx; [by apply not_elem_of_nil in Hx|]. cbn [index_of].
  destruct (x =? y) eqn:E; zbool; [exists 0; subst; split; [done|split; [lia|done]]|].
  apply elem_of_cons in Hx as [?|Hx]; [done|]. destruct (IH Hx) as (i & -> & Hi & Hl).
  exists (i + 1). split; [done|]. split; [lia|].
  by replace (Z.to_nat (i + 1)) with (S (Z.to_nat i)) by lia.
Qed.

Variables (allowed : list Z) (cpus : list LogicalCPUInfo).
Hypothesis allowed_nodup : NoDup allowed.
Hypothesis cpus_nodup : NoDup (cpu_id <$> cpus).

Definition available : list Z :=
  filter (fun n => is_Some (od_get n (group_by numa_node cpus))) allowed.

(** What [autobind] binds for a rank: its share of the selected CPUs of its node. *)
Definition bound_cpus (rank world : Z) (mine : list LogicalCPUInfo) : Prop :=
  let ranks := ranks_on (len available) (rank mod len available) world in
  exists node i, py_nth available (rank mod len available) = Some node /\
    index_of rank ranks = Ok i /\ 0 <= i < len ranks /\ ranks !! Z.to_nat i = Some rank /\
    mine = cpu_share (selected_cpus cpu_selector (filter (fun c => numa_node c = node) cpus)) (len ranks) i.

Lemma ranks_on_elem rank world k : 0 <= rank < world -> rank ∈ ranks_on k (rank mod k) world.
Proof. intros Hr. apply list_elem_of_filter. split; [done|]. by apply elem_of_seqZ. Qed.

Lemma cpu_share_one {A} (l : list A) : cpu_share l 1 0 = l.
Proof.
  rewrite cpu_share_eq by lia. change (0 + 1) with 1. rewrite share_start_end by lia.
  unfold share_start. pose proof (Z.mod_pos_bound (len l) 1 ltac:(lia)).
  replace (0 * (len l / 1) + Z.min 0 (len l mod 1)) with 0 by lia. apply py_slice_all.
Qed.

Lemma autobind_spec rank world : 0 <= rank < world -> available <> [] ->
  exists mine, bound_cpus rank world mine /\
    autobind allowed cpus cpu_selector rank world =
      Ok (match mine with [] => BindAll | _ => BindCpus (cpu_id <$> mine) end).
Proof.
  intros Hr Hne. unfold autobind, bound_cpus. fold available.
  destruct available as [|n0 ns] eqn:Eav; [done|]. rewrite <- Eav in *. cbn zeta.
  assert (0 < len available) as Hlen by (rewrite Eav; unfold len; cbn [length]; lia).
  set (ranks := ranks_on _ _ _). pose proof (ranks_on_elem rank world (len available) Hr) as Hin.
  fold ranks in Hin. destruct (index_of_ok rank ranks Hin) as (i & Hi & Hpos & Hl).
  assert (i < len ranks) as Hilt by (apply lookup_lt_Some in Hl; unfold len; lia).
  pose proof (Z.mod_pos_bound rank (len available) Hlen) as Hmod.
  destruct (lookup_lt_is_Some_2 available (Z.to_nat (rank mod len available))) as [node Hnode];
    [unfold len in *; lia|].
  assert (py_nth available (rank mod len available) = Some node) as Hnth.
  { unfold py_nth. destruct (_ <? 0) eqn:E; zbool; [lia|done]. }
  rewrite Hnth. cbn [of_option mbind res_bind].
  assert (is_Some (od_get node (group_by numa_node cpus))) as [g Hg].
  { apply list_elem_of_lookup_2 in Hnode. by apply list_elem_of_filter in Hnode as [? _]. }
  rewrite Hg. cbn [of_option mbind res_bind].
  assert (g = filter (fun c => numa_node c = node) cpus) as ->.
  { rewrite group_by_get in Hg. destruct (filter _ cpus); congruence. }
  set (sel := selected_cpus _ _). exists (cpu_share sel (len ranks) i). split; [by exists node, i|].
  assert ((if 1 <? len ranks then rank_position ← index_of rank ranks; Ok (cpu_share sel (len ranks) rank_position)
           else Ok sel) = Ok (cpu_share sel (len ranks) i)) as ->.
  { rewrite Hi. cbn [mbind res_bind]. destruct (1 <? len ranks) eqn:E; zbool; [done|].
    replace (len ranks) with 1 by lia. replace i with 0 by lia. by rewrite cpu_share_one. }
  cbn [mbind res_bind]. by destruct (cpu_share sel (len ranks) i).
Qed.

(** Bound CPUs come from the host's list and belong to the rank's node. *)
Lemma bound_cpus_elem rank world mine c : bound_cpus rank world mine -> c ∈ mine ->
  c ∈ cpus /\ py_nth available (rank mod len available) = Some (numa_node c).
Proof.
  intros (node & i & Hnode & _ & Hi & _ & ->) Hc. rewrite cpu_share_eq in Hc by lia.
  apply elem_of_py_slice in Hc as (k & Hk & _);
    [|apply (share_start_mono _ _ i i); lia].
  apply list_elem_of_lookup_2 in Hk.
  pose proof (elem_of_submseteq _ _ _ Hk (selected_cpus_sub _)) as Hsel.
  apply list_elem_of_filter in Hsel as [<- Hsel]. done.
Qed.
Lemma NoDup_py_nth (l : list Z) i j x : NoDup l -> 0 <= i -> 0 <= j ->
  py_nth l i = Some x -> py_nth l j = Some x -> i = j.
Proof.
  intros Hn Hi Hj. unfold py_nth. rewrite !(proj2 (Z.ltb_ge _ _)) by done. intros Ha Hb.
  pose proof (NoDup_lookup _ _ _ _ Hn Ha Hb). lia.
Qed.

Lemma selected_ids_nodup node :
  NoDup (selected_cpus cpu_selector (filter (fun c => numa_node c = node) cpus)).
Proof.
  pose proof (NoDup_fmap_1 _ _ cpus_nodup) as Hn.
  apply (NoDup_filter (fun c => numa_node c = node)) in Hn.
  destruct (submseteq_Permutation _ _ (selected_cpus_sub (filter (fun c => numa_node c = node) cpus)))
    as [rest Hp].
  rewrite Hp in Hn. by apply NoDup_app in Hn as [Hn _].
Qed.

(** Two ranks never bind the same CPU. *)
Lemma bound_cpus_disjoint r1 r2 world l1 l2 c1 c2 : 0 < len available -> r1 <> r2 ->
  bound_cpus r1 world l1 -> bound_cpus r2 world l2 -> c1 ∈ l1 -> c2 ∈ l2 -> cpu_id c1 <> cpu_id c2.
Proof.
  intros Hlen Hne H1 H2 Hc1 Hc2 Heq.
  destruct (bound_cpus_elem _ _ _ _ H1 Hc1) as [Hin1 Hn1].
  destruct (bound_cpus_elem _ _ _ _ H2 Hc2) as [Hin2 Hn2].
  assert (c1 = c2) as ->.
  { apply list_elem_of_lookup in Hin1 as [i Hi], Hin2 as [j Hj].
    assert (i = j) as ->; [|congruence].
    apply (NoDup_lookup (cpu_id <$> cpus) i j (cpu_id c1)); [done| |]; rewrite list_lookup_fmap;
      [by rewrite Hi|by rewrite Hj, Heq]. }
  assert (r1 mod len available = r2 mod len available) as Hmod.
  { apply (NoDup_py_nth available _ _ (numa_node c2)); [by apply NoDup_filter|..];
      try (by apply Z.mod_pos_bound); done. }
  destruct H1 as (n1 & i1 & Hn1' & _ & Hi1 & Hl1 & ->), H2 as (n2 & i2 & Hn2' & _ & Hi2 & Hl2 & ->).
  rewrite Hn1 in Hn1'. rewrite Hn2 in Hn2'. injection Hn1' as <-. injection Hn2' as <-.
  rewrite Hmod in *. set (ranks := ranks_on _ _ _) in *.
  assert (i1 <> i2) as Hi by (intros ->; congruence).
  destruct (decide (i1 < i2)) as [Hlt|Hge].
  - exact (cpu_shares_disjoint _ (len ranks) i1 i2 c2 (selected_ids_nodup _) ltac:(lia) ltac:(lia) Hc1 Hc2).
  - exact (cpu_shares_disjoint _ (len ranks) i2 i1 c2 (selected_ids_nodup _) ltac:(lia) ltac:(lia) Hc2 Hc1).
Qed.

(** CPU binding is exclusive and complete.  With distinct nodes and distinct CPUs, and
    a selector that only drops CPUs, binding returns for every rank of the group, the CPUs
    bound are the host's, two ranks never bind a common CPU, and the shares of a list's
    ranks put together are the list, with sizes that differ by at most one. *)
Theorem cpu_binding_exclusive world r1 r2 : 0 <= r1 < world -> 0 <= r2 < world -> r1 <> r2 ->
  (exists b, autobind allowed cpus cpu_selector r1 world = Ok b) /\
  (forall ids1 ids2,
     autobind allowed cpus cpu_selector r1 world = Ok (BindCpus ids1) ->
     autobind allowed cpus cpu_selector r2 world = Ok (BindCpus ids2) ->
     (forall id, id ∈ ids1 -> id ∈ cpu_id <$> cpus) /\ (forall id, id ∈ ids1 -> id ∉ ids2)) /\
  (forall (l : list LogicalCPUInfo) m, 0 < m ->
     concat ((fun i => cpu_share l m i) <$> py_range m) = l /\
     forall i, 0 <= i < m -> len l / m <= len (cpu_share l m i) <= len l / m + 1).
Proof.
  intros Hr1 Hr2 Hne. split; [|split].
  - destruct (decide (available = [])) as [Hnil|Hav].
    + exists BindAll. unfold autobind. fold available. by rewrite Hnil.
    + destruct (autobind_spec r1 world Hr1 Hav) as (mine & _ & ->). by eexists.
  - intros ids1 ids2 Ha1 Ha2. destruct (decide (available = [])) as [Hnil|Hav].
    { unfold autobind in Ha1. fold available in Ha1. by rewrite Hnil in Ha1. }
    assert (0 < len available) as Hlen by (destruct available; [done|unfold len; cbn [length]; lia]).
    destruct (autobind_spec r1 world Hr1 Hav) as (m1 & Hb1 & He1). rewrite He1 in Ha1.
    destruct (autobind_spec r2 world Hr2 Hav) as (m2 & Hb2 & He2). rewrite He2 in Ha2.
    assert (ids1 = cpu_id <$> m1) as -> by (destruct m1; [done|congruence]).
    assert (ids2 = cpu_id <$> m2) as -> by (destruct m2; [done|congruence]).
    split; intros id (c & -> & Hc)%list_elem_of_fmap.
    + apply (bound_cpus_elem _ _ _ _ Hb1) in Hc as [Hc _]. by apply list_elem_of_fmap_2.
    + intros (c2 & Heq & Hc2)%list_elem_of_fmap.
      exact (bound_cpus_disjoint r1 r2 world m1 m2 c c2 Hlen Hne Hb1 Hb2 Hc Hc2 Heq).
  - intros l m Hm. split; [by apply cpu_shares_concat|]. intros i Hi. by apply cpu_share_balanced.
Qed.
End binding.

(** ** The replication factor *)

(** The exact division by the replication factor never exceeds the released estimate. *)
Lemma exact_never_grows available kvh rsd released : 0 <= available -> 0 < kvh -> 0 < rsd ->
  released_dram available kvh rsd = Ok released ->
  0 <= divide_by_chiplet_replication available kvh rsd <= released.
Proof.
  intros Ha Hk Hr. unfold released_dram, py_floordiv, divide_by_chiplet_replication.
  rewrite (proj2 (Z.eqb_neq kvh 0)), !(proj2 (Z.leb_gt _ 0)) by lia. cbn [mbind res_bind orb].
  intros [= <-]. pose proof (cdiv_spec kvh rsd Hr) as Hc. set (c := cdiv kvh rsd) in *.
  assert (1 <= c) by nia. split; [apply Z.div_pos; nia|].
  pose proof (Z.div_pos rsd kvh ltac:(lia) Hk). pose proof (Z.mul_div_le rsd kvh Hk).
  set (q := Z.max 1 (rsd / kvh)) in *. assert (q * kvh <= rsd * c) as Hq by (unfold q; nia).
  assert (1 <= q) by (unfold q; lia). apply Z.div_le_lower_bound; [lia|].
  pose proof (Z.mul_div_le (available * kvh) (rsd * c) ltac:(nia)) as Hle.
  set (e := available * kvh / (rsd * c)) in *. assert (0 <= e) by (apply Z.div_pos; nia).
  assert (e * (q * kvh) <= e * (rsd * c)) by nia. nia.
Qed.

(** ** Reordering *)

Section reorder.
Context {T G F : Type}.
Implicit Types ib : InputBatch T G F.

Definition in_range {A} (p : list Z) (l : list A) : Prop := Forall (fun i => 0 <= i < len l) p.

Lemma gather_spec {A} (p : list Z) (l : list A) : in_range p l ->
  exists rows, gather p l = Ok rows /\ length rows = length p /\
    forall k i, p !! k = Some i -> rows !! k = l !! Z.to_nat i.
Proof.
  intros Hp. destruct (mapM_total (fun i x => l !! Z.to_nat i = Some x)
    (fun i => of_option (py_nth l i) IndexError) p) as (rows & Hrows & Hall).
  - intros i Hi. destruct (proj1 (Forall_forall _ _) Hp i Hi) as [H0 Hlt].
    destruct (lookup_lt_is_Some_2 l (Z.to_nat i)) as [x Hx]; [unfold len in *; lia|].
    exists x. unfold py_nth. rewrite (proj2 (Z.ltb_ge i 0)) by lia. by rewrite Hx.
  - exists rows. split; [done|]. split; [by rewrite (Forall2_length _ _ _ Hall)|].
    intros k i Hk. destruct (Forall2_lookup_l _ _ _ _ _ Hall Hk) as (x & Hx & Hl). congruence.
Qed.

Lemma assign_spec {A} (p : list Z) (l : list A) : in_range p l ->
  exists l', assign p l = Ok l' /\ forall k,
    (forall i, p !! k = Some i -> l' !! k = l !! Z.to_nat i) /\
    ((length p <= k)%nat -> (length p <= length l)%nat -> l' !! k = l !! k).
Proof.
  intros Hp. destruct (gather_spec p l Hp) as (rows & Hr & Hlen & Hrow). unfold assign. rewrite Hr.
  cbn [mbind res_bind]. eexists. split; [reflexivity|]. intros k. split.
  - intros i Hi. rewrite lookup_app_l; [by apply Hrow|]. rewrite Hlen. by apply lookup_lt_Some in Hi.
  - intros Hk Hl. rewrite lookup_app_r, lookup_drop by lia. f_equal. lia.
Qed.

Lemma assign_columns_spec {A} w (p : list Z) (m : list (list A)) : in_range p m ->
  (length p <= length m)%nat ->
  exists m', assign_columns w p m = Ok m' /\ forall k i row, p !! k = Some i -> m !! Z.to_nat i = Some row ->
    exists row', m' !! k = Some row' /\
      forall n, 0 <= n <= w -> n <= len row -> py_take n row' = py_take n row.
Proof.
  intros Hp Hle. destruct (gather_spec p m Hp) as (rows & Hr & Hlen & Hrow). unfold assign_columns. rewrite Hr.
  cbn [mbind res_bind]. eexists. split; [reflexivity|]. intros k i row Hk Hi.
  pose proof (lookup_lt_Some _ _ _ Hk) as Hklt.
  destruct (lookup_lt_is_Some_2 m k) as [old Hold]; [lia|].
  exists (py_take w row ++ drop (Z.to_nat w) old). split.
  - rewrite lookup_app_l by (rewrite length_zip_with; lia).
    apply lookup_zip_with_Some. exists row, old. by rewrite (Hrow k i Hk), Hi.
  - intros n Hn Hlt. unfold py_take, len in *. rewrite take_app_le by (rewrite length_take; lia).
    rewrite take_take. f_equal. lia.
Qed.

Lemma remap_get_from {A} (p : list Z) (d : odict Z A) (s k : nat) i : p !! k = Some i ->
  od_get (Z.of_nat (s + k)) (omap (fun ki : nat * Z => (fun v => (Z.of_nat ki.1, v)) <$> od_get ki.2 d)
    (imap (fun k i => ((s + k)%nat, i)) p)) = od_get i d.
Proof.
  revert s k. induction p as [|j p IH]; intros s k Hk; [done|].
  assert (imap (fun k i => ((s + k)%nat, i)) (j :: p) =
          (s, j) :: imap (fun k i => ((S s + k)%nat, i)) p) as ->.
  { cbn. f_equal; [f_equal; lia|]. apply imap_ext. intros. cbn. f_equal. lia. }
  cbn [omap list_omap fst snd]. destruct k as [|k].
  - injection Hk as ->. rewrite Nat.add_0_r. destruct (od_get i d) as [v|] eqn:E; cbn [fmap option_fmap option_map].
    + cbn [od_get]. by rewrite decide_True.
    + apply not_elem_of_od_keys. unfold od_keys. intros Hin.
      apply list_elem_of_fmap in Hin as ([z v] & Hz & Hin). cbn in Hz. subst z.
      apply list_elem_of_omap in Hin as ([k' i'] & Hin & Heq). cbn in Heq.
      destruct (od_get i' d); [|done]. cbn in Heq. injection Heq as Heq _.
      apply elem_of_lookup_imap in Hin as (k2 & i2 & [= -> ->] & _). lia.
  - cbn in Hk. specialize (IH (S s) k Hk). replace (s + S k)%nat with (S s + k)%nat by lia.
    destruct (od_get j d) as [v|]; cbn [fmap option_fmap option_map]; [|exact IH].
    cbn [od_get]. rewrite decide_False by lia. exact IH.
Qed.

Lemma remap_get {A} (p : list Z) (d : odict Z A) (k : nat) i : p !! k = Some i ->
  od_get (Z.of_nat k) (remap p d) = od_get i d.
Proof. intros Hk. exact (remap_get_from p d 0 k i Hk). Qed.

Lemma reindex_snoc ids o m : reindex (ids ++ [o]) m =
  match o with Some id => <[id := Z.of_nat (length ids)]> (reindex ids m) | None => reindex ids m end.
Proof.
  unfold reindex. rewrite imap_app, foldl_app. cbn. by rewrite Nat.add_0_r.
Qed.

Lemma reindex_spec ids m id :
  (Some id ∉ ids -> reindex ids m !! id = m !! id) /\
  (forall k, ids !! k = Some (Some id) -> (forall k', ids !! k' = Some (Some id) -> k' = k) ->
     reindex ids m !! id = Some (Z.of_nat k)).
Proof.
  induction ids as [|o ids [IH1 IH2]] using rev_ind; [split; done|]. rewrite reindex_snoc. split.
  - intros Hn. destruct o as [id'|]; [rewrite lookup_insert_ne by set_solver|]; apply IH1; set_solver.
  - intros k Hk Hu. apply lookup_snoc_Some in Hk as [[Hlt Hk]|[-> ->]]; [|by rewrite lookup_insert_eq].
    assert (reindex ids m !! id = Some (Z.of_nat k)) as Hid.
    { apply IH2; [done|]. intros k' Hk'. apply Hu. apply lookup_snoc_Some. left.
      split; [by apply lookup_lt_Some in Hk'|done]. }
    destruct o as [id'|]; [|done]. destruct (decide (id' = id)) as [->|Hne]; [|by rewrite lookup_insert_ne].
    assert (length ids = k) by (apply Hu, lookup_snoc_Some; by right). lia.
Qed.

(** One row of sampling state per slot. *)
Definition sampling_ok (cap : nat) ib : Prop :=
  length (temperature ib) = cap /\ length (top_p ib) = cap /\ length (top_k ib) = cap /\
    length (frequency_penalties ib) = cap /\ length (presence_penalties ib) = cap /\
    length (repetition_penalties ib) = cap /\ length (num_accepted_tokens ib) = cap /\
    forall mask, allowed_token_ids_mask ib = Some mask -> length mask = cap.

(** A batch whose first [n] slots are in use: arrays have one row for each of the [cap] slots,
    the lists of ids, outputs and drafts reach over the slots in use at least, token rows are
    [row_width] wide, and the tokens and drafts of a request fit its row. *)
Record batch_ok (n cap : nat) ib : Prop := {
  bo_n : (0 < n <= cap)%nat;
  bo_lists : (n <= length (req_ids ib) /\ n <= length (req_output_token_ids ib) /\ n <= length (spec_token_ids ib))%nat;
  bo_arrays : length (num_tokens_no_spec ib) = cap /\ length (num_prompt_tokens_ ib) = cap /\
    length (num_computed_tokens_cpu ib) = cap /\ length (request_lora_mapping ib) = cap;
  bo_rows : length (token_ids_cpu ib) = cap /\ length (is_token_ids ib) = cap /\
    Forall (fun row => len row = row_width ib) (token_ids_cpu ib) /\
    Forall (fun row => len row = row_width ib) (is_token_ids ib);
  bo_tables : Forall (fun bt => length bt.1 = cap /\ length bt.2 = cap) (block_tables ib);
  bo_sampling : sampling_ok cap ib;
  bo_fits : forall i t s, num_tokens_no_spec ib !! i = Some t -> spec_token_ids ib !! i = Some s ->
    0 <= t /\ t + len s <= row_width ib
}.

(** The tokens of a slot that mean anything: its tokens and its drafts. *)
Definition meaningful ib (i : nat) : option Z :=
  t ← num_tokens_no_spec ib !! i; s ← spec_token_ids ib !! i; Some (t + len s).

Definition token_row {A} ib (rows : list (list A)) (i : nat) : option (list A) :=
  w ← meaningful ib i; row ← rows !! i; Some (py_take w row).

(** What a slot holds of its request. *)
Definition slot ib (i : nat) :=
  (req_ids ib !! i, req_output_token_ids ib !! i, spec_token_ids ib !! i,
   (num_tokens_no_spec ib !! i, num_prompt_tokens_ ib !! i, num_computed_tokens_cpu ib !! i),
   (token_row ib (token_ids_cpu ib) i, token_row ib (is_token_ids ib) i),
   od_get (Z.of_nat i) (req_prompt_embeds ib),
   (fun bt => (bt.1 !! i, bt.2 !! i)) <$> block_tables ib, request_lora_mapping ib !! i).

Definition sampling_slot ib (i : nat) :=
  (temperature ib !! i, top_p ib !! i, top_k ib !! i,
   (frequency_penalties ib !! i, presence_penalties ib !! i, repetition_penalties ib !! i),
   num_accepted_tokens ib !! i, od_get (Z.of_nat i) (generators ib),
   od_get (Z.of_nat i) (bad_words_token_ids ib),
   (fun mask => mask !! i) <$> allowed_token_ids_mask ib).

Definition ids_indexed ib : Prop :=
  forall i id, req_ids ib !! i = Some (Some id) -> req_id_to_index ib !! id = Some (Z.of_nat i).

Lemma valid_width_spec n cap ib : batch_ok n cap ib -> exists w, valid_width ib n = Ok w /\
  forall i m, (i < n)%nat -> meaningful ib i = Some m -> 0 <= m <= w.
Proof.
  intros Hb. unfold valid_width.
  destruct (py_max_ok (take n (num_tokens_no_spec ib))) as (t0 & -> & _ & Hmax).
  { intros Hnil. apply (f_equal length) in Hnil. rewrite length_take in Hnil. cbn in Hnil.
    destruct (bo_n _ _ _ Hb), (bo_arrays _ _ _ Hb). lia. }
  cbn [mbind res_bind]. eexists. split; [reflexivity|]. intros i m Hi Hm. unfold meaningful in Hm.
  destruct (num_tokens_no_spec ib !! i) as [t|] eqn:Et; [|done].
  destruct (spec_token_ids ib !! i) as [s|] eqn:Es; [|done]. cbn in Hm. injection Hm as <-.
  destruct (bo_fits _ _ _ Hb i t s Et Es) as [H0 Hw].
  assert (t <= t0) by (apply Hmax, (list_elem_of_lookup_2 _ i); by rewrite lookup_take_lt).
  destruct (maxZ_spec 0 (len <$> take n (spec_token_ids ib))) as (_ & Hms & _).
  assert (len s <= maxZ 0 (len <$> take n (spec_token_ids ib))).
  { apply Hms, list_elem_of_fmap. exists s. split; [done|]. apply (list_elem_of_lookup_2 _ i).
    by rewrite lookup_take_lt. }
  pose proof (len_nonneg s). lia.
Qed.

Lemma perm_elem perm n k i : perm ≡ₚ py_range (Z.of_nat n) -> perm !! k = Some i ->
  0 <= i < Z.of_nat n.
Proof.
  intros Hp Hk. apply list_elem_of_lookup_2 in Hk. rewrite Hp in Hk. by apply elem_of_seqZ in Hk.
Qed.

Lemma perm_in_range {A} perm n (l : list A) : perm ≡ₚ py_range (Z.of_nat n) -> (n <= length l)%nat ->
  in_range perm l.
Proof.
  intros Hp Hl. apply Forall_forall. intros i [k Hk]%list_elem_of_lookup.
  pose proof (perm_elem _ _ _ _ Hp Hk). unfold len. lia.
Qed.

Lemma perm_length perm n : perm ≡ₚ py_range (Z.of_nat n) -> length perm = n.
Proof. intros Hp. rewrite Hp. unfold py_range. rewrite length_seqZ. lia. Qed.

Lemma tables_spec perm cap (bts : list (list Z * list (list Z))) :
  Forall (fun bt => in_range perm bt.1 /\ in_range perm bt.2) bts ->
  exists bts', mapM (permute_table perm) bts = Ok bts' /\
    forall k i, perm !! k = Some i -> (k < cap)%nat ->
      (fun bt => (bt.1 !! k, bt.2 !! k)) <$> bts' =
      (fun bt : list Z * list (list Z) => (bt.1 !! Z.to_nat i, bt.2 !! Z.to_nat i)) <$> bts.
Proof.
  induction 1 as [|bt bts [H1 H2] _ (bts' & IH & Hk)]; cbn [mapM]; [by exists []|].
  destruct (assign_spec perm bt.1 H1) as (c & Hc & Hcs), (assign_spec perm bt.2 H2) as (r & Hr & Hrs).
  assert (permute_table perm bt = Ok (c, r)) as -> by (unfold permute_table; by rewrite Hc, Hr).
  cbn [mbind res_bind]. rewrite IH. cbn [mbind res_bind]. eexists. split; [reflexivity|].
  intros k i Hki Hcap. rewrite !fmap_cons. rewrite (Hk k i Hki Hcap). cbn [fst snd].
  by rewrite (proj1 (Hcs k) i Hki), (proj1 (Hrs k) i Hki).
Qed.

Lemma token_rows_spec {A} perm n cap ib w (m m' : list (list A)) ib' k i :
  batch_ok n cap ib -> perm ≡ₚ py_range (Z.of_nat n) ->
  Forall (fun row => len row = row_width ib) m -> length m = cap ->
  (forall i m, (i < n)%nat -> meaningful ib i = Some m -> 0 <= m <= w) ->
  (forall k i row, perm !! k = Some i -> m !! Z.to_nat i = Some row ->
    exists row', m' !! k = Some row' /\
      forall n, 0 <= n <= w -> n <= len row -> py_take n row' = py_take n row) ->
  perm !! k = Some i -> meaningful ib' k = meaningful ib (Z.to_nat i) ->
  token_row ib' m' k = token_row ib m (Z.to_nat i).
Proof.
  intros Hb Hp Hw Hl Hm Hrows Hk Heq. unfold token_row. rewrite Heq.
  pose proof (perm_elem _ _ _ _ Hp Hk) as Hi. pose proof (bo_n _ _ _ Hb).
  destruct (meaningful ib (Z.to_nat i)) as [c|] eqn:Ec; [|done]. cbn.
  destruct (lookup_lt_is_Some_2 m (Z.to_nat i)) as [row Hrow]; [lia|]. rewrite Hrow.
  destruct (Hrows k i row Hk Hrow) as (row' & Hr' & Htake). rewrite Hr'. cbn. f_equal.
  apply Htake; [apply (Hm (Z.to_nat i)); [lia|done]|].
  rewrite (Forall_lookup_1 _ _ _ _ Hw Hrow). unfold meaningful in Ec.
  destruct (num_tokens_no_spec ib !! _) as [t|] eqn:Et; [|done].
  destruct (spec_token_ids ib !! _) as [s|] eqn:Es; [|done]. cbn in Ec. injection Ec as <-.
  by apply (bo_fits _ _ _ Hb _ _ _ Et Es).
Qed.

(** Permuting the first slots keeps the index of ids. *)
Lemma ids_indexed_reorder perm n (ids ids' : list (option string)) index :
  perm ≡ₚ py_range (Z.of_nat n) -> (n <= length ids)%nat ->
  (forall k, (forall i, perm !! k = Some i -> ids' !! k = ids !! Z.to_nat i) /\
    ((length perm <= k)%nat -> (length perm <= length ids)%nat -> ids' !! k = ids !! k)) ->
  (forall i id, ids !! i = Some (Some id) -> index !! id = Some (Z.of_nat i)) ->
  forall k id, ids' !! k = Some (Some id) -> reindex (take n ids') index !! id = Some (Z.of_nat k).
Proof.
  intros Hp Hl Hids Hix k id Hk. pose proof (perm_length _ _ Hp) as Hn.
  assert (NoDup perm) as Hnd by (rewrite Hp; apply NoDup_seqZ).
  assert (forall j, (j < n)%nat -> exists i, perm !! j = Some i /\ ids' !! j = ids !! Z.to_nat i /\
    0 <= i < Z.of_nat n) as Hlow.
  { intros j Hj. destruct (lookup_lt_is_Some_2 perm j) as [i Hi]; [lia|]. exists i. split; [done|].
    split; [by apply Hids|by apply (perm_elem perm n j)]. }
  destruct (reindex_spec (take n ids') index id) as [Hout Hin].
  destruct (decide (k < n)%nat) as [Hkn|Hkn].
  - apply Hin; [by rewrite lookup_take_lt|]. intros k' Hk'. apply lookup_take_Some in Hk' as [Hk' Hk'n].
    destruct (Hlow k Hkn) as (i & Hi & Hidk & Hri), (Hlow k' Hk'n) as (i' & Hi' & Hidk' & Hri').
    rewrite Hk in Hidk. rewrite Hk' in Hidk'. symmetry in Hidk, Hidk'. apply Hix in Hidk, Hidk'.
    assert (i = i') as <- by (rewrite Hidk in Hidk'; injection Hidk'; lia).
    by apply (NoDup_lookup _ _ _ _ Hnd Hi' Hi).
  - rewrite (proj2 (Hids k)) in Hk by lia. apply Hix in Hk. rewrite Hout; [done|].
    intros [j Hj]%list_elem_of_lookup. apply lookup_take_Some in Hj as [Hj Hjn].
    destruct (Hlow j Hjn) as (i & _ & Hidj & Hri). rewrite Hj in Hidj. symmetry in Hidj.
    apply Hix in Hidj. rewrite Hk in Hidj. injection Hidj. lia.
Qed.

Lemma embeds_remap perm n ib k i : perm ≡ₚ py_range (Z.of_nat n) -> perm !! k = Some i ->
  od_get (Z.of_nat k) (match req_prompt_embeds ib with [] => [] | d => remap perm d end) =
  od_get (Z.of_nat (Z.to_nat i)) (req_prompt_embeds ib).
Proof.
  intros Hp Hk. pose proof (perm_elem _ _ _ _ Hp Hk). rewrite Z2Nat.id by lia.
  destruct (req_prompt_embeds ib) as [|e es] eqn:Ee; [done|]. rewrite <- Ee. by apply remap_get.
Qed.

(** The fields that both halves of the reordering treat alike. *)
Lemma assign_perm {A} perm n (l : list A) :
  perm ≡ₚ py_range (Z.of_nat n) -> (n <= length l)%nat ->
  exists l', assign perm l = Ok l' /\ forall k,
    (forall i, perm !! k = Some i -> l' !! k = l !! Z.to_nat i) /\
    ((length perm <= k)%nat -> (length perm <= length l)%nat -> l' !! k = l !! k).
Proof. intros Hp Hl. by apply assign_spec, (perm_in_range perm n). Qed.

(** The sampling state a batch keeps when only its requests are permuted. *)
Definition sampling ib :=
  (is_pooling_model ib, temperature ib, top_p ib, top_k ib, frequency_penalties ib,
   presence_penalties ib, repetition_penalties ib, num_accepted_tokens ib, generators ib,
   bad_words_token_ids ib, allowed_token_ids_mask ib).

Lemma permute_requests_spec perm n cap ib :
  batch_ok n cap ib -> perm ≡ₚ py_range (Z.of_nat n) -> ids_indexed ib ->
  exists ib', permute_requests ib perm = Ok ib' /\ sampling ib' = sampling ib /\ ids_indexed ib' /\
    forall k i, perm !! k = Some i -> slot ib' k = slot ib (Z.to_nat i).
Proof.
  intros Hb Hp Hix. pose proof (perm_length _ _ Hp) as Hn. pose proof (bo_n _ _ _ Hb) as Hcap.
  pose proof (fun A l => @assign_perm A perm n l Hp) as Has.
  destruct (valid_width_spec n cap ib Hb) as (w & Ew & Hw).
  destruct (bo_lists _ _ _ Hb) as (L1 & L2 & L3), (bo_arrays _ _ _ Hb) as (L4 & L5 & L6 & L7),
    (bo_rows _ _ _ Hb) as (L8 & L9 & W8 & W9).
  assert (Hall : forall A (l : list A), length l = cap -> (n <= length l)%nat) by lia.
  destruct (Has _ _ L1) as (ids & E1 & S1), (Has _ _ L2) as (outs & E2 & S2), (Has _ _ L3) as (specs & E3 & S3),
    (Has _ _ (Hall _ _ L4)) as (nt & E4 & S4), (Has _ _ (Hall _ _ L5)) as (np & E5 & S5),
    (Has _ _ (Hall _ _ L6)) as (nc & E6 & S6), (Has _ _ (Hall _ _ L7)) as (lora & E7 & S7).
  destruct (assign_columns_spec w perm (token_ids_cpu ib)) as (toks & E8 & S8);
    [apply (perm_in_range perm n); [done|lia]|lia|].
  destruct (assign_columns_spec w perm (is_token_ids ib)) as (istok & E9 & S9);
    [apply (perm_in_range perm n); [done|lia]|lia|].
  destruct (tables_spec perm cap (block_tables ib)) as (tables & E10 & S10).
  { eapply Forall_impl; [apply (bo_tables _ _ _ Hb)|]. intros bt [Ha Hc].
    split; apply (perm_in_range perm n); (done || lia). }
  unfold permute_requests. rewrite Hn, Ew. cbn [mbind res_bind].
  rewrite E1, E2, E3, E4, E5, E6, E8, E9, E10, E7. cbn [mbind res_bind]. cbn zeta.
  eexists. split; [reflexivity|]. split; [reflexivity|].
  match goal with |- ids_indexed ?b /\ _ => set (ib' := b) end. split.
  - intros k id Hk. apply (ids_indexed_reorder perm n (req_ids ib) ids); [done|lia|done|exact Hix|exact Hk].
  - intros k i Hk. assert (meaningful ib' k = meaningful ib (Z.to_nat i)) as Hmean.
    { unfold meaningful, ib'. cbn [num_tokens_no_spec spec_token_ids].
      by rewrite (proj1 (S4 k) i Hk), (proj1 (S3 k) i Hk). }
    assert (k < cap)%nat as Hkc by (apply lookup_lt_Some in Hk; lia).
    unfold slot. change (token_ids_cpu ib') with toks. change (is_token_ids ib') with istok.
    rewrite (token_rows_spec perm n cap ib w _ _ ib' k i Hb Hp W8 L8 Hw S8 Hk Hmean).
    rewrite (token_rows_spec perm n cap ib w _ _ ib' k i Hb Hp W9 L9 Hw S9 Hk Hmean).
    unfold ib'. cbn [req_ids req_output_token_ids spec_token_ids num_tokens_no_spec num_prompt_tokens_
      num_computed_tokens_cpu req_prompt_embeds block_tables request_lora_mapping].
    rewrite (proj1 (S1 k) i Hk), (proj1 (S2 k) i Hk), (proj1 (S3 k) i Hk), (proj1 (S4 k) i Hk),
      (proj1 (S5 k) i Hk), (proj1 (S6 k) i Hk), (proj1 (S7 k) i Hk), (S10 k i Hk Hkc).
    by rewrite (embeds_remap perm n ib k i Hp Hk).
Qed.

Lemma permute_sampling_spec perm n cap ib :
  (n <= cap)%nat -> perm ≡ₚ py_range (Z.of_nat n) -> sampling_ok cap ib ->
  exists ib', permute_sampling ib perm = Ok ib' /\ (ids_indexed ib -> ids_indexed ib') /\
    forall k i, perm !! k = Some i ->
      slot ib' k = slot ib k /\ sampling_slot ib' k = sampling_slot ib (Z.to_nat i).
Proof.
  intros Hcap Hp (M1 & M2 & M3 & M4 & M5 & M6 & M7 & Mmask).
  pose proof (fun A (l : list A) (Hl : length l = cap) => assign_perm perm n l Hp (Nat.le_trans _ _ _ Hcap (Nat.eq_le_incl _ _ (eq_sym Hl)))) as Has.
  destruct (Has _ _ M1) as (a1 & F1 & R1), (Has _ _ M2) as (a2 & F2 & R2), (Has _ _ M3) as (a3 & F3 & R3),
    (Has _ _ M4) as (a4 & F4 & R4), (Has _ _ M5) as (a5 & F5 & R5), (Has _ _ M6) as (a6 & F6 & R6),
    (Has _ _ M7) as (a7 & F7 & R7).
  unfold permute_sampling. rewrite F1, F2, F3, F4, F5, F6, F7. cbn [mbind res_bind].
  assert (exists mask', match allowed_token_ids_mask ib with
           | None => Ok None | Some rows => rows ← assign perm rows; Ok (Some rows) end = Ok mask' /\
    forall k i, perm !! k = Some i -> (fun mask => mask !! k) <$> mask' =
      (fun mask => mask !! Z.to_nat i) <$> allowed_token_ids_mask ib) as (mask' & -> & Rmask).
  { destruct (allowed_token_ids_mask ib) as [mask|] eqn:Em; [|by exists None].
    destruct (Has _ _ (Mmask mask eq_refl)) as (mask' & Fm & Rm). rewrite Fm. eexists. split; [reflexivity|].
    intros k i Hk. cbn. by rewrite (proj1 (Rm k) i Hk). }
  cbn [mbind res_bind]. eexists. split; [reflexivity|]. split; [done|].
  intros k i Hk. split; [reflexivity|]. unfold sampling_slot.
  cbn [temperature top_p top_k frequency_penalties presence_penalties repetition_penalties num_accepted_tokens
    generators bad_words_token_ids allowed_token_ids_mask].
  pose proof (perm_elem _ _ _ _ Hp Hk). rewrite Z2Nat.id by lia.
  by rewrite (proj1 (R1 k) i Hk), (proj1 (R2 k) i Hk), (proj1 (R3 k) i Hk), (proj1 (R4 k) i Hk),
    (proj1 (R5 k) i Hk), (proj1 (R6 k) i Hk), (proj1 (R7 k) i Hk), (Rmask k i Hk),
    (remap_get perm (generators ib) k i Hk), (remap_get perm (bad_words_token_ids ib) k i Hk).
Qed.

(** C29: Reordering moves whole requests.  For a permutation of the slots in use it returns,
    and slot [k] then holds everything that slot [perm[k]] held: its id, outputs, drafts and
    counters, its tokens with its drafts (only the columns in use are copied), embeddings,
    block-table rows and, for a generating model, its sampling state; the index from ids to
    slots stays exact. *)
Theorem reorder_moves_requests perm n cap ib :
  batch_ok n cap ib -> perm ≡ₚ py_range (Z.of_nat n) -> ids_indexed ib ->
  exists ib', reorder_input_batch ib perm = Ok ib' /\ ids_indexed ib' /\
    forall k i, perm !! k = Some i ->
      slot ib' k = slot ib (Z.to_nat i) /\
      (is_pooling_model ib = false -> sampling_slot ib' k = sampling_slot ib (Z.to_nat i)).
Proof.
  intros Hb Hp Hix.
  destruct (permute_requests_spec perm n cap ib Hb Hp Hix) as (ib1 & E1 & Hs & Hix1 & Hslot).
  unfold reorder_input_batch. rewrite E1. cbn [mbind res_bind].
  unfold sampling in Hs. injection Hs as Hpool Htemp Htp Htk Hfp Hpp Hrp Hacc Hgen Hbad Hmask.
  rewrite Hpool. destruct (is_pooling_model ib) eqn:Epool.
  { exists ib1. split_and!; [done|done|]. intros k i Hk. split; [by apply Hslot|done]. }
  destruct (permute_sampling_spec perm n cap ib1 (proj2 (bo_n _ _ _ Hb)) Hp) as (ib2 & E2 & Hix2 & Hslot2).
  { unfold sampling_ok. rewrite Htemp, Htp, Htk, Hfp, Hpp, Hrp, Hacc, Hmask. apply (bo_sampling _ _ _ Hb). }
  exists ib2. split; [done|]. split; [by apply Hix2|]. intros k i Hk.
  destruct (Hslot2 k i Hk) as [H1 H2]. split; [rewrite H1; by apply Hslot|]. intros _. rewrite H2.
  unfold sampling_slot. by rewrite Htemp, Htp, Htk, Hfp, Hpp, Hrp, Hacc, Hgen, Hbad, Hmask.
Qed.
End reorder.

(** ** Small instances *)
Module WorkerToy.
(** Two NUMA nodes of four hardware threads on two cores each. *)
Definition cpus : list LogicalCPUInfo :=
  [mkCPU 0 0 0; mkCPU 1 1 0; mkCPU 2 2 1; mkCPU 3 3 1; mkCPU 4 0 0; mkCPU 5 1 0; mkCPU 6 2 1; mkCPU 7 3 1].

Lemma first_cpu_drops l : first_cpu l ⊆+ l.
Proof. unfold first_cpu, py_take. apply sublist_submseteq, sublist_take. Qed.

(** Two requests in three slots, the second with a draft token. *)
Definition batch : InputBatch Z Z Z :=
  mkBatch [Some "a"; Some "b"] [[3]; []] [[]; [9]] {["a" := 0; "b" := 1]}
    [3; 2; 0] [2; 2; 0] [2; 1; 0] [[1; 2; 3; 0]; [7; 8; 9; 0]; [0; 0; 0; 0]]
    [[true; true; true; false]; [true; true; true; false]; [false; false; false; false]] 4
    [] [([1; 1; 0], [[4]; [5]; [0]])] [0; 0; 0] false
    [10; 11; 0] [10; 11; 0] [1; 2; 0] [0; 0; 0] [0; 0; 0] [0; 0; 0] [1; 1; 1]
    [(1, 42)] [] None.

Lemma batch_fine : batch_ok 2 3 batch.
Proof.
  split; try done; try lia.
  - split_and!; [done|done| |]; repeat constructor.
  - repeat constructor.
  - intros [|[|[|i]]] t s Ht Hs; cbn in Ht, Hs; simplify_eq; vm_compute; by split.
Qed.

Lemma batch_indexed : ids_indexed batch.
Proof.
  intros [|[|[|i]]] id Hi; cbn in Hi; simplify_eq; vm_compute; reflexivity.
Qed.
End WorkerToy.

Lemma cpu_binding_exclusive_witness :
  autobind [0; 1] WorkerToy.cpus first_cpu 0 4 = Ok (BindCpus [0]) /\
  autobind [0; 1] WorkerToy.cpus first_cpu 2 4 = Ok (BindCpus [1]) /\
  ((forall id, id ∈ [0] -> id ∈ cpu_id <$> WorkerToy.cpus) /\ (forall id, id ∈ [0] -> id ∉ [1])).
Proof.
  split; [vm_compute; reflexivity|]. split; [vm_compute; reflexivity|].
  refine (proj1 (proj2 (cpu_binding_exclusive first_cpu WorkerToy.first_cpu_drops [0; 1] WorkerToy.cpus
    _ _ 4 0 2 ltac:(lia) ltac:(lia) ltac:(lia))) [0] [1] _ _).
  - apply (bool_decide_unpack _). vm_compute. exact I.
  - apply (bool_decide_unpack _). vm_compute. exact I.
  - vm_compute. reflexivity.
  - vm_compute. reflexivity.
Defined.

Lemma reorder_moves_requests_witness : exists ib',
  reorder_input_batch WorkerToy.batch [1; 0] = Ok ib' /\
  slot ib' 0 = slot WorkerToy.batch 1 /\ sampling_slot ib' 1 = sampling_slot WorkerToy.batch 0.
Proof.
  destruct (reorder_moves_requests [1; 0] 2 3 WorkerToy.batch WorkerToy.batch_fine) as (ib' & Hr & _ & Hall).
  - apply Permutation_swap.
  - exact WorkerToy.batch_indexed.
  - exists ib'. split; [done|]. split.
    + exact (proj1 (Hall 0%nat 1 eq_refl)).
    + exact (proj2 (Hall 1%nat 0 eq_refl) eq_refl).
Defined.
