(* ===== verification/DynamicKvSizer.v ===== *)
(** * Dynamic sizing of the KV cache ([src/vllm_rbln/v1/worker/dynamic_kv_sizer.py],
    [src/vllm_rbln/patches/dynamic_kv.py])

    The worker's state machine -- shrink, capture, snapshot, size, release, reallocate,
    materialize -- and the engine's patch that reduces the ranks' answers to one count and
    hands it to the workers and the scheduler.

    The device runtime and the model runner's allocation are not modelled: [Device] names
    the calls made of them over an abstract device state [E].  A call may raise; what it
    changed before stays changed, so the monad keeps the state beside the result.  Logging
    is left out, except for the computations of the dry-run report that can raise. *)

From S2P Require Import Prelude VllmTypes CoreUtils KvPlacement WorkerUtils.
From Stdlib Require Import SpecFloat.

Inductive DynamicKvMode := DISABLED | INERT | PINNED | DRY_RUN | ACTIVE.

#[export] Instance dynamic_kv_mode_eq_dec : EqDecision DynamicKvMode.
Proof. solve_decision. Defined.

Definition resolve_mode (use_dynamic_kv dry_run : bool) (num_gpu_blocks_override : option Z)
    (compile_skip_reason : option SkipReason) : DynamicKvMode :=
  if negb use_dynamic_kv then DISABLED
  else match compile_skip_reason with
       | Some _ => INERT
       | None =>
           if dry_run then DRY_RUN
           else match num_gpu_blocks_override with Some _ => PINNED | None => ACTIVE end
       end.

(** [refuse]: an error, but not in a dry run. *)
Definition refuse (mode : DynamicKvMode) : res unit :=
  if decide (mode = DRY_RUN) then Ok tt else Raise RuntimeError.

Definition COMPILE_KV_CACHE_NUM_BLOCKS : Z := 4.
Definition DYNAMIC_KV_ALLOCATOR_RESERVE_BYTES : Z := 48 * 1024 * 1024.
Definition DYNAMIC_KV_COPY_STREAM_RESERVE_BYTES : Z := 64 * 1024 * 1024.

(** A rescaled copy of the configuration. *)
Definition kv_cache_config_at (cfg : KVCacheConfig) (n : Z) : res KVCacheConfig :=
  rescale_kv_cache_config cfg n.

Class Device (E : Type) := {
  is_dummy_device : E -> bool;
  (** queries a [torch_rbln] may lack *)
  mem_get_info_per_chiplet : option (E -> res (odict string Z));
  memory_per_chiplet : option (E -> Z);
  memory_stats_per_chiplet : E -> odict string Z;
  has_capture_programs : bool;
  (** [None]: the query raised, or there is no device *)
  device_count : E -> option Z;
  (** of one device; a failure is swallowed and leaves the state *)
  empty_cache : Z -> E -> E;
  (** the device holding the worker's KV cache *)
  own_device : Z;
  (** dropping the runner's last references to the KV tensors *)
  drop_kv_cache : E -> E;
  initialize_kv_cache_tensors : KVCacheConfig -> E -> E;
  dummy_run : Z -> E -> E;
  reset_adaptive_buffers : Z -> E -> E
}.

Record KvSizing := mkSizing {
  sz_num_blocks : Z;
  sz_fits : odict Unit UnitFit;
  sz_hint_blocks : Z;
  sz_growth : KvGrowth;
  sz_if_resident : option Z
}.

(** What does not change: the mode and the static configuration it reads. *)
Record SizerConfig := mkSizerConfig {
  mode : DynamicKvMode;
  gpu_memory_utilization : spec_float;
  foreign_dram_used_bytes : Z;
  (** of [sub_block_size_in_use] *)
  enable_prefix_caching : bool;
  enable_sub_block_cache : bool;
  block_size : Z;
  max_num_batched_tokens : Z;
  cache_groups : list KVCacheSpec;
  sub_block_size : option Z;
  is_cr13 : bool;
  (** [is_causal] and [is_normal] of every attention layer; layers that share a cache *)
  attention_impls : list (option bool * option bool);
  num_shared_layers : Z;
  decode_batch_buckets : list Z;
  (** of [minimum_kv_blocks] *)
  max_model_len : Z;
  max_in_flight_tokens : Z;
  max_num_seqs : Z;
  kv_groups : list KvGroup;
  (** bytes of one request of maximal length *)
  one_request_bytes : Z
}.

Section sizer.
Context {E : Type} `{D : Device E}.
Variable cfg : SizerConfig.

(** The sizer and the parts of the runner and of the cache configuration it changes. *)
Record Sizer := mkSizer {
  kv_blocks_before_shrink : option Z;
  (** the captured programs with the identity of their runtime *)
  programs : list (Program * Z);
  expected_used : odict Unit Z;
  runner_cfg : KVCacheConfig;
  (** [model_runner.kv_caches] is not empty *)
  kv_bound : bool;
  num_gpu_blocks : Z;
  dev : E
}.

Definition set_before_shrink x (s : Sizer) : Sizer :=
  mkSizer x (programs s) (expected_used s) (runner_cfg s) (kv_bound s) (num_gpu_blocks s) (dev s).
Definition set_programs x (s : Sizer) : Sizer :=
  mkSizer (kv_blocks_before_shrink s) x (expected_used s) (runner_cfg s) (kv_bound s)
    (num_gpu_blocks s) (dev s).
Definition set_expected x (s : Sizer) : Sizer :=
  mkSizer (kv_blocks_before_shrink s) (programs s) x (runner_cfg s) (kv_bound s)
    (num_gpu_blocks s) (dev s).
Definition set_runner_cfg x (s : Sizer) : Sizer :=
  mkSizer (kv_blocks_before_shrink s) (programs s) (expected_used s) x (kv_bound s)
    (num_gpu_blocks s) (dev s).
Definition set_bound x (s : Sizer) : Sizer :=
  mkSizer (kv_blocks_before_shrink s) (programs s) (expected_used s) (runner_cfg s) x
    (num_gpu_blocks s) (dev s).
Definition set_num_gpu_blocks x (s : Sizer) : Sizer :=
  mkSizer (kv_blocks_before_shrink s) (programs s) (expected_used s) (runner_cfg s) (kv_bound s)
    x (dev s).
Definition set_dev x (s : Sizer) : Sizer :=
  mkSizer (kv_blocks_before_shrink s) (programs s) (expected_used s) (runner_cfg s) (kv_bound s)
    (num_gpu_blocks s) x.

(** *** The monad: a result, an exception included, and the state it leaves *)

Definition M (A : Type) : Type := Sizer -> res A * Sizer.

Definition ret {A} (a : A) : M A := fun s => (Ok a, s).
Definition bind {A B} (m : M A) (f : A -> M B) : M B := fun s =>
  match m s with (Ok a, s) => f a s | (Raise e, s) => (Raise e, s) end.
Definition lift {A} (r : res A) : M A := fun s => (r, s).
Definition gets {A} (f : Sizer -> A) : M A := fun s => (Ok (f s), s).
Definition modify (f : Sizer -> Sizer) : M unit := fun s => (Ok tt, f s).

Notation "'let*' x ':=' m 'in' k" := (bind m (fun x => k))
  (at level 10, x pattern, m at level 100, k at level 200).
Notation "m ';*' k" := (bind m (fun _ => k)) (at level 100, right associativity).

(** *** Snapshots *)

Definition empty_rbln_device_caches : M bool :=
  let* count := gets (fun s => device_count (dev s)) in
  match count with
  | None => ret false
  | Some n =>
      modify (fun s => set_dev (foldl (fun e i => empty_cache i e) (dev s) (py_range n)) s) ;*
      ret (0 <? n)
  end.

Definition allocator_snapshot : M (odict Unit ChipletMemory) :=
  match memory_per_chiplet with
  | None => lift (Raise RuntimeError)
  | Some per_chiplet =>
      modify (fun s => set_dev (empty_cache own_device (dev s)) s) ;*
      let* e := gets dev in
      lift (snapshot_from_allocator (memory_stats_per_chiplet e) (per_chiplet e)
              (foreign_dram_used_bytes cfg) DYNAMIC_KV_ALLOCATOR_RESERVE_BYTES)
  end.

Definition memory_snapshot : M (odict Unit ChipletMemory) :=
  match mem_get_info_per_chiplet with
  | None => allocator_snapshot
  | Some query =>
      let* e := gets dev in
      match (stats ← query e; snapshot_from_driver stats) with
      | Ok snapshot => ret snapshot
      | Raise RuntimeError => allocator_snapshot
      | Raise err => lift (Raise err)
      end
  end.

Definition copy_stream_reserve_bytes : res Z :=
  in_use ← sub_block_size_in_use (enable_prefix_caching cfg) (enable_sub_block_cache cfg)
             (block_size cfg) (max_num_batched_tokens cfg) (cache_groups cfg) (sub_block_size cfg)
             (is_cr13 cfg);
  Ok (match in_use with Some _ => DYNAMIC_KV_COPY_STREAM_RESERVE_BYTES | None => 0 end).

(** *** Before the compilation *)

(** [estimate]: [estimate_available_memory] with the worker's arguments, given the snapshot
    and whether the exact DRAM figure is wanted. *)
Definition pre_compile_estimate
    (estimate : option (odict Unit ChipletMemory) -> bool -> res Z) : M Z :=
  match mode cfg with
  | DISABLED => lift (estimate None false)
  | _ =>
      let exact := bool_decide (mode cfg = ACTIVE) in
      let* dummy := gets (fun s => is_dummy_device (dev s)) in
      let* chiplets :=
        (if dummy then ret None
         else
           let* snapshot := memory_snapshot in
           if decide (mode cfg = DRY_RUN) then
             lift (estimate (Some snapshot) true) ;* ret None
           else ret (Some snapshot)) in
      let* bytes := lift (estimate chiplets exact) in
      ret (if exact && (bytes <? one_request_bytes cfg) then one_request_bytes cfg else bytes)
  end.

Definition shrink_for_compile (kv_cache_config : KVCacheConfig) : M KVCacheConfig :=
  if decide (mode cfg = ACTIVE) then
    if num_blocks kv_cache_config <=? COMPILE_KV_CACHE_NUM_BLOCKS then lift (Raise RuntimeError)
    else
      let* shrunk := lift (kv_cache_config_at kv_cache_config COMPILE_KV_CACHE_NUM_BLOCKS) in
      modify (set_before_shrink (Some (num_blocks kv_cache_config))) ;*
      ret shrunk
  else ret kv_cache_config.

Definition passive (m : DynamicKvMode) : bool := bool_decide (m = DISABLED \/ m = INERT).

Definition assert_attention_layout : res unit :=
  if passive (mode cfg) then Ok tt
  else
    let offender := fun impl : option bool * option bool =>
      negb (bool_decide (impl = (Some true, Some false))) in
    if existsb offender (attention_impls cfg) then refuse (mode cfg) else Ok tt.

Definition assert_cache_layout : res unit :=
  if passive (mode cfg) then Ok tt
  else if negb (num_shared_layers cfg =? 0) then refuse (mode cfg) else Ok tt.

(** Whether a capture scope is opened. *)
Definition capture_programs : res bool :=
  if decide (mode cfg = DISABLED) then Ok false
  else if has_capture_programs then Ok true
  else if decide (mode cfg = DRY_RUN) then Ok false else Raise RuntimeError.

Definition record_programs (new : list (Program * Z)) : M unit :=
  modify (fun s => set_programs (programs s ++ new) s).

(** The runtimes of the captured programs, each once, in first-seen order. *)
Definition collect_runtimes (s : Sizer) : list Z :=
  foldl (fun seen p => if bool_decide (p.2 ∈ seen) then seen else seen ++ [p.2]) [] (programs s).

(** *** Sizing *)

Definition spec_of (kv : KvInput) : InputSpec := mkInput kv.1 (Some kv.2).

Definition specs_covering_tensors (groups : list (list KvInput * Program)) (num_tensors : Z)
    : res (list KvInput) :=
  let flat := concat groups.*1 in
  if len flat =? num_tensors then Ok flat
  else if forallb (fun g => len g.1 =? num_tensors) groups then
    g ← of_option (head groups) RuntimeError; Ok g.1
  else Raise RuntimeError.

Definition kv_growth_from_programs : M (KvGrowth * Z) :=
  let* progs := gets programs in
  let* groups := lift (select_kv_input_groups progs.*1) in
  let* c := gets runner_cfg in
  let* specs := lift (specs_covering_tensors groups (len (kv_cache_tensors c))) in
  let* growth := lift (kv_growth (spec_of <$> specs) (num_blocks c)) in
  ret (growth, num_blocks c).

(** [{unit: fits[unit].base + predicted[unit] for unit in predicted}] *)
Definition expectation (fits : odict Unit UnitFit) (predicted : odict Unit Z) : res (odict Unit Z) :=
  mapM (fun kv => f ← of_option (od_get kv.1 fits) KeyError; Ok (kv.1, fit_base f + kv.2)) predicted.

Definition size_kv_from_snapshot (growth : KvGrowth) (kv_resident : odict Unit Z)
    : M (Z * odict Unit UnitFit * odict Unit ChipletMemory * Z) :=
  let* snapshot := memory_snapshot in
  let* reserve_bytes := lift copy_stream_reserve_bytes in
  let* (n, fits) :=
    lift (max_num_blocks snapshot growth (gpu_memory_utilization cfg) kv_resident reserve_bytes) in
  if n <=? 0 then lift (Raise RuntimeError)
  else
    let* predicted := lift (allocated_at growth n) in
    let* expected := lift (expectation fits predicted) in
    modify (set_expected expected) ;*
    ret (n, fits, snapshot, reserve_bytes).

Definition release_kv_cache_tensors : M unit :=
  modify (fun s => set_dev (drop_kv_cache (dev s)) (set_bound false s)) ;*
  let* _ := empty_rbln_device_caches in ret tt.

Definition size_kv_and_release : M KvSizing :=
  let* (growth, hint_blocks) := kv_growth_from_programs in
  let* _ := memory_snapshot in
  release_kv_cache_tensors ;*
  let* (n, fits, after, _) := size_kv_from_snapshot growth [] in
  let* _ := lift (allocated_at growth hint_blocks) in
  ret (mkSizing n fits hint_blocks growth None).

Definition propose_kv_size : M KvSizing :=
  let* (growth, hint_blocks) := kv_growth_from_programs in
  let* resident := lift (allocated_at growth hint_blocks) in
  let* (n, fits, snapshot, reserve_bytes) := size_kv_from_snapshot growth resident in
  let* (if_resident, _) :=
    lift (max_num_blocks snapshot growth (gpu_memory_utilization cfg) [] reserve_bytes) in
  ret (mkSizing n fits hint_blocks growth (Some if_resident)).

(** What the dry-run report computes of the sizing and can raise. *)
Definition log_dry_run (sz : KvSizing) : M unit :=
  let* now := lift (allocated_at (sz_growth sz) (sz_hint_blocks sz)) in
  let* proposed := lift (allocated_at (sz_growth sz) (sz_num_blocks sz)) in
  let* _ := lift (mapM (fun kv : Unit * UnitFit =>
                     a ← of_option (od_get kv.1 now) KeyError;
                     b ← of_option (od_get kv.1 proposed) KeyError;
                     py_floordiv (fit_budget kv.2 - fit_base kv.2 - a) (fit_per_block kv.2))
                   (sz_fits sz)) in
  let* _ := lift (minimum_kv_blocks (max_model_len cfg) (max_in_flight_tokens cfg)
                    (max_num_seqs cfg) (kv_groups cfg)) in
  ret tt.

Definition compute_num_blocks : M (option Z) :=
  if decide (mode cfg = PINNED) then ret None
  else
    let dry_run := bool_decide (mode cfg = DRY_RUN) in
    let* shrunk := gets kv_blocks_before_shrink in
    let* progs := gets programs in
    let* dummy := gets (fun s => is_dummy_device (dev s)) in
    if negb dry_run && bool_decide (shrunk = None) then ret None
    else if dry_run && bool_decide (progs.*1 = []) then ret None
    else if dummy then ret None
    else if dry_run then
      fun s =>
        match propose_kv_size s with
        | (Raise RuntimeError, s) => (Ok None, s)
        | (Raise e, s) => (Raise e, s)
        | (Ok sz, s) => (log_dry_run sz ;* ret None) s
        end
    else
      let* sz := size_kv_and_release in ret (Some (sz_num_blocks sz)).

(** *** Applying the engine's count *)

Definition materialize : M unit :=
  let* num_reqs := lift (py_min (decode_batch_buckets cfg)) in
  modify (fun s => set_dev (dummy_run num_reqs (dev s)) s).

Definition reallocate (n : Z) : M unit :=
  let* old := gets runner_cfg in
  let* new := lift (kv_cache_config_at old n) in
  modify (fun s => set_runner_cfg new (set_num_gpu_blocks n s)) ;*
  let* bound := gets kv_bound in
  (if bound : bool then release_kv_cache_tensors else ret tt) ;*
  modify (fun s => set_bound true (set_dev (initialize_kv_cache_tensors new (dev s)) s)) ;*
  modify (fun s => set_dev (foldl (fun e r => reset_adaptive_buffers r e) (dev s)
                              (collect_runtimes s)) s).

(** [log_fit_check]: only its snapshot can raise. *)
Definition log_fit_check : M unit := let* _ := memory_snapshot in ret tt.

Definition apply_num_blocks (n : option Z) : M (option Z) :=
  let* before_shrink := gets kv_blocks_before_shrink in
  match (match n with None => before_shrink | Some _ => n end) with
  | None => ret None
  | Some target =>
      modify (set_before_shrink None) ;*
      let* current := gets (fun s => num_blocks (runner_cfg s)) in
      let* bound := gets kv_bound in
      let* dummy := gets (fun s => is_dummy_device (dev s)) in
      if (target =? current) && bound then ret (Some target)
      else if bool_decide (n = None) && dummy then ret (Some current)
      else
        reallocate target ;* materialize ;*
        let* expected := gets expected_used in
        (if negb (bool_decide (n = None)) && negb (bool_decide (expected = []))
         then log_fit_check else ret tt) ;*
        ret (Some target)
  end.
End sizer.

(** ** The engine's patch *)

Section engine.
Context {E : Type} `{D : Device E}.

(** A worker: its configuration and its state. *)
Definition Worker : Type := SizerConfig * @Sizer E.

(** [collective_rpc] of one call: every worker in turn; the first exception ends it. *)
Definition rpc {A} (call : SizerConfig -> M A) (workers : list Worker)
    : res (list A * list Worker) :=
  answers ← mapM (fun w : Worker => match call w.1 w.2 with
                                    | (Ok a, s) => Ok (a, (w.1, s))
                                    | (Raise e, _) => Raise e
                                    end) workers;
  Ok (answers.*1, answers.*2).

Definition resolve_rank_num_blocks (num_blocks_per_rank : list (option Z)) : res (option Z) :=
  if forallb (fun n => bool_decide (n = None)) num_blocks_per_rank then Ok None
  else if existsb (fun n => bool_decide (n = None)) num_blocks_per_rank then Raise RuntimeError
  else n ← py_min (omap id num_blocks_per_rank); Ok (Some n).

Definition assert_kv_cache_minimum (c : SizerConfig) (kv_cache_config : KVCacheConfig) : res unit :=
  minimum ← minimum_kv_blocks (max_model_len c) (max_in_flight_tokens c) (max_num_seqs c) (kv_groups c);
  if needed minimum <=? num_blocks kv_cache_config then Ok tt else Raise ValueError.

(** [patched_initialize_kv_caches] behind the original function, which left the workers and
    [kv_cache_config]; [c]: the engine's configuration. *)
Definition patched_initialize_kv_caches (num_gpu_blocks_override : option Z) (dry_run : bool)
    (c : SizerConfig) (kv_cache_config : KVCacheConfig) (workers : list Worker)
    : res (KVCacheConfig * list Worker) :=
  match num_gpu_blocks_override with
  | Some _ =>
      if dry_run then '(_, workers) ← rpc compute_num_blocks workers; Ok (kv_cache_config, workers)
      else Ok (kv_cache_config, workers)
  | None =>
      '(answers, workers) ← rpc compute_num_blocks workers;
      resolved ← resolve_rank_num_blocks answers;
      match resolved with
      | None =>
          '(_, workers) ← rpc (fun c => apply_num_blocks c None) workers;
          Ok (kv_cache_config, workers)
      | Some n =>
          '(_, workers) ← rpc (fun c => apply_num_blocks c (Some n)) workers;
          resized ← rescale_kv_cache_config kv_cache_config n;
          _ ← assert_kv_cache_minimum c resized;
          Ok (resized, workers)
      end
  end.
End engine.
