(* ===== verification/DynamicKvSizerSpec.v ===== *)
(** * Dynamic sizing of the KV cache: what it guarantees

    The theorems about [DynamicKvSizer]: only the active mode resizes, the shrink is undone
    exactly, the workers and the scheduler end up with one count -- and that this count, the
    least of the ranks', need not fit every rank. *)

From S2P Require Import Prelude VllmTypes CoreUtils KvPlacement WorkerUtils KvPlacementSpec DynamicKvSizer.
From Stdlib Require Import SpecFloat.

Section sizer.
Context {E : Type} `{D : Device E}.
Implicit Types s : @Sizer E.
Implicit Types c : SizerConfig.

(** ** Reasoning about the monad *)

Lemma bind_Ok {A B} (m : M A) (f : A -> M B) s b s2 :
  bind m f s = (Ok b, s2) -> exists a s1, m s = (Ok a, s1) /\ f a s1 = (Ok b, s2).
Proof. unfold bind. destruct (m s) as [[a|e] s1]; [eauto|done]. Qed.

(** A relation between the states before and after a call, whatever its result. *)
Definition keeps {A} (R : @Sizer E -> @Sizer E -> Prop) (m : M A) : Prop :=
  forall s, R s (m s).2.

Section keeps.
Variable R : @Sizer E -> @Sizer E -> Prop.
Context `{!PreOrder R}.

Lemma keeps_bind {A B} (m : M A) (f : A -> M B) :
  keeps R m -> (forall a, keeps R (f a)) -> keeps R (bind m f).
Proof.
  intros Hm Hf s. specialize (Hm s). unfold bind. destruct (m s) as [[a|e] s1]; [|exact Hm].
  cbn in Hm. etransitivity; [exact Hm|apply Hf].
Qed.

Lemma keeps_ret {A} (a : A) : keeps R (ret a).
Proof. intros s. cbn. reflexivity. Qed.

Lemma keeps_lift {A} (r : res A) : keeps R (lift r).
Proof. intros s. cbn. reflexivity. Qed.

Lemma keeps_gets {A} (f : @Sizer E -> A) : keeps R (gets f).
Proof. intros s. cbn. reflexivity. Qed.

Lemma keeps_modify f : (forall s, R s (f s)) -> keeps R (modify f).
Proof. intros Hf s. apply Hf. Qed.
End keeps.

(** Everything but the device state, and everything but it and what sizing writes. *)
Definition view s := (kv_blocks_before_shrink s, programs s, runner_cfg s, num_gpu_blocks s).

Definition only_dev s s' : Prop := exists e, s' = set_dev e s.
Definition same_view s s' : Prop := view s' = view s /\ kv_bound s' = kv_bound s.
Definition same_but_bound s s' : Prop := view s' = view s.

#[export] Instance only_dev_preorder : PreOrder only_dev.
Proof.
  split; [intros s; exists (dev s); by destruct s|].
  intros s1 s2 s3 [e ->] [e' ->]. by exists e'.
Qed.

#[export] Instance same_view_preorder : PreOrder same_view.
Proof. split; [by intros s|]. intros s1 s2 s3 [H1 H2] [H3 H4]. split; congruence. Qed.

#[export] Instance same_but_bound_preorder : PreOrder same_but_bound.
Proof. split; [by intros s|]. unfold same_but_bound. intros s1 s2 s3 H1 H2. congruence. Qed.

Lemma keeps_mono {A} (R R' : @Sizer E -> @Sizer E -> Prop) (m : M A) :
  (forall s s', R s s' -> R' s s') -> keeps R m -> keeps R' m.
Proof. intros HR Hm s. apply HR, Hm. Qed.

Lemma only_dev_same s s' : only_dev s s' -> same_view s s'.
Proof. by intros [e ->]. Qed.

Lemma same_view_but s s' : same_view s s' -> same_but_bound s s'.
Proof. by intros [H _]. Qed.
End sizer.

Create HintDb keeps.

(** Walks down a call. *)
Ltac keep :=
  repeat (first
    [ progress intros | solve [eauto with keeps] | apply keeps_ret; typeclasses eauto | apply keeps_lift; typeclasses eauto
    | apply keeps_gets; typeclasses eauto
    | apply keeps_bind; [typeclasses eauto| |]
    | case_match ]).

Section sizer2.
Context {E : Type} `{D : Device E}.
Implicit Types s : @Sizer E.
Implicit Types c : SizerConfig.

Lemma empty_caches_only_dev : keeps only_dev (@empty_rbln_device_caches E D).
Proof. unfold empty_rbln_device_caches. keep. apply keeps_modify. intros s. by eexists. Qed.

Lemma snapshot_only_dev c : keeps only_dev (memory_snapshot (E := E) c).
Proof.
  assert (keeps only_dev (allocator_snapshot (E := E) c)) as Ha.
  { unfold allocator_snapshot. keep. apply keeps_modify. intros s. by eexists. }
  unfold memory_snapshot. keep; exact Ha.
Qed.

Lemma snapshot_view c : keeps same_view (memory_snapshot (E := E) c).
Proof. eapply keeps_mono; [apply only_dev_same|apply snapshot_only_dev]. Qed.

Lemma empty_caches_view : keeps same_view (@empty_rbln_device_caches E D).
Proof. eapply keeps_mono; [apply only_dev_same|apply empty_caches_only_dev]. Qed.
Hint Resolve snapshot_view empty_caches_view : keeps.

Lemma size_from_snapshot_view c g r : keeps same_view (size_kv_from_snapshot (E := E) c g r).
Proof. unfold size_kv_from_snapshot. keep. apply keeps_modify. by intros s. Qed.

Lemma growth_view : keeps same_view (kv_growth_from_programs (E := E)).
Proof. unfold kv_growth_from_programs. keep. Qed.
Hint Resolve size_from_snapshot_view growth_view : keeps.

Lemma propose_view c : keeps same_view (propose_kv_size (E := E) c).
Proof. unfold propose_kv_size. keep. Qed.

Lemma log_dry_run_view c sz : keeps same_view (log_dry_run (E := E) c sz).
Proof. unfold log_dry_run. keep. Qed.

Lemma keeps_weaken {A} (m : @M E A) : keeps same_view m -> keeps same_but_bound m.
Proof. apply keeps_mono, same_view_but. Qed.
Hint Resolve keeps_weaken : keeps.

Lemma release_but_bound : keeps same_but_bound (@release_kv_cache_tensors E D).
Proof.
  unfold release_kv_cache_tensors. keep. apply keeps_modify. by intros s.
Qed.
Hint Resolve release_but_bound : keeps.

Lemma size_and_release_but_bound c : keeps same_but_bound (size_kv_and_release (E := E) c).
Proof. unfold size_kv_and_release. keep. Qed.

(** Sizing never changes the cache's configuration, and outside the active mode it releases
    nothing either. *)
Lemma compute_but_bound c : keeps same_but_bound (compute_num_blocks (E := E) c).
Proof.
  unfold compute_num_blocks. keep.
  intros s. pose proof (propose_view c s) as Hp.
  destruct (propose_kv_size c s) as [[sz|e] s1]; cbn in Hp |- *; [|by case_match; apply same_view_but].
  apply same_view_but. etransitivity; [exact Hp|].
  pose proof (log_dry_run_view c sz s1) as Hl. unfold bind. by destruct (log_dry_run c sz s1) as [[|] s2].
Qed.

(** Only the active mode resizes.  In every other mode shrinking hands the
    configuration back, sizing answers no count and leaves the cache, its configuration and
    the counts alone (in a dry run whatever it raises), and applying no count does
    nothing. *)
Theorem only_active_resizes c s : mode c <> ACTIVE -> kv_blocks_before_shrink s = None ->
  (forall kc, shrink_for_compile c kc s = (Ok kc, s)) /\
  (forall n, (compute_num_blocks c s).1 <> Ok (Some n)) /\
  same_view s (compute_num_blocks c s).2 /\
  apply_num_blocks c None (compute_num_blocks c s).2 = (Ok None, (compute_num_blocks c s).2).
Proof.
  intros Hm Hs. assert ((forall n, (compute_num_blocks c s).1 <> Ok (Some n)) /\
    same_view s (compute_num_blocks c s).2) as [Hno Hview].
  { unfold compute_num_blocks. case_decide as Hp; [done|]. unfold bind, gets, ret. rewrite Hs.
    destruct (decide (mode c = DRY_RUN)) as [Hd|Hd].
    2:{ rewrite (bool_decide_false (mode c = DRY_RUN)) by done. cbn [negb]. rewrite bool_decide_true by done. done. }
    rewrite (bool_decide_true (mode c = DRY_RUN)) by done. cbn [negb andb]. case_bool_decide; [done|].
    destruct (is_dummy_device (dev s)); [done|].
    pose proof (propose_view c s) as Hpv. destruct (propose_kv_size c s) as [[sz|e] s1]; cbn in Hpv.
    - pose proof (log_dry_run_view c sz s1) as Hl. destruct (log_dry_run c sz s1) as [[u|e] s2]; cbn in Hl |- *;
        (split; [done|]); etransitivity; eauto.
    - by destruct e. }
  split; [intros kc; unfold shrink_for_compile; by case_decide|]. split; [exact Hno|]. split; [exact Hview|].
  destruct Hview as [Hv _]. set (s' := (compute_num_blocks c s).2) in *. clearbody s'.
  unfold apply_num_blocks, bind, gets, ret. unfold view in Hv. injection Hv as Hb _ _ _.
  by rewrite Hb, Hs.
Qed.

(** ** Shrinking and restoring *)

(** The sizes of the tensors are multiples of the number of blocks. *)
Definition paged (kc : KVCacheConfig) : Prop :=
  Forall (fun t => exists page, tensor_size t = page * num_blocks kc) (kv_cache_tensors kc).

Lemma rescale_twice kc a b : 0 < num_blocks kc -> 0 < a -> 0 < b -> paged kc ->
  exists kc1 kc2, rescale_kv_cache_config kc a = Ok kc1 /\ rescale_kv_cache_config kc1 b = Ok kc2 /\
    num_blocks kc1 = a /\ rescale_kv_cache_config kc b = Ok kc2.
Proof.
  intros Hn Ha Hb Hp. unfold rescale_kv_cache_config. rewrite (proj2 (Z.leb_gt _ 0)) by lia.
  eexists _, _. split; [reflexivity|]. cbn [num_blocks kv_cache_tensors].
  rewrite (proj2 (Z.leb_gt a 0)) by lia. split; [reflexivity|]. split; [done|]. do 2 f_equal.
  rewrite <- list_fmap_compose. induction Hp as [|t ts [page Ht] _ IH]; [done|].
  rewrite !fmap_cons, IH. f_equal. cbn. f_equal. rewrite Ht.
  rewrite <- (Z.div_unique_exact (page * num_blocks kc * a) (num_blocks kc) (page * a)) by lia.
  rewrite <- (Z.div_unique_exact (page * num_blocks kc * b) (num_blocks kc) (page * b)) by lia.
  apply Z.div_unique_exact; lia.
Qed.

Lemma rescale_same kc : 0 < num_blocks kc -> rescale_kv_cache_config kc (num_blocks kc) = Ok kc.
Proof.
  intros Hn. unfold rescale_kv_cache_config. rewrite (proj2 (Z.leb_gt _ 0)) by lia. f_equal.
  destruct kc as [n ts]. cbn in *. f_equal. induction ts as [|[sz sh] ts IH]; [done|].
  rewrite fmap_cons, IH. cbn. by rewrite Z.div_mul by lia.
Qed.

(** The worker after [initialize_kv_cache] on the shrunk configuration. *)
Definition initialized (kc : KVCacheConfig) s : @Sizer E := set_bound true (set_runner_cfg kc s).

(** What reallocating leaves. *)
Lemma reallocate_spec c n s new : rescale_kv_cache_config (runner_cfg s) n = Ok new ->
  exists s', reallocate n s = (Ok tt, s') /\ runner_cfg s' = new /\ kv_bound s' = true /\
    num_gpu_blocks s' = n /\ kv_blocks_before_shrink s' = kv_blocks_before_shrink s /\
    expected_used s' = expected_used s.
Proof.
  intros Hr. unfold reallocate, bind, gets, lift, modify, ret, kv_cache_config_at. rewrite Hr.
  unfold release_kv_cache_tensors, empty_rbln_device_caches, bind, gets, lift, modify, ret.
  cbn [kv_bound set_runner_cfg set_num_gpu_blocks]. destruct (kv_bound s); [|by eexists].
  destruct (device_count _); by eexists.
Qed.

Lemma apply_none_eq c t s : kv_blocks_before_shrink s = Some t ->
  (t =? num_blocks (runner_cfg s)) && kv_bound s = false -> is_dummy_device (dev s) = false ->
  apply_num_blocks c None s =
    bind (reallocate t) (fun _ => bind (materialize c) (fun _ => ret (Some t))) (set_before_shrink None s).
Proof.
  intros Hb Hc Hd. unfold apply_num_blocks, bind, gets, modify, ret. rewrite Hb.
  cbn [runner_cfg kv_bound dev set_before_shrink]. rewrite Hc, Hd, (bool_decide_true (None = None)) by done.
  cbn [andb negb]. destruct (reallocate t _) as [[u|e] s1]; [|done].
  by destruct (materialize c s1) as [[u'|e] s2].
Qed.

(** The shrink is undone exactly.  In the active mode a configuration of more than four
    blocks is compiled at four, and when no count is settled on, applying none puts the
    original configuration back, tensor sizes included, with the cache bound again; a second
    call does nothing. *)
Theorem shrink_then_restore c kc s : mode c = ACTIVE -> COMPILE_KV_CACHE_NUM_BLOCKS < num_blocks kc ->
  paged kc -> decode_batch_buckets c <> [] -> is_dummy_device (dev s) = false ->
  exists shrunk s1, shrink_for_compile c kc s = (Ok shrunk, s1) /\
    num_blocks shrunk = COMPILE_KV_CACHE_NUM_BLOCKS /\
    exists s2, apply_num_blocks c None (initialized shrunk s1) = (Ok (Some (num_blocks kc)), s2) /\
      runner_cfg s2 = kc /\ kv_bound s2 = true /\ num_gpu_blocks s2 = num_blocks kc /\
      apply_num_blocks c None s2 = (Ok None, s2).
Proof.
  unfold COMPILE_KV_CACHE_NUM_BLOCKS. intros Hm Hn Hp Hbuckets Hdummy.
  destruct (rescale_twice kc 4 (num_blocks kc) ltac:(lia) ltac:(lia) ltac:(lia) Hp)
    as (shrunk & kc2 & H1 & H2 & H3 & H4).
  rewrite rescale_same in H4 by lia. injection H4 as <-.
  assert (shrink_for_compile c kc s = (Ok shrunk, set_before_shrink (Some (num_blocks kc)) s)) as Hshrink.
  { unfold shrink_for_compile, COMPILE_KV_CACHE_NUM_BLOCKS, bind, lift, modify, ret, kv_cache_config_at.
    rewrite decide_True by done. rewrite (proj2 (Z.leb_gt _ 4)) by lia. by rewrite H1. }
  eexists shrunk, _. split; [exact Hshrink|]. split; [done|].
  set (s1 := initialized _ _). destruct (reallocate_spec c (num_blocks kc) (set_before_shrink None s1) kc H2)
    as (s2 & Hre & Hcfg & Hbound & Hgpu & Hbefore & _).
  destruct (py_min_ok (decode_batch_buckets c) Hbuckets) as (nr & Hmin & _).
  exists (set_dev (dummy_run nr (dev s2)) s2). split_and!; try done.
  - rewrite (apply_none_eq c (num_blocks kc) s1); [|done| |done].
    + unfold bind at 1. rewrite Hre. unfold materialize, bind, lift, modify. by rewrite Hmin.
    + cbn [s1 initialized runner_cfg set_bound set_runner_cfg]. rewrite H3.
      by rewrite (proj2 (Z.eqb_neq (num_blocks kc) 4)) by lia.
  - unfold apply_num_blocks, bind, gets, ret. cbn. by rewrite Hbefore.
Qed.

(** ** One count for everybody *)

Lemma apply_some_spec c n s a s' : apply_num_blocks c (Some n) s = (Ok a, s') ->
  a = Some n /\ num_blocks (runner_cfg s') = n /\ kv_bound s' = true /\ kv_blocks_before_shrink s' = None.
Proof.
  intros Ha. unfold apply_num_blocks in Ha.
  apply bind_Ok in Ha as (b & sa & [= <- <-] & Ha). apply bind_Ok in Ha as (u & s1 & [= <- <-] & Ha).
  apply bind_Ok in Ha as (cur & sb & [= <- <-] & Ha). apply bind_Ok in Ha as (bd & sc & [= <- <-] & Ha).
  apply bind_Ok in Ha as (dm & sd & [= <- <-] & Ha). destruct (_ && _) eqn:Ec in Ha.
  { injection Ha as <- <-. apply andb_true_iff in Ec as [En Eb]. zbool. cbn in *. split_and!; congruence. }
  rewrite bool_decide_false in Ha by done. cbn [andb] in Ha.
  apply bind_Ok in Ha as (u & s2 & Hre & Ha). apply bind_Ok in Ha as (u' & s3 & Hmat & Ha).
  assert (exists new, rescale_kv_cache_config (runner_cfg s) n = Ok new) as [new Hnew].
  { unfold reallocate in Hre. apply bind_Ok in Hre as (old & s4 & [= <- <-] & Hre).
    apply bind_Ok in Hre as (new & s4 & Hnew & _). unfold lift in Hnew. injection Hnew as Hnew _. by exists new. }
  destruct (reallocate_spec c n (set_before_shrink None s) new Hnew) as (s2' & Hre' & Hcfg & Hbound & _ & Hbefore & _).
  rewrite Hre in Hre'. injection Hre' as _ <-.
  assert (same_view s2 s') as [Hview Hb].
  { transitivity s3.
    - unfold materialize in Hmat. apply bind_Ok in Hmat as (nr & s4 & [= _ <-] & [= _ <-]). done.
    - apply bind_Ok in Ha as (ex & s4 & [= <- <-] & Ha). apply bind_Ok in Ha as (u2 & s4 & Hlog & [= _ <-]).
      destruct (_ && _) in Hlog; [|by injection Hlog as _ <-].
      pose proof (snapshot_view c s3) as Hs. unfold log_fit_check in Hlog.
      apply bind_Ok in Hlog as (sn & s5 & Hsn & [= _ <-]). by rewrite Hsn in Hs. }
  assert (a = Some n) as ->.
  { apply bind_Ok in Ha as (ex & s4 & _ & Ha). apply bind_Ok in Ha as (u2 & s5 & _ & [= <- _]). done. }
  unfold view in Hview. injection Hview as Hv1 _ Hv2 _. split; [done|].
  rewrite Hv2, Hcfg, Hv1, Hbefore, Hb, Hbound. split_and!; try done.
  unfold rescale_kv_cache_config in Hnew. destruct (_ <=? 0); [done|]. by injection Hnew as <-.
Qed.

(** A settled count is positive. *)
Lemma size_kv_positive c g r s a s' : size_kv_from_snapshot c g r s = (Ok a, s') -> 0 < a.1.1.1.
Proof.
  intros Ha. unfold size_kv_from_snapshot in Ha.
  apply bind_Ok in Ha as (sn & s1 & _ & Ha). apply bind_Ok in Ha as (rb & s2 & _ & Ha).
  apply bind_Ok in Ha as ([n fits] & s3 & _ & Ha). destruct (n <=? 0) eqn:En; [done|].
  apply bind_Ok in Ha as (pr & s4 & _ & Ha). apply bind_Ok in Ha as (ex & s5 & _ & Ha).
  apply bind_Ok in Ha as (u & s6 & _ & Ha). injection Ha as <- _. cbn. lia.
Qed.

Lemma compute_positive c s n s' : compute_num_blocks c s = (Ok (Some n), s') -> 0 < n.
Proof.
  intros Ha. unfold compute_num_blocks in Ha. destruct (decide (mode c = PINNED)); [done|].
  apply bind_Ok in Ha as (b & s1 & _ & Ha). apply bind_Ok in Ha as (p & s2 & _ & Ha).
  apply bind_Ok in Ha as (d & s3 & _ & Ha).
  destruct (negb _ && _); [done|]. destruct (_ && _); [done|]. destruct d; [done|].
  destruct (bool_decide _).
  { destruct (propose_kv_size c s3) as [[sz|[]] s4]; try done.
    apply bind_Ok in Ha as (u & s5 & _ & Ha). done. }
  apply bind_Ok in Ha as (sz & s4 & Hsz & Ha). injection Ha as <- _.
  unfold size_kv_and_release in Hsz. apply bind_Ok in Hsz as ([g h] & s5 & _ & Hsz).
  apply bind_Ok in Hsz as (m & s6 & _ & Hsz). apply bind_Ok in Hsz as (u & s7 & _ & Hsz).
  apply bind_Ok in Hsz as ([[[k fits] aft] rb] & s8 & Hk & Hsz).
  apply bind_Ok in Hsz as (al & s9 & _ & Hsz). injection Hsz as <- _.
  exact (size_kv_positive _ _ _ _ _ _ Hk).
Qed.
End sizer2.

(** ** All ranks *)

Section engine.
Context {E : Type} `{D : Device E}.
Implicit Types ws : list (@Worker E).

Lemma rpc_Ok {A} (call : SizerConfig -> @M E A) (P : A -> @Sizer E -> Prop) ws answers ws' :
  (forall c s a s', call c s = (Ok a, s') -> P a s') -> rpc call ws = Ok (answers, ws') ->
  Forall2 (fun a w => P a w.2) answers ws' /\ ws'.*1 = ws.*1.
Proof.
  intros HP. unfold rpc. revert answers ws'. induction ws as [|[c s] ws IH]; intros answers ws' Hr.
  { cbn in Hr. injection Hr as <- <-. by split. }
  cbn [mapM fst snd] in Hr. destruct (call c s) as [[a|e] s'] eqn:Ea; [|done].
  cbn [mbind res_bind] in Hr. destruct (mapM _ ws) as [l|e]; [|done].
  cbn [mbind res_bind] in Hr. injection Hr as <- <-.
  destruct (IH l.*1 l.*2 eq_refl) as [H1 H2]. rewrite !fmap_cons. cbn [fst snd].
  split; [constructor; [exact (HP _ _ _ _ Ea)|done]|]. cbn. by f_equal.
Qed.

Lemma resolve_rank_None answers : resolve_rank_num_blocks answers = Ok None ->
  Forall (fun n => n = None) answers.
Proof.
  unfold resolve_rank_num_blocks. destruct (forallb _ answers) eqn:Ef.
  - intros _. rewrite forallb_forall in Ef. apply Forall_forall. intros n Hn.
    specialize (Ef n ltac:(by rewrite <- list_elem_of_In)). by zbool.
  - destruct (existsb _ answers); [done|]. by destruct (py_min _).
Qed.

(** The count is the least answer, and no rank went without one. *)
Lemma resolve_rank_Some answers n : resolve_rank_num_blocks answers = Ok (Some n) ->
  Some n ∈ answers /\ Forall (fun a => exists k, a = Some k /\ n <= k) answers.
Proof.
  unfold resolve_rank_num_blocks. destruct (forallb _ answers) eqn:Ef; [done|].
  destruct (existsb _ answers) eqn:Ee; [done|]. intros Hm.
  assert (forall a, a ∈ answers -> exists k, a = Some k) as Hsome.
  { intros a Ha. pose proof (existsb_false_elem _ _ _ Ee Ha) as Hne. zbool. destruct a; [by eexists|done]. }
  destruct (py_min_ok (omap id answers)) as (m & Hpm & Hin & Hmin).
  { destruct answers as [|a l]; [done|]. destruct (Hsome a ltac:(left)) as [k ->]. done. }
  rewrite Hpm in Hm. injection Hm as <-. split.
  - apply list_elem_of_omap in Hin as (a & Ha & Hid). unfold id in Hid. by subst a.
  - apply Forall_forall. intros a Ha. destruct (Hsome a Ha) as [k ->]. exists k. split; [done|].
    apply Hmin, list_elem_of_omap. by exists (Some k).
Qed.

(** The state in which a resized worker serves. *)
Definition serves (n : Z) (s : @Sizer E) : Prop :=
  num_blocks (runner_cfg s) = n /\ kv_bound s = true /\ kv_blocks_before_shrink s = None.

Lemma compute_answers c s a s' : compute_num_blocks c s = (Ok a, s') -> forall n, a = Some n -> 0 < n.
Proof. intros Hc n ->. exact (compute_positive _ _ _ _ Hc). Qed.

Lemma apply_serves n c s a s' : apply_num_blocks c (Some n) s = (Ok a, s') -> serves n s'.
Proof. intros Hc. exact (proj2 (apply_some_spec _ _ _ _ _ Hc)). Qed.

(** C22: when the engine resizes, everybody ends up with one count.  Without an override,
    either no rank settled on a count and the scheduler keeps its configuration, or every
    rank did, and then the scheduler's configuration and every worker's have the same
    positive number of blocks, which is no more than any rank asked for and no less than
    the configured context needs; every worker has its cache bound and no shrink left to
    undo. *)
Theorem resized_ranks_agree c kc ws dry_run kc' ws' :
  patched_initialize_kv_caches None dry_run c kc ws = Ok (kc', ws') ->
  exists answers ws1, rpc compute_num_blocks ws = Ok (answers, ws1) /\ ws'.*1 = ws.*1 /\
    ((kc' = kc /\ Forall (fun a => a = None) answers) \/
     exists n minimum, 0 < n /\ num_blocks kc' = n /\ Some n ∈ answers /\
       Forall (fun a => exists k, a = Some k /\ n <= k) answers /\
       minimum_kv_blocks (max_model_len c) (max_in_flight_tokens c) (max_num_seqs c) (kv_groups c)
         = Ok minimum /\ needed minimum <= n /\
       Forall (fun w => serves n w.2) ws').
Proof.
  cbn [patched_initialize_kv_caches]. intros Hp.
  destruct (rpc compute_num_blocks ws) as [[answers ws1]|e] eqn:Er; [|done]. cbn [mbind res_bind] in Hp.
  exists answers, ws1. split; [done|].
  destruct (rpc_Ok _ (fun a _ => forall n, a = Some n -> 0 < n) _ _ _ compute_answers Er) as [Hpos Hfst].
  destruct (resolve_rank_num_blocks answers) as [[n|]|e] eqn:Erk; [| |done]; cbn [mbind res_bind] in Hp.
  - destruct (rpc _ ws1) as [[answers2 ws2]|e] eqn:Ea in Hp; [|done]. cbn [mbind res_bind] in Hp.
    destruct (rpc_Ok _ (fun _ => serves n) _ _ _ (apply_serves n) Ea) as [Hs Hfst2].
    destruct (rescale_kv_cache_config kc n) as [kc2|e] eqn:Ek; [|done]. cbn [mbind res_bind] in Hp.
    unfold assert_kv_cache_minimum in Hp.
    destruct (minimum_kv_blocks _ _ _ _) as [minimum|e] eqn:Em; [|done]. cbn [mbind res_bind] in Hp.
    destruct (needed minimum <=? num_blocks kc2) eqn:El; [|done]. cbn [mbind res_bind] in Hp.
    injection Hp as <- <-. zbool. split; [congruence|]. right.
    assert (num_blocks kc2 = n) as Hn.
    { unfold rescale_kv_cache_config in Ek. destruct (_ <=? 0); [done|]. by injection Ek as <-. }
    apply resolve_rank_Some in Erk as [Hin Hall]. exists n, minimum. split_and!; try done; [|lia|].
    + destruct (list_elem_of_lookup_1 _ _ Hin) as [i Hi].
      destruct (Forall2_lookup_l _ _ _ _ _ Hpos Hi) as (w & _ & Hw). by apply Hw.
    + apply Forall_forall. intros w Hw. destruct (list_elem_of_lookup_1 _ _ Hw) as [i Hi].
      by destruct (Forall2_lookup_r _ _ _ _ _ Hs Hi) as (a & _ & ?).
  - destruct (rpc _ ws1) as [[answers2 ws2]|e] eqn:Ea in Hp; [|done]. cbn [mbind res_bind] in Hp.
    injection Hp as <- <-.
    destruct (rpc_Ok _ (fun _ _ => True) _ _ _ (fun _ _ _ _ _ => I) Ea) as [_ Hfst2].
    split; [congruence|]. left. split; [done|]. by apply resolve_rank_None.
Qed.
End engine.

(** ** A concrete device, two ranks, and the least count *)

Module SizerToy.
Definition MiB : Z := 1024 * 1024.

(** One chiplet of one GiB; the state is the bytes in use outside the KV cache, which is
    never measured while it is allocated. *)
Definition device : Device Z := {|
  is_dummy_device := fun _ => false;
  mem_get_info_per_chiplet :=
    Some (fun used => Ok [("npu.0.chiplet.0.total"%string, 1024 * MiB);
                          ("npu.0.chiplet.0.used"%string, used)]);
  memory_per_chiplet := None;
  memory_stats_per_chiplet := fun _ => [];
  has_capture_programs := true;
  device_count := fun _ => Some 1;
  empty_cache := fun _ used => used;
  own_device := 0;
  drop_kv_cache := fun used => used;
  initialize_kv_cache_tensors := fun _ used => used;
  dummy_run := fun _ used => used;
  reset_adaptive_buffers := fun _ used => used
|}.
#[export] Existing Instance device.

(** The one KV input of a rank: a shard of [row] bytes a block. *)
Definition kv_input (row : Z) : InputSpec :=
  mkInput [4; row] (Some (mkPlacement [DimTuple "symbol" [DimOther]; DimInt row] "uint8"
    [mkShard 0 0 [DimTuple "symbol" [DimOther]; DimInt row]])).

Definition growth (row : Z) : KvGrowth := mkGrowth [((0, 0), row)] 4 1 [kv_input row].

(** 0.5 *)
Definition half : spec_float := S754_finite false 4503599627370496 (-53).

Definition config (m : DynamicKvMode) : SizerConfig :=
  mkSizerConfig m half 0 false false 16 128 [] None true [] 0 [8; 2; 4] 32 32 1
    [mkKvGroup 32 16 None false] 0.

Definition cache (row n : Z) : KVCacheConfig := mkKvConfig n [mkTensor (row * n) ["layer.0"%string]].

(** A rank that was shrunk from sixteen blocks and compiled, with [room] for the cache. *)
Definition rank (row room : Z) : @Worker Z :=
  (config ACTIVE,
   mkSizer (Some 16) [(mkProgram "decode" [kv_input row], 7)] [] (cache row 4) true 16 (512 * MiB - room)).

Definition ranks : list (@Worker Z) := [rank (3 * MiB) (13 * MiB); rank (4 * MiB) (15 * MiB)].
Definition cache0 : KVCacheConfig := cache (3 * MiB) 16.

(** What the first rank measures. *)
Definition snapshot : odict Unit ChipletMemory := [((0, 0), mkMemory (1024 * MiB) (499 * MiB))].
End SizerToy.
Import SizerToy.

Lemma only_active_resizes_witness : SizerToy.config DRY_RUN = SizerToy.config DRY_RUN /\
  exists s' : @Sizer Z,
    apply_num_blocks (SizerToy.config DRY_RUN) None s' = (Ok None, s') /\
    num_blocks (runner_cfg s') = 4.
Proof.
  split; [done|].
  pose (s := set_before_shrink None (SizerToy.rank (3 * SizerToy.MiB) (13 * SizerToy.MiB)).2).
  destruct (only_active_resizes (SizerToy.config DRY_RUN) s ltac:(done) eq_refl) as (_ & _ & Hv & Ha).
  revert Hv Ha. generalize (compute_num_blocks (SizerToy.config DRY_RUN) s).2. intros s' [Hv _] Ha.
  exists s'. split; [exact Ha|]. exact (f_equal (fun v => num_blocks v.1.2) Hv).
Defined.

Lemma shrink_then_restore_witness : exists shrunk (s1 s2 : @Sizer Z),
  shrink_for_compile (SizerToy.config ACTIVE) SizerToy.cache0
    (set_before_shrink None (SizerToy.rank (3 * SizerToy.MiB) 0).2) = (Ok shrunk, s1) /\
  apply_num_blocks (SizerToy.config ACTIVE) None (initialized shrunk s1) = (Ok (Some 16), s2) /\
  runner_cfg s2 = SizerToy.cache0.
Proof.
  destruct (shrink_then_restore (SizerToy.config ACTIVE) SizerToy.cache0
    (set_before_shrink None (SizerToy.rank (3 * SizerToy.MiB) 0).2))
    as (shrunk & s1 & Hs & _ & s2 & Ha & Hc & _).
  - reflexivity.
  - reflexivity.
  - apply Forall_singleton. by eexists.
  - discriminate.
  - reflexivity.
  - by exists shrunk, s1, s2.
Defined.

Lemma resized_ranks_agree_witness : exists kc' ws' n,
  patched_initialize_kv_caches None false (SizerToy.config ACTIVE) SizerToy.cache0 SizerToy.ranks
    = Ok (kc', ws') /\ num_blocks kc' = n /\ n = 3 /\ Forall (fun w => serves n w.2) ws'.
Proof.
  destruct (patched_initialize_kv_caches None false (SizerToy.config ACTIVE) SizerToy.cache0 SizerToy.ranks)
    as [[kc' ws']|e] eqn:E; [|vm_compute in E; discriminate].
  destruct (resized_ranks_agree _ _ _ _ _ _ E)
    as (answers & ws1 & _ & _ & [[-> _]|(n & m & _ & Hn & _ & _ & _ & _ & Hs)]);
    [vm_compute in E; discriminate|].
  exists kc', ws', n. split; [done|]. split; [done|]. split; [|done].
  vm_compute in E. injection E as <- _. by rewrite <- Hn.
Defined.

(** The least of the ranks' counts need not fit every rank.  Here the engine settles on
    the three blocks of the second rank and the first one takes them, although it had
    measured that three blocks of its cache do not fit its memory: it asked for four,
    which do. *)
Theorem rank_minimum_may_not_fit : exists kc' ws' w,
  patched_initialize_kv_caches None false (SizerToy.config ACTIVE) SizerToy.cache0 SizerToy.ranks
    = Ok (kc', ws') /\
  num_blocks kc' = 3 /\ ws' !! 0%nat = Some w /\ num_blocks (runner_cfg w.2) = 3 /\
  fits_at SizerToy.snapshot SizerToy.half [] 0 (SizerToy.growth (3 * SizerToy.MiB)) 4 /\
  ~ fits_at SizerToy.snapshot SizerToy.half [] 0 (SizerToy.growth (3 * SizerToy.MiB)) 3.
Proof.
  destruct (patched_initialize_kv_caches None false (SizerToy.config ACTIVE) SizerToy.cache0 SizerToy.ranks)
    as [[kc' ws']|e] eqn:E; vm_compute in E; [|discriminate]. injection E as <- <-.
  eexists _, _, _. split; [reflexivity|]. split; [reflexivity|]. split; [reflexivity|].
  split; [reflexivity|]. split.
  - eexists. split; [vm_compute; reflexivity|]. intros u c Hu.
    apply elem_of_odict, list_elem_of_singleton in Hu; [|apply (bool_decide_unpack _); exact I].
    injection Hu as -> ->.
    eexists _, _, _. split; [reflexivity|]. split; [vm_compute; reflexivity|]. split; [reflexivity|].
    vm_compute. discriminate.
  - intros (alloc & Ha & Hall). vm_compute in Ha. injection Ha as <-.
    destruct (Hall (0, 0) _ eq_refl) as (mem & b & a & Hm & Hb & Hg & Hle).
    injection Hm as <-. vm_compute in Hb. injection Hb as <-. injection Hg as <-.
    by vm_compute in Hle.
Qed.
