(* ===== verification/RejectionSampler.v ===== *)
(** * Rejection sampling of draft tokens ([src/vllm_rbln/v1/sample/rbln_rejection_sampler.py],
    [src/vllm_rbln/v1/sample/ops/top_k_top_p.py])

    The two implementations behind [RBLNRejectionSampler.forward]: the PyTorch kernels, and
    the padded inputs and the output assembly of the compiled NPU operation.

    A tensor is the list of its rows.  Floating point values, softmax, argmax, top-k/top-p
    filtering and the NPU operation belong to PyTorch and to the device: [Torch] names them
    over a type [F] of floating point values.  What the generators draw -- the uniform and the
    exponential numbers -- is an argument.  Token ids are int32 in the code and stay far below
    its bounds.  Slice assignment checks shapes and broadcasts a single value, as PyTorch does. *)

From S2P Require Import Prelude.

Definition PLACEHOLDER_TOKEN_ID : Z := -1.
Definition GREEDY_TOP_K : Z := 1.

Class Torch (F : Type) := {
  f_zero : F;
  f_one : F;
  f_eqb : F -> F -> bool;
  f_geb : F -> F -> bool;
  f_gtb : F -> F -> bool;
  f_sub : F -> F -> F;
  f_div : F -> F -> F;
  f_max : F -> F -> F;
  (** [.to(torch.float32)] and [.to(torch.float64)] *)
  f32 : F -> F;
  f64 : F -> F;
  softmax : list F -> list F;
  argmax : list F -> Z;
  apply_top_k_top_p : list (list F) -> option (list Z) -> option (list F) -> list (list F);
  (** [torch.ops.rbln.rejection_sample]: drafts, probabilities, cumulative counts, top-k and
      top-p; the recovered tokens and the number of accepted drafts of each request *)
  op_rejection_sample : list Z -> list (list F) -> list Z -> option (list Z) -> option (list F)
    -> list (list Z) * list Z
}.

(** ** Tensors *)

(** [t[:n] = v] *)
Definition assign_prefix {A} (n : Z) (v t : list A) : res (list A) :=
  let target := py_take n t in
  if len v =? len target then Ok (v ++ drop (length target) t)
  else match v with
       | [x] => Ok (repeat x (length target) ++ drop (length target) t)
       | _ => Raise RuntimeError
       end.

(** [t[i] = x] *)
Definition assign_at {A} (i : Z) (x : A) (t : list A) : res (list A) :=
  if (0 <=? i) && (i <? len t) then Ok (<[Z.to_nat i := x]> t) else Raise IndexError.

(** An update of one row. *)
Definition with_row {A} (i : Z) (f : list A -> res (list A)) (t : list (list A))
    : res (list (list A)) :=
  row ← of_option (py_nth t i) IndexError; row ← f row; assign_at i row t.

(** An element-wise operation on two vectors. *)
Definition zip_tensor {A B C} (f : A -> B -> C) (l : list A) (k : list B) : res (list C) :=
  if len l =? len k then Ok (zip_with f l k)
  else match l, k with
       | _, [y] => Ok ((fun x => f x y) <$> l)
       | [x], _ => Ok (f x <$> k)
       | _, _ => Raise RuntimeError
       end.

(** [int(mask.argmax())], guarded by [mask.any()]. *)
Fixpoint first_true (mask : list bool) : option Z :=
  match mask with
  | [] => None
  | true :: _ => Some 0
  | false :: mask => (fun k => k + 1) <$> first_true mask
  end.

(** [start[1:] = cu[:-1]] on zeros; [lens = end - start] *)
Definition starts (cu : list Z) : list Z :=
  match cu with [] => [] | _ => 0 :: removelast cu end.

Definition lens (cu : list Z) : list Z := zip_with Z.sub cu (starts cu).

Section sampler.
Context {F : Type} `{T : Torch F}.
Implicit Types probs : list (list F).

Record SamplingMetadata := mkMeta {
  temperature : option (list F);
  all_greedy : bool;
  all_random : bool;
  top_k : option (list Z);
  top_p : option (list F);
  (** the requests that own a generator *)
  generators : list Z;
  max_num_logprobs : option Z;
  logprob_token_ids : bool
}.

Definition GREEDY_TEMPERATURE : F := f_zero.

(** ** The PyTorch kernels *)

Definition replace_value {A} (eqb : A -> A -> bool) (replace_from replace_to x : A) : A :=
  if negb (eqb replace_from replace_to) && eqb x replace_from then replace_to else x.

Definition torch_expand_kernel {A} (eqb : A -> A -> bool) (input : list A) (cu_num_tokens : list Z)
    (num_tokens : Z) (replace_from replace_to : A) : res (list A) :=
  let counts := lens cu_num_tokens in
  if negb (len input =? len counts) || existsb (fun c => c <? 0) counts then Raise RuntimeError
  else
    let expanded := concat (zip_with (fun x c => repeat x (Z.to_nat c)) input counts) in
    let expanded := replace_value eqb replace_from replace_to <$> expanded in
    Ok (if len expanded =? num_tokens then expanded
        else if num_tokens <? len expanded then py_take num_tokens expanded
        else expanded ++ repeat replace_to (Z.to_nat (num_tokens - len expanded))).

Definition expand_batch_to_tokens {A} (eqb : A -> A -> bool) (x : list A) (cu_num_tokens : list Z)
    (num_tokens : Z) (replace_from replace_to : A) : res (list A) :=
  assert! (len cu_num_tokens =? len x);
  torch_expand_kernel eqb x cu_num_tokens num_tokens replace_from replace_to.

(** [TorchRejectionSamplerImpl.apply_sampling_constraints] *)
Definition apply_sampling_constraints (logits : list (list F)) (cu_num_draft_tokens : list Z)
    (m : SamplingMetadata) : res (list (list F)) :=
  if all_greedy m then Ok logits
  else
    let num_tokens := len logits in
    t ← of_option (temperature m) AttributeError;
    temperature ← expand_batch_to_tokens f_eqb t cu_num_draft_tokens num_tokens
                    GREEDY_TEMPERATURE f_one;
    logits ← zip_tensor (fun row t => (fun x => f_div x t) <$> row) logits temperature;
    top_k ← match top_k m with
            | None => Ok None
            | Some k => k ← expand_batch_to_tokens Z.eqb k cu_num_draft_tokens num_tokens 0 0;
                        Ok (Some k)
            end;
    top_p ← match top_p m with
            | None => Ok None
            | Some p => p ← expand_batch_to_tokens f_eqb p cu_num_draft_tokens num_tokens
                              f_zero f_zero;
                        Ok (Some p)
            end;
    Ok (apply_top_k_top_p logits top_k top_p).

(** Drafts up to the first rejected one, then its replacement; all drafts and the bonus
    token when none is rejected. *)
Definition emit (n : Z) (drafts : list Z) (replacement : Z -> res Z) (bonus : Z)
    (accept : list bool) (row : list Z) : res (list Z) :=
  match first_true (negb <$> accept) with
  | Some k =>
      row ← (if 0 <? k then assign_prefix k (py_take k drafts) row else Ok row);
      x ← replacement k;
      assign_at k x row
  | None => row ← assign_prefix n drafts row; assign_at n bonus row
  end.

Definition valid_id (vocab_size d : Z) : bool := (0 <=? d) && (d <? vocab_size).

(** One request with drafts of the greedy kernel.  The rates take the type of the uniform
    numbers, which are float64. *)
Definition greedy_request (vocab_size n : Z) (drafts target : list Z) (bonus : Z)
    (synthetic : option (list F * list F)) (row : list Z) : res (list Z) :=
  match synthetic with
  | Some (u, rates) =>
      below ← zip_tensor (fun u r => f_gtb r u) u (f64 <$> py_take n rates);
      accepted ← zip_tensor (fun b d => b && valid_id vocab_size d) below drafts;
      emit n drafts (fun k => of_option (py_nth target k) IndexError) bonus accepted row
  | None =>
      mismatch ← zip_tensor (fun d t => negb (d =? t)) drafts target;
      match first_true mismatch with
      | Some k => assign_prefix (k + 1) (py_take (k + 1) target) row
      | None => row ← assign_prefix n target row; assign_at n bonus row
      end
  end.

(** The loop over requests that both kernels share; [go]: a request's turn in it, given the
    bounds of its drafts. *)
Definition each_request (cu : list Z) (mask : list bool) (batch_size : Z) (bonus_token_ids : list Z)
    (go : Z -> Z -> Z -> Z -> list Z -> res (list Z)) (output_token_ids : list (list Z))
    : res (list (list Z)) :=
  foldM (fun out req_idx =>
    mine ← of_option (py_nth mask req_idx) IndexError;
    if negb mine then Ok out
    else
      n ← of_option (py_nth (lens cu) req_idx) IndexError;
      bonus ← of_option (py_nth bonus_token_ids req_idx) IndexError;
      if n =? 0 then with_row req_idx (assign_at 0 bonus) out
      else
        s ← of_option (py_nth (starts cu) req_idx) IndexError;
        with_row req_idx (go n s (s + n) bonus) out)
    output_token_ids (py_range batch_size).

Definition torch_rejection_greedy_sample_kernel (output_token_ids : list (list Z)) (cu : list Z)
    (draft_token_ids target_argmax bonus_token_ids : list Z) (is_greedy : option (list bool))
    (batch_size vocab_size : Z) (uniform_probs synthetic_conditional_rates : option (list F))
    (synthetic_mode : bool) : res (list (list Z)) :=
  let mask := default (repeat true (Z.to_nat batch_size)) is_greedy in
  each_request cu mask batch_size bonus_token_ids
    (fun n s e bonus row =>
       synthetic ←
         (if synthetic_mode then
            u ← of_option uniform_probs AssertionError;
            rates ← of_option synthetic_conditional_rates AssertionError;
            Ok (Some (py_slice u s e, rates))
          else Ok None);
       greedy_request vocab_size n (py_slice draft_token_ids s e) (py_slice target_argmax s e)
         bonus synthetic row)
    output_token_ids.

Definition clamp (lo hi x : Z) : Z := Z.max lo (Z.min x hi).

(** [probs.gather(1, ids.unsqueeze(1)).squeeze(1).to(torch.float64)] *)
Definition gather_probs (probs : list (list F)) (ids : list Z) : res (list F) :=
  mapM (fun rd => p ← of_option (py_nth rd.1 rd.2) IndexError; Ok (f64 p)) (zip probs ids).

(** Which drafts of a request the random kernel accepts. *)
Definition random_accept (vocab_size n : Z) (drafts : list Z) (u : list F)
    (draft_probs : option (list (list F))) (target_probs : list (list F))
    (synthetic : option (list F)) : res (list bool) :=
  accept ←
    match synthetic with
    | Some rates => zip_tensor (fun u r => f_gtb r u) u (f64 <$> py_take n rates)
    | None =>
        let safe_ids := clamp 0 (vocab_size - 1) <$> drafts in
        t_prob ← gather_probs target_probs safe_ids;
        match draft_probs with
        | None => zip_tensor f_geb t_prob u
        | Some dp =>
            d_prob ← gather_probs dp safe_ids;
            above ← zip_tensor (fun t d => (f_gtb d f_zero, f_div t d)) t_prob d_prob;
            zip_tensor (fun a u => a.1 && f_geb a.2 u) above u
        end
    end;
  zip_tensor (fun a d => a && valid_id vocab_size d) accept drafts.

Definition torch_rejection_random_sample_kernel (output_token_ids : list (list Z)) (cu : list Z)
    (draft_token_ids : list Z) (draft_probs : option (list (list F))) (target_probs : list (list F))
    (bonus_token_ids recovered_token_ids : list Z) (uniform_probs : list F)
    (is_greedy : option (list bool)) (batch_size vocab_size : Z)
    (synthetic_conditional_rates : option (list F)) (synthetic_mode : bool)
    : res (list (list Z)) :=
  let mask := default (repeat true (Z.to_nat batch_size)) ((fun g : list bool => negb <$> g) <$> is_greedy) in
  each_request cu mask batch_size bonus_token_ids
    (fun n s e bonus row =>
       synthetic ←
         (if synthetic_mode then
            rates ← of_option synthetic_conditional_rates AssertionError; Ok (Some rates)
          else Ok None);
       let drafts := py_slice draft_token_ids s e in
       accept ← random_accept vocab_size n drafts (f64 <$> py_slice uniform_probs s e)
                  ((fun dp : list (list F) => py_slice dp s e) <$> draft_probs) (py_slice target_probs s e) synthetic;
       emit n drafts (fun k => of_option (py_nth recovered_token_ids (s + k)) IndexError) bonus
         accept row)
    output_token_ids.

(** *** Recovered tokens *)

(** The residual distribution of one position. *)
Definition residual (draft : Z) (draft_prob : option (list F)) (target_prob : list F)
    : res (list F) :=
  match draft_prob with
  | None =>
      let prob := f32 <$> target_prob in
      let safe := clamp 0 (len prob - 1) draft in
      x ← of_option (py_nth prob safe) IndexError;
      assign_at safe (if valid_id (len prob) draft then f_zero else x) prob
  | Some dp => zip_tensor (fun t d => f_max (f_sub (f32 t) (f32 d)) f_zero) target_prob dp
  end.

Definition recover_position (draft : Z) (draft_prob : option (list F)) (target_prob q : list F)
    : res Z :=
  prob ← residual draft draft_prob target_prob;
  scores ← zip_tensor f_div prob (f32 <$> q);
  Ok (argmax scores).

(** [mask[i] = x[i]] for the rows [s] to [e]: the positions outside a request stay what
    [torch.empty_like] left there. *)
Definition assign_slice {A} (s e : Z) (v t : list A) : res (list A) :=
  if len v =? len (py_slice t s e)
  then Ok (py_take s t ++ v ++ drop (Z.to_nat e) t) else Raise RuntimeError.

Definition torch_sample_recovered_tokens_kernel (empty : list Z) (cu draft_token_ids : list Z)
    (draft_probs : option (list (list F))) (target_probs q : list (list F)) (batch_size : Z)
    : res (list Z) :=
  foldM (fun recovered req_idx =>
    n ← of_option (py_nth (lens cu) req_idx) IndexError;
    if n <=? 0 then Ok recovered
    else
      s ← of_option (py_nth (starts cu) req_idx) IndexError;
      let e := s + n in
      q_req ← of_option (py_nth q req_idx) IndexError;
      tokens ← mapM (fun i =>
                 d ← of_option (py_nth draft_token_ids i) IndexError;
                 t ← of_option (py_nth target_probs i) IndexError;
                 dp ← match draft_probs with
                      | None => Ok None
                      | Some dps => dp ← of_option (py_nth dps i) IndexError; Ok (Some dp)
                      end;
                 recover_position d dp t q_req) (seqZ s n);
      assign_slice s e tokens recovered)
    empty (py_range batch_size).

(** [q]: drawn for everybody first, then again for the requests with a generator and a
    draft. *)
Definition exponential_draws (q_all : list (list F)) (q_generator : Z -> list F)
    (generators num_draft_tokens : list Z) : res (list (list F)) :=
  foldM (fun q i =>
    n ← of_option (py_nth num_draft_tokens i) IndexError;
    if 0 <? n then assign_at i (q_generator i) q else Ok q) q_all generators.

Definition sample_recovered_tokens (empty : list Z) (num_draft_tokens cu draft_token_ids : list Z)
    (draft_probs : option (list (list F))) (target_probs : list (list F)) (generators : list Z)
    (q_all : list (list F)) (q_generator : Z -> list F) : res (list Z) :=
  q ← exponential_draws q_all q_generator generators num_draft_tokens;
  torch_sample_recovered_tokens_kernel empty cu draft_token_ids draft_probs target_probs q
    (len num_draft_tokens).

(** *** The whole of the PyTorch path *)

(** What PyTorch draws or leaves uninitialised in one call. *)
Record Draws := mkDraws {
  uniform : list F;
  q_all : list (list F);
  q_generator : Z -> list F;
  uninitialised : list Z
}.

Definition greedy_mask (m : SamplingMetadata) : res (option (list bool)) :=
  if all_greedy m then Ok None
  else t ← of_option (temperature m) AttributeError;
       Ok (Some ((fun x : F => f_eqb x GREEDY_TEMPERATURE) <$> (t : list F))).

Definition torch_rejection_sample (draft_token_ids num_draft_tokens : list Z) (max_spec_len : Z)
    (cu_num_draft_tokens : list Z) (draft_probs : option (list (list F)))
    (target_probs : list (list F)) (vocab_size : Z) (bonus_token_ids : list Z)
    (m : SamplingMetadata) (synthetic_mode : bool)
    (synthetic_conditional_rates : option (list F)) (w : Draws) : res (list (list Z)) :=
  assert! (len target_probs =? len draft_token_ids);
  let batch_size := len num_draft_tokens in
  let output := repeat (repeat PLACEHOLDER_TOKEN_ID (Z.to_nat (max_spec_len + 1)))
                  (Z.to_nat batch_size) in
  is_greedy ← greedy_mask m;
  let uniform_probs := if synthetic_mode || negb (all_greedy m) then Some (uniform w) else None in
  output ←
    (if negb (all_random m) then
       torch_rejection_greedy_sample_kernel output cu_num_draft_tokens draft_token_ids
         (argmax <$> target_probs) bonus_token_ids is_greedy batch_size vocab_size uniform_probs
         synthetic_conditional_rates synthetic_mode
     else Ok output);
  if negb (all_random m) && all_greedy m then Ok output
  else
    recovered ← sample_recovered_tokens (uninitialised w) num_draft_tokens cu_num_draft_tokens
                  draft_token_ids draft_probs target_probs (generators m) (q_all w) (q_generator w);
    u ← of_option uniform_probs AssertionError;
    torch_rejection_random_sample_kernel output cu_num_draft_tokens draft_token_ids draft_probs
      target_probs bonus_token_ids recovered u is_greedy batch_size vocab_size
      synthetic_conditional_rates synthetic_mode.

(** [TorchRejectionSamplerImpl.rejection_sample] *)
Definition torch_impl (draft_token_ids num_draft_tokens : list Z) (max_spec_len : Z)
    (cu_num_draft_tokens : list Z) (draft_probs : option (list (list F)))
    (target_logits : list (list F)) (vocab_size : Z) (bonus_token_ids : option (list Z))
    (m : SamplingMetadata) (synthetic_mode : bool)
    (synthetic_conditional_rates : option (list F)) (w : Draws) : res (list (list Z)) :=
  bonus ← of_option bonus_token_ids AssertionError;
  logits ← apply_sampling_constraints target_logits cu_num_draft_tokens m;
  torch_rejection_sample draft_token_ids num_draft_tokens max_spec_len cu_num_draft_tokens
    draft_probs (softmax <$> logits) vocab_size bonus m synthetic_mode
    synthetic_conditional_rates w.

(** ** The compiled operation *)

Definition build_op_top_k_top_p (m : SamplingMetadata) (batch_size vocab_size : Z)
    : res (option (list Z) * option (list F)) :=
  if all_greedy m then Ok (Some (repeat GREEDY_TOP_K (Z.to_nat batch_size)), None)
  else
    assert! (match top_k m with None => true | Some k => len k =? batch_size end);
    assert! (match top_p m with None => true | Some p => len p =? batch_size end);
    if all_random m then Ok (top_k m, top_p m)
    else
      t ← of_option (temperature m) AssertionError;
      let is_greedy := (fun x : F => f_eqb x GREEDY_TEMPERATURE) <$> (t : list F) in
      let top_k := default (repeat vocab_size (Z.to_nat batch_size)) (top_k m) in
      top_k ← zip_tensor (fun (g : bool) k => if g then GREEDY_TOP_K else k) is_greedy top_k;
      Ok (Some top_k, top_p m).

(** Column [j] of the output of a request with [n] drafts of which [acc] are accepted. *)
Definition output_column (k acc n : Z) (drafts recovered : list Z) (bonus j : Z) : Z :=
  if (acc =? n) && (j =? n) then bonus
  else if j <? k then
    if (j =? acc) && ((0 <? n) && negb (acc =? n))
    then default PLACEHOLDER_TOKEN_ID (py_nth recovered j)
    else if j <? acc then default PLACEHOLDER_TOKEN_ID (py_nth drafts j)
    else PLACEHOLDER_TOKEN_ID
  else PLACEHOLDER_TOKEN_ID.

(** [k]: the fixed length; the tensors of the graph have it as their second dimension. *)
Definition rbln_rejection_sample (k : Z) (draft_token_ids : list Z) (target_logits : list (list F))
    (cu_num_draft_tokens : list Z) (top_k : option (list Z)) (top_p : option (list F))
    (temperature : list F) (draft_per_batch : list (list Z)) (bonus_token_ids : option (list Z))
    (num_draft_tokens : list Z) (bonus_logits : option (list (list F))) : res (list (list Z)) :=
  logits ← zip_tensor (fun row t => (fun x => f_div x t) <$> row) target_logits temperature;
  let '(recovered, accepted) :=
    op_rejection_sample draft_token_ids (softmax <$> logits) cu_num_draft_tokens top_k top_p in
  bonus ← match bonus_logits with
          | Some rows => Ok (argmax <$> rows)
          | None => of_option bonus_token_ids AssertionError
          end;
  mapM (fun r =>
    drafts ← of_option (py_nth draft_per_batch r) IndexError;
    acc ← of_option (py_nth accepted r) IndexError;
    n ← of_option (py_nth num_draft_tokens r) IndexError;
    rec ← of_option (py_nth recovered r) IndexError;
    b ← of_option (py_nth bonus r) IndexError;
    Ok (output_column k acc n drafts rec b <$> py_range (k + 1)))
    (py_range (len draft_per_batch)).

(** The graph's inputs of one shape, kept between the steps.  [ones] and [greedy_top_k] are
    never written. *)
Record GraphBuffers := mkBuffers {
  buf_draft_token_ids : list Z;
  buf_draft_per_batch : list (list Z);
  buf_temperature : list F;
  buf_target_logits : option (list (list F));
  buf_cu_num_draft_tokens : list Z;
  buf_counts : list Z
}.

(** The buffers of the shapes met so far: batch size and vocabulary, for one dtype and device. *)
Definition RblnState : Type := odict (Z * Z) GraphBuffers.

Definition new_buffers (num_spec_tokens batch_size : Z) : GraphBuffers :=
  let buf_len := Z.to_nat (batch_size * num_spec_tokens) in
  let b := Z.to_nat batch_size in
  mkBuffers (repeat 0 buf_len)
    (repeat (repeat PLACEHOLDER_TOKEN_ID (Z.to_nat num_spec_tokens)) b)
    (repeat f_one buf_len) None (repeat 0 b) (repeat 0 b).

(** [t.copy_(v)] *)
Definition copy_ {A} (v t : list A) : res (list A) :=
  if len v =? len t then Ok v else Raise RuntimeError.

(** [t.view(rows, k)] *)
Fixpoint view {A} (rows : nat) (k : nat) (t : list A) : list (list A) :=
  match rows with O => [] | S rows => take k t :: view rows k (drop k t) end.

(** The loop that spreads the packed drafts over the rows of the requests. *)
Definition spread_drafts (num_draft_tokens draft_token_ids : list Z) (rows : list (list Z))
    : res (list (list Z)) :=
  '(rows, _) ← foldM (fun st (i : Z) =>
      let '(rows, src_offset) := st in
      n ← of_option (py_nth num_draft_tokens i) IndexError;
      if n =? 0 then Ok (rows, src_offset)
      else
        rows ← with_row i (assign_prefix n (py_slice draft_token_ids src_offset (src_offset + n))) rows;
        Ok (rows, src_offset + n)) (rows, 0) (py_range (len num_draft_tokens));
  Ok rows.

(** The padded drafts, target logits and per-request drafts. *)
Definition fill_inputs (num_spec_tokens : Z) (draft_token_ids num_draft_tokens : list Z)
    (target_logits : list (list F)) (vocab_size : Z) (bufs : GraphBuffers)
    : res (list Z * list (list F) * list (list Z) * option (list (list F))) :=
  let batch_size := len num_draft_tokens in
  let n := len draft_token_ids in
  let padded_len := batch_size * num_spec_tokens in
  if padded_len =? n then
    drafts ← copy_ draft_token_ids (buf_draft_token_ids bufs);
    per_batch ← copy_ (view (Z.to_nat batch_size) (Z.to_nat num_spec_tokens) draft_token_ids)
                  (buf_draft_per_batch bufs);
    Ok (drafts, target_logits, per_batch, buf_target_logits bufs)
  else
    let logits := default (repeat (repeat f_zero (Z.to_nat vocab_size)) (Z.to_nat padded_len))
                    (buf_target_logits bufs) in
    drafts ← assign_prefix n draft_token_ids (buf_draft_token_ids bufs);
    logits ← assign_prefix n target_logits logits;
    per_batch ← spread_drafts num_draft_tokens draft_token_ids
                  ((fun row : list Z => (fun _ => PLACEHOLDER_TOKEN_ID) <$> row) <$> buf_draft_per_batch bufs);
    Ok (drafts, logits, per_batch, Some logits).

(** The temperature of every padded row, and what its buffer holds afterwards. *)
Definition fill_temperature (num_spec_tokens : Z) (num_draft_tokens cu_num_draft_tokens : list Z)
    (num_tokens : Z) (m : SamplingMetadata) (bufs : GraphBuffers) : res (list F * list F) :=
  let padded_len := len num_draft_tokens * num_spec_tokens in
  let ones := repeat f_one (Z.to_nat padded_len) in
  match (if all_greedy m then None else temperature m) with
  | None => Ok (ones, buf_temperature bufs)
  | Some t =>
      let t := if negb (all_random m)
               then (fun x : F => if f_eqb x GREEDY_TEMPERATURE then f_one else x) <$> (t : list F) else t in
      filled ←
        (if padded_len =? num_tokens then
           copy_ (concat ((fun x : F => repeat x (Z.to_nat num_spec_tokens)) <$> t)) (buf_temperature bufs)
         else
           expanded ← expand_batch_to_tokens f_eqb t cu_num_draft_tokens num_tokens f_zero f_zero;
           assign_prefix num_tokens expanded ((fun _ => f_one) <$> buf_temperature bufs));
      Ok (filled, filled)
  end.

(** [RBLNRejectionSamplerImpl.rejection_sample] *)
Definition rbln_impl (num_spec_tokens : Z) (draft_token_ids num_draft_tokens : list Z)
    (max_spec_len : Z) (cu_num_draft_tokens : list Z) (target_logits : list (list F))
    (vocab_size : Z) (bonus_token_ids : option (list Z)) (m : SamplingMetadata)
    (bonus_logits : option (list (list F))) (st : RblnState) : res (list (list Z) * RblnState) :=
  assert! (max_spec_len <=? num_spec_tokens);
  assert! (forallb (fun d => 0 <=? d) draft_token_ids);
  assert! (negb (bool_decide (is_Some bonus_token_ids <-> is_Some bonus_logits)));
  assert! (len target_logits =? len draft_token_ids);
  let batch_size := len num_draft_tokens in
  let num_tokens := len draft_token_ids in
  let key := (batch_size, vocab_size) in
  let bufs := default (new_buffers num_spec_tokens batch_size) (od_get key st) in
  '(drafts, logits, per_batch, buf_logits) ←
    fill_inputs num_spec_tokens draft_token_ids num_draft_tokens target_logits vocab_size bufs;
  '(op_top_k, op_top_p) ←
    (if all_greedy m then Ok (Some (repeat GREEDY_TOP_K (Z.to_nat batch_size)), None)
     else build_op_top_k_top_p m batch_size vocab_size);
  '(temp, buf_temp) ←
    fill_temperature num_spec_tokens num_draft_tokens cu_num_draft_tokens num_tokens m bufs;
  cu ← copy_ cu_num_draft_tokens (buf_cu_num_draft_tokens bufs);
  counts ← copy_ num_draft_tokens (buf_counts bufs);
  out ← rbln_rejection_sample num_spec_tokens drafts logits cu op_top_k op_top_p temp per_batch
          bonus_token_ids counts bonus_logits;
  Ok (out, od_set key (mkBuffers drafts per_batch buf_temp buf_logits cu counts) st).

(** ** [RBLNRejectionSampler.forward] *)

Inductive Impl := TorchImpl | RblnImpl (num_spec_tokens : Z).

Definition max_spec_len_of (impl : Impl) : Z :=
  match impl with TorchImpl => 128 | RblnImpl _ => 32 end.

(** [RBLNRejectionSampler.__init__]: the implementation and its fixed length. *)
Definition make_impl (use_rbln_sampler synthetic_mode : bool) (num_speculative_tokens : option Z)
    : res Impl :=
  if use_rbln_sampler then
    assert! (negb synthetic_mode);
    let n := default 0 num_speculative_tokens in
    Ok (RblnImpl (if n =? 0 then max_spec_len_of (RblnImpl 0) else n))
  else Ok TorchImpl.

(** The sampler's answers: the processed logits of the bonus rows and the tokens sampled
    from them. *)
Definition choose_bonus (impl : Impl) (m : SamplingMetadata) (processed : list (list F))
    (sampled : list Z) : option (list Z) * option (list (list F)) :=
  match impl with
  | RblnImpl _ =>
      if all_greedy m && negb (bool_decide (is_Some (max_num_logprobs m))) && negb (logprob_token_ids m)
      then (None, Some processed) else (Some sampled, None)
  | TorchImpl => (Some sampled, None)
  end.

(** [target_logits]: already through [apply_logits_processors]; logprobs are left out. *)
Definition forward (impl : Impl) (draft_token_ids num_draft_tokens : list Z) (max_spec_len : Z)
    (cu_num_draft_tokens : list Z) (draft_probs : option (list (list F)))
    (target_logits : list (list F)) (vocab_size : Z) (processed : list (list F)) (sampled : list Z)
    (m : SamplingMetadata) (synthetic_mode : bool)
    (synthetic_conditional_rates : option (list F)) (w : Draws) (st : RblnState)
    : res (list (list Z) * RblnState) :=
  assert! (max_spec_len <=? max_spec_len_of impl);
  let '(bonus_token_ids, bonus_logits) := choose_bonus impl m processed sampled in
  match impl with
  | TorchImpl =>
      out ← torch_impl draft_token_ids num_draft_tokens max_spec_len cu_num_draft_tokens draft_probs
              target_logits vocab_size bonus_token_ids m synthetic_mode
              synthetic_conditional_rates w;
      Ok (out, st)
  | RblnImpl k =>
      rbln_impl k draft_token_ids num_draft_tokens max_spec_len cu_num_draft_tokens target_logits
        vocab_size bonus_token_ids m bonus_logits st
  end.
End sampler.
Arguments SamplingMetadata : clear implicits.
Arguments Draws : clear implicits.
Arguments GraphBuffers : clear implicits.
Arguments RblnState : clear implicits.
