(* ===== verification/RejectionSamplerSpec.v ===== *)
(** * Rejection sampling: what it guarantees

    The theorems about [RejectionSampler]: greedy verification is lossless, every emitted
    token is a token of the vocabulary whatever the drafts are, the random path follows its
    acceptance rule, and the compiled path builds the same rows and never shows what an
    earlier step left in its buffers. *)

From S2P Require Import Prelude RejectionSampler.

(** ** Tensors *)

Lemma py_nth_nat {A} (l : list A) (i : nat) : (i < length l)%nat -> py_nth l (Z.of_nat i) = l !! i.
Proof.
  intros Hi. unfold py_nth. rewrite (proj2 (Z.ltb_ge _ 0)) by lia. by rewrite Nat2Z.id.
Qed.

Lemma py_nth_lookup {A} (l : list A) (i : nat) x : l !! i = Some x -> py_nth l (Z.of_nat i) = Some x.
Proof. intros Hi. rewrite py_nth_nat; [done|]. by apply lookup_lt_Some in Hi. Qed.

(** [l] written over the front of [row]. *)
Definition over {A} (l row : list A) : list A := l ++ drop (length l) row.

Lemma assign_prefix_ok {A} n (v row : list A) : len v = n -> (length v <= length row)%nat ->
  assign_prefix n v row = Ok (over v row).
Proof.
  intros Hv Hr. unfold assign_prefix, over.
  assert (length (py_take n row) = length v) as Hl
    by (unfold py_take; rewrite length_take; unfold len in Hv; lia).
  assert ((len v =? len (py_take n row)) = true) as ->
    by (apply Z.eqb_eq; unfold len in *; lia).
  by rewrite Hl.
Qed.

Lemma assign_at_ok {A} (i : nat) (x : A) t : (i < length t)%nat ->
  assign_at (Z.of_nat i) x t = Ok (<[i:=x]> t).
Proof.
  intros Hi. unfold assign_at. assert (((0 <=? Z.of_nat i) && (Z.of_nat i <? len t)) = true) as ->.
  { apply andb_true_iff. unfold len. split; zbool; lia. }
  by rewrite Nat2Z.id.
Qed.

Lemma assign_at_over {A} n (v row : list A) x : len v = n -> (length v < length row)%nat ->
  assign_at n x (over v row) = Ok (over (v ++ [x]) row).
Proof.
  intros <- Hr. unfold over, len. rewrite assign_at_ok.
  - f_equal. rewrite insert_app_r_alt, Nat.sub_diag by lia.
    destruct (drop (length v) row) as [|y l] eqn:Ed.
    + apply (f_equal length) in Ed. rewrite length_drop in Ed. cbn in Ed. lia.
    + rewrite length_app, Nat.add_1_r. assert (drop (S (length v)) row = l) as ->.
      { rewrite <- Nat.add_1_r, <- drop_drop, Ed. done. }
      cbn. by rewrite <- app_assoc.
  - rewrite length_app, length_drop. lia.
Qed.

Lemma with_row_ok {A} (i : nat) f (t : list (list A)) row row' : t !! i = Some row -> f row = Ok row' ->
  with_row (Z.of_nat i) f t = Ok (<[i:=row']> t).
Proof.
  intros Ht Hf. unfold with_row. rewrite (py_nth_lookup _ _ _ Ht). cbn [mbind res_bind of_option].
  rewrite Hf. cbn [mbind res_bind]. apply assign_at_ok. by apply lookup_lt_Some in Ht.
Qed.

Lemma zip_tensor_ok {A B C} (f : A -> B -> C) l k : length l = length k ->
  zip_tensor f l k = Ok (zip_with f l k).
Proof. intros Hl. unfold zip_tensor, len. by rewrite Hl, Z.eqb_refl. Qed.

(** A loop that updates row after row. *)
Lemma foldM_rows {A} (step : list A -> Z -> res (list A)) (g : nat -> A -> A) (out : list A) :
  (forall out' (i : nat) x, length out' = length out -> out' !! i = Some x -> out !! i = Some x ->
    step out' (Z.of_nat i) = Ok (<[i := g i x]> out')) ->
  foldM step out (py_range (len out)) = Ok (imap g out).
Proof.
  intros Hstep. unfold py_range, len.
  assert (forall m k, (k + m = length out)%nat ->
    foldM step (imap g (take k out) ++ drop k out) (seqZ (Z.of_nat k) (Z.of_nat m)) = Ok (imap g out)) as Hgen.
  { induction m as [|m IH]; intros k Hk.
    - cbn. by rewrite take_ge, drop_ge, app_nil_r by lia.
    - rewrite seqZ_cons by lia. cbn [foldM].
      destruct (lookup_lt_is_Some_2 out k) as [x Hx]; [lia|].
      assert (length (imap g (take k out)) = k) as Hlen by (rewrite length_imap, length_take; lia).
      rewrite (Hstep _ k x); [|rewrite length_app, length_drop; lia| |done].
      2:{ rewrite lookup_app_r by lia. by rewrite Hlen, Nat.sub_diag, lookup_drop, Nat.add_0_r. }
      cbn [mbind res_bind]. rewrite insert_app_r_alt by lia. rewrite Hlen, Nat.sub_diag.
      rewrite (drop_S out x k Hx). cbn [list_insert insert].
      replace (Z.pred (Z.of_nat (S m))) with (Z.of_nat m) by lia.
      replace (Z.succ (Z.of_nat k)) with (Z.of_nat (S k)) by lia.
      rewrite <- (IH (S k)) by lia. f_equal. rewrite (take_S_r out k x Hx), imap_app. cbn.
      rewrite length_take, <- app_assoc. cbn. do 3 f_equal. lia. }
  exact (Hgen (length out) 0%nat eq_refl).
Qed.

Lemma lookup_repeat {A} (x : A) n (i : nat) : (i < n)%nat -> repeat x n !! i = Some x.
Proof. revert i. induction n as [|n IH]; intros [|i] Hi; cbn; [lia|lia|done|apply IH; lia]. Qed.

(** ** Packed batches *)

Fixpoint cumulative (acc : Z) (ns : list Z) : list Z :=
  match ns with [] => [] | n :: ns => (acc + n) :: cumulative (acc + n) ns end.

Lemma length_cumulative acc ns : length (cumulative acc ns) = length ns.
Proof. revert acc. induction ns as [|n ns IH]; intros acc; cbn; [done|]. by rewrite IH. Qed.

Lemma starts_cons acc n ns :
  acc :: removelast (cumulative acc (n :: ns)) = acc :: match ns with [] => [] | _ =>
    (acc + n) :: removelast (cumulative (acc + n) ns) end.
Proof. destruct ns; done. Qed.

Lemma starts_at acc ns (i : nat) : (i < length ns)%nat ->
  (acc :: removelast (cumulative acc ns)) !! i = Some (acc + sumZ (take i ns)).
Proof.
  revert acc i. induction ns as [|n ns IH]; intros acc i Hi; cbn [length] in Hi; [lia|].
  rewrite starts_cons. destruct i as [|i]; [cbn; f_equal; lia|].
  destruct ns as [|n' ns]; [cbn in Hi; lia|]. cbn [lookup list_lookup].
  change (take (S i) (n :: n' :: ns)) with (n :: take i (n' :: ns)). rewrite sumZ_cons, IH by lia. f_equal. lia.
Qed.

Lemma starts_lookup ns (i : nat) : (i < length ns)%nat ->
  starts (cumulative 0 ns) !! i = Some (sumZ (take i ns)).
Proof. intros Hi. destruct ns as [|n ns]; [cbn in Hi; lia|]. apply (starts_at 0); done. Qed.

Lemma cumulative_lookup acc ns (i : nat) n : ns !! i = Some n ->
  cumulative acc ns !! i = Some (acc + sumZ (take i ns) + n).
Proof.
  revert acc i. induction ns as [|m ns IH]; intros acc i Hi; [done|].
  destruct i as [|i]; cbn in Hi |- *; [injection Hi as ->; f_equal; lia|].
  rewrite (IH _ _ Hi). f_equal. fold (sumZ (take i ns)). lia.
Qed.

Lemma lens_lookup ns (i : nat) n : ns !! i = Some n -> lens (cumulative 0 ns) !! i = Some n.
Proof.
  intros Hi. unfold lens. rewrite lookup_zip_with, (cumulative_lookup 0 _ _ _ Hi). cbn [option_bind mbind].
  rewrite starts_lookup by (by apply lookup_lt_Some in Hi). cbn. f_equal. lia.
Qed.

Lemma lens_cumulative ns : lens (cumulative 0 ns) = ns.
Proof.
  apply list_eq. intros i. destruct (ns !! i) as [n|] eqn:Hi; [by apply lens_lookup|].
  apply lookup_ge_None in Hi. apply lookup_ge_None. unfold lens. rewrite length_zip_with, length_cumulative. lia.
Qed.

(** A request's slice of a packed tensor. *)
Lemma slice_concat {A} (ls : list (list A)) (i : nat) l : ls !! i = Some l ->
  py_slice (concat ls) (sumZ (take i (len <$> ls))) (sumZ (take i (len <$> ls)) + len l) = l.
Proof.
  intros Hi. assert (forall k, sumZ (take k (len <$> ls)) = len (concat (take k ls))) as Hsum.
  { clear. induction ls as [|l ls IH]; intros [|k]; try done. rewrite fmap_cons. cbn [firstn concat].
    rewrite sumZ_cons, IH, len_app. done. }
  rewrite Hsum. rewrite <- (take_drop_middle ls i l Hi) at 1. rewrite concat_app.
  unfold py_slice, len. rewrite Nat2Z.id, drop_app_length. cbn [concat].
  replace (Z.to_nat _) with (length l) by lia. by rewrite take_app_length.
Qed.

(** ** The reference *)

(** Tokens of a request given which drafts are accepted: drafts up to the first rejected
    one, then its replacement, or the bonus token after all of them. *)
Fixpoint speculate (accept : list bool) (drafts replacement : list Z) (bonus : Z) : list Z :=
  match accept, drafts, replacement with
  | true :: accept, d :: drafts, _ :: replacement => d :: speculate accept drafts replacement bonus
  | false :: _, _ :: _, r :: _ => [r]
  | _, _, _ => [bonus]
  end.

Lemma speculate_first accept drafts repl bonus :
  length accept = length drafts -> length repl = length drafts ->
  speculate accept drafts repl bonus =
  match first_true (negb <$> accept) with
  | Some k => py_take k drafts ++ default [] ((fun x => [x]) <$> repl !! Z.to_nat k)
  | None => drafts ++ [bonus]
  end.
Proof.
  revert drafts repl. induction accept as [|a accept IH]; intros [|d drafts] [|r repl] Ha Hr; try done.
  injection Ha as Ha. injection Hr as Hr. destruct a; cbn; [|done]. rewrite (IH drafts repl) by done.
  assert (forall l k, first_true l = Some k -> 0 <= k) as Hpos.
  { clear. induction l as [|b l IH]; intros k; [done|]. cbn. destruct b; [intros [= <-]; lia|].
    destruct (first_true l); [|done]. cbn. intros [= <-]. specialize (IH _ eq_refl). lia. }
  destruct (first_true (negb <$> accept)) as [k|] eqn:E; cbn; [|done]. specialize (Hpos _ _ E).
  unfold py_take. replace (Z.to_nat (k + 1)) with (S (Z.to_nat k)) by lia. done.
Qed.

Lemma first_true_lookup l k : first_true l = Some k ->
  0 <= k /\ l !! Z.to_nat k = Some true /\ forall j, (j < Z.to_nat k)%nat -> l !! j = Some false.
Proof.
  revert k. induction l as [|b l IH]; intros k; [done|]. cbn. destruct b.
  { intros [= <-]. split_and!; [lia|done|]. intros j. lia. }
  destruct (first_true l) as [k'|]; [|done]. cbn. intros [= <-]. destruct (IH _ eq_refl) as (H0 & H1 & H2).
  replace (Z.to_nat (k' + 1)) with (S (Z.to_nat k')) by lia. split_and!; [lia|done|].
  intros [|j] Hj; [done|]. apply H2. lia.
Qed.

Lemma first_true_none l : first_true l = None -> forall j b, l !! j = Some b -> b = false.
Proof.
  induction l as [|b l IH]; intros Hl j x Hj; [done|]. cbn in Hl. destruct b; [done|].
  destruct (first_true l); [done|]. destruct j as [|j]; cbn in Hj; [by injection Hj|]. by apply (IH eq_refl j).
Qed.

Lemma speculate_length accept drafts repl bonus :
  (0 < length (speculate accept drafts repl bonus) <= S (length drafts))%nat.
Proof.
  revert drafts repl. induction accept as [|a accept IH]; intros drafts repl; [cbn; lia|].
  destruct a, drafts as [|d drafts], repl as [|r repl]; cbn; try lia. specialize (IH drafts repl). lia.
Qed.

Lemma emit_ok n drafts repl replacement bonus accept row :
  len drafts = n -> length accept = length drafts -> length repl = length drafts ->
  (length drafts < length row)%nat ->
  (forall k x, repl !! k = Some x -> replacement (Z.of_nat k) = Ok x) ->
  emit n drafts replacement bonus accept row = Ok (over (speculate accept drafts repl bonus) row).
Proof.
  intros Hn Ha Hr Hrow Hrepl. unfold emit. rewrite speculate_first by done.
  destruct (first_true (negb <$> accept)) as [k|] eqn:E.
  - destruct (first_true_lookup _ _ E) as (H0 & Hk & _). apply lookup_lt_Some in Hk.
    rewrite length_fmap in Hk. destruct (lookup_lt_is_Some_2 repl (Z.to_nat k)) as [x Hx]; [lia|].
    rewrite Hx. pose proof (Hrepl _ _ Hx) as Hrk. rewrite Z2Nat.id in Hrk by lia.
    assert (len (py_take k drafts) = k) as Hlen by (unfold len, py_take; rewrite length_take; lia).
    assert ((if 0 <? k then assign_prefix k (py_take k drafts) row else Ok row) =
      Ok (over (py_take k drafts) row)) as ->.
    { destruct (0 <? k) eqn:Ek; zbool.
      - apply assign_prefix_ok; [done|]. unfold len in *. lia.
      - assert (k = 0) as -> by lia. done. }
    cbn [mbind res_bind]. rewrite Hrk. cbn [mbind res_bind]. apply assign_at_over; [done|]. unfold len in *. lia.
  - rewrite (assign_prefix_ok n drafts row) by (done || lia). cbn [mbind res_bind].
    apply assign_at_over; [done|lia].
Qed.

(** ** The kernels *)

(** What a request's turn writes. *)
Definition turn (drafts : list Z) (bonus : Z) (tokens : list Z) : list Z :=
  match drafts with [] => [bonus] | _ => tokens end.

(** [ls]: the drafts of the requests, [mine]: the requests of the kernel. *)
Lemma each_request_ok (ls : list (list Z)) mask (bonus : list Z) go tokens out :
  length mask = length ls -> length bonus = length ls -> length out = length ls ->
  (forall i d row b, ls !! i = Some d -> out !! i = Some row -> bonus !! i = Some b ->
    mask !! i = Some true -> d <> [] ->
    go (len d) (sumZ (take i (len <$> ls))) (sumZ (take i (len <$> ls)) + len d) b row
      = Ok (over (tokens i) row)) ->
  (forall i row, out !! i = Some row -> (0 < length row)%nat) ->
  each_request (cumulative 0 (len <$> ls)) mask (len ls) bonus go out =
  Ok (imap (fun i row => if default false (mask !! i)
                         then over (turn (default [] (ls !! i)) (default 0 (bonus !! i)) (tokens i)) row
                         else row) out).
Proof.
  intros Hmask Hbonus Hout Hgo Hrow. unfold each_request.
  assert (len ls = len out) as -> by (unfold len; lia).
  apply foldM_rows. intros out' i row Hlen Hi Hi0.
  assert (i < length ls)%nat as Hil by (apply lookup_lt_Some in Hi0; lia).
  destruct (lookup_lt_is_Some_2 mask i) as [m Hm]; [lia|].
  destruct (lookup_lt_is_Some_2 bonus i) as [b Hb]; [lia|].
  destruct (lookup_lt_is_Some_2 ls i) as [d Hd]; [done|].
  rewrite (py_nth_lookup _ _ _ Hm), (py_nth_lookup _ _ _ Hb), Hm, Hb, Hd. cbn [of_option mbind res_bind default].
  destruct m; cbn [negb]; [|by rewrite list_insert_id].
  rewrite lens_cumulative. rewrite (py_nth_lookup (len <$> ls) i (len d)) by (by rewrite list_lookup_fmap, Hd).
  cbn [of_option mbind res_bind]. destruct (len d =? 0) eqn:Ed; zbool.
  - assert (d = []) as -> by (destruct d; [done|]; rewrite len_cons in Ed; pose proof (len_nonneg d); lia).
    cbn [turn]. apply (with_row_ok _ _ _ _ _ Hi). rewrite (assign_at_ok 0) by (by apply (Hrow i)).
    destruct row; [|done]. specialize (Hrow i [] Hi0). cbn in Hrow. lia.
  - rewrite (py_nth_lookup (starts _) i (sumZ (take i (len <$> ls))))
      by (apply starts_lookup; by rewrite length_fmap).
    cbn [of_option mbind res_bind]. apply (with_row_ok _ _ _ _ _ Hi).
    assert (d <> []) as Hne by (intros ->; done).
    rewrite (Hgo i d row b Hd Hi0 Hb Hm Hne). unfold turn. by destruct d.
Qed.

Section kernels.
Context {F : Type} `{T : Torch F}.

(** Which drafts of a request the greedy kernel accepts. *)
Definition greedy_accept (vocab_size : Z) (drafts target : list Z)
    (synthetic : option (list F * list F)) : list bool :=
  match synthetic with
  | Some (u, rates) =>
      zip_with (fun b d => b && valid_id vocab_size d) (zip_with (fun u r => f_gtb r u) u (f64 <$> rates)) drafts
  | None => zip_with Z.eqb drafts target
  end.

Lemma greedy_request_ok vocab_size drafts target bonus synthetic row :
  length target = length drafts -> (length drafts < length row)%nat ->
  (forall u rates, synthetic = Some (u, rates) ->
     length u = length drafts /\ (length drafts <= length rates)%nat) ->
  greedy_request vocab_size (len drafts) drafts target bonus synthetic row =
  Ok (over (speculate
    (greedy_accept vocab_size drafts target
       ((fun ur => (ur.1, py_take (len drafts) ur.2)) <$> synthetic)) drafts target bonus) row).
Proof.
  intros Ht Hrow Hsyn. unfold greedy_request, greedy_accept. destruct synthetic as [[u rates]|]; cbn [fmap option_fmap option_map fst snd].
  - destruct (Hsyn u rates eq_refl) as [Hu Hr].
    assert (length (py_take (len drafts) rates) = length u) as Hl
      by (unfold py_take, len; rewrite length_take; lia).
    rewrite zip_tensor_ok by (rewrite length_fmap; lia). cbn [mbind res_bind].
    rewrite zip_tensor_ok by (rewrite length_zip_with, length_fmap; lia).
    cbn [mbind res_bind]. apply emit_ok; [done|rewrite !length_zip_with, length_fmap; lia|done|done|].
    intros k x Hk. by rewrite (py_nth_lookup _ _ _ Hk).
  - rewrite zip_tensor_ok by lia. cbn [mbind res_bind].
    rewrite speculate_first by (rewrite ?length_zip_with; lia).
    assert ((negb <$> zip_with Z.eqb drafts target) = zip_with (fun d t => negb (d =? t)) drafts target) as ->.
    { apply list_eq. intros j. rewrite list_lookup_fmap, !lookup_zip_with. by destruct (drafts !! j), (target !! j). }
    destruct (first_true _) as [k|] eqn:E.
    + destruct (first_true_lookup _ _ E) as (H0 & Hk & Hbefore).
      assert (py_take k drafts = py_take k target) as Heq.
      { apply list_eq. intros j. unfold py_take. destruct (decide (j < Z.to_nat k)%nat) as [Hj|Hj].
        - rewrite !lookup_take_lt by done. specialize (Hbefore j Hj). rewrite lookup_zip_with in Hbefore.
          destruct (drafts !! j), (target !! j); cbn in Hbefore; try done. injection Hbefore as Hb.
          apply negb_false_iff in Hb. zbool. by subst.
        - rewrite !lookup_take_ge by lia. done. }
      apply lookup_lt_Some in Hk. rewrite length_zip_with in Hk.
      destruct (lookup_lt_is_Some_2 target (Z.to_nat k)) as [x Hx]; [lia|].
      rewrite Hx, Heq. cbn [fmap option_fmap option_map default].
      assert (py_take (k + 1) target = py_take k target ++ [x]) as Hsucc.
      { unfold py_take. replace (Z.to_nat (k + 1)) with (S (Z.to_nat k)) by lia. by apply take_S_r. }
      unfold id. rewrite <- Hsucc. apply assign_prefix_ok; unfold len, py_take; rewrite length_take; lia.
    + assert (drafts = target) as <-.
      { apply list_eq. intros j. destruct (decide (j < length drafts)%nat) as [Hj|Hj].
        - destruct (lookup_lt_is_Some_2 drafts j) as [d Hd]; [lia|].
          destruct (lookup_lt_is_Some_2 target j) as [t Htj]; [lia|].
          assert (negb (d =? t) = false) as Hb.
          { eapply (first_true_none _ E j). by rewrite lookup_zip_with, Hd, Htj. }
          apply negb_false_iff in Hb. zbool. by rewrite Hd, Htj, Hb.
        - rewrite !lookup_ge_None_2 by lia. done. }
      rewrite assign_prefix_ok by (done || lia). cbn [mbind res_bind]. by apply assign_at_over.
Qed.
End kernels.

(** ** A batch of requests *)

Section batch.
Context {F : Type} `{T : Torch F}.

(** A request: its drafts, and for each of them the row of target probabilities, the row of
    draft probabilities and the uniform number drawn. *)
Record Seg := mkSeg {
  sg_drafts : list Z;
  sg_target : list (list F);
  sg_dprobs : list (list F);
  sg_uniform : list F
}.

Variable vocab : nat.
Hypothesis vocab_pos : (0 < vocab)%nat.
(** whether the drafter reports probabilities; the rates of synthetic acceptance *)
Variable use_dprobs : bool.
Variable synthetic : option (list F).

Abbreviation V := (Z.of_nat vocab).

Record seg_ok (g : Seg) : Prop := {
  so_target : length (sg_target g) = length (sg_drafts g);
  so_target_rows : Forall (fun row => length row = vocab) (sg_target g);
  so_dprobs : length (sg_dprobs g) = length (sg_drafts g);
  so_dprobs_rows : Forall (fun row => length row = vocab) (sg_dprobs g);
  so_uniform : length (sg_uniform g) = length (sg_drafts g);
  so_rates : forall rates, synthetic = Some rates -> (length (sg_drafts g) <= length rates)%nat
}.

Definition at_ (l : list F) (j : nat) : F := default f_zero (l !! j).
Definition row_at (l : list (list F)) (j : nat) : list F := default [] (l !! j).
Definition prob_of (row : list F) (d : Z) : F := f64 (at_ row (Z.to_nat d)).

(** *** Which drafts the random path accepts *)

Definition accepts (g : Seg) (j : nat) (d : Z) : bool :=
  match synthetic with
  | Some rates => f_gtb (f64 (at_ rates j)) (f64 (at_ (sg_uniform g) j))
  | None =>
      let t := prob_of (row_at (sg_target g) j) d in
      let u := f64 (at_ (sg_uniform g) j) in
      if use_dprobs
      then let p := prob_of (row_at (sg_dprobs g) j) d in f_gtb p f_zero && f_geb (f_div t p) u
      else f_geb t u
  end && valid_id V d.

Lemma lookup_at (l : list F) j x : l !! j = Some x -> at_ l j = x.
Proof. unfold at_. by intros ->. Qed.

Lemma lookup_row (l : list (list F)) j x : l !! j = Some x -> row_at l j = x.
Proof. unfold row_at. by intros ->. Qed.

Lemma clamp_range lo hi x : lo <= hi -> lo <= clamp lo hi x <= hi.
Proof. unfold clamp. lia. Qed.

Lemma clamp_valid d : valid_id V d = true -> clamp 0 (V - 1) d = d.
Proof. unfold valid_id, clamp. rewrite andb_true_iff. intros [H1 H2]. zbool. lia. Qed.

Lemma gather_ok (probs : list (list F)) (ids : list Z) :
  length probs = length ids -> Forall (fun row => length row = vocab) probs ->
  gather_probs probs (clamp 0 (V - 1) <$> ids) =
  Ok (zip_with (fun row d => prob_of row (clamp 0 (V - 1) d)) probs ids).
Proof.
  intros Hl Hrows. unfold gather_probs. revert ids Hl.
  induction Hrows as [|row probs Hrow _ IH]; intros [|d ids] Hl; try done.
  injection Hl as Hl. rewrite fmap_cons. cbn [zip zip_with mapM fst snd].
  pose proof (clamp_range 0 (V - 1) d ltac:(lia)) as Hc.
  destruct (lookup_lt_is_Some_2 row (Z.to_nat (clamp 0 (V - 1) d))) as [p Hp]; [lia|].
  rewrite <- (Z2Nat.id (clamp 0 (V - 1) d)) at 1 by lia. rewrite (py_nth_lookup _ _ _ Hp).
  cbn [of_option mbind res_bind]. specialize (IH ids Hl). cbn [zip] in IH. rewrite IH. cbn [mbind res_bind].
  unfold prob_of. by rewrite (lookup_at _ _ _ Hp).
Qed.

Lemma random_accept_ok g : seg_ok g ->
  random_accept V (len (sg_drafts g)) (sg_drafts g) (f64 <$> sg_uniform g)
    (if use_dprobs then Some (sg_dprobs g) else None) (sg_target g) synthetic =
  Ok (imap (accepts g) (sg_drafts g)).
Proof.
  intros [Ht Htr Hd Hdr Hu Hrates]. unfold random_accept, accepts.
  assert (forall (l : list bool) (f : nat -> Z -> bool), length l = length (sg_drafts g) ->
    (forall j d, sg_drafts g !! j = Some d -> valid_id V d = true -> l !! j = Some (f j d)) ->
    zip_with (fun a d => a && valid_id V d) l (sg_drafts g) =
    imap (fun j d => f j d && valid_id V d) (sg_drafts g)) as Hzip.
  { intros l f Hl Hf. apply list_eq. intros j. rewrite list_lookup_imap, lookup_zip_with.
    destruct (sg_drafts g !! j) as [d|] eqn:Hj; [|by destruct (l !! j)]. cbn.
    destruct (valid_id V d) eqn:Hv.
    - by rewrite (Hf j d Hj Hv).
    - destruct (lookup_lt_is_Some_2 l j) as [b ->]; [apply lookup_lt_Some in Hj; lia|]. cbn.
      by rewrite !andb_false_r. }
  destruct synthetic as [rates|].
  { specialize (Hrates rates eq_refl).
    assert (length (py_take (len (sg_drafts g)) rates) = length (sg_drafts g)) as Hlr
      by (unfold py_take, len; rewrite length_take; lia).
    rewrite zip_tensor_ok by (rewrite !length_fmap; lia). cbn [mbind res_bind].
    rewrite zip_tensor_ok by (rewrite length_zip_with, !length_fmap; lia). f_equal.
    apply (Hzip _ (fun j _ => f_gtb (f64 (at_ rates j)) (f64 (at_ (sg_uniform g) j)))).
    { rewrite length_zip_with, !length_fmap. lia. }
    intros j d Hj _. apply lookup_lt_Some in Hj. rewrite lookup_zip_with, !list_lookup_fmap.
    destruct (lookup_lt_is_Some_2 (sg_uniform g) j) as [u Hju]; [lia|].
    destruct (lookup_lt_is_Some_2 rates j) as [r Hjr]; [lia|].
    rewrite Hju, (lookup_at _ _ _ Hju), (lookup_at _ _ _ Hjr). cbn. unfold py_take, len.
    rewrite Nat2Z.id, lookup_take_lt by done. by rewrite Hjr. }
  rewrite gather_ok by done. cbn [mbind res_bind].
  assert (forall j d, sg_drafts g !! j = Some d -> exists u row drow,
    sg_uniform g !! j = Some u /\ sg_target g !! j = Some row /\ sg_dprobs g !! j = Some drow) as Hat.
  { intros j d Hj. apply lookup_lt_Some in Hj.
    destruct (lookup_lt_is_Some_2 (sg_uniform g) j) as [u Hju]; [lia|].
    destruct (lookup_lt_is_Some_2 (sg_target g) j) as [row Hjr]; [lia|].
    destruct (lookup_lt_is_Some_2 (sg_dprobs g) j) as [drow Hjd]; [lia|]. by exists u, row, drow. }
  destruct use_dprobs.
  - rewrite gather_ok by done. cbn [mbind res_bind].
    rewrite zip_tensor_ok by (rewrite !length_zip_with; lia). cbn [mbind res_bind].
    rewrite zip_tensor_ok by (rewrite !length_zip_with, length_fmap; lia). cbn [mbind res_bind].
    rewrite zip_tensor_ok by (rewrite !length_zip_with, length_fmap; lia). f_equal.
    apply (Hzip _ (fun j d => let t := prob_of (row_at (sg_target g) j) d in
      let p := prob_of (row_at (sg_dprobs g) j) d in
      f_gtb p f_zero && f_geb (f_div t p) (f64 (at_ (sg_uniform g) j)))).
    { rewrite !length_zip_with, length_fmap. lia. }
    intros j d Hj Hv. destruct (Hat j d Hj) as (u & row & drow & Hju & Hjr & Hjd).
    rewrite !lookup_zip_with, list_lookup_fmap, Hju, Hjr, Hjd, Hj. cbn.
    by rewrite (lookup_at _ _ _ Hju), (lookup_row _ _ _ Hjr), (lookup_row _ _ _ Hjd), (clamp_valid d Hv).
  - rewrite zip_tensor_ok by (rewrite !length_zip_with, length_fmap; lia). cbn [mbind res_bind].
    rewrite zip_tensor_ok by (rewrite !length_zip_with, length_fmap; lia). f_equal.
    apply (Hzip _ (fun j d => f_geb (prob_of (row_at (sg_target g) j) d) (f64 (at_ (sg_uniform g) j)))).
    { rewrite !length_zip_with, length_fmap. lia. }
    intros j d Hj Hv. destruct (Hat j d Hj) as (u & row & drow & Hju & Hjr & Hjd).
    rewrite !lookup_zip_with, list_lookup_fmap, Hju, Hjr, Hj. cbn.
    by rewrite (lookup_at _ _ _ Hju), (lookup_row _ _ _ Hjr), (clamp_valid d Hv).
Qed.

(** *** Recovered tokens *)

Definition residual_of (g : Seg) (j : nat) (d : Z) : list F :=
  if use_dprobs
  then zip_with (fun t p => f_max (f_sub (f32 t) (f32 p)) f_zero) (row_at (sg_target g) j)
         (row_at (sg_dprobs g) j)
  else let p := f32 <$> row_at (sg_target g) j in
       if valid_id V d then <[Z.to_nat d := f_zero]> p else p.

Definition scores_of (q : list F) (g : Seg) (j : nat) (d : Z) : list F :=
  zip_with f_div (residual_of g j d) (f32 <$> q).

Definition recovered_of (q : list F) (g : Seg) : list Z :=
  imap (fun j d => argmax (scores_of q g j d)) (sg_drafts g).

Lemma residual_ok g j d row drow : seg_ok g -> sg_target g !! j = Some row ->
  sg_dprobs g !! j = Some drow ->
  residual d (if use_dprobs then Some drow else None) row = Ok (residual_of g j d) /\
  length (residual_of g j d) = vocab.
Proof.
  intros [_ Htr _ Hdr _ _] Hrow Hdrow. unfold residual, residual_of.
  rewrite (lookup_row _ _ _ Hrow), (lookup_row _ _ _ Hdrow).
  pose proof (Forall_lookup_1 _ _ _ _ Htr Hrow) as Hl. pose proof (Forall_lookup_1 _ _ _ _ Hdr Hdrow) as Hld.
  cbn beta in Hl, Hld.
  destruct use_dprobs.
  { split; [apply zip_tensor_ok; lia|rewrite length_zip_with; lia]. }
  assert (len (f32 <$> row) = V) as -> by (unfold len; rewrite length_fmap; lia).
  pose proof (clamp_range 0 (V - 1) d ltac:(lia)) as Hc.
  destruct (lookup_lt_is_Some_2 (f32 <$> row) (Z.to_nat (clamp 0 (V - 1) d))) as [x Hx];
    [rewrite length_fmap; lia|].
  rewrite <- (Z2Nat.id (clamp 0 (V - 1) d)) by lia. rewrite (py_nth_lookup _ _ _ Hx).
  cbn [of_option mbind res_bind]. rewrite assign_at_ok by (rewrite length_fmap; lia).
  destruct (valid_id V d) eqn:Hv.
  - rewrite (clamp_valid d Hv). split; [done|]. by rewrite length_insert, length_fmap.
  - rewrite list_insert_id by done. split; [done|]. by rewrite length_fmap.
Qed.

Lemma recover_position_ok g q j d row drow : seg_ok g -> length q = vocab ->
  sg_target g !! j = Some row -> sg_dprobs g !! j = Some drow ->
  recover_position d (if use_dprobs then Some drow else None) row q = Ok (argmax (scores_of q g j d)) /\
  length (scores_of q g j d) = vocab.
Proof.
  intros Hg Hq Hrow Hdrow. destruct (residual_ok g j d row drow Hg Hrow Hdrow) as [Hr Hl].
  unfold recover_position, scores_of. rewrite Hr. cbn [mbind res_bind].
  rewrite zip_tensor_ok by (rewrite length_fmap; lia). split; [done|]. rewrite length_zip_with, length_fmap. lia.
Qed.

(** *** The requests packed into one tensor *)

Variable segs : list Seg.
Hypothesis segs_ok : Forall seg_ok segs.

Definition drafts : list (list Z) := sg_drafts <$> segs.
Definition counts : list Z := len <$> drafts.
Definition offset (i : nat) : Z := sumZ (take i counts).

Lemma seg_lookup i g : segs !! i = Some g -> seg_ok g /\ drafts !! i = Some (sg_drafts g) /\
  counts !! i = Some (len (sg_drafts g)).
Proof.
  intros Hi. split; [by apply (Forall_lookup_1 _ _ _ _ segs_ok Hi)|].
  unfold counts, drafts. rewrite !list_lookup_fmap, Hi. done.
Qed.

(** A packed tensor with as many entries of a request as it has drafts. *)
Lemma packed_slice {A} (f : Seg -> list A) i g :
  (forall g, g ∈ segs -> length (f g) = length (sg_drafts g)) -> segs !! i = Some g ->
  py_slice (concat (f <$> segs)) (offset i) (offset i + len (sg_drafts g)) = f g.
Proof.
  intros Hf Hi. assert (len <$> (f <$> segs) = counts) as Hc.
  { unfold counts, drafts. rewrite <- !list_fmap_compose. apply list_fmap_ext. intros j x Hj.
    unfold len. cbn. rewrite (Hf x); [done|]. by apply list_elem_of_lookup_2 in Hj. }
  unfold offset. rewrite <- Hc.
  assert (len (sg_drafts g) = len (f g)) as ->
    by (unfold len; rewrite (Hf g); [done|]; by apply list_elem_of_lookup_2 in Hi).
  apply slice_concat. by rewrite list_lookup_fmap, Hi.
Qed.

Lemma packed_lookup {A} (f : Seg -> list A) i g (j : nat) x :
  (forall g, g ∈ segs -> length (f g) = length (sg_drafts g)) -> segs !! i = Some g ->
  f g !! j = Some x -> py_nth (concat (f <$> segs)) (offset i + Z.of_nat j) = Some x.
Proof.
  intros Hf Hi Hj. pose proof (packed_slice f i g Hf Hi) as Hs.
  assert (0 <= offset i) as H0.
  { unfold offset. apply sumZ_nonneg, Forall_take. unfold counts. apply Forall_fmap, Forall_forall.
    intros l _. cbn. apply len_nonneg. }
  rewrite <- Hs in Hj. rewrite lookup_py_slice in Hj by done. case_decide; [|done].
  replace (offset i + Z.of_nat j) with (Z.of_nat (Z.to_nat (offset i) + j)) by lia. by apply py_nth_lookup.
Qed.

Lemma member_ok g : g ∈ segs -> seg_ok g.
Proof. intros [i Hi]%list_elem_of_lookup. apply (seg_lookup i g Hi). Qed.

Lemma target_length g : g ∈ segs -> length (sg_target g) = length (sg_drafts g).
Proof. intros Hg. apply (so_target g (member_ok g Hg)). Qed.

Lemma dprobs_length g : g ∈ segs -> length (sg_dprobs g) = length (sg_drafts g).
Proof. intros Hg. apply (so_dprobs g (member_ok g Hg)). Qed.

Lemma uniform_length g : g ∈ segs -> length (sg_uniform g) = length (sg_drafts g).
Proof. intros Hg. apply (so_uniform g (member_ok g Hg)). Qed.

Definition all_drafts : list Z := concat drafts.
Definition all_target : list (list F) := concat (sg_target <$> segs).
Definition all_dprobs : option (list (list F)) :=
  if use_dprobs then Some (concat (sg_dprobs <$> segs)) else None.
Definition all_uniform : list F := concat (sg_uniform <$> segs).

(** *** Recovered tokens of the batch *)

Lemma assign_slice_ok {A} s (v t : list A) : 0 <= s -> (Z.to_nat s + length v <= length t)%nat ->
  assign_slice s (s + len v) v t = Ok (take (Z.to_nat s) t ++ v ++ drop (Z.to_nat s + length v) t).
Proof.
  intros Hs Ht. unfold assign_slice.
  assert ((len v =? len (py_slice t s (s + len v))) = true) as ->.
  { apply Z.eqb_eq. unfold py_slice, len. rewrite length_take, length_drop. lia. }
  unfold py_take, len. repeat f_equal; lia.
Qed.

(** A request's turn in the recovery of tokens. *)
Lemma recover_request (q : list F) i g : segs !! i = Some g -> length q = vocab ->
  mapM (fun i => d ← of_option (py_nth all_drafts i) IndexError;
                 t ← of_option (py_nth all_target i) IndexError;
                 dp ← match all_dprobs with
                      | None => Ok None
                      | Some dps => dp ← of_option (py_nth dps i) IndexError; Ok (Some dp)
                      end;
                 recover_position d dp t q) (seqZ (offset i) (len (sg_drafts g)))
  = Ok (recovered_of q g).
Proof.
  intros Hi Hq. destruct (seg_lookup i g Hi) as (Hg & _ & _).
  assert (recovered_of q g = (fun k => argmax (scores_of q g (Z.to_nat (k - offset i))
    (default 0 (sg_drafts g !! Z.to_nat (k - offset i))))) <$> seqZ (offset i) (len (sg_drafts g))) as ->.
  { apply list_eq. intros j. unfold recovered_of. rewrite list_lookup_imap, list_lookup_fmap.
    destruct (decide (j < length (sg_drafts g))%nat) as [Hj|Hj].
    - destruct (lookup_lt_is_Some_2 (sg_drafts g) j Hj) as [d Hd].
      rewrite lookup_seqZ_lt by (unfold len; lia). cbn.
      replace (Z.to_nat (offset i + Z.of_nat j - offset i)) with j by lia. by rewrite Hd.
    - rewrite lookup_ge_None_2 by lia. rewrite lookup_seqZ_ge by (unfold len; lia). done. }
  apply mapM_Ok. intros k Hk%elem_of_seqZ. unfold len in Hk.
  set (j := Z.to_nat (k - offset i)). replace k with (offset i + Z.of_nat j) by lia.
  destruct (lookup_lt_is_Some_2 (sg_drafts g) j) as [d Hd]; [lia|].
  destruct (lookup_lt_is_Some_2 (sg_target g) j) as [row Hrow]; [rewrite (so_target g Hg); lia|].
  destruct (lookup_lt_is_Some_2 (sg_dprobs g) j) as [drow Hdrow]; [rewrite (so_dprobs g Hg); lia|].
  unfold all_drafts, drafts. rewrite (packed_lookup sg_drafts i g j d) by done. cbn [of_option mbind res_bind].
  unfold all_target. rewrite (packed_lookup sg_target i g j row) by (done || apply target_length).
  cbn [of_option mbind res_bind]. rewrite Hd. change (default 0 (Some d)) with d.
  destruct (recover_position_ok g q j d row drow Hg Hq Hrow Hdrow) as [<- _].
  unfold all_dprobs. destruct use_dprobs; [|done].
  by rewrite (packed_lookup sg_dprobs i g j drow) by (done || apply dprobs_length).
Qed.

Definition recovered_at (q : list (list F)) (i : nat) (g : Seg) : list Z := recovered_of (row_at q i) g.

Lemma offset_S i g : segs !! i = Some g -> offset (S i) = offset i + len (sg_drafts g).
Proof.
  intros Hi. destruct (seg_lookup i g Hi) as (_ & _ & Hc). unfold offset.
  rewrite (take_S_r _ _ _ Hc), sumZ_app, sumZ_cons. cbn. lia.
Qed.

Lemma length_recovered_prefix q (k : nat) : (k <= length segs)%nat ->
  Z.of_nat (length (concat (take k (imap (recovered_at q) segs)))) = offset k.
Proof.
  induction k as [|k IH]; intros Hk; [done|].
  destruct (lookup_lt_is_Some_2 segs k) as [g Hg]; [lia|].
  rewrite (take_S_r _ _ (recovered_at q k g)) by (by rewrite list_lookup_imap, Hg).
  rewrite concat_app, length_app, Nat2Z.inj_add, IH by lia. cbn [concat]. rewrite app_nil_r.
  rewrite (offset_S k g Hg). unfold recovered_at, recovered_of, len. by rewrite length_imap.
Qed.

Lemma recovered_ok (empty : list Z) (q : list (list F)) :
  len empty = sumZ counts -> length q = length segs -> Forall (fun row => length row = vocab) q ->
  torch_sample_recovered_tokens_kernel empty (cumulative 0 counts) all_drafts all_dprobs all_target q
    (len segs) = Ok (concat (imap (recovered_at q) segs)).
Proof.
  intros Hempty Hq Hrows. unfold torch_sample_recovered_tokens_kernel. rewrite lens_cumulative.
  set (R := imap (recovered_at q) segs).
  assert (offset (length segs) = sumZ counts) as Htotal.
  { unfold offset. f_equal. apply take_ge. unfold counts, drafts. rewrite !length_fmap. lia. }
  match goal with |- foldM ?f _ _ = _ => set (step := f) end.
  assert (forall m k, (k + m = length segs)%nat ->
    foldM step (concat (take k R) ++ drop (length (concat (take k R))) empty) (seqZ (Z.of_nat k) (Z.of_nat m))
    = Ok (concat R)) as Hgen.
  { induction m as [|m IH]; intros k Hk.
    - cbn. rewrite (take_ge R) by (unfold R; rewrite length_imap; lia).
      rewrite drop_ge, app_nil_r; [done|].
      pose proof (length_recovered_prefix q (length segs) ltac:(lia)) as Hl. fold R in Hl.
      rewrite (take_ge R) in Hl by (unfold R; rewrite length_imap; lia). unfold len in Hempty. lia.
    - rewrite seqZ_cons by lia. cbn [foldM]. destruct (lookup_lt_is_Some_2 segs k) as [g Hg]; [lia|].
      destruct (seg_lookup k g Hg) as (Hok & _ & Hc).
      destruct (lookup_lt_is_Some_2 q k) as [qk Hqk]; [lia|].
      pose proof (length_recovered_prefix q k ltac:(lia)) as Hlk. fold R in Hlk.
      pose proof (length_recovered_prefix q (S k) ltac:(lia)) as HlS. fold R in HlS.
      assert (R !! k = Some (recovered_of qk g)) as HR.
      { unfold R, recovered_at. by rewrite list_lookup_imap, Hg, (lookup_row _ _ _ Hqk). }
      assert (len (recovered_of qk g) = len (sg_drafts g)) as Hlr
        by (unfold recovered_of, len; by rewrite length_imap).
      assert (step (concat (take k R) ++ drop (length (concat (take k R))) empty) (Z.of_nat k) =
        Ok (concat (take (S k) R) ++ drop (length (concat (take (S k) R))) empty)) as ->.
      { rewrite (take_S_r _ _ _ HR), concat_app in HlS |- *. cbn [concat] in HlS |- *.
        rewrite app_nil_r in HlS |- *. rewrite length_app in HlS |- *.
        unfold step. rewrite (py_nth_lookup _ _ _ Hc). cbn [of_option mbind res_bind].
        destruct (len (sg_drafts g) <=? 0) eqn:E0; zbool.
        - assert (recovered_of qk g = []) as ->.
          { destruct (recovered_of qk g); [done|]. rewrite len_cons in Hlr.
            pose proof (len_nonneg (sg_drafts g)). pose proof (len_nonneg l). lia. }
          by rewrite app_nil_r, Nat.add_0_r.
        - rewrite (py_nth_lookup (starts _) k (offset k))
            by (apply starts_lookup; unfold counts, drafts; rewrite !length_fmap; lia).
          cbn [of_option mbind res_bind]. rewrite (py_nth_lookup _ _ _ Hqk). cbn [of_option mbind res_bind].
          rewrite (recover_request qk k g Hg) by (by apply (Forall_lookup_1 _ _ _ _ Hrows Hqk)).
          cbn [mbind res_bind]. rewrite <- Hlr. unfold len in Hempty, Hlr.
          assert (offset (S k) <= sumZ counts) as Hle.
          { rewrite <- Htotal. unfold offset. rewrite <- (take_drop (S k) (take (length segs) counts)).
            rewrite sumZ_app, take_take, Nat.min_l by lia.
            assert (0 <= sumZ (drop (S k) (take (length segs) counts))); [|lia].
            apply sumZ_nonneg, Forall_drop, Forall_take. unfold counts. apply Forall_fmap, Forall_forall.
            intros l _. cbn. apply len_nonneg. }
          rewrite assign_slice_ok; [|lia|rewrite length_app, length_drop; lia].
          rewrite <- Hlk, Nat2Z.id. rewrite take_app_length. rewrite <- app_assoc. do 3 f_equal.
          rewrite drop_app_ge by lia. rewrite drop_drop. f_equal. lia. }
      cbn [mbind res_bind]. replace (Z.pred (Z.of_nat (S m))) with (Z.of_nat m) by lia.
      replace (Z.succ (Z.of_nat k)) with (Z.of_nat (S k)) by lia. apply IH. lia. }
  exact (Hgen (length segs) 0%nat eq_refl).
Qed.

(** The exponential numbers a request ends up with: its own generator's when it has one and
    a draft, else its row of the batch's. *)
Definition draw_of (q_all : list (list F)) (q_generator : Z -> list F) (gens : list Z) (i : nat) : list F :=
  if bool_decide (Z.of_nat i ∈ gens) && (0 <? default 0 (counts !! i)) then q_generator (Z.of_nat i)
  else row_at q_all i.

Lemma exponential_draws_ok q_all (q_generator : Z -> list F) gens :
  length q_all = length segs -> Forall (fun row => length row = vocab) q_all ->
  Forall (fun i => 0 <= i < len segs /\ length (q_generator i) = vocab) gens ->
  exists q, exponential_draws q_all q_generator gens counts = Ok q /\
    length q = length segs /\ Forall (fun row => length row = vocab) q /\
    forall i, row_at q i = draw_of q_all q_generator gens i.
Proof.
  intros Hl Hr Hg. unfold exponential_draws. revert q_all Hl Hr.
  induction Hg as [|i gens [Hi Hlen] _ IH]; intros q_all Hl Hr; cbn [foldM]; [by exists q_all|].
  assert (exists j : nat, i = Z.of_nat j) as [j ->] by (exists (Z.to_nat i); lia). unfold len in Hi.
  destruct (lookup_lt_is_Some_2 counts j) as [n Hn]; [unfold counts, drafts; rewrite !length_fmap; lia|].
  rewrite (py_nth_lookup _ _ _ Hn). cbn [of_option mbind res_bind]. destruct (0 <? n) eqn:E.
  - rewrite assign_at_ok by lia. cbn [mbind res_bind].
    destruct (IH (<[j:=q_generator (Z.of_nat j)]> q_all)) as (q & H1 & H2 & H3 & H4);
      [by rewrite length_insert|by apply Forall_insert|].
    exists q. do 3 (split; [done|]). intros i'. rewrite H4. unfold draw_of.
    destruct (decide (i' = j)) as [->|Hne].
    + rewrite Hn. cbn [default]. unfold id. rewrite E.
      rewrite (bool_decide_true (Z.of_nat j ∈ Z.of_nat j :: gens)) by set_solver. cbn.
      destruct (bool_decide _); [done|]. unfold row_at. by rewrite list_lookup_insert_eq by lia.
    + unfold row_at. rewrite list_lookup_insert_ne by done.
      assert (bool_decide (Z.of_nat i' ∈ Z.of_nat j :: gens) = bool_decide (Z.of_nat i' ∈ gens)) as ->; [|done].
      apply bool_decide_ext. rewrite elem_of_cons. split; [intros [?|?]; [lia|done]|auto].
  - destruct (IH q_all Hl Hr) as (q & H1 & H2 & H3 & H4). exists q. do 3 (split; [done|]).
    intros i'. rewrite H4. unfold draw_of. destruct (decide (i' = j)) as [->|Hne].
    + rewrite Hn. cbn [default]. unfold id. by rewrite E, !andb_false_r.
    + assert (bool_decide (Z.of_nat i' ∈ Z.of_nat j :: gens) = bool_decide (Z.of_nat i' ∈ gens)) as ->; [|done].
      apply bool_decide_ext. rewrite elem_of_cons. split; [intros [?|?]; [lia|done]|auto].
Qed.

Lemma recovered_lookup q i g (k : nat) x : segs !! i = Some g -> recovered_at q i g !! k = Some x ->
  py_nth (concat (imap (recovered_at q) segs)) (offset i + Z.of_nat k) = Some x.
Proof.
  intros Hi Hk. set (R := imap (recovered_at q) segs).
  assert (R !! i = Some (recovered_at q i g)) as HR by (unfold R; by rewrite list_lookup_imap, Hi).
  assert (len <$> R = counts) as Hc.
  { apply list_eq. intros j. unfold R, counts, drafts. rewrite !list_lookup_fmap, list_lookup_imap.
    destruct (segs !! j); [|done]. cbn. f_equal. unfold recovered_at, recovered_of, len. by rewrite length_imap. }
  pose proof (slice_concat R i _ HR) as Hs. rewrite Hc in Hs. fold (offset i) in Hs.
  assert (0 <= offset i) as H0.
  { unfold offset. apply sumZ_nonneg, Forall_take. unfold counts. apply Forall_fmap, Forall_forall.
    intros l _. cbn. apply len_nonneg. }
  rewrite <- Hs in Hk. rewrite lookup_py_slice in Hk by done. case_decide; [|done].
  replace (offset i + Z.of_nat k) with (Z.of_nat (Z.to_nat (offset i) + k)) by lia. by apply py_nth_lookup.
Qed.

(** *** The two kernels on the batch *)

Variable bonus : list Z.
Hypothesis bonus_length : length bonus = length segs.
Variable mode : bool.
Hypothesis mode_synthetic : mode = bool_decide (is_Some synthetic).

(** The tokens a request emits on the greedy and on the random path. *)
Definition greedy_tokens (i : nat) (g : Seg) : list Z :=
  let t := argmax <$> sg_target g in
  speculate
    (greedy_accept V (sg_drafts g) t
       ((fun r => (sg_uniform g, py_take (len (sg_drafts g)) r)) <$> synthetic))
    (sg_drafts g) t (default 0 (bonus !! i)).

Definition random_tokens (q : list (list F)) (i : nat) (g : Seg) : list Z :=
  speculate (imap (accepts g) (sg_drafts g)) (sg_drafts g) (recovered_at q i g) (default 0 (bonus !! i)).

Lemma turn_speculate accept (ds repl : list Z) b :
  length accept = length ds -> turn ds b (speculate accept ds repl b) = speculate accept ds repl b.
Proof. intros Ha. destruct ds; [|done]. by destruct accept. Qed.

Lemma default_lookup_seg (i : nat) g : segs !! i = Some g -> default [] (drafts !! i) = sg_drafts g.
Proof. intros Hi. by rewrite (proj1 (proj2 (seg_lookup i g Hi))). Qed.

Lemma greedy_accept_length g :
  seg_ok g -> length (greedy_accept V (sg_drafts g) (argmax <$> sg_target g)
    ((fun r => (sg_uniform g, py_take (len (sg_drafts g)) r)) <$> synthetic)) = length (sg_drafts g).
Proof.
  intros [Ht _ _ _ Hu Hr]. unfold greedy_accept. destruct synthetic as [r|]; cbn [fmap option_fmap option_map].
  - specialize (Hr r eq_refl). rewrite !length_zip_with. unfold py_take, len. rewrite length_fmap, length_take. lia.
  - rewrite length_zip_with, length_fmap. lia.
Qed.

(** Rows long enough for every request. *)
Definition rows_fit (out : list (list Z)) : Prop :=
  length out = length segs /\
  forall i g row, segs !! i = Some g -> out !! i = Some row -> (length (sg_drafts g) < length row)%nat.

Lemma rows_fit_pos out : rows_fit out -> forall i row, out !! i = Some row -> (0 < length row)%nat.
Proof.
  intros [Hl Hr] i row Hi. destruct (lookup_lt_is_Some_2 segs i) as [g Hg];
    [apply lookup_lt_Some in Hi; lia|]. specialize (Hr i g row Hg Hi). lia.
Qed.

Lemma len_segs : len segs = len drafts.
Proof. unfold len, drafts. by rewrite length_fmap. Qed.

Lemma imap_turn (mask : list bool) (tokens : nat -> Seg -> list Z) out : rows_fit out ->
  length mask = length segs ->
  (forall i g, segs !! i = Some g -> turn (sg_drafts g) (default 0 (bonus !! i)) (tokens i g) = tokens i g) ->
  imap (fun i row => if default false (mask !! i)
      then over (turn (default [] (drafts !! i)) (default 0 (bonus !! i)) (default [] (tokens i <$> segs !! i))) row
      else row) out =
  imap (fun i row => if default false (mask !! i) then over (default [] (tokens i <$> segs !! i)) row else row) out.
Proof.
  intros [Hl _] Hm Ht. apply list_eq. intros i. rewrite !list_lookup_imap.
  destruct (out !! i) as [row|] eqn:Hrow; [|done]. cbn. f_equal.
  destruct (lookup_lt_is_Some_2 segs i) as [g Hg]; [apply lookup_lt_Some in Hrow; lia|].
  rewrite (default_lookup_seg i g Hg), Hg. cbn. by rewrite (Ht i g Hg).
Qed.

Lemma greedy_kernel_ok (mask : option (list bool)) (u : option (list F)) out :
  rows_fit out -> (forall m, mask = Some m -> length m = length segs) ->
  (mode = true -> u = Some all_uniform) ->
  torch_rejection_greedy_sample_kernel out (cumulative 0 counts) all_drafts
    (argmax <$> all_target) bonus mask (len segs) V u synthetic mode =
  Ok (imap (fun i row => if default true ((fun m => default false (m !! i)) <$> mask)
                         then over (default [] (greedy_tokens i <$> segs !! i)) row else row) out).
Proof.
  intros Hfit Hmask Hu. unfold torch_rejection_greedy_sample_kernel.
  set (m := default (repeat true (Z.to_nat (len segs))) mask).
  assert (length m = length segs) as Hm.
  { unfold m. destruct mask as [m'|]; cbn; [by apply Hmask|]. rewrite repeat_length. unfold len. lia. }
  assert (argmax <$> all_target = concat ((fun g => argmax <$> sg_target g) <$> segs)) as Harg.
  { unfold all_target. clear. induction segs as [|g l IH]; [done|]. rewrite !fmap_cons. cbn [concat].
    by rewrite fmap_app, IH. }
  rewrite len_segs. unfold counts.
  rewrite (each_request_ok drafts m bonus _ (fun i => default [] (greedy_tokens i <$> segs !! i)) out).
  - f_equal. rewrite (imap_turn m greedy_tokens out Hfit Hm).
    + apply imap_ext. intros i row Hi. unfold m. destruct mask as [m'|]; cbn; [done|].
      assert (i < length segs)%nat by (apply lookup_lt_Some in Hi; destruct Hfit; lia).
      by rewrite lookup_repeat by (unfold len; lia).
    + intros i g Hg. destruct (seg_lookup i g Hg) as (Hok & _). apply turn_speculate.
      by apply greedy_accept_length.
  - unfold drafts. rewrite length_fmap. exact Hm.
  - unfold drafts. rewrite length_fmap. done.
  - unfold drafts. rewrite length_fmap. by destruct Hfit.
  - intros i d row b Hd Hrow Hb Hmi Hne. unfold drafts in Hd. rewrite list_lookup_fmap in Hd.
    destruct (segs !! i) as [g|] eqn:Hg; [|done]. injection Hd as <-.
    destruct (seg_lookup i g Hg) as (Hok & _). fold counts. fold (offset i).
    rewrite Harg. unfold all_drafts, drafts. rewrite !packed_slice by (done || (intros; rewrite length_fmap; by apply target_length)).
    assert ((if mode then u0 ← of_option u AssertionError; rates ← of_option synthetic AssertionError;
               Ok (Some (py_slice u0 (offset i) (offset i + len (sg_drafts g)), rates)) else Ok None) =
            Ok ((fun r => (sg_uniform g, r)) <$> synthetic)) as ->.
    { rewrite mode_synthetic in *. destruct synthetic as [r|]; cbn [bool_decide is_Some_dec]; [|done].
      rewrite Hu by done. cbn [of_option mbind res_bind]. unfold all_uniform.
      by rewrite packed_slice by (done || apply uniform_length). }
    cbn [mbind res_bind]. rewrite greedy_request_ok.
    + cbn [fmap option_fmap option_map default]. unfold greedy_tokens. rewrite Hb. by destruct synthetic.
    + rewrite length_fmap. apply (so_target g Hok).
    + apply (proj2 Hfit i g row Hg Hrow).
    + intros u' r Hur. destruct synthetic as [r'|] eqn:Es; [|done]. injection Hur as <- <-.
      split; [apply (so_uniform g Hok)|by apply (so_rates g Hok)].
  - by apply rows_fit_pos.
Qed.

Lemma random_kernel_ok (q : list (list F)) (mask : option (list bool)) out :
  rows_fit out -> (forall m, mask = Some m -> length m = length segs) ->
  torch_rejection_random_sample_kernel out (cumulative 0 counts) all_drafts all_dprobs all_target bonus
    (concat (imap (recovered_at q) segs)) all_uniform mask (len segs) V synthetic mode =
  Ok (imap (fun i row => if default true ((fun m => negb (default true (m !! i))) <$> mask)
                         then over (default [] (random_tokens q i <$> segs !! i)) row else row) out).
Proof.
  intros Hfit Hmask. unfold torch_rejection_random_sample_kernel.
  set (m := default (repeat true (Z.to_nat (len segs))) ((fun g : list bool => negb <$> g) <$> mask)).
  assert (length m = length segs) as Hm.
  { unfold m. destruct mask as [m'|]; cbn; [rewrite length_fmap; by apply Hmask|].
    rewrite repeat_length. unfold len. lia. }
  rewrite len_segs. unfold counts.
  rewrite (each_request_ok drafts m bonus _ (fun i => default [] (random_tokens q i <$> segs !! i)) out).
  - f_equal. rewrite (imap_turn m (random_tokens q) out Hfit Hm).
    + apply imap_ext. intros i row Hi. unfold m.
      assert (i < length segs)%nat as Hil by (apply lookup_lt_Some in Hi; destruct Hfit; lia).
      destruct mask as [m'|]; cbn.
      * rewrite list_lookup_fmap. destruct (lookup_lt_is_Some_2 m' i) as [b ->]; [|by destruct b].
        rewrite (Hmask m' eq_refl). done.
      * by rewrite lookup_repeat by (unfold len; lia).
    + intros i g Hg. apply turn_speculate. by rewrite length_imap.
  - unfold drafts. rewrite length_fmap. exact Hm.
  - unfold drafts. rewrite length_fmap. done.
  - unfold drafts. rewrite length_fmap. by destruct Hfit.
  - intros i d row b Hd Hrow Hb Hmi Hne. unfold drafts in Hd. rewrite list_lookup_fmap in Hd.
    destruct (segs !! i) as [g|] eqn:Hg; [|done]. injection Hd as <-.
    destruct (seg_lookup i g Hg) as (Hok & _). fold counts. fold (offset i).
    unfold all_drafts, drafts, all_target, all_uniform.
    rewrite !packed_slice by (done || apply target_length || apply uniform_length).
    assert ((if mode then rates ← of_option synthetic AssertionError; Ok (Some rates) else Ok None) =
            Ok synthetic) as -> by (rewrite mode_synthetic; by destruct synthetic).
    cbn [mbind res_bind].
    assert ((fun dp : list (list F) => py_slice dp (offset i) (offset i + len (sg_drafts g))) <$> all_dprobs =
            if use_dprobs then Some (sg_dprobs g) else None) as ->.
    { unfold all_dprobs. destruct use_dprobs; [|done]. cbn.
      by rewrite packed_slice by (done || apply dprobs_length). }
    rewrite (random_accept_ok g Hok). cbn [mbind res_bind fmap option_fmap option_map default].
    unfold random_tokens. rewrite Hb. apply emit_ok.
    + done.
    + by rewrite length_imap.
    + unfold recovered_at, recovered_of. by rewrite length_imap.
    + apply (proj2 Hfit i g row Hg Hrow).
    + intros k x Hk. by rewrite (recovered_lookup q i g k x Hg Hk).
  - by apply rows_fit_pos.
Qed.

(** *** The whole path *)

Variable m : SamplingMetadata F.

Definition greedy_row (i : nat) : bool :=
  if all_greedy m then true
  else default false ((fun t => f_eqb t GREEDY_TEMPERATURE) <$> (t ← temperature m; t !! i)).

(** The flags agree with the temperatures, and generators belong to requests. *)
Record meta_ok : Prop := {
  mo_temperature : all_greedy m = false -> exists t, temperature m = Some t /\ length t = length segs;
  mo_random : all_random m = true -> all_greedy m = false /\ forall i, greedy_row i = false;
  mo_generators : Forall (fun i => 0 <= i < len segs) (generators m)
}.

Record draws_ok (w : Draws F) : Prop := {
  wo_uniform : uniform w = all_uniform;
  wo_q : length (q_all w) = length segs /\ Forall (fun row => length row = vocab) (q_all w);
  wo_generator : forall i, length (q_generator w i) = vocab;
  wo_empty : len (uninitialised w) = sumZ counts
}.

(** [K + 1] columns, the placeholder behind the tokens. *)
Definition padded (K : Z) (tokens : list Z) : list Z :=
  over tokens (repeat PLACEHOLDER_TOKEN_ID (Z.to_nat (K + 1))).

Definition row_tokens (q : list (list F)) (i : nat) (g : Seg) : list Z :=
  if greedy_row i then greedy_tokens i g else random_tokens q i g.

Lemma length_packed {A} (f : Seg -> list A) :
  (forall g, g ∈ segs -> length (f g) = length (sg_drafts g)) -> len (concat (f <$> segs)) = sumZ counts.
Proof.
  intros Hf. assert (len <$> (f <$> segs) = counts) as <-.
  { unfold counts, drafts. rewrite <- !list_fmap_compose. apply list_fmap_ext. intros j x Hj.
    unfold len. cbn. rewrite (Hf x); [done|]. by apply list_elem_of_lookup_2 in Hj. }
  generalize (f <$> segs). clear. intros ls. induction ls as [|l ls IH]; [done|].
  cbn [concat]. by rewrite len_app, IH, fmap_cons, sumZ_cons.
Qed.

Lemma greedy_mask_ok : meta_ok -> exists mask, greedy_mask m = Ok mask /\
  (forall l, mask = Some l -> length l = length segs) /\
  forall i, (i < length segs)%nat ->
    default true ((fun l => default false (l !! i)) <$> mask) = greedy_row i /\
    default true ((fun l => negb (default true (l !! i))) <$> mask) = (all_greedy m || negb (greedy_row i)).
Proof.
  intros Hm. unfold greedy_mask, greedy_row. destruct (all_greedy m) eqn:Eg.
  { exists None. split; [done|]. split; [done|]. done. }
  destruct (mo_temperature Hm Eg) as (t & Ht & Hl). rewrite Ht. cbn [of_option mbind res_bind].
  eexists. split; [reflexivity|]. split.
  { intros l [= <-]. by rewrite length_fmap. }
  intros i Hi. cbn. rewrite list_lookup_fmap.
  destruct (lookup_lt_is_Some_2 t i) as [x ->]; [lia|]. done.
Qed.

Lemma rows_fit_initial K : (forall g, g ∈ segs -> len (sg_drafts g) <= K) ->
  rows_fit (repeat (repeat PLACEHOLDER_TOKEN_ID (Z.to_nat (K + 1))) (Z.to_nat (len segs))).
Proof.
  intros HK. split; [rewrite repeat_length; unfold len; lia|]. intros i g row Hg Hrow.
  assert (i < length segs)%nat by (by apply lookup_lt_Some in Hg).
  rewrite lookup_repeat in Hrow by (unfold len; lia). injection Hrow as <-. rewrite repeat_length.
  specialize (HK g ltac:(by apply list_elem_of_lookup_2 in Hg)). unfold len in HK. lia.
Qed.

Lemma tokens_bound q i g : seg_ok g -> (length (row_tokens q i g) <= S (length (sg_drafts g)))%nat.
Proof. intros Hg. unfold row_tokens. destruct (greedy_row i); apply speculate_length. Qed.

Lemma imap_imap' {A B C} (f : nat -> B -> C) (g : nat -> A -> B) l :
  imap f (imap g l) = imap (fun i x => f i (g i x)) l.
Proof. apply list_eq. intros i. rewrite !list_lookup_imap. by destruct (l !! i). Qed.

Lemma imap_repeat {A B C} (f : nat -> A -> C) (h : nat -> B -> C) (x : A) (l : list B) :
  (forall i y, l !! i = Some y -> f i x = h i y) -> imap f (repeat x (length l)) = imap h l.
Proof.
  intros Hf. apply list_eq. intros i. rewrite !list_lookup_imap.
  destruct (l !! i) as [y|] eqn:Hi.
  - rewrite lookup_repeat by (by apply lookup_lt_Some in Hi). cbn. f_equal. by apply Hf.
  - rewrite lookup_ge_None_2; [done|]. rewrite repeat_length. by apply lookup_ge_None in Hi.
Qed.

Lemma torch_rejection_sample_ok K w : meta_ok -> draws_ok w ->
  (forall g, g ∈ segs -> len (sg_drafts g) <= K) ->
  exists q, length q = length segs /\ Forall (fun row => length row = vocab) q /\
    (forall i, row_at q i = draw_of (q_all w) (q_generator w) (generators m) i) /\
    torch_rejection_sample all_drafts counts K (cumulative 0 counts) all_dprobs all_target V bonus m mode
      synthetic w = Ok (imap (fun i g => padded K (row_tokens q i g)) segs).
Proof.
  intros Hm Hw HK.
  destruct (exponential_draws_ok (q_all w) (q_generator w) (generators m)) as (q & Hq & Hql & Hqr & Hqd).
  { apply (wo_q w Hw). } { apply (wo_q w Hw). }
  { eapply Forall_impl; [apply (mo_generators Hm)|]. intros i Hi. split; [done|apply (wo_generator w Hw)]. }
  exists q. do 3 (split; [done|]).
  destruct (greedy_mask_ok Hm) as (mask & Emask & Hmask & Hrow).
  pose proof (rows_fit_initial K HK) as Hfit. unfold torch_rejection_sample.
  assert ((len all_target =? len all_drafts) = true) as ->.
  { apply Z.eqb_eq. unfold all_target, all_drafts, drafts. rewrite !length_packed; [done|done|apply target_length]. }
  cbn [require mbind res_bind]. rewrite Emask. cbn [mbind res_bind].
  assert (len counts = len segs) as -> by (unfold counts, drafts, len; by rewrite !length_fmap).
  set (init := repeat (repeat _ _) _) in *. rewrite (wo_uniform w Hw).
  set (u := if mode || negb (all_greedy m) then Some all_uniform else None).
  set (greedy_rows := imap (fun i row => if default true ((fun l => default false (l !! i)) <$> mask)
                                          then over (default [] (greedy_tokens i <$> segs !! i)) row else row) init).
  assert (forall i row, init !! i = Some row -> (i < length segs)%nat) as Hlt.
  { intros i row Hi. apply lookup_lt_Some in Hi. destruct Hfit. lia. }
  assert ((if negb (all_random m)
           then torch_rejection_greedy_sample_kernel init (cumulative 0 counts) all_drafts (argmax <$> all_target)
                  bonus mask (len segs) V u synthetic mode
           else Ok init) = Ok greedy_rows) as ->.
  { destruct (all_random m) eqn:Er; cbn [negb].
    - destruct (mo_random Hm Er) as [_ Hr]. f_equal. unfold greedy_rows. apply list_eq. intros i.
      rewrite list_lookup_imap. destruct (init !! i) as [row|] eqn:Hi; [|done]. cbn.
      by rewrite (proj1 (Hrow i (Hlt i row Hi))), Hr.
    - apply greedy_kernel_ok; [done|done|]. intros ->. done. }
  cbn [mbind res_bind].
  assert (forall f, (forall i g, segs !! i = Some g -> f i (repeat PLACEHOLDER_TOKEN_ID (Z.to_nat (K + 1))) =
            padded K (row_tokens q i g)) -> imap f init = imap (fun i g => padded K (row_tokens q i g)) segs) as Himap.
  { intros f Hf. unfold init. replace (Z.to_nat (len segs)) with (length segs) by (unfold len; lia).
    by apply imap_repeat. }
  destruct (all_greedy m) eqn:Eg.
  - destruct (all_random m) eqn:Er; [destruct (mo_random Hm Er); congruence|]. cbn [negb andb]. f_equal.
    apply Himap. intros i g Hg. rewrite (proj1 (Hrow i ltac:(by apply lookup_lt_Some in Hg))), Hg.
    unfold row_tokens, greedy_row. by rewrite Eg.
  - rewrite andb_false_r. unfold sample_recovered_tokens. rewrite Hq. cbn [mbind res_bind].
    assert (len counts = len segs) as -> by (unfold counts, drafts, len; by rewrite !length_fmap).
    rewrite (recovered_ok (uninitialised w) q (wo_empty w Hw) Hql Hqr). cbn [mbind res_bind].
    unfold u. rewrite orb_true_r. cbn [of_option mbind res_bind]. rewrite random_kernel_ok; [|split|done].
    + f_equal. unfold greedy_rows. rewrite imap_imap'. apply Himap. intros i g Hg.
      destruct (Hrow i ltac:(by apply lookup_lt_Some in Hg)) as [H1 H2]. rewrite H1, H2, Hg.
      unfold row_tokens. destruct (greedy_row i); done.
    + unfold greedy_rows. rewrite length_imap. by destruct Hfit.
    + intros i g row Hg Hr. unfold greedy_rows in Hr. rewrite list_lookup_imap in Hr.
      destruct (init !! i) as [r0|] eqn:H0; [|done]. injection Hr as <-.
      pose proof (proj2 Hfit i g r0 Hg H0). rewrite Hg. cbn. case_match; [|done].
      unfold over. rewrite length_app, length_drop. pose proof (speculate_length
        (greedy_accept V (sg_drafts g) (argmax <$> sg_target g)
          ((fun r => (sg_uniform g, py_take (len (sg_drafts g)) r)) <$> synthetic)) (sg_drafts g)
        (argmax <$> sg_target g) (default 0 (bonus !! i))). unfold greedy_tokens. lia.
Qed.
End batch.

(** ** What the PyTorch path guarantees *)

(** PyTorch's documented argmax: an index of the row, of a value nothing is greater than. *)
Class TorchLaws (F : Type) `{Torch F} := {
  argmax_range (row : list F) : row <> [] -> 0 <= argmax row < len row;
  argmax_max (row : list F) j x :
    row !! j = Some x -> f_gtb x (at_ row (Z.to_nat (argmax row))) = false
}.

Section properties.
Context {F : Type} `{T : Torch F}.
Implicit Types segs : list (@Seg F).

(** A well-formed call for the requests [segs]. *)
Record batch_ok (vocab : nat) (synthetic : option (list F)) segs (bonus : list Z)
    (m : SamplingMetadata F) (w : Draws F) (K : Z) : Prop := {
  ba_vocab : (0 < vocab)%nat;
  ba_segs : Forall (seg_ok vocab synthetic) segs;
  ba_bonus : length bonus = length segs;
  ba_meta : meta_ok segs m;
  ba_draws : draws_ok vocab segs w;
  ba_fits : forall g, g ∈ segs -> len (sg_drafts g) <= K
}.

(** The call on the packed batch. *)
Definition call (vocab : nat) (use_dprobs : bool) (synthetic : option (list F)) segs (bonus : list Z)
    (m : SamplingMetadata F) (w : Draws F) (K : Z) : res (list (list Z)) :=
  torch_rejection_sample (all_drafts segs) (counts segs) K (cumulative 0 (counts segs))
    (all_dprobs use_dprobs segs) (all_target segs) (Z.of_nat vocab) bonus m
    (bool_decide (is_Some synthetic)) synthetic w.

Lemma call_ok vocab use_dprobs synthetic segs bonus m w K :
  batch_ok vocab synthetic segs bonus m w K ->
  exists q, length q = length segs /\ Forall (fun row => length row = vocab) q /\
    (forall i, row_at q i = draw_of segs (q_all w) (q_generator w) (generators m) i) /\
    call vocab use_dprobs synthetic segs bonus m w K =
    Ok (imap (fun i g => padded K (row_tokens vocab use_dprobs synthetic bonus m q i g)) segs).
Proof.
  intros [Hv Hs Hb Hm Hw HK].
  exact (torch_rejection_sample_ok vocab Hv use_dprobs synthetic segs Hs bonus Hb _ eq_refl m K w Hm Hw HK).
Qed.

(** What plain greedy decoding emits. *)
Fixpoint generate (next : list Z -> Z) (ctx : list Z) (n : nat) : list Z :=
  match n with O => [] | S n => next ctx :: generate next (ctx ++ [next ctx]) n end.

Lemma speculate_generate next ctx drafts target bonus :
  length target = length drafts ->
  (forall j t, target !! j = Some t -> t = next (ctx ++ take j drafts)) ->
  bonus = next (ctx ++ drafts) ->
  let tokens := speculate (zip_with Z.eqb drafts target) drafts target bonus in
  tokens = generate next ctx (length tokens) /\
  forall j, (j <= length drafts)%nat -> take j drafts = generate next ctx j -> (j < length tokens)%nat.
Proof.
  revert ctx target. induction drafts as [|d drafts IH]; intros ctx [|t target] Hl Ht Hb; try done; cbn.
  { rewrite app_nil_r in Hb. subst bonus. split; [done|]. intros [|j] Hj; [lia|]. cbn in Hj. lia. }
  injection Hl as Hl. pose proof (Ht 0%nat t eq_refl) as H0. cbn in H0. rewrite app_nil_r in H0.
  destruct (d =? t) eqn:E; zbool.
  - subst d. destruct (IH (ctx ++ [t]) target Hl) as [H1 H2].
    { intros j t' Hj. rewrite <- app_assoc. apply (Ht (S j) t' Hj). }
    { by rewrite <- app_assoc. }
    cbn. rewrite <- H0. split; [by f_equal|]. intros [|j] Hj; [cbn; lia|]. cbn. rewrite <- H0.
    intros [= Hj2]. cbn in Hj. specialize (H2 j ltac:(lia) Hj2). lia.
  - cbn. rewrite <- H0. split; [done|]. intros [|j] Hj; [lia|]. cbn. rewrite <- H0. intros [= -> _]. done.
Qed.

(** C12: verifying greedy drafts is lossless.  When each row of the target model belongs to
    the context extended by the drafts before it, and the bonus token to the context extended
    by all of them, a greedy request emits exactly the tokens that plain greedy decoding
    would, at least one and at most one more than it has drafts -- one more than the drafts
    that plain decoding would have emitted too. *)
Theorem greedy_lossless vocab use_dprobs segs bonus m w K i g (next : list Z -> Z) ctx :
  batch_ok vocab None segs bonus m w K -> segs !! i = Some g -> greedy_row m i = true ->
  (forall j row, sg_target g !! j = Some row -> argmax row = next (ctx ++ take j (sg_drafts g))) ->
  bonus !! i = Some (next (ctx ++ sg_drafts g)) ->
  exists out tokens, call vocab use_dprobs None segs bonus m w K = Ok out /\
    out !! i = Some (padded K tokens) /\ tokens = generate next ctx (length tokens) /\
    (0 < length tokens <= S (length (sg_drafts g)))%nat /\
    forall j, (j <= length (sg_drafts g))%nat -> take j (sg_drafts g) = generate next ctx j ->
      (j < length tokens)%nat.
Proof.
  intros Hok Hg Hgreedy Hnext Hbonus.
  destruct (call_ok vocab use_dprobs None segs bonus m w K Hok) as (q & _ & _ & _ & Hcall).
  eexists _, _. split; [exact Hcall|]. rewrite list_lookup_imap, Hg. split; [reflexivity|].
  unfold row_tokens. rewrite Hgreedy. unfold greedy_tokens. rewrite Hbonus. cbn [fmap option_fmap option_map default].
  unfold greedy_accept. pose proof (Forall_lookup_1 _ _ _ _ (ba_segs _ _ _ _ _ _ _ Hok) Hg) as Hseg.
  destruct (speculate_generate next ctx (sg_drafts g) (argmax <$> sg_target g) (next (ctx ++ sg_drafts g)))
    as [H1 H2].
  - rewrite length_fmap. apply (so_target _ _ _ Hseg).
  - intros j t Hj. rewrite list_lookup_fmap in Hj. destruct (sg_target g !! j) as [row|] eqn:Hrow; [|done].
    injection Hj as <-. by apply Hnext.
  - done.
  - split; [exact H1|]. split; [apply speculate_length|exact H2].
Qed.

Lemma speculate_Forall (P : Z -> Prop) accept drafts repl bonus :
  (forall j d, drafts !! j = Some d -> accept !! j = Some true -> P d) -> Forall P repl -> P bonus ->
  Forall P (speculate accept drafts repl bonus).
Proof.
  revert drafts repl. induction accept as [|a accept IH]; intros drafts repl Hd Hr Hb; [by repeat constructor|].
  destruct a, drafts as [|d drafts], repl as [|r repl]; cbn; try (by repeat constructor).
  - apply Forall_cons in Hr as [_ Hr]. constructor; [by apply (Hd 0%nat)|].
    apply IH; [|done|done]. intros j d' Hj Ha. by apply (Hd (S j)).
  - apply Forall_cons in Hr as [Hr _]. by repeat constructor.
Qed.

Context `{L : !TorchLaws F}.

Lemma argmax_valid vocab (row : list F) : (0 < vocab)%nat -> length row = vocab ->
  valid_id (Z.of_nat vocab) (argmax row) = true.
Proof.
  intros Hv Hl. unfold valid_id. apply andb_true_iff.
  pose proof (argmax_range row) as Hr. unfold len in Hr. destruct row; [cbn in Hl; lia|].
  specialize (Hr ltac:(done)). split; [apply Z.leb_le|apply Z.ltb_lt]; lia.
Qed.

Lemma greedy_tokens_valid vocab synthetic segs bonus m w K i g :
  batch_ok vocab synthetic segs bonus m w K -> segs !! i = Some g ->
  valid_id (Z.of_nat vocab) (default 0 (bonus !! i)) = true ->
  Forall (fun t => valid_id (Z.of_nat vocab) t = true) (greedy_tokens vocab synthetic bonus i g).
Proof.
  intros Hok Hg Hb. pose proof (Forall_lookup_1 _ _ _ _ (ba_segs _ _ _ _ _ _ _ Hok) Hg) as Hseg.
  pose proof (ba_vocab _ _ _ _ _ _ _ Hok) as Hv.
  assert (Forall (fun t => valid_id (Z.of_nat vocab) t = true) (argmax <$> sg_target g)) as Ht.
  { apply Forall_fmap. eapply Forall_impl; [apply (so_target_rows _ _ _ Hseg)|]. intros row Hrow.
    by apply argmax_valid. }
  apply speculate_Forall; [|done|done]. intros j d Hd Ha. unfold greedy_accept in Ha.
  destruct synthetic as [r|]; cbn [fmap option_fmap option_map] in Ha; rewrite lookup_zip_with, Hd in Ha.
  - destruct (zip_with _ _ _ !! j) as [b|]; [|done]. cbn in Ha. injection Ha as Ha.
    by apply andb_true_iff in Ha as [_ Ha].
  - destruct ((argmax <$> sg_target g) !! j) as [t|] eqn:Et; [|done]. cbn in Ha. injection Ha as Ha. zbool.
    subst t. exact (Forall_lookup_1 _ _ _ _ Ht Et).
Qed.

Lemma scores_length vocab use_dprobs (q : list F) g j d : length q = vocab ->
  seg_ok vocab None g -> (j < length (sg_drafts g))%nat ->
  length (scores_of vocab use_dprobs q g j d) = vocab.
Proof.
  intros Hq Hg Hj. destruct (lookup_lt_is_Some_2 (sg_target g) j) as [row Hrow];
    [rewrite (so_target _ _ _ Hg); lia|].
  destruct (lookup_lt_is_Some_2 (sg_dprobs g) j) as [drow Hdrow]; [rewrite (so_dprobs _ _ _ Hg); lia|].
  destruct (decide (0 < vocab)%nat) as [Hv|Hv].
  - apply (recover_position_ok vocab Hv use_dprobs None g q j d row drow Hg Hq Hrow Hdrow).
  - unfold scores_of. rewrite length_zip_with, length_fmap. lia.
Qed.

Lemma seg_ok_none vocab synthetic (g : @Seg F) : seg_ok vocab synthetic g -> seg_ok vocab None g.
Proof. intros [? ? ? ? ? _]. by split. Qed.

Lemma random_tokens_valid vocab use_dprobs synthetic segs bonus m w K q i g :
  batch_ok vocab synthetic segs bonus m w K -> segs !! i = Some g ->
  length q = length segs -> Forall (fun row => length row = vocab) q ->
  valid_id (Z.of_nat vocab) (default 0 (bonus !! i)) = true ->
  Forall (fun t => valid_id (Z.of_nat vocab) t = true)
    (random_tokens vocab use_dprobs synthetic bonus q i g).
Proof.
  intros Hok Hg Hq Hqr Hb. pose proof (Forall_lookup_1 _ _ _ _ (ba_segs _ _ _ _ _ _ _ Hok) Hg) as Hseg.
  pose proof (ba_vocab _ _ _ _ _ _ _ Hok) as Hv. apply speculate_Forall; [| |done].
  - intros j d Hd Ha. rewrite list_lookup_imap, Hd in Ha. cbn in Ha. injection Ha as Ha.
    unfold accepts in Ha. by apply andb_true_iff in Ha as [_ Ha].
  - apply Forall_lookup_2. intros j t Ht. unfold recovered_at, recovered_of in Ht. rewrite list_lookup_imap in Ht.
    destruct (sg_drafts g !! j) as [d|] eqn:Hd; [|done]. injection Ht as <-. apply argmax_valid; [done|].
    apply scores_length; [|by eapply seg_ok_none|by apply lookup_lt_Some in Hd].
    destruct (lookup_lt_is_Some_2 q i) as [qi Hqi]; [apply lookup_lt_Some in Hg; lia|].
    rewrite (lookup_row _ _ _ Hqi). by apply (Forall_lookup_1 _ _ _ _ Hqr Hqi).
Qed.

(** C23: On the PyTorch path, synthetic acceptance included, a call returns and only tokens of
    the vocabulary are emitted.  Whatever ids the drafts carry -- placeholders, or ids at or past
    the vocabulary -- the row of a request whose bonus token is valid holds at least one token
    and at most one more than it has drafts, all of them valid, and placeholders behind them.
    (The compiled path asserts that no draft is a placeholder.) *)
Theorem emitted_tokens_valid vocab use_dprobs synthetic segs bonus m w K i g :
  batch_ok vocab synthetic segs bonus m w K -> segs !! i = Some g ->
  valid_id (Z.of_nat vocab) (default 0 (bonus !! i)) = true ->
  exists out tokens, call vocab use_dprobs synthetic segs bonus m w K = Ok out /\
    out !! i = Some (padded K tokens) /\
    (0 < length tokens <= S (length (sg_drafts g)))%nat /\
    Forall (fun t => valid_id (Z.of_nat vocab) t = true) tokens.
Proof.
  intros Hok Hg Hb. destruct (call_ok vocab use_dprobs synthetic segs bonus m w K Hok) as (q & Hq & Hqr & Hqd & Hcall).
  eexists _, _. split; [exact Hcall|]. rewrite list_lookup_imap, Hg. split; [reflexivity|].
  unfold row_tokens. destruct (greedy_row m i).
  - split; [apply speculate_length|by eapply greedy_tokens_valid].
  - split; [apply speculate_length|by eapply random_tokens_valid].
Qed.

(** The random path follows its acceptance rule.  A request keeps its drafts up to the
    first that its rule refuses and puts there the token of the largest score of the residual
    distribution; a draft outside the vocabulary is refused; with no refusal the bonus token
    follows all drafts. *)
Theorem random_path_rule vocab use_dprobs segs bonus m w K i g :
  batch_ok vocab None segs bonus m w K -> segs !! i = Some g -> greedy_row m i = false ->
  exists out tokens, call vocab use_dprobs None segs bonus m w K = Ok out /\
    out !! i = Some (padded K tokens) /\
    let ok := accepts vocab use_dprobs None g in
    let q := draw_of segs (q_all w) (q_generator w) (generators m) i in
    (forall j d, ok j d = true -> valid_id (Z.of_nat vocab) d = true) /\
    ((tokens = sg_drafts g ++ [default 0 (bonus !! i)] /\
      forall j d, sg_drafts g !! j = Some d -> ok j d = true) \/
     exists k d r, sg_drafts g !! k = Some d /\ ok k d = false /\
       (forall j d, (j < k)%nat -> sg_drafts g !! j = Some d -> ok j d = true) /\
       tokens = take k (sg_drafts g) ++ [r] /\
       forall t x, scores_of vocab use_dprobs q g k d !! t = Some x ->
         f_gtb x (at_ (scores_of vocab use_dprobs q g k d) (Z.to_nat r)) = false).
Proof.
  intros Hok Hg Hrow. destruct (call_ok vocab use_dprobs None segs bonus m w K Hok) as (q & Hq & Hqr & Hqd & Hcall).
  eexists _, _. split; [exact Hcall|]. rewrite list_lookup_imap, Hg. split; [reflexivity|].
  cbn zeta. rewrite <- Hqd. split. { intros j d Hj. unfold accepts in Hj. by apply andb_true_iff in Hj as [_ Hj]. }
  unfold row_tokens. rewrite Hrow. unfold random_tokens.
  rewrite speculate_first by (unfold recovered_at, recovered_of; by rewrite length_imap).
  destruct (first_true _) as [k|] eqn:E.
  - right. destruct (first_true_lookup _ _ E) as (H0 & Hk & Hbefore).
    rewrite list_lookup_fmap, list_lookup_imap in Hk.
    destruct (sg_drafts g !! Z.to_nat k) as [d|] eqn:Hd; [|done]. cbn in Hk. injection Hk as Hk.
    apply negb_true_iff in Hk. exists (Z.to_nat k), d, (argmax (scores_of vocab use_dprobs (row_at q i) g (Z.to_nat k) d)).
    split_and!; [done|done| | |].
    + intros j d' Hj Hd'. specialize (Hbefore j Hj). rewrite list_lookup_fmap, list_lookup_imap, Hd' in Hbefore.
      cbn in Hbefore. injection Hbefore as Hb. by apply negb_false_iff in Hb.
    + unfold recovered_at, recovered_of. rewrite list_lookup_imap, Hd. done.
    + intros t x Ht. by apply (argmax_max _ t).
  - left. split; [done|]. intros j d Hd. pose proof (first_true_none _ E j) as Hn.
    rewrite list_lookup_fmap, list_lookup_imap, Hd in Hn. specialize (Hn _ eq_refl). by apply negb_false_iff in Hn.
Qed.
End properties.

(** ** A concrete instance *)

(** Integers for floating point values; softmax and the filters leave their input alone. *)
Module IntTorch.
Fixpoint argmax (row : list Z) : Z :=
  match row with
  | [] => 0
  | x :: row => if forallb (fun y => y <=? x) row then 0 else 1 + argmax row
  end.

(** The drafts that agree with the argmax of their row. *)
Definition agreeing (ds ts : list Z) : Z :=
  default (len ds) (first_true (zip_with (fun d t => negb (d =? t)) ds ts)).

Definition op (d : list Z) (p : list (list Z)) (cu : list Z) (_ _ : option (list Z)) : list (list Z) * list Z :=
  ((fun s => (fun j => argmax (default [] (p !! Z.to_nat (s + j)))) <$> py_range (Z.of_nat (length d / length cu)))
     <$> starts cu,
   zip_with (fun s n => agreeing (py_slice d s (s + n)) (argmax <$> py_slice p s (s + n))) (starts cu) (lens cu)).

#[export] Instance int_torch : Torch Z := {
  f_zero := 0; f_one := 1; f_eqb := Z.eqb; f_geb := Z.geb; f_gtb := Z.gtb; f_sub := Z.sub;
  f_div := Z.div; f_max := Z.max; f32 := id; f64 := id; softmax := id; argmax := argmax;
  apply_top_k_top_p := fun l _ _ => l; op_rejection_sample := op
}.

Lemma argmax_bound row : row <> [] -> 0 <= argmax row < len row.
Proof.
  induction row as [|x row IH]; [done|]. intros _. cbn [argmax]. rewrite len_cons.
  pose proof (len_nonneg row). destruct (forallb _ row) eqn:E; [lia|].
  destruct row; [done|]. specialize (IH ltac:(done)). lia.
Qed.

Lemma argmax_top row j x : row !! j = Some x -> x <= at_ row (Z.to_nat (argmax row)).
Proof.
  revert j x. induction row as [|y row IH]; intros j x Hj; [done|]. cbn [argmax].
  destruct (forallb _ row) eqn:E.
  - destruct j as [|j]; [by injection Hj as <-|]. cbn in Hj |- *. apply list_elem_of_lookup_2 in Hj.
    rewrite forallb_forall in E. specialize (E x ltac:(by apply list_elem_of_In)). by zbool.
  - assert (row <> []) as Hne by (by intros ->). pose proof (argmax_bound row Hne).
    replace (Z.to_nat (1 + argmax row)) with (S (Z.to_nat (argmax row))) by lia.
    change (at_ (y :: row) (S ?n)) with (at_ row n).
    destruct j as [|j]; [|by apply (IH j)]. injection Hj as Hj. subst x.
    apply not_true_iff_false in E. rewrite forallb_forall in E.
    destruct (decide (Forall (fun z => z <= y) row)) as [Hall|Hex].
    + destruct E. intros z Hz%list_elem_of_In. rewrite Forall_forall in Hall. apply Z.leb_le. by apply Hall.
    + apply not_Forall_Exists in Hex; [|apply _]. apply Exists_exists in Hex as (z & Hz & Hlt).
      apply list_elem_of_lookup_1 in Hz as [i Hi]. specialize (IH i z Hi). cbn in Hlt. lia.
Qed.

#[export] Instance int_torch_laws : TorchLaws Z.
Proof.
  split; [apply argmax_bound|]. intros row j x Hj. cbn. pose proof (argmax_top row j x Hj).
  rewrite Z.gtb_ltb. by apply Z.ltb_ge.
Qed.

(** A greedy request with two drafts and a random one, with a generator, with one. *)
Definition seg0 : @Seg Z := mkSeg [1; 2] [[0; 5; 0]; [9; 0; 0]] [[1; 1; 1]; [1; 1; 1]] [0; 0].
Definition seg1 : @Seg Z := mkSeg [0] [[3; 7; 1]] [[1; 1; 1]] [5].
Definition segs : list (@Seg Z) := [seg0; seg1].
Definition meta : SamplingMetadata Z := mkMeta (Some [0; 1]) false false None None [1] None false.
Definition draws : Draws Z :=
  mkDraws [0; 0; 5] [[1; 1; 1]; [1; 1; 1]] (fun _ => [1; 2; 1]) [0; 0; 0].

(** The same with ids that no model drafts. *)
Definition bad0 : @Seg Z := mkSeg [7; -1] [[0; 5; 0]; [9; 0; 0]] [[1; 1; 1]; [1; 1; 1]] [0; 0].
Definition bad1 : @Seg Z := mkSeg [-1] [[3; 7; 1]] [[1; 1; 1]] [5].

Lemma bad_batch_fine : batch_ok 3 None [bad0; bad1] [2; 2] meta draws 2.
Proof.
  split; [lia| |done| | |].
  - repeat constructor; intros; cbn; (done || lia).
  - split; [intros _; by eexists|done|repeat constructor; done].
  - split; [done| |done|done]. split; [done|repeat constructor].
  - intros g Hg. set_unfold. destruct Hg as [->|[->|[]]]; vm_compute; done.
Qed.

Lemma torch_batch_fine : batch_ok 3 None segs [2; 2] meta draws 2.
Proof.
  split; [lia| |done| | |].
  - repeat constructor; intros; cbn; (done || lia).
  - split; [intros _; by eexists|done|repeat constructor; done].
  - split; [done| |done|done]. split; [done|repeat constructor].
  - intros g Hg. unfold segs in Hg. set_unfold. destruct Hg as [->|[->|[]]]; vm_compute; done.
Qed.
End IntTorch.
Import IntTorch.

Definition next_token (ctx : list Z) : Z := match length ctx with O => 1 | S O => 0 | _ => 2 end.

Lemma greedy_lossless_witness :
  call 3 true None segs [2; 2] meta draws 2 = Ok [[1; 0; -1]; [1; -1; -1]] /\
  exists out tokens, call 3 true None segs [2; 2] meta draws 2 = Ok out /\
    out !! 0%nat = Some (padded 2 tokens) /\ tokens = generate next_token [] (length tokens) /\
    (0 < length tokens <= 3)%nat /\
    forall j, (j <= 2)%nat -> take j [1; 2] = generate next_token [] j -> (j < length tokens)%nat.
Proof.
  split; [reflexivity|].
  apply (greedy_lossless 3 true segs [2; 2] meta draws 2 0%nat seg0 next_token []
    torch_batch_fine); try reflexivity.
  intros [|[|j]] row Hrow; try discriminate; injection Hrow as <-; reflexivity.
Defined.

Lemma emitted_tokens_valid_witness :
  (exists out tokens, call 3 true None [bad0; bad1] [2; 2] meta draws 2 = Ok out /\
    out !! 0%nat = Some (padded 2 tokens) /\ (0 < length tokens <= 3)%nat /\
    Forall (fun t => valid_id 3 t = true) tokens) /\
  exists out tokens, call 3 true None [bad0; bad1] [2; 2] meta draws 2 = Ok out /\
    out !! 1%nat = Some (padded 2 tokens) /\ (0 < length tokens <= 2)%nat /\
    Forall (fun t => valid_id 3 t = true) tokens.
Proof.
  split.
  - apply (emitted_tokens_valid 3 true None [bad0; bad1] [2; 2] meta draws 2 0%nat bad0 bad_batch_fine); reflexivity.
  - apply (emitted_tokens_valid 3 true None [bad0; bad1] [2; 2] meta draws 2 1%nat bad1 bad_batch_fine); reflexivity.
Defined.

Lemma random_path_rule_witness : exists out tokens, call 3 false None segs [2; 2] meta draws 2 = Ok out /\
  out !! 1%nat = Some (padded 2 tokens).
Proof.
  destruct (random_path_rule 3 false segs [2; 2] meta draws 2 1%nat seg1
    torch_batch_fine eq_refl eq_refl) as (out & tokens & Hcall & Hrow & _).
  exists out, tokens. split; [exact Hcall|exact Hrow].
Defined.
