(* ===== verification/RejectionGraphSpec.v ===== *)
(** * The compiled rejection sampler: what it guarantees

    The compiled operation wants inputs of one fixed length per request, so the sampler pads
    them in buffers it keeps between the steps.  The theorems: the rows assembled from the
    operation's answer are the drafts it accepted and one more token, and nothing an earlier
    step left in the buffers shows. *)

From S2P Require Import Prelude RejectionSampler RejectionSamplerSpec.

(** The operation, as the comments on its call describe it: for every request the number of
    accepted drafts and a row of recovered tokens, both functions of the packed rows -- what
    stands behind the last request's drafts does not matter, up to the recovered tokens of
    columns without a draft. *)
Class OpLaws (F : Type) `{Torch F} := {
  f_eqb_zero : f_eqb f_zero f_zero = true;
  op_shape (ns : list Z) (d : list Z) (p : list (list F)) tk tp (k : nat) :
    Forall (fun n => 0 <= n <= Z.of_nat k) ns -> length d = (length ns * k)%nat -> length p = (length ns * k)%nat ->
    let '(rec, acc) := op_rejection_sample d p (cumulative 0 ns) tk tp in
    length rec = length ns /\ Forall (fun row => length row = k) rec /\
    Forall2 (fun a n => 0 <= a <= n) acc ns;
  op_local (ns : list Z) (d d' : list Z) (p p' : list (list F)) tk tp :
    Forall (Z.le 0) ns -> length d = length d' -> length p = length p' ->
    take (Z.to_nat (sumZ ns)) d = take (Z.to_nat (sumZ ns)) d' ->
    take (Z.to_nat (sumZ ns)) p = take (Z.to_nat (sumZ ns)) p' ->
    (op_rejection_sample d p (cumulative 0 ns) tk tp).2 = (op_rejection_sample d' p' (cumulative 0 ns) tk tp).2 /\
    forall (i j : nat) n, ns !! i = Some n -> Z.of_nat j < n ->
      ((op_rejection_sample d p (cumulative 0 ns) tk tp).1 !! i ≫= fun row => row !! j) =
      ((op_rejection_sample d' p' (cumulative 0 ns) tk tp).1 !! i ≫= fun row => row !! j)
}.

Section graph.
Context {F : Type} `{T : Torch F}.

(** ** Shapes *)

Definition buffers_ok (k b : nat) (bufs : GraphBuffers F) : Prop :=
  length (buf_draft_token_ids bufs) = (b * k)%nat /\
  length (buf_draft_per_batch bufs) = b /\ Forall (fun row => length row = k) (buf_draft_per_batch bufs) /\
  length (buf_temperature bufs) = (b * k)%nat /\
  (forall l, buf_target_logits bufs = Some l -> length l = (b * k)%nat) /\
  length (buf_cu_num_draft_tokens bufs) = b /\ length (buf_counts bufs) = b.

(** Every buffer of the state has the shape of its key. *)
Definition state_ok (k : nat) (st : RblnState F) : Prop :=
  forall b v bufs, od_get (Z.of_nat b, v) st = Some bufs -> buffers_ok k b bufs.

Lemma new_buffers_ok (k b : nat) : buffers_ok k b (new_buffers (Z.of_nat k) (Z.of_nat b)).
Proof.
  unfold buffers_ok, new_buffers. cbn. rewrite !repeat_length, <- Nat2Z.inj_mul, !Nat2Z.id.
  split_and!; try done. apply Forall_lookup_2. intros i row Hi.
  assert (i < b)%nat by (apply lookup_lt_Some in Hi; by rewrite repeat_length in Hi).
  rewrite lookup_repeat in Hi by done. injection Hi as <-. apply repeat_length.
Qed.

Lemma over_take {A} (v row : list A) : (length v <= length row)%nat -> take (length v) (over v row) = v.
Proof. intros _. unfold over. apply take_app_length. Qed.

Lemma length_over {A} (v row : list A) : (length v <= length row)%nat -> length (over v row) = length row.
Proof. intros Hl. unfold over. rewrite length_app, length_drop. lia. Qed.

Lemma take_repeat_le {A} (x : A) n m : (n <= m)%nat -> take n (repeat x m) = repeat x n.
Proof. revert m. induction n as [|n IH]; intros [|m] Hm; cbn; [done|done|lia|]. by rewrite IH by lia. Qed.

Lemma concat_bound (k : nat) (ds : list (list Z)) :
  Forall (fun d => (length d <= k)%nat) ds -> (length (concat ds) <= length ds * k)%nat.
Proof. induction 1 as [|d ds Hd _ IH]; cbn; [lia|]. rewrite length_app. lia. Qed.

(** ** One call *)

Variable k : nat.
Variable drafts : list (list Z).
Hypothesis drafts_fit : Forall (fun d => (length d <= k)%nat) drafts.
Abbreviation counts := (len <$> drafts).
Abbreviation b := (length drafts).
Abbreviation K := (Z.of_nat k).

Lemma total_counts : sumZ counts = len (concat drafts).
Proof.
  clear. induction drafts as [|d ds IH]; [done|]. rewrite fmap_cons, sumZ_cons, IH. cbn [concat].
  by rewrite len_app.
Qed.

Lemma concat_fits : (length (concat drafts) <= b * k)%nat.
Proof. by apply concat_bound. Qed.

(** When the packed length is the padded one, every request has all its drafts. *)
Lemma full_rows : length (concat drafts) = (b * k)%nat -> Forall (fun d => length d = k) drafts.
Proof.
  intros Hl. revert Hl drafts_fit. generalize drafts. intros ds. induction ds as [|d ds IH]; [by constructor|].
  cbn. rewrite length_app. intros Hl [Hd Hds]%Forall_cons. pose proof (concat_bound k ds Hds).
  constructor; [lia|]. apply IH; [lia|done].
Qed.

Lemma view_concat : Forall (fun d => length d = k) drafts -> view b k (concat drafts) = drafts.
Proof.
  clear drafts_fit. induction 1 as [|d ds Hd _ IH]; [done|]. cbn [length view concat].
  by rewrite take_app_length', drop_app_length', IH.
Qed.

(** The drafts of a request in its padded row. *)
Definition draft_row (d : list Z) : list Z := over d (repeat PLACEHOLDER_TOKEN_ID k).

Lemma draft_row_full d : length d = k -> draft_row d = d.
Proof. intros Hd. unfold draft_row, over. rewrite drop_ge; [by rewrite app_nil_r|]. by rewrite repeat_length, Hd. Qed.

Lemma spread_ok rows : length rows = b -> Forall (fun row => row = repeat PLACEHOLDER_TOKEN_ID k) rows ->
  spread_drafts counts (concat drafts) rows = Ok (draft_row <$> drafts).
Proof.
  intros Hl Hrows. unfold spread_drafts.
  match goal with |- context [foldM ?f _ _] => set (step := f) end.
  assert (forall m j, (j + m = b)%nat ->
    foldM step ((draft_row <$> take j drafts) ++ drop j rows, sumZ (take j counts))
      (seqZ (Z.of_nat j) (Z.of_nat m)) = Ok (draft_row <$> drafts, sumZ counts)) as Hgen.
  { induction m as [|m IH]; intros j Hj.
    - cbn. rewrite !take_ge, drop_ge, app_nil_r by (rewrite ?length_fmap; lia). done.
    - rewrite seqZ_cons by lia. cbn [foldM]. destruct (lookup_lt_is_Some_2 drafts j) as [d Hd]; [lia|].
      destruct (lookup_lt_is_Some_2 rows j) as [row Hrow]; [lia|].
      pose proof (Forall_lookup_1 _ _ _ _ Hrows Hrow) as ->.
      assert (counts !! j = Some (len d)) as Hc by (by rewrite list_lookup_fmap, Hd).
      assert (((draft_row <$> take j drafts) ++ drop j rows) !! j = Some (repeat PLACEHOLDER_TOKEN_ID k)) as Hj'.
      { rewrite lookup_app_r by (rewrite length_fmap, length_take; lia).
        rewrite length_fmap, length_take, Nat.min_l, Nat.sub_diag, lookup_drop, Nat.add_0_r by lia. done. }
      assert (step ((draft_row <$> take j drafts) ++ drop j rows, sumZ (take j counts)) (Z.of_nat j) =
        Ok ((draft_row <$> take (S j) drafts) ++ drop (S j) rows, sumZ (take (S j) counts))) as ->.
      { unfold step. rewrite (py_nth_lookup _ _ _ Hc). cbn [of_option mbind res_bind].
        rewrite (take_S_r _ _ _ Hd), (take_S_r _ _ _ Hc), fmap_app, sumZ_app, sumZ_cons.
        change (sumZ []) with 0. rewrite Z.add_0_r, <- app_assoc. cbn [fmap list_fmap app].
        destruct (len d =? 0) eqn:Ed; zbool.
        - assert (d = []) as -> by (destruct d; [done|]; rewrite len_cons in Ed; pose proof (len_nonneg d); lia).
          rewrite (drop_S _ _ _ Hrow). cbn. unfold draft_row, over. cbn. by rewrite Z.add_0_r.
        - rewrite (slice_concat drafts j d Hd).
          rewrite (with_row_ok j _ _ (repeat PLACEHOLDER_TOKEN_ID k) (draft_row d) Hj').
          + cbn [mbind res_bind]. f_equal. f_equal.
            rewrite insert_app_r_alt by (rewrite length_fmap, length_take; lia).
            rewrite length_fmap, length_take, Nat.min_l, Nat.sub_diag by lia. by rewrite (drop_S _ _ _ Hrow).
          + apply assign_prefix_ok; [done|]. rewrite repeat_length.
            by apply (Forall_lookup_1 _ _ _ _ drafts_fit Hd). }
      cbn [mbind res_bind]. replace (Z.pred (Z.of_nat (S m))) with (Z.of_nat m) by lia.
      replace (Z.succ (Z.of_nat j)) with (Z.of_nat (S j)) by lia. apply IH. lia. }
  specialize (Hgen b 0%nat eq_refl). rewrite !take_0, drop_0 in Hgen. cbn [fmap list_fmap app] in Hgen.
  assert (py_range (len counts) = seqZ (Z.of_nat 0) (Z.of_nat b)) as ->
    by (unfold py_range, len; by rewrite length_fmap).
  change (sumZ []) with 0 in Hgen. by rewrite Hgen.
Qed.

(** The inputs the buffers are filled with: the packed rows in front, and whatever [bufs]
    left behind them. *)
Lemma fill_inputs_ok (logits : list (list F)) v bufs :
  length logits = length (concat drafts) -> buffers_ok k b bufs -> exists d l rest,
  fill_inputs K (concat drafts) counts logits v bufs = Ok (d, l, draft_row <$> drafts, rest) /\
  length d = (b * k)%nat /\ length l = (b * k)%nat /\
  take (length (concat drafts)) d = concat drafts /\ take (length (concat drafts)) l = logits /\
  (forall l', rest = Some l' -> length l' = (b * k)%nat).
Proof.
  intros logits_length (Hd & Hp & Hpr & Ht & Hl & Hc & Hn). unfold fill_inputs.
  assert (len counts = Z.of_nat b) as -> by (unfold len; by rewrite length_fmap).
  pose proof concat_fits as Hfits. destruct (_ =? _) eqn:E; zbool.
  - assert (length (concat drafts) = (b * k)%nat) as Hfull by (unfold len in E; lia).
    pose proof (full_rows Hfull) as Hrows.
    unfold copy_. assert ((len (concat drafts) =? len (buf_draft_token_ids bufs)) = true) as ->
      by (apply Z.eqb_eq; unfold len; lia).
    cbn [mbind res_bind]. rewrite !Nat2Z.id, view_concat by done.
    assert ((len drafts =? len (buf_draft_per_batch bufs)) = true) as -> by (apply Z.eqb_eq; unfold len; lia).
    cbn [mbind res_bind]. eexists _, _, _. split.
    { assert (draft_row <$> drafts = drafts) as ->; [|reflexivity].
      rewrite <- (list_fmap_id drafts) at 2. apply list_fmap_ext. intros i d Hi.
      by apply draft_row_full, (Forall_lookup_1 _ _ _ _ Hrows Hi). }
    split; [lia|]. split; [lia|]. split; [by apply take_ge|]. split; [apply take_ge; lia|done].
  - set (base := default _ (buf_target_logits bufs)).
    assert (length base = (b * k)%nat) as Hbase.
    { unfold base. destruct (buf_target_logits bufs) as [l|] eqn:El; cbn; [by apply Hl|].
      rewrite repeat_length. lia. }
    rewrite (assign_prefix_ok _ (concat drafts)) by (done || lia). cbn [mbind res_bind].
    rewrite (assign_prefix_ok _ logits) by (unfold len; lia). cbn [mbind res_bind].
    rewrite spread_ok.
    + cbn [mbind res_bind]. eexists _, _, _. split; [reflexivity|].
      split; [rewrite length_over; lia|]. split; [rewrite length_over; lia|].
      split; [apply over_take; lia|]. split; [rewrite <- logits_length; apply over_take; lia|].
      intros l' [= <-]. rewrite length_over; lia.
    + by rewrite length_fmap.
    + apply Forall_fmap. eapply Forall_impl; [exact Hpr|]. intros row Hrow. cbn. rewrite <- Hrow.
      clear. induction row as [|x row IH]; cbn; [done|]. by rewrite <- IH.
Qed.

(** *** The temperature *)

Lemma length_expanded {A} (t : list A) (ns : list Z) : length t = length ns -> Forall (Z.le 0) ns ->
  Z.of_nat (length (concat (zip_with (fun x c => repeat x (Z.to_nat c)) t ns))) = sumZ ns.
Proof.
  intros Hl Hn. revert t Hl. induction Hn as [|n ns Hn _ IH]; intros [|x t] Hl; try done.
  injection Hl as Hl. cbn [zip_with concat]. rewrite length_app, repeat_length, sumZ_cons, Nat2Z.inj_add, IH by done.
  lia.
Qed.

Lemma counts_nonneg : Forall (Z.le 0) counts.
Proof. apply Forall_fmap, Forall_forall. intros l _. cbn. apply len_nonneg. Qed.

Lemma zip_repeat_counts {A} (l : list A) :
  concat (zip_with (fun x c => repeat x (Z.to_nat c)) l counts) = concat (zip_with (fun x d => repeat x (length d)) l drafts).
Proof.
  clear drafts_fit. revert l. induction drafts as [|d ds IH]; intros [|x l]; try done. cbn. rewrite IH.
  unfold len. by rewrite Nat2Z.id.
Qed.

Lemma expand_ok {A} (eqb : A -> A -> bool) (t : list A) x : length t = b -> eqb x x = true ->
  expand_batch_to_tokens eqb t (cumulative 0 counts) (len (concat drafts)) x x =
  Ok (concat (zip_with (fun y d => repeat y (length d)) t drafts)).
Proof.
  intros Ht Hx. unfold expand_batch_to_tokens, torch_expand_kernel. rewrite lens_cumulative.
  assert ((len (cumulative 0 counts) =? len t) = true) as ->
    by (apply Z.eqb_eq; unfold len; rewrite length_cumulative, length_fmap; lia).
  cbn [require mbind res_bind].
  assert ((len t =? len counts) = true) as -> by (apply Z.eqb_eq; unfold len; rewrite length_fmap; lia).
  assert (existsb (fun c => c <? 0) counts = false) as ->.
  { pose proof counts_nonneg as Hn. induction Hn as [|n ns Hn _ IH]; [done|]. cbn. rewrite IH.
    by rewrite (proj2 (Z.ltb_ge n 0)) by lia. }
  cbn [negb orb]. unfold replace_value. rewrite Hx. cbn [negb andb]. rewrite list_fmap_id.
  assert (len (concat (zip_with (fun y c => repeat y (Z.to_nat c)) t counts)) = len (concat drafts)) as ->.
  { unfold len. rewrite length_expanded; [|rewrite length_fmap; lia|apply counts_nonneg]. apply total_counts. }
  by rewrite Z.eqb_refl, zip_repeat_counts.
Qed.

Definition meta_shape (m : SamplingMetadata F) : Prop :=
  (all_greedy m = false -> exists t, temperature m = Some t /\ length t = b) /\
  (forall l, top_k m = Some l -> length l = b) /\ (forall l, top_p m = Some l -> length l = b).

(** The temperature each draft's row of logits is divided by: that of its request, one for the
    greedy requests. *)
Definition row_scales (m : SamplingMetadata F) : list F :=
  if all_greedy m then repeat f_one (length (concat drafts))
  else concat (zip_with (fun (x : F) d => repeat (if negb (all_random m) && f_eqb x GREEDY_TEMPERATURE
                                            then f_one else x) (length d))
                 (default [] (temperature m)) drafts).

Lemma zip_repeat_full (l : list F) : Forall (fun d => length d = k) drafts -> length l = b ->
  concat (zip_with (fun x d => repeat x (length d)) l drafts) = concat ((fun x => repeat x k) <$> l).
Proof.
  intros Hall. revert l. clear drafts_fit. induction Hall as [|d ds Hd _ IH]; intros [|x l] Hl; try done.
  cbn. by rewrite Hd, IH by (cbn in Hl; lia).
Qed.

(** What the temperature buffer held does not matter. *)
Lemma fill_temperature_ok m : f_eqb f_zero f_zero = true -> meta_shape m ->
  exists temp, length temp = (b * k)%nat /\ take (length (concat drafts)) temp = row_scales m /\
  forall bufs, buffers_ok k b bufs -> exists buf,
    fill_temperature K counts (cumulative 0 counts) (len (concat drafts)) m bufs = Ok (temp, buf) /\
    length buf = (b * k)%nat.
Proof.
  intros Hzero [Hm _]. unfold fill_temperature, row_scales.
  assert (len counts = Z.of_nat b) as -> by (unfold len; by rewrite length_fmap).
  pose proof concat_fits as Hfits.
  destruct (all_greedy m).
  { eexists. split; [|split; [|intros bufs Hb; eexists; split; [reflexivity|apply Hb]]]; [rewrite repeat_length; lia|].
    rewrite <- Nat2Z.inj_mul, Nat2Z.id. by apply take_repeat_le. }
  destruct (Hm eq_refl) as (t & -> & Ht). cbn [default].
  set (t' := if negb (all_random m) then _ else t).
  assert (length t' = b) as Ht' by (unfold t'; destruct (negb _); by rewrite ?length_fmap).
  assert (concat (zip_with (fun (x : F) d => repeat (if negb (all_random m) && f_eqb x GREEDY_TEMPERATURE
            then f_one else x) (length d)) t drafts) =
          concat (zip_with (fun x d => repeat x (length d)) t' drafts)) as Hscales.
  { unfold t'. destruct (negb _); [|done]. by rewrite zip_with_fmap_l. }
  unfold id. rewrite Hscales. set (rows := concat (zip_with _ t' drafts)) in *.
  assert (length rows = length (concat drafts)) as Hrows.
  { unfold rows. clear -Ht'. revert Ht'. generalize drafts t'.
    intros ds l. revert l. induction ds as [|d ds IH]; intros [|x l] Hl; try done.
    cbn. rewrite !length_app, repeat_length, IH by (cbn in Hl; lia). done. }
  destruct (_ =? _) eqn:E; zbool.
  - assert (length (concat drafts) = (b * k)%nat) as Hfull by (unfold len in E; lia).
    rewrite Nat2Z.id, <- zip_repeat_full by (done || by apply full_rows). fold rows.
    exists rows. split; [lia|]. split; [rewrite take_ge; [done|lia]|].
    intros bufs (_ & _ & _ & Hbt & _). exists rows. split; [|lia].
    unfold copy_. assert ((len rows =? len (buf_temperature bufs)) = true) as ->; [|done].
    apply Z.eqb_eq. unfold len. lia.
  - rewrite (expand_ok f_eqb t' f_zero Ht' Hzero). fold rows. cbn [mbind res_bind].
    exists (over rows (repeat f_one (b * k))).
    split; [rewrite length_over; rewrite repeat_length; lia|].
    split; [rewrite <- Hrows; apply over_take; rewrite repeat_length; lia|].
    intros bufs (_ & _ & _ & Hbt & _). exists (over rows (repeat f_one (b * k))).
    rewrite assign_prefix_ok by (unfold len; rewrite ?length_fmap; lia). cbn [mbind res_bind].
    assert ((fun _ : F => f_one) <$> buf_temperature bufs = repeat f_one (b * k)) as ->.
    { rewrite <- Hbt. generalize (buf_temperature bufs). clear. intros l.
      induction l as [|x l IH]; cbn; [done|]. by f_equal. }
    split; [done|]. rewrite length_over; rewrite repeat_length; lia.
Qed.

Lemma build_op_greedy m b' v : (if all_greedy m then Ok (Some (repeat GREEDY_TOP_K (Z.to_nat b')), None)
   else build_op_top_k_top_p m b' v) = build_op_top_k_top_p m b' v.
Proof. unfold build_op_top_k_top_p. by destruct (all_greedy m). Qed.

Lemma build_op_ok m v : meta_shape m -> exists tk tp,
  (if all_greedy m then Ok (Some (repeat GREEDY_TOP_K (Z.to_nat (len counts))), None)
   else build_op_top_k_top_p m (len counts) v) = Ok (tk, tp).
Proof.
  intros (Ht & Hk & Hp). destruct (all_greedy m) eqn:Eg; [by eexists _, _|].
  unfold build_op_top_k_top_p. rewrite Eg.
  assert (len counts = Z.of_nat b) as -> by (unfold len; by rewrite length_fmap).
  assert (match top_k m with None => true | Some l => len l =? Z.of_nat b end = true) as ->.
  { destruct (top_k m) as [l|]; [|done]. apply Z.eqb_eq. unfold len. by rewrite (Hk l eq_refl). }
  assert (match top_p m with None => true | Some l => len l =? Z.of_nat b end = true) as ->.
  { destruct (top_p m) as [l|]; [|done]. apply Z.eqb_eq. unfold len. by rewrite (Hp l eq_refl). }
  cbn [require mbind res_bind]. destruct (all_random m); [by eexists _, _|].
  destruct (Ht eq_refl) as (t & -> & Hl). cbn [of_option mbind res_bind].
  rewrite zip_tensor_ok; [by eexists _, _|]. rewrite length_fmap. destruct (top_k m) as [l|]; cbn.
  - by rewrite (Hk l eq_refl).
  - rewrite repeat_length. lia.
Qed.

(** *** The output *)

(** A request's tokens, given how many drafts are accepted and the recovered tokens. *)
Definition compiled_tokens (acc : Z) (d rec : list Z) (bonus : Z) : list Z :=
  if acc =? len d then d ++ [bonus]
  else py_take acc d ++ [default PLACEHOLDER_TOKEN_ID (rec !! Z.to_nat acc)].

Lemma lookup_over_repeat {A} (l : list A) x n j : (length l <= n)%nat ->
  over l (repeat x n) !! j =
  if decide (j < length l)%nat then l !! j else if decide (j < n)%nat then Some x else None.
Proof.
  intros Hl. unfold over. case_decide; [by rewrite lookup_app_l|].
  rewrite lookup_app_r, lookup_drop by lia. case_decide; [apply lookup_repeat; lia|].
  apply lookup_ge_None_2. rewrite repeat_length. lia.
Qed.

Lemma output_row_ok acc d rec bonus : (length d <= k)%nat -> 0 <= acc <= len d ->
  output_column K acc (len d) (draft_row d) rec bonus <$> py_range (K + 1) =
  padded K (compiled_tokens acc d rec bonus).
Proof.
  intros Hd Ha. apply list_eq. intros j. unfold py_range. rewrite list_lookup_fmap.
  unfold len in Ha. unfold padded. replace (Z.to_nat (K + 1)) with (S k) by lia.
  pose proof (fun l => lookup_over_repeat l PLACEHOLDER_TOKEN_ID (S k) j) as Hpad.
  pose proof (lookup_over_repeat d PLACEHOLDER_TOKEN_ID k j Hd) as Hdr. fold (draft_row d) in Hdr.
  assert (length (compiled_tokens acc d rec bonus) <= S (length d))%nat as Hct.
  { unfold compiled_tokens. destruct (_ =? _); rewrite length_app; cbn; unfold py_take; rewrite ?length_take; lia. }
  rewrite Hpad by lia.
  destruct (decide (j < S k)%nat) as [Hj|Hj].
  2:{ rewrite lookup_seqZ_ge by lia. rewrite decide_False by lia. done. }
  rewrite lookup_seqZ_lt by lia. cbn. rewrite Z.add_0_l. unfold output_column, compiled_tokens, len.
  destruct (acc =? Z.of_nat (length d)) eqn:Ea; zbool; cbn [andb negb].
  - rewrite length_app. cbn [length]. destruct (Z.of_nat j =? Z.of_nat (length d)) eqn:Ej; zbool.
    { rewrite decide_True by lia. rewrite lookup_app_r by lia. by replace (j - length d)%nat with 0%nat by lia. }
    rewrite andb_false_r, andb_false_r. destruct (Z.of_nat j <? K) eqn:Ek; zbool.
    + destruct (decide (j < length d + 1)%nat) as [Hjd|Hjd].
      * rewrite (proj2 (Z.ltb_lt _ acc)) by lia. rewrite py_nth_nat by (unfold draft_row; rewrite length_over; rewrite repeat_length; lia).
        rewrite Hdr, decide_True, lookup_app_l by lia.
        destruct (lookup_lt_is_Some_2 d j) as [x ->]; [lia|done].
      * by rewrite (proj2 (Z.ltb_ge _ acc)) by lia.
    + by rewrite decide_False by lia.
  - rewrite length_app. cbn [length]. unfold py_take. rewrite length_take, Nat.min_l by lia.
    destruct (Z.of_nat j <? K) eqn:Ek; zbool; [|by rewrite decide_False by lia].
    destruct (Z.of_nat j =? acc) eqn:Ej; zbool.
    + rewrite (proj2 (Z.ltb_lt 0 _)) by lia. cbn [andb]. rewrite decide_True by lia.
      rewrite lookup_app_r by (rewrite length_take; lia). rewrite length_take, Nat.min_l by lia.
      replace (j - Z.to_nat acc)%nat with 0%nat by lia. cbn. f_equal. subst acc. rewrite Nat2Z.id.
      unfold py_nth. by rewrite (proj2 (Z.ltb_ge _ 0)), Nat2Z.id by lia.
    + cbn [andb]. destruct (Z.of_nat j <? acc) eqn:Ejl; zbool.
      * rewrite decide_True by lia. rewrite py_nth_nat by (unfold draft_row; rewrite length_over; rewrite repeat_length; lia).
        rewrite Hdr, decide_True by lia. rewrite lookup_app_l by (rewrite length_take; lia).
        rewrite lookup_take_lt by lia. destruct (lookup_lt_is_Some_2 d j) as [x ->]; [lia|done].
      * by rewrite decide_False by lia.
Qed.

(** The bonus token of a request: given, or the argmax of its logits. *)
Definition bonus_tokens (ids : option (list Z)) (blog : option (list (list F))) : list Z :=
  match blog with Some rows => argmax <$> rows | None => default [] ids end.

Context `{O : !OpLaws F}.

(** What the operation answers for the padded rows [d] and [p]. *)
Definition answer (d : list Z) (p : list (list F)) tk tp : list (list Z) * list Z :=
  op_rejection_sample d p (cumulative 0 counts) tk tp.

Definition rows_of (ans : list (list Z) * list Z) (bonus : list Z) : list (list Z) :=
  imap (fun i d => padded K (compiled_tokens (default 0 (ans.2 !! i)) d (default [] (ans.1 !! i))
                               (default 0 (bonus !! i)))) drafts.

Lemma counts_fit : Forall (fun n => 0 <= n <= K) counts.
Proof. apply Forall_fmap. eapply Forall_impl; [exact drafts_fit|]. intros d Hd. cbn in Hd |- *. unfold len. lia. Qed.

Lemma assemble_ok d l temp tk tp ids blog : length d = (b * k)%nat -> length l = (b * k)%nat ->
  length temp = (b * k)%nat -> is_Some ids \/ is_Some blog -> length (bonus_tokens ids blog) = b ->
  let p := softmax <$> zip_with (fun row t => (fun x => f_div x t) <$> row) l temp in
  rbln_rejection_sample K d l (cumulative 0 counts) tk tp temp (draft_row <$> drafts) ids counts blog =
  Ok (rows_of (answer d p tk tp) (bonus_tokens ids blog)).
Proof.
  intros Hd Hl Ht Hsome Hb p. unfold rbln_rejection_sample. rewrite zip_tensor_ok by lia. cbn [mbind res_bind].
  fold p. assert (length p = (b * k)%nat) as Hp by (unfold p; rewrite length_fmap, length_zip_with; lia).
  pose proof (op_shape counts d p tk tp k counts_fit) as Hop. rewrite length_fmap in Hop.
  specialize (Hop Hd Hp). unfold rows_of, answer. destruct (op_rejection_sample _ _ _ _ _) as [rec acc].
  destruct Hop as (Hrec & Hrecr & Hacc). cbn [fst snd].
  assert (match blog with Some rows => Ok (argmax <$> rows) | None => of_option ids AssertionError end =
    Ok (bonus_tokens ids blog)) as ->.
  { unfold bonus_tokens. destruct blog; [done|]. destruct Hsome as [[x ->]|[x Hx]]; done. }
  cbn [mbind res_bind]. assert (len (draft_row <$> drafts) = Z.of_nat b) as -> by (unfold len; by rewrite length_fmap).
  set (bonus := bonus_tokens ids blog) in *.
  rewrite (mapM_Ok _ (fun r => padded K (compiled_tokens (default 0 (acc !! Z.to_nat r))
    (default [] (drafts !! Z.to_nat r)) (default [] (rec !! Z.to_nat r)) (default 0 (bonus !! Z.to_nat r))))).
  - f_equal. apply list_eq. intros i. rewrite list_lookup_fmap, list_lookup_imap. unfold py_range.
    destruct (drafts !! i) as [di|] eqn:Hdi.
    + rewrite lookup_seqZ_lt by (apply lookup_lt_Some in Hdi; lia). cbn. by rewrite Z.add_0_l, Nat2Z.id, Hdi.
    + rewrite lookup_seqZ_ge by (apply lookup_ge_None in Hdi; lia). done.
  - intros r Hr. apply elem_of_seqZ in Hr. set (i := Z.to_nat r). replace r with (Z.of_nat i) by lia.
    destruct (lookup_lt_is_Some_2 drafts i) as [di Hdi]; [lia|].
    assert (counts !! i = Some (len di)) as Hc by (by rewrite list_lookup_fmap, Hdi).
    destruct (Forall2_lookup_r _ _ _ _ _ Hacc Hc) as (a & Ha & Hrange).
    destruct (lookup_lt_is_Some_2 rec i) as [re Hre]; [lia|].
    destruct (lookup_lt_is_Some_2 bonus i) as [bi Hbi]; [lia|].
    rewrite (py_nth_lookup (draft_row <$> drafts) i (draft_row di)) by (by rewrite list_lookup_fmap, Hdi).
    rewrite (py_nth_lookup _ _ _ Ha), (py_nth_lookup _ _ _ Hc), (py_nth_lookup _ _ _ Hre), (py_nth_lookup _ _ _ Hbi).
    cbn [of_option mbind res_bind]. rewrite Ha, Hdi, Hre, Hbi. cbn [default].
    f_equal. apply output_row_ok; [|done]. by apply (Forall_lookup_1 _ _ _ _ drafts_fit Hdi).
Qed.

(** The rows do not depend on what stands behind the packed ones. *)
Lemma rows_local d d' p p' tk tp bonus : length d = (b * k)%nat -> length d' = (b * k)%nat ->
  length p = (b * k)%nat -> length p' = (b * k)%nat ->
  take (length (concat drafts)) d = take (length (concat drafts)) d' ->
  take (length (concat drafts)) p = take (length (concat drafts)) p' ->
  rows_of (answer d p tk tp) bonus = rows_of (answer d' p' tk tp) bonus.
Proof.
  intros Hd Hd' Hp Hp' Htd Htp. unfold rows_of, answer.
  assert (Z.to_nat (sumZ counts) = length (concat drafts)) as Hn by (rewrite total_counts; unfold len; lia).
  pose proof (op_local counts d d' p p' tk tp counts_nonneg ltac:(lia) ltac:(lia)) as Hloc. rewrite Hn in Hloc.
  specialize (Hloc Htd Htp). pose proof (op_shape counts d p tk tp k counts_fit) as Hop.
  rewrite length_fmap in Hop. specialize (Hop Hd Hp).
  pose proof (op_shape counts d' p' tk tp k counts_fit) as Hop'.
  rewrite length_fmap in Hop'. specialize (Hop' Hd' Hp').
  destruct (op_rejection_sample d p _ _ _) as [rec acc], (op_rejection_sample d' p' _ _ _) as [rec' acc'].
  cbn [fst snd] in *. destruct Hloc as [-> Hloc], Hop as (Hr & _ & Ha), Hop' as (Hr' & _ & _).
  apply imap_ext. intros i di Hdi. f_equal. unfold compiled_tokens.
  assert (counts !! i = Some (len di)) as Hc by (by rewrite list_lookup_fmap, Hdi).
  destruct (Forall2_lookup_r _ _ _ _ _ Ha Hc) as (a & Hai & Hrange). rewrite Hai. change (default 0 (Some a)) with a.
  destruct (a =? len di) eqn:E; [done|]. zbool. do 3 f_equal.
  specialize (Hloc i (Z.to_nat a) (len di) Hc ltac:(lia)).
  assert (i < length drafts)%nat by (by apply lookup_lt_Some in Hdi).
  destruct (lookup_lt_is_Some_2 rec i) as [re Hre]; [lia|].
  destruct (lookup_lt_is_Some_2 rec' i) as [re' Hre']; [lia|].
  rewrite Hre, Hre' in Hloc |- *. cbn in Hloc |- *. exact Hloc.
Qed.
End graph.

(** ** What the compiled path guarantees *)

Section properties.
Context {F : Type} `{T : Torch F} `{O : !OpLaws F}.

(** A well-formed call: [k] columns, the drafts of the requests, one row of logits per draft,
    and the bonus tokens in exactly one of the two forms. *)
Record graph_ok (k : nat) (drafts : list (list Z)) (logits : list (list F)) (m : SamplingMetadata F)
    (ids : option (list Z)) (blog : option (list (list F))) (max_spec_len : Z) : Prop := {
  gr_fit : Forall (fun d => (length d <= k)%nat) drafts;
  gr_real : Forall (Forall (fun d => 0 <= d)) drafts;
  gr_logits : length logits = length (concat drafts);
  gr_meta : meta_shape drafts m;
  gr_one : is_Some ids <-> blog = None;
  gr_bonus : length (bonus_tokens ids blog) = length drafts;
  gr_max : max_spec_len <= Z.of_nat k
}.

Definition graph_call (k : nat) (drafts : list (list Z)) (logits : list (list F)) (vocab : Z)
    (m : SamplingMetadata F) (ids : option (list Z)) (blog : option (list (list F))) (max_spec_len : Z)
    (st : RblnState F) : res (list (list Z) * RblnState F) :=
  rbln_impl (Z.of_nat k) (concat drafts) (len <$> drafts) max_spec_len (cumulative 0 (len <$> drafts))
    logits vocab ids m blog st.

Lemma graph_call_ok k drafts logits vocab m ids blog msl : graph_ok k drafts logits m ids blog msl ->
  exists temp tk tp, length temp = (length drafts * k)%nat /\
    take (length (concat drafts)) temp = row_scales drafts m /\
    build_op_top_k_top_p m (len drafts) vocab = Ok (tk, tp) /\
    forall st, state_ok k st -> exists d l st',
      length d = (length drafts * k)%nat /\ length l = (length drafts * k)%nat /\
      take (length (concat drafts)) d = concat drafts /\ take (length (concat drafts)) l = logits /\
      graph_call k drafts logits vocab m ids blog msl st =
        Ok (rows_of k drafts
              (answer drafts d (softmax <$> zip_with (fun row t => (fun x => f_div x t) <$> row) l temp) tk tp)
              (bonus_tokens ids blog), st') /\
      state_ok k st'.
Proof.
  intros [Hfit Hreal Hlog Hmeta Hone Hbonus Hmax].
  destruct (fill_temperature_ok k drafts Hfit m f_eqb_zero Hmeta) as (temp & Htemp & Hscales & Hfill).
  destruct (build_op_ok drafts m vocab Hmeta) as (tk & tp & Hop).
  exists temp, tk, tp. do 2 (split; [done|]). split.
  { rewrite <- Hop, <- build_op_greedy. unfold len. by rewrite length_fmap. }
  intros st Hst.
  unfold graph_call, rbln_impl.
  rewrite (proj2 (Z.leb_le msl _) Hmax). cbn [require mbind res_bind].
  assert (forallb (fun d => 0 <=? d) (concat drafts) = true) as ->.
  { apply forallb_forall. intros x Hx. apply in_concat in Hx as (d & Hd%list_elem_of_In & Hx%list_elem_of_In).
    rewrite Forall_forall in Hreal. specialize (Hreal d Hd). rewrite Forall_forall in Hreal.
    apply Z.leb_le, (Hreal x Hx). }
  cbn [require mbind res_bind].
  assert (negb (bool_decide (is_Some ids <-> is_Some blog)) = true) as ->.
  { apply negb_true_iff, bool_decide_eq_false_2. rewrite Hone. destruct blog as [rows|].
    - intros [_ H]. by specialize (H ltac:(by eexists)).
    - intros [H _]. specialize (H eq_refl). by destruct H. }
  cbn [require mbind res_bind].
  assert ((len logits =? len (concat drafts)) = true) as -> by (apply Z.eqb_eq; unfold len; lia).
  cbn [require mbind res_bind].
  assert (len (len <$> drafts) = Z.of_nat (length drafts)) as Hb by (unfold len; by rewrite length_fmap).
  set (bufs := default _ (od_get _ st)).
  assert (buffers_ok k (length drafts) bufs) as Hbufs.
  { unfold bufs. rewrite Hb. destruct (od_get (Z.of_nat (length drafts), vocab) st) as [bf|] eqn:Eb;
      [exact (Hst _ _ _ Eb)|apply new_buffers_ok]. }
  destruct (fill_inputs_ok k drafts Hfit logits vocab bufs Hlog Hbufs) as (d & l & rest & Hin & Hd & Hl & Hfd & Hfl & Hrest).
  rewrite Hin. cbn [mbind res_bind]. rewrite Hop. cbn [mbind res_bind].
  destruct (Hfill bufs Hbufs) as (buf & Hf & Hbuf). rewrite Hf. cbn [mbind res_bind].
  pose proof Hbufs as (_ & _ & _ & _ & _ & Hcu & Hcounts). unfold copy_.
  assert ((len (cumulative 0 (len <$> drafts)) =? len (buf_cu_num_draft_tokens bufs)) = true) as ->
    by (apply Z.eqb_eq; unfold len; rewrite length_cumulative, length_fmap; lia).
  cbn [mbind res_bind].
  assert ((len (len <$> drafts) =? len (buf_counts bufs)) = true) as -> by (apply Z.eqb_eq; unfold len in *; lia).
  cbn [mbind res_bind]. eexists d, l, _. do 4 (split; [done|]).
  rewrite (assemble_ok k drafts Hfit d l temp tk tp ids blog Hd Hl Htemp); [|by destruct blog; [right|left; apply Hone]|done].
  cbn [mbind res_bind]. split; [reflexivity|]. intros b' v' bf. rewrite od_get_set. rewrite Hb.
  case_decide as Hk; [|apply Hst]. injection Hk as Hb' _. apply Nat2Z.inj in Hb' as ->. intros [= <-].
  unfold buffers_ok. cbn. rewrite !length_fmap, length_cumulative, length_fmap. split_and!; try done.
  apply Forall_fmap. eapply Forall_impl; [exact Hfit|]. intros x Hx. cbn. unfold draft_row.
  rewrite length_over; rewrite repeat_length; [done|exact Hx].
Qed.

(** C24: what earlier steps left in the graph's buffers never shows.  From any state the
    sampler can be in, a call returns, leaves such a state, and its tokens are those of a
    sampler that has not run before. *)
Theorem stale_buffers_never_show k drafts logits vocab m ids blog msl st :
  graph_ok k drafts logits m ids blog msl -> state_ok k st ->
  exists out st' st0, graph_call k drafts logits vocab m ids blog msl st = Ok (out, st') /\
    state_ok k st' /\ graph_call k drafts logits vocab m ids blog msl [] = Ok (out, st0).
Proof.
  intros Hok Hst. destruct (graph_call_ok k drafts logits vocab m ids blog msl Hok) as (temp & tk & tp & Ht & Hscales & Hfilter & Hcall).
  destruct (Hcall st Hst) as (d & l & st' & Hd & Hl & Hfd & Hfl & Hrun & Hst').
  destruct (Hcall []) as (d0 & l0 & st0 & Hd0 & Hl0 & Hfd0 & Hfl0 & Hrun0 & _); [done|].
  eexists _, st', st0. split; [exact Hrun|]. split; [done|]. rewrite Hrun0. do 2 f_equal.
  apply (rows_local k drafts (gr_fit _ _ _ _ _ _ _ Hok)); try done.
  - rewrite length_fmap, length_zip_with. lia.
  - rewrite length_fmap, length_zip_with. lia.
  - by rewrite Hfd, Hfd0.
  - rewrite <- !fmap_take, !zip_with_take, Hfl, Hfl0. done.
Qed.

(** The compiled path emits what the operation accepted.  The operation is asked about the
    packed drafts, under the softmax of their logits divided by the temperature of their
    request, with the requests' own top-k and top-p.  A request's row holds the
    drafts the operation accepted for it and one more token, its bonus token when all are
    accepted and otherwise the token the operation recovered at the first column refused,
    with placeholders behind. *)
Theorem compiled_rows_follow_op k drafts logits vocab m ids blog msl st i d :
  graph_ok k drafts logits m ids blog msl -> state_ok k st -> drafts !! i = Some d ->
  exists out st' padded_drafts probs tk tp acc r,
    graph_call k drafts logits vocab m ids blog msl st = Ok (out, st') /\
    take (length (concat drafts)) padded_drafts = concat drafts /\
    take (length (concat drafts)) probs =
      softmax <$> zip_with (fun row t => (fun x => f_div x t) <$> row) logits (row_scales drafts m) /\
    build_op_top_k_top_p m (len drafts) vocab = Ok (tk, tp) /\
    let answer := op_rejection_sample padded_drafts probs (cumulative 0 (len <$> drafts)) tk tp in
    answer.2 !! i = Some acc /\ 0 <= acc <= len d /\
    (acc < len d -> (answer.1 !! i ≫= fun row => row !! Z.to_nat acc) = Some r) /\
    out !! i = Some (padded (Z.of_nat k)
      (if acc =? len d then d ++ [default 0 (bonus_tokens ids blog !! i)] else py_take acc d ++ [r])).
Proof.
  intros Hok Hst Hi. destruct (graph_call_ok k drafts logits vocab m ids blog msl Hok) as (temp & tk & tp & Ht & Hscales & Hfilter & Hcall).
  destruct (Hcall st Hst) as (pd & l & st' & Hd & Hl & Hfd & Hfl & Hrun & _).
  set (p := softmax <$> _) in Hrun. assert (length p = (length drafts * k)%nat) as Hp
    by (unfold p; rewrite length_fmap, length_zip_with; lia).
  pose proof (op_shape (len <$> drafts) pd p tk tp k (counts_fit k drafts (gr_fit _ _ _ _ _ _ _ Hok))) as Hop.
  rewrite length_fmap in Hop. specialize (Hop Hd Hp).
  unfold answer, rows_of in Hrun.
  assert ((len <$> drafts) !! i = Some (len d)) as Hc by (by rewrite list_lookup_fmap, Hi).
  destruct (op_rejection_sample pd p _ tk tp) as [rec acc] eqn:Eop. destruct Hop as (Hrec & Hrr & Hacc).
  destruct (Forall2_lookup_r _ _ _ _ _ Hacc Hc) as (a & Ha & Hrange).
  assert (i < length drafts)%nat as Hil by (by apply lookup_lt_Some in Hi).
  destruct (lookup_lt_is_Some_2 rec i) as [re Hre]; [lia|].
  eexists _, st', pd, p, tk, tp, a, (default PLACEHOLDER_TOKEN_ID (re !! Z.to_nat a)).
  split; [exact Hrun|]. split; [done|]. split.
  { unfold p. rewrite <- fmap_take, zip_with_take, Hfl, Hscales. done. }
  split; [done|]. rewrite Eop. cbn [fst snd]. cbn zeta.
  split; [done|]. split; [done|]. split.
  - intros Hlt. rewrite Hre. cbn. pose proof (Forall_lookup_1 _ _ _ _ Hrr Hre) as Hlen. cbn beta in Hlen.
    pose proof (Forall_lookup_1 _ _ _ _ (gr_fit _ _ _ _ _ _ _ Hok) Hi) as Hdk. cbn beta in Hdk. unfold len in Hlt.
    destruct (lookup_lt_is_Some_2 re (Z.to_nat a)) as [x ->]; [lia|done].
  - rewrite list_lookup_imap, Hi. cbn. rewrite Ha, Hre. done.
Qed.

(** Placeholder drafts are refused before the graph sees them. *)
Lemma placeholders_refused k drafts logits vocab m ids blog msl st :
  msl <= Z.of_nat k -> (exists d x, d ∈ drafts /\ x ∈ d /\ x < 0) ->
  graph_call k drafts logits vocab m ids blog msl st = Raise AssertionError.
Proof.
  intros Hm (d & x & Hd & Hx & Hneg). unfold graph_call, rbln_impl. rewrite (proj2 (Z.leb_le msl _) Hm).
  cbn [require mbind res_bind]. assert (forallb (fun d => 0 <=? d) (concat drafts) = false) as ->; [|done].
  apply not_true_iff_false. rewrite forallb_forall. intros Hall.
  assert (In x (concat drafts)) as Hin by (apply in_concat; exists d; split; by apply list_elem_of_In).
  specialize (Hall x Hin). zbool. lia.
Qed.
End properties.

(** ** A concrete instance *)

Module IntOp.
Import IntTorch.
Lemma py_slice_take {A} (l l' : list A) n a b : take n l = take n l' -> 0 <= a -> b <= Z.of_nat n ->
  py_slice l a b = py_slice l' a b.
Proof.
  intros Hl Ha Hb. apply list_eq. intros i. rewrite !lookup_py_slice by done. case_decide; [|done].
  rewrite <- (lookup_take_lt l n), <- (lookup_take_lt l' n) by lia. by rewrite Hl.
Qed.

Lemma agreeing_bound ds ts n : len ds <= n -> 0 <= agreeing ds ts <= n.
Proof.
  intros Hn. pose proof (len_nonneg ds). unfold agreeing. destruct (first_true _) as [k|] eqn:E; cbn; [|lia].
  destruct (first_true_lookup _ _ E) as (H0 & Hk & _). apply lookup_lt_Some in Hk.
  rewrite length_zip_with in Hk. unfold len in *. lia.
Qed.

Lemma prefix_bound (ns : list Z) (i : nat) n : Forall (Z.le 0) ns -> ns !! i = Some n ->
  0 <= sumZ (take i ns) /\ sumZ (take i ns) + n <= sumZ ns /\ 0 <= n.
Proof.
  intros Hns Hi. pose proof (Forall_lookup_1 _ _ _ _ Hns Hi) as Hn. cbn beta in Hn.
  split; [by apply sumZ_nonneg, Forall_take|]. split; [|done].
  rewrite <- (take_drop_middle ns i n Hi) at 2. rewrite sumZ_app, sumZ_cons.
  pose proof (sumZ_nonneg (drop (S i) ns) ltac:(by apply Forall_drop)). lia.
Qed.

Lemma length_starts cu : length (starts cu) = length cu.
Proof.
  destruct cu as [|c cu]; [done|]. cbn [starts length]. f_equal. rewrite removelast_firstn_len, length_take.
  cbn [length]. lia.
Qed.

Lemma acc_lookup (d : list Z) (p : list (list Z)) (ns : list Z) (i : nat) n tk tp : ns !! i = Some n ->
  (op d p (cumulative 0 ns) tk tp).2 !! i =
  Some (agreeing (py_slice d (sumZ (take i ns)) (sumZ (take i ns) + n))
          (argmax <$> py_slice p (sumZ (take i ns)) (sumZ (take i ns) + n))).
Proof.
  intros Hi. cbn. rewrite lookup_zip_with, (starts_lookup ns i) by (by apply lookup_lt_Some in Hi). cbn.
  by rewrite lens_cumulative, Hi.
Qed.

Lemma rec_lookup (d : list Z) (p : list (list Z)) (ns : list Z) (i j : nat) n tk tp : ns !! i = Some n ->
  ((op d p (cumulative 0 ns) tk tp).1 !! i ≫= fun row => row !! j) =
  if decide (j < length d / length ns)%nat
  then Some (argmax (default [] (p !! Z.to_nat (sumZ (take i ns) + Z.of_nat j)))) else None.
Proof.
  intros Hi. cbn. rewrite list_lookup_fmap, (starts_lookup ns i) by (by apply lookup_lt_Some in Hi). cbn.
  rewrite length_cumulative, list_lookup_fmap. unfold py_range. case_decide.
  - by rewrite lookup_seqZ_lt by lia.
  - by rewrite lookup_seqZ_ge by lia.
Qed.

#[export] Instance int_op_laws : OpLaws Z.
Proof.
  split; [done| |].
  - intros ns d p tk tp k Hns Hd Hp. change (op_rejection_sample d p (cumulative 0 ns) tk tp)
      with (op d p (cumulative 0 ns) tk tp). destruct (op d p _ _ _) as [rec acc] eqn:E.
    assert (rec = (op d p (cumulative 0 ns) tk tp).1) as -> by (by rewrite E).
    assert (acc = (op d p (cumulative 0 ns) tk tp).2) as -> by (by rewrite E). clear E.
    assert (length (op d p (cumulative 0 ns) tk tp).2 = length ns) as Hacc.
    { cbn. rewrite lens_cumulative, length_zip_with, length_starts, length_cumulative. lia. }
    split; [cbn; by rewrite length_fmap, length_starts, length_cumulative|]. split.
    + cbn. apply Forall_fmap, Forall_forall. intros s Hs. cbn. rewrite length_fmap, length_cumulative.
      unfold py_range. rewrite length_seqZ, Nat2Z.id, Hd. destruct ns as [|n ns]; [by apply not_elem_of_nil in Hs|].
      rewrite Nat.mul_comm. by apply Nat.div_mul.
    + apply Forall2_lookup. intros i. destruct (ns !! i) as [n|] eqn:Hi.
      * rewrite (acc_lookup _ _ _ _ _ _ _ Hi). constructor. apply agreeing_bound.
        pose proof (Forall_lookup_1 _ _ _ _ Hns Hi) as Hn. cbn beta in Hn.
        unfold py_slice, len. rewrite length_take. lia.
      * rewrite lookup_ge_None_2; [constructor|]. rewrite Hacc. by apply lookup_ge_None.
  - intros ns d d' p p' tk tp Hns Hld Hlp Hd Hp.
    change (op_rejection_sample ?d ?p ?cu tk tp) with (op d p cu tk tp). split.
    + apply list_eq. intros i. destruct (ns !! i) as [n|] eqn:Hi.
      * rewrite !(acc_lookup _ _ _ _ _ _ _ Hi). destruct (prefix_bound ns i n Hns Hi) as (H0 & H1 & _).
        rewrite (py_slice_take d d' (Z.to_nat (sumZ ns)) _ _ Hd) by lia.
        by rewrite (py_slice_take p p' (Z.to_nat (sumZ ns)) _ _ Hp) by lia.
      * apply lookup_ge_None in Hi.
        rewrite !lookup_ge_None_2; [done| |]; cbn;
          rewrite lens_cumulative, length_zip_with, length_starts, length_cumulative; lia.
    + intros i j n Hi Hj. rewrite !(rec_lookup _ _ _ _ _ _ _ _ Hi), Hld. case_decide; [|done].
      destruct (prefix_bound ns i n Hns Hi) as (H0 & H1 & _). do 3 f_equal.
      rewrite <- (lookup_take_lt p (Z.to_nat (sumZ ns))), <- (lookup_take_lt p' (Z.to_nat (sumZ ns))) by lia.
      by rewrite Hp.
Qed.

(** Two requests, the second with one draft of two, a mixed batch. *)
Definition drafts : list (list Z) := [[1; 2]; [0]].
Definition logits : list (list Z) := [[0; 5; 0]; [9; 0; 0]; [3; 7; 1]].
Definition meta : SamplingMetadata Z := mkMeta (Some [0; 2]) false false None None [] None false.

(** What a step with full drafts leaves behind. *)
Definition used : RblnState Z :=
  match graph_call 2 [[2; 2]; [2; 2]] (repeat [8; 8; 8] 4) 3 meta (Some [1; 1]) None 2 [] with
  | Ok (_, st) => st
  | Raise _ => []
  end.

Lemma call_fine : graph_ok 2 drafts logits meta (Some [2; 1]) None 2.
Proof.
  split; try done.
  - repeat constructor; cbn; lia.
  - repeat constructor; lia.
  - split; [|split; done]. intros _. by exists [0; 2].
Qed.

Lemma used_fine : state_ok 2 used.
Proof.
  assert (graph_ok 2 [[2; 2]; [2; 2]] (repeat [8; 8; 8] 4) meta (Some [1; 1]) None 2) as Hok.
  { split; try done.
    - repeat constructor; cbn; lia.
    - repeat constructor; lia.
    - split; [|split; done]. intros _. by exists [0; 2]. }
  destruct (graph_call_ok 2 _ _ 3 meta _ _ 2 Hok) as (temp & tk & tp & _ & _ & _ & Hcall).
  destruct (Hcall []) as (d & l & st' & _ & _ & _ & _ & Hrun & Hst); [done|].
  unfold used. by rewrite Hrun.
Qed.
End IntOp.
Import IntTorch IntOp.

Lemma stale_buffers_never_show_witness :
  exists out st' st0, graph_call 2 IntOp.drafts IntOp.logits 3 IntOp.meta (Some [2; 1]) None 2 IntOp.used = Ok (out, st') /\
    state_ok 2 st' /\
    graph_call 2 IntOp.drafts IntOp.logits 3 IntOp.meta (Some [2; 1]) None 2 [] = Ok (out, st0).
Proof. apply (stale_buffers_never_show 2 _ _ 3 _ _ _ 2 _ IntOp.call_fine IntOp.used_fine). Defined.

Lemma compiled_rows_follow_op_witness :
  match graph_call 2 IntOp.drafts IntOp.logits 3 IntOp.meta (Some [2; 1]) None 2 IntOp.used with
  | Ok (out, _) => out = [[1; 0; -1]; [1; -1; -1]] | Raise _ => False end /\
  exists out st' acc r, graph_call 2 IntOp.drafts IntOp.logits 3 IntOp.meta (Some [2; 1]) None 2 IntOp.used = Ok (out, st') /\
    out !! 1%nat = Some (padded 2 (if acc =? 1 then [0; 1] else py_take acc [0] ++ [r])).
Proof.
  split; [reflexivity|].
  destruct (compiled_rows_follow_op 2 IntOp.drafts IntOp.logits 3 IntOp.meta (Some [2; 1]) None 2 IntOp.used 1%nat [0]
    IntOp.call_fine IntOp.used_fine eq_refl) as (out & st' & pd & probs & tk & tp & acc & r & H1 & _ & _ & _ & _ & _ & _ & H2).
  exists out, st', acc, r. split; [exact H1|exact H2].
Defined.
