(* ===== verification/OptimumKv.v ===== *)
(** * The KV cache manager of the models compiled ahead of time
    ([src/vllm_rbln/v1/core/optimum_kv_cache_manager.py],
    [src/vllm_rbln/v1/core/optimum_block_pool.py],
    [src/vllm_rbln/v1/core/optimum_kv_cache_coordinator.py])

    The block pool's start, the padding that chunked prefill needs in the cache, and the
    allocation of slots: inner blocks from vLLM's coordinator, outer blocks from the prefix
    cache manager of [PrefixCache].

    The coordinator and the methods of the base classes are not part of the repository:
    [Coordinator] names the calls made of them over an abstract state [E], with one KV cache
    group and a block as its id.  Logging and statistics are left out. *)

From S2P Require Import Prelude VllmTypes BlockMapping Eviction PrefixCache.

(** ** The block pool *)

Record BlockPool := mkPool {
  pool_blocks : list Z;
  free_block_queue : list Z;
  null_block : Z;
  dummy_block : option Z
}.

(** [RBLNBlockPool.__init__]; [popleft] and [remove] of the free queue. *)
Definition new_block_pool (num_gpu_blocks : Z) (is_encoder_decoder : bool) : res BlockPool :=
  assert! (0 <? num_gpu_blocks);
  let blocks := py_range num_gpu_blocks in
  match blocks with
  | [] => Raise ValueError
  | null :: free =>
      if is_encoder_decoder then
        assert! (2 <=? num_gpu_blocks);
        dummy ← of_option (py_nth blocks (num_gpu_blocks - 1)) IndexError;
        Ok (mkPool blocks (list_remove_first dummy free) null (Some dummy))
      else Ok (mkPool blocks free null None)
  end.

(** What [BlockHashToBlockMap] holds under a hash. *)
Inductive CachedBlocks := OneBlock (b : Z) | BlockDict (bs : list Z).

(** [RBLNBlockHashToBlockMap.get_one_block]: the block the request has just allocated for
    itself is the last one, and is passed over. *)
Definition get_one_block (blocks : option CachedBlocks) : res (option Z) :=
  match blocks with
  | None | Some (OneBlock _) => Ok None
  | Some (BlockDict bs) =>
      match reverse bs with
      | _ :: b :: _ => Ok (Some b)
      | _ => Raise StopIteration
      end
  end.

(** [RBLNKVCacheCoordinator.__init__]: its checks, and its block size. *)
Definition coordinator_block_size (retention_interval : option Z) (use_eagle enable_caching : bool)
    (spec_block_size dcp_world_size pcp_world_size hash_block_size num_groups : Z) : res Z :=
  assert! (bool_decide (retention_interval = None));
  assert! (negb use_eagle);
  let block_size := spec_block_size in
  let block_size := if 1 <? dcp_world_size then block_size * dcp_world_size else block_size in
  let block_size := if 1 <? pcp_world_size then block_size * pcp_world_size else block_size in
  assert! (negb enable_caching || (hash_block_size =? block_size));
  assert! (num_groups =? 1);
  Ok block_size.

(** ** The padding of a chunked prefill *)

Record KvConfig := mkKvConfig {
  kv_max_model_len : Z;
  enable_caching : bool;
  kv_block_size : Z;
  attn_block_size : option Z;
  needs_chunked_prefill_pad : bool;
  prefill_chunk_size : option Z;
  image_prefill_chunk_size : option (list Z)
}.

(** [mm_position] of a feature: where its placeholder starts, and which of its tokens are
    image tokens. *)
Record MmFeature := mkFeature { mm_offset : Z; mm_is_embed : option (list bool) }.

(** The runs of a mask, as positions in it; [run] is where the open run started. *)
Fixpoint embed_runs (i : Z) (run : option Z) (mask : list bool) : list (Z * Z) :=
  match mask with
  | [] => match run with Some s => [(s, i)] | None => [] end
  | true :: mask => embed_runs (i + 1) (Some (default i run)) mask
  | false :: mask =>
      match run with
      | Some s => (s, i) :: embed_runs (i + 1) None mask
      | None => embed_runs (i + 1) None mask
      end
  end.

(** The order of tuples. *)
Definition pair_le (a b : Z * Z) : Prop := a.1 < b.1 \/ (a.1 = b.1 /\ a.2 <= b.2).

#[export] Instance pair_le_dec : RelDecision pair_le.
Proof. intros a b. unfold pair_le. solve_decision. Defined.

Definition feature_segments (query_len : Z) (f : MmFeature) : res (list (Z * Z)) :=
  mask ← of_option (mm_is_embed f) AssertionError;
  Ok (omap (fun ij => if mm_offset f + ij.1 <? query_len
                      then Some (mm_offset f + ij.1, Z.min (mm_offset f + ij.2) query_len) else None)
        (embed_runs 0 None mask)).

(** [_image_embed_segments] *)
Definition image_embed_segments (features : list MmFeature) (query_len : Z)
    : res (list (Z * Z)) :=
  segments ← mapM (feature_segments query_len) features;
  Ok (merge_sort pair_le (concat segments)).

Section manager.
Variable cfg : KvConfig.

(** [_image_chunk_size]; the buckets descend. *)
Definition image_chunk_size (run_len : Z) : res Z :=
  match image_prefill_chunk_size cfg with
  | None | Some [] => of_option (prefill_chunk_size cfg) AssertionError
  | Some buckets => of_option (snd <$> list_find (fun b => run_len <= b) (reverse buckets)) ValueError
  end.

(** The run at [step] and the size of its chunk. *)
Definition next_chunk (segments : list (Z * Z)) (text_chunk query_len step : Z) : res (Z * Z) :=
  match list_find (fun se => se.1 <= step < se.2) segments with
  | Some (_, (_, seg_end)) =>
      let run_len := seg_end - step in
      chunk_size ← image_chunk_size run_len;
      Ok (run_len, chunk_size)
  | None =>
      let later := (fun se : Z * Z => se.1) <$> filter (fun se : Z * Z => step < se.1) segments in
      run_end ← (match later with [] => Ok query_len | _ => py_min later end);
      Ok (Z.min (run_end - step) text_chunk, text_chunk)
  end.

Fixpoint pad_loop (fuel : nat) (segments : list (Z * Z)) (text_chunk block_size query_len : Z)
    (step align_pad : Z) : res Z :=
  if step <? query_len then
    match fuel with
    | O => Raise OutOfFuel
    | S fuel =>
        '(run_len, chunk_size) ← next_chunk segments text_chunk query_len step;
        offset_in_block ← py_mod (step + align_pad) block_size;
        let align_pad := if block_size <? offset_in_block + chunk_size
                         then align_pad + (block_size - offset_in_block) else align_pad in
        pad_loop fuel segments text_chunk block_size query_len (step + run_len) align_pad
    end
  else Ok align_pad.

(** [_chunked_prefill_pad]; every turn moves [step] by at least one token. *)
Definition chunked_prefill_pad (features : list MmFeature) (query_len : Z) : res Z :=
  text_chunk ← of_option (prefill_chunk_size cfg) AssertionError;
  let block_size := default (kv_block_size cfg) (attn_block_size cfg) in
  segments ← image_embed_segments features query_len;
  pad_loop (Z.to_nat query_len) segments text_chunk block_size query_len 0 0.
End manager.

(** ** The manager *)

(** vLLM's coordinator, block pool and base class. *)
Class Coordinator (E : Type) := {
  get_num_blocks_to_allocate : string -> Z -> E -> Z;
  get_num_free_blocks : E -> Z;
  allocate_new_computed_blocks : string -> E -> E;
  allocate_new_blocks : string -> Z -> E -> list Z * E;
  coordinator_cache_blocks : Request -> Z -> E -> E;
  coordinator_free : string -> E -> E;
  coordinator_get_blocks : string -> E -> list Z;
  (** blocks, tokens and the boundary of the shared prefix *)
  get_computed_blocks : Request -> E -> list Z * Z * Z * E
}.

Section kv.
Context {E P : Type} `{C : Coordinator E} `{Policy : EvictionPolicy P}.
Variable cfg : KvConfig.
(** the multimodal features of a request *)
Variable mm_features : Request -> list MmFeature.

Record KvManager := mkKv {
  coordinator : E;
  block_pool : BlockPool;
  prefix_cache_manager : option (RBLNPrefixKVCacheManager P);
  chunked_prefill_pad_cache : gmap string Z
}.

Definition set_coordinator (e : E) (s : KvManager) : KvManager :=
  mkKv e (block_pool s) (prefix_cache_manager s) (chunked_prefill_pad_cache s).
Definition set_prefix (pm : RBLNPrefixKVCacheManager P) (s : KvManager) : KvManager :=
  mkKv (coordinator s) (block_pool s) (Some pm) (chunked_prefill_pad_cache s).
Definition set_pads (pads : gmap string Z) (s : KvManager) : KvManager :=
  mkKv (coordinator s) (block_pool s) (prefix_cache_manager s) pads.

Definition prefix_manager (s : KvManager) : res (RBLNPrefixKVCacheManager P) :=
  of_option (prefix_cache_manager s) AttributeError.

(** [RBLNKVCacheManager.__init__]; [start]: the state of a coordinator with that pool. *)
Definition new_kv_manager (start : BlockPool -> E) (policy : P) (num_blocks max_num_seqs : Z)
    (is_encoder_decoder : bool) (max_in_flight_tokens retention_interval : option Z)
    (use_eagle : bool) (dcp_world_size pcp_world_size hash_block_size num_groups : Z)
    : res KvManager :=
  assert! (bool_decide (is_Some max_in_flight_tokens));
  assert! (bool_decide (retention_interval = None));
  pool ← new_block_pool num_blocks is_encoder_decoder;
  _ ← coordinator_block_size retention_interval use_eagle (enable_caching cfg) (kv_block_size cfg)
        dcp_world_size pcp_world_size hash_block_size num_groups;
  assert! (negb (needs_chunked_prefill_pad cfg) || bool_decide (is_Some (prefill_chunk_size cfg)));
  pm ← (if enable_caching cfg then
          ob_size ← of_option (attn_block_size cfg) AssertionError;
          pm ← new_prefix_manager policy ob_size (kv_block_size cfg) (kv_max_model_len cfg)
                 max_num_seqs (num_blocks - 1);
          Ok (Some pm)
        else Ok None);
  Ok (mkKv (start pool) pool pm ∅).

(** How many slots the request needs, with its padding computed at most once. *)
Definition tokens_need_slot (r : Request) (s : KvManager) : res (Z * KvManager) :=
  let n := Z.min (num_tokens r) (kv_max_model_len cfg) in
  if needs_chunked_prefill_pad cfg then
    match chunked_prefill_pad_cache s !! request_id r with
    | Some pad => Ok (n + pad, s)
    | None =>
        pad ← chunked_prefill_pad cfg (mm_features r)
                (Z.min (num_prompt_tokens r) (kv_max_model_len cfg));
        Ok (n + pad, set_pads (<[request_id r := pad]> (chunked_prefill_pad_cache s)) s)
    end
  else Ok (n, s).

(** The outer blocks that prefix caching needs can be had. *)
Definition outer_blocks_available (num_blocks num_computed_tokens : Z) (s : KvManager)
    : res (bool * KvManager) :=
  if enable_caching cfg then
    pm ← prefix_manager s;
    let '(ok, pm) := can_allocate num_blocks num_computed_tokens pm in
    Ok (ok, set_prefix pm s)
  else Ok (true, s).

(** [allocate_slots], whose other arguments keep the values asserted; [None]: no slots. *)
Definition allocate_slots (r : Request) (num_new_tokens : Z) (s : KvManager)
    : res (option (list Z) * KvManager) :=
  if num_new_tokens =? 0 then Raise ValueError
  else
    let id := request_id r in
    '(need, s) ← tokens_need_slot r s;
    let num_blocks := get_num_blocks_to_allocate id need (coordinator s) in
    if get_num_free_blocks (coordinator s) <? num_blocks then Ok (None, s)
    else
      '(ok, s) ← outer_blocks_available num_blocks (num_computed_tokens r) s;
      if negb ok then Ok (None, s)
      else
        let e := allocate_new_computed_blocks id (coordinator s) in
        let '(new_blocks, e) := allocate_new_blocks id need e in
        let s := set_coordinator e s in
        if negb (enable_caching cfg) then Ok (Some new_blocks, s)
        else
          pm ← prefix_manager s;
          pm ← allocate_blocks id (num_computed_tokens r) new_blocks pm;
          let s := set_prefix pm s in
          Ok (Some new_blocks,
              set_coordinator (coordinator_cache_blocks r num_new_tokens (coordinator s)) s).

Definition free (id : string) (preemption : bool) (s : KvManager) : res KvManager :=
  s ← (if enable_caching cfg then
         pm ← prefix_manager s; pm ← free_request id preemption pm; Ok (set_prefix pm s)
       else Ok s);
  let s := set_coordinator (coordinator_free id (coordinator s)) s in
  Ok (set_pads (delete id (chunked_prefill_pad_cache s)) s).

Definition get_prefix_cached_blocks (r : Request) (new_computed_blocks : list Z) (s : KvManager)
    : res (list Z * list Z * KvManager) :=
  pm ← prefix_manager s;
  '(blocks, lengths, pm) ← get_matched_outer_blocks (request_id r) new_computed_blocks pm;
  Ok (blocks, lengths, set_prefix pm s).

Definition get_block_table (id : string) (s : KvManager) : res (list Z) :=
  pm ← prefix_manager s; get_blocks id pm.

Definition kv_get_dummy_block (s : KvManager) : res (Z * KvManager) :=
  match dummy_block (block_pool s) with
  | Some b => Ok (b - 1, s)
  | None =>
      pm ← prefix_manager s;
      '(b, pm) ← get_dummy_block pm;
      Ok (b, set_prefix pm s)
  end.
End kv.
Arguments KvManager : clear implicits.
