(* ===== verification/OptimumKvSpec.v ===== *)
(** * The KV cache manager of the models compiled ahead of time: what it guarantees

    The padding makes room for every chunk of the prefill; an allocation either leaves the
    request's blocks alone or extends them, inner and outer ones in step, and never raises. *)

From S2P Require Import Prelude VllmTypes BlockMapping Eviction PrefixCache PrefixCacheSpec OptimumKv.

(** ** Where the prefill puts its chunks *)

(** A chunk: its first token, how many tokens it holds, how many slots it writes, and its
    first slot. *)
Record Chunk := mkChunk { ck_step : Z; ck_run : Z; ck_size : Z; ck_slot : Z }.

(** The first slot from [slot] on where [size] slots do not straddle a block. *)
Definition place (bs size slot : Z) : Z :=
  if bs <? slot mod bs + size then slot + (bs - slot mod bs) else slot.

(** The layout the padding is computed for: runs of tokens one after the other, each chunk
    at the first slot behind the run before it where it does not straddle a block. *)
Inductive layout (cfg : KvConfig) (segs : list (Z * Z)) (tc bs q : Z) : Z -> Z -> list Chunk -> Z -> Prop :=
  | layout_done step pad : q <= step -> layout cfg segs tc bs q step pad [] pad
  | layout_next step pad run size l pad' : step < q ->
      next_chunk cfg segs tc q step = Ok (run, size) ->
      layout cfg segs tc bs q (step + run) (place bs size (step + pad) - step) l pad' ->
      layout cfg segs tc bs q step pad (mkChunk step run size (place bs size (step + pad)) :: l) pad'.

Section padding.
Variable cfg : KvConfig.
Variables (tc bs q : Z).
Variable segs : list (Z * Z).
Hypothesis tc_pos : 0 < tc.
Hypothesis bs_pos : 0 < bs.
Hypothesis segs_in : Forall (fun se => se.1 < q /\ se.2 <= q) segs.

Lemma next_chunk_run step run size : step < q -> next_chunk cfg segs tc q step = Ok (run, size) ->
  0 < run /\ step + run <= q.
Proof.
  intros Hs. unfold next_chunk. destruct (list_find _ segs) as [[i [s e]]|] eqn:Ef.
  - apply list_find_Some in Ef as (Hi & Hse & _). cbn in Hse.
    pose proof (Forall_lookup_1 _ _ _ _ segs_in Hi) as [_ He]. cbn in He.
    destruct (image_chunk_size cfg (e - step)); [|done]. cbn. intros [= <- <-]. lia.
  - set (later := (fun se : Z * Z => se.1) <$> filter (fun se : Z * Z => step < se.1) segs).
    assert (Forall (fun s => step < s < q) later) as Hl.
    { unfold later. apply Forall_fmap, Forall_forall. intros se Hse. cbn.
      apply list_elem_of_filter in Hse as [H1 H2]. rewrite Forall_forall in segs_in.
      destruct (segs_in se H2). lia. }
    destruct later as [|s l]; cbn [mbind res_bind].
    + intros [= <- <-]. lia.
    + cbn [py_min mbind res_bind]. intros [= <- <-]. pose proof (minZ_spec s l) as Hm.
      rewrite Forall_forall in Hl. destruct Hm as (_ & _ & Hin). specialize (Hl _ Hin). lia.
Qed.

Lemma place_bounds size slot : slot <= place bs size slot /\
  (0 < size <= bs -> place bs size slot mod bs + size <= bs).
Proof.
  unfold place. pose proof (Z.mod_pos_bound slot bs bs_pos). destruct (Z.ltb_spec bs (slot mod bs + size)); [|lia].
  split; [lia|]. intros Hsize.
  replace (slot + (bs - slot mod bs)) with ((slot / bs + 1) * bs)
    by (pose proof (Z.div_mod slot bs ltac:(lia)); lia).
  rewrite Z.mod_mul by lia. lia.
Qed.

(** The loop computes the padding of the layout; [fuel] turns suffice. *)
Lemma pad_loop_layout fuel : forall step pad, q - step <= Z.of_nat fuel ->
  match pad_loop cfg fuel segs tc bs q step pad with
  | Ok pad' => exists l, layout cfg segs tc bs q step pad l pad'
  | Raise e => e = ValueError \/ e = AssertionError
  end.
Proof.
  induction fuel as [|fuel IH]; intros step pad Hf; cbn [pad_loop].
  { rewrite (proj2 (Z.ltb_ge step q)) by lia. exists []. constructor. lia. }
  destruct (Z.ltb_spec step q) as [Hs|Hs]; [|exists []; by constructor].
  destruct (next_chunk cfg segs tc q step) as [[run size]|e] eqn:En; cbn [mbind res_bind].
  - destruct (next_chunk_run _ _ _ Hs En) as [Hrun _]. unfold py_mod.
    rewrite (proj2 (Z.eqb_neq bs 0)) by lia. cbn [mbind res_bind].
    assert ((if bs <? (step + pad) mod bs + size then pad + (bs - (step + pad) mod bs) else pad) =
      place bs size (step + pad) - step) as -> by (unfold place; destruct (_ <? _); lia).
    specialize (IH (step + run) (place bs size (step + pad) - step) ltac:(lia)).
    destruct (pad_loop _ _ _ _ _ _ _ _) as [pad'|e]; [|done]. destruct IH as [l Hl].
    eexists. by econstructor.
  - unfold next_chunk in En. destruct (list_find _ _) as [[i [s e']]|].
    + destruct (image_chunk_size cfg (e' - step)) eqn:Ei; [done|]. injection En as ->.
      unfold image_chunk_size, of_option in Ei. repeat case_match; simplify_eq; auto.
    + destruct ((fun se : Z * Z => se.1) <$> _); done.
Qed.

Lemma layout_final step pad l pad' : layout cfg segs tc bs q step pad l pad' -> pad <= pad'.
Proof.
  induction 1 as [|step pad run size l pad' Hs Hn Hl IH]; [lia|].
  pose proof (proj1 (place_bounds size (step + pad))). lia.
Qed.

(** Every chunk lies behind [step], in the slots up to the last block reached. *)
Lemma layout_inside step pad l pad' : layout cfg segs tc bs q step pad l pad' ->
  Forall (fun c => step <= ck_step c < q /\ step + pad <= ck_slot c < q + pad') l.
Proof.
  induction 1 as [|step pad run size l pad' Hs Hn Hl IH]; [constructor|].
  pose proof (proj1 (place_bounds size (step + pad))) as Hp. pose proof (layout_final _ _ _ _ Hl) as Hf.
  destruct (next_chunk_run _ _ _ Hs Hn) as [Hr _].
  constructor; cbn; [lia|]. eapply Forall_impl; [exact IH|]. intros c Hc. cbn in Hc. lia.
Qed.

Lemma layout_tiles step pad l pad' : layout cfg segs tc bs q step pad l pad' -> step <= q ->
  concat ((fun c => seqZ (ck_step c) (ck_run c)) <$> l) = seqZ step (q - step).
Proof.
  induction 1 as [|step pad run size l pad' Hs Hn Hl IH]; intros Hle; cbn.
  { by replace (q - step) with 0 by lia. }
  destruct (next_chunk_run _ _ _ Hs Hn) as [Hr Hq]. rewrite IH by lia.
  replace (q - step) with (run + (q - (step + run))) by lia. by rewrite seqZ_app by lia.
Qed.

Lemma layout_apart step pad l pad' : layout cfg segs tc bs q step pad l pad' ->
  forall (i j : nat) c d, l !! i = Some c -> l !! j = Some d -> (i < j)%nat ->
    ck_slot c + ck_run c <= ck_slot d.
Proof.
  induction 1 as [|step pad run size l pad' Hs Hn Hl IH]; intros i j c d Hi Hj Hij; [done|].
  destruct j as [|j]; [lia|]. cbn in Hj. destruct i as [|i]; [|apply (IH i j); (done || lia)].
  injection Hi as <-. cbn. pose proof (layout_inside _ _ _ _ Hl) as Hin.
  pose proof (Forall_lookup_1 _ _ _ _ Hin Hj) as Hd. cbn beta in Hd. lia.
Qed.

Lemma layout_blocks step pad l pad' :
  (forall run size step, step < q -> next_chunk cfg segs tc q step = Ok (run, size) -> 0 < size <= bs) ->
  layout cfg segs tc bs q step pad l pad' -> Forall (fun c => ck_slot c mod bs + ck_size c <= bs) l.
Proof.
  intros Hsize. induction 1 as [|step pad run size l pad' Hs Hn Hl IH]; [constructor|].
  constructor; [|done]. cbn. apply place_bounds. by apply (Hsize run size step).
Qed.

Lemma layout_runs step pad l pad' :
  (forall run size step, step < q -> next_chunk cfg segs tc q step = Ok (run, size) -> run <= size) ->
  layout cfg segs tc bs q step pad l pad' -> Forall (fun c => 0 < ck_run c <= ck_size c) l.
Proof.
  intros Hsize. induction 1 as [|step pad run size l pad' Hs Hn Hl IH]; [constructor|].
  destruct (next_chunk_run _ _ _ Hs Hn) as [Hr _].
  constructor; [|done]. cbn. split; [done|]. by apply (Hsize run size step).
Qed.
End padding.

(** A configuration whose chunks fit a block, with buckets for images. *)
Record pad_config_ok (cfg : KvConfig) (tc bs : Z) : Prop := {
  pc_text : prefill_chunk_size cfg = Some tc /\ 0 < tc <= bs;
  pc_block : default (kv_block_size cfg) (attn_block_size cfg) = bs;
  pc_images : exists buckets, image_prefill_chunk_size cfg = Some buckets /\ buckets <> [] /\
    Forall (fun b => 0 < b <= bs) buckets
}.

Lemma feature_segments_spec q f :
  match feature_segments q f with
  | Ok l => Forall (fun se => se.1 < q /\ se.2 <= q) l
  | Raise e => e = AssertionError
  end.
Proof.
  unfold feature_segments. destruct (mm_is_embed f) as [mask|]; cbn [of_option mbind res_bind]; [|done].
  apply Forall_forall. intros se ([i j] & _ & Hse)%list_elem_of_omap. cbn in Hse.
  destruct (Z.ltb_spec (mm_offset f + i) q); [|done]. injection Hse as <-. cbn. lia.
Qed.

Lemma segments_spec features q :
  match image_embed_segments features q with
  | Ok segs => Forall (fun se => se.1 < q /\ se.2 <= q) segs
  | Raise e => e = AssertionError
  end.
Proof.
  unfold image_embed_segments.
  assert (match mapM (feature_segments q) features with
          | Ok ls => Forall (fun se => se.1 < q /\ se.2 <= q) (concat ls)
          | Raise e => e = AssertionError end) as H.
  { induction features as [|f features IH]; cbn [mapM]; [constructor|].
    pose proof (feature_segments_spec q f) as Hf. destruct (feature_segments q f) as [l|e]; cbn [mbind res_bind]; [|done].
    destruct (mapM _ features) as [ls|e]; cbn [mbind res_bind]; [|done]. cbn. by apply Forall_app. }
  destruct (mapM _ features) as [ls|e]; cbn [mbind res_bind]; [|done]. by rewrite merge_sort_Permutation.
Qed.

Lemma chunk_fits cfg tc bs q segs : pad_config_ok cfg tc bs -> forall run size step, step < q ->
  next_chunk cfg segs tc q step = Ok (run, size) -> 0 < size <= bs /\ run <= size.
Proof.
  intros [[_ Htc] _ (buckets & Hb & Hne & Hall)] run size step Hs. unfold next_chunk.
  destruct (list_find _ segs) as [[i [s e]]|].
  - unfold image_chunk_size. rewrite Hb. destruct buckets as [|b0 bs']; [done|].
    destruct (list_find (fun b => e - step <= b) (reverse (b0 :: bs'))) as [[k b]|] eqn:Ef; [|done].
    cbn. intros [= <- <-]. apply list_find_Some in Ef as (Hk & Hle & _). split; [|done].
    apply list_elem_of_lookup_2, elem_of_reverse in Hk. rewrite reverse_involutive in Hk. rewrite Forall_forall in Hall. exact (Hall b Hk).
  - destruct ((fun se : Z * Z => se.1) <$> _); cbn; intros [= <- <-]; lia.
Qed.

(** The padding makes room for the whole prefill.  The computation ends, with a padding
    or with one of the code's own errors.  Under a padding the chunks tile the prompt in
    order; no chunk straddles a block; its tokens lie in the slots it writes and behind the
    tokens of the chunks before it; and every slot a chunk writes, its unused tail included,
    lies in the blocks that hold the prompt and its padding. *)
Theorem padding_covers_chunks cfg features q tc bs :
  pad_config_ok cfg tc bs -> 0 <= q ->
  match chunked_prefill_pad cfg features q with
  | Raise e => e = ValueError \/ e = AssertionError
  | Ok pad => exists segs l, image_embed_segments features q = Ok segs /\
      layout cfg segs tc bs q 0 0 l pad /\
      concat ((fun c => seqZ (ck_step c) (ck_run c)) <$> l) = seqZ 0 q /\
      (forall (i j : nat) c d, l !! i = Some c -> l !! j = Some d -> (i < j)%nat ->
         ck_slot c + ck_run c <= ck_slot d) /\
      Forall (fun c => 0 < ck_run c <= ck_size c /\ ck_slot c mod bs + ck_size c <= bs /\
                0 <= ck_slot c /\ ck_slot c + ck_size c <= cdiv (q + pad) bs * bs) l
  end.
Proof.
  intros Hok Hq. destruct Hok as [[Htc Htcb] Hbs Hb] eqn:Hrec. clear Hrec. unfold chunked_prefill_pad.
  rewrite Htc. cbn [of_option mbind res_bind]. rewrite Hbs.
  pose proof (segments_spec features q) as Hin.
  destruct (image_embed_segments features q) as [segs|e]; cbn [mbind res_bind]; [|by right].
  pose proof (pad_loop_layout cfg tc bs q segs ltac:(lia) ltac:(lia) Hin (Z.to_nat q) 0 0 ltac:(lia)) as Hl.
  destruct (pad_loop _ _ _ _ _ _ _ _) as [pad|e]; [|done]. destruct Hl as [l Hl].
  exists segs, l. split; [done|]. split; [done|].
  split; [rewrite (layout_tiles cfg tc bs q segs ltac:(lia) Hin _ _ _ _ Hl Hq); f_equal; lia|].
  split; [by apply (layout_apart cfg tc bs q segs ltac:(lia) ltac:(lia) Hin _ _ _ _ Hl)|].
  pose proof (chunk_fits cfg tc bs q segs Hok) as Hfit.
  apply Forall_forall. intros c Hc.
  pose proof (layout_runs cfg tc bs q segs ltac:(lia) Hin _ _ _ _ ltac:(naive_solver) Hl) as Hrun.
  pose proof (layout_blocks cfg tc bs q segs ltac:(lia) _ _ _ _ ltac:(naive_solver) Hl) as Hblk.
  pose proof (layout_inside cfg tc bs q segs ltac:(lia) ltac:(lia) Hin _ _ _ _ Hl) as Hins.
  rewrite Forall_forall in Hrun, Hblk, Hins. specialize (Hrun c Hc). specialize (Hblk c Hc).
  specialize (Hins c Hc). cbn in Hrun, Hblk, Hins. split; [done|]. split; [done|]. split; [lia|].
  pose proof (cdiv_spec (q + pad) bs ltac:(lia)). pose proof (Z.div_mod (ck_slot c) bs ltac:(lia)).
  assert (ck_slot c / bs < cdiv (q + pad) bs); [|nia]. apply Z.div_lt_upper_bound; nia.
Qed.

(** ** What is relied on *)

(** vLLM's coordinator over blocks of [bs] tokens: [held e r] are the blocks of a request. *)
Class CoordinatorLaws (E : Type) `{Coordinator E} (bs : Z) (held : E -> string -> list Z) := {
  law_needed r n e : get_num_blocks_to_allocate r n e = Z.max 0 (cdiv n bs - len (held e r));
  law_touch r r' e : held (allocate_new_computed_blocks r e) r' = held e r' /\
    get_num_free_blocks (allocate_new_computed_blocks r e) = get_num_free_blocks e;
  law_allocate r n e ids e' : allocate_new_blocks r n e = (ids, e') ->
    get_num_blocks_to_allocate r n e <= get_num_free_blocks e ->
    len ids = get_num_blocks_to_allocate r n e /\ NoDup ids /\
    (forall r' i, i ∈ ids -> i ∉ held e r') /\
    forall r', held e' r' = if decide (r' = r) then held e r ++ ids else held e r';
  law_cache r n e r' : held (coordinator_cache_blocks r n e) r' = held e r';
  law_free r e r' : held (coordinator_free r e) r' = if decide (r' = r) then [] else held e r';
  (** a hit is none of the request's own blocks, which is what [get_one_block] is for, and
      leaves a token to compute *)
  law_hits r e l n b e' : get_computed_blocks r e = (l, n, b, e') -> 0 < num_tokens r ->
    (forall i, i ∈ l -> i ∉ held e (request_id r)) /\ len l * bs < num_tokens r /\
    forall r', held e' r' = held e r'
}.

Lemma cdiv_next a R : 0 < R -> 0 <= a -> cdiv (a + 1) R = cdiv a R + (if a mod R =? 0 then 1 else 0).
Proof.
  intros HR Ha. pose proof (Z.div_mod a R ltac:(lia)) as Hd. pose proof (Z.mod_pos_bound a R HR).
  destruct (Z.eqb_spec (a mod R) 0) as [H0|H0].
  - rewrite (cdiv_unique a R (a / R)), (cdiv_unique (a + 1) R (a / R + 1)); nia.
  - rewrite (cdiv_unique a R (a / R + 1)), (cdiv_unique (a + 1) R (a / R + 1)); nia.
Qed.

Section kv.
Context {E P : Type} `{C : Coordinator E} `{Policy : EvictionPolicy P}.
Context {tracks : P -> gset Z -> Prop} `{Laws : !EvictionPolicyLaws P tracks}.
Context {bs : Z} {held : E -> string -> list Z} `{CL : !CoordinatorLaws E bs held}.
Variable cfg : KvConfig.
Variable mm_features : Request -> list MmFeature.
Hypothesis bs_pos : 0 < bs.
Implicit Types (s : KvManager E P) (pm : RBLNPrefixKVCacheManager P).
#[local] Abbreviation pm_inv := (PrefixCache.pm_inv (tracks := tracks)).

(** The outer blocks of every request hold its inner blocks, in order, and are as many as
    these need. *)
Record in_step (e : E) pm : Prop := {
  is_inv : pm_inv [] [] pm;
  is_block : ib_size (config pm) = bs;
  is_inner : forall r, request_inner r pm = held e r;
  is_known : forall r, is_Some (requests pm !! r) <-> held e r <> [];
  is_count : forall r, len (default [] (requests pm !! r)) = cdiv (len (held e r)) (block_ratio (config pm))
}.

Definition kv_inv s : Prop :=
  enable_caching cfg = true ->
  exists pm, prefix_cache_manager s = Some pm /\ in_step (coordinator s) pm.

Lemma can_allocate_inner pm n t b pm' : pm_inv [] [] pm -> 0 <= n -> 0 <= t ->
  can_allocate n t pm = (b, pm') -> forall r, request_inner r pm' = request_inner r pm.
Proof.
  intros I Hn Ht Hc. destruct (can_allocate_spec pm n t b pm' I Hn Ht Hc) as (_ & _ & Er & Hk & _).
  intros r. apply request_inner_ext; [by rewrite Er|]. intros o Ho.
  destruct (requests pm !! r) as [os|] eqn:Eos; [|by apply not_elem_of_nil in Ho].
  destruct (inv_owned _ _ _ I r os Eos) as (_ & _ & H3).
  destruct (H3 o Ho) as (m & Hm & Ha & _). rewrite Hm. by apply Hk.
Qed.

(** A block of another request. *)
Lemma foreign_block pm r r' os os' o : pm_inv [] [] pm -> requests pm !! r = Some os ->
  requests pm !! r' = Some os' -> r' <> r -> o ∈ os' -> o ∉ os.
Proof.
  intros I Hr Hr' Hne Ho' Ho. destruct (inv_owned _ _ _ I r os Hr) as (_ & _ & H1).
  destruct (inv_owned _ _ _ I r' os' Hr') as (_ & _ & H2).
  destruct (H1 o Ho) as (m & Hm & _ & Hq). destruct (H2 o Ho') as (m' & Hm' & _ & Hq'). congruence.
Qed.

Lemma owned_mapping pm r o : pm_inv [] [] pm -> o ∈ default [] (requests pm !! r) ->
  exists os m, requests pm !! r = Some os /\ o ∈ os /\ mapping_at o pm = Some m.
Proof.
  intros I Ho. destruct (requests pm !! r) as [os|] eqn:Hr; [|by apply not_elem_of_nil in Ho].
  destruct (inv_owned _ _ _ I r os Hr) as (_ & _ & H1). destruct (H1 o Ho) as (m & Hm & _). by exists os, m.
Qed.

Lemma new_blocks_keep_others r n ids pm pm' r' : pm_inv [] [] pm -> 0 < n <= get_free_count (allocator pm) ->
  NoDup ids -> (forall i, i ∈ ids -> i ∉ request_inner r' pm) -> r' <> r ->
  PrefixCache.allocate_new_blocks r n ids pm = Ok pm' -> request_inner r' pm' = request_inner r' pm.
Proof.
  intros I Hn Hnd Hfresh Hne Hall. destruct (allocate_new_blocks_ok r n ids [] pm I Hn Hnd) as (s' & E' & _ & _ & G).
  rewrite E' in Hall. injection Hall as ->. apply request_inner_ext; [by apply (gv_others _ _ _ _ _ _ G)|].
  intros o Ho. destruct (owned_mapping pm r' o I Ho) as (os & m & Hr & Hin & Hm). rewrite Hm.
  eapply gv_keeps; [exact G| |done|].
  - intros Hf. assert (o ∈ free_ids pm) as Hfree by (eapply elem_of_sublist; [done|apply sublist_take]).
    by rewrite (free_not_mapped _ _ _ _ I Hfree) in Hm.
  - intros x Hx j _ Hc. apply (Hfresh x); [exact (chunk_sub _ _ _ _ (block_ratio_pos _ _ _ I) Hc)|].
    exact (elem_of_request_inner r' pm o m x Ho Hm Hx).
Qed.

Lemma allocate_keeps_others r t ids pm pm' r' : pm_inv [] [] pm -> phase_ok r t ids pm ->
  required pm t ids <= get_free_count (allocator pm) ->
  (forall i, i ∈ ids -> i ∉ request_inner r' pm) -> r' <> r ->
  allocate_blocks r t ids pm = Ok pm' -> request_inner r' pm' = request_inner r' pm.
Proof.
  intros I (Hids & Hnd & Hown & Hphase) Hfree Hfresh Hne. pose proof (block_ratio_pos _ _ _ I) as Hratio.
  assert (0 < len ids) as Hlen by (destruct ids; [done|rewrite len_cons; pose proof (len_nonneg ids); lia]).
  unfold allocate_blocks, check_free_blocks, is_request_registered. fold (required pm t ids).
  rewrite (proj2 (Z.eqb_neq (len ids) 0)), (proj2 (Z.leb_le _ _)) by (done || lia).
  cbn [require mbind res_bind]. unfold requests in Hphase.
  destruct (request_to_outer_blocks (mapping_manager pm) !! r) as [os|] eqn:Eos.
  - rewrite bool_decide_true by (by eexists). destruct Hphase as [Ht Hl]. unfold handle_decode_allocation.
    destruct (Z.ltb_spec 0 (required pm t ids)).
    { intros Hall. eapply new_blocks_keep_others; [done| |done|done|done|done]. lia. }
    unfold get_block_ids, get_request_blocks, is_request_registered. rewrite Eos.
    rewrite bool_decide_true by (by eexists). cbn [of_option mbind res_bind].
    destruct (inv_owned _ _ _ I r os Eos) as (Hos & _). rewrite py_nth_last.
    destruct (last os) as [o|] eqn:El; [|by apply last_None in El]. cbn [of_option mbind res_bind].
    destruct ids as [|i [|j ids]]; [done| |rewrite !len_cons in Hl; pose proof (len_nonneg ids); lia].
    assert (o ∈ os) as Ho by (by apply last_Some_elem_of).
    assert (inner_to_outer (mapping_manager pm) !! i <> Some o) as Hio.
    { intros Hio. destruct (owned_mapping pm r o I ltac:(unfold requests; by rewrite Eos)) as (_ & m & _ & _ & Hm).
      apply (mwf_agree _ (inv_mapping _ _ _ I)) in Hio. unfold get_inner_blocks_for_outer in Hio.
      unfold mapping_at in Hm. rewrite Hm in Hio. apply (Hown i); [by left|].
      eapply elem_of_request_inner; [|exact Hm|done]. unfold requests. by rewrite Eos. }
    destruct (append_ok r os o i pm I Eos El Hio) as (s' & m & E' & _ & _ & Er & _ & _ & _ & Hk).
    rewrite E'. intros [= <-]. apply request_inner_ext; [by rewrite Er|]. intros o' Ho'.
    destruct (owned_mapping pm r' o' I Ho') as (os' & m' & Hr' & Hin' & Hm'). rewrite Hm'. apply Hk; [|done|].
    + intros ->. by apply (foreign_block pm r r' os os' o I Eos Hr' Hne Hin').
    + intros Him. apply (Hfresh i); [by left|]. exact (elem_of_request_inner r' pm o' m' i Ho' Hm' Him).
  - rewrite bool_decide_false by (by intros []). subst t. unfold handle_prefill_allocation. intros Hall.
    eapply new_blocks_keep_others; [done| |done|done|done|done].
    assert (required pm 0 ids = cdiv (len ids) (block_ratio (config pm))) as Er.
    { unfold required, compute_num_blocks_to_allocate. by rewrite (proj2 (Z.eqb_neq (len ids) 0)) by lia. }
    pose proof (cdiv_spec (len ids) _ Hratio). nia.
Qed.

Lemma in_step_can_allocate e pm n t b pm' : in_step e pm -> 0 <= n -> 0 <= t ->
  can_allocate n t pm = (b, pm') -> in_step e pm'.
Proof.
  intros [I Hb Hi Hk Hc] Hn Ht Hca.
  destruct (can_allocate_spec pm n t b pm' I Hn Ht Hca) as (I' & Ec & Er & _).
  split; [done|by rewrite Ec|..]; intros r; rewrite ?Er, ?Ec; auto.
  by rewrite (can_allocate_inner pm n t b pm' I Hn Ht Hca).
Qed.

Lemma in_step_env e e' pm : (forall r, held e' r = held e r) -> in_step e pm -> in_step e' pm.
Proof. intros He [I Hb Hi Hk Hc]. split; [done|done|..]; intros r; rewrite ?He; auto. Qed.

(** A request that may ask for slots: a new one, or one that generated a token and whose
    blocks hold its computed tokens, exactly where prefix caching counts on it. *)
Definition may_allocate (e : E) (r : Request) : Prop :=
  0 < num_tokens r /\
  ((held e (request_id r) = [] /\ num_computed_tokens r = 0) \/
   (0 < num_computed_tokens r <= kv_max_model_len cfg /\ num_tokens r = num_computed_tokens r + 1 /\
    held e (request_id r) <> [] /\
    (enable_caching cfg = true -> len (held e (request_id r)) = cdiv (num_computed_tokens r) bs))).

Lemma cdiv_mono a b : a <= b -> cdiv a bs <= cdiv b bs.
Proof. intros Hab. pose proof (cdiv_spec a bs bs_pos). pose proof (cdiv_spec b bs bs_pos). nia. Qed.

Lemma cdiv_succ a : 0 <= a -> cdiv (a + 1) bs = cdiv a bs \/ (cdiv (a + 1) bs = cdiv a bs + 1 /\ a = cdiv a bs * bs).
Proof. intros Ha. pose proof (cdiv_spec a bs bs_pos). pose proof (cdiv_spec (a + 1) bs bs_pos). nia. Qed.

Lemma cdiv_pos a : 0 < a -> 0 < cdiv a bs.
Proof. intros Ha. pose proof (cdiv_spec a bs bs_pos). nia. Qed.

(** The slots a request needs: its tokens, and the padding when the model needs one. *)
Definition slots_needed (r : Request) (s : KvManager E P) (need : Z) : Prop :=
  exists pad, need = Z.min (num_tokens r) (kv_max_model_len cfg) + pad /\ 0 <= pad /\
    if needs_chunked_prefill_pad cfg
    then enable_caching cfg = false /\
      (chunked_prefill_pad_cache s !! request_id r = Some pad \/
       (chunked_prefill_pad_cache s !! request_id r = None /\
        chunked_prefill_pad cfg (mm_features r) (Z.min (num_prompt_tokens r) (kv_max_model_len cfg)) = Ok pad))
    else pad = 0.

Lemma tokens_need_slot_ok r s need : slots_needed r s need -> exists s',
  tokens_need_slot cfg mm_features r s = Ok (need, s') /\ coordinator s' = coordinator s /\
  block_pool s' = block_pool s /\ prefix_cache_manager s' = prefix_cache_manager s.
Proof.
  intros (pad & -> & Hpad & Hn). unfold tokens_need_slot. destruct (needs_chunked_prefill_pad cfg).
  - destruct Hn as [_ [->|[-> ->]]]; [by eexists|]. cbn [mbind res_bind]. by eexists.
  - subst pad. rewrite Z.add_0_r. by eexists.
Qed.

(** What a decode step asks of the prefix cache manager. *)
Lemma decode_needs e r : enable_caching cfg = true -> may_allocate e r -> held e (request_id r) <> [] ->
  let needed := Z.max 0 (cdiv (Z.min (num_tokens r) (kv_max_model_len cfg)) bs - len (held e (request_id r))) in
  0 < num_computed_tokens r /\ needed <= 1 /\
  (needed = 1 -> num_computed_tokens r / bs = len (held e (request_id r))).
Proof.
  intros Hca [_ [[Hh _]|(Hc & Ht & _ & Hl)]] Hne; [done|]. cbn zeta. rewrite Ht, (Hl Hca). split; [lia|].
  destruct (Z.le_gt_cases (num_computed_tokens r + 1) (kv_max_model_len cfg)).
  - rewrite Z.min_l by done. destruct (cdiv_succ (num_computed_tokens r) ltac:(lia)) as [->|[-> Hx]]; [lia|].
    split; [lia|]. intros _. rewrite Hx at 1. by rewrite Z.div_mul by lia.
  - rewrite Z.min_r by lia. assert (kv_max_model_len cfg = num_computed_tokens r) as -> by lia. lia.
Qed.

(** Outer blocks follow the inner ones. *)
Lemma outer_follows e pm r ids : enable_caching cfg = true -> in_step e pm -> may_allocate e r -> ids <> [] -> NoDup ids ->
  (forall r' i, i ∈ ids -> i ∉ held e r') ->
  len ids = Z.max 0 (cdiv (Z.min (num_tokens r) (kv_max_model_len cfg)) bs - len (held e (request_id r))) ->
  compute_num_blocks_to_allocate (config pm) (len ids) (num_computed_tokens r) <= get_free_count (allocator pm) ->
  exists pm', allocate_blocks (request_id r) (num_computed_tokens r) ids pm = Ok pm' /\
    forall e', (forall r', held e' r' = if decide (r' = request_id r) then held e (request_id r) ++ ids else held e r') ->
      in_step e' pm'.
Proof.
  intros Hca [I Hb Hi Hk Hc] Hmay Hne Hnd Hfresh Hlen Hfree. set (id := request_id r) in *.
  assert (phase_ok id (num_computed_tokens r) ids pm) as Hphase.
  { split; [done|]. split; [done|]. split; [intros i Hin; rewrite Hi; by apply Hfresh|]. specialize (Hk id).
    destruct (requests pm !! id) as [os|].
    - destruct (decode_needs e r Hca Hmay) as (H1 & H2 & _); [apply Hk; by eexists|]. split; [done|].
      fold id in H2. destruct ids; [done|]. rewrite len_cons in Hlen |- *. pose proof (len_nonneg ids). lia.
    - destruct Hmay as [_ [[_ H0]|(_ & _ & Hheld & _)]]; [done|]. exfalso. fold id in Hheld.
      by destruct (proj2 Hk Hheld). }
  destruct (allocate_blocks_ok id (num_computed_tokens r) ids pm I Hphase Hfree)
    as (pm' & E' & I' & Ec & Eown & Eoth & Ein).
  exists pm'. split; [done|]. intros e' He'.
  assert (forall r', r' <> id -> request_inner r' pm' = request_inner r' pm) as Hoth.
  { intros r' Hr'. eapply allocate_keeps_others; [done|exact Hphase|done| |done|done].
    intros i Hi'. rewrite Hi. by apply Hfresh. }
  assert (0 < len ids) as Hpos by (destruct ids; [done|rewrite len_cons; pose proof (len_nonneg ids); lia]).
  pose proof (block_ratio_pos _ _ _ I) as Hratio.
  assert (len (default [] (requests pm' !! id)) = cdiv (len (held e id) + len ids) (block_ratio (config pm))) as Hcount.
  { rewrite Eown, len_app, Hc. unfold required in *. set (n := compute_num_blocks_to_allocate _ _ _) in *.
    assert (0 <= n) as Hn by (apply compute_nonneg; lia).
    assert (len (take (Z.to_nat n) (free_ids pm)) = n) as ->.
    { clearbody n. unfold get_free_count, free_ids, len in *. rewrite length_take, length_fmap. lia. }
    unfold n, compute_num_blocks_to_allocate. rewrite (proj2 (Z.eqb_neq (len ids) 0)) by lia.
    pose proof Hmay as Hm0. destruct Hm0 as [_ [[H0 Hn0]|Hdec]].
    - fold id in H0. rewrite Hn0, Z.eqb_refl. assert (len (held e id) = 0) as -> by (by rewrite H0).
      pose proof (cdiv_spec 0 _ Hratio). assert (cdiv 0 (block_ratio (config pm)) = 0) as -> by nia. done.
    - assert (held e id <> []) as Hheld.
      { by destruct Hdec as (_ & _ & Hl & _). }
      destruct (decode_needs e r Hca ltac:(split; [apply Hmay|by right]) Hheld) as (H1 & H2 & H3). fold id in H2, H3.
      rewrite (proj2 (Z.eqb_neq _ _)) by lia. assert (len ids = 1) as -> by lia. rewrite Hb, H3 by lia.
      symmetry. apply cdiv_next; [done|apply len_nonneg]. }
  split; [done|by rewrite Ec|..]; intros r'; rewrite He'; destruct (decide (r' = id)) as [->|Hr'].
  - by rewrite Ein, Hi.
  - by rewrite Hoth, Hi.
  - split; [intros _; destruct (held e id); [done|done]|]. intros _.
    destruct (requests pm' !! id); [by eexists|]. change (default [] None) with (@nil Z) in Hcount.
    change (len []) with 0 in Hcount. pose proof (cdiv_spec (len (held e id) + len ids) _ Hratio).
    pose proof (len_nonneg (held e id)). nia.
  - by rewrite Eoth, Hk.
  - rewrite Ec, len_app. exact Hcount.
  - by rewrite Eoth, Ec, Hc.
Qed.

Definition missing (r : Request) s (need : Z) : Z :=
  Z.max 0 (cdiv need bs - len (held (coordinator s) (request_id r))).

(** The inner blocks, or under prefix caching the outer ones, do not suffice. *)
Definition short_of_blocks (r : Request) s (need : Z) : Prop :=
  get_num_free_blocks (coordinator s) < missing r s need \/
  (enable_caching cfg = true /\ exists pm, prefix_cache_manager s = Some pm /\
     get_free_count (allocator pm) + len (inactive_block_ids (mapping_manager pm)) <
       compute_num_blocks_to_allocate (config pm) (missing r s need) (num_computed_tokens r)).

Lemma coordinator_allocates r need e ids e' :
  allocate_new_blocks (request_id r) need (allocate_new_computed_blocks (request_id r) e) = (ids, e') ->
  Z.max 0 (cdiv need bs - len (held e (request_id r))) <= get_num_free_blocks e ->
  len ids = Z.max 0 (cdiv need bs - len (held e (request_id r))) /\ NoDup ids /\
  (forall r' i, i ∈ ids -> i ∉ held e r') /\
  forall r', held e' r' = if decide (r' = request_id r) then held e (request_id r) ++ ids else held e r'.
Proof.
  intros Ha Hfree. destruct (law_touch (request_id r) (request_id r) e) as [Ht Hf].
  destruct (law_allocate _ _ _ _ _ Ha) as (H1 & H2 & H3 & H4); [by rewrite law_needed, Ht, Hf|].
  rewrite law_needed, Ht in H1. split; [done|]. split; [done|]. split.
  - intros r' i Hi. destruct (law_touch (request_id r) r' e) as [<- _]. by apply H3.
  - intros r'. rewrite H4. destruct (law_touch (request_id r) r' e) as [-> _]. by rewrite Ht.
Qed.

Lemma allocate_slots_ok r n s need :
  kv_inv s -> may_allocate (coordinator s) r -> slots_needed r s need -> n <> 0 ->
  exists o s', allocate_slots cfg mm_features r n s = Ok (o, s') /\ kv_inv s' /\
    match o with
    | None => short_of_blocks r s need /\ forall r', held (coordinator s') r' = held (coordinator s) r'
    | Some ids => ~ short_of_blocks r s need /\ len ids = missing r s need /\ NoDup ids /\
        (forall r' i, i ∈ ids -> i ∉ held (coordinator s) r') /\
        forall r', held (coordinator s') r' =
          if decide (r' = request_id r) then held (coordinator s) (request_id r) ++ ids
          else held (coordinator s) r'
    end.
Proof.
  intros Hinv Hmay Hneed Hn. unfold allocate_slots. rewrite (proj2 (Z.eqb_neq n 0)) by done.
  destruct (tokens_need_slot_ok r s need Hneed) as (s0 & -> & He & _ & Hp). cbn [mbind res_bind].
  rewrite He, law_needed. fold (missing r s need). destruct (Z.ltb_spec (get_num_free_blocks (coordinator s)) (missing r s need)) as [Hlt|Hge].
  { exists None, s0. split; [done|]. split; [|split; [by left|intros r'; by rewrite He]].
    intros Hc. destruct (Hinv Hc) as (pm & Hpm & Hstep). exists pm. by rewrite Hp, He. }
  assert (0 <= missing r s need) as Hm by (unfold missing; lia).
  unfold outer_blocks_available, prefix_manager. destruct (enable_caching cfg) eqn:Hc.
  - destruct (Hinv Hc) as (pm & Hpm & Hstep). rewrite Hp, Hpm. cbn [of_option mbind res_bind].
    assert (0 <= num_computed_tokens r) as Hnc by (destruct Hmay as [_ [[_ ->]|(? & _)]]; lia).
    destruct (can_allocate _ _ pm) as [ok pm'] eqn:Hca. cbn [mbind res_bind].
    destruct (can_allocate_spec pm _ _ _ _ (is_inv _ _ Hstep) Hm Hnc Hca)
      as (_ & Hcfg & _ & _ & _ & Hyes & Hno).
    pose proof (in_step_can_allocate _ _ _ _ _ _ Hstep Hm Hnc Hca) as Hstep'.
    destruct ok; cbn [negb].
    2:{ destruct (Hno eq_refl) as [-> Hshort]. eexists None, _. split; [reflexivity|].
        split; [intros _; exists pm; cbn; by rewrite He|]. split; [right; eauto|]. intros r'. cbn. by rewrite He. }
    cbn [coordinator set_prefix]. rewrite He.
    destruct (allocate_new_blocks _ need _) as [ids e'] eqn:Ha. cbn [negb set_coordinator set_prefix prefix_cache_manager of_option mbind res_bind].
    destruct (coordinator_allocates r need _ ids e' Ha Hge) as (Hl & Hnd & Hfresh & Hheld).
    assert (~ short_of_blocks r s need) as Hnot.
    { intros [Hs|(_ & pm1 & Hpm1 & Hs)]; [lia|]. rewrite Hpm in Hpm1. injection Hpm1 as <-.
      pose proof (can_allocate_enough _ _ _ _ (is_inv _ _ Hstep) Hm Hca). lia. }
    assert (exists pm2, allocate_blocks (request_id r) (num_computed_tokens r) ids pm' = Ok pm2 /\
      in_step (coordinator_cache_blocks r n e') pm2) as (pm2 & -> & Hstep2).
    { assert (forall r', held (coordinator_cache_blocks r n e') r' = if decide (r' = request_id r)
        then held (coordinator s) (request_id r) ++ ids else held (coordinator s) r') as Hheld'
        by (intros r'; by rewrite law_cache).
      assert (need = Z.min (num_tokens r) (kv_max_model_len cfg)) as ->.
      { destruct Hneed as (pad & -> & _ & Hpad). destruct (needs_chunked_prefill_pad cfg); [|lia].
        destruct Hpad. congruence. }
      destruct (decide (ids = [])) as [->|Hne].
      - exists pm'. split; [done|]. apply (in_step_env (coordinator s)); [|done]. intros r'. rewrite Hheld'.
        case_decide as Hr'; [|done]. by rewrite Hr', app_nil_r.
      - destruct (outer_follows (coordinator s) pm' r ids Hc Hstep' Hmay Hne Hnd Hfresh Hl) as (pm2 & Hall & Hs2).
        { rewrite Hcfg, Hl. by apply Hyes. }
        exists pm2. split; [exact Hall|]. by apply Hs2. }
    cbn [mbind res_bind]. eexists (Some ids), _. split; [reflexivity|]. cbn [coordinator set_coordinator set_prefix].
    split; [intros _; by exists pm2|]. do 4 (split; [done|]). intros r'. by rewrite law_cache, Hheld.
  - cbn [mbind res_bind negb]. rewrite He. destruct (allocate_new_blocks _ need _) as [ids e'] eqn:Ha.
    destruct (coordinator_allocates r need _ ids e' Ha Hge) as (Hl & Hnd & Hfresh & Hheld).
    eexists (Some ids), _. split; [reflexivity|]. split; [by intros Hc'; rewrite Hc in Hc'|].
    split; [|done]. intros [Hs|[Hs _]]; [lia|by rewrite Hc in Hs].
Qed.

(** C37: an allocation never raises and answers "no slots" exactly when blocks are short.
    Otherwise the request is extended by fresh blocks up to what its tokens need, and no
    other request changes; when it is refused nobody's blocks change.  Under prefix caching
    the outer blocks of every request keep holding its inner blocks, in order, in as many
    outer blocks as these need. *)
Theorem allocate_slots_in_step r n s need :
  kv_inv s -> may_allocate (coordinator s) r -> slots_needed r s need -> n <> 0 ->
  exists o s', allocate_slots cfg mm_features r n s = Ok (o, s') /\ kv_inv s' /\
    match o with
    | None => short_of_blocks r s need /\ forall r', held (coordinator s') r' = held (coordinator s) r'
    | Some ids => ~ short_of_blocks r s need /\ len ids = missing r s need /\ NoDup ids /\
        (forall r' i, i ∈ ids -> i ∉ held (coordinator s) r') /\
        forall r', held (coordinator s') r' =
          if decide (r' = request_id r) then held (coordinator s) (request_id r) ++ ids
          else held (coordinator s) r'
    end.
Proof. apply allocate_slots_ok. Qed.

(** ** The other operations *)

Lemma in_step_free e e' pm id preemption : in_step e pm ->
  (forall r, held e' r = if decide (r = id) then [] else held e r) ->
  exists pm', free_request id preemption pm = Ok pm' /\ in_step e' pm'.
Proof.
  intros [I Hb Hi Hk Hc] He'. destruct (free_request_ok id preemption pm I) as (pm' & E' & I' & Ec & Er & _ & Hm).
  exists pm'. split; [done|].
  assert (forall r, requests pm' !! r = if decide (r = id) then None else requests pm !! r) as Hr.
  { intros r. rewrite Er. case_decide as Hd; [subst; apply lookup_delete_eq|by rewrite lookup_delete_ne]. }
  split; [done|by rewrite Ec|..]; intros r; rewrite He'; destruct (decide (r = id)) as [->|Hne].
  - unfold request_inner. by rewrite Hr, decide_True.
  - rewrite <- Hi. apply request_inner_ext; [by rewrite Hr, decide_False|]. intros o Ho. rewrite Hm.
    rewrite decide_False; [done|]. intros Hin. destruct (owned_mapping pm r o I Ho) as (os & m & Hos & Hino & _).
    destruct (requests pm !! id) as [os'|] eqn:Hid; [|by apply not_elem_of_nil in Hin].
    by apply (foreign_block pm id r os' os o I Hid Hos Hne Hino).
  - rewrite Hr, decide_True by done. split; [by intros []|done].
  - by rewrite Hr, decide_False.
  - rewrite Hr, decide_True, Ec by done. symmetry. pose proof (block_ratio_pos _ _ _ I).
    apply cdiv_unique; [done|]. change (default [] None) with (@nil Z). change (len (@nil Z)) with 0. lia.
  - by rewrite Hr, decide_False, Ec.
Qed.

Lemma free_ok id preemption s : kv_inv s -> exists s', free cfg id preemption s = Ok s' /\ kv_inv s' /\
  block_pool s' = block_pool s /\
  forall r, held (coordinator s') r = if decide (r = id) then [] else held (coordinator s) r.
Proof.
  intros Hinv. unfold free, prefix_manager. destruct (enable_caching cfg) eqn:Hc.
  - destruct (Hinv Hc) as (pm & Hpm & Hstep). rewrite Hpm. cbn [of_option mbind res_bind].
    destruct (in_step_free _ (coordinator_free id (coordinator s)) pm id preemption Hstep) as (pm' & -> & Hstep').
    { intros r. apply law_free. }
    cbn [mbind res_bind]. eexists. split; [reflexivity|]. split; [intros _; by exists pm'|]. split; [done|].
    intros r. apply law_free.
  - cbn [mbind res_bind]. eexists. split; [reflexivity|]. split; [intros H; congruence|]. split; [done|].
    intros r. apply law_free.
Qed.

Lemma hits_bound c l mm (hits : list (Z * Z)) : forall k, 0 <= ib_size c ->
  (forall j o m, hits !! j = Some (o, m) -> m = match_len o (chunk c l (k + j)) mm) ->
  sumZ ((fun p => p.2 * ib_size c) <$> hits) <= len (concat (chunk c l <$> seq k (length hits))) * ib_size c.
Proof.
  induction hits as [|[o m] hits IH]; intros k Hib Hm; [done|]. cbn [fmap list_fmap length seq concat snd].
  rewrite sumZ_cons, len_app. pose proof (Hm 0%nat o m eq_refl) as H0. rewrite Nat.add_0_r in H0.
  pose proof (match_len_le o (chunk c l k) mm).
  specialize (IH (S k) Hib ltac:(intros j o' m' Hj; rewrite Nat.add_succ_comm; by apply (Hm (S j) o'))). nia.
Qed.

(** The prefix hits of a request that has just been given its slots. *)
Lemma get_prefix_cached_blocks_ok r l s : kv_inv s -> enable_caching cfg = true ->
  held (coordinator s) (request_id r) <> [] -> (forall i, i ∈ l -> i ∉ held (coordinator s) (request_id r)) ->
  exists blocks lengths p s', get_prefix_cached_blocks r l s = Ok (blocks, lengths, s') /\ kv_inv s' /\
    sumZ lengths <= len l * bs /\
    exists pm, prefix_cache_manager s = Some pm /\ s' = set_prefix (set_policy p pm) s.
Proof.
  intros Hinv Hc Hheld Hfresh. destruct (Hinv Hc) as (pm & Hpm & Hstep). pose proof Hstep as [I Hb Hi Hk Hcount].
  destruct (proj2 (Hk (request_id r)) Hheld) as [os Hos].
  destruct (get_matched_ok (request_id r) l pm os I Hos) as (hits & p' & E' & I' & Hm).
  { intros i Hin. rewrite Hi. by apply Hfresh. }
  unfold get_prefix_cached_blocks, prefix_manager. rewrite Hpm. cbn [of_option mbind res_bind]. rewrite E'.
  cbn [mbind res_bind]. eexists _, _, p', _. split; [reflexivity|]. split.
  { intros _. eexists. split; [reflexivity|]. split; [exact I'|done|exact Hi|exact Hk|exact Hcount]. }
  split; [|by exists pm]. pose proof (block_ratio_pos _ _ _ I) as Hratio.
  etrans; [apply (hits_bound _ l (mapping_manager pm) hits 0)|].
  - rewrite Hb. lia.
  - intros j o m Hj. apply (Hm j o m Hj).
  - rewrite concat_chunks, Hb by done. pose proof (len_nonneg l). rewrite len_py_slice by lia. nia.
Qed.

Lemma get_block_table_ok id s : kv_inv s -> enable_caching cfg = true -> held (coordinator s) id <> [] ->
  exists pm os, prefix_cache_manager s = Some pm /\ requests pm !! id = Some os /\
    get_block_table id s = get_tensor_for_blocks (pool_size pm) os.
Proof.
  intros Hinv Hc Hheld. destruct (Hinv Hc) as (pm & Hpm & [I Hb Hi Hk Hcount]).
  destruct (proj2 (Hk id) Hheld) as [os Hos]. exists pm, os. split; [done|]. split; [done|].
  unfold get_block_table, prefix_manager, get_blocks, get_block_ids, get_request_blocks, is_request_registered.
  rewrite Hpm. cbn [of_option mbind res_bind]. unfold requests in Hos. by rewrite Hos, bool_decide_true by (by eexists).
Qed.
End kv.

(** ** A concrete coordinator *)

Module BlockList.
(** The blocks of every request; a new block is the number behind the largest one held, and
    a hundred are free at all times. *)
Abbreviation State := (odict string (list Z)).

Definition held (e : State) (r : string) : list Z := default [] (od_get r e).
Definition base (e : State) : Z := foldr Z.max 0 (concat (od_values e)) + 1.
Definition needed (r : string) (n : Z) (e : State) : Z := Z.max 0 (cdiv n 4 - len (held e r)).

#[export] Instance coordinator : Coordinator State := {
  get_num_blocks_to_allocate := needed;
  get_num_free_blocks := fun _ => 100;
  allocate_new_computed_blocks := fun _ e => e;
  allocate_new_blocks := fun r n e =>
    let ids := seqZ (base e) (needed r n e) in (ids, od_set r (held e r ++ ids) e);
  coordinator_cache_blocks := fun _ _ e => e;
  coordinator_free := fun r e => od_set r [] e;
  coordinator_get_blocks := fun r e => held e r;
  get_computed_blocks := fun _ e => ([], 0, 0, e)
}.

Lemma base_above e r i : i ∈ held e r -> i < base e.
Proof.
  unfold held, base. destruct (od_get r e) as [l|] eqn:Hl; [|by intros ?%not_elem_of_nil]. cbn. intros Hi.
  assert (i ∈ concat (od_values e)) as Hin.
  { apply list_elem_of_In, in_concat. exists l. split; [|by apply list_elem_of_In].
    apply list_elem_of_In. clear Hi. induction e as [|[k v] e IH]; [done|]. cbn in Hl |- *.
    destruct (decide (r = k)); [injection Hl as ->; by left|right; by apply IH]. }
  clear Hl Hi. revert Hin. generalize (concat (od_values e)). intros ls.
  induction ls as [|x ls IH]; [by intros ?%not_elem_of_nil|]. cbn.
  intros [->|Hin]%elem_of_cons; [lia|]. specialize (IH Hin). lia.
Qed.

#[export] Instance coordinator_laws : CoordinatorLaws State 4 held.
Proof.
  split; cbn; try done.
  - intros r n e ids e' [= <- <-] Hfree. split; [unfold needed, len; rewrite length_seqZ; lia|].
    split; [apply NoDup_seqZ|]. split.
    + intros r' i Hi%elem_of_seqZ Hin%base_above. lia.
    + intros r'. unfold held. rewrite od_get_set. repeat case_decide; subst; done.
  - intros r e r'. unfold held. rewrite od_get_set. repeat case_decide; subst; done.
  - intros r e l n b e' [= <- <- <- <-] Hr. split; [by intros i Hi%not_elem_of_nil|]. split; [done|done].
Qed.

Definition config : KvConfig := mkKvConfig 64 true 4 (Some 8) false (Some 8) None.
Definition start : KvManager State FIFOEvictionPolicy :=
  mkKv [] (mkPool (py_range 25) (seqZ 1 24) 0 None) (Some ex0) ∅.

Lemma start_inv : kv_inv (tracks := fifo_tracks) (bs := 4) (held := held) config start.
Proof.
  intros _. exists ex0. split; [done|]. split; [apply ex0_inv|done| | |]; intros r.
  - done.
  - cbn. rewrite lookup_empty. split; [by intros []|done].
  - cbn. by rewrite lookup_empty.
Qed.

Definition request : Request :=
  mkRequest "a" WAITING 10 [1; 2; 3; 4; 5; 6; 7; 8; 9; 10] 0 [] 0 16 0 0 0 0 false None false 0 None.

(** Chunks of eight in blocks of sixteen; an image of nine tokens behind seven others. *)
Definition pad_config : KvConfig := mkKvConfig 64 false 16 None true (Some 8) (Some [12; 8]).
Definition image : list MmFeature :=
  [mkFeature 6 (Some [false; true; true; true; true; true; true; true; true; true])].
End BlockList.
Import BlockList.

Lemma padding_covers_chunks_witness : chunked_prefill_pad pad_config image 20 = Ok 16 /\
  match chunked_prefill_pad pad_config image 20 with
  | Raise e => e = ValueError \/ e = AssertionError
  | Ok pad => exists l, concat ((fun c => seqZ (ck_step c) (ck_run c)) <$> l) = seqZ 0 20 /\
      Forall (fun c => ck_slot c + ck_size c <= cdiv (20 + pad) 16 * 16) l
  end.
Proof.
  split; [reflexivity|].
  assert (pad_config_ok pad_config 8 16) as Hok.
  { split; [split; [done|lia]|done|]. exists [12; 8]. split; [done|]. split; [done|]. repeat constructor; lia. }
  pose proof (padding_covers_chunks pad_config image 20 8 16 Hok ltac:(lia)) as H.
  destruct (chunked_prefill_pad pad_config image 20) as [pad|e]; [|exact H].
  destruct H as (segs & l & _ & _ & H1 & _ & H2). exists l. split; [exact H1|].
  eapply Forall_impl; [exact H2|]. intros c Hc. apply Hc.
Defined.

Lemma allocate_slots_in_step_witness : exists o s',
  allocate_slots BlockList.config (fun _ => []) request 10 start = Ok (o, s') /\
  kv_inv (tracks := fifo_tracks) (bs := 4) (held := held) BlockList.config s' /\ o = Some [1; 2; 3].
Proof.
  destruct (allocate_slots_in_step (tracks := fifo_tracks) (bs := 4) (held := held) BlockList.config (fun _ => [])
    ltac:(lia) request 10 start 10 start_inv) as (o & s' & H1 & H2 & _).
  - split; [done|left; done].
  - exists 0. split; [done|]. split; [lia|done].
  - done.
  - exists o, s'. split; [exact H1|]. split; [exact H2|].
    assert (fst <$> (match allocate_slots BlockList.config (fun _ => []) request 10 start with
                     | Ok x => Some x | Raise _ => None end) = Some (Some [1; 2; 3])) as Hrun by (vm_compute; reflexivity).
    rewrite H1 in Hrun. by injection Hrun.
Defined.
