(* ===== verification/OptimumKvUse.v ===== *)
(** * The KV cache manager of the models compiled ahead of time, as its scheduler uses it

    What [OptimumKvSpec] proves of one manager, in the form the scheduler's step needs: an
    invariant with the sizes of the tensors ([kv_good]), what an operation leaves alone
    ([frame]), and for each operation the scheduler calls that it returns and keeps both. *)

From S2P Require Import Prelude VllmTypes BlockMapping Eviction PrefixCache PrefixCacheSpec OptimumKv OptimumKvSpec.

Section kv.
Context {E P : Type} `{C : Coordinator E} `{Policy : EvictionPolicy P}.
Context {tracks : P -> gset Z -> Prop} `{Laws : !EvictionPolicyLaws P tracks}.
Context {bs : Z} {held : E -> string -> list Z} `{CL : !CoordinatorLaws E bs held}.
Variable cfg : KvConfig.
Variable mm_features : Request -> list MmFeature.
Hypothesis bs_pos : 0 < bs.
Hypothesis mml_pos : 0 < kv_max_model_len cfg.
Variable max_seqs : Z.
Implicit Types (k : KvManager E P) (pm : RBLNPrefixKVCacheManager P).

(** The prefix cache manager is built for [max_seqs] requests of the maximal length: their
    block tables fit their tensors, a free batch slot leaves them an outer block, and there
    are blocks for one of them. *)
Record tables_fit pm : Prop := {
  tf_numbers : num_ob (config pm) <= 2 ^ 15;
  tf_tensor : cdiv (cdiv (kv_max_model_len cfg) bs) (block_ratio (config pm)) <= pool_size pm;
  tf_seqs : max_num_seqs (config pm) = max_seqs;
  tf_some : 0 < cdiv (max_model_len (config pm)) (ob_size (config pm));
  tf_request : cdiv (cdiv (kv_max_model_len cfg) bs) (block_ratio (config pm)) <=
    cdiv (max_model_len (config pm)) (ob_size (config pm));
  tf_one : cdiv (cdiv (kv_max_model_len cfg) bs) (block_ratio (config pm)) <= num_ob (config pm)
}.

(** Models that need padding have no prefix cache, and their padding can be computed. *)
Definition pads_computable : Prop := needs_chunked_prefill_pad cfg = true -> enable_caching cfg = false /\
  forall r, exists pad, 0 <= pad /\
    chunked_prefill_pad cfg (mm_features r) (Z.min (num_prompt_tokens r) (kv_max_model_len cfg)) = Ok pad.

Record kv_good k : Prop := {
  kg_inv : kv_inv (tracks := tracks) (bs := bs) (held := held) cfg k;
  kg_pads : forall id pad, chunked_prefill_pad_cache k !! id = Some pad -> 0 <= pad;
  kg_tables : forall pm, prefix_cache_manager k = Some pm -> tables_fit pm
}.

(** What an operation leaves of the prefix cache manager and of the pool. *)
Definition frame k k' : Prop :=
  block_pool k' = block_pool k /\
  forall pm', prefix_cache_manager k' = Some pm' -> exists pm, prefix_cache_manager k = Some pm /\
    config pm' = config pm /\ pool_size pm' = pool_size pm.

Lemma frame_refl k : frame k k.
Proof. split; [done|]. intros pm Hpm. by exists pm. Qed.

Lemma frame_tables k k' : frame k k' -> (forall pm, prefix_cache_manager k = Some pm -> tables_fit pm) ->
  forall pm, prefix_cache_manager k' = Some pm -> tables_fit pm.
Proof.
  intros [_ Hf] Ht pm' Hpm'. destruct (Hf pm' Hpm') as (pm & Hpm & Hc & Hp).
  destruct (Ht pm Hpm). split; by rewrite ?Hc, ?Hp.
Qed.

(** The prefix cache manager keeps its configuration and the size of its tensors. *)
Definition same_shape pm pm' : Prop := config pm' = config pm /\ pool_size pm' = pool_size pm.

Lemma evict_block_shape pm b : same_shape pm (evict_block pm b).
Proof.
  unfold evict_block. destruct (remove_mapping b (mapping_manager pm)) as [[m|] mm]; [|done].
  by destruct (get_allocated_block b _).
Qed.

Lemma foldM_shape {A} (f : RBLNPrefixKVCacheManager P -> A -> res (RBLNPrefixKVCacheManager P)) l : forall pm pm',
  (forall pm a pm', f pm a = Ok pm' -> same_shape pm pm') -> foldM f pm l = Ok pm' -> same_shape pm pm'.
Proof.
  induction l as [|a l IH]; intros pm pm' Hf; cbn [foldM]; [by intros [= <-]|].
  destruct (f pm a) as [pm1|] eqn:Hfa; [|done]. cbn [mbind res_bind]. intros Hl.
  destruct (Hf _ _ _ Hfa) as [H1 H2], (IH _ _ Hf Hl) as [H3 H4]. split; congruence.
Qed.

Lemma can_allocate_shape pm n t b pm' : can_allocate n t pm = (b, pm') -> same_shape pm pm'.
Proof.
  unfold can_allocate. destruct (_ <=? _); [by intros [= <- <-]|]. destruct (_ <=? _); [|by intros [= <- <-]].
  intros [= <- <-]. generalize (select_blocks_for_eviction (mapping_manager pm)
    (compute_num_blocks_to_allocate (config pm) n t - get_free_count (allocator pm)) (eviction_policy pm)).
  intros l. revert pm. induction l as [|o l IH]; intros pm; cbn [foldl]; [done|].
  destruct (evict_block_shape pm o) as [H1 H2], (IH (evict_block pm o)) as [H3 H4]. split; congruence.
Qed.

Lemma new_blocks_shape pm r n ids pm' :
  PrefixCache.allocate_new_blocks r n ids pm = Ok pm' -> same_shape pm pm'.
Proof.
  unfold PrefixCache.allocate_new_blocks. destruct (0 <? n); [|done]. cbn [require mbind res_bind].
  destruct (allocate n (allocator pm)) as [[blocks a]|]; [|done]. cbn [mbind res_bind].
  intros Hf. apply (foldM_shape (A := nat * RBLNBlock)) in Hf; [exact Hf|].
  intros pm1 [i b] pm2. unfold map_new_block. destruct (register_block _ _); [|done]. cbn. by intros [= <-].
Qed.

Lemma allocate_blocks_shape pm r t ids pm' : allocate_blocks r t ids pm = Ok pm' -> same_shape pm pm'.
Proof.
  unfold allocate_blocks. destruct (len ids =? 0); [by intros [= <-]|]. destruct (check_free_blocks _ _); [|done].
  cbn [mbind res_bind]. unfold handle_decode_allocation, handle_prefill_allocation.
  destruct (is_request_registered _ _); [|apply new_blocks_shape]. destruct (0 <? _); [apply new_blocks_shape|].
  destruct (PrefixCache.get_block_ids r pm) as [os|]; [|done]. cbn [mbind res_bind]. destruct (py_nth os (-1)) as [o|]; [|done].
  cbn [of_option mbind res_bind]. unfold append_to_existing_block. destruct (len ids =? 1); [|done].
  cbn [require mbind res_bind]. destruct (py_nth ids 0); [|done]. cbn [of_option mbind res_bind].
  destruct (get_mapping o _); [|done]. cbn. by intros [= <-].
Qed.

Lemma free_request_shape pm r b pm' : PrefixCache.free_request r b pm = Ok pm' -> same_shape pm pm'.
Proof.
  unfold PrefixCache.free_request. destruct (remove_request r (mapping_manager pm)) as [os mm].
  intros Hf. apply foldM_shape in Hf; [exact Hf|]. intros pm1 o pm2. unfold free_outer_block. destruct b.
  - intros [= <-]. apply evict_block_shape.
  - destruct (get_mapping o _); [|done]. cbn. by intros [= <-].
Qed.

Lemma get_dummy_block_shape pm d pm' : get_dummy_block pm = Ok (d, pm') -> same_shape pm pm'.
Proof.
  unfold get_dummy_block. destruct (negb _); [by intros [= <- <-]|].
  destruct (can_allocate 1 0 pm) as [b pm1] eqn:Hc. apply can_allocate_shape in Hc. destruct (negb b); [done|].
  destruct (check_free_blocks _ _); [|done]. cbn [mbind res_bind]. destruct (peek_dummy_block _); [|done]. cbn.
  by intros [= <- <-].
Qed.

Lemma shape_frame k pm pm' k' : prefix_cache_manager k = Some pm -> prefix_cache_manager k' = Some pm' ->
  block_pool k' = block_pool k -> same_shape pm pm' -> frame k k'.
Proof.
  intros Hk Hk' Hb [H1 H2]. split; [done|]. intros pm1 Hpm1. rewrite Hk' in Hpm1. injection Hpm1 as <-. by exists pm.
Qed.

Lemma frame_trans k1 k2 k3 : frame k1 k2 -> frame k2 k3 -> frame k1 k3.
Proof.
  intros [Hb1 H1] [Hb2 H2]. split; [congruence|]. intros pm3 H3. destruct (H2 pm3 H3) as (pm2 & Hpm2 & Hc2 & Hp2).
  destruct (H1 pm2 Hpm2) as (pm1 & Hpm1 & Hc1 & Hp1). exists pm1. split; [done|]. split; congruence.
Qed.

Lemma tokens_need_slot_frame r k n k' : tokens_need_slot cfg mm_features r k = Ok (n, k') ->
  frame k k' /\ coordinator k' = coordinator k /\
  forall id pad, chunked_prefill_pad_cache k' !! id = Some pad ->
    chunked_prefill_pad_cache k !! id = Some pad \/
    (needs_chunked_prefill_pad cfg = true /\
     chunked_prefill_pad cfg (mm_features r) (Z.min (num_prompt_tokens r) (kv_max_model_len cfg)) = Ok pad).
Proof.
  unfold tokens_need_slot. destruct (needs_chunked_prefill_pad cfg);
    [|intros [= <- <-]; split; [apply frame_refl|]; split; [done|by left]].
  destruct (chunked_prefill_pad_cache k !! request_id r); [intros [= <- <-]; split; [apply frame_refl|]; split; [done|by left]|].
  destruct (chunked_prefill_pad _ _ _) as [pad|]; [|done]. cbn. intros [= <- <-]. split; [split; [done|]|].
  { intros pm Hpm. by exists pm. }
  split; [done|]. intros id pad'. cbn. destruct (decide (id = request_id r)) as [->|Hne].
  - rewrite lookup_insert_eq. intros [= <-]. by right.
  - rewrite lookup_insert_ne by done. by left.
Qed.

Lemma outer_blocks_frame n t k b k' : outer_blocks_available cfg n t k = Ok (b, k') ->
  frame k k' /\ coordinator k' = coordinator k /\ chunked_prefill_pad_cache k' = chunked_prefill_pad_cache k.
Proof.
  unfold outer_blocks_available, prefix_manager. destruct (enable_caching cfg);
    [|intros [= <- <-]; split; [apply frame_refl|done]].
  destruct (prefix_cache_manager k) as [pm|] eqn:Hpm; [|done]. cbn [of_option mbind res_bind].
  destruct (can_allocate n t pm) as [ok pm'] eqn:Hc. cbn. intros [= <- <-]. split; [|done].
  eapply shape_frame; [exact Hpm|reflexivity|done|]. by eapply can_allocate_shape.
Qed.

Lemma allocate_slots_frame r n k o k' : allocate_slots cfg mm_features r n k = Ok (o, k') ->
  frame k k' /\ forall id pad, chunked_prefill_pad_cache k' !! id = Some pad ->
    chunked_prefill_pad_cache k !! id = Some pad \/
    (needs_chunked_prefill_pad cfg = true /\
     chunked_prefill_pad cfg (mm_features r) (Z.min (num_prompt_tokens r) (kv_max_model_len cfg)) = Ok pad).
Proof.
  unfold allocate_slots. destruct (n =? 0); [done|].
  destruct (tokens_need_slot cfg mm_features r k) as [[need k1]|] eqn:Hn; [|done]. cbn [mbind res_bind].
  destruct (tokens_need_slot_frame _ _ _ _ Hn) as (F1 & _ & Hpads).
  destruct (_ <? _); [by intros [= <- <-]|].
  destruct (outer_blocks_available _ _ _ _) as [[ok k2]|] eqn:Ho; [|done]. cbn [mbind res_bind].
  destruct (outer_blocks_frame _ _ _ _ _ Ho) as (F2 & _ & Hp2).
  assert (frame k k2) as F by (by eapply frame_trans). rewrite <- Hp2 in Hpads.
  destruct (negb ok); [by intros [= <- <-]|].
  destruct (allocate_new_blocks _ _ _) as [ids e]. destruct (negb (enable_caching cfg)); [by intros [= <- <-]|].
  unfold prefix_manager. cbn [prefix_cache_manager set_coordinator].
  destruct (prefix_cache_manager k2) as [pm|] eqn:Hpm; [|done]. cbn [of_option mbind res_bind].
  destruct (allocate_blocks _ _ _ pm) as [pm'|] eqn:Ha; [|done]. cbn [mbind res_bind]. intros [= <- <-].
  split; [|done]. eapply frame_trans; [exact F|]. eapply shape_frame; [exact Hpm|reflexivity|done|].
  by eapply allocate_blocks_shape.
Qed.

Lemma free_frame id b k k' : free cfg id b k = Ok k' ->
  frame k k' /\ chunked_prefill_pad_cache k' = delete id (chunked_prefill_pad_cache k).
Proof.
  unfold free, prefix_manager. destruct (enable_caching cfg).
  - destruct (prefix_cache_manager k) as [pm|] eqn:Hpm; [|done]. cbn [of_option mbind res_bind].
    destruct (PrefixCache.free_request id b pm) as [pm'|] eqn:Hf; [|done]. cbn [mbind res_bind]. intros [= <-].
    split; [|done]. eapply shape_frame; [exact Hpm|reflexivity|done|]. by eapply free_request_shape.
  - cbn [mbind res_bind]. intros [= <-]. split; [|done]. split; [done|]. intros pm Hpm. by exists pm.
Qed.

(** *** What the scheduler uses *)

Lemma slots_needed_ok r k : pads_computable -> kv_good k -> 0 < num_tokens r ->
  exists need, slots_needed cfg mm_features r k need /\
    (enable_caching cfg = true -> need = Z.min (num_tokens r) (kv_max_model_len cfg)).
Proof.
  intros Hp Hg Ht. unfold slots_needed. destruct (needs_chunked_prefill_pad cfg) eqn:Hn.
  - destruct (Hp Hn) as [Hc Hpad]. rewrite Hc.
    destruct (chunked_prefill_pad_cache k !! request_id r) as [pad|] eqn:Hk.
    + eexists. split; [exists pad; split; [reflexivity|]; split; [by eapply kg_pads|]; auto|done].
    + destruct (Hpad r) as (pad & H0 & H1).
      eexists. split; [exists pad; split; [reflexivity|]; split; [done|]; auto|done].
  - eexists. split; [exists 0; split; [reflexivity|]; split; [lia|done]|]. lia.
Qed.

Lemma kv_allocate_ok r n k : pads_computable -> kv_good k -> may_allocate (bs := bs) (held := held) cfg (coordinator k) r ->
  n <> 0 -> exists o k', allocate_slots cfg mm_features r n k = Ok (o, k') /\ kv_good k' /\ frame k k' /\
    match o with
    | None => (exists need, slots_needed cfg mm_features r k need /\
          short_of_blocks (bs := bs) (held := held) cfg r k need) /\
        forall r', held (coordinator k') r' = held (coordinator k) r'
    | Some ids => held (coordinator k') (request_id r) <> [] /\
        (enable_caching cfg = true -> len (held (coordinator k') (request_id r)) =
           cdiv (Z.min (num_tokens r) (kv_max_model_len cfg)) bs) /\
        forall r', r' <> request_id r -> held (coordinator k') r' = held (coordinator k) r'
    end.
Proof.
  intros Hp Hg Hmay Hn. pose proof Hmay as [Ht Hcases]. destruct (slots_needed_ok r k Hp Hg Ht) as (need & Hneed & Hmin).
  destruct (allocate_slots_ok cfg mm_features bs_pos r n k need (kg_inv _ Hg) Hmay Hneed Hn) as (o & k' & Ha & Hinv & Ho).
  destruct (allocate_slots_frame _ _ _ _ _ Ha) as [F Hpads].
  exists o, k'. split; [done|]. split.
  { split; [done| |by eapply frame_tables; [|apply (kg_tables _ Hg)]].
    intros id pad Hpad. destruct (Hpads id pad Hpad) as [Hk|[Hnp Hc]]; [by eapply kg_pads|].
    destruct (Hp Hnp) as [_ Hok]. destruct (Hok r) as (pad' & H0 & H1). congruence. }
  split; [done|]. destruct o as [ids|]; [|destruct Ho as [Hs Ho]; split; [by exists need|done]]. destruct Ho as (_ & Hlen & _ & _ & Hheld).
  assert (len (held (coordinator k') (request_id r)) =
    Z.max (len (held (coordinator k) (request_id r))) (cdiv need bs)) as Hl.
  { rewrite Hheld, decide_True, len_app, Hlen by done. unfold missing. lia. }
  destruct Hneed as (pad & Hneed & Hpad & _).
  pose proof (cdiv_pos bs_pos (Z.min (num_tokens r) (kv_max_model_len cfg) + pad) ltac:(lia)).
  split; [|split].
  - intros H0. rewrite H0 in Hl. change (len (@nil Z)) with 0 in Hl. rewrite Hneed in Hl. lia.
  - intros Hc. rewrite Hl, (Hmin Hc), Z.max_r; [done|]. destruct Hcases as [[-> _]|(Hnc & Hnt & _ & Hheld')].
    + change (len (@nil Z)) with 0. pose proof (cdiv_pos bs_pos (Z.min (num_tokens r) (kv_max_model_len cfg)) ltac:(lia)).
      lia.
    + rewrite (Hheld' Hc). apply (cdiv_mono bs_pos). lia.
  - intros r' Hr'. by rewrite Hheld, decide_False.
Qed.

Lemma kv_free_ok id b k : kv_good k -> exists k', free cfg id b k = Ok k' /\ kv_good k' /\ frame k k' /\
  forall r, held (coordinator k') r = if decide (r = id) then [] else held (coordinator k) r.
Proof.
  intros Hg. destruct (free_ok cfg bs_pos id b k (kg_inv _ Hg)) as (k' & Hf & Hinv & _ & Hheld).
  destruct (free_frame _ _ _ _ Hf) as [F Hpads]. exists k'. split; [done|]. split; [|done].
  split; [done| |by eapply frame_tables; [|apply (kg_tables _ Hg)]].
  intros id' pad. rewrite Hpads. intros Hd%lookup_delete_Some. by eapply kg_pads, Hd.
Qed.

(** The block table of a request that holds blocks. *)
Lemma kv_table_ok id k : kv_good k -> enable_caching cfg = true -> held (coordinator k) id <> [] ->
  len (held (coordinator k) id) <= cdiv (kv_max_model_len cfg) bs -> exists t, get_block_table id k = Ok t.
Proof.
  intros Hg Hc Hne Hlen. destruct (get_block_table_ok cfg id k (kg_inv _ Hg) Hc Hne) as (pm & os & Hpm & Hos & ->).
  destruct (kg_inv _ Hg Hc) as (pm' & Hpm' & [I Hb Hi Hk Hcount]). rewrite Hpm in Hpm'. injection Hpm' as <-.
  destruct (kg_tables _ Hg pm Hpm) as [Hnum Hpool _ _ _ _]. unfold get_tensor_for_blocks.
  rewrite bool_decide_true.
  - pose proof (block_ratio_pos _ _ _ I) as Hratio. specialize (Hcount id). rewrite Hos in Hcount.
    change (default [] (Some os)) with os in Hcount.
    assert (len os <= pool_size pm) as Hle.
    { rewrite Hcount. etrans; [|exact Hpool]. pose proof (cdiv_mono Hratio _ _ Hlen). done. }
    rewrite (proj2 (Z.leb_le _ _) Hle). cbn [orb]. by eexists.
  - apply Forall_forall. intros o Ho. destruct (inv_owned _ _ _ I id os Hos) as (_ & _ & H3).
    destruct (H3 o Ho) as (m & Hm & _).
    assert (is_Some (allocated_blocks (allocator pm) !! o)) as Hal by (apply (inv_mapped _ _ _ I); by eexists).
    pose proof (proj1 (inv_range _ _ _ I o) ltac:(by right)). lia.
Qed.

(** An outer block is free, inactive or a request's. *)
Lemma all_blocks_accounted (ids : list string) e pm : in_step (tracks := tracks) (bs := bs) (held := held) e pm ->
  (forall id, held e id <> [] -> id ∈ ids) ->
  num_ob (config pm) <= len (concat ((fun id => default [] (requests pm !! id)) <$> ids)) +
    get_free_count (allocator pm) + len (inactive_block_ids (mapping_manager pm)).
Proof.
  intros [I Hb Hi Hk Hcount] Hids. set (owned := concat _).
  assert (forall o, 0 <= o < num_ob (config pm) -> o ∈ owned ++ free_ids pm ++ inactive_block_ids (mapping_manager pm)) as Hall.
  { intros o Ho. rewrite !elem_of_app. destruct (proj2 (inv_range _ _ _ I o) Ho) as [Hf|Hal]; [by right; left|].
    destruct (proj2 (inv_mapped _ _ _ I o)) as [m Hm]; [split; [done|apply not_elem_of_nil]|].
    destruct (is_active m) eqn:Hact.
    2:{ right; right. apply (elem_of_inactive _ _ (inv_mapping _ _ _ I)). by exists m. }
    left. destruct (inv_active _ _ _ I o m Hm Hact) as [Hor|(r & os & _ & Hos & Hin)]; [by apply not_elem_of_nil in Hor|].
    unfold owned. apply list_elem_of_In, in_concat. exists os. split; [|by apply list_elem_of_In].
    apply list_elem_of_In, list_elem_of_fmap. exists r. split; [by rewrite Hos|]. apply Hids, Hk. by eexists. }
  assert (length (seqZ 0 (num_ob (config pm))) <= length (owned ++ free_ids pm ++ inactive_block_ids (mapping_manager pm)))%nat as Hl.
  { apply submseteq_length, NoDup_submseteq; [apply NoDup_seqZ|]. intros o Ho%elem_of_seqZ. apply Hall. lia. }
  rewrite length_seqZ, !length_app in Hl. unfold free_ids in Hl. rewrite length_fmap in Hl. unfold get_free_count, len in *. lia.
Qed.

Lemma owned_bound (ids : list string) e pm per : in_step (tracks := tracks) (bs := bs) (held := held) e pm ->
  (forall id, len (held e id) <= cdiv (kv_max_model_len cfg) bs) ->
  cdiv (cdiv (kv_max_model_len cfg) bs) (block_ratio (config pm)) <= per ->
  len (concat ((fun id => default [] (requests pm !! id)) <$> ids)) <= len ids * per.
Proof.
  intros [I Hb Hi Hk Hcount] Hlen Hper. pose proof (block_ratio_pos _ _ _ I) as Hratio.
  induction ids as [|id l IH]; [done|]. cbn. rewrite len_app, len_cons, Hcount.
  pose proof (cdiv_mono Hratio _ _ (Hlen id)). lia.
Qed.

(** A dummy block can be had while the batch is not full. *)
Lemma kv_dummy_ok (ids : list string) k : kv_good k -> enable_caching cfg = true ->
  dummy_block (block_pool k) = None -> len ids < max_seqs -> (forall id, held (coordinator k) id <> [] -> id ∈ ids) ->
  (forall id, len (held (coordinator k) id) <= cdiv (kv_max_model_len cfg) bs) ->
  exists d k', kv_get_dummy_block k = Ok (d, k') /\ kv_good k' /\ frame k k' /\ coordinator k' = coordinator k.
Proof.
  intros Hg Hc Hnone Hn Hids Hlen. destruct (kg_inv _ Hg Hc) as (pm & Hpm & Hstep). pose proof (is_inv _ _ Hstep) as I.
  destruct (kg_tables _ Hg pm Hpm) as [_ _ Hseqs Hper Hcap _].
  unfold kv_get_dummy_block, prefix_manager. rewrite Hnone, Hpm. cbn [of_option mbind res_bind].
  assert (exists d pm', get_dummy_block pm = Ok (d, pm') /\ in_step (tracks := tracks) (bs := bs) (held := held) (coordinator k) pm') as (d & pm' & Hd & Hstep').
  2:{ rewrite Hd. cbn [mbind res_bind]. pose proof (get_dummy_block_shape _ _ _ Hd) as Hs. eexists _, _. split; [reflexivity|].
      assert (frame k (set_prefix pm' k)) as F by (by eapply shape_frame).
      split; [|done]. split; [intros _; by exists pm'|apply (kg_pads _ Hg)|by eapply frame_tables; [|apply (kg_tables _ Hg)]]. }
  unfold get_dummy_block. destruct (is_full_block_available pm) eqn:Hfull; cbn [negb]; [|by eexists _, _].
  unfold is_full_block_available in Hfull. apply Z.leb_le in Hfull. rewrite Hseqs in Hfull.
  destruct (can_allocate 1 0 pm) as [b pm'] eqn:Hca.
  destruct (can_allocate_spec pm 1 0 b pm' I ltac:(lia) ltac:(lia) Hca) as (_ & _ & _ & _ & _ & Hyes & Hno).
  pose proof (in_step_can_allocate (coordinator k) pm 1 0 b pm' Hstep ltac:(lia) ltac:(lia) Hca) as Hstep'.
  assert (compute_num_blocks_to_allocate (config pm) 1 0 = 1) as Hone.
  { unfold compute_num_blocks_to_allocate. cbn. apply cdiv_unique; [apply (block_ratio_pos _ _ _ I)|].
    pose proof (block_ratio_pos _ _ _ I). lia. }
  rewrite Hone in Hyes, Hno. destruct b; cbn [negb].
  - specialize (Hyes eq_refl). unfold check_free_blocks, peek_dummy_block, get_free_count in *.
    rewrite (proj2 (Z.leb_le _ _) Hyes). cbn [require mbind res_bind].
    destruct (free_blocks (allocator pm')) as [|x l]; [by cbn in Hyes|]. by eexists _, _.
  - exfalso. destruct (Hno eq_refl) as [_ Hshort].
    pose proof (all_blocks_accounted ids _ _ Hstep Hids).
    pose proof (owned_bound ids _ _ _ Hstep Hlen Hcap). nia.
Qed.

(** *** A request that is alone *)

(** The pool holds a request of the maximal length, counting what the only request that
    holds blocks has. *)
Definition pool_fits_one : Prop :=
  needs_chunked_prefill_pad cfg = false /\
  (forall e, 0 <= get_num_free_blocks e) /\
  (forall e id, (forall id', id' <> id -> held e id' = []) ->
     cdiv (kv_max_model_len cfg) bs <= get_num_free_blocks e + len (held e id)).

(** The outer blocks that an allocation takes bring their number up to what the inner
    blocks need. *)
Lemma outer_needed e pm r : enable_caching cfg = true -> in_step (tracks := tracks) (bs := bs) (held := held) e pm ->
  may_allocate (bs := bs) (held := held) cfg e r ->
  let n := Z.max 0 (cdiv (Z.min (num_tokens r) (kv_max_model_len cfg)) bs - len (held e (request_id r))) in
  len (default [] (requests pm !! request_id r)) + compute_num_blocks_to_allocate (config pm) n (num_computed_tokens r) =
  cdiv (len (held e (request_id r)) + n) (block_ratio (config pm)).
Proof.
  intros Hc [I Hb Hi Hk Hcount] Hmay n. pose proof (block_ratio_pos _ _ _ I) as Hratio. rewrite Hcount.
  unfold compute_num_blocks_to_allocate. destruct (Z.eqb_spec n 0) as [->|Hn]; [by rewrite !Z.add_0_r|].
  pose proof Hmay as [_ [[H0 Hn0]|(_ & _ & Hheld & _)]].
  - rewrite Hn0, Z.eqb_refl, H0. change (len (@nil Z)) with 0.
    assert (cdiv 0 (block_ratio (config pm)) = 0) as -> by (apply cdiv_unique; lia). done.
  - destruct (decode_needs cfg bs_pos e r Hc Hmay Hheld) as (H1 & H2 & H3). fold n in H2, H3.
    rewrite (proj2 (Z.eqb_neq _ _)) by lia. assert (n = 1) as Hn1 by lia. rewrite Hb, H3, Hn1 by done.
    rewrite cdiv_next; [done|done|apply len_nonneg].
Qed.

Lemma alone_not_short r k need : pool_fits_one -> kv_good k -> may_allocate (bs := bs) (held := held) cfg (coordinator k) r ->
  (forall id, id <> request_id r -> held (coordinator k) id = []) ->
  (enable_caching cfg = true -> len (held (coordinator k) (request_id r)) <= cdiv (kv_max_model_len cfg) bs) ->
  slots_needed cfg mm_features r k need -> ~ short_of_blocks (bs := bs) (held := held) cfg r k need.
Proof.
  intros (Hnp & Hfree & Hfit) Hg Hmay Halone Hlen (pad & -> & _ & Hpad) Hshort. rewrite Hnp in Hpad. subst pad.
  rewrite Z.add_0_r in Hshort. set (id := request_id r) in *. specialize (Hfit _ _ Halone). specialize (Hfree (coordinator k)).
  pose proof (cdiv_mono bs_pos (Z.min (num_tokens r) (kv_max_model_len cfg)) (kv_max_model_len cfg) ltac:(lia)) as Hm.
  unfold short_of_blocks, missing in Hshort. fold id in Hshort.
  set (n := Z.max 0 (cdiv (Z.min (num_tokens r) (kv_max_model_len cfg)) bs - len (held (coordinator k) id))) in *.
  destruct Hshort as [Hs|(Hc & pm & Hpm & Hs)]; [unfold n in Hs; lia|].
  destruct (kg_inv _ Hg Hc) as (pm' & Hpm' & Hstep). rewrite Hpm in Hpm'. injection Hpm' as <-.
  pose proof (outer_needed _ _ _ Hc Hstep Hmay) as Hneed. cbv zeta in Hneed. fold id n in Hneed.
  pose proof (all_blocks_accounted [id] _ _ Hstep) as Hacc. cbn in Hacc. rewrite app_nil_r in Hacc.
  specialize (Hacc ltac:(intros id' Hid'; destruct (decide (id' = id)) as [->|Hne]; [by left|by rewrite Halone in Hid'])).
  pose proof (tf_one _ (kg_tables _ Hg pm Hpm)) as Hfito. specialize (Hlen Hc). pose proof (block_ratio_pos _ _ _ (is_inv _ _ Hstep)) as Hratio.
  assert (len (held (coordinator k) id) + n <= cdiv (kv_max_model_len cfg) bs) as Hsum by (unfold n; lia).
  pose proof (cdiv_mono Hratio _ _ Hsum). lia.
Qed.
End kv.
