(* ===== verification/OptimumScheduler.v ===== *)
(** * The scheduler of the models compiled ahead of time
    ([src/vllm_rbln/v1/core/optimum_scheduler.py])

    One call of [RBLNOptimumScheduler.schedule]: the admission of at most one waiting request,
    whose whole prompt is prefilled in one step; otherwise one token for every running
    request, with preemption when blocks are short; and the output with the block tables and
    the cache slots of the scheduled requests.

    As in [RblnScheduler], requests live in a store and the lists hold ids.  The KV cache
    manager is the one of [OptimumKv].  [Base] names the calls made of vLLM's scheduler, its
    request queues and the encoder-cache connector, over an abstract state [X].  There are no
    drafts on this path, so the dictionary of scheduled drafts stays empty and is left out,
    like logging, statistics, events and the cascade-attention hint of the output. *)

From S2P Require Import Prelude VllmTypes Eviction PrefixCache RblnScheduler OptimumKv.

Module Optimum.

Class Base (E X : Type) := {
  new_step_starts : E -> E;
  is_blocked_waiting_status : RequestStatus -> bool;
  try_promote_blocked : Request -> X -> bool * Request * X;
  (** does the skipped queue's head come first? *)
  select_skipped : gmap string Request -> list string -> list string -> bool;
  queue_prepend : gmap string Request -> string -> list string -> list string;
  queue_prepend_all : gmap string Request -> list string -> list string -> list string;
  (** encoder-cache connector, for the [i]-th feature of a request *)
  ec_has_cache_item : Request -> Z -> X -> bool;
  ec_update_state : Request -> Z -> X -> X;
  ec_request_finished : Request -> X -> X
}.

Record Config := mkConfig {
  max_num_scheduled_tokens : Z;
  max_num_running_reqs : Z;
  policy : SchedulingPolicy;
  max_loras : option Z;
  is_encoder_decoder : bool;
  has_ec_connector : bool
}.

(** The step's token budget, from [__init__]. *)
Definition scheduled_token_budget (configured : option Z) (max_model_len max_num_seqs : Z) : Z :=
  let n := default 0 configured in if n =? 0 then Z.max max_model_len max_num_seqs else n.

(** The chunk sizes that [__init__] hands to the KV cache manager. *)
Definition prefill_chunks (needs_pad : bool) (max_num_batched_tokens : Z)
    (image_prefill_chunk_size : option (list Z)) : option Z * option (list Z) :=
  if needs_pad then (Some max_num_batched_tokens, image_prefill_chunk_size) else (None, None).

Section scheduler.
Context {E P X : Type} `{C : Coordinator E} `{Policy : EvictionPolicy P} `{B : Base E X}.
Variable cfg : Config.
Variable kvc : KvConfig.
Variable mm_features : Request -> list MmFeature.
Variable mm_hashes : Request -> list string.

Record Scheduler := mkSched {
  reqs : gmap string Request;
  running : list string;
  waiting : list string;
  skipped_waiting : list string;
  cache_slot_ids : gmap string Z;
  prev_step_scheduled_req_ids : list string;
  finished_req_ids : list string;
  pending_free_mm_hashes : list string;
  kv : KvManager E P;
  env : X
}.

Record Step := mkStep {
  scheduled_new_reqs : list string;
  scheduled_resumed_reqs : list string;
  scheduled_running_reqs : list string;
  preempted_reqs : list string;
  req_to_new_blocks : gmap string (list Z);
  num_scheduled_tokens : odict string Z;
  token_budget : Z;
  block_table_dict : gmap string (list Z);
  cached_block_table : list Z;
  cached_length : list Z;
  scheduled_loras : gset Z
}.

Definition state : Type := Scheduler * Step.

Definition set_reqs x (s : Scheduler) : Scheduler :=
  mkSched x (running s) (waiting s) (skipped_waiting s) (cache_slot_ids s)
    (prev_step_scheduled_req_ids s) (finished_req_ids s) (pending_free_mm_hashes s) (kv s) (env s).
Definition set_running x (s : Scheduler) : Scheduler :=
  mkSched (reqs s) x (waiting s) (skipped_waiting s) (cache_slot_ids s)
    (prev_step_scheduled_req_ids s) (finished_req_ids s) (pending_free_mm_hashes s) (kv s) (env s).
Definition set_queues w k (s : Scheduler) : Scheduler :=
  mkSched (reqs s) (running s) w k (cache_slot_ids s)
    (prev_step_scheduled_req_ids s) (finished_req_ids s) (pending_free_mm_hashes s) (kv s) (env s).
Definition set_slots x (s : Scheduler) : Scheduler :=
  mkSched (reqs s) (running s) (waiting s) (skipped_waiting s) x
    (prev_step_scheduled_req_ids s) (finished_req_ids s) (pending_free_mm_hashes s) (kv s) (env s).
Definition set_prev x (s : Scheduler) : Scheduler :=
  mkSched (reqs s) (running s) (waiting s) (skipped_waiting s) (cache_slot_ids s)
    x (finished_req_ids s) (pending_free_mm_hashes s) (kv s) (env s).
Definition set_hashes x (s : Scheduler) : Scheduler :=
  mkSched (reqs s) (running s) (waiting s) (skipped_waiting s) (cache_slot_ids s)
    (prev_step_scheduled_req_ids s) (finished_req_ids s) x (kv s) (env s).
Definition set_kv x (s : Scheduler) : Scheduler :=
  mkSched (reqs s) (running s) (waiting s) (skipped_waiting s) (cache_slot_ids s)
    (prev_step_scheduled_req_ids s) (finished_req_ids s) (pending_free_mm_hashes s) x (env s).
Definition set_env x (s : Scheduler) : Scheduler :=
  mkSched (reqs s) (running s) (waiting s) (skipped_waiting s) (cache_slot_ids s)
    (prev_step_scheduled_req_ids s) (finished_req_ids s) (pending_free_mm_hashes s) (kv s) x.

Definition put_req (r : Request) (s : Scheduler) : Scheduler :=
  set_reqs (<[request_id r := r]> (reqs s)) s.
Definition get_req (id : string) (s : Scheduler) : res Request :=
  of_option (reqs s !! id) KeyError.

Definition step_admitted (new resumed : list string) (p : Step) : Step :=
  mkStep new resumed (scheduled_running_reqs p) (preempted_reqs p) (req_to_new_blocks p)
    (num_scheduled_tokens p) (token_budget p) (block_table_dict p) (cached_block_table p)
    (cached_length p) (scheduled_loras p).
Definition step_running (ids : list string) (p : Step) : Step :=
  mkStep (scheduled_new_reqs p) (scheduled_resumed_reqs p) ids (preempted_reqs p)
    (req_to_new_blocks p) (num_scheduled_tokens p) (token_budget p) (block_table_dict p)
    (cached_block_table p) (cached_length p) (scheduled_loras p).
Definition step_preempted (ids : list string) (p : Step) : Step :=
  mkStep (scheduled_new_reqs p) (scheduled_resumed_reqs p) (scheduled_running_reqs p) ids
    (req_to_new_blocks p) (num_scheduled_tokens p) (token_budget p) (block_table_dict p)
    (cached_block_table p) (cached_length p) (scheduled_loras p).
Definition step_tokens (blocks : gmap string (list Z)) (nst : odict string Z) (budget : Z) (p : Step) : Step :=
  mkStep (scheduled_new_reqs p) (scheduled_resumed_reqs p) (scheduled_running_reqs p)
    (preempted_reqs p) blocks nst budget (block_table_dict p) (cached_block_table p)
    (cached_length p) (scheduled_loras p).
Definition step_tables (tables : gmap string (list Z)) (blocks lengths : list Z) (p : Step) : Step :=
  mkStep (scheduled_new_reqs p) (scheduled_resumed_reqs p) (scheduled_running_reqs p)
    (preempted_reqs p) (req_to_new_blocks p) (num_scheduled_tokens p) (token_budget p) tables
    blocks lengths (scheduled_loras p).
Definition step_loras (l : gset Z) (p : Step) : Step :=
  mkStep (scheduled_new_reqs p) (scheduled_resumed_reqs p) (scheduled_running_reqs p)
    (preempted_reqs p) (req_to_new_blocks p) (num_scheduled_tokens p) (token_budget p)
    (block_table_dict p) (cached_block_table p) (cached_length p) l.

(** ** Cache slots *)

(** [min(set(range(max_num_running_reqs)) - set(used))] *)
Definition lowest_free_slot (slots : gmap string Z) : res Z :=
  let used := (map_to_list slots).*2 in
  py_min (filter (fun i => i ∉ used) (py_range (max_num_running_reqs cfg))).

(** [update_block_table_dict] *)
Definition update_block_table_dict (id : string) (s : Scheduler) (p : Step) : res Step :=
  table ← get_block_table id (kv s);
  Ok (step_tables (<[id := table]> (block_table_dict p)) (cached_block_table p) (cached_length p) p).

(** The features of a request that the connector's cache holds. *)
Definition track_features (r : Request) (x : X) : X :=
  foldl (fun x i => if ec_has_cache_item r i x then ec_update_state r i x else x) x
    (py_range (len (mm_features r))).

(** ** The waiting requests *)

(** Pop the head of the queue that was selected. *)
Definition pop_selected (skipped : bool) (s : Scheduler) : Scheduler :=
  if skipped then set_queues (waiting s) (tail (skipped_waiting s)) s
  else set_queues (tail (waiting s)) (skipped_waiting s) s.

(** The prefix hits of the admitted request, its block table and its statistics. *)
Definition look_up_prefix (r : Request) (st : state) : res (Request * state) :=
  let '(s, p) := st in
  let '(blocks, _, boundary, e) := get_computed_blocks r (coordinator (kv s)) in
  let s := set_kv (set_coordinator e (kv s)) s in
  let r := with_shared_prefix_boundary boundary r in
  '(s, p) ←
    (if enable_caching kvc then
       '(table, lengths, k) ← get_prefix_cached_blocks r blocks (kv s);
       let s := set_kv k s in
       p ← update_block_table_dict (request_id r) s (step_tables (block_table_dict p) table lengths p);
       Ok (s, p)
     else Ok (s, p));
  match prefill_stats r with
  | None => Ok (r, (put_req r s, p))
  | Some _ =>
      let local := sumZ (cached_length p) in
      assert! (local <=? num_prompt_tokens r);
      let r := with_prefill_stats (Some (num_prompt_tokens r, local, 0)) r in
      Ok (r, (put_req r s, p))
  end.

(** The request leaves its queue and runs. *)
Definition admit_waiting (skipped : bool) (r : Request) (num_new_tokens : Z) (st : state) : res state :=
  let '(s, p) := st in
  let id := request_id r in
  let s := pop_selected skipped s in
  let s := set_running (running s ++ [id]) s in
  slot ← lowest_free_slot (cache_slot_ids s);
  let s := set_slots (<[id := slot]> (cache_slot_ids s)) s in
  p ← match status r with
      | WAITING => Ok (step_admitted (scheduled_new_reqs p ++ [id]) (scheduled_resumed_reqs p) p)
      | PREEMPTED => Ok (step_admitted (scheduled_new_reqs p) (scheduled_resumed_reqs p ++ [id]) p)
      | _ => Raise RuntimeError
      end;
  let p := match max_loras cfg, lora_int_id r with
           | Some _, Some l => step_loras ({[l]} ∪ scheduled_loras p) p
           | _, _ => p
           end in
  let p := step_tokens (<[id := coordinator_get_blocks id (coordinator (kv s))]> (req_to_new_blocks p))
             (od_set id num_new_tokens (num_scheduled_tokens p)) (token_budget p - num_new_tokens) p in
  let r := with_num_computed_tokens 0 (with_status RUNNING r) in
  let s := put_req r s in
  Ok (if has_ec_connector cfg && has_encoder_inputs r
      then set_env (track_features r (env s)) s else s, p).

Inductive flow := Continue (skipped_ids : list string) (s : state) | Break (skipped_ids : list string) (s : state).

(** Scheduling the request would exceed [max_loras]. *)
Definition exceeds_loras (r : Request) (p : Step) : bool :=
  match max_loras cfg, lora_int_id r with
  | Some m, Some l => (Z.of_nat (size (scheduled_loras p)) =? m) && negb (bool_decide (l ∈ scheduled_loras p))
  | _, _ => false
  end.

(** One turn of the loop over the waiting requests; [req_index] counts the admitted. *)
Definition waiting_turn (req_index : Z) (step_skipped : list string) (st : state)
    : res (flow * Z) :=
  let '(s, p) := st in
  if len (running s) =? max_num_running_reqs cfg then Ok (Break step_skipped st, req_index)
  else
    let skipped := select_skipped (reqs s) (waiting s) (skipped_waiting s) in
    id ← of_option (head (if skipped then skipped_waiting s else waiting s)) AssertionError;
    r ← get_req id s;
    if 0 <? req_index then Ok (Break step_skipped st, req_index)
    else
      let skip (s : Scheduler) :=
        Continue (queue_prepend (reqs s) id step_skipped) (pop_selected skipped s, p) in
      let '(go, r, s) :=
        (if is_blocked_waiting_status (status r) then
           let '(promoted, r, x) := try_promote_blocked r (env s) in
           (promoted, r, set_env x (put_req r s))
         else (true, r, s)) in
      if negb go then Ok (skip s, req_index)
      else if exceeds_loras r p then Ok (skip s, req_index)
      else
        assert! (num_computed_tokens r =? 0);
        let num_new_tokens := Z.min (num_tokens r) (token_budget p) in
        assert! (0 <? num_new_tokens);
        '(new_blocks, k) ← allocate_slots kvc mm_features r num_new_tokens (kv s);
        let s := set_kv k s in
        match new_blocks with
        | None => Ok (Break step_skipped (s, p), req_index)
        | Some _ =>
            '(r, st) ← look_up_prefix r (s, p);
            st ← admit_waiting skipped r num_new_tokens st;
            Ok (Continue step_skipped st, req_index + 1)
        end.

(** Every turn takes a request from a queue or ends the loop. *)
Fixpoint waiting_loop (fuel : nat) (req_index : Z) (step_skipped : list string) (st : state)
    : res (Z * list string * state) :=
  let '(s, p) := st in
  if negb (bool_decide (waiting s = [] /\ skipped_waiting s = [])) && (0 <? token_budget p) then
    match fuel with
    | O => Raise OutOfFuel
    | S fuel =>
        '(f, req_index) ← waiting_turn req_index step_skipped st;
        match f with
        | Continue step_skipped st => waiting_loop fuel req_index step_skipped st
        | Break step_skipped st => Ok (req_index, step_skipped, st)
        end
    end
  else Ok (req_index, step_skipped, st).

Definition schedule_waiting (pause : PauseState) (st : state) : res (Z * state) :=
  if decide (pause = UNPAUSED) then
    '(req_index, step_skipped, (s, p)) ←
      waiting_loop (length (waiting st.1 ++ skipped_waiting st.1)) 0 [] st;
    match step_skipped with
    | [] => Ok (req_index, (s, p))
    | _ => Ok (req_index, (set_queues (waiting s)
             (queue_prepend_all (reqs s) step_skipped (skipped_waiting s)) s, p))
    end
  else Ok (0, st).
(** ** The running requests *)

Fixpoint max_by_key (s : Scheduler) (best : string) (l : list string) : res string :=
  match l with
  | [] => Ok best
  | y :: l =>
      rb ← get_req best s; ry ← get_req y s;
      max_by_key s (if key_ltb rb ry then y else best) l
  end.

(** [max(self.running, key=...)] *)
Definition lowest_priority (s : Scheduler) : res string :=
  match running s with [] => Raise ValueError | x :: l => max_by_key s x l end.

(** [_preempt_request] *)
Definition preempt_request (r : Request) (s : Scheduler) : res Scheduler :=
  assert! (bool_decide (status r = RUNNING));
  let id := request_id r in
  k ← free kvc id true (kv s);
  let s := set_kv k s in
  let r := with_num_preemptions (num_preemptions r + 1)
             (with_num_computed_tokens 0 (with_status PREEMPTED r)) in
  _ ← of_option (cache_slot_ids s !! id) KeyError;
  let s := set_slots (delete id (cache_slot_ids s)) s in
  let s := put_req r s in
  Ok (set_queues (queue_prepend (reqs s) id (waiting s)) (skipped_waiting s) s).

(** The victim leaves [running]; the pair is its id and the new [req_index]. *)
Definition pick_victim (req_index : Z) (st : state) : res (string * Z * state) :=
  let '(s, p) := st in
  match policy cfg with
  | PRIORITY =>
      victim ← lowest_priority s;
      let s := set_running (remove_id victim (running s)) s in
      if bool_decide (victim ∈ scheduled_running_reqs p) then
        let p := step_running (remove_id victim (scheduled_running_reqs p)) p in
        n ← of_option (od_get victim (num_scheduled_tokens p)) KeyError;
        _ ← of_option (req_to_new_blocks p !! victim) KeyError;
        let p := step_tokens (delete victim (req_to_new_blocks p))
                   (od_pop victim (num_scheduled_tokens p)) (token_budget p + n) p in
        Ok (victim, req_index - 1, (s, p))
      else Ok (victim, req_index, (s, p))
  | FCFS =>
      victim ← of_option (last (running s)) IndexError;
      Ok (victim, req_index, (set_running (removelast (running s)) s, p))
  end.

(** [while True: allocate_slots ... preempt ...]: every turn but the last takes one request
    out of [running]. *)
Fixpoint allocate_or_preempt (fuel : nat) (id : string) (num_new_tokens req_index : Z)
    (st : state) : res (option (list Z) * Z * state) :=
  match fuel with
  | O => Raise OutOfFuel
  | S fuel =>
      let '(s, p) := st in
      r ← get_req id s;
      '(new_blocks, k) ← allocate_slots kvc mm_features r num_new_tokens (kv s);
      let s := set_kv k s in
      match new_blocks with
      | Some b => Ok (Some b, req_index, (s, p))
      | None =>
          '(victim, req_index, (s, p)) ← pick_victim req_index (s, p);
          v ← get_req victim s;
          s ← preempt_request v s;
          let p := step_preempted (preempted_reqs p ++ [victim]) p in
          if decide (victim = id) then Ok (None, req_index, (s, p))
          else allocate_or_preempt fuel id num_new_tokens req_index (s, p)
      end
  end.

(** "Schedule the request." *)
Definition commit_running (id : string) (num_new_tokens : Z) (new_blocks : list Z) (st : state) : res state :=
  let '(s, p) := st in
  p ← (if enable_caching kvc then update_block_table_dict id s p else Ok p);
  let p := step_running (scheduled_running_reqs p ++ [id]) p in
  Ok (s, step_tokens (<[id := new_blocks]> (req_to_new_blocks p))
           (od_set id num_new_tokens (num_scheduled_tokens p)) (token_budget p - num_new_tokens) p).

Fixpoint running_loop (fuel : nat) (req_index : Z) (st : state) : res state :=
  let '(s, p) := st in
  if (req_index <? len (running s)) && (0 <? token_budget p) then
    match fuel with
    | O => Raise OutOfFuel
    | S fuel =>
        id ← of_option (py_nth (running s) req_index) IndexError;
        r ← get_req id s;
        let n := Z.min 1 (token_budget p) in
        let n := Z.min n (kv_max_model_len kvc - 1 - num_computed_tokens r) in
        if n =? 0 then running_loop fuel (req_index + 1) st
        else
          '(new_blocks, req_index, st) ← allocate_or_preempt (length (running s)) id n req_index st;
          match new_blocks with
          | None => Ok st
          | Some b => st ← commit_running id n b st; running_loop fuel (req_index + 1) st
          end
    end
  else Ok st.

(** ** The output *)

Record RBLNSchedulerOutput := mkOutput {
  out_new_reqs : list (string * list Z);
  out_running_reqs : list string;
  out_resumed_reqs : list string;
  out_new_blocks : gmap string (list Z);
  out_num_scheduled_tokens : odict string Z;
  out_total : Z;
  out_preempted : list string;
  out_finished : list string;
  out_free_encoder_mm_hashes : list string;
  out_block_table_dict : gmap string (list Z);
  out_cached_block_table : list Z;
  out_cached_length : list Z;
  out_dummy_block : option Z;
  out_cache_slot_id_dict : odict string Z
}.

(** The connector's metadata and the base class's [_update_after_schedule] take the output. *)
Variable build_connector_meta : RBLNSchedulerOutput -> X -> X.
Variable update_after_schedule : RBLNSchedulerOutput -> Scheduler -> Scheduler.

Definition check_constraints (st : state) : res Z :=
  let '(s, p) := st in
  let total := sumZ (od_values (num_scheduled_tokens p)) in
  assert! (total <=? max_num_scheduled_tokens cfg);
  assert! (0 <=? token_budget p);
  assert! (len (running s) <=? max_num_running_reqs cfg);
  assert! (len (scheduled_new_reqs p) + len (scheduled_resumed_reqs p)
           + len (scheduled_running_reqs p) <=? len (running s));
  Ok total.

Definition choose_dummy_block (st : state) : res (option Z * Scheduler) :=
  let '(s, p) := st in
  let n := len (scheduled_running_reqs p) in
  if is_encoder_decoder cfg || (enable_caching kvc && ((0 <? n) && (n <? max_num_running_reqs cfg))) then
    '(d, k) ← kv_get_dummy_block (kv s); Ok (Some d, set_kv k s)
  else Ok (None, s).

(** Features of waiting requests, fetched before they are needed. *)
Definition prefetch_features (s : Scheduler) : res Scheduler :=
  foldM (fun s id =>
    r ← get_req id s;
    Ok (if has_encoder_inputs r then set_env (track_features r (env s)) s else s)) s (waiting s).

Definition finalize (st : state) : res (RBLNSchedulerOutput * Scheduler) :=
  let '(s, p) := st in
  total ← check_constraints (s, p);
  new_reqs ← mapM (fun id =>
    b ← of_option (req_to_new_blocks p !! id) KeyError; Ok (id, b)) (scheduled_new_reqs p);
  let s := set_prev (od_keys (num_scheduled_tokens p)) s in
  '(dummy, s) ← choose_dummy_block (s, p);
  slots ← mapM (fun id =>
    i ← of_option (cache_slot_ids s !! id) KeyError; Ok (id, i)) (od_keys (num_scheduled_tokens p));
  let out := mkOutput new_reqs (scheduled_running_reqs p) (scheduled_resumed_reqs p)
    (req_to_new_blocks p) (num_scheduled_tokens p) total (preempted_reqs p) (finished_req_ids s)
    (pending_free_mm_hashes s) (block_table_dict p) (cached_block_table p) (cached_length p)
    dummy slots in
  s ← (if has_ec_connector cfg then
         s ← prefetch_features s; Ok (set_env (build_connector_meta out (env s)) s)
       else Ok s);
  Ok (out, set_hashes [] (update_after_schedule out s)).

(** ** [schedule] *)

Definition empty_step (pause : PauseState) : Step :=
  mkStep [] [] [] [] ∅ []
    (if decide (pause = PAUSED_ALL) then 0 else max_num_scheduled_tokens cfg) ∅ [] [] ∅.

(** Which requests run, and with how many tokens. *)
Definition decide_step (pause : PauseState) (s : Scheduler) : res state :=
  let s := set_kv (set_coordinator (new_step_starts (coordinator (kv s))) (kv s)) s in
  assert! (match max_loras cfg with Some m => 0 <=? m | None => true end);
  '(req_index, st) ← schedule_waiting pause (s, empty_step pause);
  if req_index =? 0 then running_loop (length (running st.1)) 0 st else Ok st.

Definition schedule (pause : PauseState) (s : Scheduler) : res (RBLNSchedulerOutput * Scheduler) :=
  st ← decide_step pause s; finalize st.

(** [_free_request]: the encoder-cache entries and the cache slot of a finished request, before
    the base class frees it. *)
Definition free_request (super_free_request : Request -> Scheduler -> Scheduler) (r : Request)
    (s : Scheduler) : Scheduler :=
  let s := match mm_hashes r with
           | [] => s
           | hashes =>
               let s := if has_ec_connector cfg then set_env (ec_request_finished r (env s)) s else s in
               set_hashes (pending_free_mm_hashes s ++ hashes) s
           end in
  let s := set_slots (delete (request_id r) (cache_slot_ids s)) s in
  super_free_request r s.
End scheduler.
End Optimum.
