(* ===== verification/OptimumSchedulerInv.v ===== *)
(** * The scheduler of the models compiled ahead of time: its invariant

    What [OptimumScheduler] relies on from the calls it makes ([BaseLaws]), the invariant of
    the scheduler ([sinv]) and of the step under construction ([rinv], [admitted]), and that
    the admission of a request, the decode loop and its preemptions keep them and terminate. *)

From S2P Require Import Prelude VllmTypes BlockMapping Eviction PrefixCache PrefixCacheSpec RblnScheduler RblnSchedulerInv OptimumKv OptimumKvSpec OptimumKvUse OptimumScheduler.
Import Optimum.

Module OptimumInv.

(** ** What the scheduler relies on *)

(** The conversation of a request is its own: a step changes neither its tokens nor its
    prompt. *)
Definition same_tokens (r r' : Request) : Prop :=
  request_id r' = request_id r /\ all_token_ids r' = all_token_ids r /\
  num_prompt_tokens r' = num_prompt_tokens r.

(** A waiting request has nothing computed, and its prefill statistics are open only while
    its tokens are its prompt; there is no KV connector to load it from. *)
Record waiting_ok (mml : Z) (r : Request) : Prop := {
  wo_tokens : 0 < num_tokens r <= mml;
  wo_status : waiting_status (status r) /\ status r <> WAITING_FOR_REMOTE_KVS;
  wo_computed : num_computed_tokens r = 0;
  wo_prompt : 0 <= num_prompt_tokens r;
  wo_stats : prefill_stats r <> None -> num_tokens r = num_prompt_tokens r
}.

Class BaseLaws (E X : Type) `{B : Base E X} (held : E -> string -> list Z) : Prop := {
  base_new_step : forall e r, held (new_step_starts e) r = held e r;
  base_blocked : forall st, is_blocked_waiting_status st = false -> waiting_status st ->
    st = WAITING \/ st = PREEMPTED;
  base_promote : forall mml r x b r' x', try_promote_blocked r x = (b, r', x') -> waiting_ok mml r ->
    same_request r r' /\ waiting_ok mml r' /\ (b = true -> status r' = WAITING \/ status r' = PREEMPTED);
  base_prepend : forall st id q, queue_prepend st id q ≡ₚ id :: q;
  base_prepend_all : forall st l q, queue_prepend_all st l q ≡ₚ l ++ q;
  base_select : forall st w k, w <> [] \/ k <> [] -> if select_skipped st w k then k <> [] else w <> []
}.

(** ** Cache slots *)

(** Every running request has a slot of its own among [max]. *)
Record slots_ok (max : Z) (run : list string) (slots : gmap string Z) : Prop := {
  sl_dom : forall id, is_Some (slots !! id) <-> id ∈ run;
  sl_range : forall id i, slots !! id = Some i -> 0 <= i < max;
  sl_own : forall id id' i, slots !! id = Some i -> slots !! id' = Some i -> id = id'
}.

Lemma slots_perm max run run' slots : run ≡ₚ run' -> slots_ok max run slots -> slots_ok max run' slots.
Proof. intros Hp []. split; [intros id; by rewrite <- Hp|done..]. Qed.

Lemma slots_delete max v run slots : NoDup (v :: run) -> slots_ok max (v :: run) slots ->
  slots_ok max run (delete v slots).
Proof.
  intros [Hv _]%NoDup_cons [Hd Hr Ho]. split.
  - intros id. destruct (decide (id = v)) as [->|Hne].
    + rewrite lookup_delete_eq. split; [by intros []|done].
    + rewrite lookup_delete_ne, Hd, elem_of_cons by done. naive_solver.
  - intros id i [_ Hi]%lookup_delete_Some. eauto.
  - intros id id' i [_ Hi]%lookup_delete_Some [_ Hi']%lookup_delete_Some. eauto.
Qed.

Lemma slots_insert max id i run slots : slots_ok max run slots -> (id ∉ run) -> 0 <= i < max ->
  (forall id', slots !! id' <> Some i) -> slots_ok max (run ++ [id]) (<[id := i]> slots).
Proof.
  intros [Hd Hr Ho] Hid Hi Hfree. split.
  - intros x. rewrite elem_of_app, list_elem_of_singleton. destruct (decide (x = id)) as [->|Hne].
    + rewrite lookup_insert_eq. split; [by right|by eexists].
    + rewrite lookup_insert_ne by done. rewrite Hd. naive_solver.
  - intros x j. destruct (decide (x = id)) as [->|Hne].
    + rewrite lookup_insert_eq. by intros [= <-].
    + rewrite lookup_insert_ne by done. apply Hr.
  - intros x y j. destruct (decide (x = id)) as [->|Hx], (decide (y = id)) as [->|Hy];
      rewrite ?lookup_insert_eq, ?lookup_insert_ne by done; [done|..].
    + intros [= <-] H. by apply Hfree in H.
    + intros H [= <-]. by apply Hfree in H.
    + apply Ho.
Qed.

(** The lowest slot nobody uses. *)
Lemma lowest_free_slot_ok cfg run slots : slots_ok (max_num_running_reqs cfg) run slots -> NoDup run ->
  len run < max_num_running_reqs cfg ->
  exists i, lowest_free_slot cfg slots = Ok i /\ 0 <= i < max_num_running_reqs cfg /\
    (forall id, slots !! id <> Some i) /\ forall j, 0 <= j < i -> exists id, slots !! id = Some j.
Proof.
  intros [Hd Hr Ho] Hnd Hlen. unfold lowest_free_slot. set (used := (map_to_list slots).*2).
  assert (forall i, i ∈ used <-> exists id, slots !! id = Some i) as Hused.
  { intros i. unfold used. rewrite list_elem_of_fmap. split.
    - intros ([id j] & -> & Hin). apply elem_of_map_to_list in Hin. by exists id.
    - intros [id Hid]. exists (id, i). split; [done|]. by apply elem_of_map_to_list. }
  destruct (py_min_ok (filter (fun i => i ∉ used) (py_range (max_num_running_reqs cfg)))) as (i & -> & Hin & Hmin).
  - intros He. assert (forall i, i ∈ py_range (max_num_running_reqs cfg) -> i ∈ used) as Hall.
    { intros i Hi. destruct (decide (i ∈ used)) as [|Hn]; [done|]. exfalso.
      assert (i ∈ filter (fun i => i ∉ used) (py_range (max_num_running_reqs cfg))) as Hf by (by apply list_elem_of_filter).
      rewrite He in Hf. by apply not_elem_of_nil in Hf. }
    assert (length (py_range (max_num_running_reqs cfg)) <= length used)%nat as Hl.
    { apply submseteq_length, NoDup_submseteq; [apply NoDup_seqZ|exact Hall]. }
    assert (length used = length run) as Hlr.
    { unfold used. rewrite length_fmap, length_map_to_list.
      rewrite <- (size_dom (D := gset string)). rewrite <- (size_list_to_set (C := gset string) run) by done.
      f_equal. apply set_eq. intros x. by rewrite elem_of_dom, elem_of_list_to_set. }
    unfold py_range in Hl. rewrite length_seqZ in Hl. unfold len in Hlen. lia.
  - apply list_elem_of_filter in Hin as [Hn Hir]. apply elem_of_seqZ in Hir.
    exists i. split; [done|]. split; [lia|]. split; [intros id Hid; apply Hn, Hused; eauto|].
    intros j Hj. apply Hused. destruct (decide (j ∈ used)) as [|Hnj]; [done|]. exfalso.
    assert (i <= j); [|lia]. apply Hmin, list_elem_of_filter. split; [done|]. apply elem_of_seqZ. lia.
Qed.

(** ** The invariant *)

Section sched.
Context {E P X : Type} `{C : Coordinator E} `{Policy : EvictionPolicy P} `{B : Base E X}.
Context {tracks : P -> gset Z -> Prop} `{Laws : !EvictionPolicyLaws P tracks}.
Context {bs : Z} {held : E -> string -> list Z} `{CL : !CoordinatorLaws E bs held} `{BL : !BaseLaws E X held}.
Variable cfg : Config.
Variable kvc : KvConfig.
Variable mm_features : Request -> list MmFeature.

Abbreviation Scheduler := (Scheduler (E := E) (P := P) (X := X)).
Abbreviation mml := (kv_max_model_len kvc).
Abbreviation max_seqs := (max_num_running_reqs cfg).
Implicit Types (s : Scheduler) (p : Step) (d run extra : list string).

Record config_ok : Prop := {
  co_block : 0 < bs;
  co_mml : 0 < mml;
  co_pads : pads_computable kvc mm_features;
  (** the budget that [scheduled_token_budget] picks when none is configured *)
  co_prompt : mml <= max_num_scheduled_tokens cfg;
  co_batch : max_seqs <= max_num_scheduled_tokens cfg;
  co_loras : forall m, max_loras cfg = Some m -> 0 <= m
}.

(** A running request holds blocks for its computed tokens and lacks exactly its newest
    token, unless it is one of [d]: these are scheduled in this step, for all they lack. *)
Record running_ok d (e : E) (r : Request) : Prop := {
  ro_tokens : 0 < num_tokens r <= mml;
  ro_status : status r = RUNNING;
  ro_prompt : 0 <= num_prompt_tokens r;
  ro_stats : prefill_stats r <> None -> num_tokens r = num_prompt_tokens r;
  ro_decode : request_id r ∉ d ->
    0 < num_computed_tokens r /\ num_tokens r = num_computed_tokens r + 1 /\ num_tokens r < mml;
  ro_held : held e (request_id r) <> [];
  ro_blocks : enable_caching kvc = true -> len (held e (request_id r)) =
    cdiv (if decide (request_id r ∈ d) then num_tokens r else num_computed_tokens r) bs
}.

Definition queued s : list string := waiting s ++ skipped_waiting s.

(** Every request is in one place; [extra] are in the hands of the waiting loop. *)
Record sinv d extra s : Prop := {
  i_nodup : NoDup (running s ++ queued s ++ extra);
  i_id : forall id r, reqs s !! id = Some r -> request_id r = id;
  i_running : forall id, id ∈ running s -> exists r, reqs s !! id = Some r /\ running_ok d (coordinator (kv s)) r;
  i_waiting : forall id, id ∈ queued s ++ extra -> exists r, reqs s !! id = Some r /\ waiting_ok mml r;
  i_held : forall id, held (coordinator (kv s)) id <> [] -> id ∈ running s;
  i_slots : slots_ok max_seqs (running s) (cache_slot_ids s);
  i_max : len (running s) <= max_seqs;
  i_kv : kv_good (tracks := tracks) (bs := bs) (held := held) kvc max_seqs (kv s);
  i_dummy : is_encoder_decoder cfg = true <-> is_Some (dummy_block (block_pool (kv s)))
}.

Definition kept s s' : Prop := forall id r, reqs s !! id = Some r ->
  exists r', reqs s' !! id = Some r' /\ same_tokens r r'.

Lemma kept_refl s : kept s s.
Proof. intros id r Hr. by exists r. Qed.

Lemma kept_trans s1 s2 s3 : kept s1 s2 -> kept s2 s3 -> kept s1 s3.
Proof.
  intros H1 H2 id r Hr. destruct (H1 id r Hr) as (r' & Hr' & Ha & Hb & Hc).
  destruct (H2 id r' Hr') as (r'' & Hr'' & Ha' & Hb' & Hc'). exists r''. split; [done|].
  split; [congruence|]. split; congruence.
Qed.

Lemma kept_put s r r' : reqs s !! request_id r = Some r -> same_tokens r r' -> kept s (put_req r' s).
Proof.
  intros Hr Hs id r0 Hr0. cbn. rewrite (proj1 Hs). destruct (decide (id = request_id r)) as [->|Hne].
  - rewrite lookup_insert_eq. exists r'. split; [done|]. congruence.
  - rewrite lookup_insert_ne by done. by exists r0.
Qed.

Lemma sinv_req d extra s id : sinv d extra s -> id ∈ running s ++ queued s ++ extra ->
  exists r, reqs s !! id = Some r /\ request_id r = id.
Proof.
  intros I [Hr|Hw]%elem_of_app.
  - destruct (i_running _ _ _ I id Hr) as (r & Hrq & _). exists r. split; [done|]. by apply (i_id _ _ _ I).
  - destruct (i_waiting _ _ _ I id Hw) as (r & Hrq & _). exists r. split; [done|]. by apply (i_id _ _ _ I).
Qed.

(** Nobody but running requests holds blocks. *)
Lemma waiting_holds_nothing d extra s id : sinv d extra s -> id ∈ queued s ++ extra ->
  held (coordinator (kv s)) id = [].
Proof.
  intros I Hid. destruct (held (coordinator (kv s)) id) as [|b l] eqn:Hh; [done|]. exfalso.
  assert (id ∈ running s) as Hrun by (apply (i_held _ _ _ I); by rewrite Hh).
  pose proof (i_nodup _ _ _ I) as Hnd. apply NoDup_app in Hnd as (_ & Hnd & _). by apply (Hnd id).
Qed.

(** No request holds more blocks than the longest request needs. *)
Lemma held_bound (ok : config_ok) d extra s id : sinv d extra s -> enable_caching kvc = true ->
  len (held (coordinator (kv s)) id) <= cdiv mml bs.
Proof.
  intros I Hc. destruct (held (coordinator (kv s)) id) as [|b l] eqn:Hh.
  { pose proof (cdiv_pos (co_block ok) mml (co_mml ok)). change (len (@nil Z)) with 0. lia. }
  destruct (i_running _ _ _ I id) as (r & Hr & Hok); [apply (i_held _ _ _ I); by rewrite Hh|].
  rewrite <- Hh. pose proof (i_id _ _ _ I _ _ Hr) as Hid. pose proof (ro_blocks _ _ _ Hok Hc) as Hlen.
  rewrite Hid in Hlen. rewrite Hlen. apply cdiv_mono; [apply ok|]. pose proof (ro_tokens _ _ _ Hok).
  case_decide as Hd; [lia|]. destruct (ro_decode _ _ _ Hok); [by rewrite Hid|]. lia.
Qed.

Lemma running_ok_ext d d' e e' r : (request_id r ∈ d <-> request_id r ∈ d') ->
  held e' (request_id r) = held e (request_id r) -> running_ok d e r -> running_ok d' e' r.
Proof.
  intros Hd He []. split; try done.
  - by rewrite <- Hd.
  - by rewrite He.
  - intros Hc. rewrite He, ro_blocks0 by done. f_equal. destruct (decide (_ ∈ d)), (decide (_ ∈ d')); naive_solver.
Qed.

(** Which of the running requests are scheduled. *)
Lemma sinv_scheduled d d' extra s : sinv d extra s -> (forall id, id ∈ running s -> id ∈ d <-> id ∈ d') ->
  sinv d' extra s.
Proof.
  intros I Hd. destruct I as [Hnd Hid Hrun]. split; try done. intros id Hin.
  destruct (Hrun id Hin) as (r & Hr & Hok). exists r. split; [done|].
  apply (running_ok_ext d d' (coordinator (kv s)) (coordinator (kv s)) r); [|done|done].
  rewrite (Hid _ _ Hr). by apply Hd.
Qed.

(** An operation of the KV cache manager that changes nobody's blocks. *)
Lemma sinv_kv d extra s k : sinv d extra s -> kv_good (tracks := tracks) (bs := bs) (held := held) kvc max_seqs k ->
  frame (kv s) k -> (forall id, held (coordinator k) id = held (coordinator (kv s)) id) -> sinv d extra (set_kv k s).
Proof.
  intros [Hnd Hid Hrun Hw Hh Hs Hm Hk Hdm] Hg [Hb _] He. split; cbn; try done.
  - intros id Hin. destruct (Hrun id Hin) as (r & Hr & Hok). exists r. split; [done|].
    by apply (running_ok_ext d d (coordinator (kv s))).
  - intros id. rewrite He. apply Hh.
  - by rewrite Hb.
Qed.

(** ** Preemption *)

Lemma opt_get_req_ok s id r : reqs s !! id = Some r -> get_req id s = Ok r.
Proof. unfold get_req. by intros ->. Qed.

Lemma opt_max_by_key_ok s best l :
  (forall id, id ∈ best :: l -> exists r, reqs s !! id = Some r) ->
  returns (max_by_key s best l) (fun v => v ∈ best :: l).
Proof.
  revert best. induction l as [|y l IH]; intros best Hst; cbn; [set_solver|].
  destruct (Hst best) as [rb Hb]; [set_solver|]. destruct (Hst y) as [ry Hy]; [set_solver|].
  unfold get_req. rewrite Hb, Hy. cbn. eapply returns_mono; [apply IH|].
  - intros id Hid. apply Hst. destruct (key_ltb rb ry); set_solver.
  - intros v. destruct (key_ltb rb ry); set_solver.
Qed.

Lemma opt_lowest_priority_ok d extra s : sinv d extra s -> running s <> [] ->
  returns (lowest_priority s) (fun v => v ∈ running s).
Proof.
  intros I Hne. unfold lowest_priority.
  assert (forall id, id ∈ running s -> exists r, reqs s !! id = Some r) as Hst
    by (intros id Hid; destruct (i_running _ _ _ I id Hid) as (r & Hr & _); eauto).
  destruct (running s); [done|]. by apply opt_max_by_key_ok.
Qed.

(** What the preemption of [v] does, [run] being the requests left running. *)
Record preempted (v : string) run s s' : Prop := {
  pr_running : running s' = run;
  pr_waiting : waiting s' ≡ₚ v :: waiting s;
  pr_skipped : skipped_waiting s' = skipped_waiting s;
  pr_reqs : forall id, id <> v -> reqs s' !! id = reqs s !! id;
  pr_kept : kept s s';
  pr_slots : forall id, id <> v -> cache_slot_ids s' !! id = cache_slot_ids s !! id
}.

(** The scheduler after the preemption, [r'] and [k] being the request and the manager. *)
Definition after_preempt (v : string) (r' : Request) (k : KvManager E P) run s : Scheduler :=
  let s' := put_req r' (set_slots (delete v (cache_slot_ids s)) (set_kv k (set_running run s))) in
  set_queues (queue_prepend (reqs s') v (waiting s)) (skipped_waiting s) s'.

Lemma after_preempt_ok d s v r r' run k : sinv d [] s -> running s ≡ₚ v :: run -> reqs s !! v = Some r ->
  same_tokens r r' -> waiting_ok mml r' ->
  kv_good (tracks := tracks) (bs := bs) (held := held) kvc max_seqs k -> frame (kv s) k ->
  (forall id, held (coordinator k) id = if decide (id = v) then [] else held (coordinator (kv s)) id) ->
  sinv d [] (after_preempt v r' k run s).
Proof.
  intros [Hnd Hid Hrun Hw Hh Hs Hm Hk Hdm] Hp Hr Hsame Hwok Hg [Hb _] Hheld.
  assert (request_id r' = v) as Hr' by (rewrite (proj1 Hsame); by apply Hid).
  apply (slots_perm _ _ _ _ Hp) in Hs. rewrite Hp in Hnd. cbn in Hnd. pose proof Hnd as [Hv Hnd']%NoDup_cons.
  assert (NoDup (v :: run)) as Hndv.
  { apply NoDup_cons. split; [set_solver|]. by apply NoDup_app in Hnd' as (? & _). }
  assert (forall id, id ∈ run \/ id ∈ queued s -> v <> id) as Hne by (intros id Hin ->; set_solver).
  unfold after_preempt. split; cbn; rewrite ?Hr'.
  - unfold queued in *. cbn. rewrite (base_prepend _ v (waiting s)). cbn. by rewrite <- Permutation_middle.
  - intros id r0. destruct (decide (id = v)) as [->|Hn]; [rewrite lookup_insert_eq; by intros [= <-]|].
    rewrite lookup_insert_ne by done. apply Hid.
  - intros id Hin. rewrite lookup_insert_ne by (apply Hne; by left).
    destruct (Hrun id) as (r0 & Hr0 & Hok0); [rewrite Hp; by right|]. exists r0. split; [done|].
    apply (running_ok_ext d d (coordinator (kv s))); [done| |done]. rewrite Hheld, decide_False; [done|].
    rewrite (Hid _ _ Hr0). apply not_eq_sym, Hne. by left.
  - intros id. unfold queued. cbn. rewrite (base_prepend _ v (waiting s)), app_nil_r. cbn.
    intros [->|Hin]%elem_of_cons; [rewrite lookup_insert_eq; eauto|].
    rewrite lookup_insert_ne by (apply Hne; by right). apply Hw. unfold queued. by rewrite app_nil_r.
  - intros id. rewrite Hheld. case_decide as Hd; [done|]. intros Hin%Hh. rewrite Hp in Hin.
    by apply elem_of_cons in Hin as [->|].
  - by apply slots_delete.
  - assert (len (running s) = len (v :: run)) as Hl by (unfold len; by rewrite Hp). rewrite len_cons in Hl. lia.
  - exact Hg.
  - by rewrite Hb.
Qed.

Lemma preempt_request_ok (ok : config_ok) d s v rv run : sinv d [] s -> running s ≡ₚ v :: run ->
  reqs s !! v = Some rv ->
  exists s', preempt_request kvc rv (set_running run s) = Ok s' /\ sinv d [] s' /\ preempted v run s s'.
Proof.
  intros I Hp Hrv. pose proof (i_id _ _ _ I _ _ Hrv) as Hv.
  destruct (i_running _ _ _ I v) as (r & Hr & Hok); [rewrite Hp; by left|]. rewrite Hrv in Hr. injection Hr as <-.
  destruct (kv_free_ok kvc (co_block ok) max_seqs v true (kv s) (i_kv _ _ _ I)) as (k & Hfree & Hg & F & Hheld).
  destruct (proj2 (sl_dom _ _ _ (i_slots _ _ _ I) v)) as [i Hi]; [rewrite Hp; by left|].
  set (r' := with_num_preemptions (num_preemptions rv + 1) (with_num_computed_tokens 0 (with_status PREEMPTED rv))).
  assert (waiting_ok mml r') as Hwok by (destruct Hok; by split).
  assert (same_tokens rv r') as Hsame by done.
  exists (after_preempt v r' k run s). split; [|split].
  - unfold preempt_request. rewrite bool_decide_true by apply Hok. cbn [require mbind res_bind set_running kv].
    rewrite Hv, Hfree. cbn [mbind res_bind]. cbn [cache_slot_ids set_running set_kv]. by rewrite Hi.
  - by apply (after_preempt_ok d s v rv).
  - clearbody r'. destruct Hsame as (Hr' & Hsame). rewrite Hv in Hr'. split; cbn; rewrite ?Hr'; try done.
    + apply base_prepend.
    + intros id Hn. by rewrite lookup_insert_ne.
    + intros id r0 Hr0. cbn. rewrite Hr'. destruct (decide (id = v)) as [->|Hn].
      * rewrite lookup_insert_eq. exists r'. split; [done|]. rewrite Hrv in Hr0. injection Hr0 as <-.
        by split; [rewrite Hr'|].
      * rewrite lookup_insert_ne by done. by exists r0.
    + intros id Hn. by rewrite lookup_delete_ne.
Qed.

(** ** The decode loop *)

(** The scheduler and the step while the loop over the running requests is at work: [s0] is
    the scheduler it started from, [b0] the budget. *)
Record rinv (b0 : Z) d s0 s p : Prop := {
  r_inv : sinv d [] s;
  r_step : pinv (max_num_scheduled_tokens cfg) (running s) (scheduled_running_reqs p)
    (req_to_new_blocks p) (num_scheduled_tokens p) (token_budget p);
  r_admitted : scheduled_new_reqs p = [] /\ scheduled_resumed_reqs p = [];
  r_ones : forall id n, od_get id (num_scheduled_tokens p) = Some n -> n = 1;
  r_lacks : forall id, id ∈ scheduled_running_reqs p -> exists r, reqs s !! id = Some r /\
    num_tokens r = num_computed_tokens r + 1;
  r_budget : token_budget p + len (scheduled_running_reqs p) = b0;
  r_perm : running s0 ≡ₚ running s ++ preempted_reqs p;
  r_waiting : waiting s ≡ₚ preempted_reqs p ++ waiting s0;
  r_skipped : skipped_waiting s = skipped_waiting s0;
  r_kept : kept s0 s;
  r_slots : forall id, id ∈ running s -> cache_slot_ids s !! id = cache_slot_ids s0 !! id
}.

Lemma rinv_sinv b0 d d' s0 s s' p : rinv b0 d s0 s p -> sinv d' [] s' ->
  running s' = running s -> waiting s' = waiting s -> skipped_waiting s' = skipped_waiting s ->
  cache_slot_ids s' = cache_slot_ids s -> reqs s' = reqs s -> rinv b0 d' s0 s' p.
Proof.
  intros [] I Hr Hw Hk Hc Hq. split; rewrite ?Hr, ?Hw, ?Hk, ?Hc, ?Hq; try done.
  intros id r H0. unfold kept in *. rewrite Hq. by apply r_kept0.
Qed.

Lemma rinv_preempt b0 d s0 s s' p v run : rinv b0 d s0 s p -> running s ≡ₚ v :: run ->
  (v ∉ scheduled_running_reqs p) -> sinv d [] s' -> preempted v run s s' ->
  rinv b0 d s0 s' (step_preempted (preempted_reqs p ++ [v]) p).
Proof.
  intros [] Hp Hv I []. split; cbn; try done.
  - rewrite pr_running0. eapply pinv_weaken; [reflexivity| |exact r_step0]. intros id Hid Hin.
    rewrite Hp in Hin. by apply elem_of_cons in Hin as [->|].
  - intros id Hid. rewrite pr_reqs0; [by apply r_lacks0|by intros ->].
  - rewrite r_perm0, pr_running0, Hp. solve_Permutation.
  - rewrite pr_waiting0, r_waiting0. solve_Permutation.
  - by rewrite pr_skipped0.
  - by eapply kept_trans.
  - rewrite pr_running0. intros id Hid. rewrite pr_slots0; [apply r_slots0; rewrite Hp; by right|].
    intros ->. pose proof (i_nodup _ _ _ r_inv0) as Hnd. rewrite Hp in Hnd. cbn in Hnd.
    apply NoDup_cons in Hnd as [Hnd _]. set_solver.
Qed.

(** What is left of the step when the scheduled request [v] gives its token back. *)
Definition opt_unscheduled (v : string) (n : Z) p : Step :=
  let p := step_running (remove_id v (scheduled_running_reqs p)) p in
  step_tokens (delete v (req_to_new_blocks p)) (od_pop v (num_scheduled_tokens p)) (token_budget p + n) p.

Lemma unscheduled_rinv b0 d s0 s p v n : rinv b0 d s0 s p -> v ∈ scheduled_running_reqs p ->
  od_get v (num_scheduled_tokens p) = Some n ->
  rinv b0 d s0 s (opt_unscheduled v n p) /\ (v ∉ scheduled_running_reqs (opt_unscheduled v n p)) /\
  len (scheduled_running_reqs (opt_unscheduled v n p)) = len (scheduled_running_reqs p) - 1.
Proof.
  intros R Hv Hn. pose proof (length_remove_id _ _ Hv) as Hl.
  assert (len (remove_id v (scheduled_running_reqs p)) = len (scheduled_running_reqs p) - 1) as Hlen
    by (unfold len; lia).
  destruct R. split; [|split; [apply remove_id_NoDup, (pi_nodup _ _ _ _ _ _ r_step0)|exact Hlen]].
  split; cbn; try done.
  - eapply pinv_remove; [exact r_step0|by apply remove_id_perm|done|done].
  - intros id m. rewrite od_get_pop. case_decide; [done|]. apply r_ones0.
  - intros id Hid. by apply r_lacks0, (elem_of_remove_id v).
  - rewrite Hlen, (r_ones0 v n Hn). lia.
Qed.

(** The victim leaves [running], and the request at hand keeps its place in it. *)
Definition victim_left (x : string) (rest : list string) p s' p' (v : string) (idx' : Z) s : Prop :=
  exists run rest', s' = set_running run s /\ running s ≡ₚ v :: run /\ idx' = len (scheduled_running_reqs p') /\
    (v ∉ scheduled_running_reqs p') /\ len (scheduled_running_reqs p') <= len (scheduled_running_reqs p) /\
    (length rest' <= length rest)%nat /\
    (forall id, id <> v -> id ∈ scheduled_running_reqs p <-> id ∈ scheduled_running_reqs p') /\
    run = scheduled_running_reqs p' ++ (if decide (v = x) then rest' else x :: rest') /\
    (policy cfg = FCFS -> p' = p /\ last (running s) = Some v).

Lemma remove_unscheduled x rest p (s : Scheduler) v : NoDup (running s) -> running s = scheduled_running_reqs p ++ x :: rest ->
  v ∈ running s -> (v ∉ scheduled_running_reqs p) -> (policy cfg = FCFS -> last (running s) = Some v) ->
  victim_left x rest p (set_running (remove_id v (running s)) s) p v (len (scheduled_running_reqs p)) s.
Proof.
  intros Hnd Hrun Hv Hn Hlast. exists (remove_id v (running s)).
  destruct (remove_id_app v _ _ _ Hnd Hv Hrun) as [(Hin & _)|(Hr & Heq & _)]; [done|].
  exists (if decide (v = x) then rest else remove_id v rest). split; [done|]. split; [by apply remove_id_perm|].
  split; [done|]. split; [done|]. split; [done|]. split.
  { case_decide; [done|]. pose proof (sublist_length _ _ (remove_id_sublist v rest)). lia. }
  split; [done|]. split; [|by auto]. rewrite Heq. f_equal. cbn. by repeat case_decide.
Qed.

Lemma opt_pick_victim_ok b0 d s0 s p x rest : rinv b0 d s0 s p ->
  running s = scheduled_running_reqs p ++ x :: rest ->
  returns (pick_victim cfg (len (scheduled_running_reqs p)) (s, p))
    (fun '(v, idx', (s', p')) => rinv b0 d s0 s p' /\ victim_left x rest p s' p' v idx' s).
Proof.
  intros R Hrun. pose proof (r_inv _ _ _ _ _ R) as I.
  assert (NoDup (running s)) as Hnd by (pose proof (i_nodup _ _ _ I) as Hnd; by apply NoDup_app in Hnd as (? & _)).
  assert (forall v, v ∈ x :: rest -> v ∉ scheduled_running_reqs p) as Hdis.
  { intros v Hv Hin. rewrite Hrun in Hnd. apply NoDup_app in Hnd as (_ & Hd & _). by apply (Hd v). }
  unfold pick_victim. destruct (policy cfg) eqn:Hpol.
  - destruct (last (running s)) as [v|] eqn:El.
    2:{ apply last_None in El. rewrite Hrun in El. by destruct (scheduled_running_reqs p). }
    cbn [of_option mbind res_bind returns]. rewrite (removelast_remove_id v) by done. split; [done|].
    assert (v ∈ x :: rest) as Hv by (rewrite Hrun, last_app_cons in El; by apply last_Some_elem_of).
    apply remove_unscheduled; [done|done|rewrite Hrun; set_solver|by apply Hdis|done].
  - eapply returns_bind; [eapply opt_lowest_priority_ok; [exact I|]; rewrite Hrun; by destruct (scheduled_running_reqs p)|].
    intros v Hv. cbn beta in Hv. case_bool_decide as Hin.
    2:{ cbn [returns]. split; [done|]. apply remove_unscheduled; congruence || done. }
    destruct (pinv_lookup _ _ _ _ _ _ v (r_step _ _ _ _ _ R) Hin) as (n & b & Hn & Hb).
    cbn -[od_get od_pop]. rewrite Hn. cbn -[od_pop]. rewrite Hb. cbn -[od_pop].
    destruct (unscheduled_rinv b0 d s0 s p v n R Hin Hn) as (R' & Hv' & Hl). split; [exact R'|].
    exists (remove_id v (running s)), rest.
    destruct (remove_id_app v _ _ _ Hnd Hv Hrun) as [(_ & Heq & Hvr)|(Hr & _ & Hn')]; [|done].
    split; [done|]. split; [by apply remove_id_perm|]. cbn in Hl |- *. split; [done|].
    split; [exact Hv'|]. split; [lia|]. split; [done|]. split.
    + intros id Hid. cbn. split; [intros ?; by apply elem_of_remove_id_ne|apply elem_of_remove_id].
    + split; [|by rewrite Hpol]. rewrite Heq. cbn. rewrite decide_False; [done|]. intros ->. apply Hvr. by left.
Qed.

(** *** Slots for the request at hand *)

Lemma running_may_allocate b0 s0 s p x r : rinv b0 (scheduled_running_reqs p) s0 s p ->
  x ∈ running s -> (x ∉ scheduled_running_reqs p) -> reqs s !! x = Some r ->
  may_allocate (bs := bs) (held := held) kvc (coordinator (kv s)) r /\ request_id r = x.
Proof.
  intros R Hx Hn Hr. pose proof (r_inv _ _ _ _ _ R) as I. pose proof (i_id _ _ _ I _ _ Hr) as Hid. split; [|done].
  destruct (i_running _ _ _ I x Hx) as (r' & Hr' & Hok). rewrite Hr in Hr'. injection Hr' as <-.
  destruct (ro_decode _ _ _ Hok) as (H1 & H2 & H3); [by rewrite Hid|]. split; [apply Hok|]. right.
  split; [lia|]. split; [done|]. split; [apply Hok|]. intros Hc. rewrite (ro_blocks _ _ _ Hok Hc), decide_False; [done|].
  by rewrite Hid.
Qed.

(** The slots of a running request are had. *)
Lemma sinv_extended d s k x r : sinv d [] s -> reqs s !! x = Some r -> (x ∉ d) ->
  kv_good (tracks := tracks) (bs := bs) (held := held) kvc max_seqs k -> frame (kv s) k ->
  x ∈ running s -> held (coordinator k) x <> [] ->
  (enable_caching kvc = true -> len (held (coordinator k) x) = cdiv (Z.min (num_tokens r) mml) bs) ->
  (forall id, id <> x -> held (coordinator k) id = held (coordinator (kv s)) id) -> sinv (d ++ [x]) [] (set_kv k s).
Proof.
  intros [Hnd Hid Hrun Hw Hh Hs Hm Hk Hdm] Hr Hxd Hg [Hb _] Hx Hne Hlen He. split; cbn; try done.
  - intros id Hin. destruct (Hrun id Hin) as (r' & Hr' & Hok). exists r'. split; [done|].
    pose proof (Hid _ _ Hr') as Hidr. destruct (decide (id = x)) as [->|Hne'].
    + rewrite Hr in Hr'. injection Hr' as <-. destruct Hok. split; try done.
      * rewrite Hidr. intros Hnot. set_solver.
      * by rewrite Hidr.
      * intros Hc. rewrite Hidr, decide_True by set_solver. rewrite (Hlen Hc). f_equal. lia.
    + apply (running_ok_ext d (d ++ [x]) (coordinator (kv s))); [set_solver|rewrite Hidr; by apply He|done].
  - intros id Hin. destruct (decide (id = x)) as [->|Hne']; [done|]. apply Hh. by rewrite <- He.
  - by rewrite Hb.
Qed.

Abbreviation fits := (pool_fits_one (bs := bs) (held := held) kvc).

(** First come, first served: nothing scheduled is taken back, and the first request gets
    its slots if the pool holds a request at all. *)
Definition fcfs_serves s p (o : option (list Z)) p' : Prop := policy cfg = FCFS ->
  scheduled_running_reqs p' = scheduled_running_reqs p /\ (fits -> scheduled_running_reqs p = [] -> o <> None).

Definition slots_or_none b0 s0 s p (x : string) (rest : list string) (o : option (list Z)) (idx' : Z) s' p' : Prop :=
  idx' = len (scheduled_running_reqs p') /\ len (scheduled_running_reqs p') <= len (scheduled_running_reqs p) /\
  fcfs_serves s p o p' /\ exists rest', (length rest' <= length rest)%nat /\
  match o with
  | Some _ => rinv b0 (scheduled_running_reqs p' ++ [x]) s0 s' p' /\ running s' = scheduled_running_reqs p' ++ x :: rest' /\
      reqs s' !! x = reqs s !! x
  | None => rinv b0 (scheduled_running_reqs p') s0 s' p' /\ running s' = scheduled_running_reqs p' ++ rest' /\
      len (running s') < max_seqs /\ x ∈ preempted_reqs p'
  end.

(** A request that is first and last runs alone, and is not short of blocks. *)
Lemma first_alone_served (ok : config_ok) b0 s0 s p x rest : rinv b0 (scheduled_running_reqs p) s0 s p ->
  running s = scheduled_running_reqs p ++ x :: rest -> scheduled_running_reqs p = [] -> last (running s) = Some x ->
  fits -> forall r, reqs s !! x = Some r -> (exists need, slots_needed kvc mm_features r (kv s) need /\
    short_of_blocks (bs := bs) (held := held) kvc r (kv s) need) -> False.
Proof.
  intros R Hrun Hnil Hlast Hfits r Hr (need & Hneed & Hshort). pose proof (r_inv _ _ _ _ _ R) as I.
  assert (x ∈ running s) as Hx by (rewrite Hrun; set_solver).
  assert (x ∉ scheduled_running_reqs p) as Hn by (rewrite Hnil; apply not_elem_of_nil).
  destruct (running_may_allocate b0 s0 s p x r R Hx Hn Hr) as [Hmay Hid].
  assert (running s = [x]) as Hone.
  { pose proof (i_nodup _ _ _ I) as Hnd. apply NoDup_app in Hnd as (Hnd & _). rewrite Hrun, Hnil in *. cbn in *.
    destruct rest as [|y rest]; [done|]. rewrite last_cons in Hlast. apply NoDup_cons in Hnd as [Hnd _].
    exfalso. apply Hnd, last_Some_elem_of. by destruct (last (y :: rest)) eqn:El; [injection Hlast as ->|apply last_None in El]. }
  apply (alone_not_short kvc mm_features (co_block ok) max_seqs r (kv s) need Hfits (i_kv _ _ _ I) Hmay); [| |done|done].
  - intros id Hne. destruct (held (coordinator (kv s)) id) eqn:Hh; [done|]. exfalso.
    assert (id ∈ running s) as Hin by (apply (i_held _ _ _ I); by rewrite Hh). rewrite Hone in Hin.
    apply list_elem_of_singleton in Hin. congruence.
  - intros Hc. by apply (held_bound ok _ _ _ _ I).
Qed.

(** The preemption loop ends: it takes one request out of [running] per turn, and the
    request at hand at the latest. *)
Lemma opt_allocate_or_preempt_ok (ok : config_ok) b0 s0 fuel x n : n <> 0 -> forall s p rest,
  rinv b0 (scheduled_running_reqs p) s0 s p -> running s = scheduled_running_reqs p ++ x :: rest ->
  (length (running s) <= fuel)%nat ->
  returns (allocate_or_preempt cfg kvc mm_features fuel x n (len (scheduled_running_reqs p)) (s, p))
    (fun '(o, idx', (s', p')) => slots_or_none b0 s0 s p x rest o idx' s' p').
Proof.
  intros Hn. induction fuel as [|fuel IH]; intros s p rest R Hrun Hf.
  { rewrite Hrun, length_app in Hf. cbn in Hf. lia. }
  pose proof (r_inv _ _ _ _ _ R) as I. pose proof (i_nodup _ _ _ I) as Hnd. apply NoDup_app in Hnd as (Hnd & _ & _).
  assert (x ∈ running s) as Hx by (rewrite Hrun; set_solver).
  assert (x ∉ scheduled_running_reqs p) as Hxn.
  { intros Hin. rewrite Hrun in Hnd. apply NoDup_app in Hnd as (_ & Hd & _). apply (Hd x Hin). by left. }
  destruct (i_running _ _ _ I x Hx) as (r & Hr & _).
  destruct (running_may_allocate b0 s0 s p x r R Hx Hxn Hr) as [Hmay Hid].
  destruct (kv_allocate_ok kvc mm_features (co_block ok) (co_mml ok) max_seqs r n (kv s) (co_pads ok) (i_kv _ _ _ I) Hmay Hn)
    as (o & k & Ha & Hg & F & Ho).
  cbn [allocate_or_preempt]. rewrite (opt_get_req_ok s x r) by done. cbn [mbind res_bind]. rewrite Ha.
  cbn [mbind res_bind]. destruct o as [b|].
  - cbn [returns]. split; [done|]. split; [done|]. split; [done|]. exists rest. split; [done|]. split; [|done]. destruct Ho as (Ho1 & Ho2 & Ho3).
    rewrite Hid in *. apply (rinv_sinv b0 (scheduled_running_reqs p) _ s0 s); try done. by eapply sinv_extended.
  - destruct Ho as [Hshort Ho]. pose proof (sinv_kv _ _ _ _ I Hg F Ho) as I'.
    assert (rinv b0 (scheduled_running_reqs p) s0 (set_kv k s) p) as R' by (by eapply rinv_sinv).
    eapply returns_bind; [by eapply (opt_pick_victim_ok b0 _ s0 (set_kv k s) p x rest)|].
    intros [[v idx'] [s' p']] (R2 & run & rest' & -> & Hp & -> & Hv & Hle & Hrest & Hiff & Hrun' & Hfcfs).
    assert (v ∈ running (set_kv k s)) as Hvr by (rewrite Hp; by left).
    destruct (i_running _ _ _ (r_inv _ _ _ _ _ R2) v Hvr) as (rv & Hrv & _).
    destruct (preempt_request_ok ok _ _ v rv run (r_inv _ _ _ _ _ R2) Hp Hrv) as (s3 & Hs3 & I3 & P3).
    rewrite (opt_get_req_ok _ v rv) by done. cbn [mbind res_bind]. rewrite Hs3. cbn [mbind res_bind].
    pose proof (rinv_preempt _ _ _ _ _ _ _ _ R2 Hp Hv I3 P3) as R3.
    assert (v ∉ run) as Hvrun by (cbn in Hp; rewrite Hp in Hnd; by apply NoDup_cons in Hnd as [? _]).
    assert (rinv b0 (scheduled_running_reqs p') s0 s3 (step_preempted (preempted_reqs p' ++ [v]) p')) as R4.
    { eapply rinv_sinv; [exact R3| |done..]. eapply sinv_scheduled; [exact I3|]. rewrite (pr_running _ _ _ _ P3).
      intros id Hin. apply Hiff. by intros ->. }
    assert (length (running s) = S (length run)) as Hlrun by (cbn in Hp; by rewrite Hp).
    case_decide as Hvx.
    + cbn [returns]. split; [done|]. split; [done|]. split.
      { intros Hpol. destruct (Hfcfs Hpol) as [-> Hlast]. split; [done|]. intros Hfits Hnil. exfalso.
        subst v. exact (first_alone_served ok b0 s0 s p x rest R Hrun Hnil Hlast Hfits r Hr Hshort). }
      exists rest'. split; [done|]. split; [exact R4|]. cbn.
      rewrite (pr_running _ _ _ _ P3). split; [done|]. pose proof (i_max _ _ _ I). unfold len in *.
      split; [lia|]. set_solver.
    + eapply returns_mono.
      { apply (IH s3 (step_preempted (preempted_reqs p' ++ [v]) p') rest' R4); cbn; rewrite (pr_running _ _ _ _ P3); [done|lia]. }
      intros [[o idx] [s4 p4]] (H1 & Hle4 & Hfc4 & rest4 & H2 & H3). split; [done|]. split; [cbn in Hle4; lia|]. split.
      { intros Hpol. destruct (Hfcfs Hpol) as [-> _]. by apply (Hfc4 Hpol). }
      exists rest4.
      split; [lia|]. destruct o; [|done]. destruct H3 as (H3 & H4 & H5). split; [done|]. split; [done|].
      rewrite H5, (pr_reqs _ _ _ _ P3); [done|]. by apply not_eq_sym.
Qed.

(** *** Scheduling the request at hand *)

Lemma block_table_returns (ok : config_ok) d s p x : sinv d [] s -> x ∈ running s -> enable_caching kvc = true ->
  exists t, update_block_table_dict x s p =
    Ok (step_tables (<[x := t]> (block_table_dict p)) (cached_block_table p) (cached_length p) p).
Proof.
  intros I Hx Hc. destruct (i_running _ _ _ I x Hx) as (r & Hr & Hok). pose proof (i_id _ _ _ I _ _ Hr) as Hid.
  pose proof (ro_held _ _ _ Hok) as Hne. rewrite Hid in Hne.
  destruct (kv_table_ok kvc max_seqs x (kv s) (i_kv _ _ _ I) Hc Hne (held_bound ok _ _ _ _ I Hc)) as [t Ht].
  exists t. unfold update_block_table_dict. by rewrite Ht.
Qed.

Lemma opt_commit_ok (ok : config_ok) b0 s0 s p x rest b : rinv b0 (scheduled_running_reqs p ++ [x]) s0 s p ->
  running s = scheduled_running_reqs p ++ x :: rest -> 1 <= token_budget p ->
  (exists r, reqs s !! x = Some r /\ num_tokens r = num_computed_tokens r + 1) ->
  exists p', commit_running kvc x 1 b (s, p) = Ok (s, p') /\
    scheduled_running_reqs p' = scheduled_running_reqs p ++ [x] /\ rinv b0 (scheduled_running_reqs p') s0 s p'.
Proof.
  intros R Hrun Hb Hx1. pose proof (r_inv _ _ _ _ _ R) as I. assert (x ∈ running s) as Hx by (rewrite Hrun; set_solver).
  assert (x ∉ scheduled_running_reqs p) as Hxn.
  { pose proof (i_nodup _ _ _ I) as Hnd. apply NoDup_app in Hnd as (Hnd & _). rewrite Hrun in Hnd.
    apply NoDup_app in Hnd as (_ & Hd & _). intros Hin. apply (Hd x Hin). by left. }
  set (commit p := let p := step_running (scheduled_running_reqs p ++ [x]) p in
    step_tokens (<[x := b]> (req_to_new_blocks p)) (od_set x 1 (num_scheduled_tokens p)) (token_budget p - 1) p).
  assert (exists p1, commit_running kvc x 1 b (s, p) = Ok (s, commit p1) /\ (p1 = p \/
    exists t, p1 = step_tables (<[x := t]> (block_table_dict p)) (cached_block_table p) (cached_length p) p))
    as (p1 & -> & Hp1).
  { unfold commit_running. destruct (enable_caching kvc) eqn:Hc.
    - destruct (block_table_returns ok _ s p x I Hx Hc) as [t ->]. cbn [mbind res_bind]. eexists. split; [reflexivity|].
      right. by exists t.
    - cbn [mbind res_bind]. exists p. split; [done|by left]. }
  assert (rinv b0 (scheduled_running_reqs p ++ [x]) s0 s (commit p)) as R'.
  { destruct R. split; cbn -[od_set]; try done.
    - eapply pinv_add; try done. solve_Permutation.
    - intros id n. rewrite od_get_set. case_decide; [by intros [= <-]|]. apply r_ones0.
    - intros id [Hid|Hid]%elem_of_app; [by apply r_lacks0|]. apply list_elem_of_singleton in Hid. by subst.
    - rewrite len_app, len_cons. change (len (@nil string)) with 0. lia. }
  exists (commit p1). split; [done|]. destruct Hp1 as [->|[t ->]]; (split; [done|]); [exact R'|].
  destruct R'. by split.
Qed.

(** How the loop ends: every running request is scheduled, or the budget is used up, or the
    request that was to be scheduled has preempted itself. *)
Definition loop_end b0 s' p' : Prop := exists rest, running s' = scheduled_running_reqs p' ++ rest /\
  (rest = [] \/ b0 <= len (scheduled_running_reqs p') \/ (len (running s') < max_seqs /\ preempted_reqs p' <> [])).

Lemma opt_running_loop_ok (ok : config_ok) b0 s0 fuel : forall s p rest,
  rinv b0 (scheduled_running_reqs p) s0 s p -> running s = scheduled_running_reqs p ++ rest ->
  (length rest <= fuel)%nat ->
  returns (running_loop cfg kvc mm_features fuel (len (scheduled_running_reqs p)) (s, p))
    (fun '(s', p') => rinv b0 (scheduled_running_reqs p') s0 s' p' /\ loop_end b0 s' p' /\
       (policy cfg = FCFS -> scheduled_running_reqs p <> [] \/ (fits /\ 0 < b0) ->
        forall y, head (running s) = Some y -> head (scheduled_running_reqs p') = Some y)).
Proof.
  induction fuel as [|fuel IH]; intros s p rest R Hrun Hf; cbn [running_loop].
  all: rewrite Hrun, len_app; destruct (Z.ltb_spec (len (scheduled_running_reqs p)) (len (scheduled_running_reqs p) + len rest)) as [Hl|Hl];
    [|assert (rest = []) as -> by (destruct rest as [|y rest]; [done|]; rewrite len_cons in Hl; pose proof (len_nonneg rest); lia);
      cbn [andb returns]; split; [done|]; split; [exists []; split; [done|by left]|]; intros _ _; by rewrite app_nil_r].
  all: destruct (Z.ltb_spec 0 (token_budget p)) as [Hb|Hb]; cbn [andb];
    [|pose proof (r_budget _ _ _ _ _ R); cbn [returns]; split; [done|]; split; [exists rest; split; [done|]; right; left; lia|];
      destruct (scheduled_running_reqs p); [intros _ [?|(_ & ?)]; [done|]; change (len (@nil string)) with 0 in *; lia|done]].
  { destruct rest; [by rewrite Z.add_0_r in Hl; lia|cbn in Hf; lia]. }
  destruct rest as [|x rest]; [change (len (@nil string)) with 0 in Hl; lia|].
  assert (x ∈ running s) as Hx by (rewrite Hrun; set_solver).
  pose proof (r_inv _ _ _ _ _ R) as I. destruct (i_running _ _ _ I x Hx) as (r & Hr & Hok).
  pose proof (i_id _ _ _ I _ _ Hr) as Hid.
  assert (x ∉ scheduled_running_reqs p) as Hxn.
  { pose proof (i_nodup _ _ _ I) as Hnd. apply NoDup_app in Hnd as (Hnd & _). rewrite Hrun in Hnd.
    apply NoDup_app in Hnd as (_ & Hd & _). intros Hin. apply (Hd x Hin). by left. }
  destruct (ro_decode _ _ _ Hok) as (Hn1 & Hn2 & Hn3); [by rewrite Hid|].
  rewrite py_nth_middle by done. cbn [of_option mbind res_bind]. rewrite (opt_get_req_ok s x r) by done.
  cbn [mbind res_bind]. replace (Z.min (Z.min 1 (token_budget p)) (mml - 1 - num_computed_tokens r)) with 1 by lia.
  change (1 =? 0) with false. cbn match.
  rewrite <- Hrun. eapply returns_bind.
  { by apply (opt_allocate_or_preempt_ok ok b0 s0 (length (running s)) x 1 ltac:(done) s p rest R Hrun). }
  intros [[o idx'] [s1 p1]] (-> & Hle & Hfc & rest1 & Hlen1 & Ho). destruct o as [b|].
  - destruct Ho as (R1 & Hrun1 & Hr1).
    assert (1 <= token_budget p1) as Hb1 by (pose proof (r_budget _ _ _ _ _ R); pose proof (r_budget _ _ _ _ _ R1); lia).
    destruct (opt_commit_ok ok b0 s0 s1 p1 x rest1 b R1 Hrun1 Hb1 ltac:(rewrite Hr1; eauto)) as (p2 & Hc & Hs2 & R2).
    rewrite Hc. cbn [mbind res_bind]. replace (len (scheduled_running_reqs p1) + 1) with (len (scheduled_running_reqs p2))
      by (rewrite Hs2, len_app; done).
    eapply returns_mono; [apply (IH s1 p2 rest1 R2); [by rewrite Hs2, <- app_assoc|cbn in Hf; lia]|].
    intros [s' p'] (R' & L' & Hserved). split; [done|]. split; [done|]. intros Hpol _ y Hy. destruct (Hfc Hpol) as [Hsame _].
    apply Hserved; [done|left; rewrite Hs2; by destruct (scheduled_running_reqs p1)|].
    rewrite Hrun1, Hsame. rewrite Hrun in Hy. by destruct (scheduled_running_reqs p).
  - destruct Ho as (R1 & Hrun1 & Hm & Hin). cbn [returns]. split; [done|]. split.
    + exists rest1. split; [done|]. right. right.
      split; [done|]. by intros Heq; rewrite Heq in Hin; apply not_elem_of_nil in Hin.
    + intros Hpol Hcase y Hy. destruct (Hfc Hpol) as [-> Hno]. rewrite Hrun in Hy.
      destruct (scheduled_running_reqs p); [|done]. destruct Hcase as [?|[Hfits _]]; [done|]. by destruct (Hno Hfits eq_refl).
Qed.
End sched.
End OptimumInv.
