(* ===== verification/OptimumSchedulerSpec.v ===== *)
(** * The scheduler of the models compiled ahead of time: what it guarantees

    The loop over the waiting requests, the output, and the theorems: a step is one prefill
    or a decode batch; every running request keeps a cache slot of its own for as long as it
    runs; no request is lost; and the step never raises.  A toy instance at the end runs
    them. *)

From S2P Require Import Prelude VllmTypes BlockMapping Eviction PrefixCache PrefixCacheSpec RblnScheduler RblnSchedulerInv OptimumKv OptimumKvSpec OptimumKvUse OptimumScheduler OptimumSchedulerInv.
Import Optimum OptimumInv.

Module OptimumSpec.

Section sched.
Context {E P X : Type} `{C : Coordinator E} `{Policy : EvictionPolicy P} `{B : Base E X}.
Context {tracks : P -> gset Z -> Prop} `{Laws : !EvictionPolicyLaws P tracks}.
Context {bs : Z} {held : E -> string -> list Z} `{CL : !CoordinatorLaws E bs held} `{BL : !BaseLaws E X held}.
Variable cfg : Config.
Variable kvc : KvConfig.
Variable mm_features : Request -> list MmFeature.

Abbreviation Scheduler := (Scheduler (E := E) (P := P) (X := X)).
Abbreviation mml := (kv_max_model_len kvc).
Abbreviation max_seqs := (max_num_running_reqs cfg).
Abbreviation sinv := (sinv (tracks := tracks) (bs := bs) (held := held) cfg kvc).
Abbreviation good := (kv_good (tracks := tracks) (bs := bs) (held := held) kvc max_seqs).
Abbreviation config_ok := (config_ok (bs := bs) cfg kvc mm_features).
Abbreviation fits := (pool_fits_one (bs := bs) (held := held) kvc).
Implicit Types (s : Scheduler) (p : Step) (d run extra : list string).

(** ** The waiting requests *)

Lemma pop_queued (skipped : bool) s id : head (if skipped then skipped_waiting s else waiting s) = Some id ->
  queued s ≡ₚ id :: queued (pop_selected skipped s).
Proof.
  unfold queued, pop_selected. destruct skipped; cbn.
  - destruct (skipped_waiting s) as [|y l]; [done|]. cbn. intros [= <-]. by rewrite <- Permutation_middle.
  - destruct (waiting s) as [|y l]; [done|]. cbn. by intros [= <-].
Qed.

Lemma sinv_queues d extra extra' s s' : sinv d extra s -> reqs s' = reqs s -> running s' = running s ->
  cache_slot_ids s' = cache_slot_ids s -> kv s' = kv s -> queued s' ++ extra' ≡ₚ queued s ++ extra -> sinv d extra' s'.
Proof.
  intros [] Hr Hrun Hs Hk Hq. split; rewrite ?Hr, ?Hrun, ?Hs, ?Hk; try done.
  - by rewrite Hq.
  - intros id. rewrite Hq. apply i_waiting0.
Qed.

Lemma sinv_env d extra s x : sinv d extra s -> sinv d extra (set_env x s).
Proof. intros I. by eapply sinv_queues. Qed.

(** A waiting request is replaced. *)
Lemma sinv_put d extra s r : sinv d extra s -> request_id r ∈ queued s ++ extra -> waiting_ok mml r ->
  sinv d extra (put_req r s).
Proof.
  intros I Hin Hr. destruct I. split; cbn; try done.
  - intros id r0. destruct (decide (id = request_id r)) as [->|Hne].
    + rewrite lookup_insert_eq. by intros [= <-].
    + rewrite lookup_insert_ne by done. apply i_id0.
  - intros id Hid. rewrite lookup_insert_ne; [by apply i_running0|]. intros <-.
    apply NoDup_app in i_nodup0 as (_ & Hd & _). by apply (Hd (request_id r)).
  - intros id Hid. destruct (decide (id = request_id r)) as [->|Hne].
    + rewrite lookup_insert_eq. eauto.
    + rewrite lookup_insert_ne by done. by apply i_waiting0.
Qed.

(** The loop before a request is admitted: requests only change places in the queues. *)
Record winv s0 extra s : Prop := {
  w_inv : sinv [] extra s;
  w_running : running s = running s0;
  w_slots : cache_slot_ids s = cache_slot_ids s0;
  w_perm : queued s ++ extra ≡ₚ queued s0;
  w_kept : kept s0 s
}.

(** The loop has admitted [id], with its whole prompt and the lowest free slot. *)
Record admitted (b0 : Z) (id : string) s0 extra s p : Prop := {
  a_inv : sinv [id] extra s;
  a_running : running s = running s0 ++ [id];
  a_perm : id :: queued s ++ extra ≡ₚ queued s0;
  a_kept : kept s0 s;
  a_slot : exists i, cache_slot_ids s = <[id := i]> (cache_slot_ids s0) /\
    (forall id', cache_slot_ids s0 !! id' <> Some i) /\
    forall j, 0 <= j < i -> exists id', cache_slot_ids s0 !! id' = Some j;
  a_tokens : exists r, reqs s !! id = Some r /\ num_computed_tokens r = 0 /\ 0 < num_tokens r <= mml /\
    num_scheduled_tokens p = [(id, num_tokens r)] /\ token_budget p = b0 - num_tokens r;
  a_lists : scheduled_new_reqs p ++ scheduled_resumed_reqs p = [id] /\ scheduled_running_reqs p = [] /\
    preempted_reqs p = [];
  a_blocks : is_Some (req_to_new_blocks p !! id)
}.

(** *** The prefix hits of the admitted request *)

Lemma good_coordinator k e : good k -> (forall r, held e r = held (coordinator k) r) -> good (set_coordinator e k).
Proof.
  intros [Hi Hp Ht] He. split; [|done..]. intros Hc. destruct (Hi Hc) as (pm & Hpm & Hs). exists pm. split; [done|].
  by apply (in_step_env (coordinator k)).
Qed.

(** What the lookup makes of the request. *)
Definition looked_up (r r' : Request) : Prop :=
  same_tokens r r' /\ status r' = status r /\ num_computed_tokens r' = num_computed_tokens r /\
  lora_int_id r' = lora_int_id r /\ (prefill_stats r' <> None -> prefill_stats r <> None).

Definition prefix_tables (r : Request) (blocks : list Z) s p : res (Scheduler * Step) :=
  if enable_caching kvc then
    '(table, lengths, k) ← get_prefix_cached_blocks r blocks (kv s);
    let s := set_kv k s in
    p ← update_block_table_dict (request_id r) s (step_tables (block_table_dict p) table lengths p);
    Ok (s, p)
  else Ok (s, p).

Lemma prefix_tables_ok (ok : config_ok) r bl s p : good (kv s) -> 0 < num_tokens r -> cached_length p = [] ->
  held (coordinator (kv s)) (request_id r) <> [] ->
  (enable_caching kvc = true -> len (held (coordinator (kv s)) (request_id r)) <= cdiv mml bs) ->
  (forall i, i ∈ bl -> i ∉ held (coordinator (kv s)) (request_id r)) -> len bl * bs < num_tokens r ->
  exists k t b l, prefix_tables r bl s p = Ok (set_kv k s, step_tables t b l p) /\
    good k /\ frame (kv s) k /\ (forall id, held (coordinator k) id = held (coordinator (kv s)) id) /\
    sumZ l < num_tokens r.
Proof.
  intros Hg Hr Hl Hne Hlen Hfresh Hhit. unfold prefix_tables. destruct (enable_caching kvc) eqn:Hc.
  - destruct (get_prefix_cached_blocks_ok kvc (co_block _ _ _ ok) r bl (kv s) (kg_inv _ _ _ Hg) Hc Hne Hfresh)
      as (bt & ls & pol & k & Hk & Hi & Hs & pm & Hpm & ->).
    rewrite Hk. cbn [mbind res_bind].
    assert (frame (kv s) (set_prefix (set_policy pol pm) (kv s))) as F.
    { split; [done|]. intros pm' [= <-]. by exists pm. }
    assert (good (set_prefix (set_policy pol pm) (kv s))) as Hg'.
    { split; [exact Hi|apply (kg_pads _ _ _ Hg)|by eapply frame_tables; [|apply (kg_tables _ _ _ Hg)]]. }
    destruct (kv_table_ok kvc max_seqs (request_id r) _ Hg' Hc Hne (Hlen eq_refl)) as [t Ht].
    unfold update_block_table_dict. cbn [kv set_kv]. rewrite Ht. cbn [mbind res_bind].
    eexists _, _, _, ls. split; [reflexivity|]. split; [exact Hg'|]. split; [done|]. split; [done|]. lia.
  - exists (kv s), (block_table_dict p), (cached_block_table p), []. split; [rewrite <- Hl; by destruct s, p|].
    split; [done|]. split; [apply frame_refl|]. done.
Qed.

Lemma look_up_prefix_ok (ok : config_ok) r s p : good (kv s) -> waiting_ok mml r -> cached_length p = [] ->
  held (coordinator (kv s)) (request_id r) <> [] ->
  (enable_caching kvc = true -> len (held (coordinator (kv s)) (request_id r)) <= cdiv mml bs) ->
  exists r' k t b l, look_up_prefix kvc r (s, p) = Ok (r', (put_req r' (set_kv k s), step_tables t b l p)) /\
    looked_up r r' /\ good k /\ frame (kv s) k /\ forall id, held (coordinator k) id = held (coordinator (kv s)) id.
Proof.
  intros Hg Hr Hl Hne Hlen. pose proof (proj1 (wo_tokens _ _ Hr)) as Hpos. unfold look_up_prefix.
  destruct (get_computed_blocks r (coordinator (kv s))) as [[[bl nl] bd] e] eqn:Hcb.
  destruct (law_hits _ _ _ _ _ _ Hcb Hpos) as (Hfresh & Hhit & He).
  set (s1 := set_kv (set_coordinator e (kv s)) s). set (r1 := with_shared_prefix_boundary bd r).
  destruct (prefix_tables_ok ok r1 bl s1 p) as (k & t & b & l & Hstep & Hgk & Fk & Hek & Hsum);
    [by apply good_coordinator|done|done|by cbn; rewrite He|cbn; rewrite He; exact Hlen|
     intros i Hi; cbn; rewrite He; by apply Hfresh|done|].
  assert (frame (kv s) k /\ forall id, held (coordinator k) id = held (coordinator (kv s)) id) as [F Hheld].
  { split; [eapply frame_trans; [|exact Fk]; by split; [|intros pm Hpm; exists pm]|]. intros id. rewrite Hek. apply He. }
  fold (prefix_tables r1 bl s1 p). cbv zeta. rewrite Hstep. cbn [mbind res_bind].
  destruct (prefill_stats r1) as [st|] eqn:Hst.
  - rewrite (proj2 (Z.leb_le _ _)).
    2:{ pose proof (wo_stats _ _ Hr) as Hps. cbn in Hst. rewrite Hst in Hps. specialize (Hps ltac:(done)).
        change (num_prompt_tokens r1) with (num_prompt_tokens r). change (num_tokens r1) with (num_tokens r) in Hsum.
        cbn [cached_length step_tables]. lia. }
    cbn [require mbind res_bind]. eexists _, k, t, b, l. split; [reflexivity|]. split; [|done].
    do 4 (split; [done|]). cbn in Hst. by rewrite Hst.
  - by exists r1, k, t, b, l.
Qed.

(** *** The admitted request runs *)

(** A request moves from the queues to the running ones, with blocks for all its tokens. *)
Lemma joined_sinv extra s s' id r i k : sinv [] extra s ->
  reqs s' = <[id := r]> (reqs s) -> running s' = running s ++ [id] -> queued s ≡ₚ id :: queued s' ->
  cache_slot_ids s' = <[id := i]> (cache_slot_ids s) -> kv s' = k ->
  request_id r = id -> status r = RUNNING -> 0 < num_tokens r <= mml -> 0 <= num_prompt_tokens r ->
  (prefill_stats r <> None -> num_tokens r = num_prompt_tokens r) ->
  len (running s) < max_seqs -> 0 <= i < max_seqs -> (forall id', cache_slot_ids s !! id' <> Some i) ->
  good k -> frame (kv s) k -> held (coordinator k) id <> [] ->
  (enable_caching kvc = true -> len (held (coordinator k) id) = cdiv (num_tokens r) bs) ->
  (forall id', id' <> id -> held (coordinator k) id' = held (coordinator (kv s)) id') -> sinv [id] extra s'.
Proof.
  intros [Hnd Hid Hrun Hw Hh Hs Hm Hk Hdm] Eq Er Ew Ec Ek Hr Hst Htok Hp Hps Hlt Hi Hfree Hg [Hb _] Hne Hlen He.
  assert (NoDup (id :: running s ++ queued s' ++ extra)) as Hnd' by (rewrite Ew in Hnd; rewrite Permutation_middle; exact Hnd).
  pose proof Hnd' as [Hidn _]%NoDup_cons.
  assert (forall y, y ∈ running s \/ y ∈ queued s' ++ extra -> id <> y) as Hny by (intros y Hy ->; set_solver).
  split; rewrite ?Eq, ?Er, ?Ec, ?Ek; try done.
  - rewrite <- app_assoc. cbn. by rewrite <- Permutation_middle.
  - intros y r0. destruct (decide (y = id)) as [->|Hne']; [rewrite lookup_insert_eq; by intros [= <-]|].
    rewrite lookup_insert_ne by done. apply Hid.
  - intros y. rewrite elem_of_app, list_elem_of_singleton. intros [Hy| ->].
    + rewrite lookup_insert_ne by (apply Hny; by left). destruct (Hrun y Hy) as (r0 & Hr0 & Hok). exists r0.
      split; [done|]. assert (request_id r0 <> id) by (rewrite (Hid _ _ Hr0); apply not_eq_sym, Hny; by left).
      apply (running_ok_ext kvc [] [id] (coordinator (kv s))); [set_solver|by apply He|done].
    + rewrite lookup_insert_eq. exists r. split; [done|]. split; rewrite ?Hr; try done.
      * intros Hn. set_solver.
      * intros Hc. rewrite decide_True by set_solver. by apply Hlen.
  - intros y Hy. rewrite lookup_insert_ne by (apply Hny; by right). apply Hw. rewrite Ew. set_solver.
  - intros y. rewrite elem_of_app, list_elem_of_singleton. destruct (decide (y = id)) as [->|Hne']; [by right|].
    rewrite He by done. left. by apply Hh.
  - apply slots_insert; [done|set_solver|done|done].
  - rewrite len_app, len_cons. change (len (@nil string)) with 0. lia.
  - by rewrite Hb.
Qed.

(** A step that has scheduled nothing yet. *)
Record fresh_step b0 p : Prop := {
  f_lists : scheduled_new_reqs p = [] /\ scheduled_resumed_reqs p = [] /\ scheduled_running_reqs p = [] /\
    preempted_reqs p = [];
  f_tokens : num_scheduled_tokens p = [] /\ token_budget p = b0
}.

Lemma opt_admit_waiting_ok b0 s p skipped r n : fresh_step b0 p -> status r = WAITING \/ status r = PREEMPTED ->
  slots_ok max_seqs (running s) (cache_slot_ids s) -> NoDup (running s) -> (request_id r ∉ running s) ->
  len (running s) < max_seqs ->
  exists i s' p', admit_waiting cfg mm_features skipped r n (s, p) = Ok (s', p') /\
    0 <= i < max_seqs /\ (forall id', cache_slot_ids s !! id' <> Some i) /\
    (forall j, 0 <= j < i -> exists id', cache_slot_ids s !! id' = Some j) /\
    reqs s' = <[request_id r := with_num_computed_tokens 0 (with_status RUNNING r)]> (reqs s) /\
    running s' = running s ++ [request_id r] /\ waiting s' = waiting (pop_selected skipped s) /\
    skipped_waiting s' = skipped_waiting (pop_selected skipped s) /\
    cache_slot_ids s' = <[request_id r := i]> (cache_slot_ids s) /\ kv s' = kv s /\
    scheduled_new_reqs p' ++ scheduled_resumed_reqs p' = [request_id r] /\ scheduled_running_reqs p' = [] /\
    preempted_reqs p' = [] /\ num_scheduled_tokens p' = [(request_id r, n)] /\ token_budget p' = b0 - n /\
    is_Some (req_to_new_blocks p' !! request_id r).
Proof.
  intros [(Hl1 & Hl2 & Hl3 & Hl4) (Hnst & Hb)] Hst Hs Hnd Hn Hlt.
  destruct (lowest_free_slot_ok cfg (running s) (cache_slot_ids s) Hs Hnd Hlt) as (i & Hi & Hir & Hfree & Hmin).
  unfold admit_waiting. cbn [running set_running pop_selected].
  assert (cache_slot_ids (set_running (running (pop_selected skipped s) ++ [request_id r]) (pop_selected skipped s)) = cache_slot_ids s
    /\ running (pop_selected skipped s) = running s /\ reqs (pop_selected skipped s) = reqs s /\
    kv (pop_selected skipped s) = kv s) as (-> & Hr & Hq & Hk) by (by destruct skipped).
  rewrite Hi. cbn [mbind res_bind].
  set (p1 := if decide (status r = WAITING) then step_admitted (scheduled_new_reqs p ++ [request_id r]) (scheduled_resumed_reqs p) p
             else step_admitted (scheduled_new_reqs p) (scheduled_resumed_reqs p ++ [request_id r]) p).
  assert (match status r with
      | WAITING => Ok (step_admitted (scheduled_new_reqs p ++ [request_id r]) (scheduled_resumed_reqs p) p)
      | PREEMPTED => Ok (step_admitted (scheduled_new_reqs p) (scheduled_resumed_reqs p ++ [request_id r]) p)
      | _ => Raise RuntimeError
      end = Ok p1) as -> by (unfold p1; by destruct Hst as [Hst|Hst]; rewrite Hst).
  cbn [mbind res_bind]. set (p2 := match max_loras cfg with Some _ => _ | None => p1 end).
  assert (scheduled_new_reqs p2 ++ scheduled_resumed_reqs p2 = [request_id r] /\ scheduled_running_reqs p2 = [] /\
    preempted_reqs p2 = [] /\ num_scheduled_tokens p2 = [] /\ token_budget p2 = b0) as (Hp1 & Hp2 & Hp3 & Hp4 & Hp5).
  { assert (scheduled_new_reqs p1 ++ scheduled_resumed_reqs p1 = [request_id r] /\ scheduled_running_reqs p1 = [] /\
      preempted_reqs p1 = [] /\ num_scheduled_tokens p1 = [] /\ token_budget p1 = b0) as Hp
      by (unfold p1; case_decide; cbn; rewrite Hl1, Hl2; done).
    unfold p2. destruct (max_loras cfg), (lora_int_id r); exact Hp. }
  exists i. eexists _, _. split; [reflexivity|]. split; [done|]. split; [done|]. split; [done|].
  destruct (has_ec_connector cfg && _); cbn -[pop_selected od_set]; rewrite Hr, Hq, Hk, Hp4, Hp5; cbn;
    (do 5 (split; [done|])); (do 4 (split; [done|])); (split; [done|]); rewrite lookup_insert_eq; by eexists.
Qed.

(** *** One turn of the loop *)

Lemma winv_skip s0 extra s skipped id : winv s0 extra s ->
  head (if skipped : bool then skipped_waiting s else waiting s) = Some id ->
  winv s0 (queue_prepend (reqs s) id extra) (pop_selected skipped s) /\
  length (queued s) = S (length (queued (pop_selected skipped s))).
Proof.
  intros [I Hr Hs Hp Hk] Hh. pose proof (pop_queued skipped s id Hh) as Hq.
  assert (queued (pop_selected skipped s) ++ queue_prepend (reqs s) id extra ≡ₚ queued s ++ extra) as Hperm.
  { rewrite (base_prepend _ id extra), Hq. cbn. by rewrite <- Permutation_middle. }
  split; [|by rewrite Hq]. assert (running (pop_selected skipped s) = running s /\ reqs (pop_selected skipped s) = reqs s /\
    cache_slot_ids (pop_selected skipped s) = cache_slot_ids s /\ kv (pop_selected skipped s) = kv s)
    as (H1 & H2 & H3 & H4) by (by destruct skipped).
  split; [by eapply sinv_queues|congruence|congruence|by rewrite Hperm|].
  intros y r Hy. rewrite H2. by apply Hk.
Qed.

Lemma opt_winv_put s0 extra s r r' x : winv s0 extra s -> reqs s !! request_id r = Some r ->
  request_id r ∈ queued s ++ extra -> same_tokens r r' -> waiting_ok mml r' ->
  winv s0 extra (set_env x (put_req r' s)).
Proof.
  intros [I Hr Hs Hp Hk] Hrq Hin Hsame Hok. split; try done.
  - apply sinv_env, sinv_put; [done|by rewrite (proj1 Hsame)|done].
  - eapply kept_trans; [exact Hk|]. by apply (kept_put s r r').
Qed.

(** The request that was selected may be blocked, and may be promoted. *)
Lemma opt_waiting_gate_ok s0 extra s id r : winv s0 extra s -> id ∈ queued s -> reqs s !! id = Some r ->
  exists go r' s', (if is_blocked_waiting_status (status r) then
      let '(promoted, r, x) := try_promote_blocked r (env s) in (promoted, r, set_env x (put_req r s))
    else (true, r, s)) = (go, r', s') /\ winv s0 extra s' /\ reqs s' !! id = Some r' /\ waiting_ok mml r' /\
    waiting s' = waiting s /\ skipped_waiting s' = skipped_waiting s /\
    (go = true -> status r' = WAITING \/ status r' = PREEMPTED).
Proof.
  intros W Hin Hr. pose proof (w_inv _ _ _ W) as I. pose proof (i_id _ _ _ _ _ I _ _ Hr) as Hid.
  destruct (i_waiting _ _ _ _ _ I id) as (r0 & Hr0 & Hok); [set_solver|]. rewrite Hr in Hr0. injection Hr0 as <-.
  destruct (is_blocked_waiting_status (status r)) eqn:Hb.
  - destruct (try_promote_blocked r (env s)) as [[go r'] x] eqn:Ep.
    destruct (base_promote mml _ _ _ _ _ Ep Hok) as ((H1 & H2 & H3 & _) & Hok' & Hgo).
    eexists go, r', _. split; [reflexivity|]. split.
    { apply (opt_winv_put s0 extra s r); [done|by rewrite Hid|rewrite Hid; set_solver|done|done]. }
    split; [cbn; by rewrite H1, Hid, lookup_insert_eq|]. done.
  - exists true, r, s. split; [done|]. split; [done|]. split; [done|]. split; [done|]. split; [done|]. split; [done|].
    intros _. apply base_blocked; [done|apply Hok].
Qed.

(** Slots, prefix hits and admission of the request at the head of its queue. *)
Definition admit_turn (skipped : bool) extra (r : Request) s p : res (flow * Z) :=
  let n := num_tokens r in
  '(new_blocks, k) ← allocate_slots kvc mm_features r n (kv s);
  let s := set_kv k s in
  match new_blocks with
  | None => Ok (Break extra (s, p), 0)
  | Some _ =>
      '(r, st) ← look_up_prefix kvc r (s, p);
      st ← admit_waiting cfg mm_features skipped r n st;
      Ok (Continue extra st, 1)
  end.

(** What a turn makes of the state. *)
Definition turned (b0 : Z) s0 s p (f : flow) (idx : Z) : Prop :=
  match f with
  | Continue extra (s', p') => length (queued s) = S (length (queued s')) /\
      ((idx = 0 /\ p' = p /\ winv s0 extra s') \/ (idx = 1 /\ exists id, admitted b0 id s0 extra s' p'))
  | Break extra (s', p') => idx = 0 /\ p' = p /\ winv s0 extra s'
  end.

Lemma admit_turn_ok (ok : config_ok) b0 s0 extra s p skipped r : fresh_step b0 p -> cached_length p = [] -> winv s0 extra s ->
  head (if skipped : bool then skipped_waiting s else waiting s) = Some (request_id r) ->
  reqs s !! request_id r = Some r -> waiting_ok mml r -> status r = WAITING \/ status r = PREEMPTED ->
  len (running s) < max_seqs ->
  returns (admit_turn skipped extra r s p) (fun '(f, idx) => turned b0 s0 s p f idx).
Proof.
  intros Hf Hcl W Hh Hr Hok Hst Hlt. set (id := request_id r) in *. pose proof (w_inv _ _ _ W) as I.
  pose proof (pop_queued skipped s id Hh) as Hq. assert (id ∈ queued s) as Hin by (rewrite Hq; by left).
  assert ((id ∉ running s) /\ NoDup (running s)) as [Hnr Hnd].
  { pose proof (i_nodup _ _ _ _ _ I) as Hnd. apply NoDup_app in Hnd as (Hnd & Hd & _). split; [|done].
    intros Hrun. apply (Hd id Hrun). set_solver. }
  assert (may_allocate (bs := bs) (held := held) kvc (coordinator (kv s)) r) as Hmay.
  { split; [apply Hok|]. left. split; [|apply Hok]. apply (waiting_holds_nothing _ _ _ _ _ _ I). set_solver. }
  pose proof (wo_tokens _ _ Hok) as Htok.
  destruct (kv_allocate_ok kvc mm_features (co_block _ _ _ ok) (co_mml _ _ _ ok) max_seqs r (num_tokens r) (kv s)
    (co_pads _ _ _ ok) (i_kv _ _ _ _ _ I) Hmay ltac:(lia)) as (o & k & Ha & Hg & F & Ho).
  unfold admit_turn. rewrite Ha. cbn [mbind res_bind]. destruct o as [b|].
  2:{ destruct Ho as [_ Ho]. cbn [returns turned]. split; [done|]. split; [done|]. destruct W. split; try done. by apply sinv_kv. }
  destruct Ho as (Hne & Hlen & Hoth). rewrite Z.min_l in Hlen by lia.
  destruct (look_up_prefix_ok ok r (set_kv k s) p Hg Hok Hcl Hne) as (r1 & k1 & t & bt & l & Hl & Hlk & Hg1 & F1 & He1).
  { intros Hc. cbn. rewrite (Hlen Hc). apply cdiv_mono; [apply ok|lia]. }
  rewrite Hl. cbn [mbind res_bind]. destruct Hlk as ((Hid1 & Htk1 & Hnp1) & Hst1 & Hc1 & Hlo1 & Hps1).
  assert (num_tokens r1 = num_tokens r) as Hnt1 by (unfold num_tokens; by rewrite Htk1).
  set (s1 := put_req r1 (set_kv k1 (set_kv k s))).
  assert (fresh_step b0 (step_tables t bt l p)) as Hf' by (by destruct Hf).
  destruct (opt_admit_waiting_ok b0 s1 (step_tables t bt l p) skipped r1 (num_tokens r) Hf')
    as (i & s2 & p2 & Hadm & Hi & Hfree & Hmin & Hreqs & Hrun & Hw2 & Hk2 & Hslots & Hkv & Hlists & Hrl & Hpl & Hnst & Hbud & Hbl);
    [by rewrite Hst1|apply I|done|by rewrite Hid1|done|].
  rewrite Hadm. cbn [mbind res_bind returns turned]. rewrite Hid1 in *. fold id in Hreqs, Hrun, Hslots, Hlists, Hnst, Hbl.
  set (r2 := with_num_computed_tokens 0 (with_status RUNNING r1)) in *.
  assert (reqs s2 = <[id := r2]> (reqs s)) as Hreqs2.
  { rewrite Hreqs. cbn. rewrite Hid1. apply insert_insert_eq. }
  assert (queued s2 = queued (pop_selected skipped s)) as Hq2 by (unfold queued; rewrite Hw2, Hk2; by destruct skipped).
  assert (held (coordinator k1) id = held (coordinator k) id) as Hh1 by apply He1.
  split; [by rewrite Hq2, Hq|]. right. split; [done|]. exists id. split.
  - apply (joined_sinv extra s s2 id r2 i k1); try done.
    + by rewrite Hq2.
    + change (num_tokens r2) with (num_tokens r1). by rewrite Hnt1.
    + change (num_prompt_tokens r2) with (num_prompt_tokens r1). rewrite Hnp1. apply Hok.
    + intros Hps. change (num_tokens r2) with (num_tokens r1). change (num_prompt_tokens r2) with (num_prompt_tokens r1).
      rewrite Hnt1, Hnp1. by apply Hok, Hps1.
    + exact (frame_trans _ _ _ F F1).
    + by rewrite Hh1.
    + intros Hc. rewrite Hh1. unfold id. rewrite (Hlen Hc). change (num_tokens r2) with (num_tokens r1). by rewrite Hnt1.
    + intros y Hy. rewrite He1. by apply Hoth.
  - rewrite Hrun. cbn. by rewrite (w_running _ _ _ W).
  - rewrite Hq2, <- (w_perm _ _ _ W), Hq. done.
  - eapply kept_trans; [apply W|]. intros y r0 Hy. rewrite Hreqs2. destruct (decide (y = id)) as [->|Hyn].
    + rewrite lookup_insert_eq. exists r2. split; [done|]. rewrite Hr in Hy. by injection Hy as <-.
    + rewrite lookup_insert_ne by done. by exists r0.
  - exists i. rewrite Hslots. cbn. rewrite <- (w_slots _ _ _ W). done.
  - exists r2. rewrite Hreqs2, lookup_insert_eq. change (num_tokens r2) with (num_tokens r1). rewrite Hnt1. done.
  - done.
  - done.
Qed.

Lemma head_some (skipped : bool) s : queued s <> [] -> select_skipped (reqs s) (waiting s) (skipped_waiting s) = skipped ->
  exists id, head (if skipped then skipped_waiting s else waiting s) = Some id /\ id ∈ queued s.
Proof.
  intros Hq Hs. assert (waiting s <> [] \/ skipped_waiting s <> []) as Hne.
  { destruct (waiting s) eqn:E1; [|by left]. destruct (skipped_waiting s) eqn:E2; [|by right]. unfold queued in Hq.
    rewrite E1, E2 in Hq. done. }
  pose proof (base_select (held := held) (reqs s) _ _ Hne) as Hsel. rewrite Hs in Hsel. unfold queued.
  destruct skipped.
  - destruct (skipped_waiting s) as [|y l]; [done|]. exists y. split; [done|]. set_solver.
  - destruct (waiting s) as [|y l]; [done|]. exists y. split; [done|]. set_solver.
Qed.

Lemma waiting_turn_ok (ok : config_ok) s0 extra s p : fresh_step (max_num_scheduled_tokens cfg) p ->
  cached_length p = [] -> winv s0 extra s -> queued s <> [] ->
  returns (waiting_turn cfg kvc mm_features 0 extra (s, p))
    (fun '(f, idx) => turned (max_num_scheduled_tokens cfg) s0 s p f idx).
Proof.
  intros Hf Hcl W Hne. pose proof (w_inv _ _ _ W) as I. unfold waiting_turn.
  destruct (Z.eqb_spec (len (running s)) max_seqs) as [|Hlt]; [by cbn|].
  set (skipped := select_skipped _ _ _). destruct (head_some skipped s Hne eq_refl) as (id & Hh & Hin). rewrite Hh.
  cbn [of_option mbind res_bind]. destruct (sinv_req _ _ _ _ _ id I) as (r & Hr & Hid); [set_solver|].
  rewrite (opt_get_req_ok s id r) by done. cbn [mbind res_bind]. change (0 <? 0) with false. cbn match.
  destruct (opt_waiting_gate_ok s0 extra s id r W Hin Hr) as (go & r' & s' & Hgate & W' & Hr' & Hok' & Hw & Hk & Hgo).
  cbv zeta. rewrite Hgate. clear Hgate. pose proof (i_id _ _ _ _ _ (w_inv _ _ _ W') _ _ Hr') as Hid'.
  assert (head (if skipped then skipped_waiting s' else waiting s') = Some id) as Hh' by (by rewrite Hw, Hk).
  assert (queued s = queued s') as Hq by (unfold queued; by rewrite Hw, Hk).
  assert (turned (max_num_scheduled_tokens cfg) s0 s p
    (Continue (queue_prepend (reqs s') id extra) (pop_selected skipped s', p)) 0) as Hskip.
  { destruct (winv_skip s0 extra s' skipped id W' Hh') as [H1 H2]. cbn. rewrite Hq. split; [done|]. by left. }
  destruct (negb go) eqn:Hng; [exact Hskip|]. apply negb_false_iff in Hng. destruct (exceeds_loras cfg r' p); [exact Hskip|].
  rewrite (wo_computed _ _ Hok'). change (0 =? 0) with true. cbn [require mbind res_bind].
  pose proof (wo_tokens _ _ Hok') as Htok. pose proof (co_prompt _ _ _ ok) as Hbudget. rewrite (proj2 (f_tokens _ _ Hf)).
  replace (Z.min (num_tokens r') (max_num_scheduled_tokens cfg)) with (num_tokens r') by lia.
  rewrite (proj2 (Z.ltb_lt 0 (num_tokens r'))) by lia. cbn [require mbind res_bind].
  apply (returns_mono (admit_turn skipped extra r' s' p) (fun '(f, idx) => turned (max_num_scheduled_tokens cfg) s0 s' p f idx));
    [|intros [f idx]; unfold turned; by rewrite Hq].
  apply (admit_turn_ok ok _ s0 extra s' p skipped r' Hf Hcl W'); try done.
  - by rewrite Hid'.
  - by rewrite Hid'.
  - by apply Hgo.
  - rewrite (w_running _ _ _ W'), <- (w_running _ _ _ W). pose proof (i_max _ _ _ _ _ I). lia.
Qed.

(** The second request at the head ends the loop. *)
Lemma waiting_turn_full extra d s p : sinv d extra s -> queued s <> [] ->
  waiting_turn cfg kvc mm_features 1 extra (s, p) = Ok (Break extra (s, p), 1).
Proof.
  intros I Hne. unfold waiting_turn. destruct (_ =? _); [done|]. set (skipped := select_skipped _ _ _).
  destruct (head_some skipped s Hne eq_refl) as (id & Hh & Hin). rewrite Hh. cbn [of_option mbind res_bind].
  destruct (sinv_req _ _ _ _ _ id I) as (r & Hr & _); [set_solver|]. by rewrite (opt_get_req_ok s id r).
Qed.

(** *** The loop *)

Definition loop_over (s : Scheduler) : bool := bool_decide (waiting s = [] /\ skipped_waiting s = []).

Lemma loop_over_queued s : loop_over s = false -> queued s <> [].
Proof.
  unfold loop_over, queued. intros H%bool_decide_eq_false Hq. apply H. by apply app_eq_nil in Hq.
Qed.

Lemma queue_fuel s fuel : (length (queued s) <= fuel)%nat -> loop_over s = false -> exists fuel', fuel = S fuel'.
Proof.
  intros Hf Ho. destruct fuel as [|fuel]; [|by exists fuel]. exfalso. apply (loop_over_queued s Ho).
  by destruct (queued s); [|cbn in Hf; lia].
Qed.

Lemma waiting_loop_full fuel extra d s p : sinv d extra s -> (length (queued s) <= fuel)%nat ->
  waiting_loop cfg kvc mm_features fuel 1 extra (s, p) = Ok (1, extra, (s, p)).
Proof.
  intros I Hf. destruct (loop_over s) eqn:Ho; [by destruct fuel; cbn [waiting_loop]; fold (loop_over s); rewrite Ho|].
  destruct (queue_fuel s fuel Hf Ho) as [fuel' ->]. cbn [waiting_loop]. fold (loop_over s). rewrite Ho.
  destruct (0 <? token_budget p); [|done]. cbn [negb andb].
  by rewrite (waiting_turn_full extra d s p I (loop_over_queued s Ho)).
Qed.

(** What the loop makes of the scheduler. *)
Definition waited (b0 : Z) s0 p idx extra s' p' : Prop :=
  (idx = 0 /\ p' = p /\ winv s0 extra s') \/ (idx = 1 /\ exists id, admitted b0 id s0 extra s' p').

Lemma opt_waiting_loop_ok (ok : config_ok) s0 p fuel : fresh_step (max_num_scheduled_tokens cfg) p -> cached_length p = [] ->
  forall extra s, winv s0 extra s -> (length (queued s) <= fuel)%nat ->
  returns (waiting_loop cfg kvc mm_features fuel 0 extra (s, p))
    (fun '(idx, extra', (s', p')) => waited (max_num_scheduled_tokens cfg) s0 p idx extra' s' p').
Proof.
  intros Hf Hcl. induction fuel as [|fuel IH]; intros extra s W Hl.
  { cbn [waiting_loop]. fold (loop_over s). destruct (loop_over s) eqn:Ho; [by left|].
    by destruct (queue_fuel s 0 Hl Ho). }
  cbn [waiting_loop]. fold (loop_over s). destruct (loop_over s) eqn:Ho; [by left|].
  destruct (0 <? token_budget p); [|by left]. cbn [negb andb].
  eapply returns_bind; [apply (waiting_turn_ok ok s0 extra s p Hf Hcl W (loop_over_queued s Ho))|].
  intros [f idx] Ht. destruct f as [extra' [s' p']|extra' [s' p']]; cbn [turned] in Ht.
  - destruct Ht as [Hlen [(-> & -> & W')|(-> & id & A)]]; [apply IH; [done|lia]|].
    rewrite (waiting_loop_full fuel extra' [id] s' p'); [|apply A|lia]. cbn. right. split; [done|]. by exists id.
  - cbn. by left.
Qed.

(** ** The decision of a step *)

(** The budget of a step. *)
Definition step_budget (pause : PauseState) : Z :=
  if decide (pause = PAUSED_ALL) then 0 else max_num_scheduled_tokens cfg.

(** A decode step: the queues may be reordered, then the loop over the running requests. *)
Definition decoded pause s s' p' : Prop :=
  exists s1, winv s [] s1 /\
    rinv (tracks := tracks) (bs := bs) (held := held) cfg kvc (step_budget pause) (scheduled_running_reqs p') s1 s' p' /\
    loop_end cfg (step_budget pause) s' p' /\
    (policy cfg = FCFS -> fits -> 0 < step_budget pause -> forall y, head (running s) = Some y ->
     head (scheduled_running_reqs p') = Some y).

Definition decided pause s s' p' : Prop :=
  (pause = UNPAUSED /\ exists id, admitted (max_num_scheduled_tokens cfg) id s [] s' p') \/ decoded pause s s' p'.

Lemma empty_step_fresh pause : fresh_step (step_budget pause) (empty_step cfg pause).
Proof. by split. Qed.

Lemma winv_refl s : sinv [] [] s -> winv s [] s.
Proof. intros I. split; [done..|by rewrite app_nil_r|apply kept_refl]. Qed.

Lemma opt_requeue_ok s0 extra s : winv s0 extra s ->
  winv s0 [] (set_queues (waiting s) (queue_prepend_all (reqs s) extra (skipped_waiting s)) s).
Proof.
  intros [I Hr Hs Hp Hk].
  assert (queued (set_queues (waiting s) (queue_prepend_all (reqs s) extra (skipped_waiting s)) s) ++ []
    ≡ₚ queued s ++ extra) as Hq.
  { unfold queued. cbn. rewrite (base_prepend_all (held := held)). solve_Permutation. }
  split; try done; [by eapply sinv_queues|by rewrite Hq].
Qed.

Lemma admitted_requeue b0 id s0 extra s p : admitted b0 id s0 extra s p ->
  admitted b0 id s0 [] (set_queues (waiting s) (queue_prepend_all (reqs s) extra (skipped_waiting s)) s) p.
Proof.
  intros [I Hr Hp Hk Hs Ht Hl Hb].
  assert (queued (set_queues (waiting s) (queue_prepend_all (reqs s) extra (skipped_waiting s)) s) ++ []
    ≡ₚ queued s ++ extra) as Hq.
  { unfold queued. cbn. rewrite (base_prepend_all (held := held)). solve_Permutation. }
  split; try done; [by eapply sinv_queues|by rewrite Hq].
Qed.

Lemma opt_schedule_waiting_ok (ok : config_ok) pause s : sinv [] [] s ->
  returns (schedule_waiting cfg kvc mm_features pause (s, empty_step cfg pause))
    (fun '(idx, (s', p')) => waited (max_num_scheduled_tokens cfg) s (empty_step cfg pause) idx [] s' p' /\
      (idx = 1 -> pause = UNPAUSED)).
Proof.
  intros I. unfold schedule_waiting. destruct (decide (pause = UNPAUSED)) as [->|Hp].
  2:{ split; [|done]. left. split; [done|]. split; [done|]. by apply winv_refl. }
  eapply returns_bind.
  { apply (opt_waiting_loop_ok ok s (empty_step cfg UNPAUSED) _ (empty_step_fresh UNPAUSED) eq_refl [] s (winv_refl s I)). done. }
  intros [[idx extra] [s' p']] Hw. destruct extra as [|x extra]; [by split|]. cbn [returns]. split; [|done].
  destruct Hw as [(-> & -> & W)|(-> & id & A)].
  - left. split; [done|]. split; [done|]. by apply opt_requeue_ok.
  - right. split; [done|]. exists id. by apply admitted_requeue.
Qed.

Lemma opt_decide_step_ok (ok : config_ok) pause s : sinv [] [] s ->
  returns (decide_step cfg kvc mm_features pause s) (fun '(s', p') => decided pause s s' p').
Proof.
  intros I. unfold decide_step. cbv zeta.
  assert (forall id, held (new_step_starts (coordinator (kv s))) id = held (coordinator (kv s)) id) as He
    by (intros id; apply base_new_step).
  set (k := set_coordinator (new_step_starts (coordinator (kv s))) (kv s)).
  assert (sinv [] [] (set_kv k s)) as I1.
  { apply sinv_kv; [done|apply good_coordinator; [apply I|done]|by split; [|intros pm Hpm; exists pm]|done]. }
  assert (match max_loras cfg with Some m => 0 <=? m | None => true end = true) as ->.
  { destruct (max_loras cfg) as [m|] eqn:Em; [|done]. by apply Z.leb_le, ok. }
  cbn [require mbind res_bind]. eapply returns_bind; [exact (opt_schedule_waiting_ok ok pause (set_kv k s) I1)|].
  intros [idx [s1 p1]] [[(-> & -> & W)|(-> & id & A)] Hun].
  - cbn. eapply returns_mono.
    { apply (opt_running_loop_ok cfg kvc mm_features ok (step_budget pause) s1 (length (running s1)) s1
        (empty_step cfg pause) (running s1)); [|done|done].
      split; cbn; try done; [apply W|apply pinv_empty|by intros id Hid%not_elem_of_nil| |solve_Permutation|apply kept_refl].
      - unfold step_budget. pose proof (co_prompt _ _ _ ok). pose proof (co_mml _ _ _ ok). case_decide; lia.
      - change (step_budget pause + 0 = step_budget pause). lia. }
    intros [s' p'] (R & L & Hhead). right. exists s1. split; [|split; [done|split; [done|]]].
    2:{ intros Hpol Hfits Hb y Hy. apply Hhead; [done|by right|]. by rewrite (w_running _ _ _ W). } destruct W. by split.
  - cbn. left. split; [by apply Hun|]. exists id. destruct A. by split.
Qed.

(** ** The output *)

Section output.
Variable build_connector_meta : RBLNSchedulerOutput -> X -> X.
Variable update_after_schedule : RBLNSchedulerOutput -> Scheduler -> Scheduler.

(** What the constraints at the end of the step, its dummy block and its slots need. *)
Record step_ready d s p : Prop := {
  sr_inv : sinv d [] s;
  sr_total : sumZ (od_values (num_scheduled_tokens p)) <= max_num_scheduled_tokens cfg;
  sr_budget : 0 <= token_budget p;
  sr_lists : len (scheduled_new_reqs p) + len (scheduled_resumed_reqs p) + len (scheduled_running_reqs p)
    <= len (running s);
  sr_new : forall id, id ∈ scheduled_new_reqs p -> is_Some (req_to_new_blocks p !! id);
  sr_running : forall id, id ∈ od_keys (num_scheduled_tokens p) -> id ∈ running s;
  sr_sched : forall id, id ∈ d <-> id ∈ od_keys (num_scheduled_tokens p);
  sr_lacks : forall id n, od_get id (num_scheduled_tokens p) = Some n ->
    exists r, reqs s !! id = Some r /\ num_tokens r = num_computed_tokens r + n;
  sr_dummy : 0 < len (scheduled_running_reqs p) < max_seqs -> len (running s) < max_seqs
}.

Lemma admitted_ready (ok : config_ok) id s0 s p : admitted (max_num_scheduled_tokens cfg) id s0 [] s p ->
  step_ready [id] s p.
Proof.
  intros [I Hr _ _ _ (r & Hrq & Hnc & Hn & Hnst & Hb) (Hl & Hlr & _) Hbl]. pose proof (co_prompt _ _ _ ok) as Hp.
  assert (len (scheduled_new_reqs p) + len (scheduled_resumed_reqs p) = 1) as Hlen by (rewrite <- len_app, Hl; done).
  assert (id ∈ running s) as Hin by (rewrite Hr; set_solver).
  split; try done; rewrite ?Hnst, ?Hlr.
  - change (num_tokens r + 0 <= max_num_scheduled_tokens cfg). lia.
  - rewrite Hb. lia.
  - rewrite Hlen, Hr, len_app, len_cons. change (len (@nil string)) with 0. pose proof (len_nonneg (running s0)). lia.
  - intros y Hy. assert (y ∈ [id]) as Hy1 by (rewrite <- Hl; set_solver). apply list_elem_of_singleton in Hy1. by subst.
  - intros y Hy. apply list_elem_of_singleton in Hy. by subst.
  - intros y. by unfold od_keys.
  - intros y m. cbn. case_decide as Hy; [|done]. intros [= <-]. subst. exists r. split; [done|]. lia.
  - change (len (@nil string)) with 0. lia.
Qed.

Lemma decoded_ready (ok : config_ok) pause s0 s p : decoded pause s0 s p -> step_ready (scheduled_running_reqs p) s p.
Proof.
  intros (s1 & _ & R & (rest & Hrest & Hend) & _). pose proof (r_inv _ _ _ _ _ _ _ R) as I.
  destruct (r_admitted _ _ _ _ _ _ _ R) as [Hn Hr]. destruct (r_step _ _ _ _ _ _ _ R) as [Hnd Hin _ Hk _ _ Hsum Hb].
  pose proof (co_batch _ _ _ ok) as Hbatch. pose proof (i_max _ _ _ _ _ I) as Hmax.
  split; try done; rewrite ?Hn, ?Hr.
  - lia.
  - rewrite Hrest, len_app. change (len (@nil string)) with 0. pose proof (len_nonneg rest). lia.
  - intros y Hy. by apply not_elem_of_nil in Hy.
  - intros y Hy. by apply Hin, Hk.
  - intros y m Hy. rewrite (r_ones _ _ _ _ _ _ _ R y m Hy). apply (r_lacks _ _ _ _ _ _ _ R), Hk, elem_of_od_keys. by eexists.
  - intros Hlt. destruct Hend as [-> |[Hle|[Hlt' _]]]; [rewrite Hrest, app_nil_r; lia| |done].
    pose proof (r_budget _ _ _ _ _ _ _ R) as Hb0. unfold step_budget in *. case_decide; lia.
Qed.

Lemma choose_dummy_ok (ok : config_ok) d s p : step_ready d s p ->
  exists o k, choose_dummy_block cfg kvc (s, p) = Ok (o, set_kv k s) /\ sinv d [] (set_kv k s).
Proof.
  intros [I _ _ _ _ _ _ _ Hd]. unfold choose_dummy_block.
  destruct (is_encoder_decoder cfg) eqn:Henc.
  { destruct (proj1 (i_dummy _ _ _ _ _ I) Henc) as [b Hb]. cbn [orb]. unfold kv_get_dummy_block. rewrite Hb.
    cbn [mbind res_bind]. eexists _, (kv s). split; [reflexivity|]. by destruct s. }
  cbn [orb]. destruct (enable_caching kvc && _) eqn:Hc.
  2:{ exists None, (kv s). by destruct s. }
  apply andb_true_iff in Hc as [Hc Hn]. apply andb_true_iff in Hn as [Hn1 Hn2]. zbool.
  destruct (kv_dummy_ok kvc max_seqs (running s) (kv s) (i_kv _ _ _ _ _ I) Hc) as (b & k & Hk & Hg & F & Hco).
  - destruct (dummy_block (block_pool (kv s))) eqn:Hdb; [|done]. exfalso.
    destruct (i_dummy _ _ _ _ _ I) as [_ Hx]. rewrite Hx in Henc; [done|]. rewrite Hdb. by eexists.
  - by apply Hd.
  - apply I.
  - intros id. by apply (held_bound cfg kvc mm_features ok _ _ _ _ I).
  - rewrite Hk. cbn [mbind res_bind]. eexists _, k. split; [reflexivity|]. apply sinv_kv; try done. intros id. by rewrite Hco.
Qed.

Lemma prefetch_ok d s : sinv d [] s -> exists x, prefetch_features mm_features s = Ok (set_env x s).
Proof.
  intros I. unfold prefetch_features.
  assert (forall id, id ∈ waiting s -> is_Some (reqs s !! id)) as Hw.
  { intros id Hid. destruct (i_waiting _ _ _ _ _ I id) as (r & Hr & _); [unfold queued; set_solver|]. by eexists. }
  set (f := fun (s : Scheduler) id => _) in *.
  assert (forall l x, (forall id, id ∈ l -> is_Some (reqs s !! id)) -> exists y, foldM f (set_env x s) l = Ok (set_env y s))
    as Hl.
  { induction l as [|id l IH]; intros x Hl; [by exists x|]. destruct (Hl id) as [r Hr]; [by left|].
    cbn [foldM]. assert (exists y, f (set_env x s) id = Ok (set_env y s)) as [y ->].
    { unfold f. rewrite (opt_get_req_ok _ id r) by done. cbn [mbind res_bind].
      destruct (has_encoder_inputs r); by eexists. }
    cbn [mbind res_bind]. apply IH. intros z Hz. apply Hl. by right. }
  specialize (Hl (waiting s) (env s) Hw). by destruct s.
Qed.

(** The step's output, and the scheduler that the base class is then told about it. *)
Definition output_of (s : Scheduler) p (out : RBLNSchedulerOutput) : Prop :=
  (out_new_reqs out).*1 = scheduled_new_reqs p /\ out_resumed_reqs out = scheduled_resumed_reqs p /\
  out_running_reqs out = scheduled_running_reqs p /\ out_num_scheduled_tokens out = num_scheduled_tokens p /\
  out_total out = sumZ (od_values (num_scheduled_tokens p)) /\ out_preempted out = preempted_reqs p /\
  od_keys (out_cache_slot_id_dict out) = od_keys (num_scheduled_tokens p) /\
  (forall id i, (id, i) ∈ out_cache_slot_id_dict out -> cache_slot_ids s !! id = Some i).

Definition same_requests s s' : Prop := reqs s' = reqs s /\ running s' = running s /\ waiting s' = waiting s /\
  skipped_waiting s' = skipped_waiting s /\ cache_slot_ids s' = cache_slot_ids s.

Lemma sinv_prev d extra s l : sinv d extra s -> sinv d extra (set_prev l s).
Proof. intros I. by eapply sinv_queues. Qed.

Lemma opt_finalize_ok (ok : config_ok) d s p : step_ready d s p ->
  exists out s1, finalize cfg kvc mm_features build_connector_meta update_after_schedule (s, p) =
      Ok (out, set_hashes [] (update_after_schedule out s1)) /\
    output_of s p out /\ same_requests s s1 /\ sinv d [] s1.
Proof.
  intros R. pose proof R as [I Htot Hbud Hlen Hnew Hrun _ _ Hd].
  unfold finalize, check_constraints. rewrite (proj2 (Z.leb_le _ _) Htot), (proj2 (Z.leb_le _ _) Hbud),
    (proj2 (Z.leb_le _ _) (i_max _ _ _ _ _ I)), (proj2 (Z.leb_le _ _) Hlen). cbn [require mbind res_bind].
  destruct (mapM_total (fun id x => x.1 = id) (fun id => b ← of_option (req_to_new_blocks p !! id) KeyError; Ok (id, b))
    (scheduled_new_reqs p)) as (new & -> & Hnew').
  { intros id Hid. destruct (Hnew id Hid) as [b ->]. by exists (id, b). }
  cbn [mbind res_bind].
  destruct (choose_dummy_ok ok d (set_prev (od_keys (num_scheduled_tokens p)) s) p) as (o & k & -> & I1).
  { destruct R. split; try done. by apply sinv_prev. }
  cbn [mbind res_bind]. set (s1 := set_kv k _) in *.
  destruct (mapM_total (fun id x => x.1 = id /\ cache_slot_ids s !! id = Some x.2)
    (fun id => i ← of_option (cache_slot_ids s1 !! id) KeyError; Ok (id, i)) (od_keys (num_scheduled_tokens p)))
    as (slots & -> & Hslots).
  { intros id Hid. destruct (proj2 (sl_dom _ _ _ (i_slots _ _ _ _ _ I) id) (Hrun id Hid)) as [i Hi].
    exists (id, i). cbn. by rewrite Hi. }
  cbn [mbind res_bind]. set (out := mkOutput _ _ _ _ _ _ _ _ _ _ _ _ _ _).
  assert (output_of s p out) as Ho.
  { assert (forall l (k : list (string * Z)), Forall2 (fun id x => x.1 = id /\ cache_slot_ids s !! id = Some x.2) l k ->
      od_keys k = l /\ forall id i, (id, i) ∈ k -> cache_slot_ids s !! id = Some i) as Hf.
    { intros l k0. unfold od_keys. induction 1 as [|id [id' i] l k0 [<- Hx] Hf [IH1 IH2]]; [split; [done|]; intros ?? H; by apply not_elem_of_nil in H|].
      cbn in *. rewrite IH1. split; [done|]. intros y j [[= -> ->]|H]%elem_of_cons; [done|by apply IH2]. }
    destruct (Hf _ _ Hslots) as [H1 H2]. split; [|by repeat split].
    cbn. clear -Hnew'. induction Hnew' as [|id x l k <- _ IH]; [done|]. cbn. by rewrite IH. }
  destruct (has_ec_connector cfg).
  - destruct (prefetch_ok d s1 I1) as [x ->]. cbn [mbind res_bind]. eexists out, _. split; [reflexivity|].
    split; [done|]. split; [done|]. by do 2 apply sinv_env.
  - cbn [mbind res_bind]. by exists out, s1.
Qed.

(** ** The theorems *)

(** The scheduler between two steps. *)
Definition ready s : Prop := sinv [] [] s.

Lemma decided_ready (ok : config_ok) pause s s' p : decided pause s s' p -> exists d, step_ready d s' p.
Proof.
  intros [(_ & id & A)|D]; [exists [id]; by apply (admitted_ready ok id s)|eexists; by eapply decoded_ready].
Qed.

(** A step as a whole: what was decided, and the output built from it. *)
Lemma schedule_ok (ok : config_ok) pause s : ready s -> exists s1 p s2 out d,
  schedule cfg kvc mm_features build_connector_meta update_after_schedule pause s =
    Ok (out, set_hashes [] (update_after_schedule out s2)) /\
  decided pause s s1 p /\ output_of s1 p out /\ same_requests s1 s2 /\ step_ready d s1 p /\ sinv d [] s2.
Proof.
  intros I. destruct (returns_Ok _ _ (opt_decide_step_ok ok pause s I)) as ([s1 p] & Hd & Hdec).
  destruct (decided_ready ok pause s s1 p Hdec) as [d Hr].
  destruct (opt_finalize_ok ok d s1 p Hr) as (out & s2 & Hf & Ho & Hsame & I2).
  exists s1, p, s2, out, d. split; [|done]. unfold schedule. rewrite Hd. cbn [mbind res_bind]. exact Hf.
Qed.

(** The requests of a scheduler. *)
Definition requests_of s : list string := running s ++ queued s.

Lemma decided_keeps pause s s' p : decided pause s s' p -> requests_of s' ≡ₚ requests_of s /\ kept s s'.
Proof.
  unfold requests_of. intros [(_ & id & A)|(s1 & W & R & _)].
  - pose proof (a_perm _ _ _ _ _ _ A) as Hp. rewrite app_nil_r in Hp. split; [|apply A].
    rewrite (a_running _ _ _ _ _ _ A), <- app_assoc. cbn. by rewrite Hp.
  - pose proof (w_perm _ _ _ W) as Hq. rewrite app_nil_r in Hq. split.
    + rewrite <- Hq, <- (w_running _ _ _ W), (r_perm _ _ _ _ _ _ _ R). unfold queued.
      rewrite (r_waiting _ _ _ _ _ _ _ R), (r_skipped _ _ _ _ _ _ _ R). solve_Permutation.
    + eapply kept_trans; [apply W|apply R].
Qed.

Lemma tokens_before pause s s' p id r : ready s -> decided pause s s' p -> id ∈ requests_of s' ->
  reqs s' !! id = Some r -> exists r0, reqs s !! id = Some r0 /\ num_tokens r0 = num_tokens r.
Proof.
  intros I Hd Hin Hr. destruct (decided_keeps pause s s' p Hd) as [Hp Hk]. rewrite Hp in Hin.
  destruct (sinv_req _ _ _ _ _ id I) as (r0 & Hr0 & _); [by rewrite app_nil_r|]. exists r0. split; [done|].
  destruct (Hk id r0 Hr0) as (r' & Hr' & _ & Ht & _). rewrite Hr in Hr'. injection Hr' as <-. unfold num_tokens.
  by rewrite Ht.
Qed.

(** C4: whatever is running and waiting, and whether or not the scheduler is paused, a step
    returns: no assertion fails, no lookup misses and no loop runs on.  Afterwards every
    request is running or queued exactly as often as before, none was dropped and none was
    invented, and the tokens and the prompt of each are what they were. *)
Theorem optimum_schedule_returns pause s : config_ok -> ready s -> exists out s2,
  schedule cfg kvc mm_features build_connector_meta update_after_schedule pause s =
    Ok (out, set_hashes [] (update_after_schedule out s2)) /\
  NoDup (requests_of s2) /\ requests_of s2 ≡ₚ requests_of s /\ kept s s2 /\ out_total out <= max_num_scheduled_tokens cfg.
Proof.
  intros ok I. destruct (schedule_ok ok pause s I) as (s1 & p & s2 & out & d & Hs & Hd & Ho & (Hq & Hr & Hw & Hk & _) & R & I2).
  destruct (decided_keeps pause s s1 p Hd) as [Hp Hkept]. exists out, s2. split; [done|].
  pose proof (i_nodup _ _ _ _ _ I2) as Hnd. rewrite app_nil_r in Hnd. split; [done|]. split.
  { rewrite <- Hp. unfold requests_of, queued. by rewrite Hr, Hw, Hk. }
  split; [by unfold kept; rewrite Hq|]. destruct Ho as (_ & _ & _ & _ & -> & _). apply R.
Qed.

(** *** What a step schedules *)

(** One request from the queues, with all its tokens; nothing else runs or is preempted. *)
Definition prefill_alone s (out : RBLNSchedulerOutput) : Prop := exists id r,
  id ∈ queued s /\ reqs s !! id = Some r /\ (out_new_reqs out).*1 ++ out_resumed_reqs out = [id] /\
  out_num_scheduled_tokens out = [(id, num_tokens r)] /\ out_running_reqs out = [] /\ out_preempted out = [].

(** Running requests, with the one token each of them lacks.  Unless the scheduler is
    paused, every running request is scheduled or preempted if none had to be preempted. *)
Definition decode_batch pause s (out : RBLNSchedulerOutput) : Prop :=
  out_new_reqs out = [] /\ out_resumed_reqs out = [] /\
  (forall id, id ∈ out_running_reqs out <-> id ∈ od_keys (out_num_scheduled_tokens out)) /\
  (forall id, id ∈ out_running_reqs out ++ out_preempted out -> id ∈ running s) /\
  (forall id n, od_get id (out_num_scheduled_tokens out) = Some n ->
     n = 1 /\ exists r, reqs s !! id = Some r /\ 0 < num_computed_tokens r /\ num_tokens r = num_computed_tokens r + 1) /\
  (pause <> PAUSED_ALL -> out_preempted out = [] -> out_running_reqs out ≡ₚ running s).

Lemma admitted_alone id s s1 p out : ready s -> admitted (max_num_scheduled_tokens cfg) id s [] s1 p ->
  output_of s1 p out -> prefill_alone s out.
Proof.
  intros I A (Hn & Hre & Hru & Hnst & _ & Hpr & _). destruct (a_tokens _ _ _ _ _ _ A) as (r & Hr & _ & _ & Hnt & _).
  destruct (a_lists _ _ _ _ _ _ A) as (Hl & Hlr & Hlp).
  assert (id ∈ queued s) as Hin by (rewrite <- (a_perm _ _ _ _ _ _ A); by left).
  destruct (i_waiting _ _ _ _ _ I id) as (r0 & Hr0 & _); [by rewrite app_nil_r|].
  destruct (a_kept _ _ _ _ _ _ A id r0 Hr0) as (r' & Hr' & _ & Ht & _). rewrite Hr in Hr'. injection Hr' as <-.
  exists id, r0. rewrite Hn, Hre, Hru, Hnst, Hpr, Hnt. unfold num_tokens. by rewrite Ht.
Qed.

Lemma decoded_batch pause s s1 p out : ready s -> decoded pause s s1 p -> output_of s1 p out -> config_ok ->
  decode_batch pause s out.
Proof.
  intros I (s0 & W & R & (rest & Hrest & Hend) & _) (Hn & Hre & Hru & Hnst & _ & Hpr & _) ok.
  destruct (r_admitted _ _ _ _ _ _ _ R) as [Hn0 Hr0]. pose proof (r_step _ _ _ _ _ _ _ R) as [_ Hin _ Hk _ _ _ _].
  pose proof (r_perm _ _ _ _ _ _ _ R) as Hperm. rewrite (w_running _ _ _ W) in Hperm.
  unfold decode_batch. rewrite Hre, Hru, Hnst, Hpr, Hr0. split; [rewrite Hn0 in Hn; by apply fmap_nil_inv in Hn|].
  split; [done|]. split; [done|]. split; [|split].
  - intros id Hid. rewrite Hperm. apply elem_of_app in Hid as [Hid|Hid]; set_solver.
  - intros id n Hid. split; [by eapply (r_ones _ _ _ _ _ _ _ R)|].
    assert (id ∈ scheduled_running_reqs p) as Hs by (apply Hk, elem_of_od_keys; by eexists).
    assert (id ∈ running s) as Hrun by (rewrite Hperm; apply elem_of_app; left; by apply Hin).
    destruct (i_running _ _ _ _ _ I id Hrun) as (r & Hr & Hok). exists r. split; [done|].
    destruct (ro_decode _ _ _ _ Hok) as (H1 & H2 & _); [apply not_elem_of_nil|done].
  - intros Hp Hnone. rewrite Hnone, app_nil_r in Hperm. rewrite Hperm, Hrest.
    destruct Hend as [-> |[Hle|[_ Hne]]]; [by rewrite app_nil_r| |done].
    unfold step_budget in Hle. rewrite decide_False in Hle by done. pose proof (co_batch _ _ _ ok).
    pose proof (i_max _ _ _ _ _ (r_inv _ _ _ _ _ _ _ R)) as Hm. rewrite Hrest, len_app in Hm.
    destruct rest as [|y rest]; [by rewrite app_nil_r|]. rewrite len_cons in Hm. pose proof (len_nonneg rest). lia.
Qed.

(** A step either prefills a single request, for all its tokens, and runs nothing else,
    or it decodes: then it admits nobody and gives running requests the one token that each
    lacks; if nobody had to be preempted and the scheduler is not paused, all of them. *)
Theorem optimum_prefill_alone pause s : config_ok -> ready s ->
  returns (schedule cfg kvc mm_features build_connector_meta update_after_schedule pause s)
    (fun '(out, _) => (prefill_alone s out /\ pause = UNPAUSED) \/ decode_batch pause s out).
Proof.
  intros ok I. destruct (schedule_ok ok pause s I) as (s1 & p & s2 & out & d & -> & Hd & Ho & _). cbn [returns].
  destruct Hd as [(Hp & id & A)|D]; [left; split; [by eapply admitted_alone|done]|right; by eapply decoded_batch].
Qed.

(** C30: under first come, first served, with a pool that holds one request of the maximal
    length, no step is lost: unless the scheduler is paused altogether, a step with running
    requests either admits one more request or gives the first of them its next token, however
    many others must be preempted for it. *)
Theorem first_running_progresses pause s id : config_ok -> ready s -> policy cfg = FCFS -> fits ->
  pause <> PAUSED_ALL -> head (running s) = Some id ->
  returns (schedule cfg kvc mm_features build_connector_meta update_after_schedule pause s)
    (fun '(out, _) => prefill_alone s out \/ od_get id (out_num_scheduled_tokens out) = Some 1).
Proof.
  intros ok I Hpol Hfits Hp Hid. destruct (schedule_ok ok pause s I) as (s1 & p & s2 & out & d & -> & Hd & Ho & _).
  cbn [returns]. destruct Hd as [(_ & x & A)|D]; [left; by eapply admitted_alone|right].
  destruct (decoded_batch pause s s1 p out I D Ho ok) as (_ & _ & Hkeys & _ & Hones & _).
  destruct D as (s0 & W & R & _ & Hhead). destruct Ho as (_ & _ & Hru & _).
  assert (0 < step_budget pause) as Hb.
  { unfold step_budget. rewrite decide_False by done. pose proof (co_prompt _ _ _ ok). pose proof (co_mml _ _ _ ok). lia. }
  specialize (Hhead Hpol Hfits Hb id Hid).
  assert (id ∈ out_running_reqs out) as Hin by (rewrite Hru; by apply head_Some_elem_of).
  apply Hkeys, elem_of_od_keys in Hin as [n Hn]. destruct (Hones id n Hn) as [-> _]. done.
Qed.

(** *** Cache slots *)

Lemma decided_slots pause s s1 p : ready s -> decided pause s s1 p -> forall id i, cache_slot_ids s1 !! id = Some i ->
  match cache_slot_ids s !! id with
  | Some i' => i = i'
  | None => (forall id', cache_slot_ids s !! id' <> Some i) /\
      forall j, 0 <= j < i -> exists id', cache_slot_ids s !! id' = Some j
  end.
Proof.
  intros I [(_ & x & A)|(s0 & W & R & _)] id i Hi.
  - destruct (a_slot _ _ _ _ _ _ A) as (k & Hk & Hfree & Hmin). rewrite Hk in Hi.
    assert (cache_slot_ids s !! x = None) as Hx.
    { destruct (cache_slot_ids s !! x) as [k'|] eqn:Hx; [|done]. exfalso.
      assert (x ∈ running s) as Hrun by (apply (sl_dom _ _ _ (i_slots _ _ _ _ _ I)); by eexists).
      pose proof (i_nodup _ _ _ _ _ (a_inv _ _ _ _ _ _ A)) as Hnd. rewrite (a_running _ _ _ _ _ _ A) in Hnd.
      apply NoDup_app in Hnd as (Hnd & _). apply NoDup_app in Hnd as (_ & Hd & _). apply (Hd x Hrun). by left. }
    destruct (decide (id = x)) as [->|Hne].
    + rewrite lookup_insert_eq in Hi. injection Hi as <-. by rewrite Hx.
    + rewrite lookup_insert_ne in Hi by done. by rewrite Hi.
  - assert (id ∈ running s1) as Hrun
      by (apply (sl_dom _ _ _ (i_slots _ _ _ _ _ (r_inv _ _ _ _ _ _ _ R))); by eexists).
    rewrite (r_slots _ _ _ _ _ _ _ R id Hrun), (w_slots _ _ _ W) in Hi. by rewrite Hi.
Qed.

(** C31: the output gives every scheduled request a cache slot, no two requests the same one,
    all within the pool.  A request that was running keeps the slot it had; a request that
    is admitted takes a slot nobody had, and there is none lower. *)
Theorem cache_slots_pinned pause s : config_ok -> ready s ->
  returns (schedule cfg kvc mm_features build_connector_meta update_after_schedule pause s) (fun '(out, _) =>
    od_keys (out_cache_slot_id_dict out) = od_keys (out_num_scheduled_tokens out) /\
    (forall id i, (id, i) ∈ out_cache_slot_id_dict out -> 0 <= i < max_seqs /\
       (forall id', (id', i) ∈ out_cache_slot_id_dict out -> id' = id) /\
       match cache_slot_ids s !! id with
       | Some i' => i = i'
       | None => (forall id', cache_slot_ids s !! id' <> Some i) /\
           forall j, 0 <= j < i -> exists id', cache_slot_ids s !! id' = Some j
       end)).
Proof.
  intros ok I. destruct (schedule_ok ok pause s I) as (s1 & p & s2 & out & d & -> & Hd & Ho & _ & R & _). cbn [returns].
  destruct Ho as (_ & _ & _ & Hn & _ & _ & Hk & Hslots). split; [by rewrite Hn|]. intros id i Hin.
  apply Hslots in Hin as Hi. destruct (i_slots _ _ _ _ _ (sr_inv _ _ _ R)) as [_ Hrange Hown].
  split; [by eapply Hrange|]. split; [|by eapply decided_slots].
  intros id' Hin'%Hslots. by eapply Hown.
Qed.
End output.

(** *** The step and its outcome *)

(** The request after its scheduled tokens were computed and a token was generated. *)
Definition generated (n tok : Z) (r : Request) : Request :=
  mkRequest (request_id r) (status r) (num_prompt_tokens r) (all_token_ids r ++ [tok])
    (num_computed_tokens r + n) (spec_token_ids r) (num_output_placeholders r) (max_tokens r) (priority r)
    (arrival_time r) (num_preemptions r) (num_external_computed_tokens r) (skip_reading_prefix_cache r)
    (lora_int_id r) (has_encoder_inputs r) (shared_prefix_boundary r) None.

Definition outcome (nst : odict string Z) (tok : string -> Z) (id : string) (r : Request) : Request :=
  match od_get id nst with Some n => generated n (tok id) r | None => r end.

(** What vLLM makes of a step in which no request finishes: [_update_after_schedule] adds
    the scheduled tokens, [update_from_output] appends the generated ones. *)
Definition engine_update (tok : string -> Z) (out : RBLNSchedulerOutput) s : Scheduler :=
  set_reqs (map_imap (fun id r => Some (outcome (out_num_scheduled_tokens out) tok id r)) (reqs s)) s.

Lemma outcome_running nst tok d e id r : running_ok (bs := bs) (held := held) kvc d e r -> request_id r = id ->
  (id ∈ d <-> id ∈ od_keys nst) ->
  (forall n, od_get id nst = Some n -> num_tokens r = num_computed_tokens r + n /\ num_tokens r + 1 < mml) ->
  running_ok (bs := bs) (held := held) kvc [] e (outcome nst tok id r).
Proof.
  intros [] Hid Hd Hn. unfold outcome. destruct (od_get id nst) as [n|] eqn:Hg.
  - destruct (Hn n eq_refl) as [H1 H2]. assert (id ∈ d) as Hin by (apply Hd, elem_of_od_keys; by eexists).
    assert (num_tokens (generated n (tok id) r) = num_tokens r + 1) as Hnt
      by (unfold num_tokens; cbn; rewrite len_app; reflexivity).
    split; rewrite ?Hnt; try done.
    + lia.
    + intros _. cbn. lia.
    + intros Hc. cbn. rewrite ro_blocks0 by done. rewrite Hid, decide_True by done. by rewrite H1.
  - assert (id ∉ d) as Hnin by (rewrite Hd; by apply not_elem_of_od_keys).
    apply (running_ok_ext kvc d [] e e); [|done|by split]. rewrite Hid. split; [done|]. by intros ?%not_elem_of_nil.
Qed.

Lemma step_keeps_ready build_connector_meta tok pause s : config_ok -> ready s ->
  returns (schedule cfg kvc mm_features build_connector_meta (engine_update tok) pause s) (fun '(out, s') =>
    (forall id n r, od_get id (out_num_scheduled_tokens out) = Some n -> reqs s !! id = Some r -> num_tokens r + 1 < mml) ->
    ready s').
Proof.
  intros ok I. destruct (schedule_ok build_connector_meta (engine_update tok) ok pause s I)
    as (s1 & p & s2 & out & d & -> & Hd & Ho & (Hq & Hr & Hwt & Hsk & _) & R & I2).
  cbn [returns]. destruct Ho as (_ & _ & _ & Hn & _). rewrite Hn. intros Hlen. unfold engine_update. rewrite Hn.
  destruct I2 as [Hnd Hid Hrun Hw Hh Hs Hm Hk Hdm]. split; cbn; try done.
  - intros id r. rewrite map_lookup_imap. destruct (reqs s2 !! id) as [r2|] eqn:Hr2; [|done]. cbn. intros [= <-].
    unfold outcome. destruct (od_get id _); cbn; by apply Hid.
  - intros id Hin. destruct (Hrun id Hin) as (r & Hrq & Hok). rewrite map_lookup_imap, Hrq. cbn. eexists. split; [reflexivity|].
    apply (outcome_running _ _ d); [done|by apply Hid|apply R|].
    intros n Hg. destruct (sr_lacks _ _ _ R id n Hg) as (r1 & Hr1 & Hl). rewrite <- Hq, Hrq in Hr1. injection Hr1 as <-.
    split; [done|]. destruct (tokens_before pause s s1 p id r I Hd) as (r0 & Hr0 & <-);
      [unfold requests_of; rewrite <- Hr; set_solver|by rewrite <- Hq|by apply (Hlen id n)].
  - intros id Hin. destruct (Hw id Hin) as (r & Hrq & Hok). rewrite map_lookup_imap, Hrq. cbn. eexists. split; [reflexivity|].
    unfold outcome. destruct (od_get id (num_scheduled_tokens p)) as [n|] eqn:Hg; [|done]. exfalso.
    assert (id ∈ running s2) as Hin2 by (rewrite Hr; apply (sr_running _ _ _ R), elem_of_od_keys; by eexists).
    apply NoDup_app in Hnd as (_ & Hnd & _). by apply (Hnd id).
Qed.

(** A step followed by the tokens it generates leaves the scheduler ready for the next
    step, as long as no request reaches the maximal length, where it would finish: the
    invariant holds at every step of a run. *)
Theorem step_restores_ready build_connector_meta tok pause s : config_ok -> ready s ->
  returns (schedule cfg kvc mm_features build_connector_meta (engine_update tok) pause s) (fun '(out, s') =>
    (forall id n r, od_get id (out_num_scheduled_tokens out) = Some n -> reqs s !! id = Some r -> num_tokens r + 1 < mml) ->
    ready s').
Proof. apply step_keeps_ready. Qed.
End sched.

(** ** A concrete scheduler *)

Module OptToy.
#[export] Existing Instance BlockList.coordinator.
#[export] Existing Instance BlockList.coordinator_laws.

#[export] Instance base : Base BlockList.State unit := {
  new_step_starts := fun e => e;
  is_blocked_waiting_status := fun st => negb (bool_decide (st = WAITING \/ st = PREEMPTED));
  try_promote_blocked := fun r x => (false, r, x);
  select_skipped := fun _ _ k => match k with [] => false | _ => true end;
  queue_prepend := fun _ id q => id :: q;
  queue_prepend_all := fun _ l q => l ++ q;
  ec_has_cache_item := fun _ _ _ => false;
  ec_update_state := fun _ _ x => x;
  ec_request_finished := fun _ x => x
}.

#[export] Instance base_laws : BaseLaws BlockList.State unit BlockList.held.
Proof.
  split; cbn; try done.
  - intros st Hst _. by case_bool_decide.
  - intros mml r x b r' x' [= <- <- <-] Hr. done.
  - intros st w [|y k] [Hw|Hk]; done.
Qed.

Definition cfg : Config := mkConfig 64 4 FCFS None false false.
Definition kvc : KvConfig := BlockList.config.
Definition features : Request -> list MmFeature := fun _ => [].

(** Two requests wait. *)
Definition request (id : string) : Request :=
  mkRequest id WAITING 10 [1; 2; 3; 4; 5; 6; 7; 8; 9; 10] 0 [] 0 16 0 0 0 0 false None false 0 (Some (0, 0, 0)).
Definition start : Scheduler (E := BlockList.State) (P := FIFOEvictionPolicy) (X := unit) :=
  mkSched (<["a" := request "a"]> (<["b" := request "b"]> ∅)) [] ["a"; "b"] [] ∅ [] [] [] BlockList.start tt.

Abbreviation ready := (ready (tracks := fifo_tracks) (bs := 4) (held := BlockList.held) cfg kvc).

Lemma cfg_ok : config_ok (bs := 4) cfg kvc features.
Proof. by split. Qed.

Lemma start_ready : ready start.
Proof.
  split; cbn.
  - repeat (apply NoDup_cons; split; [set_solver|]). constructor.
  - intros id r [[<- <-]|[_ [[<- <-]|[_ H]]%lookup_insert_Some]]%lookup_insert_Some; [done..|by rewrite lookup_empty in H].
  - intros id Hid. by apply not_elem_of_nil in Hid.
  - intros id Hid. assert (waiting_ok 64 (request id)) as Hok by (split; cbn; by try lia).
    unfold queued in Hid. cbn in Hid. apply elem_of_cons in Hid as [->|Hid]; [by exists (request "a")|].
    apply list_elem_of_singleton in Hid as ->. by exists (request "b").
  - intros id H. by destruct H.
  - split; [|intros id i H; by rewrite lookup_empty in H|intros id id' i H; by rewrite lookup_empty in H].
    intros id. rewrite lookup_empty. split; [by intros []|by intros H%not_elem_of_nil].
  - done.
  - split; [apply BlockList.start_inv|intros id pad H; cbn in H; by rewrite lookup_empty in H|]. intros pm [= <-]. by split.
  - split; [done|]. by intros [].
Qed.

Lemma start_short (nst : odict string Z) id n r : od_get id nst = Some n -> reqs start !! id = Some r -> num_tokens r + 1 < 64.
Proof.
  intros _ Hr. cbn in Hr. apply lookup_insert_Some in Hr as [[<- <-]|[_ Hr]]; [done|].
  apply lookup_insert_Some in Hr as [[<- <-]|[_ Hr]]; [done|by rewrite lookup_empty in Hr].
Qed.

Definition no_meta : RBLNSchedulerOutput -> unit -> unit := fun _ x => x.
Definition token : string -> Z := fun _ => 7.
Abbreviation Sched := (Scheduler (E := BlockList.State) (P := FIFOEvictionPolicy) (X := unit)).
Definition step (s : Sched) : res (RBLNSchedulerOutput * Sched) :=
  schedule cfg kvc features no_meta (engine_update token) UNPAUSED s.

(** The scheduled tokens and the cache slots of [n] steps. *)
Fixpoint steps (n : nat) (s : Sched) : res (list (odict string Z * odict string Z)) :=
  match n with
  | O => Ok []
  | S n => '(out, s) ← step s; l ← steps n s; Ok ((out_num_scheduled_tokens out, out_cache_slot_id_dict out) :: l)
  end.

(** Two prefills, then the batch decodes. *)
Example three_steps : steps 3 start = Ok
  [([("a", 10)], [("a", 0)]); ([("b", 10)], [("b", 1)]); ([("a", 1); ("b", 1)], [("a", 0); ("b", 1)])].
Proof. vm_compute. reflexivity. Qed.
End OptToy.
Import OptToy.

Lemma optimum_schedule_returns_witness : exists out s2,
  step start = Ok (out, set_hashes [] (engine_update token out s2)) /\ requests_of s2 ≡ₚ ["a"; "b"] /\ out_total out <= 64.
Proof.
  destruct (optimum_schedule_returns (tracks := fifo_tracks) (bs := 4) (held := BlockList.held) cfg kvc features no_meta
    (engine_update token) UNPAUSED start cfg_ok start_ready) as (out & s2 & H1 & _ & H2 & _ & H3).
  exists out, s2. split; [exact H1|]. split; [exact H2|exact H3].
Defined.

Lemma optimum_prefill_alone_witness : returns (step start) (fun '(out, _) => prefill_alone start out \/ decode_batch UNPAUSED start out).
Proof.
  eapply returns_mono; [apply (optimum_prefill_alone (tracks := fifo_tracks) (bs := 4) (held := BlockList.held) cfg kvc features
    no_meta (engine_update token) UNPAUSED start cfg_ok start_ready)|].
  intros [out s'] [[H _]|H]; [by left|by right].
Defined.

Lemma start_fits : pool_fits_one (bs := 4) (held := BlockList.held) kvc.
Proof.
  split; [done|]. split; [done|]. intros e id _. pose proof (len_nonneg (BlockList.held e id)).
  change (cdiv (kv_max_model_len kvc) 4) with 16. change (get_num_free_blocks e) with 100. lia.
Qed.

Lemma first_running_progresses_witness : returns (step start) (fun '(_, s) => head (running s) = Some "a" /\
  returns (step s) (fun '(out, _) => prefill_alone s out \/ od_get "a" (out_num_scheduled_tokens out) = Some 1)).
Proof.
  assert (match step start with Ok (out, s) => ready s /\ head (running s) = Some "a" | Raise _ => False end) as H.
  { pose proof (step_keeps_ready (tracks := fifo_tracks) (bs := 4) (held := BlockList.held) cfg kvc features
      no_meta token UNPAUSED start cfg_ok start_ready) as Hr.
    assert (match step start with Ok (out, s) => head (running s) = Some "a" | Raise _ => False end) as Hh
      by (vm_compute; reflexivity).
    unfold step in *. destruct (schedule _ _ _ _ _ _ _) as [[out s]|]; [|done]. split; [|done]. apply Hr, start_short. }
  destruct (step start) as [[out s]|]; [|done]. destruct H as [Hs Hh]. split; [exact Hh|].
  exact (first_running_progresses (tracks := fifo_tracks) (bs := 4) (held := BlockList.held) cfg kvc features
    no_meta (engine_update token) UNPAUSED s "a" cfg_ok Hs eq_refl start_fits ltac:(done) Hh).
Defined.

Lemma cache_slots_pinned_witness : returns (step start) (fun '(out, _) =>
  forall i, ("a", i) ∈ out_cache_slot_id_dict out -> 0 <= i < 4 /\ forall j, 0 <= j < i -> False).
Proof.
  eapply returns_mono; [apply (cache_slots_pinned (tracks := fifo_tracks) (bs := 4) (held := BlockList.held) cfg kvc features
    no_meta (engine_update token) UNPAUSED start cfg_ok start_ready)|].
  intros [out s'] [_ H] i Hi. destruct (H "a" i Hi) as (H1 & _ & _ & H2). split; [exact H1|].
  intros j Hj. destruct (H2 j Hj) as [id Hid]. cbn in Hid. by rewrite lookup_empty in Hid.
Defined.

Lemma step_restores_ready_witness : returns (step start) (fun '(out, s') => ready s').
Proof.
  eapply returns_mono; [apply (step_restores_ready (tracks := fifo_tracks) (bs := 4) (held := BlockList.held) cfg kvc features
    no_meta token UNPAUSED start cfg_ok start_ready)|].
  intros [out s'] H. apply H, start_short.
Defined.
End OptimumSpec.
