(* ===== verification/Effects.v ===== *)
(** * Effects: stateful code that may raise and talks to its environment

    A state and error monad in which a raise keeps the state written before it, as
    Python does, with the loops and the [try] of the code, and a weakest precondition
    calculus for it.  The calls that leave the repository are recorded in a history
    together with their answers, and what they answer is a function of the history: the
    environment may be anything that answers. *)
From S2P Require Import Prelude.

(** ** The monad *)
Definition M (S A : Type) : Type := S -> S * res A.

#[export] Instance M_ret {S} : MRet (M S) := fun A a s => (s, Ok a).
#[export] Instance M_bind {S} : MBind (M S) := fun A B f m s =>
  match m s with
  | (s', Ok a) => f a s'
  | (s', Raise e) => (s', Raise e)
  end.

Section ops.
Context {S : Type}.

Definition raise {A} (e : exn) : M S A := fun s => (s, Raise e).
Definition gets {A} (f : S -> A) : M S A := fun s => (s, Ok (f s)).
Definition modify (f : S -> S) : M S unit := fun s => (f s, Ok tt).

(** A lookup or a computation that may raise and changes nothing. *)
Definition lift {A} (r : res A) : M S A := fun s => (s, r).

(** [try: m / except Exception: pass]. *)
Definition try_ignore (m : M S unit) : M S unit := fun s => ((m s).1, Ok tt).

Definition when (b : bool) (m : M S unit) : M S unit := if b then m else mret tt.

(** [for x in l: body(x)], where [continue] is the end of the body. *)
Fixpoint for_each {A} (l : list A) (body : A -> M S unit) : M S unit :=
  match l with
  | [] => mret tt
  | x :: l => body x ;; for_each l body
  end.

(** [while True: r = body(); if r is not None: return r]. *)
Fixpoint loop {A} (fuel : nat) (body : M S (option A)) : M S A :=
  match fuel with
  | O => raise OutOfFuel
  | Datatypes.S fuel =>
      r ← body;
      match r with
      | Some a => mret a
      | None => loop fuel body
      end
  end.
End ops.

(** ** Weakest preconditions

    [Q] is what holds when the call returns, [E] what holds when it raises. *)
Definition wp {S A} (m : M S A) (s : S) (Q : A -> S -> Prop) (E : exn -> S -> Prop) : Prop :=
  match m s with
  | (s', Ok a) => Q a s'
  | (s', Raise e) => E e s'
  end.

Section wp.
Context {S : Type}.
Implicit Types s : S.

Lemma wp_ret {A} (a : A) s Q E : Q a s -> wp (mret a) s Q E.
Proof. done. Qed.

Lemma wp_raise {A} e s (Q : A -> S -> Prop) E : E e s -> wp (raise e) s Q E.
Proof. done. Qed.

Lemma wp_gets {A} (f : S -> A) s Q E : Q (f s) s -> wp (gets f) s Q E.
Proof. done. Qed.

Lemma wp_modify f s Q E : Q tt (f s) -> wp (modify f) s Q E.
Proof. done. Qed.

Lemma wp_lift {A} (r : res A) s Q E :
  (forall a, r = Ok a -> Q a s) -> (forall e, r = Raise e -> E e s) -> wp (lift r) s Q E.
Proof. unfold wp, lift. destruct r; auto. Qed.

Lemma wp_bind {A B} (m : M S A) (f : A -> M S B) s Q E :
  wp m s (fun a s' => wp (f a) s' Q E) E -> wp (m ≫= f) s Q E.
Proof. unfold wp, mbind, M_bind. by destruct (m s) as [s' [a|e]]. Qed.

Lemma wp_mono {A} (m : M S A) s (Q Q' : A -> S -> Prop) (E E' : exn -> S -> Prop) :
  wp m s Q E -> (forall a s', Q a s' -> Q' a s') -> (forall e s', E e s' -> E' e s') ->
  wp m s Q' E'.
Proof. unfold wp. destruct (m s) as [s' [a|e]]; auto. Qed.

Lemma wp_and {A} (m : M S A) s (Q Q' : A -> S -> Prop) (E E' : exn -> S -> Prop) :
  wp m s Q E -> wp m s Q' E' ->
  wp m s (fun a s' => Q a s' /\ Q' a s') (fun e s' => E e s' /\ E' e s').
Proof. unfold wp. destruct (m s) as [s' [a|e]]; auto. Qed.

Lemma wp_try (m : M S unit) s Q E :
  wp m s Q (fun _ s' => Q tt s') -> wp (try_ignore m) s Q E.
Proof. unfold wp, try_ignore. by destruct (m s) as [s' [[]|e]]. Qed.

Lemma wp_when b m s Q E :
  (b = true -> wp m s Q E) -> (b = false -> Q tt s) -> wp (when b m) s Q E.
Proof. destruct b; cbn; intros H1 H2; [auto|]. by apply wp_ret, H2. Qed.

(** The loop rule: [I] speaks of the elements already handled. *)
Lemma wp_for {A} (l : list A) body s (I : list A -> S -> Prop) E :
  I [] s ->
  (forall done_ x todo s', l = done_ ++ x :: todo -> I done_ s' ->
    wp (body x) s' (fun _ s'' => I (done_ ++ [x]) s'') E) ->
  wp (for_each l body) s (fun _ s' => I l s') E.
Proof.
  intros HI Hb. cut (forall todo done_ s', l = done_ ++ todo -> I done_ s' ->
    wp (for_each todo body) s' (fun _ s'' => I l s'') E); [intros H; by apply (H l [])|].
  clear s HI. induction todo as [|x todo IH]; intros done_ s' Hl HI; cbn [for_each].
  - rewrite app_nil_r in Hl. subst. by apply wp_ret.
  - apply wp_bind. eapply wp_mono; [by apply (Hb done_ x todo)| |done]. cbn.
    intros _ s'' H. apply (IH (done_ ++ [x])); [|done]. by rewrite <- app_assoc.
Qed.

(** An invariant that every turn keeps. *)
Lemma wp_for_inv {A} (l : list A) body s (I : S -> Prop) E :
  I s -> (forall x s', x ∈ l -> I s' -> wp (body x) s' (fun _ => I) E) ->
  wp (for_each l body) s (fun _ => I) E.
Proof.
  intros HI Hb. apply (wp_for l body s (fun _ => I)); [done|]. intros d x t s' -> Hs.
  apply Hb; [set_solver|done].
Qed.

(** [measure] bounds the turns that are left: a turn either returns or lowers it. *)
Lemma wp_loop {A} (measure : S -> nat) (I : S -> Prop) fuel (body : M S (option A)) s Q E :
  I s -> (measure s < fuel)%nat ->
  (forall s', I s' -> wp body s' (fun r s'' => match r with
     | Some a => Q a s''
     | None => I s'' /\ (measure s'' < measure s')%nat
     end) E) ->
  wp (loop fuel body) s Q E.
Proof.
  intros HI Hf Hb. revert s HI Hf. induction fuel as [|fuel IH]; intros s HI Hf; [lia|].
  cbn [loop]. apply wp_bind. eapply wp_mono; [by apply Hb| |done].
  intros [a|] s'; [by intros; apply wp_ret|]. intros [HI' Hm]. apply IH; [done|lia].
Qed.
End wp.

(** ** Lenses: code of a component runs on the state of the whole *)
Definition zoom {S T A} (get : S -> T) (put : T -> S -> S) (m : M T A) : M S A := fun s =>
  match m (get s) with (t, r) => (put t s, r) end.

Lemma wp_zoom {S T A} (get : S -> T) (put : T -> S -> S) (m : M T A) s Q E :
  wp m (get s) (fun a t => Q a (put t s)) (fun e t => E e (put t s)) ->
  wp (zoom get put m) s Q E.
Proof. unfold wp, zoom. by destruct (m (get s)) as [t [a|e]]. Qed.

(** Walks over the constructs at the head of a program. *)
Ltac wp_step :=
  lazymatch goal with
  | |- wp (mbind _ _) _ _ _ => apply wp_bind
  | |- wp (mret _) _ _ _ => apply wp_ret
  | |- wp (raise _) _ _ _ => apply wp_raise
  | |- wp (gets _) _ _ _ => apply wp_gets
  | |- wp (modify _) _ _ _ => apply wp_modify
  | |- wp (when _ _) _ _ _ => apply wp_when; intros ?
  | |- wp (try_ignore _) _ _ _ => apply wp_try
  | |- wp (zoom _ _ _) _ _ _ => apply wp_zoom
  | |- wp (match ?x with _ => _ end) _ _ _ => let E := fresh "E" in destruct x eqn:E
  end.
Ltac wp_steps := repeat (wp_step; cbn beta iota).
