(* ===== verification/EcWorld.v ===== *)
(** * Encoder-cache transfer: the messages and the world outside

    The wire types of [rbln_ec_nixl_connector.py], its time constants, and every call it
    makes of NIXL, ZMQ, the clock and the allocator.  An object of NIXL that the code only
    passes around (descriptors, handles) is an integer that names it. *)
From S2P Require Import Prelude Effects.

(** ** Wire protocol *)
Record ECNixlTensorInfo := {
  base_addr : Z;
  nbytes : Z;
  device_id : Z;
  shape : list Z;
  dtype_str : string
}.

Record ECNixlMetadata := {
  m_engine_id : string;
  m_mm_hash : string;
  agent_metadata : string;
  tensor : ECNixlTensorInfo;
  m_ack_host : string;
  m_ack_port : Z
}.

Record ECNixlAck := {
  a_mm_hash : string;
  a_engine_id : string;
  status : string;
  consumer_engine_id : string
}.

(** A PyTorch tensor on the CPU, as far as the connector looks at it. *)
Record Tensor := {
  data_ptr : Z;
  numel : Z;
  element_size : Z;
  t_shape : list Z;
  dtype : string
}.

(** Times are nanoseconds. *)
Definition second : Z := 1000000000.
Definition CACHE_WAIT_TIMEOUT : Z := 30 * second.
Definition XFER_POLL_INTERVAL : Z := 1000000.

Record Config := {
  is_producer : bool;
  is_consumer : bool;
  cfg_engine_id : string;
  metadata_queue_max : Z;
  max_concurrent_pulls : Z;
  producer_cache_capacity : Z;
  producer_cache_ttl : Z;
  ack_host : string;
  ack_port : Z;
  ack_queue_max : Z;
  dead_threshold : Z
}.

(** [queue.Queue(maxsize).full()]: a bound that is not positive is no bound. *)
Definition queue_full {A} (maxsize : Z) (q : list A) : bool :=
  (0 <? maxsize) && (maxsize <=? len q).

Definition _DTYPE_SIZES : list (string * Z) :=
  [("torch.float16", 2); ("torch.bfloat16", 2); ("torch.float32", 4);
   ("torch.int64", 8); ("torch.int32", 4)]%string.

Definition dtype_size (dtype_str : string) : res Z :=
  of_option (od_get dtype_str _DTYPE_SIZES) ValueError.

(** [t.reshape(shape)], for a shape without negative entries. *)
Definition reshape (t : Tensor) (sh : list Z) : res Tensor :=
  if foldr Z.mul 1 sh =? numel t
  then Ok {| data_ptr := data_ptr t; numel := numel t; element_size := element_size t;
             t_shape := sh; dtype := dtype t |}
  else Raise RuntimeError.

(** ** Calls that leave the repository

    [Deliver] and [SetOrder] are not calls: the first is a point where the main thread can
    be interrupted, and answers what the socket gives the receiver thread there ([None] is
    a message that does not decode); the second is the order in which [list(s)] lists a
    set. *)
Inductive call :=
  | Monotonic
  | AlignedTensor (n : Z)
  | GetRegDescs (addr size : Z)
  | RegisterMemory (descs : Z)
  | DeregisterMemory (descs : Z)
  | AddRemoteAgent (md : string)
  | RemoveRemoteAgent (name : string)
  | PrepXferDlist (agent : string) (addr size dev : Z)
  | MakePreppedXfer (local remote : Z)
  | Transfer (handle : Z)
  | CheckXferState (handle : Z)
  | ReleaseXferHandle (handle : Z)
  | GetAgentMetadata
  | PushMetadata (m : ECNixlMetadata)
  | SendAck (addr : string * Z) (a : ECNixlAck)
  | Sleep (duration : Z)
  | Deliver
  | SetOrder (X : gset string).

Definition ans (c : call) : Type :=
  match c with
  | Monotonic | GetRegDescs _ _ | PrepXferDlist _ _ _ _ | MakePreppedXfer _ _ => Z
  | AlignedTensor _ => Tensor
  | RegisterMemory _ | DeregisterMemory _ | RemoveRemoteAgent _ | ReleaseXferHandle _
  | PushMetadata _ | Sleep _ => unit
  | AddRemoteAgent _ | Transfer _ | CheckXferState _ | GetAgentMetadata => string
  | SendAck _ _ => bool
  | Deliver => list (option ECNixlMetadata)
  | SetOrder _ => list string
  end.

Record event := Event { ev_call : call; ev_answer : res (ans ev_call) }.

(** What happened, the latest event first. *)
Abbreviation history := (list event).

(** The environment.  Reading the clock, sleeping, being interrupted and listing a set do
    not raise. *)
Class Env := {
  clock : history -> Z;
  deliveries : history -> list (option ECNixlMetadata);
  set_order : history -> gset string -> list string;
  reply : history -> forall c : call, res (ans c)
}.

Definition answer `{Env} (h : history) (c : call) : res (ans c) :=
  match c with
  | Monotonic => Ok (clock h)
  | Sleep _ => Ok tt
  | Deliver => Ok (deliveries h)
  | SetOrder X => Ok (set_order h X)
  | c => reply h c
  end.

Definition perform `{Env} {P} (c : call) : M (P * history) (ans c) := fun s =>
  ((s.1, Event c (answer s.2 c) :: s.2), answer s.2 c).

(** The documented behaviour that the code relies on: the clock never goes back, a sleep
    takes at least the time asked for, a set is listed without repetition; and the fuel of
    the model is no exception of Python. *)
Class EnvLaws `{Env} := {
  clock_mono h e : clock h <= clock (e :: h);
  clock_sleep h d r : clock h + d <= clock (Event (Sleep d) r :: h);
  set_order_spec h X : set_order h X ≡ₚ elements X;
  reply_no_fuel h c : reply h c <> Raise OutOfFuel
}.

Definition is_ok {A} (r : res A) : bool := match r with Ok _ => true | Raise _ => false end.

(** ** Reading the history *)

(** Descriptors registered with NIXL; those given back; and those leaked, because
    [deregister_memory] raised, which the code only logs. *)
Definition registered1 (e : event) : list Z :=
  match ev_call e with
  | RegisterMemory d => if is_ok (ev_answer e) then [d] else []
  | _ => []
  end.
Definition deregistered1 (e : event) : list Z :=
  match ev_call e with
  | DeregisterMemory d => if is_ok (ev_answer e) then [d] else []
  | _ => []
  end.
Definition leaked1 (e : event) : list Z :=
  match ev_call e with
  | DeregisterMemory d => if is_ok (ev_answer e) then [] else [d]
  | _ => []
  end.
Definition registered (h : history) : list Z := h ≫= registered1.
Definition deregistered (h : history) : list Z := h ≫= deregistered1.
Definition leaked (h : history) : list Z := h ≫= leaked1.

(** Transfer handles made; those released; and those lost, because [release_xfer_handle]
    raised. *)
Definition made1 (e : event) : list Z :=
  match e with
  | Event (MakePreppedXfer _ _) (Ok x) => [x]
  | _ => []
  end.
Definition released1 (e : event) : list Z :=
  match ev_call e with
  | ReleaseXferHandle x => if is_ok (ev_answer e) then [x] else []
  | _ => []
  end.
Definition lost1 (e : event) : list Z :=
  match ev_call e with
  | ReleaseXferHandle x => if is_ok (ev_answer e) then [] else [x]
  | _ => []
  end.
Definition made (h : history) : list Z := h ≫= made1.
Definition released (h : history) : list Z := h ≫= released1.
Definition lost (h : history) : list Z := h ≫= lost1.

(** What the code tried to give back and to release, whatever NIXL answered. *)
Definition disowned1 (e : event) : list Z :=
  match ev_call e with DeregisterMemory d => [d] | _ => [] end.
Definition let_go1 (e : event) : list Z :=
  match ev_call e with ReleaseXferHandle x => [x] | _ => [] end.
Definition disowned (h : history) : list Z := h ≫= disowned1.
Definition let_go (h : history) : list Z := h ≫= let_go1.

(** Acknowledgements that left. *)
Definition acked1 (e : event) : list ECNixlAck :=
  match e with
  | Event (SendAck _ a) (Ok true) => [a]
  | _ => []
  end.
Definition acked (h : history) : list ECNixlAck := h ≫= acked1.

(** Metadata pushed to the consumer. *)
Definition pushed1 (e : event) : list ECNixlMetadata :=
  match e with
  | Event (PushMetadata m) (Ok _) => [m]
  | _ => []
  end.
Definition pushed (h : history) : list ECNixlMetadata := h ≫= pushed1.

(** Remote agents added and removed. *)
Definition added1 (e : event) : list string :=
  match e with
  | Event (AddRemoteAgent _) (Ok name) => [name]
  | _ => []
  end.
Definition removed1 (e : event) : list string :=
  match e with
  | Event (RemoveRemoteAgent name) (Ok _) => [name]
  | _ => []
  end.
Definition added (h : history) : list string := h ≫= added1.
Definition removed (h : history) : list string := h ≫= removed1.

#[global] Arguments registered : simpl never.
#[global] Arguments deregistered : simpl never.
#[global] Arguments leaked : simpl never.
#[global] Arguments made : simpl never.
#[global] Arguments released : simpl never.
#[global] Arguments lost : simpl never.
#[global] Arguments disowned : simpl never.
#[global] Arguments let_go : simpl never.
#[global] Arguments acked : simpl never.
#[global] Arguments pushed : simpl never.
#[global] Arguments added : simpl never.
#[global] Arguments removed : simpl never.

(** An attempt succeeded or failed. *)
Lemma bind_split {A B} (f g h : A -> list B) (l : list A) :
  (forall x, f x = g x ++ h x) -> l ≫= f ≡ₚ (l ≫= g) ++ (l ≫= h).
Proof.
  intros Hf. induction l as [|x l IH]; [done|]. rewrite !bind_cons, Hf, IH. solve_Permutation.
Qed.

Lemma disowned_split (h : history) : disowned h ≡ₚ deregistered h ++ leaked h.
Proof.
  apply bind_split. intros [[] r]; try done. unfold disowned1, deregistered1, leaked1. cbn.
  by destruct r.
Qed.

Lemma let_go_split (h : history) : let_go h ≡ₚ released h ++ lost h.
Proof.
  apply bind_split. intros [[] r]; try done. unfold let_go1, released1, lost1. cbn.
  by destruct r.
Qed.

Section perform.
Context `{Env} {P : Type}.
Implicit Types s : P * history.

Lemma wp_perform (c : call) s (Q : ans c -> P * history -> Prop) E :
  (forall a, answer s.2 c = Ok a -> Q a (s.1, Event c (Ok a) :: s.2)) ->
  (forall e, answer s.2 c = Raise e -> E e (s.1, Event c (Raise e) :: s.2)) ->
  wp (perform c) s Q E.
Proof. unfold wp, perform. destruct (answer s.2 c) as [a|e] eqn:Ea; auto. Qed.
End perform.

(** Applies [wp_perform] to the call at the head; some calls cannot raise. *)
Ltac wp_call :=
  lazymatch goal with
  | |- wp (perform ?c) ?s ?Q ?E => refine (wp_perform c s Q E _ _); [|try solve [intros ??; discriminate]]; cbn [fst snd]
  end.

(** A small world for concrete runs: every call answers, a call takes a nanosecond, a
    transfer is done when it is polled, and nothing arrives by itself. *)
Module EcToy.

Definition nap (c : call) : Z := match c with Sleep d => Z.max d 0 | _ => 0 end.

Fixpoint toy_clock (h : history) : Z :=
  match h with
  | [] => 0
  | e :: h => 1 + nap (ev_call e) + toy_clock h
  end.

Definition toy_reply (h : history) (c : call) : res (ans c) :=
  match c return res (ans c) with
  | AlignedTensor n => Ok {| data_ptr := 4096 * len h; numel := n; element_size := 2;
                             t_shape := [n]; dtype := "torch.float16" |}
  | Monotonic | GetRegDescs _ _ | PrepXferDlist _ _ _ _ | MakePreppedXfer _ _ => Ok (len h)
  | RegisterMemory _ | DeregisterMemory _ | RemoveRemoteAgent _ | ReleaseXferHandle _
  | PushMetadata _ | Sleep _ => Ok tt
  | AddRemoteAgent md => Ok md
  | Transfer _ => Ok "PROC"%string
  | CheckXferState _ => Ok "DONE"%string
  | GetAgentMetadata => Ok "agent"%string
  | SendAck _ _ => Ok true
  | Deliver => Ok []
  | SetOrder X => Ok (elements X)
  end.

Definition toy_env : Env :=
  {| clock := toy_clock; deliveries _ := []; set_order _ X := elements X;
     reply := toy_reply |}.

Lemma toy_laws : @EnvLaws toy_env.
Proof.
  split; [|intros h d r; cbn; lia|done|by intros h []].
  intros h e. cbn. destruct (ev_call e); cbn; lia.
Qed.

(** The same world, but NIXL refuses to take descriptors and handles back. *)
Definition clumsy_reply (h : history) (c : call) : res (ans c) :=
  match c return res (ans c) with
  | DeregisterMemory _ | ReleaseXferHandle _ => Raise RuntimeError
  | c => toy_reply h c
  end.

Definition clumsy_env : Env :=
  {| clock := toy_clock; deliveries _ := []; set_order _ X := elements X;
     reply := clumsy_reply |}.

Lemma clumsy_laws : @EnvLaws clumsy_env.
Proof.
  split; [|intros h d r; cbn; lia|done|by intros h []].
  intros h e. cbn. destruct (ev_call e); cbn; lia.
Qed.

Definition toy_cfg : Config :=
  {| is_producer := true; is_consumer := false; cfg_engine_id := "encoder";
     metadata_queue_max := 4; max_concurrent_pulls := 2; producer_cache_capacity := 2;
     producer_cache_ttl := 100 * second; ack_host := "127.0.0.1"; ack_port := 7000;
     ack_queue_max := 4; dead_threshold := 180 * second |}.

Definition image (n : Z) : Tensor :=
  {| data_ptr := 1; numel := n; element_size := 2; t_shape := [n]; dtype := "torch.float16" |}.
End EcToy.
