(* ===== verification/EcProducer.v ===== *)
(** * Encoder-cache transfer: the producer

    The encoder side of [RblnECNixlConnectorWorker]: the outputs it keeps registered with
    NIXL until the consumer acknowledges them, the acknowledgement thread, and the
    liveness of the consumers. *)
From S2P Require Import Prelude Effects EcWorld.

(** ** State

    [ack_in_hand] is the local variable of the acknowledgement thread while it waits for
    room in the queue. *)
Record Producer := {
  registered_caches : odict string Tensor;
  registered_descs : odict string Z;
  registered_timestamps : odict string Z;
  last_seen : odict string Z;
  engine_alive : odict string bool;
  incoming_acks : list ECNixlAck;
  ack_in_hand : option ECNixlAck
}.

Definition set_registered_caches (x : odict string Tensor) (s : Producer) : Producer :=
  {| registered_caches := x; registered_descs := registered_descs s; registered_timestamps
     := registered_timestamps s; last_seen := last_seen s; engine_alive := engine_alive s;
     incoming_acks := incoming_acks s; ack_in_hand := ack_in_hand s |}.

Definition set_registered_descs (x : odict string Z) (s : Producer) : Producer :=
  {| registered_caches := registered_caches s; registered_descs := x; registered_timestamps
     := registered_timestamps s; last_seen := last_seen s; engine_alive := engine_alive s;
     incoming_acks := incoming_acks s; ack_in_hand := ack_in_hand s |}.

Definition set_registered_timestamps (x : odict string Z) (s : Producer) : Producer :=
  {| registered_caches := registered_caches s; registered_descs := registered_descs s;
     registered_timestamps := x; last_seen := last_seen s; engine_alive := engine_alive s;
     incoming_acks := incoming_acks s; ack_in_hand := ack_in_hand s |}.

Definition set_last_seen (x : odict string Z) (s : Producer) : Producer :=
  {| registered_caches := registered_caches s; registered_descs := registered_descs s;
     registered_timestamps := registered_timestamps s; last_seen := x; engine_alive :=
     engine_alive s; incoming_acks := incoming_acks s; ack_in_hand := ack_in_hand s |}.

Definition set_engine_alive (x : odict string bool) (s : Producer) : Producer :=
  {| registered_caches := registered_caches s; registered_descs := registered_descs s;
     registered_timestamps := registered_timestamps s; last_seen := last_seen s;
     engine_alive := x; incoming_acks := incoming_acks s; ack_in_hand := ack_in_hand s |}.

Definition set_incoming_acks (x : list ECNixlAck) (s : Producer) : Producer :=
  {| registered_caches := registered_caches s; registered_descs := registered_descs s;
     registered_timestamps := registered_timestamps s; last_seen := last_seen s;
     engine_alive := engine_alive s; incoming_acks := x; ack_in_hand := ack_in_hand s |}.

Definition set_ack_in_hand (x : option ECNixlAck) (s : Producer) : Producer :=
  {| registered_caches := registered_caches s; registered_descs := registered_descs s;
     registered_timestamps := registered_timestamps s; last_seen := last_seen s;
     engine_alive := engine_alive s; incoming_acks := incoming_acks s; ack_in_hand := x |}.

Definition new_producer : Producer :=
  {| registered_caches := []; registered_descs := []; registered_timestamps := [];
     last_seen := []; engine_alive := []; incoming_acks := []; ack_in_hand := None |}.

Section producer.
Context `{Env} (cfg : Config).

Definition PM (A : Type) : Type := M (Producer * history) A.

Definition pgets {A} (f : Producer -> A) : PM A := gets (fun s => f s.1).
Definition pmodify (f : Producer -> Producer) : PM unit := modify (fun s => (f s.1, s.2)).

(** ** Liveness of the consumers *)
Definition record_liveness (consumer : string) : PM unit :=
  if decide (consumer = ""%string) then mret tt
  else
    now ← perform Monotonic;
    pmodify (fun p => set_last_seen (od_set consumer now (last_seen p)) p) ;;
    pmodify (fun p => set_engine_alive (od_set consumer true (engine_alive p)) p).

Definition check_engine_liveness : PM unit :=
  now ← perform Monotonic;
  seen ← pgets last_seen;
  for_each seen (fun kv =>
    alive ← pgets engine_alive;
    when (default false (od_get kv.1 alive) && (dead_threshold cfg <? now - kv.2))
      (pmodify (fun p => set_engine_alive (od_set kv.1 false (engine_alive p)) p))).

(** ** Eviction *)
Definition evict_producer_entry (mm_hash : string) : PM unit :=
  descs ← pgets (fun p => od_get mm_hash (registered_descs p));
  pmodify (fun p => set_registered_descs (od_pop mm_hash (registered_descs p)) p) ;;
  match descs with
  | Some d => try_ignore (perform (DeregisterMemory d))
  | None => mret tt
  end ;;
  pmodify (fun p => set_registered_caches (od_pop mm_hash (registered_caches p)) p) ;;
  pmodify (fun p => set_registered_timestamps (od_pop mm_hash (registered_timestamps p)) p).

(** [while True: ack = incoming_acks.get_nowait() ...]; every turn takes one, so the length
    of the queue bounds the turns. *)
Definition drain_acks : PM unit :=
  fuel ← pgets (fun p => length (incoming_acks p));
  loop (S fuel) (
    acks ← pgets incoming_acks;
    match acks with
    | [] => mret (Some tt)
    | ack :: acks =>
        pmodify (set_incoming_acks acks) ;;
        caches ← pgets registered_caches;
        when (bool_decide (a_mm_hash ack ∈ od_keys caches))
          (evict_producer_entry (a_mm_hash ack)) ;;
        mret None
    end).

Definition expired (now : Z) (stamps : odict string Z) : list string :=
  (filter (fun kv => producer_cache_ttl cfg < now - kv.2) stamps).*1.

Definition sweep_expired_producer_entries : PM unit :=
  now ← perform Monotonic;
  stamps ← pgets registered_timestamps;
  for_each (expired now stamps) evict_producer_entry.

Definition admit_producer_entry : PM unit :=
  sweep_expired_producer_entries ;;
  fuel ← pgets (fun p => length (registered_caches p));
  loop (S fuel) (
    caches ← pgets registered_caches;
    if producer_cache_capacity cfg <=? len caches then
      match caches with
      | [] => raise StopIteration
      | (oldest, _) :: _ => evict_producer_entry oldest ;; mret None
      end
    else mret (Some tt)).

(** ** Operations of the main thread *)
Definition aligned_copy (t : Tensor) : PM Tensor :=
  flat ← perform (AlignedTensor (numel t));
  lift (reshape flat (t_shape t)).

Definition tensor_info (buf : Tensor) : ECNixlTensorInfo :=
  {| base_addr := data_ptr buf; nbytes := numel buf * element_size buf; device_id := 0;
     shape := t_shape buf; dtype_str := dtype buf |}.

(** The end of [save_caches]: register, record, push. *)
Definition publish (mm_hash : string) (buf : Tensor) : PM unit :=
  descs ← perform (GetRegDescs (data_ptr buf) (nbytes (tensor_info buf)));
  perform (RegisterMemory descs) ;;
  pmodify (fun p => set_registered_caches (od_set mm_hash buf (registered_caches p)) p) ;;
  pmodify (fun p => set_registered_descs (od_set mm_hash descs (registered_descs p)) p) ;;
  now ← perform Monotonic;
  pmodify (fun p =>
    set_registered_timestamps (od_set mm_hash now (registered_timestamps p)) p) ;;
  md ← perform GetAgentMetadata;
  perform (PushMetadata
    {| m_engine_id := cfg_engine_id cfg; m_mm_hash := mm_hash; agent_metadata := md;
       tensor := tensor_info buf; m_ack_host := ack_host cfg;
       m_ack_port := ack_port cfg |}).

Definition save_caches (encoder_cache : gmap string Tensor) (mm_hash : string) : PM unit :=
  if negb (is_producer cfg) then mret tt
  else
    drain_acks ;;
    caches ← pgets registered_caches;
    if bool_decide (mm_hash ∈ od_keys caches) then mret tt
    else
      t ← lift (of_option (encoder_cache !! mm_hash) KeyError);
      buf ← aligned_copy t;
      admit_producer_entry ;;
      publish mm_hash buf.

(** The part of [request_finished] under [if self.is_producer]. *)
Definition producer_request_finished (identifiers : list string) : PM unit :=
  drain_acks ;;
  for_each identifiers evict_producer_entry.

(** The part of [shutdown] that gives the registrations back. *)
Definition producer_shutdown : PM unit :=
  keys ← pgets (fun p => od_keys (registered_descs p));
  for_each keys evict_producer_entry.

(** ** The acknowledgement thread

    One turn of [_ack_receiver_loop]: [msg] is what the socket gave ([None]: nothing,
    [Some None]: a message that does not decode).  While an acknowledgement waits for room
    in the queue, the turns only try to put it. *)
Definition put_ack (ack : ECNixlAck) : PM unit :=
  acks ← pgets incoming_acks;
  if queue_full (ack_queue_max cfg) acks
  then pmodify (set_ack_in_hand (Some ack))
  else pmodify (set_incoming_acks (acks ++ [ack])) ;; pmodify (set_ack_in_hand None).

Definition ack_receiver_turn (msg : option (option ECNixlAck)) : PM unit :=
  in_hand ← pgets ack_in_hand;
  match in_hand with
  | Some ack => put_ack ack
  | None =>
      check_engine_liveness ;;
      match msg with
      | Some (Some ack) =>
          record_liveness (consumer_engine_id ack) ;;
          if decide (status ack = "ping"%string) then mret tt else put_ack ack
      | _ => mret tt
      end
  end.

(** What the two threads of a producer may do, one after another. *)
Inductive producer_op :=
  | SaveCaches (encoder_cache : gmap string Tensor) (mm_hash : string)
  | FinishRequest (identifiers : list string)
  | ReceiveAck (msg : option (option ECNixlAck))
  | ProducerShutdown.

Definition run_producer_op (op : producer_op) : PM unit :=
  match op with
  | SaveCaches cache h => save_caches cache h
  | FinishRequest ids => producer_request_finished ids
  | ReceiveAck msg => ack_receiver_turn msg
  | ProducerShutdown => producer_shutdown
  end.

(** A call that raises leaves the state it reached. *)
Definition run_producer (ops : list producer_op) (s : Producer * history) :
    Producer * history :=
  foldl (fun s op => (run_producer_op op s).1) s ops.
End producer.
