(* ===== verification/EcProducerSpec.v ===== *)
(** * Encoder-cache transfer: what the producer promises *)
From S2P Require Import Prelude Effects EcWorld EcProducer.

(** ** The history *)
Section history.
Implicit Types h : history.

Lemma registered_cons e h : registered (e :: h) = registered1 e ++ registered h.
Proof. done. Qed.
Lemma disowned_cons e h : disowned (e :: h) = disowned1 e ++ disowned h.
Proof. done. Qed.
Lemma pushed_cons e h : pushed (e :: h) = pushed1 e ++ pushed h.
Proof. done. Qed.
End history.

Lemma od_values_pop {V} (k : string) (v : V) (d : odict string V) :
  NoDup (od_keys d) -> od_get k d = Some v -> od_values d ≡ₚ v :: od_values (od_pop k d).
Proof.
  intros Hnd Hg. destruct (od_pop_split k v d Hnd Hg) as (d1 & d2 & -> & ->).
  unfold od_values. rewrite !fmap_app, fmap_cons. cbn. solve_Permutation.
Qed.

Lemma od_values_set_new {V} (k : string) (v : V) (d : odict string V) :
  k ∉ od_keys d -> od_values (od_set k v d) = od_values d ++ [v].
Proof. intros Hk. rewrite od_set_new by done. unfold od_values. by rewrite fmap_app. Qed.

(** ** The invariant of the producer *)
Section spec.
Context `{Env} `{!EnvLaws} (cfg : Config).
Implicit Types s : Producer * history.

Lemma clock_app l h : clock h <= clock (l ++ h).
Proof. induction l as [|e l IH]; cbn; [lia|]. pose proof (clock_mono (l ++ h) e). lia. Qed.

(** The three dicts have the same keys, in the same order, each once; what is registered
    with NIXL and was not disowned is what they hold. *)
Record entries_ok s : Prop := {
  ok_descs : od_keys (registered_descs s.1) = od_keys (registered_caches s.1);
  ok_stamps : od_keys (registered_timestamps s.1) = od_keys (registered_caches s.1);
  ok_nodup : NoDup (od_keys (registered_caches s.1));
  ok_ledger : registered s.2 ≡ₚ disowned s.2 ++ od_values (registered_descs s.1)
}.

(** [mm_hash] removed from the three dicts. *)
Definition without (mm_hash : string) (p : Producer) : Producer :=
  set_registered_timestamps (od_pop mm_hash (registered_timestamps p))
    (set_registered_caches (od_pop mm_hash (registered_caches p))
      (set_registered_descs (od_pop mm_hash (registered_descs p)) p)).

Lemma entries_ok_without h p hist hist' : entries_ok (p, hist) ->
  registered hist' = registered hist ->
  disowned hist' = option_list (od_get h (registered_descs p)) ++ disowned hist ->
  entries_ok (without h p, hist').
Proof.
  intros [Hd Ht Hn Hl] Hr Hdr. cbn [fst snd] in *. constructor; cbn.
  - by rewrite !od_keys_pop, Hd.
  - by rewrite !od_keys_pop, Ht.
  - by apply NoDup_od_pop.
  - rewrite Hr, Hdr, Hl. destruct (od_get h (registered_descs p)) as [d|] eqn:Eg; cbn.
    + rewrite (od_values_pop h d) by (rewrite ?Hd; done). solve_Permutation.
    + by rewrite od_pop_notin by (by apply not_elem_of_od_keys).
Qed.

(** [s'] is [s] after the entries of [gone] were evicted. *)
Definition keep {V} (gone : list string) (d : odict string V) : odict string V :=
  filter (fun kv => kv.1 ∉ gone) d.

Record trimmed (gone : list string) s s' : Prop := {
  tr_ok : entries_ok s';
  tr_caches : registered_caches s'.1 = keep gone (registered_caches s.1);
  tr_stamps : registered_timestamps s'.1 = keep gone (registered_timestamps s.1);
  tr_seen : last_seen s'.1 = last_seen s.1;
  tr_alive : engine_alive s'.1 = engine_alive s.1;
  tr_clock : clock s.2 <= clock s'.2;
  tr_pushed : pushed s'.2 = pushed s.2
}.

Lemma keep_nil {V} (d : odict string V) : keep [] d = d.
Proof. apply list_filter_all. set_solver. Qed.

Lemma keep_app {V} g1 g2 (d : odict string V) : keep g2 (keep g1 d) = keep (g1 ++ g2) d.
Proof. unfold keep. rewrite list_filter_filter. apply list_filter_iff. set_solver. Qed.

Lemma keep_pop {V} h (d : odict string V) : od_pop h d = keep [h] d.
Proof. unfold keep, od_pop. apply list_filter_iff. set_solver. Qed.

Lemma od_keys_keep {V} g (d : odict string V) :
  od_keys (keep g d) = filter (fun k => k ∉ g) (od_keys d).
Proof.
  unfold keep, od_keys. induction d as [|[k v] d IH]; [done|].
  rewrite fmap_cons, !filter_cons. cbn [fst]. case_decide; rewrite ?fmap_cons, IH; done.
Qed.

Lemma trimmed_refl s : entries_ok s -> trimmed [] s s.
Proof. intros Hok. split; rewrite ?keep_nil; done. Qed.

Lemma trimmed_trans g1 g2 s1 s2 s3 :
  trimmed g1 s1 s2 -> trimmed g2 s2 s3 -> trimmed (g1 ++ g2) s1 s3.
Proof.
  intros [? C1 T1 S1 A1 ? ?] [? C2 T2 S2 A2 ? ?]. split; try congruence; [| |lia].
  - by rewrite C2, C1, keep_app.
  - by rewrite T2, T1, keep_app.
Qed.

Lemma evict_ok h s E : entries_ok s ->
  wp (evict_producer_entry h) s
    (fun _ s' => trimmed [h] s s' /\ incoming_acks s'.1 = incoming_acks s.1) E.
Proof.
  intros Hok. destruct s as [p hist]. cbn [fst snd] in *.
  unfold evict_producer_entry, pgets, pmodify. do 4 wp_step. cbn [fst snd]. wp_step.
  assert (HQ : forall hist', entries_ok (without h p, hist') -> clock hist <= clock hist' ->
    pushed hist' = pushed hist -> trimmed [h] (p, hist) (without h p, hist')).
  { intros hist' Hok' Hc Hp. split; cbn [fst snd]; try done; cbn; apply keep_pop. }
  destruct (od_get h (registered_descs p)) as [d|] eqn:Eg.
  - wp_step. wp_call; intros a _; wp_steps; (split; [|done]); apply HQ; try apply clock_mono;
      try done; apply (entries_ok_without h p hist); try done; by rewrite Eg.
  - wp_steps. split; [|done]. apply HQ; [|done|done].
    apply (entries_ok_without h p hist); try done. by rewrite Eg.
Qed.

Lemma evict_all_ok l s E : entries_ok s ->
  wp (for_each l evict_producer_entry) s
    (fun _ s' => trimmed l s s' /\ incoming_acks s'.1 = incoming_acks s.1) E.
Proof.
  intros Hok.
  apply (wp_for l evict_producer_entry s
    (fun d s' => trimmed d s s' /\ incoming_acks s'.1 = incoming_acks s.1)).
  - split; [by apply trimmed_refl|done].
  - intros d x t s' _ [Ht Ha]. eapply wp_mono; [apply evict_ok, Ht| |done].
    intros _ s'' [Ht' Ha']. split; [by eapply trimmed_trans|congruence].
Qed.

(** ** Acknowledgements *)
Lemma keep_absent {V} h (d : odict string V) : h ∉ od_keys d -> keep [h] d = d.
Proof. intros. rewrite <- keep_pop. by apply od_pop_notin. Qed.

Lemma trimmed_absent h s : entries_ok s -> h ∉ od_keys (registered_caches s.1) ->
  trimmed [h] s s.
Proof.
  intros Hok Hh. split; try done; rewrite keep_absent; try done.
  by rewrite (ok_stamps _ Hok).
Qed.

Lemma trimmed_acks g s s' l : trimmed g s s' ->
  trimmed g s (set_incoming_acks l s'.1, s'.2).
Proof. intros [[]]. split; try done. Qed.

Lemma acks_drain_ok s E : entries_ok s ->
  wp drain_acks s (fun _ s' =>
    trimmed (a_mm_hash <$> incoming_acks s.1) s s' /\ incoming_acks s'.1 = []) E.
Proof.
  intros Hok. unfold drain_acks, pgets, pmodify. do 2 wp_step.
  apply (wp_loop (fun s' => length (incoming_acks s'.1)) (fun s' => exists done_,
    incoming_acks s.1 = done_ ++ incoming_acks s'.1 /\ trimmed (a_mm_hash <$> done_) s s')).
  { exists []. split; [done|by apply trimmed_refl]. }
  { lia. }
  intros s' (done_ & Hd & Ht). do 2 wp_step.
  destruct (incoming_acks s'.1) as [|ack acks] eqn:Ea; wp_step.
  { split; [|done]. by rewrite Hd, app_nil_r. }
  do 5 wp_step; cbn [fst snd]. 
  - eapply wp_mono; [apply evict_ok|..]; [by apply (trimmed_acks _ _ _ acks Ht)| |done].
    intros _ s'' [Ht' Ha']. wp_steps. rewrite Ha'. cbn. split; [|lia]. exists (done_ ++ [ack]).
    rewrite fmap_app. split; [by rewrite <- app_assoc|].
    eapply trimmed_trans; [by apply (trimmed_acks _ _ _ acks Ht)|done].
  - zbool. wp_steps. cbn. split; [|lia]. exists (done_ ++ [ack]).
    rewrite fmap_app. split; [by rewrite <- app_assoc|].
    eapply trimmed_trans; [by apply (trimmed_acks _ _ _ acks Ht)|].
    apply trimmed_absent; [|done]. by apply (trimmed_acks _ _ _ acks Ht).
Qed.
(** ** Admission *)
Lemma keep_take {V} k (d : odict string V) : NoDup (od_keys d) ->
  keep (take k (od_keys d)) d = drop k d.
Proof.
  revert k. induction d as [|[x v] d IH]; intros k Hn; [by destruct k|].
  unfold od_keys in Hn. rewrite fmap_cons in Hn. apply NoDup_cons in Hn as [Hx Hn].
  destruct k as [|k]; [by rewrite keep_nil|]. unfold od_keys. rewrite fmap_cons.
  cbn [fst take drop]. unfold keep at 1. rewrite filter_cons_False by (cbn; set_solver).
  change (keep ([x] ++ take k (od_keys d)) d = drop k d).
  rewrite <- keep_app, keep_absent by done. by apply IH.
Qed.

Lemma keep_all {V} (d : odict string V) : NoDup (od_keys d) -> keep (od_keys d) d = [].
Proof.
  intros Hn. rewrite <- (take_ge (od_keys d) (length d)) by (unfold od_keys; by rewrite length_fmap).
  rewrite keep_take by done. by apply drop_ge.
Qed.

Lemma keep_head {V} k (d : odict string V) x v rest : NoDup (od_keys d) ->
  drop k d = (x, v) :: rest ->
  keep [x] (drop k d) = drop (S k) d /\ take (S k) (od_keys d) = take k (od_keys d) ++ [x].
Proof.
  intros Hn E.
  assert (Hk : take (S k) (od_keys d) = take k (od_keys d) ++ [x]).
  { apply take_S_r. unfold od_keys. rewrite list_lookup_fmap.
    replace (d !! k) with (drop k d !! 0%nat) by (by rewrite lookup_drop, Nat.add_0_r).
    by rewrite E. }
  split; [|done]. rewrite <- (keep_take (S k)), <- (keep_take k) by done.
  by rewrite keep_app, Hk.
Qed.

(** How many entries the capacity pushes out of a cache of [n]. *)
Definition excess (n : Z) : nat := Z.to_nat (n - (producer_cache_capacity cfg - 1)).

(** What an admission evicts at time [now]: the expired entries, then the oldest ones. *)
Definition pushed_out (now : Z) (p : Producer) : list string :=
  let old := expired cfg now (registered_timestamps p) in
  let fresh := od_keys (keep old (registered_caches p)) in
  old ++ take (excess (len fresh)) fresh.

(** The reference definition of a cache with a time to live and a capacity: of the entries
    that are neither acknowledged nor expired, the newest, one short of the capacity. *)
Definition retained (acked : list string) (now : Z) (caches : odict string Tensor)
    (stamps : odict string Z) : odict string Tensor :=
  let old := (filter (fun kv => producer_cache_ttl cfg < now - kv.2) (keep acked stamps)).*1 in
  let fresh := keep old (keep acked caches) in
  drop (excess (len fresh)) fresh.

Lemma sweep_ok s E : entries_ok s ->
  wp (sweep_expired_producer_entries cfg) s (fun _ s' =>
    trimmed (expired cfg (clock s.2) (registered_timestamps s.1)) s s') E.
Proof.
  intros Hok. unfold sweep_expired_producer_entries, pgets. wp_step. wp_call. intros now [= <-]. wp_steps. cbn [fst snd].
  set (s1 := (s.1, _)). assert (Ht1 : trimmed [] s s1).
  { split; rewrite ?keep_nil; cbn; try done; [|apply clock_mono]. by destruct Hok. }
  eapply wp_mono; [apply evict_all_ok, Ht1| |done]. intros _ s' [Ht _].
  by apply (trimmed_trans [] _ s s1 s').
Qed.

Lemma len_od_keys {V} (d : odict string V) : len (od_keys d) = len d.
Proof. unfold len, od_keys. by rewrite length_fmap. Qed.

Lemma admit_ok s E : entries_ok s -> 1 <= producer_cache_capacity cfg ->
  wp (admit_producer_entry cfg) s (fun _ s' =>
    trimmed (pushed_out (clock s.2) s.1) s s' /\ len (registered_caches s'.1) < producer_cache_capacity cfg) E.
Proof.
  intros Hok Hcap. unfold admit_producer_entry, pgets. wp_step.
  eapply wp_mono; [by apply sweep_ok| |done]. intros [] s1 Ht1. do 2 wp_step.
  set (d := registered_caches s1.1). assert (Hn : NoDup (od_keys d)) by apply Ht1.
  assert (Hd : keep (expired cfg (clock s.2) (registered_timestamps s.1))
    (registered_caches s.1) = d) by (symmetry; apply Ht1).
  unfold pushed_out. rewrite Hd.
  set (old := expired _ _ _) in *. set (n := excess (len (od_keys d))).
  apply (wp_loop (fun s' => length (registered_caches s'.1)) (fun s' => exists k,
    trimmed (old ++ take k (od_keys d)) s s' /\ registered_caches s'.1 = drop k d /\ (k <= n)%nat)).
  { exists 0%nat. rewrite app_nil_r. split; [done|]. split; [done|lia]. }
  { apply Nat.lt_succ_diag_r. }
  intros s' (k & Ht & Hc & Hk). do 2 wp_step. rewrite Hc.
  destruct (producer_cache_capacity cfg <=? len (drop k d)) eqn:Ecap; zbool.
  - destruct (drop k d) as [|[oldest v] rest] eqn:Edrop; [change (len []) with 0 in Ecap; lia|].
    wp_step. eapply wp_mono; [apply evict_ok, Ht| |done]. intros _ s'' [Ht' _]. wp_step.
    destruct (keep_head k d oldest v rest Hn Edrop) as [Hkeep Htake].
    assert (Hc' : registered_caches s''.1 = drop (S k) d).
    { by rewrite (tr_caches _ _ _ Ht'), Hc, <- Edrop. }
    assert (Hlen : length (drop k d) = S (length rest)) by (by rewrite Edrop).
    rewrite length_drop in Hlen. split.
    + exists (S k). split; [|split; [done|]].
      * rewrite Htake, app_assoc. by eapply trimmed_trans.
      * unfold n, excess. rewrite len_od_keys. unfold len in *. cbn [length] in Ecap. lia.
    + rewrite Hc', length_drop. cbn. lia.
  - wp_step. rewrite Hc. split; [|lia].
    assert (k = n) as ->; [|done].
    unfold n, excess, len, od_keys in *. rewrite length_drop in Ecap. rewrite length_fmap in *. lia.
Qed.
(** ** Saving an encoder output *)

(** Nothing was learnt about the consumers. *)
Record quiet s s' : Prop := {
  q_seen : last_seen s'.1 = last_seen s.1;
  q_alive : engine_alive s'.1 = engine_alive s.1;
  q_clock : clock s.2 <= clock s'.2
}.

Lemma quiet_refl s : quiet s s.
Proof. by split. Qed.

Lemma quiet_trans s1 s2 s3 : quiet s1 s2 -> quiet s2 s3 -> quiet s1 s3.
Proof. intros [] []. split; [congruence|congruence|lia]. Qed.

Lemma trimmed_quiet g s s' : trimmed g s s' -> quiet s s'.
Proof. intros []. by split. Qed.

Definition within s : Prop :=
  entries_ok s /\ len (registered_caches s.1) <= producer_cache_capacity cfg.

Lemma trimmed_within g s s' :
  trimmed g s s' -> len (registered_caches s.1) <= producer_cache_capacity cfg ->
  within s' /\ quiet s s'.
Proof.
  intros Ht Hl. split; [|by eapply trimmed_quiet]. split; [apply Ht|].
  rewrite (tr_caches _ _ _ Ht). unfold len, keep in *.
  pose proof (length_filter (fun kv => kv.1 ∉ g) (registered_caches s.1)). lia.
Qed.
Lemma trimmed_event g s s' e :
  registered1 e = [] -> disowned1 e = [] -> pushed1 e = [] ->
  trimmed g s s' -> trimmed g s (s'.1, e :: s'.2).
Proof.
  intros Hr Hd Hp [[] ? ? ? ? Hc Hpush]. split; try done; cbn [fst snd].
  - split; try done; cbn [fst snd]. by rewrite registered_cons, disowned_cons, Hr, Hd.
  - pose proof (clock_mono s'.2 e). lia.
  - by rewrite pushed_cons, Hp.
Qed.

Definition with_entry (h : string) (buf : Tensor) (descs now : Z) (p : Producer) : Producer :=
  set_registered_timestamps (od_set h now (registered_timestamps p))
    (set_registered_descs (od_set h descs (registered_descs p))
      (set_registered_caches (od_set h buf (registered_caches p)) p)).

Lemma entries_ok_insert h buf d now p hist hist' :
  entries_ok (p, hist) -> h ∉ od_keys (registered_caches p) ->
  registered hist' = d :: registered hist -> disowned hist' = disowned hist ->
  entries_ok (with_entry h buf d now p, hist').
Proof.
  intros [Hd Ht Hn Hl] Hh Hr Hdr. cbn [fst snd] in *. split; cbn.
  - by rewrite !od_keys_set, Hd.
  - by rewrite !od_keys_set, Ht.
  - by apply NoDup_od_set.
  - rewrite Hr, Hdr, od_values_set_new by (by rewrite Hd). rewrite Hl. solve_Permutation.
Qed.

(** What is left after the acknowledgements were drained and room was made. *)
Lemma admitted_caches acked now s s1 s2 :
  entries_ok s -> trimmed acked s s1 -> trimmed (pushed_out now s1.1) s1 s2 ->
  registered_caches s2.1 =
    retained acked now (registered_caches s.1) (registered_timestamps s.1).
Proof.
  intros Hok H1 H2. rewrite (tr_caches _ _ _ H2). unfold pushed_out, retained.
  rewrite (tr_caches _ _ _ H1), (tr_stamps _ _ _ H1), <- keep_app, keep_take.
  - by rewrite len_od_keys.
  - rewrite od_keys_keep. apply NoDup_filter. rewrite od_keys_keep. apply NoDup_filter, Hok.
Qed.

(** What a save that registers [h] leaves behind. *)
Record saved (h : string) (t : Tensor) s s' : Prop := {
  sv_ok : entries_ok s';
  sv_cap : len (registered_caches s'.1) <= producer_cache_capacity cfg;
  sv_push : exists buf now md,
    numel buf = foldr Z.mul 1 (t_shape t) /\ t_shape buf = t_shape t /\
    clock s.2 <= now <= clock s'.2 /\
    registered_caches s'.1 = retained (a_mm_hash <$> incoming_acks s.1) now
      (registered_caches s.1) (registered_timestamps s.1) ++ [(h, buf)] /\
    pushed s'.2 = {| m_engine_id := cfg_engine_id cfg; m_mm_hash := h;
      agent_metadata := md; tensor := tensor_info buf; m_ack_host := ack_host cfg;
      m_ack_port := ack_port cfg |} :: pushed s.2
}.
Lemma publish_ok h buf s :
  entries_ok s -> h ∉ od_keys (registered_caches s.1) ->
  len (registered_caches s.1) < producer_cache_capacity cfg ->
  wp (publish cfg h buf) s
    (fun _ s' => entries_ok s' /\ quiet s s' /\
       registered_caches s'.1 = registered_caches s.1 ++ [(h, buf)] /\
       exists md, pushed s'.2 = {| m_engine_id := cfg_engine_id cfg; m_mm_hash := h;
         agent_metadata := md; tensor := tensor_info buf; m_ack_host := ack_host cfg;
         m_ack_port := ack_port cfg |} :: pushed s.2)
    (fun _ s' => within s' /\ quiet s s').
Proof.
  intros Hok Hh Hlen. destruct s as [p hist]. cbn [fst snd] in *. unfold publish, pmodify.
  assert (Hq : forall p' l, last_seen p' = last_seen p -> engine_alive p' = engine_alive p ->
    quiet (p, hist) (p', l ++ hist)) by (intros p' l Hs Ha; split; [done|done|apply clock_app]).
  assert (Hplain : forall l, registered (l ++ hist) = registered hist ->
    disowned (l ++ hist) = disowned hist -> within (p, l ++ hist) /\
      quiet (p, hist) (p, l ++ hist)).
  { intros l Hr Hd. split; [|by apply Hq]. split; cbn [fst snd]; [|lia].
    destruct Hok. by split; cbn [fst snd]; rewrite ?Hr, ?Hd. }
  wp_step. wp_call; intros descs _; [|by apply (Hplain [_])].
  wp_step. wp_call; intros u _; [|by apply (Hplain [_; _])].
  wp_steps. wp_call; intros now _; wp_steps; cbn [fst snd].
  lazymatch goal with |- wp _ (?p', _) _ _ => change p' with (with_entry h buf descs now p) end.
  assert (Hnew : forall l, registered (l ++ hist) = descs :: registered hist ->
    disowned (l ++ hist) = disowned hist ->
    within (with_entry h buf descs now p, l ++ hist) /\
    quiet (p, hist) (with_entry h buf descs now p, l ++ hist)).
  { intros l Hr Hd. split; [|by apply Hq]. split; cbn [fst snd].
    { by apply (entries_ok_insert h buf descs now p hist). }
    cbn. rewrite od_set_new by done. rewrite len_app. change (len [(h, buf)]) with 1. lia. }
  wp_call; intros md _; [|by apply (Hnew [_; _; _; _])].
  wp_call; intros u' _; [|by apply (Hnew [_; _; _; _; _])].
  destruct (Hnew [Event (PushMetadata _) (Ok u'); Event GetAgentMetadata (Ok md);
    Event Monotonic (Ok now); Event (RegisterMemory descs) (Ok u);
    Event (GetRegDescs _ _) (Ok descs)] eq_refl eq_refl) as [[] ?].
  split; [done|]. split; [done|]. split; [by apply od_set_new|]. by exists md.
Qed.

(** A tensor copied into aligned memory keeps its shape. *)
Lemma reshape_ok t sh t' : reshape t sh = Ok t' -> numel t' = numel t /\ t_shape t' = sh /\
  foldr Z.mul 1 sh = numel t.
Proof. unfold reshape. intros Hr. res_inv. by zbool. Qed.

Lemma save_ok cache h s : is_producer cfg = true -> 1 <= producer_cache_capacity cfg ->
  within s ->
  wp (save_caches cfg cache h) s
    (fun _ s' => (within s' /\ quiet s s') /\
      let acked := a_mm_hash <$> incoming_acks s.1 in
      (h ∈ od_keys (keep acked (registered_caches s.1)) -> trimmed acked s s') /\
      (h ∉ od_keys (keep acked (registered_caches s.1)) ->
        exists t, cache !! h = Some t /\ saved h t s s'))
    (fun _ s' => within s' /\ quiet s s').
Proof.
  intros Hp Hcap [Hok Hlen]. unfold save_caches, aligned_copy, pgets. rewrite Hp. cbn [negb].
  set (E := fun (_ : exn) s' => within s' /\ quiet s s').
  wp_step. eapply wp_mono; [exact (acks_drain_ok s E Hok)| |auto]. intros [] s1 [Ht1 _].
  set (acked := a_mm_hash <$> incoming_acks s.1) in *. cbv zeta.
  rewrite <- (tr_caches _ _ _ Ht1). do 2 wp_step.
  pose proof (trimmed_within _ _ _ Ht1 Hlen) as Hw1.
  case_bool_decide as Hin; [by wp_step|].
  wp_step. apply wp_lift; [|intros; exact Hw1]. intros t Ht. wp_step. wp_step. wp_call; intros flat _.
  2:{ by apply (trimmed_within acked s); [apply trimmed_event|]. }
  pose proof (trimmed_event _ _ _ (Event (AlignedTensor (numel t)) (Ok flat)) eq_refl eq_refl
    eq_refl Ht1) as Ht2. cbn [fst snd] in Ht2.
  apply wp_lift; [|intros; by apply (trimmed_within acked s)]. intros buf Hbuf.
  apply reshape_ok in Hbuf as (Hnum & Hsh & Hprod).
  wp_step. eapply wp_mono; [exact (admit_ok _ E (tr_ok _ _ _ Ht2) Hcap)| |auto].
  intros [] s3 [Ht3 Hl3]. pose proof (tr_clock _ _ _ Ht2) as Hc2. cbn [fst snd] in *.
  pose proof (quiet_trans _ _ _ (trimmed_quiet _ _ _ Ht2) (trimmed_quiet _ _ _ Ht3)) as Hq3.
  eapply wp_mono; [apply publish_ok; [apply Ht3| |done]| |].
  { rewrite (tr_caches _ _ _ Ht3), od_keys_keep, list_elem_of_filter. cbn. tauto. }
  2:{ intros e s' [Hw Hq]. split; [done|by eapply quiet_trans]. }
  cbn. intros _ s' (Hok' & Hq & Hcaches & md & Hpush).
  assert (Hlen' : len (registered_caches s'.1) <= producer_cache_capacity cfg).
  { rewrite Hcaches, len_app. change (len [(h, buf)]) with 1. lia. }
  split; [split; [done|by eapply quiet_trans]|]. split; [done|].
  intros _. exists t. split; [by destruct (cache !! h); simplify_eq/=|]. split; [done|done|].
  eexists buf, _, md. split; [by rewrite Hnum|]. split; [done|]. split.
  { split; [exact Hc2|]. pose proof (tr_clock _ _ _ Ht3). pose proof (q_clock _ _ Hq).
    cbn [fst snd] in *. lia. }
  rewrite Hcaches, Hpush, (tr_pushed _ _ _ Ht3), (tr_pushed _ _ _ Ht2). split; [|done].
  f_equal. by apply (admitted_caches acked _ s _ s3 Hok Ht2).
Qed.
(** ** The acknowledgement thread *)

(** A consumer marked dead has been silent for longer than the threshold. *)
Definition live_ok s : Prop := forall c ts,
  od_get c (last_seen s.1) = Some ts ->
  ts <= clock s.2 /\ is_Some (od_get c (engine_alive s.1)) /\
  (od_get c (engine_alive s.1) = Some false -> dead_threshold cfg < clock s.2 - ts).

Lemma live_ok_quiet s s' : quiet s s' -> live_ok s -> live_ok s'.
Proof.
  intros [Hs Ha Hc] Hl c ts. rewrite Hs, Ha. intros Hg.
  destruct (Hl c ts Hg) as (? & ? & Hd). split; [lia|]. split; [done|]. intros Hf. apply Hd in Hf. lia.
Qed.

(** The three dicts and the history of registrations are left alone. *)
Definition aside s s' : Prop :=
  registered_caches s'.1 = registered_caches s.1 /\
  registered_descs s'.1 = registered_descs s.1 /\
  registered_timestamps s'.1 = registered_timestamps s.1 /\
  registered s'.2 = registered s.2 /\ disowned s'.2 = disowned s.2.

Lemma within_aside s s' : aside s s' -> within s -> within s'.
Proof.
  intros (Hc & Hd & Ht & Hr & Hdr) [[] ?]. split; [|by rewrite Hc].
  split; rewrite ?Hc, ?Hd, ?Ht, ?Hr, ?Hdr; done.
Qed.

(** After the check, exactly the consumers heard of within the threshold are alive. *)
Definition exact_at now s : Prop := forall c ts,
  od_get c (last_seen s.1) = Some ts ->
  od_get c (engine_alive s.1) = Some (bool_decide (now - ts <= dead_threshold cfg)).

(** The flags [al] after the consumers of [seen] were checked. *)
Definition checked now (alive : odict string bool) (seen : odict string Z)
    (al : odict string bool) : Prop :=
  (forall c ts, (c, ts) ∈ seen -> od_get c al = Some (bool_decide (now - ts <= dead_threshold cfg))) /\
  (forall c, c ∉ od_keys seen -> od_get c al = od_get c alive).

Lemma checked_snoc now alive seen c ts al :
  NoDup (od_keys (seen ++ [(c, ts)])) -> checked now alive seen al ->
  is_Some (od_get c alive) ->
  (od_get c alive = Some false -> dead_threshold cfg < now - ts) ->
  checked now alive (seen ++ [(c, ts)])
    (if default false (od_get c al) && (dead_threshold cfg <? now - ts)
     then od_set c false al else al).
Proof.
  unfold od_keys. rewrite fmap_app. intros (Hn1 & Hn2 & _)%NoDup_app [Hin Hout] [b Hb] Hdead.
  assert (Hc : c ∉ od_keys seen) by (intros Hc; apply (Hn2 c Hc); by left).
  rewrite (Hout c Hc), Hb. change (default false (Some b)) with b. split.
  - intros c' ts' [Hs|[= -> ->]%list_elem_of_singleton]%elem_of_app.
    + assert (c' <> c) by (intros ->; apply Hc; by apply (list_elem_of_fmap_2 fst) in Hs).
      destruct (b && (dead_threshold cfg <? now - ts)); rewrite ?od_get_set_ne by done; by apply Hin.
    + destruct b; cbn [andb].
      * destruct (Z.ltb_spec (dead_threshold cfg) (now - ts)).
        -- rewrite od_get_set_eq. by rewrite bool_decide_eq_false_2 by lia.
        -- rewrite Hout, Hb by done. by rewrite bool_decide_eq_true_2 by lia.
      * rewrite Hout, Hb by done. rewrite bool_decide_eq_false_2; [done|]. pose proof (Hdead Hb). lia.
  - intros c'. unfold od_keys. rewrite fmap_app, not_elem_of_app. intros [Hs Hne].
    assert (c' <> c) by (cbn in Hne; set_solver).
    destruct (b && (dead_threshold cfg <? now - ts)); rewrite ?od_get_set_ne by done; by apply Hout.
Qed.

Lemma check_ok s E : NoDup (od_keys (last_seen s.1)) -> live_ok s ->
  wp (check_engine_liveness cfg) s (fun _ s' => aside s s' /\ live_ok s' /\
    last_seen s'.1 = last_seen s.1 /\ exact_at (clock s.2) s' /\ clock s.2 <= clock s'.2) E.
Proof.
  intros Hn Hl. unfold check_engine_liveness, pgets, pmodify. wp_step. wp_call.
  intros now [= <-]. do 2 wp_step. cbn [fst snd].
  set (now := clock s.2). set (hist := Event Monotonic (Ok now) :: s.2).
  assert (Hc : now <= clock hist) by apply clock_mono.
  eapply wp_mono; [apply (wp_for _ _ _ (fun d s' => exists al,
    s' = (set_engine_alive al s.1, hist) /\ checked now (engine_alive s.1) d al) E)| |done].
  - exists (engine_alive s.1). split; [by destruct s as [[] ?]|]. split; [|done].
    intros c ts Hin. by apply not_elem_of_nil in Hin.
  - intros d [c ts] todo s' Hseen (al & -> & Hch). cbn [fst snd].
    assert (Hg : od_get c (last_seen s.1) = Some ts).
    { apply elem_of_odict; [done|]. rewrite Hseen. set_solver. }
    destruct (Hl c ts Hg) as (_ & Hal & Hdead). unfold wp, mbind, M_bind, gets. cbn [fst].
    assert (Hnd : NoDup (od_keys (d ++ [(c, ts)]))).
    { rewrite Hseen, cons_middle, app_assoc in Hn. unfold od_keys in *.
      rewrite fmap_app in Hn. by apply NoDup_app in Hn as [? _]. }
    pose proof (checked_snoc now (engine_alive s.1) d c ts al Hnd Hch Hal Hdead) as Hs'.
    cbn [engine_alive set_engine_alive].
    destruct (default false (od_get c al) && (dead_threshold cfg <? now - ts)); cbn; eauto.
  - intros [] s' (al & -> & Hch & _). assert (Hx : exact_at now (set_engine_alive al s.1, hist)).
    { intros c ts Hg. cbn in *. apply Hch. by apply elem_of_odict. }
    split; [by destruct s|]. split; [|done]. intros c ts Hg. rewrite (Hx c ts Hg).
    cbn [fst snd] in *. destruct (Hl c ts Hg) as (? & _ & _). split; [lia|]. split; [done|].
    intros [= Hf%bool_decide_eq_false]. lia.
Qed.
(** ** Every operation keeps the invariant, whether it returns or raises *)
Definition pinv s : Prop :=
  within s /\ live_ok s /\ NoDup (od_keys (last_seen s.1)).

Definition kept s (m : PM unit) : Prop := wp m s (fun _ => pinv) (fun _ => pinv).

Lemma pinv_quiet s s' : pinv s -> within s' -> quiet s s' -> pinv s'.
Proof.
  intros (_ & Hl & Hn) Hw Hq. split; [done|]. split; [by eapply live_ok_quiet|].
  by rewrite (q_seen _ _ Hq).
Qed.

Lemma pinv_trimmed g s s' : pinv s -> trimmed g s s' -> pinv s'.
Proof.
  intros Hp Ht. destruct (trimmed_within g s s' Ht) as [Hw Hq]; [apply Hp|].
  by eapply pinv_quiet.
Qed.

Lemma put_ack_kept a s : pinv s -> kept s (put_ack cfg a).
Proof.
  intros [Hw [Hl Hn]]. unfold kept, put_ack, pgets, pmodify. do 2 wp_step.
  destruct (queue_full _ _); wp_steps; (split; [by apply (within_aside s)|done]).
Qed.

Lemma record_kept c s : pinv s -> kept s (record_liveness c).
Proof.
  intros [Hw [Hl Hn]]. unfold kept, record_liveness, pmodify. case_decide; [by wp_step|].
  wp_step. wp_call. intros now [= <-]. wp_steps. cbn [fst snd].
  pose proof (clock_mono s.2 (Event Monotonic (Ok (clock s.2)))) as Hc.
  split; [by apply (within_aside s)|]. split; [|by apply NoDup_od_set].
  intros c' ts. cbn [fst snd]. cbn [last_seen engine_alive set_last_seen set_engine_alive].
  rewrite !od_get_set. case_decide as Hcc.
  - intros [= <-]. split; [exact Hc|]. by split.
  - intros Hg. destruct (Hl c' ts Hg) as (? & ? & Hd). split; [cbn in *; lia|]. split; [done|].
    intros Hf%Hd. cbn in *. lia.
Qed.

Lemma receiver_kept msg s : pinv s -> kept s (ack_receiver_turn cfg msg).
Proof.
  intros Hp. pose proof Hp as [Hw [Hl Hn]]. unfold kept, ack_receiver_turn, pgets. do 2 wp_step.
  destruct (ack_in_hand s.1) as [a|]; [by apply put_ack_kept|]. wp_step.
  eapply wp_mono; [by apply (check_ok s (fun _ => pinv))| |auto].
  intros [] s' (Ha & Hl' & Hs & _). assert (Hp' : pinv s').
  { split; [by apply (within_aside s)|]. split; [done|by rewrite Hs]. }
  destruct msg as [[a|]|]; [|by wp_step..]. wp_step.
  eapply wp_mono; [by apply record_kept| |auto]. intros [] s'' Hp''.
  case_decide; [by wp_step|by apply put_ack_kept].
Qed.

Lemma evict_all_kept l s : pinv s -> kept s (for_each l evict_producer_entry).
Proof.
  intros Hp. eapply wp_mono; [by apply (evict_all_ok l s (fun _ => pinv)), Hp| |auto].
  intros [] s' [Ht _]. by eapply pinv_trimmed.
Qed.

Lemma producer_op_kept op s : is_producer cfg = true -> 1 <= producer_cache_capacity cfg ->
  pinv s -> kept s (run_producer_op cfg op).
Proof.
  intros Hprod Hcap Hp. destruct op as [cache h|ids|msg|]; cbn [run_producer_op].
  - eapply wp_mono; [apply save_ok; try done; apply Hp|..]; cbn.
    + intros _ s' [[Hw Hq] _]. by eapply pinv_quiet.
    + intros _ s' [Hw Hq]. by eapply pinv_quiet.
  - unfold kept, producer_request_finished. wp_step.
    eapply wp_mono; [apply (acks_drain_ok s (fun _ => pinv)), Hp| |auto].
    intros [] s' [Ht _]. apply evict_all_kept. by eapply pinv_trimmed.
  - by apply receiver_kept.
  - unfold kept, producer_shutdown, pgets. do 2 wp_step. by apply evict_all_kept.
Qed.

Lemma run_producer_inv ops s : is_producer cfg = true -> 1 <= producer_cache_capacity cfg ->
  pinv s -> pinv (run_producer cfg ops s).
Proof.
  intros Hprod Hcap. unfold run_producer. revert s.
  induction ops as [|op ops IH]; intros s Hp; [done|]. cbn [foldl]. apply IH.
  pose proof (producer_op_kept op s Hprod Hcap Hp) as Hk. unfold kept, wp in Hk.
  by destruct (run_producer_op cfg op s) as [s' [a|e]].
Qed.

Lemma new_producer_inv : 0 <= producer_cache_capacity cfg -> pinv (new_producer, []).
Proof.
  intros Hc. split; [split; [split; cbn; try done; constructor|done]|].
  split; [by intros c ts|constructor].
Qed.
(** ** Theorems *)

(** C34: With a capacity of at least one, whatever the encoder and its acknowledgement thread
    do and whichever calls raise, the outputs kept, their NIXL descriptors and their time
    stamps have the same keys, each once, never more than the capacity; and every descriptor
    registered with NIXL is exactly one of: still kept, given back once, or leaked because
    its one [deregister_memory] raised, which the eviction only logs. *)
Theorem producer_cache_invariant ops :
  is_producer cfg = true -> 1 <= producer_cache_capacity cfg ->
  let s := run_producer cfg ops (new_producer, []) in
  od_keys (registered_descs s.1) = od_keys (registered_caches s.1) /\
  od_keys (registered_timestamps s.1) = od_keys (registered_caches s.1) /\
  NoDup (od_keys (registered_caches s.1)) /\
  len (registered_caches s.1) <= producer_cache_capacity cfg /\
  registered s.2 ≡ₚ deregistered s.2 ++ leaked s.2 ++ od_values (registered_descs s.1).
Proof.
  intros Hp Hc s. destruct (run_producer_inv ops (new_producer, []) Hp Hc) as [[[] ?] _].
  - apply new_producer_inv. lia.
  - rewrite app_assoc, <- disowned_split. done.
Qed.

(** Saving an output that is not registered keeps, of the entries neither acknowledged nor
    expired, the newest ones up to one below the capacity, and adds the output as the
    newest; the consumer is pushed one message, which describes the registered buffer, of
    the shape of the tensor. *)
Theorem save_keeps_newest ops cache h t s s' :
  is_producer cfg = true -> 1 <= producer_cache_capacity cfg ->
  s = run_producer cfg ops (new_producer, []) -> cache !! h = Some t ->
  h ∉ od_keys (keep (a_mm_hash <$> incoming_acks s.1) (registered_caches s.1)) ->
  save_caches cfg cache h s = (s', Ok tt) ->
  exists buf now md,
    clock s.2 <= now <= clock s'.2 /\ t_shape buf = t_shape t /\
    registered_caches s'.1 = retained (a_mm_hash <$> incoming_acks s.1) now
      (registered_caches s.1) (registered_timestamps s.1) ++ [(h, buf)] /\
    pushed s'.2 = {| m_engine_id := cfg_engine_id cfg; m_mm_hash := h;
      agent_metadata := md; tensor := tensor_info buf; m_ack_host := ack_host cfg;
      m_ack_port := ack_port cfg |} :: pushed s.2.
Proof.
  intros Hp Hc -> Ht Hh Hrun. set (s := run_producer _ _ _) in *.
  assert (Hi : pinv s) by (apply run_producer_inv; [done|done|apply new_producer_inv; lia]).
  destruct Hi as [Hw _]. pose proof (save_ok cache h s Hp Hc Hw) as Hwp. unfold wp in Hwp.
  rewrite Hrun in Hwp. destruct Hwp as (_ & _ & Hs). destruct (Hs Hh) as (t' & Ht' & Hsv).
  simplify_eq. destruct Hsv as [_ _ (buf & now & md & ? & ? & ? & ? & ?)].
  by exists buf, now, md.
Qed.

(** After every turn of the acknowledgement thread that waits for messages, a consumer is
    marked alive exactly when it was heard of within the threshold. *)
Theorem liveness_exact ops s :
  is_producer cfg = true -> 1 <= producer_cache_capacity cfg ->
  s = run_producer cfg ops (new_producer, []) -> ack_in_hand s.1 = None ->
  let s' := (ack_receiver_turn cfg None s).1 in
  last_seen s'.1 = last_seen s.1 /\
  forall c ts, od_get c (last_seen s'.1) = Some ts ->
    od_get c (engine_alive s'.1) =
      Some (bool_decide (clock s.2 - ts <= dead_threshold cfg)).
Proof.
  intros Hp Hc -> Hhand. set (s := run_producer _ _ _) in *. cbv zeta.
  assert (Hi : pinv s) by (apply run_producer_inv; [done|done|apply new_producer_inv; lia]).
  destruct Hi as (_ & Hl & Hn). pose proof (check_ok s (fun _ _ => False) Hn Hl) as Hwp.
  unfold ack_receiver_turn, wp, mbind, M_bind, pgets, gets in *. cbn [fst]. rewrite Hhand.
  destruct (check_engine_liveness cfg s) as [s' [[]|e]]; [|done]. cbn [fst].
  destruct Hwp as (_ & _ & Hs & Hx & _). split; [done|]. exact Hx.
Qed.

(** After the shutdown of a producer every registration was given back, or leaked by a
    [deregister_memory] that raised. *)
Theorem shutdown_gives_back ops s :
  is_producer cfg = true -> 1 <= producer_cache_capacity cfg ->
  s = run_producer cfg ops (new_producer, []) ->
  let s' := (producer_shutdown s).1 in
  registered_caches s'.1 = [] /\ registered s'.2 ≡ₚ deregistered s'.2 ++ leaked s'.2.
Proof.
  intros Hp Hc -> s'. set (s := run_producer _ _ _) in *.
  assert (Hi : pinv s) by (apply run_producer_inv; [done|done|apply new_producer_inv; lia]).
  destruct Hi as [[Hok _] _].
  pose proof (evict_all_ok (od_keys (registered_descs s.1)) s (fun _ _ => False) Hok) as Hwp.
  unfold s', producer_shutdown, wp, mbind, M_bind, pgets, gets in *. cbn [fst].
  destruct (for_each _ _ s) as [s'' [[]|e]]; [|done]. cbn [fst]. destruct Hwp as [[Hok' Hc' _ _ _ _ _] _].
  assert (Hnil : registered_caches s''.1 = []).
  { rewrite Hc', (ok_descs _ Hok). apply keep_all, Hok. }
  split; [done|]. rewrite <- disowned_split, (ok_ledger _ Hok').
  assert (registered_descs s''.1 = []) as ->; [|by rewrite app_nil_r].
  pose proof (ok_descs _ Hok') as Hk. rewrite Hnil in Hk. unfold od_keys in Hk.
  by apply fmap_nil_inv in Hk.
Qed.

(** With a capacity below one no output can be saved: the eviction loop runs out of
    entries and the call raises [StopIteration], after it evicted everything. *)
Theorem no_capacity_no_save s : entries_ok s -> producer_cache_capacity cfg <= 0 ->
  exists s', admit_producer_entry cfg s = (s', Raise StopIteration) /\
    registered_caches s'.1 = [] /\
    registered s'.2 ≡ₚ deregistered s'.2 ++ leaked s'.2 ++ od_values (registered_descs s'.1).
Proof.
  intros Hok Hcap.
  set (E := fun e s' => e = StopIteration /\ registered_caches s'.1 = [] /\ entries_ok s').
  assert (Hwp : wp (admit_producer_entry cfg) s (fun _ _ => False) E).
  { unfold admit_producer_entry, pgets. wp_step.
    eapply wp_mono; [exact (sweep_ok s E Hok)| |auto]. intros [] s1 Ht1. do 2 wp_step.
    apply (wp_loop (fun s' => length (registered_caches s'.1)) entries_ok);
      [apply Ht1|apply Nat.lt_succ_diag_r|].
    intros s' Hok'. do 2 wp_step. destruct (Z.leb_spec (producer_cache_capacity cfg)
      (len (registered_caches s'.1))); [|pose proof (len_nonneg (registered_caches s'.1)); lia].
    destruct (registered_caches s'.1) as [|[x v] rest] eqn:Ec; [by wp_step|].
    wp_step. eapply wp_mono; [exact (evict_ok x s' E Hok')| |auto]. intros [] s'' [Ht'' _]. wp_step.
    split; [apply Ht''|]. rewrite (tr_caches _ _ _ Ht''), Ec. unfold keep.
    rewrite filter_cons_False by (cbn; set_solver). cbn.
    pose proof (length_filter (fun kv => kv.1 ∉ [x]) rest). lia. }
  unfold wp in Hwp. destruct (admit_producer_entry cfg s) as [s' [[]|e]]; [done|].
  destruct Hwp as (-> & Hnil & Hok'). exists s'. split; [done|]. split; [done|].
  rewrite app_assoc, <- disowned_split. apply Hok'.
Qed.
End spec.

(** ** Witnesses *)
Section witnesses.
Import EcToy.
#[local] Existing Instance toy_env.
#[local] Existing Instance toy_laws.

Definition toy_cache : gmap string Tensor :=
  {["a"%string := image 6; "b"%string := image 8; "c"%string := image 4]}.
Definition toy_ack (h : string) : ECNixlAck :=
  {| a_mm_hash := h; a_engine_id := "encoder"; status := "ok"; consumer_engine_id := "llm" |}.
Definition toy_ops : list producer_op :=
  [SaveCaches toy_cache "a"; SaveCaches toy_cache "b";
   ReceiveAck (Some (Some (toy_ack "a")))].
Definition toy_state : Producer * history := run_producer toy_cfg toy_ops (new_producer, []).

Lemma save_keeps_newest_witness :
  let s' := (save_caches toy_cfg toy_cache "c" toy_state).1 in
  od_keys (registered_caches s'.1) = ["b"; "c"]%string /\
  exists buf now, registered_caches s'.1 =
    retained toy_cfg ["a"%string] now (registered_caches toy_state.1)
      (registered_timestamps toy_state.1) ++ [("c"%string, buf)].
Proof.
  split; [by vm_compute|].
  destruct (save_keeps_newest toy_cfg toy_ops toy_cache "c" (image 4) toy_state
    (save_caches toy_cfg toy_cache "c" toy_state).1) as (buf & now & md & Hn & _ & Hc & _);
    [done|by vm_compute|done|by vm_compute|by vm_compute; set_solver|by vm_compute|].
  by exists buf, now.
Defined.

Lemma liveness_exact_witness :
  od_get "llm"%string (engine_alive (ack_receiver_turn toy_cfg None toy_state).1.1) = Some true.
Proof.
  destruct (liveness_exact toy_cfg toy_ops toy_state) as [Hs Hl];
    [done|by vm_compute|done|by vm_compute|].
  rewrite (Hl "llm"%string (default 0 (od_get "llm"%string (last_seen toy_state.1))));
    [by vm_compute|]. rewrite Hs. by vm_compute.
Defined.

Lemma shutdown_gives_back_witness :
  registered_caches (producer_shutdown toy_state).1.1 = [].
Proof. apply (shutdown_gives_back toy_cfg toy_ops toy_state); [done|by vm_compute|done]. Defined.

Definition no_room : Config :=
  {| is_producer := true; is_consumer := false; cfg_engine_id := "encoder";
     metadata_queue_max := 4; max_concurrent_pulls := 2; producer_cache_capacity := 0;
     producer_cache_ttl := 100 * second; ack_host := "127.0.0.1"; ack_port := 7000;
     ack_queue_max := 4; dead_threshold := 180 * second |}.

Lemma no_capacity_no_save_witness :
  exists s', admit_producer_entry no_room (new_producer, []) = (s', Raise StopIteration).
Proof.
  destruct (no_capacity_no_save no_room (new_producer, [])) as (s' & Hs & _);
    [by split; cbn; try done; constructor|done|by exists s'].
Defined.
End witnesses.

(** The acknowledged output is evicted when the third is saved, and NIXL refuses to take its
    descriptors back. *)
Section clumsy.
Import EcToy.
#[local] Existing Instance clumsy_env.
#[local] Existing Instance clumsy_laws.

Definition clumsy_state : Producer * history :=
  run_producer toy_cfg (toy_ops ++ [SaveCaches toy_cache "c"]) (new_producer, []).

Lemma producer_cache_invariant_witness :
  od_keys (registered_caches clumsy_state.1) = ["b"; "c"]%string /\
  length (registered clumsy_state.2) = 3%nat /\ length (leaked clumsy_state.2) = 1%nat /\
  registered clumsy_state.2 ≡ₚ deregistered clumsy_state.2 ++ leaked clumsy_state.2 ++
    od_values (registered_descs clumsy_state.1).
Proof.
  do 3 (split; [by vm_compute|]).
  apply (producer_cache_invariant toy_cfg (toy_ops ++ [SaveCaches toy_cache "c"]));
    [done|by vm_compute].
Defined.
End clumsy.
