(* ===== verification/EcConsumer.v ===== *)
(** * Encoder-cache transfer: the consumer

    The LLM side of [RblnECNixlConnectorWorker]: the metadata it receives, the pulls it
    has in flight, the acknowledgements it sends. *)
From S2P Require Import Prelude Effects EcWorld.

(** ** State

    [meta_in_hand] is the local variable of the receiver thread while it waits for room in
    the queue; an event of [cache_events] is its flag; [encoder_cache] is the dict of the
    model runner, which [start_load_caches] keeps a reference to ([encoder_cache_bound]). *)
Record Consumer := {
  incoming_metadata : list ECNixlMetadata;
  meta_in_hand : option ECNixlMetadata;
  deferred_loads : gset string;
  ack_push_sockets : gset (string * Z);
  ping_push_sockets : gset (string * Z);
  mm_hash_ack_addr : gmap string (string * Z);
  ack_sent : gset string;
  known_ack_addrs : odict string (string * Z);
  cache_events : gmap string bool;
  remote_agents : gmap string string;
  tensor_registry : gmap string (string * ECNixlTensorInfo);
  pending_loads : odict string (Z * Tensor * Z);
  encoder_cache : gmap string Tensor;
  encoder_cache_bound : bool
}.

Definition set_incoming_metadata (x : list ECNixlMetadata) (s : Consumer) : Consumer :=
  {| incoming_metadata := x; meta_in_hand := meta_in_hand s; deferred_loads :=
     deferred_loads s; ack_push_sockets := ack_push_sockets s; ping_push_sockets :=
     ping_push_sockets s; mm_hash_ack_addr := mm_hash_ack_addr s; ack_sent := ack_sent s;
     known_ack_addrs := known_ack_addrs s; cache_events := cache_events s; remote_agents :=
     remote_agents s; tensor_registry := tensor_registry s; pending_loads := pending_loads
     s; encoder_cache := encoder_cache s; encoder_cache_bound := encoder_cache_bound s |}.

Definition set_meta_in_hand (x : option ECNixlMetadata) (s : Consumer) : Consumer :=
  {| incoming_metadata := incoming_metadata s; meta_in_hand := x; deferred_loads :=
     deferred_loads s; ack_push_sockets := ack_push_sockets s; ping_push_sockets :=
     ping_push_sockets s; mm_hash_ack_addr := mm_hash_ack_addr s; ack_sent := ack_sent s;
     known_ack_addrs := known_ack_addrs s; cache_events := cache_events s; remote_agents :=
     remote_agents s; tensor_registry := tensor_registry s; pending_loads := pending_loads
     s; encoder_cache := encoder_cache s; encoder_cache_bound := encoder_cache_bound s |}.

Definition set_deferred_loads (x : gset string) (s : Consumer) : Consumer :=
  {| incoming_metadata := incoming_metadata s; meta_in_hand := meta_in_hand s;
     deferred_loads := x; ack_push_sockets := ack_push_sockets s; ping_push_sockets :=
     ping_push_sockets s; mm_hash_ack_addr := mm_hash_ack_addr s; ack_sent := ack_sent s;
     known_ack_addrs := known_ack_addrs s; cache_events := cache_events s; remote_agents :=
     remote_agents s; tensor_registry := tensor_registry s; pending_loads := pending_loads
     s; encoder_cache := encoder_cache s; encoder_cache_bound := encoder_cache_bound s |}.

Definition set_ack_push_sockets (x : gset (string * Z)) (s : Consumer) : Consumer :=
  {| incoming_metadata := incoming_metadata s; meta_in_hand := meta_in_hand s;
     deferred_loads := deferred_loads s; ack_push_sockets := x; ping_push_sockets :=
     ping_push_sockets s; mm_hash_ack_addr := mm_hash_ack_addr s; ack_sent := ack_sent s;
     known_ack_addrs := known_ack_addrs s; cache_events := cache_events s; remote_agents :=
     remote_agents s; tensor_registry := tensor_registry s; pending_loads := pending_loads
     s; encoder_cache := encoder_cache s; encoder_cache_bound := encoder_cache_bound s |}.

Definition set_ping_push_sockets (x : gset (string * Z)) (s : Consumer) : Consumer :=
  {| incoming_metadata := incoming_metadata s; meta_in_hand := meta_in_hand s;
     deferred_loads := deferred_loads s; ack_push_sockets := ack_push_sockets s;
     ping_push_sockets := x; mm_hash_ack_addr := mm_hash_ack_addr s; ack_sent := ack_sent s;
     known_ack_addrs := known_ack_addrs s; cache_events := cache_events s; remote_agents :=
     remote_agents s; tensor_registry := tensor_registry s; pending_loads := pending_loads
     s; encoder_cache := encoder_cache s; encoder_cache_bound := encoder_cache_bound s |}.

Definition set_mm_hash_ack_addr (x : gmap string (string * Z)) (s : Consumer) : Consumer :=
  {| incoming_metadata := incoming_metadata s; meta_in_hand := meta_in_hand s;
     deferred_loads := deferred_loads s; ack_push_sockets := ack_push_sockets s;
     ping_push_sockets := ping_push_sockets s; mm_hash_ack_addr := x; ack_sent := ack_sent
     s; known_ack_addrs := known_ack_addrs s; cache_events := cache_events s; remote_agents
     := remote_agents s; tensor_registry := tensor_registry s; pending_loads :=
     pending_loads s; encoder_cache := encoder_cache s; encoder_cache_bound :=
     encoder_cache_bound s |}.

Definition set_ack_sent (x : gset string) (s : Consumer) : Consumer :=
  {| incoming_metadata := incoming_metadata s; meta_in_hand := meta_in_hand s;
     deferred_loads := deferred_loads s; ack_push_sockets := ack_push_sockets s;
     ping_push_sockets := ping_push_sockets s; mm_hash_ack_addr := mm_hash_ack_addr s;
     ack_sent := x; known_ack_addrs := known_ack_addrs s; cache_events := cache_events s;
     remote_agents := remote_agents s; tensor_registry := tensor_registry s; pending_loads
     := pending_loads s; encoder_cache := encoder_cache s; encoder_cache_bound :=
     encoder_cache_bound s |}.

Definition set_known_ack_addrs (x : odict string (string * Z)) (s : Consumer) : Consumer :=
  {| incoming_metadata := incoming_metadata s; meta_in_hand := meta_in_hand s;
     deferred_loads := deferred_loads s; ack_push_sockets := ack_push_sockets s;
     ping_push_sockets := ping_push_sockets s; mm_hash_ack_addr := mm_hash_ack_addr s;
     ack_sent := ack_sent s; known_ack_addrs := x; cache_events := cache_events s;
     remote_agents := remote_agents s; tensor_registry := tensor_registry s; pending_loads
     := pending_loads s; encoder_cache := encoder_cache s; encoder_cache_bound :=
     encoder_cache_bound s |}.

Definition set_cache_events (x : gmap string bool) (s : Consumer) : Consumer :=
  {| incoming_metadata := incoming_metadata s; meta_in_hand := meta_in_hand s;
     deferred_loads := deferred_loads s; ack_push_sockets := ack_push_sockets s;
     ping_push_sockets := ping_push_sockets s; mm_hash_ack_addr := mm_hash_ack_addr s;
     ack_sent := ack_sent s; known_ack_addrs := known_ack_addrs s; cache_events := x;
     remote_agents := remote_agents s; tensor_registry := tensor_registry s; pending_loads
     := pending_loads s; encoder_cache := encoder_cache s; encoder_cache_bound :=
     encoder_cache_bound s |}.

Definition set_remote_agents (x : gmap string string) (s : Consumer) : Consumer :=
  {| incoming_metadata := incoming_metadata s; meta_in_hand := meta_in_hand s;
     deferred_loads := deferred_loads s; ack_push_sockets := ack_push_sockets s;
     ping_push_sockets := ping_push_sockets s; mm_hash_ack_addr := mm_hash_ack_addr s;
     ack_sent := ack_sent s; known_ack_addrs := known_ack_addrs s; cache_events :=
     cache_events s; remote_agents := x; tensor_registry := tensor_registry s; pending_loads
     := pending_loads s; encoder_cache := encoder_cache s; encoder_cache_bound :=
     encoder_cache_bound s |}.

Definition set_tensor_registry (x : gmap string (string * ECNixlTensorInfo)) (s : Consumer) : Consumer :=
  {| incoming_metadata := incoming_metadata s; meta_in_hand := meta_in_hand s;
     deferred_loads := deferred_loads s; ack_push_sockets := ack_push_sockets s;
     ping_push_sockets := ping_push_sockets s; mm_hash_ack_addr := mm_hash_ack_addr s;
     ack_sent := ack_sent s; known_ack_addrs := known_ack_addrs s; cache_events :=
     cache_events s; remote_agents := remote_agents s; tensor_registry := x; pending_loads
     := pending_loads s; encoder_cache := encoder_cache s; encoder_cache_bound :=
     encoder_cache_bound s |}.

Definition set_pending_loads (x : odict string (Z * Tensor * Z)) (s : Consumer) : Consumer :=
  {| incoming_metadata := incoming_metadata s; meta_in_hand := meta_in_hand s;
     deferred_loads := deferred_loads s; ack_push_sockets := ack_push_sockets s;
     ping_push_sockets := ping_push_sockets s; mm_hash_ack_addr := mm_hash_ack_addr s;
     ack_sent := ack_sent s; known_ack_addrs := known_ack_addrs s; cache_events :=
     cache_events s; remote_agents := remote_agents s; tensor_registry := tensor_registry s;
     pending_loads := x; encoder_cache := encoder_cache s; encoder_cache_bound :=
     encoder_cache_bound s |}.

Definition set_encoder_cache (x : gmap string Tensor) (s : Consumer) : Consumer :=
  {| incoming_metadata := incoming_metadata s; meta_in_hand := meta_in_hand s;
     deferred_loads := deferred_loads s; ack_push_sockets := ack_push_sockets s;
     ping_push_sockets := ping_push_sockets s; mm_hash_ack_addr := mm_hash_ack_addr s;
     ack_sent := ack_sent s; known_ack_addrs := known_ack_addrs s; cache_events :=
     cache_events s; remote_agents := remote_agents s; tensor_registry := tensor_registry s;
     pending_loads := pending_loads s; encoder_cache := x; encoder_cache_bound :=
     encoder_cache_bound s |}.

Definition set_encoder_cache_bound (x : bool) (s : Consumer) : Consumer :=
  {| incoming_metadata := incoming_metadata s; meta_in_hand := meta_in_hand s;
     deferred_loads := deferred_loads s; ack_push_sockets := ack_push_sockets s;
     ping_push_sockets := ping_push_sockets s; mm_hash_ack_addr := mm_hash_ack_addr s;
     ack_sent := ack_sent s; known_ack_addrs := known_ack_addrs s; cache_events :=
     cache_events s; remote_agents := remote_agents s; tensor_registry := tensor_registry s;
     pending_loads := pending_loads s; encoder_cache := encoder_cache s; encoder_cache_bound
     := x |}.

Definition new_consumer : Consumer :=
  {| incoming_metadata := []; meta_in_hand := None; deferred_loads := ∅;
     ack_push_sockets := ∅; ping_push_sockets := ∅; mm_hash_ack_addr := ∅; ack_sent := ∅;
     known_ack_addrs := []; cache_events := ∅; remote_agents := ∅; tensor_registry := ∅; pending_loads := [];
     encoder_cache := ∅; encoder_cache_bound := false |}.

Section consumer.
Context `{Env} (cfg : Config).

Definition CM (A : Type) : Type := M (Consumer * history) A.

Definition cgets {A} (f : Consumer -> A) : CM A := gets (fun s => f s.1).
Definition cmodify (f : Consumer -> Consumer) : CM unit := modify (fun s => (f s.1, s.2)).

(** ** The receiver thread *)
Definition put_metadata (m : ECNixlMetadata) : CM unit :=
  q ← cgets incoming_metadata;
  if queue_full (metadata_queue_max cfg) q then cmodify (set_meta_in_hand (Some m))
  else
    cmodify (set_incoming_metadata (q ++ [m])) ;;
    cmodify (set_meta_in_hand None) ;;
    cmodify (fun c => set_cache_events
      (alter (fun _ => true) (m_mm_hash m) (cache_events c)) c).

(** One turn of [_receiver_loop]; a message stays in the socket while one is in hand. *)
Definition receiver_turn (msg : option (option ECNixlMetadata)) : CM unit :=
  in_hand ← cgets meta_in_hand;
  match in_hand with
  | Some m => put_metadata m
  | None =>
      match msg with
      | Some (Some m) => put_metadata m
      | _ => mret tt
      end
  end.

(** The main thread is interrupted: the receiver handles what has arrived. *)
Definition interrupted : CM unit :=
  msgs ← perform Deliver;
  for_each msgs (fun m => receiver_turn (Some m)).

(** ** Metadata *)
Definition register_agent (m : ECNixlMetadata) : CM unit :=
  agents ← cgets remote_agents;
  match agents !! m_engine_id m with
  | Some name => perform (RemoveRemoteAgent name)
  | None => mret tt
  end ;;
  name ← perform (AddRemoteAgent (agent_metadata m));
  cmodify (fun c => set_remote_agents (<[m_engine_id m := name]> (remote_agents c)) c).

Definition process_metadata (m : ECNixlMetadata) : CM unit :=
  register_agent m ;;
  cmodify (fun c => set_tensor_registry
    (<[m_mm_hash m := (m_engine_id m, tensor m)]> (tensor_registry c)) c) ;;
  when (negb (bool_decide (m_ack_host m = ""%string)) && negb (m_ack_port m =? 0)) (
    let addr := (m_ack_host m, m_ack_port m) in
    cmodify (fun c => set_mm_hash_ack_addr
      (<[m_mm_hash m := addr]> (mm_hash_ack_addr c)) c) ;;
    cmodify (fun c => set_known_ack_addrs
      (od_set (m_engine_id m) addr (known_ack_addrs c)) c)).

(** [while True: meta = incoming_metadata.get_nowait() ...]; every turn takes one, so the
    length of the queue bounds the turns.  The set of new hashes is not used by any caller. *)
Definition process_pending_metadata : CM unit :=
  fuel ← cgets (fun c => length (incoming_metadata c));
  loop (S fuel) (
    q ← cgets incoming_metadata;
    match q with
    | [] => mret (Some tt)
    | m :: q =>
        cmodify (set_incoming_metadata q) ;;
        process_metadata m ;;
        mret None
    end).

Definition get_or_create_event (mm_hash : string) : CM unit :=
  cmodify (fun c => match cache_events c !! mm_hash with
    | Some _ => c
    | None => set_cache_events (<[mm_hash := false]> (cache_events c)) c
    end).

Definition is_registered (mm_hash : string) : CM bool :=
  cgets (fun c => bool_decide (is_Some (tensor_registry c !! mm_hash))).

(** [evt.clear(); evt.wait(timeout)]: the wait ends early when the receiver sets the flag. *)
Definition event_wait (mm_hash : string) (timeout : Z) : CM unit :=
  interrupted ;;
  cmodify (fun c => set_cache_events (<[mm_hash := false]> (cache_events c)) c) ;;
  interrupted ;;
  flag ← cgets (fun c => default false (cache_events c !! mm_hash));
  when (negb flag) (perform (Sleep timeout)).

(** One turn of the loop that waits until [deadline]. *)
Definition wait_turn (mm_hash : string) (deadline : Z) : CM (option bool) :=
  now ← perform Monotonic;
  if negb (now <? deadline) then mret (Some false)
  else
    now ← perform Monotonic;
    let remaining := deadline - now in
    if remaining <=? 0 then mret (Some false)
    else
      event_wait mm_hash (Z.min remaining second) ;;
      process_pending_metadata ;;
      found ← is_registered mm_hash;
      mret (if found : bool then Some true else None).

(** A turn that finds nothing has slept a second or up to the deadline, so 32 turns are
    enough for 30 seconds. *)
Definition wait_fuel : nat := 32.

Definition wait_for_cache (mm_hash : string) : CM bool :=
  process_pending_metadata ;;
  found ← is_registered mm_hash;
  if found : bool then mret true
  else
    interrupted ;;
    get_or_create_event mm_hash ;;
    process_pending_metadata ;;
    found ← is_registered mm_hash;
    if found : bool then mret true
    else
      start ← perform Monotonic;
      loop wait_fuel (wait_turn mm_hash (start + CACHE_WAIT_TIMEOUT)).

(** ** Acknowledgements *)
Definition send_ack_if_unsent (mm_hash : string) (st : string) : CM unit :=
  c ← cgets id;
  if decide (mm_hash ∈ ack_sent c) then mret tt
  else
    match mm_hash_ack_addr c !! mm_hash with
    | None => mret tt
    | Some addr =>
        match tensor_registry c !! mm_hash with
        | None => mret tt
        | Some (engine_id, _) =>
            cmodify (fun c => set_ack_push_sockets ({[addr]} ∪ ack_push_sockets c) c) ;;
            sent ← perform (SendAck addr
              {| a_mm_hash := mm_hash; a_engine_id := engine_id; status := st;
                 consumer_engine_id := cfg_engine_id cfg |});
            when sent (cmodify (fun c => set_ack_sent ({[mm_hash]} ∪ ack_sent c) c))
        end
    end.

(** One round of [_ping_loop]. *)
Definition ping_round : CM unit :=
  snapshot ← cgets known_ack_addrs;
  for_each snapshot (fun '(engine_id, addr) =>
    cmodify (fun c => set_ping_push_sockets ({[addr]} ∪ ping_push_sockets c) c) ;;
    perform (SendAck addr
      {| a_mm_hash := ""; a_engine_id := engine_id; status := "ping";
         consumer_engine_id := cfg_engine_id cfg |}) ;;
    mret tt).

(** ** Pulls *)
Definition release_pull (handle local_descs : Z) : CM unit :=
  try_ignore (perform (ReleaseXferHandle handle)) ;;
  try_ignore (perform (DeregisterMemory local_descs)).

Definition initiate_pull (mm_hash : string) : CM (Z * Tensor * Z) :=
  c ← cgets id;
  reg ← lift (of_option (tensor_registry c !! mm_hash) KeyError);
  let '(engine_id, tinfo) := reg in
  remote_agent_name ← lift (of_option (remote_agents c !! engine_id) KeyError);
  esize ← lift (dtype_size (dtype_str tinfo));
  flat ← perform (AlignedTensor (nbytes tinfo / esize));
  local_buf ← lift (reshape flat (shape tinfo));
  local_descs ← perform (GetRegDescs (data_ptr local_buf) (nbytes tinfo));
  perform (RegisterMemory local_descs) ;;
  local_prepped ← perform
    (PrepXferDlist "NIXL_INIT_AGENT" (data_ptr local_buf) (nbytes tinfo) 0);
  remote_prepped ← perform
    (PrepXferDlist remote_agent_name (base_addr tinfo) (nbytes tinfo) (device_id tinfo));
  handle ← perform (MakePreppedXfer local_prepped remote_prepped);
  st ← perform (Transfer handle);
  if decide (st = "DONE"%string \/ st = "PROC"%string)
  then mret (handle, local_buf, local_descs)
  else raise RuntimeError.

Definition del_pending (mm_hash : string) : CM unit :=
  cmodify (fun c => set_pending_loads (od_pop mm_hash (pending_loads c)) c).

(** [self._release_pull(handle, local_descs); del self._pending_loads[mm_hash]]. *)
Definition drop_pull (mm_hash : string) (handle local_descs : Z) : CM unit :=
  release_pull handle local_descs ;;
  del_pending mm_hash.

(** The body of the loops over the pending pulls in [_wait_for_pulls] and [get_finished];
    the answer says whether the pull completed. *)
Definition poll_pull (entry : string * (Z * Tensor * Z)) : CM bool :=
  let '(mm_hash, (handle, local_buf, local_descs)) := entry in
  st ← perform (CheckXferState handle);
  if decide (st = "DONE"%string) then
    cmodify (fun c => set_encoder_cache (<[mm_hash := local_buf]> (encoder_cache c)) c) ;;
    drop_pull mm_hash handle local_descs ;;
    send_ack_if_unsent mm_hash "ok" ;;
    mret true
  else if decide (st <> "PROC"%string) then
    drop_pull mm_hash handle local_descs ;;
    send_ack_if_unsent mm_hash "fail" ;;
    mret false
  else mret false.

(** A pull that is given up. *)
Definition abandon_pull (entry : string * (Z * Tensor * Z)) : CM unit :=
  let '(mm_hash, (handle, _, local_descs)) := entry in
  drop_pull mm_hash handle local_descs ;;
  send_ack_if_unsent mm_hash "fail".

Definition pulls_turn (deadline : Z) : CM (option unit) :=
  pending ← cgets pending_loads;
  match pending with
  | [] => mret (Some tt)
  | _ =>
      now ← perform Monotonic;
      if negb (now <? deadline) then mret (Some tt)
      else
        for_each pending (fun e => poll_pull e ;; mret tt) ;;
        pending ← cgets pending_loads;
        when (negb (bool_decide (pending = []))) (perform (Sleep XFER_POLL_INTERVAL)) ;;
        mret None
  end.

(** Every turn sleeps a millisecond or leaves nothing pending. *)
Definition pulls_fuel : nat := Z.to_nat (CACHE_WAIT_TIMEOUT / XFER_POLL_INTERVAL + 3).

Definition wait_for_pulls : CM unit :=
  start ← perform Monotonic;
  loop pulls_fuel (pulls_turn (start + CACHE_WAIT_TIMEOUT)) ;;
  pending ← cgets pending_loads;
  for_each pending abandon_pull.

(** ** The interface of the connector *)

(** The deferred hashes first, then the fresh ones that are not among them. *)
Definition merge_todo (deferred fresh : list string) : list string :=
  foldl (fun todo h => if decide (h ∈ todo) then todo else todo ++ [h]) deferred fresh.

(** The body of the loop over [todo]. *)
Definition load_one (mm_hash : string) : CM unit :=
  c ← cgets id;
  if decide (is_Some (encoder_cache c !! mm_hash)) then mret tt
  else if decide (mm_hash ∈ od_keys (pending_loads c)) then mret tt
  else if max_concurrent_pulls cfg <=? len (pending_loads c) then
    cmodify (fun c => set_deferred_loads ({[mm_hash]} ∪ deferred_loads c) c)
  else
    available ← (if decide (is_Some (tensor_registry c !! mm_hash)) then mret true
                 else wait_for_cache mm_hash);
    if negb available then mret tt
    else
      pull ← initiate_pull mm_hash;
      cmodify (fun c => set_pending_loads (od_set mm_hash pull (pending_loads c)) c).

Definition start_load_caches (mm_datas_to_load : list string) (blocking : bool) : CM unit :=
  if is_producer cfg then mret tt
  else
    cmodify (set_encoder_cache_bound true) ;;
    process_pending_metadata ;;
    c ← cgets id;
    deferred ← perform (SetOrder (deferred_loads c));
    cmodify (set_deferred_loads ∅) ;;
    for_each (merge_todo deferred mm_datas_to_load) load_one ;;
    pending ← cgets pending_loads;
    when (negb (bool_decide (pending = [])) && blocking) wait_for_pulls.

(** The hashes of [entries] whose pull completes now. *)
Fixpoint poll_completed (entries : odict string (Z * Tensor * Z)) : CM (gset string) :=
  match entries with
  | [] => mret ∅
  | e :: entries =>
      completed ← poll_pull e;
      rest ← poll_completed entries;
      mret (if completed : bool then {[e.1]} ∪ rest else rest)
  end.

Definition get_finished : CM (option (gset string)) :=
  c ← cgets id;
  if decide (pending_loads c = []) then mret None
  else if negb (encoder_cache_bound c) then mret None
  else
    process_pending_metadata ;;
    pending ← cgets pending_loads;
    completed ← poll_completed pending;
    mret (if decide (completed = ∅) then None else Some completed).

(** What [request_finished] does for one item under [if self.is_consumer]. *)
Definition finish_item (mm_hash : string) : CM unit :=
  send_ack_if_unsent mm_hash "fail" ;;
  cmodify (fun c => set_cache_events (delete mm_hash (cache_events c)) c) ;;
  cmodify (fun c => set_tensor_registry (delete mm_hash (tensor_registry c)) c) ;;
  cmodify (fun c => set_mm_hash_ack_addr (delete mm_hash (mm_hash_ack_addr c)) c) ;;
  cmodify (fun c => set_ack_sent (ack_sent c ∖ {[mm_hash]}) c) ;;
  cmodify (fun c => set_deferred_loads (deferred_loads c ∖ {[mm_hash]}) c) ;;
  pending ← cgets (fun c => od_get mm_hash (pending_loads c));
  del_pending mm_hash ;;
  match pending with
  | Some (handle, _, local_descs) => release_pull handle local_descs
  | None => mret tt
  end.

Definition consumer_request_finished (identifiers : list string) : CM unit :=
  for_each identifiers finish_item.

(** The part of [shutdown] that concerns the consumer. *)
Definition consumer_shutdown : CM unit :=
  pending ← cgets pending_loads;
  for_each pending (fun e => release_pull e.2.1.1 e.2.2) ;;
  cmodify (set_pending_loads []) ;;
  cmodify (set_ack_push_sockets ∅) ;;
  cmodify (set_ping_push_sockets ∅) ;;
  cmodify (set_deferred_loads ∅).

(** What the threads of a consumer and the model runner may do, one after another: the
    runner drops entries of the encoder cache. *)
Inductive consumer_op :=
  | StartLoad (mm_datas_to_load : list string) (blocking : bool)
  | GetFinished
  | FinishItems (identifiers : list string)
  | ReceiveMetadata (msg : option (option ECNixlMetadata))
  | PingRound
  | RunnerDrops (mm_hash : string)
  | ConsumerShutdown.

Definition run_consumer_op (op : consumer_op) : CM unit :=
  match op with
  | StartLoad l blocking => start_load_caches l blocking
  | GetFinished => get_finished ;; mret tt
  | FinishItems ids => consumer_request_finished ids
  | ReceiveMetadata msg => receiver_turn msg
  | PingRound => ping_round
  | RunnerDrops h => cmodify (fun c => set_encoder_cache (delete h (encoder_cache c)) c)
  | ConsumerShutdown => consumer_shutdown
  end.

Definition run_consumer (ops : list consumer_op) : CM unit :=
  for_each ops run_consumer_op.
End consumer.
