(* ===== verification/EcConnector.v ===== *)
(** * Encoder-cache transfer: the connector

    The scheduler side, the worker with its two roles, and the entry point that sends every
    call to one of them. *)
From S2P Require Import Prelude Effects EcWorld EcProducer EcConsumer.

(** ** The scheduler side *)
Record MMFeature := { identifier : string; num_encoder_embeds : Z }.

(** [_mm_datas_need_loads], the one attribute of the scheduler side. *)
Abbreviation NeedLoads := (odict string Z).

Definition has_cache_item (cfg : Config) (h : string) : bool := is_consumer cfg.

Definition update_state_after_alloc (cfg : Config) (mm_features : list MMFeature)
    (index : Z) (need : NeedLoads) : res NeedLoads :=
  if negb (is_consumer cfg) then Ok need
  else
    f ← of_option (py_nth mm_features index) IndexError;
    Ok (od_set (identifier f) (num_encoder_embeds f) need).

(** The metadata of the step, and what remains recorded. *)
Definition build_connector_meta (need : NeedLoads) : list (string * Z) * NeedLoads :=
  (need, []).

(** ** The worker side *)
Record Worker := { producer : Producer; consumer : Consumer; world : history }.

Definition set_producer_part (t : Producer * history) (w : Worker) : Worker :=
  {| producer := t.1; consumer := consumer w; world := t.2 |}.
Definition set_consumer_part (t : Consumer * history) (w : Worker) : Worker :=
  {| producer := producer w; consumer := t.1; world := t.2 |}.

Definition new_worker : Worker :=
  {| producer := new_producer; consumer := new_consumer; world := [] |}.

Section worker.
Context `{Env} (cfg : Config).

Definition on_producer {A} : PM A -> M Worker A :=
  zoom (fun w => (producer w, world w)) set_producer_part.
Definition on_consumer {A} : CM A -> M Worker A :=
  zoom (fun w => (consumer w, world w)) set_consumer_part.

Definition worker_request_finished (mm_features : list MMFeature) : M Worker unit :=
  let ids := identifier <$> mm_features in
  when (is_producer cfg) (on_producer (producer_request_finished ids)) ;;
  when (is_consumer cfg) (on_consumer (consumer_request_finished cfg ids)).

Definition shutdown : M Worker unit :=
  on_consumer consumer_shutdown ;;
  on_producer producer_shutdown.

(** ** The entry point *)
Inductive ECConnectorRole := SCHEDULER | WORKER | UnknownRole.

Inductive Impl :=
  | SchedulerImpl (need : NeedLoads)
  | WorkerImpl (w : Worker).

Definition new_connector (role : ECConnectorRole) : res Impl :=
  match role with
  | SCHEDULER => Ok (SchedulerImpl [])
  | WORKER => Ok (WorkerImpl new_worker)
  | UnknownRole => Raise ValueError
  end.

Definition on_scheduler {A} (m : M NeedLoads A) : M Impl A := fun i =>
  match i with
  | SchedulerImpl need => let '(need, r) := m need in (SchedulerImpl need, r)
  | WorkerImpl w => (WorkerImpl w, Raise RuntimeError)
  end.

Definition on_worker {A} (m : M Worker A) : M Impl A := fun i =>
  match i with
  | SchedulerImpl need => (SchedulerImpl need, Raise RuntimeError)
  | WorkerImpl w => let '(w, r) := m w in (WorkerImpl w, r)
  end.

Definition c_has_cache_item (h : string) : M Impl bool :=
  on_scheduler (mret (has_cache_item cfg h)).

Definition c_update_state_after_alloc (mm_features : list MMFeature) (index : Z) :
    M Impl unit :=
  on_scheduler (fun need =>
    match update_state_after_alloc cfg mm_features index need with
    | Ok need => (need, Ok tt)
    | Raise e => (need, Raise e)
    end).

Definition c_build_connector_meta : M Impl (list (string * Z)) :=
  on_scheduler (fun need =>
    let '(meta, need) := build_connector_meta need in (need, Ok meta)).

(** [start_load_caches] gets what [bind_connector_metadata] recorded. *)
Definition c_start_load_caches (meta : list (string * Z)) (blocking : bool) :
    M Impl unit :=
  on_worker (on_consumer (start_load_caches cfg (od_keys meta) blocking)).

Definition c_save_caches (encoder_cache : gmap string Tensor) (mm_hash : string) :
    M Impl unit :=
  on_worker (on_producer (save_caches cfg encoder_cache mm_hash)).
End worker.
