(* ===== verification/EcConsumerInv.v ===== *)
(** * Encoder-cache transfer: what the consumer keeps

    The relation between the states before and after the parts that only learn (the
    receiver, the drain of the metadata, the wait) or only tell (acknowledgements), and the
    ledger of the pulls in flight. *)
From S2P Require Import Prelude Effects EcWorld EcConsumer.

(** Polls that found a transfer failed. *)
Definition failed1 (e : event) : list Z :=
  match e with
  | Event (CheckXferState x) (Ok st) =>
      if decide (st = "DONE"%string \/ st = "PROC"%string) then [] else [x]
  | _ => []
  end.
Definition failed (h : history) : list Z := h ≫= failed1.
#[global] Arguments failed : simpl never.

(** Acknowledgements of [mm_hash] that left; pings do not count. *)
Definition acks_of (mm_hash : string) (h : history) : list ECNixlAck :=
  filter (fun a => a_mm_hash a = mm_hash /\ status a <> "ping"%string) (acked h).

(** An event that neither registers, makes, gives back nor releases anything, that sends no
    acknowledgement and polls no failure. *)
Definition silent (e : event) : Prop :=
  registered1 e = [] /\ disowned1 e = [] /\ made1 e = [] /\ let_go1 e = [] /\
  acked1 e = [] /\ failed1 e = [].

Section steady.
Context `{Env} `{!EnvLaws} (cfg : Config).
Implicit Types s : Consumer * history.

(** The acknowledgements of [h] sent so far and the one that may still be sent. *)
Definition ack_budget (h : string) s : nat :=
  length (acks_of h s.2) + (if decide (h ∈ ack_sent s.1) then 0 else 1).

Record steady s s' : Prop := {
  st_pending : pending_loads s'.1 = pending_loads s.1;
  st_cache : encoder_cache s'.1 = encoder_cache s.1;
  st_bound : encoder_cache_bound s'.1 = encoder_cache_bound s.1;
  st_deferred : deferred_loads s'.1 = deferred_loads s.1;
  st_registry h : is_Some (tensor_registry s.1 !! h) -> is_Some (tensor_registry s'.1 !! h);
  st_registered : registered s'.2 = registered s.2;
  st_deregistered : disowned s'.2 = disowned s.2;
  st_made : made s'.2 = made s.2;
  st_released : let_go s'.2 = let_go s.2;
  st_failed : failed s'.2 = failed s.2;
  st_clock : clock s.2 <= clock s'.2;
  st_acks h : (ack_budget h s' <= ack_budget h s)%nat
}.

Lemma steady_refl s : steady s s.
Proof. by split. Qed.

Lemma steady_trans s1 s2 s3 : steady s1 s2 -> steady s2 s3 -> steady s1 s3.
Proof.
  intros [] []. split; try congruence; [auto|lia|]. intros h. specialize (st_acks0 h).
  specialize (st_acks1 h). lia.
Qed.

#[local] Instance steady_po : PreOrder steady.
Proof. split; [exact steady_refl|exact steady_trans]. Qed.

Definition steadily {A} (m : CM A) : Prop := forall s,
  wp m s (fun _ s' => steady s s') (fun _ s' => steady s s').

Lemma steadily_ret {A} (a : A) : steadily (mret a).
Proof. intros s. apply steady_refl. Qed.

Lemma steadily_raise {A} e : steadily (A := A) (raise e).
Proof. intros s. apply steady_refl. Qed.

Lemma steadily_lift {A} (r : res A) : steadily (lift r).
Proof. intros s. apply wp_lift; intros; apply steady_refl. Qed.

Lemma steadily_gets {A} (f : Consumer -> A) : steadily (cgets f).
Proof. intros s. apply steady_refl. Qed.

Lemma steadily_bind {A B} (m : CM A) (f : A -> CM B) :
  steadily m -> (forall a, steadily (f a)) -> steadily (m ≫= f).
Proof.
  intros Hm Hf s. wp_step. eapply wp_mono; [apply Hm| |auto]. intros a s' Hs.
  eapply wp_mono; [apply Hf|..]; cbn; intros ? s'' ?; by apply (steady_trans s s' s'').
Qed.

Lemma steadily_when b m : steadily m -> steadily (when b m).
Proof. destruct b; [done|]. intros _. apply steadily_ret. Qed.

Lemma steadily_for {A} (l : list A) body :
  (forall x, x ∈ l -> steadily (body x)) -> steadily (for_each l body).
Proof.
  induction l as [|x l IH]; intros Hb; cbn [for_each]; [apply steadily_ret|].
  apply steadily_bind; [apply Hb; by left|]. intros _. apply IH. intros y Hy. apply Hb. by right.
Qed.

Lemma steadily_loop {A} fuel (body : CM (option A)) :
  steadily body -> steadily (loop fuel body).
Proof.
  intros Hb. induction fuel as [|fuel IH]; cbn [loop]; [apply steadily_raise|].
  apply steadily_bind; [done|]. intros [a|]; [apply steadily_ret|done].
Qed.

(** A change of what the relation does not speak of. *)
Lemma steadily_modify f :
  (forall c, pending_loads (f c) = pending_loads c /\ encoder_cache (f c) = encoder_cache c /\
    encoder_cache_bound (f c) = encoder_cache_bound c /\
    deferred_loads (f c) = deferred_loads c /\ ack_sent (f c) = ack_sent c /\
    forall h, is_Some (tensor_registry c !! h) -> is_Some (tensor_registry (f c) !! h)) ->
  steadily (cmodify f).
Proof.
  intros Hf [c h]. unfold cmodify. wp_step. destruct (Hf c) as (H1 & H2 & H3 & H4 & H5 & H6).
  split; cbn; try done. intros k. unfold ack_budget. cbn. by rewrite H5.
Qed.

Lemma steady_silent c e h : silent e -> steady (c, h) (c, e :: h).
Proof.
  intros (H1 & H2 & H3 & H4 & H5 & H6). split; cbn; try done.
  - unfold registered. cbn. by rewrite H1.
  - unfold disowned. cbn. by rewrite H2.
  - unfold made. cbn. by rewrite H3.
  - unfold let_go. cbn. by rewrite H4.
  - unfold failed. cbn. by rewrite H6.
  - apply clock_mono.
  - intros k. unfold ack_budget, acks_of, acked. cbn. by rewrite H5.
Qed.

Lemma steadily_call c : (forall r, silent (Event c r)) -> steadily (perform (P := Consumer) c).
Proof. intros Hc [p h]. wp_call; intros a _; by apply steady_silent. Qed.
Create HintDb steady.
#[local] Hint Resolve steadily_ret steadily_raise steadily_lift steadily_gets : steady.
#[local] Hint Extern 1 (steadily (perform ?c)) =>
  refine (steadily_call c _); intros r; by repeat split : steady.
#[local] Hint Extern 1 (steadily (cmodify _)) =>
  apply steadily_modify; intros c; by repeat split : steady.

Ltac steady :=
  repeat first
    [ solve [auto with steady nocore]
    | apply steadily_bind; [|intros ?]
    | apply steadily_when
    | apply steadily_for; intros ? ?
    | apply steadily_loop
    | lazymatch goal with
      | |- steadily (match ?x with _ => _ end) => destruct x
      end ].

Lemma steadily_receiver msg : steadily (receiver_turn cfg msg).
Proof. unfold receiver_turn, put_metadata. steady. Qed.
#[local] Hint Resolve steadily_receiver : steady.

Lemma steadily_interrupted : steadily (interrupted cfg).
Proof. unfold interrupted. steady. Qed.
#[local] Hint Resolve steadily_interrupted : steady.

Lemma steadily_registry f :
  (forall r h, is_Some (r !! h) -> is_Some (f r !! h)) ->
  steadily (cmodify (fun c => set_tensor_registry (f (tensor_registry c)) c)).
Proof. intros Hf. apply steadily_modify. intros c. repeat (split; [done|]). apply Hf. Qed.

Lemma steadily_process_metadata m : steadily (process_metadata m).
Proof.
  unfold process_metadata, register_agent. steady.
  apply (steadily_registry (fun r => <[m_mm_hash m := (m_engine_id m, tensor m)]> r)).
  intros r h Hr. destruct (decide (h = m_mm_hash m)) as [-> |Hne].
  - by rewrite lookup_insert_eq.
  - by rewrite lookup_insert_ne.
Qed.
#[local] Hint Resolve steadily_process_metadata : steady.

Lemma steadily_process : steadily process_pending_metadata.
Proof. unfold process_pending_metadata. steady. Qed.
#[local] Hint Resolve steadily_process : steady.

Lemma steadily_event h : steadily (get_or_create_event h).
Proof.
  unfold get_or_create_event. apply steadily_modify. intros c. by destruct (cache_events c !! h).
Qed.
#[local] Hint Resolve steadily_event : steady.

Lemma steadily_event_wait h t : steadily (event_wait cfg h t).
Proof. unfold event_wait. steady. Qed.
#[local] Hint Resolve steadily_event_wait : steady.

Lemma steadily_wait_turn h d : steadily (wait_turn cfg h d).
Proof. unfold wait_turn, is_registered. steady. Qed.
#[local] Hint Resolve steadily_wait_turn : steady.

Lemma steadily_wait h : steadily (wait_for_cache cfg h).
Proof. unfold wait_for_cache, is_registered. steady. Qed.

(** ** Acknowledgements *)
Lemma acks_of_cons h e hist : acks_of h (e :: hist) =
  filter (fun a => a_mm_hash a = h /\ status a <> "ping"%string) (acked1 e) ++ acks_of h hist.
Proof. unfold acks_of. by rewrite <- filter_app. Qed.

Lemma steadily_send h st : steadily (send_ack_if_unsent cfg h st).
Proof.
  intros [c hist]. unfold send_ack_if_unsent, cgets, cmodify. do 2 wp_step. cbn [fst id].
  case_decide as Hsent; [wp_step; apply steady_refl|].
  destruct (mm_hash_ack_addr c !! h) as [addr|]; [|wp_step; apply steady_refl].
  destruct (tensor_registry c !! h) as [[engine ti]|]; [|wp_step; apply steady_refl].
  do 2 wp_step. cbn [fst snd]. wp_step. set (ack := {| a_mm_hash := h |}).
  assert (Hno : forall e, silent e ->
    steady (c, hist) (set_ack_push_sockets ({[addr]} ∪ ack_push_sockets c) c, e :: hist)).
  { intros e He. apply (steady_trans _ (set_ack_push_sockets ({[addr]} ∪ ack_push_sockets c) c, hist));
      [by split|by apply steady_silent]. }
  wp_call; [intros [] _|intros e _].
  - cbn [when]. wp_step. split; cbn; try done; [apply clock_mono|]. intros k.
    unfold ack_budget. cbn [fst snd]. rewrite acks_of_cons. cbn [acked1 ack_sent set_ack_sent].
    cbn [set_ack_push_sockets ack_sent]. rewrite length_app, filter_cons.
    destruct (decide (k = h)) as [-> |Hk].
    + rewrite (decide_True (P := h ∈ {[h]} ∪ ack_sent c)) by set_solver.
      destruct (decide (h ∈ ack_sent c)); [done|]. destruct (decide (_ /\ _)); cbn; lia.
    + rewrite (decide_False (P := a_mm_hash ack = k /\ _)) by (cbn; naive_solver). cbn.
      rewrite (decide_ext (k ∈ {[h]} ∪ ack_sent c) (k ∈ ack_sent c)) by set_solver. lia.
  - cbn [when]. wp_step. by apply Hno.
  - by apply Hno.
Qed.

Lemma steadily_ping : steadily (ping_round cfg).
Proof.
  unfold ping_round. steady.
  intros [c hist]. wp_call; [intros b _|intros e _; by apply steady_silent].
  split; cbn; try done; [apply clock_mono|]. intros k. unfold ack_budget. cbn [fst snd].
  rewrite acks_of_cons. destruct b; [|done]. cbn [acked1].
  rewrite filter_cons_False by (cbn; naive_solver). done.
Qed.
End steady.
