(* ===== verification/EcPulls.v ===== *)
(** * Encoder-cache transfer: the pulls of the consumer

    The ledger of the pulls: what is registered and made is given back and released exactly
    when a pull leaves [pending_loads]; and what becomes of every hash that was asked for. *)
From S2P Require Import Prelude Effects EcWorld EcConsumer EcConsumerInv.

Definition pull_handle (e : string * (Z * Tensor * Z)) : Z := e.2.1.1.
Definition pull_descs (e : string * (Z * Tensor * Z)) : Z := e.2.2.

Section pulls.
Context `{Env} `{!EnvLaws} (cfg : Config).
Implicit Types s : Consumer * history.

(** What no call takes back, until an item is finished or the runner drops an output. *)
Record moved s s' : Prop := {
  mv_cache h : is_Some (encoder_cache s.1 !! h) -> is_Some (encoder_cache s'.1 !! h);
  mv_failed : (length (failed s.2) <= length (failed s'.2))%nat;
  mv_clock : clock s.2 <= clock s'.2;
  mv_acks h : (ack_budget h s' <= ack_budget h s)%nat
}.

Lemma moved_refl s : moved s s.
Proof. by split. Qed.

Lemma moved_trans s1 s2 s3 : moved s1 s2 -> moved s2 s3 -> moved s1 s3.
Proof.
  intros [] []. split; [auto|lia|lia|]. intros h.
  specialize (mv_acks0 h). specialize (mv_acks1 h). lia.
Qed.

Lemma steady_moved s s' : steady s s' -> moved s s'.
Proof. intros []. split; try done; [by rewrite st_cache|by rewrite st_failed]. Qed.

(** Every descriptor registered and every handle made is given back, or held by the one
    pull that is pending for its hash. *)
Record ledger s : Prop := {
  lg_nodup : NoDup (od_keys (pending_loads s.1));
  lg_descs : registered s.2 ≡ₚ disowned s.2 ++ (pull_descs <$> pending_loads s.1);
  lg_handles : made s.2 ≡ₚ let_go s.2 ++ (pull_handle <$> pending_loads s.1)
}.

Lemma steady_ledger s s' : steady s s' -> ledger s -> ledger s'.
Proof.
  intros [] []. split; rewrite ?st_pending, ?st_registered, ?st_deregistered, ?st_made, ?st_released;
    done.
Qed.

(** ** One pull leaves *)
Record left_pending h s s' : Prop := {
  lp_moved : moved s s';
  lp_ledger : ledger s';
  lp_pending : pending_loads s'.1 = od_pop h (pending_loads s.1);
  lp_deferred : deferred_loads s'.1 = deferred_loads s.1;
  lp_registry k : is_Some (tensor_registry s.1 !! k) -> is_Some (tensor_registry s'.1 !! k)
}.

Lemma left_steady h s s' s'' : left_pending h s s' -> steady s' s'' -> left_pending h s s''.
Proof.
  intros [] Hst. split.
  - eapply moved_trans; [done|by apply steady_moved].
  - by eapply steady_ledger.
  - by rewrite (st_pending _ _ Hst).
  - by rewrite (st_deferred _ _ Hst).
  - intros k Hk. apply (st_registry _ _ Hst). auto.
Qed.

Lemma ledger_drop h x b d c c' hist r1 r2 : ledger (c, hist) ->
  od_get h (pending_loads c) = Some (x, b, d) ->
  pending_loads c' = od_pop h (pending_loads c) ->
  ledger (c', Event (DeregisterMemory d) r1 :: Event (ReleaseXferHandle x) r2 :: hist).
Proof.
  intros [Hn Hd Hh] Hg Hc'. cbn [fst snd] in *.
  destruct (od_pop_split h (x, b, d) (pending_loads c) Hn Hg) as (d1 & d2 & Hpend & Hpop).
  split; cbn [fst snd]; rewrite Hc'; [by apply NoDup_od_pop|..]; rewrite Hpop.
  - change (registered hist ≡ₚ d :: disowned hist ++ (pull_descs <$> d1 ++ d2)).
    rewrite Hd, Hpend, !fmap_app, fmap_cons. cbn. solve_Permutation.
  - change (made hist ≡ₚ x :: let_go hist ++ (pull_handle <$> d1 ++ d2)).
    rewrite Hh, Hpend, !fmap_app, fmap_cons. cbn. solve_Permutation.
Qed.

Lemma drop_ok h x b d cache s Q E : ledger s ->
  od_get h (pending_loads s.1) = Some (x, b, d) ->
  (forall k, is_Some (encoder_cache s.1 !! k) -> is_Some (cache !! k)) ->
  (forall s', left_pending h s s' -> encoder_cache s'.1 = cache -> failed s'.2 = failed s.2 ->
     Q tt s') ->
  wp (drop_pull h x d) (set_encoder_cache cache s.1, s.2) Q E.
Proof.
  intros Hl Hg Hcache HQ. destruct s as [c hist]. cbn [fst snd] in *.
  assert (Hfin : forall r1 r2, Q tt
    (set_pending_loads (od_pop h (pending_loads c)) (set_encoder_cache cache c),
     Event (DeregisterMemory d) r1 :: Event (ReleaseXferHandle x) r2 :: hist)).
  { intros r1 r2. apply HQ; [|done|done]. split; cbn; try done; [|by eapply ledger_drop].
    split; cbn; try done. etrans; [apply clock_mono|apply clock_mono]. }
  unfold drop_pull, release_pull, del_pending, cmodify. do 3 wp_step.
  wp_call; intros r _; wp_step; wp_call; intros r' _; wp_step; apply Hfin.
Qed.
(** Finding a pull done or failed, or giving it up. *)
Lemma wp_left {A} h s s1 (m : CM A) (Q : A -> Consumer * history -> Prop) E :
  left_pending h s s1 -> steadily m ->
  (forall a s', left_pending h s s' -> encoder_cache s'.1 = encoder_cache s1.1 ->
     failed s'.2 = failed s1.2 -> Q a s') ->
  (forall e s', moved s s' -> E e s') -> wp m s1 Q E.
Proof.
  intros Hl Hm HQ HE. eapply wp_mono; [apply Hm|..]; cbn.
  - intros a s' Hst. apply HQ; [by eapply left_steady|apply Hst|apply Hst].
  - intros e s' Hst. apply HE. eapply moved_trans; [apply Hl|by apply steady_moved].
Qed.

Lemma abandon_ok h x b d s : ledger s -> od_get h (pending_loads s.1) = Some (x, b, d) ->
  wp (abandon_pull cfg (h, (x, b, d))) s (fun _ s' => left_pending h s s')
    (fun _ s' => moved s s').
Proof.
  intros Hl Hg. unfold abandon_pull. wp_step.
  replace s with (set_encoder_cache (encoder_cache s.1) s.1, s.2) at 1 by (by destruct s as [[] ?]).
  apply (drop_ok h x b d); [done|done|done|]. intros s1 Hs1 _ _.
  apply (wp_left h s s1); [done|apply steadily_send|done|done].
Qed.

(** What a poll does to the pull of [h], and what its answer means. *)
Definition polled h b s s' : Prop :=
  (steady s s' /\ b = false) \/
  (left_pending h s s' /\
    if b : bool then is_Some (encoder_cache s'.1 !! h)
    else (length (failed s.2) < length (failed s'.2))%nat).

Lemma ledger_silent c e hist : silent e -> ledger (c, hist) -> ledger (c, e :: hist).
Proof. intros. by eapply steady_ledger; [apply steady_silent|]. Qed.

(** A failed check is recorded and changes nothing else. *)
Lemma check_moved c e hist : acked1 e = [] -> moved (c, hist) (c, e :: hist).
Proof.
  intros Ha. split; cbn; try done.
  - unfold failed. cbn. rewrite length_app. lia.
  - apply clock_mono.
  - intros h. unfold ack_budget. cbn [fst snd]. rewrite acks_of_cons, Ha. done.
Qed.

Lemma check_ledger c x r hist : ledger (c, hist) ->
  ledger (c, Event (CheckXferState x) r :: hist).
Proof. intros [Hn Hd Hh]. by split. Qed.

Lemma left_after_check h c e hist s' : moved (c, hist) (c, e :: hist) ->
  left_pending h (c, e :: hist) s' -> left_pending h (c, hist) s'.
Proof. intros Hm []. split; try done. by eapply moved_trans. Qed.

Lemma poll_ok h x b d s : ledger s -> od_get h (pending_loads s.1) = Some (x, b, d) ->
  wp (poll_pull cfg (h, (x, b, d))) s (fun r s' => polled h r s s') (fun _ s' => moved s s').
Proof.
  intros Hl Hg. destruct s as [c hist]. cbn [fst] in Hg. unfold poll_pull, cmodify. wp_step.
  wp_call; intros st _; [|by apply check_moved].
  set (e := Event _ _). assert (Hm : moved (c, hist) (c, e :: hist)) by by apply check_moved.
  pose proof (check_ledger c x (Ok st) hist Hl) as Hl'. change (Event _ _) with e in Hl'.
  assert (Hmore : forall s', moved (c, e :: hist) s' -> moved (c, hist) s')
    by (intros s' Hs; by eapply moved_trans).
  assert (Hrest : forall sent r s1, left_pending h (c, e :: hist) s1 ->
    (if r : bool then is_Some (encoder_cache s1.1 !! h)
     else (length (failed hist) < length (failed s1.2))%nat) ->
    wp (send_ack_if_unsent cfg h sent ;; mret r) s1 (fun r s' => polled h r (c, hist) s')
      (fun _ s' => moved (c, hist) s')).
  { intros sent r s1 Hs1 Hr. wp_step.
    apply (wp_left h (c, e :: hist) s1); [done|apply steadily_send| |auto].
    intros [] s' Hs' Hc Hf. wp_step. right. split; [by eapply left_after_check|].
    destruct r; cbn [snd]; [by rewrite Hc|by rewrite Hf]. }
  case_decide as Hdone; [|case_decide as Hproc].
  - do 2 wp_step. cbn [fst snd]. wp_step.
    apply (drop_ok h x b d (<[h:=b]> (encoder_cache c)) (c, e :: hist)); [done|done|..].
    + intros k Hk. cbn. destruct (decide (k = h)) as [-> |]; [by rewrite lookup_insert_eq|].
      by rewrite lookup_insert_ne.
    + intros s1 Hs1 Hc _. apply Hrest; [done|]. rewrite Hc. by rewrite lookup_insert_eq.
  - wp_step.
    replace (c, e :: hist) with (set_encoder_cache (encoder_cache c) c, e :: hist) by (by destruct c).
    apply (drop_ok h x b d (encoder_cache c) (c, e :: hist)); [done|done|done|].
    intros s1 Hs1 _ Hf. apply Hrest; [done|]. rewrite Hf. unfold failed, e. cbn [snd].
    cbn. rewrite decide_False by tauto. cbn. lia.
  - wp_step. left. split; [|done]. apply steady_silent.
    repeat split. cbn. by rewrite decide_True by (by right).
Qed.
(** ** Many pulls *)

(** Some pulls left, and none of them unnoticed. *)
Record swept s s' : Prop := {
  sw_moved : moved s s';
  sw_ledger : ledger s';
  sw_deferred : deferred_loads s'.1 = deferred_loads s.1;
  sw_sub : pending_loads s'.1 `sublist_of` pending_loads s.1;
  sw_fate k : k ∈ od_keys (pending_loads s.1) ->
    k ∈ od_keys (pending_loads s'.1) \/ is_Some (encoder_cache s'.1 !! k) \/
    (length (failed s.2) < length (failed s'.2))%nat
}.

Lemma swept_refl s : ledger s -> swept s s.
Proof. intros. split; auto. apply moved_refl. Qed.

Lemma swept_trans s1 s2 s3 : swept s1 s2 -> swept s2 s3 -> swept s1 s3.
Proof.
  intros [M1 L1 D1 S1 F1] [M2 L2 D2 S2 F2]. split; try done; [by eapply moved_trans|congruence|by etrans|].
  intros k Hk. pose proof (mv_failed _ _ M1). pose proof (mv_failed _ _ M2).
  destruct (F1 k Hk) as [Hp|[Hc|Hf]].
  - destruct (F2 k Hp) as [?|[?|?]]; [by left|by right; left|right; right; lia].
  - right. left. by apply (mv_cache _ _ M2).
  - right. right. lia.
Qed.

Lemma od_pop_sublist {V} h (d : odict string V) : od_pop h d `sublist_of` d.
Proof. apply sublist_filter. Qed.

Lemma polled_swept h r s s' : ledger s -> polled h r s s' -> swept s s'.
Proof.
  intros Hl [[Hst _]|[Hlp Hr]].
  - split; [by apply steady_moved|by eapply steady_ledger|apply Hst|by rewrite (st_pending _ _ Hst)|].
    intros k Hk. left. by rewrite (st_pending _ _ Hst).
  - split; [apply Hlp|apply Hlp|apply Hlp|rewrite (lp_pending _ _ _ Hlp); apply od_pop_sublist|].
    intros k Hk. destruct (decide (k = h)) as [-> |Hne].
    + right. destruct r; [by left|by right].
    + left. rewrite (lp_pending _ _ _ Hlp), od_keys_pop, list_elem_of_filter. done.
Qed.

Lemma polled_other h r s s' k : polled h r s s' -> k <> h ->
  od_get k (pending_loads s'.1) = od_get k (pending_loads s.1).
Proof.
  intros [[Hst _]|[Hlp _]] Hk; [by rewrite (st_pending _ _ Hst)|].
  rewrite (lp_pending _ _ _ Hlp), od_get_pop. by rewrite decide_False.
Qed.

(** The turns of a loop over a snapshot of the pending pulls meet every pull as it was. *)
Lemma wp_snapshot s (body : string * (Z * Tensor * Z) -> CM unit)
    (R : string -> Consumer * history -> Consumer * history -> Prop) :
  ledger s ->
  (forall h v s', ledger s' -> od_get h (pending_loads s'.1) = Some v ->
     wp (body (h, v)) s' (fun _ s'' => R h s' s'') (fun _ s'' => moved s' s'')) ->
  (forall h s1 s2, ledger s1 -> R h s1 s2 -> swept s1 s2 /\
     forall k, k <> h -> od_get k (pending_loads s2.1) = od_get k (pending_loads s1.1)) ->
  wp (for_each (pending_loads s.1) body) s (fun _ s' => swept s s') (fun _ s' => moved s s').
Proof.
  intros Hl Hbody HR. apply (wp_mono _ _ (fun _ s' => swept s s' /\
    forall k, k ∉ od_keys (pending_loads s.1) ->
      od_get k (pending_loads s'.1) = od_get k (pending_loads s.1)) _ (fun _ s' => moved s s'));
    [|by intros _ s' []|done].
  apply (wp_for _ _ _ (fun d s' => swept s s' /\
    forall k, k ∉ od_keys d -> od_get k (pending_loads s'.1) = od_get k (pending_loads s.1))).
  - split; [by apply swept_refl|done].
  - intros d [h v] todo s' Hp [Hsw Hrest].
    assert (Hn : NoDup (od_keys (d ++ (h, v) :: todo))) by (rewrite <- Hp; apply Hl).
    unfold od_keys in Hn. rewrite fmap_app, fmap_cons in Hn.
    apply NoDup_app in Hn as (_ & Hx & _).
    assert (Hg : od_get h (pending_loads s'.1) = Some v).
    { rewrite Hrest.
      - apply elem_of_odict; [apply Hl|]. rewrite Hp. set_solver.
      - intros Hd. apply (Hx h Hd). by left. }
    eapply wp_mono; [by apply Hbody; [apply Hsw|]|..]; cbn.
    + intros _ s'' HRs. destruct (HR h s' s'' (sw_ledger _ _ Hsw) HRs) as [Hsw' Hoth].
      split; [by eapply swept_trans|]. intros k. unfold od_keys. rewrite fmap_app, not_elem_of_app.
      intros [Hk Hkh]. rewrite Hoth by (cbn in Hkh; set_solver). by apply Hrest.
    + intros _ s'' Hm. eapply moved_trans; [apply Hsw|done].
Qed.
(** ** Waiting for the pulls *)
Definition turns_left (deadline : Z) s : nat :=
  match pending_loads s.1 with
  | [] => 0
  | _ => S (Z.to_nat (cdiv (deadline - clock s.2) XFER_POLL_INTERVAL))
  end.

Lemma cdiv_less a b : a <= b - XFER_POLL_INTERVAL ->
  cdiv a XFER_POLL_INTERVAL <= cdiv b XFER_POLL_INTERVAL - 1.
Proof.
  intros Hab. pose proof (cdiv_spec a XFER_POLL_INTERVAL). pose proof (cdiv_spec b XFER_POLL_INTERVAL).
  unfold XFER_POLL_INTERVAL in *. lia.
Qed.

Lemma poll_all_ok s : ledger s ->
  wp (for_each (pending_loads s.1) (fun e => poll_pull cfg e ;; mret tt)) s
    (fun _ s' => swept s s') (fun _ s' => moved s s').
Proof.
  intros Hl. apply (wp_snapshot s _ (fun h s1 s2 => exists r, polled h r s1 s2)); [done|..].
  - intros h [[x b] d] s' Hl' Hg. wp_step. eapply wp_mono; [by apply poll_ok| |done].
    intros r s'' Hp. wp_step. by exists r.
  - intros h s1 s2 Hl1 [r Hp]. split; [by eapply polled_swept|]. intros k Hk. by eapply polled_other.
Qed.

Lemma swept_steady s s' s'' : swept s s' -> steady s' s'' -> swept s s''.
Proof.
  intros Hsw Hst. apply (swept_trans s s'); [done|]. apply (polled_swept "" false); [apply Hsw|].
  by left.
Qed.

Lemma pulls_turn_ok deadline s0 s : swept s0 s ->
  wp (pulls_turn cfg deadline) s
    (fun r s' => match r with
     | Some _ => swept s0 s' /\ (pending_loads s'.1 = [] \/ deadline <= clock s'.2)
     | None => swept s0 s' /\ (turns_left deadline s' < turns_left deadline s)%nat
     end) (fun _ s' => moved s0 s').
Proof.
  intros Hsw. unfold pulls_turn, cgets. do 2 wp_step. unfold turns_left at 2.
  destruct (pending_loads s.1) as [|e0 rest] eqn:Hp0; [wp_step; by auto|]. rewrite <- Hp0.
  wp_step. wp_call. intros now [= <-].
  set (s1 := (s.1, _)). assert (Hst1 : steady s s1).
  { destruct s as [c hist]. by apply steady_silent. }
  pose proof (swept_steady _ _ _ Hsw Hst1) as Hsw1. pose proof (st_clock _ _ Hst1) as Hc1.
  destruct (Z.ltb_spec (clock s.2) deadline) as [Hlt|Hge]; cbn [negb].
  2:{ wp_step. split; [done|]. right. lia. }
  wp_step. eapply wp_mono; [apply (poll_all_ok s1), Hsw1|..]; cbn.
  2:{ intros _ s' Hm. eapply moved_trans; [apply Hsw1|done]. }
  intros _ s2 Hsw2. pose proof (swept_trans _ _ _ Hsw1 Hsw2) as Hsw02. do 3 wp_step.
  pose proof (mv_clock _ _ (sw_moved _ _ Hsw2)) as Hc2.
  pose proof (cdiv_spec (deadline - clock s.2) XFER_POLL_INTERVAL ltac:(done)) as Hcd.
  case_bool_decide as Hnil; cbn [negb when].
  - wp_steps. unfold turns_left. rewrite Hnil. split; [done|lia].
  - wp_call. intros [] _. wp_step. set (s3 := (s2.1, _)).
    assert (Hst3 : steady s2 s3) by (destruct s2 as [c hist]; by apply steady_silent).
    assert (Hc3 : clock s2.2 + XFER_POLL_INTERVAL <= clock s3.2) by apply clock_sleep.
    split; [by eapply swept_steady|]. unfold turns_left.
    assert (Hless : cdiv (deadline - clock s3.2) XFER_POLL_INTERVAL <=
      cdiv (deadline - clock s.2) XFER_POLL_INTERVAL - 1).
    { apply cdiv_less. clear Hcd. lia. }
    unfold XFER_POLL_INTERVAL in *. destruct (pending_loads s3.1); lia.
Qed.
(** Giving up what is still pending. *)
Lemma abandon_all_ok s : ledger s ->
  wp (for_each (pending_loads s.1) (abandon_pull cfg)) s
    (fun _ s' => moved s s' /\ ledger s' /\ deferred_loads s'.1 = deferred_loads s.1 /\
       pending_loads s'.1 = [])
    (fun _ s' => moved s s').
Proof.
  intros Hl. apply (wp_mono _ _ (fun _ s' => moved s s' /\ ledger s' /\
    deferred_loads s'.1 = deferred_loads s.1 /\
    pending_loads s.1 = pending_loads s.1 ++ pending_loads s'.1) _ (fun _ s' => moved s s')); [|..|done].
  2:{ intros _ s' (? & ? & ? & Hp). split_and!; try done.
      rewrite <- (app_nil_r (pending_loads s.1)) in Hp at 1. by apply app_inv_head in Hp. }
  apply (wp_for _ _ _ (fun d s' => moved s s' /\ ledger s' /\
    deferred_loads s'.1 = deferred_loads s.1 /\ pending_loads s.1 = d ++ pending_loads s'.1)).
  - split_and!; try done; apply moved_refl.
  - intros d [h [[x b] dd]] todo s' Hp (Hm & Hl' & Hdef & Hp').
    assert (Hpend : pending_loads s'.1 = (h, (x, b, dd)) :: todo)
      by (rewrite Hp in Hp'; by apply app_inv_head in Hp').
    eapply wp_mono; [apply (abandon_ok h x b dd s' Hl')|..]; cbn.
    + rewrite Hpend. cbn. by rewrite decide_True.
    + intros _ s'' Hlp. split_and!; [by eapply moved_trans, Hlp|apply Hlp| |].
      * by rewrite (lp_deferred _ _ _ Hlp).
      * rewrite (lp_pending _ _ _ Hlp), Hpend. rewrite Hp. rewrite <- app_assoc. f_equal. cbn.
        unfold od_pop. rewrite filter_cons_False by (cbn; naive_solver).
        f_equal. symmetry. apply od_pop_notin.
        pose proof (lg_nodup _ Hl') as Hn. rewrite Hpend in Hn. unfold od_keys in *.
        rewrite fmap_cons in Hn. by apply NoDup_cons in Hn as [? _].
    + intros _ s'' Hm'. by eapply moved_trans.
Qed.

Lemma turns_left_fuel s t : t <= clock s.2 ->
  (turns_left (t + CACHE_WAIT_TIMEOUT) s < pulls_fuel)%nat.
Proof.
  intros Hc1. unfold turns_left, pulls_fuel.
  assert (Hcd : cdiv (t + CACHE_WAIT_TIMEOUT - clock s.2) XFER_POLL_INTERVAL <= 30000).
  { pose proof (cdiv_spec (t + CACHE_WAIT_TIMEOUT - clock s.2) XFER_POLL_INTERVAL ltac:(done)).
    unfold CACHE_WAIT_TIMEOUT, second, XFER_POLL_INTERVAL in *. lia. }
  change (CACHE_WAIT_TIMEOUT / XFER_POLL_INTERVAL + 3) with 30003.
  destruct (pending_loads s.1); lia.
Qed.

(** Every pull that was pending has delivered, failed, or waited for the whole timeout. *)
Lemma wait_for_pulls_ok s : ledger s ->
  wp (wait_for_pulls cfg) s (fun _ s' => moved s s' /\ ledger s' /\
      deferred_loads s'.1 = deferred_loads s.1 /\ pending_loads s'.1 = [] /\
      forall k, k ∈ od_keys (pending_loads s.1) ->
        is_Some (encoder_cache s'.1 !! k) \/ (length (failed s.2) < length (failed s'.2))%nat \/
        CACHE_WAIT_TIMEOUT <= clock s'.2 - clock s.2)
    (fun _ s' => moved s s').
Proof.
  intros Hl. unfold wait_for_pulls, cgets. wp_step. wp_call. intros start [= <-].
  set (s1 := (s.1, _)). assert (Hst1 : steady s s1).
  { destruct s as [c hist]. by apply steady_silent. }
  pose proof (swept_steady _ _ _ (swept_refl _ Hl) Hst1) as Hsw1.
  set (deadline := clock s.2 + CACHE_WAIT_TIMEOUT). wp_step.
  eapply wp_mono; [apply (wp_loop (turns_left deadline) (fun s' => swept s s') _ _ s1
    (fun _ s' => swept s s' /\ (pending_loads s'.1 = [] \/ deadline <= clock s'.2))
    (fun _ s' => moved s s'))| |done].
  - done.
  - apply turns_left_fuel, (st_clock _ _ Hst1).
  - intros s' Hsw. eapply wp_mono; [by apply (pulls_turn_ok deadline s s')| |done].
    intros [[]|] s''; cbn; tauto.
  - intros [] s2 [Hsw2 Hend]. do 2 wp_step.
    eapply wp_mono; [apply abandon_all_ok, Hsw2|..]; cbn.
    + intros _ s3 (Hm3 & Hl3 & Hd3 & Hp3).
      split; [by eapply moved_trans; [apply Hsw2|]|]. split; [done|]. split.
      { rewrite Hd3. apply Hsw2. }
      split; [done|]. intros k Hk. pose proof (mv_clock _ _ Hm3). pose proof (mv_failed _ _ Hm3).
      destruct (sw_fate _ _ Hsw2 k Hk) as [Hp|[Hc|Hf]].
      * right. right. destruct Hend as [Hnil|Hd]; [|unfold deadline in *; lia].
        rewrite Hnil in Hp. by apply not_elem_of_nil in Hp.
      * left. by apply (mv_cache _ _ Hm3).
      * right. left. lia.
    + intros _ s3 Hm. eapply moved_trans; [apply Hsw2|done].
Qed.
End pulls.
