(* ===== verification/EcWait.v ===== *)
(** * Encoder-cache transfer: waiting for metadata

    [_wait_for_cache] returns: with the metadata registered, or after the whole timeout
    with every message that had been queued processed. *)
From S2P Require Import Prelude Effects EcWorld EcConsumer EcConsumerInv.

Section wait.
Context `{Env} `{!EnvLaws} (cfg : Config).
Implicit Types s : Consumer * history.

Definition queued s : list string := m_mm_hash <$> incoming_metadata s.1.
Definition known s h : Prop := is_Some (tensor_registry s.1 !! h).

(** The exception is the answer of the last call that left the repository. *)
Definition env_raised (e : exn) s : Prop := exists c hist,
  s.2 = Event c (Raise e) :: hist /\ answer hist c = Raise e.

Lemma env_raised_intro c e p hist : answer hist c = Raise e ->
  env_raised e (p, Event c (Raise e) :: hist).
Proof. intros. by exists c, hist. Qed.

Lemma answer_no_fuel hist c : answer hist c <> Raise OutOfFuel.
Proof. destruct c; try discriminate; apply reply_no_fuel. Qed.

Lemma env_raised_no_fuel e s : env_raised e s -> e <> OutOfFuel.
Proof. intros (c & hist & _ & Ha) ->. by apply answer_no_fuel in Ha. Qed.

(** ** The drain *)

Lemma process_metadata_ok m s :
  wp (process_metadata m) s (fun _ s' => incoming_metadata s'.1 = incoming_metadata s.1 /\
      known s' (m_mm_hash m) /\ forall k, known s k -> known s' k)
    env_raised.
Proof.
  intros. unfold process_metadata, register_agent, cgets, cmodify. do 3 wp_step.
  assert (Hadd : forall c hist, incoming_metadata c = incoming_metadata s.1 ->
    tensor_registry c = tensor_registry s.1 ->
    incoming_metadata (set_tensor_registry
      (<[m_mm_hash m := (m_engine_id m, tensor m)]> (tensor_registry c)) c) =
        incoming_metadata s.1 /\
    known (set_tensor_registry
      (<[m_mm_hash m := (m_engine_id m, tensor m)]> (tensor_registry c)) c, hist) (m_mm_hash m) /\
    (forall k, known s k -> known (set_tensor_registry
      (<[m_mm_hash m := (m_engine_id m, tensor m)]> (tensor_registry c)) c, hist) k)).
  { intros c hist Hq Hr. split; [done|]. unfold known. cbn. split; [by rewrite lookup_insert_eq|].
    intros k Hk. rewrite Hr. destruct (decide (k = m_mm_hash m)) as [-> |];
      [by rewrite lookup_insert_eq|by rewrite lookup_insert_ne]. }
  destruct (remote_agents s.1 !! m_engine_id m) as [name|]; wp_step; [wp_call; intros u Hu; [|by apply env_raised_intro]|wp_step];
    (wp_step; wp_call; intros name' Hn; [|by apply env_raised_intro]; wp_steps; by apply Hadd).
Qed.

Lemma process_ok s :
  wp process_pending_metadata s (fun _ s' =>
      incoming_metadata s'.1 = [] /\ (forall h, h ∈ queued s -> known s' h) /\
      forall k, known s k -> known s' k)
    env_raised.
Proof.
  unfold process_pending_metadata, cgets, cmodify. do 2 wp_step.
  apply (wp_loop (fun s' => length (incoming_metadata s'.1)) (fun s' =>
    (forall h, h ∈ queued s -> h ∈ queued s' \/ known s' h) /\ forall k, known s k -> known s' k)).
  { split; [by left|done]. }
  { lia. }
  intros s' [Hq Hk]. do 2 wp_step. destruct (incoming_metadata s'.1) as [|m q] eqn:Eq; wp_step.
  { split; [done|]. split; [|done]. intros h Hh. destruct (Hq h Hh) as [Hin|]; [|done].
    unfold queued in Hin. rewrite Eq in Hin. by apply not_elem_of_nil in Hin. }
  do 2 wp_step. eapply wp_mono; [apply process_metadata_ok| |done]. cbn.
  intros _ s'' (Hq'' & Hm & Hk''). split; [|rewrite Hq''; cbn; lia]. split.
  - intros h Hh. destruct (Hq h Hh) as [Hin|Hkn]; [|right; by apply Hk''].
    unfold queued in *. rewrite Eq in Hin. rewrite Hq''. cbn in *.
    apply elem_of_cons in Hin as [-> |]; auto.
  - intros k Hkn. apply Hk''. by apply Hk.
Qed.

(** ** The event *)

(** The flag of [h] is raised only while metadata of [h] is queued. *)
Definition flagged h s : Prop := cache_events s.1 !! h = Some true -> h ∈ queued s.

Definition arrived s s' : Prop :=
  queued s `prefix_of` queued s' /\ forall h, flagged h s -> flagged h s'.

Lemma arrived_trans s1 s2 s3 : arrived s1 s2 -> arrived s2 s3 -> arrived s1 s3.
Proof. intros [? ?] [? ?]. split; [by etrans|auto]. Qed.

Lemma put_arrived m s E : wp (put_metadata cfg m) s (fun _ s' => arrived s s') E.
Proof.
  unfold put_metadata, cgets, cmodify. do 2 wp_step. destruct (queue_full _ _); wp_steps; [by split|].
  unfold arrived, flagged, queued. cbn. rewrite fmap_app. split; [by apply prefix_app_r|].
  intros h Hf. destruct (decide (h = m_mm_hash m)) as [-> |Hne]; [intros _; set_solver|].
  rewrite lookup_alter_ne by done. intros Hh%Hf. set_solver.
Qed.

Lemma interrupted_ok s E :
  wp (interrupted cfg) s (fun _ s' => arrived s s' /\ steady s s') E.
Proof.
  assert (Ha : wp (interrupted cfg) s (fun _ s' => arrived s s') (fun _ _ => False)).
  { unfold interrupted. wp_step. wp_call. intros msgs _.
    apply (wp_for_inv _ _ _ (arrived s)); [by split|].
    intros m s' _ Ha.
    apply (wp_mono _ _ (fun _ s'' => arrived s' s'') _ (fun _ _ => False));
      [|intros _ s''; by apply arrived_trans|done].
    unfold receiver_turn, cgets. do 2 wp_step. destruct (meta_in_hand s'.1); [apply put_arrived|].
    destruct m as [m|]; [apply put_arrived|wp_step; by split]. }
  eapply wp_mono; [exact (wp_and _ _ _ _ _ _ Ha (steadily_interrupted cfg s))|done|].
  by intros e s' [].
Qed.

(** A wait ends with metadata queued, or after its timeout. *)
Lemma event_wait_ok h t s E :
  wp (event_wait cfg h t) s (fun _ s' => (h ∈ queued s' \/ t <= clock s'.2 - clock s.2) /\
    queued s `prefix_of` queued s') E.
Proof.
  unfold event_wait, cmodify, cgets. wp_step.
  eapply wp_mono; [apply (interrupted_ok s E)| |auto]. intros [] s1 [[Hp1 _] Hst1]. do 2 wp_step.
  set (s1' := (_, s1.2)). wp_step. eapply wp_mono; [apply (interrupted_ok s1' E)| |auto].
  intros [] s2 [[Hp2 Hf2] Hst2]. do 2 wp_step.
  assert (Hp : queued s `prefix_of` queued s2) by (etrans; [exact Hp1|exact Hp2]).
  assert (Hfl : flagged h s2).
  { apply Hf2. unfold flagged. cbn. by rewrite lookup_insert_eq. }
  destruct (default false (cache_events s2.1 !! h)) eqn:Eflag; cbn [negb when].
  - wp_step. split; [|done]. left. apply Hfl. by destruct (cache_events s2.1 !! h); simplify_eq/=.
  - wp_call. intros [] _. split; [|done]. right.
    pose proof (st_clock _ _ Hst1). pose proof (st_clock _ _ Hst2). unfold s1' in *.
    cbn [fst snd] in *. match goal with |- _ <= ?x - _ =>
      assert (clock s2.2 + t <= x) by apply clock_sleep end. lia.
Qed.

(** ** The wait *)
Definition waits_left (deadline : Z) s : nat := Z.to_nat (cdiv (deadline - clock s.2) second).

Lemma waits_less x x' : 0 < x -> x' <= Z.max 0 (x - second) ->
  (Z.to_nat (cdiv x' second) < Z.to_nat (cdiv x second))%nat.
Proof.
  intros Hx Hx'. pose proof (cdiv_spec x second). pose proof (cdiv_spec x' second).
  unfold second in *. lia.
Qed.

Lemma wait_turn_ok h deadline s :
  wp (wait_turn cfg h deadline) s (fun r s' =>
      match r with
      | Some b => if b : bool then known s' h else deadline <= clock s'.2
      | None => (waits_left deadline s' < waits_left deadline s)%nat
      end)
    env_raised.
Proof.
  unfold wait_turn, is_registered. wp_step. wp_call. intros now [= <-].
  set (s1 := (s.1, _)). assert (Hc1 : clock s.2 <= clock s1.2) by apply clock_mono.
  destruct (Z.ltb_spec (clock s.2) deadline) as [Hlt|Hge]; cbn [negb]; [|wp_step; lia].
  wp_step. wp_call. intros now [= <-].
  set (s2 := (s1.1, _)). assert (Hc2 : clock s1.2 <= clock s2.2) by apply clock_mono.
  cbv zeta. destruct (_ <=? 0) eqn:Ele; zbool.
  { assert (Hle : deadline - clock s1.2 <= 0) by exact Ele. wp_step. lia. }
  assert (Hgt : 0 < deadline - clock s1.2) by exact Ele.
  wp_step. eapply wp_mono; [apply (wp_and _ _ _ _ _ _ (event_wait_ok h _ s2 (fun _ _ => False))
    (steadily_event_wait cfg h _ s2))| |by intros e s' []].
  intros [] s3 [[Hw _] Hst3]. wp_step.
  eapply wp_mono; [apply (wp_and _ _ _ _ _ _ (process_ok s3) (steadily_process s3))| |by intros e s' []].
  intros [] s4 [(_ & Hq4 & Hk4) Hst4]. unfold cgets. do 2 wp_step. wp_step.
  pose proof (st_clock _ _ Hst3) as Hc3. pose proof (st_clock _ _ Hst4) as Hc4.
  case_bool_decide as Hkn; [done|].
  destruct Hw as [Hin|Ht]; [by apply Hq4 in Hin|]. apply waits_less; [lia|].
  assert (Ht' : Z.min (deadline - clock s1.2) second <= clock s3.2 - clock s2.2) by exact Ht. lia.
Qed.

Lemma event_steady h s E : wp (get_or_create_event h) s (fun _ s' => steady s s') E.
Proof. exact (steadily_event h s). Qed.

(** [_wait_for_cache] never runs on: it returns, or a call that leaves the repository raised
    last.  [True] means that the metadata is registered, [False] that the timeout passed and
    that no metadata of [h] was queued when the wait began. *)
Lemma wait_for_cache_ok h s :
  wp (wait_for_cache cfg h) s (fun b s' =>
      if b : bool then known s' h
      else (CACHE_WAIT_TIMEOUT <= clock s'.2 - clock s.2) /\ (h ∉ queued s) /\ ~ known s h)
    env_raised.
Proof.
  assert (Hread : forall (b : bool) s', wp (is_registered h) s'
    (fun b s'' => b = bool_decide (known s' h) /\ s'' = s') env_raised) by done.
  unfold wait_for_cache. wp_step.
  eapply wp_mono; [exact (wp_and _ _ _ _ _ _ (process_ok s) (steadily_process s))| |by intros e s' []].
  intros [] s1 [(_ & Hq1 & Hk1) Hst1]. wp_step.
  eapply wp_mono; [exact (Hread true s1)| |done]. intros ? ? [-> ->].
  case_bool_decide as Hn1; [by wp_step|].
  wp_step. eapply wp_mono; [exact (interrupted_ok s1 (fun _ _ => False))| |done].
  intros [] s2 [_ Hst2]. wp_step.
  eapply wp_mono; [exact (event_steady h s2 (fun _ _ => False))| |done]. intros [] s2' Hst2'. wp_step.
  eapply wp_mono; [exact (wp_and _ _ _ _ _ _ (process_ok s2') (steadily_process s2'))| |by intros e s' []].
  intros [] s3 [(_ & Hq3 & Hk3) Hst3]. wp_step.
  eapply wp_mono; [exact (Hread true s3)| |done]. intros ? ? [-> ->].
  case_bool_decide as Hn3; [by wp_step|]. wp_step. wp_call. intros start [= <-].
  set (s4 := (s3.1, _)). assert (Hc4 : clock s3.2 <= clock s4.2) by apply clock_mono.
  set (deadline := clock s3.2 + CACHE_WAIT_TIMEOUT).
  assert (Hc : clock s.2 <= clock s3.2).
  { pose proof (st_clock _ _ Hst1). pose proof (st_clock _ _ Hst2).
    pose proof (st_clock _ _ Hst2'). pose proof (st_clock _ _ Hst3). lia. }
  eapply wp_mono; [apply (wp_loop (waits_left deadline) (fun _ => True) _ _ s4
    (fun (b : bool) s' => if b then known s' h else deadline <= clock s'.2) env_raised)| |done].
  - done.
  - unfold waits_left, deadline, wait_fuel.
    pose proof (cdiv_spec (clock s3.2 + CACHE_WAIT_TIMEOUT - clock s4.2) second).
    unfold CACHE_WAIT_TIMEOUT, second in *. lia.
  - intros s' _. eapply wp_mono; [apply wait_turn_ok| |done]. intros [b|] s''; cbn; [done|by split].
  - intros [] s5; cbn; [done|]. intros Hd. unfold deadline in Hd. split; [lia|]. split; auto.
Qed.
End wait.
