(* ===== verification/EcConsumerSpec.v ===== *)
(** * Encoder-cache transfer: what the consumer promises *)
From S2P Require Import Prelude Effects EcWorld EcConsumer EcConsumerInv EcPulls EcWait.

Section load.
Context `{Env} `{!EnvLaws} (cfg : Config).
Implicit Types s : Consumer * history.

(** ** Starting a pull *)
Lemma moved_events c l hist : Forall (fun e => acked1 e = []) l ->
  moved (c, hist) (c, l ++ hist).
Proof.
  induction 1 as [|e l He Hl IH]; [apply moved_refl|].
  eapply moved_trans; [exact IH|]. by apply (check_moved c e).
Qed.

(** What [_initiate_pull] adds to the history. *)
Record pulled (p : Z * Tensor * Z) s s' : Prop := {
  pl_state : s'.1 = s.1;
  pl_descs : registered s'.2 = p.2 :: registered s.2;
  pl_handles : made s'.2 = p.1.1 :: made s.2;
  pl_back : disowned s'.2 = disowned s.2 /\ let_go s'.2 = let_go s.2;
  pl_moved : moved s s'
}.

Lemma initiate_ok h s :
  wp (initiate_pull h) s (fun p s' => pulled p s s') (fun _ s' => moved s s').
Proof.
  destruct s as [c hist]. unfold initiate_pull, cgets. do 2 wp_step. cbn [fst id].
  wp_step. apply wp_lift; [|intros; apply moved_refl]. intros [engine ti] _.
  wp_step. apply wp_lift; [|intros; apply moved_refl]. intros agent _.
  wp_step. apply wp_lift; [|intros; apply moved_refl]. intros esize _.
  wp_step. wp_call; intros flat _; [|by apply (moved_events c [_]); repeat constructor].
  wp_step. apply wp_lift; [|intros; by apply (moved_events c [_]); repeat constructor]. intros buf _.
  wp_step. wp_call; intros descs _; [|by apply (moved_events c [_; _]); repeat constructor].
  wp_step. wp_call; intros u _; [|by apply (moved_events c [_; _; _]); repeat constructor].
  wp_step. wp_call; intros lp _; [|by apply (moved_events c [_; _; _; _]); repeat constructor].
  wp_step. wp_call; intros rp _; [|by apply (moved_events c [_; _; _; _; _]); repeat constructor].
  wp_step. wp_call; intros x _; [|by apply (moved_events c [_; _; _; _; _; _]); repeat constructor].
  wp_step. wp_call; intros st _; [|by apply (moved_events c [_; _; _; _; _; _; _]); repeat constructor].
  assert (Hm : moved (c, hist) (c, [Event (Transfer x) (Ok st); Event (MakePreppedXfer lp rp) (Ok x);
    Event (PrepXferDlist agent (base_addr ti) (nbytes ti) (device_id ti)) (Ok rp);
    Event (PrepXferDlist "NIXL_INIT_AGENT" (data_ptr buf) (nbytes ti) 0) (Ok lp);
    Event (RegisterMemory descs) (Ok u); Event (GetRegDescs (data_ptr buf) (nbytes ti)) (Ok descs);
    Event (AlignedTensor (nbytes ti / esize)) (Ok flat)] ++ hist))
    by (apply moved_events; repeat constructor).
  case_decide; wp_step; [|exact Hm]. by split.
Qed.
(** ** One hash that was asked for *)
Definition capped s : Prop := len (pending_loads s.1) <= Z.max 0 (max_concurrent_pulls cfg).

(** Where a hash that was asked for may be; [since] is when the call began. *)
Definition accounted (since : Z) h s : Prop :=
  is_Some (encoder_cache s.1 !! h) \/ h ∈ od_keys (pending_loads s.1) \/
  h ∈ deferred_loads s.1 \/ CACHE_WAIT_TIMEOUT <= clock s.2 - since.

Record grown s s' : Prop := {
  gr_moved : moved s s';
  gr_ledger : ledger s';
  gr_capped : capped s';
  gr_pending k : k ∈ od_keys (pending_loads s.1) -> k ∈ od_keys (pending_loads s'.1);
  gr_deferred : deferred_loads s.1 ⊆ deferred_loads s'.1;
  gr_length : len (pending_loads s'.1) <= len (pending_loads s.1) + 1;
  gr_room : len (pending_loads s.1) < max_concurrent_pulls cfg ->
    deferred_loads s'.1 = deferred_loads s.1
}.

Lemma steady_grown s s' : steady s s' -> ledger s -> capped s -> grown s s'.
Proof.
  intros Hst Hl Hc. pose proof (st_pending _ _ Hst) as Hp. pose proof (st_deferred _ _ Hst) as Hd.
  split; try done; [by apply steady_moved|by eapply steady_ledger|..]; rewrite ?Hp, ?Hd; try done.
  - unfold capped. by rewrite Hp.
  - lia.
Qed.

(** A pull that starts is entered in the ledger. *)
Lemma pulled_grown h p s s' : pulled p s s' -> ledger s -> h ∉ od_keys (pending_loads s.1) ->
  len (pending_loads s.1) < max_concurrent_pulls cfg ->
  grown s (set_pending_loads (od_set h p (pending_loads s'.1)) s'.1, s'.2).
Proof.
  intros [Hs Hd Hh [Hb Hr] Hm] [Hn Hld Hlh] Hnew Hlen. rewrite Hs in *.
  assert (Hset : od_set h p (pending_loads s.1) = pending_loads s.1 ++ [(h, p)])
    by by apply od_set_new.
  split; cbn; rewrite ?Hset.
  - destruct Hm as [mc mf mk ma]. split; cbn; try done. 
    intros k. specialize (ma k). unfold ack_budget in *. cbn. by rewrite Hs in ma.
  - split; cbn; unfold pull_descs, pull_handle in *; rewrite ?fmap_app; cbn.
    + unfold od_keys. rewrite fmap_app. cbn. apply NoDup_app. split; [done|].
      split; [set_solver|apply NoDup_singleton].
    + rewrite Hd, Hb, Hld. solve_Permutation.
    + rewrite Hh, Hr, Hlh. solve_Permutation.
  - unfold capped. cbn. rewrite len_app. change (len [(h, p)]) with 1. lia.
  - intros k Hk. unfold od_keys in *. rewrite fmap_app. set_solver.
  - done.
  - rewrite len_app. change (len [(h, p)]) with 1. lia.
  - done.
Qed.

Lemma grown_trans_steady s s' s'' : steady s s' -> grown s' s'' -> grown s s''.
Proof.
  intros Hst []. rewrite (st_pending _ _ Hst), (st_deferred _ _ Hst) in *.
  split; try done. eapply moved_trans; [by apply steady_moved|done].
Qed.

Lemma load_one_ok h s : ledger s -> capped s ->
  wp (load_one cfg h) s (fun _ s' => grown s s' /\ accounted (clock s.2) h s')
    (fun _ s' => moved s s').
Proof.
  intros Hl Hc. unfold load_one. unfold cgets at 1. do 2 wp_step. cbn [fst id].
  pose proof (steady_grown s s (steady_refl s) Hl Hc) as Hrefl.
  case_decide as Hcache; [wp_step; split; [done|left; exact Hcache]|].
  case_decide as Hpend; [wp_step; split; [done|right; left; exact Hpend]|].
  destruct (Z.leb_spec (max_concurrent_pulls cfg) (len (pending_loads s.1))) as [Hfull|Hroom].
  { unfold cmodify. wp_step. split; [|right; right; left; cbn; set_solver].
    split; cbn; try done; [by split; destruct Hl|set_solver|lia|lia]. }
  wp_step. apply (wp_mono _ _ (fun (b : bool) s' => steady s s' /\
    (b = false -> CACHE_WAIT_TIMEOUT <= clock s'.2 - clock s.2)) _ (fun _ s' => moved s s')).
  { case_decide; [wp_step; split; [apply steady_refl|done]|].
    eapply wp_mono; [exact (wp_and _ _ _ _ _ _ (wait_for_cache_ok cfg h s) (steadily_wait cfg h s))|..].
    - intros b s' [Hb Hst]. split; [exact Hst|]. intros ->. apply Hb.
    - intros e s' [_ Hst]. by apply steady_moved. }
  - intros b s' [Hst Hb]. destruct b; cbn [negb].
    2:{ wp_step. split; [by apply steady_grown|]. right. right. right. by apply Hb. }
    wp_step. eapply wp_mono; [apply initiate_ok|..]; cbn beta.
    + intros p s'' Hp. unfold cmodify. wp_step.
      assert (Hg : grown s' (set_pending_loads (od_set h p (pending_loads s''.1)) s''.1, s''.2)).
      { apply pulled_grown; [done|by eapply steady_ledger|..]; by rewrite (st_pending _ _ Hst). }
      split; [by eapply grown_trans_steady|]. right. left. cbn. apply elem_of_od_keys.
      rewrite od_get_set_eq. by eexists.
    + intros _ s'' Hm. eapply moved_trans; [by apply steady_moved|done].
  - done.
Qed.
(** ** The loop over the hashes that were asked for *)
Record loading s (d : list string) s' : Prop := {
  ld_grown : moved s s' /\ ledger s' /\ capped s';
  ld_pending k : k ∈ od_keys (pending_loads s.1) -> k ∈ od_keys (pending_loads s'.1);
  ld_accounted h : h ∈ d -> accounted (clock s.2) h s';
  ld_length : len (pending_loads s'.1) <= len (pending_loads s.1) + len d;
  ld_room : len (pending_loads s.1) + len d <= max_concurrent_pulls cfg ->
    deferred_loads s'.1 = deferred_loads s.1
}.

Lemma accounted_mono t t' h s s' : accounted t h s -> t' <= t -> moved s s' ->
  (forall k, k ∈ od_keys (pending_loads s.1) -> k ∈ od_keys (pending_loads s'.1)) ->
  deferred_loads s.1 ⊆ deferred_loads s'.1 -> accounted t' h s'.
Proof.
  intros [Hc|[Hp|[Hd|Ht]]] Htt Hm Hpend Hdef.
  - left. by apply (mv_cache _ _ Hm).
  - right. left. auto.
  - right. right. left. set_solver.
  - right. right. right. pose proof (mv_clock _ _ Hm). lia.
Qed.

Lemma load_all_ok l s : ledger s -> capped s ->
  wp (for_each l (load_one cfg)) s (fun _ s' => loading s l s') (fun _ s' => moved s s').
Proof.
  intros Hl Hc. apply (wp_for l (load_one cfg) s (loading s)).
  - split; [split; [apply moved_refl|done]|done| |change (len []) with 0; lia|done].
    intros h Hh. by apply not_elem_of_nil in Hh.
  - intros d x todo s' _ [(Hm & Hl' & Hc') Hp Ha Hlen Hroom].
    eapply wp_mono; [by apply load_one_ok|..]; cbn beta.
    + intros _ s'' [[] Hx]. pose proof (mv_clock _ _ Hm). split.
      * split; [by eapply moved_trans|done].
      * auto.
      * intros h [Hh|Hh%list_elem_of_singleton]%elem_of_app.
        -- eapply accounted_mono; [by apply Ha|..]; done.
        -- subst. eapply (accounted_mono (clock s'.2)); [exact Hx|done|apply moved_refl|done|done].
      * rewrite len_app. change (len [x]) with 1. lia.
      * rewrite len_app. change (len [x]) with 1. intros Hr. rewrite gr_room0 by lia.
        apply Hroom. lia.
    + intros _ s'' Hm'. by eapply moved_trans.
Qed.

Lemma elem_of_merge_todo deferred fresh h :
  h ∈ merge_todo deferred fresh <-> h ∈ deferred \/ h ∈ fresh.
Proof.
  unfold merge_todo. revert deferred. induction fresh as [|x fresh IH]; intros deferred; cbn.
  { split; [by left|]. intros [?|Hn]; [done|by apply not_elem_of_nil in Hn]. }
  rewrite IH. case_decide; set_solver.
Qed.

(** Where a hash that was asked for is when [start_load_caches] has returned. *)
Definition settled (blocking : bool) h s s' : Prop :=
  is_Some (encoder_cache s'.1 !! h) \/ h ∈ deferred_loads s'.1 \/
  (blocking = false /\ h ∈ od_keys (pending_loads s'.1)) \/
  (length (failed s.2) < length (failed s'.2))%nat \/
  CACHE_WAIT_TIMEOUT <= clock s'.2 - clock s.2.

Lemma moved_modify s f :
  (forall c, encoder_cache (f c) = encoder_cache c /\ ack_sent (f c) = ack_sent c) ->
  moved s (f s.1, s.2).
Proof.
  intros Hf. destruct (Hf s.1) as [Hc Ha]. split; cbn; try done; [by rewrite Hc|].
  intros h. unfold ack_budget. cbn. by rewrite Ha.
Qed.

(** The end of [start_load_caches]. *)
Lemma start_tail_ok blocking (asked : string -> Prop) s s4 :
  moved s s4 -> ledger s4 -> capped s4 ->
  (forall h, asked h -> accounted (clock s.2) h s4) ->
  wp (pending ← gets (fun s => pending_loads s.1);
      when (negb (bool_decide (pending = [])) && blocking) (wait_for_pulls cfg)) s4
    (fun _ s' => moved s s' /\ ledger s' /\ capped s' /\
       (blocking = true -> pending_loads s'.1 = []) /\
       forall h, asked h -> settled blocking h s s')
    (fun _ s' => moved s s').
Proof.
  intros Hm Hl Hc Hacc. do 2 wp_step. wp_step.
  - eapply wp_mono; [by apply wait_for_pulls_ok|..]; cbn beta.
    2:{ intros _ s' Hm'. by eapply moved_trans. }
    intros _ s' (Hm' & Hl' & Hd' & Hp' & Hfate). pose proof (moved_trans _ _ _ Hm Hm') as Hmm.
    split; [done|]. split; [done|]. split; [unfold capped; rewrite Hp'; change (len []) with 0; lia|].
    split; [done|]. intros h Hh. pose proof (mv_clock _ _ Hm). pose proof (mv_clock _ _ Hm').
    pose proof (mv_failed _ _ Hm). unfold settled.
    destruct (Hacc h Hh) as [Hx|[Hx|[Hx|Hx]]].
    + left. by apply (mv_cache _ _ Hm').
    + destruct (Hfate h Hx) as [?|[?|?]]; [by left|right; right; right; left; lia|].
      do 4 right. lia.
    + right. left. by rewrite Hd'.
    + do 4 right. lia.
  - split; [done|]. split; [done|]. split; [done|].
    assert (Hb : blocking = true -> pending_loads s4.1 = []).
    { intros ->. case_bool_decide; [done|discriminate]. }
    split; [done|]. intros h Hh. unfold settled.
    destruct (Hacc h Hh) as [Hx|[Hx|[Hx|Hx]]]; [by left| |by right; left|by do 4 right].
    destruct blocking; [|by right; right; left]. rewrite (Hb eq_refl) in Hx.
    by apply not_elem_of_nil in Hx.
Qed.

Lemma start_load_ok l blocking s : is_producer cfg = false -> ledger s -> capped s ->
  wp (start_load_caches cfg l blocking) s
    (fun _ s' => moved s s' /\ ledger s' /\ capped s' /\
       (blocking = true -> pending_loads s'.1 = []) /\
       forall h, h ∈ l \/ h ∈ deferred_loads s.1 -> settled blocking h s s')
    (fun _ s' => moved s s').
Proof.
  intros Hp Hl Hc. unfold start_load_caches. rewrite Hp. unfold cmodify. do 2 wp_step.
  set (s1 := (set_encoder_cache_bound true s.1, s.2)).
  assert (Hm1 : moved s s1) by (apply (moved_modify s (set_encoder_cache_bound true)); done).
  assert (Hl1 : ledger s1) by (by split; destruct Hl).
  wp_step. eapply wp_mono; [apply (steadily_process s1)|..]; cbn beta.
  2:{ intros _ s' Hst. eapply moved_trans; [done|by apply steady_moved]. }
  intros [] s2 Hst2. unfold cgets. do 3 wp_step. cbn [id]. wp_call.
  intros deferred [= Hdef]. do 3 wp_step. cbn [fst snd]. set (s3 := (_, _)).
  assert (Hm3 : moved s s3).
  { eapply moved_trans; [exact Hm1|]. eapply moved_trans; [by apply steady_moved|].
    destruct s2 as [c2 h2]. apply (moved_trans _ (set_deferred_loads ∅ c2, h2)).
    - by apply (moved_modify (c2, h2) (set_deferred_loads ∅)).
    - by apply (check_moved _ (Event (SetOrder (deferred_loads c2)) (Ok deferred))). }
  assert (Hp3 : pending_loads s3.1 = pending_loads s.1) by (cbn; by rewrite (st_pending _ _ Hst2)).
  assert (Hl3 : ledger s3).
  { pose proof (steady_ledger _ _ Hst2 Hl1) as [? ? ?]. by split. }
  assert (Hin : forall h, h ∈ l \/ h ∈ deferred_loads s.1 -> h ∈ merge_todo deferred l).
  { intros h Hh. apply elem_of_merge_todo. rewrite <- Hdef, set_order_spec, elem_of_elements.
    rewrite (st_deferred _ _ Hst2). cbn. tauto. }
  eapply wp_mono; [apply (load_all_ok _ s3 Hl3); unfold capped; by rewrite Hp3|..]; cbn beta.
  2:{ intros _ s' Hm. by eapply moved_trans. }
  intros _ s4 [(Hm4 & Hl4 & Hc4) _ Hacc _ _].
  apply (start_tail_ok blocking (fun h => h ∈ l \/ h ∈ deferred_loads s.1) s s4); try done.
  - by eapply moved_trans.
  - intros h Hh. eapply (accounted_mono (clock s3.2)); [by apply Hacc, Hin| |apply moved_refl|done|done].
    apply (mv_clock _ _ Hm3).
Qed.
(** ** Polling without blocking *)
Lemma swept_capped s s' : swept s s' -> capped s -> capped s'.
Proof.
  intros Hsw Hc. unfold capped, len in *. pose proof (sublist_length _ _ (sw_sub _ _ Hsw)). lia.
Qed.

Lemma poll_completed_ok entries s : ledger s -> NoDup (od_keys entries) ->
  (forall h v, od_get h entries = Some v -> od_get h (pending_loads s.1) = Some v) ->
  wp (poll_completed cfg entries) s
    (fun d s' => swept s s' /\ forall h, h ∈ d -> is_Some (encoder_cache s'.1 !! h))
    (fun _ s' => moved s s').
Proof.
  revert s. induction entries as [|[h [[x b] d]] entries IH]; intros s Hl Hn Hsub; cbn [poll_completed].
  { wp_step. split; [by apply swept_refl|set_solver]. }
  unfold od_keys in Hn. rewrite fmap_cons in Hn. apply NoDup_cons in Hn as [Hh Hn].
  assert (Hg : od_get h (pending_loads s.1) = Some (x, b, d)) by (apply Hsub; cbn; by rewrite decide_True).
  wp_step. eapply wp_mono; [by apply poll_ok| |done]. intros r s1 Hp1.
  pose proof (polled_swept _ _ _ _ Hl Hp1) as Hsw1. wp_step.
  eapply wp_mono; [apply (IH s1); [apply Hsw1|done|]|..]; cbn beta.
  - intros k v Hk. assert (k <> h).
    { intros ->. apply Hh. change (h ∈ od_keys entries). apply elem_of_od_keys. eauto. }
    rewrite (polled_other _ _ _ _ _ Hp1) by done. apply Hsub. cbn. by rewrite decide_False.
  - intros rest s2 [Hsw2 Hrest]. wp_step. split; [by eapply swept_trans|]. intros k Hk.
    destruct r; [|by apply Hrest]. apply elem_of_union in Hk as [->%elem_of_singleton|Hk]; [|by apply Hrest].
    apply (mv_cache _ _ (sw_moved _ _ Hsw2)). destruct Hp1 as [[_ Hf]|[_ Hc]]; [done|exact Hc].
  - intros _ s2 Hm. eapply moved_trans; [apply Hsw1|done].
Qed.

Lemma get_finished_ok s : ledger s ->
  wp (get_finished cfg) s
    (fun r s' => swept s s' /\ forall d h, r = Some d -> h ∈ d -> is_Some (encoder_cache s'.1 !! h))
    (fun _ s' => moved s s').
Proof.
  intros Hl. unfold get_finished, cgets. do 2 wp_step. cbn [id].
  case_decide; [wp_step; split; [by apply swept_refl|done]|].
  destruct (negb _); [wp_step; split; [by apply swept_refl|done]|].
  wp_step. eapply wp_mono; [apply (steadily_process s)| |intros e s' Hst; by apply steady_moved].
  intros [] s1 Hst1. do 3 wp_step.
  pose proof (steady_ledger _ _ Hst1 Hl) as Hl1.
  eapply wp_mono; [apply (poll_completed_ok _ s1 Hl1); [apply Hl1|done]|..]; cbn beta.
  - intros d s2 [Hsw2 Hd]. wp_step. split.
    + apply (swept_trans s s1); [|done]. apply (swept_steady s s); [by apply swept_refl|done].
    + case_decide; [done|]. intros ? h [= <-]. apply Hd.
  - intros _ s2 Hm. eapply moved_trans; [by apply steady_moved|done].
Qed.

(** ** A finished item *)
Definition acks_grow (extra : string -> nat) s s' : Prop :=
  forall k, (ack_budget k s' <= ack_budget k s + extra k)%nat.
Definition once (h k : string) : nat := if decide (k = h) then 1 else 0.

(** Everything known of [h] is dropped. *)
Definition forgotten (h : string) (c : Consumer) : Consumer :=
  set_pending_loads (od_pop h (pending_loads c))
    (set_deferred_loads (deferred_loads c ∖ {[h]})
      (set_ack_sent (ack_sent c ∖ {[h]})
        (set_mm_hash_ack_addr (delete h (mm_hash_ack_addr c))
          (set_tensor_registry (delete h (tensor_registry c))
            (set_cache_events (delete h (cache_events c)) c))))).

Lemma forgotten_budget h c l hist : Forall (fun e => acked1 e = []) l ->
  acks_grow (once h) (c, hist) (forgotten h c, l ++ hist).
Proof.
  intros Hl k. assert (Ha : acks_of k (l ++ hist) = acks_of k hist).
  { induction Hl as [|e l He Hl IH]; [done|]. cbn [app]. by rewrite acks_of_cons, He. }
  unfold ack_budget, once. cbn [fst snd]. rewrite Ha. cbn.
  destruct (decide (k = h)) as [-> |Hk].
  - repeat case_decide; lia.
  - rewrite (decide_ext (k ∈ ack_sent c ∖ {[h]}) (k ∈ ack_sent c)) by set_solver. lia.
Qed.

Lemma acks_grow_trans f g h s1 s2 s3 :
  acks_grow f s1 s2 -> acks_grow g s2 s3 -> (forall k, f k + g k <= h k)%nat ->
  acks_grow h s1 s3.
Proof. intros H1 H2 Hh k. specialize (H1 k). specialize (H2 k). specialize (Hh k). lia. Qed.

Lemma moved_grow s s' : moved s s' -> acks_grow (fun _ => 0%nat) s s'.
Proof. intros Hm k. pose proof (mv_acks _ _ Hm k). lia. Qed.

Lemma finish_item_ok h s : ledger s ->
  wp (finish_item cfg h) s
    (fun _ s' => ledger s' /\ pending_loads s'.1 = od_pop h (pending_loads s.1) /\
       (h ∉ deferred_loads s'.1) /\ (~ is_Some (tensor_registry s'.1 !! h)) /\
       acks_grow (once h) s s')
    (fun _ s' => acks_grow (once h) s s').
Proof.
  intros Hl. unfold finish_item, cmodify, cgets. wp_step.
  eapply wp_mono; [apply (steadily_send cfg h "fail" s)|..]; cbn beta.
  2:{ intros _ s' Hst k. pose proof (st_acks _ _ Hst k). lia. }
  intros [] s1 Hst1. do 12 wp_step. unfold del_pending, cmodify. do 2 wp_step. cbn [fst snd].
  lazymatch goal with |- wp _ (?c, _) _ _ => change c with (forgotten h s1.1) end.
  pose proof (steady_ledger _ _ Hst1 Hl) as Hl1. rewrite <- (st_pending _ _ Hst1).
  destruct s1 as [c hist]. cbn [fst snd] in *.
  assert (Hg : forall l, Forall (fun e => acked1 e = []) l ->
    acks_grow (once h) s (forgotten h c, l ++ hist)).
  { intros l Hf. eapply acks_grow_trans; [apply moved_grow, steady_moved, Hst1|by apply forgotten_budget|].
    cbn. lia. }
  assert (Hrest : forall l, Forall (fun e => acked1 e = []) l ->
    ledger (forgotten h c, l ++ hist) ->
    ledger (forgotten h c, l ++ hist) /\ od_pop h (pending_loads c) = od_pop h (pending_loads c) /\
    (h ∉ deferred_loads c ∖ {[h]}) /\ (~ is_Some (delete h (tensor_registry c) !! h)) /\
    acks_grow (once h) s (forgotten h c, l ++ hist)).
  { intros l Hf Hlg. split_and!; [done|done|set_solver|rewrite lookup_delete_eq; by intros []|auto]. }
  lazymatch goal with |- wp (match ?o with _ => _ end) _ _ _ =>
    change o with (od_get h (pending_loads c)) end.
  destruct (od_get h (pending_loads c)) as [[[x b] d]|] eqn:Eg.
  - unfold release_pull. do 2 wp_step. wp_call; intros r _; wp_step; wp_call; intros r' _;
      apply (Hrest [_; _]); try (by repeat constructor); by apply (ledger_drop h x b d c).
  - wp_step. apply (Hrest []); [constructor|]. destruct Hl1 as [? ? ?].
    split; cbn; rewrite od_pop_notin by (by apply not_elem_of_od_keys); done.
Qed.
(** ** Every operation *)
Definition times (h : string) (ids : list string) : nat := length (filter (fun k => h = k) ids).

Definition cinv s : Prop := ledger s /\ capped s.

Lemma times_cons k h ids : times k (h :: ids) = (once h k + times k ids)%nat.
Proof. unfold times, once. rewrite filter_cons. repeat case_decide; cbn; try lia; congruence. Qed.

Lemma pop_capped h s s' : capped s -> pending_loads s'.1 = od_pop h (pending_loads s.1) -> capped s'.
Proof.
  unfold capped, len. intros Hc ->. pose proof (sublist_length _ _ (od_pop_sublist h (pending_loads s.1))).
  lia.
Qed.

Lemma finish_items_ok ids s : cinv s ->
  wp (consumer_request_finished cfg ids) s
    (fun _ s' => cinv s' /\ acks_grow (fun k => times k ids) s s')
    (fun _ s' => acks_grow (fun k => times k ids) s s').
Proof.
  unfold consumer_request_finished. revert s. induction ids as [|h ids IH]; intros s [Hl Hc]; cbn [for_each].
  { wp_step. split; [done|]. intros k. lia. }
  wp_step. eapply wp_mono; [by apply finish_item_ok|..]; cbn beta.
  - intros [] s1 (Hl1 & Hp1 & _ & _ & Hg1).
    eapply wp_mono; [apply (IH s1); split; [done|by eapply pop_capped]|..]; cbn beta.
    + intros _ s2 [Hi2 Hg2]. split; [done|]. eapply acks_grow_trans; [done..|].
      intros k. by rewrite times_cons.
    + intros _ s2 Hg2. eapply acks_grow_trans; [done..|]. intros k. by rewrite times_cons.
  - intros _ s1 Hg1 k. specialize (Hg1 k). rewrite times_cons. lia.
Qed.

(** The releases of a shutdown. *)
Lemma release_ok x d c hist (Q : unit -> Consumer * history -> Prop) E :
  (forall u r1 r2, Q u (c, Event (DeregisterMemory d) r1 :: Event (ReleaseXferHandle x) r2 :: hist)) ->
  wp (release_pull x d) (c, hist) Q E.
Proof.
  intros HQ. unfold release_pull. do 2 wp_step.
  wp_call; intros r _; wp_step; wp_call; intros r' _; apply HQ.
Qed.

Record releasing s (d : odict string (Z * Tensor * Z)) s' : Prop := {
  rl_state : s'.1 = s.1;
  rl_descs : disowned s'.2 ≡ₚ (pull_descs <$> d) ++ disowned s.2;
  rl_handles : let_go s'.2 ≡ₚ (pull_handle <$> d) ++ let_go s.2;
  rl_same : registered s'.2 = registered s.2 /\ made s'.2 = made s.2;
  rl_acks k : acks_of k s'.2 = acks_of k s.2
}.

Lemma release_all_ok l s E :
  wp (for_each l (fun e => release_pull e.2.1.1 e.2.2)) s (fun _ s' => releasing s l s') E.
Proof.
  apply (wp_for l _ s (releasing s)); [by split|].
  intros d e todo [c hist] _ [Hs Hd Hh [Hr Hm] Ha]. apply release_ok. intros u r1 r2.
  cbn [fst snd] in *. split; cbn [fst snd]; [done|..].
  - change (pull_descs e :: disowned hist ≡ₚ (pull_descs <$> d ++ [e]) ++ disowned s.2).
    rewrite Hd, fmap_app. cbn. solve_Permutation.
  - change (pull_handle e :: let_go hist ≡ₚ (pull_handle <$> d ++ [e]) ++ let_go s.2).
    rewrite Hh, fmap_app. cbn. solve_Permutation.
  - done.
  - intros k. rewrite !acks_of_cons. exact (Ha k).
Qed.

Lemma shutdown_ok s E : cinv s ->
  wp consumer_shutdown s (fun _ s' => cinv s' /\ acks_grow (fun _ => 0%nat) s s') E.
Proof.
  intros [[Hn Hd Hh] Hc]. unfold consumer_shutdown, cgets, cmodify. do 3 wp_step.
  eapply wp_mono; [apply (release_all_ok _ s (fun _ _ => False))| |by intros e s' []].
  intros [] s1 [Hs1 Hd1 Hh1 [Hr1 Hm1] Ha1]. wp_steps. split; [split; [split|]|]; cbn.
  - constructor.
  - rewrite Hr1, Hd, Hd1, app_nil_r. solve_Permutation.
  - rewrite Hm1, Hh, Hh1, app_nil_r. solve_Permutation.
  - unfold capped. cbn. change (len []) with 0. lia.
  - intros k. unfold ack_budget. cbn. rewrite Ha1, Hs1. lia.
Qed.

Definition op_finishes (op : consumer_op) (k : string) : nat :=
  match op with FinishItems ids => times k ids | _ => 0 end.

Lemma steadily_op (m : CM unit) s : steadily m -> cinv s ->
  wp m s (fun _ s' => cinv s' /\ acks_grow (fun _ => 0%nat) s s')
    (fun _ s' => acks_grow (fun _ => 0%nat) s s').
Proof.
  intros Hm [Hl Hc]. eapply wp_mono; [apply Hm|..]; cbn beta; intros ? s' Hst.
  - split; [|by apply moved_grow, steady_moved]. split; [by eapply steady_ledger|].
    unfold capped. by rewrite (st_pending _ _ Hst).
  - by apply moved_grow, steady_moved.
Qed.

Lemma consumer_op_ok op s : cinv s ->
  wp (run_consumer_op cfg op) s (fun _ s' => cinv s' /\ acks_grow (op_finishes op) s s')
    (fun _ s' => acks_grow (op_finishes op) s s').
Proof.
  intros Hi. pose proof Hi as [Hl Hc].
  destruct op as [l b| |ids|msg| |h|]; cbn [run_consumer_op];
    try change (op_finishes _) with (fun _ : string => 0%nat).
  - destruct (is_producer cfg) eqn:Hp.
    { unfold start_load_caches. rewrite Hp. wp_step. split; [done|]. apply moved_grow, moved_refl. }
    eapply wp_mono; [by apply start_load_ok|..]; cbn beta.
    + intros _ s' (Hm & Hl' & Hc' & _). split; [by split|by apply moved_grow].
    + intros _ s' Hm. by apply moved_grow.
  - wp_step. eapply wp_mono; [by apply get_finished_ok|..]; cbn beta.
    + intros r s' [Hsw _]. wp_step. split; [|apply moved_grow, Hsw]. split; [apply Hsw|].
      by eapply swept_capped.
    + intros _ s' Hm. by apply moved_grow.
  - exact (finish_items_ok ids s Hi).
  - apply steadily_op; [apply steadily_receiver|done].
  - apply steadily_op; [apply steadily_ping|done].
  - unfold cmodify. wp_step. split; [|intros k; unfold ack_budget; cbn; lia].
    split; [|exact Hc]. destruct Hl as [? ? ?]. by split.
  - by apply shutdown_ok.
Qed.

Definition finishes (ops : list consumer_op) (k : string) : nat :=
  sum_list_with (fun op => op_finishes op k) ops.

Lemma run_consumer_ok ops s : cinv s ->
  wp (run_consumer cfg ops) s (fun _ s' => cinv s' /\ acks_grow (finishes ops) s s')
    (fun _ s' => acks_grow (finishes ops) s s').
Proof.
  unfold run_consumer. revert s. induction ops as [|op ops IH]; intros s Hi; cbn [for_each].
  { wp_step. split; [done|]. intros k. cbn. lia. }
  wp_step. eapply wp_mono; [by apply consumer_op_ok|..]; cbn beta.
  - intros [] s1 [Hi1 Hg1]. eapply wp_mono; [by apply IH|..]; cbn beta.
    + intros _ s2 [Hi2 Hg2]. split; [done|]. by eapply acks_grow_trans.
    + intros _ s2 Hg2. by eapply acks_grow_trans.
  - intros _ s1 Hg1 k. specialize (Hg1 k). cbn. lia.
Qed.

Lemma new_consumer_inv : cinv (new_consumer, []).
Proof. split; [split; [constructor|done|done]|]. unfold capped. change (0 <= Z.max 0 (max_concurrent_pulls cfg)). lia. Qed.
End load.
