(* ===== verification/EcConnectorSpec.v ===== *)
(** * Encoder-cache transfer: theorems of the consumer and of the scheduler side *)
From S2P Require Import Prelude Effects EcWorld EcProducer EcProducerSpec EcConsumer EcConnector EcConsumerInv EcPulls EcWait EcConsumerSpec.

(** ** Every call of the consumer ends *)
Section ends.
Context `{Env} `{!EnvLaws} (cfg : Config).
Implicit Types s : Consumer * history.

(** The call returns or raises an exception of Python, and time does not go back. *)
Definition sane {A} (m : CM A) : Prop := forall s,
  wp m s (fun _ s' => clock s.2 <= clock s'.2) (fun e _ => e <> OutOfFuel).

Lemma sane_ret {A} (a : A) : sane (mret a).
Proof. intros s. cbn. lia. Qed.

Lemma sane_gets {A} (f : Consumer -> A) : sane (cgets f).
Proof. intros s. cbn. lia. Qed.

Lemma sane_modify f : sane (cmodify f).
Proof. intros s. cbn. lia. Qed.

Lemma sane_lift {A} (r : res A) : r <> Raise OutOfFuel -> sane (lift r).
Proof. intros Hr s. apply wp_lift; [lia|]. by intros e -> ->. Qed.

Lemma sane_raise {A} e : e <> OutOfFuel -> sane (A := A) (raise e).
Proof. by intros He s. Qed.

Lemma sane_call c : sane (perform (P := Consumer) c).
Proof.
  intros s. wp_call; [intros a _; apply clock_mono|]. intros e He ->.
  by apply answer_no_fuel in He.
Qed.

Lemma sane_bind {A B} (m : CM A) (f : A -> CM B) : sane m -> (forall a, sane (f a)) -> sane (m ≫= f).
Proof.
  intros Hm Hf s. wp_step. eapply wp_mono; [apply Hm| |done]. intros a s' Hs.
  eapply wp_mono; [apply Hf| |done]. cbn beta. intros b s'' Hs'. cbn beta in *. lia.
Qed.

Lemma sane_try (m : CM unit) : sane m -> (forall s, clock s.2 <= clock (m s).1.2) -> sane (try_ignore m).
Proof.
  intros Hm Hc s. specialize (Hc s). unfold wp, try_ignore. exact Hc.
Qed.

Lemma sane_when b m : sane m -> sane (when b m).
Proof. destruct b; [done|]. intros _. apply sane_ret. Qed.

Lemma sane_for {A} (l : list A) body : (forall x, sane (body x)) -> sane (for_each l body).
Proof.
  intros Hb. induction l as [|x l IH]; cbn [for_each]; [apply sane_ret|].
  apply sane_bind; [apply Hb|done].
Qed.

Lemma sane_process : sane process_pending_metadata.
Proof.
  intros s. eapply wp_mono; [exact (wp_and _ _ _ _ _ _ (process_ok s) (steadily_process s))|..]; cbn beta.
  - intros _ s' [_ Hst]. apply Hst.
  - intros e s' [He _]. by eapply env_raised_no_fuel.
Qed.

Lemma sane_wait h : sane (wait_for_cache cfg h).
Proof.
  intros s. eapply wp_mono;
    [exact (wp_and _ _ _ _ _ _ (wait_for_cache_ok cfg h s) (steadily_wait cfg h s))|..]; cbn beta.
  - intros b s' [_ Hst]. apply Hst.
  - intros e s' [He _]. by eapply env_raised_no_fuel.
Qed.

Create HintDb sane.
#[local] Hint Resolve sane_ret sane_gets sane_modify sane_process sane_wait : sane.
#[local] Hint Extern 1 (sane (perform ?c)) => exact (sane_call c) : sane.
#[local] Hint Extern 1 (sane (try_ignore (perform ?c))) =>
  apply sane_try; [exact (sane_call c)|intros ?; apply clock_mono] : sane.
#[local] Hint Extern 1 (sane (raise _)) => by apply sane_raise : sane.
#[local] Hint Extern 2 (sane (lift _)) =>
  apply sane_lift; unfold dtype_size, reshape, of_option; repeat case_match; discriminate : sane.

Ltac sane :=
  repeat first
    [ solve [auto with sane nocore]
    | apply sane_bind; [|intros ?]
    | apply sane_when
    | apply sane_for; intros ?
    | lazymatch goal with
      | |- sane (match ?x with _ => _ end) => destruct x
      end ].

Lemma sane_send h st : sane (send_ack_if_unsent cfg h st).
Proof. unfold send_ack_if_unsent. sane. Qed.
#[local] Hint Resolve sane_send : sane.

Lemma sane_poll e : sane (poll_pull cfg e).
Proof. unfold poll_pull, drop_pull, release_pull, del_pending. sane. Qed.
#[local] Hint Resolve sane_poll : sane.

Lemma sane_load h : sane (load_one cfg h).
Proof. unfold load_one, initiate_pull. sane. Qed.
#[local] Hint Resolve sane_load : sane.

Lemma sane_pulls_turn d s :
  wp (pulls_turn cfg d) s
    (fun r s' => clock s.2 <= clock s'.2 /\ match r with
     | Some _ => True
     | None => (turns_left d s' < turns_left d s)%nat
     end) (fun e _ => e <> OutOfFuel).
Proof.
  unfold pulls_turn, cgets. do 2 wp_step. unfold turns_left at 2.
  destruct (pending_loads s.1) as [|e0 rest] eqn:Hp0; [wp_step; split; [lia|done]|]. rewrite <- Hp0.
  wp_step. wp_call. intros now [= <-].
  set (s1 := (s.1, _)). assert (Hc1 : clock s.2 <= clock s1.2) by apply clock_mono.
  destruct (Z.ltb_spec (clock s.2) d) as [Hlt|Hge]; cbn [negb]; [|by wp_step].
  wp_step. eapply wp_mono; [apply (sane_for (pending_loads s.1) (fun e => poll_pull cfg e ;; mret tt)
    ltac:(intros ?; sane) s1)| |done].
  intros [] s2 Hc2. do 3 wp_step.
  case_bool_decide as Hnil; cbn [negb when].
  - wp_steps. unfold turns_left. rewrite Hnil. split; [lia|lia].
  - wp_call. intros [] _. wp_step. set (s3 := (s2.1, _)).
    assert (Hc3 : clock s2.2 + XFER_POLL_INTERVAL <= clock s3.2) by apply clock_sleep.
    assert (Hless : cdiv (d - clock s3.2) XFER_POLL_INTERVAL <= cdiv (d - clock s.2) XFER_POLL_INTERVAL - 1)
      by (apply cdiv_less; lia).
    pose proof (cdiv_spec (d - clock s.2) XFER_POLL_INTERVAL ltac:(done)) as Hcd.
    unfold turns_left, XFER_POLL_INTERVAL in *. split; [lia|]. destruct (pending_loads s3.1); lia.
Qed.

Lemma sane_wait_for_pulls : sane (wait_for_pulls cfg).
Proof.
  intros s. unfold wait_for_pulls. wp_step. wp_call. intros start [= <-].
  set (s1 := (s.1, _)). assert (Hc1 : clock s.2 <= clock s1.2) by apply clock_mono. wp_step.
  eapply wp_mono; [apply (wp_loop (turns_left (clock s.2 + CACHE_WAIT_TIMEOUT))
    (fun s' => clock s.2 <= clock s'.2) _ _ s1 (fun _ s' => clock s.2 <= clock s'.2)
    (fun e _ => e <> OutOfFuel))| |done].
  - done.
  - by apply turns_left_fuel.
  - intros s' Hs'. eapply wp_mono; [apply sane_pulls_turn| |done]. cbn beta.
    intros [[]|] s'' [Hc Ht]; [lia|]. split; [lia|done].
  - intros [] s2 Hc2. eapply wp_mono; [apply (sane_bind (cgets pending_loads))| |done].
    + sane.
    + intros p. unfold abandon_pull, drop_pull, release_pull, del_pending. sane.
    + cbn beta. intros _ s3 Hc3. lia.
Qed.
#[local] Hint Resolve sane_wait_for_pulls : sane.

Lemma sane_completed l : sane (poll_completed cfg l).
Proof. induction l as [|e l IH]; cbn [poll_completed]; sane; apply IH. Qed.
#[local] Hint Resolve sane_completed : sane.

Lemma sane_op op : sane (run_consumer_op cfg op).
Proof.
  destruct op; cbn [run_consumer_op]; unfold start_load_caches, get_finished,
    consumer_request_finished, finish_item, receiver_turn, put_metadata, ping_round, consumer_shutdown,
    release_pull, del_pending; sane.
Qed.
End ends.

(** ** Theorems *)
Section theorems.
Context `{Env} `{!EnvLaws} (cfg : Config).
Implicit Types s : Consumer * history.

Lemma run_from_new ops s : run_consumer cfg ops (new_consumer, []) = (s, Ok tt) -> cinv cfg s.
Proof.
  intros Hr. pose proof (run_consumer_ok cfg ops _ (new_consumer_inv cfg)) as Hw.
  unfold wp in Hw. rewrite Hr in Hw. apply Hw.
Qed.

(** C35: After a run of which every call returned, the pulls in flight are within the cap, one
    for each hash; every NIXL descriptor registered is held by one of them, was given back
    once, or leaked because its one [deregister_memory] raised; and every handle made is held
    by one of them, was released once, or was lost because its one release raised. *)
Theorem pulls_accounted ops s :
  run_consumer cfg ops (new_consumer, []) = (s, Ok tt) ->
  NoDup (od_keys (pending_loads s.1)) /\
  len (pending_loads s.1) <= Z.max 0 (max_concurrent_pulls cfg) /\
  registered s.2 ≡ₚ deregistered s.2 ++ leaked s.2 ++ (pull_descs <$> pending_loads s.1) /\
  made s.2 ≡ₚ released s.2 ++ lost s.2 ++ (pull_handle <$> pending_loads s.1).
Proof.
  intros Hr. destruct (run_from_new ops s Hr) as [[] ?].
  by rewrite !app_assoc, <- disowned_split, <- let_go_split.
Qed.

(** Every hash that the scheduler asks for, or that an earlier step deferred, is afterwards in
    the encoder cache, deferred to the next step, or (in a call that does not block) being
    pulled; otherwise a transfer failed or the call took the whole timeout.  A call that
    blocks leaves no pull in flight. *)
Theorem asked_hashes_settled ops l blocking s s' :
  is_producer cfg = false -> run_consumer cfg ops (new_consumer, []) = (s, Ok tt) ->
  start_load_caches cfg l blocking s = (s', Ok tt) ->
  (blocking = true -> pending_loads s'.1 = []) /\
  forall h, h ∈ l \/ h ∈ deferred_loads s.1 ->
    is_Some (encoder_cache s'.1 !! h) \/ h ∈ deferred_loads s'.1 \/
    (blocking = false /\ h ∈ od_keys (pending_loads s'.1)) \/
    (length (failed s.2) < length (failed s'.2))%nat \/
    CACHE_WAIT_TIMEOUT <= clock s'.2 - clock s.2.
Proof.
  intros Hp Hr Hs. destruct (run_from_new ops s Hr) as [Hl Hc].
  pose proof (start_load_ok cfg l blocking s Hp Hl Hc) as Hw. unfold wp in Hw. rewrite Hs in Hw.
  by destruct Hw as (_ & _ & _ & Hb & Hall).
Qed.

(** C36: The consumer acknowledges a hash at most once, and once more for every time a request with
    it finishes, whichever calls raise. *)
Theorem one_ack_per_lifetime ops h :
  (length (acks_of h (run_consumer cfg ops (new_consumer, [])).1.2) <= 1 + finishes ops h)%nat.
Proof.
  pose proof (run_consumer_ok cfg ops _ (new_consumer_inv cfg)) as Hw. unfold wp in Hw.
  assert (Hg : acks_grow (finishes ops) (new_consumer, []) (run_consumer cfg ops (new_consumer, [])).1).
  { destruct (run_consumer cfg ops (new_consumer, [])) as [s [[]|e]]; [apply Hw|exact Hw]. }
  specialize (Hg h). assert (Hnew : ack_budget h (new_consumer, []) = 1%nat).
  { unfold ack_budget. rewrite decide_False; [done|]. cbn. set_solver. }
  rewrite Hnew in Hg. unfold ack_budget in Hg. lia.
Qed.

(** Every call of the consumer ends: the drain of the queue, the wait for metadata and the wait
    for the pulls take a bounded number of turns, from every state. *)
Theorem consumer_calls_end op s : (run_consumer_op cfg op s).2 <> Raise OutOfFuel.
Proof.
  pose proof (sane_op cfg op s) as Hs. unfold wp in Hs.
  destruct (run_consumer_op cfg op s) as [s' [a|e]]; [done|]. cbn. by intros [= ->].
Qed.

(** When [_wait_for_cache] returns, the metadata is registered, or the whole timeout passed and
    nothing queued when the wait began was of this hash. *)
Theorem wait_finds_what_is_queued h s s' b :
  wait_for_cache cfg h s = (s', Ok b) ->
  if b then is_Some (tensor_registry s'.1 !! h)
  else (CACHE_WAIT_TIMEOUT <= clock s'.2 - clock s.2) /\
    h ∉ (m_mm_hash <$> incoming_metadata s.1).
Proof.
  intros Hr. pose proof (wait_for_cache_ok cfg h s) as Hw. unfold wp in Hw. rewrite Hr in Hw.
  destruct b; [exact Hw|]. by destruct Hw as (? & ? & _).
Qed.

(** C40: A pull of what the encoder pushed for a buffer of a supported type allocates a local tensor
    of its size and shape and reads its memory, and no other, from the encoder's agent. *)
Theorem pull_reads_what_was_pushed h s s' engine agent buf x b d :
  dtype_size (dtype buf) = Ok (element_size buf) ->
  tensor_registry s.1 !! h = Some (engine, tensor_info buf) ->
  remote_agents s.1 !! engine = Some agent ->
  initiate_pull h s = (s', Ok (x, b, d)) ->
  t_shape b = t_shape buf /\
  exists flat lp rp u st,
    reshape flat (t_shape buf) = Ok b /\
    s'.2 = [Event (Transfer x) (Ok st); Event (MakePreppedXfer lp rp) (Ok x);
      Event (PrepXferDlist agent (data_ptr buf) (numel buf * element_size buf) 0) (Ok rp);
      Event (PrepXferDlist "NIXL_INIT_AGENT" (data_ptr b) (numel buf * element_size buf) 0) (Ok lp);
      Event (RegisterMemory d) (Ok u);
      Event (GetRegDescs (data_ptr b) (numel buf * element_size buf)) (Ok d);
      Event (AlignedTensor (numel buf)) (Ok flat)] ++ s.2.
Proof.
  intros Hsz Hreg Hag Hi. destruct s as [c hist]. cbn [fst snd] in *.
  assert (Hpos : 0 < element_size buf).
  { unfold dtype_size, of_option in Hsz. destruct (od_get (dtype buf) _DTYPE_SIZES) as [z|] eqn:Eg; [|done].
    injection Hsz as <-. by apply (od_get_Forall (fun z => 0 < z)) in Eg; [|repeat constructor]. }
  set (Q := fun p (s' : Consumer * history) => t_shape p.1.2 = t_shape buf /\ exists flat lp rp u st,
    reshape flat (t_shape buf) = Ok p.1.2 /\
    s'.2 = [Event (Transfer p.1.1) (Ok st); Event (MakePreppedXfer lp rp) (Ok p.1.1);
      Event (PrepXferDlist agent (data_ptr buf) (numel buf * element_size buf) 0) (Ok rp);
      Event (PrepXferDlist "NIXL_INIT_AGENT" (data_ptr p.1.2) (numel buf * element_size buf) 0) (Ok lp);
      Event (RegisterMemory p.2) (Ok u);
      Event (GetRegDescs (data_ptr p.1.2) (numel buf * element_size buf)) (Ok p.2);
      Event (AlignedTensor (numel buf)) (Ok flat)] ++ hist).
  assert (Hw : wp (initiate_pull h) (c, hist) Q (fun _ _ => True)).
  { unfold initiate_pull, cgets. do 2 wp_step. cbn [fst id]. rewrite Hreg. cbn [of_option].
    wp_step. apply wp_lift; [|done]. intros r [= <-]. rewrite Hag. cbn [of_option].
    wp_step. apply wp_lift; [|done]. intros a [= <-]. cbn [tensor_info dtype_str nbytes shape base_addr device_id].
    rewrite Hsz. wp_step. apply wp_lift; [|done]. intros z [= <-].
    rewrite Z.div_mul by lia. wp_step. wp_call; intros flat _; [|done].
    wp_step. apply wp_lift; [|done]. intros b' Hb'.
    do 6 (wp_step; wp_call; intros ? _; [|done]). case_decide; wp_step; [|done].
    pose proof (reshape_ok _ _ _ Hb') as (_ & Hsh & _). split; [done|]. by repeat eexists. }
  unfold wp in Hw. rewrite Hi in Hw. exact Hw.
Qed.

(** ** What does not hold *)
Lemma initiate_raises h s :
  wp (initiate_pull h) s (fun _ _ => True) (fun _ s' => s'.1 = s.1 /\
    forall x r hist, s'.2 = Event (Transfer x) r :: hist -> s'.2 <> s.2 ->
      exists d, registered s'.2 = d :: registered s.2 /\ made s'.2 = x :: made s.2 /\
        disowned s'.2 = disowned s.2 /\ let_go s'.2 = let_go s.2).
Proof.
  destruct s as [c hist]. unfold initiate_pull, cgets. do 2 wp_step. cbn [fst id].
  wp_step. apply wp_lift; [|done]. intros [engine ti] _.
  wp_step. apply wp_lift; [|done]. intros agent _. wp_step. apply wp_lift; [|done]. intros esize _.
  wp_step. wp_call; intros flat _; [|by split; [|intros ???[=]]].
  wp_step. apply wp_lift; [|intros; by split; [|intros ???[=]]]. intros buf _.
  do 5 (wp_step; wp_call; intros ? _; [|by split; [|intros ???[=]]]).
  wp_step. wp_call; intros st _; [|split; [done|]; intros x r h' [= <- _ _] _; by eexists].
  case_decide; wp_step; [done|]. split; [done|]. intros x r h' [= <- _ _] _. by eexists.
Qed.

(** A pull whose transfer is refused leaks: [_initiate_pull] raises while the destination is
    registered and the handle made, and no pull holds them, so nothing will release them. *)
Theorem refused_pull_leaks ops h s s' e x r hist :
  run_consumer cfg ops (new_consumer, []) = (s, Ok tt) ->
  initiate_pull h s = (s', Raise e) -> s'.2 = Event (Transfer x) r :: hist -> s'.2 <> s.2 ->
  exists d,
    registered s'.2 ≡ₚ
      d :: deregistered s'.2 ++ leaked s'.2 ++ (pull_descs <$> pending_loads s'.1) /\
    made s'.2 ≡ₚ x :: released s'.2 ++ lost s'.2 ++ (pull_handle <$> pending_loads s'.1).
Proof.
  intros Hr Hi Hx Hne. destruct (run_from_new ops s Hr) as [[_ Hd Hh] _].
  pose proof (initiate_raises h s) as Hw. unfold wp in Hw. rewrite Hi in Hw.
  destruct Hw as [Hs Hw]. destruct (Hw x r hist Hx Hne) as (d & Hrd & Hm & Hde & Hre).
  exists d. rewrite !(app_assoc _ _ (_ <$> _)), <- disowned_split, <- let_go_split.
  by rewrite Hs, Hrd, Hm, Hde, Hre, Hd, Hh.
Qed.

(** A signal that arrives before [evt.clear()] is lost: the wait sleeps its whole timeout
    although the metadata is queued and the event was set. *)
Theorem signal_before_clear_is_lost h t s :
  cache_events s.1 !! h = Some true -> h ∈ (m_mm_hash <$> incoming_metadata s.1) ->
  deliveries s.2 = [] -> deliveries (Event Deliver (Ok []) :: s.2) = [] ->
  event_wait cfg h t s =
    ((set_cache_events (<[h := false]> (cache_events s.1)) s.1,
      Event (Sleep t) (Ok tt) :: Event Deliver (Ok []) :: Event Deliver (Ok []) :: s.2), Ok tt).
Proof.
  intros _ _ H1 H2. destruct s as [c hist]. cbn [fst snd] in *.
  unfold event_wait, interrupted, perform, cmodify, cgets, modify, gets, mbind, M_bind.
  cbn [fst snd answer]. rewrite H1. cbn [for_each]. unfold mret, M_ret. cbn [fst snd answer].
  rewrite H2. cbn [for_each]. unfold mret, M_ret. cbn [fst snd].
  change (cache_events (set_cache_events ?m c)) with m. rewrite lookup_insert_eq. cbn. done.
Qed.
End theorems.

(** ** The scheduler side and the entry point *)
Section scheduler.
Context (cfg : Config).

(** What the calls of [update_state_after_alloc] say of [h]: the last one counts. *)
Definition announced (h : string) (calls : list (list MMFeature * Z)) : option Z :=
  foldl (fun acc call =>
    match py_nth call.1 call.2 with
    | Some f => if decide (h = identifier f) then Some (num_encoder_embeds f) else acc
    | None => acc
    end) None calls.

Definition update_all (calls : list (list MMFeature * Z)) (need : NeedLoads) : res NeedLoads :=
  foldM (fun need call => update_state_after_alloc cfg call.1 call.2 need) need calls.

Lemma update_all_spec calls need need' : is_consumer cfg = true ->
  NoDup (od_keys need) -> update_all calls need = Ok need' ->
  NoDup (od_keys need') /\ forall h, od_get h need' =
    foldl (fun acc call =>
      match py_nth call.1 call.2 with
      | Some f => if decide (h = identifier f) then Some (num_encoder_embeds f) else acc
      | None => acc
      end) (od_get h need) calls.
Proof.
  intros Hc. unfold update_all. revert need. induction calls as [|[fs i] calls IH]; intros need Hn Hu.
  { cbn in Hu. res_inv. done. }
  cbn [foldM] in Hu. res_inv. unfold update_state_after_alloc in E. rewrite Hc in E. cbn [negb fst snd] in E.
  res_inv. apply IH in Hu as [Hn' Hg]; [|by apply NoDup_od_set].
  split; [done|]. intros h. rewrite Hg, od_get_set. cbn [foldl fst snd].
  lazymatch goal with Hf : py_nth fs i = Some _ |- _ => by rewrite Hf end.
Qed.

(** The metadata of a step names every hash announced since the last step once, with the count
    announced last; the next step starts from nothing. *)
Theorem step_metadata_announces calls need : is_consumer cfg = true ->
  update_all calls [] = Ok need ->
  NoDup (od_keys (build_connector_meta need).1) /\
  (forall h n, (h, n) ∈ (build_connector_meta need).1 <-> announced h calls = Some n) /\
  (build_connector_meta need).2 = [].
Proof.
  intros Hc Hu. destruct (update_all_spec calls [] need Hc ltac:(constructor) Hu) as [Hn Hg].
  split; [done|]. split; [|done]. intros h n. cbn [build_connector_meta fst].
  rewrite elem_of_odict by done. by rewrite Hg.
Qed.
End scheduler.

Section dispatch.
Context `{Env} (cfg : Config).

(** A call on the wrong side raises [RuntimeError] and changes nothing; a role that is neither
    raises [ValueError]. *)
Theorem wrong_side_raises w need h fs i meta blocking cache :
  c_has_cache_item cfg h (WorkerImpl w) = (WorkerImpl w, Raise RuntimeError) /\
  c_update_state_after_alloc cfg fs i (WorkerImpl w) = (WorkerImpl w, Raise RuntimeError) /\
  c_build_connector_meta (WorkerImpl w) = (WorkerImpl w, Raise RuntimeError) /\
  c_start_load_caches cfg meta blocking (SchedulerImpl need) =
    (SchedulerImpl need, Raise RuntimeError) /\
  c_save_caches cfg cache h (SchedulerImpl need) = (SchedulerImpl need, Raise RuntimeError) /\
  new_connector UnknownRole = Raise ValueError.
Proof. done. Qed.
End dispatch.

(** ** Witnesses *)
Section witnesses.
Import EcToy.
#[local] Existing Instance toy_env.
#[local] Existing Instance toy_laws.

Definition llm_cfg : Config :=
  {| is_producer := false; is_consumer := true; cfg_engine_id := "llm";
     metadata_queue_max := 4; max_concurrent_pulls := 1; producer_cache_capacity := 2;
     producer_cache_ttl := 100 * second; ack_host := "127.0.0.1"; ack_port := 7000;
     ack_queue_max := 4; dead_threshold := 180 * second |}.

Definition meta_of (h : string) : ECNixlMetadata :=
  {| m_engine_id := "encoder"; m_mm_hash := h; agent_metadata := "agent";
     tensor := {| base_addr := 4096; nbytes := 12; device_id := 0; shape := [6];
                  dtype_str := "torch.float16" |};
     m_ack_host := "127.0.0.1"; m_ack_port := 7000 |}.

(** Two images arrive and are asked for; the cap is one pull, so the second is deferred. *)
Definition llm_ops : list consumer_op :=
  [ReceiveMetadata (Some (Some (meta_of "a"))); ReceiveMetadata (Some (Some (meta_of "b")));
   StartLoad ["a"; "b"]%string false].
Definition llm_state : Consumer * history := (run_consumer llm_cfg llm_ops (new_consumer, [])).1.

Lemma asked_hashes_settled_witness :
  let s' := (start_load_caches llm_cfg ["c"%string] true llm_state).1 in
  pending_loads s'.1 = [] /\
  (is_Some (encoder_cache s'.1 !! "b"%string) \/ "b"%string ∈ deferred_loads s'.1 \/
   (true = false /\ "b"%string ∈ od_keys (pending_loads s'.1)) \/
   (length (failed llm_state.2) < length (failed s'.2))%nat \/
   CACHE_WAIT_TIMEOUT <= clock s'.2 - clock llm_state.2).
Proof.
  destruct (asked_hashes_settled llm_cfg llm_ops ["c"%string] true llm_state
    (start_load_caches llm_cfg ["c"%string] true llm_state).1) as [Hb Hall];
    [done|by vm_compute|by vm_compute|].
  split; [by apply Hb|]. apply Hall. right. by vm_compute.
Defined.

(** The pull of the first image ends and is acknowledged; later polls send nothing more. *)
Definition acked_run : Consumer * history :=
  (run_consumer llm_cfg (llm_ops ++ [GetFinished; GetFinished]) (new_consumer, [])).1.

Lemma one_ack_per_lifetime_witness :
  length (acks_of "a" acked_run.2) = 1%nat /\
  (length (acks_of "a" acked_run.2) <=
    1 + finishes (llm_ops ++ [GetFinished; GetFinished]) "a")%nat.
Proof.
  split; [by vm_compute|].
  apply (one_ack_per_lifetime llm_cfg (llm_ops ++ [GetFinished; GetFinished]) "a").
Defined.

Lemma consumer_calls_end_witness :
  (run_consumer_op llm_cfg (StartLoad ["c"%string] true) llm_state).2 <> Raise OutOfFuel.
Proof. apply (consumer_calls_end llm_cfg). Defined.

Lemma wait_finds_what_is_queued_witness :
  is_Some (tensor_registry
    (wait_for_cache llm_cfg "a"
      (run_consumer llm_cfg (take 1 llm_ops) (new_consumer, [])).1).1.1 !! "a"%string).
Proof.
  apply (wait_finds_what_is_queued llm_cfg "a"
    (run_consumer llm_cfg (take 1 llm_ops) (new_consumer, [])).1 _ true). by vm_compute.
Defined.

Lemma pull_reads_what_was_pushed_witness :
  let s := (process_pending_metadata (run_consumer llm_cfg (take 1 llm_ops) (new_consumer, [])).1).1 in
  exists b d x, initiate_pull "a" s = ((s.1, (initiate_pull "a" s).1.2), Ok (x, b, d)) /\
    t_shape b = [6].
Proof.
  intros s. exists {| data_ptr := 4096 * len s.2; numel := 6; element_size := 2; t_shape := [6];
    dtype := "torch.float16" |}, (1 + len s.2), (5 + len s.2).
  split; [by vm_compute|].
  apply (pull_reads_what_was_pushed "a" s (initiate_pull "a" s).1 "encoder" "agent"
    {| data_ptr := 4096; numel := 6; element_size := 2; t_shape := [6]; dtype := "torch.float16" |}
    (5 + len s.2) _ (1 + len s.2)); by vm_compute.
Defined.

Lemma signal_before_clear_is_lost_witness : exists s,
  "a"%string ∈ (m_mm_hash <$> incoming_metadata s.1) /\
  exists s', event_wait llm_cfg "a" second s = (s', Ok tt) /\
    clock s.2 + second <= clock s'.2.
Proof.
  set (s := (run_consumer llm_cfg (take 1 llm_ops)
    (set_cache_events {["a"%string := false]} new_consumer, [])).1).
  exists s. split; [by vm_compute; left|].
  eexists. split; [apply (signal_before_clear_is_lost llm_cfg "a" second s)|by vm_compute].
  - by vm_compute.
  - by vm_compute; left.
  - done.
  - done.
Defined.

Lemma step_metadata_announces_witness :
  NoDup (od_keys (build_connector_meta [("img"%string, 7)]).1).
Proof.
  apply (step_metadata_announces llm_cfg [([{| identifier := "img"; num_encoder_embeds := 7 |}], 0)]);
    done.
Defined.
End witnesses.

Section refusal.
Import EcToy.

Definition refusing_reply (h : history) (c : call) : res (ans c) :=
  match c return res (ans c) with
  | Transfer _ => Ok "ERR"%string
  | c => toy_reply h c
  end.
Definition refusing_env : Env :=
  {| clock := toy_clock; deliveries _ := []; set_order _ X := elements X;
     reply := refusing_reply |}.
Lemma refusing_laws : @EnvLaws refusing_env.
Proof.
  split; [|intros h d r; cbn; lia|done|by intros h []].
  intros h e. cbn. destruct (ev_call e); cbn; lia.
Qed.
#[local] Existing Instance refusing_env.
#[local] Existing Instance refusing_laws.

Definition refused_state : Consumer * history :=
  (run_consumer llm_cfg [ReceiveMetadata (Some (Some (meta_of "a"))); GetFinished;
    StartLoad [] false] (new_consumer, [])).1.

Lemma refused_pull_leaks_witness : exists d s',
  initiate_pull "a" refused_state = (s', Raise RuntimeError) /\
  registered s'.2 ≡ₚ
    d :: deregistered s'.2 ++ leaked s'.2 ++ (pull_descs <$> pending_loads s'.1).
Proof.
  destruct (refused_pull_leaks llm_cfg [ReceiveMetadata (Some (Some (meta_of "a"))); GetFinished;
    StartLoad [] false] "a" refused_state (initiate_pull "a" refused_state).1 RuntimeError
    (len (tail (initiate_pull "a" refused_state).1.2) - 1) (Ok "ERR"%string)
    (tail (initiate_pull "a" refused_state).1.2)) as (d & Hd & _).
  - by vm_compute.
  - by vm_compute.
  - by vm_compute.
  - intros He. apply (f_equal length) in He. by vm_compute in He.
  - exists d, (initiate_pull "a" refused_state).1. split; [by vm_compute|exact Hd].
Defined.
End refusal.

(** The first pull ends and the second begins, and NIXL takes nothing back. *)
Section clumsy.
Import EcToy.
#[local] Existing Instance clumsy_env.
#[local] Existing Instance clumsy_laws.

Definition clumsy_ops : list consumer_op := llm_ops ++ [GetFinished; StartLoad [] false].
Definition clumsy_pulls : Consumer * history :=
  (run_consumer llm_cfg clumsy_ops (new_consumer, [])).1.

Lemma pulls_accounted_witness :
  od_keys (pending_loads clumsy_pulls.1) = ["b"%string] /\
  length (leaked clumsy_pulls.2) = 1%nat /\ length (lost clumsy_pulls.2) = 1%nat /\
  registered clumsy_pulls.2 ≡ₚ deregistered clumsy_pulls.2 ++ leaked clumsy_pulls.2 ++
    (pull_descs <$> pending_loads clumsy_pulls.1) /\
  made clumsy_pulls.2 ≡ₚ released clumsy_pulls.2 ++ lost clumsy_pulls.2 ++
    (pull_handle <$> pending_loads clumsy_pulls.1).
Proof.
  do 3 (split; [by vm_compute|]).
  apply (pulls_accounted llm_cfg clumsy_ops clumsy_pulls). by vm_compute.
Defined.
End clumsy.
