(* ===== verification/KvTransfer.v ===== *)
(** * KV transfer: what a peer holds and how its regions pair with ours

    [rbln_nixl/base_worker.py], the part that computes: the head bands of chiplet areas,
    which regions of the two sides take part in a transfer, and the descriptors that name
    their bytes.  A region is one chiplet area of K, of V, or of both packed into one block.
    The calls of vLLM's topology and base worker are the class [NixlBase]. *)
From S2P Require Import Prelude.

(** ** What a peer advertises ([metadata.py]) and what a worker knows of itself *)
Inductive KVSplitAxis := HEAD | NON_HEAD.

#[export] Instance KVSplitAxis_eq_dec : EqDecision KVSplitAxis.
Proof. solve_decision. Defined.

(** Fields of a peer have the prefix [m_]. *)
Record RblnNixlAgentMetadata := {
  m_engine_id : string;
  m_agent_metadata : string;
  m_device_id : Z;
  m_kv_caches_base_addr : list Z;
  m_num_blocks : Z;
  m_block_lens : list Z;
  m_kv_cache_layout : string;
  m_block_size : Z;
  m_pp_rank : Z;
  m_pp_size : Z;
  m_registered_layer_names : list string;
  m_kv_areas : Z;
  m_kv_slices : Z;
  m_kv_split_axis : KVSplitAxis;
  m_kv_per_block : Z
}.

(** What registration leaves in the worker, and the configuration it reads.  [base_addrs]
    is [kv_caches_base_addr[engine_id][tp_rank]], [n_groups] the number of KV cache
    groups. *)
Record Worker := {
  writes_into_peer : bool;
  use_host_buffer : bool;
  sw_ratio : option Z;
  has_swa : bool;
  has_mamba : bool;
  use_mla : bool;
  cross_layers_blocks : bool;
  tp_rank : Z;
  tp_size : Z;
  total_num_kv_heads : Z;
  kv_areas : Z;
  kv_slices : Z;
  kv_split_axis : KVSplitAxis;
  kv_per_block : Z;
  block_size : Z;
  num_blocks : Z;
  device_id : Z;
  num_regions : Z;
  block_len_per_layer : list Z;
  base_addrs : list Z;
  logical_region_kv_heads : list (option Z);
  logical_region_slices : list Z;
  local_seen_layer_names : list string;
  kv_cache_layout : string;
  local_pp : Z;
  n_groups : Z;
  viewed_region_ids : option (list Z)
}.

(** [TransferTopology.tp_ratio], [TransferTopology.block_size_ratio] (ours first), the base
    worker's [get_backend_aware_kv_block_len] for a region of [block_len_per_layer] and its
    [_logical_to_kernel_block_ids]. *)
Class NixlBase := {
  tp_ratio : Z -> Z -> res Z;
  block_size_ratio : Z -> Z -> res Z;
  super_kv_block_len : Worker -> Z -> res Z;
  logical_to_kernel_block_ids : list (list Z) -> Z -> list (list Z)
}.

(** What vLLM documents of them, for the caches registered here, whose topology never
    splits a block virtually. *)
Class NixlBaseLaws `{NixlBase} := {
  tp_ratio_down local remote : 0 < remote <= local -> (remote | local) ->
    tp_ratio local remote = Ok (local / remote);
  tp_ratio_up local remote : 0 < local < remote -> (local | remote) ->
    tp_ratio local remote = Ok (- (remote / local));
  block_size_ratio_exact local remote k : block_size_ratio local remote = Ok k ->
    remote <> 0 /\ local = k * remote;
  kv_block_len_registered w i n : 0 <= i -> block_len_per_layer w !! Z.to_nat i = Some n ->
    super_kv_block_len w i = Ok n;
  logical_to_kernel_one ids : logical_to_kernel_block_ids ids 1 = ids
}.

(** [out = []; for x in l: out.extend(f(x))]. *)
Definition extend_all {A B} (f : A -> res (list B)) (l : list A) : res (list B) :=
  k ← mapM f l; Ok (concat k).

(** (address, length, device) *)
Definition desc : Type := Z * Z * Z.

Section worker.
Context `{NixlBase}.
Implicit Types (w : Worker) (m : RblnNixlAgentMetadata).

(** ** Views of the region arrays *)
Definition _viewed_region w (position : Z) : res Z :=
  match viewed_region_ids w with
  | None => Ok position
  | Some ids => of_option (py_nth ids position) IndexError
  end.

Definition get_backend_aware_kv_block_len w (layer_idx : Z) : res Z :=
  r ← _viewed_region w layer_idx;
  super_kv_block_len w r.

(** The worker inside [with self._regions_viewed_as(ids)]. *)
Definition _regions_viewed_as w (ids : option (list Z)) : Worker := {|
  writes_into_peer := writes_into_peer w; use_host_buffer := use_host_buffer w;
  sw_ratio := sw_ratio w; has_swa := has_swa w; has_mamba := has_mamba w;
  use_mla := use_mla w; cross_layers_blocks := cross_layers_blocks w;
  tp_rank := tp_rank w; tp_size := tp_size w; total_num_kv_heads := total_num_kv_heads w;
  kv_areas := kv_areas w; kv_slices := kv_slices w; kv_split_axis := kv_split_axis w;
  kv_per_block := kv_per_block w; block_size := block_size w; num_blocks := num_blocks w;
  device_id := device_id w; num_regions := num_regions w;
  block_len_per_layer := block_len_per_layer w; base_addrs := base_addrs w;
  logical_region_kv_heads := logical_region_kv_heads w;
  logical_region_slices := logical_region_slices w;
  local_seen_layer_names := local_seen_layer_names w;
  kv_cache_layout := kv_cache_layout w; local_pp := local_pp w; n_groups := n_groups w;
  viewed_region_ids := ids
|}.

Definition _region_kv_heads w (logical_region : Z) : res Z :=
  heads ← of_option (py_nth (logical_region_kv_heads w) logical_region) IndexError;
  of_option heads AssertionError.

(** ** The head axis *)

(** [(first head this shard owns, heads per logical slice)]. *)
Definition _slice_head_bounds (tp_rank tp_size total_kv_heads areas slices : Z) : res (Z * Z) :=
  r ← py_mod total_kv_heads tp_size;
  if negb (r =? 0) then Raise RuntimeError
  else
    heads_per_rank ← py_floordiv total_kv_heads tp_size;
    if (slices <=? 0) || negb (heads_per_rank mod slices =? 0) then Raise RuntimeError
    else if negb (areas mod slices =? 0) then Raise RuntimeError
    else Ok (tp_rank * heads_per_rank, heads_per_rank / slices).

Definition _head_split (cuts_l cuts_r : Z) : res Z :=
  if cuts_r <=? cuts_l then Ok 1
  else
    r ← py_mod cuts_r cuts_l;
    if negb (r =? 0) then Raise RuntimeError else py_floordiv cuts_r cuts_l.

Definition _kv_runs (kv_per_block cuts_l cuts_r : Z) : Z :=
  if negb (cuts_l =? cuts_r) then kv_per_block else 1.

Definition _is_head_matched_peer w (remote_tp_size : Z) : res bool :=
  if use_host_buffer w || bool_decide (is_Some (sw_ratio w)) then Ok false
  else
    r ← tp_ratio (tp_size w) remote_tp_size;
    Ok (negb (r =? 1)).

Definition _is_fan_in_peer w (remote_tp_size : Z) : res bool :=
  if use_host_buffer w then Ok false
  else
    r ← tp_ratio (tp_size w) remote_tp_size;
    Ok (r <? 0).

Definition _peer_head_split w m (remote_tp_size : Z) : res Z :=
  hm ← _is_head_matched_peer w remote_tp_size;
  if negb hm then Ok 1
  else _head_split (tp_size w * kv_slices w) (remote_tp_size * m_kv_slices m).

Definition _peer_kv_runs w m (remote_tp_size : Z) : res Z :=
  hm ← _is_head_matched_peer w remote_tp_size;
  if negb hm then Ok 1
  else Ok (_kv_runs (kv_per_block w) (tp_size w * kv_slices w) (remote_tp_size * m_kv_slices m)).

Definition _peer_replica_fanout w m (remote_tp_size : Z) : res Z :=
  if negb (writes_into_peer w) then Ok 1
  else
    hm ← _is_head_matched_peer w remote_tp_size;
    if negb hm then Ok 1
    else
      q ← py_floordiv (m_kv_areas m) (m_kv_slices m);
      Ok (Z.max 1 q).

(** The slice counts of the regions that have a head band must agree. *)
Definition _reject_uneven_region_slices w : res unit :=
  let distinct := remove_dups
    (omap (fun p : Z * option Z => match p.2 with Some _ => Some p.1 | None => None end)
       (zip (logical_region_slices w) (logical_region_kv_heads w))) in
  if len distinct <=? 1 then Ok tt else Raise RuntimeError.

Definition _fan_in_peer_areas w (remote_tp_rank remote_tp_size : Z) : res (option (list Z)) :=
  if use_host_buffer w then Ok None
  else
    ratio ← tp_ratio (tp_size w) remote_tp_size;
    if 0 <? ratio then Ok None
    else
      let total_heads := total_num_kv_heads w in
      b ← _slice_head_bounds (tp_rank w) (tp_size w) total_heads (kv_areas w) (kv_slices w);
      let '(base_l, per_slice_l) := b in
      heads_per_remote ← py_floordiv total_heads remote_tp_size;
      if heads_per_remote <? per_slice_l then Raise RuntimeError
      else
        replicas_l ← py_floordiv (kv_areas w) (kv_slices w);
        owners ← mapM (fun area_l =>
          q ← py_floordiv area_l replicas_l;
          owner ← py_floordiv (base_l + q * per_slice_l) heads_per_remote;
          Ok (area_l, owner)) (py_range (kv_areas w));
        Ok (Some (filter (fun ao : Z * Z => ao.2 = remote_tp_rank) owners).*1).

(** ** The layer axis *)
Definition positions_by_name (names : list string) : gmap string (list Z) :=
  foldl (fun d (p : Z * string) => <[p.2 := default [] (d !! p.2) ++ [p.1]]> d) ∅
    (zip (py_range (len names)) names).

Definition layer_overlap_step (positions : gmap string (list Z))
    (acc : gmap string nat * list (Z * Z)) (p : Z * string) : gmap string nat * list (Z * Z) :=
  let '(occurrences, pairs) := acc in
  let occurrence := default O (occurrences !! p.2) in
  let occurrences := <[p.2 := S occurrence]> occurrences in
  let matches := default [] (positions !! p.2) in
  match matches !! occurrence with
  | None => (occurrences, pairs)
  | Some local_idx => (occurrences, pairs ++ [(p.1, local_idx)])
  end.

(** [(peer position, local index)] of the layers both sides hold. *)
Definition _layer_overlap w (registered_layer_names : list string) : list (Z * Z) :=
  (foldl (layer_overlap_step (positions_by_name (local_seen_layer_names w))) (∅, [])
    (zip (py_range (len registered_layer_names)) registered_layer_names)).2.

Definition _regions_per_layer w : res Z :=
  let num_layers := len (local_seen_layer_names w) in
  assert! (0 <? num_layers) && (num_regions w mod num_layers =? 0);
  py_floordiv (num_regions w) num_layers.

(** [(our logical region, its position in the peer's region list)]. *)
Definition _logical_region_pairs w (registered_layer_names : option (list string))
    : res (list (Z * Z)) :=
  match registered_layer_names with
  | None =>
      n ← py_floordiv (len (block_len_per_layer w)) (kv_areas w);
      Ok ((fun i => (i, i)) <$> py_range n)
  | Some names =>
      rpl ← _regions_per_layer w;
      per_layer ← py_floordiv rpl (kv_areas w);
      Ok ('(peer_pos, layer_l) ← _layer_overlap w names;
          c ← py_range per_layer;
          [(layer_l * per_layer + c, peer_pos * per_layer + c)])
  end.

Definition _shard_local_region_ids w (registered_layer_names : list string)
    (peer_areas : option (list Z)) : res (list Z) :=
  rpl ← _regions_per_layer w;
  keep ← match peer_areas with
         | None => Ok (py_range rpl)
         | Some wanted =>
             ks ← mapM (fun k => a ← py_mod k (kv_areas w); Ok (k, a)) (py_range rpl);
             Ok (filter (fun ka : Z * Z => ka.2 ∈ wanted) ks).*1
         end;
  Ok ('(_, layer_idx) ← _layer_overlap w registered_layer_names;
      k ← keep;
      [layer_idx * rpl + k]).

(** Our region ids for a peer's regions, in its order, or [None] where there is nothing to
    translate. *)
Definition _peer_region_ids w m : res (option (list Z)) :=
  let names := m_registered_layer_names m in
  if bool_decide (names = []) || bool_decide (local_seen_layer_names w = []) then Ok None
  else
    region_ids ← _shard_local_region_ids w names None;
    let n_peer := len (m_kv_caches_base_addr m) in
    if negb (len region_ids =? n_peer) then Raise RuntimeError
    else if bool_decide (region_ids = py_range n_peer) then Ok None
    else Ok (Some region_ids).

(** A peer stage trimmed to the layers this rank owns ([peer_positions[0]] raises on an
    empty overlap). *)
Definition _trim_agent_meta_to_layers w m (overlap : list (Z * Z)) : res RblnNixlAgentMetadata :=
  rpl ← _regions_per_layer w;
  let peer_positions := overlap.*1 in
  start ← of_option (head peer_positions) IndexError;
  last_ ← of_option (last peer_positions) IndexError;
  let end_ := last_ + 1 in
  if negb (bool_decide (peer_positions = seqZ start (end_ - start))) then Raise RuntimeError
  else
    let lo := start * rpl in
    let hi := end_ * rpl in
    Ok {| m_engine_id := m_engine_id m; m_agent_metadata := m_agent_metadata m;
          m_device_id := m_device_id m;
          m_kv_caches_base_addr := py_slice (m_kv_caches_base_addr m) lo hi;
          m_num_blocks := m_num_blocks m;
          m_block_lens := py_slice (m_block_lens m) lo hi;
          m_kv_cache_layout := m_kv_cache_layout m; m_block_size := m_block_size m;
          m_pp_rank := m_pp_rank m; m_pp_size := m_pp_size m;
          m_registered_layer_names := py_slice (m_registered_layer_names m) start end_;
          m_kv_areas := m_kv_areas m; m_kv_slices := m_kv_slices m;
          m_kv_split_axis := m_kv_split_axis m; m_kv_per_block := m_kv_per_block m |}.

(** ** Descriptors *)

(** One region of the loop over the copies [k] of the slice that holds a piece. *)
Definition remote_piece (remote_bases remote_lens : list Z)
    (remote_region head_within per_slice_r sub_len kv_runs : Z) : res (Z * Z) :=
  page ← of_option (py_nth remote_lens remote_region) IndexError;
  r ← py_mod page kv_runs;
  if negb (r =? 0) then Raise RuntimeError
  else
    kv_stride ← py_floordiv page kv_runs;
    r ← py_mod kv_stride per_slice_r;
    if negb (r =? 0) then Raise RuntimeError
    else
      per_head ← py_floordiv kv_stride per_slice_r;
      let head_offset := head_within * per_head in
      if kv_stride <? sub_len + head_offset then Raise RuntimeError
      else
        base ← of_option (py_nth remote_bases remote_region) IndexError;
        Ok (base + head_offset, page).

(** One turn of the loop over the pieces [j]: the remote slice covering the piece's first
    head, once per copy of it. *)
Definition head_piece (head per_piece base_r per_slice_r slices_r first_region replicas_r : Z)
    (fanout : Z) (remote_bases remote_lens : list Z) (sub_len kv_runs : Z) (j : Z)
    : res (list (Z * Z)) :=
  slice_r ← py_floordiv (head + j * per_piece - base_r) per_slice_r;
  head_within ← py_mod (head + j * per_piece - base_r) per_slice_r;
  if negb ((0 <=? slice_r) && (slice_r <? slices_r)) then Raise RuntimeError
  else
    mapM (fun k => remote_piece remote_bases remote_lens
            (first_region + slice_r * replicas_r + k)
            head_within per_slice_r sub_len kv_runs) (py_range fanout).

(** The loops that emit the descriptors of the pieces, K and V innermost. *)
Definition block_rows (pieces : list (Z * Z)) (num_blocks kv_runs sub_len device_id : Z)
    : list desc :=
  block_id ← py_range num_blocks;
  '(base, page) ← pieces;
  kv ← py_range kv_runs;
  [(base + block_id * page + kv * (page / kv_runs), sub_len, device_id)].

(** Descriptors for one local region, [split * fanout * kv_runs] per block: block-major,
    then piece, then copy. *)
Definition _head_matched_desc w (region_id logical_r area_l : Z) (geom : Z * Z * Z)
    (peer : Z * Z * Z * Z) (areas_r : Z) (remote_bases remote_lens : list Z)
    (device_id num_blocks split kv_runs : Z) : res (list desc) :=
  let '(base_l, per_slice_l, replicas_l) := geom in
  let '(base_r, per_slice_r, replicas_r, slices_r) := peer in
  q ← py_floordiv area_l replicas_l;
  let head := base_l + q * per_slice_l in
  desc_len ← get_backend_aware_kv_block_len w region_id;
  per_piece ← py_floordiv per_slice_l split;
  half ← py_floordiv desc_len kv_runs;
  sub_len ← py_floordiv half split;
  let fanout := if writes_into_peer w then replicas_r else 1 in
  pieces ← extend_all (head_piece head per_piece base_r per_slice_r slices_r
                         (logical_r * areas_r) replicas_r fanout remote_bases remote_lens
                         sub_len kv_runs) (py_range split);
  Ok (block_rows pieces num_blocks kv_runs sub_len device_id).

(** One turn of the loop over the logical regions. *)
Definition head_matched_region w m (remote_tp_rank remote_tp_size : Z) (areas_iter : list Z)
    (replicas_l replicas_r split kv_runs : Z) (pair : Z * Z) : res (list desc) :=
  let '(logical_l, logical_r) := pair in
  total_heads ← _region_kv_heads w logical_l;
  gl ← _slice_head_bounds (tp_rank w) (tp_size w) total_heads (kv_areas w) (kv_slices w);
  gr ← _slice_head_bounds remote_tp_rank remote_tp_size total_heads (m_kv_areas m) (m_kv_slices m);
  extend_all (fun area_l =>
    _head_matched_desc w (logical_l * kv_areas w + area_l) logical_r area_l
      (gl.1, gl.2, replicas_l) (gr.1, gr.2, replicas_r, m_kv_slices m) (m_kv_areas m)
      (m_kv_caches_base_addr m) (m_block_lens m) (m_device_id m) (m_num_blocks m)
      split kv_runs) areas_iter.

(** The remote list for a peer of another TP degree, in local region order. *)
Definition _build_head_matched_remote w m (remote_tp_rank remote_tp_size : Z)
    (registered_layer_names : option (list string)) (peer_areas : option (list Z))
    : res (list desc) :=
  let areas_l := kv_areas w in
  let slices_l := kv_slices w in
  let areas_r := m_kv_areas m in
  let slices_r := m_kv_slices m in
  let cuts_l := tp_size w * slices_l in
  let cuts_r := remote_tp_size * slices_r in
  split ← _head_split cuts_l cuts_r;
  let kv_runs := _kv_runs (kv_per_block w) cuts_l cuts_r in
  replicas_l ← py_floordiv areas_l slices_l;
  replicas_r ← py_floordiv areas_r slices_r;
  logical_pairs ← _logical_region_pairs w registered_layer_names;
  let areas_iter := default (py_range areas_l) peer_areas in
  out ← extend_all (head_matched_region w m remote_tp_rank remote_tp_size areas_iter
                      replicas_l replicas_r split kv_runs) logical_pairs;
  let fanout := if writes_into_peer w then replicas_r else 1 in
  assert! len out =? len logical_pairs * len areas_iter * m_num_blocks m * split * fanout * kv_runs;
  Ok out.

(** The local list of a shard: what [_register_shard_local_xfer_handler] hands to NIXL.
    The source repeats for every copy the peer holds. *)
Definition local_rows (base_addr stride kv_stride sub_len : Z)
    (num_blocks split replica_fanout kv_runs device_id : Z) : list desc :=
  block_id ← py_range num_blocks;
  j ← py_range split;
  _ ← py_range replica_fanout;
  kv ← py_range kv_runs;
  [(base_addr + block_id * stride + kv * kv_stride + j * sub_len, sub_len, device_id)].

Definition shard_local_descs w (peer_block_size : Z) (split : Z) (region_ids : list Z)
    (replica_fanout kv_runs : Z) : res (list desc) :=
  assert! negb (has_mamba w);
  ratio ← py_floordiv (block_size w) peer_block_size;
  let num_blocks := num_blocks w * ratio in
  extend_all (fun region_id =>
    base_addr ← of_option (py_nth (base_addrs w) region_id) IndexError;
    full ← get_backend_aware_kv_block_len w region_id;
    kv_block_len ← py_floordiv full ratio;
    registered ← of_option (py_nth (block_len_per_layer w) region_id) IndexError;
    stride ← py_floordiv registered ratio;
    kv_stride ← py_floordiv kv_block_len kv_runs;
    sub_len ← py_floordiv kv_stride split;
    Ok (local_rows base_addr stride kv_stride sub_len num_blocks split replica_fanout kv_runs
          (device_id w)))
    region_ids.

(** Descriptor ids of a request's blocks in a list laid out region-major, then block, then
    piece.  [region_group_ids] and [per_block] are the entries the handshake recorded. *)
Definition _get_block_descs_ids_for_shard (region_group_ids : list Z) (per_block : Z)
    (num_blocks : Z) (block_ids : list (list Z)) : res (list Z) :=
  extend_all (fun '(region_id, group_id) =>
    group ← of_option (py_nth block_ids group_id) IndexError;
    Ok (b ← group;
        let block_ix := region_id * num_blocks + b in
        if per_block =? 1 then [block_ix]
        else (fun i => block_ix * per_block + i) <$> py_range per_block))
    (zip (py_range (len region_group_ids)) region_group_ids).

(** ** What a peer has to meet ([_check_pp_constraints] is about our own side) *)
Definition _check_pp_constraints w : res unit :=
  if local_pp w <=? 1 then Ok tt
  else if cross_layers_blocks w then Raise RuntimeError
  else if has_mamba w then Raise RuntimeError
  else if has_swa w then Raise RuntimeError
  else Ok tt.

Definition _check_split_axis_constraints w m (remote_tp_size : Z) : res unit :=
  if use_host_buffer w then Ok tt
  else if negb (bool_decide (m_kv_split_axis m = kv_split_axis w)) then Raise RuntimeError
  else if bool_decide (kv_split_axis w = NON_HEAD) then
    hm ← _is_head_matched_peer w remote_tp_size;
    if (hm : bool) then Raise RuntimeError else Ok tt
  else Ok tt.

Definition _check_mla_constraints w m (remote_tp_size : Z) : res unit :=
  if negb (use_mla w) then Ok tt
  else
    hm ← _is_head_matched_peer w remote_tp_size;
    if (hm : bool) then Raise RuntimeError
    else if bool_decide ((m_kv_areas m, m_kv_slices m) = (kv_areas w, kv_slices w))
    then Ok tt else Raise RuntimeError.

Definition _check_d2d_region_pairing w m (remote_tp_size : Z) : res unit :=
  if use_host_buffer w then Ok tt
  else
    ratio ← tp_ratio (tp_size w) remote_tp_size;
    if negb (ratio =? 1) && has_swa w then Raise RuntimeError
    else if negb (m_kv_per_block m =? kv_per_block w) then Raise RuntimeError
    else
      let n_remote := len (m_kv_caches_base_addr m) in
      let peer_layers := len (m_registered_layer_names m) in
      local_rpl ← _regions_per_layer w;
      let '(peer_layers, local_rpl) :=
        if peer_layers =? 0 then (1, len (block_len_per_layer w)) else (peer_layers, local_rpl) in
      if negb (n_remote mod peer_layers =? 0) || negb (n_remote / peer_layers =? local_rpl)
      then Raise RuntimeError else Ok tt.

(** One turn of the loop of [_validate_head_matched_handshake]. *)
Definition validate_region w m (remote_tp_size : Z) (pair : Z * Z) : res unit :=
  let '(logical_l, logical_r) := pair in
  total_heads ← _region_kv_heads w logical_l;
  gl ← _slice_head_bounds (tp_rank w) (tp_size w) total_heads (kv_areas w) (kv_slices w);
  gr ← _slice_head_bounds 0 remote_tp_size total_heads (m_kv_areas m) (m_kv_slices m);
  local_len ← of_option (py_nth (block_len_per_layer w) (logical_l * kv_areas w)) IndexError;
  remote_len ← of_option (py_nth (m_block_lens m) (logical_r * m_kv_areas m)) IndexError;
  if negb (local_len * gr.2 =? remote_len * gl.2) then Raise RuntimeError else Ok tt.

Definition _validate_head_matched_handshake w m (remote_tp_size : Z)
    (registered_layer_names : option (list string)) : res unit :=
  ratio ← block_size_ratio (block_size w) (m_block_size m);
  if negb (ratio =? 1) then Raise RuntimeError
  else if negb (bool_decide (m_kv_cache_layout m = kv_cache_layout w)) then Raise RuntimeError
  else
    pairs ← _logical_region_pairs w registered_layer_names;
    _ ← mapM (validate_region w m remote_tp_size) pairs;
    Ok tt.

(** [metadata.registered_layer_names or None]. *)
Definition names_or_none (names : list string) : option (list string) :=
  if bool_decide (names = []) then None else Some names.

(** What [_validate_remote_agent_handshake] asks of every peer, and of a peer with several
    pipeline stages, of which [get_engine_info] and [dst_num_blocks] have these values. *)
Definition validate_common w m (remote_tp_size : Z) : res unit :=
  _ ← _check_split_axis_constraints w m remote_tp_size;
  _ ← _check_mla_constraints w m remote_tp_size;
  _check_d2d_region_pairing w m remote_tp_size.

Definition validate_pipelined w m (remote_tp_size engine_tp_size dst_blocks : Z) : res unit :=
  assert! engine_tp_size =? remote_tp_size;
  pp_tp_ratio ← tp_ratio (tp_size w) remote_tp_size;
  assert! 0 <? pp_tp_ratio;
  _ ← (if negb (pp_tp_ratio =? 1)
       then _validate_head_matched_handshake w m remote_tp_size
              (names_or_none (m_registered_layer_names m))
       else Ok tt);
  ratio ← block_size_ratio (block_size w) (m_block_size m);
  assert! ratio =? 1;
  assert! dst_blocks =? m_num_blocks m;
  rpl ← _regions_per_layer w;
  let n_remote := len (m_kv_caches_base_addr m) in
  r ← (if 0 <? n_remote then py_mod n_remote rpl else Ok 0);
  assert! (0 <? n_remote) && (r =? 0) && (n_remote <=? len (block_len_per_layer w));
  Ok tt.

(** The refusals of [_nixl_handshake] that depend on the parallel sizes alone. *)
Definition check_handshake_sizes w (pp_size remote_pp_size remote_tp_size : Z)
    (notif_agents_only : bool) : res unit :=
  if (1 <? remote_pp_size) && negb (remote_pp_size =? pp_size) then Raise RuntimeError
  else if (1 <? pp_size) || (1 <? local_pp w) then
    if has_swa w then Raise RuntimeError
    else
      r ← py_mod (Z.max pp_size (local_pp w)) (Z.min pp_size (local_pp w));
      if negb (r =? 0) then Raise RuntimeError
      else
        ratio ← tp_ratio (tp_size w) remote_tp_size;
        if negb (ratio =? 1) && (1 <? pp_size) && (1 <? local_pp w) then Raise RuntimeError
        else if notif_agents_only && (1 <? pp_size) && (1 <? local_pp w) then Raise RuntimeError
        else if (ratio <? 0) && (1 <? pp_size) then Raise RuntimeError
        else Ok tt
  else Ok tt.

(** ** The two descriptor ranges of a sliding window ([_sw_ratio] set) *)

(** The list of [register_local_xfer_handler]: whole blocks, then windows. *)
Definition swa_local_descs w (ratio : Z) (peer_block_size : Z) : res (list desc) :=
  block_size_ratio ← py_floordiv (block_size w) peer_block_size;
  let num_blocks := num_blocks w * block_size_ratio in
  extend_all (fun divisor =>
    extend_all (fun '(i, base_addr) =>
      full ← get_backend_aware_kv_block_len w i;
      per_ratio ← py_floordiv full block_size_ratio;
      kv_stride ← py_floordiv per_ratio (kv_per_block w);
      desc_len ← py_floordiv kv_stride divisor;
      registered ← of_option (py_nth (block_len_per_layer w) i) IndexError;
      stride ← py_floordiv registered block_size_ratio;
      Ok (block_id ← py_range num_blocks;
          kv ← py_range (kv_per_block w);
          [(base_addr + block_id * stride + kv * kv_stride, desc_len, device_id w)]))
      (zip (py_range (len (base_addrs w))) (base_addrs w))) [1; ratio].

(** [_compute_desc_ids] with a window; [num_blocks] is [int(dst_num_blocks *
    block_size_ratio)], [is_sw] says of each group whether its spec is a sliding window. *)
Definition _compute_desc_ids w (is_sw : list bool) (block_ids : list (list Z))
    (num_blocks physical_blocks_per_logical : Z) : res (list Z) :=
  assert! physical_blocks_per_logical =? 1;
  let num_full_descs := num_regions w * num_blocks * kv_per_block w in
  extend_all (fun '(g, group) =>
    if bool_decide (group = []) then Ok []
    else
      sw ← of_option (py_nth is_sw g) IndexError;
      let offset := if (sw : bool) then num_full_descs else 0 in
      Ok (region ← py_range (num_regions w);
          b ← group;
          kv ← py_range (kv_per_block w);
          [(region * num_blocks + b) * kv_per_block w + kv + offset]))
    (zip (py_range (len block_ids)) block_ids).

(** ** The completion count *)

(** The number in the notification: how many of our ranks one peer rank hears from, in the
    unit it divides by.  [remote_pp] is [_remote_pp_size.get(engine_id, 1)], [tp_size] the
    world size. *)
Definition xfer_notif_count w (remote_pp remote_tp_size : Z) (count_stages : bool) : res Z :=
  q ← py_floordiv (tp_size w) remote_tp_size;
  let peers := Z.max 1 q in
  peers ← (if count_stages then
             s ← py_floordiv (local_pp w) remote_pp;
             Ok (peers * Z.max 1 s)
           else Ok peers);
  Ok (peers * remote_tp_size).
End worker.
