(* ===== verification/KvLayout.v ===== *)
(** * KV transfer: lists laid out by rows

    Lookup in the lists the descriptor code builds with nested loops, and the two lists of
    region ids -- one built by filtering, one by nesting -- that have to run in step. *)
From S2P Require Import Prelude.
From S2P Require Import KvTransfer.

(** [l] at a Python index. *)
Abbreviation at_ l i := (l !! Z.to_nat i).

Lemma py_range_at n i : 0 <= i < n -> at_ (py_range n) i = Some i.
Proof. intros Hi. apply lookup_seqZ. lia. Qed.

Lemma py_range_elem n i : i ∈ py_range n <-> 0 <= i < n.
Proof. unfold py_range. rewrite elem_of_seqZ. lia. Qed.

Lemma py_range_len n : 0 <= n -> len (py_range n) = n.
Proof. intros. unfold len, py_range. rewrite length_seqZ. lia. Qed.

Lemma py_nth_at {A} (l : list A) i : 0 <= i -> py_nth l i = at_ l i.
Proof. intros. unfold py_nth. destruct (Z.ltb_spec i 0); [lia|done]. Qed.

Lemma at_range {A} (l : list A) i x : 0 <= i -> at_ l i = Some x -> i < len l.
Proof. intros Hi H. apply lookup_lt_Some in H. unfold len. lia. Qed.

Lemma at_some {A} (l : list A) i : 0 <= i < len l -> exists x, at_ l i = Some x.
Proof. intros Hi. apply lookup_lt_is_Some. unfold len in Hi. lia. Qed.

(** A nested loop: row [p] of the result is what the body yields at [p]. *)
Lemma concat_at {A} (ls : list (list A)) n p i :
  (forall l, l ∈ ls -> len l = n) -> 0 <= p -> 0 <= i < n ->
  at_ (concat ls) (p * n + i) = at_ ls p ≫= fun l => at_ l i.
Proof.
  revert p. induction ls as [|l ls IH]; intros p Hn Hp Hi; [done|]. cbn [concat].
  assert (Hl : len l = n) by (apply Hn; set_solver). unfold len in Hl.
  destruct (Z.eq_dec p 0) as [->|Hp0].
  - rewrite lookup_app_l by lia. replace (0 * n + i) with i by lia. done.
  - rewrite lookup_app_r by nia.
    replace (Z.to_nat (p * n + i) - length l)%nat with (Z.to_nat ((p - 1) * n + i)) by nia.
    rewrite IH; [|set_solver|lia|done].
    replace (Z.to_nat p) with (S (Z.to_nat (p - 1))) by lia. done.
Qed.

Lemma concat_len {A} (ls : list (list A)) n :
  (forall l, l ∈ ls -> len l = n) -> len (concat ls) = len ls * n.
Proof.
  induction ls as [|l ls IH]; intros Hn; [done|]. cbn [concat].
  rewrite len_app, len_cons, IH, (Hn l) by set_solver. lia.
Qed.

Lemma bind_concat {A B} (f : A -> list B) l : l ≫= f = concat (f <$> l).
Proof. induction l as [|x l IH]; [done|]. cbn. by rewrite <- IH. Qed.

Lemma bind_at {A B} (f : A -> list B) l n p i :
  (forall x, x ∈ l -> len (f x) = n) -> 0 <= p -> 0 <= i < n ->
  at_ (l ≫= f) (p * n + i) = at_ l p ≫= fun x => at_ (f x) i.
Proof.
  intros Hn Hp Hi. rewrite bind_concat, (concat_at _ n); [|set_solver|done|done].
  rewrite list_lookup_fmap. by destruct (at_ l p).
Qed.

Lemma bind_len {A B} (f : A -> list B) l n :
  (forall x, x ∈ l -> len (f x) = n) -> len (l ≫= f) = len l * n.
Proof.
  intros Hn. rewrite bind_concat, (concat_len _ n) by set_solver.
  unfold len. by rewrite length_fmap.
Qed.

(** The loop [for x in range(k): yield from body(x)]. *)
Lemma range_bind_at {B} (f : Z -> list B) k n p i :
  (forall x, 0 <= x < k -> len (f x) = n) -> 0 <= p < k -> 0 <= i < n ->
  at_ (py_range k ≫= f) (p * n + i) = at_ (f p) i.
Proof.
  intros Hn Hp Hi. rewrite (bind_at _ _ n); [|intros x Hx%py_range_elem; auto|lia|done].
  by rewrite py_range_at.
Qed.

Lemma range_bind_len {B} (f : Z -> list B) k n :
  0 <= k -> (forall x, 0 <= x < k -> len (f x) = n) -> len (py_range k ≫= f) = k * n.
Proof.
  intros Hk Hn. rewrite (bind_len _ _ n); [by rewrite py_range_len|].
  intros x Hx%py_range_elem. auto.
Qed.

(** A row of descriptors, one per value of the innermost counter. *)
Lemma range_row_at {B} (f : Z -> B) k i :
  0 <= i < k -> at_ (py_range k ≫= fun x => [f x]) i = Some (f i).
Proof.
  intros Hi. replace i with (i * 1 + 0) at 1 by lia.
  by rewrite (range_bind_at _ k 1) by done.
Qed.

Lemma range_row_len {B} (f : Z -> B) k : 0 <= k -> len (py_range k ≫= fun x => [f x]) = k.
Proof. intros. rewrite (range_bind_len _ k 1) by done. lia. Qed.

(** [out.extend] in a loop. *)
Lemma extend_all_inv {A B} (f : A -> res (list B)) l k :
  extend_all f l = Ok k -> exists ks, mapM f l = Ok ks /\ k = concat ks.
Proof. unfold extend_all. intros. res_inv. eauto. Qed.

Lemma mapM_at {A B} (f : A -> res B) l k i x :
  mapM f l = Ok k -> l !! i = Some x -> exists y, k !! i = Some y /\ f x = Ok y.
Proof.
  revert k i. induction l as [|a l IH]; intros k i Hm Hi; [done|]. cbn [mapM] in Hm. res_inv.
  destruct i as [|i]; [injection Hi as ->; eauto|]. destruct (IH _ i eq_refl Hi) as (y & Hy & E'). eauto.
Qed.

Lemma mapM_length {A B} (f : A -> res B) l k : mapM f l = Ok k -> len k = len l.
Proof.
  revert k. induction l as [|a l IH]; intros k Hm; cbn [mapM] in Hm; res_inv; [done|].
  rewrite !len_cons. by rewrite (IH _ eq_refl).
Qed.

Lemma mapM_elem {A B} (f : A -> res B) l k y :
  mapM f l = Ok k -> y ∈ k -> exists x, x ∈ l /\ f x = Ok y.
Proof.
  revert k. induction l as [|a l IH]; intros k Hm Hy; cbn [mapM] in Hm; res_inv.
  { by apply not_elem_of_nil in Hy. }
  apply elem_of_cons in Hy as [->|Hy]; [exists a; set_solver|].
  destruct (IH _ eq_refl Hy) as (x & Hx & E'). exists x. set_solver.
Qed.

Lemma extend_all_at {A B} (f : A -> res (list B)) l k n p i x :
  extend_all f l = Ok k -> (forall a y, a ∈ l -> f a = Ok y -> len y = n) ->
  0 <= p -> at_ l p = Some x -> 0 <= i < n ->
  exists y, f x = Ok y /\ at_ k (p * n + i) = at_ y i.
Proof.
  intros (ks & Hm & ->)%extend_all_inv Hn Hp Hx Hi.
  destruct (mapM_at _ _ _ _ _ Hm Hx) as (y & Hy & Hf). exists y. split; [done|].
  rewrite (concat_at _ n), Hy; [done| |done|done].
  intros r Hr. destruct (mapM_elem _ _ _ _ Hm Hr) as (a & Ha & E). eauto.
Qed.

Lemma extend_all_len {A B} (f : A -> res (list B)) l k n :
  extend_all f l = Ok k -> (forall a y, a ∈ l -> f a = Ok y -> len y = n) ->
  len k = len l * n.
Proof.
  intros (ks & Hm & ->)%extend_all_inv Hn. rewrite (concat_len _ n).
  - by rewrite (mapM_length _ _ _ Hm).
  - intros r Hr. destruct (mapM_elem _ _ _ _ Hm Hr) as (a & Ha & E). eauto.
Qed.

Lemma extend_all_Ok {A B} (f : A -> res (list B)) l :
  (forall x, x ∈ l -> exists y, f x = Ok y) -> exists k, extend_all f l = Ok k.
Proof.
  intros Hf. unfold extend_all. destruct (mapM_total (fun _ _ => True) f l) as (k & -> & _); [|by eexists].
  intros x Hx. destruct (Hf x Hx) as [y Hy]. eauto.
Qed.

(** ** Division *)
Lemma py_floordiv_Ok a b q : py_floordiv a b = Ok q -> b <> 0 /\ q = a / b.
Proof. unfold py_floordiv. destruct (Z.eqb_spec b 0); [done|]. by intros [= <-]. Qed.

Lemma py_mod_Ok a b q : py_mod a b = Ok q -> b <> 0 /\ q = a mod b.
Proof. unfold py_mod. destruct (Z.eqb_spec b 0); [done|]. by intros [= <-]. Qed.

Lemma py_floordiv_pos a b : b <> 0 -> py_floordiv a b = Ok (a / b).
Proof. unfold py_floordiv. by destruct (Z.eqb_spec b 0). Qed.

Lemma py_mod_pos a b : b <> 0 -> py_mod a b = Ok (a mod b).
Proof. unfold py_mod. by destruct (Z.eqb_spec b 0). Qed.

Lemma div_exact a b : b <> 0 -> a mod b = 0 -> a = b * (a / b).
Proof. intros Hb Ha. pose proof (Z.div_mod a b Hb). lia. Qed.

(** ** Folds *)
Lemma foldl_over {A B} (P : A -> Prop) (f : A -> B -> A) s l :
  P s -> (forall s' x, x ∈ l -> P s' -> P (f s' x)) -> P (foldl f s l).
Proof.
  revert s. induction l as [|x l IH]; intros s Hs Hf; [done|]. cbn. apply IH; [|set_solver].
  apply Hf; [set_solver|done].
Qed.

(** [enumerate(l)]. *)
Lemma enumerate_elem {A} (l : list A) i x :
  (i, x) ∈ zip (py_range (len l)) l <-> 0 <= i /\ at_ l i = Some x.
Proof.
  rewrite list_elem_of_lookup. split.
  - intros [k Hk]. apply lookup_zip_Some in Hk as [Hi Hx]. apply lookup_seqZ in Hi as [Hi ?].
    split; [lia|]. by replace (Z.to_nat i) with k by lia.
  - intros [Hi Hx]. exists (Z.to_nat i). apply lookup_zip_Some. split; [|done].
    apply py_range_at. split; [done|]. by apply at_range in Hx.
Qed.

Lemma enumerate_at {A} (l : list A) i x :
  0 <= i -> at_ l i = Some x -> at_ (zip (py_range (len l)) l) i = Some (i, x).
Proof.
  intros Hi Hx. apply lookup_zip_Some. split; [|done]. apply py_range_at.
  split; [done|]. by apply at_range in Hx.
Qed.

Lemma filter_ext_in {A} (P Q : A -> Prop) `{forall x, Decision (P x)} `{forall x, Decision (Q x)}
    (l : list A) : (forall x, x ∈ l -> P x <-> Q x) -> filter P l = filter Q l.
Proof.
  induction l as [|x l IH]; intros Hl; [done|].
  assert (Hi : filter P l = filter Q l) by (apply IH; set_solver).
  destruct (decide (P x)) as [Hp|Hp].
  - rewrite !filter_cons_True; [by rewrite Hi|apply Hl; [by left|done]|done].
  - rewrite !filter_cons_False; [done|intros Hq; by apply Hp, Hl; [left|]|done].
Qed.

(** ** The layers both sides hold *)
Section overlap.
Context `{NixlBase} (w : Worker).

Lemma positions_by_name_at names n i :
  i ∈ default [] (positions_by_name names !! n) -> 0 <= i /\ at_ names i = Some n.
Proof.
  unfold positions_by_name. revert n i.
  apply (foldl_over (fun d : gmap string (list Z) =>
    forall n i, i ∈ default [] (d !! n) -> 0 <= i /\ at_ names i = Some n)).
  - intros n i. rewrite lookup_empty. cbn. by intros ?%not_elem_of_nil.
  - intros d [j x] Hx%enumerate_elem IH n i. cbn [fst snd].
    destruct (decide (x = n)) as [->|Hne].
    + rewrite lookup_insert_eq. cbn. intros [Hi| ->%list_elem_of_singleton]%elem_of_app; auto.
    + rewrite lookup_insert_ne by done. apply IH.
Qed.

(** A pair of the overlap is one layer, held at these two positions. *)
Lemma layer_overlap_same names p l :
  (p, l) ∈ _layer_overlap w names ->
  0 <= p /\ 0 <= l /\ exists n, at_ names p = Some n /\ at_ (local_seen_layer_names w) l = Some n.
Proof.
  unfold _layer_overlap. revert p l.
  apply (foldl_over (fun acc : gmap string nat * list (Z * Z) => forall p l, (p, l) ∈ acc.2 ->
    0 <= p /\ 0 <= l /\ exists n, at_ names p = Some n /\ at_ (local_seen_layer_names w) l = Some n)).
  - intros p l ?%not_elem_of_nil. done.
  - intros [occ pairs] [j x] [Hj Hx]%enumerate_elem IH p l. unfold layer_overlap_step. cbn [fst snd].
    set (ms := default [] (positions_by_name _ !! x)).
    destruct (ms !! default 0%nat (occ !! x)) as [i|] eqn:Ei; [|apply IH]. cbn [snd].
    intros [Hin|[= -> ->]%list_elem_of_singleton]%elem_of_app; [by apply IH|].
    apply list_elem_of_lookup_2 in Ei. apply positions_by_name_at in Ei as [? ?]. eauto.
Qed.
End overlap.

(** ** The region ids, filtered and nested *)

Lemma filter_all {A} (P : A -> Prop) `{forall x, Decision (P x)} (l : list A) :
  (forall x, x ∈ l -> P x) -> filter P l = l.
Proof.
  induction l as [|x l IH]; intros Hl; [done|]. rewrite filter_cons_True by (apply Hl; set_solver).
  rewrite IH; [done|set_solver].
Qed.

Lemma seqZ_block c n : 0 <= c -> 0 <= n ->
  seqZ 0 (c * n) = seqZ 0 c ≫= fun i => (fun a => i * n + a) <$> seqZ 0 n.
Proof.
  intros Hc Hn. pattern c. apply natlike_ind; [done| |done]. clear c Hc. intros c Hc IH.
  replace (Z.succ c * n) with (c * n + n) by lia. rewrite seqZ_app, IH by nia.
  replace (Z.succ c) with (c + 1) by lia. rewrite (seqZ_app 0 c 1) by lia. rewrite bind_app. f_equal.
  change (seqZ (0 + c) 1) with [Z.of_nat 0 + (0 + c)]. cbn [mbind list_bind]. rewrite app_nil_r.
  replace (0 + c * n) with (c * n + 0) by lia. rewrite <- (fmap_add_seqZ (c * n) 0).
  apply list_fmap_ext. intros i x _. lia.
Qed.

(** The ids [k < c * n] whose area is wanted, as the nested loops visit them. *)
Lemma areas_filter c n (wanted : list Z) : 0 <= c -> 0 < n ->
  (filter (fun ka : Z * Z => ka.2 ∈ wanted) ((fun k => (k, k mod n)) <$> py_range (c * n))).*1 =
  py_range c ≫= fun i => (fun a => i * n + a) <$> filter (fun a => a ∈ wanted) (py_range n).
Proof.
  intros Hc Hn. unfold py_range. rewrite seqZ_block by lia. induction (seqZ 0 c) as [|i l IH]; [done|].
  cbn [mbind list_bind]. rewrite fmap_app, filter_app, fmap_app, IH. f_equal. clear IH.
  assert (Hb : forall a, a ∈ seqZ 0 n -> 0 <= a < n) by (intros a Ha; apply elem_of_seqZ in Ha; lia).
  induction (seqZ 0 n) as [|a k IHk]; [done|]. cbn [fmap list_fmap].
  assert (Hm : (i * n + a) mod n = a).
  { rewrite Z.add_comm, Z_mod_plus_full. apply Z.mod_small, Hb. by left. }
  rewrite Hm. destruct (decide (a ∈ wanted)) as [Ha|Ha].
  - rewrite !filter_cons_True by done. cbn. f_equal. apply IHk. intros b Hb0. apply Hb. by right.
  - rewrite !filter_cons_False by done. apply IHk. intros b Hb0. apply Hb. by right.
Qed.

Section region_ids.
Context `{NixlBase} (w : Worker).

(** The areas of a peer as the region ids and the descriptor loop both visit them. *)
Definition in_order (areas : Z) (peer_areas : option (list Z)) : Prop :=
  match peer_areas with
  | None => True
  | Some l => l = filter (fun a => a ∈ l) (py_range areas)
  end.

Lemma keep_nested rpl c peer_areas keep :
  0 < kv_areas w -> 0 <= c -> rpl = c * kv_areas w -> in_order (kv_areas w) peer_areas ->
  match peer_areas with
  | None => Ok (py_range rpl)
  | Some wanted =>
      ks ← mapM (fun k => a ← py_mod k (kv_areas w); Ok (k, a)) (py_range rpl);
      Ok (filter (fun ka : Z * Z => ka.2 ∈ wanted) ks).*1
  end = Ok keep ->
  keep = py_range c ≫= fun i =>
    (fun a => i * kv_areas w + a) <$> default (py_range (kv_areas w)) peer_areas.
Proof.
  intros Ha Hc -> Hord Hk. destruct peer_areas as [l|]; cbn [default].
  - rewrite (mapM_Ok _ (fun k => (k, k mod kv_areas w))) in Hk.
    2: { intros k _. by rewrite py_mod_pos by lia. }
    cbn [mbind res_bind] in Hk. injection Hk as <-. rewrite areas_filter by lia.
    cbn in Hord. by rewrite <- Hord.
  - injection Hk as <-. unfold py_range. rewrite seqZ_block by lia. done.
Qed.

(** The region ids of the local list and the loops of the remote list visit the same
    regions, in the same order. *)
Lemma region_ids_nested names peer_areas rids pairs :
  0 < kv_areas w -> (forall rpl, _regions_per_layer w = Ok rpl -> (kv_areas w | rpl)) ->
  0 <= num_regions w ->
  in_order (kv_areas w) peer_areas ->
  _shard_local_region_ids w names peer_areas = Ok rids ->
  _logical_region_pairs w (Some names) = Ok pairs ->
  rids = pairs ≫= fun lr : Z * Z =>
    (fun a => lr.1 * kv_areas w + a) <$> default (py_range (kv_areas w)) peer_areas.
Proof.
  intros Ha Hdiv Hnn Hord Hr Hp. unfold _shard_local_region_ids in Hr. unfold _logical_region_pairs in Hp.
  destruct (_regions_per_layer w) as [rpl|] eqn:Erpl; [|done]. cbn [mbind res_bind] in Hr, Hp.
  destruct (Hdiv rpl eq_refl) as [c Hc].
  assert (Hc0 : 0 <= c).
  { unfold _regions_per_layer in Erpl. res_inv. apply py_floordiv_Ok in Erpl as [? Hq]. zbool.
    assert (0 <= c * kv_areas w) by (rewrite Hq; apply Z.div_pos; lia). nia. }
  rewrite py_floordiv_pos in Hp by lia. cbn [mbind res_bind] in Hp.
  injection Hp as <-. rewrite Hc, Z.div_mul by lia.
  match type of Hr with mbind _ ?k = _ => destruct k as [keep|] eqn:Ek; [|done] end.
  cbn [mbind res_bind] in Hr. injection Hr as <-.
  apply (keep_nested _ c) in Ek; [|done|done|done|done]. subst keep.
  induction (_layer_overlap w names) as [|[p l] o IH]; [done|].
  cbn [mbind list_bind] in IH |- *. rewrite IH, bind_app. f_equal. clear IH.
  induction (py_range c) as [|i k IH]; [done|]. cbn [mbind list_bind].
  rewrite bind_app, IH. change ([?x] ++ ?y) with (x :: y). cbn [mbind list_bind]. f_equal. clear IH.
  induction (default (py_range (kv_areas w)) peer_areas) as [|a as_ IHa]; [done|].
  cbn [fmap list_fmap mbind list_bind] in *. rewrite IHa. cbn [app fst]. f_equal. nia.
Qed.
End region_ids.
