(* ===== verification/KvBands.v ===== *)
(** * KV transfer: head bands

    What a byte of a registered region is, which descriptors the two lists hold, and why
    the descriptors of one region name the same bytes on both sides. *)
From S2P Require Import Prelude KvTransfer KvLayout.

(** ** Which byte of the cache an offset is

    An area's block holds [kv_per_block] halves (K and V, or the one of the two), a half its
    heads from [first] on, a head its bytes.  The answer is the half, the model-wide head
    and the offset inside the head. *)
Definition byte_id (kv_per_block first heads length x : Z) : Z * Z * Z :=
  let half := length / kv_per_block in
  let head := half / heads in
  (x / half, first + (x mod half) / head, (x mod half) mod head).

Lemma byte_id_at kvpb first heads hb half y :
  0 < kvpb -> 0 < heads -> 0 < hb -> 0 <= y < heads * hb ->
  byte_id kvpb first heads (kvpb * (heads * hb)) (half * (heads * hb) + y) =
  (half, first + y / hb, y mod hb).
Proof.
  intros Hk Hh Hb Hy. unfold byte_id. rewrite (Z.mul_comm kvpb), Z.div_mul by lia.
  rewrite (Z.mul_comm heads hb), Z.div_mul by lia. assert (0 < hb * heads) by nia.
  rewrite (Z.add_comm _ y), Z.div_add, Z_mod_plus_full, Z.div_small, Z.mod_small by lia. done.
Qed.

Lemma mul_div_l a b : a <> 0 -> a * b / a = b.
Proof. intros. rewrite Z.mul_comm. by apply Z.div_mul. Qed.

(** ** Head bands *)
Section bands.
Context (rank tp total areas slices base per_slice : Z).
Hypothesis bounds : _slice_head_bounds rank tp total areas slices = Ok (base, per_slice).

Lemma slice_head_bounds_inv :
  tp <> 0 /\ 0 < slices /\ areas mod slices = 0 /\
  total = tp * (slices * per_slice) /\ base = rank * (slices * per_slice).
Proof.
  unfold _slice_head_bounds in bounds.
  destruct (py_mod total tp) as [r|] eqn:Em; [|done]. cbn [mbind res_bind] in bounds.
  apply py_mod_Ok in Em as [Htp ->].
  destruct (Z.eqb_spec (total mod tp) 0) as [Hm|]; [|done]. cbn [negb] in bounds.
  rewrite py_floordiv_pos in bounds by done. cbn [mbind res_bind] in bounds.
  destruct (Z.leb_spec slices 0); [done|]. cbn [orb] in bounds.
  destruct (Z.eqb_spec (total / tp mod slices) 0) as [Hs|]; [|done]. cbn [negb] in bounds.
  destruct (Z.eqb_spec (areas mod slices) 0) as [Ha|]; [|done]. cbn [negb] in bounds.
  injection bounds as <- <-. apply div_exact in Hm; [|done]. apply div_exact in Hs; [|lia].
  repeat split; [done|done|done| |]; congruence.
Qed.
End bands.

(** The bands exist for every rank once they exist for one. *)
Lemma slice_head_bounds_any rank rank' tp total areas slices base per_slice :
  _slice_head_bounds rank tp total areas slices = Ok (base, per_slice) ->
  _slice_head_bounds rank' tp total areas slices = Ok (rank' * (slices * per_slice), per_slice).
Proof.
  intros Hb. pose proof (slice_head_bounds_inv _ _ _ _ _ _ _ Hb) as (Htp & Hs & Ha & Ht & Hbase).
  unfold _slice_head_bounds in *. rewrite py_mod_pos in * by done. cbn [mbind res_bind] in *.
  assert (Hq : total / tp = slices * per_slice) by (rewrite Ht, Z.mul_comm, Z.div_mul; lia).
  rewrite py_floordiv_pos in * by done. cbn [mbind res_bind] in *. rewrite Hq in *.
  destruct (negb _); [done|]. destruct (_ || _); [done|]. destruct (negb _); [done|].
  injection Hb as _ Hp. by rewrite Hp.
Qed.

Lemma head_split_inv cuts_l cuts_r split :
  0 < cuts_l -> _head_split cuts_l cuts_r = Ok split ->
  0 < split /\ (cuts_r <= cuts_l /\ split = 1 \/ cuts_l < cuts_r /\ cuts_r = split * cuts_l).
Proof.
  unfold _head_split. intros Hl. destruct (Z.leb_spec cuts_r cuts_l); [intros [= <-]; lia|].
  rewrite py_mod_pos by lia. cbn [mbind res_bind].
  destruct (Z.eqb_spec (cuts_r mod cuts_l) 0) as [Hm|]; [|done]. cbn [negb].
  rewrite py_floordiv_pos by lia. intros [= <-]. apply div_exact in Hm; [|lia]. nia.
Qed.

(** ** The remote descriptors of one region *)
Lemma remote_piece_inv bases lens region within per_slice sub_len runs p :
  remote_piece bases lens region within per_slice sub_len runs = Ok p -> 0 <= region ->
  exists page base, at_ lens region = Some page /\ at_ bases region = Some base /\
    runs <> 0 /\ per_slice <> 0 /\ page mod runs = 0 /\ (page / runs) mod per_slice = 0 /\
    sub_len + within * (page / runs / per_slice) <= page / runs /\
    p = (base + within * (page / runs / per_slice), page).
Proof.
  unfold remote_piece. intros Hp Hr. rewrite !py_nth_at in Hp by done. res_inv.
  apply py_mod_Ok in E0 as [Hruns ->]. zbool.
  match goal with E : py_floordiv a runs = Ok _ |- _ => apply py_floordiv_Ok in E as [_ ->] end.
  match goal with E : py_mod _ per_slice = Ok _ |- _ => apply py_mod_Ok in E as [Hps ->] end.
  match goal with E : py_floordiv _ per_slice = Ok _ |- _ => apply py_floordiv_Ok in E as [_ ->] end.
  eexists _, _. repeat split; try eassumption; lia.
Qed.

(** Rows of descriptors. *)
Lemma row_index split fanout runs j k kv :
  0 <= j < split -> 0 <= k < fanout -> 0 <= kv < runs ->
  0 <= (j * fanout + k) * runs + kv < split * fanout * runs.
Proof.
  intros. assert (0 <= j * fanout + k < split * fanout) by nia.
  generalize dependent (j * fanout + k). generalize (split * fanout). intros. nia.
Qed.

Lemma row_split split fanout runs i :
  0 < fanout -> 0 < runs -> 0 <= i < split * fanout * runs ->
  exists j k kv, 0 <= j < split /\ 0 <= k < fanout /\ 0 <= kv < runs /\ i = (j * fanout + k) * runs + kv.
Proof.
  intros Hf Hr Hi. exists (i / runs / fanout), ((i / runs) mod fanout), (i mod runs).
  pose proof (Z.div_mod i runs ltac:(lia)). pose proof (Z.mod_pos_bound i runs Hr).
  pose proof (Z.div_mod (i / runs) fanout ltac:(lia)). pose proof (Z.mod_pos_bound (i / runs) fanout Hf).
  assert (0 <= i / runs < split * fanout) by (split; [apply Z.div_pos; lia|apply Z.div_lt_upper_bound; lia]).
  repeat split; try lia; [apply Z.div_pos; lia|apply Z.div_lt_upper_bound; lia].
Qed.

Lemma block_rows_len pieces nb runs sub_len dev : 0 <= nb -> 0 <= runs ->
  len (block_rows pieces nb runs sub_len dev) = nb * (len pieces * runs).
Proof.
  intros. apply range_bind_len; [done|]. intros b _. apply bind_len.
  intros [base page] _. by apply range_row_len.
Qed.

Lemma block_rows_at pieces nb runs sub_len dev b q kv base page :
  0 <= b < nb -> 0 <= q -> at_ pieces q = Some (base, page) -> 0 <= kv < runs ->
  at_ (block_rows pieces nb runs sub_len dev) (b * (len pieces * runs) + (q * runs + kv)) =
  Some (base + b * page + kv * (page / runs), sub_len, dev).
Proof.
  intros Hb Hq Hp Hkv. pose proof (at_range _ _ _ Hq Hp). unfold block_rows.
  rewrite (range_bind_at _ nb (len pieces * runs)); [| |done|nia].
  - rewrite (bind_at _ _ runs), Hp; [|intros [] _; apply range_row_len; lia|done|done].
    cbn [mbind option_bind]. by rewrite range_row_at.
  - intros x _. apply bind_len. intros [] _. apply range_row_len. lia.
Qed.

Lemma head_piece_inv head per_piece base_r ps_r slices_r first rr fanout bases lens sub_len runs j ps :
  head_piece head per_piece base_r ps_r slices_r first rr fanout bases lens sub_len runs j = Ok ps ->
  0 <= fanout -> 0 <= first -> 0 <= rr ->
  let at_head := head + j * per_piece - base_r in
  len ps = fanout /\ ps_r <> 0 /\ 0 <= at_head / ps_r < slices_r /\
  forall k, 0 <= k < fanout ->
    exists page base,
      let region := first + at_head / ps_r * rr + k in
      let offset := at_head mod ps_r * (page / runs / ps_r) in
      at_ lens region = Some page /\ at_ bases region = Some base /\
      page mod runs = 0 /\ (page / runs) mod ps_r = 0 /\ sub_len + offset <= page / runs /\
      at_ ps k = Some (base + offset, page).
Proof.
  intros Hp Hf H1 Hrr at_head. unfold head_piece in Hp. fold at_head in Hp.
  destruct (py_floordiv at_head ps_r) as [s|] eqn:Es; [|done].
  apply py_floordiv_Ok in Es as [Hps ->]. cbn [mbind res_bind] in Hp.
  rewrite py_mod_pos in Hp by done. cbn [mbind res_bind] in Hp.
  match type of Hp with (if negb ?c then _ else _) = _ => destruct c eqn:Ec; [|done] end.
  cbn [negb] in Hp. apply andb_true_iff in Ec as [? ?]. zbool.
  split; [by rewrite (mapM_length _ _ _ Hp), py_range_len|]. split; [done|]. split; [lia|].
  intros k Hk. destruct (mapM_at _ _ _ (Z.to_nat k) k Hp) as (p & Hpk & Hpiece); [by apply py_range_at|].
  apply remote_piece_inv in Hpiece; [|nia].
  destruct Hpiece as (page & base & Hpage & Hbase & _ & _ & Hm1 & Hm2 & Hfit & ->).
  by exists page, base.
Qed.

Section descs.
Context `{NixlBase} (w : Worker).

Lemma head_matched_desc_inv region_id logical_r area_l base_l ps_l rl base_r ps_r rr slices_r
    areas_r bases lens dev nb split runs out :
  _head_matched_desc w region_id logical_r area_l (base_l, ps_l, rl) (base_r, ps_r, rr, slices_r)
    areas_r bases lens dev nb split runs = Ok out ->
  let fanout := if writes_into_peer w then rr else 1 in
  0 < split -> 0 < fanout -> 0 < runs -> 0 <= logical_r * areas_r -> 0 <= rr ->
  exists desc_len pieces,
    let head := base_l + area_l / rl * ps_l in
    let turn := head_piece head (ps_l / split) base_r ps_r slices_r (logical_r * areas_r) rr fanout
                  bases lens (desc_len / runs / split) runs in
    get_backend_aware_kv_block_len w region_id = Ok desc_len /\ rl <> 0 /\
    extend_all turn (py_range split) = Ok pieces /\ len pieces = split * fanout /\
    (forall j row, j ∈ py_range split -> turn j = Ok row -> len row = fanout) /\
    out = block_rows pieces nb runs (desc_len / runs / split) dev.
Proof.
  intros Hd fanout Hsp Hf Hru Hl Hrr. unfold _head_matched_desc in Hd.
  destruct (py_floordiv area_l rl) as [q|] eqn:Eq; [|done]. cbn [mbind res_bind] in Hd.
  apply py_floordiv_Ok in Eq as [Hrl ->].
  destruct (get_backend_aware_kv_block_len w region_id) as [dl|] eqn:Edl; [|done].
  cbn [mbind res_bind] in Hd. do 3 (rewrite py_floordiv_pos in Hd by lia; cbn [mbind res_bind] in Hd).
  fold fanout in Hd.
  match type of Hd with mbind _ (extend_all ?f _) = _ => set (turn := f) in Hd end.
  destruct (extend_all turn (py_range split)) as [pieces|] eqn:Ep; [|done].
  cbn [mbind res_bind] in Hd. injection Hd as <-. exists dl, pieces. cbn zeta.
  assert (Hrow : forall j row, j ∈ py_range split -> turn j = Ok row -> len row = fanout).
  { intros j row _ Hr. by apply head_piece_inv in Hr as (? & _); [|lia..]. }
  repeat split; try done. rewrite (extend_all_len _ _ _ _ Ep Hrow), py_range_len; lia.
Qed.

Lemma head_matched_desc_len region_id logical_r area_l base_l ps_l rl base_r ps_r rr slices_r
    areas_r bases lens dev nb split runs out :
  _head_matched_desc w region_id logical_r area_l (base_l, ps_l, rl) (base_r, ps_r, rr, slices_r)
    areas_r bases lens dev nb split runs = Ok out ->
  let fanout := if writes_into_peer w then rr else 1 in
  0 < split -> 0 < fanout -> 0 < runs -> 0 <= logical_r * areas_r -> 0 <= rr -> 0 <= nb ->
  len out = nb * (split * fanout * runs).
Proof.
  intros Hd fanout Hsp Hf Hru Hl Hrr Hnb. apply head_matched_desc_inv in Hd; [|done..].
  destruct Hd as (dl & pieces & _ & _ & _ & Hpl & _ & ->). rewrite block_rows_len by lia.
  by rewrite Hpl.
Qed.

(** What a descriptor of the remote list is: block [b], piece [j], copy [k], half [kv]. *)
Lemma head_matched_desc_at region_id logical_r area_l base_l ps_l rl base_r ps_r rr slices_r
    areas_r bases lens dev nb split runs out b j k kv :
  _head_matched_desc w region_id logical_r area_l (base_l, ps_l, rl) (base_r, ps_r, rr, slices_r)
    areas_r bases lens dev nb split runs = Ok out ->
  let fanout := if writes_into_peer w then rr else 1 in
  0 < split -> 0 < fanout -> 0 < runs -> 0 <= logical_r * areas_r -> 0 <= rr ->
  0 <= b < nb -> 0 <= j < split -> 0 <= k < fanout -> 0 <= kv < runs ->
  exists desc_len page base,
    let head := base_l + area_l / rl * ps_l in
    let at_head := head + j * (ps_l / split) - base_r in
    let region := logical_r * areas_r + at_head / ps_r * rr + k in
    let sub_len := desc_len / runs / split in
    let offset := at_head mod ps_r * (page / runs / ps_r) in
    get_backend_aware_kv_block_len w region_id = Ok desc_len /\
    0 <= at_head / ps_r < slices_r /\ ps_r <> 0 /\ rl <> 0 /\
    at_ lens region = Some page /\ at_ bases region = Some base /\
    page mod runs = 0 /\ (page / runs) mod ps_r = 0 /\ sub_len + offset <= page / runs /\
    at_ out (b * (split * fanout * runs) + ((j * fanout + k) * runs + kv)) =
      Some (base + offset + b * page + kv * (page / runs), sub_len, dev).
Proof.
  intros Hd fanout Hsp Hf Hru Hl Hrr Hb Hj Hk Hkv. apply head_matched_desc_inv in Hd; [|done..].
  fold fanout in Hd. destruct Hd as (dl & pieces & Hdl & Hrl & Ep & Hpl & Hrow & ->).
  destruct (extend_all_at _ _ _ _ j k j Ep Hrow) as (row & Hj' & Hat); [lia|by apply py_range_at|done|].
  apply head_piece_inv in Hj' as (_ & Hps & Hsl & Hpiece); [|lia..].
  destruct (Hpiece k Hk) as (page & base & Hpage & Hbase & Hm1 & Hm2 & Hfit & Hpk).
  rewrite Hpk in Hat. exists dl, page, base. cbn zeta. do 9 (split; [done|]). rewrite <- Hpl.
  apply block_rows_at; [done|nia|done|done].
Qed.

Lemma local_rows_len base stride kv_stride sub_len nb split fanout runs dev :
  0 <= nb -> 0 <= split -> 0 <= fanout -> 0 <= runs ->
  len (local_rows base stride kv_stride sub_len nb split fanout runs dev) = nb * (split * fanout * runs).
Proof.
  intros. apply range_bind_len; [done|]. intros b _.
  rewrite (range_bind_len _ _ (fanout * runs)); [lia|done|]. intros j _.
  apply range_bind_len; [done|]. intros k _. by apply range_row_len.
Qed.

Lemma local_rows_at base stride kv_stride sub_len nb split fanout runs dev b j k kv :
  0 <= b < nb -> 0 <= j < split -> 0 <= k < fanout -> 0 <= kv < runs ->
  at_ (local_rows base stride kv_stride sub_len nb split fanout runs dev)
    (b * (split * fanout * runs) + ((j * fanout + k) * runs + kv)) =
  Some (base + b * stride + kv * kv_stride + j * sub_len, sub_len, dev).
Proof.
  intros Hb Hj Hk Hkv. unfold local_rows.
  rewrite (range_bind_at _ nb (split * fanout * runs)); [| |done|by apply row_index].
  2: { intros x _. rewrite (range_bind_len _ _ (fanout * runs)); [lia|lia|]. intros y _.
       apply range_bind_len; [lia|]. intros z _. apply range_row_len. lia. }
  replace ((j * fanout + k) * runs + kv) with (j * (fanout * runs) + (k * runs + kv)) by lia.
  rewrite (range_bind_at _ split (fanout * runs)); [| |done|nia].
  2: { intros y _. apply range_bind_len; [lia|]. intros z _. apply range_row_len. lia. }
  rewrite (range_bind_at _ fanout runs); [|intros z _; apply range_row_len; lia|done|done].
  by rewrite range_row_at.
Qed.

(** What a descriptor of the local list is, for a peer of our block size. *)
Lemma shard_local_descs_at pbs split rids fanout runs out p rid b j k kv :
  shard_local_descs w pbs split rids fanout runs = Ok out -> block_size w / pbs = 1 ->
  0 <= p -> at_ rids p = Some rid -> 0 <= rid ->
  0 <= b < num_blocks w -> 0 <= j < split -> 0 <= k < fanout -> 0 <= kv < runs ->
  exists base full stride,
    at_ (base_addrs w) rid = Some base /\ get_backend_aware_kv_block_len w rid = Ok full /\
    at_ (block_len_per_layer w) rid = Some stride /\
    at_ out (p * (num_blocks w * (split * fanout * runs)) +
             (b * (split * fanout * runs) + ((j * fanout + k) * runs + kv))) =
      Some (base + b * stride + kv * (full / runs) + j * (full / runs / split),
            full / runs / split, device_id w).
Proof.
  intros Hd Hratio Hp Hrid Hr0 Hb Hj Hk Hkv.
  pose proof (row_index _ _ _ _ _ _ Hj Hk Hkv) as Hi. unfold shard_local_descs in Hd.
  destruct (negb (has_mamba w)); [|done]. cbn [require mbind res_bind] in Hd.
  destruct (py_floordiv (block_size w) pbs) as [r|] eqn:Er; [|done].
  apply py_floordiv_Ok in Er as [_ ->]. cbn [mbind res_bind] in Hd. rewrite Hratio, Z.mul_1_r in Hd.
  eapply (extend_all_at _ _ _ (num_blocks w * (split * fanout * runs))) in Hd as (row & Hrow & ->);
    [|intros a y _ Hy|done|exact Hrid|nia].
  2: { clear Hi. cbn beta in Hy. res_inv. apply local_rows_len; lia. }
  cbn beta in Hrow. rewrite !py_nth_at in Hrow by done. res_inv.
  repeat match goal with E : py_floordiv _ _ = Ok _ |- _ => apply py_floordiv_Ok in E as [_ ->] end.
  eexists _, _, _. do 3 (split; [reflexivity|]). rewrite !Z.div_1_r. by apply local_rows_at.
Qed.
End descs.

(** ** What the memory of a side holds

    A side registers, for every layer in order, its parts (K and V as two regions, or both
    as one), each cut into chiplet areas. *)
Record Side := {
  s_names : list string;
  s_bases : list Z;
  s_lens : list Z;
  s_areas : Z;
  s_slices : Z;
  s_tp_rank : Z;
  s_tp_size : Z;
  s_kv_per_block : Z
}.

Definition parts (s : Side) : Z := 2 / s_kv_per_block s.

(** The heads of an area: the first one, and how many. *)
Definition slice_heads (s : Side) (total : Z) : Z := total / s_tp_size s / s_slices s.
Definition first_head (s : Side) (total area : Z) : Z :=
  s_tp_rank s * (total / s_tp_size s) + area / (s_areas s / s_slices s) * slice_heads s total.

(** Address [addr] is a byte of block [block]: of this layer, part, half, head and offset.
    [heads] gives a layer's model-wide KV heads. *)
Definition holds (s : Side) (heads : string -> Z) (addr block : Z)
    (id : string * Z * (Z * Z * Z)) : Prop :=
  let '(layer, part, byte) := id in
  exists pos area base length x,
    0 <= pos /\ at_ (s_names s) pos = Some layer /\ 0 <= part < parts s /\
    0 <= area < s_areas s /\
    at_ (s_bases s) ((pos * parts s + part) * s_areas s + area) = Some base /\
    at_ (s_lens s) ((pos * parts s + part) * s_areas s + area) = Some length /\
    0 <= x < length /\ addr = base + block * length + x /\
    byte = byte_id (s_kv_per_block s) (first_head s (heads layer) area)
             (slice_heads s (heads layer)) length x.

Definition local_side (w : Worker) : Side := {|
  s_names := local_seen_layer_names w; s_bases := base_addrs w; s_lens := block_len_per_layer w;
  s_areas := kv_areas w; s_slices := kv_slices w; s_tp_rank := tp_rank w; s_tp_size := tp_size w;
  s_kv_per_block := kv_per_block w
|}.

Definition peer_side (m : RblnNixlAgentMetadata) (tp_rank tp_size : Z) : Side := {|
  s_names := m_registered_layer_names m; s_bases := m_kv_caches_base_addr m;
  s_lens := m_block_lens m; s_areas := m_kv_areas m; s_slices := m_kv_slices m;
  s_tp_rank := tp_rank; s_tp_size := tp_size; s_kv_per_block := m_kv_per_block m
|}.

(** What registration establishes on a side: the regions are those of its layers, and the
    areas of a part have blocks of one length. *)
Record registered (s : Side) : Prop := {
  reg_kv : s_kv_per_block s = 1 \/ s_kv_per_block s = 2;
  reg_areas : 0 < s_areas s;
  reg_tp : 0 < s_tp_size s;
  reg_bases : len (s_bases s) = len (s_names s) * parts s * s_areas s;
  reg_lens : len (s_lens s) = len (s_names s) * parts s * s_areas s;
  reg_even : forall r area, 0 <= r -> 0 <= area < s_areas s ->
    at_ (s_lens s) (r * s_areas s + area) = at_ (s_lens s) (r * s_areas s)
}.

(** And on our own side, of which the code knows more: the head counts are by layer, and where
    the slices of a part divide its heads evenly, a block has the length of its heads. *)
Record worker_ok (w : Worker) (heads : string -> Z) : Prop := {
  w_registered : registered (local_side w);
  w_num_regions : num_regions w = len (block_len_per_layer w);
  w_layers : local_seen_layer_names w <> [];
  w_blocks : 0 <= num_blocks w;
  w_block_size : 0 < block_size w;
  w_not_viewed : viewed_region_ids w = None;
  w_heads : forall l part n total, 0 <= l -> 0 <= part < parts (local_side w) ->
    at_ (local_seen_layer_names w) l = Some n ->
    at_ (logical_region_kv_heads w) (l * parts (local_side w) + part) = Some (Some total) ->
    total = heads n /\ 0 < total;
  w_bytes : forall l part n total length per_slice, 0 <= l -> 0 <= part < parts (local_side w) ->
    at_ (local_seen_layer_names w) l = Some n ->
    at_ (logical_region_kv_heads w) (l * parts (local_side w) + part) = Some (Some total) ->
    heads n = tp_size w * (kv_slices w * per_slice) ->
    at_ (block_len_per_layer w) ((l * parts (local_side w) + part) * kv_areas w) = Some length ->
    exists head_bytes, 0 < head_bytes /\ length = kv_per_block w * (per_slice * head_bytes)
}.

(** ** One descriptor on each side: the same bytes *)

Lemma side_heads (s : Side) total base per_slice :
  0 < s_tp_size s -> 0 < s_slices s ->
  total = s_tp_size s * (s_slices s * per_slice) -> base = s_tp_rank s * (s_slices s * per_slice) ->
  slice_heads s total = per_slice /\
  forall area, first_head s total area = base + area / (s_areas s / s_slices s) * per_slice.
Proof.
  intros Htp Hs Ht Hb.
  assert (Hq : total / s_tp_size s = s_slices s * per_slice) by (rewrite Ht, Z.mul_comm, Z.div_mul; lia).
  assert (Hh : slice_heads s total = per_slice).
  { unfold slice_heads. rewrite Hq, Z.mul_comm, Z.div_mul; lia. }
  split; [done|]. intros area. unfold first_head. rewrite Hh, Hq. lia.
Qed.

Lemma piece_pos kvpb runs split hb per_l per_r :
  0 < kvpb -> 0 < per_l -> 0 < per_r -> 0 < hb -> 0 < split ->
  runs = kvpb \/ runs = 1 /\ per_l = per_r -> split = 1 \/ per_l = split * per_r ->
  0 < kvpb * (per_l * hb) / runs / split.
Proof.
  intros Hk Hl Hr Hb Hsp Hruns Hsplit. assert (0 < per_l * hb) by nia.
  destruct Hruns as [->|[-> E]].
  - rewrite mul_div_l by lia. destruct Hsplit as [->|E]; [by rewrite Z.div_1_r|].
    rewrite E, <- Z.mul_assoc, mul_div_l by lia. nia.
  - assert (split = 1) as -> by nia. rewrite !Z.div_1_r. nia.
Qed.

(** The piece [j] of our area and the run of the peer's slice it is matched with. *)
Lemma same_byte kvpb runs split hb first_l per_l base_r per_r j kv x :
  let at_head := first_l + j * (per_l / split) - base_r in
  let sub_len := kvpb * (per_l * hb) / runs / split in
  let page := kvpb * (per_r * hb) in
  let offset := at_head mod per_r * (page / runs / per_r) in
  0 < kvpb -> 0 < per_l -> 0 < per_r -> 0 < hb -> 0 < split ->
  runs = kvpb \/ runs = 1 /\ per_l = per_r ->
  split = 1 \/ per_l = split * per_r ->
  0 <= j < split -> 0 <= kv < runs -> sub_len + offset <= page / runs -> 0 <= x < sub_len ->
  let off_l := kv * (kvpb * (per_l * hb) / runs) + j * sub_len in
  let off_r := offset + kv * (page / runs) in
  0 <= off_l /\ off_l + sub_len <= kvpb * (per_l * hb) /\ 0 <= off_r /\ off_r + sub_len <= page /\
  byte_id kvpb first_l per_l (kvpb * (per_l * hb)) (off_l + x) =
  byte_id kvpb (base_r + at_head / per_r * per_r) per_r page (off_r + x).
Proof.
  intros at_head sub_len page offset Hk Hl Hr Hb Hsp Hruns Hsplit Hj Hkv Hfit Hx off_l off_r.
  pose proof (Z.div_mod at_head per_r ltac:(lia)) as Hdm.
  pose proof (Z.mod_pos_bound at_head per_r Hr) as Hmod.
  assert (Hruns' : 0 < runs) by lia.
  assert (Hpp : per_l = split * (per_l / split)).
  { destruct Hsplit as [->|E]; [by rewrite Z.div_1_r, Z.mul_1_l|].
    rewrite E at 2. rewrite mul_div_l by lia. lia. }
  set (pp := per_l / split) in *.
  destruct (Z.eq_dec runs kvpb) as [Er|Er].
  - assert (Hpr : page / runs = per_r * hb) by (unfold page; rewrite Er; apply mul_div_l; lia).
    assert (Hlr : kvpb * (per_l * hb) / runs = per_l * hb) by (rewrite Er; apply mul_div_l; lia).
    assert (Hsub : sub_len = pp * hb).
    { unfold sub_len. rewrite Hlr, Hpp. replace (split * pp * hb) with (pp * hb * split) by lia.
      apply Z.div_mul. lia. }
    assert (Hoff : offset = at_head mod per_r * hb).
    { unfold offset. rewrite Hpr, mul_div_l by lia. done. }
    unfold off_l, off_r. rewrite Hlr, Hpr, Hoff, Hsub in *. rewrite Er in *.
    assert (Hy : 0 <= j * (pp * hb) + x < per_l * hb) by nia.
    assert (Hz : 0 <= at_head mod per_r * hb + x < per_r * hb) by nia.
    split; [nia|]. split; [nia|]. split; [nia|]. split; [unfold page; nia|].
    rewrite <- Z.add_assoc, byte_id_at by done.
    replace (at_head mod per_r * hb + kv * (per_r * hb) + x)
      with (kv * (per_r * hb) + (at_head mod per_r * hb + x)) by lia.
    unfold page. rewrite byte_id_at by done.
    replace (j * (pp * hb) + x) with (x + j * pp * hb) by lia.
    rewrite !(Z.add_comm _ x), !Z.div_add, !Z_mod_plus_full by lia. do 2 f_equal. lia.
  - destruct Hruns as [?|[E1 E2]]; [done|]. assert (split = 1) by (destruct Hsplit; nia).
    assert (Es : sub_len = page).
    { unfold sub_len, page. rewrite E1, H, !Z.div_1_r. by rewrite E2. }
    assert (Hw : at_head mod per_r = 0).
    { rewrite E1, Z.div_1_r, Es in Hfit. unfold offset in Hfit. rewrite E1, Z.div_1_r in Hfit.
      assert (page / per_r = kvpb * hb); [|nia].
      unfold page. replace (kvpb * (per_r * hb)) with (kvpb * hb * per_r) by lia. rewrite Z.div_mul; lia. }
    assert (Ej : j = 0) by lia. assert (Ek : kv = 0) by lia.
    unfold off_l, off_r, offset. rewrite Hw, Ej, Ek, E2. fold page. rewrite Es.
    split; [lia|]. split; [lia|]. split; [lia|]. split; [lia|].
    replace (base_r + at_head / per_r * per_r) with first_l; [f_equal; lia|].
    unfold at_head in *. rewrite Ej in *. lia.
Qed.

(** ** The handshake's checks, read back *)
Section peer.
Context `{NixlBase} `{!NixlBaseLaws} (w : Worker) (m : RblnNixlAgentMetadata).
Context (heads : string -> Z) (rank rtp : Z).
Hypothesis our_side : worker_ok w heads.
Hypothesis their_side : registered (peer_side m rank rtp).

Abbreviation K := (kv_per_block w).
Abbreviation P := (parts (local_side w)).

Lemma local_names_pos : 0 < len (local_seen_layer_names w).
Proof.
  pose proof (w_layers _ _ our_side). destruct (local_seen_layer_names w); [done|].
  rewrite len_cons. pose proof (len_nonneg l). lia.
Qed.

Lemma parts_pos (s : Side) : registered s -> 0 < parts s.
Proof. intros Hs. unfold parts. by destruct (reg_kv s Hs) as [-> | ->]. Qed.

Lemma regions_per_layer_ok : _regions_per_layer w = Ok (P * kv_areas w).
Proof.
  unfold _regions_per_layer. rewrite (w_num_regions _ _ our_side).
  pose proof (reg_lens _ (w_registered _ _ our_side)) as Hl. cbn [s_lens s_names s_areas local_side] in Hl.
  pose proof local_names_pos as Hn.
  rewrite Hl. replace (len (local_seen_layer_names w) * P * kv_areas w)
    with (P * kv_areas w * len (local_seen_layer_names w)) by lia.
  rewrite Z_mod_mult. destruct (Z.ltb_spec 0 (len (local_seen_layer_names w))); [|lia].
  cbn [andb Z.eqb require mbind res_bind]. rewrite py_floordiv_pos, Z.div_mul by lia. done.
Qed.

Lemma pairs_elem names pairs ll lr :
  _logical_region_pairs w (Some names) = Ok pairs -> (ll, lr) ∈ pairs ->
  exists l p c n, 0 <= l /\ 0 <= p /\ 0 <= c < P /\ ll = l * P + c /\ lr = p * P + c /\
    at_ names p = Some n /\ at_ (local_seen_layer_names w) l = Some n.
Proof.
  unfold _logical_region_pairs. rewrite regions_per_layer_ok. cbn [mbind res_bind].
  pose proof (reg_areas _ (w_registered _ _ our_side)) as Ha. cbn [s_areas local_side] in Ha.
  rewrite py_floordiv_pos, Z.div_mul by lia. cbn [mbind res_bind]. intros [= <-].
  rewrite list_elem_of_bind. intros ([p l] & Hin & Ho). apply list_elem_of_bind in Hin as (c & Hin & Hc).
  apply list_elem_of_singleton in Hin as [= -> ->]. apply py_range_elem in Hc.
  apply layer_overlap_same in Ho as (? & ? & n & ? & ?). by exists l, p, c, n.
Qed.

(** What a validated pair of regions satisfies. *)
Record geometry (ll lr : Z) (n : string) (per_l per_r hb : Z) : Prop := {
  g_slices_l : 0 < kv_slices w;
  g_slices_r : 0 < m_kv_slices m;
  g_areas_l : kv_areas w mod kv_slices w = 0;
  g_areas_r : m_kv_areas m mod m_kv_slices m = 0;
  g_total_l : heads n = tp_size w * (kv_slices w * per_l);
  g_total_r : heads n = rtp * (m_kv_slices m * per_r);
  g_per_l : 0 < per_l;
  g_per_r : 0 < per_r;
  g_hb : 0 < hb;
  g_len_l : at_ (block_len_per_layer w) (ll * kv_areas w) = Some (K * (per_l * hb));
  g_len_r : at_ (m_block_lens m) (lr * m_kv_areas m) = Some (K * (per_r * hb));
  g_bounds_l : _slice_head_bounds (tp_rank w) (tp_size w) (heads n) (kv_areas w) (kv_slices w) =
    Ok (tp_rank w * (kv_slices w * per_l), per_l);
  g_bounds_r : _slice_head_bounds rank rtp (heads n) (m_kv_areas m) (m_kv_slices m) =
    Ok (rank * (m_kv_slices m * per_r), per_r);
  g_heads : _region_kv_heads w ll = Ok (heads n)
}.

Lemma validate_region_inv l p c n :
  0 <= l -> 0 <= p -> 0 <= c < P -> at_ (local_seen_layer_names w) l = Some n ->
  validate_region w m rtp (l * P + c, p * P + c) = Ok tt ->
  exists per_l per_r hb, geometry (l * P + c) (p * P + c) n per_l per_r hb.
Proof.
  intros Hl Hp Hc Hn Hv. unfold validate_region in Hv.
  destruct (_region_kv_heads w (l * P + c)) as [total|] eqn:Eh; [|done]. cbn [mbind res_bind] in Hv.
  assert (Hat : at_ (logical_region_kv_heads w) (l * P + c) = Some (Some total)).
  { unfold _region_kv_heads in Eh. rewrite py_nth_at in Eh by nia.
    destruct (at_ (logical_region_kv_heads w) (l * P + c)) as [[t0|]|]; cbn in Eh; by simplify_eq. }
  destruct (w_heads _ _ our_side l c n total Hl Hc Hn Hat) as [-> Hpos].
  destruct (_slice_head_bounds (tp_rank w) _ _ _ _) as [[bl pl]|] eqn:El; [|done]. cbn [mbind res_bind] in Hv.
  destruct (_slice_head_bounds 0 _ _ _ _) as [[br pr]|] eqn:Er; [|done]. cbn [mbind res_bind fst snd] in Hv.
  pose proof (slice_head_bounds_inv _ _ _ _ _ _ _ El) as (_ & Hsl & Hal & Htl & Hbl).
  pose proof (slice_head_bounds_inv _ _ _ _ _ _ _ Er) as (_ & Hsr & Har & Htr & _).
  pose proof (reg_tp _ (w_registered _ _ our_side)) as Htp. cbn [s_tp_size local_side] in Htp.
  pose proof (reg_tp _ their_side) as Hrtp. cbn [s_tp_size peer_side] in Hrtp.
  pose proof (reg_areas _ (w_registered _ _ our_side)) as Ha. cbn [s_areas local_side] in Ha.
  pose proof (reg_areas _ their_side) as Hra. cbn [s_areas peer_side] in Hra.
  assert (Hll : 0 <= l * P + c) by nia. assert (Hlr : 0 <= p * P + c) by nia.
  rewrite !py_nth_at in Hv by (apply Z.mul_nonneg_nonneg; lia).
  destruct (at_ (block_len_per_layer w) _) as [ln|] eqn:Ell; [|done]. cbn [mbind res_bind of_option] in Hv.
  destruct (at_ (m_block_lens m) _) as [rn|] eqn:Elr; [|done]. cbn [mbind res_bind of_option] in Hv.
  destruct (Z.eqb_spec (ln * pr) (rn * pl)) as [Heq|]; [|done].
  destruct (w_bytes _ _ our_side l c n _ ln pl Hl Hc Hn Hat Htl Ell) as (hb & Hhb & Hln).
  assert (Hpl : 0 < pl) by nia. assert (Hpr : 0 < pr) by nia. exists pl, pr, hb.
  assert (Hrn : rn = K * (pr * hb)) by nia.
  constructor; try done; [congruence|congruence| |].
  - by rewrite <- Hbl.
  - by apply (slice_head_bounds_any 0 rank) in Er.
Qed.

(** The number of pieces and of runs, from the cuts of the two sides. *)
Record cut (split runs : Z) : Prop := {
  c_split : _head_split (tp_size w * kv_slices w) (rtp * m_kv_slices m) = Ok split;
  c_runs : runs = _kv_runs K (tp_size w * kv_slices w) (rtp * m_kv_slices m)
}.

Lemma cut_facts ll lr n per_l per_r hb split runs :
  geometry ll lr n per_l per_r hb -> cut split runs ->
  0 < split /\ 0 < runs /\ (runs = K \/ runs = 1 /\ per_l = per_r) /\
  (split = 1 \/ per_l = split * per_r).
Proof.
  intros G [Hs ->]. pose proof (reg_tp _ (w_registered _ _ our_side)) as Htp. cbn [s_tp_size local_side] in Htp.
  pose proof (reg_tp _ their_side) as Hrtp. cbn [s_tp_size peer_side] in Hrtp.
  destruct G as [? ? _ _ Gl Gr ? ? _ _ _ _ _ _].
  assert (0 < tp_size w * kv_slices w) by nia.
  apply head_split_inv in Hs as [Hsp Hs]; [|done]. split; [done|].
  pose proof (reg_kv _ (w_registered _ _ our_side)) as HK. cbn [s_kv_per_block local_side] in HK.
  unfold _kv_runs. destruct (Z.eqb_spec (tp_size w * kv_slices w) (rtp * m_kv_slices m)); cbn [negb];
    (split; [lia|]); (split; [|destruct Hs as [[? ->]|[? ?]]; [by left|right; nia]]); [right|by left].
  split; [done|nia].
Qed.

Definition fanout : Z := if writes_into_peer w then m_kv_areas m / m_kv_slices m else 1.

Lemma fanout_bounds : 0 < m_kv_slices m -> m_kv_areas m mod m_kv_slices m = 0 ->
  0 < fanout <= m_kv_areas m / m_kv_slices m.
Proof.
  intros Hs Hm. pose proof (reg_areas _ their_side) as Ha. cbn [s_areas peer_side] in Ha.
  apply div_exact in Hm; [|lia]. assert (0 < m_kv_areas m / m_kv_slices m) by nia.
  unfold fanout. destruct (writes_into_peer w); lia.
Qed.

Lemma our_block_len rid full stride :
  0 <= rid -> get_backend_aware_kv_block_len w rid = Ok full ->
  at_ (block_len_per_layer w) rid = Some stride -> full = stride.
Proof.
  intros Hr Hf Hs. unfold get_backend_aware_kv_block_len, _viewed_region in Hf.
  rewrite (w_not_viewed _ _ our_side) in Hf. cbn [mbind res_bind] in Hf.
  rewrite (kv_block_len_registered w rid stride Hr Hs) in Hf. by injection Hf.
Qed.

Lemma local_holds l p c n per_l per_r hb area base length bl off :
  geometry (l * P + c) (p * P + c) n per_l per_r hb ->
  0 <= l -> 0 <= c < P -> at_ (local_seen_layer_names w) l = Some n -> 0 <= area < kv_areas w ->
  at_ (base_addrs w) ((l * P + c) * kv_areas w + area) = Some base ->
  at_ (block_len_per_layer w) ((l * P + c) * kv_areas w + area) = Some length -> 0 <= off < length ->
  forall addr, addr = base + bl * length + off ->
  holds (local_side w) heads addr bl
    (n, c, byte_id K (tp_rank w * (kv_slices w * per_l) + area / (kv_areas w / kv_slices w) * per_l)
             per_l length off).
Proof.
  intros G Hl Hc Hn Ha Hb Hlen Hoff addr ->.
  destruct (side_heads (local_side w) (heads n) (tp_rank w * (kv_slices w * per_l)) per_l) as [Hs Hf];
    [apply (reg_tp _ (w_registered _ _ our_side))|apply G|apply G|done|].
  exists l, area, base, length, off. cbn [s_names s_bases s_lens s_areas s_kv_per_block local_side].
  rewrite Hs, Hf. do 8 (split; [done|]). done.
Qed.

Lemma peer_holds l p c n per_l per_r hb s k base length br off :
  geometry (l * P + c) (p * P + c) n per_l per_r hb -> m_kv_per_block m = K ->
  0 <= p -> 0 <= c < P -> at_ (m_registered_layer_names m) p = Some n ->
  0 <= s < m_kv_slices m -> 0 <= k < m_kv_areas m / m_kv_slices m ->
  let region := (p * P + c) * m_kv_areas m + (s * (m_kv_areas m / m_kv_slices m) + k) in
  at_ (m_kv_caches_base_addr m) region = Some base -> at_ (m_block_lens m) region = Some length ->
  0 <= off < length -> forall addr, addr = base + br * length + off ->
  holds (peer_side m rank rtp) heads addr br
    (n, c, byte_id K (rank * (m_kv_slices m * per_r) + s * per_r) per_r length off).
Proof.
  intros G HK Hp Hc Hn Hs Hk region Hb Hlen Hoff addr ->.
  destruct (side_heads (peer_side m rank rtp) (heads n) (rank * (m_kv_slices m * per_r)) per_r) as [Hsh Hf];
    [apply (reg_tp _ their_side)|apply G|apply G|done|].
  pose proof (g_areas_r _ _ _ _ _ _ G) as Hdiv. pose proof (g_slices_r _ _ _ _ _ _ G).
  apply div_exact in Hdiv; [|lia]. set (q := m_kv_areas m / m_kv_slices m) in *.
  assert (HP : parts (peer_side m rank rtp) = P) by (unfold parts; cbn; by rewrite HK).
  exists p, (s * q + k), base, length, off.
  cbn [s_names s_bases s_lens s_areas s_kv_per_block peer_side]. rewrite HP, HK.
  rewrite Hsh, Hf. cbn [s_areas s_slices peer_side]. fold q.
  do 3 (split; [done|]). split; [nia|]. do 4 (split; [done|]). do 2 f_equal.
  rewrite Z.add_comm, Z.div_add, Z.div_small by lia. lia.
Qed.

(** Our area, part and layer, and theirs: what the descriptors of a region name. *)
Lemma desc_pair names l p c n per_l per_r hb split runs area out base full stride bl br j k kv :
  0 <= l -> 0 <= p -> 0 <= c < P -> names = m_registered_layer_names m ->
  at_ names p = Some n -> at_ (local_seen_layer_names w) l = Some n ->
  geometry (l * P + c) (p * P + c) n per_l per_r hb -> cut split runs ->
  m_kv_per_block m = K -> 0 <= area < kv_areas w ->
  let rid := (l * P + c) * kv_areas w + area in
  _head_matched_desc w rid (p * P + c) area
    (tp_rank w * (kv_slices w * per_l), per_l, kv_areas w / kv_slices w)
    (rank * (m_kv_slices m * per_r), per_r, m_kv_areas m / m_kv_slices m, m_kv_slices m)
    (m_kv_areas m) (m_kv_caches_base_addr m) (m_block_lens m) (m_device_id m) (m_num_blocks m)
    split runs = Ok out ->
  at_ (base_addrs w) rid = Some base -> get_backend_aware_kv_block_len w rid = Ok full ->
  at_ (block_len_per_layer w) rid = Some stride ->
  0 <= bl < num_blocks w -> 0 <= br < m_num_blocks m ->
  0 <= j < split -> 0 <= k < fanout -> 0 <= kv < runs ->
  exists addr_r size,
    at_ out (br * (split * fanout * runs) + ((j * fanout + k) * runs + kv)) =
      Some (addr_r, size, m_device_id m) /\ size = full / runs / split /\ 0 < size /\
    forall x, 0 <= x < size -> exists id,
      holds (local_side w) heads
        (base + bl * stride + kv * (full / runs) + j * (full / runs / split) + x) bl id /\
      holds (peer_side m rank rtp) heads (addr_r + x) br id.
Proof.
  intros Hl Hp Hc -> Hnp Hnl G Hcut HK Harea rid Hd Hbase Hfull Hstride Hbl Hbr Hj Hk Hkv.
  destruct (cut_facts _ _ _ _ _ _ _ _ G Hcut) as (Hsp & Hru & Hruns & Hsplit).
  pose proof (fanout_bounds (g_slices_r _ _ _ _ _ _ G) (g_areas_r _ _ _ _ _ _ G)) as Hfan.
  pose proof (reg_areas _ their_side) as Hra. cbn [s_areas peer_side] in Hra.
  assert (Hll : 0 <= l * P + c) by nia. assert (Hlr : 0 <= p * P + c) by nia.
  assert (Hr0 : 0 <= rid) by (unfold rid; nia).
  pose proof (our_block_len _ _ _ Hr0 Hfull Hstride) as ->.
  assert (Hst : stride = K * (per_l * hb)).
  { pose proof (reg_even _ (w_registered _ _ our_side) (l * P + c) area Hll Harea) as He.
    cbn [s_lens s_areas local_side] in He. fold rid in He. rewrite (g_len_l _ _ _ _ _ _ G) in He. congruence. }
  pose proof (head_matched_desc_at w _ _ _ _ _ _ _ _ _ _ _ _ _ _ _ _ _ _ br j k kv Hd) as D.
  cbn zeta in D. change (if writes_into_peer w then _ else 1) with fanout in D.
  destruct D as (dl & page & base_r & Hdl & Hsl & _ & _ & Hpage & Hbr' & _ & _ & Hfit & Hat);
    [lia|lia|lia|nia|lia|done|done|done|done|].
  rewrite Hfull in Hdl. injection Hdl as <-.
  set (at_head := _ - rank * _) in *.
  assert (Hpg : page = K * (per_r * hb)).
  { pose proof (g_areas_r _ _ _ _ _ _ G) as Hdiv. apply div_exact in Hdiv; [|pose proof (g_slices_r _ _ _ _ _ _ G); lia].
    pose proof (reg_even _ their_side (p * P + c) (at_head / per_r * (m_kv_areas m / m_kv_slices m) + k)) as He.
    cbn [s_lens s_areas peer_side] in He. rewrite Z.add_assoc, Hpage, (g_len_r _ _ _ _ _ _ G) in He.
    specialize (He Hlr ltac:(nia)). congruence. }
  rewrite Hst, Hpg in Hat, Hfit.
  eexists _, _. split; [exact Hat|]. rewrite Hst. split; [done|].
  assert (HKK : 0 < K) by (pose proof (reg_kv _ (w_registered _ _ our_side)) as HKK; cbn in HKK; lia).
  split; [apply (piece_pos _ _ _ _ _ per_r); try done; apply G|]. intros x Hx.
  destruct (same_byte K runs split hb (tp_rank w * (kv_slices w * per_l) + area / (kv_areas w / kv_slices w) * per_l)
    per_l (rank * (m_kv_slices m * per_r)) per_r j kv x) as (Ho1 & Ho2 & Ho3 & Ho4 & Hid);
    try done; try apply G.
  rewrite Hst in Hstride. rewrite Hpg in Hpage. rewrite <- Z.add_assoc in Hpage, Hbr'.
  fold at_head in Ho3, Ho4, Hid.
  match type of Hid with byte_id _ _ _ _ ?o = byte_id _ _ _ _ ?o' =>
    pose proof (local_holds l p c n per_l per_r hb area base _ bl o G Hl Hc Hnl Harea Hbase Hstride) as L;
    pose proof (peer_holds l p c n per_l per_r hb (at_head / per_r) k base_r _ br o' G HK Hp Hc Hnp
      Hsl ltac:(lia) Hbr' Hpage) as R
  end.
  rewrite <- Hid in R. eexists. split; [apply L|apply R]; lia.
Qed.
End peer.
