(* ===== verification/KvTransferSpec.v ===== *)
(** * KV transfer: both ends of a transfer name the same bytes *)
From S2P Require Import Prelude KvTransfer KvLayout KvBands.

Section pairing.
Context `{NixlBase} `{!NixlBaseLaws} (w : Worker) (m : RblnNixlAgentMetadata).
Context (heads : string -> Z) (rank rtp : Z).

Abbreviation P := (parts (local_side w)).

(** ** What the handshake and the fan-in establish *)

Lemma head_matched_inv : _is_head_matched_peer w rtp = Ok true ->
  use_host_buffer w = false /\ exists r, tp_ratio (tp_size w) rtp = Ok r /\ r <> 1.
Proof.
  unfold _is_head_matched_peer. destruct (use_host_buffer w); [done|]. cbn [orb].
  destruct (bool_decide _); [done|]. intros Hr. res_inv. split; [done|]. eexists. split; [done|].
  by destruct (Z.eqb_spec a 1).
Qed.

Lemma same_layout : _is_head_matched_peer w rtp = Ok true ->
  _check_d2d_region_pairing w m rtp = Ok tt -> m_kv_per_block m = kv_per_block w.
Proof.
  intros Hhm Hv. pose proof (head_matched_inv Hhm) as (Hhost & r & Hr & _).
  unfold _check_d2d_region_pairing in Hv. rewrite Hhost, Hr in Hv. cbn [mbind res_bind] in Hv.
  destruct (_ && _); [done|]. by destruct (Z.eqb_spec (m_kv_per_block m) (kv_per_block w)).
Qed.

Lemma head_matched_validated names pairs :
  _validate_head_matched_handshake w m rtp (Some names) = Ok tt ->
  _logical_region_pairs w (Some names) = Ok pairs ->
  block_size_ratio (block_size w) (m_block_size m) = Ok 1 /\
  forall pair, pair ∈ pairs -> validate_region w m rtp pair = Ok tt.
Proof.
  unfold _validate_head_matched_handshake. intros Hv Hp. rewrite Hp in Hv.
  destruct (block_size_ratio _ _) as [ratio|]; [|done]. cbn [mbind res_bind] in Hv.
  destruct (Z.eqb_spec ratio 1) as [E|]; [|done]. rewrite E in *. cbn [negb] in Hv.
  destruct (negb _); [done|]. split; [done|].
  destruct (mapM _ pairs) as [us|] eqn:Em; [|done]. intros pair (i & Hi)%list_elem_of_lookup.
  destruct (mapM_at _ _ _ _ _ Em Hi) as ([] & _ & Hok). done.
Qed.

(** The rank whose band the first head of one of our areas lies in. *)
Definition area_owner (base per_slice area : Z) : Z :=
  (base + area / (kv_areas w / kv_slices w) * per_slice) / (total_num_kv_heads w / rtp).

Lemma fan_in_inv areas : _fan_in_peer_areas w rank rtp = Ok areas ->
  areas = None \/
  exists r base per_slice, tp_ratio (tp_size w) rtp = Ok r /\ r <= 0 /\ rtp <> 0 /\
    _slice_head_bounds (tp_rank w) (tp_size w) (total_num_kv_heads w) (kv_areas w) (kv_slices w) =
      Ok (base, per_slice) /\ per_slice <= total_num_kv_heads w / rtp /\
    areas = Some (filter (fun a => area_owner base per_slice a = rank) (py_range (kv_areas w))).
Proof.
  unfold _fan_in_peer_areas. destruct (use_host_buffer w); [intros [= <-]; by left|].
  intros Hf. destruct (tp_ratio _ _) as [r|] eqn:Er; [|done]. cbn [mbind res_bind] in Hf.
  destruct (Z.ltb_spec 0 r); [left; by injection Hf as <-|]. right. exists r.
  destruct (_slice_head_bounds _ _ _ _ _) as [[bl pl]|]; [|done]. cbn [mbind res_bind] in Hf.
  destruct (py_floordiv (total_num_kv_heads w) rtp) as [hpr|] eqn:Eh; [|done].
  apply py_floordiv_Ok in Eh as [Hrtp ->]. cbn [mbind res_bind] in Hf.
  destruct (Z.ltb_spec (total_num_kv_heads w / rtp) pl); [done|].
  destruct (py_floordiv (kv_areas w) _) as [repl|] eqn:Ep; [|done]. apply py_floordiv_Ok in Ep as [_ ->].
  cbn [mbind res_bind] in Hf. destruct (mapM _ _) as [owners|] eqn:Em; [|done].
  cbn [mbind res_bind] in Hf. injection Hf as <-. exists bl, pl. do 5 (split; [done|]). f_equal.
  revert owners Em. induction (py_range (kv_areas w)) as [|a l IH]; intros owners Em; cbn [mapM] in Em; res_inv; [done|].
  match goal with E : py_floordiv _ _ = Ok ?x, E' : py_floordiv (bl + ?x * _) _ = Ok _ |- _ =>
    apply py_floordiv_Ok in E as [_ ->]; apply py_floordiv_Ok in E' as [_ ->] end.
  fold (area_owner bl pl a). specialize (IH _ eq_refl).
  destruct (decide (area_owner bl pl a = rank)).
  - rewrite !filter_cons_True by done. cbn. by rewrite IH.
  - by rewrite !filter_cons_False by done.
Qed.

Lemma fan_in_order areas : _fan_in_peer_areas w rank rtp = Ok areas -> in_order (kv_areas w) areas.
Proof.
  intros [->|(r & base & pl & _ & _ & _ & _ & _ & ->)]%fan_in_inv; [done|]. cbn.
  apply filter_ext_in. intros a Ha. rewrite list_elem_of_filter. tauto.
Qed.

Lemma area_in_range areas a : in_order (kv_areas w) areas ->
  a ∈ default (py_range (kv_areas w)) areas -> 0 <= a < kv_areas w.
Proof.
  destruct areas as [l|]; cbn; [|intros _; apply py_range_elem].
  intros -> [_ Ha]%list_elem_of_filter. by apply py_range_elem in Ha.
Qed.

(** ** Rows of the two lists *)
Hypothesis our_side : worker_ok w heads.
Hypothesis their_side : registered (peer_side m rank rtp).
Hypothesis their_blocks : 0 <= m_num_blocks m.

Lemma region_row iter l p c n per_l per_r hb split runs row :
  geometry w m heads rank rtp (l * P + c) (p * P + c) n per_l per_r hb ->
  cut w m rtp split runs -> 0 <= p -> 0 <= c < P ->
  head_matched_region w m rank rtp iter (kv_areas w / kv_slices w) (m_kv_areas m / m_kv_slices m)
    split runs (l * P + c, p * P + c) = Ok row ->
  let width := m_num_blocks m * (split * fanout w m * runs) in
  len row = len iter * width /\
  forall t area i, 0 <= t -> at_ iter t = Some area -> 0 <= i < width ->
    exists ds, _head_matched_desc w ((l * P + c) * kv_areas w + area) (p * P + c) area
        (tp_rank w * (kv_slices w * per_l), per_l, kv_areas w / kv_slices w)
        (rank * (m_kv_slices m * per_r), per_r, m_kv_areas m / m_kv_slices m, m_kv_slices m)
        (m_kv_areas m) (m_kv_caches_base_addr m) (m_block_lens m) (m_device_id m) (m_num_blocks m)
        split runs = Ok ds /\
      at_ row (t * width + i) = at_ ds i.
Proof.
  intros G Hcut Hp Hc Hrow width. unfold head_matched_region in Hrow.
  rewrite (g_heads _ _ _ _ _ _ _ _ _ _ _ G) in Hrow. cbn [mbind res_bind] in Hrow.
  rewrite (g_bounds_l _ _ _ _ _ _ _ _ _ _ _ G) in Hrow. cbn [mbind res_bind] in Hrow.
  rewrite (g_bounds_r _ _ _ _ _ _ _ _ _ _ _ G) in Hrow.
  cbn [mbind res_bind fst snd] in Hrow.
  destruct (cut_facts _ _ _ _ _ our_side their_side _ _ _ _ _ _ _ _ G Hcut) as (Hsp & Hru & _ & _).
  pose proof (fanout_bounds w m _ _ their_side (g_slices_r _ _ _ _ _ _ _ _ _ _ _ G) (g_areas_r _ _ _ _ _ _ _ _ _ _ _ G)) as Hfan.
  pose proof (reg_areas _ their_side) as Hra. cbn [s_areas peer_side] in Hra.
  assert (Hlr : 0 <= p * P + c) by nia.
  match type of Hrow with extend_all ?f _ = _ =>
    assert (Hlen : forall a y, a ∈ iter -> f a = Ok y -> len y = width) end.
  { intros a y _ Hy. cbn beta in Hy. apply head_matched_desc_len in Hy; [exact Hy|lia|fold (fanout w m); lia|lia|nia|lia|done]. }
  split; [exact (extend_all_len _ _ _ _ Hrow Hlen)|]. intros t area i Ht Ha Hi.
  destruct (extend_all_at _ _ _ _ t i area Hrow Hlen Ht Ha Hi) as (ds & Hds & Hat). eauto.
Qed.

(** What the handshake computes of a peer it matches by head band. *)
Record plan (areas : option (list Z)) (split runs fan : Z) : Prop := {
  p_matched : _is_head_matched_peer w rtp = Ok true;
  p_pairing : _check_d2d_region_pairing w m rtp = Ok tt;
  p_bytes : _validate_head_matched_handshake w m rtp (Some (m_registered_layer_names m)) = Ok tt;
  p_areas : _fan_in_peer_areas w rank rtp = Ok areas;
  p_split : _peer_head_split w m rtp = Ok split;
  p_runs : _peer_kv_runs w m rtp = Ok runs;
  p_fan : _peer_replica_fanout w m rtp = Ok fan
}.

Lemma plan_cut areas split runs fan : plan areas split runs fan -> cut w m rtp split runs.
Proof.
  intros [Hhm _ _ _ Hs Hr _]. unfold _peer_head_split in Hs. unfold _peer_kv_runs in Hr.
  rewrite Hhm in *. cbn in *. constructor; [done|]. by injection Hr.
Qed.

Lemma plan_fanout areas split runs fan :
  plan areas split runs fan -> 0 < m_kv_slices m -> m_kv_areas m mod m_kv_slices m = 0 ->
  fan = fanout w m.
Proof.
  intros [Hhm _ _ _ _ _ Hf] Hs Hm. pose proof (fanout_bounds w m rank rtp their_side Hs Hm) as Hb.
  unfold _peer_replica_fanout in Hf. unfold fanout in *. destruct (writes_into_peer w); cbn in Hf; [|by injection Hf].
  rewrite Hhm in Hf. cbn [mbind res_bind negb] in Hf. rewrite py_floordiv_pos in Hf by lia.
  cbn [mbind res_bind] in Hf. injection Hf as <-. lia.
Qed.

Lemma pair_geometry areas split runs fan pairs pair :
  plan areas split runs fan ->
  _logical_region_pairs w (Some (m_registered_layer_names m)) = Ok pairs -> pair ∈ pairs ->
  exists l p c n per_l per_r hb, pair = (l * P + c, p * P + c) /\
    0 <= l /\ 0 <= p /\ 0 <= c < P /\
    at_ (m_registered_layer_names m) p = Some n /\ at_ (local_seen_layer_names w) l = Some n /\
    geometry w m heads rank rtp (l * P + c) (p * P + c) n per_l per_r hb.
Proof.
  intros Hplan Hpairs Hin. destruct pair as [ll lr].
  destruct (pairs_elem w heads our_side _ _ _ _ Hpairs Hin) as (l & p & c & n & Hl & Hp & Hc & -> & -> & Hnp & Hnl).
  pose proof (proj2 (head_matched_validated _ _ (p_bytes _ _ _ _ Hplan) Hpairs) _ Hin) as Hreg.
  destruct (validate_region_inv w m heads rank rtp our_side their_side l p c n Hl Hp Hc Hnl Hreg) as (pl & pr & hb & G).
  by exists l, p, c, n, pl, pr, hb.
Qed.

Lemma plan_block_size areas split runs fan : plan areas split runs fan ->
  (exists pairs, _logical_region_pairs w (Some (m_registered_layer_names m)) = Ok pairs) ->
  m_kv_per_block m = kv_per_block w /\ block_size w / m_block_size m = 1.
Proof.
  intros Hplan [pairs Hpairs]. split; [by eapply same_layout; apply Hplan|].
  pose proof (proj1 (head_matched_validated _ _ (p_bytes _ _ _ _ Hplan) Hpairs)) as Hbs.
  apply block_size_ratio_exact in Hbs as [Hbs0 Hbs]. rewrite Hbs, Z.mul_1_l. by apply Z.div_same.
Qed.

(** A region of the plan, with all that the checks gave about it. *)
Lemma plan_region areas split runs fan rids pairs q :
  plan areas split runs fan ->
  _shard_local_region_ids w (m_registered_layer_names m) areas = Ok rids ->
  _logical_region_pairs w (Some (m_registered_layer_names m)) = Ok pairs ->
  0 <= q < len rids ->
  let iter := default (py_range (kv_areas w)) areas in
  exists u t area l p c n per_l per_r hb,
    q = u * len iter + t /\ 0 <= u /\ 0 <= t < len iter /\
    at_ pairs u = Some (l * P + c, p * P + c) /\ at_ iter t = Some area /\
    0 <= area < kv_areas w /\ at_ rids q = Some ((l * P + c) * kv_areas w + area) /\
    0 <= l /\ 0 <= p /\ 0 <= c < P /\
    at_ (m_registered_layer_names m) p = Some n /\ at_ (local_seen_layer_names w) l = Some n /\
    geometry w m heads rank rtp (l * P + c) (p * P + c) n per_l per_r hb.
Proof.
  intros Hplan Hrids Hpairs Hq iter. pose proof (fan_in_order _ (p_areas _ _ _ _ Hplan)) as Hord.
  pose proof (reg_areas _ (w_registered _ _ our_side)) as Ha. cbn [s_areas local_side] in Ha.
  rewrite (region_ids_nested w (m_registered_layer_names m) areas rids pairs) in Hq |- *;
    [|done| |rewrite (w_num_regions _ _ our_side); apply len_nonneg|done|done|done
     |done| |rewrite (w_num_regions _ _ our_side); apply len_nonneg|done|done|done].
  2, 3: rewrite (regions_per_layer_ok w heads our_side); intros rpl [= <-]; by exists P.
  fold iter in Hq |- *.
  assert (Hrow : forall x : Z * Z, len ((fun a => x.1 * kv_areas w + a) <$> iter) = len iter).
  { intros x. unfold len. by rewrite length_fmap. }
  rewrite (bind_len _ _ (len iter)) in Hq by auto.
  pose proof (len_nonneg iter) as Hi0. assert (Hi : 0 < len iter) by (destruct (Z.eq_dec (len iter) 0) as [E0|]; [rewrite E0 in Hq|]; lia).
  pose proof (Z.div_mod q (len iter) ltac:(lia)). pose proof (Z.mod_pos_bound q (len iter) Hi) as Ht.
  set (u := q / len iter) in *. set (t := q mod len iter) in *.
  assert (Hu : 0 <= u < len pairs).
  { split; [apply Z.div_pos; lia|]. apply Z.div_lt_upper_bound; lia. }
  destruct (at_some pairs u Hu) as [[ll lr] Hpu]. destruct (at_some iter t Ht) as [area Hta].
  destruct (pair_geometry _ _ _ _ _ (ll, lr) Hplan Hpairs) as (l & p & c & n & pl & pr & hb & Hpair & Hrest);
    [by apply list_elem_of_lookup_2 in Hpu|]. injection Hpair as -> ->.
  exists u, t, area, l, p, c, n, pl, pr, hb. do 5 (split; [done || lia|]).
  split; [eapply area_in_range; [exact Hord|by apply list_elem_of_lookup_2 in Hta]|].
  split; [|done]. replace q with (u * len iter + t) by lia.
  rewrite (bind_at _ _ (len iter)), Hpu by (auto || lia). cbn [mbind option_bind].
  rewrite list_lookup_fmap. unfold iter in Hta |- *. by rewrite Hta.
Qed.

Lemma build_inv areas split runs fan remote :
  plan areas split runs fan ->
  _build_head_matched_remote w m rank rtp (Some (m_registered_layer_names m)) areas = Ok remote ->
  exists pairs, _logical_region_pairs w (Some (m_registered_layer_names m)) = Ok pairs /\
    extend_all (head_matched_region w m rank rtp (default (py_range (kv_areas w)) areas)
      (kv_areas w / kv_slices w) (m_kv_areas m / m_kv_slices m) split runs) pairs = Ok remote.
Proof.
  intros Hplan Hb. destruct (plan_cut _ _ _ _ Hplan) as [Hs Hr].
  unfold _build_head_matched_remote in Hb. rewrite Hs in Hb. cbn [mbind res_bind] in Hb.
  destruct (py_floordiv (kv_areas w) _) as [rl|] eqn:El; [|done]. apply py_floordiv_Ok in El as [_ ->].
  destruct (py_floordiv (m_kv_areas m) _) as [rr|] eqn:Er; [|done]. apply py_floordiv_Ok in Er as [_ ->].
  cbn [mbind res_bind] in Hb. rewrite <- Hr in Hb.
  destruct (_logical_region_pairs _ _) as [pairs|]; [|done]. cbn [mbind res_bind] in Hb.
  destruct (extend_all _ _) as [out|] eqn:Eo; [|done]. cbn [mbind res_bind] in Hb.
  destruct (_ =? _); [|done]. injection Hb as <-. eauto.
Qed.

Lemma remote_rows areas split runs fan remote pairs u t area l p c n per_l per_r hb b i :
  plan areas split runs fan ->
  _logical_region_pairs w (Some (m_registered_layer_names m)) = Ok pairs ->
  let iter := default (py_range (kv_areas w)) areas in
  extend_all (head_matched_region w m rank rtp iter (kv_areas w / kv_slices w)
    (m_kv_areas m / m_kv_slices m) split runs) pairs = Ok remote ->
  geometry w m heads rank rtp (l * P + c) (p * P + c) n per_l per_r hb ->
  0 <= p -> 0 <= c < P ->
  0 <= u -> at_ pairs u = Some (l * P + c, p * P + c) -> 0 <= t -> at_ iter t = Some area ->
  0 <= b < m_num_blocks m -> 0 <= i < split * fanout w m * runs ->
  exists ds, _head_matched_desc w ((l * P + c) * kv_areas w + area) (p * P + c) area
      (tp_rank w * (kv_slices w * per_l), per_l, kv_areas w / kv_slices w)
      (rank * (m_kv_slices m * per_r), per_r, m_kv_areas m / m_kv_slices m, m_kv_slices m)
      (m_kv_areas m) (m_kv_caches_base_addr m) (m_block_lens m) (m_device_id m) (m_num_blocks m)
      split runs = Ok ds /\
    at_ remote (((u * len iter + t) * m_num_blocks m + b) * (split * fanout w m * runs) + i) =
      at_ ds (b * (split * fanout w m * runs) + i).
Proof.
  intros Hplan Hpairs iter Hall G Hp Hc Hu Hpu Ht Hta Hb Hi.
  pose proof (plan_cut _ _ _ _ Hplan) as Hcut. set (per := split * fanout w m * runs) in *.
  assert (Hlen : forall pair row, pair ∈ pairs ->
    head_matched_region w m rank rtp iter (kv_areas w / kv_slices w) (m_kv_areas m / m_kv_slices m)
      split runs pair = Ok row -> len row = len iter * (m_num_blocks m * per)).
  { intros pair row Hin Hrow.
    destruct (pair_geometry _ _ _ _ _ _ Hplan Hpairs Hin) as (l' & p' & c' & n' & pl & pr & hb' & -> & _ & ? & ? & _ & _ & G').
    by destruct (region_row _ _ _ _ _ _ _ _ _ _ _ G' Hcut ltac:(done) ltac:(done) Hrow) as [-> _]. }
  assert (Hti : 0 <= t < len iter) by (split; [done|by apply at_range in Hta]).
  assert (Hw : 0 <= b * per + i < m_num_blocks m * per) by nia.
  destruct (extend_all_at _ _ _ _ u (t * (m_num_blocks m * per) + (b * per + i)) _ Hall Hlen Hu Hpu) as (row & Hrow & Hat); [nia|].
  destruct (region_row _ _ _ _ _ _ _ _ _ _ _ G Hcut Hp Hc Hrow) as [_ Hcell].
  destruct (Hcell t area (b * per + i) Ht Hta Hw) as (ds & Hds & Hat'). exists ds. split; [done|].
  rewrite <- Hat'. fold per. rewrite <- Hat. do 2 f_equal. lia.
Qed.

(** Every pair of descriptors of a transfer with a peer of another TP degree names the same
    bytes.  Where both handshake checks and both lists were accepted, the descriptor [i] of
    region [q] and block [bl] in our list and the descriptor [i] of region [q] and block
    [br] in the peer's list have one positive length, and their bytes, one by one, are the same
    byte of the cache: of the same layer, of K or V alike, of the same head and at the same
    offset in it. *)
Theorem transfer_pairs_same_bytes areas split runs fan remote rids local q bl br i :
  plan areas split runs fan ->
  _build_head_matched_remote w m rank rtp (Some (m_registered_layer_names m)) areas = Ok remote ->
  _shard_local_region_ids w (m_registered_layer_names m) areas = Ok rids ->
  shard_local_descs w (m_block_size m) split rids fan runs = Ok local ->
  0 <= q < len rids -> 0 <= bl < num_blocks w -> 0 <= br < m_num_blocks m ->
  0 <= i < split * fan * runs ->
  exists addr_l addr_r size, 0 < size /\
    at_ local ((q * num_blocks w + bl) * (split * fan * runs) + i) = Some (addr_l, size, device_id w) /\
    at_ remote ((q * m_num_blocks m + br) * (split * fan * runs) + i) = Some (addr_r, size, m_device_id m) /\
    forall x, 0 <= x < size -> exists id,
      holds (local_side w) heads (addr_l + x) bl id /\
      holds (peer_side m rank rtp) heads (addr_r + x) br id.
Proof.
  intros Hplan Hb Hrids Hloc Hq Hbl Hbr Hi.
  destruct (build_inv _ _ _ _ _ Hplan Hb) as (pairs & Hpairs & Hall).
  destruct (plan_region _ _ _ _ _ _ q Hplan Hrids Hpairs Hq)
    as (u & t & area & l & p & c & n & pl & pr & hb & Hqu & Hu & Ht & Hpu & Hta & Harea & Hrid & Hl & Hp & Hc & Hnp & Hnl & G).
  pose proof (plan_cut _ _ _ _ Hplan) as Hcut.
  assert (Hfan : fan = fanout w m) by (apply (plan_fanout _ _ _ _ Hplan); apply G).
  destruct (plan_block_size _ _ _ _ Hplan (ex_intro _ _ Hpairs)) as [HK Hone].
  destruct (cut_facts _ _ _ _ _ our_side their_side _ _ _ _ _ _ _ _ G Hcut) as (Hsp & Hru & _ & _).
  pose proof (fanout_bounds w m _ _ their_side (g_slices_r _ _ _ _ _ _ _ _ _ _ _ G) (g_areas_r _ _ _ _ _ _ _ _ _ _ _ G)) as Hfb.
  rewrite Hfan in *. destruct (row_split _ _ _ _ (proj1 Hfb) Hru Hi) as (j & k & kv & Hj & Hk & Hkv & ->).
  assert (Hll : 0 <= l * P + c) by nia. assert (Hrid0 : 0 <= (l * P + c) * kv_areas w + area) by nia.
  destruct (shard_local_descs_at w _ _ _ _ _ _ q ((l * P + c) * kv_areas w + area) bl j k kv Hloc Hone) as (base & full & stride & Hbase & Hfull & Hstride & Hat);
    [lia|exact Hrid|done..|].
  destruct (remote_rows _ _ _ _ _ _ u t area l p c n pl pr hb br ((j * fanout w m + k) * runs + kv)
    Hplan Hpairs Hall G Hp Hc Hu Hpu (proj1 Ht) Hta Hbr Hi) as (ds & Hds & Hrow).
  destruct (desc_pair w m heads rank rtp our_side their_side _ l p c n pl pr hb split runs area ds base full stride bl br j k kv
    Hl Hp Hc eq_refl Hnp Hnl G Hcut HK Harea Hds Hbase Hfull Hstride Hbl Hbr Hj Hk Hkv) as (ar & size & Hdat & -> & Hpos & Hbytes).
  eexists _, ar, _. split; [exact Hpos|]. split; [|split; [|exact Hbytes]].
  - rewrite <- Hat. do 2 f_equal. lia.
  - rewrite Hqu. exact (eq_trans Hrow Hdat).
Qed.
End pairing.
