(* ===== verification/KvFanSpec.v ===== *)
(** * KV transfer: how a rank's areas spread over the ranks of a finer peer *)
From S2P Require Import Prelude KvTransfer KvLayout KvBands KvTransferSpec.

Section fan_in.
Context `{NixlBase} `{!NixlBaseLaws} (w : Worker).

(** A worker and a peer with [ratio] times its TP degree. *)
Record finer_peer (rtp ratio base per_slice : Z) : Prop := {
  f_device : use_host_buffer w = false;
  f_tp : 0 < tp_size w;
  f_ratio : 1 < ratio;
  f_rtp : rtp = ratio * tp_size w;
  f_areas : 0 < kv_areas w;
  f_heads : 0 < total_num_kv_heads w;
  f_divides : (rtp | total_num_kv_heads w);
  f_bounds : _slice_head_bounds (tp_rank w) (tp_size w) (total_num_kv_heads w) (kv_areas w)
    (kv_slices w) = Ok (base, per_slice)
}.

Context (rtp ratio base per_slice : Z).
Hypothesis F : finer_peer rtp ratio base per_slice.

Lemma finer_facts : exists hpr, 0 < hpr /\ total_num_kv_heads w / rtp = hpr /\
  ratio * hpr = kv_slices w * per_slice /\ base = tp_rank w * (ratio * hpr) /\
  0 < kv_slices w /\ 0 < per_slice /\ kv_areas w = kv_slices w * (kv_areas w / kv_slices w) /\
  tp_ratio (tp_size w) rtp = Ok (- ratio).
Proof.
  destruct F as [_ Htp Hr -> Ha HT [hpr HT'] Hb].
  apply slice_head_bounds_inv in Hb as (_ & Hs & Hdiv & Ht & ->).
  assert (Hh : 0 < hpr) by nia. assert (Hps : 0 < per_slice) by nia.
  assert (Heq : ratio * hpr = kv_slices w * per_slice) by nia. exists hpr.
  split; [done|]. split; [rewrite HT'; apply Z.div_mul; nia|]. split; [done|].
  split; [by rewrite Heq|]. do 2 (split; [done|]). split; [apply div_exact; lia|].
  rewrite tp_ratio_up; [|nia|by exists ratio]. by rewrite Z.div_mul by lia.
Qed.

Lemma fan_in_total r :
  _fan_in_peer_areas w r rtp =
  if total_num_kv_heads w / rtp <? per_slice then Raise RuntimeError
  else Ok (Some
    (filter (fun a => area_owner w rtp base per_slice a = r) (py_range (kv_areas w)))).
Proof.
  destruct finer_facts as (hpr & Hh & Hq & Heq & Hbase & Hs & Hps & Hdiv & Hr).
  pose proof (f_ratio _ _ _ _ F). pose proof (f_tp _ _ _ _ F). pose proof (f_rtp _ _ _ _ F).
  pose proof (f_areas _ _ _ _ F). assert (Hrepl : kv_areas w / kv_slices w <> 0) by nia.
  unfold _fan_in_peer_areas. rewrite (f_device _ _ _ _ F), Hr. cbn [mbind res_bind].
  destruct (Z.ltb_spec 0 (- ratio)); [lia|].
  rewrite (f_bounds _ _ _ _ F). cbn [mbind res_bind].
  rewrite (py_floordiv_pos (total_num_kv_heads w)) by nia. cbn [mbind res_bind].
  destruct (total_num_kv_heads w / rtp <? per_slice); [done|].
  rewrite (py_floordiv_pos (kv_areas w)) by lia. cbn [mbind res_bind].
  rewrite (mapM_Ok _ (fun a => (a, area_owner w rtp base per_slice a))).
  2: { intros a _. rewrite (py_floordiv_pos a) by done. cbn [mbind res_bind].
       rewrite py_floordiv_pos by lia. reflexivity. }
  cbn [mbind res_bind]. do 2 f_equal.
  induction (py_range (kv_areas w)) as [|a l IH]; [done|]. cbn [fmap list_fmap].
  destruct (decide (area_owner w rtp base per_slice a = r)).
  - rewrite !filter_cons_True by done. cbn [fmap list_fmap fst]. by rewrite IH.
  - by rewrite !filter_cons_False by done.
Qed.

Lemma owner_bounds area : 0 <= area < kv_areas w ->
  tp_rank w * ratio <= area_owner w rtp base per_slice area < (tp_rank w + 1) * ratio.
Proof.
  intros Ha. destruct finer_facts as (hpr & Hh & Hq & Heq & Hbase & Hs & Hps & Hdiv & _).
  unfold area_owner. rewrite Hq. set (repl := kv_areas w / kv_slices w) in *.
  assert (Hrepl : 0 < repl) by nia.
  assert (Hsl : 0 <= area / repl < kv_slices w).
  { split; [apply Z.div_pos; lia|apply Z.div_lt_upper_bound; lia]. }
  split.
  - apply Z.div_le_lower_bound; [done|]. rewrite Hbase. nia.
  - apply Z.div_lt_upper_bound; [done|]. rewrite Hbase. nia.
Qed.
End fan_in.

(** To a peer with [ratio] times our TP degree we send each of our chiplet areas exactly
    once: every area is in the list of one rank and no other, that rank is one of the
    [ratio] ranks that serve our band of heads, and it owns the first head of the area.
    Where one area would straddle ranks the code refuses, for every rank alike. *)
Theorem fan_in_partitions_areas `{NixlBase} `{!NixlBaseLaws} w rtp ratio base per_slice :
  finer_peer w rtp ratio base per_slice ->
  (per_slice <= total_num_kv_heads w / rtp ->
    forall area, 0 <= area < kv_areas w ->
    exists owner, tp_rank w * ratio <= owner < (tp_rank w + 1) * ratio /\
      (let head := base + area / (kv_areas w / kv_slices w) * per_slice in
       owner * (total_num_kv_heads w / rtp) <= head < (owner + 1) * (total_num_kv_heads w / rtp)) /\
      forall r, exists l, _fan_in_peer_areas w r rtp = Ok (Some l) /\ (area ∈ l <-> r = owner)) /\
  (total_num_kv_heads w / rtp < per_slice ->
    forall r, _fan_in_peer_areas w r rtp = Raise RuntimeError).
Proof.
  intros F. split.
  - intros Hfit area Ha. exists (area_owner w rtp base per_slice area).
    split; [by apply (owner_bounds w _ _ _ _ F)|].
    destruct (finer_facts w _ _ _ _ F) as (hpr & Hh & Hq & _). split.
    { cbn zeta. unfold area_owner. rewrite Hq. set (head := base + _).
      pose proof (Z.div_mod head hpr ltac:(lia)). pose proof (Z.mod_pos_bound head hpr Hh). nia. }
    intros r. pose proof (fan_in_total w _ _ _ _ F r) as Hr.
    destruct (Z.ltb_spec (total_num_kv_heads w / rtp) per_slice); [lia|].
    eexists. split; [exact Hr|]. rewrite list_elem_of_filter, py_range_elem. naive_solver.
  - intros Hover r. pose proof (fan_in_total w _ _ _ _ F r) as Hr.
    by destruct (Z.ltb_spec (total_num_kv_heads w / rtp) per_slice); [|lia].
Qed.
