(* ===== verification/KvHandshake.v ===== *)
(** * KV transfer: the handshake with a peer engine, and the transfers

    The part of [base_worker.py], [push_worker.py] and [pull_worker.py] that keeps state:
    the descriptor lists prepared for every shard of a peer, their cleanup, and the reads
    and writes issued against them.  The calls of NIXL, of the peer's listener and of
    vLLM's own worker are recorded in a history with their answers. *)
From S2P Require Import Prelude Effects KvTransfer.

(** ** Calls that leave the repository *)
Inductive Direction := READ | WRITE.

#[export] Instance Direction_eq_dec : EqDecision Direction.
Proof. solve_decision. Defined.

(** [Super...] is a call of the method the repository overrides; of
    [SuperAddRemoteAgent] the answer has the agent and the handle it leaves in
    [dst_xfer_side_handles].  [PrepXferDlist] stands for [get_xfer_descs] and
    [prep_xfer_dlist] on the result, [FanInHandles] for [src_xfer_handles_by_tp_ratio] at
    a ratio and [all_source_ranks] of the engine's plan. *)
Inductive ncall :=
  | QueryMeta (pp_rank tp_rank : Z)
  | AddRemoteAgent (md : string)
  | AddNotifOnlyAgent (md : string) (remote_tp_size : Z)
  | SuperAddRemoteAgent (m : RblnNixlAgentMetadata) (remote_tp_rank remote_tp_size : Z)
  | RegisterRemoteEngine (engine_id : string) (remote_tp_size block_size : Z)
  | GetEngineInfo (engine_id : string)
  | SuperValidate (m : RblnNixlAgentMetadata) (remote_tp_size : Z)
  | FanInHandles (ratio : Z) (engine_id : string)
  | PrepXferDlist (agent : string) (descs : list desc)
  | ReleaseDlistHandle (handle : Z)
  | SuperCleanup (engine_id : string)
  | MakePreppedXfer (op : Direction) (local_handle : Z) (local_ids : list Z)
      (remote_handle : Z) (remote_ids : list Z) (notif : string * Z)
  | Transfer (handle : Z)
  | ReleaseXferHandle (handle : Z)
  | SendNotif (agent : string) (notif : string * Z)
  | HandleFailedTransfer (req_id : string) (handle : option Z)
  | SuperTransfer (op : Direction) (req_id : string) (local_ids remote_ids : list (list Z))
  | SuperApplyPrefixCaching (local_ids remote_ids : list (list Z)).

(** What a peer's listener answers: its compatibility hash and metadata, the round trip
    time and the clock offset. *)
Record Reply := {
  r_hash : string;
  r_meta : RblnNixlAgentMetadata;
  r_rtt : Z;
  r_offset : Z
}.

(** [EngineTransferInfo]: TP size, block size, physical blocks per logical block. *)
Record EngineInfo := {
  e_tp_size : Z;
  e_block_size : Z;
  e_physical_per_logical : Z
}.

Definition ans (c : ncall) : Type :=
  match c with
  | QueryMeta _ _ => Reply
  | AddRemoteAgent _ | AddNotifOnlyAgent _ _ => string
  | SuperAddRemoteAgent _ _ _ => string * Z
  | GetEngineInfo _ => EngineInfo
  | FanInHandles _ _ => list Z * list Z
  | PrepXferDlist _ _ | MakePreppedXfer _ _ _ _ _ _ => Z
  | SuperApplyPrefixCaching _ _ => list (list Z) * list (list Z)
  | RegisterRemoteEngine _ _ _ | SuperValidate _ _ | ReleaseDlistHandle _ | SuperCleanup _
  | Transfer _ | ReleaseXferHandle _ | SendNotif _ _ | HandleFailedTransfer _ _
  | SuperTransfer _ _ _ _ => unit
  end.

Record event := Event { ev_call : ncall; ev_answer : res (ans ev_call) }.

(** What happened, the latest event first. *)
Abbreviation history := (list event).

Class Nixl := reply : history -> forall c : ncall, res (ans c).

Definition perform `{Nixl} {P} (c : ncall) : M (P * history) (ans c) := fun s =>
  ((s.1, Event c (reply s.2 c) :: s.2), reply s.2 c).

(** ** The state *)
Record Conn := {
  remote_shard_layer_names : gmap (string * Z) (list string);
  remote_pp_size : gmap string Z;
  overlapping_ranks : gmap string (list Z);
  src_xfer_handles_by_remote : gmap (string * Z * Z) Z;
  borrowed_src_handles : gset (string * Z * Z);
  shard_region_group_ids : gmap (string * Z) (list Z);
  shard_descs_per_block : gmap (string * Z) Z;
  remote_agents : gmap (string * (Z * Z)) string;
  dst_num_blocks : gmap string Z;
  kv_caches_base_addr : gmap (string * Z) (list Z);
  dst_xfer_side_handles : gmap (string * Z) Z;
  src_xfer_handles_by_block_size : gmap Z Z;
  recving_transfers : gmap string (list Z);
  sending_transfers : gmap string (list Z)
}.

Abbreviation HM A := (M (Conn * history) A).

Definition set_conn (f : Conn -> Conn) : HM unit := modify (fun s => (f s.1, s.2)).
Definition nget {A} (f : Conn -> A) : HM A := gets (fun s => f s.1).

Definition set_remote_shard_layer_names x (c : Conn) : Conn := {|
  remote_shard_layer_names := x; remote_pp_size := remote_pp_size c; overlapping_ranks :=
  overlapping_ranks c; src_xfer_handles_by_remote := src_xfer_handles_by_remote c;
  borrowed_src_handles := borrowed_src_handles c; shard_region_group_ids := shard_region_group_ids
  c; shard_descs_per_block := shard_descs_per_block c; remote_agents := remote_agents c;
  dst_num_blocks := dst_num_blocks c; kv_caches_base_addr := kv_caches_base_addr c;
  dst_xfer_side_handles := dst_xfer_side_handles c; src_xfer_handles_by_block_size :=
  src_xfer_handles_by_block_size c; recving_transfers := recving_transfers c; sending_transfers :=
  sending_transfers c |}.
Definition set_remote_pp_size x (c : Conn) : Conn := {|
  remote_shard_layer_names := remote_shard_layer_names c; remote_pp_size := x; overlapping_ranks
  := overlapping_ranks c; src_xfer_handles_by_remote := src_xfer_handles_by_remote c;
  borrowed_src_handles := borrowed_src_handles c; shard_region_group_ids := shard_region_group_ids
  c; shard_descs_per_block := shard_descs_per_block c; remote_agents := remote_agents c;
  dst_num_blocks := dst_num_blocks c; kv_caches_base_addr := kv_caches_base_addr c;
  dst_xfer_side_handles := dst_xfer_side_handles c; src_xfer_handles_by_block_size :=
  src_xfer_handles_by_block_size c; recving_transfers := recving_transfers c; sending_transfers :=
  sending_transfers c |}.
Definition set_overlapping_ranks x (c : Conn) : Conn := {|
  remote_shard_layer_names := remote_shard_layer_names c; remote_pp_size := remote_pp_size c;
  overlapping_ranks := x; src_xfer_handles_by_remote := src_xfer_handles_by_remote c;
  borrowed_src_handles := borrowed_src_handles c; shard_region_group_ids := shard_region_group_ids
  c; shard_descs_per_block := shard_descs_per_block c; remote_agents := remote_agents c;
  dst_num_blocks := dst_num_blocks c; kv_caches_base_addr := kv_caches_base_addr c;
  dst_xfer_side_handles := dst_xfer_side_handles c; src_xfer_handles_by_block_size :=
  src_xfer_handles_by_block_size c; recving_transfers := recving_transfers c; sending_transfers :=
  sending_transfers c |}.
Definition set_src_xfer_handles_by_remote x (c : Conn) : Conn := {|
  remote_shard_layer_names := remote_shard_layer_names c; remote_pp_size := remote_pp_size c;
  overlapping_ranks := overlapping_ranks c; src_xfer_handles_by_remote := x; borrowed_src_handles
  := borrowed_src_handles c; shard_region_group_ids := shard_region_group_ids c;
  shard_descs_per_block := shard_descs_per_block c; remote_agents := remote_agents c;
  dst_num_blocks := dst_num_blocks c; kv_caches_base_addr := kv_caches_base_addr c;
  dst_xfer_side_handles := dst_xfer_side_handles c; src_xfer_handles_by_block_size :=
  src_xfer_handles_by_block_size c; recving_transfers := recving_transfers c; sending_transfers :=
  sending_transfers c |}.
Definition set_borrowed_src_handles x (c : Conn) : Conn := {|
  remote_shard_layer_names := remote_shard_layer_names c; remote_pp_size := remote_pp_size c;
  overlapping_ranks := overlapping_ranks c; src_xfer_handles_by_remote :=
  src_xfer_handles_by_remote c; borrowed_src_handles := x; shard_region_group_ids :=
  shard_region_group_ids c; shard_descs_per_block := shard_descs_per_block c; remote_agents :=
  remote_agents c; dst_num_blocks := dst_num_blocks c; kv_caches_base_addr := kv_caches_base_addr
  c; dst_xfer_side_handles := dst_xfer_side_handles c; src_xfer_handles_by_block_size :=
  src_xfer_handles_by_block_size c; recving_transfers := recving_transfers c; sending_transfers :=
  sending_transfers c |}.
Definition set_shard_region_group_ids x (c : Conn) : Conn := {|
  remote_shard_layer_names := remote_shard_layer_names c; remote_pp_size := remote_pp_size c;
  overlapping_ranks := overlapping_ranks c; src_xfer_handles_by_remote :=
  src_xfer_handles_by_remote c; borrowed_src_handles := borrowed_src_handles c;
  shard_region_group_ids := x; shard_descs_per_block := shard_descs_per_block c; remote_agents :=
  remote_agents c; dst_num_blocks := dst_num_blocks c; kv_caches_base_addr := kv_caches_base_addr
  c; dst_xfer_side_handles := dst_xfer_side_handles c; src_xfer_handles_by_block_size :=
  src_xfer_handles_by_block_size c; recving_transfers := recving_transfers c; sending_transfers :=
  sending_transfers c |}.
Definition set_shard_descs_per_block x (c : Conn) : Conn := {|
  remote_shard_layer_names := remote_shard_layer_names c; remote_pp_size := remote_pp_size c;
  overlapping_ranks := overlapping_ranks c; src_xfer_handles_by_remote :=
  src_xfer_handles_by_remote c; borrowed_src_handles := borrowed_src_handles c;
  shard_region_group_ids := shard_region_group_ids c; shard_descs_per_block := x; remote_agents :=
  remote_agents c; dst_num_blocks := dst_num_blocks c; kv_caches_base_addr := kv_caches_base_addr
  c; dst_xfer_side_handles := dst_xfer_side_handles c; src_xfer_handles_by_block_size :=
  src_xfer_handles_by_block_size c; recving_transfers := recving_transfers c; sending_transfers :=
  sending_transfers c |}.
Definition set_remote_agents x (c : Conn) : Conn := {|
  remote_shard_layer_names := remote_shard_layer_names c; remote_pp_size := remote_pp_size c;
  overlapping_ranks := overlapping_ranks c; src_xfer_handles_by_remote :=
  src_xfer_handles_by_remote c; borrowed_src_handles := borrowed_src_handles c;
  shard_region_group_ids := shard_region_group_ids c; shard_descs_per_block :=
  shard_descs_per_block c; remote_agents := x; dst_num_blocks := dst_num_blocks c;
  kv_caches_base_addr := kv_caches_base_addr c; dst_xfer_side_handles := dst_xfer_side_handles c;
  src_xfer_handles_by_block_size := src_xfer_handles_by_block_size c; recving_transfers :=
  recving_transfers c; sending_transfers := sending_transfers c |}.
Definition set_dst_num_blocks x (c : Conn) : Conn := {|
  remote_shard_layer_names := remote_shard_layer_names c; remote_pp_size := remote_pp_size c;
  overlapping_ranks := overlapping_ranks c; src_xfer_handles_by_remote :=
  src_xfer_handles_by_remote c; borrowed_src_handles := borrowed_src_handles c;
  shard_region_group_ids := shard_region_group_ids c; shard_descs_per_block :=
  shard_descs_per_block c; remote_agents := remote_agents c; dst_num_blocks := x;
  kv_caches_base_addr := kv_caches_base_addr c; dst_xfer_side_handles := dst_xfer_side_handles c;
  src_xfer_handles_by_block_size := src_xfer_handles_by_block_size c; recving_transfers :=
  recving_transfers c; sending_transfers := sending_transfers c |}.
Definition set_kv_caches_base_addr x (c : Conn) : Conn := {|
  remote_shard_layer_names := remote_shard_layer_names c; remote_pp_size := remote_pp_size c;
  overlapping_ranks := overlapping_ranks c; src_xfer_handles_by_remote :=
  src_xfer_handles_by_remote c; borrowed_src_handles := borrowed_src_handles c;
  shard_region_group_ids := shard_region_group_ids c; shard_descs_per_block :=
  shard_descs_per_block c; remote_agents := remote_agents c; dst_num_blocks := dst_num_blocks c;
  kv_caches_base_addr := x; dst_xfer_side_handles := dst_xfer_side_handles c;
  src_xfer_handles_by_block_size := src_xfer_handles_by_block_size c; recving_transfers :=
  recving_transfers c; sending_transfers := sending_transfers c |}.
Definition set_dst_xfer_side_handles x (c : Conn) : Conn := {|
  remote_shard_layer_names := remote_shard_layer_names c; remote_pp_size := remote_pp_size c;
  overlapping_ranks := overlapping_ranks c; src_xfer_handles_by_remote :=
  src_xfer_handles_by_remote c; borrowed_src_handles := borrowed_src_handles c;
  shard_region_group_ids := shard_region_group_ids c; shard_descs_per_block :=
  shard_descs_per_block c; remote_agents := remote_agents c; dst_num_blocks := dst_num_blocks c;
  kv_caches_base_addr := kv_caches_base_addr c; dst_xfer_side_handles := x;
  src_xfer_handles_by_block_size := src_xfer_handles_by_block_size c; recving_transfers :=
  recving_transfers c; sending_transfers := sending_transfers c |}.
Definition set_src_xfer_handles_by_block_size x (c : Conn) : Conn := {|
  remote_shard_layer_names := remote_shard_layer_names c; remote_pp_size := remote_pp_size c;
  overlapping_ranks := overlapping_ranks c; src_xfer_handles_by_remote :=
  src_xfer_handles_by_remote c; borrowed_src_handles := borrowed_src_handles c;
  shard_region_group_ids := shard_region_group_ids c; shard_descs_per_block :=
  shard_descs_per_block c; remote_agents := remote_agents c; dst_num_blocks := dst_num_blocks c;
  kv_caches_base_addr := kv_caches_base_addr c; dst_xfer_side_handles := dst_xfer_side_handles c;
  src_xfer_handles_by_block_size := x; recving_transfers := recving_transfers c; sending_transfers
  := sending_transfers c |}.
Definition set_recving_transfers x (c : Conn) : Conn := {|
  remote_shard_layer_names := remote_shard_layer_names c; remote_pp_size := remote_pp_size c;
  overlapping_ranks := overlapping_ranks c; src_xfer_handles_by_remote :=
  src_xfer_handles_by_remote c; borrowed_src_handles := borrowed_src_handles c;
  shard_region_group_ids := shard_region_group_ids c; shard_descs_per_block :=
  shard_descs_per_block c; remote_agents := remote_agents c; dst_num_blocks := dst_num_blocks c;
  kv_caches_base_addr := kv_caches_base_addr c; dst_xfer_side_handles := dst_xfer_side_handles c;
  src_xfer_handles_by_block_size := src_xfer_handles_by_block_size c; recving_transfers := x;
  sending_transfers := sending_transfers c |}.
Definition set_sending_transfers x (c : Conn) : Conn := {|
  remote_shard_layer_names := remote_shard_layer_names c; remote_pp_size := remote_pp_size c;
  overlapping_ranks := overlapping_ranks c; src_xfer_handles_by_remote :=
  src_xfer_handles_by_remote c; borrowed_src_handles := borrowed_src_handles c;
  shard_region_group_ids := shard_region_group_ids c; shard_descs_per_block :=
  shard_descs_per_block c; remote_agents := remote_agents c; dst_num_blocks := dst_num_blocks c;
  kv_caches_base_addr := kv_caches_base_addr c; dst_xfer_side_handles := dst_xfer_side_handles c;
  src_xfer_handles_by_block_size := src_xfer_handles_by_block_size c; recving_transfers :=
  recving_transfers c; sending_transfers := x |}.

(** [d[k]]. *)
Definition dict_get `{Countable K} {V} (k : K) (f : Conn -> gmap K V) : HM V :=
  c ← nget f; lift (of_option (c !! k) KeyError).

(** A loop that carries local variables; they are lost when it raises. *)
Fixpoint fold_each {S A B} (f : B -> A -> M S B) (acc : B) (l : list A) : M S B :=
  match l with
  | [] => mret acc
  | x :: l => acc ← f acc x; fold_each f acc l
  end.

Section handshake.
Context `{NixlBase} `{Nixl}.
Implicit Types (w : Worker) (m : RblnNixlAgentMetadata).

(** ** One peer rank *)

(** [compat] is our hash, [enforce] [enforce_compat_hash]. *)
Definition _query_agent_meta (enforce : bool) (compat : string) (pp_rank tp_rank : Z)
    (expected_engine_id : string) : HM Reply :=
  r ← perform (QueryMeta pp_rank tp_rank);
  if enforce && negb (bool_decide (r_hash r = compat)) then raise RuntimeError
  else if negb (bool_decide (m_engine_id (r_meta r) = expected_engine_id)) then raise RuntimeError
  else if m_kv_slices (r_meta r) <=? 0 then raise RuntimeError
  else mret r.

Definition _register_remote_engine_prelude m (remote_tp_size : Z) : HM unit :=
  perform (RegisterRemoteEngine (m_engine_id m) remote_tp_size (m_block_size m)).

Definition _validate_remote_agent_handshake w m (remote_tp_size : Z) : HM unit :=
  lift (validate_common w m remote_tp_size) ;;
  if m_pp_size m <=? 1 then
    hm ← lift (_is_head_matched_peer w remote_tp_size);
    if (hm : bool) then
      lift (_validate_head_matched_handshake w m remote_tp_size
              (names_or_none (m_registered_layer_names m)))
    else
      when (1 <? kv_per_block w)
        (ratio ← lift (block_size_ratio (block_size w) (m_block_size m));
         lift (require (ratio =? 1) RuntimeError)) ;;
      perform (SuperValidate m remote_tp_size)
  else
    info ← perform (GetEngineInfo (m_engine_id m));
    dst ← dict_get (m_engine_id m) dst_num_blocks;
    lift (validate_pipelined w m remote_tp_size (e_tp_size info) dst).

(** What adding a peer records of it: its number of blocks, once for all its ranks, and its
    base addresses. *)
Definition store_peer m (remote_tp_rank : Z) : HM unit :=
  set_conn (fun c =>
    let c := match dst_num_blocks c !! m_engine_id m with
             | Some _ => c
             | None => set_dst_num_blocks (<[m_engine_id m := m_num_blocks m]> (dst_num_blocks c)) c
             end in
    set_kv_caches_base_addr
      (<[(m_engine_id m, remote_tp_rank) := m_kv_caches_base_addr m]> (kv_caches_base_addr c)) c).

Definition _add_remote_agent_head_matched w m (remote_tp_rank remote_tp_size : Z)
    (registered_layer_names : option (list string)) : HM string :=
  q ← lift (py_floordiv remote_tp_rank remote_tp_size);
  peer_tp_rank ← lift (py_mod remote_tp_rank remote_tp_size);
  agents ← nget remote_agents;
  match agents !! (m_engine_id m, (q, peer_tp_rank)) with
  | Some agent => mret agent
  | None =>
      lift (_reject_uneven_region_slices w) ;;
      _register_remote_engine_prelude m remote_tp_size ;;
      agent ← perform (AddRemoteAgent (m_agent_metadata m));
      store_peer m remote_tp_rank ;;
      _validate_remote_agent_handshake w m remote_tp_size ;;
      areas ← lift (_fan_in_peer_areas w peer_tp_rank remote_tp_size);
      blocks_data ← lift (_build_head_matched_remote w m peer_tp_rank remote_tp_size
                            registered_layer_names areas);
      handle ← perform (PrepXferDlist agent blocks_data);
      set_conn (fun c => set_dst_xfer_side_handles
        (<[(m_engine_id m, remote_tp_rank) := handle]> (dst_xfer_side_handles c)) c) ;;
      mret agent
  end.

(** The remote list of the sliding-window layout: whole blocks, then windows.  [replicated]
    is [is_kv_replicated], [ratio] the window ratio. *)
Definition swa_remote_descs w m (ratio block_ratio tp_ratio : Z) (replicated : bool)
    : res (list desc) :=
  let indexes_into_remote := negb replicated && (0 <? tp_ratio) in
  extend_all (fun divisor =>
    extend_all (fun '(i, base_addr) =>
      local_block_len ← get_backend_aware_kv_block_len w i;
      remote_kv_block_len ← py_floordiv local_block_len block_ratio;
      let local_block_len := if 1 <? block_ratio then remote_kv_block_len else local_block_len in
      half ← py_floordiv local_block_len (kv_per_block w);
      desc_len ← py_floordiv half divisor;
      rank_offset ← (if indexes_into_remote
                     then r ← py_mod (tp_rank w) tp_ratio; Ok (r * remote_kv_block_len)
                     else Ok 0);
      page_size ← of_option (py_nth (m_block_lens m) i) IndexError;
      kv_stride ← py_floordiv page_size (kv_per_block w);
      Ok (block_id ← py_range (m_num_blocks m);
          kv ← py_range (kv_per_block w);
          [(base_addr + block_id * page_size + rank_offset + kv * kv_stride, desc_len,
            m_device_id m)]))
      (zip (py_range (len (m_kv_caches_base_addr m))) (m_kv_caches_base_addr m))) [1; ratio].

(** [add_remote_agent] with the window view; [replicated engine] is [is_kv_replicated]. *)
Definition add_remote_agent_swa w (ratio : Z) (replicated : string -> bool) m
    (remote_tp_rank remote_tp_size : Z) : HM string :=
  q ← lift (py_floordiv remote_tp_rank remote_tp_size);
  r ← lift (py_mod remote_tp_rank remote_tp_size);
  agents ← nget remote_agents;
  match agents !! (m_engine_id m, (q, r)) with
  | Some agent => mret agent
  | None =>
      _register_remote_engine_prelude m remote_tp_size ;;
      agent ← perform (AddRemoteAgent (m_agent_metadata m));
      lift (require (negb (has_mamba w)) AssertionError) ;;
      block_ratio ← lift (block_size_ratio (block_size w) (m_block_size m));
      store_peer m remote_tp_rank ;;
      _validate_remote_agent_handshake w m remote_tp_size ;;
      tpr ← lift (tp_ratio (tp_size w) remote_tp_size);
      lift (require (0 <=? tpr) AssertionError) ;;
      blocks_data ← lift (swa_remote_descs w m ratio block_ratio tpr (replicated (m_engine_id m)));
      handle ← perform (PrepXferDlist agent blocks_data);
      set_conn (fun c => set_dst_xfer_side_handles
        (<[(m_engine_id m, remote_tp_rank) := handle]> (dst_xfer_side_handles c)) c) ;;
      when (1 <? block_ratio)
        (locals ← lift (swa_local_descs w ratio (m_block_size m));
         h ← perform (PrepXferDlist "NIXL_INIT_AGENT" locals);
         set_conn (fun c => set_src_xfer_handles_by_block_size
           (<[m_block_size m := h]> (src_xfer_handles_by_block_size c)) c)) ;;
      mret agent
  end.

Definition add_remote_agent w (replicated : string -> bool) m (remote_tp_rank remote_tp_size : Z)
    : HM string :=
  match sw_ratio w with
  | Some ratio => add_remote_agent_swa w ratio replicated m remote_tp_rank remote_tp_size
  | None =>
      hm ← lift (_is_head_matched_peer w remote_tp_size);
      if (hm : bool)
      then _add_remote_agent_head_matched w m remote_tp_rank remote_tp_size None
      else
        a ← perform (SuperAddRemoteAgent m remote_tp_rank remote_tp_size);
        set_conn (fun c => set_dst_xfer_side_handles
          (<[(m_engine_id m, remote_tp_rank) := a.2]> (dst_xfer_side_handles c))
          (match dst_num_blocks c !! m_engine_id m with
           | Some _ => c
           | None => set_dst_num_blocks (<[m_engine_id m := m_num_blocks m]> (dst_num_blocks c)) c
           end)) ;;
        mret a.1
  end.

(** ** Per-shard state *)

(** Upstream's own head-band split, for host staging; [None] leaves the caller on the shard
    handler. *)
Definition _base_fan_in_handle w (engine_id : string) (global_rank peer_block_size : Z)
    (region_ids : list Z) (remote_tp_size : Z) : HM (option Z) :=
  if negb (use_host_buffer w) || negb (peer_block_size =? block_size w) then mret None
  else
    ratio ← lift (tp_ratio (tp_size w) remote_tp_size);
    if 0 <=? ratio then mret None
    else
      hs ← perform (FanInHandles ratio engine_id);
      lift (require (bool_decide (region_ids = py_range (num_regions w))) AssertionError) ;;
      lift (require (len hs.1 =? len hs.2) AssertionError) ;;
      i ← lift (of_option (list_find (eq global_rank) hs.2) ValueError);
      h ← lift (of_option (hs.1 !! i.1) IndexError);
      mret (Some h).

Definition _register_shard_xfer_state w (engine_id : string) (global_rank peer_block_size : Z)
    (registered_layer_names : list string) (peer_areas : option (list Z)) (split : Z)
    (remote_tp_size replica_fanout kv_runs : Z) : HM unit :=
  region_ids ← lift (_shard_local_region_ids w registered_layer_names peer_areas);
  let key := (engine_id, global_rank, peer_block_size) in
  borrowed ← _base_fan_in_handle w engine_id global_rank peer_block_size region_ids remote_tp_size;
  handle ← match borrowed with
           | Some h =>
               set_conn (fun c => set_borrowed_src_handles ({[key]} ∪ borrowed_src_handles c) c) ;;
               mret h
           | None =>
               lift (require (bool_decide (sw_ratio w = None)) AssertionError) ;;
               descs ← lift (shard_local_descs w peer_block_size split region_ids replica_fanout kv_runs);
               perform (PrepXferDlist "NIXL_INIT_AGENT" descs)
           end;
  set_conn (fun c => set_src_xfer_handles_by_remote
    (<[key := handle]> (src_xfer_handles_by_remote c)) c) ;;
  lift (require (n_groups w =? 1) AssertionError) ;;
  set_conn (fun c => set_shard_region_group_ids
    (<[(engine_id, global_rank) := replicate (length region_ids) 0]> (shard_region_group_ids c))
    (set_shard_descs_per_block
      (<[(engine_id, global_rank) := split * replica_fanout * kv_runs]> (shard_descs_per_block c)) c)).

Definition drop_engine `{Countable B} {V} (engine_id : string) (d : gmap (string * B) V)
    : gmap (string * B) V := filter (fun kv => kv.1.1 <> engine_id) d.

(** [_cleanup_remote_engine]; the order of the keys is the dict's, which no one sees. *)
Definition release_shard_handle (kh : (string * Z * Z) * Z) : HM unit :=
  set_conn (fun c => set_src_xfer_handles_by_remote (delete kh.1 (src_xfer_handles_by_remote c)) c) ;;
  b ← nget (fun c => bool_decide (kh.1 ∈ borrowed_src_handles c));
  if (b : bool)
  then set_conn (fun c => set_borrowed_src_handles (borrowed_src_handles c ∖ {[kh.1]}) c)
  else perform (ReleaseDlistHandle kh.2).

Definition _cleanup_remote_engine (engine_id : string) : HM unit :=
  handles ← nget src_xfer_handles_by_remote;
  for_each (map_to_list (filter (fun kh : (string * Z * Z) * Z => kh.1.1.1 = engine_id) handles))
    release_shard_handle ;;
  set_conn (fun c =>
    set_shard_region_group_ids (drop_engine engine_id (shard_region_group_ids c))
    (set_shard_descs_per_block (drop_engine engine_id (shard_descs_per_block c))
    (set_remote_shard_layer_names (drop_engine engine_id (remote_shard_layer_names c))
    (set_overlapping_ranks (delete engine_id (overlapping_ranks c))
    (set_remote_pp_size (delete engine_id (remote_pp_size c)) c))))) ;;
  perform (SuperCleanup engine_id).

(** ** [_nixl_handshake] *)

(** The local variables of the loop. *)
Record Locals := {
  rank_to_agent : gmap (Z * Z) string;
  overlapping : list Z;
  best_rtt : Z;
  best_offset : Z
}.

Definition with_agent (key : Z * Z) (agent : string) (v : Locals) : Locals := {|
  rank_to_agent := <[key := agent]> (rank_to_agent v); overlapping := overlapping v;
  best_rtt := best_rtt v; best_offset := best_offset v |}.
Definition with_overlap (global_rank : Z) (v : Locals) : Locals := {|
  rank_to_agent := rank_to_agent v; overlapping := overlapping v ++ [global_rank];
  best_rtt := best_rtt v; best_offset := best_offset v |}.
Definition with_best (r : Reply) (v : Locals) : Locals :=
  if r_rtt r <? best_rtt v
  then {| rank_to_agent := rank_to_agent v; overlapping := overlapping v;
          best_rtt := r_rtt r; best_offset := r_offset r |}
  else v.

(** Whether the peer is served by less than upstream's whole-engine handle. *)
Definition narrowed (pp_size : Z) (partial fan_in : bool) (split kv_runs : Z) : bool :=
  (1 <? pp_size) || partial || fan_in || (1 <? split) || (1 <? kv_runs).

(** One shard that is not only notified: its descriptors and, where it is narrowed, its
    per-shard state. *)
Definition add_shard w (replicated : string -> bool) (expected_engine_id : string)
    (pp_size remote_tp_size pp_rank remote_tp_rank : Z) m (v : Locals) : HM Locals :=
  let global_rank := pp_rank * remote_tp_size + remote_tp_rank in
  let names := m_registered_layer_names m in
  set_conn (fun c => set_remote_shard_layer_names
    (<[(expected_engine_id, global_rank) := names]> (remote_shard_layer_names c)) c) ;;
  let overlap := _layer_overlap w names in
  if bool_decide (overlap = []) then mret v
  else
    let partial := len overlap <? len names in
    split ← lift (_peer_head_split w m remote_tp_size);
    kv_runs ← lift (_peer_kv_runs w m remote_tp_size);
    fanout ← lift (_peer_replica_fanout w m remote_tp_size);
    fan_in ← lift (_is_fan_in_peer w remote_tp_size);
    hm ← lift (_is_head_matched_peer w remote_tp_size);
    agent ← (if (hm : bool)
             then _add_remote_agent_head_matched w m global_rank remote_tp_size (Some names)
             else
               m' ← lift (if partial then _trim_agent_meta_to_layers w m overlap else Ok m);
               add_remote_agent w replicated m' global_rank remote_tp_size);
    let v := with_agent (pp_rank, remote_tp_rank) agent v in
    if negb (narrowed pp_size partial fan_in split kv_runs) then mret v
    else
      areas ← lift (_fan_in_peer_areas w remote_tp_rank remote_tp_size);
      _register_shard_xfer_state w expected_engine_id global_rank (m_block_size m) names areas
        split remote_tp_size fanout kv_runs ;;
      mret (with_overlap global_rank v).

Definition handshake_shard w (replicated : string -> bool) (enforce : bool)
    (compat expected_engine_id : string) (pp_size remote_tp_size : Z) (notif_agents_only : bool)
    (first : Z * Z) (first_meta : RblnNixlAgentMetadata) (v : Locals) (pr : Z * Z) : HM Locals :=
  let '(pp_rank, remote_tp_rank) := pr in
  mv ← (if bool_decide (pr = first) then mret (first_meta, v)
        else
          r ← _query_agent_meta enforce compat pp_rank remote_tp_rank expected_engine_id;
          mret (r_meta r, with_best r v));
  let '(metadata, v) := (mv : RblnNixlAgentMetadata * Locals) in
  if notif_agents_only then
    agent ← perform (AddNotifOnlyAgent (m_agent_metadata metadata) remote_tp_size);
    mret (with_agent pr agent v)
  else add_shard w replicated expected_engine_id pp_size remote_tp_size pp_rank remote_tp_rank metadata v.

(** [ranks] is [handshake_target_ranks(remote_tp_size)], [caller_pp_size] the argument
    [remote_pp_size]. *)
Definition _nixl_handshake w (replicated : string -> bool) (enforce : bool) (compat : string)
    (ranks : list Z) (remote_tp_size : Z) (expected_engine_id : string) (caller_pp_size : Z)
    (notif_agents_only : bool) : HM (gmap (Z * Z) string * Z) :=
  first_rank ← lift (of_option (head ranks) IndexError);
  first ← _query_agent_meta enforce compat 0 first_rank expected_engine_id;
  let pp_size := m_pp_size (r_meta first) in
  lift (check_handshake_sizes w pp_size caller_pp_size remote_tp_size notif_agents_only) ;;
  v ← fold_each (handshake_shard w replicated enforce compat expected_engine_id pp_size
                   remote_tp_size notif_agents_only (0, first_rank) (r_meta first))
        {| rank_to_agent := ∅; overlapping := []; best_rtt := r_rtt first; best_offset := r_offset first |}
        (pp_rank ← py_range pp_size; (fun r => (pp_rank, r)) <$> ranks);
  set_conn (fun c => set_overlapping_ranks (<[expected_engine_id := overlapping v]> (overlapping_ranks c))
    (set_remote_pp_size (<[expected_engine_id := pp_size]> (remote_pp_size c)) c)) ;;
  mret (rank_to_agent v, best_offset v).

(** ** Transfers *)

(** The request's side of a transfer ([ReqMeta]): the peer's engine, request and blocks, and
    our blocks. *)
Record ReqMeta := {
  q_engine_id : string;
  q_request_id : string;
  q_remote_block_ids : list (list Z);
  q_local_block_ids : list (list Z)
}.

Definition _xfer_notif_id w (engine_id remote_request_id : string) (remote_tp_size : Z)
    (count_stages : bool) : HM (string * Z) :=
  c ← nget remote_pp_size;
  n ← lift (xfer_notif_count w (default 1 (c !! engine_id)) remote_tp_size count_stages);
  mret (remote_request_id, n).

(** [l[-n:]] for [0 <= n]: the last [n] elements, but all of them where [n] is zero. *)
Definition last_n {A} (n : Z) (l : list A) : list A :=
  if n =? 0 then l else drop (length l - Z.to_nat n)%nat l.

(** Drop from our side, from the front, the blocks the consumer already had. *)
Definition trim_group (local remote : list Z) : res (list Z) :=
  if len local <? len remote then Raise RuntimeError
  else if len remote <? len local then Ok (last_n (len remote) local)
  else Ok local.

Fixpoint _trim_to_consumer_blocks (local_block_ids remote_block_ids : list (list Z))
    : res (list (list Z)) :=
  match remote_block_ids, local_block_ids with
  | [], locals => Ok locals
  | _ :: _, [] => Raise IndexError
  | remote :: remotes, local :: locals =>
      l ← trim_group local remote;
      ls ← _trim_to_consumer_blocks locals remotes;
      Ok (l :: ls)
  end.

(** [try: m / except Exception: ...]: what [m] returned, or nothing. *)
Definition attempt {A} (m : HM A) : HM (option A) := fun s =>
  match m s with
  | (s', Ok a) => (s', Ok (Some a))
  | (s', Raise _) => (s', Ok None)
  end.

Definition shard_desc_ids (engine_id : string) (global_rank num_blocks : Z)
    (block_ids : list (list Z)) : HM (list Z) :=
  groups ← dict_get (engine_id, global_rank) shard_region_group_ids;
  c ← nget shard_descs_per_block;
  lift (_get_block_descs_ids_for_shard groups (default 1 (c !! (engine_id, global_rank)))
          num_blocks block_ids).

(** What both directions hand to NIXL for one shard: our handle and ids, then theirs. *)
Definition shard_transfer w (engine_id : string) (global_rank remote_block_size : Z)
    (local_block_ids remote_block_ids : list (list Z)) : HM (Z * list Z * (Z * list Z)) :=
  dst ← dict_get engine_id dst_num_blocks;
  remote_descs ← shard_desc_ids engine_id global_rank dst remote_block_ids;
  local_descs ← shard_desc_ids engine_id global_rank (num_blocks w) local_block_ids;
  lift (require (len local_descs =? len remote_descs) AssertionError) ;;
  local_handle ← dict_get (engine_id, global_rank, remote_block_size) src_xfer_handles_by_remote;
  remote_handle ← dict_get (engine_id, global_rank) dst_xfer_side_handles;
  mret (local_handle, local_descs, (remote_handle, remote_descs)).

(** [make_prepped_xfer] and [transfer]: the handle, and whether both succeeded. *)
Definition submit (op : Direction) (ours theirs : Z * list Z) (notif : string * Z)
    : HM (option Z * bool) :=
  h ← attempt (perform (MakePreppedXfer op ours.1 ours.2 theirs.1 theirs.2 notif));
  match h with
  | None => mret (None, false)
  | Some handle =>
      sent ← attempt (perform (Transfer handle));
      mret (Some handle, bool_decide (is_Some sent))
  end.

Definition submit_shard w (op : Direction) (engine_id : string) (global_rank remote_block_size : Z)
    (local_block_ids remote_block_ids : list (list Z)) (notif : string * Z)
    : HM (option Z * bool) :=
  t ← shard_transfer w engine_id global_rank remote_block_size local_block_ids remote_block_ids;
  submit op t.1 t.2 notif.

(** [push_worker.py]: one peer rank of a write; a peer that fails does not stop the rest. *)
Definition write_shard w (engine_id : string) (remote_block_size : Z)
    (local_block_ids remote_block_ids : list (list Z)) (notif : string * Z)
    (handles : list Z) (global_rank : Z) : HM (list Z) :=
  r ← submit_shard w WRITE engine_id global_rank remote_block_size local_block_ids remote_block_ids notif;
  match r with
  | (Some h, true) => mret (handles ++ [h])
  | (Some h, false) => perform (ReleaseXferHandle h) ;; mret handles
  | (None, _) => mret handles
  end.

Definition total_len (groups : list (list Z)) : Z := sumZ (len <$> groups).

Definition extend_transfers (req_id : string) (handles : list Z) (d : gmap string (list Z))
    : gmap string (list Z) := <[req_id := default [] (d !! req_id) ++ handles]> d.

Definition _xfer_blocks_for_req w (req_id : string) (meta : ReqMeta) : HM unit :=
  let engine_id := q_engine_id meta in
  info ← perform (GetEngineInfo engine_id);
  ranks ← nget overlapping_ranks;
  match default [] (ranks !! engine_id) with
  | [] =>
      locals ← (if e_physical_per_logical info =? 1
                then lift (_trim_to_consumer_blocks (q_local_block_ids meta) (q_remote_block_ids meta))
                else mret (q_local_block_ids meta));
      perform (SuperTransfer WRITE req_id locals (q_remote_block_ids meta))
  | peer_ranks =>
      ratio ← lift (block_size_ratio (block_size w) (e_block_size info));
      lift (require (ratio =? 1) AssertionError) ;;
      let remotes := logical_to_kernel_block_ids (q_remote_block_ids meta) (e_physical_per_logical info) in
      notif ← _xfer_notif_id w engine_id (q_request_id meta) (e_tp_size info) false;
      locals ← lift (_trim_to_consumer_blocks (q_local_block_ids meta) remotes);
      if total_len locals =? 0 then mret tt
      else
        handles ← fold_each (write_shard w engine_id (e_block_size info) locals remotes notif) [] peer_ranks;
        when (negb (bool_decide (handles = [])))
          (set_conn (fun c => set_sending_transfers (extend_transfers req_id handles (sending_transfers c)) c))
  end.

(** [pull_worker.py]: the handles submitted so far, or [None] once a shard failed and the
    request was given up. *)
Definition read_shard w (req_id engine_id : string) (info : EngineInfo)
    (local_block_ids remote_block_ids : list (list Z)) (prefix_hit : bool) (notif : string * Z)
    (handles : option (list Z)) (global_rank : Z) : HM (option (list Z)) :=
  match handles with
  | None => mret None
  | Some handles =>
      if prefix_hit then
        q ← lift (py_floordiv global_rank (e_tp_size info));
        r ← lift (py_mod global_rank (e_tp_size info));
        agent ← dict_get (engine_id, (q, r)) remote_agents;
        _ ← attempt (perform (SendNotif agent notif));
        mret (Some handles)
      else
        r ← submit_shard w READ engine_id global_rank (e_block_size info) local_block_ids
              remote_block_ids notif;
        match r with
        | (Some h, true) => mret (Some (handles ++ [h]))
        | (h, _) =>
            for_each handles (fun submitted => perform (ReleaseXferHandle submitted)) ;;
            perform (HandleFailedTransfer req_id h) ;;
            mret None
        end
  end.

Definition _read_blocks_for_req w (req_id : string) (meta : ReqMeta) : HM unit :=
  let engine_id := q_engine_id meta in
  info ← perform (GetEngineInfo engine_id);
  ranks ← nget overlapping_ranks;
  match default [] (ranks !! engine_id) with
  | [] => perform (SuperTransfer READ req_id (q_local_block_ids meta) (q_remote_block_ids meta))
  | peer_ranks =>
      ratio ← lift (block_size_ratio (block_size w) (e_block_size info));
      lift (require (ratio =? 1) AssertionError) ;;
      let remotes := logical_to_kernel_block_ids (q_remote_block_ids meta) (e_physical_per_logical info) in
      let locals := q_local_block_ids meta in
      notif ← _xfer_notif_id w engine_id (q_request_id meta) (e_tp_size info) true;
      let prefix_hit := bool_decide (locals = []) in
      lr ← (if prefix_hit then mret (locals, remotes)
            else
              lift (require ((len remotes =? len locals) && (len locals =? n_groups w)) AssertionError) ;;
              perform (SuperApplyPrefixCaching locals remotes));
      let '(locals, remotes) := (lr : list (list Z) * list (list Z)) in
      handles ← fold_each (read_shard w req_id engine_id info locals remotes prefix_hit notif)
                  (Some []) peer_ranks;
      match handles with
      | Some (h :: hs) =>
          set_conn (fun c => set_recving_transfers (extend_transfers req_id (h :: hs) (recving_transfers c)) c)
      | _ => mret tt
      end
  end.
End handshake.
