(* ===== verification/KvHandshakeSpec.v ===== *)
(** * KV transfer: what the handshake prepares, and what a transfer moves *)
From S2P Require Import Prelude Effects KvTransfer KvLayout KvBands KvTransferSpec KvHandshake.

(** ** Descriptor ids *)

Lemma shard_ids_row region nb per group i t b :
  0 < per -> 0 <= t -> at_ group t = Some b -> 0 <= i < per ->
  at_ (b ← group;
       let block_ix := region * nb + b in
       if per =? 1 then [block_ix] else (fun i => block_ix * per + i) <$> py_range per)
    (t * per + i) = Some ((region * nb + b) * per + i).
Proof.
  intros Hper Ht Hb Hi. rewrite (bind_at _ _ per); [|intros x _|done|done].
  - rewrite Hb. cbn [mbind option_bind]. cbn zeta. destruct (Z.eqb_spec per 1) as [->|].
    + replace i with 0 by lia. transitivity (Some (region * nb + b)); [done|f_equal; lia].
    + rewrite list_lookup_fmap, py_range_at by done. done.
  - cbn zeta. destruct (Z.eqb_spec per 1) as [->|]; [done|].
    unfold len. rewrite length_fmap. fold (len (py_range per)). apply py_range_len. lia.
Qed.

Lemma shard_ids_row_len region nb per group : 0 < per ->
  len (b ← group;
       let block_ix := region * nb + b in
       if per =? 1 then [block_ix] else (fun i => block_ix * per + i) <$> py_range per) =
  len group * per.
Proof.
  intros Hper. apply bind_len. intros x _. cbn zeta. destruct (Z.eqb_spec per 1) as [->|]; [done|].
  unfold len. rewrite length_fmap. fold (len (py_range per)). apply py_range_len. lia.
Qed.

(** The ids of a group of blocks over [n] regions: region, then block, then piece. *)
Lemma shard_ids_at n per nb group rest :
  0 < per ->
  exists ids, _get_block_descs_ids_for_shard (replicate n 0) per nb (group :: rest) = Ok ids /\
    len ids = Z.of_nat n * (len group * per) /\
    forall q t b i, 0 <= q < Z.of_nat n -> 0 <= t -> at_ group t = Some b -> 0 <= i < per ->
      at_ ids ((q * len group + t) * per + i) = Some ((q * nb + b) * per + i).
Proof.
  intros Hper. unfold _get_block_descs_ids_for_shard.
  set (f := fun rg : Z * Z => _).
  assert (Hlen0 : len (replicate n 0) = Z.of_nat n) by (unfold len; by rewrite length_replicate).
  assert (Hf : forall region, f (region, 0) = Ok (b ← group;
    let block_ix := region * nb + b in
    if per =? 1 then [block_ix] else (fun i => block_ix * per + i) <$> py_range per)) by done.
  assert (Hel : forall x, x ∈ zip (py_range (len (replicate n 0))) (replicate n 0) -> x.2 = 0).
  { intros [i x] [_ Hx]%enumerate_elem. by apply lookup_replicate in Hx as [-> _]. }
  destruct (extend_all_Ok f (zip (py_range (len (replicate n 0))) (replicate n 0))) as [ids Hids].
  { intros [r g] Hg. pose proof (Hel _ Hg) as Hz. cbn in Hz. subst. rewrite Hf. eauto. }
  assert (Hrow : forall a y, a ∈ zip (py_range (len (replicate n 0))) (replicate n 0) -> f a = Ok y ->
    len y = len group * per).
  { intros [r g] y Hg Hy. pose proof (Hel _ Hg) as Hz. cbn in Hz. subst. rewrite Hf in Hy.
    injection Hy as <-. by apply shard_ids_row_len. }
  exists ids. split; [exact Hids|]. split.
  - rewrite (extend_all_len _ _ _ _ Hids Hrow). unfold len at 1. rewrite length_zip_with.
    fold (len (py_range (len (replicate n 0)))). unfold py_range. rewrite length_seqZ, Hlen0, length_replicate. lia.
  - intros q t b i Hq Ht Hb Hi. pose proof (at_range _ _ _ Ht Hb).
    destruct (extend_all_at _ _ _ _ q (t * per + i) (q, 0) Hids Hrow) as (y & Hy & Hat); [lia| |nia|].
    + apply enumerate_at; [lia|]. apply lookup_replicate. split; [done|lia].
    + rewrite Hf in Hy. injection Hy as <-.
      replace ((q * len group + t) * per + i) with (q * (len group * per) + (t * per + i)) by lia.
      rewrite Hat. by apply shard_ids_row.
Qed.

(** ** What a shard's entries stand for *)
Section shard.
Context `{NixlBase} `{Nixl} (w : Worker).

(** The two lists of a shard, their handles, and how they were computed. *)
Record Lists := {
  l_local : list desc;
  l_remote : list desc;
  l_agent : string;
  l_lh : Z;
  l_rh : Z;
  l_areas : option (list Z);
  l_split : Z;
  l_runs : Z;
  l_fan : Z;
  l_rids : list Z
}.

Definition per_block (d : Lists) : Z := l_split d * l_fan d * l_runs d.

(** The entries of [(engine_id, global_rank)] describe the lists of a peer with this
    metadata, and NIXL was given these lists. *)
Record prepared (s : Conn * history) (engine_id : string) (global_rank : Z)
    (m : RblnNixlAgentMetadata) (rank rtp : Z) (d : Lists) : Prop := {
  pr_plan : plan w m rank rtp (l_areas d) (l_split d) (l_runs d) (l_fan d);
  pr_remote : _build_head_matched_remote w m rank rtp (Some (m_registered_layer_names m)) (l_areas d) =
    Ok (l_remote d);
  pr_rids : _shard_local_region_ids w (m_registered_layer_names m) (l_areas d) = Ok (l_rids d);
  pr_local : shard_local_descs w (m_block_size m) (l_split d) (l_rids d) (l_fan d) (l_runs d) =
    Ok (l_local d);
  pr_src : src_xfer_handles_by_remote s.1 !! (engine_id, global_rank, m_block_size m) = Some (l_lh d);
  pr_dst : dst_xfer_side_handles s.1 !! (engine_id, global_rank) = Some (l_rh d);
  pr_groups : shard_region_group_ids s.1 !! (engine_id, global_rank) =
    Some (replicate (length (l_rids d)) 0);
  pr_per : shard_descs_per_block s.1 !! (engine_id, global_rank) = Some (per_block d);
  pr_blocks : dst_num_blocks s.1 !! engine_id = Some (m_num_blocks m);
  pr_prep_l : Event (PrepXferDlist "NIXL_INIT_AGENT" (l_local d)) (Ok (l_lh d)) ∈ s.2;
  pr_prep_r : Event (PrepXferDlist (l_agent d) (l_remote d)) (Ok (l_rh d)) ∈ s.2
}.

Context `{!NixlBaseLaws} (m : RblnNixlAgentMetadata) (heads : string -> Z) (rank rtp : Z).
Hypothesis our_side : worker_ok w heads.
Hypothesis their_side : registered (peer_side m rank rtp).
Hypothesis their_blocks : 0 <= m_num_blocks m.

Lemma plan_per_pos q areas split runs fan rids remote :
  plan w m rank rtp areas split runs fan ->
  _build_head_matched_remote w m rank rtp (Some (m_registered_layer_names m)) areas = Ok remote ->
  _shard_local_region_ids w (m_registered_layer_names m) areas = Ok rids ->
  0 <= q < len rids -> 0 < split * fan * runs.
Proof.
  intros Hplan Hb Hrids Hq. destruct (build_inv _ _ _ _ _ _ _ _ _ Hplan Hb) as (pairs & Hpairs & _).
  destruct (plan_region w m heads rank rtp our_side their_side _ _ _ _ _ _ q Hplan Hrids Hpairs Hq)
    as (u & t & area & l & p & c & n & pl & pr & hb & _ & _ & _ & _ & _ & _ & _ & _ & _ & _ & _ & _ & G).
  destruct (cut_facts _ _ _ _ _ our_side their_side _ _ _ _ _ _ _ _ G (plan_cut _ _ _ _ _ _ _ _ Hplan)) as (Hs & Hr & _).
  rewrite (plan_fanout w m rank rtp their_side _ _ _ _ Hplan); [|apply G|apply G].
  pose proof (fanout_bounds w m _ _ their_side (g_slices_r _ _ _ _ _ _ _ _ _ _ _ G) (g_areas_r _ _ _ _ _ _ _ _ _ _ _ G)).
  nia.
Qed.

(** Where an id of a shard's list comes from. *)
Lemma id_split n g per k : 0 < per -> 0 < g -> 0 <= k < n * (g * per) ->
  exists q t i, 0 <= q < n /\ 0 <= t < g /\ 0 <= i < per /\ k = (q * g + t) * per + i.
Proof.
  intros Hp Hg Hk. destruct (row_split n g per k Hg Hp) as (q & t & i & ? & ? & ? & ->); [nia|].
  by exists q, t, i.
Qed.

Lemma shard_transfer_eq s engine_id global_rank m' rank' rtp' d locals remotes :
  prepared s engine_id global_rank m' rank' rtp' d ->
  shard_transfer w engine_id global_rank (m_block_size m') locals remotes s =
  (s, ri ← _get_block_descs_ids_for_shard (replicate (length (l_rids d)) 0) (per_block d) (m_num_blocks m') remotes;
      li ← _get_block_descs_ids_for_shard (replicate (length (l_rids d)) 0) (per_block d) (num_blocks w) locals;
      assert! len li =? len ri;
      Ok (l_lh d, li, (l_rh d, ri))).
Proof.
  intros [_ _ _ _ Hs Hd Hg Hp Hn _ _].
  unfold shard_transfer, shard_desc_ids, dict_get, nget, gets, lift, mbind, M_bind.
  rewrite Hn. cbn [of_option]. rewrite Hg. cbn [of_option]. rewrite Hp. cbn [default from_option].
  destruct (_get_block_descs_ids_for_shard _ _ (m_num_blocks m') remotes) as [ri|]; [|done].
  try rewrite Hg; cbn [of_option]; try rewrite Hp; cbn [default from_option].
  destruct (_get_block_descs_ids_for_shard _ _ (num_blocks w) locals) as [li|]; [|done].
  unfold require. cbn [mbind res_bind]. destruct (len li =? len ri); [|done]. cbn [mbind res_bind].
  rewrite Hs. cbn [of_option]. by rewrite Hd.
Qed.
End shard.

(** C3: A transfer of one shard pairs our blocks with the peer's one for one, byte for byte.
    Given as many of our blocks as of the peer's, the two id lists are as long as each other,
    and at every place the descriptor our id names (in the list prepared under our handle)
    and the one the peer's id names (in the list prepared under theirs) hold the same
    bytes of the two blocks at one position of the block lists. *)
Theorem transfer_moves_same_bytes `{NixlBase} `{Nixl} `{!NixlBaseLaws} w m heads rank rtp s engine_id
    global_rank d local_blocks remote_blocks :
  worker_ok w heads -> registered (peer_side m rank rtp) -> 0 <= m_num_blocks m ->
  prepared w s engine_id global_rank m rank rtp d ->
  Forall (fun b => 0 <= b < num_blocks w) local_blocks ->
  Forall (fun b => 0 <= b < m_num_blocks m) remote_blocks ->
  len local_blocks = len remote_blocks -> 0 < len (l_rids d) ->
  exists li ri,
    shard_transfer w engine_id global_rank (m_block_size m) [local_blocks] [remote_blocks] s =
      (s, Ok (l_lh d, li, (l_rh d, ri))) /\
    len li = len ri /\ len li = len (l_rids d) * (len local_blocks * per_block d) /\
    forall k a b, 0 <= k -> at_ li k = Some a -> at_ ri k = Some b ->
      exists t bl br addr_l addr_r size,
        0 <= t /\ at_ local_blocks t = Some bl /\ at_ remote_blocks t = Some br /\ 0 < size /\
        at_ (l_local d) a = Some (addr_l, size, device_id w) /\
        at_ (l_remote d) b = Some (addr_r, size, m_device_id m) /\
        forall x, 0 <= x < size -> exists id,
          holds (local_side w) heads (addr_l + x) bl id /\
          holds (peer_side m rank rtp) heads (addr_r + x) br id.
Proof.
  intros Hw Hm Hnb Hd Hbl Hbr Hlen Hr.
  assert (Hper : 0 < per_block d).
  { apply (plan_per_pos w m heads rank rtp Hw Hm 0 _ _ _ _ _ _ (pr_plan _ _ _ _ _ _ _ _ Hd)
      (pr_remote _ _ _ _ _ _ _ _ Hd) (pr_rids _ _ _ _ _ _ _ _ Hd)). lia. }
  destruct (shard_ids_at (length (l_rids d)) (per_block d) (num_blocks w) local_blocks [] Hper)
    as (li & Hli & Hlli & Hatl).
  destruct (shard_ids_at (length (l_rids d)) (per_block d) (m_num_blocks m) remote_blocks [] Hper)
    as (ri & Hri & Hlri & Hatr).
  exists li, ri. split.
  { rewrite (shard_transfer_eq w _ _ _ _ _ _ _ _ _ Hd). rewrite Hri, Hli. cbn [mbind res_bind].
    replace (len li =? len ri) with true; [done|]. symmetry. apply Z.eqb_eq. rewrite Hlli, Hlri. by rewrite Hlen. }
  fold (len (l_rids d)) in Hlli, Hlri, Hatl, Hatr. split; [rewrite Hlli, Hlri; by rewrite Hlen|]. split; [done|].
  intros k a b Hk Ha Hb. pose proof (at_range _ _ _ Hk Ha) as Hka. rewrite Hlli in Hka.
  assert (Hg : 0 < len local_blocks) by nia.
  destruct (id_split (len (l_rids d)) (len local_blocks) (per_block d) k Hper Hg ltac:(lia)) as (q & t & i & Hq & Ht & Hi & ->).
  destruct (at_some local_blocks t Ht) as [bl Htl]. destruct (at_some remote_blocks t ltac:(lia)) as [br Htr].
  rewrite (Hatl q t bl i Hq ltac:(lia) Htl Hi) in Ha. rewrite Hlen in Hb.
  rewrite (Hatr q t br i Hq ltac:(lia) Htr Hi) in Hb. injection Ha as <-. injection Hb as <-.
  assert (Hbl' : 0 <= bl < num_blocks w) by (apply (Forall_forall _ _) with (x := bl) in Hbl; [done|by apply list_elem_of_lookup_2 in Htl]).
  assert (Hbr' : 0 <= br < m_num_blocks m) by (apply (Forall_forall _ _) with (x := br) in Hbr; [done|by apply list_elem_of_lookup_2 in Htr]).
  destruct (transfer_pairs_same_bytes w m heads rank rtp Hw Hm Hnb _ _ _ _ _ _ _ q bl br i (pr_plan _ _ _ _ _ _ _ _ Hd)
      (pr_remote _ _ _ _ _ _ _ _ Hd) (pr_rids _ _ _ _ _ _ _ _ Hd) (pr_local _ _ _ _ _ _ _ _ Hd) Hq Hbl' Hbr' Hi)
    as (al & ar & size & Hsz & Hal & Har & Hbytes).
  exists t, bl, br, al, ar, size. split; [lia|done].
Qed.
