(* ===== verification/KvShardSpec.v ===== *)
(** * KV transfer: a handshake leaves every shard prepared *)
From S2P Require Import Prelude Effects KvTransfer KvLayout KvBands KvTransferSpec KvHandshake KvHandshakeSpec.

Section wp.
Context `{Nixl}.
Implicit Types s : Conn * history.

Lemma wp_nixl (c : ncall) s (Q : ans c -> Conn * history -> Prop) E :
  (forall a, reply s.2 c = Ok a -> Q a (s.1, Event c (Ok a) :: s.2)) ->
  (forall e, reply s.2 c = Raise e -> E e (s.1, Event c (Raise e) :: s.2)) ->
  wp (perform c) s Q E.
Proof. unfold wp, perform. destruct (reply s.2 c) as [a|e] eqn:Ea; auto. Qed.

Lemma wp_nget {A} (f : Conn -> A) s Q (E : exn -> Conn * history -> Prop) :
  Q (f s.1) s -> wp (nget f) s Q E.
Proof. done. Qed.

Lemma wp_set_conn f s (Q : unit -> Conn * history -> Prop) (E : exn -> Conn * history -> Prop) :
  Q tt (f s.1, s.2) -> wp (set_conn f) s Q E.
Proof. done. Qed.

Lemma wp_lift_ok {S A} (r : res A) (s : S) (Q : A -> S -> Prop) :
  (forall a, r = Ok a -> Q a s) -> wp (lift r) s Q (fun _ _ => True).
Proof. intros. by apply wp_lift. Qed.

Lemma wp_dict_get `{Countable K} {V} (k : K) (f : Conn -> gmap K V) s (Q : V -> Conn * history -> Prop) :
  (forall v, f s.1 !! k = Some v -> Q v s) -> wp (dict_get k f) s Q (fun _ _ => True).
Proof. intros HQ. unfold wp, dict_get, nget, gets, lift, mbind, M_bind. destruct (f s.1 !! k); cbn; auto. Qed.

Lemma wp_fold_each {A B} (f : B -> A -> HM B) (I : list A -> B -> Conn * history -> Prop) l acc s E :
  I [] acc s ->
  (forall done_ x todo acc' s', l = done_ ++ x :: todo -> I done_ acc' s' ->
    wp (f acc' x) s' (fun acc'' s'' => I (done_ ++ [x]) acc'' s'') E) ->
  wp (fold_each f acc l) s (fun acc' s' => I l acc' s') E.
Proof.
  intros HI Hb. cut (forall todo done_ acc s, l = done_ ++ todo -> I done_ acc s ->
    wp (fold_each f acc todo) s (fun acc' s' => I l acc' s') E); [intros Hc; by apply (Hc l [])|].
  clear acc s HI. induction todo as [|x todo IH]; intros done_ acc s Hl HI; cbn [fold_each].
  - rewrite app_nil_r in Hl. subst. by apply wp_ret.
  - apply wp_bind. eapply wp_mono; [by apply (Hb done_ x todo)| |done]. cbn.
    intros acc' s' Hacc. apply (IH (done_ ++ [x])); [|done]. by rewrite <- app_assoc.
Qed.
End wp.

Ltac nixl_call :=
  lazymatch goal with |- wp (perform ?c) ?s ?Q ?E => refine (wp_nixl c s Q E _ _) end.

(** Steps through a call that may raise, of which only the returning path matters. *)
Ltac ok_step :=
  lazymatch goal with
  | |- wp (mbind _ _) _ _ _ => apply wp_bind
  | |- wp (mret _) _ _ _ => apply wp_ret
  | |- wp (nget _) _ _ _ => apply wp_nget
  | |- wp (set_conn _) _ _ _ => apply wp_set_conn
  | |- wp (lift _) _ _ _ => apply wp_lift_ok; let a := fresh "a" in let E := fresh "E" in intros a E
  | |- wp (dict_get _ _) _ _ _ => apply wp_dict_get; let a := fresh "v" in let E := fresh "E" in intros a E
  | |- wp (raise _) _ _ _ => by apply wp_raise
  | |- wp (perform ?c) ?s ?Q ?E =>
      refine (wp_nixl c s Q E _ _); [let a := fresh "a" in let E := fresh "E" in intros a E|done]
  | |- wp (when _ _) _ _ _ => apply wp_when; intros ?
  end; cbn beta.

Section handshake.
Context `{NixlBase} `{Nixl} (w : Worker).

(** What adding one peer keeps of the rest of the state. *)
Record frame (engine_id : string) (g nb : Z) (s s' : Conn * history) : Prop := {
  fr_hist : forall e, e ∈ s.2 -> e ∈ s'.2;
  fr_agents : remote_agents s'.1 = remote_agents s.1;
  fr_over : overlapping_ranks s'.1 = overlapping_ranks s.1;
  fr_src : forall e g' bs, (e, g') <> (engine_id, g) ->
    src_xfer_handles_by_remote s'.1 !! (e, g', bs) = src_xfer_handles_by_remote s.1 !! (e, g', bs);
  fr_dst : forall k, k <> (engine_id, g) -> dst_xfer_side_handles s'.1 !! k = dst_xfer_side_handles s.1 !! k;
  fr_groups : forall k, k <> (engine_id, g) -> shard_region_group_ids s'.1 !! k = shard_region_group_ids s.1 !! k;
  fr_per : forall k, k <> (engine_id, g) -> shard_descs_per_block s'.1 !! k = shard_descs_per_block s.1 !! k;
  fr_blocks : dst_num_blocks s'.1 !! engine_id = Some (default nb (dst_num_blocks s.1 !! engine_id)) \/
    dst_num_blocks s'.1 !! engine_id = dst_num_blocks s.1 !! engine_id
}.

(** The checks of a head-matched peer passed. *)
Lemma validate_ok m rtp s :
  _is_head_matched_peer w rtp = Ok true ->
  wp (_validate_remote_agent_handshake w m rtp) s (fun _ s' =>
    s'.1 = s.1 /\ (forall e, e ∈ s.2 -> e ∈ s'.2) /\
    _check_d2d_region_pairing w m rtp = Ok tt /\
    _validate_head_matched_handshake w m rtp (names_or_none (m_registered_layer_names m)) = Ok tt)
    (fun _ _ => True).
Proof.
  intros Hhm. pose proof (head_matched_inv w rtp Hhm) as (_ & r & Hr & Hr1).
  unfold _validate_remote_agent_handshake. ok_step. ok_step.
  assert (Hd : _check_d2d_region_pairing w m rtp = Ok tt).
  { unfold validate_common in E. destruct (_check_split_axis_constraints _ _ _); [|done].
    cbn [mbind res_bind] in E. destruct (_check_mla_constraints _ _ _); [|done].
    cbn [mbind res_bind] in E. by destruct a. }
  destruct (m_pp_size m <=? 1).
  - ok_step. rewrite Hhm. ok_step. injection E0 as <-. ok_step. destruct a0. done.
  - repeat ok_step. cbn [fst snd]. split; [done|]. split; [intros; by right|]. split; [done|].
    unfold validate_pipelined in E2.
    destruct (e_tp_size _ =? rtp); [|done]. cbn [require mbind res_bind] in E2.
    rewrite Hr in E2. cbn [mbind res_bind] in E2. destruct (0 <? r); [|done]. cbn [mbind res_bind] in E2.
    destruct (Z.eqb_spec r 1); [done|]. cbn [negb] in E2.
    by destruct (_validate_head_matched_handshake _ _ _ _) as [[]|].
Qed.

(** A peer's dictionaries; its descriptors come later. *)
Lemma stored_ok m g s s' :
  s'.1 = (store_peer m g s).1.1 -> (forall e, e ∈ s.2 -> e ∈ s'.2) ->
  frame (m_engine_id m) g (m_num_blocks m) s s' /\
  src_xfer_handles_by_remote s'.1 = src_xfer_handles_by_remote s.1 /\
  dst_num_blocks s'.1 !! m_engine_id m = Some (default (m_num_blocks m) (dst_num_blocks s.1 !! m_engine_id m)).
Proof.
  intros Hc Hh. cbn in Hc.
  assert (Hblocks : dst_num_blocks s'.1 !! m_engine_id m =
    Some (default (m_num_blocks m) (dst_num_blocks s.1 !! m_engine_id m))).
  { rewrite Hc. destruct (dst_num_blocks s.1 !! m_engine_id m) eqn:Ed; cbn; [by rewrite Ed|].
    by rewrite lookup_insert_eq. }
  split; [|split; [|exact Hblocks]].
  - constructor; try (intros; rewrite Hc; by destruct (dst_num_blocks s.1 !! m_engine_id m)).
    + exact Hh.
    + by left.
  - rewrite Hc. by destruct (dst_num_blocks s.1 !! m_engine_id m).
Qed.

Lemma global_rank_mod pp rtp rank : 0 <= rank < rtp ->
  (pp * rtp + rank) / rtp = pp /\ (pp * rtp + rank) mod rtp = rank.
Proof.
  intros Hr. rewrite Z.add_comm, Z.div_add, Z_mod_plus_full, Z.div_small, Z.mod_small by lia. lia.
Qed.

Lemma add_head_matched_ok m pp rank rtp s :
  let g := pp * rtp + rank in
  let names := m_registered_layer_names m in
  _is_head_matched_peer w rtp = Ok true -> 0 <= rank < rtp ->
  remote_agents s.1 !! (m_engine_id m, (pp, rank)) = None ->
  wp (_add_remote_agent_head_matched w m g rtp (Some names)) s (fun agent s' =>
    frame (m_engine_id m) g (m_num_blocks m) s s' /\
    src_xfer_handles_by_remote s'.1 = src_xfer_handles_by_remote s.1 /\
    dst_num_blocks s'.1 !! m_engine_id m = Some (default (m_num_blocks m) (dst_num_blocks s.1 !! m_engine_id m)) /\
    _check_d2d_region_pairing w m rtp = Ok tt /\
    _validate_head_matched_handshake w m rtp (names_or_none names) = Ok tt /\
    exists areas remote rh, _fan_in_peer_areas w rank rtp = Ok areas /\
      _build_head_matched_remote w m rank rtp (Some names) areas = Ok remote /\
      dst_xfer_side_handles s'.1 !! (m_engine_id m, g) = Some rh /\
      Event (PrepXferDlist agent remote) (Ok rh) ∈ s'.2)
    (fun _ _ => True).
Proof.
  intros g names Hhm Hrank Hnone. destruct (global_rank_mod pp rtp rank Hrank) as [Hdiv Hmod].
  unfold _add_remote_agent_head_matched. repeat ok_step.
  apply py_floordiv_Ok in E as [_ ->]. apply py_mod_Ok in E0 as [_ ->]. unfold g. rewrite Hdiv, Hmod, Hnone.
  unfold _register_remote_engine_prelude, store_peer. repeat ok_step.
  eapply wp_mono; [by apply validate_ok| |done]. cbn beta. intros [] s' (Hc & Hh & Hd & Hv).
  destruct (stored_ok m (pp * rtp + rank) s s' Hc) as (Hf & Hsrc & Hblk).
  { intros e He. apply Hh. cbn [snd]. by do 2 right. }
  repeat ok_step. cbn [fst snd].
  split; [|split; [exact Hsrc|split; [exact Hblk|split; [done|split; [done|]]]]].
  - destruct Hf. constructor; cbn; try done.
    + intros e He. right. auto.
    + intros k Hk. rewrite lookup_insert_ne by done. auto.
  - eexists _, _, _. split; [exact E2|]. split; [exact E3|]. cbn.
    split; [by rewrite lookup_insert_eq|]. by left.
Qed.

Lemma register_shard_ok engine_id g pbs names areas split rtp fan runs s :
  _is_head_matched_peer w rtp = Ok true ->
  wp (_register_shard_xfer_state w engine_id g pbs names areas split rtp fan runs) s (fun _ s' =>
    (forall nb, frame engine_id g nb s s') /\
    dst_num_blocks s'.1 = dst_num_blocks s.1 /\ dst_xfer_side_handles s'.1 = dst_xfer_side_handles s.1 /\
    exists rids local lh, _shard_local_region_ids w names areas = Ok rids /\
      shard_local_descs w pbs split rids fan runs = Ok local /\
      src_xfer_handles_by_remote s'.1 !! (engine_id, g, pbs) = Some lh /\
      shard_region_group_ids s'.1 !! (engine_id, g) = Some (replicate (length rids) 0) /\
      shard_descs_per_block s'.1 !! (engine_id, g) = Some (split * fan * runs) /\
      Event (PrepXferDlist "NIXL_INIT_AGENT" local) (Ok lh) ∈ s'.2)
    (fun _ _ => True).
Proof.
  intros Hhm. pose proof (head_matched_inv w rtp Hhm) as (Hhost & _).
  unfold _register_shard_xfer_state. ok_step. ok_step. ok_step.
  unfold _base_fan_in_handle. rewrite Hhost. cbn [negb orb]. repeat ok_step. cbn [fst snd].
  split; [|split; [done|split; [done|]]].
  - intros nb. constructor; cbn; try done; [intros; by right| | | |by right].
    + intros e g' bs Hne. rewrite lookup_insert_ne; [done|]. congruence.
    + intros k Hk. by rewrite lookup_insert_ne.
    + intros k Hk. by rewrite lookup_insert_ne.
  - eexists _, _, _. split; [exact E|]. split; [exact E1|]. cbn.
    rewrite !lookup_insert_eq. do 3 (split; [done|]). by left.
Qed.

Lemma shard_frame_refl engine_id g nb s : frame engine_id g nb s s.
Proof. constructor; auto. Qed.

Lemma shard_frame_trans engine_id g nb s1 s2 s3 :
  frame engine_id g nb s1 s2 -> frame engine_id g nb s2 s3 -> frame engine_id g nb s1 s3.
Proof.
  intros [H1 H2 H3 H4 H5 H6 H7 H8] [K1 K2 K3 K4 K5 K6 K7 K8]. constructor; try congruence.
  - auto.
  - intros. rewrite K4 by done. auto.
  - intros. rewrite K5 by done. auto.
  - intros. rewrite K6 by done. auto.
  - intros. rewrite K7 by done. auto.
  - destruct H8 as [E1|E1], K8 as [E2|E2]; rewrite E2, ?E1; auto.
Qed.

(** A shard that is added is either left to upstream's handle or prepared. *)
Lemma add_shard_ok replicated engine_id pp_size rtp pp rank m v s :
  let g := pp * rtp + rank in
  _is_head_matched_peer w rtp = Ok true -> 0 <= rank < rtp -> m_engine_id m = engine_id ->
  remote_agents s.1 !! (engine_id, (pp, rank)) = None ->
  default (m_num_blocks m) (dst_num_blocks s.1 !! engine_id) = m_num_blocks m ->
  wp (add_shard w replicated engine_id pp_size rtp pp rank m v) s (fun v' s' =>
    frame engine_id g (m_num_blocks m) s s' /\
    (overlapping v' = overlapping v \/
     overlapping v' = overlapping v ++ [g] /\ exists d, prepared w s' engine_id g m rank rtp d))
    (fun _ _ => True).
Proof.
  intros g Hhm Hrank <- Hnone Hnb. unfold add_shard. fold g. ok_step. ok_step.
  set (s1 := (_, s.2)).
  assert (F1 : frame (m_engine_id m) g (m_num_blocks m) s s1) by (constructor; cbn; auto).
  destruct (bool_decide _) eqn:Eo; [apply wp_ret; auto|].
  repeat ok_step. rewrite Hhm in E3. injection E3 as <-.
  eapply wp_mono; [by apply (add_head_matched_ok m pp rank rtp s1)| |done]. cbn beta.
  intros agent s2 (F2 & Hsrc & Hblk & Hd & Hv & areas & remote & rh & Ha & Hb & Hdst & Hev).
  destruct (negb _); [apply wp_ret; split; [by eapply shard_frame_trans|by left]|].
  repeat ok_step. rewrite Ha in E3. injection E3 as <-.
  eapply wp_mono; [by apply (register_shard_ok (m_engine_id m) g (m_block_size m) (m_registered_layer_names m) areas a rtp a1 a0)| |done].
  cbn beta. intros [] s3 (F3 & Hn3 & Hd3 & rids & local & lh & Hrids & Hlocal & Hsrc3 & Hg3 & Hp3 & Hev3).
  apply wp_ret. split; [by do 2 (eapply shard_frame_trans; [eassumption|])|]. right. split; [done|].
  assert (Hnames : m_registered_layer_names m <> []).
  { intros E'. apply bool_decide_eq_false in Eo. apply Eo. unfold _layer_overlap. by rewrite E'. }
  exists {| l_local := local; l_remote := remote; l_agent := agent; l_lh := lh; l_rh := rh;
    l_areas := areas; l_split := a; l_runs := a0; l_fan := a1; l_rids := rids |}.
  constructor; cbn; try done.
  - constructor; try done. unfold names_or_none in Hv. by rewrite bool_decide_false in Hv by done.
  - by rewrite Hd3.
  - transitivity (Some (default (m_num_blocks m) (dst_num_blocks s.1 !! m_engine_id m)));
      [rewrite Hn3; exact Hblk|by rewrite Hnb].
  - apply (F3 0). done.
Qed.

Lemma prepared_frame s s' engine_id g g' nb m rank rtp d :
  frame engine_id g' nb s s' -> g <> g' -> prepared w s engine_id g m rank rtp d ->
  nb = m_num_blocks m -> prepared w s' engine_id g m rank rtp d.
Proof.
  intros [H1 H2 H3 H4 H5 H6 H7 H8] Hne [P1 P2 P3 P4 P5 P6 P7 P8 P9 P10 P11] ->. constructor; try done; auto.
  - rewrite H4 by congruence. done.
  - rewrite H5 by congruence. done.
  - rewrite H6 by congruence. done.
  - rewrite H7 by congruence. done.
  - destruct H8 as [E|E]; rewrite E; [by rewrite P9|done].
Qed.

Lemma query_ok enforce compat pp r engine_id s :
  wp (_query_agent_meta enforce compat pp r engine_id) s (fun a s' =>
    s'.1 = s.1 /\ (forall e, e ∈ s.2 -> e ∈ s'.2) /\ m_engine_id (r_meta a) = engine_id /\
    exists h, reply h (QueryMeta pp r) = Ok a)
    (fun _ _ => True).
Proof.
  unfold _query_agent_meta. repeat ok_step.
  destruct (_ && _); [by apply wp_raise|].
  destruct (bool_decide _) eqn:Eb; [|by apply wp_raise]. apply bool_decide_eq_true in Eb. cbn [negb].
  destruct (_ <=? 0); [by apply wp_raise|]. apply wp_ret. cbn [fst snd].
  split; [done|]. split; [intros; by right|]. eauto.
Qed.

(** What holds of the loop over the shards: [l] are the shards done. *)
Record shards_done (engine_id : string) (rtp nb : Z) (l : list (Z * Z)) (v : Locals)
    (s : Conn * history) : Prop := {
  sd_agents : forall k, remote_agents s.1 !! (engine_id, k) = None;
  sd_blocks : default nb (dst_num_blocks s.1 !! engine_id) = nb;
  sd_ready : forall g, g ∈ overlapping v -> exists pp rank m d, g = pp * rtp + rank /\
    (pp, rank) ∈ l /\ m_engine_id m = engine_id /\ m_num_blocks m = nb /\
    prepared w s engine_id g m rank rtp d
}.

Lemma with_best_overlapping r v : overlapping (with_best r v) = overlapping v.
Proof. unfold with_best. by destruct (_ <? _). Qed.

Lemma shards_done_mono engine_id rtp nb l v v' s s' :
  shards_done engine_id rtp nb l v s -> s'.1 = s.1 -> (forall e, e ∈ s.2 -> e ∈ s'.2) ->
  overlapping v' = overlapping v -> shards_done engine_id rtp nb l v' s'.
Proof.
  intros [Ha Hb Hr] Hc Hh Hv. constructor; [by rewrite Hc|by rewrite Hc|]. rewrite Hv. intros g Hg.
  destruct (Hr g Hg) as (pp & rank & m & d & ? & ? & ? & ? & [P1 P2 P3 P4 P5 P6 P7 P8 P9 P10 P11]).
  exists pp, rank, m, d. do 4 (split; [done|]). constructor; rewrite ?Hc; auto.
Qed.

Lemma shard_pairs_nodup n (ranks : list Z) : NoDup ranks ->
  NoDup (py_range n ≫= fun pp => (fun r => (pp, r)) <$> ranks).
Proof.
  intros Hr. assert (Hn : NoDup (py_range n)) by apply NoDup_seqZ.
  induction Hn as [|pp l Hni Hn IH]; [constructor|]. cbn [mbind list_bind]. apply NoDup_app.
  split; [apply (NoDup_fmap_2_strong _); [by intros x y _ _ [= ->]|done]|]. split; [|done].
  intros [a b] (y & E & _)%list_elem_of_fmap (x & (z & E' & _)%list_elem_of_fmap & Hx)%list_elem_of_bind.
  congruence.
Qed.

Lemma shard_step replicated engine_id pp_size rtp nb l pp rank m v s :
  _is_head_matched_peer w rtp = Ok true -> 0 <= rank < rtp -> (pp, rank) ∉ l ->
  Forall (fun p : Z * Z => 0 <= p.2 < rtp) l ->
  m_engine_id m = engine_id -> m_num_blocks m = nb -> shards_done engine_id rtp nb l v s ->
  wp (add_shard w replicated engine_id pp_size rtp pp rank m v) s
    (shards_done engine_id rtp nb (l ++ [(pp, rank)])) (fun _ _ => True).
Proof.
  intros Hhm Hrank Hnew Hl Hen Hnb [Ha Hb Hr]. subst nb.
  eapply wp_mono; [by apply add_shard_ok| |done]. cbn beta. intros v' s' [F Hov].
  assert (Hold : forall g, g ∈ overlapping v -> exists pp' rank' m' d, g = pp' * rtp + rank' /\
    (pp', rank') ∈ l ++ [(pp, rank)] /\ m_engine_id m' = engine_id /\ m_num_blocks m' = m_num_blocks m /\
    prepared w s' engine_id g m' rank' rtp d).
  { intros g Hg. destruct (Hr g Hg) as (pp' & rank' & m' & d & -> & Hin & He & Hn & Hp).
    exists pp', rank', m', d. do 4 (split; [done || set_solver|]).
    eapply prepared_frame; [exact F| |exact Hp|done].
    rewrite Forall_forall in Hl. specialize (Hl _ Hin). cbn in Hl.
    destruct (global_rank_mod pp rtp rank Hrank) as [D1 M1]. destruct (global_rank_mod pp' rtp rank' Hl) as [D2 M2].
    intros E. rewrite E in D2, M2. apply Hnew. assert ((pp, rank) = (pp', rank')) as -> by (f_equal; congruence). done. }
  constructor.
  - intros k. by rewrite (fr_agents _ _ _ _ _ F).
  - destruct (fr_blocks _ _ _ _ _ F) as [E|E]; rewrite E; [by rewrite Hb|done].
  - intros g Hg. destruct Hov as [E|[E [d Hd]]]; rewrite E in Hg; [by apply Hold|].
    apply elem_of_app in Hg as [Hg| ->%list_elem_of_singleton]; [by apply Hold|].
    exists pp, rank, m, d. split; [done|]. split; [set_solver|done].
Qed.
End handshake.

(** C7: A handshake leaves every shard it narrows ready.  Against an engine of another TP degree,
    not yet known, whose ranks hold equally many blocks: when the handshake returns, every
    rank in [overlapping_ranks] is one of the peer's [(pp_rank, tp_rank)] shards, NIXL was
    given both of its descriptor lists, and the entries a transfer looks up -- the two
    handles, the regions, the descriptors per block, the number of blocks -- are those of these
    lists, computed from the metadata this very shard answered. *)
Theorem handshake_prepares_shards `{NixlBase} `{Nixl} w replicated enforce compat ranks rtp engine_id
    caller_pp s nb :
  _is_head_matched_peer w rtp = Ok true -> NoDup ranks -> Forall (fun r => 0 <= r < rtp) ranks ->
  (forall k, remote_agents s.1 !! (engine_id, k) = None) ->
  default nb (dst_num_blocks s.1 !! engine_id) = nb ->
  (forall h pp r a, reply h (QueryMeta pp r) = Ok a -> m_num_blocks (r_meta a) = nb) ->
  wp (_nixl_handshake w replicated enforce compat ranks rtp engine_id caller_pp false) s
    (fun _ s' => exists l, overlapping_ranks s'.1 !! engine_id = Some l /\
      forall g, g ∈ l -> exists pp rank m d, g = pp * rtp + rank /\ rank ∈ ranks /\
        m_engine_id m = engine_id /\ prepared w s' engine_id g m rank rtp d)
    (fun _ _ => True).
Proof.
  intros Hhm Hnd Hranks Hnone Hdst Hnb. unfold _nixl_handshake. repeat ok_step. rename a into r0.
  eapply wp_mono; [apply query_ok| |done]. cbn beta. intros first s1 (Hs1 & _ & He1 & h1 & Hq1).
  repeat ok_step. set (todo := _ ≫= _).
  set (v0 := {| rank_to_agent := ∅ |}).
  eapply wp_mono; [apply (wp_fold_each _ (shards_done w engine_id rtp nb))|..]; cycle 2.
  - intros v s2 [Ha Hb Hr]. repeat ok_step. cbn. eexists. split; [by rewrite lookup_insert_eq|].
    intros g Hg. destruct (Hr g Hg) as (pp & rank & m & d & Eg & Hin & He & _ & Hd).
    exists pp, rank, m, d. split; [done|]. split.
    + apply list_elem_of_bind in Hin as (x & Hin & _). apply list_elem_of_fmap in Hin as (y & [= _ ->] & Hy). done.
    + split; [done|]. by destruct Hd.
  - done.
  - constructor; [by rewrite Hs1|by rewrite Hs1|]. intros g Hg. by apply not_elem_of_nil in Hg.
  - intros dn [pp rank] td v s2 Htodo Hdone. unfold handshake_shard.
    assert (Hin : forall p, p ∈ todo -> 0 <= p.2 < rtp).
    { intros p (x & (y & -> & Hy)%list_elem_of_fmap & _)%list_elem_of_bind. cbn. by rewrite Forall_forall in Hranks; apply Hranks. }
    pose proof (shard_pairs_nodup (m_pp_size (r_meta first)) ranks Hnd) as Hpn. fold todo in Hpn.
    rewrite Htodo in Hpn, Hin. apply NoDup_app in Hpn as (_ & Hdis & _).
    assert (Hnew : (pp, rank) ∉ dn) by (intros Hi; apply (Hdis _ Hi); by left).
    assert (Hdn : Forall (fun p : Z * Z => 0 <= p.2 < rtp) dn) by (apply Forall_forall; intros p Hp; apply Hin; set_solver).
    assert (Hrk : 0 <= rank < rtp) by (apply (Hin (pp, rank)); set_solver).
    ok_step. destruct (bool_decide _).
    + ok_step. apply shard_step; try done. by eapply Hnb.
    + ok_step. eapply wp_mono; [apply query_ok| |done]. cbn beta.
      intros a' s3 (Hs3 & Hh3 & He3 & h3 & Hq3). ok_step. apply shard_step; try done; [by eapply Hnb|].
      eapply shards_done_mono; [exact Hdone|done|done|apply with_best_overlapping].
Qed.
