(* ===== verification/KvFlowSpec.v ===== *)
(** * KV transfer: no handle is lost, and what the code does not do *)
From S2P Require Import Prelude Effects KvTransfer KvLayout KvHandshake KvShardSpec.

(** ** Reading the history *)

(** Transfer handles made, and those released or handed to the failure path. *)
Definition made1 (e : event) : list Z :=
  match e with
  | Event (MakePreppedXfer _ _ _ _ _ _) (Ok x) => [x]
  | _ => []
  end.
Definition settled1 (e : event) : list Z :=
  match ev_call e with
  | ReleaseXferHandle x => [x]
  | HandleFailedTransfer _ (Some x) => [x]
  | _ => []
  end.
Definition made (h : history) : list Z := h ≫= made1.
Definition settled (h : history) : list Z := h ≫= settled1.

#[global] Arguments made : simpl never.
#[global] Arguments settled : simpl never.
Lemma made_cons e h : made (e :: h) = made1 e ++ made h.
Proof. reflexivity. Qed.
Lemma settled_cons e h : settled (e :: h) = settled1 e ++ settled h.
Proof. reflexivity. Qed.

(** Descriptor lists given back. *)
Definition dlist_released1 (e : event) : list Z :=
  match ev_call e with ReleaseDlistHandle x => [x] | _ => [] end.
Definition dlists_released (h : history) : list Z := h ≫= dlist_released1.

(** ** Transfers *)
Section flow.
Context `{NixlBase} `{Nixl} (w : Worker).

(** A part of a transfer that makes no handle. *)
Definition quiet {A} (m : HM A) : Prop :=
  forall s, wp m s (fun _ s' => s'.1 = s.1 /\ made s'.2 = made s.2 /\ settled s'.2 = settled s.2)
    (fun _ _ => True).

Lemma quiet_ret {A} (a : A) : quiet (mret a).
Proof. intros s. by apply wp_ret. Qed.
Lemma quiet_lift {A} (r : res A) : quiet (lift r).
Proof. intros s. by apply wp_lift_ok. Qed.
Lemma quiet_nget {A} (f : Conn -> A) : quiet (nget f).
Proof. intros s. by apply wp_nget. Qed.
Lemma quiet_bind {A B} (m : HM A) (f : A -> HM B) : quiet m -> (forall a, quiet (f a)) -> quiet (m ≫= f).
Proof.
  intros Hm Hf s. apply wp_bind. eapply wp_mono; [apply Hm| |done]. cbn beta. intros a s' (H1 & H2 & H3).
  eapply wp_mono; [apply Hf| |done]. cbn beta. intros b s'' (K1 & K2 & K3). repeat split; congruence.
Qed.
Lemma quiet_dict_get `{Countable K} {V} (k : K) (f : Conn -> gmap K V) : quiet (dict_get k f).
Proof. apply quiet_bind; [apply quiet_nget|]. intros. apply quiet_lift. Qed.

Lemma quiet_shard_transfer engine_id g bs locals remotes :
  quiet (shard_transfer w engine_id g bs locals remotes).
Proof.
  unfold shard_transfer, shard_desc_ids.
  repeat (apply quiet_bind; [apply quiet_dict_get || apply quiet_lift || apply quiet_nget ||
    (repeat (apply quiet_bind; [apply quiet_dict_get || apply quiet_nget|intros ?]); apply quiet_lift)|intros ?]).
  apply quiet_ret.
Qed.

Lemma wp_attempt {A} (m : HM A) s (Q : option A -> Conn * history -> Prop) E :
  wp m s (fun a s' => Q (Some a) s') (fun _ s' => Q None s') -> wp (attempt m) s Q E.
Proof. unfold wp, attempt. by destruct (m s) as [s' [a|e]]. Qed.

(** A submission makes at most the handle it answers, and settles none. *)
Lemma submit_ok op ours theirs notif s :
  wp (submit op ours theirs notif) s (fun r s' => s'.1 = s.1 /\ settled s'.2 = settled s.2 /\
    match r.1 with
    | Some h => made s'.2 = h :: made s.2
    | None => made s'.2 = made s.2 /\ r.2 = false
    end) (fun _ _ => True).
Proof.
  unfold submit. apply wp_bind, wp_attempt. nixl_call.
  - intros h _. apply wp_bind, wp_attempt. nixl_call; intros; by apply wp_ret.
  - intros e _. by apply wp_ret.
Qed.

Lemma submit_shard_ok op engine_id g bs locals remotes notif s :
  wp (submit_shard w op engine_id g bs locals remotes notif) s (fun r s' =>
    s'.1 = s.1 /\ settled s'.2 = settled s.2 /\
    match r.1 with
    | Some h => made s'.2 = h :: made s.2
    | None => made s'.2 = made s.2 /\ r.2 = false
    end) (fun _ _ => True).
Proof.
  unfold submit_shard. apply wp_bind. eapply wp_mono; [apply quiet_shard_transfer| |done].
  cbn beta. intros t s' (E1 & E2 & E3). eapply wp_mono; [apply submit_ok| |done].
  cbn beta. intros r s'' (K1 & K2 & K3). rewrite <- E1, <- E2, <- E3. done.
Qed.

Lemma notif_quiet engine_id req rtp b : quiet (_xfer_notif_id w engine_id req rtp b).
Proof.
  unfold _xfer_notif_id. apply quiet_bind; [apply quiet_nget|]. intros c.
  apply quiet_bind; [apply quiet_lift|]. intros n. apply quiet_ret.
Qed.

(** The reads of a request: all of them in flight, or given up with every handle settled. *)
Definition reads_so_far (s0 : Conn * history) (l : list Z) (hs : option (list Z)) (s : Conn * history) : Prop :=
  s.1 = s0.1 /\
  match hs with
  | Some hs => length hs = length l /\ made s.2 ≡ₚ hs ++ made s0.2 /\ settled s.2 = settled s0.2
  | None => exists new, made s.2 ≡ₚ new ++ made s0.2 /\ settled s.2 ≡ₚ new ++ settled s0.2
  end.

Lemma release_all hs (s : Conn * history) :
  wp (for_each hs (fun h => perform (ReleaseXferHandle h))) s (fun _ s' =>
    s'.1 = s.1 /\ made s'.2 = made s.2 /\ settled s'.2 ≡ₚ hs ++ settled s.2) (fun _ _ => True).
Proof.
  revert s. induction hs as [|h hs IH]; intros s; cbn [for_each]; [by apply wp_ret|].
  apply wp_bind. nixl_call; [|done]. intros [] _. eapply wp_mono; [apply IH| |done]. cbn beta.
  intros [] s' (E1 & E2 & E3). split; [done|]. split; [done|]. rewrite E3. cbn [snd]. rewrite settled_cons. cbn. by rewrite Permutation_middle.
Qed.

Lemma read_shard_ok req engine_id info locals remotes notif s0 l hs g s :
  reads_so_far s0 l hs s ->
  wp (read_shard w req engine_id info locals remotes false notif hs g) s
    (reads_so_far s0 (l ++ [g])) (fun _ _ => True).
Proof.
  intros [Hc Hs]. destruct hs as [hs|]; cbn [read_shard]; [|by apply wp_ret].
  destruct Hs as (Hlen & Hm & Hst). apply wp_bind. eapply wp_mono; [apply submit_shard_ok| |done].
  cbn beta. intros [[h|] ok] s1 (E1 & E2 & E3); cbn [fst snd] in E3.
  - destruct ok.
    + apply wp_ret. split; [congruence|]. rewrite !length_app, Hlen. split; [done|].
      split; [|congruence]. rewrite E3, Hm. by rewrite <- app_assoc, Permutation_middle.
    + apply wp_bind. eapply wp_mono; [apply release_all| |done]. cbn beta. intros [] s2 (K1 & K2 & K3).
      apply wp_bind. nixl_call; [|done]. intros [] _. apply wp_ret. split; [cbn; congruence|].
      exists (h :: hs). cbn [snd]. rewrite made_cons, settled_cons. cbn [made1 settled1 ev_call app].
      by rewrite K2, E3, Hm, K3, E2, Hst.
  - destruct E3 as [E3 ->]. apply wp_bind. eapply wp_mono; [apply release_all| |done]. cbn beta.
    intros [] s2 (K1 & K2 & K3). apply wp_bind. nixl_call; [|done]. intros [] _. apply wp_ret.
    split; [cbn; congruence|]. exists hs. cbn [snd]. rewrite made_cons, settled_cons.
    cbn [made1 settled1 ev_call app]. by rewrite K2, E3, K3, E2, Hst.
Qed.
End flow.

(** C39: A read is published whole or not at all.  When the shards of a request have been gone
    through, either one handle per shard was made, none was settled, and exactly these
    were appended to the request's list; or the list is unchanged and every handle that
    was made on the way was released or handed to the failure path. *)
Theorem read_publishes_all_or_nothing `{NixlBase} `{Nixl} w req meta s ranks :
  overlapping_ranks s.1 !! q_engine_id meta = Some ranks -> ranks <> [] -> q_local_block_ids meta <> [] ->
  wp (_read_blocks_for_req w req meta) s (fun _ s' => exists new,
    made s'.2 ≡ₚ new ++ made s.2 /\
    ((length new = length ranks /\ settled s'.2 = settled s.2 /\
      recving_transfers s'.1 = extend_transfers req new (recving_transfers s.1)) \/
     (recving_transfers s'.1 = recving_transfers s.1 /\ settled s'.2 ≡ₚ new ++ settled s.2)))
    (fun _ _ => True).
Proof.
  intros Hov Hne Hloc. unfold _read_blocks_for_req. do 2 ok_step. ok_step. ok_step. cbn [fst]. rewrite Hov.
  cbn [from_option]. unfold id. destruct ranks as [|g0 ranks]; [done|]. cbn iota. repeat ok_step.
 eapply wp_mono; [apply notif_quiet| |done]. cbn beta. intros notif s2 (K1 & K2 & K3).
  rewrite bool_decide_false by done. repeat ok_step.
  destruct a3 as [locals remotes]. set (s3 := (s2.1, _)).
  assert (H3 : s3.1 = s.1 /\ made s3.2 = made s.2 /\ settled s3.2 = settled s.2).
  { cbn [s3 fst snd]. rewrite K1, made_cons, settled_cons, K2, K3. done. }
  destruct H3 as (H31 & H32 & H33).
  ok_step. eapply wp_mono; [apply (wp_fold_each _ (reads_so_far s3))| |done].
  - split; [done|]. cbn. done.
  - intros dn g td hs s4 _ Hs. by apply read_shard_ok.
  - cbn beta. intros hs s4 [Hc Hs]. destruct hs as [[|h hs]|].
    + by destruct Hs as [Hlen _].
    + destruct Hs as (Hlen & Hm & Hst). ok_step. exists (h :: hs). cbn [fst snd].
      split; [by rewrite Hm, H32|]. left. split; [done|]. split; [by rewrite Hst|]. by rewrite Hc, H31.
    + destruct Hs as (new & Hm & Hst). ok_step. exists new. split; [by rewrite Hm, H32|]. right.
      split; [by rewrite Hc, H31|by rewrite Hst, H33].
Qed.

(** ** Cleanup *)

(** The entries of an engine, and which of its handles are ours to release. *)
Definition engine_handles (engine_id : string) (c : Conn) : list ((string * Z * Z) * Z) :=
  map_to_list (filter (fun kh : (string * Z * Z) * Z => kh.1.1.1 = engine_id) (src_xfer_handles_by_remote c)).
Definition owned (borrowed : gset (string * Z * Z)) (khs : list ((string * Z * Z) * Z)) : list Z :=
  (filter (fun kh : (string * Z * Z) * Z => kh.1 ∉ borrowed) khs).*2.

Section cleanup.
Context `{Nixl}.

Record released_part (s0 : Conn * history) (l : list ((string * Z * Z) * Z)) (s : Conn * history) : Prop := {
  rp_src : forall k, src_xfer_handles_by_remote s.1 !! k =
    if decide (k ∈ l.*1) then None else src_xfer_handles_by_remote s0.1 !! k;
  rp_borrowed : forall k, k ∈ borrowed_src_handles s.1 <-> k ∈ borrowed_src_handles s0.1 /\ k ∉ l.*1;
  rp_released : dlists_released s.2 ≡ₚ owned (borrowed_src_handles s0.1) l ++ dlists_released s0.2;
  rp_groups : shard_region_group_ids s.1 = shard_region_group_ids s0.1;
  rp_per : shard_descs_per_block s.1 = shard_descs_per_block s0.1;
  rp_names : remote_shard_layer_names s.1 = remote_shard_layer_names s0.1;
  rp_over : overlapping_ranks s.1 = overlapping_ranks s0.1;
  rp_pp : remote_pp_size s.1 = remote_pp_size s0.1
}.

Lemma release_one s0 l kh s :
  kh.1 ∉ l.*1 -> released_part s0 l s ->
  wp (release_shard_handle kh) s (fun _ => released_part s0 (l ++ [kh])) (fun _ _ => True).
Proof.
  intros Hnew [R1 R2 R3 R4 R5 R6 R7 R8]. destruct kh as [k h]. cbn [fst] in Hnew. unfold release_shard_handle.
  cbn [fst snd]. do 3 ok_step. ok_step. cbn [fst snd borrowed_src_handles set_src_xfer_handles_by_remote].
  assert (Hk : forall k', k' ∈ (l ++ [(k, h)]).*1 <-> k' ∈ l.*1 \/ k' = k).
  { intros k'. rewrite fmap_app. set_solver. }
  assert (Hsrc : forall k', delete k (src_xfer_handles_by_remote s.1) !! k' =
    if decide (k' ∈ (l ++ [(k, h)]).*1) then None else src_xfer_handles_by_remote s0.1 !! k').
  { intros k'. destruct (decide (k' = k)) as [->|Hne].
    - rewrite lookup_delete_eq, decide_True; [done|]. apply Hk. by right.
    - rewrite lookup_delete_ne, R1 by done. destruct (decide (k' ∈ l.*1)) as [Hi|Hi].
      + rewrite decide_True; [done|]. apply Hk. by left.
      + rewrite decide_False; [done|]. rewrite Hk. naive_solver. }
  assert (Hown : owned (borrowed_src_handles s0.1) (l ++ [(k, h)]) =
    owned (borrowed_src_handles s0.1) l ++ if decide (k ∈ borrowed_src_handles s0.1) then [] else [h]).
  { unfold owned. rewrite filter_app, fmap_app. f_equal. destruct (decide (k ∈ borrowed_src_handles s0.1)).
    - rewrite filter_cons_False; [done|]. cbn. naive_solver.
    - by rewrite filter_cons_True. }
  assert (Hbk : k ∈ borrowed_src_handles s.1 <-> k ∈ borrowed_src_handles s0.1) by (rewrite R2; naive_solver).
  destruct (bool_decide (k ∈ borrowed_src_handles s.1)) eqn:Eb.
  - apply bool_decide_eq_true, Hbk in Eb. ok_step. rewrite decide_True in Hown by done.
    constructor; try (cbn; done).
    2:{ rewrite Hown, app_nil_r. exact R3. }
    intros k'. cbn. rewrite elem_of_difference, elem_of_singleton, R2, Hk. naive_solver.
  - apply bool_decide_eq_false in Eb. rewrite Hbk in Eb. ok_step. rewrite decide_False in Hown by done.
    constructor; cbn [fst snd]; try done.
    + intros k'. cbn. rewrite R2, Hk. split; [|naive_solver]. intros [Hb Hl]. split; [done|].
      intros [?| ->]; [done|]. done.
    + rewrite Hown. change (dlists_released (_ :: s.2)) with (h :: dlists_released s.2).
      rewrite R3. by rewrite <- app_assoc, Permutation_middle.
Qed.
End cleanup.

(** Forgetting an engine forgets all of it and nothing else, and gives back exactly what is
    ours.  After [_cleanup_remote_engine] the per-shard dictionaries have no entry of the engine
    and every entry of the other engines, and NIXL was asked to release each of the
    engine's list handles once, except those borrowed from upstream, which only lose
    their entry. *)
Theorem cleanup_forgets_engine `{Nixl} engine_id s :
  wp (_cleanup_remote_engine engine_id) s (fun _ s' =>
    (forall k, src_xfer_handles_by_remote s'.1 !! k =
      if decide (k.1.1 = engine_id) then None else src_xfer_handles_by_remote s.1 !! k) /\
    (forall k, shard_region_group_ids s'.1 !! k =
      if decide (k.1 = engine_id) then None else shard_region_group_ids s.1 !! k) /\
    (forall k, shard_descs_per_block s'.1 !! k =
      if decide (k.1 = engine_id) then None else shard_descs_per_block s.1 !! k) /\
    (forall k, remote_shard_layer_names s'.1 !! k =
      if decide (k.1 = engine_id) then None else remote_shard_layer_names s.1 !! k) /\
    (forall e, overlapping_ranks s'.1 !! e = if decide (e = engine_id) then None else overlapping_ranks s.1 !! e) /\
    (forall e, remote_pp_size s'.1 !! e = if decide (e = engine_id) then None else remote_pp_size s.1 !! e) /\
    dlists_released s'.2 ≡ₚ
      owned (borrowed_src_handles s.1) (engine_handles engine_id s.1) ++ dlists_released s.2)
    (fun _ _ => True).
Proof.
  unfold _cleanup_remote_engine. do 3 ok_step. fold (engine_handles engine_id s.1).
  set (l := engine_handles engine_id s.1).
  assert (Hl : forall k h, (k, h) ∈ l <-> k.1.1 = engine_id /\ src_xfer_handles_by_remote s.1 !! k = Some h).
  { intros k h. unfold l, engine_handles. rewrite elem_of_map_to_list, map_lookup_filter_Some. naive_solver. }
  assert (Hnd : NoDup l.*1) by apply NoDup_fst_map_to_list.
  eapply wp_mono; [apply (wp_for l release_shard_handle s (released_part s))| |done].
  - constructor; try done.
    intros k. cbn. set_solver.
  - intros dn kh td s' Hsplit Hp. apply release_one; [|done]. rewrite Hsplit, fmap_app in Hnd.
    apply NoDup_app in Hnd as (_ & Hd & _). intros Hin. apply (Hd _ Hin). by left.
  - cbn beta. intros [] s' [R1 R2 R3 R4 R5 R6 R7 R8]. repeat ok_step. cbn [fst snd].
    assert (Hdrop : forall B (E : EqDecision B) (C : Countable B) V (d : gmap (string * B) V) k,
      drop_engine engine_id d !! k = if decide (k.1 = engine_id) then None else d !! k).
    { intros. unfold drop_engine. destruct (decide (k.1 = engine_id)) as [Ek|Ek].
      - apply map_lookup_filter_None. right. intros x _. cbn. naive_solver.
      - destruct (d !! k) eqn:Edk.
        + by apply map_lookup_filter_Some.
        + apply map_lookup_filter_None. by left. }
    split; [|cbn; rewrite R4, R5, R6, R7, R8; do 3 (split; [intros; apply Hdrop|])].
    + intros k. cbn. rewrite R1. destruct (decide (k ∈ l.*1)) as [Hi|Hi].
      * apply list_elem_of_fmap in Hi as ([k' h] & -> & Hi). apply Hl in Hi as [Hi _]. by rewrite decide_True.
      * destruct (decide (k.1.1 = engine_id)) as [Ek|]; [|done].
        destruct (src_xfer_handles_by_remote s.1 !! k) as [h|] eqn:Ekh; [|done].
        exfalso. apply Hi. apply list_elem_of_fmap. exists (k, h). split; [done|]. by apply Hl.
    + split; [|split; [|exact R3]].
      * intros e. destruct (decide (e = engine_id)) as [->|]; [apply lookup_delete_eq|by apply lookup_delete_ne].
      * intros e. destruct (decide (e = engine_id)) as [->|]; [apply lookup_delete_eq|by apply lookup_delete_ne].
Qed.
