(* ===== verification/KvWriteSpec.v ===== *)
(** * KV transfer: the writes of a producer

    What [_trim_to_consumer_blocks] keeps, what a write publishes, and the two cases in
    which the lists of the two sides do not fit. *)
From S2P Require Import Prelude Effects KvTransfer KvLayout KvBands KvTransferSpec KvHandshake KvHandshakeSpec KvShardSpec KvFlowSpec.

(** ** The trim to what the consumer still needs *)

(** What is kept of a group of ours, given the consumer's. *)
Definition kept (local remote l : list Z) : Prop :=
  (len l = len remote /\ exists had, local = had ++ l) \/ (remote = [] /\ l = local).

Lemma last_n_suffix {A} n (l : list A) : 0 < n <= len l ->
  len (last_n n l) = n /\ exists front, l = front ++ last_n n l.
Proof.
  intros Hn. unfold last_n. destruct (Z.eqb_spec n 0); [lia|]. split.
  - unfold len in *. rewrite length_drop. lia.
  - exists (take (length l - Z.to_nat n) l). by rewrite take_drop.
Qed.

Lemma trim_group_ok local remote : len remote <= len local ->
  exists l, trim_group local remote = Ok l /\ kept local remote l.
Proof.
  intros Hle. unfold trim_group. destruct (Z.ltb_spec (len local) (len remote)); [lia|].
  destruct (Z.ltb_spec (len remote) (len local)).
  - eexists. split; [done|]. destruct remote as [|b remote].
    + by right.
    + left. apply last_n_suffix. unfold len in *. cbn in *. lia.
  - exists local. split; [done|]. left. split; [lia|]. by exists [].
Qed.

Lemma trim_group_raises local remote : len local < len remote ->
  trim_group local remote = Raise RuntimeError.
Proof. intros. unfold trim_group. by destruct (Z.ltb_spec (len local) (len remote)); [|lia]. Qed.

(** The trim drops what the consumer already had, from the front.  Against a consumer that
    registered no more groups than we hold, and in each at most as many blocks: every
    group keeps a suffix of ours as long as the consumer's, so that the two pair block
    for block, the further groups are kept; a consumer that registered more blocks in
    some group is refused. *)
Theorem trim_keeps_missing_suffix locals remotes :
  (Forall2 (fun local remote => len remote <= len local) (take (length remotes) locals) remotes ->
    exists ls, _trim_to_consumer_blocks locals remotes = Ok (ls ++ drop (length remotes) locals) /\
      Forall2 (fun lr l => kept lr.1 lr.2 l) (zip locals remotes) ls) /\
  (length remotes = length locals ->
    Exists (fun lr : list Z * list Z => len lr.1 < len lr.2) (zip locals remotes) ->
    _trim_to_consumer_blocks locals remotes = Raise RuntimeError).
Proof.
  revert locals. induction remotes as [|remote remotes IH]; intros locals.
  - split.
    + intros _. exists []. by destruct locals.
    + intros _ Hex. destruct locals; by apply Exists_nil in Hex.
  - split; destruct locals as [|local locals]; cbn [length take drop zip zip_with _trim_to_consumer_blocks].
    + intros Hf. by apply Forall2_nil_cons_inv in Hf.
    + intros [Hle Hf]%Forall2_cons. destruct (trim_group_ok local remote Hle) as (l & -> & Hl).
      cbn [mbind res_bind]. destruct (proj1 (IH locals) Hf) as (ls & -> & Hls). cbn [mbind res_bind].
      exists (l :: ls). split; [done|]. by constructor.
    + done.
    + intros [= Hlen] Hex. destruct (Z.lt_ge_cases (len local) (len remote)) as [Hlt|Hge].
      * by rewrite (trim_group_raises _ _ Hlt).
      * destruct (trim_group_ok local remote Hge) as (l & -> & _). cbn [mbind res_bind].
        apply Exists_cons in Hex as [Hlt|Hex]; [cbn in Hlt; lia|]. by rewrite (proj2 (IH locals) Hlen Hex).
Qed.

Section writes.
Context `{NixlBase} `{Nixl} (w : Worker).

(** Where the consumer needs no block of a group of ours, the trim keeps all of it, and the
    shard's two id lists have different lengths. *)
Lemma nothing_to_push_asserts s engine_id global_rank m rank rtp d local :
  prepared w s engine_id global_rank m rank rtp d ->
  local <> [] -> 0 < len (l_rids d) -> 0 < per_block d ->
  exists locals, _trim_to_consumer_blocks [local] [[]] = Ok locals /\ total_len locals <> 0 /\
    shard_transfer w engine_id global_rank (m_block_size m) locals [[]] s = (s, Raise AssertionError).
Proof.
  intros Hd Hne Hr Hper. destruct local as [|b local]; [done|]. exists [b :: local].
  split; [done|]. split; [unfold total_len, len; cbn; lia|].
  rewrite (shard_transfer_eq w _ _ _ _ _ _ _ _ _ Hd).
  destruct (shard_ids_at (length (l_rids d)) (per_block d) (num_blocks w) (b :: local) [] Hper)
    as (li & Hli & Hlli & _).
  destruct (shard_ids_at (length (l_rids d)) (per_block d) (m_num_blocks m) [] [] Hper)
    as (ri & Hri & Hlri & _).
  rewrite Hri, Hli. cbn [mbind res_bind]. fold (len (l_rids d)) in Hlli, Hlri.
  destruct (Z.eqb_spec (len li) (len ri)) as [E|]; [|done].
  rewrite Hlli, Hlri in E. change (len (@nil Z)) with 0 in E.
  assert (0 < len (b :: local)) by (unfold len; cbn; lia). nia.
Qed.

(** A peer of fewer ranks that holds our heads in areas of our width, each in [fan] copies, is
    not narrowed although its prepared list repeats every block [fan] times. *)
Lemma replica_write_is_not_narrowed m rank rtp l pairs fan :
  _is_head_matched_peer w rtp = Ok true -> _is_fan_in_peer w rtp = Ok false ->
  tp_size w * kv_slices w = rtp * m_kv_slices m -> writes_into_peer w = true ->
  m_kv_slices m <> 0 -> fan = m_kv_areas m / m_kv_slices m ->
  _logical_region_pairs w (Some (m_registered_layer_names m)) = Ok pairs ->
  _build_head_matched_remote w m rank rtp (Some (m_registered_layer_names m)) None = Ok l ->
  (exists split runs, _peer_head_split w m rtp = Ok split /\ _peer_kv_runs w m rtp = Ok runs /\
    narrowed 1 false false split runs = false) /\
  len l = len pairs * len (py_range (kv_areas w)) * m_num_blocks m * fan.
Proof.
  intros Hhm Hfi Hcuts Hw Hs -> Hp Hb. split.
  - exists 1, 1. unfold _peer_head_split, _peer_kv_runs. rewrite Hhm. cbn [mbind res_bind negb].
    unfold _head_split, _kv_runs. rewrite Hcuts, Z.leb_refl, Z.eqb_refl. done.
  - unfold _build_head_matched_remote in Hb. unfold _head_split, _kv_runs in Hb.
    rewrite Hcuts, Z.leb_refl, Z.eqb_refl in Hb. cbn [mbind res_bind negb] in Hb. rewrite Hp in Hb.
    destruct (py_floordiv (kv_areas w) (kv_slices w)) as [rl|]; [|done]. cbn [mbind res_bind] in Hb.
    unfold py_floordiv in Hb. destruct (Z.eqb_spec (m_kv_slices m) 0); [done|]. cbn [mbind res_bind] in Hb.
    destruct (extend_all _ _) as [out|]; [|done]. cbn [mbind res_bind default from_option] in Hb.
    rewrite Hw in Hb. destruct (_ =? _) eqn:E; [|done]. apply Z.eqb_eq in E. injection Hb as ->.
    unfold id in E. lia.
Qed.

(** ** What a write publishes *)

(** The writes of a request so far: those in flight, and those that failed and were released. *)
Definition writes_so_far (s0 : Conn * history) (hs : list Z) (s : Conn * history) : Prop :=
  s.1 = s0.1 /\ exists failed,
    made s.2 ≡ₚ hs ++ failed ++ made s0.2 /\ settled s.2 ≡ₚ failed ++ settled s0.2.

Lemma write_shard_ok engine_id bs locals remotes notif s0 hs g s :
  writes_so_far s0 hs s ->
  wp (write_shard w engine_id bs locals remotes notif hs g) s
    (fun hs' s' => writes_so_far s0 hs' s' /\ length hs' <= S (length hs))%nat (fun _ _ => True).
Proof.
  intros (Hc & failed & Hm & Hst). unfold write_shard. apply wp_bind.
  eapply wp_mono; [apply submit_shard_ok| |done].
  cbn beta. intros [[h|] ok] s1 (E1 & E2 & E3); cbn [fst snd] in E3.
  - destruct ok.
    + apply wp_ret. split; [|rewrite length_app; cbn; lia]. split; [congruence|]. exists failed.
      rewrite E2. split; [|done]. rewrite E3, Hm. by rewrite <- app_assoc, Permutation_middle.
    + apply wp_bind. nixl_call; [|done]. intros [] _. apply wp_ret. split; [|lia].
      split; [cbn; congruence|]. exists (h :: failed). cbn [snd]. rewrite made_cons, settled_cons.
      cbn [made1 settled1 ev_call app]. rewrite E3, Hm, E2, Hst. split; [|done].
      by rewrite Permutation_middle.
  - destruct E3 as [E3 ->]. apply wp_ret. split; [|lia]. split; [congruence|]. exists failed.
    rewrite E2, E3. done.
Qed.
End writes.

(** A write publishes what is in flight and nothing else.  When a write of a request
    returns, the handles appended to the request's entry of [sending_transfers] are those
    whose submission succeeded, at most one per paired rank; every other handle it made was
    released; and a request of which no rank took a handle gets no entry. *)
Theorem write_publishes_in_flight `{NixlBase} `{Nixl} w req meta s ranks :
  overlapping_ranks s.1 !! q_engine_id meta = Some ranks -> ranks <> [] ->
  wp (_xfer_blocks_for_req w req meta) s (fun _ s' => exists sent failed,
    made s'.2 ≡ₚ sent ++ failed ++ made s.2 /\ settled s'.2 ≡ₚ failed ++ settled s.2 /\
    (length sent <= length ranks)%nat /\
    sending_transfers s'.1 =
      if decide (sent = []) then sending_transfers s.1 else extend_transfers req sent (sending_transfers s.1))
    (fun _ _ => True).
Proof.
  intros Hov Hne. unfold _xfer_blocks_for_req. do 2 ok_step. ok_step. ok_step. cbn [fst]. rewrite Hov.
  cbn [from_option]. unfold id. destruct ranks as [|g0 ranks]; [done|]. cbn iota. repeat ok_step.
  eapply wp_mono; [apply notif_quiet| |done]. cbn beta. intros notif s2 (K1 & K2 & K3).
  repeat ok_step. cbn [fst snd] in *.
  destruct (total_len _ =? 0).
  { ok_step. exists [], []. rewrite K1, K2, K3, made_cons, settled_cons. cbn. split; [done|]. split; [done|].
    split; [lia|done]. }
  repeat ok_step.
  eapply wp_mono; [apply (wp_fold_each _
    (fun l hs s' => writes_so_far s2 hs s' /\ (length hs <= length l)%nat))| |done].
  - split; [|done]. split; [done|]. by exists [].
  - intros dn g td hs s4 _ [Hs Hl]. eapply wp_mono; [by apply write_shard_ok| |done]. cbn beta.
    intros hs' s5 [Hs' Hl']. split; [done|]. rewrite length_app. cbn. lia.
  - cbn beta. intros hs s4 [(Hc & failed & Hm & Hst) Hl].
    assert (Hfin : made s4.2 ≡ₚ hs ++ failed ++ made s.2 /\ settled s4.2 ≡ₚ failed ++ settled s.2).
    { rewrite Hm, Hst, K2, K3. done. }
    destruct hs as [|h hs].
    + apply wp_ret. exists [], failed. rewrite Hc, K1. destruct Hfin. done.
    + apply wp_set_conn. exists (h :: hs), failed. cbn [fst snd]. destruct Hfin. rewrite Hc, K1. done.
Qed.
