(* ===== verification/KvRegister.v ===== *)
(** * KV transfer: registration of the caches (device to device)

    [base_worker.py] from [_register_kv_caches_impl] to [_publish_handshake_metadata], and
    the layout of [rbln_transfer_topology.py]: the logical regions of the layers, what the
    plugin's transfer tables make of them, and what a peer is told.  The plugin
    [nixl_rbln], the tensor library, the attention backend and upstream's topology are the
    class [Plugin]. *)
From S2P Require Import Prelude KvTransfer.

(** ** Layers and tensors *)
Inductive SpecKind := AttentionSpec | SlidingWindowSpec | MLAAttentionSpec | SlidingWindowMLASpec | MambaSpec.

#[export] Instance SpecKind_eq_dec : EqDecision SpecKind.
Proof. solve_decision. Defined.

Record Spec := {
  spec_kind : SpecKind;
  page_size_bytes : Z;
  num_kv_heads : Z
}.

(** [UniformTypeKVCacheSpecs] carries the specs of its layers. *)
Inductive GroupSpec := One (spec : Spec) | Uniform (kv_cache_specs : gmap string Spec).

Record Tensor := {
  data_ptr : Z;
  shape : list Z;
  numel : Z;
  element_size : Z;
  get_device : Z
}.

(** The transfer tables [register_kv_regions] returns, one entry per region and area. *)
Record Xfer := {
  x_base_addrs : list Z;
  x_block_lens : list Z;
  x_slice_ids : list Z;
  x_n_shards : Z;
  x_slices : Z
}.

(** A logical region: its tensor, the offset in it, the length of a block. *)
Abbreviation Region := (Tensor * Z * Z)%type.

Class Plugin := {
  register_kv_regions : list Region -> Z -> res Xfer;
  iter_tensor : Tensor -> list Tensor;
  super_cache_regions : Tensor -> Spec -> list Tensor;
  kv_cache_shape : Z -> list Z;
  virtually_split_kv_in_blocks : bool
}.

(** The configuration registration reads, besides the fields of [Worker]. *)
Record Layers := {
  layer_specs : gmap string GroupSpec;
  draft_total_kv_heads : option Z;
  host_xfer_buffers : bool;
  physical_per_logical : Z;
  logical_num_blocks : Z;
  num_kv_cache_tensors : Z;
  pipeline_rank : Z;
  own_engine_id : string
}.

Section register.
Context `{Plugin}.
Implicit Types (w : Worker) (cfg : Layers).

(** ** Specs *)
Definition _unwrapped_layer_spec cfg (layer_name : string) : res Spec :=
  g ← of_option (layer_specs cfg !! layer_name) KeyError;
  match g with
  | One spec => Ok spec
  | Uniform specs => of_option (specs !! layer_name) KeyError
  end.

Definition _layer_page_sizes cfg (layer_names : list string) : res (list Z) :=
  sizes ← mapM (fun name => spec ← _unwrapped_layer_spec cfg name; Ok (page_size_bytes spec)) layer_names;
  Ok (remove_dups sizes).

Definition is_mla (spec : Spec) : bool :=
  bool_decide (spec_kind spec = MLAAttentionSpec \/ spec_kind spec = SlidingWindowMLASpec).
Definition is_mamba (spec : Spec) : bool := bool_decide (spec_kind spec = MambaSpec).

Definition _layer_kv_heads w cfg (layer_name : string) : res (option Z) :=
  spec ← _unwrapped_layer_spec cfg layer_name;
  if is_mamba spec then Ok None
  else
    let known := remove_dups (total_num_kv_heads w :: option_list (draft_total_kv_heads cfg)) in
    shares ← mapM (fun total => q ← py_floordiv total (tp_size w); Ok (total, Z.max 1 q)) known;
    match (filter (fun ts : Z * Z => ts.2 = num_kv_heads spec) shares).*1 with
    | [total] => Ok (if total <? tp_size w then None else Some total)
    | _ => Ok None
    end.

(** ** [RblnTransferTopology] *)
Record Topology := {
  kv_shares_a_block : bool;
  cross_layers : bool
}.

Definition mock_blocks : Z := 1234567.

(** [shape.index(mock_blocks)]. *)
Definition block_dim : res Z :=
  p ← of_option (list_find (eq mock_blocks) (kv_cache_shape mock_blocks)) ValueError;
  Ok (Z.of_nat p.1).

Definition new_topology w (tensor_shape : option (list Z)) : res Topology :=
  if has_mamba w then Ok {| kv_shares_a_block := false; cross_layers := false |}
  else
    d ← block_dim;
    assert! if use_mla w then d =? 0 else (d =? 0) || (d =? 1);
    Ok {| kv_shares_a_block := d =? 0;
          cross_layers := match tensor_shape with
                          | Some s => len s =? len (kv_cache_shape mock_blocks) + 1
                          | None => false
                          end |}.

Definition get_transfer_cache_regions w (topo : Topology) (cache : Tensor) (spec : Spec) : list Tensor :=
  if use_mla w || has_mamba w || cross_layers topo then super_cache_regions cache spec
  else if kv_shares_a_block topo then [cache]
  else iter_tensor cache.

(** ** The logical regions *)

(** What the loop over the layers collects. *)
Record Collected := {
  regions : list Region;
  logical_mla : list bool;
  logical_kv_heads : list (option Z);
  logical_total_kv_heads : list (option Z);
  kv_per_block_seen : option Z
}.

(** One cache of a layer. *)
Definition region_of (topo : Topology) (spec : Spec) (entry : Tensor) (nb full_block_len : Z) (cache : Tensor)
    : res Region :=
  n ← of_option (head (shape cache)) IndexError;
  assert! n =? nb;
  assert! is_mamba spec || cross_layers topo || (numel cache * element_size cache =? nb * full_block_len);
  Ok (entry, data_ptr cache - data_ptr entry, full_block_len).

(** The K and V a block holds, where the layer is an attention layer. *)
Definition see_kv_per_block (spec : Spec) (n : Z) (seen : option Z) : res (option Z) :=
  if is_mla spec || is_mamba spec then Ok seen
  else
    assert! (n =? 1) || (n =? 2);
    assert! match seen with None => true | Some k => k =? 2 / n end;
    Ok (Some (2 / n)).

Definition collect_layer w cfg (topo : Topology) (acc : Collected) (nc : string * Tensor) : res Collected :=
  let '(layer_name, cache) := nc in
  spec ← _unwrapped_layer_spec cfg layer_name;
  let cache_list := get_transfer_cache_regions w topo cache spec in
  page ← (if is_mamba spec then Ok (page_size_bytes spec)
          else py_floordiv (page_size_bytes spec) (physical_per_logical cfg));
  page ← py_floordiv page (len cache_list);
  seen ← see_kv_per_block spec (len cache_list) (kv_per_block_seen acc);
  let page := if cross_layers topo then page * num_kv_cache_tensors cfg else page in
  let nb := if is_mamba spec then logical_num_blocks cfg else num_blocks w in
  full ← (if is_mamba spec then py_floordiv page (physical_per_logical cfg) else Ok page);
  rs ← mapM (region_of topo spec cache nb full) cache_list;
  heads ← _layer_kv_heads w cfg layer_name;
  Ok {| regions := regions acc ++ rs;
        logical_mla := logical_mla acc ++ replicate (length rs) (is_mla spec);
        logical_kv_heads := logical_kv_heads acc ++
          replicate (length rs) (if is_mamba spec then None else Some (num_kv_heads spec));
        logical_total_kv_heads := logical_total_kv_heads acc ++ replicate (length rs) heads;
        kv_per_block_seen := seen |}.

Definition nothing_collected : Collected := {|
  regions := []; logical_mla := []; logical_kv_heads := []; logical_total_kv_heads := [];
  kv_per_block_seen := None
|}.

(** The refusals before the loop. *)
Definition check_layers cfg (topo : Topology) (names : list string) : res unit :=
  page_sizes ← _layer_page_sizes cfg names;
  flags ← mapM (fun name => spec ← _unwrapped_layer_spec cfg name; Ok (is_mla spec)) names;
  let mla_layers := remove_dups (filter (fun nf : string * bool => nf.2 = true) (zip names flags)).*1 in
  if negb (bool_decide (mla_layers = [])) && negb (len mla_layers =? len names) then Raise RuntimeError
  else if cross_layers topo && (1 <? len page_sizes) then Raise RuntimeError
  else Ok tt.

(** ** What the transfer tables make of them *)

Definition region_slices (x : Xfer) (areas n : Z) : list Z :=
  (fun r => len (remove_dups (py_slice (x_slice_ids x) (r * areas) ((r + 1) * areas)))) <$> py_range n.

(** The axis, from the head count and the slices of every region. *)
Definition split_axis (heads : list (option Z)) (slices : list Z) : res KVSplitAxis :=
  let cuts := remove_dups ((fun hs : option Z * Z => bool_decide (hs.1 = Some 1) && (1 <? hs.2)) <$> zip heads slices) in
  if 1 <? len cuts then Raise RuntimeError
  else Ok (if bool_decide (cuts = [true]) then NON_HEAD else HEAD).

(** The worker after registration. *)
Definition with_regions w (topo : Topology) (names : list string) (acc : Collected) (x : Xfer) (device : Z)
    (slices : list Z) (regions_count : Z) (axis : KVSplitAxis) : Worker := {|
  writes_into_peer := writes_into_peer w; use_host_buffer := use_host_buffer w;
  sw_ratio := sw_ratio w; has_swa := has_swa w; has_mamba := has_mamba w;
  use_mla := use_mla w; cross_layers_blocks := cross_layers topo;
  tp_rank := tp_rank w; tp_size := tp_size w; total_num_kv_heads := total_num_kv_heads w;
  kv_areas := x_n_shards x; kv_slices := x_slices x; kv_split_axis := axis;
  kv_per_block := default (kv_per_block w) (kv_per_block_seen acc);
  block_size := block_size w; num_blocks := num_blocks w; device_id := device;
  num_regions := regions_count; block_len_per_layer := x_block_lens x; base_addrs := x_base_addrs x;
  logical_region_kv_heads := logical_total_kv_heads acc; logical_region_slices := slices;
  local_seen_layer_names := names; kv_cache_layout := kv_cache_layout w; local_pp := local_pp w;
  n_groups := n_groups w; viewed_region_ids := viewed_region_ids w
|}.

Definition expand w (topo : Topology) (names : list string) (acc : Collected) (x : Xfer) (device : Z) : res Worker :=
  assert! len (x_block_lens x) =? len (x_base_addrs x);
  let areas := Z.max (x_n_shards x) 1 in
  let region_is_mla := f ← logical_mla acc; replicate (Z.to_nat areas) f in
  assert! len region_is_mla =? len (x_block_lens x);
  let slices := region_slices x areas (len (logical_mla acc)) in
  let count := if virtually_split_kv_in_blocks
               then sumZ ((fun f : bool => if f then 1 else 2) <$> region_is_mla)
               else len (x_base_addrs x) in
  assert! 0 <? x_slices x;
  axis ← split_axis (logical_kv_heads acc) slices;
  Ok (with_regions w topo names acc x device slices count axis).

(** [_register_kv_caches_impl], up to the descriptor list of the whole engine. *)
Definition _register_kv_caches_impl w cfg (kv_caches : list (string * Tensor)) : res Worker :=
  sample ← of_option (head kv_caches) StopIteration;
  topo ← new_topology w (if has_mamba w then None else Some (shape sample.2));
  assert! 0 <=? get_device sample.2;
  assert! negb (use_host_buffer w);
  assert! negb (host_xfer_buffers cfg);
  _ ← check_layers cfg topo kv_caches.*1;
  acc ← foldM (collect_layer w cfg topo) nothing_collected kv_caches;
  x ← register_kv_regions (regions acc) (get_device sample.2);
  expand w topo kv_caches.*1 acc x (get_device sample.2).

(** [_publish_handshake_metadata]: what a peer is told of a registered worker. *)
Definition handshake_metadata w cfg (agent_metadata : string) : res RblnNixlAgentMetadata :=
  _ ← _check_pp_constraints w;
  Ok {| m_engine_id := own_engine_id cfg; m_agent_metadata := agent_metadata; m_device_id := device_id w;
        m_kv_caches_base_addr := base_addrs w; m_num_blocks := num_blocks w;
        m_block_lens := block_len_per_layer w; m_kv_cache_layout := kv_cache_layout w;
        m_block_size := block_size w;
        m_pp_rank := if 1 <? local_pp w then pipeline_rank cfg else 0; m_pp_size := local_pp w;
        m_registered_layer_names := local_seen_layer_names w; m_kv_areas := kv_areas w;
        m_kv_slices := kv_slices w; m_kv_split_axis := kv_split_axis w;
        m_kv_per_block := kv_per_block w |}.
End register.
