(* ===== verification/KvRegisterSpec.v ===== *)
(** * KV transfer: registration establishes what the transfers rely on *)
From S2P Require Import Prelude KvTransfer KvLayout KvBands KvRegister.

(** What the plugin documents of its transfer tables: one entry per region and area, in
    order, the areas of a region each with its share of the block, and the number of slices
    of the last region. *)
Record xfer_ok (lens : list Z) (x : Xfer) : Prop := {
  xo_shards : 0 < x_n_shards x;
  xo_bases : len (x_base_addrs x) = len lens * x_n_shards x;
  xo_lens : len (x_block_lens x) = len lens * x_n_shards x;
  xo_share : forall r area full, 0 <= r -> 0 <= area < x_n_shards x -> at_ lens r = Some full ->
    exists s, at_ (region_slices x (x_n_shards x) (len lens)) r = Some s /\ 0 < s /\
      s * (full / s) = full /\ at_ (x_block_lens x) (r * x_n_shards x + area) = Some (full / s);
  xo_last : last (region_slices x (x_n_shards x) (len lens)) = Some (x_slices x)
}.

Section register.
Context `{Plugin} (w : Worker) (cfg : Layers).

(** The model-wide heads of a layer, as the code decides them. *)
Definition layer_heads (name : string) : Z :=
  match _layer_kv_heads w cfg name with Ok (Some total) => total | _ => 0 end.

(** A layer of an attention model: its page is K and V of its heads, and its head count is
    known. *)
Definition layer_ok (name : string) : Prop := exists spec head_bytes,
  _unwrapped_layer_spec cfg name = Ok spec /\ is_mla spec = false /\ is_mamba spec = false /\
  0 < head_bytes /\ page_size_bytes spec = 2 * (num_kv_heads spec * head_bytes) /\
  _layer_kv_heads w cfg name = Ok (Some (layer_heads name)).

(** The head count fits the rank's share of it. *)
Lemma layer_heads_share name spec total :
  0 < tp_size w -> _unwrapped_layer_spec cfg name = Ok spec -> is_mamba spec = false ->
  _layer_kv_heads w cfg name = Ok (Some total) ->
  tp_size w <= total /\ num_kv_heads spec = total / tp_size w.
Proof.
  intros Htp Hs Hm Hh. unfold _layer_kv_heads in Hh. rewrite Hs in Hh. cbn [mbind res_bind] in Hh. rewrite Hm in Hh.
  rewrite (mapM_Ok _ (fun t => (t, Z.max 1 (t / tp_size w)))) in Hh.
  2: { intros t _. rewrite py_floordiv_pos by lia. done. }
  cbn [mbind res_bind] in Hh. set (totals := (filter _ _).*1) in Hh.
  assert (Ht : forall t, t ∈ totals -> num_kv_heads spec = Z.max 1 (t / tp_size w)).
  { intros t Hin. apply list_elem_of_fmap in Hin as ([t' sh] & -> & Hin).
    apply list_elem_of_filter in Hin as [Heq Hin]. apply list_elem_of_fmap in Hin as (t & [= -> ->] & _).
    by cbn in Heq |- *. }
  destruct totals as [|t [|]]; [done| |done].
  destruct (Z.ltb_spec t (tp_size w)); [done|]. injection Hh as ->. split; [lia|].
  rewrite (Ht total) by (by left). assert (1 <= total / tp_size w) by (apply Z.div_le_lower_bound; lia). lia.
Qed.

Context (topo : Topology).
Hypothesis not_crossing : cross_layers topo = false.
Hypothesis one_physical : physical_per_logical cfg = 1.

(** The length of a block of one region of a layer, if each block holds [k] of K and V. *)
Definition region_len (k : Z) (name : string) : Z :=
  match _unwrapped_layer_spec cfg name with Ok spec => page_size_bytes spec / (2 / k) | Raise _ => 0 end.

(** What the loop has collected of the layers [names]. *)
Record collected (k : Z) (names : list string) (acc : Collected) : Prop := {
  co_kv : k = 1 \/ k = 2;
  co_lens : (regions acc).*2 = names ≫= fun name => replicate (Z.to_nat (2 / k)) (region_len k name);
  co_heads : logical_total_kv_heads acc =
    names ≫= fun name => replicate (Z.to_nat (2 / k)) (Some (layer_heads name));
  co_mla : length (logical_mla acc) = length (regions acc);
  co_seen : names <> [] -> kv_per_block_seen acc = Some k
}.

Lemma nothing_collected_ok k : k = 1 \/ k = 2 -> collected k [] nothing_collected.
Proof. by constructor. Qed.

Lemma regions_of_len spec entry nb full caches rs :
  mapM (region_of topo spec entry nb full) caches = Ok rs ->
  rs.*2 = replicate (length caches) full.
Proof.
  revert rs. induction caches as [|c caches IH]; intros rs Hr; cbn in Hr; [by injection Hr as <-|].
  destruct (region_of topo spec entry nb full c) as [r|] eqn:Er; [|done]. cbn [mbind res_bind] in Hr.
  destruct (mapM _ caches) as [rs'|] eqn:Es; [|done]. cbn in Hr. injection Hr as <-. cbn. rewrite (IH rs' eq_refl).
  f_equal. unfold region_of in Er. destruct (head (shape c)) as [n|]; [|done]. cbn in Er.
  destruct (n =? nb); [|done]. cbn in Er. destruct (_ || _); [|done]. cbn in Er. by injection Er as <-.
Qed.

(** The first layer decides [k], the others agree with it. *)
Lemma collect_step k names acc name cache acc' :
  layer_ok name -> (names = [] -> acc = nothing_collected) -> (names <> [] -> collected k names acc) ->
  collect_layer w cfg topo acc (name, cache) = Ok acc' ->
  exists k', (names <> [] -> k' = k) /\ collected k' (names ++ [name]) acc'.
Proof.
  intros (spec & hb & Hs & Hmla & Hmam & Hhb & Hpage & Hheads) Hnil Hcons Hc.
  unfold collect_layer in Hc. rewrite Hs in Hc. cbn [mbind res_bind] in Hc. rewrite Hmam in Hc.
  set (cl := get_transfer_cache_regions w topo cache spec) in Hc.
  rewrite one_physical, (py_floordiv_pos _ 1), Z.div_1_r in Hc by lia. cbn [mbind res_bind] in Hc.
  destruct (py_floordiv (page_size_bytes spec) (len cl)) as [page|] eqn:Ep; [|done].
  apply py_floordiv_Ok in Ep as [Hne Epage]. cbn [mbind res_bind] in Hc.
  destruct (see_kv_per_block spec (len cl) (kv_per_block_seen acc)) as [seen|] eqn:Eseen; [|done].
  cbn [mbind res_bind] in Hc. rewrite not_crossing in Hc.
  destruct (mapM _ cl) as [rs|] eqn:Ers; [|done]. cbn [mbind res_bind] in Hc. rewrite Hheads in Hc.
  cbn [mbind res_bind] in Hc. injection Hc as <-.
  unfold see_kv_per_block in Eseen. rewrite Hmla, Hmam in Eseen. cbn [orb] in Eseen.
  destruct ((len cl =? 1) || (len cl =? 2)) eqn:E12; [|done]. cbn [require mbind res_bind] in Eseen.
  destruct (match kv_per_block_seen acc with Some k0 => _ | None => true end) eqn:Eagree; [|done].
  cbn [require mbind res_bind] in Eseen. injection Eseen as <-.
  assert (Hcl : len cl = 1 \/ len cl = 2) by (apply orb_true_iff in E12 as [E|E]; apply Z.eqb_eq in E; auto).
  assert (Hk : (2 / len cl = 1 \/ 2 / len cl = 2) /\ 2 / (2 / len cl) = len cl) by (destruct Hcl as [-> | ->]; auto).
  apply regions_of_len in Ers as Hrs.
  assert (Hlen : length rs = length cl) by (rewrite <- (length_fmap snd), Hrs; apply length_replicate).
  exists (2 / len cl). split.
  { intros Hn. specialize (Hcons Hn). rewrite (co_seen _ _ _ Hcons Hn) in Eagree. by apply Z.eqb_eq in Eagree. }
  assert (Hto : Z.to_nat (len cl) = length cl) by (unfold len; lia).
  assert (Hlast : region_len (2 / len cl) name = page).
  { unfold region_len. rewrite Hs. rewrite (proj2 Hk). done. }
  destruct (decide (names = [])) as [->|Hn].
  - rewrite (Hnil eq_refl) in *. constructor; cbn [regions logical_mla logical_total_kv_heads kv_per_block_seen]; cbn; [tauto| | | |done].
    + rewrite app_nil_r, (proj2 Hk), Hlast, Hto. exact Hrs.
    + by rewrite app_nil_r, (proj2 Hk), Hto, Hlen.
    + by rewrite length_replicate.
  - specialize (Hcons Hn). rewrite (co_seen _ _ _ Hcons Hn) in Eagree. apply Z.eqb_eq in Eagree.
    destruct Hcons as [C1 C2 C3 C4 C5]. rewrite Eagree in *.
    constructor; cbn [regions logical_mla logical_total_kv_heads kv_per_block_seen]; [done| | | |done].
    + rewrite fmap_app, bind_app, C2. cbn. by rewrite app_nil_r, (proj2 Hk), Hlast, Hto, Hrs.
    + rewrite bind_app, C3. cbn. by rewrite app_nil_r, (proj2 Hk), Hto, Hlen.
    + by rewrite !length_app, C4, length_replicate.
Qed.

Lemma collect_more k names acc kvs acc' :
  names <> [] -> collected k names acc -> Forall layer_ok kvs.*1 ->
  foldM (collect_layer w cfg topo) acc kvs = Ok acc' -> collected k (names ++ kvs.*1) acc'.
Proof.
  revert names acc. induction kvs as [|[name cache] kvs IH]; intros names acc Hn Hc Hok Hf; cbn [foldM] in Hf.
  { injection Hf as <-. by rewrite app_nil_r. }
  rewrite fmap_cons in Hok. apply Forall_cons in Hok as [Hl Hok].
  destruct (collect_layer w cfg topo acc (name, cache)) as [acc1|] eqn:E1; [|done]. cbn [mbind res_bind] in Hf.
  destruct (collect_step k names acc name cache acc1 Hl (fun E => False_ind _ (Hn E)) (fun _ => Hc) E1) as (k' & Hk & Hc1).
  rewrite (Hk Hn) in Hc1. specialize (IH (names ++ [name]) acc1).
  rewrite <- app_assoc in IH. apply IH; try done. by destruct names.
Qed.

Lemma collect_all kvs acc :
  kvs <> [] -> Forall layer_ok kvs.*1 -> foldM (collect_layer w cfg topo) nothing_collected kvs = Ok acc ->
  exists k, collected k kvs.*1 acc.
Proof.
  destruct kvs as [|[name cache] kvs]; intros Hn Hok Hf; [done|]. cbn [foldM] in Hf. rewrite fmap_cons in Hok. apply Forall_cons in Hok as [Hl Hok].
  destruct (collect_layer w cfg topo nothing_collected (name, cache)) as [acc1|] eqn:E1; [|done]. cbn [mbind res_bind] in Hf.
  destruct (collect_step 1 [] nothing_collected name cache acc1 Hl) as (k & _ & Hc1); [done|done|exact E1|].
  exists k. by apply (collect_more k [name] acc1 kvs acc).
Qed.

(** *** What the slices of the regions have in common *)
Lemma even_slices w' s :
  _reject_uneven_region_slices w' = Ok tt -> (forall h, h ∈ logical_region_kv_heads w' -> is_Some h) ->
  length (logical_region_slices w') = length (logical_region_kv_heads w') ->
  last (logical_region_slices w') = Some s -> forall x, x ∈ logical_region_slices w' -> x = s.
Proof.
  intros Hr Hall Hlen Hlast x Hx. unfold _reject_uneven_region_slices in Hr.
  set (l := omap _ _) in Hr. destruct (Z.leb_spec (len (remove_dups l)) 1) as [Hle|]; [|done].
  assert (Hl : forall y, y ∈ logical_region_slices w' -> y ∈ remove_dups l).
  { intros y [i Hy]%list_elem_of_lookup. apply elem_of_remove_dups. subst l.
    destruct (lookup_lt_is_Some_2 (logical_region_kv_heads w') i) as [h Hh].
    { rewrite <- Hlen. by eapply lookup_lt_Some. }
    destruct (Hall h) as [v ->]; [by eapply list_elem_of_lookup_2|].
    apply list_elem_of_omap. exists (y, Some v). split; [|done].
    apply (list_elem_of_lookup_2 _ i). apply lookup_zip_Some. by split. }
  apply last_Some_elem_of in Hlast.
  apply Hl in Hx. apply Hl in Hlast. unfold len in Hle.
  destruct (remove_dups l) as [|a [|b r]]; cbn in Hle; [by apply not_elem_of_nil in Hx| |lia].
  apply list_elem_of_singleton in Hx, Hlast. congruence.
Qed.
End register.


(** *** The tables of a registered worker *)
Section tables.
Context `{Plugin} (w : Worker) (cfg : Layers) (k : Z) (names : list string) (acc : Collected) (x : Xfer).
Hypothesis tp_pos : 0 < tp_size w.
Hypothesis layers_ok : Forall (layer_ok w cfg) names.
Hypothesis some_layer : names <> [].
Hypothesis got_regions : collected w cfg k names acc.
Hypothesis tables_ok : xfer_ok (regions acc).*2 x.

Lemma row_width_pos : 0 < 2 / k.
Proof. by destruct (co_kv _ _ _ _ _ got_regions) as [-> | ->]. Qed.

Lemma row_len {A} (f : string -> A) : forall n, n ∈ names -> len (replicate (Z.to_nat (2 / k)) (f n)) = 2 / k.
Proof. intros n _. unfold len. rewrite length_replicate. pose proof row_width_pos. lia. Qed.

Lemma lens_count : len (regions acc).*2 = len names * (2 / k).
Proof. rewrite (co_lens _ _ _ _ _ got_regions). apply bind_len. apply row_len. Qed.

Lemma row_at {A} (f : string -> A) l part n : 0 <= l -> 0 <= part < 2 / k -> at_ names l = Some n ->
  at_ (names ≫= fun name => replicate (Z.to_nat (2 / k)) (f name)) (l * (2 / k) + part) = Some (f n).
Proof.
  intros Hl Hp Hn. rewrite (bind_at _ _ (2 / k)); [|apply row_len|done|done]. rewrite Hn. cbn.
  apply lookup_replicate. split; [done|lia].
Qed.

Lemma layer_at l n : 0 <= l -> at_ names l = Some n -> layer_ok w cfg n.
Proof. intros Hl Hn. rewrite Forall_forall in layers_ok. by apply layers_ok, (list_elem_of_lookup_2 _ _ _ Hn). Qed.

Lemma heads_at l part n : 0 <= l -> 0 <= part < 2 / k -> at_ names l = Some n ->
  at_ (logical_total_kv_heads acc) (l * (2 / k) + part) = Some (Some (layer_heads w cfg n)) /\
  tp_size w <= layer_heads w cfg n.
Proof.
  intros Hl Hp Hn. rewrite (co_heads _ _ _ _ _ got_regions). split.
  - by apply (row_at (fun name => Some (layer_heads w cfg name))).
  - destruct (layer_at l n Hl Hn) as (spec & hb & Hs & _ & Hmam & _ & _ & Hh).
    by destruct (layer_heads_share w cfg n spec _ tp_pos Hs Hmam Hh).
Qed.

(** A block of a region: [k] times the heads of the rank's share. *)
Lemma full_at l part n : 0 <= l -> 0 <= part < 2 / k -> at_ names l = Some n ->
  exists hb, 0 < hb /\
    at_ (regions acc).*2 (l * (2 / k) + part) = Some (k * (layer_heads w cfg n / tp_size w * hb)).
Proof.
  intros Hl Hp Hn. destruct (layer_at l n Hl Hn) as (spec & hb & Hs & _ & Hmam & Hhb & Hpage & Hh).
  destruct (layer_heads_share w cfg n spec _ tp_pos Hs Hmam Hh) as [_ Hshare].
  exists hb. split; [done|]. rewrite (co_lens _ _ _ _ _ got_regions), (row_at (region_len cfg k) l part n Hl Hp Hn).
  unfold region_len. rewrite Hs, Hpage, Hshare. f_equal.
  destruct (co_kv _ _ _ _ _ got_regions) as [-> | ->].
  - change (2 / 1) with 2. rewrite Z.mul_comm, Z.div_mul by lia. lia.
  - change (2 / 2) with 1. by rewrite Z.div_1_r.
Qed.

Lemma all_heads_known h : h ∈ logical_total_kv_heads acc -> is_Some h.
Proof.
  rewrite (co_heads _ _ _ _ _ got_regions). intros (n & Hh & _)%list_elem_of_bind.
  apply elem_of_replicate in Hh as [-> _]. by eexists.
Qed.

Lemma heads_count : len (logical_total_kv_heads acc) = len names * (2 / k).
Proof. rewrite (co_heads _ _ _ _ _ got_regions). apply bind_len. apply row_len. Qed.

Let areas := x_n_shards x.
Let slices := region_slices x areas (len (logical_mla acc)).
Let w' topo axis device count := with_regions w topo names acc x device slices count axis.

Lemma mla_count : len (logical_mla acc) = len (regions acc).*2.
Proof. unfold len. by rewrite (co_mla _ _ _ _ _ got_regions), length_fmap. Qed.

Lemma slice_is topo axis device count r s :
  _reject_uneven_region_slices (w' topo axis device count) = Ok tt ->
  at_ slices r = Some s -> s = x_slices x.
Proof.
  intros Hr Hs. apply (even_slices (w' topo axis device count) (x_slices x) Hr).
  - exact all_heads_known.
  - cbn. unfold slices, region_slices. rewrite length_fmap. unfold py_range. rewrite length_seqZ.
    pose proof heads_count as E. rewrite mla_count, lens_count. unfold len in E |- *. lia.
  - cbn. unfold slices. rewrite mla_count. apply (xo_last _ _ tables_ok).
  - cbn. by apply list_elem_of_lookup_2 in Hs.
Qed.

Lemma share_at l part n area : 0 <= l -> 0 <= part < 2 / k -> at_ names l = Some n -> 0 <= area < areas ->
  exists hb s, 0 < hb /\ 0 < s /\ at_ slices (l * (2 / k) + part) = Some s /\
    let full := k * (layer_heads w cfg n / tp_size w * hb) in
    s * (full / s) = full /\
    at_ (x_block_lens x) ((l * (2 / k) + part) * areas + area) = Some (full / s).
Proof.
  intros Hl Hp Hn Ha. destruct (full_at l part n Hl Hp Hn) as (hb & Hhb & Hf). pose proof row_width_pos.
  destruct (xo_share _ _ tables_ok (l * (2 / k) + part) area _ ltac:(nia) Ha Hf) as (s & Hs & Hpos & Hd & Hat).
  exists hb, s. unfold slices. rewrite mla_count. done.
Qed.

Lemma tables_registered topo axis device count : kv_per_block_seen acc = Some k ->
  registered (local_side (w' topo axis device count)).
Proof.
  intros Hseen. pose proof (xo_shards _ _ tables_ok) as Hsh. pose proof row_width_pos as HP.
  assert (Hparts : parts (local_side (w' topo axis device count)) = 2 / k) by (unfold parts; cbn; by rewrite Hseen).
  constructor; rewrite ?Hparts; cbn [local_side s_kv_per_block s_areas s_tp_size s_bases s_lens s_names w' with_regions
    kv_per_block kv_areas tp_size base_addrs block_len_per_layer local_seen_layer_names].
  - rewrite Hseen. apply (co_kv _ _ _ _ _ got_regions).
  - done.
  - done.
  - rewrite (xo_bases _ _ tables_ok), lens_count. done.
  - rewrite (xo_lens _ _ tables_ok), lens_count. done.
  - intros r area Hr Ha. destruct (Z.lt_ge_cases r (len (regions acc).*2)) as [Hlt|Hge].
    + destruct (at_some (regions acc).*2 r (conj Hr Hlt)) as [full Hf].
      destruct (xo_share _ _ tables_ok r area full Hr Ha Hf) as (s & Hs & _ & _ & E1).
      destruct (xo_share _ _ tables_ok r 0 full Hr ltac:(lia) Hf) as (s0 & Hs0 & _ & _ & E2).
      rewrite Z.add_0_r in E2. rewrite E1, E2. congruence.
    + pose proof (xo_lens _ _ tables_ok) as El. unfold len in El, Hge.
      transitivity (@None Z); [|symmetry]; apply lookup_ge_None_2; nia.
Qed.

Lemma tables_worker_ok topo axis device :
  let r := w' topo axis device (len (x_base_addrs x)) in
  kv_per_block_seen acc = Some k -> 0 <= num_blocks w -> 0 < block_size w -> viewed_region_ids w = None ->
  _reject_uneven_region_slices r = Ok tt -> worker_ok r (layer_heads w cfg).
Proof.
  intros r Hseen Hnb Hbs Hview Hslices.
  assert (Hparts : parts (local_side r) = 2 / k) by (unfold parts, r; cbn; by rewrite Hseen).
  constructor; try done; [by apply tables_registered| | |]; rewrite ?Hparts.
  - unfold r. cbn. by rewrite (xo_bases _ _ tables_ok), (xo_lens _ _ tables_ok).
  - intros l part n total Hl Hp Hn Hh. destruct (heads_at l part n Hl Hp Hn) as [E Hle].
    change (logical_region_kv_heads r) with (logical_total_kv_heads acc) in Hh. rewrite E in Hh. injection Hh as <-.
    split; [done|lia].
  - intros l part n total length per Hl Hp Hn _ Hper Hlen.
    destruct (share_at l part n 0 Hl Hp Hn ltac:(pose proof (xo_shards _ _ tables_ok); unfold areas; lia))
      as (hb & s & Hhb & Hs & Hat & Hd & Hlen').
    rewrite Z.add_0_r in Hlen'. change (block_len_per_layer r) with (x_block_lens x) in Hlen.
    change (kv_areas r) with areas in Hlen. rewrite Hlen' in Hlen. injection Hlen as <-.
    rewrite (slice_is _ _ _ _ _ _ Hslices Hat) in *. exists hb. split; [done|].
    change (tp_size r) with (tp_size w) in Hper. change (kv_slices r) with (x_slices x) in Hper.
    rewrite Hper, (Z.mul_comm (tp_size w)), Z.div_mul by lia.
    assert (kv_per_block r = k) as -> by (unfold r; cbn; by rewrite Hseen).
    replace (k * (x_slices x * per * hb)) with (k * (per * hb) * x_slices x) by lia.
    apply Z.div_mul. lia.
Qed.
End tables.

(** C8: Registration establishes what every transfer relies on.  Of an attention model whose
    layers' pages are K and V of their heads, and with the plugin's transfer tables as
    documented: when registration returns and the slices of the regions agree, which the
    handshake checks, the worker satisfies [worker_ok] -- its region tables are laid out by
    layer, part and area, every head count is the one of its layer, every block has the
    length of its heads -- and what it publishes describes the same regions to a peer. *)
Theorem registration_establishes_worker_ok `{Plugin} w cfg kvs w' :
  _register_kv_caches_impl w cfg kvs = Ok w' ->
  Forall (layer_ok w cfg) kvs.*1 -> physical_per_logical cfg = 1 ->
  has_mamba w = false -> virtually_split_kv_in_blocks = false ->
  (forall nc, head kvs = Some nc -> len (shape nc.2) <> len (kv_cache_shape mock_blocks) + 1) ->
  (forall rs device x, register_kv_regions rs device = Ok x -> xfer_ok rs.*2 x) ->
  0 < tp_size w -> 0 <= num_blocks w -> 0 < block_size w -> viewed_region_ids w = None ->
  _reject_uneven_region_slices w' = Ok tt ->
  worker_ok w' (layer_heads w cfg) /\
  forall md m, handshake_metadata w' cfg md = Ok m -> registered (peer_side m (tp_rank w') (tp_size w')).
Proof.
  intros Hr Hok Hphys Hmam Hsplit Hshape Hplug Htp Hnb Hbs Hview Hslices.
  unfold _register_kv_caches_impl in Hr. rewrite Hmam in Hr.
  destruct (head kvs) as [sample|] eqn:Eh; [|done]. cbn [mbind res_bind of_option] in Hr.
  destruct (new_topology w _) as [topo|] eqn:Et; [|done]. cbn [mbind res_bind] in Hr.
  assert (Hcross : cross_layers topo = false).
  { unfold new_topology in Et. rewrite Hmam in Et. destruct block_dim as [d|]; [|done]. cbn [mbind res_bind] in Et.
    destruct (if use_mla w then _ else _); [|done]. cbn in Et. injection Et as <-. cbn.
    apply Z.eqb_neq. by apply Hshape. }
  destruct (0 <=? _); [|done]. cbn [require mbind res_bind] in Hr.
  destruct (negb (use_host_buffer w)); [|done]. cbn [require mbind res_bind] in Hr.
  destruct (negb (host_xfer_buffers cfg)); [|done]. cbn [require mbind res_bind] in Hr.
  destruct (check_layers _ _ _); [|done]. cbn [mbind res_bind] in Hr.
  destruct (foldM _ _ kvs) as [acc|] eqn:Ec; [|done]. cbn [mbind res_bind] in Hr.
  destruct (register_kv_regions _ _) as [x|] eqn:Ex; [|done]. cbn [mbind res_bind] in Hr.
  pose proof (Hplug _ _ _ Ex) as Hx.
  assert (Hne : kvs <> []) by (by intros ->).
  assert (Hne' : kvs.*1 <> []) by (destruct kvs; done).
  destruct (collect_all w cfg topo Hcross Hphys kvs acc Hne Hok Ec) as [k Hc].
  pose proof (co_seen _ _ _ _ _ Hc Hne') as Hseen. pose proof (xo_shards _ _ Hx).
  unfold expand in Hr. rewrite Hsplit in Hr. replace (Z.max (x_n_shards x) 1) with (x_n_shards x) in Hr by lia.
  destruct (len (x_block_lens x) =? _); [|done]. cbn [require mbind res_bind] in Hr.
  destruct (len (mbind _ _) =? _); [|done]. cbn [require mbind res_bind] in Hr.
  destruct (0 <? x_slices x); [|done]. cbn [require mbind res_bind] in Hr.
  destruct (split_axis _ _) as [axis|]; [|done]. cbn [mbind res_bind] in Hr. injection Hr as <-.
  split.
  - by apply (tables_worker_ok w cfg k kvs.*1 acc x Htp Hok Hne' Hc Hx).
  - intros md m Hm. unfold handshake_metadata in Hm. destruct (_check_pp_constraints _); [|done].
    cbn [mbind res_bind] in Hm. injection Hm as <-.
    exact (tables_registered w cfg k kvs.*1 acc x Htp Hc Hx topo axis (get_device sample.2) _ Hseen).
Qed.
