(* ===== verification/KvUse.v ===== *)
(** * KV transfer: a concrete pair of engines

    A producer of one rank with two heads, one per chiplet area, and a consumer of two
    ranks that holds each head twice; the properties of the transfer are applied to them. *)
From S2P Require Import Prelude Effects KvTransfer KvLayout KvBands KvTransferSpec KvFanSpec KvHandshake KvHandshakeSpec KvShardSpec KvFlowSpec KvWriteSpec KvRegister KvRegisterSpec.

Module KvToy.

#[export] Instance base : NixlBase := {|
  tp_ratio local remote :=
    if remote <=? local then
      r ← py_mod local remote; if r =? 0 then py_floordiv local remote else Raise AssertionError
    else
      r ← py_mod remote local;
      if r =? 0 then q ← py_floordiv remote local; Ok (- q) else Raise AssertionError;
  block_size_ratio local remote :=
    r ← py_mod local remote; if r =? 0 then py_floordiv local remote else Raise AssertionError;
  super_kv_block_len w i := of_option (block_len_per_layer w !! Z.to_nat i) IndexError;
  logical_to_kernel_block_ids ids n :=
    if n =? 1 then ids else (fun g => b ← g; (fun i => b * n + i) <$> py_range n) <$> ids
|}.

#[export] Instance base_laws : NixlBaseLaws.
Proof.
  constructor.
  - intros local remote Hr [k Hk]. unfold tp_ratio; cbn. destruct (Z.leb_spec remote local); [|lia].
    unfold py_mod, py_floordiv. destruct (Z.eqb_spec remote 0); [lia|]. cbn [mbind res_bind].
    subst. rewrite Z.mod_mul by lia. done.
  - intros local remote Hr [k Hk]. unfold tp_ratio; cbn. destruct (Z.leb_spec remote local); [lia|].
    unfold py_mod, py_floordiv. destruct (Z.eqb_spec local 0); [lia|]. cbn [mbind res_bind].
    subst. rewrite Z.mod_mul by lia. done.
  - intros local remote k Hk. unfold block_size_ratio in Hk; cbn in Hk. unfold py_mod, py_floordiv in Hk.
    destruct (Z.eqb_spec remote 0); [done|]. cbn [mbind res_bind] in Hk.
    destruct (Z.eqb_spec (local mod remote) 0) as [E|]; [|done]. injection Hk as <-. split; [done|].
    pose proof (Z.div_mod local remote). nia.
  - intros w i n _ Hn. unfold super_kv_block_len; cbn. by rewrite Hn.
  - done.
Qed.

(** Our side: heads 0 and 1 of layer "a", in areas 0 and 1. *)
Definition producer : Worker := {|
  writes_into_peer := true; use_host_buffer := false; sw_ratio := None; has_swa := false;
  has_mamba := false; use_mla := false; cross_layers_blocks := false; tp_rank := 0; tp_size := 1;
  total_num_kv_heads := 2; kv_areas := 2; kv_slices := 2; kv_split_axis := HEAD;
  kv_per_block := 2; block_size := 16; num_blocks := 3; device_id := 7; num_regions := 2;
  block_len_per_layer := [8; 8]; base_addrs := [1000; 2000];
  logical_region_kv_heads := [Some 2]; logical_region_slices := [2];
  local_seen_layer_names := ["a"]; kv_cache_layout := "HND"; local_pp := 1; n_groups := 1;
  viewed_region_ids := None
|}.

(** Rank [r] of the consumer: head [r], in both areas. *)
Definition consumer (r : Z) : RblnNixlAgentMetadata := {|
  m_engine_id := "D"; m_agent_metadata := "md"; m_device_id := r;
  m_kv_caches_base_addr := [5000 + 1000 * r; 5400 + 1000 * r]; m_num_blocks := 2;
  m_block_lens := [8; 8]; m_kv_cache_layout := "HND"; m_block_size := 16; m_pp_rank := 0;
  m_pp_size := 1; m_registered_layer_names := ["a"]; m_kv_areas := 2; m_kv_slices := 1;
  m_kv_split_axis := HEAD; m_kv_per_block := 2
|}.

(** The first transfer handle is refused, the others are taken. *)
#[export] Instance nixl : Nixl := fun h c =>
  match c return res (ans c) with
  | QueryMeta _ r => Ok {| r_hash := "h"; r_meta := consumer r; r_rtt := 10 + r; r_offset := r |}
  | AddRemoteAgent md => Ok md
  | AddNotifOnlyAgent md _ => Ok md
  | SuperAddRemoteAgent _ _ _ => Ok ("agent", 900)
  | GetEngineInfo _ => Ok {| e_tp_size := 2; e_block_size := 16; e_physical_per_logical := 1 |}
  | FanInHandles _ _ => Ok ([], [])
  | PrepXferDlist _ _ => Ok (len h)
  | MakePreppedXfer _ _ _ _ _ _ => Ok (100 + len h)
  | SuperApplyPrefixCaching l r => Ok (l, r)
  | Transfer x => if existsb (fun e => match ev_call e with Transfer _ => true | _ => false end) h
                  then Ok tt else Raise RuntimeError
  | _ => Ok tt
  end.

Definition conn0 : Conn := {|
  remote_shard_layer_names := ∅; remote_pp_size := ∅; overlapping_ranks := ∅;
  src_xfer_handles_by_remote := ∅; borrowed_src_handles := ∅; shard_region_group_ids := ∅;
  shard_descs_per_block := ∅; remote_agents := ∅; dst_num_blocks := ∅; kv_caches_base_addr := ∅;
  dst_xfer_side_handles := ∅; src_xfer_handles_by_block_size := ∅; recving_transfers := ∅;
  sending_transfers := ∅
|}.

Definition shaken := _nixl_handshake producer (fun _ => false) true "h" [0; 1] 2 "D" 1 false (conn0, []).
Definition after : Conn * history := shaken.1.

Definition got {A} (r : res (list A)) : list A := match r with Ok l => l | Raise _ => [] end.

Definition lists (r lh rh : Z) : Lists := {|
  l_local := got (shard_local_descs producer 16 1 [r] 2 1);
  l_remote := got (_build_head_matched_remote producer (consumer r) r 2 (Some ["a"]) (Some [r]));
  l_agent := "md"; l_lh := lh; l_rh := rh; l_areas := Some [r]; l_split := 1; l_runs := 1;
  l_fan := 2; l_rids := [r]
|}.

Example shaken_ok : match shaken.2 with Ok x => x.1 !! (0, 1) | Raise _ => None end = Some "md".
Proof. vm_compute. reflexivity. Qed.

Definition heads (layer : string) : Z := 2.

Lemma one_layer (l : Z) (n : string) : at_ ["a"] l = Some n -> 0 <= l -> l = 0.
Proof.
  intros Hn Hl. pose proof (at_range _ _ _ Hl Hn) as Hr. change (len ["a"]) with 1 in Hr. lia.
Qed.

Lemma two_areas (r area : Z) : 0 <= r -> 0 <= area < 2 -> at_ [8; 8] (r * 2 + area) = at_ [8; 8] (r * 2).
Proof.
  intros Hr Ha. destruct (decide (r = 0)) as [->|].
  - assert (area = 0 \/ area = 1) as [->| ->] by lia; reflexivity.
  - transitivity (@None Z); [|symmetry]; apply (lookup_ge_None_2 [8; 8]); cbn; lia.
Qed.

Lemma producer_registered : registered (local_side producer).
Proof.
  constructor; [by right|reflexivity|reflexivity|reflexivity|reflexivity|].
  cbn [s_lens s_areas local_side block_len_per_layer kv_areas producer]. apply two_areas.
Qed.

Lemma consumer_registered r : registered (peer_side (consumer r) r 2).
Proof.
  constructor; [by right|reflexivity|reflexivity|reflexivity|reflexivity|].
  cbn [s_lens s_areas peer_side m_block_lens m_kv_areas consumer]. apply two_areas.
Qed.

Lemma producer_ok : worker_ok producer heads.
Proof.
  constructor; try reflexivity; try done; [apply producer_registered| |].
  - intros l part n total Hl Hp Hn Hh. apply one_layer in Hn as ->; [|done].
    change (parts (local_side producer)) with 1 in *. assert (part = 0) as -> by lia.
    cbn in Hh. by injection Hh as <-.
  - intros l part n total length per Hl Hp Hn _ Hper Hh. apply one_layer in Hn as ->; [|done].
    change (parts (local_side producer)) with 1 in *. assert (part = 0) as -> by lia.
    cbn in Hh. injection Hh as <-. exists 4. split; [done|]. cbn in Hper |- *.
    unfold heads in Hper. lia.
Qed.

Lemma prepared_0 : prepared producer after "D" 0 (consumer 0) 0 2 (lists 0 4 3).
Proof.
  constructor; try (vm_compute; reflexivity).
  - constructor; vm_compute; reflexivity.
  - apply list_elem_of_In. vm_compute. repeat (first [left; reflexivity|right]).
  - apply list_elem_of_In. vm_compute. repeat (first [left; reflexivity|right]).
Qed.

(** The second area goes to the second rank, whatever the first one asks for. *)
Lemma fan_in_partitions_areas_witness :
  exists owner, 0 <= owner < 2 /\
    forall r, exists l, _fan_in_peer_areas producer r 2 = Ok (Some l) /\ (1 ∈ l <-> r = owner).
Proof.
  assert (F : finer_peer producer 2 2 0 1) by (constructor; try reflexivity; by exists 1).
  destruct (proj1 (fan_in_partitions_areas producer 2 2 0 1 F) ltac:(vm_compute; done) 1 ltac:(cbn; lia))
    as (owner & Ho & _ & Hl).
  exists owner. split; [exact Ho|exact Hl].
Defined.

(** Block 2 of the producer into block 0 of the consumer's first rank, both copies. *)
Lemma transfer_moves_same_bytes_witness :
  shard_transfer producer "D" 0 16 [[2]] [[0]] after = (after, Ok (4, [4; 5], (3, [0; 1]))) /\
  exists addr_l addr_r size, 0 < size /\
    at_ (l_local (lists 0 4 3)) 5 = Some (addr_l, size, 7) /\
    at_ (l_remote (lists 0 4 3)) 1 = Some (addr_r, size, 0) /\
    forall x, 0 <= x < size -> exists id,
      holds (local_side producer) heads (addr_l + x) 2 id /\
      holds (peer_side (consumer 0) 0 2) heads (addr_r + x) 0 id.
Proof.
  destruct (transfer_moves_same_bytes producer (consumer 0) heads 0 2 after "D" 0 (lists 0 4 3) [2] [0]
    producer_ok (consumer_registered 0) ltac:(done) prepared_0 ltac:(by repeat constructor)
    ltac:(by repeat constructor) ltac:(done) ltac:(done)) as (li & ri & Hst & _ & _ & Hk).
  assert (Hrun : shard_transfer producer "D" 0 16 [[2]] [[0]] after = (after, Ok (4, [4; 5], (3, [0; 1]))))
    by (vm_compute; reflexivity).
  split; [exact Hrun|]. change (m_block_size (consumer 0)) with 16 in Hst. rewrite Hrun in Hst.
  apply (f_equal snd) in Hst. cbn [snd lists l_lh l_rh] in Hst. injection Hst as <- <-.
  destruct (Hk 1 5 1 ltac:(done) ltac:(done) ltac:(done))
    as (t & bl & br & addr_l & addr_r & size & Ht & Hbl & Hbr & Hs & Hl & Hr & Hx).
  exists addr_l, addr_r, size. do 3 (split; [assumption|]).
  pose proof (at_range _ _ _ Ht Hbl) as Hlt. change (len [2]) with 1 in Hlt.
  assert (t = 0) as -> by lia. injection Hbl as <-. injection Hbr as <-. exact Hx.
Defined.

(** The handshake above: rank 1 of the consumer has its entries. *)
Lemma handshake_prepares_shards_witness :
  overlapping_ranks after.1 !! "D" = Some [0; 1] /\
  exists pp rank m d, 1 = pp * 2 + rank /\ rank ∈ [0; 1] /\ m_engine_id m = "D" /\
    prepared producer after "D" 1 m rank 2 d.
Proof.
  assert (Hall : wp (_nixl_handshake producer (fun _ => false) true "h" [0; 1] 2 "D" 1 false) (conn0, [])
    (fun _ s' => exists l, overlapping_ranks s'.1 !! "D" = Some l /\
      forall g, g ∈ l -> exists pp rank m d, g = pp * 2 + rank /\ rank ∈ [0; 1] /\
        m_engine_id m = "D" /\ prepared producer s' "D" g m rank 2 d) (fun _ _ => True)).
  { apply (handshake_prepares_shards producer (fun _ => false) true "h" [0; 1] 2 "D" 1 (conn0, []) 2).
    - reflexivity.
    - repeat constructor; set_solver.
    - repeat constructor; done.
    - intros k. apply lookup_empty.
    - reflexivity.
    - intros h pp r a [= <-]. reflexivity. }
  assert (Hover : overlapping_ranks after.1 !! "D" = Some [0; 1]) by (vm_compute; reflexivity).
  split; [exact Hover|]. unfold wp in Hall. unfold after, shaken in *.
  destruct (_nixl_handshake _ _ _ _ _ _ _ _ _ _) as [s' [a|e]] eqn:E.
  - cbn [fst] in Hover |- *. destruct Hall as (l & Hl & Hg). rewrite Hover in Hl. injection Hl as <-.
    apply Hg. right. left.
  - exfalso. assert (Hok : match snd shaken with Ok _ => True | Raise _ => False end) by (vm_compute; exact I).
    unfold shaken in Hok. rewrite E in Hok. exact Hok.
Defined.

Definition request : ReqMeta := {|
  q_engine_id := "D"; q_request_id := "r"; q_remote_block_ids := [[0; 1]];
  q_local_block_ids := [[0; 1; 2]]
|}.
Definition pulled : ReqMeta := {|
  q_engine_id := "D"; q_request_id := "r"; q_remote_block_ids := [[0; 1]];
  q_local_block_ids := [[0; 1]]
|}.

(** The first shard's transfer is refused: nothing is published. *)
Lemma read_publishes_all_or_nothing_witness :
  recving_transfers (_read_blocks_for_req producer "req" pulled after).1.1 !! "req" = None /\
  wp (_read_blocks_for_req producer "req" pulled) after (fun _ s' => exists new,
    made s'.2 ≡ₚ new ++ made after.2 /\
    ((length new = 2%nat /\ settled s'.2 = settled after.2 /\
      recving_transfers s'.1 = extend_transfers "req" new (recving_transfers after.1)) \/
     (recving_transfers s'.1 = recving_transfers after.1 /\ settled s'.2 ≡ₚ new ++ settled after.2)))
    (fun _ _ => True).
Proof.
  split; [vm_compute; reflexivity|].
  apply (read_publishes_all_or_nothing producer "req" pulled after [0; 1]); [vm_compute; reflexivity|done|done].
Defined.

(** The first write is refused, the second goes out. *)
Lemma write_publishes_in_flight_witness :
  sending_transfers (_xfer_blocks_for_req producer "req" request after).1.1 !! "req" = Some [114] /\
  wp (_xfer_blocks_for_req producer "req" request) after (fun _ s' => exists sent failed,
    made s'.2 ≡ₚ sent ++ failed ++ made after.2 /\ settled s'.2 ≡ₚ failed ++ settled after.2 /\
    (length sent <= 2)%nat /\
    sending_transfers s'.1 =
      if decide (sent = []) then sending_transfers after.1
      else extend_transfers "req" sent (sending_transfers after.1))
    (fun _ _ => True).
Proof.
  split; [vm_compute; reflexivity|].
  apply (write_publishes_in_flight producer "req" request after [0; 1]); [vm_compute; reflexivity|done].
Defined.

(** Forgetting the consumer releases both lists of ours. *)
Lemma cleanup_forgets_engine_witness :
  dlists_released (_cleanup_remote_engine "D" after).1.2 = [9; 4] /\
  wp (_cleanup_remote_engine "D") after (fun _ s' =>
    (forall k, src_xfer_handles_by_remote s'.1 !! k =
      if decide (k.1.1 = "D") then None else src_xfer_handles_by_remote after.1 !! k) /\
    (forall k, shard_region_group_ids s'.1 !! k =
      if decide (k.1 = "D") then None else shard_region_group_ids after.1 !! k) /\
    (forall k, shard_descs_per_block s'.1 !! k =
      if decide (k.1 = "D") then None else shard_descs_per_block after.1 !! k) /\
    (forall k, remote_shard_layer_names s'.1 !! k =
      if decide (k.1 = "D") then None else remote_shard_layer_names after.1 !! k) /\
    (forall e, overlapping_ranks s'.1 !! e = if decide (e = "D") then None else overlapping_ranks after.1 !! e) /\
    (forall e, remote_pp_size s'.1 !! e = if decide (e = "D") then None else remote_pp_size after.1 !! e) /\
    dlists_released s'.2 ≡ₚ
      owned (borrowed_src_handles after.1) (engine_handles "D" after.1) ++ dlists_released after.2)
    (fun _ _ => True).
Proof. split; [vm_compute; reflexivity|apply (cleanup_forgets_engine "D" after)]. Defined.

(** Three blocks of ours, of which the consumer had the first. *)
Lemma trim_keeps_missing_suffix_witness :
  (exists ls, _trim_to_consumer_blocks [[0; 1; 2]] [[0; 1]] = Ok (ls ++ []) /\
     Forall2 (fun lr l => kept lr.1 lr.2 l) [([0; 1; 2], [0; 1])] ls) /\
  _trim_to_consumer_blocks [[0; 1; 2]] [[0; 1]] = Ok [[1; 2]] /\
  _trim_to_consumer_blocks [[0]] [[0; 1]] = Raise RuntimeError.
Proof.
  split; [apply (proj1 (trim_keeps_missing_suffix [[0; 1; 2]] [[0; 1]])); by repeat constructor|].
  split; [reflexivity|].
  apply (proj2 (trim_keeps_missing_suffix [[0]] [[0; 1]])); [done|by constructor].
Defined.

(** A consumer of one rank with four areas for its two heads, under a producer of two ranks:
    the second descriptor of its prepared list is the copy of block 0, and no shard list is
    kept of it. *)
Definition replicating : RblnNixlAgentMetadata := {|
  m_engine_id := "D"; m_agent_metadata := "md"; m_device_id := 0;
  m_kv_caches_base_addr := [5000; 5400; 5800; 6200]; m_num_blocks := 2;
  m_block_lens := [8; 8; 8; 8]; m_kv_cache_layout := "HND"; m_block_size := 16; m_pp_rank := 0;
  m_pp_size := 1; m_registered_layer_names := ["a"]; m_kv_areas := 4; m_kv_slices := 2;
  m_kv_split_axis := HEAD; m_kv_per_block := 2
|}.
Definition half_producer : Worker := {|
  writes_into_peer := true; use_host_buffer := false; sw_ratio := None; has_swa := false;
  has_mamba := false; use_mla := false; cross_layers_blocks := false; tp_rank := 0; tp_size := 2;
  total_num_kv_heads := 2; kv_areas := 4; kv_slices := 1; kv_split_axis := HEAD;
  kv_per_block := 2; block_size := 16; num_blocks := 3; device_id := 7; num_regions := 4;
  block_len_per_layer := [8; 8; 8; 8]; base_addrs := [1000; 2000; 3000; 4000];
  logical_region_kv_heads := [Some 2]; logical_region_slices := [1];
  local_seen_layer_names := ["a"]; kv_cache_layout := "HND"; local_pp := 1; n_groups := 1;
  viewed_region_ids := None
|}.
Example replicas_misnamed :
  let run := add_shard half_producer (fun _ => false) "D" 1 1 0 0 replicating
    {| rank_to_agent := ∅; overlapping := []; best_rtt := 0; best_offset := 0 |} (conn0, []) in
  match run.2 with Ok v => overlapping v | Raise _ => [99] end = [] /\
  shard_region_group_ids run.1.1 !! ("D", 0) = None /\
  _build_head_matched_remote half_producer replicating 0 1 (Some ["a"]) None =
    Ok ([(5000, 8, 0); (5400, 8, 0); (5008, 8, 0); (5408, 8, 0)] ++
        [(5000, 8, 0); (5400, 8, 0); (5008, 8, 0); (5408, 8, 0)] ++
        [(5000, 8, 0); (5400, 8, 0); (5008, 8, 0); (5408, 8, 0)] ++
        [(5000, 8, 0); (5400, 8, 0); (5008, 8, 0); (5408, 8, 0)]).
Proof. vm_compute. repeat split. Qed.

(** A plugin that takes one region and cuts it over two areas. *)
#[export] Instance plugin : Plugin := {|
  register_kv_regions rs _ :=
    match rs with
    | [(_, _, full)] =>
        if full mod 2 =? 0
        then Ok {| x_base_addrs := [1000; 2000]; x_block_lens := [full / 2; full / 2];
                   x_slice_ids := [0; 1]; x_n_shards := 2; x_slices := 2 |}
        else Raise ValueError
    | _ => Raise ValueError
    end;
  iter_tensor _ := [];
  super_cache_regions _ _ := [];
  kv_cache_shape n := [n; 2; 1; 16; 1];
  virtually_split_kv_in_blocks := false
|}.

Lemma plugin_ok rs device x : register_kv_regions rs device = Ok x -> xfer_ok rs.*2 x.
Proof.
  destruct rs as [|[[t o] full] [|]]; [done| |done]. cbn.
  destruct (Z.eqb_spec (full mod 2) 0) as [E|]; [|done]. intros [= <-].
  constructor; try done.
  intros r area f Hr Ha Hf. assert (r = 0) as ->.
  { assert (Hlt : r < 1) by exact (at_range _ _ _ Hr Hf). lia. }
  cbn in Hf. injection Hf as <-. exists 2. split; [done|]. split; [done|].
  split; [symmetry; by apply Z.div_exact|]. cbn in Ha.
  assert (area = 0 \/ area = 1) as [-> | ->] by lia; done.
Qed.

Definition layers : Layers := {|
  layer_specs := {["a" := One {| spec_kind := AttentionSpec; page_size_bytes := 16; num_kv_heads := 2 |}]};
  draft_total_kv_heads := None; host_xfer_buffers := false; physical_per_logical := 1;
  logical_num_blocks := 3; num_kv_cache_tensors := 1; pipeline_rank := 0; own_engine_id := "P"
|}.
Definition cache : Tensor := {|
  data_ptr := 1000; shape := [3; 2; 2; 2; 1]; numel := 24; element_size := 2; get_device := 7
|}.

(** The producer above is what registration makes of one cache of three blocks. *)
Lemma registration_establishes_worker_ok_witness :
  _register_kv_caches_impl producer layers [("a", cache)] = Ok producer /\
  worker_ok producer (layer_heads producer layers) /\
  forall md m, handshake_metadata producer layers md = Ok m -> registered (peer_side m 0 1).
Proof.
  split; [vm_compute; reflexivity|].
  apply (registration_establishes_worker_ok producer layers [("a", cache)] producer).
  - vm_compute. reflexivity.
  - constructor; [|constructor].
    exists {| spec_kind := AttentionSpec; page_size_bytes := 16; num_kv_heads := 2 |}, 4.
    repeat (split; [vm_compute; reflexivity|]). vm_compute. reflexivity.
  - reflexivity.
  - reflexivity.
  - reflexivity.
  - intros nc [= <-]. vm_compute. discriminate.
  - exact plugin_ok.
  - done.
  - done.
  - done.
  - done.
  - vm_compute. reflexivity.
Defined.
End KvToy.
