(* ===== verification/KvConnector.v ===== *)
(** * KV transfer: the scheduler side and the connectors

    [base_scheduler.py]: how much of a prompt is fetched, and the blocks collected over the
    chunks of a prefill; [connector.py] and [utils.py]: the read held until a submission is
    in flight, and the hooks driven over nested connectors.  The answers of the methods
    overridden are arguments. *)
From S2P Require Import Prelude Effects.

(** ** [get_num_new_matched_tokens] *)

(** [base] is upstream's answer, [max_num_batched_tokens] the chunk size. *)
Definition get_num_new_matched_tokens (max_num_batched_tokens : Z) (base : Z * bool)
    (num_prompt_tokens num_computed_tokens : Z) : res (Z * bool) :=
  let '(count, load_async) := base in
  let resume := num_computed_tokens + count in
  if num_prompt_tokens <=? resume then Ok (count, load_async)
  else
    overshoot ← py_mod resume max_num_batched_tokens;
    if overshoot =? 0 then Ok (count, load_async)
    else if count <=? overshoot then Ok (0, false)
    else Ok (count - overshoot, load_async).

(** A fetch leaves the prefill on a chunk boundary.  Of what the peer holds it keeps the
    longest part after which the prompt is either covered or continues at a multiple of
    the chunk size; where there is none it reports no match and no load. *)
Theorem fetch_resumes_on_boundary chunk count load_async num_prompt num_computed :
  0 < chunk -> 0 <= count -> 0 <= num_computed ->
  exists c a, get_num_new_matched_tokens chunk (count, load_async) num_prompt num_computed = Ok (c, a) /\
    0 <= c <= count /\
    (num_prompt <= num_computed + c \/ (num_computed + c) mod chunk = 0 \/ (c = 0 /\ a = false)) /\
    (forall c', c < c' <= count ->
      num_computed + c' < num_prompt /\ (num_computed + c') mod chunk <> 0) /\
    (c <> 0 -> a = load_async).
Proof.
  intros Hc Hn Hk. unfold get_num_new_matched_tokens.
  destruct (Z.leb_spec num_prompt (num_computed + count)).
  { exists count, load_async. split; [done|]. split; [lia|]. split; [by left|]. split; [lia|done]. }
  unfold py_mod. destruct (Z.eqb_spec chunk 0); [lia|]. cbn [mbind res_bind].
  set (over := (num_computed + count) mod chunk).
  pose proof (Z.mod_pos_bound (num_computed + count) chunk Hc) as Hb. fold over in Hb.
  assert (Hfree : forall c', count - over < c' <= count -> num_computed + c' < num_prompt /\
    (num_computed + c') mod chunk <> 0).
  { intros c' Hc'. split; [lia|]. pose proof (Z.div_mod (num_computed + count) chunk ltac:(lia)) as E.
    fold over in E. replace (num_computed + c') with
      ((c' - (count - over)) + ((num_computed + count) / chunk) * chunk) by lia.
    rewrite Z_mod_plus_full, Z.mod_small; lia. }
  destruct (Z.eqb_spec over 0) as [E0|].
  { exists count, load_async. split; [done|]. split; [lia|]. split; [by right; left|]. split; [lia|done]. }
  destruct (Z.leb_spec count over).
  - exists 0, false. split; [done|]. split; [lia|]. split; [by do 2 right|]. split; [|done].
    intros c' Hc'. apply Hfree. lia.
  - exists (count - over), load_async. split; [done|]. split; [lia|]. split.
    + right. left. pose proof (Z.div_mod (num_computed + count) chunk ltac:(lia)) as E. fold over in E.
      replace (num_computed + (count - over)) with (((num_computed + count) / chunk) * chunk) by lia.
      apply Z.mod_mul. lia.
    + split; [exact Hfree|done].
Qed.

Lemma fetch_resumes_on_boundary_witness :
  (exists c a, get_num_new_matched_tokens 128 (300, true) 1000 64 = Ok (c, a) /\
    0 <= c <= 300 /\ (1000 <= 64 + c \/ (64 + c) mod 128 = 0 \/ (c = 0 /\ a = false)) /\
    (forall c', c < c' <= 300 -> 64 + c' < 1000 /\ (64 + c') mod 128 <> 0) /\ (c <> 0 -> a = true)) /\
  get_num_new_matched_tokens 128 (300, true) 1000 64 = Ok (192, true) /\
  get_num_new_matched_tokens 128 (60, true) 1000 0 = Ok (0, false).
Proof. split; [by apply fetch_resumes_on_boundary|split; reflexivity]. Defined.

(** ** [_build_save_meta] *)
Abbreviation BlockIds := (list (list Z)).

(** One item of [yield_req_data], with what the step and the request object say of it. *)
Record Chunk := {
  req_id : string;
  new_block_id_groups : option BlockIds;
  resumed : bool;
  num_scheduled : option Z;
  num_computed_tokens : Z;
  num_prompt_tokens : Z;
  has_transfer_params : bool
}.

Record Saver := {
  block_ids_need_save : gmap string BlockIds;
  reqs_need_save : gset string
}.

(** [for s, n in zip(stored, new): s.extend(n)]. *)
Fixpoint extend_groups (stored new : BlockIds) : BlockIds :=
  match stored, new with
  | s :: stored, n :: new => (s ++ n) :: extend_groups stored new
  | stored, _ => stored
  end.

(** What is held for a request once its new groups are taken in. *)
Definition take_groups (resumed : bool) (held new : option BlockIds) : option BlockIds :=
  match new with
  | None => held
  | Some groups =>
      match held with
      | Some stored => if resumed then Some groups else Some (extend_groups stored groups)
      | None => Some groups
      end
  end.

(** [get_sw_clipped_blocks] is [clip]; what is saved is what [add_new_req_to_save] receives. *)
Section save.
Context (clip : BlockIds -> BlockIds).

Definition save_chunk (s : Saver) (c : Chunk) : res (Saver * list (string * BlockIds)) :=
  if bool_decide (req_id c ∉ reqs_need_save s) then Ok (s, [])
  else if negb (has_transfer_params c) then Raise AssertionError
  else
    n ← of_option (num_scheduled c) KeyError;
    let held := block_ids_need_save s !! req_id c in
    if bool_decide (held = None) && bool_decide (new_block_id_groups c = None)
    then Raise AssertionError
    else
      let held := take_groups (resumed c) held (new_block_id_groups c) in
      if num_computed_tokens c + n <? num_prompt_tokens c
      then Ok ({| block_ids_need_save := partial_alter (fun _ => held) (req_id c) (block_ids_need_save s);
                  reqs_need_save := reqs_need_save s |}, [])
      else
        groups ← of_option held KeyError;
        Ok ({| block_ids_need_save := delete (req_id c) (block_ids_need_save s);
               reqs_need_save := reqs_need_save s ∖ {[req_id c]} |}, [(req_id c, clip groups)]).

Fixpoint _build_save_meta (s : Saver) (cs : list Chunk) : res (Saver * list (string * BlockIds)) :=
  match cs with
  | [] => Ok (s, [])
  | c :: cs =>
      r ← save_chunk s c;
      r' ← _build_save_meta r.1 cs;
      Ok (r'.1, r.2 ++ r'.2)
  end.

(** [request_finished]. *)
Definition request_finished (req : string) (s : Saver) : Saver := {|
  block_ids_need_save := delete req (block_ids_need_save s); reqs_need_save := reqs_need_save s
|}.

(** *** The chunks of one prefill *)

Definition partial (c : Chunk) : Prop := exists n, num_scheduled c = Some n /\
  num_computed_tokens c + n < num_prompt_tokens c.
Definition closing (c : Chunk) : Prop := exists n, num_scheduled c = Some n /\
  num_prompt_tokens c <= num_computed_tokens c + n.

(** The blocks a prefill has been given over its chunks: all that were sent since it was
    last sent whole, group by group. *)
Definition given (groups : list BlockIds) (g : nat) : list Z := b ← groups; default [] (b !! g).

(** The chunks of one prefill, after the groups it was already given, if any: a chunk starts
    with all blocks, the first time or on a resumption, or adds some or none. *)
Inductive prefill (req : string) (n : nat) : option (list BlockIds) -> list Chunk -> list BlockIds -> Prop :=
  | prefill_done k : prefill req n (Some k) [] k
  | prefill_start c acc groups cs k :
      req_id c = req -> has_transfer_params c = true -> resumed c = true \/ acc = None ->
      new_block_id_groups c = Some groups -> length groups = n ->
      prefill req n (Some [groups]) cs k -> prefill req n acc (c :: cs) k
  | prefill_none c acc cs k :
      req_id c = req -> has_transfer_params c = true -> new_block_id_groups c = None ->
      prefill req n (Some acc) cs k -> prefill req n (Some acc) (c :: cs) k
  | prefill_more c acc groups cs k :
      req_id c = req -> has_transfer_params c = true -> resumed c = false ->
      new_block_id_groups c = Some groups -> length groups = n ->
      prefill req n (Some (acc ++ [groups])) cs k -> prefill req n (Some acc) (c :: cs) k.

Lemma extend_groups_lookup stored new g : length stored = length new ->
  default [] (extend_groups stored new !! g) = default [] (stored !! g) ++ default [] (new !! g).
Proof.
  revert new g. induction stored as [|s stored IH]; intros [|x new] g Hl; try done.
  injection Hl as Hl. destruct g as [|g]; cbn; [done|by apply IH].
Qed.

Lemma length_extend_groups stored new : length (extend_groups stored new) = length stored.
Proof. revert new. induction stored; intros [|]; cbn; auto. Qed.

(** What is held of a request agrees with the groups given so far. *)
Definition held_is (n : nat) (held : option BlockIds) (acc : option (list BlockIds)) : Prop :=
  match acc with
  | None => held = None
  | Some groups => exists b, held = Some b /\ length b = n /\ forall g, default [] (b !! g) = given groups g
  end.

(** One chunk of a prefill, with the groups given after it. *)
Lemma take_groups_ok req n acc c cs k held :
  prefill req n acc (c :: cs) k -> held_is n held acc ->
  exists acc', held_is n (take_groups (resumed c) held (new_block_id_groups c)) (Some acc') /\
    prefill req n (Some acc') cs k /\ req_id c = req /\ has_transfer_params c = true /\
    andb (bool_decide (held = None)) (bool_decide (new_block_id_groups c = None)) = false.
Proof.
  intros Hp Hh. inversion Hp as [|? ? groups ? ? Hr Ht Ha Hb Hn Hp'|? acc0 ? ? Hr Ht Hb Hp'
    |? acc0 groups ? ? Hr Ht Hr0 Hb Hn Hp']; subst; rewrite Hb.
  - exists [groups]. split; [|by rewrite andb_false_r]. exists groups. split; [|split; [done|]].
    + unfold take_groups. destruct held; [|done]. destruct Ha as [->| ->]; [done|by cbn in Hh].
    + intros g. unfold given. cbn. by rewrite app_nil_r.
  - exists acc0. destruct Hh as (b & -> & Hlen & Hg). cbn [take_groups]. split; [by exists b|]. done.
  - exists (acc0 ++ [groups]). destruct Hh as (b & -> & Hlen & Hg). rewrite Hr0. cbn [take_groups].
    split; [|done]. exists (extend_groups b groups). split; [done|].
    split; [by rewrite length_extend_groups|]. intros g. rewrite extend_groups_lookup by congruence.
    rewrite Hg. unfold given. rewrite bind_app. cbn. by rewrite app_nil_r.
Qed.

(** Two states that agree on the requests other than [req]. *)
Definition same_others (req : string) (s t : Saver) : Prop := forall r, r <> req ->
  block_ids_need_save s !! r = block_ids_need_save t !! r /\ (r ∈ reqs_need_save s <-> r ∈ reqs_need_save t).

Lemma save_other req s t c t' out : req_id c <> req -> same_others req s t -> save_chunk t c = Ok (t', out) ->
  exists s', save_chunk s c = Ok (s', out) /\ same_others req s' t' /\
    block_ids_need_save s' !! req = block_ids_need_save s !! req /\
    (req ∈ reqs_need_save s' <-> req ∈ reqs_need_save s) /\ Forall (fun kv => kv.1 <> req) out.
Proof.
  intros Hne Hst Hs. destruct (Hst _ Hne) as [Hb Hin]. unfold save_chunk in *.
  rewrite Hb, (bool_decide_ext _ _ (not_iff_compat Hin)). case_bool_decide.
  { injection Hs as <- <-. by exists s. }
  destruct (negb _); [done|]. destruct (num_scheduled c) as [n|]; [|done]. cbn [mbind res_bind of_option] in *.
  destruct (_ && _); [done|]. destruct (_ <? _).
  - injection Hs as <- <-. eexists. split; [done|]. cbn. rewrite lookup_partial_alter_ne by done.
    split; [|done]. intros r Hr. cbn. destruct (decide (r = req_id c)) as [->|].
    + by rewrite !lookup_partial_alter_eq.
    + rewrite !lookup_partial_alter_ne by done. by apply Hst.
  - destruct (take_groups _ _ _); [|done]. cbn in *. injection Hs as <- <-. eexists. split; [done|]. cbn.
    rewrite lookup_delete_ne by done. split; [|repeat split; [set_solver|set_solver|by constructor]].
    intros r Hr. cbn. specialize (Hst r Hr) as [Hr1 Hr2]. destruct (decide (r = req_id c)) as [->|].
    + rewrite !lookup_delete_eq. set_solver.
    + rewrite !lookup_delete_ne by done. set_solver.
Qed.

(** A chunk of the request, which is not the last one or is. *)
Lemma save_own req n acc c cs k s t :
  prefill req n acc (c :: cs) k -> held_is n (block_ids_need_save s !! req) acc ->
  req ∈ reqs_need_save s -> same_others req s t ->
  (partial c -> exists s' acc', save_chunk s c = Ok (s', []) /\ same_others req s' t /\
    req ∈ reqs_need_save s' /\ held_is n (block_ids_need_save s' !! req) (Some acc') /\ prefill req n (Some acc') cs k) /\
  (closing c -> exists s' acc' b, save_chunk s c = Ok (s', [(req, clip b)]) /\ same_others req s' t /\
    (req ∉ reqs_need_save s') /\ block_ids_need_save s' !! req = None /\ held_is n (Some b) (Some acc') /\
    prefill req n (Some acc') cs k).
Proof.
  intros Hp Hh Hin Hst.
  destruct (take_groups_ok _ _ _ _ _ _ _ Hp Hh) as (acc' & Hacc & Hp' & <- & Ht & Hnone).
  unfold save_chunk. rewrite bool_decide_false by tauto. rewrite Ht. cbn [negb]. rewrite Hnone.
  split; intros (m & Hm & Hlt); rewrite Hm; cbn [mbind res_bind of_option].
  - destruct (Z.ltb_spec (num_computed_tokens c + m) (num_prompt_tokens c)); [|lia].
    eexists _, acc'. split; [done|]. cbn. rewrite lookup_partial_alter_eq.
    split; [|done]. intros r Hr. cbn. rewrite lookup_partial_alter_ne by done. by apply Hst.
  - destruct (Z.ltb_spec (num_computed_tokens c + m) (num_prompt_tokens c)); [lia|].
    destruct Hacc as (b & Hb & Hbl). rewrite Hb. cbn [mbind res_bind of_option].
    eexists _, acc', b. split; [done|]. cbn. rewrite lookup_delete_eq.
    split; [|split; [set_solver|split; [done|split; [by exists b|done]]]].
    intros r Hr. cbn. rewrite lookup_delete_ne by done. destruct (Hst r Hr). set_solver.
Qed.

Lemma rest_untouched req cs s t t' out : req ∉ reqs_need_save s -> same_others req s t ->
  filter (fun c => req_id c = req) cs = [] -> _build_save_meta t cs = Ok (t', out) ->
  exists s', _build_save_meta s cs = Ok (s', out) /\ same_others req s' t' /\
    block_ids_need_save s' !! req = block_ids_need_save s !! req /\ (req ∉ reqs_need_save s') /\
    Forall (fun kv => kv.1 <> req) out.
Proof.
  revert s t t' out. induction cs as [|c cs IH]; intros s t t' out Hin Hst Hf Hr; cbn [_build_save_meta] in *.
  { injection Hr as <- <-. by exists s. }
  rewrite filter_cons in Hf. case_decide; [done|].
  destruct (save_chunk t c) as [[t1 o1]|] eqn:E1; [|done]. cbn [mbind res_bind fst snd] in Hr.
  destruct (save_other _ s _ _ _ _ H Hst E1) as (s1 & -> & Hst1 & Hb1 & Hi1 & Ho1). cbn [mbind res_bind fst snd].
  destruct (_build_save_meta t1 cs) as [[t2 o2]|] eqn:E2; [|done]. cbn in Hr. injection Hr as <- <-.
  destruct (IH s1 t1 t2 o2) as (s2 & -> & Hst2 & Hb2 & Hi2 & Ho2); [tauto|done|done|done|]. cbn.
  exists s2. split; [done|]. split; [done|]. split; [congruence|]. split; [done|]. by apply Forall_app.
Qed.
Lemma filter_none (req : string) (l : list (string * BlockIds)) :
  Forall (fun kv => kv.1 <> req) l -> filter (fun kv : string * BlockIds => kv.1 = req) l = [].
Proof. induction 1; [done|]. by rewrite filter_cons_False. Qed.

Lemma prefill_saves req n cs ini last_ groups acc s t t' others :
  filter (fun c => req_id c = req) cs = ini ++ [last_] ->
  Forall partial ini -> closing last_ -> prefill req n acc (ini ++ [last_]) groups ->
  req ∈ reqs_need_save s -> held_is n (block_ids_need_save s !! req) acc -> same_others req s t ->
  _build_save_meta t (filter (fun c => req_id c <> req) cs) = Ok (t', others) ->
  exists s' saves b, _build_save_meta s cs = Ok (s', saves) /\
    filter (fun kv : string * BlockIds => kv.1 = req) saves = [(req, clip b)] /\
    filter (fun kv : string * BlockIds => kv.1 <> req) saves = others /\
    length b = n /\ (forall g, default [] (b !! g) = given groups g) /\
    block_ids_need_save s' !! req = None /\ (req ∉ reqs_need_save s') /\ same_others req s' t'.
Proof.
  revert ini acc s t others. induction cs as [|c cs IH]; intros ini acc s t others Hf Hpart Hclose Hp Hin Hh Hst Hr.
  { by destruct ini. }
  cbn [_build_save_meta]. destruct (decide (req_id c = req)) as [Hc|Hc].
  - rewrite filter_cons_True in Hf by done. rewrite filter_cons_False in Hr by tauto.
    destruct ini as [|c0 ini]; cbn [app] in Hf, Hp; injection Hf as -> Hf.
    + destruct (save_own _ _ _ _ _ _ s t Hp Hh Hin Hst) as [_ Hlast].
      destruct (Hlast Hclose) as (s1 & acc' & b & -> & Hst1 & Hi1 & Hb1 & Hacc & Hp').
      cbn [mbind res_bind fst snd]. rewrite list_filter_all in Hr.
      2: { intros x Hx E. apply (not_elem_of_nil x). rewrite <- Hf. by apply list_elem_of_filter. }
      destruct (rest_untouched req cs s1 t t' others Hi1 Hst1 Hf Hr) as (s2 & -> & Hst2 & Hb2 & Hi2 & Ho).
      cbn [mbind res_bind fst snd]. inversion Hp' as [k Hk1 Hk2 Hk3| | |]; subst.
      destruct Hacc as (b' & [= <-] & Hbl & Hg).
      eexists s2, _, b. split; [done|]. cbn [app]. rewrite filter_cons_True, filter_cons_False by (cbn; tauto).
      split; [|split; [apply list_filter_all; by apply Forall_forall|split; [done|split; [done|split; [congruence|done]]]]].
      f_equal. by apply filter_none.
    + apply Forall_cons in Hpart as [Hpc Hpart].
      destruct (save_own _ _ _ _ _ _ s t Hp Hh Hin Hst) as [Hpt _].
      destruct (Hpt Hpc) as (s1 & acc' & -> & Hst1 & Hi1 & Hacc & Hp').
      cbn [mbind res_bind fst snd].
      destruct (IH ini (Some acc') s1 t others) as (s' & saves & b & -> & Hrest); try done.
      cbn [mbind res_bind fst snd app]. by exists s', saves, b.
  - rewrite filter_cons_False in Hf by done. rewrite filter_cons_True in Hr by done. cbn [_build_save_meta] in Hr.
    destruct (save_chunk t c) as [[t1 o1]|] eqn:E1; [|done]. cbn [mbind res_bind fst snd] in Hr.
    destruct (save_other _ s _ _ _ _ Hc Hst E1) as (s1 & -> & Hst1 & Hb1 & Hi1 & Ho1). cbn [mbind res_bind fst snd].
    destruct (_build_save_meta t1 _) as [[t2 o2]|] eqn:E2; [|done]. cbn in Hr. injection Hr as <- <-.
    destruct (IH ini acc s1 t1 o2) as (s' & saves & b & -> & Hreq & Hoth & Hrest); try done;
      [tauto|by rewrite Hb1|]. cbn [mbind res_bind fst snd].
    exists s', (o1 ++ saves), b. split; [done|]. rewrite !filter_app, Hreq, Hoth.
    split; [|split; [f_equal; apply list_filter_all; by apply Forall_forall|done]].
    replace (filter (fun kv => kv.1 = req) o1) with (@nil (string * BlockIds)); [done|].
    symmetry. by apply filter_none.
Qed.
End save.

(** The blocks of a prefill are saved once, all of them, when its last chunk is scheduled.
    Whatever the other requests of the steps do, and at whichever chunks the blocks
    arrive: the one save of the request carries, group by group, the blocks it was given
    since it was last sent whole, in order; afterwards nothing is held of it, and
    the saves of the others are what they are without it. *)
Theorem prefill_saved_whole clip req n cs ini last_ groups s t' others :
  filter (fun c => req_id c = req) cs = ini ++ [last_] ->
  Forall partial ini -> closing last_ -> prefill req n None (ini ++ [last_]) groups ->
  req ∈ reqs_need_save s -> block_ids_need_save s !! req = None ->
  _build_save_meta clip s (filter (fun c => req_id c <> req) cs) = Ok (t', others) ->
  exists s' saves b, _build_save_meta clip s cs = Ok (s', saves) /\
    filter (fun kv : string * BlockIds => kv.1 = req) saves = [(req, clip b)] /\
    filter (fun kv : string * BlockIds => kv.1 <> req) saves = others /\
    length b = n /\ (forall g, default [] (b !! g) = given groups g) /\
    block_ids_need_save s' !! req = None /\ (req ∉ reqs_need_save s') /\ same_others req s' t'.
Proof.
  intros Hf Hpart Hclose Hp Hin Hnone Hr.
  apply (prefill_saves clip req n cs ini last_ groups None s s t' others); done.
Qed.

(** Three chunks of "a" with two new blocks in between, and a chunk of "b". *)
Definition chunk_a (groups : option BlockIds) (n computed : Z) : Chunk := {|
  req_id := "a"; new_block_id_groups := groups; resumed := false; num_scheduled := Some n;
  num_computed_tokens := computed; num_prompt_tokens := 300; has_transfer_params := true
|}.
Definition chunk_b : Chunk := {|
  req_id := "b"; new_block_id_groups := Some [[9]]; resumed := false; num_scheduled := Some 8;
  num_computed_tokens := 0; num_prompt_tokens := 8; has_transfer_params := true
|}.
Definition saver_ab : Saver := {| block_ids_need_save := ∅; reqs_need_save := {["a"; "b"]} |}.

Lemma prefill_saved_whole_witness :
  exists s' saves b, _build_save_meta id saver_ab
      [chunk_a (Some [[1; 2]]) 128 0; chunk_b; chunk_a (Some [[3]]) 128 128; chunk_a None 44 256] = Ok (s', saves) /\
    filter (fun kv : string * BlockIds => kv.1 = "a") saves = [("a", b)] /\
    filter (fun kv : string * BlockIds => kv.1 <> "a") saves = [("b", [[9]])] /\
    default [] (b !! 0%nat) = [1; 2; 3].
Proof.
  destruct (_build_save_meta id saver_ab [chunk_b]) as [[t' others]|] eqn:E; [|by vm_compute in E].
  destruct (prefill_saved_whole id "a" 1
    [chunk_a (Some [[1; 2]]) 128 0; chunk_b; chunk_a (Some [[3]]) 128 128; chunk_a None 44 256]
    [chunk_a (Some [[1; 2]]) 128 0; chunk_a (Some [[3]]) 128 128] (chunk_a None 44 256)
    [[[1; 2]]; [[3]]] saver_ab t' others) as (s' & saves & b & Hr & Ha & Ho & _ & Hb & _).
  - reflexivity.
  - repeat constructor; [exists 128|exists 128]; by split.
  - exists 44. by split.
  - eapply prefill_start; [done|done|by right|done|done|].
    eapply prefill_more; [done|done|done|done|done|]. apply prefill_none; [done|done|done|]. constructor.
  - set_solver.
  - apply lookup_empty.
  - exact E.
  - exists s', saves, b. split; [exact Hr|]. split; [exact Ha|]. split; [|exact (Hb 0%nat)].
    rewrite Ho. assert (Hrun : match _build_save_meta id saver_ab [chunk_b] with
      | Ok r => r.2 = [("b", [[9]])] | Raise _ => False end) by (vm_compute; reflexivity).
    rewrite E in Hrun. exact Hrun.
Defined.

(** ** Nested connectors and the deferred load *)

(** A leaf is named; what it is and holds is kept beside the tree. *)
Inductive Tree := Leaf (name : Z) | Multi (children : list Tree).

Fixpoint iter_kv_connectors (t : Tree) : list Z :=
  match t with
  | Leaf name => [name]
  | Multi children => mjoin (iter_kv_connectors <$> children)
  end.

(** [held] is [_deferred_load_meta] of the leaves that [SupportsDeferredLoad], metadata being
    numbers; [finalizes] says which leaves support the other hook. *)
Record Leaves := {
  held : gmap Z (option Z);
  finalizes : gset Z
}.

(** What the workers are asked to do. *)
Inductive wcall := StartLoad (leaf meta : Z) | Finalize (leaf : Z).

Class Workers := worker_reply : list wcall -> wcall -> res unit.

Section connectors.
Context `{Workers}.

Definition call_worker (c : wcall) : M (Leaves * list wcall) unit := fun s =>
  ((s.1, c :: s.2), worker_reply s.2 c).

Definition set_held (leaf : Z) (meta : option Z) : M (Leaves * list wcall) unit :=
  modify (fun s => ({| held := <[leaf := meta]> (held s.1); finalizes := finalizes s.1 |}, s.2)).

(** [RblnNixlPullConnector.start_load_kv]. *)
Definition start_load_kv (leaf : Z) (connector_metadata : option Z) : M (Leaves * list wcall) unit :=
  h ← gets (fun s => held s.1 !! leaf);
  match h with
  | Some None => set_held leaf connector_metadata
  | _ => raise AssertionError
  end.

(** [flush_deferred_load]; a leaf without the hook is skipped by the caller. *)
Definition flush_deferred_load (leaf : Z) : M (Leaves * list wcall) unit :=
  h ← gets (fun s => held s.1 !! leaf);
  match h with
  | Some (Some meta) => set_held leaf None ;; call_worker (StartLoad leaf meta)
  | _ => mret tt
  end.

Definition flush_deferred_loads (t : Tree) : M (Leaves * list wcall) unit :=
  for_each (iter_kv_connectors t) flush_deferred_load.

Definition finalize_kv_cache_registrations (t : Tree) : M (Leaves * list wcall) unit :=
  for_each (iter_kv_connectors t) (fun leaf =>
    f ← gets (fun s => bool_decide (leaf ∈ finalizes s.1));
    when f (call_worker (Finalize leaf))).

(** One step of the model runner: what is held goes out before the step's own read is kept. *)
Definition step (t : Tree) (leaf : Z) (meta : option Z) : M (Leaves * list wcall) unit :=
  flush_deferred_loads t ;; start_load_kv leaf meta.

(** The loads a leaf's worker was asked for, the oldest first. *)
Definition load_of (leaf : Z) (c : wcall) : list Z :=
  match c with StartLoad l meta => if decide (l = leaf) then [meta] else [] | _ => [] end.
Definition loads (leaf : Z) (calls : list wcall) : list Z := reverse calls ≫= load_of leaf.

Lemma loads_cons leaf c calls : loads leaf (c :: calls) = loads leaf calls ++ load_of leaf c.
Proof. unfold loads. rewrite reverse_cons, bind_app. cbn. by rewrite app_nil_r. Qed.

Definition pending (leaf : Z) (s : Leaves * list wcall) : list Z :=
  match held s.1 !! leaf with Some (Some meta) => [meta] | _ => [] end.

(** What a flush leaves of a leaf: nothing held, and what it held issued. *)
Lemma flush_one leaf s :
  wp (flush_deferred_load leaf) s (fun _ s' =>
    (forall l, is_Some (held s'.1 !! l) <-> is_Some (held s.1 !! l)) /\
    (forall l, loads l s'.2 ++ pending l s' = loads l s.2 ++ pending l s) /\
    pending leaf s' = [] /\ forall l, pending l s = [] -> pending l s' = [])
    (fun e _ => exists h c, worker_reply h c = Raise e).
Proof.
  unfold flush_deferred_load. apply wp_bind, wp_gets. destruct (held s.1 !! leaf) as [[meta|]|] eqn:E.
  - apply wp_bind, wp_modify. unfold wp, call_worker. cbn [fst snd held].
    destruct (worker_reply _ _) as [[]|e] eqn:Ew; [|by eexists _, _]. split; [|split; [|split]].
    + intros l. cbn. destruct (decide (l = leaf)) as [->|].
      * rewrite lookup_insert_eq, E. split; eauto.
      * by rewrite lookup_insert_ne.
    + intros l. cbn [snd]. rewrite loads_cons. unfold pending. cbn [fst held load_of]. destruct (decide (leaf = l)) as [->|].
      * rewrite lookup_insert_eq, E. by rewrite app_nil_r.
      * rewrite lookup_insert_ne by done. by rewrite app_nil_r.
    + unfold pending. cbn. by rewrite lookup_insert_eq.
    + intros l. unfold pending. cbn. destruct (decide (leaf = l)) as [->|].
      * by rewrite lookup_insert_eq.
      * by rewrite lookup_insert_ne.
  - apply wp_ret. unfold pending. by rewrite E.
  - apply wp_ret. unfold pending. by rewrite E.
Qed.

Lemma flush_all ls s :
  wp (for_each ls flush_deferred_load) s (fun _ s' =>
    (forall l, is_Some (held s'.1 !! l) <-> is_Some (held s.1 !! l)) /\
    (forall l, loads l s'.2 ++ pending l s' = loads l s.2 ++ pending l s) /\
    (forall l, l ∈ ls \/ pending l s = [] -> pending l s' = []))
    (fun e _ => exists h c, worker_reply h c = Raise e).
Proof.
  revert s. induction ls as [|x ls IH]; intros s; cbn [for_each].
  - apply wp_ret. split; [done|]. split; [done|]. intros l [Hl|Hl]; [by apply not_elem_of_nil in Hl|done].
  - apply wp_bind. eapply wp_mono; [apply flush_one| |done]. cbn beta. intros [] s1 (D1 & L1 & P1 & K1).
    eapply wp_mono; [apply IH| |done]. cbn beta. intros [] s2 (D2 & L2 & P2).
    split; [intros l; by rewrite D2|]. split; [intros l; by rewrite L2, L1|].
    intros l [Hl|Hl]; apply P2; [|right; by apply K1].
    apply elem_of_cons in Hl as [->|Hl]; [right; exact P1|by left].
Qed.

(** A run of steps, each handing one read (or none) to a leaf. *)
Fixpoint steps (t : Tree) (leaf : Z) (metas : list (option Z)) : M (Leaves * list wcall) unit :=
  match metas with
  | [] => mret tt
  | meta :: metas => step t leaf meta ;; steps t leaf metas
  end.

Lemma step_ok t leaf meta s :
  leaf ∈ iter_kv_connectors t -> is_Some (held s.1 !! leaf) ->
  wp (step t leaf meta) s (fun _ s' => is_Some (held s'.1 !! leaf) /\
    loads leaf s'.2 = loads leaf s.2 ++ pending leaf s /\ pending leaf s' = option_list meta)
    (fun e _ => exists h c, worker_reply h c = Raise e).
Proof.
  intros Hin Hs. unfold step, flush_deferred_loads. apply wp_bind. eapply wp_mono; [apply flush_all| |done].
  cbn beta. intros [] s1 (D & L & P). pose proof (P leaf (or_introl Hin)) as Hp.
  destruct (proj2 (D leaf) Hs) as [h Hh]. unfold start_load_kv. apply wp_bind, wp_gets.
  pose proof Hp as Hp'. unfold pending in Hp'. rewrite Hh in Hp'. rewrite Hh. destruct h; [done|].
  apply wp_modify. cbn. rewrite lookup_insert_eq. split; [by eexists|]. specialize (L leaf).
  rewrite Hp, app_nil_r in L. split; [done|]. unfold pending. cbn. rewrite lookup_insert_eq. by destruct meta.
Qed.

Lemma steps_ok t leaf metas s :
  leaf ∈ iter_kv_connectors t -> is_Some (held s.1 !! leaf) ->
  wp (steps t leaf metas) s (fun _ s' =>
    loads leaf s'.2 ++ pending leaf s' = loads leaf s.2 ++ pending leaf s ++ (metas ≫= option_list) /\
    is_Some (held s'.1 !! leaf))
    (fun e _ => exists h c, worker_reply h c = Raise e).
Proof.
  intros Hin. revert s. induction metas as [|meta metas IH]; intros s Hs; cbn [steps].
  - apply wp_ret. cbn. by rewrite app_nil_r.
  - apply wp_bind. eapply wp_mono; [by apply step_ok| |done]. cbn beta. intros [] s1 (D1 & L1 & P1).
    eapply wp_mono; [by apply IH| |done]. cbn beta. intros [] s2 [L2 D2]. split; [|done].
    rewrite L2, L1, P1. cbn. by rewrite <- !app_assoc.
Qed.
End connectors.

(** C38: A read is never lost and never issued twice.  Under workers that take their calls, a
    run of steps over any nesting of connectors returns -- the assertion that nothing is
    held when a read is kept never fires -- and the flush after it has issued the reads
    that were handed over, each once and in order; it leaves nothing held. *)
Theorem deferred_reads_issued_once `{Workers} t leaf metas s :
  (forall h c, worker_reply h c = Ok tt) ->
  leaf ∈ iter_kv_connectors t -> held s.1 !! leaf = Some None ->
  exists s', (steps t leaf metas ;; flush_deferred_loads t) s = (s', Ok tt) /\
    loads leaf s'.2 = loads leaf s.2 ++ (metas ≫= option_list) /\ held s'.1 !! leaf = Some None.
Proof.
  intros Hok Hin Hs.
  assert (Hwp : wp (steps t leaf metas ;; flush_deferred_loads t) s (fun _ s' =>
    loads leaf s'.2 = loads leaf s.2 ++ (metas ≫= option_list) /\ held s'.1 !! leaf = Some None)
    (fun e _ => exists h c, worker_reply h c = Raise e)).
  { apply wp_bind. eapply wp_mono; [apply steps_ok; [exact Hin|by eexists]| |done]. cbn beta. intros [] s1 [L1 D1].
    eapply wp_mono; [apply flush_all| |done]. cbn beta. intros [] s2 (D2 & L2 & P2).
    pose proof (P2 leaf (or_introl Hin)) as P. specialize (L2 leaf). rewrite P, app_nil_r in L2.
    split.
    - rewrite L2, L1. unfold pending. by rewrite Hs.
    - destruct (proj2 (D2 leaf) D1) as [h Hh]. unfold pending in P. rewrite Hh in P. rewrite Hh. by destruct h. }
  unfold wp in Hwp. destruct ((steps t leaf metas ;; flush_deferred_loads t) s) as [s' [[]|e]]; [by exists s'|].
  destruct Hwp as (h & c & Hr). by rewrite Hok in Hr.
Qed.

#[export] Instance willing : Workers := fun _ _ => Ok tt.
Lemma deferred_reads_issued_once_witness :
  exists s', (steps (Multi [Leaf 1; Multi [Leaf 2]]) 2 [Some 7; None; Some 8] ;;
      flush_deferred_loads (Multi [Leaf 1; Multi [Leaf 2]]))
      ({| held := {[2 := None]}; finalizes := ∅ |}, []) = (s', Ok tt) /\
    loads 2 s'.2 = [7; 8] /\ held s'.1 !! 2 = Some None.
Proof.
  apply (deferred_reads_issued_once (Multi [Leaf 1; Multi [Leaf 2]]) 2 [Some 7; None; Some 8]
    ({| held := {[2 := None]}; finalizes := ∅ |}, [])); [done| |by vm_compute].
  vm_compute. right. left.
Defined.
