(* ===== verification/RunnerInputs.v ===== *)
(** * Model runner: the inputs of a step

    [rbln_model_runner.py], [_prepare_inputs] and [_calc_spec_decode_metadata]: the tokens and
    positions of a step flattened over its requests, the fixed decode window with its
    padding, the rows of the logits that are sampled and the draft tokens among them.
    Arrays are lists of integers; the buffers of fixed size are written as the code
    writes them. *)
From S2P Require Import Prelude.

(** ** NumPy and PyTorch, as far as the code uses them *)

(** Elementwise [f], with a length of one repeated. *)
Definition np_zip {A B C} (f : A -> B -> C) (a : list A) (b : list B) : res (list C) :=
  if len a =? len b then Ok (zip_with f a b)
  else match a, b with
       | [x], _ => Ok (f x <$> b)
       | _, [y] => Ok ((fun x => f x y) <$> a)
       | _, _ => Raise ValueError
       end.

Definition np_cumsum (l : list Z) : list Z :=
  (foldl (fun acc x => (acc.1 + x, acc.2 ++ [acc.1 + x])) (0, []) l).2.

Definition np_repeat {A} (l : list A) (counts : list Z) : res (list A) :=
  counts ← np_zip (fun _ n => n) l counts;
  if existsb (fun n => n <? 0) counts then Raise ValueError
  else Ok (concat (zip_with (fun x n => replicate (Z.to_nat n) x) l counts)).

(** [a[idx]]. *)
Definition np_take {A} (a : list A) (idx : list Z) : res (list A) :=
  mapM (fun i => of_option (py_nth a i) IndexError) idx.

(** [index_select], which takes no negative index. *)
Definition index_select (a : list Z) (idx : list Z) : res (list Z) :=
  mapM (fun i => if i <? 0 then Raise IndexError else of_option (a !! Z.to_nat i) IndexError) idx.

(** [buf[a : a + len vals] = vals]. *)
Definition store {A} (a : Z) (vals buf : list A) : res (list A) :=
  if len buf <? a + len vals then Raise ValueError
  else Ok (take (Z.to_nat a) buf ++ vals ++ drop (Z.to_nat a + length vals) buf).

(** [buf[a:] = v]. *)
Definition fill_from {A} (a : Z) (v : A) (buf : list A) : list A :=
  take (Z.to_nat a) buf ++ replicate (length buf - Z.to_nat a) v.

(** ** The runner and its batch *)
Record Runner := {
  num_spec_tokens : Z;
  uses_fixed_decode_window : bool;
  is_prefill : bool;
  max_model_len : Z;
  arange_np : list Z;
  positions : list Z;
  input_ids : list Z;
  decode_back_pad : list Z;
  query_start_loc : list Z;
  seq_lens : list Z;
  discard_request_mask : list bool
}.

(** The fields of the persistent batch that are read; [token_width] is
    [token_ids_cpu.shape[1]]. *)
Record Batch := {
  req_ids : list string;
  req_id_to_index : gmap string Z;
  num_computed_tokens_cpu : list Z;
  token_ids_cpu : list (list Z);
  token_width : Z
}.

Record SpecDecodeMetadata := {
  draft_token_ids : list Z;
  num_draft_tokens : list Z;
  cu_num_draft_tokens : list Z;
  cu_num_sampled_tokens : list Z;
  target_logits_indices : list Z;
  bonus_logits_indices : list Z;
  spec_logits_indices : list Z
}.

Record Inputs := {
  logits_indices : list Z;
  spec_decode_metadata : option SpecDecodeMetadata;
  query_lengths : list Z;
  total_query_tokens : Z
}.

Definition num_reqs (b : Batch) : Z := Z.of_nat (size (req_id_to_index b)).

(** ** Flattening *)
Definition _get_cumsum_and_arange (arange_np num_tokens : list Z) : res (list Z * list Z) :=
  let cu_num_tokens := np_cumsum num_tokens in
  total ← of_option (last cu_num_tokens) IndexError;
  starts ← np_zip Z.sub cu_num_tokens num_tokens;
  cumsums_offsets ← np_repeat starts num_tokens;
  arange ← np_zip Z.sub (py_take total arange_np) cumsums_offsets;
  Ok (cu_num_tokens, arange).

Definition _calc_spec_decode_metadata (r : Runner) (num_draft_tokens cu_sample_end : list Z)
    : res SpecDecodeMetadata :=
  let num_sampled_tokens := (fun d => d + 1) <$> num_draft_tokens in
  ca ← _get_cumsum_and_arange (arange_np r) num_sampled_tokens;
  let '(cu_num_sampled_tokens, arange) := ca in
  ends ← np_zip Z.sub cu_sample_end num_sampled_tokens;
  starts ← np_repeat ends num_sampled_tokens;
  logits_indices ← np_zip Z.add starts arange;
  let bonus_logits_indices := (fun c => c - 1) <$> cu_num_sampled_tokens in
  ca ← _get_cumsum_and_arange (arange_np r) num_draft_tokens;
  let '(cu_num_draft_tokens, arange) := ca in
  firsts ← np_zip Z.sub cu_num_sampled_tokens num_sampled_tokens;
  targets ← np_repeat firsts num_draft_tokens;
  target_logits_indices ← np_zip Z.add targets arange;
  sampled_ids ← np_take (input_ids r) logits_indices;
  draft_token_ids ← np_take sampled_ids ((fun t => t + 1) <$> target_logits_indices);
  Ok {| draft_token_ids := draft_token_ids; num_draft_tokens := num_draft_tokens;
        cu_num_draft_tokens := cu_num_draft_tokens; cu_num_sampled_tokens := cu_num_sampled_tokens;
        target_logits_indices := target_logits_indices; bonus_logits_indices := bonus_logits_indices;
        spec_logits_indices := logits_indices |}.

(** ** The query window of every request *)
Definition window_fixed (r : Runner) (use_spec_decode : bool) : bool :=
  negb (is_prefill r) && (uses_fixed_decode_window r || use_spec_decode).

(** The lengths, the padding in front and the padding behind. *)
Definition query_window (r : Runner) (n : Z) (use_spec_decode : bool) (num_computed logical_num_tokens : list Z)
    : res (list Z * list Z * list Z) :=
  if window_fixed r use_spec_decode then
    let query_lengths := replicate (Z.to_nat n) (num_spec_tokens r + 1) in
    slack ← np_zip Z.sub query_lengths logical_num_tokens;
    assert! forallb (fun s => 0 <=? s) slack;
    ends ← np_zip Z.add num_computed query_lengths;
    let front_pad := (fun e => Z.max 0 (e - max_model_len r)) <$> ends in
    back_pad ← np_zip Z.sub slack front_pad;
    Ok (query_lengths, front_pad, back_pad)
  else
    let zeros := (fun _ => 0) <$> logical_num_tokens in
    Ok (logical_num_tokens, zeros, zeros).

(** The draft counts of the requests, from the step's dictionary of drafts. *)
Definition count_drafts (b : Batch) (n : Z) (scheduled_spec_decode_tokens : odict string (list Z))
    : res (list Z) :=
  foldM (fun counts kv =>
    i ← of_option (req_id_to_index b !! kv.1) KeyError;
    match py_nth counts i with
    | Some _ => Ok (<[Z.to_nat i := len kv.2]> counts)
    | None => Raise IndexError
    end) (replicate (Z.to_nat n) 0) scheduled_spec_decode_tokens.

(** ** [_prepare_inputs]

    First the buffers: tokens, positions and attention metadata.  [num_tokens] is
    [CachedRequestState.num_tokens] of the cached requests; the answer is the lengths of the
    queries, their cumulative sums and the padding behind. *)
Definition stage_inputs (r : Runner) (b : Batch) (num_tokens : gmap string Z) (use_spec_decode : bool)
    (logical_num_tokens : list Z) : res (Runner * (list Z * list Z * list Z)) :=
  let n := num_reqs b in
  assert! 0 <? n;
  let computed := py_take n (num_computed_tokens_cpu b) in
  w ← query_window r n use_spec_decode computed logical_num_tokens;
  let '(query_lengths, front_pad, back_pad) := w in
  req_indices ← np_repeat (py_take n (arange_np r)) query_lengths;
  ca ← _get_cumsum_and_arange (arange_np r) query_lengths;
  let '(cu_num_tokens, arange) := ca in
  bases ← np_take (num_computed_tokens_cpu b) req_indices;
  fronts ← np_take front_pad req_indices;
  firsts ← np_zip Z.sub bases fronts;
  pos ← np_zip Z.add firsts arange;
  positions' ← store 0 pos (positions r);
  lookup_positions ← (if window_fixed r use_spec_decode then
      ends ← np_zip (fun c l => c + l - 1) computed logical_num_tokens;
      limits ← np_take ends req_indices;
      np_zip Z.min pos limits
    else Ok pos);
  token_indices ← np_zip (fun p i => p + i * token_width b) lookup_positions req_indices;
  ids ← index_select (concat (token_ids_cpu b)) token_indices;
  input_ids' ← store 0 ids (input_ids r);
  back ← store 0 back_pad (decode_back_pad r);
  qsl ← store 0 [0] (query_start_loc r);
  qsl ← store 1 cu_num_tokens qsl;
  last_cu ← of_option (last cu_num_tokens) IndexError;
  lens ← np_zip Z.add computed logical_num_tokens;
  sl ← store 0 lens (seq_lens r);
  num_tokens_np ← mapM (fun req => of_option (num_tokens !! req) KeyError) (req_ids b);
  mask ← np_zip Z.ltb (py_take n sl) num_tokens_np;
  discard' ← store 0 mask (discard_request_mask r);
  Ok ({| num_spec_tokens := num_spec_tokens r;
         uses_fixed_decode_window := uses_fixed_decode_window r; is_prefill := is_prefill r;
         max_model_len := max_model_len r; arange_np := arange_np r; positions := positions';
         input_ids := input_ids'; decode_back_pad := fill_from n 0 back;
         query_start_loc := fill_from (n + 1) last_cu qsl; seq_lens := fill_from n 0 sl;
         discard_request_mask := discard' |}, (query_lengths, cu_num_tokens, back_pad)).

(** Then the rows of the logits that are sampled. *)
Definition rows_to_sample (r : Runner) (b : Batch) (scheduled_spec_decode_tokens : odict string (list Z))
    (query_lengths cu_num_tokens back_pad : list Z) : res Inputs :=
  let n := num_reqs b in
  let use_spec_decode := negb (bool_decide (scheduled_spec_decode_tokens = [])) in
  if negb use_spec_decode then
    let last_rows := (fun q => q - 1) <$> py_slice (query_start_loc r) 1 (n + 1) in
    logits_indices ← (if window_fixed r use_spec_decode
                      then np_zip Z.sub last_rows (py_take n (decode_back_pad r)) else Ok last_rows);
    Ok {| logits_indices := logits_indices; spec_decode_metadata := None;
          query_lengths := query_lengths; total_query_tokens := sumZ query_lengths |}
  else
    drafts ← count_drafts b n scheduled_spec_decode_tokens;
    sample_end ← (if window_fixed r use_spec_decode then np_zip Z.sub cu_num_tokens back_pad
                  else Ok cu_num_tokens);
    meta ← _calc_spec_decode_metadata r drafts sample_end;
    Ok {| logits_indices := spec_logits_indices meta; spec_decode_metadata := Some meta;
          query_lengths := query_lengths; total_query_tokens := sumZ query_lengths |}.

Definition _prepare_inputs (r : Runner) (b : Batch) (num_tokens : gmap string Z)
    (total_num_scheduled_tokens : Z) (scheduled_spec_decode_tokens : odict string (list Z))
    (num_scheduled_tokens : list Z) : res (Runner * Inputs) :=
  assert! 0 <? total_num_scheduled_tokens;
  let use_spec_decode := negb (bool_decide (scheduled_spec_decode_tokens = [])) in
  st ← stage_inputs r b num_tokens use_spec_decode num_scheduled_tokens;
  let '(r', (query_lengths, cu_num_tokens, back_pad)) := st in
  inputs ← rows_to_sample r' b scheduled_spec_decode_tokens query_lengths cu_num_tokens back_pad;
  Ok (r', inputs).
