(* ===== verification/FlatRows.v ===== *)
(** * Arrays flattened over requests

    The flattened arrays of a step are rows of different lengths, one after the other: what
    [repeat], cumulative sums and gathers give of them, and where an element of a row is. *)
From S2P Require Import Prelude KvLayout RunnerInputs.

(** ** Cumulative sums *)
Fixpoint sums (s : Z) (l : list Z) : list Z :=
  match l with [] => [] | x :: l => (s + x) :: sums (s + x) l end.
Fixpoint starts (s : Z) (l : list Z) : list Z :=
  match l with [] => [] | x :: l => s :: starts (s + x) l end.

Lemma np_cumsum_sums l : np_cumsum l = sums 0 l.
Proof.
  unfold np_cumsum. cut (forall s out, (foldl (fun acc x => (acc.1 + x, acc.2 ++ [acc.1 + x])) (s, out) l).2 = out ++ sums s l).
  { intros Hc. by rewrite Hc. }
  induction l as [|x l IH]; intros s out; cbn; [by rewrite app_nil_r|]. rewrite IH. by rewrite <- app_assoc.
Qed.

Lemma length_sums s l : length (sums s l) = length l.
Proof. revert s. induction l; intros s; cbn; auto. Qed.

Lemma length_row_starts s l : length (starts s l) = length l.
Proof. revert s. induction l; intros s; cbn; auto. Qed.

Lemma sums_lookup s l i : (i < length l)%nat -> sums s l !! i = Some (s + sumZ (take (S i) l)).
Proof.
  revert s i. induction l as [|x l IH]; intros s i Hi; cbn in Hi; [lia|].
  destruct i as [|i]; cbn [sums lookup list_lookup].
  - f_equal. change (take 1 (x :: l)) with ([x] ++ take 0 l). rewrite take_0. unfold sumZ. cbn. lia.
  - rewrite IH by lia. f_equal. change (take (S (S i)) (x :: l)) with (x :: take (S i) l). rewrite sumZ_cons. lia.
Qed.

Lemma sums_last l : l <> [] -> last (sums 0 l) = Some (sumZ l).
Proof.
  intros Hl. assert (length l <> 0)%nat by (destruct l; [done|cbn; lia]).
  rewrite last_lookup, length_sums, sums_lookup by lia. f_equal.
  replace (S (pred (length l))) with (length l) by lia. rewrite firstn_all. lia.
Qed.

Lemma row_starts_lookup s l i : (i < length l)%nat -> starts s l !! i = Some (s + sumZ (take i l)).
Proof.
  revert s i. induction l as [|x l IH]; intros s i Hi; cbn in Hi; [lia|].
  destruct i as [|i]; cbn [starts lookup list_lookup].
  - rewrite take_0. f_equal. unfold sumZ. cbn. lia.
  - rewrite IH by lia. f_equal. change (take (S i) (x :: l)) with (x :: take i l). rewrite sumZ_cons. lia.
Qed.

Lemma sums_starts s l : zip_with Z.sub (sums s l) l = starts s l.
Proof. revert s. induction l as [|x l IH]; intros s; cbn; [done|]. f_equal; [lia|apply IH]. Qed.

Lemma np_zip_same {A B C} (f : A -> B -> C) a b : length a = length b -> np_zip f a b = Ok (zip_with f a b).
Proof. intros H. unfold np_zip, len. by rewrite H, Z.eqb_refl. Qed.

Lemma np_zip_fmap {X A B C} (h : A -> B -> C) (f : X -> A) (g : X -> B) l :
  np_zip h (f <$> l) (g <$> l) = Ok ((fun x => h (f x) (g x)) <$> l).
Proof.
  rewrite np_zip_same by (by rewrite !length_fmap). f_equal. rewrite zip_with_fmap_l, zip_with_fmap_r.
  induction l; cbn; congruence.
Qed.

Lemma no_negative l : Forall (fun n => 0 <= n) l -> existsb (fun n => n <? 0) l = false.
Proof. induction 1 as [|x l Hx Hl IH]; cbn; [done|]. rewrite IH. by destruct (Z.ltb_spec x 0); [lia|]. Qed.

Lemma zip_snd {A} (l : list A) (counts : list Z) : length l = length counts ->
  zip_with (fun _ n => n) l counts = counts.
Proof. revert counts. induction l; intros [|] Hl; cbn; try done. f_equal. apply IHl. by injection Hl. Qed.

Lemma np_repeat_same {A} (l : list A) counts : length l = length counts -> Forall (fun n => 0 <= n) counts ->
  np_repeat l counts = Ok (concat (zip_with (fun x n => replicate (Z.to_nat n) x) l counts)).
Proof.
  intros Hl Hc. unfold np_repeat. rewrite np_zip_same by done. cbn [mbind res_bind].
  by rewrite zip_snd, no_negative.
Qed.

(** ** Rows *)
Section rows.
Context {X : Type} (q : X -> Z).
Implicit Types xs : list X.

(** Row [x] has [q x] elements, [f x j] at [j]. *)
Definition rows {A} (f : X -> Z -> A) xs : list A := xs ≫= fun x => f x <$> py_range (q x).

(** Where row [i] starts. *)
Definition off xs (i : nat) : Z := sumZ (q <$> take i xs).

Lemma rows_cons {A} (f : X -> Z -> A) x xs : rows f (x :: xs) = (f x <$> py_range (q x)) ++ rows f xs.
Proof. done. Qed.

Definition nonneg xs : Prop := Forall (fun x => 0 <= q x) xs.

Lemma length_row {A} (f : X -> Z -> A) x : length (f x <$> py_range (q x)) = Z.to_nat (q x).
Proof. unfold py_range. by rewrite length_fmap, length_seqZ. Qed.

Lemma rows_len {A} (f : X -> Z -> A) xs : nonneg xs -> len (rows f xs) = sumZ (q <$> xs).
Proof.
  induction 1 as [|x xs Hx Hxs IH]; [done|]. rewrite rows_cons, len_app, IH. cbn [fmap list_fmap]. rewrite sumZ_cons.
  unfold len. rewrite length_row. lia.
Qed.

Lemma off_nonneg xs i : nonneg xs -> 0 <= off xs i.
Proof.
  intros Hn. unfold off. revert i. induction Hn as [|x xs Hx Hxs IH]; intros [|i]; cbn; try (unfold sumZ; cbn; lia).
  specialize (IH i). unfold sumZ in *. cbn. lia.
Qed.

Lemma rows_at {A} (f : X -> Z -> A) xs i x j :
  nonneg xs -> xs !! i = Some x -> 0 <= j < q x -> at_ (rows f xs) (off xs i + j) = Some (f x j).
Proof.
  intros Hn. revert i. induction Hn as [|y xs Hy Hxs IH]; intros i Hi Hj; [done|]. rewrite rows_cons.
  destruct i as [|i]; cbn in Hi.
  - injection Hi as ->. unfold off. rewrite take_0. cbn [fmap list_fmap]. change (sumZ []) with 0.
    rewrite Z.add_0_l, lookup_app_l by (rewrite length_row; lia). rewrite list_lookup_fmap, py_range_at by done. done.
  - pose proof (off_nonneg xs i Hxs). assert (Ho : off (y :: xs) (S i) = q y + off xs i) by (unfold off; cbn; done).
    rewrite Ho, lookup_app_r by (rewrite length_row; lia). rewrite length_row.
    replace (Z.to_nat (q y + off xs i + j) - Z.to_nat (q y))%nat with (Z.to_nat (off xs i + j)) by lia. by apply IH.
Qed.

(** Every element is in one row. *)
Lemma rows_ext {A} (f g : X -> Z -> A) xs :
  (forall x j, x ∈ xs -> 0 <= j < q x -> f x j = g x j) -> rows f xs = rows g xs.
Proof.
  induction xs as [|x xs IH]; intros Hfg; [done|]. rewrite !rows_cons, IH by (intros; apply Hfg; [by right|done]).
  f_equal. apply list_fmap_ext. intros i j Hj. apply list_elem_of_lookup_2, py_range_elem in Hj. apply Hfg; [by left|done].
Qed.

Lemma length_rows {A B} (f : X -> Z -> A) (g : X -> Z -> B) xs : length (rows f xs) = length (rows g xs).
Proof. induction xs as [|x xs IH]; [done|]. rewrite !rows_cons, !length_app, IH. by rewrite !length_row. Qed.

Lemma zip_rows {A B C} (h : A -> B -> C) f g xs :
  np_zip h (rows f xs) (rows g xs) = Ok (rows (fun x j => h (f x j) (g x j)) xs).
Proof.
  rewrite np_zip_same by apply length_rows. f_equal. induction xs as [|x xs IH]; [done|]. rewrite !rows_cons.
  rewrite zip_with_app by (by rewrite !length_row). rewrite IH. f_equal.
  rewrite zip_with_fmap_l, zip_with_fmap_r. induction (py_range (q x)); cbn; congruence.
Qed.

Lemma fmap_rows {A B} (h : A -> B) f xs : h <$> rows f xs = rows (fun x j => h (f x j)) xs.
Proof. induction xs as [|x xs IH]; [done|]. rewrite !rows_cons, fmap_app, IH. f_equal. by rewrite <- list_fmap_compose. Qed.

Lemma repeat_rows {A} (g : X -> A) xs : nonneg xs ->
  np_repeat (g <$> xs) (q <$> xs) = Ok (rows (fun x _ => g x) xs).
Proof.
  intros Hn. rewrite np_repeat_same; [|by rewrite !length_fmap|by apply Forall_fmap]. f_equal.
  induction Hn as [|x xs Hx Hxs IH]; [done|]. cbn [fmap list_fmap zip_with concat]. rewrite IH, rows_cons. f_equal.
  apply list_eq. intros i. rewrite list_lookup_fmap. destruct (decide (i < Z.to_nat (q x))%nat) as [Hi|Hi].
  - rewrite lookup_replicate_2 by done. unfold py_range. rewrite lookup_seqZ_lt by lia. done.
  - rewrite lookup_ge_None_2 by (rewrite length_replicate; lia). unfold py_range. rewrite lookup_seqZ_ge by lia. done.
Qed.

(** A gather whose indices are computed by row. *)
Lemma mapM_app_Ok {A B} (h : A -> res B) l1 l2 r1 r2 :
  mapM h l1 = Ok r1 -> mapM h l2 = Ok r2 -> mapM h (l1 ++ l2) = Ok (r1 ++ r2).
Proof.
  revert r1. induction l1 as [|x l1 IH]; intros r1 H1 H2; cbn in H1 |- *; [by injection H1 as <-|].
  destruct (h x); [|done]. cbn [mbind res_bind] in *. destruct (mapM h l1) as [r|] eqn:E; [|done].
  cbn in H1. injection H1 as <-. by rewrite (IH r).
Qed.

Lemma mapM_rows {A B} (h : A -> res B) f g xs :
  (forall x j, x ∈ xs -> 0 <= j < q x -> h (f x j) = Ok (g x j)) -> mapM h (rows f xs) = Ok (rows g xs).
Proof.
  induction xs as [|x xs IH]; intros Hh; [done|]. rewrite !rows_cons. apply mapM_app_Ok.
  - assert (Hx : forall j, j ∈ py_range (q x) -> h (f x j) = Ok (g x j)).
    { intros j Hj%py_range_elem. apply Hh; [by left|done]. }
    induction (py_range (q x)) as [|j l IHl]; [done|]. cbn [fmap list_fmap mapM]. rewrite Hx by (by left).
    cbn [mbind res_bind]. rewrite IHl; [done|]. intros j' Hj'. apply Hx. by right.
  - apply IH. intros x' j Hx'. apply Hh. by right.
Qed.

Lemma take_rows {A} (a : list A) (f : X -> Z -> Z) (g : X -> Z -> A) xs :
  (forall x j, x ∈ xs -> 0 <= j < q x -> py_nth a (f x j) = Some (g x j)) ->
  np_take a (rows f xs) = Ok (rows g xs).
Proof. intros Hfg. apply mapM_rows. intros x j Hx Hj. by rewrite (Hfg x j Hx Hj). Qed.

(** The ranges of the rows, from one long range. *)
Lemma sub_starts s xs : nonneg xs ->
  zip_with Z.sub (seqZ s (sumZ (q <$> xs))) (concat (zip_with (fun x n => replicate (Z.to_nat n) x) (starts s (q <$> xs)) (q <$> xs)))
  = rows (fun _ j => j) xs.
Proof.
  intros Hn. revert s. induction Hn as [|x xs Hx Hxs IH]; intros s; [done|].
  cbn [fmap list_fmap starts zip_with concat]. rewrite sumZ_cons, rows_cons.
  assert (0 <= sumZ (q <$> xs)) by (rewrite <- (rows_len (fun _ j => j) xs Hxs); apply len_nonneg).
  rewrite seqZ_app by lia. rewrite zip_with_app by (rewrite length_seqZ, length_replicate; lia). rewrite IH. f_equal.
  apply list_eq. intros i. rewrite list_lookup_fmap, lookup_zip_with. unfold py_range.
  destruct (decide (i < Z.to_nat (q x))%nat) as [Hi|Hi].
  - rewrite !lookup_seqZ_lt, lookup_replicate_2 by lia. cbn. f_equal. lia.
  - rewrite !lookup_seqZ_ge by lia. done.
Qed.

Lemma cumsum_arange_rows n xs : nonneg xs -> xs <> [] -> sumZ (q <$> xs) <= n ->
  _get_cumsum_and_arange (py_range n) (q <$> xs) = Ok (sums 0 (q <$> xs), rows (fun _ j => j) xs).
Proof.
  intros Hn Hne Hle. unfold _get_cumsum_and_arange. rewrite np_cumsum_sums.
  rewrite sums_last by (by destruct xs). cbn [mbind res_bind of_option].
  rewrite np_zip_same by apply length_sums. cbn [mbind res_bind]. rewrite sums_starts.
  rewrite np_repeat_same; [|by apply length_row_starts|by apply Forall_fmap]. cbn [mbind res_bind].
  assert (0 <= sumZ (q <$> xs)) by (rewrite <- (rows_len (fun _ j => j) xs Hn); apply len_nonneg).
  assert (py_take (sumZ (q <$> xs)) (py_range n) = seqZ 0 (sumZ (q <$> xs))) as ->.
  { unfold py_take, py_range. replace n with (sumZ (q <$> xs) + (n - sumZ (q <$> xs))) by lia.
    rewrite seqZ_app by lia. rewrite take_app_length'; [done|]. by rewrite length_seqZ. }
  pose proof (sub_starts 0 xs Hn) as Hs.
  rewrite np_zip_same; [cbn [mbind res_bind]; by rewrite Hs|].
  apply (f_equal length) in Hs. rewrite length_zip_with in Hs.
  pose proof (rows_len (fun _ j => j) xs Hn) as Hr. unfold len in Hr. rewrite length_seqZ in *.
  assert (Hc : forall l s, Forall (fun n => 0 <= n) l -> Z.of_nat (length (concat (zip_with (fun x n => replicate (Z.to_nat n) x) (starts s l) l))) = sumZ l).
  { clear. induction l as [|x l IH]; intros s Hl; [done|]. apply Forall_cons in Hl as [Hx Hl].
    cbn [starts zip_with concat]. rewrite length_app, length_replicate, sumZ_cons. specialize (IH (s + x) Hl). lia. }
  specialize (Hc (q <$> xs) 0 (proj2 (Forall_fmap _ _ _) Hn)). lia.
Qed.
End rows.

(** The cumulative sums and ranges are what the nested construction of the comment gives. *)
Lemma cumsum_and_arange_nested n l : Forall (fun x => 0 <= x) l -> l <> [] -> sumZ l <= n ->
  exists cu, _get_cumsum_and_arange (py_range n) l = Ok (cu, concat (py_range <$> l)) /\
    length cu = length l /\ forall i, (i < length l)%nat -> cu !! i = Some (sumZ (take (S i) l)).
Proof.
  intros Hl Hne Hle. exists (sums 0 l). pose proof (cumsum_arange_rows (fun x => x) n l) as Hc.
  rewrite list_fmap_id in Hc. rewrite Hc by done. split; [|split; [apply length_sums|]].
  - do 2 f_equal. unfold rows. rewrite bind_concat. f_equal. apply list_fmap_ext. intros i x _. apply list_fmap_id.
  - intros i Hi. rewrite sums_lookup by done. f_equal.
Qed.

(** ** Buffers *)
Lemma store_front {A} (vals buf : list A) : len vals <= len buf ->
  store 0 vals buf = Ok (vals ++ drop (length vals) buf).
Proof. intros Hl. unfold store. destruct (Z.ltb_spec (len buf) (0 + len vals)); [lia|]. done. Qed.

Lemma store_tail {A} (x : A) (vals buf : list A) : len vals <= len buf ->
  store 1 vals (x :: buf) = Ok (x :: vals ++ drop (length vals) buf).
Proof.
  intros Hl. unfold store. destruct (Z.ltb_spec (len (x :: buf)) (1 + len vals)) as [Hlt|]; [|done].
  unfold len in *. cbn in Hlt. lia.
Qed.

Lemma fill_rest {A} n (v : A) vals rest : len vals = n ->
  fill_from n v (vals ++ rest) = vals ++ replicate (length rest) v.
Proof.
  intros <-. unfold fill_from, len. rewrite Nat2Z.id, take_app_length, length_app. do 2 f_equal. lia.
Qed.

Lemma take_front {A} n (vals rest : list A) : len vals = n -> py_take n (vals ++ rest) = vals.
Proof. intros <-. unfold py_take, len. by rewrite Nat2Z.id, take_app_length. Qed.
