(* ===== verification/RunnerInputsSpec.v ===== *)
(** * Model runner: what the inputs of a step hold *)
From S2P Require Import Prelude KvLayout RunnerInputs FlatRows.

(** A request of the batch: its row, the tokens it has computed and is scheduled, its token
    ids, and how many tokens it has. *)
Record Req := {
  x_row : Z;
  x_id : string;
  x_computed : Z;
  x_sched : Z;
  x_ids : list Z;
  x_tokens : Z
}.

Lemma replicate_fmap {A B} (v : B) (l : list A) : replicate (Z.to_nat (len l)) v = (fun _ => v) <$> l.
Proof. unfold len. rewrite Nat2Z.id. induction l; cbn; congruence. Qed.

(** ** The drafts among the sampled rows

    A request [y] drafts [d y] tokens and its sampled rows end before row [e y]; [s y] counts
    the rows sampled for the requests before it. *)
Section drafts.
Context {Y : Type} (d e s : Y -> Z) (ids : Y -> Z -> Z) (r : Runner) (n_arange : Z) (ys : list Y).

Let rows_of (y : Y) : Z := d y + 1.

Hypothesis arange_ok : arange_np r = py_range n_arange.
Hypothesis some : ys <> [].
Hypothesis drafts_nonneg : forall y, y ∈ ys -> 0 <= d y.
Hypothesis total_ok : sumZ (rows_of <$> ys) <= n_arange.
Hypothesis counted : s <$> ys = starts 0 (rows_of <$> ys).
Hypothesis staged_ids : forall y k, y ∈ ys -> 0 <= k < rows_of y ->
  0 <= e y - rows_of y + k /\ at_ (input_ids r) (e y - rows_of y + k) = Some (ids y k).

Definition drafts_of : SpecDecodeMetadata :=
  {| draft_token_ids := rows d (fun y k => ids y (k + 1)) ys;
     num_draft_tokens := d <$> ys;
     cu_num_draft_tokens := sums 0 (d <$> ys);
     cu_num_sampled_tokens := sums 0 (rows_of <$> ys);
     target_logits_indices := rows d (fun y k => s y + k) ys;
     bonus_logits_indices := (fun y => s y + d y) <$> ys;
     spec_logits_indices := rows rows_of (fun y k => e y - rows_of y + k) ys |}.

Lemma rows_of_nonneg : nonneg rows_of ys.
Proof. apply Forall_forall. intros y Hy. specialize (drafts_nonneg y Hy). unfold rows_of. lia. Qed.

Lemma d_nonneg : nonneg d ys.
Proof. apply Forall_forall. exact drafts_nonneg. Qed.

Lemma drafts_fit : sumZ (d <$> ys) <= n_arange.
Proof.
  etrans; [|apply total_ok]. clear. induction ys as [|y l IH]; [done|]. cbn [fmap list_fmap].
  rewrite !sumZ_cons. unfold rows_of in *. lia.
Qed.

(** The first row sampled for [y] is row [s y]. *)
Lemma counted_off i y : ys !! i = Some y -> off rows_of ys i = s y.
Proof.
  intros Hi. pose proof (lookup_lt_Some _ _ _ Hi).
  assert (Hs : (s <$> ys) !! i = Some (s y)) by (by rewrite list_lookup_fmap, Hi).
  rewrite counted in Hs. rewrite row_starts_lookup in Hs by (by rewrite length_fmap). injection Hs as <-.
  unfold off. by rewrite fmap_take.
Qed.

Lemma sampled_ok :
  np_take (input_ids r) (rows rows_of (fun y k => e y - rows_of y + k) ys) = Ok (rows rows_of ids ys).
Proof.
  apply take_rows. intros y k Hy Hk. destruct (staged_ids y k Hy Hk) as [H0 Hid]. by rewrite py_nth_at.
Qed.

Lemma drafted_ok :
  np_take (rows rows_of ids ys) (rows d (fun y k => s y + k + 1) ys) = Ok (rows d (fun y k => ids y (k + 1)) ys).
Proof.
  apply take_rows. intros y k [i Hi]%list_elem_of_lookup Hk. pose proof (counted_off i y Hi) as Ho.
  pose proof (off_nonneg rows_of ys i rows_of_nonneg). rewrite py_nth_at by lia.
  rewrite <- Ho, <- Z.add_assoc. apply rows_at; [apply rows_of_nonneg|done|]. unfold rows_of. lia.
Qed.

Lemma bonus_ok : (fun c => c - 1) <$> sums 0 (rows_of <$> ys) = (fun y => s y + d y) <$> ys.
Proof.
  apply list_eq. intros i. rewrite !list_lookup_fmap. destruct (ys !! i) as [y|] eqn:Hi; cbn.
  - pose proof (lookup_lt_Some _ _ _ Hi). rewrite sums_lookup by (by rewrite length_fmap).
    rewrite (take_S_r _ _ (rows_of y)) by (by rewrite list_lookup_fmap, Hi). cbn.
    rewrite sumZ_app, <- (counted_off i y Hi). unfold off. rewrite fmap_take. f_equal. unfold sumZ, rows_of. cbn. lia.
  - apply lookup_ge_None in Hi. rewrite lookup_ge_None_2; [done|]. by rewrite length_sums, length_fmap.
Qed.

Lemma calc_ok : _calc_spec_decode_metadata r (d <$> ys) (e <$> ys) = Ok drafts_of.
Proof.
  pose proof rows_of_nonneg as Hr. pose proof d_nonneg as Hd. pose proof drafts_fit as Hf.
  unfold _calc_spec_decode_metadata. rewrite <- list_fmap_compose.
  change ((fun d => d + 1) ∘ d) with rows_of. rewrite arange_ok, !cumsum_arange_rows by done. cbn [mbind res_bind].
  rewrite np_zip_fmap. cbn [mbind res_bind]. rewrite repeat_rows by done. cbn [mbind res_bind].
  rewrite zip_rows. cbn [mbind res_bind]. rewrite np_zip_same by apply length_sums. cbn [mbind res_bind].
  rewrite sums_starts, <- counted. rewrite repeat_rows by done. cbn [mbind res_bind].
  rewrite zip_rows. cbn [mbind res_bind]. rewrite sampled_ok. cbn [mbind res_bind]. rewrite fmap_rows, drafted_ok.
  cbn [mbind res_bind]. by rewrite bonus_ok.
Qed.
End drafts.

Section step.
Context (r : Runner) (b : Batch) (num_tokens : gmap string Z) (use_spec : bool) (xs : list Req) (n_arange : Z).

Let fixed := window_fixed r use_spec.

(** The length of a request's window, and the padding in front of and behind its tokens. *)
Definition window (x : Req) : Z := if fixed then num_spec_tokens r + 1 else x_sched x.
Definition front (x : Req) : Z :=
  if fixed then Z.max 0 (x_computed x + window x - max_model_len r) else 0.
Definition back (x : Req) : Z := if fixed then window x - x_sched x - front x else 0.

(** What a step of the engine satisfies: the batch holds [xs], every request is scheduled at
    least one token and stays within the model length and the window, and the buffers are
    those of [__init__]. *)
Record step_ok : Prop := {
  so_some : xs <> [];
  so_count : num_reqs b = len xs;
  so_rows : forall i x, xs !! i = Some x -> x_row x = Z.of_nat i;
  so_computed : py_take (len xs) (num_computed_tokens_cpu b) = x_computed <$> xs;
  so_ids : forall x, x ∈ xs -> token_ids_cpu b !! Z.to_nat (x_row x) = Some (x_ids x);
  so_width : Forall (fun row => len row = token_width b) (token_ids_cpu b);
  so_names : req_ids b = x_id <$> xs;
  so_index : forall x, x ∈ xs -> req_id_to_index b !! x_id x = Some (x_row x);
  so_tokens : forall x, x ∈ xs -> num_tokens !! x_id x = Some (x_tokens x);
  so_bounds : forall x, x ∈ xs -> 0 <= x_computed x /\ 1 <= x_sched x /\
    x_computed x + x_sched x <= max_model_len r;
  so_window : fixed = true -> num_spec_tokens r + 1 <= max_model_len r /\
    forall x, x ∈ xs -> x_sched x <= num_spec_tokens r + 1;
  so_model : max_model_len r <= token_width b;
  so_arange : arange_np r = py_range n_arange;
  so_total : sumZ (window <$> xs) <= n_arange /\ len xs <= n_arange;
  so_tokens_buf : sumZ (window <$> xs) <= len (positions r) /\ sumZ (window <$> xs) <= len (input_ids r);
  so_reqs_buf : len xs <= len (decode_back_pad r) /\ len xs + 1 <= len (query_start_loc r) /\
    len xs <= len (seq_lens r) /\ len xs <= len (discard_request_mask r)
}.

Hypothesis Hok : step_ok.

Lemma window_facts x : x ∈ xs ->
  1 <= x_sched x /\ 0 <= front x /\ 0 <= back x /\ front x + x_sched x + back x = window x /\
  0 <= x_computed x - front x /\ x_computed x - front x + window x <= max_model_len r.
Proof.
  intros Hx. destruct (so_bounds Hok x Hx) as (Hc & Hs & Hm). pose proof (so_window Hok) as Hw.
  unfold back, front, window. destruct fixed.
  - cbn iota. destruct (Hw eq_refl) as [Hn Hq]. specialize (Hq x Hx). lia.
  - lia.
Qed.

Lemma windows_nonneg : nonneg window xs.
Proof. apply Forall_forall. intros x Hx. pose proof (window_facts x Hx). lia. Qed.

Lemma xs_pos : 0 < len xs.
Proof. pose proof (so_some Hok). destruct xs; [done|]. unfold len. cbn. lia. Qed.

Lemma row_lookup x : x ∈ xs -> at_ xs (x_row x) = Some x /\ 0 <= x_row x < len xs.
Proof.
  intros [i Hi]%list_elem_of_lookup. rewrite (so_rows Hok i x Hi), Nat2Z.id. split; [done|].
  apply lookup_lt_Some in Hi. unfold len. lia.
Qed.

(** An array of one entry per request, read at a request's row. *)
Lemma per_request {A} (f : Req -> A) x : x ∈ xs -> py_nth (f <$> xs) (x_row x) = Some (f x).
Proof.
  intros Hx. destruct (row_lookup x Hx) as [Hi Hr]. rewrite py_nth_at by lia. by rewrite list_lookup_fmap, Hi.
Qed.

Lemma query_window_ok :
  query_window r (len xs) use_spec (x_computed <$> xs) (x_sched <$> xs) =
  Ok (window <$> xs, front <$> xs, back <$> xs).
Proof.
  assert (Hall : forall x, x ∈ xs -> 0 <= back x /\ 0 <= front x).
  { intros x Hx. pose proof (window_facts x Hx). lia. }
  unfold query_window, back, front, window in *. fold fixed. destruct fixed eqn:Ef; [|by rewrite <- !list_fmap_compose].
  assert (replicate (Z.to_nat (len xs)) (num_spec_tokens r + 1) = (fun _ => num_spec_tokens r + 1) <$> xs) as ->.
  { apply replicate_fmap. }
  rewrite !np_zip_fmap. cbn [mbind res_bind].
  assert (Hs : forallb (fun s => 0 <=? s) ((fun x => num_spec_tokens r + 1 - x_sched x) <$> xs)).
  { apply forallb_True, Forall_fmap, Forall_forall. intros x Hx. cbn. apply Is_true_true, Z.leb_le.
    specialize (Hall x Hx). lia. }
  apply Is_true_true in Hs. rewrite Hs. cbn [require mbind res_bind].
  rewrite <- list_fmap_compose, np_zip_fmap. cbn [mbind res_bind]. done.
Qed.

(** What position [p] of a request's row holds. *)
Definition token_at (x : Req) (p : Z) : Z := default 0 (at_ (x_ids x) p).

(** The last scheduled token is read again where the window runs past it. *)
Definition lookup_at (x : Req) (j : Z) : Z :=
  if fixed then Z.min (x_computed x - front x + j) (x_computed x + x_sched x - 1)
  else x_computed x - front x + j.

Lemma lookup_bounds x j : x ∈ xs -> 0 <= j < window x -> 0 <= lookup_at x j < token_width b.
Proof.
  intros Hx Hj. destruct (window_facts x Hx) as (F1 & F2 & F3 & F4 & F5 & F6). pose proof (so_model Hok).
  destruct (so_bounds Hok x Hx). unfold lookup_at. destruct fixed; lia.
Qed.

Lemma token_index x j : x ∈ xs -> 0 <= j < window x ->
  (if lookup_at x j + x_row x * token_width b <? 0 then Raise IndexError
   else of_option (at_ (concat (token_ids_cpu b)) (lookup_at x j + x_row x * token_width b)) IndexError) =
  Ok (token_at x (lookup_at x j)).
Proof.
  intros Hx Hj. pose proof (lookup_bounds x j Hx Hj) as Hl. destruct (row_lookup x Hx) as [_ Hr].
  destruct (Z.ltb_spec (lookup_at x j + x_row x * token_width b) 0); [nia|].
  rewrite Z.add_comm, (concat_at _ (token_width b)); [|apply Forall_forall, (so_width Hok)|lia|done].
  rewrite (so_ids Hok x Hx). cbn [mbind option_bind]. unfold token_at.
  destruct (at_some (x_ids x) (lookup_at x j)) as [v Hv]; [|by rewrite Hv].
  pose proof (so_width Hok) as Hw. rewrite Forall_forall in Hw.
  rewrite (Hw (x_ids x)); [done|]. apply (list_elem_of_lookup_2 _ _ _ (so_ids Hok x Hx)).
Qed.

(** The arrays the buffers are filled from. *)
Definition pos_rows : list Z := rows window (fun x j => x_computed x - front x + j) xs.
Definition id_rows : list Z := rows window (fun x j => token_at x (lookup_at x j)) xs.

(** The buffers after [stage_inputs]: what the step needs, then the padding (the query
    starts stay non-decreasing) or, behind tokens and positions, what was there. *)
Record staged (r' : Runner) : Prop := {
  st_spec : num_spec_tokens r' = num_spec_tokens r;
  st_window : forall u, window_fixed r' u = window_fixed r u;
  st_arange : arange_np r' = arange_np r;
  st_prefill : is_prefill r' = is_prefill r;
  st_pos : pos_rows `prefix_of` positions r';
  st_ids : id_rows `prefix_of` input_ids r';
  st_back : exists k, decode_back_pad r' = (back <$> xs) ++ replicate k 0;
  st_starts : exists k, query_start_loc r' =
    0 :: sums 0 (window <$> xs) ++ replicate k (sumZ (window <$> xs));
  st_lens : exists k, seq_lens r' = ((fun x => x_computed x + x_sched x) <$> xs) ++ replicate k 0;
  st_mask : ((fun x => x_computed x + x_sched x <? x_tokens x) <$> xs) `prefix_of` discard_request_mask r'
}.

Lemma len_fields {A} (f : Req -> A) : len (f <$> xs) = len xs.
Proof. unfold len. by rewrite length_fmap. Qed.

Lemma indices_ok : py_take (len xs) (arange_np r) = x_row <$> xs.
Proof.
  pose proof (so_total Hok) as [_ Hn]. rewrite (so_arange Hok). apply list_eq. intros i. unfold py_take, py_range.
  rewrite list_lookup_fmap. destruct (xs !! i) as [x|] eqn:Hi.
  - pose proof (lookup_lt_Some _ _ _ Hi). unfold len in *. rewrite lookup_take_lt by lia. rewrite lookup_seqZ_lt by lia.
    cbn. by rewrite (so_rows Hok i x Hi).
  - apply lookup_ge_None in Hi. apply lookup_ge_None. unfold len. rewrite length_take. lia.
Qed.

Lemma computed_at x : x ∈ xs -> py_nth (num_computed_tokens_cpu b) (x_row x) = Some (x_computed x).
Proof.
  intros Hx. pose proof (row_lookup x Hx) as [_ Hr]. rewrite <- (per_request x_computed x Hx), <- (so_computed Hok).
  unfold py_take. rewrite !py_nth_at by lia. rewrite lookup_take_lt; [done|]. unfold len in *. lia.
Qed.

Lemma num_tokens_ok :
  mapM (fun req => of_option (num_tokens !! req) KeyError) (req_ids b) = Ok (x_tokens <$> xs).
Proof.
  rewrite (so_names Hok). assert (Hall : forall x, x ∈ xs -> num_tokens !! x_id x = Some (x_tokens x)) by apply Hok.
  clear -Hall. induction xs as [|x l IH]; [done|]. cbn. rewrite (Hall x) by (by left).
  cbn. rewrite IH; [done|]. intros y Hy. apply Hall. by right.
Qed.

Lemma fields_at {A} (f : Req -> A) (l : list A) : l = f <$> xs ->
  np_take l (rows window (fun x _ => x_row x) xs) = Ok (rows window (fun x _ => f x) xs).
Proof. intros ->. apply take_rows. intros x j Hx _. by apply per_request. Qed.

Lemma bases_ok :
  np_take (num_computed_tokens_cpu b) (rows window (fun x _ => x_row x) xs) = Ok (rows window (fun x _ => x_computed x) xs).
Proof. apply take_rows. intros x j Hx _. by apply computed_at. Qed.

(** The tokens are looked up where the window says. *)
Lemma positions_ok :
  (if fixed then
     ends ← np_zip (fun c l => c + l - 1) (x_computed <$> xs) (x_sched <$> xs);
     limits ← np_take ends (rows window (fun x _ => x_row x) xs);
     np_zip Z.min pos_rows limits
   else Ok pos_rows) = Ok (rows window lookup_at xs).
Proof.
  unfold lookup_at. destruct fixed; [|done]. rewrite np_zip_fmap. cbn [mbind res_bind].
  erewrite fields_at by done. cbn [mbind res_bind]. unfold pos_rows. by rewrite zip_rows.
Qed.

Lemma tokens_ok :
  index_select (concat (token_ids_cpu b)) (rows window (fun x j => lookup_at x j + x_row x * token_width b) xs) = Ok id_rows.
Proof. apply mapM_rows. intros x j Hx Hj. by apply token_index. Qed.

Lemma starts_ok : exists rest,
  (qsl ← store 0 [0] (query_start_loc r); store 1 (sums 0 (window <$> xs)) qsl) = Ok (0 :: sums 0 (window <$> xs) ++ rest).
Proof.
  destruct (so_reqs_buf Hok) as (_ & Hq & _). pose proof xs_pos.
  destruct (query_start_loc r) as [|y q]; [unfold len in *; cbn in *; lia|].
  rewrite store_front by (unfold len; cbn; lia). cbn [mbind res_bind app length drop]. rewrite ?drop_0.
  rewrite store_tail; [by eexists|]. unfold len in *. rewrite length_sums, length_fmap. cbn [length] in Hq. lia.
Qed.

Lemma stage_inputs_ok : exists r',
  stage_inputs r b num_tokens use_spec (x_sched <$> xs) =
    Ok (r', (window <$> xs, sums 0 (window <$> xs), back <$> xs)) /\ staged r'.
Proof.
  pose proof windows_nonneg as Hnn. pose proof xs_pos as Hpos. pose proof (so_some Hok) as Hsome.
  destruct (so_total Hok) as [Htot Hlen]. destruct (so_tokens_buf Hok) as [Hp Hi].
  destruct (so_reqs_buf Hok) as (Hb & _ & Hl & Hm). destruct starts_ok as [rest Hq].
  unfold stage_inputs. rewrite (so_count Hok). destruct (Z.ltb_spec 0 (len xs)); [|lia].
  rewrite (so_computed Hok), query_window_ok, indices_ok. cbn [require mbind res_bind].
  rewrite repeat_rows by done. rewrite (so_arange Hok), cumsum_arange_rows by done. cbn [mbind res_bind].
  rewrite bases_ok, (fields_at front) by done. cbn [mbind res_bind]. rewrite !zip_rows. cbn [mbind res_bind]. rewrite !zip_rows.
  cbn [mbind res_bind].
  change (rows window (fun x j => x_computed x - front x + j) xs) with pos_rows.
  rewrite (store_front pos_rows) by (unfold pos_rows; by rewrite rows_len). fold fixed. rewrite positions_ok.
  cbn [mbind res_bind]. rewrite zip_rows. cbn [mbind res_bind]. rewrite tokens_ok. cbn [mbind res_bind].
  rewrite (store_front id_rows) by (unfold id_rows; by rewrite rows_len).
  rewrite (store_front (back <$> xs)) by (by rewrite len_fields). cbn [mbind res_bind].
  destruct (store 0 [0] (query_start_loc r)) as [qsl|] eqn:E1; cbn [mbind res_bind] in Hq |- *; [|done].
  rewrite Hq. rewrite sums_last by (by destruct xs). cbn [mbind res_bind of_option]. rewrite np_zip_fmap.
  cbn [mbind res_bind]. rewrite store_front by (by rewrite len_fields). cbn [mbind res_bind].
  rewrite num_tokens_ok. cbn [mbind res_bind]. rewrite take_front by apply len_fields. rewrite np_zip_fmap.
  cbn [mbind res_bind]. rewrite store_front by (by rewrite len_fields). cbn [mbind res_bind].
  eexists. split; [done|]. split; cbn; try done; try by eexists.
  - by rewrite (so_arange Hok).
  - rewrite fill_rest by apply len_fields. by eexists.
  - rewrite app_comm_cons, (fill_rest _ _ (0 :: sums 0 (window <$> xs))); [by eexists|].
    unfold len. cbn [length]. rewrite length_sums, length_fmap. lia.
  - rewrite fill_rest by apply len_fields. by eexists.
Qed.

(** ** Which rows are sampled *)
Context (drafts : odict string (list Z)).

Definition drafted (x : Req) : list Z := default [] (od_get (x_id x) drafts).

(** The drafts of a request are the last of its scheduled tokens, behind one token at least. *)
Record drafts_ok : Prop := {
  do_spec : use_spec = negb (bool_decide (drafts = []));
  do_keys : NoDup (od_keys drafts);
  do_known : forall k, k ∈ od_keys drafts -> exists x, x ∈ xs /\ x_id x = k;
  do_bound : forall x, x ∈ xs -> len (drafted x) < x_sched x
}.

Lemma count_one (c : Req -> Z) x v : x ∈ xs ->
  <[Z.to_nat (x_row x) := v]> (c <$> xs) = (fun y => if decide (x_id x = x_id y) then v else c y) <$> xs.
Proof.
  intros Hx. destruct (row_lookup x Hx) as [Hat Hr]. apply list_eq. intros i. rewrite list_lookup_fmap.
  destruct (decide (i = Z.to_nat (x_row x))) as [->|Hi].
  - rewrite list_lookup_insert_eq by (rewrite length_fmap; unfold len in *; lia). rewrite Hat. cbn.
    by rewrite decide_True.
  - rewrite list_lookup_insert_ne by done. rewrite list_lookup_fmap. destruct (xs !! i) as [y|] eqn:Hy; [|done].
    cbn. rewrite decide_False; [done|]. intros Heq. apply Hi.
    pose proof (so_index Hok x Hx) as H1. pose proof (so_index Hok y (list_elem_of_lookup_2 _ _ _ Hy)) as H2.
    rewrite Heq, H2 in H1. injection H1 as H1. rewrite <- H1, (so_rows Hok i y Hy). lia.
Qed.

Lemma count_fold c (l : odict string (list Z)) : NoDup (od_keys l) ->
  (forall k, k ∈ od_keys l -> exists x, x ∈ xs /\ x_id x = k) ->
  foldM (fun counts kv =>
    i ← of_option (req_id_to_index b !! kv.1) KeyError;
    match py_nth counts i with
    | Some _ => Ok (<[Z.to_nat i := len kv.2]> counts)
    | None => Raise IndexError
    end) (c <$> xs) l =
  Ok ((fun x => match od_get (x_id x) l with Some v => len v | None => c x end) <$> xs).
Proof.
  revert c. induction l as [|[k v] l IH]; intros c Hnd Hk; [done|].
  unfold od_keys in Hnd, Hk. cbn in Hnd, Hk. apply NoDup_cons in Hnd as [Hkl Hnd].
  destruct (Hk k) as (x & Hx & <-); [by left|]. cbn [foldM fst snd]. rewrite (so_index Hok x Hx).
  cbn [of_option mbind res_bind]. rewrite (per_request c x Hx), count_one by done. cbn [mbind res_bind].
  rewrite IH; [|done|intros k Hkk; apply Hk; by right]. f_equal. apply list_fmap_ext. intros i y _. cbn.
  destruct (decide (x_id y = x_id x)) as [Heq|Hne].
  - rewrite Heq, (decide_True (P := x_id x = x_id x)) by done. destruct (od_get (x_id x) l) eqn:E; [|done].
    exfalso. apply Hkl. apply elem_of_od_keys. by eexists.
  - destruct (od_get (x_id y) l); [done|]. by rewrite decide_False.
Qed.

Lemma count_drafts_ok : drafts_ok -> count_drafts b (len xs) drafts = Ok ((fun x => len (drafted x)) <$> xs).
Proof.
  intros D. unfold count_drafts. rewrite replicate_fmap, count_fold by apply D. f_equal. apply list_fmap_ext.
  intros i x _. unfold drafted. by destruct (od_get (x_id x) drafts).
Qed.

(** A request with the row its window starts at and the number of rows sampled before its
    own; its scheduled tokens end before row [token_end]. *)
Abbreviation Mark := (Z * Z * Req)%type.

Fixpoint marks (o s : Z) (l : list Req) : list Mark :=
  match l with
  | [] => []
  | x :: l => (o, s, x) :: marks (o + window x) (s + (len (drafted x) + 1)) l
  end.

Definition n_drafts (y : Mark) : Z := len (drafted y.2).
Definition token_end (y : Mark) : Z := y.1.1 + front y.2 + x_sched y.2.

Lemma marks_reqs {A} (f : Req -> A) o s l : (fun y => f y.2) <$> marks o s l = f <$> l.
Proof. revert o s. induction l; intros; cbn; [done|]. f_equal. auto. Qed.

Lemma marks_starts o s l : (fun y => y.1.1) <$> marks o s l = starts o (window <$> l).
Proof. revert o s. induction l; intros; cbn; [done|]. f_equal. auto. Qed.

Lemma marks_counted o s l :
  (fun y => y.1.2) <$> marks o s l = starts s ((fun y => n_drafts y + 1) <$> marks o s l).
Proof. revert o s. induction l; intros; cbn; [done|]. f_equal. auto. Qed.

Lemma marks_ends o s l : l ⊆ xs ->
  zip_with Z.sub (sums o (window <$> l)) (back <$> l) = token_end <$> marks o s l /\
  (fixed = false -> sums o (window <$> l) = token_end <$> marks o s l).
Proof.
  revert o s. induction l as [|x l IH]; intros o s Hl; cbn [fmap list_fmap sums zip_with marks]; [done|].
  destruct (IH (o + window x) (s + (len (drafted x) + 1))) as [IH1 IH2]; [set_solver|].
  destruct (window_facts x) as (_ & _ & _ & Hw & _); [set_solver|]. unfold token_end at 1 3. cbn [fst snd].
  split; [|intros Hf]; f_equal; auto; [lia|]. unfold front, window in *. rewrite Hf in *. lia.
Qed.

Lemma mark_lookup i x : xs !! i = Some x -> exists s, marks 0 0 xs !! i = Some (off window xs i, s, x).
Proof.
  intros Hi. pose proof (lookup_lt_Some _ _ _ Hi) as Hlt.
  assert (H1 : ((fun y => y.2) <$> marks 0 0 xs) !! i = Some x) by (rewrite (marks_reqs (fun x => x)), list_fmap_id; done).
  assert (H2 : ((fun y => y.1.1) <$> marks 0 0 xs) !! i = Some (off window xs i)).
  { rewrite marks_starts, row_starts_lookup by (by rewrite length_fmap). unfold off. by rewrite fmap_take. }
  rewrite list_lookup_fmap in H1. rewrite list_lookup_fmap in H2. destruct (marks 0 0 xs !! i) as [[[o s] y]|]; [|done]. cbn in H1, H2.
  injection H1 as ->. injection H2 as ->. by eexists.
Qed.

Lemma mark_elem y : y ∈ marks 0 0 xs -> exists i, xs !! i = Some y.2 /\ y.1.1 = off window xs i.
Proof.
  intros [i Hi]%list_elem_of_lookup. exists i.
  assert (H1 : ((fun y => y.2) <$> marks 0 0 xs) !! i = Some y.2) by (by rewrite list_lookup_fmap, Hi).
  rewrite (marks_reqs (fun x => x)), list_fmap_id in H1. split; [done|].
  destruct (mark_lookup i _ H1) as [s Hs]. rewrite Hs in Hi. by injection Hi as <-.
Qed.

(** The token before the end of the request's scheduled tokens, and those before it. *)
Definition sampled_token (y : Mark) (k : Z) : Z :=
  token_at y.2 (x_computed y.2 + x_sched y.2 - (n_drafts y + 1) + k).

Lemma sampled_staged r' : staged r' -> drafts_ok -> forall y k, y ∈ marks 0 0 xs -> 0 <= k < n_drafts y + 1 ->
  0 <= token_end y - (n_drafts y + 1) + k /\
  at_ (input_ids r') (token_end y - (n_drafts y + 1) + k) = Some (sampled_token y k).
Proof.
  intros St D y k Hy Hk. destruct (mark_elem y Hy) as (i & Hi & Ho). pose proof (list_elem_of_lookup_2 _ _ _ Hi) as Hx.
  pose proof (do_bound D _ Hx) as Hd. destruct (window_facts _ Hx) as (F1 & F2 & F3 & F4 & F5 & F6).
  pose proof (off_nonneg window xs i windows_nonneg). unfold token_end, sampled_token, n_drafts in *.
  split; [lia|]. eapply prefix_lookup_Some; [|apply (st_ids _ St)].
  replace (y.1.1 + front y.2 + x_sched y.2 - (len (drafted y.2) + 1) + k)
    with (off window xs i + (front y.2 + x_sched y.2 - (len (drafted y.2) + 1) + k)) by lia.
  unfold id_rows. rewrite (rows_at _ _ _ _ y.2) by (done || apply windows_nonneg || lia). f_equal. f_equal.
  unfold lookup_at. destruct fixed; lia.
Qed.

Lemma sums_then_subtract f : zip_with Z.sub ((fun q => q - 1) <$> sums 0 (window <$> xs)) (f <$> xs) =
  (fun q => q - 1) <$> zip_with Z.sub (sums 0 (window <$> xs)) (f <$> xs).
Proof.
  generalize 0. induction xs as [|x l IH]; intros o; cbn [fmap list_fmap sums zip_with]; [done|].
  f_equal; [lia|apply IH].
Qed.

Lemma last_rows_ok r' : staged r' -> drafts_ok -> drafts = [] ->
  rows_to_sample r' b drafts (window <$> xs) (sums 0 (window <$> xs)) (back <$> xs) =
  Ok {| logits_indices := (fun y => token_end y - 1) <$> marks 0 0 xs; spec_decode_metadata := None;
        query_lengths := window <$> xs; total_query_tokens := sumZ (window <$> xs) |}.
Proof.
  intros St D Hd. pose proof (do_spec D) as Hu. rewrite Hd in *. rewrite bool_decide_true in Hu by done.
  destruct (marks_ends 0 0 xs) as [E1 E2]; [done|]. destruct (st_starts _ St) as [k Hk]. destruct (st_back _ St) as [k' Hb].
  unfold rows_to_sample. rewrite bool_decide_true by done. cbn [negb] in *. rewrite (st_window _ St).
  replace (window_fixed r false) with fixed by (unfold fixed; by rewrite Hu).
  rewrite (so_count Hok), Hk, Hb. pose proof (len_nonneg xs).
  assert (py_slice (0 :: sums 0 (window <$> xs) ++ replicate k (sumZ (window <$> xs))) 1 (len xs + 1) = sums 0 (window <$> xs)) as ->.
  { unfold py_slice. replace (Z.to_nat (len xs + 1 - 1)) with (length (sums 0 (window <$> xs))).
    - cbn [drop]. change (Z.to_nat 1) with 1%nat. cbn [drop]. by rewrite drop_0, take_app_length.
    - rewrite length_sums, length_fmap. unfold len. lia. }
  rewrite take_front by apply len_fields. destruct fixed.
  - rewrite np_zip_same by (by rewrite length_fmap, length_sums, !length_fmap). cbn [mbind res_bind].
    rewrite sums_then_subtract, E1. by rewrite <- list_fmap_compose.
  - cbn [mbind res_bind]. rewrite E2 by done. by rewrite <- list_fmap_compose.
Qed.

Lemma sampled_total : drafts_ok -> sumZ ((fun y => n_drafts y + 1) <$> marks 0 0 xs) <= n_arange.
Proof.
  intros D. rewrite (marks_reqs (fun x => len (drafted x) + 1)). destruct (so_total Hok) as [Ht _]. etrans; [|apply Ht].
  assert (Hall : forall x, x ∈ xs -> len (drafted x) + 1 <= window x).
  { intros x Hx. pose proof (do_bound D x Hx). destruct (window_facts x Hx). lia. }
  clear -Hall. induction xs as [|x l IH]; [done|]. rewrite !fmap_cons, !sumZ_cons.
  assert (Hx : len (drafted x) + 1 <= window x) by (apply Hall; by left).
  assert (Hl : forall y, y ∈ l -> len (drafted y) + 1 <= window y) by (intros y Hy; apply Hall; by right).
  specialize (IH Hl). lia.
Qed.

Definition metadata : SpecDecodeMetadata :=
  drafts_of n_drafts token_end (fun y => y.1.2) sampled_token (marks 0 0 xs).

Lemma draft_rows_ok r' : staged r' -> drafts_ok -> drafts <> [] ->
  rows_to_sample r' b drafts (window <$> xs) (sums 0 (window <$> xs)) (back <$> xs) =
  Ok {| logits_indices := spec_logits_indices metadata; spec_decode_metadata := Some metadata;
        query_lengths := window <$> xs; total_query_tokens := sumZ (window <$> xs) |}.
Proof.
  intros St D Hd. pose proof (do_spec D) as Hu. rewrite bool_decide_false in Hu by done.
  destruct (marks_ends 0 0 xs) as [E1 E2]; [done|].
  unfold rows_to_sample. rewrite bool_decide_false by done. cbn [negb] in *. rewrite (st_window _ St).
  replace (window_fixed r true) with fixed by (unfold fixed; by rewrite Hu).
  rewrite (so_count Hok), count_drafts_ok by done. cbn [mbind res_bind].
  assert ((if fixed then np_zip Z.sub (sums 0 (window <$> xs)) (back <$> xs) else Ok (sums 0 (window <$> xs))) =
    Ok (token_end <$> marks 0 0 xs)) as ->.
  { destruct fixed; [|by rewrite E2]. rewrite np_zip_same; [by rewrite E1|]. by rewrite length_sums, !length_fmap. }
  cbn [mbind res_bind]. rewrite <- (marks_reqs (fun x => len (drafted x)) 0 0 xs).
  rewrite (calc_ok n_drafts token_end (fun y => y.1.2) sampled_token r' n_arange); [done|..].
  - rewrite (st_arange _ St). apply Hok.
  - intros Hm. apply (so_some Hok). by destruct xs.
  - intros y _. apply len_nonneg.
  - by apply sampled_total.
  - apply marks_counted.
  - by apply sampled_staged.
Qed.

(** ** What the model gets *)
Lemma query_starts_at i x rest : xs !! i = Some x ->
  (0 :: sums 0 (window <$> xs) ++ rest) !! i = Some (off window xs i) /\
  (0 :: sums 0 (window <$> xs) ++ rest) !! S i = Some (off window xs i + window x).
Proof.
  intros Hi. pose proof (lookup_lt_Some _ _ _ Hi).
  assert (Hs : forall k y, xs !! k = Some y -> (sums 0 (window <$> xs) ++ rest) !! k = Some (off window xs k + window y)).
  { intros k y Hk. pose proof (lookup_lt_Some _ _ _ Hk). apply lookup_app_l_Some.
    rewrite sums_lookup by (by rewrite length_fmap). rewrite (take_S_r _ _ (window y)) by (by rewrite list_lookup_fmap, Hk).
    rewrite sumZ_app. unfold off. rewrite fmap_take. f_equal. unfold sumZ. cbn. lia. }
  split; [|by apply Hs]. destruct i as [|i]; [by unfold off; rewrite take_0|].
  destruct (lookup_lt_is_Some_2 xs i) as [y Hy]; [lia|]. etrans; [apply (Hs i y Hy)|]. unfold off.
  rewrite (take_S_r _ _ y) by done. rewrite fmap_app, sumZ_app. f_equal. unfold sumZ. cbn. lia.
Qed.

Lemma prepare_ok total : 0 < total -> drafts_ok -> exists r' inp,
  _prepare_inputs r b num_tokens total drafts (x_sched <$> xs) = Ok (r', inp) /\ staged r' /\
  query_lengths inp = window <$> xs /\ total_query_tokens inp = sumZ (window <$> xs) /\
  (drafts = [] -> spec_decode_metadata inp = None /\ logits_indices inp = (fun y => token_end y - 1) <$> marks 0 0 xs) /\
  (drafts <> [] -> spec_decode_metadata inp = Some metadata /\ logits_indices inp = spec_logits_indices metadata).
Proof.
  intros Ht D. destruct stage_inputs_ok as (r' & Hst & St). pose proof (do_spec D) as Hu.
  unfold _prepare_inputs. destruct (Z.ltb_spec 0 total); [|lia]. cbn [require mbind res_bind]. rewrite <- Hu, Hst.
  cbn [mbind res_bind]. destruct (decide (drafts = [])) as [Hd|Hd].
  - rewrite (last_rows_ok r') by done. cbn [mbind res_bind]. eexists _, _. split; [done|]. cbn. done.
  - rewrite (draft_rows_ok r') by done. cbn [mbind res_bind]. eexists _, _. split; [done|]. cbn. done.
Qed.

Lemma token_at_row x p : x ∈ xs -> 0 <= p < token_width b -> Some (token_at x p) = at_ (x_ids x) p.
Proof.
  intros Hx Hp. unfold token_at. destruct (at_some (x_ids x) p) as [v Hv]; [|by rewrite Hv].
  pose proof (so_width Hok) as Hw. rewrite Forall_forall in Hw.
  rewrite (Hw (x_ids x)); [done|]. apply (list_elem_of_lookup_2 _ _ _ (so_ids Hok x Hx)).
Qed.

(** C13: Every request gets a window of consecutive positions within the model length, with
    its scheduled tokens behind the padding in front, its own token ids throughout, and the
    bounds, length and discard flag that go with it. *)
Theorem window_holds_request total : 0 < total -> drafts_ok -> exists r' inp,
  _prepare_inputs r b num_tokens total drafts (x_sched <$> xs) = Ok (r', inp) /\
  query_lengths inp = window <$> xs /\
  forall i x, xs !! i = Some x ->
    let o := off window xs i in
    query_start_loc r' !! i = Some o /\ query_start_loc r' !! S i = Some (o + window x) /\
    seq_lens r' !! i = Some (x_computed x + x_sched x) /\
    discard_request_mask r' !! i = Some (x_computed x + x_sched x <? x_tokens x) /\
    0 <= front x /\ front x + x_sched x <= window x /\
    forall j, 0 <= j < window x ->
      let p := x_computed x - front x + j in
      0 <= p < max_model_len r /\ at_ (positions r') (o + j) = Some p /\
      at_ (input_ids r') (o + j) = at_ (x_ids x) (Z.min p (x_computed x + x_sched x - 1)).
Proof.
  intros Ht D. destruct (prepare_ok total Ht D) as (r' & inp & Hp & St & Hq & _). exists r', inp.
  split; [done|]. split; [done|]. intros i x Hi o. pose proof (list_elem_of_lookup_2 _ _ _ Hi) as Hx.
  destruct (window_facts x Hx) as (F1 & F2 & F3 & F4 & F5 & F6). destruct (so_bounds Hok x Hx) as (B1 & B2 & B3).
  pose proof (off_nonneg window xs i windows_nonneg) as Ho. destruct (st_starts _ St) as [k Hk]. destruct (st_lens _ St) as [k' Hl].
  rewrite Hk, Hl. destruct (query_starts_at i x (replicate k (sumZ (window <$> xs))) Hi) as [Q1 Q2]. split; [apply Q1|]. split; [apply Q2|]. split; [|split].
  - apply lookup_app_l_Some. by rewrite list_lookup_fmap, Hi.
  - eapply prefix_lookup_Some; [|apply (st_mask _ St)]. by rewrite list_lookup_fmap, Hi.
  - split; [done|]. split; [lia|]. intros j Hj p. pose proof (lookup_bounds x j Hx Hj). split; [lia|]. split.
    + eapply prefix_lookup_Some; [|apply (st_pos _ St)].
      apply (rows_at window (fun x j => x_computed x - front x + j) xs i x j windows_nonneg Hi Hj).
    + assert (Z.min p (x_computed x + x_sched x - 1) = lookup_at x j) as ->.
      { unfold lookup_at. subst p. unfold window, front in *. destruct fixed; lia. }
      rewrite <- token_at_row by done. eapply prefix_lookup_Some; [|apply (st_ids _ St)].
      apply (rows_at window (fun x j => token_at x (lookup_at x j)) xs i x j windows_nonneg Hi Hj).
Qed.

(** The rows sampled for the requests before the [i]th, and their drafts. *)
Definition sampled_before (i : nat) : Z := off (fun x => len (drafted x) + 1) xs i.
Definition drafted_before (i : nat) : Z := off (fun x => len (drafted x)) xs i.

Lemma mark_at i x : xs !! i = Some x -> marks 0 0 xs !! i = Some (off window xs i, sampled_before i, x).
Proof.
  intros Hi. pose proof (lookup_lt_Some _ _ _ Hi). destruct (mark_lookup i x Hi) as [s Hs]. rewrite Hs. do 3 f_equal.
  assert (H1 : ((fun y => y.1.2) <$> marks 0 0 xs) !! i = Some s) by (by rewrite list_lookup_fmap, Hs).
  rewrite marks_counted, (marks_reqs (fun x => len (drafted x) + 1)) in H1.
  rewrite row_starts_lookup in H1 by (by rewrite length_fmap). injection H1 as <-. unfold sampled_before, off. by rewrite fmap_take.
Qed.

Lemma off_marks (f : Req -> Z) i : off (fun y => f y.2) (marks 0 0 xs) i = off f xs i.
Proof. unfold off. by rewrite !fmap_take, marks_reqs. Qed.

Lemma drafts_of_mark i x k : drafts_ok -> xs !! i = Some x -> 0 <= k < len (drafted x) ->
  at_ (target_logits_indices metadata) (drafted_before i + k) = Some (sampled_before i + k) /\
  at_ (draft_token_ids metadata) (drafted_before i + k) = at_ (x_ids x) (x_computed x + x_sched x - len (drafted x) + k).
Proof.
  intros D Hi Hk. pose proof (mark_at i x Hi) as Hm. pose proof (list_elem_of_lookup_2 _ _ _ Hi) as Hx.
  unfold drafted_before. rewrite <- (off_marks (fun x => len (drafted x))). fold n_drafts.
  assert (Hn : nonneg n_drafts (marks 0 0 xs)) by (apply Forall_forall; intros; apply len_nonneg).
  split; [apply (rows_at n_drafts (fun y k => y.1.2 + k) _ i _ k Hn Hm Hk)|].
  etrans; [apply (rows_at n_drafts (fun y k => sampled_token y (k + 1)) _ i _ k Hn Hm Hk)|].
  unfold sampled_token, n_drafts. cbn [snd]. pose proof (do_bound D x Hx). destruct (so_bounds Hok x Hx) as (B1 & B2 & B3).
  pose proof (so_model Hok). rewrite token_at_row by (done || lia). f_equal. lia.
Qed.

(** The row holds the drafts behind the last committed token, where the batch's
    [update_req_spec_token_ids] writes what the scheduler gave. *)
Definition row_has_drafts (x : Req) : Prop := forall k, 0 <= k < len (drafted x) ->
  at_ (x_ids x) (x_computed x + x_sched x - len (drafted x) + k) = at_ (drafted x) k.

(** C26: The rows sampled are those of a request's last scheduled token and, when it has drafts,
    of the tokens the drafts follow; the metadata names the row behind each draft, and as draft
    ids the last scheduled tokens of the request's row, in order -- the drafts the scheduler
    gave, if the batch has written them there. *)
Theorem sampled_rows_follow_tokens total : 0 < total -> drafts_ok -> exists r' inp,
  _prepare_inputs r b num_tokens total drafts (x_sched <$> xs) = Ok (r', inp) /\
  forall i x, xs !! i = Some x ->
    let last := off window xs i + front x + x_sched x - 1 in
    let d := len (drafted x) in
    (drafts = [] -> spec_decode_metadata inp = None /\ logits_indices inp !! i = Some last) /\
    (drafts <> [] -> exists m, spec_decode_metadata inp = Some m /\
      num_draft_tokens m !! i = Some d /\ bonus_logits_indices m !! i = Some (sampled_before i + d) /\
      (forall k, 0 <= k <= d -> at_ (logits_indices inp) (sampled_before i + k) = Some (last - d + k)) /\
      forall k, 0 <= k < d ->
        at_ (target_logits_indices m) (drafted_before i + k) = Some (sampled_before i + k) /\
        at_ (draft_token_ids m) (drafted_before i + k) = at_ (x_ids x) (x_computed x + x_sched x - d + k) /\
        (row_has_drafts x -> at_ (draft_token_ids m) (drafted_before i + k) = at_ (drafted x) k)).
Proof.
  intros Ht D. destruct (prepare_ok total Ht D) as (r' & inp & Hp & _ & _ & _ & Hplain & Hspec). exists r', inp.
  split; [done|]. intros i x Hi last d. pose proof (mark_at i x Hi) as Hm. split; intros Hd.
  - destruct (Hplain Hd) as [-> ->]. split; [done|]. by rewrite list_lookup_fmap, Hm.
  - destruct (Hspec Hd) as [-> ->]. exists metadata. split; [done|]. cbn [num_draft_tokens bonus_logits_indices metadata drafts_of].
    split; [by rewrite list_lookup_fmap, Hm|]. split; [by rewrite list_lookup_fmap, Hm|]. split.
    + intros k Hk. unfold sampled_before. rewrite <- (off_marks (fun x => len (drafted x) + 1)).
      etrans; [apply (rows_at (fun y => n_drafts y + 1) (fun y k => token_end y - (n_drafts y + 1) + k) _ i (off window xs i, sampled_before i, x) k)|].
      * apply Forall_forall. intros y _. pose proof (len_nonneg (drafted y.2)). unfold n_drafts. lia.
      * exact Hm.
      * unfold n_drafts, d in *. cbn [snd]. lia.
      * unfold token_end, n_drafts, last, d. cbn [fst snd]. f_equal. lia.
    + intros k Hk. destruct (drafts_of_mark i x k D Hi Hk) as [H1 H2]. split; [done|]. split; [done|].
      intros Hr. rewrite H2. by apply Hr.
Qed.
End step.

(** ** A step with two requests

    Two decodes with a window of three: one has a draft, the other stands at the end of the
    model length. *)
Module RunnerToy.
Definition runner : Runner :=
  {| num_spec_tokens := 2; uses_fixed_decode_window := true; is_prefill := false; max_model_len := 8;
     arange_np := py_range 16; positions := replicate 12 77; input_ids := replicate 12 77;
     decode_back_pad := replicate 4 77; query_start_loc := replicate 5 77; seq_lens := replicate 12 77;
     discard_request_mask := replicate 4 true |}.

Definition a : Req := {| x_row := 0; x_id := "a"; x_computed := 3; x_sched := 2;
  x_ids := [10; 11; 12; 13; 14; 0; 0; 0]; x_tokens := 4 |}.
Definition z : Req := {| x_row := 1; x_id := "z"; x_computed := 6; x_sched := 1;
  x_ids := [20; 21; 22; 23; 24; 25; 26; 0]; x_tokens := 7 |}.

Definition batch : Batch :=
  {| req_ids := ["a"; "z"]; req_id_to_index := <["a" := 0]> (<["z" := 1]> ∅);
     num_computed_tokens_cpu := [3; 6; 0; 0]; token_ids_cpu := [x_ids a; x_ids z; replicate 8 0; replicate 8 0];
     token_width := 8 |}.

Definition num_tokens : gmap string Z := <["a" := 4]> (<["z" := 7]> ∅).
Definition drafts : odict string (list Z) := [("a", [14])].

Lemma batch_ok : step_ok runner batch num_tokens true [a; z] 16.
Proof.
  split; try done.
  - intros [|[|i]] x [= <-]; done.
  - intros x Hx. apply list_elem_of_In in Hx. destruct Hx as [<-|[<-|[]]]; done.
  - repeat constructor.
  - intros x Hx. apply list_elem_of_In in Hx. destruct Hx as [<-|[<-|[]]]; done.
  - intros x Hx. apply list_elem_of_In in Hx. destruct Hx as [<-|[<-|[]]]; done.
  - intros x Hx. apply list_elem_of_In in Hx. destruct Hx as [<-|[<-|[]]]; cbn; lia.
  - intros _. split; [cbn; lia|]. intros x Hx. apply list_elem_of_In in Hx. destruct Hx as [<-|[<-|[]]]; cbn; lia.
Qed.

Lemma batch_drafts : drafts_ok true [a; z] drafts.
Proof.
  split; [done|repeat constructor; set_solver|..].
  - intros k Hk. unfold od_keys in Hk. cbn in Hk. apply list_elem_of_singleton in Hk as ->. exists a. split; [by left|done].
  - intros x Hx. apply list_elem_of_In in Hx. destruct Hx as [<-|[<-|[]]]; done.
Qed.

(** The window of [z] would run past the model length, so it starts one token early. *)
Example prepared :
  match _prepare_inputs runner batch num_tokens 3 drafts [2; 1] with
  | Ok (r, inp) => (positions r, input_ids r, logits_indices inp)
  | Raise _ => ([], [], [])
  end = ([3; 4; 5; 5; 6; 7] ++ replicate 6 77, [13; 14; 14; 25; 26; 26] ++ replicate 6 77, [0; 1; 4]).
Proof. vm_compute. reflexivity. Qed.

Lemma window_holds_request_witness : exists r' inp,
  _prepare_inputs runner batch num_tokens 3 drafts [2; 1] = Ok (r', inp) /\
  query_start_loc r' !! 1%nat = Some 3 /\ at_ (positions r') 3 = Some 5.
Proof.
  destruct (window_holds_request runner batch num_tokens true [a; z] 16 batch_ok drafts 3 ltac:(lia) batch_drafts)
    as (r' & inp & Hp & _ & Hx).
  exists r', inp. split; [exact Hp|]. destruct (Hx 1%nat z eq_refl) as (H1 & _ & _ & _ & _ & _ & H2).
  split; [exact H1|]. exact (proj1 (proj2 (H2 0 (conj (Z.le_refl 0) eq_refl)))).
Defined.

Lemma sampled_rows_follow_tokens_witness : exists r' inp m,
  _prepare_inputs runner batch num_tokens 3 drafts [2; 1] = Ok (r', inp) /\
  spec_decode_metadata inp = Some m /\ bonus_logits_indices m !! 0%nat = Some 1 /\ at_ (draft_token_ids m) 0 = Some 14.
Proof.
  destruct (sampled_rows_follow_tokens runner batch num_tokens true [a; z] 16 batch_ok drafts 3 ltac:(lia) batch_drafts)
    as (r' & inp & Hp & Hx).
  destruct (proj2 (Hx 0%nat a eq_refl)) as (m & Hm & _ & Hb & _ & Hd); [done|].
  exists r', inp, m. split; [exact Hp|]. split; [exact Hm|]. split; [exact Hb|].
  destruct (Hd 0 (conj (Z.le_refl 0) eq_refl)) as (_ & _ & H). apply H. intros k Hk.
  assert (k = 0) as -> by (change (len (drafted drafts a)) with 1 in Hk; lia). reflexivity.
Defined.
End RunnerToy.
