(* ===== verification/RunnerTokens.v ===== *)
(** * Model runner: the tokens of the requests

    [rbln_model_runner.py]: what [_update_states] does to the cached requests and to the
    persistent batch, [_bookkeeping_sync], and, for asynchronous scheduling, the placeholders
    it leaves for tokens that are still on the device, the output object of
    [async_output.py] and the three repairs that put the tokens in.  Log-probabilities and
    sampling parameters are left out.  Sampled tokens stay in buffers of the device, of which
    [rbln_sampler.py] has two and writes them in turns; whoever holds a tensor reads what is in
    its buffer by then.  The methods of vLLM's [InputBatch] are the class
    [BatchOps]; a request's list of output tokens is shared by the cached request and the
    batch, so it is kept once, with the request. *)
From S2P Require Import Prelude CoreUtils.

(** ** State *)
Record CachedRequestState := {
  prompt_token_ids : list Z;
  output_token_ids : list Z;
  cached_block_ids : list (list Z);
  cached_num_computed : Z
}.

Definition num_prompt (r : CachedRequestState) : Z := len (prompt_token_ids r).
Definition cached_num_tokens (r : CachedRequestState) : Z := num_prompt r + len (output_token_ids r).

Definition with_output (ids : list Z) (r : CachedRequestState) : CachedRequestState :=
  {| prompt_token_ids := prompt_token_ids r; output_token_ids := ids;
     cached_block_ids := cached_block_ids r; cached_num_computed := cached_num_computed r |}.
Definition with_blocks (blocks : list (list Z)) (r : CachedRequestState) : CachedRequestState :=
  {| prompt_token_ids := prompt_token_ids r; output_token_ids := output_token_ids r;
     cached_block_ids := blocks; cached_num_computed := cached_num_computed r |}.
Definition with_computed (n : Z) (r : CachedRequestState) : CachedRequestState :=
  {| prompt_token_ids := prompt_token_ids r; output_token_ids := output_token_ids r;
     cached_block_ids := cached_block_ids r; cached_num_computed := n |}.

(** The first rows of a buffer of the device. *)
Record Tensor := { t_buffer : nat; t_len : Z }.

(** The buffers, and the runner's two for sampled tokens. *)
Record Device := {
  memory : list (list (list Z));
  _sampled_token_ring : list nat;
  _ring_slot : nat
}.

Definition read_tensor (d : Device) (t : Tensor) : list (list Z) :=
  py_take (t_len t) (default [] (memory d !! t_buffer t)).

(** The fields of the batch that are read or written here, and the rows its builder knows to be
    free; [generators] has the offset of every generator. *)
Record InputBatch := {
  req_ids : list string;
  req_id_to_index : gmap string Z;
  token_ids_cpu : list (list Z);
  is_token_ids : list (list bool);
  num_tokens_no_spec : list Z;
  num_prompt_tokens : list Z;
  num_computed_tokens_cpu : list Z;
  generators : gmap Z Z;
  batch_update_builder : list Z;
  prev_sampled_token_ids : option Tensor;
  prev_req_id_to_index : option (gmap string Z)
}.

Definition with_rows (rows : list (list Z)) (is_token : list (list bool)) (b : InputBatch) : InputBatch :=
  {| req_ids := req_ids b; req_id_to_index := req_id_to_index b; token_ids_cpu := rows;
     is_token_ids := is_token; num_tokens_no_spec := num_tokens_no_spec b;
     num_prompt_tokens := num_prompt_tokens b; num_computed_tokens_cpu := num_computed_tokens_cpu b;
     generators := generators b; batch_update_builder := batch_update_builder b;
     prev_sampled_token_ids := prev_sampled_token_ids b;
     prev_req_id_to_index := prev_req_id_to_index b |}.
Definition with_counts (no_spec computed : list Z) (b : InputBatch) : InputBatch :=
  {| req_ids := req_ids b; req_id_to_index := req_id_to_index b; token_ids_cpu := token_ids_cpu b;
     is_token_ids := is_token_ids b; num_tokens_no_spec := no_spec;
     num_prompt_tokens := num_prompt_tokens b; num_computed_tokens_cpu := computed;
     generators := generators b; batch_update_builder := batch_update_builder b;
     prev_sampled_token_ids := prev_sampled_token_ids b;
     prev_req_id_to_index := prev_req_id_to_index b |}.
Definition with_prev (sampled : option Tensor) (index : option (gmap string Z)) (b : InputBatch) : InputBatch :=
  {| req_ids := req_ids b; req_id_to_index := req_id_to_index b; token_ids_cpu := token_ids_cpu b;
     is_token_ids := is_token_ids b; num_tokens_no_spec := num_tokens_no_spec b;
     num_prompt_tokens := num_prompt_tokens b; num_computed_tokens_cpu := num_computed_tokens_cpu b;
     generators := generators b; batch_update_builder := batch_update_builder b;
     prev_sampled_token_ids := sampled; prev_req_id_to_index := index |}.
Definition with_generators (g : gmap Z Z) (b : InputBatch) : InputBatch :=
  {| req_ids := req_ids b; req_id_to_index := req_id_to_index b; token_ids_cpu := token_ids_cpu b;
     is_token_ids := is_token_ids b; num_tokens_no_spec := num_tokens_no_spec b;
     num_prompt_tokens := num_prompt_tokens b; num_computed_tokens_cpu := num_computed_tokens_cpu b;
     generators := g; batch_update_builder := batch_update_builder b;
     prev_sampled_token_ids := prev_sampled_token_ids b;
     prev_req_id_to_index := prev_req_id_to_index b |}.

(** An entry of [PendingTokenWriteback]. *)
Record Writeback := {
  w_req_ids : list string;
  w_tokens : list (list Z);
  w_pos : odict string Z
}.

Record Runner := {
  requests : gmap string CachedRequestState;
  input_batch : InputBatch;
  discard_request_mask : list bool;
  _placeholder_pos : odict string Z;
  _pending_token_writeback : list Writeback
}.

Definition with_batch (b : InputBatch) (s : Runner) : Runner :=
  {| requests := requests s; input_batch := b; discard_request_mask := discard_request_mask s;
     _placeholder_pos := _placeholder_pos s; _pending_token_writeback := _pending_token_writeback s |}.
Definition with_requests (rs : gmap string CachedRequestState) (s : Runner) : Runner :=
  {| requests := rs; input_batch := input_batch s; discard_request_mask := discard_request_mask s;
     _placeholder_pos := _placeholder_pos s; _pending_token_writeback := _pending_token_writeback s |}.
Definition with_pos (pos : odict string Z) (s : Runner) : Runner :=
  {| requests := requests s; input_batch := input_batch s; discard_request_mask := discard_request_mask s;
     _placeholder_pos := pos; _pending_token_writeback := _pending_token_writeback s |}.
Definition with_pending (w : list Writeback) (s : Runner) : Runner :=
  {| requests := requests s; input_batch := input_batch s; discard_request_mask := discard_request_mask s;
     _placeholder_pos := _placeholder_pos s; _pending_token_writeback := w |}.

(** ** Scheduler output *)
Record NewRequestData := {
  new_req_id : string;
  new_prompt : list Z;
  new_req_blocks : list (list Z);
  new_num_computed : Z
}.

(** One request of [CachedRequestData]. *)
Record CachedReq := {
  cr_id : string;
  cr_resumed : bool;
  cr_num_computed : Z;
  cr_new_block_ids : option (list (list Z));
  cr_num_output : Z
}.

Record SchedulerOutput := {
  finished_req_ids : list string;
  num_scheduled_tokens : odict string Z;
  scheduled_new_reqs : list NewRequestData;
  scheduled_cached_reqs : list CachedReq;
  new_token_ids : list (list Z);
  scheduled_spec_decode_tokens : odict string (list Z)
}.

(** ** The methods of the batch, and vLLM's parser of verified drafts *)
Class BatchOps := {
  remove_request : string -> InputBatch -> InputBatch;
  add_request : string -> CachedRequestState -> InputBatch -> res InputBatch;
  append_row : list (list Z) -> Z -> InputBatch -> InputBatch;
  update_req_spec_token_ids : string -> odict string (list Z) -> InputBatch -> InputBatch;
  condense : InputBatch -> InputBatch;
  may_reorder_batch : InputBatch -> InputBatch;
  refresh_metadata : InputBatch -> InputBatch;
  parse_output : list (list Z) -> list Z -> list (list Z)
}.

(** ** Writes into the arrays *)

(** [row[start : start + len(vals)] = vals] of a NumPy row, of which the slice stops at the
    row's end; one value is broadcast. *)
Definition write_slice {A} (start : Z) (vals row : list A) : res (list A) :=
  if start + len vals <=? len row
  then Ok (take (Z.to_nat start) row ++ vals ++ drop (Z.to_nat (start + len vals)) row)
  else match vals with
       | [v] => Ok row
       | _ => Raise ValueError
       end.

(** [a[i, start:end] = vals]. *)
Definition write_row {A} (i start : Z) (vals : list A) (rows : list (list A)) : res (list (list A)) :=
  row ← of_option (py_nth rows i) IndexError;
  row' ← write_slice start vals row;
  Ok (<[Z.to_nat i := row']> rows).

(** [a[i] = v]. *)
Definition write_at {A} (i : Z) (v : A) (l : list A) : res (list A) :=
  _ ← of_option (py_nth l i) IndexError;
  Ok (<[Z.to_nat i := v]> l).

(** The tokens [start:end] of a row, and that they are tokens. *)
Definition write_tokens (i start : Z) (ids : list Z) (b : InputBatch) : res InputBatch :=
  rows ← write_row i start ids (token_ids_cpu b);
  Ok (with_rows rows (is_token_ids b) b).
Definition mark_tokens (i start stop : Z) (b : InputBatch) : res InputBatch :=
  row ← of_option (py_nth (is_token_ids b) i) IndexError;
  let stop' := Z.min stop (len row) in
  let row' := if start <? stop'
    then take (Z.to_nat start) row ++ replicate (Z.to_nat (stop' - start)) true ++ drop (Z.to_nat stop') row
    else row in
  Ok (with_rows (token_ids_cpu b) (<[Z.to_nat i := row']> (is_token_ids b)) b).
Definition set_num_tokens (i n : Z) (b : InputBatch) : res InputBatch :=
  counts ← write_at i n (num_tokens_no_spec b);
  Ok (with_counts counts (num_computed_tokens_cpu b) b).
Definition set_num_computed (i n : Z) (b : InputBatch) : res InputBatch :=
  counts ← write_at i n (num_computed_tokens_cpu b);
  Ok (with_counts (num_tokens_no_spec b) counts b).

(** ** [_update_states] *)
Section update.
Context `{BatchOps} (is_last_rank : bool).

(** Finished requests leave the cached states, then the batch. *)
Definition drop_finished (ids : list string) (s : Runner) : Runner :=
  {| requests := foldl (fun rs id => delete id rs) (requests s) ids;
     input_batch := foldl (fun b id => remove_request id b) (input_batch s) ids;
     discard_request_mask := discard_request_mask s; _placeholder_pos := _placeholder_pos s;
     _pending_token_writeback := _pending_token_writeback s |}.

(** Requests that are not scheduled, or that come back from preemption, leave the batch.
    The code iterates over a set. *)
Definition unscheduled (o : SchedulerOutput) (b : InputBatch) : list string :=
  let resumed := cr_id <$> filter (fun c => cr_resumed c = true) (scheduled_cached_reqs o) in
  let stays id := id ∈ od_keys (num_scheduled_tokens o) /\ id ∉ resumed in
  filter (fun id => ~ stays id) (map_to_list (req_id_to_index b)).*1.

Definition drop_unscheduled (o : SchedulerOutput) (s : Runner) : Runner :=
  with_batch (foldl (fun b id => remove_request id b) (input_batch s) (unscheduled o (input_batch s))) s.

(** A new turn of a streaming session: what was output is part of the new prompt. *)
Definition _update_streaming_request (n : NewRequestData) (s : Runner) : Runner :=
  let r := {| prompt_token_ids := new_prompt n; output_token_ids := [];
              cached_block_ids := new_req_blocks n; cached_num_computed := new_num_computed n |} in
  with_requests (<[new_req_id n := r]> (requests s)) (with_batch (remove_request (new_req_id n) (input_batch s)) s).

Definition new_request (n : NewRequestData) (s : Runner) : Runner :=
  match requests s !! new_req_id n with
  | Some _ => _update_streaming_request n s
  | None =>
      let r := {| prompt_token_ids := new_prompt n; output_token_ids := [];
                  cached_block_ids := new_req_blocks n; cached_num_computed := new_num_computed n |} in
      with_requests (<[new_req_id n := r]> (requests s)) s
  end.

(** The tokens a rank that does not sample is told about, or the output tokens that a failed
    load discarded. *)
Definition sync_output (o : SchedulerOutput) (i : Z) (c : CachedReq) (r : CachedRequestState) (s : Runner)
    : res (CachedRequestState * Runner) :=
  if is_last_rank then
    if cr_num_output c <? len (output_token_ids r) then
      let r' := with_output (py_take (cr_num_output c) (output_token_ids r)) r in
      match req_id_to_index (input_batch s) !! cr_id c with
      | Some idx =>
          prompt ← of_option (py_nth (num_prompt_tokens (input_batch s)) idx) IndexError;
          b ← set_num_tokens idx (prompt + cr_num_output c) (input_batch s);
          Ok (r', with_batch b s)
      | None => Ok (r', s)
      end
    else Ok (r, s)
  else
    assert! negb (bool_decide (new_token_ids o = []));
    ids ← of_option (py_nth (new_token_ids o) i) IndexError;
    let base_out := num_base_tokens (num_scheduled_tokens o) (scheduled_spec_decode_tokens o) (cr_id c) in
    let num_new_tokens := cr_num_computed c + base_out - cached_num_tokens r in
    if num_new_tokens =? 1 then
      t ← of_option (py_nth ids (-1)) IndexError;
      Ok (with_output (output_token_ids r ++ [t]) r, s)
    else if 0 <? num_new_tokens then
      Ok (with_output (output_token_ids r ++ drop (Z.to_nat (len ids - num_new_tokens)) ids) r, s)
    else Ok (r, s).

Definition update_blocks (c : CachedReq) (req_index : option Z) (r : CachedRequestState) : res CachedRequestState :=
  if cr_resumed c then
    assert! bool_decide (req_index = None);
    match cr_new_block_ids c with
    | Some blocks => Ok (with_blocks blocks r)
    | None => Raise AssertionError
    end
  else match cr_new_block_ids c with
       | Some blocks => Ok (with_blocks (zip_with app (cached_block_ids r) blocks ++
                              drop (length blocks) (cached_block_ids r)) r)
       | None => Ok r
       end.

(** The rows of a rank that does not sample: the committed tokens it has not seen. *)
Definition write_propagated (o : SchedulerOutput) (i idx : Z) (c : CachedReq) (b : InputBatch) : res InputBatch :=
  ids ← of_option (py_nth (new_token_ids o) i) IndexError;
  let base := num_base_tokens (num_scheduled_tokens o) (scheduled_spec_decode_tokens o) (cr_id c) in
  start ← of_option (py_nth (num_tokens_no_spec b) idx) IndexError;
  write ← resolve_propagated_token_write start (cr_num_computed c) base ids;
  match write with
  | None => Ok b
  | Some (committed_tip, tokens) =>
      b ← (if bool_decide (tokens = []) then Ok b else write_tokens idx start tokens b);
      b ← mark_tokens idx start committed_tip b;
      set_num_tokens idx committed_tip b
  end.

(** One running or resumed request; those that are not in the batch are added later. *)
Definition update_cached (o : SchedulerOutput) (st : Runner * list string) (ic : Z * CachedReq)
    : res (Runner * list string) :=
  let '(s, adds) := st in
  let '(i, c) := ic in
  r ← of_option (requests s !! cr_id c) KeyError;
  rs ← sync_output o i c (with_computed (cr_num_computed c) r) s;
  let '(r, s) := rs in
  let req_index := req_id_to_index (input_batch s) !! cr_id c in
  r ← update_blocks c req_index r;
  let s := with_requests (<[cr_id c := r]> (requests s)) s in
  match req_index with
  | None => Ok (s, adds ++ [cr_id c])
  | Some idx =>
      b ← set_num_computed idx (cr_num_computed c) (input_batch s);
      let b := match cr_new_block_ids c with Some blocks => append_row blocks idx b | None => b end in
      b ← (if is_last_rank then Ok b else write_propagated o i idx c b);
      Ok (with_batch (update_req_spec_token_ids (cr_id c) (scheduled_spec_decode_tokens o) b) s, adds)
  end.

Definition add_to_batch (o : SchedulerOutput) (s : Runner) (id : string) : res Runner :=
  r ← of_option (requests s !! id) KeyError;
  b ← add_request id r (input_batch s);
  Ok (with_batch (update_req_spec_token_ids id (scheduled_spec_decode_tokens o) b) s).

Definition _update_states (o : SchedulerOutput) (s : Runner) : res Runner :=
  let s := drop_unscheduled o (drop_finished (finished_req_ids o) s) in
  let s := foldl (fun s n => new_request n s) s (scheduled_new_reqs o) in
  let adds := new_req_id <$> scheduled_new_reqs o in
  st ← foldM (update_cached o) (s, adds) (zip (py_range (len (scheduled_cached_reqs o))) (scheduled_cached_reqs o));
  let '(s, adds) := st in
  s ← foldM (add_to_batch o) s adds;
  Ok (with_batch (refresh_metadata (may_reorder_batch (condense (input_batch s)))) s).
End update.

(** ** Sampled tokens *)

(** [np.nonzero(mask[:num_reqs])]. *)
Definition discarded (s : Runner) : list Z :=
  let mask := py_take (len (req_ids (input_batch s))) (discard_request_mask s) in
  (filter (fun im => im.2 = true) (zip (py_range (len mask)) mask)).*1.

(** [rows[i].clear()] for every [i]. *)
Definition clear_rows (idx : list Z) (rows : list (list Z)) : res (list (list Z)) :=
  foldM (fun rows i => write_at i [] rows) rows idx.

(** Sampling a request that is discarded must not use up its generator. *)
Definition rewind_generators (idx : list Z) (b : InputBatch) : InputBatch :=
  with_generators (foldl (fun g i => alter (fun off => off - 4) i g) (generators b) idx) b.

Section bookkeeping.
Context `{BatchOps} (use_async_scheduling : bool) (max_model_len : Z).

(** The ids a request's row gets: its tokens, or a placeholder for the one on the device. *)
Definition sampled_ids (valid : list (list Z)) (invalid : list Z) (req_idx : Z) : res (list Z) :=
  if use_async_scheduling then Ok (if bool_decide (req_idx ∈ invalid) then [] else [-1])
  else of_option (py_nth valid req_idx) IndexError.

(** One request's share of the loop of [_bookkeeping_sync]. *)
Definition cache_sampled (valid : list (list Z)) (invalid : list Z) (s : Runner) (req_idx : Z) : res Runner :=
  ids ← sampled_ids valid invalid req_idx;
  if bool_decide (ids = []) then Ok s
  else
    let b := input_batch s in
    start_idx ← of_option (py_nth (num_tokens_no_spec b) req_idx) IndexError;
    let end_idx := start_idx + len ids in
    assert! end_idx <=? max_model_len;
    b ← write_tokens req_idx start_idx ids b;
    s ← (if use_async_scheduling then
           assert! len ids =? 1;
           id ← of_option (py_nth (req_ids b) req_idx) IndexError;
           Ok (with_pos (od_set id start_idx (_placeholder_pos s)) s)
         else Ok s);
    b ← mark_tokens req_idx start_idx end_idx b;
    b ← set_num_tokens req_idx end_idx b;
    id ← of_option (py_nth (req_ids b) req_idx) IndexError;
    r ← of_option (requests s !! id) KeyError;
    Ok (with_requests (<[id := with_output (output_token_ids r ++ ids) r]> (requests s)) (with_batch b s)).

(** The tokens that are known, and with asynchronous scheduling the rows without any. *)
Definition valid_tokens (tensor : Tensor) (sampled : list (list Z)) (s : Runner) : res (list (list Z) * list Z * Runner) :=
  let gone := discarded s in
  if use_async_scheduling then
    let b := input_batch s in
    let index : gmap string Z := list_to_map (reverse ((fun ii => (ii.2, ii.1)) <$>
                   filter (fun ii => ii.1 ∉ gone) (zip (py_range (len (req_ids b))) (req_ids b)))) in
    match prev_sampled_token_ids b with
    | Some _ => Ok ([], gone, with_pos [] (with_batch (with_prev (prev_sampled_token_ids b) (Some index) b) s))
    | None =>
        assert! forallb (fun row => len row =? 1) sampled;
        Ok ([], gone, with_pos [] (with_batch (with_prev (Some tensor) (Some index) b) s))
    end
  else if forallb (fun row => len row =? 1) sampled then
    valid ← clear_rows gone sampled;
    Ok (valid, [], s)
  else Ok (parse_output sampled gone, [], s).

(** The ids and the index of the batch are copied; the answer is what the rows got.  [sampled]
    is what [tensor] holds; with asynchronous scheduling only its shape is looked at. *)
Definition _bookkeeping_sync (tensor : Tensor) (sampled : list (list Z)) (s : Runner)
    : res (Runner * list (list Z) * list Z) :=
  let s := with_batch (rewind_generators (discarded s) (input_batch s)) s in
  v ← valid_tokens tensor sampled s;
  let '(valid, invalid, s) := v in
  s ← foldM (cache_sampled valid invalid) s (py_range (len sampled));
  Ok (s, valid, invalid).
End bookkeeping.

(** ** The asynchronous output *)
Record AsyncRBLNModelRunnerOutput := {
  _sampled_token_ids : Tensor;
  _invalid_req_indices : list Z;
  _req_ids : list string;
  _output_pos : odict string Z
}.

(** What [sample_tokens] does once the sampler is queued.  Without asynchronous scheduling the
    answer has the tokens themselves. *)
Definition after_sampling `{BatchOps} (use_async_scheduling : bool) (max_model_len : Z) (tensor : Tensor)
    (sampled : list (list Z)) (s : Runner) : res (Runner * (list (list Z) + AsyncRBLNModelRunnerOutput)) :=
  let s := if use_async_scheduling
           then with_batch (with_prev None (prev_req_id_to_index (input_batch s)) (input_batch s)) s else s in
  st ← _bookkeeping_sync use_async_scheduling max_model_len tensor sampled s;
  let '(s, valid, invalid) := st in
  if use_async_scheduling then
    Ok (s, inr {| _sampled_token_ids := tensor; _invalid_req_indices := invalid;
                  _req_ids := req_ids (input_batch s); _output_pos := _placeholder_pos s |})
  else Ok (s, inl valid).

(** [get_output], on the output thread: the tokens are copied to the host now. *)
Definition get_output (d : Device) (a : AsyncRBLNModelRunnerOutput) (pending : list Writeback)
    : res (list (list Z) * list Writeback) :=
  valid ← clear_rows (_invalid_req_indices a) (read_tensor d (_sampled_token_ids a));
  Ok (valid, pending ++ [{| w_req_ids := _req_ids a; w_tokens := valid; w_pos := _output_pos a |}]).

(** ** The repairs *)

(** [l[a : a + len(vals)] = vals] of a Python list, within its bounds. *)
Definition splice (a : Z) (vals l : list Z) : list Z :=
  take (Z.to_nat a) l ++ vals ++ drop (Z.to_nat (a + len vals)) l.

(** One request of one entry. *)
Definition write_back (w : Writeback) (s : Runner) (i_id : Z * string) : res Runner :=
  let '(i, id) := i_id in
  match w_tokens w !! Z.to_nat i, od_get id (w_pos w), requests s !! id with
  | Some (t :: ts), Some start, Some r =>
      let ids := t :: ts in
      let output_offset := start - num_prompt r in
      if (0 <=? output_offset) && (output_offset <=? len (output_token_ids r) - len ids) then
        let s' := with_requests (<[id := with_output (splice output_offset ids (output_token_ids r)) r]> (requests s)) s in
        match req_id_to_index (input_batch s) !! id with
        | None => Ok s'
        | Some idx =>
            b ← write_tokens idx start ids (input_batch s');
            Ok (with_batch b s')
        end
      else Ok s
  | _, _, _ => Ok s
  end.

Definition write_back_entry (s : Runner) (w : Writeback) : res Runner :=
  if bool_decide (w_pos w = []) then Ok s
  else foldM (write_back w) s (zip (py_range (len (w_req_ids w))) (w_req_ids w)).

Definition _apply_pending_token_writeback (s : Runner) : res Runner :=
  foldM write_back_entry (with_pending [] s) (_pending_token_writeback s).

(** The rows of the step's input that hold a placeholder, and where the tokens are. *)
Definition prev_rows (index : gmap string Z) (ids : list string) : list (Z * Z) :=
  omap (fun ii => (fun prev => (ii.1, prev)) <$> index !! ii.2) (zip (py_range (len ids)) ids).

(** [rows[i, 0] = t]. *)
Definition set_first (rows : list (list Z)) (it : Z * Z) : res (list (list Z)) :=
  row ← of_option (py_nth rows it.1) IndexError;
  match row with
  | [] => Raise IndexError
  | _ :: rest => Ok (<[Z.to_nat it.1 := it.2 :: rest]> rows)
  end.

(** The staged token ids after [_repair_staged_input_ids]. *)
Definition _repair_staged_input_ids (is_prefill : bool) (d : Device) (b : InputBatch) (ids : list string)
    (staged : list (list Z)) : res (list (list Z)) :=
  match is_prefill, prev_sampled_token_ids b, prev_req_id_to_index b with
  | false, Some prev_sampled, Some index =>
      let pairs := prev_rows index ids in
      if bool_decide (pairs = []) then Ok staged
      else
        let any_skipped := existsb (fun id => bool_decide (index !! id = None)) ids in
        host ← mapM (fun row => of_option (row !! 0%nat) IndexError) (read_tensor d prev_sampled);
        if negb any_skipped && bool_decide (pairs.*1 = pairs.*2) then
          foldM set_first staged (zip (py_range (len pairs)) (py_take (len pairs) host))
        else
          tokens ← mapM (fun prev => of_option (py_nth host prev) IndexError) (pairs.*2);
          foldM set_first staged (zip (pairs.*1) tokens)
  | _, _, _ => Ok staged
  end.

(** [_repair_async_output_token_ids]: [needed] says that the sampling metadata has the lists of
    output tokens; they are those of the cached requests. *)
Definition repair_output (prev_sampled : list (list Z)) (index : gmap string Z) (s : Runner) (id : string)
    : res Runner :=
  match index !! id with
  | None => Ok s
  | Some prev_row =>
      r ← of_option (requests s !! id) KeyError;
      if bool_decide (last (output_token_ids r) = Some (-1)) then
        sampled ← mapM (fun row => of_option (row !! 0%nat) IndexError) prev_sampled;
        t ← of_option (py_nth sampled prev_row) IndexError;
        Ok (with_requests (<[id := with_output (py_take (len (output_token_ids r) - 1) (output_token_ids r) ++ [t]) r]>
              (requests s)) s)
      else Ok s
  end.

Definition _repair_async_output_token_ids (needed : bool) (d : Device) (s : Runner) : res Runner :=
  match needed, prev_sampled_token_ids (input_batch s), prev_req_id_to_index (input_batch s) with
  | true, Some prev_sampled, Some index =>
      foldM (repair_output (read_tensor d prev_sampled) index) s (req_ids (input_batch s))
  | _, _, _ => Ok s
  end.

(** ** Sampling *)

(** What a step samples: [sp_sampled] is what the sampler computes, with the rows of the padding
    behind those of the requests; [sp_needs_output] says that the sampling metadata has the
    lists of output tokens. *)
Record Sampling := {
  sp_prefill : bool;
  sp_mask : list bool;
  sp_needs_output : bool;
  sp_sampled : list (list Z)
}.

Definition new_buffer (rows : list (list Z)) (d : Device) : nat * Device :=
  (length (memory d), {| memory := memory d ++ [rows]; _sampled_token_ring := _sampled_token_ring d; _ring_slot := _ring_slot d |}).

(** [_stage_into]; what [empty_like] leaves in a buffer is not read before it is written. *)
Definition empty_like (out : list (list Z)) : list (list Z) := map (map (fun _ => 0)) out.

Definition other_shape (out : list (list Z)) (d : Device) : bool :=
  match _sampled_token_ring d with
  | [] => true
  | a :: _ => negb (len (default [] (memory d !! a)) =? len out)
  end.

Definition renew_ring (out : list (list Z)) (d : Device) : Device :=
  let n := length (memory d) in
  {| memory := memory d ++ [empty_like out; empty_like out]; _sampled_token_ring := [n; S n]; _ring_slot := 0 |}.

Definition _stage_into (out : list (list Z)) (d : Device) : res (nat * Device) :=
  let d := if other_shape out d then renew_ring out d else d in
  buf ← of_option (_sampled_token_ring d !! _ring_slot d) IndexError;
  Ok (buf, {| memory := <[buf := out]> (memory d); _sampled_token_ring := _sampled_token_ring d;
              _ring_slot := (1 - _ring_slot d)%nat |}).

Definition with_mask (mask : list bool) (s : Runner) : Runner :=
  {| requests := requests s; input_batch := input_batch s; discard_request_mask := mask;
     _placeholder_pos := _placeholder_pos s; _pending_token_writeback := _pending_token_writeback s |}.

Definition is_intermediate_chunked_prefill (x : Sampling) : bool := sp_prefill x && default false (head (sp_mask x)).

(** The rows of the answer: a chunk of a prefill that is not the last is not sampled. *)
Definition sampled_rows (x : Sampling) (s : Runner) : list (list Z) :=
  if is_intermediate_chunked_prefill x then [[-1]] else py_take (len (req_ids (input_batch s))) (sp_sampled x).

(** [_sample] with asynchronous scheduling; [staging] says that the sampler is the RBLN one,
    which snapshots its output. *)
Definition _sample (staging : bool) (x : Sampling) (s : Runner) (d : Device) : res (Runner * Device * Tensor) :=
  if is_intermediate_chunked_prefill x then
    let '(a, d) := new_buffer [[-1]] d in Ok (s, d, {| t_buffer := a; t_len := 1 |})
  else
    s ← _repair_async_output_token_ids (sp_needs_output x) d s;
    ad ← (if staging then _stage_into (sp_sampled x) d else Ok (new_buffer (sp_sampled x) d));
    Ok (s, ad.2, {| t_buffer := ad.1; t_len := len (req_ids (input_batch s)) |}).

(** ** Runs

    What a step does to the tokens, as [execute_model] and [sample_tokens] call it on the rank
    that samples; a step without scheduled tokens ends after the update.  The output thread
    fetches the oldest output there is. *)
Inductive Op :=
  | Step (o : SchedulerOutput) (x : option Sampling)
  | Fetch.

Section runs.
Context `{BatchOps} (max_model_len : Z).

(** Without asynchronous scheduling the tokens are on the host at once. *)
Definition step_sync (t : Runner) (op : Op) : res Runner :=
  match op with
  | Fetch => Ok t
  | Step o x =>
      t ← _update_states true o t;
      match x with
      | None => Ok t
      | Some x =>
          let t := with_mask (sp_mask x) t in
          out ← after_sampling false max_model_len {| t_buffer := 0; t_len := 0 |} (sampled_rows x t) t;
          Ok out.1
      end
  end.

Definition step_async (staging : bool) (st : Runner * Device * list AsyncRBLNModelRunnerOutput) (op : Op)
    : res (Runner * Device * list AsyncRBLNModelRunnerOutput) :=
  let '(s, d, outs) := st in
  match op with
  | Fetch =>
      match outs with
      | [] => Ok (s, d, [])
      | a :: outs => out ← get_output d a (_pending_token_writeback s); Ok (with_pending out.2 s, d, outs)
      end
  | Step o x =>
      s ← _apply_pending_token_writeback s;
      s ← _update_states true o s;
      match x with
      | None => Ok (s, d, outs)
      | Some x =>
          r ← _sample staging x (with_mask (sp_mask x) s) d;
          let '(s, d, tensor) := r in
          out ← after_sampling true max_model_len tensor (read_tensor d tensor) s;
          match out.2 with
          | inr a => Ok (out.1, d, outs ++ [a])
          | inl _ => Ok (out.1, d, outs)
          end
      end
  end.

(** Every output fetched and every token written. *)
Definition drain (d : Device) (s : Runner) (outs : list AsyncRBLNModelRunnerOutput) : res Runner :=
  pending ← foldM (fun pending a => out ← get_output d a pending; Ok out.2) (_pending_token_writeback s) outs;
  _apply_pending_token_writeback (with_pending pending s).
End runs.
