(* ===== verification/RunnerTokensSpec.v ===== *)
(** * Model runner: what the tokens are, behind the placeholders *)
From S2P Require Import Prelude CoreUtils KvLayout RunnerTokens.

(** ** Settling writes

    [put P (s, t)] writes token [t] at place [s] of a request's tokens, prompt first, as a
    write-back does: never into the [P] tokens of the prompt and never past the end. *)
Definition put (P : Z) (w : Z * Z) (l : list Z) : list Z :=
  if (P <=? w.1) && (w.1 <? len l) then <[Z.to_nat w.1 := w.2]> l else l.
Definition settle (P : Z) (ws : list (Z * Z)) (l : list Z) : list Z := foldl (fun l w => put P w l) l ws.

Section settle.
Context (P : Z) (HP : 0 <= P).
Implicit Types l : list Z.

Lemma put_len w l : len (put P w l) = len l.
Proof. unfold put, len. case_match; [|done]. by rewrite length_insert. Qed.

Lemma settle_cons w ws l : settle P (w :: ws) l = settle P ws (put P w l).
Proof. done. Qed.

Lemma settle_len ws l : len (settle P ws l) = len l.
Proof. revert l. induction ws as [|w ws IH]; intros l; [done|]. by rewrite settle_cons, IH, put_len. Qed.

Lemma settle_app ws ws' l : settle P (ws ++ ws') l = settle P ws' (settle P ws l).
Proof. apply foldl_app. Qed.

Lemma put_at w l i : put P w l !! i =
  if decide (Z.of_nat i = w.1 /\ P <= w.1 < len l) then Some w.2 else l !! i.
Proof.
  unfold put. destruct (decide _) as [[Hi Hw]|Hn].
  - destruct (Z.leb_spec P w.1); [|lia]. destruct (Z.ltb_spec w.1 (len l)); [|lia]. cbn.
    replace (Z.to_nat w.1) with i by lia. apply list_lookup_insert_eq. unfold len in *. lia.
  - destruct (Z.leb_spec P w.1); [|done]. destruct (Z.ltb_spec w.1 (len l)); [|done]. cbn.
    apply list_lookup_insert_ne. intros Hi. apply Hn. lia.
Qed.

Lemma same_len {A} (l k : list A) : len l = len k -> length l = length k.
Proof. unfold len. lia. Qed.

(** A place that is written has the value of its last write, whatever it was. *)
Lemma settle_at ws l i : settle P ws l !! i =
  match last (filter (fun w => Z.of_nat i = w.1 /\ P <= w.1 < len l) ws) with
  | Some w => Some w.2
  | None => l !! i
  end.
Proof.
  revert l. induction ws as [|w ws IH] using rev_ind; intros l; [done|].
  rewrite settle_app, settle_cons. change (settle P [] ?l) with l. rewrite put_at, settle_len, filter_app, IH. rewrite filter_cons, filter_nil.
  destruct (decide _); [by rewrite last_snoc|]. by rewrite app_nil_r.
Qed.

Lemma settle_snoc ws l x : exists y, settle P ws (l ++ [x]) = settle P ws l ++ [y].
Proof.
  assert (Hlen : length (settle P ws (l ++ [x])) = (length l + 1)%nat).
  { pose proof (settle_len ws (l ++ [x])) as H. unfold len in H. rewrite length_app in H. cbn in H. lia. }
  destruct (lookup_lt_is_Some_2 (settle P ws (l ++ [x])) (length l)) as [y Hy]; [lia|]. exists y.
  pose proof (same_len _ _ (settle_len ws l)) as Hl.
  apply list_eq. intros i. destruct (decide (i < length l)%nat) as [Hi|Hi].
  - rewrite lookup_app_l by lia. rewrite !settle_at, lookup_app_l by done.
    erewrite list_filter_iff; [done|]. intros w. cbn. unfold len. rewrite length_app. cbn. lia.
  - destruct (decide (i = length l)) as [->|Hne].
    + rewrite Hy, lookup_app_r by lia. by rewrite Hl, Nat.sub_diag.
    + rewrite !lookup_ge_None_2; [done|rewrite length_app, Hl; cbn; lia|lia].
Qed.

(** A token is appended unknown and written later, or appended known. *)
Lemma settle_append ws l x t : P <= len l -> settle P (ws ++ [(len l, t)]) (l ++ [x]) = settle P ws l ++ [t].
Proof.
  intros Hl. rewrite settle_app. destruct (settle_snoc ws l x) as [y ->]. rewrite settle_cons. unfold settle at 1. cbn [foldl]. unfold put. cbn [fst snd].
  rewrite len_app, settle_len. cbn. destruct (Z.leb_spec P (len l)); [|lia].
  destruct (Z.ltb_spec (len l) (len l + len [y])) as [_|Hlt]; [|unfold len in Hlt; cbn in Hlt; lia]. cbn.
  rewrite insert_app_r_alt by (rewrite (same_len _ _ (settle_len ws l)); unfold len; lia).
  rewrite (same_len _ _ (settle_len ws l)). unfold len. by replace (Z.to_nat _ - _)%nat with 0%nat by lia.
Qed.

Lemma settle_take ws l n : settle P ws (take n l) = take n (settle P ws l).
Proof.
  revert l. induction ws as [|w ws IH]; intros l; [done|]. rewrite !settle_cons, <- IH. f_equal.
  apply list_eq. intros i. rewrite put_at. destruct (decide (i < n)%nat) as [Hi|Hi].
  - rewrite !lookup_take_lt, put_at by done. unfold len. rewrite length_take. repeat case_decide; try done; lia.
  - rewrite !(lookup_take_ge _ n) by lia. rewrite decide_False; [done|]. unfold len. rewrite length_take. lia.
Qed.

(** Nothing is written into a prompt. *)
Lemma settle_prompt ws l : P = len l -> settle P ws l = l.
Proof.
  intros Hl. induction ws as [|w ws IH]; [done|]. rewrite settle_cons. unfold put.
  destruct (Z.leb_spec P w.1); [|done]. by destruct (Z.ltb_spec w.1 (len l)); [lia|].
Qed.

(** The value before the writes does not matter where there is one. *)
Lemma settle_covered ws l i v : (exists t, (Z.of_nat i, t) ∈ ws) -> P <= Z.of_nat i ->
  settle P ws (<[i := v]> l) = settle P ws l.
Proof.
  intros [t Ht] Hi. apply list_eq. intros k. rewrite !settle_at. unfold len. rewrite length_insert. fold (len l).
  destruct (last (filter _ ws)) as [w|] eqn:E; [done|]. destruct (decide (i = k)) as [<-|Hne]; [|by rewrite list_lookup_insert_ne].
  apply last_None in E. destruct (decide (i < length l)%nat) as [Hlt|Hge].
  - exfalso. assert (Hin : (Z.of_nat i, t) ∈ filter (fun w => Z.of_nat i = w.1 /\ P <= w.1 < len l) ws).
    { apply list_elem_of_filter. split; [cbn; unfold len; lia|done]. }
    rewrite E in Hin. by apply not_elem_of_nil in Hin.
  - by rewrite list_insert_ge by lia.
Qed.
End settle.

(** ** The rows of the batch *)

(** The tokens of a request in the batch and the length of its prompt. *)
Definition view (b : InputBatch) (id : string) : option (list Z * Z) :=
  idx ← req_id_to_index b !! id;
  n ← at_ (num_tokens_no_spec b) idx;
  row ← at_ (token_ids_cpu b) idx;
  p ← at_ (num_prompt_tokens b) idx;
  Some (py_take n row, p).

(** Every request has a row of its own, of at least [width] places. *)
Record slots (width : Z) (b : InputBatch) : Prop := {
  sl_row : forall id i, req_id_to_index b !! id = Some i -> 0 <= i /\
    exists row n p, at_ (token_ids_cpu b) i = Some row /\ at_ (num_tokens_no_spec b) i = Some n /\
      at_ (num_prompt_tokens b) i = Some p /\ 0 <= n <= len row /\ width <= len row;
  sl_inj : forall id id' i, req_id_to_index b !! id = Some i -> req_id_to_index b !! id' = Some i -> id = id'
}.

(** Between the steps the ids are in row order. *)
Definition in_rows (b : InputBatch) : Prop :=
  NoDup (req_ids b) /\ forall id i, req_id_to_index b !! id = Some i <-> 0 <= i /\ at_ (req_ids b) i = Some id.

(** Two batches that differ in the tokens only. *)
Record same_shape (b b' : InputBatch) : Prop := {
  ss_ids : req_ids b = req_ids b';
  ss_index : req_id_to_index b = req_id_to_index b';
  ss_rows : length <$> token_ids_cpu b = length <$> token_ids_cpu b';
  ss_marks : is_token_ids b = is_token_ids b';
  ss_counts : num_tokens_no_spec b = num_tokens_no_spec b';
  ss_prompts : num_prompt_tokens b = num_prompt_tokens b';
  ss_computed : num_computed_tokens_cpu b = num_computed_tokens_cpu b';
  ss_builder : batch_update_builder b = batch_update_builder b'
}.

#[export] Instance same_shape_equiv : Equivalence same_shape.
Proof.
  split.
  - intros b. by split.
  - intros b b' []. by split.
  - intros b1 b2 b3 [] []. split; congruence.
Qed.

(** What the methods of [InputBatch] promise: where a request goes depends on the shape alone,
    and every request takes its tokens along. *)
Class BatchLaws `{BatchOps} (width : Z) := {
  remove_shape :: forall id, Proper (same_shape ==> same_shape) (remove_request id);
  append_shape :: forall blocks i, Proper (same_shape ==> same_shape) (append_row blocks i);
  spec_shape :: forall id sp, Proper (same_shape ==> same_shape) (update_req_spec_token_ids id sp);
  add_shape : forall id r r' b b' c, same_shape b b' -> prompt_token_ids r = prompt_token_ids r' ->
    len (output_token_ids r) = len (output_token_ids r') -> cached_block_ids r = cached_block_ids r' ->
    cached_num_computed r = cached_num_computed r' ->
    add_request id r b = Ok c -> exists c', add_request id r' b' = Ok c' /\ same_shape c c';
  close_shape :: Proper (same_shape ==> same_shape) (fun b => refresh_metadata (may_reorder_batch (condense b)));
  remove_view : forall b id, slots width b -> slots width (remove_request id b) /\
    forall id', view (remove_request id b) id' = if decide (id' = id) then None else view b id';
  append_view : forall b blocks i, slots width b -> slots width (append_row blocks i b) /\
    forall id, view (append_row blocks i b) id = view b id;
  spec_view : forall b id sp, slots width b -> slots width (update_req_spec_token_ids id sp b) /\
    forall id', view (update_req_spec_token_ids id sp b) id' = view b id';
  add_view : forall b id r b', slots width b -> req_id_to_index b !! id = None -> add_request id r b = Ok b' ->
    slots width b' /\ forall id', view b' id' =
      if decide (id' = id) then Some (prompt_token_ids r ++ output_token_ids r, num_prompt r) else view b id';
  close_view : forall b, slots width b -> let b' := refresh_metadata (may_reorder_batch (condense b)) in
    slots width b' /\ in_rows b' /\ forall id, view b' id = view b id;
  remove_prev : forall id b, prev_sampled_token_ids (remove_request id b) = prev_sampled_token_ids b /\
    prev_req_id_to_index (remove_request id b) = prev_req_id_to_index b;
  append_prev : forall blocks i b, prev_sampled_token_ids (append_row blocks i b) = prev_sampled_token_ids b /\
    prev_req_id_to_index (append_row blocks i b) = prev_req_id_to_index b;
  spec_prev : forall id sp b, prev_sampled_token_ids (update_req_spec_token_ids id sp b) = prev_sampled_token_ids b /\
    prev_req_id_to_index (update_req_spec_token_ids id sp b) = prev_req_id_to_index b;
  add_prev : forall id r b b', add_request id r b = Ok b' -> prev_sampled_token_ids b' = prev_sampled_token_ids b /\
    prev_req_id_to_index b' = prev_req_id_to_index b;
  close_prev : forall b, let b' := refresh_metadata (may_reorder_batch (condense b)) in
    prev_sampled_token_ids b' = prev_sampled_token_ids b /\ prev_req_id_to_index b' = prev_req_id_to_index b
}.

Section rows.
Context (width : Z).
Implicit Types b : InputBatch.

Lemma view_in b id : slots width b -> is_Some (view b id) <-> is_Some (req_id_to_index b !! id).
Proof.
  intros Sl. unfold view. split.
  - intros [v Hv]. destruct (req_id_to_index b !! id); [by eexists|done].
  - intros [i Hi]. destruct (sl_row _ _ Sl id i Hi) as (_ & row & n & p & Hr & Hn & Hp & _).
    rewrite Hi. cbn. rewrite Hn. cbn. rewrite Hr. cbn. rewrite Hp. by eexists.
Qed.

Lemma view_row b id i row n p : req_id_to_index b !! id = Some i -> at_ (token_ids_cpu b) i = Some row ->
  at_ (num_tokens_no_spec b) i = Some n -> at_ (num_prompt_tokens b) i = Some p -> view b id = Some (py_take n row, p).
Proof. intros Hi Hr Hn Hp. unfold view. rewrite Hi. cbn. rewrite Hn. cbn. rewrite Hr. cbn. by rewrite Hp. Qed.

(** The same shape, and what it carries over. *)
Lemma shape_view b b' id toks p : slots width b -> slots width b' -> same_shape b b' -> view b id = Some (toks, p) ->
  exists toks', view b' id = Some (toks', p) /\ len toks' = len toks.
Proof.
  intros Sl Sl' Sh Hv. destruct (proj1 (view_in b id Sl)) as [i Hi]; [by eexists|].
  destruct (sl_row _ _ Sl id i Hi) as (_ & row & n & q & Hr & Hn & Hp & Hb & _).
  rewrite (view_row _ _ _ _ _ _ Hi Hr Hn Hp) in Hv. injection Hv as <- <-.
  rewrite (ss_index _ _ Sh) in Hi. rewrite (ss_counts _ _ Sh) in Hn. rewrite (ss_prompts _ _ Sh) in Hp.
  destruct (sl_row _ _ Sl' id i Hi) as (_ & row' & n' & q' & Hr' & Hn' & Hp' & Hb' & _).
  rewrite Hn in Hn'. injection Hn' as <-. rewrite Hp in Hp'. injection Hp' as <-.
  exists (py_take n row'). split; [by apply (view_row _ _ i)|]. unfold py_take, len in *. rewrite !length_take. lia.
Qed.

Lemma shape_row b b' i row : same_shape b b' -> at_ (token_ids_cpu b) i = Some row ->
  exists row', at_ (token_ids_cpu b') i = Some row' /\ len row' = len row.
Proof.
  intros Sh Hr. pose proof (ss_rows _ _ Sh) as Hl.
  assert (Hk : at_ (length <$> token_ids_cpu b) i = Some (length row)) by (by rewrite list_lookup_fmap, Hr).
  rewrite Hl, list_lookup_fmap in Hk. destruct (at_ (token_ids_cpu b') i) as [row'|]; [|done]. cbn in Hk. injection Hk as Hk.
  exists row'. split; [done|]. unfold len. lia.
Qed.

(** Two writes of tokens of one length keep two batches of one shape. *)
Lemma write_tokens_shape i start ids ids' b b' c : same_shape b b' -> length ids = length ids' -> 0 <= i ->
  write_tokens i start ids b = Ok c -> exists c', write_tokens i start ids' b' = Ok c' /\ same_shape c c'.
Proof.
  intros Sh Hl Hi. unfold write_tokens, write_row. rewrite !py_nth_at by done.
  destruct (at_ (token_ids_cpu b) i) as [row|] eqn:Hr; [|done]. destruct (shape_row b b' i row Sh Hr) as (row' & -> & Hw).
  cbn [of_option mbind res_bind]. unfold write_slice. rewrite Hw. replace (len ids') with (len ids) by (unfold len; lia).
  assert (Hset : forall x x' : list Z, length x = length x' ->
    same_shape (with_rows (<[Z.to_nat i := x]> (token_ids_cpu b)) (is_token_ids b) b)
               (with_rows (<[Z.to_nat i := x']> (token_ids_cpu b')) (is_token_ids b') b')).
  { intros x x' Hx. destruct Sh. split; cbn; try done. rewrite !list_fmap_insert. by f_equal. }
  destruct (Z.leb_spec (start + len ids) (len row)).
  - cbn. intros [= <-]. eexists. split; [done|]. apply Hset. rewrite !length_app, !length_take, !length_drop.
    unfold len in Hw. lia.
  - destruct ids as [|x [|]], ids' as [|x' [|]]; try done. cbn. intros [= <-]. eexists. split; [done|]. apply Hset. unfold len in Hw. lia.
Qed.

Lemma set_num_tokens_shape i n b b' c : same_shape b b' -> set_num_tokens i n b = Ok c ->
  exists c', set_num_tokens i n b' = Ok c' /\ same_shape c c'.
Proof.
  intros Sh. unfold set_num_tokens, write_at. rewrite (ss_counts _ _ Sh).
  destruct (py_nth (num_tokens_no_spec b') i); [|done]. cbn. intros [= <-]. eexists. split; [done|].
  destruct Sh. by split; cbn; congruence.
Qed.

Lemma set_num_computed_shape i n b b' c : same_shape b b' -> set_num_computed i n b = Ok c ->
  exists c', set_num_computed i n b' = Ok c' /\ same_shape c c'.
Proof.
  intros Sh. unfold set_num_computed, write_at. rewrite (ss_computed _ _ Sh).
  destruct (py_nth (num_computed_tokens_cpu b') i); [|done]. cbn. intros [= <-]. eexists. split; [done|].
  destruct Sh. by split; cbn; congruence.
Qed.

Lemma mark_tokens_shape i start stop b b' c : same_shape b b' -> mark_tokens i start stop b = Ok c ->
  exists c', mark_tokens i start stop b' = Ok c' /\ same_shape c c'.
Proof.
  intros Sh. unfold mark_tokens. rewrite (ss_marks _ _ Sh). destruct (py_nth (is_token_ids b') i); [|done]. cbn.
  intros [= <-]. eexists. split; [done|]. destruct Sh. by split; cbn; congruence.
Qed.

Lemma len_py_take {A} n (l : list A) : 0 <= n <= len l -> len (py_take n l) = n.
Proof. intros Hn. unfold py_take, len in *. rewrite length_take. lia. Qed.

(** One row changes. *)
Lemma rows_view b marks i row row' : slots width b -> at_ (token_ids_cpu b) i = Some row -> len row' = len row -> 0 <= i ->
  let b' := with_rows (<[Z.to_nat i := row']> (token_ids_cpu b)) marks b in
  slots width b' /\ forall id, view b' id =
    if decide (req_id_to_index b !! id = Some i) then (fun v => (py_take (len v.1) row', v.2)) <$> view b id else view b id.
Proof.
  intros Sl Hr Hl Hi b'. pose proof (lookup_lt_Some _ _ _ Hr) as Hlt. split; [split|].
  - intros id k Hk. destruct (sl_row _ _ Sl id k Hk) as (H0 & row0 & n & p & Hr0 & Hn & Hp & Hb).
    split; [done|]. cbn. destruct (decide (k = i)) as [->|Hne].
    + rewrite Hr in Hr0. injection Hr0 as <-. exists row', n, p. rewrite list_lookup_insert_eq by done.
      split; [done|]. split; [done|]. split; [done|]. by rewrite Hl.
    + exists row0, n, p. rewrite list_lookup_insert_ne by lia. done.
  - intros id id' k. apply (sl_inj _ _ Sl).
  - intros id. destruct (req_id_to_index b !! id) as [k|] eqn:Hk.
    + destruct (sl_row _ _ Sl id k Hk) as (H0 & row0 & n & p & Hr0 & Hn & Hp & Hb1 & Hb2).
      rewrite (view_row _ _ _ _ _ _ Hk Hr0 Hn Hp). case_decide as Hd.
      * injection Hd as ->. rewrite Hr in Hr0. injection Hr0 as <-. cbn [fmap option_fmap option_map fst snd].
        rewrite (view_row b' id i row' n p); [|done|cbn; by rewrite list_lookup_insert_eq|done|done].
        by rewrite len_py_take.
      * apply (view_row b' id k); [done|cbn; rewrite list_lookup_insert_ne; [done|congruence || (intros ?; apply Hd; f_equal; lia)]|done|done].
    + unfold view at 1. cbn. rewrite Hk. rewrite decide_False by done. unfold view. by rewrite Hk.
Qed.

(** The number of tokens of one request changes. *)
Lemma counts_view b i computed m id0 row : slots width b -> req_id_to_index b !! id0 = Some i ->
  at_ (token_ids_cpu b) i = Some row -> 0 <= m <= len row ->
  let b' := with_counts (<[Z.to_nat i := m]> (num_tokens_no_spec b)) computed b in
  slots width b' /\ forall id, view b' id =
    if decide (id = id0) then (fun v => (py_take m row, v.2)) <$> view b id else view b id.
Proof.
  intros Sl Hi0 Hr Hm b'. split; [split|].
  - intros id k Hk. destruct (sl_row _ _ Sl id k Hk) as (H0 & row0 & n & p & Hr0 & Hn & Hp & Hb).
    split; [done|]. cbn. destruct (decide (k = i)) as [->|Hne].
    + exists row0, m, p. rewrite Hr0 in Hr. injection Hr as ->. split; [done|]. split; [|by destruct Hb].
      apply list_lookup_insert_eq. apply (lookup_lt_Some _ _ _ Hn).
    + exists row0, n, p. split; [done|]. split; [|done].
      destruct (sl_row _ _ Sl id0 i Hi0) as [Hi _]. rewrite list_lookup_insert_ne by lia. done.
  - intros id id' k. apply (sl_inj _ _ Sl).
  - intros id. destruct (req_id_to_index b !! id) as [k|] eqn:Hk.
    + destruct (sl_row _ _ Sl id k Hk) as (H0 & row0 & n & p & Hr0 & Hn & Hp & Hb1 & Hb2).
      rewrite (view_row _ _ _ _ _ _ Hk Hr0 Hn Hp). case_decide as Hd.
      * subst id. rewrite Hi0 in Hk. injection Hk as <-. rewrite Hr in Hr0. injection Hr0 as <-. cbn.
        apply (view_row b' id0 i); [done|done| |done]. cbn. apply list_lookup_insert_eq, (lookup_lt_Some _ _ _ Hn).
      * apply (view_row b' id k); [done|done| |done]. cbn. destruct (sl_row _ _ Sl id0 i Hi0) as [Hi _].
        rewrite list_lookup_insert_ne; [done|]. intros He. apply Hd, (sl_inj _ _ Sl _ _ k); [done|].
        rewrite Hi0. f_equal. lia.
    + unfold view at 1. cbn. rewrite Hk. case_decide; [congruence|]. unfold view. by rewrite Hk.
Qed.

Lemma marks_view b marks : slots width b -> let b' := with_rows (token_ids_cpu b) marks b in
  slots width b' /\ forall id, view b' id = view b id.
Proof. intros []. by split. Qed.

Lemma computed_view b computed : slots width b -> let b' := with_counts (num_tokens_no_spec b) computed b in
  slots width b' /\ forall id, view b' id = view b id.
Proof. intros []. by split. Qed.

(** ** What the operations do to the tokens *)

(** A write-back of one token. *)
Lemma put_view b id i start t toks p : slots width b -> req_id_to_index b !! id = Some i ->
  view b id = Some (toks, p) -> 0 <= start < len toks -> 0 <= p <= start ->
  exists b', write_tokens i start [t] b = Ok b' /\ slots width b' /\ same_shape b b' /\
    forall id', view b' id' = if decide (id' = id) then Some (put p (start, t) toks, p) else view b id'.
Proof.
  intros Sl Hi Hv Hs Hp. destruct (sl_row _ _ Sl id i Hi) as (H0 & row & n & q & Hr & Hn & Hq & Hb & Hw).
  rewrite (view_row _ _ _ _ _ _ Hi Hr Hn Hq) in Hv. injection Hv as <- <-.
  assert (Hlen : len (py_take n row) = n) by (by apply len_py_take).
  unfold write_tokens, write_row. rewrite py_nth_at, Hr by done. cbn [of_option mbind res_bind].
  unfold write_slice. change (len [t]) with 1. destruct (Z.leb_spec (start + 1) (len row)); [|lia]. cbn [mbind res_bind].
  set (row' := take (Z.to_nat start) row ++ [t] ++ drop (Z.to_nat (start + 1)) row).
  assert (Hrow : row' = <[Z.to_nat start := t]> row).
  { unfold row'. rewrite insert_take_drop by (unfold len in *; lia). by replace (Z.to_nat (start + 1)) with (Datatypes.S (Z.to_nat start)) by lia. }
  assert (Hl : len row' = len row) by (rewrite Hrow; unfold len; by rewrite length_insert).
  destruct (rows_view b (is_token_ids b) i row row' Sl Hr Hl H0) as [Sl' Hv]. eexists. split; [done|]. split; [done|]. split.
  - split; cbn; try done. rewrite list_fmap_insert. symmetry. apply list_insert_id. rewrite list_lookup_fmap, Hr. cbn.
    f_equal. unfold len in Hl. lia.
  - intros id'. rewrite Hv. destruct (decide (id' = id)) as [->|Hne].
    + rewrite decide_True by done. rewrite (view_row _ _ _ _ _ _ Hi Hr Hn Hq). cbn [fmap option_fmap option_map fst snd].
      rewrite Hlen, Hrow. do 2 f_equal. unfold put. cbn [fst snd]. rewrite Hlen.
      destruct (Z.leb_spec q start); [|lia]. destruct (Z.ltb_spec start n); [|lia]. cbn. unfold py_take.
      apply take_insert_lt. lia.
    + rewrite decide_False; [done|]. intros He. apply Hne, (sl_inj _ _ Sl _ _ i); done.
Qed.
End rows.

(** ** What a write-back settles *)
Definition full (r : CachedRequestState) : list Z := prompt_token_ids r ++ output_token_ids r.

Definition settle_req (ws : list (Z * Z)) (r : CachedRequestState) : CachedRequestState :=
  with_output (drop (length (prompt_token_ids r)) (settle (num_prompt r) ws (full r))) r.

Lemma len_full r : len (full r) = cached_num_tokens r.
Proof. unfold full, cached_num_tokens, num_prompt. apply len_app. Qed.

Lemma full_settle_req ws r : full (settle_req ws r) = settle (num_prompt r) ws (full r).
Proof.
  unfold full at 1, settle_req. cbn. rewrite <- (take_drop (length (prompt_token_ids r)) (settle _ _ _)) at 2. f_equal.
  rewrite <- settle_take by apply len_nonneg. unfold full. rewrite take_app_length. by rewrite settle_prompt.
Qed.

Lemma settle_req_nil r : settle_req [] r = r.
Proof. destruct r. unfold settle_req, full, with_output. cbn. by rewrite drop_app_length. Qed.

Lemma settle_req_app ws ws' r : settle_req (ws ++ ws') r = settle_req ws' (settle_req ws r).
Proof.
  unfold settle_req at 1 2. rewrite full_settle_req. unfold with_output. cbn. f_equal.
  unfold num_prompt. cbn. by rewrite settle_app.
Qed.

Lemma put_full r start t : num_prompt r <= start < cached_num_tokens r ->
  with_output (splice (start - num_prompt r) [t] (output_token_ids r)) r = settle_req [(start, t)] r.
Proof.
  intros Hs. unfold settle_req, settle. cbn. unfold put. cbn [fst snd]. rewrite len_full.
  destruct (Z.leb_spec (num_prompt r) start); [|lia]. destruct (Z.ltb_spec start (cached_num_tokens r)); [|lia]. cbn.
  f_equal. unfold full, splice, num_prompt, cached_num_tokens, len in *.
  rewrite insert_app_r_alt by (unfold num_prompt, len in *; lia). rewrite drop_app_length.
  rewrite insert_take_drop by (unfold num_prompt, len in *; lia). cbn. f_equal; [f_equal; lia|]. f_equal. f_equal. lia.
Qed.

(** Every row belongs to a cached request and has as many tokens. *)
Definition backed (s : Runner) : Prop :=
  forall id toks p, view (input_batch s) id = Some (toks, p) ->
    exists r, requests s !! id = Some r /\ p = num_prompt r /\ len toks = cached_num_tokens r.

Definition settle_view (ws : list (Z * Z)) (v : list Z * Z) : list Z * Z := (settle v.2 ws v.1, v.2).

Record settles (width : Z) (ws : string -> list (Z * Z)) (s s' : Runner) : Prop := {
  se_slots : slots width (input_batch s');
  se_backed : backed s';
  se_shape : same_shape (input_batch s) (input_batch s');
  se_requests : forall id, requests s' !! id = settle_req (ws id) <$> requests s !! id;
  se_view : forall id, view (input_batch s') id = settle_view (ws id) <$> view (input_batch s) id;
  se_mask : discard_request_mask s' = discard_request_mask s;
  se_pending : _pending_token_writeback s' = _pending_token_writeback s;
  se_prev : prev_sampled_token_ids (input_batch s') = prev_sampled_token_ids (input_batch s) /\
    prev_req_id_to_index (input_batch s') = prev_req_id_to_index (input_batch s)
}.

Section writeback.
Context (width : Z).
Implicit Types s : Runner.

Lemma settles_id ws s : slots width (input_batch s) -> backed s -> (forall id, ws id = []) -> settles width ws s s.
Proof.
  intros Sl Bk Hw. split; try done.
  - intros id. rewrite Hw. destruct (requests s !! id); [|done]. cbn. by rewrite settle_req_nil.
  - intros id. rewrite Hw. by destruct (view (input_batch s) id) as [[]|].
Qed.

Lemma settles_trans ws ws' s s' s'' : settles width ws s s' -> settles width ws' s' s'' ->
  settles width (fun id => ws id ++ ws' id) s s''.
Proof.
  intros A B. split; try apply B.
  - etrans; [apply A|apply B].
  - intros id. rewrite (se_requests _ _ _ _ B), (se_requests _ _ _ _ A). destruct (requests s !! id); [|done].
    cbn. by rewrite settle_req_app.
  - intros id. rewrite (se_view _ _ _ _ B), (se_view _ _ _ _ A). destruct (view (input_batch s) id) as [[]|]; [|done].
    cbn. unfold settle_view. cbn. by rewrite settle_app.
  - etrans; [apply B|apply A].
  - etrans; [apply B|apply A].
  - destruct (se_prev _ _ _ _ A), (se_prev _ _ _ _ B). split; congruence.
Qed.

Lemma settles_ext ws ws' s s' : (forall id, ws id = ws' id) -> settles width ws s s' -> settles width ws' s s'.
Proof. intros Hw []. split; try done; intros id; rewrite <- Hw; auto. Qed.

(** The write of one request of one entry. *)
Definition write1 (w : Writeback) (i : Z) (id : string) : list (Z * Z) :=
  match w_tokens w !! Z.to_nat i, od_get id (w_pos w) with
  | Some (t :: _), Some start => [(start, t)]
  | _, _ => []
  end.

Definition only (id : string) (ws : list (Z * Z)) (id' : string) : list (Z * Z) := if decide (id' = id) then ws else [].

(** A write outside of a request's tokens does nothing. *)
Lemma settles_outside s id r start t : slots width (input_batch s) -> backed s ->
  requests s !! id = Some r -> ~ (num_prompt r <= start < cached_num_tokens r) ->
  settles width (only id [(start, t)]) s s.
Proof.
  intros Sl Bk Hr Hn.
  assert (Hput : forall l, len l = cached_num_tokens r -> settle (num_prompt r) [(start, t)] l = l).
  { intros l Hl. unfold settle. cbn. unfold put. cbn [fst snd]. rewrite Hl.
    destruct (Z.leb_spec (num_prompt r) start); [|done]. by destruct (Z.ltb_spec start (cached_num_tokens r)); [lia|]. }
  split; try done; intros id'; unfold only; case_decide as Hd; subst.
  - rewrite Hr. cbn. f_equal. unfold settle_req. rewrite Hput by apply len_full. unfold full. rewrite drop_app_length. by destruct r.
  - destruct (requests s !! id'); [|done]. cbn. by rewrite settle_req_nil.
  - destruct (view (input_batch s) id) as [[toks p]|] eqn:Hv; [|done]. destruct (Bk _ _ _ Hv) as (r' & Hr' & -> & Hl).
    rewrite Hr in Hr'. injection Hr' as <-. cbn [fmap option_fmap option_map]. unfold settle_view. cbn [fst snd].
    by rewrite Hput.
  - by destruct (view (input_batch s) id') as [[]|].
Qed.

Lemma settles_write s id r start t b' : slots width (input_batch s) -> backed s ->
  requests s !! id = Some r -> num_prompt r <= start < cached_num_tokens r ->
  slots width b' -> same_shape (input_batch s) b' ->
  (forall id', view b' id' = settle_view (only id [(start, t)] id') <$> view (input_batch s) id') ->
  prev_sampled_token_ids b' = prev_sampled_token_ids (input_batch s) /\
    prev_req_id_to_index b' = prev_req_id_to_index (input_batch s) ->
  settles width (only id [(start, t)]) s
    (with_batch b' (with_requests (<[id := settle_req [(start, t)] r]> (requests s)) s)).
Proof.
  intros Sl Bk Hr Hs Sl' Sh Hv Hp. split; try done.
  - intros id' toks p. cbn. rewrite Hv. intros Hview.
    destruct (view (input_batch s) id') as [[toks0 p0]|] eqn:Hv0; [|done].
    cbn [fmap option_fmap option_map settle_view fst snd] in Hview. injection Hview as <- <-.
    destruct (Bk _ _ _ Hv0) as (r0 & Hr0 & Hp0 & Hl0). rewrite settle_len. destruct (decide (id' = id)) as [->|Hne].
    + rewrite lookup_insert_eq. eexists. split; [done|]. rewrite Hr in Hr0. injection Hr0 as ->. split; [done|].
      rewrite Hl0, <- !len_full, full_settle_req, settle_len. done.
    + rewrite lookup_insert_ne by done. by eexists.
  - intros id'. cbn. unfold only. case_decide as Hd; subst.
    + by rewrite lookup_insert_eq, Hr.
    + rewrite lookup_insert_ne by done. destruct (requests s !! id'); [|done]. cbn. by rewrite settle_req_nil.
Qed.

Lemma write_in_range s id r start t : slots width (input_batch s) -> backed s ->
  requests s !! id = Some r -> num_prompt r <= start < cached_num_tokens r -> exists s',
  (let s' := with_requests (<[id := settle_req [(start, t)] r]> (requests s)) s in
   match req_id_to_index (input_batch s) !! id with
   | None => Ok s'
   | Some idx => b ← write_tokens idx start [t] (input_batch s'); Ok (with_batch b s')
   end) = Ok s' /\ settles width (only id [(start, t)]) s s'.
Proof.
  intros Sl Bk Hr Hs. cbn zeta. destruct (req_id_to_index (input_batch s) !! id) as [idx|] eqn:Hi.
  - destruct (proj2 (view_in width _ id Sl)) as [[toks p] Hv]; [by eexists|].
    destruct (Bk _ _ _ Hv) as (r' & Hr' & -> & Hl). rewrite Hr in Hr'. injection Hr' as <-.
    pose proof (len_nonneg (prompt_token_ids r)). unfold num_prompt in *.
    destruct (put_view width _ id idx start t toks _ Sl Hi Hv) as (b' & Hb & Sl' & Sh & Hview); [lia|lia|].
    cbn [input_batch with_requests]. rewrite Hb. cbn [mbind res_bind]. eexists. split; [done|]. apply settles_write; try done.
    + intros id'. rewrite Hview. unfold only. case_decide as Hd; subst; [by rewrite Hv|].
      by destruct (view (input_batch s) id') as [[]|].
    + unfold write_tokens in Hb. destruct (write_row _ _ _ _); [|done]. cbn in Hb. by injection Hb as <-.
  - eexists. split; [done|]. change (with_requests ?rs s) with (with_batch (input_batch s) (with_requests rs s)).
    apply settles_write; try done. intros id'. unfold only. case_decide as Hd; subst.
    + unfold view. rewrite Hi. done.
    + by destruct (view (input_batch s) id') as [[]|].
Qed.

Lemma write_back_one w s i id : slots width (input_batch s) -> backed s ->
  Forall (fun ts => (length ts <= 1)%nat) (w_tokens w) ->
  exists s', write_back w s (i, id) = Ok s' /\ settles width (only id (write1 w i id)) s s'.
Proof.
  intros Sl Bk Hw. unfold write_back, write1.
  assert (Hskip : exists s', Ok s = Ok s' /\ settles width (only id []) s s').
  { exists s. split; [done|]. apply settles_id; try done. intros id'. unfold only. by case_decide. }
  destruct (w_tokens w !! Z.to_nat i) as [[|t ts]|] eqn:Ht; [done| |done].
  destruct (od_get id (w_pos w)) as [start|]; [|done].
  rewrite Forall_forall in Hw. pose proof (Hw _ (list_elem_of_lookup_2 _ _ _ Ht)) as Hl. destruct ts; [|cbn in Hl; lia].
  destruct (requests s !! id) as [r|] eqn:Hr.
  2:{ exists s. split; [done|]. split; try done; intros id'; unfold only; case_decide as Hd; subst.
      - by rewrite Hr.
      - destruct (requests s !! id'); [|done]. cbn. by rewrite settle_req_nil.
      - destruct (view (input_batch s) id) as [[toks p]|] eqn:Hv; [|done]. destruct (Bk _ _ _ Hv) as (r' & Hr' & _). congruence.
      - by destruct (view (input_batch s) id') as [[]|]. }
  change (len [t]) with 1.
  destruct (Z.leb_spec 0 (start - num_prompt r)) as [H0|H0]; cbn [andb].
  2:{ exists s. split; [done|]. apply (settles_outside s id r); try done. lia. }
  destruct (Z.leb_spec (start - num_prompt r) (len (output_token_ids r) - 1)) as [H1|H1].
  2:{ exists s. split; [done|]. apply (settles_outside s id r); try done. unfold cached_num_tokens. lia. }
  assert (Hin : num_prompt r <= start < cached_num_tokens r) by (unfold cached_num_tokens; lia).
  rewrite put_full by done.
  by apply write_in_range.
Qed.

Definition entry_ok (w : Writeback) : Prop := Forall (fun ts => (length ts <= 1)%nat) (w_tokens w).

Definition writes_at (w : Writeback) (l : list (Z * string)) (id : string) : list (Z * Z) :=
  l ≫= fun ii => only ii.2 (write1 w ii.1 ii.2) id.
Definition writes (w : Writeback) : string -> list (Z * Z) :=
  writes_at w (zip (py_range (len (w_req_ids w))) (w_req_ids w)).
Definition all_writes (l : list Writeback) (id : string) : list (Z * Z) := l ≫= fun w => writes w id.

Lemma write_back_list w l s : slots width (input_batch s) -> backed s -> entry_ok w ->
  exists s', foldM (write_back w) s l = Ok s' /\ settles width (writes_at w l) s s'.
Proof.
  intros Sl Bk Hw. revert s Sl Bk. induction l as [|[i id] l IH]; intros s Sl Bk.
  - exists s. split; [done|]. by apply settles_id.
  - cbn [foldM]. destruct (write_back_one w s i id Sl Bk Hw) as (s1 & -> & S1). cbn [mbind res_bind].
    destruct (IH s1 (se_slots _ _ _ _ S1) (se_backed _ _ _ _ S1)) as (s2 & -> & S2). exists s2. split; [done|].
    apply (settles_trans _ _ _ _ _ S1 S2).
Qed.

Lemma no_pos_no_writes w l id : w_pos w = [] -> writes_at w l id = [].
Proof.
  intros Hp. unfold writes_at. induction l as [|[i id'] l IH]; [done|]. cbn. rewrite IH, app_nil_r.
  unfold only, write1. rewrite Hp. case_decide; [|done]. by destruct (w_tokens w !! Z.to_nat i) as [[|]|].
Qed.

Lemma write_back_entries l s : slots width (input_batch s) -> backed s -> Forall entry_ok l ->
  exists s', foldM write_back_entry s l = Ok s' /\ settles width (all_writes l) s s'.
Proof.
  intros Sl Bk Hl. revert s Sl Bk. induction Hl as [|w l Hw Hl IH]; intros s Sl Bk.
  - exists s. split; [done|]. by apply settles_id.
  - cbn [foldM]. assert (H1 : exists s', write_back_entry s w = Ok s' /\ settles width (writes w) s s').
    { unfold write_back_entry. case_bool_decide as Hp; [|by apply write_back_list].
      exists s. split; [done|]. apply settles_id; try done. intros id. by apply no_pos_no_writes. }
    destruct H1 as (s1 & -> & S1). cbn [mbind res_bind].
    destruct (IH s1 (se_slots _ _ _ _ S1) (se_backed _ _ _ _ S1)) as (s2 & -> & S2). exists s2. split; [done|].
    apply (settles_trans _ _ _ _ _ S1 S2).
Qed.

Lemma apply_pending_ok s : slots width (input_batch s) -> backed s -> Forall entry_ok (_pending_token_writeback s) ->
  exists s', _apply_pending_token_writeback s = Ok s' /\ _pending_token_writeback s' = [] /\
    settles width (all_writes (_pending_token_writeback s)) (with_pending [] s) s'.
Proof.
  intros Sl Bk Hl. unfold _apply_pending_token_writeback.
  destruct (write_back_entries (_pending_token_writeback s) (with_pending [] s) Sl Bk Hl) as (s' & -> & S').
  exists s'. split; [done|]. split; [|done]. apply S'.
Qed.
End writeback.
