(* ===== verification/RunnerTokensSim.v ===== *)
(** * Model runner: asynchronous scheduling follows the synchronous run *)
From S2P Require Import Prelude CoreUtils KvLayout RunnerTokens RunnerTokensSpec.

(** ** The relation

    [ws] are the writes outstanding for a request: queued, or still on the device.  Settled,
    the tokens of the asynchronous runner are those of the synchronous one. *)
Record agrees (ws : list (Z * Z)) (r r' : CachedRequestState) : Prop := {
  ag_prompt : prompt_token_ids r = prompt_token_ids r';
  ag_blocks : cached_block_ids r = cached_block_ids r';
  ag_computed : cached_num_computed r = cached_num_computed r';
  ag_full : settle (num_prompt r) ws (full r) = full r'
}.

(** Every placeholder among the outputs will be written. *)
Definition covered (ws : list (Z * Z)) (r : CachedRequestState) : Prop :=
  forall k, output_token_ids r !! k = Some (-1) -> exists t, (num_prompt r + Z.of_nat k, t) ∈ ws.

(** One request on both sides, and its rows if it is in the batch. *)
Inductive request_sim (ws : list (Z * Z)) :
    option CachedRequestState -> option CachedRequestState -> option (list Z * Z) -> option (list Z * Z) -> Prop :=
  | sim_absent : request_sim ws None None None None
  | sim_cached r r' : agrees ws r r' -> covered ws r -> request_sim ws (Some r) (Some r') None None
  | sim_batched r r' toks : agrees ws r r' -> covered ws r -> len toks = cached_num_tokens r ->
      settle (num_prompt r) ws toks = full r' ->
      request_sim ws (Some r) (Some r') (Some (toks, num_prompt r)) (Some (full r', num_prompt r')).

Record sim (width : Z) (ws : string -> list (Z * Z)) (s t : Runner) : Prop := {
  si_shape : same_shape (input_batch s) (input_batch t);
  si_slots : slots width (input_batch s);
  si_slots' : slots width (input_batch t);
  si_mask : discard_request_mask s = discard_request_mask t;
  si_known : forall id w, w ∈ ws id -> w.2 <> -1;
  si_at : forall id, request_sim (ws id) (requests s !! id) (requests t !! id)
    (view (input_batch s) id) (view (input_batch t) id)
}.

Lemma agrees_prompt ws r r' : agrees ws r r' -> num_prompt r = num_prompt r'.
Proof. intros A. unfold num_prompt. by rewrite (ag_prompt _ _ _ A). Qed.

Lemma agrees_len ws r r' : agrees ws r r' -> len (output_token_ids r) = len (output_token_ids r').
Proof.
  intros A. pose proof (f_equal len (ag_full _ _ _ A)) as H. rewrite settle_len, !len_full in H.
  unfold cached_num_tokens in H. rewrite (agrees_prompt _ _ _ A) in H. lia.
Qed.

Lemma sim_backed width ws s t : sim width ws s t -> backed s.
Proof.
  intros S id toks p Hv. pose proof (si_at _ _ _ _ S id) as R. rewrite Hv in R. inversion R; subst. by eexists.
Qed.

(** Settling a part of the writes leaves the rest outstanding. *)
Section settling.
Context (width : Z).

Lemma agrees_settle ws ws' r r' : agrees (ws ++ ws') r r' -> agrees ws' (settle_req ws r) r'.
Proof.
  intros A. split; try apply A. change (num_prompt (settle_req ws r)) with (num_prompt r).
  rewrite full_settle_req, <- settle_app. apply A.
Qed.

Lemma output_settle_req ws r k : output_token_ids (settle_req ws r) !! k =
  settle (num_prompt r) ws (full r) !! (length (prompt_token_ids r) + k)%nat.
Proof. unfold settle_req. cbn. by rewrite lookup_drop. Qed.

Lemma covered_settle ws ws' r : (forall w, w ∈ ws -> w.2 <> -1) -> covered (ws ++ ws') r -> covered ws' (settle_req ws r).
Proof.
  intros Hk C k. rewrite output_settle_req, settle_at by apply len_nonneg.
  destruct (last (filter _ ws)) as [w|] eqn:E.
  - intros [= Hw]. apply last_Some_elem_of, list_elem_of_filter in E as [_ Hin]. by apply Hk in Hin.
  - unfold full. rewrite lookup_app_r by lia. replace (_ + k - _)%nat with k by lia. intros Ho.
    destruct (C k Ho) as [t [Ht|Ht]%elem_of_app]; [|by exists t]. exfalso. apply last_None in E.
    apply (not_elem_of_nil (A := Z * Z) (num_prompt r + Z.of_nat k, t)). rewrite <- E. apply list_elem_of_filter. cbn.
    split; [|done]. pose proof (lookup_lt_Some _ _ _ Ho). rewrite len_full.
    unfold cached_num_tokens, num_prompt, len in *. lia.
Qed.

Lemma sim_settles ws ws' s s' t : sim width (fun id => ws id ++ ws' id) s t -> settles width ws s s' -> sim width ws' s' t.
Proof.
  intros S E. split; try apply S.
  - etrans; [symmetry; apply (se_shape _ _ _ _ E)|apply S].
  - apply E.
  - rewrite (se_mask _ _ _ _ E). apply S.
  - intros id w Hw. apply (si_known _ _ _ _ S id). set_solver.
  - intros id. rewrite (se_requests _ _ _ _ E), (se_view _ _ _ _ E). pose proof (si_at _ _ _ _ S id) as R.
    assert (Hk : forall w, w ∈ ws id -> w.2 <> -1) by (intros w Hw; apply (si_known _ _ _ _ S id); set_solver).
    inversion R as [|r r' A C|r r' toks A C Hl Hs]; subst; cbn [fmap option_fmap option_map].
    + constructor.
    + constructor; [by apply agrees_settle|by apply covered_settle].
    + apply (sim_batched _ (settle_req (ws id) r)).
      * by apply agrees_settle.
      * by apply covered_settle.
      * cbn [settle_view fst snd]. by rewrite settle_len, Hl, <- !len_full, full_settle_req, settle_len.
      * cbn [settle_view fst snd]. by rewrite settle_app in Hs.
Qed.
End settling.

(** ** [_update_states] on both sides *)

(** What a step leaves alone until it samples. *)
Record kept (s s' : Runner) : Prop := {
  kp_pending : _pending_token_writeback s' = _pending_token_writeback s;
  kp_sampled : prev_sampled_token_ids (input_batch s') = prev_sampled_token_ids (input_batch s);
  kp_index : prev_req_id_to_index (input_batch s') = prev_req_id_to_index (input_batch s)
}.

#[export] Instance kept_preorder : PreOrder kept.
Proof. split; [by split|]. intros s1 s2 s3 [] []. split; congruence. Qed.

Section update.
Context `{BatchLaws width}.
Implicit Types s t : Runner.

(** One request changes, on both sides. *)
Lemma sim_change ws ws' s t s' t' id : sim width ws s t ->
  same_shape (input_batch s') (input_batch t') -> slots width (input_batch s') -> slots width (input_batch t') ->
  discard_request_mask s' = discard_request_mask s -> discard_request_mask t' = discard_request_mask t ->
  (forall w, w ∈ ws' id -> w.2 <> -1) ->
  (forall id', id' <> id -> ws' id' = ws id' /\
     requests s' !! id' = requests s !! id' /\ requests t' !! id' = requests t !! id' /\
     view (input_batch s') id' = view (input_batch s) id' /\ view (input_batch t') id' = view (input_batch t) id') ->
  request_sim (ws' id) (requests s' !! id) (requests t' !! id) (view (input_batch s') id) (view (input_batch t') id) ->
  sim width ws' s' t'.
Proof.
  intros S Sh Sl Sl' Hm Hm' Hk Ho Hid. split; try done.
  - rewrite Hm, Hm'. apply S.
  - intros id' w Hw. destruct (decide (id' = id)) as [->|Hne]; [by apply Hk|]. destruct (Ho id' Hne) as (Hws & _).
    rewrite Hws in Hw. by apply (si_known _ _ _ _ S id').
  - intros id'. destruct (decide (id' = id)) as [->|Hne]; [done|].
    destruct (Ho id' Hne) as (-> & -> & -> & -> & ->). apply S.
Qed.

Lemma remove_many ids b : slots width b ->
  let b' := foldl (fun b id => remove_request id b) b ids in
  slots width b' /\ (forall id, view b' id = if decide (id ∈ ids) then None else view b id) /\
  prev_sampled_token_ids b' = prev_sampled_token_ids b /\ prev_req_id_to_index b' = prev_req_id_to_index b.
Proof.
  revert b. induction ids as [|i ids IH]; intros b Sl; [done|]. cbn [foldl].
  destruct (remove_view b i Sl) as [Sl1 Hv1]. destruct (remove_prev (width := width) i b) as [Hp1 Hp2].
  destruct (IH _ Sl1) as (Sl2 & Hv2 & Hq1 & Hq2). split; [done|]. split; [|split; congruence].
  intros id. rewrite Hv2, Hv1. repeat case_decide; set_solver.
Qed.

Lemma remove_many_shape ids b b' : same_shape b b' ->
  same_shape (foldl (fun b id => remove_request id b) b ids) (foldl (fun b id => remove_request id b) b' ids).
Proof. revert b b'. induction ids as [|i ids IH]; intros b b' Hb; [done|]. cbn. apply IH. by apply remove_shape. Qed.

Lemma delete_many {A} ids (m : gmap string A) id :
  foldl (fun rs id => delete id rs) m ids !! id = if decide (id ∈ ids) then None else m !! id.
Proof.
  revert m. induction ids as [|i ids IH]; intros m; [done|]. cbn [foldl]. rewrite IH.
  destruct (decide (id ∈ ids)); [by rewrite decide_True by set_solver|].
  destruct (decide (id = i)) as [->|Hne].
  - rewrite decide_True by set_solver. apply lookup_delete_eq.
  - rewrite decide_False by set_solver. by apply lookup_delete_ne.
Qed.

(** Requests leave the batch, and with [gone] the runner. *)
Lemma sim_drop ws s t s' t' ids gone : sim width ws s t ->
  input_batch s' = foldl (fun b id => remove_request id b) (input_batch s) ids ->
  input_batch t' = foldl (fun b id => remove_request id b) (input_batch t) ids ->
  requests s' = foldl (fun rs id => delete id rs) (requests s) gone ->
  requests t' = foldl (fun rs id => delete id rs) (requests t) gone -> gone ⊆ ids ->
  discard_request_mask s' = discard_request_mask s -> discard_request_mask t' = discard_request_mask t ->
  sim width ws s' t'.
Proof.
  intros S Hs Ht Hrs Hrt Hg Hm Hm'.
  destruct (remove_many ids _ (si_slots _ _ _ _ S)) as (Sl & Hv & _).
  destruct (remove_many ids _ (si_slots' _ _ _ _ S)) as (Sl' & Hv' & _). rewrite <- Hs in Sl, Hv. rewrite <- Ht in Sl', Hv'.
  split; try done.
  - rewrite Hs, Ht. apply remove_many_shape, S.
  - rewrite Hm, Hm'. apply S.
  - apply S.
  - intros id. rewrite Hrs, Hrt, !delete_many, Hv, Hv'. pose proof (si_at _ _ _ _ S id) as R.
    destruct (decide (id ∈ gone)); [rewrite !decide_True by set_solver; constructor|].
    destruct (decide (id ∈ ids)); [|done]. destruct R; by constructor.
Qed.

(** A request starts, or a streaming session takes a new turn. *)
Lemma sim_new ws s t n : sim width ws s t -> sim width ws (new_request n s) (new_request n t) /\ kept s (new_request n s) /\
  view (input_batch (new_request n s)) (new_req_id n) = None.
Proof.
  intros S. set (r := {| prompt_token_ids := new_prompt n; output_token_ids := [];
    cached_block_ids := new_req_blocks n; cached_num_computed := new_num_computed n |}).
  assert (Hfresh : agrees (ws (new_req_id n)) r r).
  { split; try done. apply settle_prompt. unfold full, r, num_prompt. cbn. by rewrite app_nil_r. }
  assert (Hcov : covered (ws (new_req_id n)) r) by (intros k Hk; done).
  unfold new_request. pose proof (si_at _ _ _ _ S (new_req_id n)) as R.
  destruct (requests s !! new_req_id n) as [r0|] eqn:Hs.
  - destruct (requests t !! new_req_id n) as [r1|] eqn:Ht; [|inversion R].
    set (ids := [new_req_id n]). destruct (remove_many ids _ (si_slots _ _ _ _ S)) as (Sl & Hv & Hp1 & Hp2).
    destruct (remove_many ids _ (si_slots' _ _ _ _ S)) as (Sl' & Hv' & _).
    split; [|split; [by split|etrans; [apply (Hv (new_req_id n))|by rewrite decide_True by set_solver]]].
    eapply (sim_change ws ws _ _ _ _ (new_req_id n) S); try done.
    + cbn. apply (remove_many_shape ids), S.
    + apply S.
    + intros id' Hne. cbn [requests with_requests _update_streaming_request]. rewrite !lookup_insert_ne by done.
      split; [done|]. split; [done|]. split; [done|].
      split; (etrans; [apply Hv || apply Hv'|by rewrite decide_False by set_solver]).
    + cbn [requests with_requests _update_streaming_request]. rewrite !lookup_insert_eq.
      assert (Hn : forall b, (forall id, view (foldl (fun b id => remove_request id b) b ids) id =
        if decide (id ∈ ids) then None else view b id) ->
        view (remove_request (new_req_id n) b) (new_req_id n) = None).
      { intros b Hb. etrans; [apply (Hb (new_req_id n))|by rewrite decide_True by set_solver]. }
      cbn [input_batch with_requests with_batch _update_streaming_request]. rewrite (Hn _ Hv), (Hn _ Hv'). by constructor.
  - destruct (requests t !! new_req_id n) as [r1|] eqn:Ht; [inversion R|].
    assert (Hv : view (input_batch s) (new_req_id n) = None) by (by inversion R).
    assert (Hv' : view (input_batch t) (new_req_id n) = None) by (by inversion R).
    split; [|split; [by split|done]].
    eapply (sim_change ws ws _ _ _ _ (new_req_id n) S); try apply S; try done.
    + intros id' Hne. cbn. by rewrite !lookup_insert_ne by done.
    + cbn. rewrite !lookup_insert_eq, Hv, Hv'. by constructor.
Qed.

(** *** Running and resumed requests *)
Lemma set_num_tokens_view b id i m toks p b' : slots width b -> req_id_to_index b !! id = Some i ->
  view b id = Some (toks, p) -> 0 <= m <= len toks -> set_num_tokens i m b = Ok b' ->
  slots width b' /\ (forall id', view b' id' = if decide (id' = id) then Some (py_take m toks, p) else view b id') /\
  req_id_to_index b' = req_id_to_index b /\
  prev_sampled_token_ids b' = prev_sampled_token_ids b /\ prev_req_id_to_index b' = prev_req_id_to_index b.
Proof.
  intros Sl Hi Hv Hm. destruct (sl_row _ _ Sl id i Hi) as (H0' & row & n & q & Hr & Hn & Hq & Hb & Hw).
  rewrite (view_row _ _ _ _ _ _ Hi Hr Hn Hq) in Hv. injection Hv as <- <-. rewrite len_py_take in Hm by done.
  unfold set_num_tokens, write_at. rewrite py_nth_at, Hn by done. cbn [of_option mbind res_bind]. intros [= <-].
  destruct (counts_view width b i (num_computed_tokens_cpu b) m id row Sl Hi Hr) as [Sl' Hv']; [lia|].
  split; [done|]. split; [|done]. intros id'. rewrite Hv'. case_decide as Hd; [|done]. subst.
  rewrite (view_row _ _ _ _ _ _ Hi Hr Hn Hq). cbn. do 2 f_equal. unfold py_take. rewrite take_take. f_equal. lia.
Qed.

(** What is left of a cached request that is in the batch: its count and its blocks. *)
Definition close_cached (o : SchedulerOutput) (c : CachedReq) (idx : Z) (b : InputBatch) : res InputBatch :=
  b ← set_num_computed idx (cr_num_computed c) b;
  Ok (update_req_spec_token_ids (cr_id c) (scheduled_spec_decode_tokens o)
        (match cr_new_block_ids c with Some blocks => append_row blocks idx b | None => b end)).

Lemma close_cached_sim o c idx b b' d' : slots width b -> slots width b' -> same_shape b b' ->
  close_cached o c idx b' = Ok d' -> exists d, close_cached o c idx b = Ok d /\ same_shape d d' /\
    slots width d /\ slots width d' /\ (forall id, view d id = view b id) /\ (forall id, view d' id = view b' id) /\
    prev_sampled_token_ids d = prev_sampled_token_ids b /\ prev_req_id_to_index d = prev_req_id_to_index b.
Proof.
  intros Sl Sl' Sh. unfold close_cached. destruct (set_num_computed idx (cr_num_computed c) b') as [b1'|] eqn:E'; [|done].
  cbn [mbind res_bind]. intros [= <-].
  destruct (set_num_computed_shape idx _ _ _ _ (symmetry Sh) E') as (b1 & E & Sh1). rewrite E. cbn [mbind res_bind].
  eexists. split; [done|]. symmetry in Sh1.
  assert (Hcount : forall x x1, set_num_computed idx (cr_num_computed c) x = Ok x1 -> slots width x ->
    slots width x1 /\ (forall id, view x1 id = view x id) /\
    prev_sampled_token_ids x1 = prev_sampled_token_ids x /\ prev_req_id_to_index x1 = prev_req_id_to_index x).
  { intros x x1. unfold set_num_computed. destruct (write_at _ _ _) as [l|]; [|done]. cbn. intros [= <-] Slx.
    destruct (computed_view width x l Slx). done. }
  destruct (Hcount _ _ E Sl) as (Sl1 & Hv1 & Hp1 & Hp2). destruct (Hcount _ _ E' Sl') as (Sl1' & Hv1' & _).
  assert (Hrow : forall x, slots width x -> let y := match cr_new_block_ids c with Some blocks => append_row blocks idx x | None => x end in
    slots width y /\ (forall id, view y id = view x id) /\
    prev_sampled_token_ids y = prev_sampled_token_ids x /\ prev_req_id_to_index y = prev_req_id_to_index x).
  { intros x Slx. destruct (cr_new_block_ids c) as [bl|]; [|done]. destruct (append_view x bl idx Slx).
    destruct (append_prev (width := width) bl idx x). done. }
  destruct (Hrow _ Sl1) as (Sl2 & Hv2 & Hq1 & Hq2). destruct (Hrow _ Sl1') as (Sl2' & Hv2' & _).
  destruct (spec_view _ (cr_id c) (scheduled_spec_decode_tokens o) Sl2) as [Sl3 Hv3].
  destruct (spec_view _ (cr_id c) (scheduled_spec_decode_tokens o) Sl2') as [Sl3' Hv3'].
  split; [|split; [done|split; [done|]]].
  - apply spec_shape. destruct (cr_new_block_ids c); [by apply append_shape|done].
  - split; [intros id; by rewrite Hv3, Hv2, Hv1|]. split; [intros id; by rewrite Hv3', Hv2', Hv1'|].
    match goal with |- context [update_req_spec_token_ids ?i ?sp ?x] => destruct (spec_prev (width := width) i sp x) end.
    split; congruence.
Qed.

Definition cut (m : Z) (r : CachedRequestState) : CachedRequestState :=
  if m <? len (output_token_ids r) then with_output (py_take m (output_token_ids r)) r else r.

Lemma full_cut m r : 0 <= m -> m < len (output_token_ids r) ->
  full (cut m r) = py_take (num_prompt r + m) (full r).
Proof.
  intros H1 H2. unfold cut. destruct (Z.ltb_spec m (len (output_token_ids r))); [|lia]. unfold full, py_take, num_prompt. cbn.
  rewrite take_app_ge by (unfold len; lia). do 2 f_equal. unfold len. lia.
Qed.

Lemma agrees_cut ws m r r' : agrees ws r r' -> covered ws r -> 0 <= m -> agrees ws (cut m r) (cut m r') /\ covered ws (cut m r).
Proof.
  intros A C Hm. pose proof (agrees_len _ _ _ A) as Hl. pose proof (agrees_prompt _ _ _ A) as Hp.
  destruct (Z.ltb_spec m (len (output_token_ids r))) as [Hlt|Hge].
  - pose proof (full_cut m r Hm Hlt) as F. pose proof (full_cut m r' Hm ltac:(lia)) as F'. split.
    + split; try (unfold cut; rewrite <- ?Hl; destruct (m <? _); apply A).
      rewrite F, F', <- Hp. replace (num_prompt (cut m r)) with (num_prompt r) by (unfold cut; by destruct (m <? _)).
      unfold py_take. rewrite settle_take by apply len_nonneg. by rewrite (ag_full _ _ _ A).
    + unfold cut. destruct (m <? _); [|done]. intros k Hk. cbn in Hk. apply C. unfold py_take in Hk.
      by apply lookup_take_Some in Hk as [Hk _].
  - unfold cut. rewrite <- Hl. by destruct (Z.ltb_spec m (len (output_token_ids r))); [lia|].
Qed.

Lemma agrees_computed ws n r r' : agrees ws r r' -> covered ws r ->
  agrees ws (with_computed n r) (with_computed n r') /\ covered ws (with_computed n r).
Proof. intros [] C. by split. Qed.

Lemma update_blocks_agrees ws c ri r r' r2' : agrees ws r r' -> covered ws r -> update_blocks c ri r' = Ok r2' ->
  exists r2, update_blocks c ri r = Ok r2 /\ agrees ws r2 r2' /\ covered ws r2 /\
    full r2 = full r /\ num_prompt r2 = num_prompt r /\ full r2' = full r' /\ num_prompt r2' = num_prompt r'.
Proof.
  intros A C. unfold update_blocks. rewrite (ag_blocks _ _ _ A). destruct A.
  destruct (cr_resumed c), (cr_new_block_ids c) as [bl|]; try (destruct (bool_decide _); [|done]); cbn; try done.
  all: intros [= <-]; eexists; (split; [done|]); by repeat split.
Qed.

(** The truncation of the outputs, in the batch as well. *)
Lemma sync_output_cut o i c r s : sync_output true o i c r s =
  if cr_num_output c <? len (output_token_ids r) then
    match req_id_to_index (input_batch s) !! cr_id c with
    | Some idx =>
        prompt ← of_option (py_nth (num_prompt_tokens (input_batch s)) idx) IndexError;
        b ← set_num_tokens idx (prompt + cr_num_output c) (input_batch s);
        Ok (cut (cr_num_output c) r, with_batch b s)
    | None => Ok (cut (cr_num_output c) r, s)
    end
  else Ok (cut (cr_num_output c) r, s).
Proof. unfold sync_output, cut. by destruct (cr_num_output c <? len (output_token_ids r)). Qed.

(** The part of [request_sim] that is about the batch. *)
Definition row_sim (ws : list (Z * Z)) (r r' : CachedRequestState) (v v' : option (list Z * Z)) : Prop :=
  v = None /\ v' = None \/ exists toks, v = Some (toks, num_prompt r) /\ v' = Some (full r', num_prompt r') /\
    len toks = cached_num_tokens r /\ settle (num_prompt r) ws toks = full r'.

Lemma request_sim_Some ws r r' v v' : request_sim ws (Some r) (Some r') v v' <->
  agrees ws r r' /\ covered ws r /\ row_sim ws r r' v v'.
Proof.
  split.
  - intros R. inversion R; subst; (split; [done|split; [done|]]); [by left|]. right. by eexists.
  - intros (A & C & [[-> ->]|(toks & -> & -> & Hl & Hs)]); by constructor.
Qed.

Lemma shape_with_batch s b : input_batch (with_batch b s) = b.
Proof. done. Qed.

Lemma cached_cut m r : 0 <= m < len (output_token_ids r) -> cached_num_tokens (cut m r) = num_prompt r + m.
Proof.
  intros Hm. rewrite <- len_full, full_cut by lia. apply len_py_take. rewrite len_full. unfold cached_num_tokens.
  pose proof (len_nonneg (prompt_token_ids r)). unfold num_prompt in *. lia.
Qed.

Lemma prompt_of b id idx toks p : slots width b -> req_id_to_index b !! id = Some idx -> view b id = Some (toks, p) ->
  py_nth (num_prompt_tokens b) idx = Some p.
Proof.
  intros Sl Hi Hv. destruct (sl_row _ _ Sl id idx Hi) as (H0' & row & n & q & Hr & Hn & Hq & _).
  rewrite (view_row _ _ _ _ _ _ Hi Hr Hn Hq) in Hv. injection Hv as _ <-. by rewrite py_nth_at.
Qed.

Lemma sync_output_sim ws o i c s t r r' r1' t1 : sim width ws s t -> 0 <= cr_num_output c ->
  agrees (ws (cr_id c)) r r' ->
  row_sim (ws (cr_id c)) r r' (view (input_batch s) (cr_id c)) (view (input_batch t) (cr_id c)) ->
  sync_output true o i c r' t = Ok (r1', t1) -> exists b b',
  let m := cr_num_output c in
  r1' = cut m r' /\ t1 = with_batch b' t /\ sync_output true o i c r s = Ok (cut m r, with_batch b s) /\
  same_shape b b' /\ slots width b /\ slots width b' /\
  (forall id, id <> cr_id c -> view b id = view (input_batch s) id /\ view b' id = view (input_batch t) id) /\
  row_sim (ws (cr_id c)) (cut m r) (cut m r') (view b (cr_id c)) (view b' (cr_id c)) /\
  req_id_to_index b' = req_id_to_index (input_batch t) /\
  prev_sampled_token_ids b = prev_sampled_token_ids (input_batch s) /\
  prev_req_id_to_index b = prev_req_id_to_index (input_batch s).
Proof.
  intros S Hm A Rw. rewrite !sync_output_cut. pose proof (agrees_len _ _ _ A) as Hl. pose proof (agrees_prompt _ _ _ A) as Hp.
  rewrite Hl. set (m := cr_num_output c) in *. pose proof (si_shape _ _ _ _ S) as Sh.
  assert (Hbs : with_batch (input_batch s) s = s) by (by destruct s). assert (Hbt : with_batch (input_batch t) t = t) by (by destruct t).
  destruct (Z.ltb_spec m (len (output_token_ids r'))) as [Hlt|Hge].
  2:{ intros [= <- <-]. exists (input_batch s), (input_batch t). rewrite Hbs, Hbt. repeat (split; [apply S || done|]).
      split; [|done]. unfold cut. rewrite Hl. by destruct (Z.ltb_spec m (len (output_token_ids r'))); [lia|]. }
  rewrite (ss_index _ _ Sh). destruct (req_id_to_index (input_batch t) !! cr_id c) as [idx|] eqn:Hi.
  2:{ intros [= <- <-]. exists (input_batch s), (input_batch t). rewrite Hbs, Hbt. repeat (split; [apply S || done|]).
      split; [|done]. left. destruct Rw as [?|(toks & _ & Hv & _)]; [done|]. exfalso.
      destruct (proj1 (view_in width _ (cr_id c) (si_slots' _ _ _ _ S))) as [? Hi']; [by eexists|]. congruence. }
  destruct Rw as [[_ Hv]|(toks & Hv & Hv' & Htl & Hts)].
  { destruct (proj2 (view_in width _ (cr_id c) (si_slots' _ _ _ _ S))) as [? Hv']; [by eexists|]. congruence. }
  assert (His : req_id_to_index (input_batch s) !! cr_id c = Some idx) by (by rewrite (ss_index _ _ Sh)).
  rewrite (ss_prompts _ _ Sh), (prompt_of _ _ _ _ _ (si_slots' _ _ _ _ S) Hi Hv'). cbn [of_option mbind res_bind].
  destruct (set_num_tokens idx (num_prompt r' + m) (input_batch t)) as [b'|] eqn:E'; [|done]. cbn [mbind res_bind].
  intros [= <- <-]. destruct (set_num_tokens_shape idx _ _ _ _ (symmetry Sh) E') as (b & E & Sh1). rewrite E.
  pose proof (len_nonneg (prompt_token_ids r)) as Hpn. fold (num_prompt r) in Hpn.
  assert (Hb : 0 <= num_prompt r + m <= len toks) by (rewrite Htl; unfold cached_num_tokens; lia).
  assert (Hb' : 0 <= num_prompt r' + m <= len (full r')) by (rewrite len_full; unfold cached_num_tokens; lia).
  rewrite <- Hp in E. destruct (set_num_tokens_view _ _ _ _ _ _ _ (si_slots _ _ _ _ S) His Hv Hb E) as (Sl & V & _ & P1 & P2).
  destruct (set_num_tokens_view _ _ _ _ _ _ _ (si_slots' _ _ _ _ S) Hi Hv' Hb' E') as (Sl' & V' & I' & _).
  exists b, b'. repeat (split; [done|]). split.
  { intros id Hne. by rewrite V, V', !decide_False by done. }
  split; [|done]. rewrite V, V', !decide_True by done. right. exists (py_take (num_prompt r + m) toks).
  assert (Hcut : num_prompt (cut m r) = num_prompt r) by (unfold cut; by destruct (m <? _)).
  assert (Hcut' : num_prompt (cut m r') = num_prompt r') by (unfold cut; by destruct (m <? _)).
  rewrite Hcut, Hcut'. split; [done|]. split; [by rewrite full_cut by lia|]. split.
  - rewrite len_py_take by done. by rewrite cached_cut by lia.
  - unfold py_take. rewrite settle_take by done. rewrite Hts, full_cut by lia. unfold py_take. by rewrite Hp.
Qed.

Lemma row_sim_blocks ws r1 r1' r r' v v' : full r = full r1 -> num_prompt r = num_prompt r1 ->
  full r' = full r1' -> num_prompt r' = num_prompt r1' -> row_sim ws r1 r1' v v' -> row_sim ws r r' v v'.
Proof.
  intros F P F' P' [?|(toks & Hv & Hv' & Hl & Hs)]; [by left|]. right. exists toks. rewrite P, F', P'.
  split; [done|]. split; [done|]. split; [|done]. by rewrite <- len_full, F, len_full.
Qed.

Lemma update_cached_last o s adds i c : update_cached true o (s, adds) (i, c) =
  r ← of_option (requests s !! cr_id c) KeyError;
  rs ← sync_output true o i c (with_computed (cr_num_computed c) r) s;
  r2 ← update_blocks c (req_id_to_index (input_batch rs.2) !! cr_id c) rs.1;
  let s2 := with_requests (<[cr_id c := r2]> (requests rs.2)) rs.2 in
  match req_id_to_index (input_batch rs.2) !! cr_id c with
  | None => Ok (s2, adds ++ [cr_id c])
  | Some idx => b ← close_cached o c idx (input_batch rs.2); Ok (with_batch b s2, adds)
  end.
Proof.
  unfold update_cached, close_cached. destruct (requests s !! cr_id c) as [r|]; [|done]. cbn [of_option mbind res_bind].
  destruct (sync_output _ _ _ _ _ _) as [[r1 s1]|]; [|done]. cbn [mbind res_bind fst snd].
  destruct (update_blocks _ _ _) as [r2|]; [|done]. cbn [mbind res_bind].
  cbn [input_batch with_requests requests].
  destruct (req_id_to_index (input_batch s1) !! cr_id c) as [idx|]; [|done].
  by destruct (set_num_computed _ _ _).
Qed.

Lemma sim_update_cached ws o s t adds i c t' adds' : sim width ws s t -> 0 <= cr_num_output c ->
  update_cached true o (t, adds) (i, c) = Ok (t', adds') -> exists s',
  update_cached true o (s, adds) (i, c) = Ok (s', adds') /\ sim width ws s' t' /\ kept s s' /\
  (forall id, view (input_batch s) id = None -> view (input_batch s') id = None) /\
  (adds' = adds \/ adds' = adds ++ [cr_id c] /\ view (input_batch s') (cr_id c) = None).
Proof.
  intros S Hm. rewrite !update_cached_last. pose proof (si_at _ _ _ _ S (cr_id c)) as R.
  destruct (requests t !! cr_id c) as [r'|] eqn:Ht; [|done]. destruct (requests s !! cr_id c) as [r|] eqn:Hs; [|inversion R].
  apply request_sim_Some in R as (A & C & Rw). cbn [of_option mbind res_bind].
  destruct (agrees_computed _ (cr_num_computed c) _ _ A C) as [A1 C1].
  destruct (sync_output true o i c (with_computed (cr_num_computed c) r') t) as [[r1' t1]|] eqn:E1; [|done].
  destruct (sync_output_sim ws o i c s t _ _ r1' t1 S Hm A1 Rw E1)
    as (b & b' & -> & -> & -> & Sh & Sl & Sl' & Ho & Rw1 & Hi & P1 & P2).
  destruct (agrees_cut _ (cr_num_output c) _ _ A1 C1 Hm) as [A2 C2].
  cbn [mbind res_bind fst snd]. rewrite !shape_with_batch, (ss_index _ _ Sh).
  destruct (update_blocks c _ (cut (cr_num_output c) (with_computed (cr_num_computed c) r'))) as [r3'|] eqn:E3; [|done].
  destruct (update_blocks_agrees _ _ _ _ _ _ A2 C2 E3) as (r3 & -> & A3 & C3 & F & P & F' & P'). cbn [mbind res_bind].
  pose proof (row_sim_blocks _ _ _ r3 r3' _ _ F P F' P' Rw1) as Rw3.
  destruct (req_id_to_index b' !! cr_id c) as [idx|] eqn:Eidx.
  - destruct (close_cached o c idx b') as [d'|] eqn:E4; [|done]. cbn [mbind res_bind]. intros [= <- <-].
    destruct (close_cached_sim o c idx b b' d' Sl Sl' Sh E4) as (d & -> & Shd & Sld & Sld' & Vd & Vd' & Q1 & Q2).
    cbn [mbind res_bind]. eexists. split; [done|].
    split; [|split; [split; cbn; congruence|split; [|by left]]].
    + eapply (sim_change ws ws _ _ _ _ (cr_id c) S); try done; [apply S|..].
      * intros id Hne. cbn. rewrite !lookup_insert_ne by done. rewrite Vd, Vd'. by destruct (Ho id Hne).
      * cbn. rewrite !lookup_insert_eq, Vd, Vd'. by apply request_sim_Some.
    + intros id Hv. cbn. rewrite Vd. destruct (decide (id = cr_id c)) as [->|Hne]; [|by rewrite (proj1 (Ho id Hne))].
      exfalso. destruct Rw as [[_ Hv']|(toks & Hv' & _)]; [|congruence].
      destruct (proj2 (view_in width _ (cr_id c) (si_slots' _ _ _ _ S))) as [? Hx]; [rewrite <- Hi; by eexists|congruence].
  - intros [= <- <-]. eexists. split; [done|].
    assert (Hv : view b (cr_id c) = None).
    { destruct Rw3 as [[? _]|(toks & Hv & _)]; [done|]. exfalso.
      destruct (proj1 (view_in width _ (cr_id c) Sl)) as [? Hx]; [by eexists|]. rewrite (ss_index _ _ Sh) in Hx. congruence. }
    split; [|split; [by split|split; [|right; by split]]].
    + eapply (sim_change ws ws _ _ _ _ (cr_id c) S); try done; [apply S|..].
      * intros id Hne. cbn. rewrite !lookup_insert_ne by done. by destruct (Ho id Hne).
      * cbn. rewrite !lookup_insert_eq. by apply request_sim_Some.
    + intros id Hvs. cbn. destruct (decide (id = cr_id c)) as [->|Hne]; [done|]. by rewrite (proj1 (Ho id Hne)).
Qed.

Lemma sim_add_to_batch ws o s t id t' : sim width ws s t -> view (input_batch s) id = None ->
  add_to_batch o t id = Ok t' -> exists s', add_to_batch o s id = Ok s' /\ sim width ws s' t' /\ kept s s' /\
    forall id', id' <> id -> view (input_batch s') id' = view (input_batch s) id'.
Proof.
  intros S Hv. unfold add_to_batch. pose proof (si_at _ _ _ _ S id) as R. rewrite Hv in R.
  destruct (requests t !! id) as [r'|] eqn:Ht; [|done]. destruct (requests s !! id) as [r|] eqn:Hs; [|inversion R].
  assert (Hv' : view (input_batch t) id = None) by (by inversion R).
  apply request_sim_Some in R as (A & C & _). cbn [of_option mbind res_bind].
  destruct (add_request id r' (input_batch t)) as [b'|] eqn:E'; [|done]. cbn [mbind res_bind]. intros [= <-].
  destruct (add_shape id r' r _ (input_batch s) b' (symmetry (si_shape _ _ _ _ S))) as (b & E & Sh); try (symmetry; apply A); [|done|].
  { symmetry. by apply (agrees_len (ws id)). }
  rewrite E. cbn [mbind res_bind]. symmetry in Sh.
  assert (Hn : forall x, slots width x -> view x id = None -> req_id_to_index x !! id = None).
  { intros x Sl Hx. destruct (req_id_to_index x !! id) eqn:Ei; [|done].
    destruct (proj2 (view_in width x id Sl)) as [? Hy]; [by eexists|congruence]. }
  destruct (add_view _ _ _ _ (si_slots _ _ _ _ S) (Hn _ (si_slots _ _ _ _ S) Hv) E) as [Sl V].
  destruct (add_view _ _ _ _ (si_slots' _ _ _ _ S) (Hn _ (si_slots' _ _ _ _ S) Hv') E') as [Sl' V'].
  destruct (spec_view _ id (scheduled_spec_decode_tokens o) Sl) as [Sl2 V2].
  destruct (spec_view _ id (scheduled_spec_decode_tokens o) Sl') as [Sl2' V2'].
  destruct (add_prev (width := width) _ _ _ _ E) as [P1 P2].
  destruct (spec_prev (width := width) id (scheduled_spec_decode_tokens o) b) as [Q1 Q2].
  eexists. split; [done|]. split; [|split; [split; cbn; congruence|]].
  - eapply (sim_change ws ws _ _ _ _ id S); try done.
    + cbn. by apply spec_shape.
    + apply S.
    + intros id' Hne. cbn. by rewrite V2, V2', V, V', !decide_False by done.
    + cbn. rewrite Hs, Ht, V2, V2', V, V', !decide_True by done. apply request_sim_Some. split; [done|]. split; [done|].
      right. exists (full r). split; [done|]. split; [done|]. split; [apply len_full|apply A].
  - intros id' Hne. cbn. by rewrite V2, V, decide_False by done.
Qed.

Lemma new_request_other n s id : slots width (input_batch s) -> id <> new_req_id n -> view (input_batch s) id = None ->
  view (input_batch (new_request n s)) id = None.
Proof.
  intros Sl Hne Hv. unfold new_request. destruct (requests s !! new_req_id n); [|done]. cbn.
  destruct (remove_view _ (new_req_id n) Sl) as [_ V]. rewrite V. by rewrite decide_False.
Qed.

(** The ids a step introduces and updates are distinct. *)
Record output_ok (o : SchedulerOutput) : Prop := {
  oo_distinct : NoDup ((new_req_id <$> scheduled_new_reqs o) ++ (cr_id <$> scheduled_cached_reqs o));
  oo_output : Forall (fun c => 0 <= cr_num_output c) (scheduled_cached_reqs o)
}.

Lemma sim_new_list ws l s t : sim width ws s t ->
  let s' := foldl (fun s n => new_request n s) s l in
  sim width ws s' (foldl (fun s n => new_request n s) t l) /\ kept s s' /\
  forall id, id ∈ (new_req_id <$> l) \/ view (input_batch s) id = None -> view (input_batch s') id = None.
Proof.
  revert s t. induction l as [|n l IH]; intros s t S; cbn [foldl fmap list_fmap].
  { split; [done|]. split; [done|]. intros id [[]%not_elem_of_nil|]; done. }
  destruct (sim_new ws s t n S) as (S1 & K1 & Hv). destruct (IH _ _ S1) as (S2 & K2 & Hl).
  split; [done|]. split; [by etrans|]. intros id Hid. apply Hl.
  destruct (decide (id = new_req_id n)) as [->|Hne]; [by right|]. destruct Hid as [Hid|Hid].
  - left. set_solver.
  - right. apply new_request_other; [apply S|done|done].
Qed.

Lemma sim_cached_list ws o l s t adds t' adds' : sim width ws s t -> Forall (fun ic => 0 <= cr_num_output ic.2) l ->
  NoDup (adds ++ ((fun ic => cr_id ic.2) <$> l)) -> (forall id, id ∈ adds -> view (input_batch s) id = None) ->
  foldM (update_cached true o) (t, adds) l = Ok (t', adds') -> exists s',
  foldM (update_cached true o) (s, adds) l = Ok (s', adds') /\ sim width ws s' t' /\ kept s s' /\ NoDup adds' /\
  forall id, id ∈ adds' -> view (input_batch s') id = None.
Proof.
  intros S Hl. revert s t adds S. induction Hl as [|[i c] l Hc Hl IH]; intros s t adds S Hnd Hv; cbn [foldM fmap list_fmap].
  - intros [= <- <-]. exists s. rewrite app_nil_r in Hnd. done.
  - destruct (update_cached true o (t, adds) (i, c)) as [[t1 adds1]|] eqn:E1; [|done]. cbn [mbind res_bind]. intros E2.
    destruct (sim_update_cached ws o s t adds i c t1 adds1 S Hc E1) as (s1 & -> & S1 & K1 & Hn & Ha). cbn [mbind res_bind].
    cbn [fmap list_fmap snd] in Hnd.
    destruct (IH s1 t1 adds1 S1) as (s' & E & S' & K' & Hnd' & Hv'); [| |done|].
    + destruct Ha as [->|[-> _]]; [|by rewrite <- app_assoc].
      apply NoDup_app in Hnd as (N1 & N2 & N3). apply NoDup_cons in N3 as [_ N3]. apply NoDup_app. split; [done|].
      split; [|done]. intros x Hx. specialize (N2 x Hx). set_solver.
    + intros id Hid. destruct Ha as [->|[-> Hcv]]; [by apply Hn, Hv|].
      apply elem_of_app in Hid as [Hid|Hid%list_elem_of_singleton]; [by apply Hn, Hv|by subst].
    + exists s'. split; [done|]. split; [done|]. split; [by etrans|done].
Qed.

Lemma sim_add_list ws o l s t t' : sim width ws s t -> NoDup l -> (forall id, id ∈ l -> view (input_batch s) id = None) ->
  foldM (add_to_batch o) t l = Ok t' -> exists s', foldM (add_to_batch o) s l = Ok s' /\ sim width ws s' t' /\ kept s s'.
Proof.
  intros S Hnd. revert s t S. induction Hnd as [|id l Hid Hnd IH]; intros s t S Hv; cbn [foldM].
  - intros [= <-]. by exists s.
  - destruct (add_to_batch o t id) as [t1|] eqn:E1; [|done]. cbn [mbind res_bind]. intros E2.
    destruct (sim_add_to_batch ws o s t id t1 S) as (s1 & -> & S1 & K1 & Ho); [apply Hv; by left|done|]. cbn [mbind res_bind].
    destruct (IH s1 t1 S1) as (s' & -> & S' & K'); [|done|].
    + intros id' Hid'. rewrite Ho by (by intros ->). apply Hv. by right.
    + exists s'. split; [done|]. split; [done|by etrans].
Qed.

Lemma cached_ids (l : list CachedReq) : (fun ic => cr_id ic.2) <$> zip (py_range (len l)) l = cr_id <$> l.
Proof.
  etrans; [apply (list_fmap_compose snd cr_id)|]. f_equal. apply snd_zip. unfold py_range, len. rewrite length_seqZ. lia.
Qed.

Lemma sim_close ws s t : sim width ws s t ->
  let close b := refresh_metadata (may_reorder_batch (condense b)) in
  sim width ws (with_batch (close (input_batch s)) s) (with_batch (close (input_batch t)) t) /\
  in_rows (close (input_batch s)) /\ kept s (with_batch (close (input_batch s)) s).
Proof.
  intros S close. destruct (close_view _ (si_slots _ _ _ _ S)) as (Sl & Ir & V).
  destruct (close_view _ (si_slots' _ _ _ _ S)) as (Sl' & Ir' & V').
  destruct (close_prev (width := width) (input_batch s)). split; [|by split].
  split; try done; try apply S.
  - apply close_shape, S.
  - intros id. cbn. unfold close. rewrite V, V'. apply S.
Qed.

(** A step's update goes through with asynchronous scheduling when it does without. *)
Lemma sim_update_states ws o s t t' : sim width ws s t -> output_ok o -> _update_states true o t = Ok t' -> exists s',
  _update_states true o s = Ok s' /\ sim width ws s' t' /\ in_rows (input_batch s') /\ kept s s'.
Proof.
  intros S [Hnd Hout]. unfold _update_states.
  set (s0 := drop_finished (finished_req_ids o) s). set (t0 := drop_finished (finished_req_ids o) t).
  assert (S0 : sim width ws s0 t0) by (by eapply (sim_drop ws s t s0 t0 (finished_req_ids o) (finished_req_ids o) S)).
  assert (K0 : kept s s0).
  { destruct (remove_many (finished_req_ids o) _ (si_slots _ _ _ _ S)) as (_ & _ & P1 & P2). by split. }
  set (s1 := drop_unscheduled o s0). set (t1 := drop_unscheduled o t0).
  assert (Hun : unscheduled o (input_batch t0) = unscheduled o (input_batch s0)).
  { unfold unscheduled. by rewrite (ss_index _ _ (si_shape _ _ _ _ S0)). }
  assert (S1 : sim width ws s1 t1).
  { eapply (sim_drop ws s0 t0 s1 t1 (unscheduled o (input_batch s0)) [] S0); try done; [|set_solver].
    unfold t1, drop_unscheduled. by rewrite Hun. }
  assert (K1 : kept s s1).
  { etrans; [exact K0|]. destruct (remove_many (unscheduled o (input_batch s0)) _ (si_slots _ _ _ _ S0)) as (_ & _ & P1 & P2).
    by split. }
  destruct (sim_new_list ws (scheduled_new_reqs o) s1 t1 S1) as (S2 & K2 & V2). cbn zeta.
  set (s2 := foldl (fun s n => new_request n s) s1 (scheduled_new_reqs o)) in *.
  set (t2 := foldl (fun s n => new_request n s) t1 (scheduled_new_reqs o)) in *.
  destruct (foldM (update_cached true o) (t2, _) _) as [[t3 adds]|] eqn:E3; [|done]. cbn [mbind res_bind].
  edestruct (sim_cached_list ws o) as (s3 & Es3 & S3 & K3 & Hadds & V3); [exact S2| | | |exact E3|].
  { apply Forall_forall. intros [i c] Hic. apply elem_of_zip_r in Hic. by rewrite Forall_forall in Hout; apply Hout. }
  { by rewrite cached_ids. }
  { intros id Hid. apply V2. by left. }
  rewrite Es3. cbn [mbind res_bind]. destruct (foldM (add_to_batch o) t3 adds) as [t4|] eqn:E4; [|done]. cbn [mbind res_bind].
  intros [= <-]. destruct (sim_add_list ws o adds s3 t3 t4 S3 Hadds V3 E4) as (s4 & -> & S4 & K4). cbn [mbind res_bind].
  destruct (sim_close ws s4 t4 S4) as (S5 & Ir & K5). eexists. split; [done|]. split; [done|]. split; [done|].
  etrans; [exact K1|]. etrans; [exact K2|]. etrans; [exact K3|]. etrans; [exact K4|exact K5].
Qed.
End update.
