(* ===== verification/RunnerTokensRun.v ===== *)
(** * Model runner: sampling, and whole runs *)
From S2P Require Import Prelude CoreUtils KvLayout RunnerTokens RunnerTokensSpec RunnerTokensSim.

(** ** Clearing the rows of the requests that are discarded *)
Lemma clear_rows_ok idx rows : Forall (fun i => 0 <= i < len rows) idx -> exists rows',
  clear_rows idx rows = Ok rows' /\ length rows' = length rows /\
  forall j, rows' !! j = if decide (Z.of_nat j ∈ idx) then (fun _ => []) <$> rows !! j else rows !! j.
Proof.
  intros Hidx. unfold clear_rows. revert rows Hidx. induction idx as [|i idx IH]; intros rows Hidx; cbn [foldM].
  - exists rows. split; [done|]. split; [done|]. intros j. by rewrite decide_False by (by apply not_elem_of_nil).
  - apply Forall_cons in Hidx as [Hi Hidx]. unfold write_at at 2. rewrite py_nth_at by lia.
    destruct (at_some rows i Hi) as [row Hrow]. rewrite Hrow. cbn [of_option mbind res_bind].
    destruct (IH (<[Z.to_nat i := []]> rows)) as (rows' & -> & Hl & Hr).
    { unfold len. rewrite length_insert. exact Hidx. }
    rewrite length_insert in Hl. exists rows'. split; [done|]. split; [done|]. intros j. rewrite Hr.
    destruct (decide (Z.of_nat j = i)) as [Hj|Hj].
    + rewrite (decide_True (P := Z.of_nat j ∈ i :: idx)) by set_solver. replace (Z.to_nat i) with j in * by lia.
      rewrite Hrow, list_lookup_insert_eq by (by apply lookup_lt_Some in Hrow). by case_decide.
    + rewrite list_lookup_insert_ne by lia. destruct (decide (Z.of_nat j ∈ idx)).
      * by rewrite decide_True by set_solver.
      * by rewrite decide_False by set_solver.
Qed.

Lemma discarded_bounds s : Forall (fun i => 0 <= i < len (req_ids (input_batch s))) (discarded s).
Proof.
  apply Forall_forall. intros i Hi. unfold discarded in Hi. cbn in Hi.
  apply list_elem_of_fmap in Hi as ([i' m] & -> & Hi). apply list_elem_of_filter in Hi as [_ Hi].
  apply elem_of_zip_l in Hi. apply py_range_elem in Hi. cbn. revert Hi. unfold py_take, len. rewrite length_take. lia.
Qed.

Lemma discarded_same s t : req_ids (input_batch s) = req_ids (input_batch t) ->
  discard_request_mask s = discard_request_mask t -> discarded s = discarded t.
Proof. intros Hi Hm. unfold discarded. by rewrite Hi, Hm. Qed.

Section sampling.
Context (width max_model_len : Z).
Hypothesis fits : max_model_len <= width.

(** One token is appended to a request's row. *)
Lemma append_token_view b id i v toks p b1 b2 b3 : slots width b -> req_id_to_index b !! id = Some i ->
  view b id = Some (toks, p) -> len toks + 1 <= width ->
  write_tokens i (len toks) [v] b = Ok b1 -> mark_tokens i (len toks) (len toks + 1) b1 = Ok b2 ->
  set_num_tokens i (len toks + 1) b2 = Ok b3 ->
  slots width b3 /\ req_ids b3 = req_ids b /\ req_id_to_index b3 = req_id_to_index b /\
  prev_sampled_token_ids b3 = prev_sampled_token_ids b /\ prev_req_id_to_index b3 = prev_req_id_to_index b /\
  forall id', view b3 id' = if decide (id' = id) then Some (toks ++ [v], p) else view b id'.
Proof.
  intros Sl Hi Hv Hw E1 E2 E3. destruct (sl_row _ _ Sl id i Hi) as (H0 & row & n & q & Hr & Hn & Hq & Hb & Hrow).
  rewrite (view_row _ _ _ _ _ _ Hi Hr Hn Hq) in Hv. injection Hv as <- <-. rewrite len_py_take in * by done.
  unfold write_tokens, write_row in E1. rewrite py_nth_at, Hr in E1 by done. cbn [of_option mbind res_bind] in E1.
  unfold write_slice in E1. change (len [v]) with 1 in E1. destruct (Z.leb_spec (n + 1) (len row)); [|lia].
  cbn [mbind res_bind] in E1. injection E1 as <-.
  set (row' := take (Z.to_nat n) row ++ [v] ++ drop (Z.to_nat (n + 1)) row) in *.
  assert (Hl : len row' = len row).
  { unfold row', len in *. rewrite !length_app, length_take, length_drop. cbn. lia. }
  destruct (rows_view width b (is_token_ids b) i row row' Sl Hr Hl H0) as [Sl1 V1].
  set (c1 := with_rows _ _ b) in *. unfold mark_tokens in E2.
  destruct (py_nth (is_token_ids c1) i) as [mk|]; [|done]. cbn [of_option mbind res_bind] in E2. injection E2 as <-.
  match type of E3 with set_num_tokens _ _ (with_rows _ ?m _) = _ => destruct (marks_view width c1 m Sl1) as [Sl2 V2]; set (c2 := with_rows _ m c1) in * end.
  unfold set_num_tokens, write_at in E3.
  assert (Hn2 : at_ (num_tokens_no_spec c2) i = Some n) by done. rewrite py_nth_at, Hn2 in E3 by done.
  cbn [of_option mbind res_bind] in E3. injection E3 as <-.
  assert (Hr2 : at_ (token_ids_cpu c2) i = Some row').
  { cbn. apply list_lookup_insert_eq, (lookup_lt_Some _ _ _ Hr). }
  destruct (counts_view width c2 i (num_computed_tokens_cpu c2) (n + 1) id row' Sl2 Hi Hr2) as [Sl3 V3]; [lia|].
  split; [done|]. repeat (split; [done|]). intros id'. rewrite V3, V2, V1.
  destruct (decide (id' = id)) as [->|Hne].
  - rewrite decide_True by done. rewrite (view_row _ _ _ _ _ _ Hi Hr Hn Hq). cbn [fmap option_fmap option_map fst snd].
    do 2 f_equal. unfold py_take, row'. rewrite take_app_ge by (rewrite length_take; unfold len in *; lia). f_equal.
    rewrite length_take. unfold len in *. replace (Z.to_nat (n + 1) - _)%nat with 1%nat by lia. done.
  - rewrite decide_False; [done|]. intros He. apply Hne, (sl_inj _ _ Sl _ _ i); done.
Qed.

(** The token a request is given: known on the one side, a placeholder on the other. *)
Lemma full_snoc r l : full (with_output (output_token_ids r ++ l) r) = full r ++ l.
Proof. unfold full. cbn. by rewrite app_assoc. Qed.

Lemma agrees_append ws r r' t : agrees ws r r' ->
  agrees (ws ++ [(cached_num_tokens r, t)]) (with_output (output_token_ids r ++ [-1]) r)
    (with_output (output_token_ids r' ++ [t]) r').
Proof.
  intros A. split; try apply A. change (num_prompt (with_output _ r)) with (num_prompt r).
  rewrite !full_snoc, <- len_full, settle_append; [by rewrite (ag_full _ _ _ A)|apply len_nonneg|].
  rewrite len_full. unfold cached_num_tokens. pose proof (len_nonneg (output_token_ids r)). lia.
Qed.

Lemma covered_append ws r t : covered ws r ->
  covered (ws ++ [(cached_num_tokens r, t)]) (with_output (output_token_ids r ++ [-1]) r).
Proof.
  intros C k Hk. cbn in Hk. change (num_prompt (with_output _ r)) with (num_prompt r).
  destruct (decide (k < length (output_token_ids r))%nat) as [Hlt|Hge].
  - rewrite lookup_app_l in Hk by done. destruct (C k Hk) as [u Hu]. exists u. set_solver.
  - exists t. assert (k = length (output_token_ids r)) as ->.
    { apply lookup_lt_Some in Hk. rewrite length_app in Hk. cbn in Hk. lia. }
    apply elem_of_app. right. apply list_elem_of_singleton. done.
Qed.

(** A request that is sampled, on the synchronous side. *)
Definition give (j : Z) (ids : list Z) (b : InputBatch) : res InputBatch :=
  start ← of_option (py_nth (num_tokens_no_spec b) j) IndexError;
  assert! start + len ids <=? max_model_len;
  b ← write_tokens j start ids b;
  b ← mark_tokens j start (start + len ids) b;
  set_num_tokens j (start + len ids) b.

Lemma give_one_sim b b' id j p toks toks' t d' : slots width b -> slots width b' -> same_shape b b' ->
  req_id_to_index b !! id = Some j -> view b id = Some (toks, p) -> view b' id = Some (toks', p) ->
  give j [t] b' = Ok d' -> exists d, give j [-1] b = Ok d /\ same_shape d d' /\ slots width d /\ slots width d' /\
    py_nth (num_tokens_no_spec b) j = Some (len toks) /\ req_ids d = req_ids b /\ req_ids d' = req_ids b' /\
    req_id_to_index d = req_id_to_index b /\
    (forall id', view d id' = if decide (id' = id) then Some (toks ++ [-1], p) else view b id') /\
    (forall id', view d' id' = if decide (id' = id) then Some (toks' ++ [t], p) else view b' id') /\
    prev_sampled_token_ids d = prev_sampled_token_ids b /\ prev_req_id_to_index d = prev_req_id_to_index b.
Proof.
  intros Sl Sl' Sh Hi Hv Hv'. pose proof Hi as Hi'. rewrite (ss_index _ _ Sh) in Hi'.
  assert (Hcount : forall x l, slots width x -> req_id_to_index x !! id = Some j -> view x id = Some (l, p) ->
    py_nth (num_tokens_no_spec x) j = Some (len l)).
  { intros x l Slx Hx Hl. destruct (sl_row _ _ Slx id j Hx) as (H0 & row & n & q & Hr & Hn & Hq & Hb & _).
    rewrite (view_row _ _ _ _ _ _ Hx Hr Hn Hq) in Hl. injection Hl as <- <-. by rewrite len_py_take, py_nth_at by done. }
  unfold give. rewrite (Hcount b' toks') by done. rewrite (Hcount b toks) by done. cbn [of_option mbind res_bind].
  assert (Hlen : len toks = len toks').
  { pose proof (Hcount b toks Sl Hi Hv) as A. rewrite (ss_counts _ _ Sh), (Hcount b' toks' Sl' Hi' Hv') in A. congruence. }
  change (len [t]) with 1. change (len [-1]) with 1. rewrite Hlen.
  destruct (Z.leb_spec (len toks' + 1) max_model_len) as [Hmax|]; [|done]. cbn [require mbind res_bind].
  destruct (write_tokens j (len toks') [t] b') as [b1'|] eqn:E1'; [|done]. cbn [mbind res_bind].
  destruct (mark_tokens j (len toks') (len toks' + 1) b1') as [b2'|] eqn:E2'; [|done]. cbn [mbind res_bind]. intros E3'.
  destruct (sl_row _ _ Sl id j Hi) as [Hj _].
  destruct (write_tokens_shape j (len toks') [t] [-1] b' b b1' (symmetry Sh) eq_refl Hj E1') as (b1 & E1 & Sh1).
  rewrite E1. cbn [mbind res_bind].
  destruct (mark_tokens_shape j _ _ _ b1 _ Sh1 E2') as (b2 & E2 & Sh2). rewrite E2. cbn [mbind res_bind].
  destruct (set_num_tokens_shape j _ _ b2 _ Sh2 E3') as (d & E3 & Sh3). rewrite E3.
  destruct (append_token_view b' id j t toks' p b1' b2' d' Sl' Hi' Hv') as (Sd' & Q1' & _ & _ & _ & V'); try done; [lia|].
  rewrite <- Hlen in E1, E2, E3.
  destruct (append_token_view b id j (-1) toks p b1 b2 d Sl Hi Hv) as (Sd & Q1 & Q2 & P1 & P2 & V); try done; [lia|].
  exists d. split; [done|]. split; [by symmetry|]. rewrite <- Hlen. done.
Qed.

Lemma cache_known valid t j tok t' : valid !! Z.to_nat j = Some [tok] -> 0 <= j ->
  cache_sampled false max_model_len valid [] t j = Ok t' -> exists d id r,
  give j [tok] (input_batch t) = Ok d /\ py_nth (req_ids d) j = Some id /\ requests t !! id = Some r /\
  t' = with_requests (<[id := with_output (output_token_ids r ++ [tok]) r]> (requests t)) (with_batch d t).
Proof.
  intros Hv Hj. unfold cache_sampled, sampled_ids, give. rewrite (py_nth_at valid), Hv by done. cbn [of_option mbind res_bind].
  rewrite bool_decide_false by done. destruct (py_nth (num_tokens_no_spec _) j) as [start|]; [|done]. cbn [of_option mbind res_bind].
  destruct (start + len [tok] <=? max_model_len); [|done]. cbn [require mbind res_bind].
  destruct (write_tokens _ _ _ _) as [b1|]; [|done]. cbn [mbind res_bind].
  destruct (mark_tokens _ _ _ _) as [b2|]; [|done]. cbn [mbind res_bind].
  destruct (set_num_tokens _ _ _) as [b3|]; [|done]. cbn [mbind res_bind].
  destruct (py_nth (req_ids b3) j) as [id|] eqn:Hid; [|done]. cbn [of_option mbind res_bind].
  destruct (requests t !! id) as [r|] eqn:Hr; [|done]. cbn [of_option mbind res_bind]. intros [= <-].
  by exists b3, id, r.
Qed.

Lemma write_tokens_ids i start ids b c : write_tokens i start ids b = Ok c -> req_ids c = req_ids b.
Proof. unfold write_tokens. destruct (write_row _ _ _ _); [|done]. cbn. by intros [= <-]. Qed.

Lemma cache_placeholder s j start d id r invalid : j ∉ invalid ->
  py_nth (num_tokens_no_spec (input_batch s)) j = Some start -> give j [-1] (input_batch s) = Ok d ->
  py_nth (req_ids (input_batch s)) j = Some id -> req_ids d = req_ids (input_batch s) -> requests s !! id = Some r ->
  cache_sampled true max_model_len [] invalid s j =
  Ok (with_requests (<[id := with_output (output_token_ids r ++ [-1]) r]> (requests s))
        (with_batch d (with_pos (od_set id start (_placeholder_pos s)) s))).
Proof.
  intros Hj Hstart Hg Hid Hids Hr. unfold cache_sampled, sampled_ids, give in *.
  rewrite (bool_decide_false (j ∈ invalid)) by done. cbn [mbind res_bind]. rewrite bool_decide_false by done.
  rewrite Hstart in *. cbn [of_option mbind res_bind] in *.
  destruct (start + len [-1] <=? max_model_len); [|done]. cbn [require mbind res_bind] in *.
  destruct (write_tokens _ _ _ _) as [b1|] eqn:E1; [|done]. cbn [mbind res_bind] in *.
  rewrite (write_tokens_ids _ _ _ _ _ E1), Hid. cbn [of_option mbind res_bind require len length]. change (len [-1] =? 1) with true.
  cbn [require mbind res_bind].
  destruct (mark_tokens _ _ _ _) as [b2|]; [|done]. cbn [mbind res_bind] in *.
  rewrite Hg. cbn [mbind res_bind]. rewrite Hids, Hid. cbn [of_option mbind res_bind]. cbn [requests with_pos]. by rewrite Hr.
Qed.

(** ** One request of the loop *)
Record caching (ws : string -> list (Z * Z)) (ids : list string) (s t : Runner) : Prop := {
  ca_sim : sim width ws s t;
  ca_ids : req_ids (input_batch s) = ids;
  ca_rows : in_rows (input_batch s)
}.

Definition more (ws : string -> list (Z * Z)) (id : string) (w : Z * Z) : string -> list (Z * Z) :=
  fun id' => if decide (id' = id) then ws id ++ [w] else ws id'.

Lemma cache_one_sim ws ids s t j id r valid invalid tok t' : caching ws ids s t ->
  ids !! Z.to_nat j = Some id -> requests s !! id = Some r -> 0 <= j -> j ∉ invalid -> valid !! Z.to_nat j = Some [tok] -> tok <> -1 ->
  cache_sampled false max_model_len valid [] t j = Ok t' -> exists s',
  cache_sampled true max_model_len [] invalid s j = Ok s' /\
  caching (more ws id (cached_num_tokens r, tok)) ids s' t' /\
  _placeholder_pos s' = od_set id (cached_num_tokens r) (_placeholder_pos s) /\
  _pending_token_writeback s' = _pending_token_writeback s /\
  (forall id', id' <> id -> requests s' !! id' = requests s !! id') /\
  (forall id', id' <> id -> requests t' !! id' = requests t !! id') /\
  (exists r', requests t' !! id = Some r' /\ last (output_token_ids r') = Some tok) /\
  prev_sampled_token_ids (input_batch s') = prev_sampled_token_ids (input_batch s) /\
  prev_req_id_to_index (input_batch s') = prev_req_id_to_index (input_batch s).
Proof.
  intros [S Hids Ir] Hid Hr Hj Hinv Hval Htok E. pose proof (si_shape _ _ _ _ S) as Sh.
  destruct (cache_known _ _ _ _ _ Hval Hj E) as (d' & id0 & r' & G' & Hid' & Hr' & ->).
  assert (Hi : req_id_to_index (input_batch s) !! id = Some j) by (apply (proj2 Ir); by rewrite Hids).
  pose proof (si_at _ _ _ _ S id) as R. rewrite Hr in R.
  destruct (requests t !! id) as [r1|] eqn:Hr1; [|inversion R].
  apply request_sim_Some in R as (A & C & [[Hv _]|(toks & Hv & Hv' & Hl & Hs)]).
  { destruct (proj2 (view_in width _ id (si_slots _ _ _ _ S))) as [? Hx]; [by eexists|congruence]. }
  rewrite <- (agrees_prompt _ _ _ A) in Hv'.
  destruct (give_one_sim _ _ id j _ toks (full r1) tok d' (si_slots _ _ _ _ S) (si_slots' _ _ _ _ S) Sh Hi Hv Hv' G')
    as (d & G & Shd & Sd & Sd' & Hn & Q1 & Q1' & Q2 & V & V' & P1 & P2).
  assert (Hid0 : id0 = id).
  { rewrite py_nth_at, Q1', <- (ss_ids _ _ Sh), Hids, Hid in Hid' by done. by injection Hid'. }
  subst id0. rewrite Hr1 in Hr'. injection Hr' as ->. rewrite Hl in Hn.
  assert (Hidp : py_nth (req_ids (input_batch s)) j = Some id) by (rewrite py_nth_at by done; by rewrite Hids).
  rewrite (cache_placeholder s j _ d id r invalid Hinv Hn G Hidp Q1 Hr). eexists. split; [done|].
  split; [|split; [done|split; [done|split; [|split; [|split; [|done]]]]]].
  - split; [|cbn; congruence|destruct Ir as [I1 I2]; split; cbn; rewrite Q1; [done|by rewrite Q2]].
    eapply (sim_change ws _ _ _ _ _ id S); try done; cbn.
    + intros w. unfold more. rewrite decide_True by done. intros [Hw|Hw%list_elem_of_singleton]%elem_of_app.
      * by apply (si_known _ _ _ _ S id).
      * by subst w.
    + intros id' Hne. unfold more. rewrite !decide_False, !lookup_insert_ne, V, V', !decide_False by done. done.
    + unfold more. rewrite !lookup_insert_eq, V, V', !decide_True by done. apply request_sim_Some.
      split; [by apply agrees_append|]. split; [by apply covered_append|]. right. exists (toks ++ [-1]).
      split; [done|]. split; [by rewrite (agrees_prompt _ _ _ A), full_snoc|]. split.
      * rewrite len_app, Hl. unfold cached_num_tokens. cbn. rewrite len_app. unfold num_prompt. cbn. lia.
      * rewrite <- Hl, full_snoc. cbn. change (num_prompt (with_output _ r)) with (num_prompt r).
        rewrite settle_append; [by rewrite Hs|apply len_nonneg|]. rewrite Hl. unfold cached_num_tokens.
        pose proof (len_nonneg (output_token_ids r)). lia.
  - intros id' Hne. cbn. by rewrite lookup_insert_ne.
  - intros id' Hne. cbn. by rewrite lookup_insert_ne.
  - cbn. rewrite lookup_insert_eq. eexists. split; [done|]. apply last_snoc.
Qed.

Lemma sim_ext ws ws' s t : (forall id, ws id = ws' id) -> sim width ws s t -> sim width ws' s t.
Proof.
  intros Hw S. split; try apply S.
  - intros id w Hi. rewrite <- Hw in Hi. by apply (si_known _ _ _ _ S id).
  - intros id. rewrite <- Hw. apply S.
Qed.

Lemma caching_row ws ids s t j id : caching ws ids s t -> 0 <= j -> ids !! Z.to_nat j = Some id ->
  req_id_to_index (input_batch s) !! id = Some j /\ exists r, requests s !! id = Some r.
Proof.
  intros [S Hi Ir] Hj Hid. assert (Hx : req_id_to_index (input_batch s) !! id = Some j) by (apply (proj2 Ir); by rewrite Hi).
  split; [done|]. destruct (proj2 (view_in width _ id (si_slots _ _ _ _ S))) as [? Hv]; [by eexists|].
  pose proof (si_at _ _ _ _ S id) as R. rewrite Hv in R. inversion R; subst. by eexists.
Qed.

(** ** The loop over the sampled rows *)

(** What the rows [l] write, where a request had [start] tokens. *)
Definition news (ids : list string) (valid : list (list Z)) (start : string -> Z) (l : list Z) (id : string) : list (Z * Z) :=
  l ≫= fun j => match ids !! Z.to_nat j, valid !! Z.to_nat j with
                | Some id', Some (t :: _) => only id' [(start id', t)] id
                | _, _ => []
                end.

(** A discarded request gets no token on either side. *)
Lemma cache_discarded valid invalid s t t' j : 0 <= j -> j ∈ invalid -> valid !! Z.to_nat j = Some [] ->
  cache_sampled false max_model_len valid [] t j = Ok t' ->
  t' = t /\ cache_sampled true max_model_len [] invalid s j = Ok s.
Proof.
  intros Hj Hinv Hv E. unfold cache_sampled, sampled_ids in *. rewrite (py_nth_at valid), Hv in E by done.
  rewrite bool_decide_true by done. by injection E.
Qed.

Lemma cache_loop_sim ws ids valid invalid start l s t t' : caching ws ids s t -> NoDup l ->
  (forall j, j ∈ l -> 0 <= j < len ids) ->
  (forall j, j ∈ l -> if decide (j ∈ invalid) then valid !! Z.to_nat j = Some []
                      else exists tok, valid !! Z.to_nat j = Some [tok] /\ tok <> -1) ->
  (forall j id r, j ∈ l -> ids !! Z.to_nat j = Some id -> requests s !! id = Some r -> cached_num_tokens r = start id) ->
  foldM (cache_sampled false max_model_len valid []) t l = Ok t' -> exists s',
  foldM (cache_sampled true max_model_len [] invalid) s l = Ok s' /\
  caching (fun id => ws id ++ news ids valid start l id) ids s' t' /\
  (forall j id, j ∈ l -> j ∉ invalid -> ids !! Z.to_nat j = Some id -> od_get id (_placeholder_pos s') = Some (start id)) /\
  (forall id, (forall j, j ∈ l -> ids !! Z.to_nat j <> Some id) -> od_get id (_placeholder_pos s') = od_get id (_placeholder_pos s)) /\
  (forall j id tok, j ∈ l -> ids !! Z.to_nat j = Some id -> valid !! Z.to_nat j = Some [tok] ->
    exists r', requests t' !! id = Some r' /\ last (output_token_ids r') = Some tok) /\
  (forall id, (forall j, j ∈ l -> ids !! Z.to_nat j <> Some id) -> requests t' !! id = requests t !! id) /\
  _pending_token_writeback s' = _pending_token_writeback s /\
  prev_sampled_token_ids (input_batch s') = prev_sampled_token_ids (input_batch s) /\
  prev_req_id_to_index (input_batch s') = prev_req_id_to_index (input_batch s).
Proof.
  intros Ca Hnd. revert ws s t Ca. induction Hnd as [|j l Hj Hnd IH]; intros ws s t Ca Hb Hval Hstart; cbn [foldM].
  { intros [= <-]. exists s. split; [done|]. split; [|split; [by intros j id Hj%not_elem_of_nil|split; [done|]]].
    - destruct Ca as [S Hi Ir]. split; [|done|done]. eapply sim_ext; [|exact S]. intros id. cbn. by rewrite app_nil_r.
    - split; [by intros j id tok Hj%not_elem_of_nil|done]. }
  destruct (cache_sampled false max_model_len valid [] t j) as [t1|] eqn:E1; [|done]. cbn [mbind res_bind]. intros E2.
  destruct (Hb j ltac:(by left)) as [Hj0 Hj1]. destruct (at_some ids j) as [id Hid]; [lia|].
  pose proof (Hval j ltac:(by left)) as Hvj. case_decide as Hinv.
  - destruct (cache_discarded valid invalid s t t1 j Hj0 Hinv Hvj E1) as [-> ->]. cbn [mbind res_bind].
    destruct (IH ws s t Ca) as (s' & -> & Ca' & H1 & H2 & H6 & H7 & H3); [set_solver|set_solver|set_solver|done|].
    exists s'. split; [done|]. split; [|split; [|split; [|split; [|split; [|done]]]]].
    + destruct Ca' as [S Hi Ir]. split; [|done|done]. eapply sim_ext; [|exact S]. intros id'. cbn. by rewrite Hid, Hvj.
    + intros j' id' [->|Hj']%elem_of_cons Hn; [done|by apply H1].
    + intros id' Hn. apply H2. intros j' Hj'. apply Hn. by right.
    + intros j' id' tok [->|Hj']%elem_of_cons Hid' Hv'; [congruence|by apply (H6 j' id' tok)].
    + intros id' Hn. apply H7. intros j' Hj'. apply Hn. by right.
  - destruct Hvj as (tok & Hvj & Htok). destruct (caching_row _ _ _ _ _ _ Ca Hj0 Hid) as (Hx & r & Hr).
    destruct (cache_one_sim ws ids s t j id r valid invalid tok t1 Ca Hid Hr Hj0 Hinv Hvj Htok E1)
      as (s1 & -> & Ca1 & Hpos & Hpend & Hother & Hother' & Hreq & Hp1 & Hp2). cbn [mbind res_bind].
    assert (Hdup : forall j', j' ∈ l -> ids !! Z.to_nat j' <> Some id).
    { intros j' Hj' He. apply Hj. destruct (Hb j' ltac:(by right)) as [Hb0 _].
      destruct (caching_row _ _ _ _ _ _ Ca Hb0 He) as [Hx' _]. rewrite Hx in Hx'. by injection Hx' as ->. }
    rewrite (Hstart j id r ltac:(by left) Hid Hr) in Ca1, Hpos.
    destruct (IH _ s1 t1 Ca1) as (s' & -> & Ca' & H1 & H2 & H6 & H7 & H3 & H4 & H5); [set_solver|set_solver| |done|].
    { intros j' id' r' Hj' Hid' Hr'. apply (Hstart j' id' r'); [by right|done|]. rewrite <- Hother; [done|].
      intros ->. by apply (Hdup j'). }
    exists s'. split; [done|]. split; [|split; [|split; [|split; [|split; [|split; [|split]]]]]]; [..|congruence|congruence|congruence].
    + destruct Ca' as [S' Hi' Ir']. split; [|done|done]. eapply sim_ext; [|exact S']. intros id'. cbn. rewrite Hid, Hvj.
      unfold more, only. case_decide; subst; [by rewrite <- app_assoc|done].
    + intros j' id' [->|Hj']%elem_of_cons Hn Hid'; [|by apply (H1 j')]. rewrite Hid in Hid'. injection Hid' as <-.
      rewrite H2, Hpos by done. by rewrite od_get_set_eq.
    + intros id' Hn. rewrite H2 by (intros j' Hj'; apply Hn; by right). rewrite Hpos.
      rewrite od_get_set_ne; [done|]. intros ->. apply (Hn j); [by left|done].
    + intros j' id' tok' [->|Hj']%elem_of_cons Hid' Hv'; [|by apply (H6 j' id' tok')].
      rewrite Hid in Hid'. injection Hid' as <-. rewrite H7 by done. rewrite Hvj in Hv'. by injection Hv' as <-.
    + intros id' Hn. rewrite H7 by (intros j' Hj'; apply Hn; by right). apply Hother'. intros ->.
      apply (Hn j); [by left|done].
Qed.

(** ** The tail of a step *)

(** One row of one token per request, and the placeholder only for requests that are discarded. *)
Definition sampled_ok (ids : list string) (gone : list Z) (sampled : list (list Z)) : Prop :=
  length sampled = length ids /\
  forall j row, sampled !! j = Some row -> exists t, row = [t] /\ (Z.of_nat j ∈ gone \/ t <> -1).

Lemma sampled_single ids gone sampled : sampled_ok ids gone sampled -> forallb (fun row => len row =? 1) sampled = true.
Proof.
  intros [_ Hs]. apply Is_true_true, forallb_True, Forall_forall. intros row [j Hj]%list_elem_of_lookup.
  by destruct (Hs j row Hj) as (t & -> & _).
Qed.

(** What the entry of a step writes is what the loop added. *)
Lemma writes_news ids valid start pos (invalid : list Z) :
  (forall j, j ∈ py_range (len ids) -> if decide (j ∈ invalid) then valid !! Z.to_nat j = Some []
     else exists tok, valid !! Z.to_nat j = Some [tok] /\ tok <> -1) ->
  (forall j id, j ∈ py_range (len ids) -> j ∉ invalid -> ids !! Z.to_nat j = Some id -> od_get id pos = Some (start id)) ->
  forall id, writes {| w_req_ids := ids; w_tokens := valid; w_pos := pos |} id = news ids valid start (py_range (len ids)) id.
Proof.
  intros Hval Hpos id. unfold writes, writes_at, news. cbn [w_req_ids].
  assert (Hgen : forall l, (forall j, j ∈ l -> j ∈ py_range (len ids)) ->
    forall ks, (forall i j, l !! i = Some j -> ks !! i = ids !! Z.to_nat j) -> length ks = length l ->
    (zip l ks ≫= (fun ii => only ii.2 (write1 {| w_req_ids := ids; w_tokens := valid; w_pos := pos |} ii.1 ii.2) id)) =
    (l ≫= fun j => match ids !! Z.to_nat j, valid !! Z.to_nat j with
                   | Some id', Some (t :: _) => only id' [(start id', t)] id | _, _ => [] end)).
  { intros l. induction l as [|j l IH]; intros Hin [|k ks] Hks Hlen; try done. cbn [zip zip_with mbind list_bind].
    rewrite IH; [|set_solver|intros i j' Hi; by apply (Hks (Datatypes.S i))|by injection Hlen]. f_equal.
    pose proof (Hks 0%nat j eq_refl) as Hk. cbn in Hk. rewrite <- Hk. unfold write1. cbn [fst snd w_tokens w_pos].
    specialize (Hval j ltac:(set_solver)). case_decide as Hinv; [rewrite Hval; unfold only; by case_decide|].
    destruct Hval as (tok & -> & _). by rewrite (Hpos j k) by set_solver. }
  apply Hgen; [done| |].
  - intros i j Hi. unfold py_range in Hi. apply lookup_seqZ in Hi as [-> Hi]. by rewrite Z.add_0_l, Nat2Z.id.
  - unfold py_range, len. rewrite length_seqZ. lia.
Qed.

Lemma sim_pos ws s t pos : sim width ws s t -> sim width ws (with_pos pos s) t.
Proof. intros []. by split. Qed.

(** Fields that are not about tokens. *)
Lemma sim_side ws s t b b' : sim width ws s t ->
  (forall x, view b x = view (input_batch s) x) -> (forall x, view b' x = view (input_batch t) x) ->
  same_shape b b' -> slots width b -> slots width b' -> sim width ws (with_batch b s) (with_batch b' t).
Proof. intros [] Hv Hv' Sh Sl Sl'. split; try done. intros id. cbn. by rewrite Hv, Hv'. Qed.

(** The rows that are kept in step with the batch, for the next step to read. *)
Definition remembered (ids : list string) (gone : list Z) : gmap string Z :=
  list_to_map (reverse ((fun ii => (ii.2, ii.1)) <$> filter (fun ii => ii.1 ∉ gone) (zip (py_range (len ids)) ids))).

Lemma remembered_at ids gone id j : NoDup ids ->
  remembered ids gone !! id = Some j <-> 0 <= j /\ ids !! Z.to_nat j = Some id /\ j ∉ gone.
Proof.
  intros Hnd. unfold remembered.
  assert (Hin : forall k i, (k, i) ∈ zip (py_range (len ids)) ids <-> 0 <= k /\ ids !! Z.to_nat k = Some i) by (intros; apply enumerate_elem).
  rewrite <- elem_of_list_to_map.
  - rewrite elem_of_reverse, list_elem_of_fmap. split.
    + intros ([k i] & [= -> ->] & Hki). apply list_elem_of_filter in Hki as [Hg Hki]. cbn in Hg. apply Hin in Hki as [H0 Hi].
      by split.
    + intros (H0 & Hi & Hg). exists (j, id). split; [done|]. apply list_elem_of_filter. split; [done|]. by apply Hin.
  - rewrite fmap_reverse, reverse_Permutation, <- list_fmap_compose.
    apply (sublist_NoDup _ ((zip (py_range (len ids)) ids).*2)).
    + rewrite snd_zip; [done|]. unfold py_range, len. rewrite length_seqZ. lia.
    + apply (fmap_sublist snd), sublist_filter.
Qed.

(** The state the loop starts from. *)
Definition async_start (h : Tensor) (s : Runner) : Runner :=
  let b := with_prev None (prev_req_id_to_index (input_batch s)) (input_batch s) in
  with_pos [] (with_batch (with_prev (Some h) (Some (remembered (req_ids (input_batch s)) (discarded s)))
                             (rewind_generators (discarded s) b)) s).

Lemma after_sampling_async `{BatchOps} s h sampled : forallb (fun row => len row =? 1) sampled = true ->
  after_sampling true max_model_len h sampled s =
  s' ← foldM (cache_sampled true max_model_len [] (discarded s)) (async_start h s) (py_range (len sampled));
  Ok (s', inr {| _sampled_token_ids := h; _invalid_req_indices := discarded s;
                 _req_ids := req_ids (input_batch s'); _output_pos := _placeholder_pos s' |}).
Proof.
  intros Hs. unfold after_sampling, _bookkeeping_sync, valid_tokens. cbn [prev_sampled_token_ids input_batch with_batch with_prev
    rewind_generators with_generators]. rewrite Hs. cbn [require mbind res_bind].
  match goal with |- (foldM _ ?x _ ≫= _) ≫= _ = _ => change x with (async_start h s) end.
  change (discarded (with_batch _ _)) with (discarded s). by destruct (foldM _ (async_start h s) _).
Qed.

Lemma after_sampling_known `{BatchOps} t h sampled : forallb (fun row => len row =? 1) sampled = true ->
  after_sampling false max_model_len h sampled t =
  valid ← clear_rows (discarded t) sampled;
  t' ← foldM (cache_sampled false max_model_len valid [])
         (with_batch (rewind_generators (discarded t) (input_batch t)) t) (py_range (len sampled));
  Ok (t', inl valid).
Proof.
  intros Hs. unfold after_sampling, _bookkeeping_sync, valid_tokens. rewrite Hs.
  change (discarded (with_batch _ t)) with (discarded t). destruct (clear_rows (discarded t) sampled) as [valid|]; [|done].
  cbn [mbind res_bind]. by destruct (foldM _ _ _).
Qed.

Lemma no_news ids valid start l id :
  (forall j, j ∈ l -> ids !! Z.to_nat j = Some id -> valid !! Z.to_nat j = Some []) -> news ids valid start l id = [].
Proof.
  intros Hn. unfold news. induction l as [|j l IH]; [done|]. cbn. rewrite IH by (intros j' Hj'; apply Hn; by right).
  rewrite app_nil_r. destruct (ids !! Z.to_nat j) as [id'|] eqn:Hi; [|done].
  destruct (decide (id = id')) as [->|Hne]; [by rewrite (Hn j) by (by left || done)|].
  destruct (valid !! Z.to_nat j) as [[|]|]; try done. unfold only. by rewrite decide_False.
Qed.

(** What a sampled step leaves: the output object, and what the next step remembers. *)
Record sampled_step `{BatchOps} (d : Device) (h : Tensor) (ws : string -> list (Z * Z)) (s t' : Runner) (sampled valid : list (list Z))
    (s' : Runner) (a : AsyncRBLNModelRunnerOutput) (w : Writeback) : Prop := {
  ss_run : after_sampling true max_model_len h sampled s = Ok (s', inr a);
  ss_tensor : _sampled_token_ids a = h;
  ss_read : read_tensor d h = sampled;
  ss_fetch : forall p, get_output d a p = Ok (valid, p ++ [w]);
  ss_entry : entry_ok w;
  ss_sim : sim width (fun id => ws id ++ writes w id) s' t';
  ss_in_rows : in_rows (input_batch s');
  ss_pending : _pending_token_writeback s' = _pending_token_writeback s;
  ss_sampled : prev_sampled_token_ids (input_batch s') = Some h;
  ss_index_kept : exists m, prev_req_id_to_index (input_batch s') = Some m /\
    (forall id, m !! id = None -> writes w id = []) /\
    forall id j, m !! id = Some j -> 0 <= j /\ exists tok r', sampled !! Z.to_nat j = Some [tok] /\
      requests t' !! id = Some r' /\ last (output_token_ids r') = Some tok
}.

(** A request that is not remembered writes nothing. *)
Lemma unremembered_quiet ids gone valid start id : NoDup ids ->
  (forall j, j ∈ py_range (len ids) -> if decide (j ∈ gone) then valid !! Z.to_nat j = Some []
     else exists tok, valid !! Z.to_nat j = Some [tok] /\ tok <> -1) ->
  remembered ids gone !! id = None -> news ids valid start (py_range (len ids)) id = [].
Proof.
  intros Hnd Hv Hid. apply no_news. intros j Hj Hi. specialize (Hv j Hj). case_decide as Hg; [done|].
  assert (Hsome : remembered ids gone !! id = Some j); [|congruence].
  apply remembered_at; [done|]. apply py_range_elem in Hj. split; [lia|done].
Qed.

Lemma start_caching ws s t h : sim width ws s t -> in_rows (input_batch s) ->
  caching ws (req_ids (input_batch s)) (async_start h s) (with_batch (rewind_generators (discarded t) (input_batch t)) t).
Proof.
  intros S Ir. split; [|done|done]. apply sim_pos. apply (sim_side ws s t _ _ S); [done|done|..].
  - destruct (si_shape _ _ _ _ S). by split.
  - destruct (si_slots _ _ _ _ S). by split.
  - destruct (si_slots' _ _ _ _ S). by split.
Qed.

(** The rows after the discarded ones are cleared. *)
Section cleared.
Context (gone : list Z) (sampled valid : list (list Z)).
Hypothesis rows_ok : forall j row, sampled !! j = Some row -> exists t, row = [t] /\ (Z.of_nat j ∈ gone \/ t <> -1).
Hypothesis cleared : forall j, valid !! j = if decide (Z.of_nat j ∈ gone) then (fun _ => []) <$> sampled !! j else sampled !! j.

Lemma cleared_row j : 0 <= j < len sampled -> if decide (j ∈ gone) then valid !! Z.to_nat j = Some []
  else exists tok, valid !! Z.to_nat j = Some [tok] /\ tok <> -1.
Proof.
  intros Hj. rewrite cleared, Z2Nat.id by lia. destruct (at_some sampled j Hj) as [row Hrow].
  rewrite Hrow. case_decide as Hg; [done|].
  destruct (rows_ok _ _ Hrow) as (tok & -> & [Hin|Htok]); [by rewrite Z2Nat.id in Hin by lia|by exists tok].
Qed.

Lemma cleared_short : Forall (fun ts => (length ts <= 1)%nat) valid.
Proof.
  apply Forall_forall. intros ts [j Hj]%list_elem_of_lookup. rewrite cleared in Hj.
  destruct (sampled !! j) as [row|] eqn:Hrow; [|by case_decide]. case_decide; injection Hj as <-; [cbn; lia|].
  by destruct (rows_ok _ _ Hrow) as (tok & -> & _).
Qed.
End cleared.

Lemma after_sampling_sim `{BatchOps} d h h' ws s t sampled t' out : sim width ws s t -> in_rows (input_batch s) ->
  read_tensor d h = sampled -> sampled_ok (req_ids (input_batch s)) (discarded s) sampled ->
  after_sampling false max_model_len h' sampled t = Ok (t', out) ->
  exists valid s' a w, out = inl valid /\ sampled_step d h ws s t' sampled valid s' a w.
Proof.
  intros S Ir Hread Hs. pose proof (sampled_single _ _ _ Hs) as Hsingle. destruct Hs as [Hlen Hrows].
  pose proof (ss_ids _ _ (si_shape _ _ _ _ S)) as Hids. set (ids := req_ids (input_batch s)) in *.
  set (gone := discarded s).
  assert (Hgone : discarded t = gone) by (symmetry; apply discarded_same; [done|apply S]).
  assert (Hl : len sampled = len ids) by (unfold len; by rewrite Hlen).
  destruct (clear_rows_ok gone sampled) as (valid & Hclear & Hvl & Hval).
  { rewrite Hl. apply discarded_bounds. }
  rewrite after_sampling_known, Hgone, Hclear by done. cbn [mbind res_bind].
  set (t1 := with_batch (rewind_generators gone (input_batch t)) t).
  destruct (foldM (cache_sampled false max_model_len valid []) t1 _) as [t2|] eqn:Et; [|done]. cbn [mbind res_bind].
  intros [= <- <-]. set (s1 := async_start h s).
  pose proof (start_caching ws s t h S Ir) as Ca. rewrite Hgone in Ca. fold ids s1 t1 in Ca.
  assert (Hin : forall j, j ∈ py_range (len sampled) -> 0 <= j < len ids) by (intros j Hj%py_range_elem; lia).
  assert (Hv : forall j, j ∈ py_range (len sampled) -> if decide (j ∈ gone) then valid !! Z.to_nat j = Some []
                 else exists tok, valid !! Z.to_nat j = Some [tok] /\ tok <> -1).
  { intros j Hj. apply (cleared_row gone sampled valid Hrows Hval). apply Hin in Hj. lia. }
  set (start id := match requests s !! id with Some r => cached_num_tokens r | None => 0 end).
  assert (Hnd : NoDup (py_range (len sampled))) by apply NoDup_seqZ.
  destruct (cache_loop_sim ws ids valid gone start _ s1 t1 t2 Ca Hnd Hin Hv) as
    (s' & Es & Ca' & Hpos & _ & Hlast & _ & Hpend & Hp1 & Hp2); [|exact Et|].
  { intros j id r _ _ Hr. unfold start. change (requests s1) with (requests s) in Hr. by rewrite Hr. }
  set (w := {| w_req_ids := ids; w_tokens := valid; w_pos := _placeholder_pos s' |}).
  exists valid, s', {| _sampled_token_ids := h; _invalid_req_indices := gone; _req_ids := ids;
    _output_pos := _placeholder_pos s' |}, w. split; [done|]. rewrite Hl in Hv, Hpos, Hlast, Ca'.
  assert (Hw : forall id, writes w id = news ids valid start (py_range (len ids)) id).
  { apply (writes_news ids valid start _ gone Hv). intros j id Hj Hg Hi. by apply (Hpos j). }
  split; try done.
  - rewrite after_sampling_async by done. fold gone s1. rewrite Es. cbn [mbind res_bind]. by rewrite (ca_ids _ _ _ _ Ca').
  - intros p. unfold get_output. cbn [_invalid_req_indices _sampled_token_ids]. by rewrite Hread, Hclear.
  - by apply (cleared_short gone sampled).
  - eapply sim_ext; [|apply Ca']. intros id. cbn. by rewrite Hw.
  - apply Ca'.
  - exists (remembered ids gone). split; [done|].
    pose proof (fun id j => remembered_at ids gone id j (proj1 Ir)) as Hrem. split.
    + intros id Hid. rewrite Hw. apply (unremembered_quiet ids gone); [apply Ir|done|done].
    + intros id j (Hj & Hi & Hg)%Hrem. split; [done|]. pose proof (lookup_lt_Some _ _ _ Hi).
      assert (Hjr : j ∈ py_range (len ids)) by (apply py_range_elem; unfold len; lia).
      specialize (Hv j Hjr). rewrite decide_False in Hv by done. destruct Hv as (tok & Hvj & _).
      destruct (Hlast j id tok Hjr Hi Hvj) as (r' & Hr' & Hlr). exists tok, r'. split; [|done].
      rewrite Hval, Z2Nat.id, decide_False in Hvj by done. done.
Qed.
End sampling.
