(* ===== verification/RunnerTokensRing.v ===== *)
(** * Model runner: the buffers of sampled tokens

    A sampling writes the one of the two buffers that the newest output does not hold, so
    outputs keep their tokens while at most one of them is late. *)
From S2P Require Import Prelude CoreUtils RunnerTokens.

Definition buffer_of (a : AsyncRBLNModelRunnerOutput) : nat := t_buffer (_sampled_token_ids a).
Definition tokens_of (d : Device) (a : AsyncRBLNModelRunnerOutput) : list (list Z) := read_tensor d (_sampled_token_ids a).

Definition ring_ok (d : Device) : Prop :=
  _sampled_token_ring d = [] \/
  exists a b, _sampled_token_ring d = [a; b] /\ a <> b /\ (a < length (memory d))%nat /\ (b < length (memory d))%nat /\
    (_ring_slot d = 0 \/ _ring_slot d = 1)%nat.

(** The buffer that the next sampling writes, if the shape stays. *)
Definition next_buffer (d : Device) : option nat := _sampled_token_ring d !! _ring_slot d.

Record device_ok (d : Device) (outs : list AsyncRBLNModelRunnerOutput) : Prop := {
  dv_ring : ring_ok d;
  dv_outs : Forall (fun a => buffer_of a < length (memory d))%nat outs;
  dv_last : forall a, last outs = Some a -> next_buffer d <> Some (buffer_of a)
}.

(** [rows] are written to [buf], and at most the next buffer is lost. *)
Record written (d d' : Device) (buf : nat) (rows : list (list Z)) : Prop := {
  wr_rows : memory d' !! buf = Some rows;
  wr_ring : ring_ok d';
  wr_more : (length (memory d) <= length (memory d'))%nat;
  wr_next : next_buffer d' <> Some buf
}.

Lemma ring_below d k : ring_ok d -> next_buffer d = Some k -> (k < length (memory d))%nat.
Proof.
  unfold next_buffer. intros [->|(a & b & -> & _ & Ha & Hb & [->| ->])]; [done|..]; cbn; by intros [= <-].
Qed.

Lemma new_buffer_ok rows d : ring_ok d -> let '(buf, d') := new_buffer rows d in
  written d d' buf rows /\ (forall k, (k < length (memory d))%nat -> memory d' !! k = memory d !! k) /\ next_buffer d' = next_buffer d.
Proof.
  intros Hr. unfold new_buffer. assert (Hlen : length (memory d ++ [rows]) = S (length (memory d))) by (rewrite length_app; cbn; lia).
  split; [split; cbn [memory]|split; [|done]].
  - by rewrite lookup_app_r, Nat.sub_diag by lia.
  - destruct Hr as [->|(a & b & -> & Hab & Ha & Hb & Hs)]; [by left|right]. exists a, b. cbn [memory _sampled_token_ring _ring_slot].
    rewrite Hlen. repeat (split; [done || lia|]). done.
  - lia.
  - intros Hn. apply (ring_below d) in Hn; [lia|done].
  - intros k Hk. cbn [memory]. by rewrite lookup_app_l.
Qed.

Lemma renew_ring_ok out d : let d' := renew_ring out d in
  ring_ok d' /\ (length (memory d) <= length (memory d'))%nat /\ next_buffer d' = Some (length (memory d)) /\
  forall k, (k < length (memory d))%nat -> memory d' !! k = memory d !! k.
Proof.
  intros d'. assert (Hlen : length (memory d') = S (S (length (memory d)))) by (cbn; rewrite length_app; cbn; lia).
  split; [|split; [lia|split; [done|intros k Hk; cbn; by rewrite lookup_app_l]]].
  right. exists (length (memory d)), (S (length (memory d))). rewrite Hlen. repeat (split; [done || lia|]). by left.
Qed.

Lemma write_ring_ok out d : ring_ok d -> _sampled_token_ring d <> [] -> exists buf, next_buffer d = Some buf /\
  let d' := {| memory := <[buf := out]> (memory d); _sampled_token_ring := _sampled_token_ring d; _ring_slot := (1 - _ring_slot d)%nat |} in
  written d d' buf out /\ forall k, next_buffer d <> Some k -> memory d' !! k = memory d !! k.
Proof.
  intros [Hn|(a & b & Hr & Hab & Ha & Hb & Hs)] Hne; [done|].
  assert (Hc : exists buf other, next_buffer d = Some buf /\ [a; b] !! (1 - _ring_slot d)%nat = Some other /\ buf <> other /\
    (buf < length (memory d))%nat).
  { unfold next_buffer. rewrite Hr. destruct Hs as [->| ->]; [exists a, b|exists b, a]; by repeat split. }
  destruct Hc as (buf & other & Hbuf & Hother & Hne' & Hlt). exists buf. split; [done|]. intros d'. split; [split|].
  - cbn. by apply list_lookup_insert_eq.
  - right. exists a, b. cbn [memory _sampled_token_ring _ring_slot d']. rewrite length_insert. repeat (split; [done|]). destruct Hs as [->| ->]; auto.
  - cbn. by rewrite length_insert.
  - unfold next_buffer. cbn [_sampled_token_ring _ring_slot d']. rewrite Hr, Hother. congruence.
  - intros k Hk. cbn. apply list_lookup_insert_ne. congruence.
Qed.

Lemma stage_into_ok out d : ring_ok d -> exists buf d', _stage_into out d = Ok (buf, d') /\ written d d' buf out /\
  forall k, (k < length (memory d))%nat -> next_buffer d <> Some k -> memory d' !! k = memory d !! k.
Proof.
  intros Hr. unfold _stage_into. destruct (other_shape out d) eqn:Hsh.
  - destruct (renew_ring_ok out d) as (R1 & R2 & R3 & R4).
    destruct (write_ring_ok out (renew_ring out d) R1) as (buf & Hb & W & K); [done|].
    unfold next_buffer in Hb. rewrite Hb. cbn [of_option mbind res_bind]. eexists _, _. split; [done|]. split.
    + destruct W as [W1 W2 W3 W4]. split; [done|done|lia|done].
    + intros k Hk _. rewrite K; [by apply R4|]. rewrite R3. intros [= <-]. lia.
  - destruct (write_ring_ok out d Hr) as (buf & Hb & W & K); [intros Hn; unfold other_shape in Hsh; by rewrite Hn in Hsh|].
    unfold next_buffer in Hb. rewrite Hb. cbn [of_option mbind res_bind]. eexists _, _. split; [done|]. split; [done|].
    intros k _. apply K.
Qed.

Lemma written_read d d' buf rows n : written d d' buf rows -> read_tensor d' {| t_buffer := buf; t_len := n |} = py_take n rows.
Proof. intros W. unfold read_tensor. cbn [t_buffer t_len]. by rewrite (wr_rows _ _ _ _ W). Qed.

Lemma device_next d d' outs a rows : device_ok d outs -> written d d' (buffer_of a) rows -> device_ok d' (outs ++ [a]).
Proof.
  intros D W. split; [apply W| |].
  - apply Forall_app. split; [|constructor; [|done]].
    + eapply Forall_impl; [apply D|]. intros x Hx. pose proof (wr_more _ _ _ _ W). cbn in *. lia.
    + apply (lookup_lt_Some _ _ _ (wr_rows _ _ _ _ W)).
  - intros x. rewrite last_snoc. intros [= <-]. apply W.
Qed.

Lemma device_fetch d a outs : device_ok d (a :: outs) -> device_ok d outs.
Proof.
  intros [Hr Ho Hl]. apply Forall_cons in Ho as [_ Ho]. split; [done|done|]. intros x Hx. apply Hl. by destruct outs.
Qed.

(** At most one output is late: it is the newest. *)
Lemma late_kept d d' outs : device_ok d outs -> len outs <= 1 ->
  (forall k, (k < length (memory d))%nat -> next_buffer d <> Some k -> memory d' !! k = memory d !! k) ->
  forall a, a ∈ outs -> tokens_of d' a = tokens_of d a.
Proof.
  intros D Hle Hk a Ha. unfold tokens_of, read_tensor. fold (buffer_of a). rewrite Hk; [done| |].
  - pose proof (dv_outs _ _ D) as Ho. rewrite Forall_forall in Ho. by apply Ho.
  - apply (dv_last _ _ D). destruct outs as [|x [|y l]]; [by apply not_elem_of_nil in Ha| |unfold len in Hle; cbn in Hle; lia].
    by apply list_elem_of_singleton in Ha as ->.
Qed.

(** [_sample] answers with the rows of the step, and leaves the late output alone. *)
Lemma sample_ok staging x s s1 d outs : device_ok d outs -> (staging = true -> len outs <= 1) ->
  (if is_intermediate_chunked_prefill x then s1 = s
   else _repair_async_output_token_ids (sp_needs_output x) d s = Ok s1) -> input_batch s1 = input_batch s ->
  exists d' h, _sample staging x s d = Ok (s1, d', h) /\ read_tensor d' h = sampled_rows x s /\
    (forall a, a ∈ outs -> tokens_of d' a = tokens_of d a) /\
    forall a, _sampled_token_ids a = h -> device_ok d' (outs ++ [a]).
Proof.
  intros D Hle Hs1 Hb. pose proof (dv_ring _ _ D) as Hr. unfold _sample, sampled_rows.
  pose proof (dv_outs _ _ D) as Ho. rewrite Forall_forall in Ho.
  assert (Hnew : forall rows n, let '(buf, d') := new_buffer rows d in let h := {| t_buffer := buf; t_len := n |} in
    read_tensor d' h = py_take n rows /\ (forall a, a ∈ outs -> tokens_of d' a = tokens_of d a) /\
    forall a, _sampled_token_ids a = h -> device_ok d' (outs ++ [a])).
  { intros rows n. pose proof (new_buffer_ok rows d Hr) as Hn. destruct (new_buffer rows d) as [buf d']. destruct Hn as (W & K & _).
    split; [by eapply written_read|]. split.
    - intros a Ha. unfold tokens_of, read_tensor. fold (buffer_of a). by rewrite K by (by apply Ho).
    - intros a Ha. eapply device_next; [done|]. unfold buffer_of. rewrite Ha. exact W. }
  destruct (is_intermediate_chunked_prefill x).
  - subst s1. specialize (Hnew [[-1]] 1). destruct (new_buffer [[-1]] d) as [buf d']. by exists d', {| t_buffer := buf; t_len := 1 |}.
  - rewrite Hs1. cbn [mbind res_bind]. rewrite Hb. destruct staging.
    + destruct (stage_into_ok (sp_sampled x) d Hr) as (buf & d' & -> & W & K). cbn [mbind res_bind fst snd].
      exists d', {| t_buffer := buf; t_len := len (req_ids (input_batch s)) |}. split; [done|].
      split; [by eapply written_read|]. split; [by eapply late_kept; auto|].
      intros a Ha. eapply device_next; [done|]. unfold buffer_of. rewrite Ha. exact W.
    + specialize (Hnew (sp_sampled x) (len (req_ids (input_batch s)))). destruct (new_buffer (sp_sampled x) d) as [buf d'].
      cbn [mbind res_bind fst snd]. by exists d', {| t_buffer := buf; t_len := len (req_ids (input_batch s)) |}.
Qed.
