(* ===== verification/RunnerTokensMain.v ===== *)
(** * Model runner: an asynchronous run settles to the synchronous one *)
From S2P Require Import Prelude CoreUtils KvLayout RunnerTokens RunnerTokensSpec RunnerTokensSim RunnerTokensRun RunnerTokensRing.

(** ** The repair of the output lists *)
Section repair.
Context (width : Z).

(** What the next step remembers: one token per row, and rows that exist. *)
Definition prev_ok (d : Device) (b : InputBatch) : Prop :=
  match prev_sampled_token_ids b, prev_req_id_to_index b with
  | Some h, Some m => Forall (fun row => exists t, row = [t]) (read_tensor d h) /\
      forall id j, m !! id = Some j -> 0 <= j < len (read_tensor d h)
  | _, _ => True
  end.

Lemma firsts (sampled : list (list Z)) : Forall (fun row => exists t, row = [t]) sampled -> exists host,
  mapM (fun row => of_option (row !! 0%nat) IndexError) sampled = Ok host /\
  length host = length sampled /\ forall j t, sampled !! j = Some [t] -> host !! j = Some t.
Proof.
  induction 1 as [|row sampled (t & ->) Hs (host & Hh & Hl & Hat)]; [by exists []|].
  cbn [mapM lookup list_lookup of_option mbind res_bind]. rewrite Hh. cbn [mbind res_bind]. exists (t :: host).
  split; [done|]. split; [by cbn; rewrite Hl|]. intros [|j] u Hu; [by injection Hu as ->|by apply Hat].
Qed.

Lemma full_last r x : last (output_token_ids r) = Some x ->
  full (with_output (py_take (len (output_token_ids r) - 1) (output_token_ids r) ++ [x]) r) = full r.
Proof.
  intros [l Hl]%last_Some. unfold full. cbn. rewrite Hl. do 2 f_equal. unfold py_take.
  rewrite len_app. cbn. replace (Z.to_nat (len l + len [x] - 1)) with (length l) by (unfold len; cbn; lia).
  by rewrite take_app_length.
Qed.

Lemma repair_settled ws r r' tok : agrees ws r r' -> covered ws r -> last (output_token_ids r) = Some (-1) ->
  let fixed := with_output (py_take (len (output_token_ids r) - 1) (output_token_ids r) ++ [tok]) r in
  agrees ws fixed r' /\ covered ws fixed /\ cached_num_tokens fixed = cached_num_tokens r.
Proof.
  intros A C Hlast fixed. apply last_Some in Hlast as [l Hl].
  assert (Hf : fixed = with_output (l ++ [tok]) r).
  { unfold fixed, py_take. rewrite Hl, len_app. cbn. replace (Z.to_nat (len l + len [-1] - 1)) with (length l) by (unfold len; cbn; lia).
    by rewrite take_app_length. }
  assert (Hk : output_token_ids r !! length l = Some (-1)) by (rewrite Hl; by apply list_lookup_middle).
  destruct (C _ Hk) as [t Ht]. rewrite Hf. split; [split; try apply A|split].
  - change (num_prompt (with_output _ r)) with (num_prompt r).
    assert (Hfull : full (with_output (l ++ [tok]) r) = <[(length (prompt_token_ids r) + length l)%nat := tok]> (full r)).
    { unfold full. cbn. rewrite Hl, insert_app_r. f_equal. by rewrite insert_app_r_alt, Nat.sub_diag by lia. }
    rewrite Hfull, settle_covered; [apply A|apply len_nonneg| |unfold num_prompt, len; lia].
    exists t. replace (Z.of_nat _) with (num_prompt r + Z.of_nat (length l)) by (unfold num_prompt, len; lia). done.
  - intros k Hk'. cbn in Hk'. change (num_prompt (with_output _ r)) with (num_prompt r).
    destruct (decide (k = length l)) as [->|Hne]; [by exists t|]. apply C. rewrite Hl.
    pose proof (lookup_lt_Some _ _ _ Hk') as Hlt. rewrite length_app in Hlt. cbn in Hlt.
    rewrite lookup_app_l in * by lia. done.
  - unfold cached_num_tokens. cbn. by rewrite Hl, !len_app.
Qed.

Lemma repair_one_sim ws s t sampled m id r : sim width ws s t -> requests s !! id = Some r ->
  Forall (fun row => exists t, row = [t]) sampled -> (forall id j, m !! id = Some j -> 0 <= j < len sampled) ->
  exists s', repair_output sampled m s id = Ok s' /\ sim width ws s' t /\ kept s s' /\
    input_batch s' = input_batch s /\ dom (requests s') = dom (requests s).
Proof.
  intros S Hr Hs Hm. unfold repair_output. destruct (m !! id) as [j|] eqn:Hj; [|by exists s].
  rewrite Hr. cbn [of_option mbind res_bind]. case_bool_decide as Hlast; [|by exists s].
  destruct (firsts sampled Hs) as (host & -> & Hl & _). cbn [mbind res_bind]. destruct (Hm _ _ Hj) as [H0 H1].
  destruct (at_some host j) as [tok Htok]; [unfold len in *; lia|]. rewrite py_nth_at, Htok by done. cbn [of_option mbind res_bind].
  eexists. split; [done|]. split; [|split; [by split|split; [done|cbn; rewrite dom_insert_L; apply elem_of_dom_2 in Hr; set_solver]]].
  pose proof (si_at _ _ _ _ S id) as R. rewrite Hr in R. destruct (requests t !! id) as [r'|] eqn:Hr'; [|inversion R].
  apply request_sim_Some in R as (A & C & Rw). destruct (repair_settled _ _ _ tok A C Hlast) as (A' & C' & Hn).
  eapply (sim_change ws ws _ _ _ _ id S); try done; [apply S|apply S|apply S|apply S| |].
  - intros id' Hne. cbn. by rewrite lookup_insert_ne.
  - cbn. rewrite lookup_insert_eq, Hr'. apply request_sim_Some. split; [done|]. split; [done|].
    destruct Rw as [?|(toks & Hv & Hv' & Hlt & Hst)]; [by left|]. right. exists toks. by rewrite Hn.
Qed.
End repair.

(** ** Runs on both sides *)
Section runs.
Context `{BatchLaws width} (max_model_len : Z) (staging : bool).
Hypothesis fits : max_model_len <= width.

(** An output object and the entry it queues. *)
Definition queues (d : Device) (a : AsyncRBLNModelRunnerOutput) (w : Writeback) : Prop :=
  exists valid, forall p, get_output d a p = Ok (valid, p ++ [w]).

Lemma queues_same d d' outs wl : (forall a, a ∈ outs -> tokens_of d' a = tokens_of d a) ->
  Forall2 (queues d) outs wl -> Forall2 (queues d') outs wl.
Proof.
  intros Ht Hq. induction Hq as [|a w outs wl (valid & Ha) Hq IH]; [constructor|]. constructor; [|apply IH; set_solver].
  exists valid. intros p. rewrite <- Ha. unfold get_output. specialize (Ht a ltac:(by left)). unfold tokens_of in Ht. by rewrite Ht.
Qed.

(** The entries queued and those to come settle the asynchronous run to the synchronous one. *)
Definition follows (d : Device) (s : Runner) (outs : list AsyncRBLNModelRunnerOutput) (wl : list Writeback) (t : Runner) : Prop :=
  device_ok d outs /\ Forall2 (queues d) outs wl /\ Forall entry_ok (_pending_token_writeback s ++ wl) /\
  sim width (all_writes (_pending_token_writeback s ++ wl)) s t /\ prev_ok d (input_batch s).

Lemma all_writes_app l l' id : all_writes (l ++ l') id = all_writes l id ++ all_writes l' id.
Proof. apply bind_app. Qed.

Lemma repair_list_sim ws sampled m ids s t : sim width ws s t -> (forall id, id ∈ ids -> is_Some (requests s !! id)) ->
  Forall (fun row => exists t, row = [t]) sampled -> (forall id j, m !! id = Some j -> 0 <= j < len sampled) ->
  exists s', foldM (repair_output sampled m) s ids = Ok s' /\ sim width ws s' t /\ kept s s' /\ input_batch s' = input_batch s.
Proof.
  intros S Hin Hs Hm. revert s S Hin. induction ids as [|id ids IH]; intros s S Hin; [by exists s|]. cbn [foldM].
  destruct (Hin id) as [r Hr]; [by left|].
  destruct (repair_one_sim width ws s t sampled m id r S Hr Hs Hm) as (s1 & -> & S1 & K1 & B1 & D1). cbn [mbind res_bind].
  destruct (IH s1 S1) as (s2 & -> & S2 & K2 & B2).
  { intros id' Hid'. apply elem_of_dom. rewrite D1. apply elem_of_dom, Hin. by right. }
  exists s2. split; [done|]. split; [done|]. split; [by etrans|congruence].
Qed.

Lemma repair_sim d ws needed s t : sim width ws s t -> in_rows (input_batch s) -> prev_ok d (input_batch s) -> exists s',
  _repair_async_output_token_ids needed d s = Ok s' /\ sim width ws s' t /\ kept s s' /\ input_batch s' = input_batch s.
Proof.
  intros S Ir Hp. unfold _repair_async_output_token_ids, prev_ok in *. destruct needed; [|by exists s].
  destruct (prev_sampled_token_ids (input_batch s)) as [h|]; [|by exists s].
  destruct (prev_req_id_to_index (input_batch s)) as [m|]; [|by exists s]. destruct Hp as [Hs Hm].
  apply repair_list_sim; try done. intros id [i Hi]%list_elem_of_lookup.
  assert (Hx : req_id_to_index (input_batch s) !! id = Some (Z.of_nat i)) by (apply (proj2 Ir); by rewrite Nat2Z.id; split; [lia|]).
  destruct (proj2 (view_in width _ id (si_slots _ _ _ _ S))) as [? Hv]; [by eexists|].
  pose proof (si_at _ _ _ _ S id) as R. rewrite Hv in R. inversion R; subst. by eexists.
Qed.

(** Up to the forward pass. *)
Lemma before_forward d s outs wl t o t' : follows d s outs wl t -> output_ok o -> _update_states true o t = Ok t' -> exists s1 s',
  _apply_pending_token_writeback s = Ok s1 /\ _update_states true o s1 = Ok s' /\
  sim width (all_writes wl) s' t' /\ in_rows (input_batch s') /\ _pending_token_writeback s' = [] /\
  prev_sampled_token_ids (input_batch s') = prev_sampled_token_ids (input_batch s) /\
  prev_req_id_to_index (input_batch s') = prev_req_id_to_index (input_batch s).
Proof.
  intros (Hd & Hq & He & S & Hp) Ho E. apply Forall_app in He as [He _].
  destruct (apply_pending_ok width s (si_slots _ _ _ _ S) (sim_backed _ _ _ _ S) He) as (s1 & E1 & Hp1 & Hs1).
  assert (S0 : sim width (fun id => all_writes (_pending_token_writeback s) id ++ all_writes wl id) (with_pending [] s) t).
  { eapply (sim_ext width); [|destruct S; by split]. intros id. cbn. apply all_writes_app. }
  pose proof (sim_settles width _ _ _ _ _ S0 Hs1) as S1.
  destruct (sim_update_states _ o s1 t t' S1 Ho E) as (s' & E' & S' & Ir & K). destruct (se_prev _ _ _ _ Hs1) as [Q1 Q2].
  exists s1, s'. split; [done|]. split; [done|]. split; [done|]. split; [done|]. split; [|split].
  - rewrite (kp_pending _ _ K). done.
  - rewrite (kp_sampled _ _ K). exact Q1.
  - rewrite (kp_index _ _ K). exact Q2.
Qed.

Lemma with_mask_sim ws mask s t : sim width ws s t -> sim width ws (with_mask mask s) (with_mask mask t).
Proof. intros []. by split. Qed.

(** A step's rows, checked where the batch is known. *)
Definition op_ok (t : Runner) (op : Op) : Prop :=
  match op with
  | Fetch => True
  | Step o x => output_ok o /\ forall t' y, _update_states true o t = Ok t' -> x = Some y ->
      let t' := with_mask (sp_mask y) t' in sampled_ok (req_ids (input_batch t')) (discarded t') (sampled_rows y t')
  end.

(** The repair before the sampler, which a chunk that is not sampled leaves out. *)
Lemma repaired d ws x s t : sim width ws s t -> in_rows (input_batch s) -> prev_ok d (input_batch s) -> exists s',
  (if is_intermediate_chunked_prefill x then s' = s else _repair_async_output_token_ids (sp_needs_output x) d s = Ok s') /\
  sim width ws s' t /\ kept s s' /\ input_batch s' = input_batch s.
Proof.
  intros S Ir Hp. destruct (repair_sim d ws (sp_needs_output x) s t S Ir Hp) as (s' & H1 & H2 & H3 & H4).
  destruct (is_intermediate_chunked_prefill x); [by exists s|by exists s'].
Qed.

(** The forward pass is queued and its tokens are on the device. *)
Lemma sample_follows d s1 t1 wl x h' t' out outs : let s1' := with_mask (sp_mask x) s1 in let t1' := with_mask (sp_mask x) t1 in
  device_ok d outs -> (staging = true -> len outs <= 1) -> sim width (all_writes wl) s1 t1 -> in_rows (input_batch s1) ->
  _pending_token_writeback s1 = [] -> prev_ok d (input_batch s1) -> Forall2 (queues d) outs wl -> Forall entry_ok wl ->
  sampled_ok (req_ids (input_batch t1)) (discarded t1') (sampled_rows x t1') ->
  after_sampling false max_model_len h' (sampled_rows x t1') t1' = Ok (t', out) ->
  exists s2 d' h valid s' a w, _sample staging x s1' d = Ok (s2, d', h) /\
    sampled_step width max_model_len d' h (all_writes wl) s2 t' (sampled_rows x t1') valid s' a w /\
    follows d' s' (outs ++ [a]) (wl ++ [w]) t'.
Proof.
  intros s1' t1' D Hle S Ir Hpend Hp Hq He Hs E. assert (S1 : sim width (all_writes wl) s1' t1') by (by apply with_mask_sim).
  destruct (repaired d (all_writes wl) x s1' t1' S1 Ir Hp) as (s2 & E2 & S2 & K2 & B2).
  destruct (sample_ok staging x s1' s2 d outs D Hle E2 B2) as (d' & h & Esm & Hread & Hold & D').
  pose proof (ss_ids _ _ (si_shape _ _ _ _ S1)) as Hids.
  assert (Hrows : sampled_rows x s1' = sampled_rows x t1') by (unfold sampled_rows; by rewrite Hids). rewrite Hrows in Hread.
  assert (Hids2 : req_ids (input_batch s2) = req_ids (input_batch t1')) by (by rewrite B2).
  destruct (after_sampling_sim width max_model_len fits d' h h' _ s2 t1' (sampled_rows x t1') t' out S2) as (valid & s' & a & w & -> & St);
    [by rewrite B2|exact Hread| |exact E|].
  { rewrite Hids2, (discarded_same s2 t1' Hids2 (si_mask _ _ _ _ S2)). exact Hs. }
  exists s2, d', h, valid, s', a, w. split; [done|]. split; [done|]. pose proof (ss_pending _ _ _ _ _ _ _ _ _ _ _ _ St) as Hpd.
  rewrite (kp_pending _ _ K2) in Hpd. change (_pending_token_writeback s1') with (_pending_token_writeback s1) in Hpd. rewrite Hpend in Hpd.
  split; [apply D', St|split; [|split; [|split]]].
  - apply Forall2_app; [by apply (queues_same d)|]. constructor; [|done]. exists valid. apply St.
  - rewrite Hpd. cbn. apply Forall_app. split; [done|]. constructor; [apply St|done].
  - rewrite Hpd. eapply (sim_ext width); [|apply St]. intros id. cbn [app]. rewrite all_writes_app.
    change (all_writes [w] id) with (writes w id ++ []). by rewrite app_nil_r.
  - unfold prev_ok. rewrite (ss_sampled _ _ _ _ _ _ _ _ _ _ _ _ St), Hread.
    destruct (ss_index_kept _ _ _ _ _ _ _ _ _ _ _ _ St) as (m & -> & _ & Hm). destruct Hs as [_ Hs].
    split; [apply Forall_forall; intros row [j Hj]%list_elem_of_lookup; destruct (Hs j row Hj) as (u & -> & _); by exists u|].
    intros id j Hj. destruct (Hm id j Hj) as (H1 & tok & r' & Htok & _). apply lookup_lt_Some in Htok. unfold len. lia.
Qed.

(** A sampled step, and what it leaves. *)
Lemma sampled_step_follows d s outs wl t o x t' : follows d s outs wl t -> op_ok t (Step o (Some x)) ->
  (staging = true -> len outs <= 1) -> step_sync max_model_len t (Step o (Some x)) = Ok t' ->
  exists s2 d' h sampled valid s' a w ws,
  step_async max_model_len staging (s, d, outs) (Step o (Some x)) = Ok (s', d', outs ++ [a]) /\
  sampled_step width max_model_len d' h ws s2 t' sampled valid s' a w /\ follows d' s' (outs ++ [a]) (wl ++ [w]) t'.
Proof.
  intros F [Ho Hx] Hle. cbn [step_sync step_async]. destruct (_update_states true o t) as [t1|] eqn:E1; [|done]. cbn [mbind res_bind].
  destruct (before_forward d s outs wl t o t1 F Ho E1) as (s0 & s1 & -> & Es1 & S1 & Ir & Hpend & Q1 & Q2).
  cbn [mbind res_bind]. rewrite Es1. cbn [mbind res_bind]. destruct F as (Hd & Hq & He & _ & Hp).
  apply Forall_app in He as [_ He]. assert (Hp1 : prev_ok d (input_batch s1)) by (unfold prev_ok; by rewrite Q1, Q2).
  destruct (after_sampling false max_model_len _ _ _) as [[t2 out]|] eqn:E2; [|done]. cbn [mbind res_bind fst]. intros [= <-].
  destruct (sample_follows d s1 t1 wl x _ t2 out outs Hd Hle S1 Ir Hpend Hp1 Hq He (Hx t1 x eq_refl eq_refl) E2)
    as (s2 & d' & h & valid & s' & a & w & -> & St & F'). cbn [mbind res_bind]. rewrite (ss_read _ _ _ _ _ _ _ _ _ _ _ _ St).
  rewrite (ss_run _ _ _ _ _ _ _ _ _ _ _ _ St). cbn [mbind res_bind fst snd].
  by exists s2, d', h, (sampled_rows x (with_mask (sp_mask x) t1)), valid, s', a, w, (all_writes wl).
Qed.

(** Every step the synchronous run makes, the asynchronous one makes. *)
Lemma step_follows d s outs wl t op t' : follows d s outs wl t -> op_ok t op ->
  (forall o x, op = Step o (Some x) -> staging = true -> len outs <= 1) -> step_sync max_model_len t op = Ok t' ->
  exists s' d' outs' wl', step_async max_model_len staging (s, d, outs) op = Ok (s', d', outs') /\ follows d' s' outs' wl' t' /\
    len outs' = match op with Step _ (Some _) => len outs + 1 | Step _ None => len outs | Fetch => Z.max 0 (len outs - 1) end.
Proof.
  intros F Ho Hle. destruct op as [o [x|]|].
  - intros E. destruct (sampled_step_follows d s outs wl t o x t' F Ho (Hle o x eq_refl) E)
      as (_ & d' & _ & _ & _ & s' & a & w & _ & R & _ & F').
    exists s', d', (outs ++ [a]), (wl ++ [w]). split; [done|]. split; [done|]. by rewrite len_app.
  - cbn [step_sync step_async]. destruct (_update_states true o t) as [t1|] eqn:E1; [|done]. cbn [mbind res_bind].
    destruct (before_forward d s outs wl t o t1 F (proj1 Ho) E1) as (s0 & s1 & -> & Es1 & S1 & Ir & Hpend & Q1 & Q2).
    cbn [mbind res_bind]. rewrite Es1. cbn [mbind res_bind]. destruct F as (Hd & Hq & He & _ & Hp).
    apply Forall_app in He as [_ He]. assert (Hp1 : prev_ok d (input_batch s1)) by (unfold prev_ok; by rewrite Q1, Q2).
    intros [= <-]. exists s1, d, outs, wl. split; [done|]. split; [|done]. unfold follows. by rewrite Hpend.
  - cbn [step_sync step_async]. intros [= <-]. destruct F as (Hd & Hq & He & S & Hp). destruct Hq as [|a w outs wl (valid & Ha) Hq].
    + exists s, d, [], []. split; [done|]. split; [|done]. split; [done|]. split; [constructor|done].
    + rewrite Ha. cbn [mbind res_bind snd]. eexists _, d, outs, wl. split; [done|]. split; [|rewrite len_cons; pose proof (len_nonneg outs); lia].
      split; [by eapply device_fetch|]. split; [done|].
      split; [cbn; by rewrite <- app_assoc|]. split; [|done]. eapply (sim_ext width); [|destruct S; by split].
      intros id. cbn. by rewrite <- app_assoc.
Qed.
End runs.
