(* ===== verification/RunnerTokensTheorems.v ===== *)
(** * Model runner: the theorems about asynchronous scheduling *)
From S2P Require Import Prelude CoreUtils KvLayout RunnerTokens RunnerTokensSpec RunnerTokensSim RunnerTokensRun RunnerTokensRing RunnerTokensMain.

(** ** Repairing the staged rows *)
Lemma set_first_all (l : list (Z * Z)) (staged : list (list Z)) : NoDup l.*1 ->
  (forall p, p ∈ l -> 0 <= p.1 /\ exists x rest, at_ staged p.1 = Some (x :: rest)) ->
  exists staged', foldM set_first staged l = Ok staged' /\
    (forall p x rest, p ∈ l -> at_ staged p.1 = Some (x :: rest) -> at_ staged' p.1 = Some (p.2 :: rest)) /\
    (forall i, 0 <= i -> (forall p, p ∈ l -> p.1 <> i) -> at_ staged' i = at_ staged i).
Proof.
  revert staged. induction l as [|[i t] l IH]; intros staged Hnd Hin; cbn [foldM].
  { exists staged. split; [done|]. split; [by intros p x rest Hp%not_elem_of_nil|done]. }
  cbn in Hnd. apply NoDup_cons in Hnd as [Hi Hnd]. destruct (Hin (i, t)) as (Hi0 & x & rest & Hx); [by left|]. cbn [fst] in *.
  unfold set_first at 2. cbn [fst snd]. rewrite py_nth_at, Hx by done. cbn [of_option mbind res_bind].
  assert (Hne : forall p, p ∈ l -> p.1 <> i).
  { intros p Hp He. apply Hi. apply list_elem_of_fmap. by exists p. }
  assert (Hother : forall k, 0 <= k -> k <> i -> at_ (<[Z.to_nat i := t :: rest]> staged) k = at_ staged k).
  { intros k Hk Hki. apply list_lookup_insert_ne. lia. }
  destruct (IH (<[Z.to_nat i := t :: rest]> staged) Hnd) as (staged' & -> & H1 & H2).
  { intros p Hp. destruct (Hin p) as (Hp0 & Hp1); [by right|]. split; [done|]. by rewrite Hother by (done || by apply Hne). }
  exists staged'. split; [done|]. split.
  - intros p y rest' [->|Hp]%elem_of_cons Hy; cbn [fst snd] in *.
    + rewrite H2 by (lia || intros q Hq; by apply Hne). rewrite Hx in Hy. injection Hy as <- <-.
      apply list_lookup_insert_eq, (lookup_lt_Some _ _ _ Hx).
    + apply (H1 p y); [done|]. destruct (Hin p) as (Hp0 & _); [by right|]. by rewrite Hother by (done || by apply Hne).
  - intros k Hk Hp. rewrite H2; [|done|intros q Hq; apply Hp; by right]. apply Hother; [done|].
    intros ->. by apply (Hp (i, t) ltac:(by left)).
Qed.

Lemma prev_rows_elem m ids i j : (i, j) ∈ prev_rows m ids <-> 0 <= i /\ exists id, at_ ids i = Some id /\ m !! id = Some j.
Proof.
  unfold prev_rows. rewrite list_elem_of_omap. split.
  - intros ([i' id] & Hin & Hf). apply enumerate_elem in Hin as [H0 Hi]. cbn in Hf.
    destruct (m !! id) as [j'|] eqn:Hj; [|done]. cbn in Hf. injection Hf as <- <-. split; [done|]. by exists id.
  - intros (H0 & id & Hi & Hj). exists (i, id). split; [by apply enumerate_elem|]. cbn. by rewrite Hj.
Qed.

Lemma prev_rows_NoDup m ids : NoDup (prev_rows m ids).*1.
Proof.
  unfold prev_rows. assert (Hnd : NoDup (zip (py_range (len ids)) ids).*1).
  { rewrite fst_zip; [apply NoDup_seqZ|]. unfold py_range, len. rewrite length_seqZ. lia. }
  induction (zip (py_range (len ids)) ids) as [|[i id] l IH]; [constructor|]. cbn in Hnd. apply NoDup_cons in Hnd as [Hi Hnd].
  cbn. destruct (m !! id) as [j|]; [|by apply IH]. cbn. apply NoDup_cons. split; [|by apply IH].
  intros ([i' j'] & He & Hin)%list_elem_of_fmap. cbn in He. subst i'. apply list_elem_of_omap in Hin as ([i' id'] & Hin & Hf).
  cbn in Hf. destruct (m !! id'); [|done]. cbn in Hf. injection Hf as -> <-. apply Hi, list_elem_of_fmap. by exists (i, id').
Qed.

(** Without a gap every row is repaired. *)
Lemma no_gap m (ids : list string) : existsb (fun id => bool_decide (m !! id = None)) ids = false ->
  (prev_rows m ids).*1 = py_range (len ids).
Proof.
  intros Hs. unfold prev_rows.
  assert (Hfst : (zip (py_range (len ids)) ids).*1 = py_range (len ids)).
  { apply fst_zip. unfold py_range, len. rewrite length_seqZ. lia. }
  rewrite <- Hfst at 2. clear Hfst.
  assert (Hall : forall ii, ii ∈ zip (py_range (len ids)) ids -> is_Some (m !! ii.2)).
  { intros [i id] Hin. apply elem_of_zip_r in Hin. cbn. destruct (m !! id) eqn:Hm; [by eexists|]. exfalso.
    assert (Ht : existsb (fun id => bool_decide (m !! id = None)) ids = true); [|congruence].
    apply existsb_exists. exists id. split; [by apply list_elem_of_In|]. by apply bool_decide_eq_true. }
  induction (zip (py_range (len ids)) ids) as [|[i id] l IH]; [done|]. cbn.
  destruct (Hall (i, id) ltac:(by left)) as [j Hj]. cbn in Hj. rewrite Hj. cbn. rewrite IH; [done|].
  intros ii Hii. apply Hall. by right.
Qed.

(** The copied prefix, without a gap, is what row by row would be written. *)
Lemma updates_ok m ids (staged : list (list Z)) (host : list Z) (n : Z) : let pairs := prev_rows m ids in
  n = len host -> (forall i j, (i, j) ∈ pairs -> 0 <= i /\ (exists id, at_ ids i = Some id /\ m !! id = Some j) /\ 0 <= j < n) ->
  exists l, (if negb (existsb (fun id => bool_decide (m !! id = None)) ids) && bool_decide (pairs.*1 = pairs.*2)
    then foldM set_first staged (zip (py_range (len pairs)) (py_take (len pairs) host))
    else tokens ← mapM (fun prev => of_option (py_nth host prev) IndexError) (pairs.*2); foldM set_first staged (zip (pairs.*1) tokens))
    = foldM set_first staged l /\ l.*1 = pairs.*1 /\
    forall i t, (i, t) ∈ l -> exists j, (i, j) ∈ pairs /\ at_ host j = Some t.
Proof.
  intros pairs Hn Hp. destruct (negb _ && _) eqn:Eb.
  - apply andb_prop in Eb as [Hskip%negb_true_iff Heq%bool_decide_eq_true].
    pose proof (no_gap m ids Hskip) as Hfst. fold pairs in Hfst.
    assert (Hlp : len pairs = len ids).
    { pose proof (f_equal length Hfst) as Hf. unfold py_range in Hf. rewrite length_fmap, length_seqZ in Hf. unfold len in *. lia. }
    assert (Hdiag : forall i, 0 <= i < len pairs -> (i, i) ∈ pairs).
    { intros i Hi. assert (H1 : at_ pairs.*1 i = Some i) by (rewrite Hfst; apply py_range_at; lia).
      assert (H2 : at_ pairs.*2 i = Some i) by (by rewrite <- Heq). rewrite list_lookup_fmap in H1. rewrite list_lookup_fmap in H2.
      destruct (at_ pairs i) as [[x y]|] eqn:E; [|done]. cbn in *. injection H1 as ->. injection H2 as ->.
      apply (list_elem_of_lookup_2 _ _ _ E). }
    assert (Hle : len pairs <= len host).
    { destruct (Z.eq_dec (len pairs) 0) as [->|Hne]; [apply len_nonneg|]. pose proof (len_nonneg pairs).
      destruct (Hp (len pairs - 1) (len pairs - 1)) as (_ & _ & ?); [apply Hdiag; lia|lia]. }
    eexists. split; [done|]. split.
    + rewrite Hfst, <- Hlp. apply fst_zip. unfold py_range, py_take, len in *. rewrite length_seqZ, length_take. lia.
    + intros i t [k Hk]%list_elem_of_lookup. apply lookup_zip_Some in Hk as [Hi Ht].
      unfold py_range in Hi. apply lookup_seqZ in Hi as [-> Hk]. rewrite Z.add_0_l. exists (Z.of_nat k).
      split; [apply Hdiag; lia|]. rewrite Nat2Z.id. unfold py_take in Ht. by apply lookup_take_Some in Ht as [Ht _].
  - destruct (mapM_total (fun j t => at_ host j = Some t) (fun prev => of_option (py_nth host prev) IndexError) (pairs.*2)) as (tokens & Ht & Hall).
    { intros j ([i j'] & -> & Hin)%list_elem_of_fmap. destruct (Hp i j' Hin) as (_ & _ & Hj). cbn.
      destruct (at_some host j') as [t Htk]; [lia|]. exists t. rewrite py_nth_at, Htk by lia. done. }
    rewrite Ht. cbn [mbind res_bind]. eexists. split; [done|]. pose proof (Forall2_length _ _ _ Hall) as Hlen. rewrite !length_fmap in Hlen. split.
    + apply fst_zip. rewrite length_fmap. lia.
    + intros i t [k Hk]%list_elem_of_lookup. apply lookup_zip_Some in Hk as [Hi Htk].
      rewrite list_lookup_fmap in Hi. destruct (pairs !! k) as [[i' j]|] eqn:E; [|done]. cbn in Hi. injection Hi as ->.
      exists j. split; [apply (list_elem_of_lookup_2 _ _ _ E)|].
      apply (Forall2_lookup_lr _ _ _ k j t Hall); [by rewrite list_lookup_fmap, E|done].
Qed.

(** The rows that are written and what they get. *)
Lemma repair_rows_ok d h b ids staged sampled m : prev_sampled_token_ids b = Some h -> read_tensor d h = sampled -> prev_req_id_to_index b = Some m ->
  Forall (fun row => exists t, row = [t]) sampled -> (forall id j, m !! id = Some j -> 0 <= j < len sampled) ->
  (forall i id, 0 <= i -> at_ ids i = Some id -> exists x rest, at_ staged i = Some (x :: rest)) ->
  exists staged', _repair_staged_input_ids false d b ids staged = Ok staged' /\
    forall i id x rest, 0 <= i -> at_ ids i = Some id -> at_ staged i = Some (x :: rest) ->
      at_ staged' i = Some (match m !! id with
                            | Some j => default 0 (at_ sampled j ≫= fun row => row !! 0%nat)
                            | None => x
                            end :: rest).
Proof.
  intros Hps Hd Hpi Hs Hm Hst. unfold _repair_staged_input_ids. rewrite Hps, Hpi, Hd. set (pairs := prev_rows m ids).
  assert (Hp : forall i j, (i, j) ∈ pairs -> 0 <= i /\ (exists id, at_ ids i = Some id /\ m !! id = Some j) /\ 0 <= j < len sampled).
  { intros i j Hin. apply prev_rows_elem in Hin as (H0 & id & Hi & Hj). split; [done|]. split; [by exists id|]. by apply (Hm id). }
  case_bool_decide as Hnone.
  { exists staged. split; [done|]. intros i id x rest Hi Hid Hx. destruct (m !! id) as [j|] eqn:Hj; [|done].
    exfalso. assert (Hin : (i, j) ∈ pairs) by (apply prev_rows_elem; split; [done|by exists id]).
    rewrite Hnone in Hin. by apply not_elem_of_nil in Hin. }
  destruct (firsts sampled Hs) as (host & Hhost & Hlen & Hat). rewrite Hhost. cbn [mbind res_bind].
  assert (Hl : exists l, (if negb (existsb (fun id => bool_decide (m !! id = None)) ids) && bool_decide (pairs.*1 = pairs.*2)
      then foldM set_first staged (zip (py_range (len pairs)) (py_take (len pairs) host))
      else tokens ← mapM (fun prev => of_option (py_nth host prev) IndexError) (pairs.*2); foldM set_first staged (zip (pairs.*1) tokens))
      = foldM set_first staged l /\ l.*1 = pairs.*1 /\
      forall i t, (i, t) ∈ l -> exists j, (i, j) ∈ pairs /\ at_ host j = Some t) by (apply (updates_ok m ids staged host (len sampled)); [unfold len; lia|done]).
  destruct Hl as (l & -> & Hfst & Hsnd).
  destruct (set_first_all l staged) as (staged' & Hok & H1 & H2).
  { rewrite Hfst. apply prev_rows_NoDup. }
  { intros [i t] Hin. destruct (Hsnd i t Hin) as (j & Hj & _). destruct (Hp i j Hj) as (H0 & (id & Hid & _) & _).
    split; [done|]. by apply (Hst i id). }
  exists staged'. split; [done|]. intros i id x rest Hi Hid Hx. destruct (m !! id) as [j|] eqn:Hj.
  - assert (Hin : i ∈ l.*1).
    { rewrite Hfst. apply list_elem_of_fmap. exists (i, j). split; [done|]. apply prev_rows_elem. split; [done|by exists id]. }
    apply list_elem_of_fmap in Hin as ([i' t] & He & Hin). cbn in He. subst i'. destruct (Hsnd i t Hin) as (j' & Hj' & Ht).
    destruct (Hp i j' Hj') as (_ & (id' & Hid' & Hm') & _). rewrite Hid in Hid'. injection Hid' as <-. rewrite Hj in Hm'. injection Hm' as <-.
    pose proof (H1 (i, t) x rest Hin Hx) as Hf. cbn [fst snd] in Hf. rewrite Hf. do 2 f_equal. rewrite Forall_forall in Hs.
    destruct (at_some sampled j) as [row Hrow]; [by apply (Hm id)|]. rewrite Hrow. cbn.
    destruct (Hs row (list_elem_of_lookup_2 _ _ _ Hrow)) as (u & ->). rewrite (Hat _ _ Hrow) in Ht. by injection Ht as ->.
  - rewrite H2; [done|done|]. intros [i' t] Hin He. cbn in He. subst i'. destruct (Hsnd i t Hin) as (j & Hj' & _).
    destruct (Hp i j Hj') as (_ & (id' & Hid' & Hm') & _). congruence.
Qed.

(** ** A decode step leaves the tokens alone until it samples *)
Definition keeps_tokens (t t' : Runner) : Prop :=
  forall id r', requests t' !! id = Some r' -> exists r, requests t !! id = Some r /\
    prompt_token_ids r' = prompt_token_ids r /\ output_token_ids r' = output_token_ids r.

(** No request starts, and none has lost output tokens. *)
Definition plain_decode (t : Runner) (o : SchedulerOutput) : Prop :=
  scheduled_new_reqs o = [] /\
  forall c r, c ∈ scheduled_cached_reqs o -> requests t !! cr_id c = Some r -> len (output_token_ids r) <= cr_num_output c.

Section decode.
Context `{BatchLaws width}.

Lemma update_cached_keeps t0 o t adds i c t' adds' : keeps_tokens t0 t ->
  (forall r, requests t0 !! cr_id c = Some r -> len (output_token_ids r) <= cr_num_output c) ->
  update_cached true o (t, adds) (i, c) = Ok (t', adds') -> keeps_tokens t0 t'.
Proof.
  intros K Hc. rewrite update_cached_last. destruct (requests t !! cr_id c) as [r|] eqn:Hr; [|done]. cbn [of_option mbind res_bind].
  destruct (K _ _ Hr) as (r0 & Hr0 & Hp0 & Ho0). specialize (Hc r0 Hr0).
  unfold sync_output. cbn [output_token_ids with_computed]. rewrite Ho0.
  destruct (Z.ltb_spec (cr_num_output c) (len (output_token_ids r0))); [lia|]. cbn [mbind res_bind fst snd].
  destruct (update_blocks _ _ _) as [r2|] eqn:E2; [|done]. cbn [mbind res_bind].
  assert (H2 : prompt_token_ids r2 = prompt_token_ids r0 /\ output_token_ids r2 = output_token_ids r0).
  { unfold update_blocks in E2. destruct (cr_resumed c), (cr_new_block_ids c); try (destruct (bool_decide _)); cbn in E2;
      try done; injection E2 as <-; cbn; by rewrite ?Hp0, ?Ho0. }
  destruct (req_id_to_index (input_batch t) !! cr_id c) as [idx|].
  - destruct (close_cached _ _ _ _) as [b|]; [|done]. cbn [mbind res_bind]. intros [= <- <-] id r'. cbn.
    destruct (decide (id = cr_id c)) as [->|Hne]; [rewrite lookup_insert_eq; intros [= <-]; by exists r0|].
    rewrite lookup_insert_ne by done. apply K.
  - intros [= <- <-] id r'. cbn.
    destruct (decide (id = cr_id c)) as [->|Hne]; [rewrite lookup_insert_eq; intros [= <-]; by exists r0|].
    rewrite lookup_insert_ne by done. apply K.
Qed.

Lemma add_list_keeps t0 o l t t' : keeps_tokens t0 t -> foldM (add_to_batch o) t l = Ok t' -> keeps_tokens t0 t'.
Proof.
  revert t. induction l as [|id l IH]; intros t K; cbn [foldM]; [by intros [= <-]|].
  destruct (add_to_batch o t id) as [t1|] eqn:E; [|done]. cbn [mbind res_bind]. apply IH.
  unfold add_to_batch in E. destruct (requests t !! id); [|done]. cbn [of_option mbind res_bind] in E.
  destruct (add_request _ _ _); [|done]. cbn [mbind res_bind] in E. by injection E as <-.
Qed.

Lemma cached_list_keeps t0 o l t adds t' adds' : keeps_tokens t0 t ->
  (forall ic r, ic ∈ l -> requests t0 !! cr_id ic.2 = Some r -> len (output_token_ids r) <= cr_num_output ic.2) ->
  foldM (update_cached true o) (t, adds) l = Ok (t', adds') -> keeps_tokens t0 t'.
Proof.
  revert t adds. induction l as [|[i c] l IH]; intros t adds K Hl; cbn [foldM]; [by intros [= <- <-]|].
  destruct (update_cached true o (t, adds) (i, c)) as [[t1 adds1]|] eqn:E; [|done]. cbn [mbind res_bind]. apply IH.
  - eapply update_cached_keeps; [exact K| |exact E]. intros r. apply (Hl (i, c)). by left.
  - intros ic r Hic. apply Hl. by right.
Qed.

Lemma update_keeps o t t' : plain_decode t o -> _update_states true o t = Ok t' -> keeps_tokens t t'.
Proof.
  intros [Hnew Hc]. unfold _update_states. rewrite Hnew. cbn [foldl fmap list_fmap].
  set (t1 := drop_unscheduled o (drop_finished (finished_req_ids o) t)).
  assert (K1 : keeps_tokens t t1).
  { intros id r'. cbn. rewrite delete_many. case_decide; [done|]. intros Hr. by exists r'. }
  destruct (foldM (update_cached true o) _ _) as [[t2 adds]|] eqn:E2; [|done]. cbn [mbind res_bind].
  assert (K2 : keeps_tokens t t2).
  { eapply cached_list_keeps; [exact K1| |exact E2]. intros [i c] r Hic. apply elem_of_zip_r in Hic. by apply Hc. }
  destruct (foldM (add_to_batch o) t2 adds) as [t3|] eqn:E3; [|done]. cbn [mbind res_bind]. intros [= <-].
  apply (add_list_keeps _ _ _ _ _ K2 E3).
Qed.
End decode.

(** ** Whole runs *)
Lemma foldM_app {S A} (f : S -> A -> res S) s l l' : foldM f s (l ++ l') = s' ← foldM f s l; foldM f s' l'.
Proof. revert s. induction l as [|x l IH]; intros s; [done|]. cbn [app foldM]. destruct (f s x); [|done]. cbn. apply IH. Qed.

Section theorems.
Context `{BatchLaws width} (max_model_len : Z) (staging : bool).
Hypothesis fits : max_model_len <= width.

Definition run_sync : Runner -> list Op -> res Runner := foldM (step_sync max_model_len).
Definition run_async : Runner * Device * list AsyncRBLNModelRunnerOutput -> list Op ->
    res (Runner * Device * list AsyncRBLNModelRunnerOutput) := foldM (step_async max_model_len staging).

(** There are two buffers: when a step samples, at most one output is still to be fetched. *)
Fixpoint fetched_in_time (late : Z) (ops : list Op) : bool :=
  match ops with
  | [] => true
  | Fetch :: ops => fetched_in_time (Z.max 0 (late - 1)) ops
  | Step _ None :: ops => fetched_in_time late ops
  | Step _ (Some _) :: ops => (late <=? 1) && fetched_in_time (late + 1) ops
  end.

Definition late_after (late : Z) (op : Op) : Z :=
  match op with Step _ (Some _) => late + 1 | Step _ None => late | Fetch => Z.max 0 (late - 1) end.

Lemma fetched_in_time_app late ops ops' :
  fetched_in_time late (ops ++ ops') = fetched_in_time late ops && fetched_in_time (foldl late_after late ops) ops'.
Proof.
  revert late. induction ops as [|[o [x|]|] ops IH]; intros late; cbn; rewrite ?IH; try done. by rewrite andb_assoc.
Qed.

(** The rows of every step, along the synchronous run. *)
Fixpoint ops_ok (t : Runner) (ops : list Op) : Prop :=
  match ops with
  | [] => True
  | op :: ops => op_ok t op /\ forall t', step_sync max_model_len t op = Ok t' -> ops_ok t' ops
  end.

(** A runner that has served nothing. *)
Record fresh (s : Runner) : Prop := {
  fr_requests : requests s = ∅;
  fr_index : req_id_to_index (input_batch s) = ∅;
  fr_pending : _pending_token_writeback s = [];
  fr_prev : prev_sampled_token_ids (input_batch s) = None
}.

Lemma fresh_follows s d : fresh s -> _sampled_token_ring d = [] -> follows (width := width) d s [] [] s.
Proof.
  intros [Hr Hi Hp Hs] Hd. unfold follows. rewrite Hp. split; [split; [by left|constructor|done]|]. split; [constructor|].
  split; [constructor|]. split.
  - split; try done.
    + split; rewrite Hi; done.
    + split; rewrite Hi; done.
    + intros id w Hw. by apply not_elem_of_nil in Hw.
    + intros id. rewrite Hr. unfold view. rewrite Hi. constructor.
  - unfold prev_ok. by rewrite Hs.
Qed.

Lemma run_follows d s outs wl t ops t' : follows (width := width) d s outs wl t -> ops_ok t ops ->
  (staging = true -> fetched_in_time (len outs) ops = true) -> run_sync t ops = Ok t' ->
  exists s' d' outs' wl', run_async (s, d, outs) ops = Ok (s', d', outs') /\ follows (width := width) d' s' outs' wl' t' /\
    len outs' = foldl late_after (len outs) ops.
Proof.
  revert d s outs wl t. unfold run_sync, run_async. induction ops as [|op ops IH]; intros d s outs wl t F Ho Ht; cbn [foldM].
  - intros [= <-]. by exists s, d, outs, wl.
  - destruct Ho as [Hop Ho]. destruct (step_sync max_model_len t op) as [t1|] eqn:E; [|done]. cbn [mbind res_bind]. intros E2.
    destruct (step_follows max_model_len staging fits d s outs wl t op t1 F Hop) as (s1 & d1 & outs1 & wl1 & -> & F1 & Hl); [|exact E|].
    { intros o x -> Hst. specialize (Ht Hst). cbn in Ht. apply andb_prop in Ht as [Ht _]. by apply Z.leb_le. }
    cbn [mbind res_bind foldl]. change (match op with Step _ _ => _ | _ => _ end) with (late_after (len outs) op) in Hl. rewrite <- Hl.
    apply (IH d1 s1 outs1 wl1 t1 F1 (Ho t1 eq_refl)); [|done]. intros Hst. specialize (Ht Hst). rewrite Hl.
    destruct op as [o [x|]|]; cbn in Ht; [by apply andb_prop in Ht as [_ Ht]|done|done].
Qed.

Lemma drain_queues d outs wl pending : Forall2 (queues d) outs wl ->
  foldM (fun pending a => out ← get_output d a pending; Ok out.2) pending outs = Ok (pending ++ wl).
Proof.
  intros Hq. revert pending. induction Hq as [|a w outs wl (valid & Ha) Hq IH]; intros pending; cbn [foldM]; [by rewrite app_nil_r|].
  rewrite Ha. cbn [mbind res_bind snd]. by rewrite IH, <- app_assoc.
Qed.

(** Settled, the two sides hold the same. *)
Lemma sim_settled s t : sim width (fun _ => []) s t ->
  requests s = requests t /\ forall id, view (input_batch s) id = view (input_batch t) id.
Proof.
  intros S. assert (Hag : forall r r', agrees [] r r' -> r = r').
  { intros r r' [Hp Hb Hc Hf]. destruct r, r'. cbn in *. unfold settle, full in Hf. cbn in Hf. subst. by apply app_inv_head in Hf as ->. }
  split.
  - apply map_eq. intros id. pose proof (si_at _ _ _ _ S id) as R. inversion R as [|r r' A C|r r' toks A C]; [done| |]; f_equal; by apply Hag.
  - intros id. pose proof (si_at _ _ _ _ S id) as R. inversion R as [|r r' A C|r r' toks A C Hl Hs]; [done|done|].
    by rewrite (Hag _ _ A) in *; unfold settle in Hs; cbn in Hs; subst.
Qed.

(** C2: As long as at most one output is late whenever a step samples -- the tokens are in two
    buffers written in turns -- an asynchronous run goes through when the synchronous one does,
    whenever its outputs are fetched and written back; and once everything is written the
    requests and the rows of the batch hold the same tokens. *)
Theorem async_run_settles s0 d0 ops t : fresh s0 -> _sampled_token_ring d0 = [] -> ops_ok s0 ops ->
  (staging = true -> fetched_in_time 0 ops = true) -> run_sync s0 ops = Ok t ->
  exists s d outs s', run_async (s0, d0, []) ops = Ok (s, d, outs) /\ drain d s outs = Ok s' /\
    requests s' = requests t /\ forall id, view (input_batch s') id = view (input_batch t) id.
Proof.
  intros Hf Hd Ho Ht E.
  destruct (run_follows d0 s0 [] [] s0 ops t (fresh_follows s0 d0 Hf Hd) Ho Ht E) as (s & d & outs & wl & -> & F & _).
  destruct F as (_ & Hq & He & S & _). exists s, d, outs. unfold drain. rewrite (drain_queues d outs wl) by done. cbn [mbind res_bind].
  set (s1 := with_pending (_pending_token_writeback s ++ wl) s).
  destruct (apply_pending_ok width s1 (si_slots _ _ _ _ S) (sim_backed _ _ _ _ S) He) as (s' & Es & _ & Hs).
  exists s'. split; [done|]. split; [done|]. apply sim_settled.
  assert (S1 : sim width (fun id => all_writes (_pending_token_writeback s1) id ++ []) (with_pending [] s1) t).
  { eapply (sim_ext width); [|destruct S; by split]. intros id. cbn. by rewrite app_nil_r. }
  apply (sim_settles width _ _ _ _ _ S1 Hs).
Qed.

(** *** The inputs of the step after *)
Lemma fetches d s outs wl t k : follows (width := width) d s outs wl t -> exists s',
  run_async (s, d, outs) (replicate k Fetch) = Ok (s', d, drop k outs) /\
  follows (width := width) d s' (drop k outs) (drop k wl) t /\ input_batch s' = input_batch s.
Proof.
  revert s outs wl. unfold run_async. induction k as [|k IH]; intros s outs wl F; [by exists s|]. cbn [replicate foldM].
  pose proof F as (_ & Hq & _). destruct Hq as [|a w outs wl (valid & Ha) Hq].
  - cbn [step_async mbind res_bind]. destruct (IH s [] [] F) as (s' & -> & F' & B'). exists s'.
    rewrite !drop_nil in *. cbn [drop]. done.
  - cbn [step_async]. rewrite Ha. cbn [mbind res_bind snd].
    destruct (IH (with_pending (_pending_token_writeback s ++ [w]) s) outs wl) as (s' & -> & F' & B');
      [|exists s'; split; [done|by split]].
    destruct F as (Hd & _ & He & S & Hp). split; [by eapply device_fetch|]. split; [done|].
    split; [cbn; by rewrite <- app_assoc|]. split; [|done].
    eapply (sim_ext width); [|destruct S; by split]. intros id. cbn. by rewrite <- app_assoc.
Qed.

(** What a request's row ends in before the repair: its last token, unless the last step
    sampled it. *)
Lemma row_before_repair wl m s t id toks p : sim width (all_writes wl) s t ->
  (forall id, m !! id = None -> all_writes wl id = []) -> view (input_batch s) id = Some (toks, p) -> (m : gmap string Z) !! id = None ->
  exists r, requests t !! id = Some r /\ toks = full r.
Proof.
  intros S Hm Hv Hn. pose proof (si_at _ _ _ _ S id) as R. rewrite Hv, (Hm id Hn) in R.
  inversion R as [| |r r' toks' A C Hl Hs]; subst. exists r'. by split.
Qed.

Lemma ops_ok_app t ops ops' : ops_ok t (ops ++ ops') -> ops_ok t ops /\
  forall t', run_sync t ops = Ok t' -> ops_ok t' ops'.
Proof.
  revert t. unfold run_sync. induction ops as [|op ops IH]; intros t; cbn [app ops_ok foldM].
  - intros Ho. split; [done|]. by intros t' [= <-].
  - intros [Hop Ho]. split; [split; [done|]; intros t' E; by apply IH, Ho|].
    intros t'. destruct (step_sync max_model_len t op) as [t1|] eqn:E; [|done]. cbn [mbind res_bind].
    by apply (IH t1 (Ho t1 eq_refl)).
Qed.

(** Every row of a decode holds the last token of its request, as far as the batch knows it. *)
Definition reads_rows (b : InputBatch) (staged : list (list Z)) : Prop :=
  forall i id, 0 <= i -> at_ (req_ids b) i = Some id -> exists toks p y rest,
    view b id = Some (toks, p) /\ last toks = Some y /\ at_ staged i = Some (y :: rest).

(** Every row holds the last token of its request. *)
Definition reads_requests (t : Runner) (staged : list (list Z)) : Prop :=
  forall i id, 0 <= i -> at_ (req_ids (input_batch t)) i = Some id -> exists r y rest,
    requests t !! id = Some r /\ last (full r) = Some y /\ at_ staged i = Some (y :: rest).

Lemma repaired_rows_real d h ws s2 t' sampled valid s' a w wl s t staged :
  sampled_step width max_model_len d h ws s2 t' sampled valid s' a w -> prev_ok d (input_batch s') -> keeps_tokens t' t ->
  (wl = [] \/ wl = [w]) -> sim width (all_writes wl) s t ->
  prev_sampled_token_ids (input_batch s) = prev_sampled_token_ids (input_batch s') ->
  prev_req_id_to_index (input_batch s) = prev_req_id_to_index (input_batch s') ->
  reads_rows (input_batch s) staged -> exists staged',
  _repair_staged_input_ids false d (input_batch s) (req_ids (input_batch s)) staged = Ok staged' /\ reads_requests t staged'.
Proof.
  intros St Hp K Hwl S P1 P2 Hr. destruct (ss_index_kept _ _ _ _ _ _ _ _ _ _ _ _ St) as (m & Em & Hm & Hat).
  rewrite (ss_sampled _ _ _ _ _ _ _ _ _ _ _ _ St) in P1. rewrite Em in P2. pose proof (ss_read _ _ _ _ _ _ _ _ _ _ _ _ St) as Hread.
  assert (Hok : Forall (fun row : list Z => exists t, row = [t]) sampled /\ forall id j, m !! id = Some j -> 0 <= j < len sampled).
  { unfold prev_ok in Hp. by rewrite Em, (ss_sampled _ _ _ _ _ _ _ _ _ _ _ _ St), Hread in Hp. }
  destruct (repair_rows_ok d h (input_batch s) (req_ids (input_batch s)) staged sampled m P1 Hread P2 (proj1 Hok) (proj2 Hok))
    as (staged' & E & Hst).
  { intros i id Hi Hid. destruct (Hr i id Hi Hid) as (toks & p & y & rest & _ & _ & Hy). by exists y, rest. }
  exists staged'. split; [done|]. intros i id Hi Hid. rewrite <- (ss_ids _ _ (si_shape _ _ _ _ S)) in Hid.
  destruct (Hr i id Hi Hid) as (toks & p & y & rest & Hv & Hy & Hrow). pose proof (Hst i id y rest Hi Hid Hrow) as Hrow'.
  destruct (m !! id) as [j|] eqn:Hj.
  - destruct (Hat id j Hj) as (_ & tok & r1 & Htok & Hr1 & Hlast). rewrite Htok in Hrow'. cbn in Hrow'.
    pose proof (si_at _ _ _ _ S id) as R. rewrite Hv in R. inversion R as [| |r r2 toks' A C Hl Hs X1 X2 X3]; subst.
    destruct (K id r2 (eq_sym X2)) as (r1' & Hr1' & _ & Hout). rewrite Hr1 in Hr1'. injection Hr1' as <-.
    exists r2, tok, rest. split; [done|]. split; [|done]. unfold full. rewrite Hout. apply last_Some in Hlast as [l ->].
    by rewrite app_assoc, last_snoc.
  - destruct (row_before_repair wl m s t id toks p S) as (r & Hreq & ->); [|done|done|by exists r, y, rest].
    intros id' Hid'. destruct Hwl as [->| ->]; [done|]. cbn. by rewrite Hm.
Qed.

(** A run that ends in a sampled step. *)
Lemma last_step d0 s0 ops o x t1 : fresh s0 -> _sampled_token_ring d0 = [] -> ops_ok s0 (ops ++ [Step o (Some x)]) ->
  (staging = true -> fetched_in_time 0 (ops ++ [Step o (Some x)]) = true) -> run_sync s0 (ops ++ [Step o (Some x)]) = Ok t1 ->
  exists s' d outs wl h sampled sr valid a w ws, run_async (s0, d0, []) (ops ++ [Step o (Some x)]) = Ok (s', d, outs ++ [a]) /\
    sampled_step width max_model_len d h ws sr t1 sampled valid s' a w /\ follows (width := width) d s' (outs ++ [a]) (wl ++ [w]) t1.
Proof.
  intros Hf Hd0 Ho Ht E. unfold run_sync in E. rewrite foldM_app in E.
  destruct (foldM (step_sync max_model_len) s0 ops) as [t0|] eqn:E0; [|done]. cbn [mbind res_bind foldM] in E.
  destruct (ops_ok_app _ _ _ Ho) as [Ho0 Ho1]. destruct (Ho1 t0 E0) as [Hop _].
  destruct (step_sync max_model_len t0 (Step o (Some x))) as [t1'|] eqn:E1; [|done]. cbn [mbind res_bind] in E. injection E as ->.
  destruct (run_follows d0 s0 [] [] s0 ops t0 (fresh_follows s0 d0 Hf Hd0) Ho0) as (s & d1 & outs0 & wl0 & R0 & F0 & Hl);
    [intros Hst; specialize (Ht Hst); rewrite fetched_in_time_app in Ht; by apply andb_prop in Ht as [Ht _]|exact E0|].
  destruct (sampled_step_follows max_model_len staging fits d1 s outs0 wl0 t0 o x t1 F0 Hop) as
    (sr & d & h & sampled & valid & s' & a & w & ws & R1 & St & F1); [|exact E1|].
  { intros Hst. rewrite Hl. specialize (Ht Hst). rewrite fetched_in_time_app in Ht. apply andb_prop in Ht as [_ Ht].
    cbn in Ht. apply andb_prop in Ht as [Ht _]. by apply Z.leb_le. }
  exists s', d, outs0, wl0, h, sampled, sr, valid, a, w, ws. split; [|done].
  unfold run_async in *. by rewrite foldM_app, R0; cbn [mbind res_bind foldM]; rewrite R1.
Qed.

(** C14: When at most one output was late at every sampling, the step after a sampled one reads
    real tokens: with at most that step's output still to be fetched, the repaired rows of a
    decode hold the last tokens of the synchronous run. *)
Theorem staged_tokens_are_real s0 d0 ops o x t1 t2 k o2 : fresh s0 -> _sampled_token_ring d0 = [] ->
  ops_ok s0 (ops ++ [Step o (Some x)]) -> (staging = true -> fetched_in_time 0 (ops ++ [Step o (Some x)]) = true) ->
  run_sync s0 (ops ++ [Step o (Some x)]) = Ok t1 -> output_ok o2 -> plain_decode t1 o2 -> _update_states true o2 t1 = Ok t2 ->
  exists s1 d outs, run_async (s0, d0, []) ((ops ++ [Step o (Some x)]) ++ replicate k Fetch) = Ok (s1, d, outs) /\
  (len outs <= 1 -> exists s1' s2, _apply_pending_token_writeback s1 = Ok s1' /\ _update_states true o2 s1' = Ok s2 /\
    forall staged, reads_rows (input_batch s2) staged -> exists staged',
      _repair_staged_input_ids false d (input_batch s2) (req_ids (input_batch s2)) staged = Ok staged' /\ reads_requests t2 staged').
Proof.
  intros Hf Hd0 Ho Ht E Ho2 Hd E2. destruct (last_step d0 s0 ops o x t1 Hf Hd0 Ho Ht E)
    as (s' & d & outs0 & wl0 & h & sampled & sr & valid & a & w & ws & R1 & St & F1).
  destruct (fetches d s' _ _ t1 k F1) as (s1 & R2 & F2 & B2). exists s1, d, (drop k (outs0 ++ [a])). split.
  { unfold run_async in *. by rewrite foldM_app, R1. }
  intros Hlen. destruct (before_forward d s1 _ _ t1 o2 t2 F2 Ho2 E2) as (s1' & s2 & A1 & A2 & S2 & _ & _ & P1 & P2).
  exists s1', s2. split; [done|]. split; [done|]. intros staged Hr. rewrite B2 in P1, P2.
  apply (repaired_rows_real d h ws sr t1 sampled valid s' a w (drop k (wl0 ++ [w])) s2 t2 staged St); try done.
  - apply F1.
  - by apply (update_keeps o2).
  - pose proof (Forall2_length _ _ _ (proj1 (proj2 F1))) as Hl. rewrite !length_app in Hl. cbn in Hl.
    unfold len in Hlen. rewrite length_drop, length_app in Hlen. cbn in Hlen. destruct (decide (k <= length wl0)%nat) as [Hk|Hk].
    + right. assert (k = length wl0) as -> by lia. by rewrite drop_app_length.
    + left. apply drop_ge. rewrite length_app. cbn. lia.
Qed.
End theorems.
