(* ===== verification/RunnerTokensUse.v ===== *)
(** * Model runner: a small batch that keeps the promises, and a run *)
From S2P Require Import Prelude CoreUtils KvLayout RunnerTokens RunnerTokensSpec RunnerTokensSim RunnerTokensRun RunnerTokensMain RunnerTokensTheorems.

Module BatchToy.
Definition width : Z := 8.

(** New requests go behind all rows; [condense] packs the rows that are used. *)
Definition behind (b : InputBatch) : nat :=
  Nat.max (length (token_ids_cpu b)) (Nat.max (length (num_tokens_no_spec b))
    (Nat.max (length (num_prompt_tokens b)) (Nat.max (length (is_token_ids b)) (length (num_computed_tokens_cpu b))))).

Definition push {A} (k : nat) (d x : A) (l : list A) : list A := resize k d l ++ [x].

Definition toy_remove (id : string) (b : InputBatch) : InputBatch :=
  {| req_ids := req_ids b; req_id_to_index := delete id (req_id_to_index b); token_ids_cpu := token_ids_cpu b;
     is_token_ids := is_token_ids b; num_tokens_no_spec := num_tokens_no_spec b; num_prompt_tokens := num_prompt_tokens b;
     num_computed_tokens_cpu := num_computed_tokens_cpu b; generators := generators b;
     batch_update_builder := batch_update_builder b; prev_sampled_token_ids := prev_sampled_token_ids b;
     prev_req_id_to_index := prev_req_id_to_index b |}.

Definition toy_add (id : string) (r : CachedRequestState) (b : InputBatch) : res InputBatch :=
  let k := behind b in
  if width <? cached_num_tokens r then Raise ValueError
  else Ok {| req_ids := req_ids b ++ [id]; req_id_to_index := <[id := Z.of_nat k]> (req_id_to_index b);
     token_ids_cpu := push k [] (resize (Z.to_nat width) 0 (full r)) (token_ids_cpu b);
     is_token_ids := push k [] (replicate (Z.to_nat width) true) (is_token_ids b);
     num_tokens_no_spec := push k 0 (cached_num_tokens r) (num_tokens_no_spec b);
     num_prompt_tokens := push k 0 (num_prompt r) (num_prompt_tokens b);
     num_computed_tokens_cpu := push k 0 (cached_num_computed r) (num_computed_tokens_cpu b);
     generators := generators b; batch_update_builder := batch_update_builder b;
     prev_sampled_token_ids := prev_sampled_token_ids b; prev_req_id_to_index := prev_req_id_to_index b |}.

Definition toy_condense (b : InputBatch) : InputBatch :=
  let ids := (map_to_list (req_id_to_index b)).*1 in
  let idx id := default 0 (req_id_to_index b !! id) in
  {| req_ids := ids; req_id_to_index := list_to_map (zip ids (py_range (len ids)));
     token_ids_cpu := (fun id => default [] (at_ (token_ids_cpu b) (idx id))) <$> ids;
     is_token_ids := (fun id => default [] (at_ (is_token_ids b) (idx id))) <$> ids;
     num_tokens_no_spec := (fun id => default 0 (at_ (num_tokens_no_spec b) (idx id))) <$> ids;
     num_prompt_tokens := (fun id => default 0 (at_ (num_prompt_tokens b) (idx id))) <$> ids;
     num_computed_tokens_cpu := (fun id => default 0 (at_ (num_computed_tokens_cpu b) (idx id))) <$> ids;
     generators := generators b; batch_update_builder := batch_update_builder b;
     prev_sampled_token_ids := prev_sampled_token_ids b; prev_req_id_to_index := prev_req_id_to_index b |}.

#[export] Instance toy_ops : BatchOps := {|
  remove_request := toy_remove; add_request := toy_add; append_row := fun _ _ b => b;
  update_req_spec_token_ids := fun _ _ b => b; condense := toy_condense; may_reorder_batch := fun b => b;
  refresh_metadata := fun b => b; parse_output := fun rows _ => rows
|}.

Lemma rows_lengths b b' : same_shape b b' -> length (token_ids_cpu b) = length (token_ids_cpu b').
Proof. intros [_ _ Hr _ _ _ _ _]. apply (f_equal length) in Hr. by rewrite !length_fmap in Hr. Qed.

Lemma behind_same b b' : same_shape b b' -> behind b = behind b'.
Proof. intros Sh. unfold behind. rewrite (rows_lengths b b' Sh). by destruct Sh as [_ _ _ -> -> -> -> _]. Qed.

Lemma push_lengths (k : nat) (x x' : list Z) l l' : length <$> l = length <$> l' -> length x = length x' ->
  length <$> push k [] x l = length <$> push k [] x' l'.
Proof. intros Hl Hx. unfold push. rewrite !fmap_app, !fmap_resize, Hl. cbn. by rewrite Hx. Qed.

Lemma toy_add_shape id r r' b b' c : same_shape b b' -> prompt_token_ids r = prompt_token_ids r' ->
  len (output_token_ids r) = len (output_token_ids r') -> cached_block_ids r = cached_block_ids r' ->
  cached_num_computed r = cached_num_computed r' ->
  toy_add id r b = Ok c -> exists c', toy_add id r' b' = Ok c' /\ same_shape c c'.
Proof.
  intros Sh Hp Ho _ Hc. unfold toy_add. rewrite (behind_same b b' Sh).
  assert (Hn : num_prompt r = num_prompt r') by (unfold num_prompt; by rewrite Hp).
  assert (Hk : cached_num_tokens r = cached_num_tokens r') by (unfold cached_num_tokens; by rewrite Hn, Ho).
  rewrite Hk. destruct (width <? cached_num_tokens r'); [done|]. intros [= <-]. eexists. split; [done|].
  destruct Sh as [H1 H2 H3 H4 H5 H6 H7 H8]. split; cbn; rewrite ?H1, ?H2, ?H4, ?H5, ?H6, ?H7, ?H8, ?Hn, ?Hc; try done.
  apply push_lengths; [done|]. by rewrite !length_resize.
Qed.

Lemma default_length (l : option (list Z)) : length (default [] l) = default 0%nat (length <$> l).
Proof. by destruct l. Qed.

Lemma toy_condense_shape b b' : same_shape b b' -> same_shape (toy_condense b) (toy_condense b').
Proof.
  intros [H1 H2 H3 H4 H5 H6 H7 H8]. split; cbn; rewrite ?H2, ?H4, ?H5, ?H6, ?H7; try done.
  rewrite <- !list_fmap_compose. apply list_fmap_ext. intros i id _. cbn. rewrite !default_length.
  assert (Hat : forall k, length <$> at_ (token_ids_cpu b) k = length <$> at_ (token_ids_cpu b') k).
  { intros k. rewrite <- !list_lookup_fmap. by rewrite H3. }
  by rewrite Hat.
Qed.

Lemma push_old {A} k (d x : A) l i y : (length l <= k)%nat -> l !! i = Some y -> push k d x l !! i = Some y.
Proof.
  intros Hk Hi. pose proof (lookup_lt_Some _ _ _ Hi). unfold push. apply lookup_app_l_Some. by rewrite lookup_resize by lia.
Qed.

Lemma push_new {A} k (d x : A) l : push k d x l !! k = Some x.
Proof. unfold push. rewrite lookup_app_r by (rewrite length_resize; lia). by rewrite length_resize, Nat.sub_diag. Qed.

Lemma toy_add_view b id r b' : slots width b -> req_id_to_index b !! id = None -> toy_add id r b = Ok b' ->
  slots width b' /\ forall id', view b' id' =
    if decide (id' = id) then Some (prompt_token_ids r ++ output_token_ids r, num_prompt r) else view b id'.
Proof.
  intros Sl Hn. unfold toy_add. destruct (Z.ltb_spec width (cached_num_tokens r)) as [|Hw]; [done|]. intros [= <-].
  set (k := behind b). set (c := {| req_ids := _ |}).
  assert (Hk : (length (token_ids_cpu b) <= k /\ length (num_tokens_no_spec b) <= k /\ length (num_prompt_tokens b) <= k)%nat).
  { unfold k, behind. lia. }
  assert (Hlen : len (resize (Z.to_nat width) 0 (full r)) = width) by (unfold len; by rewrite length_resize).
  assert (Hold : forall id' i, id' <> id -> req_id_to_index b !! id' = Some i -> 0 <= i /\ (Z.to_nat i < k)%nat /\
    exists row n p, at_ (token_ids_cpu b) i = Some row /\ at_ (num_tokens_no_spec b) i = Some n /\
      at_ (num_prompt_tokens b) i = Some p /\ at_ (token_ids_cpu c) i = Some row /\ at_ (num_tokens_no_spec c) i = Some n /\
      at_ (num_prompt_tokens c) i = Some p /\ 0 <= n <= len row /\ width <= len row).
  { intros id' i Hne Hi. destruct (sl_row _ _ Sl id' i Hi) as (H0 & row & n & p & Hr & Hc & Hp & Hb).
    split; [done|]. split; [apply lookup_lt_Some in Hr; lia|]. exists row, n, p. cbn. rewrite !(push_old k _ _ _ _ _) by (done || apply Hk).
    done. }
  assert (Hx : 0 <= cached_num_tokens r) by (rewrite <- len_full; apply len_nonneg).
  split; [split|].
  - intros id' i. cbn. destruct (decide (id' = id)) as [->|Hne].
    + rewrite lookup_insert_eq. intros [= <-]. split; [lia|]. rewrite Nat2Z.id.
      eexists _, _, _. rewrite !push_new. repeat (split; [done|]). rewrite Hlen. lia.
    + rewrite lookup_insert_ne by done. intros Hi. destruct (Hold id' i Hne Hi) as (H0 & _ & row & n & p & _ & _ & _ & Hr & Hc & Hp & Hb).
      split; [done|]. by exists row, n, p.
  - intros x y i. cbn. destruct (decide (x = id)) as [->|Hx1], (decide (y = id)) as [->|Hy1]; [done| | |].
    + rewrite lookup_insert_eq, lookup_insert_ne by done. intros [= <-] Hy. destruct (Hold y _ Hy1 Hy) as (_ & Hlt & _). lia.
    + rewrite lookup_insert_ne, lookup_insert_eq by done. intros Hx2 [= <-]. destruct (Hold x _ Hx1 Hx2) as (_ & Hlt & _). lia.
    + rewrite !lookup_insert_ne by done. apply (sl_inj _ _ Sl).
  - intros id'. case_decide as Hd; [subst id'|].
    + rewrite (view_row c id (Z.of_nat k) (resize (Z.to_nat width) 0 (full r)) (cached_num_tokens r) (num_prompt r));
        [|cbn; by rewrite lookup_insert_eq|cbn; by rewrite Nat2Z.id, push_new..].
      do 2 f_equal. unfold py_take. rewrite <- len_full. rewrite resize_ge by (rewrite <- len_full in Hw; unfold len in *; lia).
      unfold len. rewrite Nat2Z.id. by apply take_app_length.
    + destruct (req_id_to_index b !! id') as [i|] eqn:Hi.
      * destruct (Hold id' i Hd Hi) as (_ & _ & row & n & p & Hr & Hc & Hp & Hr' & Hc' & Hp' & _).
        rewrite (view_row b id' i row n p) by done. apply (view_row c id' i row n p); [|done..]. cbn. by rewrite lookup_insert_ne.
      * unfold view. cbn. rewrite lookup_insert_ne by done. by rewrite Hi.
Qed.

Lemma toy_remove_view b id : slots width b -> slots width (toy_remove id b) /\
  forall id', view (toy_remove id b) id' = if decide (id' = id) then None else view b id'.
Proof.
  intros Sl. split; [split|].
  - intros id' i. cbn. intros [_ Hi]%lookup_delete_Some. by apply (sl_row _ _ Sl id').
  - intros x y i. cbn. intros [_ Hx]%lookup_delete_Some [_ Hy]%lookup_delete_Some. by apply (sl_inj _ _ Sl x y i).
  - intros id'. unfold view. cbn. case_decide as Hd; [subst; by rewrite lookup_delete_eq|by rewrite lookup_delete_ne].
Qed.

Definition packed (b : InputBatch) : list string := (map_to_list (req_id_to_index b)).*1.

Lemma packed_NoDup b : NoDup (packed b).
Proof. apply NoDup_fst_map_to_list. Qed.

Lemma packed_in b id : id ∈ packed b <-> is_Some (req_id_to_index b !! id).
Proof.
  unfold packed. rewrite list_elem_of_fmap. split.
  - intros ([id' i] & -> & Hin). apply elem_of_map_to_list in Hin. by eexists.
  - intros [i Hi]. exists (id, i). split; [done|]. by apply elem_of_map_to_list.
Qed.

Lemma packed_index b id i : req_id_to_index (toy_condense b) !! id = Some i <-> 0 <= i /\ at_ (packed b) i = Some id.
Proof.
  cbn. fold (packed b). rewrite <- elem_of_list_to_map.
  - rewrite list_elem_of_lookup. split.
    + intros [k Hk]. apply lookup_zip_Some in Hk as [Hid Hi]. unfold py_range in Hi. apply lookup_seqZ in Hi as [-> Hk].
      rewrite Z.add_0_l, Nat2Z.id. split; [lia|done].
    + intros [Hi Hid]. exists (Z.to_nat i). apply lookup_zip_Some. split; [done|]. apply py_range_at.
      apply lookup_lt_Some in Hid. unfold len. lia.
  - rewrite fst_zip; [apply packed_NoDup|]. unfold py_range, len. rewrite length_seqZ. lia.
Qed.

Lemma toy_condense_view b : slots width b ->
  slots width (toy_condense b) /\ in_rows (toy_condense b) /\ forall id, view (toy_condense b) id = view b id.
Proof.
  intros Sl. assert (Hrow : forall id i, req_id_to_index (toy_condense b) !! id = Some i -> 0 <= i /\ exists row n p,
    at_ (token_ids_cpu (toy_condense b)) i = Some row /\ at_ (num_tokens_no_spec (toy_condense b)) i = Some n /\
    at_ (num_prompt_tokens (toy_condense b)) i = Some p /\ 0 <= n <= len row /\ width <= len row /\ view b id = Some (py_take n row, p)).
  { intros id i [Hi Hid]%packed_index. split; [done|]. destruct (proj1 (packed_in b id)) as [k Hk]; [by eapply list_elem_of_lookup_2|].
    destruct (sl_row _ _ Sl id k Hk) as (H0 & row & n & p & Hr & Hn & Hp & Hb & Hw). exists row, n, p. cbn. fold (packed b).
    rewrite !list_lookup_fmap, Hid. cbn. rewrite Hk. cbn. rewrite Hr, Hn, Hp. cbn. repeat (split; [done|]). by apply (view_row _ _ k). }
  split; [split|split; [split|]].
  - intros id i Hid. destruct (Hrow id i Hid) as (H0 & row & n & p & Hr & Hn & Hp & Hb & Hw & _). split; [done|]. by exists row, n, p.
  - intros x y i [_ Hx]%packed_index [_ Hy]%packed_index. congruence.
  - apply packed_NoDup.
  - apply packed_index.
  - intros id. destruct (req_id_to_index (toy_condense b) !! id) as [i|] eqn:Hi.
    + destruct (Hrow id i Hi) as (_ & row & n & p & Hr & Hn & Hp & _ & _ & Hv). rewrite Hv. by apply (view_row _ _ i).
    + assert (Hn : view (toy_condense b) id = None) by (unfold view; by rewrite Hi). rewrite Hn. symmetry.
      assert (Hb : req_id_to_index b !! id = None); [|unfold view; by rewrite Hb].
      apply eq_None_not_Some. rewrite <- packed_in. intros [k Hk]%list_elem_of_lookup.
      assert (Hs : req_id_to_index (toy_condense b) !! id = Some (Z.of_nat k)); [|congruence].
      apply packed_index. rewrite Nat2Z.id. split; [lia|done].
Qed.

#[export] Instance toy_laws : BatchLaws width.
Proof.
  split; cbn.
  - intros id b b' []. split; cbn; try done. congruence.
  - by intros blocks i b b' Sh.
  - by intros id sp b b' Sh.
  - apply toy_add_shape.
  - intros b b'. apply toy_condense_shape.
  - intros b id. apply toy_remove_view.
  - done.
  - done.
  - apply toy_add_view.
  - apply toy_condense_view.
  - done.
  - done.
  - done.
  - intros id r b b'. unfold toy_add. case_match; [done|]. by intros [= <-].
  - done.
Qed.

(** ** A run: a prompt in two chunks, and two decodes while the outputs are late *)
Definition empty_batch : InputBatch :=
  {| req_ids := []; req_id_to_index := ∅; token_ids_cpu := []; is_token_ids := []; num_tokens_no_spec := [];
     num_prompt_tokens := []; num_computed_tokens_cpu := []; generators := ∅; batch_update_builder := [];
     prev_sampled_token_ids := None; prev_req_id_to_index := None |}.
Definition start : Runner :=
  {| requests := ∅; input_batch := empty_batch; discard_request_mask := []; _placeholder_pos := []; _pending_token_writeback := [] |}.

(** The first token of the prompt, which is not sampled, and the rest of it. *)
Definition chunk_of : SchedulerOutput :=
  {| finished_req_ids := []; num_scheduled_tokens := [("a", 1)];
     scheduled_new_reqs := [{| new_req_id := "a"; new_prompt := [10; 11]; new_req_blocks := [[0]]; new_num_computed := 0 |}];
     scheduled_cached_reqs := []; new_token_ids := []; scheduled_spec_decode_tokens := [] |}.
Definition chunk : Op :=
  Step chunk_of (Some {| sp_prefill := true; sp_mask := [true]; sp_needs_output := false; sp_sampled := [] |}).

Definition decode_of (n : Z) : SchedulerOutput :=
  {| finished_req_ids := []; num_scheduled_tokens := [("a", 1)]; scheduled_new_reqs := [];
     scheduled_cached_reqs := [{| cr_id := "a"; cr_resumed := false; cr_num_computed := 1 + n; cr_new_block_ids := None; cr_num_output := n |}];
     new_token_ids := []; scheduled_spec_decode_tokens := [] |}.
Definition first_token : Sampling := {| sp_prefill := true; sp_mask := [false]; sp_needs_output := false; sp_sampled := [[70]] |}.
Definition prefill : Op := Step (decode_of 0) (Some first_token).

(** A decode, in a bucket of two rows. *)
Definition decode_step (n tok : Z) : Op :=
  Step (decode_of n) (Some {| sp_prefill := false; sp_mask := [false]; sp_needs_output := true; sp_sampled := [[tok]; [0]] |}).

Definition run : list Op := [chunk; Fetch; prefill; decode_step 1 71; Fetch; decode_step 2 72; Fetch].

Definition device : Device := {| memory := []; _sampled_token_ring := []; _ring_slot := 0 |}.

Definition tokens_of_a (s : Runner) : option (list Z) := output_token_ids <$> requests s !! "a".
Definition settled (ops : list Op) : option (list Z) :=
  match (st ← run_async width true (start, device, []) ops; drain st.1.2 st.1.1 st.2) with Ok s => tokens_of_a s | Raise _ => None end.

(** Placeholders are left behind, and settle. *)
Example unsettled : (st ← (match run_async width true (start, device, []) run with Ok st => Some st | Raise _ => None end);
  tokens_of_a st.1.1) = Some [70; 71; -1].
Proof. vm_compute. reflexivity. Qed.

(** With two outputs late, the third sampling overwrites the first of them. *)
Example late_output_overwritten :
  fetched_in_time 0 [chunk; Fetch; prefill; decode_step 1 71; decode_step 2 72; decode_step 3 73] = false /\
  settled [chunk; Fetch; prefill; decode_step 1 71; decode_step 2 72; decode_step 3 73] = Some [70; 73; 72; 73].
Proof. split; vm_compute; reflexivity. Qed.

(** The synchronous states along the run. *)
Definition after (t : Runner) (op : Op) : Runner := match step_sync width t op with Ok t' => t' | Raise _ => t end.
Definition t0 : Runner := Eval vm_compute in after start chunk.
Definition t1 : Runner := Eval vm_compute in after t0 prefill.
Definition t2 : Runner := Eval vm_compute in after t1 (decode_step 1 71).
Definition t3 : Runner := Eval vm_compute in after t2 (decode_step 2 72).

Lemma step_0 : step_sync width start chunk = Ok t0.
Proof. vm_compute. reflexivity. Qed.
Lemma step_1 : step_sync width t0 prefill = Ok t1.
Proof. vm_compute. reflexivity. Qed.
Lemma step_2 : step_sync width t1 (decode_step 1 71) = Ok t2.
Proof. vm_compute. reflexivity. Qed.
Lemma step_3 : step_sync width t2 (decode_step 2 72) = Ok t3.
Proof. vm_compute. reflexivity. Qed.

(** What is to be checked of a step can be computed. *)
Definition row_ok (gone : list Z) (ir : Z * list Z) : bool :=
  match ir.2 with [t] => bool_decide (ir.1 ∈ gone) || negb (t =? -1) | _ => false end.
Definition step_fine (t : Runner) (o : SchedulerOutput) (x : Sampling) : bool :=
  match _update_states true o t with
  | Raise _ => true
  | Ok t' => let t' := with_mask (sp_mask x) t' in let rows := sampled_rows x t' in
      (length rows =? length (req_ids (input_batch t')))%nat &&
      forallb (row_ok (discarded t')) (zip (py_range (len rows)) rows)
  end.

Lemma step_fine_ok t o x : output_ok o -> step_fine t o x = true -> op_ok t (Step o (Some x)).
Proof.
  intros Ho Hf. split; [done|]. intros t' y E [= <-]. unfold step_fine in Hf. rewrite E in Hf.
  apply andb_prop in Hf as [Hl%Nat.eqb_eq Hr]. split; [done|]. intros j row Hj. rewrite forallb_forall in Hr.
  specialize (Hr (Z.of_nat j, row)). rewrite <- list_elem_of_In in Hr. unfold row_ok in Hr. cbn [fst snd] in Hr.
  assert (Hin : (Z.of_nat j, row) ∈ zip (py_range (len (sampled_rows x (with_mask (sp_mask x) t')))) (sampled_rows x (with_mask (sp_mask x) t'))).
  { apply enumerate_elem. rewrite Nat2Z.id. split; [lia|done]. }
  specialize (Hr Hin). destruct row as [|u [|]]; try done. exists u. split; [done|].
  apply orb_prop in Hr as [Hr%bool_decide_eq_true|Hr%negb_true_iff%Z.eqb_neq]; auto.
Qed.

Lemma chunk_output_ok : output_ok chunk_of.
Proof. split; cbn; [|constructor]. apply NoDup_singleton. Qed.

Lemma decode_output_ok n : 0 <= n -> output_ok (decode_of n).
Proof. intros Hn. split; cbn; [|by repeat constructor]. apply NoDup_singleton. Qed.

Lemma prefix_ok ops : ops_ok width t1 ops -> ops_ok width start (chunk :: Fetch :: prefill :: ops).
Proof.
  intros Ho. split; [apply step_fine_ok; [apply chunk_output_ok|vm_compute; reflexivity]|]. intros x E. rewrite step_0 in E. injection E as <-.
  split; [done|]. intros x E. injection E as <-.
  split; [apply step_fine_ok; [by apply decode_output_ok|vm_compute; reflexivity]|]. intros x E. rewrite step_1 in E. by injection E as <-.
Qed.

Lemma run_ok : ops_ok width start run.
Proof.
  apply prefix_ok. split; [apply step_fine_ok; [by apply decode_output_ok|vm_compute; reflexivity]|]. intros x E. rewrite step_2 in E. injection E as <-.
  split; [done|]. intros x E. injection E as <-.
  split; [apply step_fine_ok; [by apply decode_output_ok|vm_compute; reflexivity]|]. intros x E. rewrite step_3 in E. injection E as <-.
  split; [done|]. intros x E. injection E as <-. done.
Qed.

Lemma fresh_start : fresh start.
Proof. by split. Qed.

Lemma async_run_settles_witness : exists s d outs s', run_async width true (start, device, []) run = Ok (s, d, outs) /\
  drain d s outs = Ok s' /\ output_token_ids <$> requests s' !! "a" = Some [70; 71; 72].
Proof.
  destruct (async_run_settles width true (Z.le_refl width) start device run t3 fresh_start eq_refl run_ok)
    as (s & d & outs & s' & H1 & H2 & H3 & _).
  - intros _. vm_compute. reflexivity.
  - vm_compute. reflexivity.
  - exists s, d, outs, s'. split; [exact H1|]. split; [exact H2|]. rewrite H3. vm_compute. reflexivity.
Defined.

(** The first decode, while the output of the prefill is still on the device. *)
Definition t1_decode : Runner := Eval vm_compute in
  match _update_states true (decode_of 1) t1 with Ok t => t | Raise _ => t1 end.

Lemma update_1 : _update_states true (decode_of 1) t1 = Ok t1_decode.
Proof. vm_compute. reflexivity. Qed.

Lemma decode_plain : plain_decode t1 (decode_of 1).
Proof.
  split; [done|]. intros c r Hc Hr. apply list_elem_of_singleton in Hc as ->. vm_compute in Hr. injection Hr as <-. vm_compute. congruence.
Qed.

Lemma prefilled_ok : ops_ok width start ([chunk; Fetch] ++ [prefill]).
Proof. by apply prefix_ok. Qed.

Lemma run_prefill : run_sync width start ([chunk; Fetch] ++ [prefill]) = Ok t1.
Proof. vm_compute. reflexivity. Qed.

Lemma staged_tokens_are_real_witness : exists s d outs s1 s2 staged,
  run_async width true (start, device, []) [chunk; Fetch; prefill] = Ok (s, d, outs) /\ len outs = 1 /\
  _apply_pending_token_writeback s = Ok s1 /\ _update_states true (decode_of 1) s1 = Ok s2 /\
  _repair_staged_input_ids false d (input_batch s2) (req_ids (input_batch s2)) [[-1]; [0]] = Ok staged /\
  reads_requests t1_decode staged.
Proof.
  destruct (staged_tokens_are_real width true (Z.le_refl width) start device [chunk; Fetch] (decode_of 0) first_token t1 t1_decode 0
    (decode_of 1) fresh_start eq_refl prefilled_ok (fun _ => eq_refl) run_prefill (decode_output_ok 1 ltac:(lia)) decode_plain update_1)
    as (s & d & outs & H1 & H2).
  vm_compute in H1. injection H1 as <- <- <-. destruct H2 as (s1 & s2 & A1 & A2 & A3); [vm_compute; congruence|].
  vm_compute in A1. injection A1 as <-. vm_compute in A2. injection A2 as <-.
  destruct (A3 [[-1]; [0]]) as (staged & B1 & B2).
  - intros i id Hi. destruct (Z.to_nat i) as [|j].
    + intros Hid. vm_compute in Hid. injection Hid as <-. exists [10; 11; -1], 2, (-1), []. by vm_compute.
    + intros Hid. exfalso. apply lookup_lt_Some in Hid. cbn in Hid. lia.
  - eexists _, _, _, _, _, staged. split; [vm_compute; reflexivity|]. split; [reflexivity|].
    split; [vm_compute; reflexivity|]. split; [vm_compute; reflexivity|]. split; [exact B1|exact B2].
Defined.
End BatchToy.
