(* ===== verification/OptimumInputs.v ===== *)
(** * Models compiled ahead of time: the inputs of a step

    [optimum_model_runner.py] ([_prepare_inputs] and what it calls, the copy of cached blocks
    with its fallback, the buckets of the sampler) and, of the models, [decode_layout] and
    [copy_cached_kv_blocks].  A decode is laid out in a padded batch whose other rows must not
    touch what a running request owns; a prefill starts behind the blocks that are copied.
    LoRA and the raw multimodal arguments are left out. *)
From S2P Require Import Prelude KvPlacement RunnerInputs.

(** ** PyTorch, as far as the code uses it *)

(** [.to(torch.int16)] wraps; [torch.tensor] and [torch.full] refuse what does not fit. *)
Definition to_int16 (z : Z) : Z := (z + 2 ^ 15) mod 2 ^ 16 - 2 ^ 15.
Definition int16_row (l : list Z) : list Z := to_int16 <$> l.
Definition new_int16 (z : Z) : res Z :=
  if (- 2 ^ 15 <=? z) && (z <? 2 ^ 15) then Ok z else Raise RuntimeError.

(** The rows of a batch, as [decode_layout] gives them: [slice(0, n)] or a tensor of indices. *)
Inductive Rows := RowSlice (n : Z) | RowIndex (ids : list Z).

Definition row_at {A} (t : list A) (i : Z) : res nat :=
  let j := if i <? 0 then len t + i else i in
  if (0 <=? j) && (j <? len t) then Ok (Z.to_nat j) else Raise IndexError.

Definition put_row {A} (t : list A) (iv : Z * A) : res (list A) :=
  j ← row_at t iv.1; Ok (<[j := iv.2]> t).

(** [t[rows] = vals]; one value is broadcast. *)
Definition set_rows {A} (rows : Rows) (vals t : list A) : res (list A) :=
  match rows with
  | RowSlice n =>
      let k := Z.min n (len t) in
      if len vals =? k then Ok (vals ++ drop (Z.to_nat k) t)
      else match vals with
           | [v] => Ok (replicate (Z.to_nat k) v ++ drop (Z.to_nat k) t)
           | _ => Raise RuntimeError
           end
  | RowIndex ids =>
      if len vals =? len ids then foldM put_row t (zip ids vals)
      else match vals with
           | [v] => foldM put_row t ((fun i => (i, v)) <$> ids)
           | _ => Raise RuntimeError
           end
  end.

(** [t[rows]]. *)
Definition take_rows {A} (rows : Rows) (t : list A) : res (list A) :=
  match rows with
  | RowSlice n => Ok (py_take n t)
  | RowIndex ids => mapM (fun i => j ← row_at t i; of_option (t !! j) IndexError) ids
  end.

(** [.unsqueeze(-1)]. *)
Definition column (vals : list Z) : list (list Z) := (fun v => [v]) <$> vals.

(** [torch.stack] of rows. *)
Definition stack (rows : list (list Z)) : res (list (list Z)) :=
  match rows with
  | [] => Raise RuntimeError
  | row :: _ => if forallb (fun r => len r =? len row) rows then Ok rows else Raise RuntimeError
  end.

(** [arr[i]] and [d[k]]. *)
Definition nth_or_raise {A} (l : list A) (i : Z) : res A := of_option (py_nth l i) IndexError.
Definition get_or_raise {A} (m : gmap string A) (k : string) : res A := of_option (m !! k) KeyError.

(** ** Buckets *)
Definition select_bucket_size (original_batch_size : Z) (bucket_sizes : list Z) : res Z :=
  of_option (bucket_sizes !! bisect_left bucket_sizes original_batch_size) IndexError.

(** [list(range(a, b, step))] for a positive step. *)
Definition range_step (a b step : Z) : list Z :=
  (fun i => a + i * step) <$> py_range (Z.max 0 (cdiv (b - a) step)).

Definition get_bucket_sizes (max_num_seqs : Z) : list Z :=
  let bucket_sizes := filter (fun i => i <= max_num_seqs) [1; 2; 4] in
  let bucket_sizes := if 8 <=? max_num_seqs
    then bucket_sizes ++ range_step 8 (Z.min (max_num_seqs + 1) 256) 8 else bucket_sizes in
  let bucket_sizes := if 256 <=? max_num_seqs
    then bucket_sizes ++ range_step 256 (max_num_seqs + 1) 16 else bucket_sizes in
  if bool_decide (max_num_seqs ∈ bucket_sizes) then bucket_sizes else bucket_sizes ++ [max_num_seqs].

(** ** The model *)

(** Whose [decode_layout] it is: the mixin's, Qwen3.5's, Whisper's. *)
Inductive Layout := ByOrder | BySlot | ByBlock.

Record Model := {
  layout : Layout;
  is_decoder : bool;
  use_multiple_decoder : bool;
  decoder_batch_size : Z;
  decoder_batch_sizes : list Z
}.

Definition decode_layout (m : Model) (cache_slot_ids : list Z) (block_tables : list (list Z)) : res (Z * Rows) :=
  match layout m with
  | ByOrder =>
      let num_reqs := len cache_slot_ids in
      padded_batch_size ← (if use_multiple_decoder m then select_bucket_size num_reqs (decoder_batch_sizes m)
                           else Ok (decoder_batch_size m));
      Ok (padded_batch_size, RowSlice num_reqs)
  | BySlot => Ok (decoder_batch_size m, RowIndex cache_slot_ids)
  | ByBlock => Ok (decoder_batch_size m, RowIndex (concat block_tables))
  end.

(** ** The runner's state and the step's output *)
Record Request := {
  mrope_positions : option (list (list Z));
  mrope_position_delta : option Z
}.

Record Batch := {
  req_ids : list string;
  req_id_to_index : gmap string Z;
  num_computed_tokens_cpu : list Z;
  num_tokens_no_spec : list Z;
  token_ids_cpu : list (list Z);
  block_table : list (list Z);
  num_blocks_per_row : list Z
}.

Record Runner := {
  model : Model;
  enable_prefix_caching : bool;
  available_blocks : list Z;
  requests : gmap string Request;
  input_batch : Batch;
  seq_lens : list Z
}.

Record SchedulerOutput := {
  num_scheduled_tokens : gmap string Z;
  total_num_scheduled_tokens : Z;
  scheduled_new_reqs : list (string * list Z);
  cached_req_ids : list string;
  resumed_req_ids : gset string;
  block_table_dict : gmap string (list Z);
  cached_block_table : list Z;
  cached_length : list Z;
  dummy_block : option Z;
  cache_slot_id_dict : gmap string Z
}.

Record ModelInputForRBLN := {
  input_tokens : list (list Z);
  input_positions : list (list Z);
  block_tables : list (list Z);
  running_requests_ids : list string;
  padded_batch_size : Z;
  batch_rows : Rows;
  is_prompt : bool;
  input_dummy_block : option Z;
  cache_slot_ids : list (list Z);
  input_mrope : option (list (list (list Z)))
}.

(** ** Block tables and MRoPE positions *)
Definition mask_block_table (block_ids : list Z) (num_blocks : Z) : res (list Z) :=
  if num_blocks <? 0 then Raise ValueError
  else
    let block_ids := (fun b => b - 1) <$> block_ids in
    let max_blocks := len block_ids in
    let k := Z.min num_blocks max_blocks in
    Ok (if k <? max_blocks then take (Z.to_nat k) block_ids ++ replicate (Z.to_nat (max_blocks - k)) 0
        else block_ids).

Definition _mrope_positions (r : Request) (start stop : Z) : res (option (list (list Z))) :=
  match mrope_positions r with
  | None => Ok None
  | Some positions =>
      match mrope_position_delta r with
      | None => Raise AssertionError
      | Some delta =>
          let prompt_len := len (default [] (head positions)) in
          let prompt row := if start <? prompt_len then py_slice row start (Z.min stop prompt_len) else [] in
          let completion := if prompt_len <? stop
            then (fun p => p + delta) <$> seqZ (Z.max start prompt_len) (stop - Z.max start prompt_len) else [] in
          if (start <? prompt_len) || (prompt_len <? stop)
          then Ok (Some ((fun row => prompt row ++ completion) <$> positions))
          else Raise RuntimeError
      end
  end.

(** ** [_prepare_decode] *)
Section decode.

(** [torch.empty]: memory with any contents. *)
Variable empty : Z -> Z -> list (list Z).

(** The token, position and block table of one request. *)
Definition decode_row (s : Runner) (o : SchedulerOutput) (req_id : string) : res (Z * Z * list Z) :=
  let b := input_batch s in
  req_index ← get_or_raise (req_id_to_index b) req_id;
  position ← nth_or_raise (num_computed_tokens_cpu b) req_index;
  row ← nth_or_raise (token_ids_cpu b) req_index;
  token ← nth_or_raise row position;
  table ← (if enable_prefix_caching s then get_or_raise (block_table_dict o) req_id
           else
             table ← nth_or_raise (block_table b) req_index;
             num_blocks ← nth_or_raise (num_blocks_per_row b) req_index;
             mask_block_table table num_blocks);
  Ok (token, position, table).

(** The block that padding rows write to. *)
Definition choose_pad_block (s : Runner) (o : SchedulerOutput) (tables : list (list Z)) : res Z :=
  match dummy_block o with
  | Some b => Ok b
  | None => of_option (head (filter (fun b => b ∉ concat tables) (available_blocks s))) IndexError
  end.

(** One coordinate, with zeros in the padding rows. *)
Definition mrope_coordinate (padded_batch_size : Z) (rows : Rows) (per_request : list (list (list Z))) (c : Z)
    : res (list (list Z)) :=
  vals ← mapM (fun p => row ← nth_or_raise p c; of_option (head row) RuntimeError) per_request;
  set_rows rows (column vals) (replicate (Z.to_nat padded_batch_size) [0]).

(** The three of them; the first request decides whether there
    are any. *)
Definition decode_mrope (s : Runner) (padded_batch_size : Z) (rows : Rows) (reqs : list (string * Z))
    : res (option (list (list (list Z)))) :=
  per_request ← mapM (fun ip => r ← get_or_raise (requests s) ip.1; _mrope_positions r ip.2 (ip.2 + 1)) reqs;
  first ← of_option (head per_request) IndexError;
  match first with
  | None => Ok None
  | Some _ =>
      per_request ← mapM (fun p => of_option p RuntimeError) per_request;
      coordinates ← mapM (mrope_coordinate padded_batch_size rows per_request) [0; 1; 2];
      Ok (Some coordinates)
  end.

(** The layout of the requests' tokens, positions, tables and slots in the padded batch. *)
Definition lay_out (s : Runner) (o : SchedulerOutput) (ids : list string) (per_request : list (Z * Z * list Z))
    : res ModelInputForRBLN :=
  let num_reqs := len ids in
  let tokens := (fun x : Z * Z * list Z => x.1.1) <$> per_request in
  let positions := (fun x : Z * Z * list Z => x.1.2) <$> per_request in
  tables ← stack (snd <$> per_request);
  slots ← mapM (get_or_raise (cache_slot_id_dict o)) ids;
  cache_slot_ids ← mapM new_int16 slots;
  l ← decode_layout (model s) cache_slot_ids tables;
  let '(padded_batch_size, rows) := l in
  let n := Z.to_nat padded_batch_size in
  input_tokens ← set_rows rows (column tokens) (replicate n [0]);
  input_positions ← set_rows rows (column positions) (replicate n [0]);
  let num_blocks := len (default [] (head tables)) in
  padded_block_tables ← (if num_reqs <? padded_batch_size then
      pad_block ← choose_pad_block s o tables;
      pad_block ← new_int16 pad_block;
      Ok (replicate n (replicate (Z.to_nat num_blocks) pad_block))
    else Ok (empty padded_batch_size num_blocks));
  padded_block_tables ← set_rows rows (int16_row <$> tables) padded_block_tables;
  let pad_slot := default 0 (head (filter (fun i => i ∉ cache_slot_ids) (py_range padded_batch_size))) in
  pad_slot ← new_int16 pad_slot;
  padded_cache_slot_ids ← set_rows rows (column cache_slot_ids) (replicate n [pad_slot]);
  mrope ← decode_mrope s padded_batch_size rows (zip ids positions);
  Ok {| input_tokens := input_tokens; input_positions := input_positions;
        block_tables := padded_block_tables; running_requests_ids := ids;
        padded_batch_size := padded_batch_size; batch_rows := rows; is_prompt := false;
        input_dummy_block := dummy_block o; cache_slot_ids := padded_cache_slot_ids;
        input_mrope := mrope |}.

Definition _prepare_decode (s : Runner) (o : SchedulerOutput) : res ModelInputForRBLN :=
  let ids := req_ids (input_batch s) in
  per_request ← mapM (decode_row s o) ids;
  lay_out s o ids per_request.

(** ** [_prepare_prefill] *)

(** The request, its index and its tokens. *)
Definition prefill_request (s : Runner) (o : SchedulerOutput) : res (string * Z * list Z) :=
  let b := input_batch s in
  match scheduled_new_reqs o, cached_req_ids o with
  | [(req_id, prompt)], _ =>
      req_index ← get_or_raise (req_id_to_index b) req_id;
      Ok (req_id, req_index, prompt)
  | _, [req_id] =>
      req_index ← get_or_raise (req_id_to_index b) req_id;
      num_token ← nth_or_raise (num_tokens_no_spec b) req_index;
      row ← nth_or_raise (token_ids_cpu b) req_index;
      Ok (req_id, req_index, py_take num_token row)
  | _, _ => Raise RuntimeError
  end.

Definition _prepare_prefill (s : Runner) (o : SchedulerOutput) (use_cached_prefix : bool)
    : res ModelInputForRBLN :=
  let b := input_batch s in
  p ← prefill_request s o;
  let '(req_id, req_index, prompt_tokens) := p in
  let seq_len := len prompt_tokens in
  num_blocks ← nth_or_raise (num_blocks_per_row b) req_index;
  t ← (if enable_prefix_caching s then
         block_table ← get_or_raise (block_table_dict o) req_id;
         let total_cached_length := if use_cached_prefix then sumZ (cached_length o) else 0 in
         assert! (total_cached_length <=? 0) || (total_cached_length <? seq_len);
         Ok (block_table, total_cached_length,
             if 0 <? total_cached_length then drop (Z.to_nat total_cached_length) prompt_tokens else prompt_tokens)
       else
         block_table ← nth_or_raise (block_table b) req_index;
         block_table ← mask_block_table block_table num_blocks;
         Ok (block_table, 0, prompt_tokens));
  let '(table, total_cached_length, prompt_tokens) := t in
  req_state ← get_or_raise (requests s) req_id;
  mrope ← _mrope_positions req_state total_cached_length seq_len;
  slot ← get_or_raise (cache_slot_id_dict o) req_id;
  slot ← new_int16 slot;
  Ok {| input_tokens := [prompt_tokens];
        input_positions := [seqZ total_cached_length (seq_len - total_cached_length)];
        block_tables := [int16_row table]; running_requests_ids := [req_id];
        padded_batch_size := 1; batch_rows := RowSlice 1; is_prompt := true;
        input_dummy_block := dummy_block o; cache_slot_ids := [[slot]];
        input_mrope := option_map (fmap (fun row => [row])) mrope |}.

(** ** [_prepare_inputs] *)
Definition is_prefill_step (o : SchedulerOutput) : bool :=
  (0 <? len (scheduled_new_reqs o)) ||
  ((len (cached_req_ids o) =? 1) && (Z.of_nat (size (resumed_req_ids o)) =? 1)).

Definition set_seq_lens (lens : list Z) (s : Runner) : Runner :=
  {| model := model s; enable_prefix_caching := enable_prefix_caching s;
     available_blocks := available_blocks s; requests := requests s; input_batch := input_batch s;
     seq_lens := lens |}.

Definition _prepare_inputs (s : Runner) (o : SchedulerOutput) (use_cached_prefix : bool)
    : res (ModelInputForRBLN * list Z * Runner) :=
  assert! 0 <? total_num_scheduled_tokens o;
  let b := input_batch s in
  let num_reqs := len (req_ids b) in
  assert! 0 <? num_reqs;
  tokens ← mapM (get_or_raise (num_scheduled_tokens o)) (req_ids b);
  let num_prefill_reqs := len (scheduled_new_reqs o) in
  let num_decode_reqs := len (cached_req_ids o) in
  if (1 <? num_prefill_reqs) || ((1 <=? num_prefill_reqs) && (0 <? num_decode_reqs)) then Raise RuntimeError
  else
    model_input ← (if is_prefill_step o then _prepare_prefill s o use_cached_prefix else _prepare_decode s o);
    lens ← np_zip Z.add (py_take num_reqs (num_computed_tokens_cpu b)) tokens;
    lens ← set_rows (RowSlice num_reqs) lens (seq_lens s);
    Ok (model_input, tokens, set_seq_lens lens s).

(** ** Copying the cached blocks *)
Section copy.

(** The runtime's copy of one block: source, destination and number of tokens. *)
Context {M : Type} (_copy_kv_cache : Z -> Z -> Z -> M -> option M).

(** The answer says whether every copy was made; what was made stays. *)
Fixpoint copy_blocks (copies : list (Z * Z * Z)) (dev : M) : bool * M :=
  match copies with
  | [] => (true, dev)
  | (src_block, dst_block, length) :: copies =>
      match _copy_kv_cache src_block dst_block length dev with
      | Some dev => copy_blocks copies dev
      | None => (false, dev)
      end
  end.

Definition copy_cached_kv_blocks (cached_block_tables cached_lengths dst_blocks : list Z) (dev : M)
    : res (bool * M) :=
  if bool_decide (cached_block_tables = []) then Ok (true, dev)
  else if negb (len cached_block_tables =? len cached_lengths) then Raise ValueError
  else Ok (copy_blocks (zip (zip cached_block_tables dst_blocks) cached_lengths) dev).

Definition try_copy_prefix_cached_kv (s : Runner) (model_input : ModelInputForRBLN) (o : SchedulerOutput) (dev : M)
    : res (bool * M) :=
  if negb (is_prompt model_input && is_decoder (model s)) then Ok (true, dev)
  else copy_cached_kv_blocks (cached_block_table o) (cached_length o) (concat (block_tables model_input)) dev.

(** What [execute_model] stages: without the cached prefix when a copy failed. *)
Definition stage_step (s : Runner) (o : SchedulerOutput) (dev : M) : res (ModelInputForRBLN * Runner * M) :=
  p ← _prepare_inputs s o true;
  let '(model_input, _, s) := p in
  c ← try_copy_prefix_cached_kv s model_input o dev;
  if (c.1 : bool) then Ok (model_input, s, c.2)
  else
    p ← _prepare_inputs s o false;
    let '(model_input, _, s) := p in
    Ok (model_input, s, c.2).
End copy.
End decode.
