(* ===== verification/OptimumInputsSpec.v ===== *)
(** * Models compiled ahead of time: theorems about the inputs of a step

    The buckets of the sampler cover every batch, and a decode keeps its padding rows away from
    what the running requests own. *)
From S2P Require Import Prelude Bucketing KvPlacement RunnerInputs OptimumInputs.

Lemma concat_column l : concat (column l) = l.
Proof. unfold column. induction l; cbn; congruence. Qed.

(** ** Rows of a padded batch *)
Definition rows_ok (rows : Rows) (n : nat) : Prop :=
  match rows with
  | RowSlice k => 0 <= k <= Z.of_nat n
  | RowIndex ids => Forall (fun i => 0 <= i < Z.of_nat n) ids
  end.

Definition row_ids (rows : Rows) : list nat :=
  match rows with
  | RowSlice k => seq 0 (Z.to_nat k)
  | RowIndex ids => Z.to_nat <$> ids
  end.

Lemma row_at_ok {A} (t : list A) i : 0 <= i < len t -> row_at t i = Ok (Z.to_nat i).
Proof.
  intros Hi. unfold row_at. destruct (Z.ltb_spec i 0); [lia|].
  destruct (Z.leb_spec 0 i); [|lia]. by destruct (Z.ltb_spec i (len t)); [|lia].
Qed.

(** One after the other, at distinct rows. *)
Lemma put_rows_ok {A} ids (vals t : list A) : Forall (fun i => 0 <= i < len t) ids ->
  NoDup (Z.to_nat <$> ids) -> length vals = length ids ->
  exists t', foldM put_row t (zip ids vals) = Ok t' /\ length t' = length t /\
    (forall i k v, ((Z.to_nat <$> ids) !! i) = Some k -> vals !! i = Some v -> t' !! k = Some v) /\
    forall k, k ∉ (Z.to_nat <$> ids) -> t' !! k = t !! k.
Proof.
  revert vals t. induction ids as [|i ids IH]; intros [|v vals] t Hr Hnd Hl; try done; cbn [zip zip_with foldM].
  { exists t. by split_and!. }
  apply Forall_cons in Hr as [Hi Hr]. cbn in Hnd. apply NoDup_cons in Hnd as [Hnot Hnd].
  unfold put_row at 2. cbn [fst snd]. rewrite row_at_ok by done. cbn [mbind res_bind].
  destruct (IH vals (<[Z.to_nat i := v]> t)) as (t' & -> & Hlen & Hin & Hout); [|done|by injection Hl|].
  { unfold len in *. by rewrite length_insert. }
  rewrite length_insert in Hlen. exists t'. split; [done|]. split; [done|]. split.
  - intros [|j] k x Hk Hx; cbn in Hk, Hx; [|by apply (Hin j)]. injection Hk as <-. injection Hx as <-.
    rewrite Hout by done. apply list_lookup_insert_eq. unfold len in Hi. lia.
  - intros k Hk. cbn in Hk. apply not_elem_of_cons in Hk as [Hne Hk]. rewrite Hout by done. by apply list_lookup_insert_ne.
Qed.

Lemma set_rows_ok {A} rows (vals t : list A) : rows_ok rows (length t) -> NoDup (row_ids rows) ->
  length vals = length (row_ids rows) ->
  exists t', set_rows rows vals t = Ok t' /\ length t' = length t /\
    (forall i k v, row_ids rows !! i = Some k -> vals !! i = Some v -> t' !! k = Some v) /\
    forall k, k ∉ row_ids rows -> (t' !! k) = t !! k.
Proof.
  destruct rows as [n|ids]; cbn [rows_ok row_ids set_rows]; intros Hok Hnd Hl.
  - rewrite length_seq in Hl. rewrite Z.min_l by (unfold len; lia).
    assert ((len vals =? n) = true) as -> by (apply Z.eqb_eq; unfold len; lia).
    eexists. split; [done|]. split; [rewrite length_app, length_drop; lia|]. split.
    + intros i k v Hk Hv. apply lookup_seq in Hk as [-> Hk]. by apply lookup_app_l_Some.
    + intros k Hk. rewrite elem_of_seq in Hk. rewrite lookup_app_r by lia. rewrite lookup_drop. f_equal. lia.
  - rewrite length_fmap in Hl. assert ((len vals =? len ids) = true) as -> by (apply Z.eqb_eq; unfold len; lia).
    by apply put_rows_ok.
Qed.

Lemma take_rows_ok {A} rows (t : list A) : rows_ok rows (length t) ->
  exists l, take_rows rows t = Ok l /\ forall i k, row_ids rows !! i = Some k -> l !! i = t !! k.
Proof.
  destruct rows as [n|ids]; cbn [rows_ok row_ids take_rows]; intros Hok.
  - eexists. split; [done|]. intros i k Hk. apply lookup_seq in Hk as [-> Hk]. unfold py_take. by rewrite lookup_take_lt.
  - destruct (mapM_total (fun i v => t !! Z.to_nat i = Some v) (fun i => j ← row_at t i; of_option (t !! j) IndexError) ids)
      as (l & -> & Hl).
    { intros i Hi. rewrite Forall_forall in Hok. specialize (Hok i Hi). rewrite row_at_ok by done. cbn [mbind res_bind].
      destruct (lookup_lt_is_Some_2 t (Z.to_nat i)) as [v Hv]; [lia|]. exists v. by rewrite Hv. }
    exists l. split; [done|]. intros i k Hk. rewrite list_lookup_fmap in Hk. destruct (ids !! i) as [z|] eqn:Ez; [|done].
    injection Hk as <-. destruct (Forall2_lookup_l _ _ _ _ _ Hl Ez) as (v & Hv & Ht). by rewrite Hv, Ht.
Qed.

Lemma row_ids_bound rows n k : rows_ok rows n -> k ∈ row_ids rows -> (k < n)%nat.
Proof.
  destruct rows as [m|ids]; cbn; intros Hok Hk; [apply elem_of_seq in Hk; lia|].
  apply list_elem_of_fmap in Hk as (i & -> & Hi). rewrite Forall_forall in Hok. specialize (Hok i Hi). lia.
Qed.

(** Distinct rows fill a batch of their number. *)
Lemma rows_fill rows n k : rows_ok rows n -> NoDup (row_ids rows) -> (n <= length (row_ids rows))%nat -> (k < n)%nat ->
  k ∈ row_ids rows.
Proof.
  intros Hok Hnd Hn Hk. assert (row_ids rows ≡ₚ seq 0 n) as ->; [|apply elem_of_seq; lia].
  apply submseteq_length_Permutation; [|by rewrite length_seq].
  apply NoDup_submseteq; [done|]. intros j Hj. apply elem_of_seq. pose proof (row_ids_bound _ _ _ Hok Hj). lia.
Qed.

Lemma rows_fit rows n : rows_ok rows n -> NoDup (row_ids rows) -> (length (row_ids rows) <= n)%nat.
Proof.
  intros Hok Hnd. rewrite <- (length_seq n 0). apply submseteq_length, NoDup_submseteq; [done|].
  intros j Hj. apply elem_of_seq. pose proof (row_ids_bound _ _ _ Hok Hj). lia.
Qed.

(** A number below [n] that a shorter list does not have. *)
Lemma unused_slot (used : list Z) n : len used < n ->
  exists i, head (filter (fun i => i ∉ used) (py_range n)) = Some i /\ 0 <= i < n /\ i ∉ used.
Proof.
  intros Hn. destruct (filter (fun i => i ∉ used) (py_range n)) as [|i l] eqn:E.
  - exfalso. assert (Hsub : py_range n ⊆+ used).
    { apply NoDup_submseteq; [apply NoDup_seqZ|]. intros i Hi. destruct (decide (i ∈ used)) as [|Hnot]; [done|].
      assert (Hf : i ∈ filter (fun i => i ∉ used) (py_range n)) by (by apply list_elem_of_filter).
      rewrite E in Hf. by apply not_elem_of_nil in Hf. }
    apply submseteq_length in Hsub. unfold py_range in Hsub. rewrite length_seqZ in Hsub. unfold len in Hn. lia.
  - exists i. split; [done|]. assert (Hi : i ∈ filter (fun i => i ∉ used) (py_range n)) by (rewrite E; by left).
    apply list_elem_of_filter in Hi as [Hu Hi]. apply elem_of_seqZ in Hi. split; [lia|done].
Qed.

(** ** Buckets *)
Lemma bisect_left_in l x y : StronglySorted Z.lt l -> y ∈ l -> x <= y ->
  exists b, l !! bisect_left l x = Some b /\ x <= b /\ b ∈ l /\ b <= y.
Proof.
  induction 1 as [|a l Hs IH Hall]; intros Hy Hx; [by apply not_elem_of_nil in Hy|]. cbn [bisect_left].
  rewrite Forall_forall in Hall. destruct (Z.ltb_spec a x).
  - apply elem_of_cons in Hy as [->|Hy]; [lia|]. destruct (IH Hy Hx) as (b & Hb & H1 & H2 & H3).
    exists b. split; [done|]. split; [done|]. split; [by right|done].
  - exists a. split; [done|]. split; [done|]. split; [by left|]. apply elem_of_cons in Hy as [->|Hy]; [done|].
    specialize (Hall y Hy). lia.
Qed.

#[export] Instance select_finder l : StronglySorted Z.lt l -> l <> [] -> BucketFinder l (fun n => select_bucket_size n l).
Proof.
  intros Hs Hne. split; [done|done| |].
  - intros n b E. unfold select_bucket_size, of_option in E. destruct (l !! bisect_left l n) as [b'|] eqn:Eb; [|done].
    injection E as ->. split; [apply (list_elem_of_lookup_2 _ _ _ Eb)|]. split.
    + clear Hs Hne. induction l as [|a l IH]; [done|]. cbn in Eb. destruct (Z.ltb_spec a n); [by apply IH|].
      cbn in Eb. injection Eb as ->. lia.
    + intros b' Hb' Hn. destruct (bisect_left_in l n b' Hs Hb' Hn) as (c & Hc & _ & _ & Hle). congruence.
  - intros n b Hb Hn. destruct (bisect_left_in l n b Hs Hb Hn) as (c & Hc & _). exists c.
    unfold select_bucket_size. by rewrite Hc.
Qed.

Lemma range_step_spec a b step : 0 < step -> StronglySorted Z.lt (range_step a b step) /\
  forall x, x ∈ range_step a b step -> a <= x < b.
Proof.
  intros Hst. unfold range_step, py_range. split.
  - generalize (Z.to_nat (Z.max 0 (cdiv (b - a) step))) as n. intros _.
    assert (Hall : forall n m, StronglySorted Z.lt ((fun i => a + i * step) <$> seqZ m (Z.of_nat n))).
    { induction n as [|n IH]; intros m; [constructor|]. rewrite seqZ_cons by lia. rewrite fmap_cons.
      replace (Z.pred (Z.of_nat (S n))) with (Z.of_nat n) by lia. constructor; [apply IH|]. apply Forall_forall.
      intros x (i & -> & Hi)%list_elem_of_fmap. apply elem_of_seqZ in Hi. nia. }
    rewrite <- (Z2Nat.id (Z.max 0 (cdiv (b - a) step))) by lia. apply Hall.
  - intros x (i & -> & Hi)%list_elem_of_fmap. apply elem_of_seqZ in Hi. pose proof (cdiv_spec (b - a) step Hst). nia.
Qed.

Lemma sorted_app (l k : list Z) : StronglySorted Z.lt l -> StronglySorted Z.lt k ->
  (forall x y, x ∈ l -> y ∈ k -> x < y) -> StronglySorted Z.lt (l ++ k).
Proof.
  intros Hl Hk Hlt. induction Hl as [|x l Hl IH Hall]; [done|]. cbn. constructor.
  - apply IH. intros y z Hy Hz. apply Hlt; [by right|done].
  - apply Forall_app. split; [done|]. apply Forall_forall. intros y Hy. apply Hlt; [by left|done].
Qed.

(** The buckets of the sampler ascend, end in the largest batch, and the one selected is the
    least that holds the batch. *)
Theorem sampler_buckets_cover m : 1 <= m ->
  BucketFinder (get_bucket_sizes m) (fun n => select_bucket_size n (get_bucket_sizes m)) /\
  m ∈ get_bucket_sizes m /\ forall b, b ∈ get_bucket_sizes m -> 1 <= b <= m.
Proof.
  intros Hm. unfold get_bucket_sizes. cbn zeta. set (small := filter (fun i => i <= m) [1; 2; 4]).
  assert (S1 : StronglySorted Z.lt small /\ forall b, b ∈ small -> 1 <= b <= m /\ b < 8).
  { subst small. split.
    - repeat (rewrite filter_cons; case_decide); repeat constructor; lia.
    - intros b [Hb Hin]%list_elem_of_filter. rewrite !elem_of_cons in Hin. destruct Hin as [->|[->|[->|Hin]]]; try lia.
      by apply not_elem_of_nil in Hin. }
  set (mid := if 8 <=? m then small ++ range_step 8 (Z.min (m + 1) 256) 8 else small).
  assert (S2 : StronglySorted Z.lt mid /\ forall b, b ∈ mid -> 1 <= b <= m /\ b < 256).
  { subst mid. destruct (Z.leb_spec 8 m).
    - destruct (range_step_spec 8 (Z.min (m + 1) 256) 8) as [R1 R2]; [lia|]. split.
      + apply sorted_app; [apply S1|done|]. intros x y Hx%S1 Hy%R2. lia.
      + intros b [Hb%S1|Hb%R2]%elem_of_app; lia.
    - split; [apply S1|]. intros b Hb%S1. lia. }
  set (all := if 256 <=? m then mid ++ range_step 256 (m + 1) 16 else mid).
  assert (S3 : StronglySorted Z.lt all /\ forall b, b ∈ all -> 1 <= b <= m).
  { subst all. destruct (Z.leb_spec 256 m).
    - destruct (range_step_spec 256 (m + 1) 16) as [R1 R2]; [lia|]. split.
      + apply sorted_app; [apply S2|done|]. intros x y Hx%S2 Hy%R2. lia.
      + intros b [Hb%S2|Hb%R2]%elem_of_app; lia.
    - split; [apply S2|]. intros b Hb%S2. lia. }
  case_bool_decide as Hin.
  - split; [|split; [done|apply S3]]. apply select_finder; [apply S3|]. intros E. rewrite E in Hin. by apply not_elem_of_nil in Hin.
  - split; [|split].
    + apply select_finder; [|by destruct all]. apply sorted_app; [apply S3|repeat constructor|].
      intros x y Hx Hy%list_elem_of_singleton. subst y. pose proof (proj2 S3 x Hx).
      assert (x <> m) by (intros ->; done). lia.
    + apply elem_of_app. right. by left.
    + intros b [Hb%S3|Hb%list_elem_of_singleton]%elem_of_app; lia.
Qed.

(** ** A decode *)
Record Decoding := {
  x_id : string;
  x_token : Z;
  x_position : Z;
  x_table : list Z;
  x_slot : Z;
  x_mrope : option (list Z)
}.

Definition int16 (z : Z) : Prop := - 2 ^ 15 <= z < 2 ^ 15.

Lemma to_int16_id z : int16 z -> to_int16 z = z.
Proof. intros Hz. unfold to_int16, int16 in *. rewrite Z.mod_small; lia. Qed.

Lemma new_int16_ok z : int16 z -> new_int16 z = Ok z.
Proof.
  intros Hz. unfold new_int16, int16 in *. destruct (Z.leb_spec (- 2 ^ 15) z); [|lia]. by destruct (Z.ltb_spec z (2 ^ 15)); [|lia].
Qed.

Lemma int16_row_id l : Forall int16 l -> int16_row l = l.
Proof. induction 1 as [|z l Hz Hl IH]; [done|]. unfold int16_row in *. cbn. by rewrite to_int16_id, IH. Qed.

Section decode.
Context (empty : Z -> Z -> list (list Z)) (s : Runner) (o : SchedulerOutput) (xs : list Decoding) (w : nat).
Context (empty_rows : forall n k, length (empty n k) = Z.to_nat n).

(** What the batch, the step's output and the cached request say of a request. *)
Definition stored (i : nat) (x : Decoding) : Prop :=
  let b := input_batch s in
  req_id_to_index b !! x_id x = Some (Z.of_nat i) /\
  num_computed_tokens_cpu b !! i = Some (x_position x) /\ 0 <= x_position x /\
  (exists row, token_ids_cpu b !! i = Some row /\ row !! Z.to_nat (x_position x) = Some (x_token x)) /\
  (if enable_prefix_caching s then block_table_dict o !! x_id x = Some (x_table x)
   else exists raw n, block_table b !! i = Some raw /\ num_blocks_per_row b !! i = Some n /\
     mask_block_table raw n = Ok (x_table x)) /\
  cache_slot_id_dict o !! x_id x = Some (x_slot x) /\
  exists r, requests s !! x_id x = Some r /\
    _mrope_positions r (x_position x) (x_position x + 1) = Ok (option_map column (x_mrope x)).

(** The compiled batch has room, and its own rows where it pins requests to them. *)
Definition layout_fits : Prop :=
  let m := model s in
  match layout m with
  | ByOrder =>
      if use_multiple_decoder m
      then StronglySorted Z.lt (decoder_batch_sizes m) /\ Forall (fun n => n <= 2 ^ 15) (decoder_batch_sizes m) /\
        exists n, n ∈ decoder_batch_sizes m /\ len xs <= n
      else len xs <= decoder_batch_size m <= 2 ^ 15
  | BySlot => decoder_batch_size m <= 2 ^ 15 /\ Forall (fun x => x_slot x < decoder_batch_size m) xs
  | ByBlock => decoder_batch_size m <= 2 ^ 15 /\ exists rows, x_table <$> xs = column rows /\ NoDup rows /\
      Forall (fun b => 0 <= b < decoder_batch_size m) rows
  end.

(** The block for padding rows: the scheduler's, which no request uses, or one that is left. *)
Definition pad_ready : Prop :=
  match dummy_block o with
  | Some d => int16 d /\ forall x, x ∈ xs -> d ∉ x_table x
  | None => Forall int16 (available_blocks s) /\ exists b, b ∈ available_blocks s /\ forall x, x ∈ xs -> b ∉ x_table x
  end.

Record decoding_ok : Prop := {
  do_ids : req_ids (input_batch s) = x_id <$> xs;
  do_some : xs <> [];
  do_stored : forall i x, xs !! i = Some x -> stored i x;
  do_tables : Forall (fun x => length (x_table x) = w /\ Forall int16 (x_table x)) xs;
  do_slots : NoDup (x_slot <$> xs) /\ Forall (fun x => 0 <= x_slot x < 2 ^ 15) xs;
  do_layout : layout_fits;
  do_pad : pad_ready;
  do_mrope : (forall x, x ∈ xs -> x_mrope x = None) \/ forall x, x ∈ xs -> exists c, x_mrope x = Some c /\ length c = 3%nat
}.

Hypothesis Hok : decoding_ok.

Lemma nth_ok {A} (l : list A) (i : nat) x : l !! i = Some x -> nth_or_raise l (Z.of_nat i) = Ok x.
Proof. intros Hx. unfold nth_or_raise, py_nth. destruct (Z.ltb_spec (Z.of_nat i) 0); [lia|]. by rewrite Nat2Z.id, Hx. Qed.

Lemma decode_row_ok i x : xs !! i = Some x -> decode_row s o (x_id x) = Ok (x_token x, x_position x, x_table x).
Proof.
  intros Hi. destruct (do_stored Hok i x Hi) as (Hix & Hpos & H0 & (row & Hrow & Htok) & Htab & _).
  unfold decode_row, get_or_raise. rewrite Hix. cbn [of_option mbind res_bind].
  rewrite (nth_ok _ _ _ Hpos), (nth_ok _ _ _ Hrow). cbn [mbind res_bind].
  rewrite <- (Z2Nat.id (x_position x)) at 1 by done. rewrite (nth_ok _ _ _ Htok). cbn [mbind res_bind].
  destruct (enable_prefix_caching s); [by rewrite Htab|]. destruct Htab as (raw & n & Hraw & Hn & Hm).
  rewrite (nth_ok _ _ _ Hraw). cbn [mbind res_bind]. rewrite (nth_ok _ _ _ Hn). cbn [mbind res_bind]. by rewrite Hm.
Qed.

Lemma decode_rows_ok : mapM (decode_row s o) (x_id <$> xs) = Ok ((fun x => (x_token x, x_position x, x_table x)) <$> xs).
Proof. apply mapM_over. intros x (i & Hi)%list_elem_of_lookup. by apply (decode_row_ok i). Qed.

Definition tables := x_table <$> xs.
Definition slots := x_slot <$> xs.

Lemma stack_ok : stack tables = Ok tables.
Proof.
  unfold stack, tables. pose proof (do_tables Hok) as Ht. pose proof (do_some Hok).
  destruct xs as [|x l]; [done|]. cbn [fmap list_fmap]. apply Forall_cons in Ht as [[Hx _] Ht].
  assert (forallb (fun r => len r =? len (x_table x)) (x_table x :: (x_table <$> l)) = true) as E; [|cbn [fmap] in E; by rewrite E].
  apply forallb_forall. intros r Hr%list_elem_of_In. apply Z.eqb_eq. unfold len. f_equal.
  apply elem_of_cons in Hr as [->|Hr]; [done|]. apply list_elem_of_fmap in Hr as (y & -> & Hy).
  rewrite Forall_forall in Ht. by rewrite (proj1 (Ht y Hy)).
Qed.

Lemma slots_ok : mapM (get_or_raise (cache_slot_id_dict o)) (x_id <$> xs) = Ok slots.
Proof.
  apply mapM_over. intros x (i & Hi)%list_elem_of_lookup. unfold get_or_raise.
  destruct (do_stored Hok i x Hi) as (_ & _ & _ & _ & _ & -> & _). done.
Qed.

Lemma layout_ok : exists n rows, decode_layout (model s) slots tables = Ok (n, rows) /\
  rows_ok rows (Z.to_nat n) /\ NoDup (row_ids rows) /\ length (row_ids rows) = length xs /\ 0 <= n <= 2 ^ 15.
Proof.
  pose proof (do_layout Hok) as Hl. unfold layout_fits in Hl. unfold decode_layout, slots, tables.
  assert (Hlen : len (x_slot <$> xs) = len xs) by (unfold len; by rewrite length_fmap).
  pose proof (len_nonneg xs) as Hxs. pose proof (do_slots Hok) as [Hnd Hr]. destruct (layout (model s)).
  - rewrite Hlen.
    assert (Hn : exists n, (if use_multiple_decoder (model s) then select_bucket_size (len xs) (decoder_batch_sizes (model s))
        else Ok (decoder_batch_size (model s))) = Ok n /\ len xs <= n <= 2 ^ 15).
    { destruct (use_multiple_decoder (model s)); [|by eexists]. destruct Hl as (Hs & Hmax & y & Hy & Hle).
      destruct (bisect_left_in _ _ _ Hs Hy Hle) as (b & Hb & H1 & H2 & H3). exists b. unfold select_bucket_size.
      rewrite Hb. rewrite Forall_forall in Hmax. specialize (Hmax b H2). by split. }
    destruct Hn as (n & -> & Hn). cbn [mbind res_bind]. exists n, (RowSlice (len xs)). cbn [rows_ok row_ids].
    split; [done|]. split; [lia|]. split; [apply NoDup_seq|]. rewrite length_seq. unfold len in *. split; lia.
  - destruct Hl as [Hmax Hs]. eexists _, _. split; [done|]. cbn [rows_ok row_ids].
    rewrite Forall_forall in Hr, Hs. pose proof (do_some Hok) as Hne.
    assert (0 <= decoder_batch_size (model s)).
    { destruct xs as [|x l]; [done|]. specialize (Hr x ltac:(by left)). specialize (Hs x ltac:(by left)). lia. }
    split; [|split; [|split; [by rewrite !length_fmap|lia]]].
    + apply Forall_forall. intros i (x & -> & Hx)%list_elem_of_fmap. specialize (Hr x Hx). specialize (Hs x Hx). lia.
    + apply NoDup_fmap_2_strong; [|done]. intros i j (x & -> & Hx)%list_elem_of_fmap (y & -> & Hy)%list_elem_of_fmap.
      pose proof (Hr x Hx). pose proof (Hr y Hy). lia.
  - destruct Hl as [Hmax (rows & Ht & Hndr & Hrr)]. eexists _, _. split; [done|]. cbn [rows_ok row_ids].
    rewrite Ht. rewrite concat_column.
    assert (Hlr : length rows = length xs) by (apply (f_equal length) in Ht; unfold column in Ht; by rewrite !length_fmap in Ht).
    rewrite Forall_forall in Hrr. pose proof (do_some Hok) as Hne.
    assert (0 <= decoder_batch_size (model s)).
    { destruct rows as [|b rows]; [by destruct xs|]. specialize (Hrr b ltac:(by left)). lia. }
    split; [|split; [|split; [by rewrite length_fmap|lia]]].
    + apply Forall_forall. intros b Hb. specialize (Hrr b Hb). lia.
    + apply NoDup_fmap_2_strong; [|done]. intros i j Hi Hj. pose proof (Hrr i Hi). pose proof (Hrr j Hj). lia.
Qed.

Lemma choose_pad_ok : exists b, choose_pad_block s o tables = Ok b /\ int16 b /\ forall x, x ∈ xs -> b ∉ x_table x.
Proof.
  pose proof (do_pad Hok) as Hp. unfold pad_ready in Hp. unfold choose_pad_block. destruct (dummy_block o) as [d|].
  { exists d. by destruct Hp. }
  destruct Hp as (H16 & b & Hb & Hfree).
  assert (Hc : forall b, b ∉ concat tables <-> forall x, x ∈ xs -> b ∉ x_table x).
  { intros c. unfold tables. split.
    - intros Hn x Hx Hin. apply Hn, list_elem_of_In, in_concat. exists (x_table x). split; apply list_elem_of_In; [|done].
      apply list_elem_of_fmap. by exists x.
    - intros Hn (t & (x & -> & Hx)%list_elem_of_In%list_elem_of_fmap & Hin)%list_elem_of_In%in_concat.
      by apply (Hn x Hx), list_elem_of_In. }
  destruct (filter (fun b => b ∉ concat tables) (available_blocks s)) as [|c l] eqn:E.
  - exfalso. assert (Hf : b ∈ filter (fun b => b ∉ concat tables) (available_blocks s)).
    { apply list_elem_of_filter. split; [by apply Hc|done]. }
    rewrite E in Hf. by apply not_elem_of_nil in Hf.
  - exists c. split; [done|]. assert (Hin : c ∈ filter (fun b => b ∉ concat tables) (available_blocks s)) by (rewrite E; by left).
    apply list_elem_of_filter in Hin as [Hc1 Hc2]. rewrite Forall_forall in H16. split; [by apply H16|by apply Hc].
Qed.

(** The coordinates of the requests are in their rows. *)
Definition mrope_in_rows (rows : Rows) (cs : option (list (list (list Z)))) : Prop :=
  match cs with
  | None => forall x, x ∈ xs -> x_mrope x = None
  | Some cs => forall i x k c, xs !! i = Some x -> row_ids rows !! i = Some k -> (c < 3)%nat ->
      exists m v t, x_mrope x = Some m /\ m !! c = Some v /\ cs !! c = Some t /\ t !! k = Some [v]
  end.

Lemma per_request_mrope : mapM (fun ip => r ← get_or_raise (requests s) ip.1; _mrope_positions r ip.2 (ip.2 + 1))
    (zip (x_id <$> xs) (x_position <$> xs)) = Ok ((fun x => option_map column (x_mrope x)) <$> xs).
Proof.
  assert (zip (x_id <$> xs) (x_position <$> xs) = (fun x => (x_id x, x_position x)) <$> xs) as ->.
  { clear. induction xs as [|x l IH]; [done|]. rewrite !fmap_cons. cbn [zip zip_with]. by f_equal. }
  apply mapM_over. intros x (i & Hi)%list_elem_of_lookup. cbn [fst snd]. unfold get_or_raise.
  destruct (do_stored Hok i x Hi) as (_ & _ & _ & _ & _ & _ & r & Hr & Hm). by rewrite Hr.
Qed.

Lemma coordinate_ok rows n (ms : list (list Z)) (c : nat) : rows_ok rows (Z.to_nat n) -> NoDup (row_ids rows) ->
  length ms = length (row_ids rows) -> Forall (fun m => length m = 3%nat) ms -> (c < 3)%nat -> exists t,
  mrope_coordinate n rows (column <$> ms) (Z.of_nat c) = Ok t /\
  forall i k (m : list Z) v, row_ids rows !! i = Some k -> ms !! i = Some m -> m !! c = Some v -> t !! k = Some [v].
Proof.
  intros Hr Hnd Hl H3 Hc. unfold mrope_coordinate.
  rewrite (mapM_over _ column (fun m => m !!! c)).
  2:{ intros m Hm. rewrite Forall_forall in H3. destruct (lookup_lt_is_Some_2 m c) as [v Hv]; [by rewrite H3|].
    rewrite (nth_ok (column m) c [v]); [|unfold column; by rewrite list_lookup_fmap, Hv]. cbn. by rewrite (list_lookup_total_correct _ _ _ Hv). }
  cbn [mbind res_bind]. destruct (set_rows_ok rows (column ((fun m => m !!! c) <$> ms)) (replicate (Z.to_nat n) [0])) as (t & -> & _ & Hin & _).
  - by rewrite length_replicate.
  - done.
  - unfold column. by rewrite !length_fmap.
  - exists t. split; [done|]. intros i k m v Hk Hm Hv. apply (Hin i); [done|]. unfold column.
    rewrite !list_lookup_fmap, Hm. cbn. by rewrite (list_lookup_total_correct _ _ _ Hv).
Qed.

Lemma mrope_ok rows n : rows_ok rows (Z.to_nat n) -> NoDup (row_ids rows) -> length (row_ids rows) = length xs ->
  exists cs, decode_mrope s n rows (zip (x_id <$> xs) (x_position <$> xs)) = Ok cs /\ mrope_in_rows rows cs.
Proof.
  intros Hr Hnd Hl. unfold decode_mrope. rewrite per_request_mrope. cbn [mbind res_bind].
  pose proof (do_some Hok) as Hne. destruct (do_mrope Hok) as [Hnone|Hsome].
  - exists None. split; [|done]. destruct xs as [|x l]; [done|]. cbn. by rewrite (Hnone x) by (by left).
  - set (ms := (fun x => default [] (x_mrope x)) <$> xs).
    assert (Hh : exists m, head ((fun x => option_map column (x_mrope x)) <$> xs) = Some (Some m)).
    { destruct xs as [|x l]; [done|]. destruct (Hsome x) as (m & Hm & _); [by left|]. cbn. rewrite Hm. by eexists. }
    destruct Hh as (m0 & ->). cbn [of_option mbind res_bind].
    rewrite (mapM_over (fun p => of_option p RuntimeError) _ (fun x => column (default [] (x_mrope x)))).
    2:{ intros x Hx. destruct (Hsome x Hx) as (m & -> & _). done. }
    cbn [mbind res_bind]. assert ((fun x => column (default [] (x_mrope x))) <$> xs = column <$> ms) as ->.
    { unfold ms. by rewrite <- list_fmap_compose. }
    assert (H3 : Forall (fun m => length m = 3%nat) ms).
    { apply Forall_forall. intros m (x & -> & Hx)%list_elem_of_fmap. by destruct (Hsome x Hx) as (m & -> & ?). }
    assert (Hlm : length ms = length (row_ids rows)) by (unfold ms; by rewrite length_fmap).
    destruct (coordinate_ok rows n ms 0) as (t0 & E0 & R0); [done..|lia|].
    destruct (coordinate_ok rows n ms 1) as (t1 & E1 & R1); [done..|lia|].
    destruct (coordinate_ok rows n ms 2) as (t2 & E2 & R2); [done..|lia|].
    cbn [mapM]. change 1 with (Z.of_nat 1) at 1. change 2 with (Z.of_nat 2) at 1. change 0 with (Z.of_nat 0) at 1.
    rewrite E0, E1, E2. cbn [mbind res_bind]. eexists. split; [done|].
    intros i x k c Hi Hk Hc. destruct (Hsome x (list_elem_of_lookup_2 _ _ _ Hi)) as (m & Hm & Hm3).
    destruct (lookup_lt_is_Some_2 m c) as [v Hv]; [lia|]. assert (Hms : ms !! i = Some m) by (unfold ms; by rewrite list_lookup_fmap, Hi; cbn; rewrite Hm).
    destruct c as [|[|[|c]]]; [exists m, v, t0|exists m, v, t1|exists m, v, t2|lia]; (split_and!; [done|done|done|eauto]).
Qed.

(** The padding rows: no running request owns the block or the slot they name. *)
Definition padding_row (mi : ModelInputForRBLN) (k : nat) : Prop :=
  input_tokens mi !! k = Some [0] /\ input_positions mi !! k = Some [0] /\
  (exists b, block_tables mi !! k = Some (replicate w b) /\ forall x, x ∈ xs -> b ∉ x_table x) /\
  exists slot, cache_slot_ids mi !! k = Some [slot] /\ 0 <= slot < padded_batch_size mi /\ slot ∉ slots.

Definition request_row (mi : ModelInputForRBLN) (k : nat) (x : Decoding) : Prop :=
  input_tokens mi !! k = Some [x_token x] /\ input_positions mi !! k = Some [x_position x] /\
  block_tables mi !! k = Some (x_table x) /\ cache_slot_ids mi !! k = Some [x_slot x].

(** The buffer for the tables, before the requests' rows are written. *)
Lemma table_buffer_ok n : len xs <= n -> exists t, (if len xs <? n then
      pad_block ← choose_pad_block s o tables;
      pad_block ← new_int16 pad_block;
      Ok (replicate (Z.to_nat n) (replicate (Z.to_nat (Z.of_nat w)) pad_block))
    else Ok (empty n (Z.of_nat w))) = Ok t /\ length t = Z.to_nat n /\
  (len xs < n -> exists b, t = replicate (Z.to_nat n) (replicate w b) /\ forall x, x ∈ xs -> b ∉ x_table x).
Proof.
  intros Hn. destruct (Z.ltb_spec (len xs) n) as [Hlt|Hge].
  - destruct choose_pad_ok as (b & -> & H16 & Hb). cbn [mbind res_bind]. rewrite (new_int16_ok _ H16). cbn [mbind res_bind].
    eexists. split; [done|]. split; [by rewrite length_replicate|]. intros _. exists b. by rewrite Nat2Z.id.
  - eexists. split; [done|]. split; [apply empty_rows|lia].
Qed.

Lemma pad_slot_ok n : len xs <= n <= 2 ^ 15 -> exists i,
  new_int16 (default 0 (head (filter (fun i => i ∉ slots) (py_range n)))) = Ok i /\
  (len xs < n -> 0 <= i < n /\ i ∉ slots).
Proof.
  intros Hn. assert (Hl : len slots = len xs) by (unfold slots, len; by rewrite length_fmap).
  destruct (decide (len xs < n)) as [Hlt|Hge].
  - destruct (unused_slot slots n) as (i & -> & Hi & Hu); [lia|]. exists i. cbn. rewrite new_int16_ok by (unfold int16; lia). done.
  - set (i := default 0 (head (filter (fun i => i ∉ slots) (py_range n)))). exists i. split; [|lia].
    apply new_int16_ok. assert (0 <= i <= n) as Hi.
    + subst i. destruct (filter (fun i => i ∉ slots) (py_range n)) as [|i l] eqn:E; cbn; [pose proof (len_nonneg xs); lia|].
      assert (Hin : i ∈ filter (fun i => i ∉ slots) (py_range n)) by (rewrite E; by left).
      apply list_elem_of_filter in Hin as [_ Hin]. apply elem_of_seqZ in Hin. lia.
    + assert (i <> n \/ n < 2 ^ 15) as Hd.
      { subst i. destruct (filter (fun i => i ∉ slots) (py_range n)) as [|i l] eqn:E; cbn.
        - destruct (decide (n = 0)); [right; lia|left; lia].
        - assert (Hin : i ∈ filter (fun i => i ∉ slots) (py_range n)) by (rewrite E; by left).
          apply list_elem_of_filter in Hin as [_ Hin]. apply elem_of_seqZ in Hin. lia. }
      unfold int16. lia.
Qed.

Lemma int16_tables : int16_row <$> tables = tables.
Proof.
  unfold tables. rewrite <- list_fmap_compose. apply list_fmap_ext. intros i x Hi. pose proof (do_tables Hok) as Ht.
  rewrite Forall_forall in Ht. apply int16_row_id, Ht, (list_elem_of_lookup_2 _ _ _ Hi).
Qed.

Lemma new_slots : mapM new_int16 slots = Ok slots.
Proof.
  unfold slots. apply mapM_over. intros x Hx. apply new_int16_ok. pose proof (proj2 (do_slots Hok)) as Hs.
  rewrite Forall_forall in Hs. specialize (Hs x Hx). unfold int16. lia.
Qed.

Lemma head_width : len (default [] (head tables)) = Z.of_nat w.
Proof.
  pose proof (do_some Hok). pose proof (do_tables Hok) as Ht. unfold tables. destruct xs as [|x l]; [done|].
  apply Forall_cons in Ht as [[Hx _] _]. cbn. unfold len. by rewrite Hx.
Qed.

(** A column of the requests' values, over a buffer. *)
Lemma fill_column {A} rows n (f : Decoding -> A) (buf : list A) : rows_ok rows (length buf) -> NoDup (row_ids rows) ->
  length (row_ids rows) = length xs -> length buf = n -> exists t, set_rows rows (f <$> xs) buf = Ok t /\ length t = n /\
  (forall i x k, xs !! i = Some x -> row_ids rows !! i = Some k -> t !! k = Some (f x)) /\
  forall k, k ∉ row_ids rows -> t !! k = buf !! k.
Proof.
  intros Hr Hnd Hl Hn. destruct (set_rows_ok rows (f <$> xs) buf Hr Hnd) as (t & -> & Hlen & Hin & Hout); [by rewrite length_fmap|].
  exists t. split; [done|]. split; [congruence|]. split; [|done]. intros i x k Hi Hk. apply (Hin i); [done|]. by rewrite list_lookup_fmap, Hi.
Qed.

(** C15: A decode gives every running request a row of its own with its last token, position,
    block table and cache slot, in whatever layout the model asks for; every other row of the
    padded batch writes to a block that no running request's table has, and to a cache slot that
    none of them owns; and the rows read back are those of the requests, in running order. *)
Theorem decode_rows_apart : exists mi idx, _prepare_decode empty s o = Ok mi /\
  running_requests_ids mi = x_id <$> xs /\ NoDup idx /\ length idx = length xs /\
  (forall i x k, xs !! i = Some x -> idx !! i = Some k -> request_row mi k x) /\
  (forall k, (k < Z.to_nat (padded_batch_size mi))%nat -> k ∉ idx -> padding_row mi k) /\
  (forall i x k c, input_mrope mi <> None -> xs !! i = Some x -> idx !! i = Some k -> (c < 3)%nat ->
     exists m v t, x_mrope x = Some m /\ m !! c = Some v /\ (input_mrope mi ≫= fun cs => cs !! c) = Some t /\ t !! k = Some [v]) /\
  forall (A : Type) (hidden : list A), length hidden = Z.to_nat (padded_batch_size mi) ->
    exists l, take_rows (batch_rows mi) hidden = Ok l /\ forall i k, idx !! i = Some k -> l !! i = hidden !! k.
Proof.
  destruct layout_ok as (n & rows & Hlay & Hr & Hnd & Hl & Hn). pose proof (rows_fit _ _ Hr Hnd) as Hfit.
  assert (Hxs : len xs <= n) by (unfold len; lia).
  assert (Hrep : forall v : list Z, rows_ok rows (length (replicate (Z.to_nat n) v))) by (intros v; by rewrite length_replicate).
  destruct (fill_column rows (Z.to_nat n) (fun x => [x_token x]) (replicate (Z.to_nat n) [0])) as (toks & Etok & _ & Htok & Ptok);
    [done..|by rewrite length_replicate|].
  destruct (fill_column rows (Z.to_nat n) (fun x => [x_position x]) (replicate (Z.to_nat n) [0])) as (poss & Epos & _ & Hpos & Ppos);
    [done..|by rewrite length_replicate|].
  destruct (table_buffer_ok n Hxs) as (buf & Ebuf & Lbuf & Hbuf).
  destruct (fill_column rows (Z.to_nat n) x_table buf) as (tabs & Etab & _ & Htab & Ptab); [by rewrite Lbuf|done..|].
  destruct (pad_slot_ok n ltac:(lia)) as (ps & Eps & Hps).
  destruct (fill_column rows (Z.to_nat n) (fun x => [x_slot x]) (replicate (Z.to_nat n) [ps])) as (sls & Esl & _ & Hsl & Psl);
    [done..|by rewrite length_replicate|].
  destruct (mrope_ok rows n Hr Hnd Hl) as (cs & Ecs & Hcs).
  eexists _, (row_ids rows). split.
  { unfold _prepare_decode. rewrite (do_ids Hok), decode_rows_ok. cbn [mbind res_bind]. unfold lay_out, column.
    rewrite <- !list_fmap_compose. change (snd ∘ _) with x_table. fold tables. rewrite stack_ok, slots_ok. cbn [mbind res_bind].
    rewrite new_slots. cbn [mbind res_bind]. rewrite Hlay. cbn [mbind res_bind].
    unfold compose. cbn [fst snd]. rewrite Etok, Epos. cbn [mbind res_bind].
    replace (len (x_id <$> xs)) with (len xs) by (unfold len; by rewrite length_fmap). rewrite head_width, Ebuf. cbn [mbind res_bind].
    rewrite int16_tables. unfold tables at 1. rewrite Etab. cbn [mbind res_bind]. rewrite Eps. cbn [mbind res_bind].
    unfold slots. rewrite <- list_fmap_compose. unfold compose. rewrite Esl. cbn [mbind res_bind].
    match goal with |- context [decode_mrope s n rows ?z] => change z with (zip (x_id <$> xs) (x_position <$> xs)) end.
    rewrite Ecs. reflexivity. }
  cbn [running_requests_ids padded_batch_size batch_rows input_mrope]. split; [done|]. split; [done|]. split; [done|]. split; [|split; [|split]].
  - intros i x k Hi Hk. unfold request_row. cbn. by rewrite (Htok i x), (Hpos i x), (Htab i x), (Hsl i x).
  - intros k Hk Hnot. assert (Hlt : len xs < n).
    { destruct (Z.ltb_spec (len xs) n); [done|]. exfalso. apply Hnot, (rows_fill _ _ k Hr Hnd); [unfold len in *; lia|done]. }
    unfold padding_row. cbn. rewrite Ptok, Ppos, Ptab, Psl by done. rewrite !lookup_replicate_2 by done.
    destruct (Hbuf Hlt) as (b & -> & Hb). rewrite lookup_replicate_2 by done.
    split; [done|]. split; [done|]. split; [by exists b|]. exists ps. by split; [|apply Hps].
  - intros i x k c Hm Hi Hk Hc. destruct cs as [cs|]; [|done]. apply (Hcs i x k c Hi Hk Hc).
  - intros A hidden Hh. apply take_rows_ok. by rewrite Hh.
Qed.
End decode.

(** ** A small instance *)
Module InputsToy.
Definition scratch (n k : Z) : list (list Z) := replicate (Z.to_nat n) (replicate (Z.to_nat k) 777).

(** Two decodes of a model that pins requests to rows of a batch of four, MRoPE included, and no
    dummy block. *)
Definition pinned : Model :=
  {| layout := BySlot; is_decoder := true; use_multiple_decoder := false; decoder_batch_size := 4;
     decoder_batch_sizes := [] |}.

Definition decoder : Runner :=
  {| model := pinned; enable_prefix_caching := false; available_blocks := [0; 1; 2; 3; 4; 5];
     requests := {["a" := {| mrope_positions := Some [[0; 1]; [0; 1]; [0; 2]]; mrope_position_delta := Some 1 |};
                   "b" := {| mrope_positions := Some [[0; 1]; [0; 1]; [0; 1]]; mrope_position_delta := Some 0 |}]};
     input_batch := {| req_ids := ["a"; "b"]; req_id_to_index := {["a" := 0; "b" := 1]};
       num_computed_tokens_cpu := [2; 1; 0]; num_tokens_no_spec := [3; 2; 0];
       token_ids_cpu := [[11; 12; 13]; [21; 22; 0]; [0; 0; 0]]; block_table := [[2; 3]; [5; 9]; [0; 0]];
       num_blocks_per_row := [2; 1; 0] |};
     seq_lens := [0; 0; 0] |}.

Definition decode_step : SchedulerOutput :=
  {| num_scheduled_tokens := {["a" := 1; "b" := 1]}; total_num_scheduled_tokens := 2; scheduled_new_reqs := [];
     cached_req_ids := ["a"; "b"]; resumed_req_ids := ∅; block_table_dict := ∅; cached_block_table := [];
     cached_length := []; dummy_block := None; cache_slot_id_dict := {["a" := 2; "b" := 0]} |}.

Definition decodings : list Decoding :=
  [ {| x_id := "a"; x_token := 13; x_position := 2; x_table := [1; 2]; x_slot := 2; x_mrope := Some [3; 3; 3] |};
    {| x_id := "b"; x_token := 22; x_position := 1; x_table := [4; 0]; x_slot := 0; x_mrope := Some [1; 1; 1] |} ].

Lemma decodings_ok : decoding_ok decoder decode_step decodings 2.
Proof.
  split; try done.
  - intros [|[|i]] x Hi; cbn in Hi; simplify_eq;
      (split_and!; [done|done|done|by eexists|cbn; eexists _, _; by split_and!|done|eexists; by split]).
  - repeat constructor; done.
  - split; [|repeat constructor; cbn; lia]. apply (bool_decide_unpack _). vm_compute. exact I.
  - split; [done|]. repeat constructor; cbn; lia.
  - split; [repeat constructor; cbn; lia|]. exists 3. split; [apply (bool_decide_unpack _); vm_compute; exact I|].
    intros x Hx. repeat (apply elem_of_cons in Hx as [->|Hx]; [apply (bool_decide_unpack _); vm_compute; exact I|]).
    by apply not_elem_of_nil in Hx.
  - right. intros x Hx. repeat (apply elem_of_cons in Hx as [->|Hx]; [by eexists|]). by apply not_elem_of_nil in Hx.
Qed.

Lemma decode_rows_apart_witness : exists mi idx, _prepare_decode scratch decoder decode_step = Ok mi /\
  NoDup idx /\ length idx = 2%nat /\ forall k, (k < Z.to_nat (padded_batch_size mi))%nat -> k ∉ idx ->
    padding_row decodings 2 mi k.
Proof.
  destruct (decode_rows_apart scratch decoder decode_step decodings 2) as (mi & idx & E & _ & H1 & H2 & _ & H3 & _).
  - intros n k. apply length_replicate.
  - exact decodings_ok.
  - exists mi, idx. by split_and!.
Defined.

Lemma sampler_buckets_cover_witness : get_bucket_sizes 19 = [1; 2; 4; 8; 16; 19] /\ 19 ∈ get_bucket_sizes 19.
Proof. split; [done|]. exact (proj1 (proj2 (sampler_buckets_cover 19 ltac:(lia)))). Defined.
End InputsToy.
