(* ===== verification/OptimumPrefillSpec.v ===== *)
(** * Models compiled ahead of time: theorems about a prefill

    A prefill, with the copies of cached blocks before it, covers every token of its request,
    and does so without the cached prefix when a copy fails. *)
From S2P Require Import Prelude KvPlacement RunnerInputs OptimumInputs OptimumInputsSpec.

(** ** Block tables *)
Lemma masked_table block_ids n j : 0 <= n -> (j < length block_ids)%nat -> exists t, mask_block_table block_ids n = Ok t /\
  length t = length block_ids /\ t !! j = Some (if Z.of_nat j <? n then block_ids !!! j - 1 else 0).
Proof.
  intros Hn Hj. destruct (lookup_lt_is_Some_2 block_ids j Hj) as [b Hb]. pose proof (list_lookup_total_correct _ _ _ Hb) as Hbt.
  unfold mask_block_table. destruct (Z.ltb_spec n 0); [lia|]. unfold len. rewrite length_fmap.
  eexists. split; [done|]. destruct (Z.ltb_spec (Z.min n (Z.of_nat (length block_ids))) (Z.of_nat (length block_ids))) as [Hlt|Hge].
  - rewrite length_app, length_take, length_replicate, length_fmap. split; [lia|].
    destruct (Z.ltb_spec (Z.of_nat j) n).
    + rewrite lookup_app_l by (rewrite length_take, length_fmap; lia). rewrite lookup_take_lt by lia.
      by rewrite list_lookup_fmap, Hb, Hbt.
    + rewrite lookup_app_r by (rewrite length_take, length_fmap; lia). rewrite lookup_replicate_2; [done|].
      rewrite length_take, length_fmap. lia.
  - split; [by rewrite length_fmap|]. rewrite list_lookup_fmap, Hb, Hbt. cbn. by destruct (Z.ltb_spec (Z.of_nat j) n); [|lia].
Qed.

(** ** A prefill *)
Section prefill.
Context {M : Type} (copy : Z -> Z -> Z -> M -> option M) (reads : M -> Z -> Z -> option Z) (block_size : Z).
Context (copy_reads : forall src dst n dev dev', copy src dst n dev = Some dev' -> forall b off,
  reads dev' b off = if decide (b = dst /\ 0 <= off < n) then reads dev src off else reads dev b off).
Context (empty : Z -> Z -> list (list Z)) (s : Runner) (o : SchedulerOutput) (dev : M).

(** The copies, in any order that does not overwrite a source. *)
Lemma copy_blocks_reads copies d ok d' : NoDup ((fun c : Z * Z * Z => c.1.2) <$> copies) ->
  (forall c c', c ∈ copies -> c' ∈ copies -> c.1.1 <> c'.1.2) -> copy_blocks copy copies d = (ok, d') ->
  (forall b off, (forall c, c ∈ copies -> c.1.2 <> b) -> reads d' b off = reads d b off) /\
  (ok = true -> forall c off, c ∈ copies -> 0 <= off < c.2 -> reads d' c.1.2 off = reads d c.1.1 off).
Proof.
  revert d. induction copies as [|[[src dst] n] copies IH]; intros d Hnd Hsep; cbn [copy_blocks].
  { intros [= <- <-]. split; [done|]. intros _ c off Hc. by apply not_elem_of_nil in Hc. }
  cbn in Hnd. apply NoDup_cons in Hnd as [Hnot Hnd]. destruct (copy src dst n d) as [d1|] eqn:E.
  2:{ intros [= <- <-]. by split. }
  intros Hrest. destruct (IH d1 Hnd) as [Hkeep Hcopied]; [|done|].
  { intros c c' Hc Hc'. apply Hsep; by right. }
  assert (Hsrc : forall c, c ∈ (src, dst, n) :: copies -> forall off, reads d1 c.1.1 off = reads d c.1.1 off).
  { intros c Hc off. rewrite (copy_reads _ _ _ _ _ E). rewrite decide_False; [done|]. intros [Heq _].
    by apply (Hsep c (src, dst, n) Hc ltac:(by left)). }
  split.
  - intros b off Hb. rewrite Hkeep by (intros c Hc; apply Hb; by right). rewrite (copy_reads _ _ _ _ _ E).
    rewrite decide_False; [done|]. intros [-> _]. by apply (Hb (src, dst, n) ltac:(by left)).
  - intros Hok c off Hc Hoff. apply elem_of_cons in Hc as [->|Hc]; cbn [fst snd] in *.
    + rewrite Hkeep, (copy_reads _ _ _ _ _ E), decide_True; [done|done|].
      intros c Hc Heq. apply Hnot, list_elem_of_fmap. by exists c.
    + rewrite (Hcopied Hok c off Hc Hoff). apply Hsrc. by right.
Qed.

(** All cached lengths but the last are those of whole blocks. *)
Definition no_gap (lengths : list Z) : Prop :=
  forall i n, lengths !! i = Some n -> 0 < n <= block_size /\ (n = block_size \/ S i = length lengths).

Lemma no_gap_sum lengths p : 0 < block_size -> no_gap lengths -> 0 <= p < sumZ lengths ->
  exists n, lengths !! Z.to_nat (p / block_size) = Some n /\ p mod block_size < n.
Proof.
  intros Hbs. revert p. induction lengths as [|n l IH]; intros p Hg Hp; [cbn in Hp; lia|]. cbn [sumZ foldr] in Hp.
  fold (sumZ l) in Hp. destruct (Hg 0%nat n eq_refl) as [Hn Hlast]. destruct (Z.ltb_spec p block_size) as [Hlt|Hge].
  - rewrite Z.div_small, Z.mod_small by lia. exists n. split; [done|]. destruct Hlast as [->|Hl]; [done|].
    destruct l; [cbn in Hp; lia|done].
  - assert (n = block_size) as ->.
    { destruct Hlast as [->|Hl]; [done|]. destruct l; [cbn in Hp; lia|done]. }
    destruct (IH (p - block_size)) as (m & Hm & Hlt).
    { intros i m Hi. destruct (Hg (S i) m Hi) as [H1 H2]. split; [done|]. destruct H2 as [H2|H2]; [by left|right]. cbn in H2. lia. }
    { lia. }
    assert (p = (p - block_size) + 1 * block_size) as Hpe by lia. rewrite Hpe, Z.div_add, Z_mod_plus_full by lia.
    rewrite Z2Nat.inj_add by (try apply Z.div_pos; lia). rewrite Nat.add_1_r. exists m. by split.
Qed.

(** The step starts the request, or resumes it after a preemption: its tokens. *)
Definition starts (id : string) (toks : list Z) : Prop :=
  (scheduled_new_reqs o = [(id, toks)] /\ cached_req_ids o = []) \/
  (scheduled_new_reqs o = [] /\ cached_req_ids o = [id] /\ resumed_req_ids o = {[id]} /\
   exists n row rows, num_tokens_no_spec (input_batch s) !! 0%nat = Some n /\
     token_ids_cpu (input_batch s) = row :: rows /\ toks = py_take n row).

(** The blocks to copy hold the tokens they are said to, and lie apart from their copies. *)
Record cached_ok (toks table : list Z) : Prop := {
  ca_lengths : len (cached_block_table o) = len (cached_length o) /\ len (cached_length o) <= len table;
  ca_some_left : sumZ (cached_length o) < len toks;
  ca_sizes : forall i n, cached_length o !! i = Some n -> 0 <= n;
  ca_holds : forall i src n, cached_block_table o !! i = Some src -> cached_length o !! i = Some n ->
    forall off, 0 <= off < n -> reads dev src off = toks !! Z.to_nat (Z.of_nat i * block_size + off);
  ca_apart : NoDup (take (length (cached_length o)) table) /\
    forall b, b ∈ cached_block_table o -> b ∉ take (length (cached_length o)) table
}.

Record prefill_ok (id : string) (toks table : list Z) (slot : Z) : Prop := {
  pr_caching : enable_prefix_caching s = true /\ is_decoder (model s) = true;
  pr_block_size : 0 < block_size;
  pr_starts : starts id toks;
  pr_batch : req_ids (input_batch s) = [id] /\ req_id_to_index (input_batch s) !! id = Some 0;
  pr_counts : 0 < total_num_scheduled_tokens o /\ is_Some (num_scheduled_tokens o !! id) /\
    is_Some (num_blocks_per_row (input_batch s) !! 0%nat) /\
    is_Some (num_computed_tokens_cpu (input_batch s) !! 0%nat) /\ seq_lens s <> [];
  pr_table : block_table_dict o !! id = Some table /\ Forall int16 table;
  pr_slot : cache_slot_id_dict o !! id = Some slot /\ int16 slot;
  pr_request : exists r, requests s !! id = Some r /\ (mrope_positions r = None \/ is_Some (mrope_position_delta r));
  pr_cached : cached_ok toks table
}.

(** What is staged from position [start] on. *)
Definition staged_from (id : string) (toks table : list Z) (slot start : Z) (mi : ModelInputForRBLN) : Prop :=
  is_prompt mi = true /\ running_requests_ids mi = [id] /\ padded_batch_size mi = 1 /\
  input_tokens mi = [drop (Z.to_nat start) toks] /\
  input_positions mi = [seqZ start (len toks - start)] /\ block_tables mi = [table] /\ cache_slot_ids mi = [[slot]].

Lemma mrope_some r start stop : start < stop -> mrope_positions r = None \/ is_Some (mrope_position_delta r) ->
  exists m, _mrope_positions r start stop = Ok m.
Proof.
  intros Hlt Hr. unfold _mrope_positions. destruct (mrope_positions r) as [rows|]; [|by eexists].
  destruct Hr as [Hr|[d ->]]; [done|]. cbn zeta. destruct (Z.ltb_spec start (len (default [] (head rows)))); [by eexists|].
  destruct (Z.ltb_spec (len (default [] (head rows))) stop); [by eexists|lia].
Qed.

Lemma prefill_request_ok id toks table slot : prefill_ok id toks table slot ->
  prefill_request s o = Ok (id, 0, toks) /\ is_prefill_step o = true /\
  (1 <? len (scheduled_new_reqs o)) || ((1 <=? len (scheduled_new_reqs o)) && (0 <? len (cached_req_ids o))) = false.
Proof.
  intros P. destruct (pr_batch _ _ _ _ P) as [_ Hix]. unfold prefill_request, is_prefill_step, get_or_raise.
  destruct (pr_starts _ _ _ _ P) as [[-> ->]|(-> & -> & -> & n & row & rows & Hn & Hrow & ->)].
  - rewrite Hix. by split.
  - rewrite Hix. cbn [of_option mbind res_bind]. pose proof (nth_ok _ 0 _ Hn) as E. change (Z.of_nat 0) with 0 in E. rewrite E. cbn [mbind res_bind].
    rewrite Hrow. cbn. rewrite size_singleton. by split_and!.
Qed.

Lemma prepare_prefill_ok id toks table slot (use : bool) : prefill_ok id toks table slot ->
  exists mi, _prepare_prefill s o use = Ok mi /\
    staged_from id toks table slot (if use then sumZ (cached_length o) else 0) mi.
Proof.
  intros P. destruct (prefill_request_ok _ _ _ _ P) as [Hreq _]. destruct (pr_caching _ _ _ _ P) as [Hc _].
  destruct (pr_counts _ _ _ _ P) as (_ & _ & [nb Hnb] & _). destruct (pr_table _ _ _ _ P) as [Ht H16].
  destruct (pr_slot _ _ _ _ P) as [Hs Hs16]. destruct (pr_request _ _ _ _ P) as (r & Hr & Hm).
  pose proof (ca_some_left _ _ (pr_cached _ _ _ _ P)) as Hleft.
  assert (Hnn : 0 <= sumZ (cached_length o)).
  { apply sumZ_nonneg, Forall_forall. intros n (i & Hi)%list_elem_of_lookup.
    by apply (ca_sizes _ _ (pr_cached _ _ _ _ P) i). }
  set (start := if use then sumZ (cached_length o) else 0). assert (0 <= start < len toks) as Hstart.
  { subst start. pose proof (len_nonneg toks). destruct use; lia. }
  unfold _prepare_prefill. rewrite Hreq. cbn [mbind res_bind]. pose proof (nth_ok _ 0 _ Hnb) as E. change (Z.of_nat 0) with 0 in E. rewrite E.
  cbn [mbind res_bind]. rewrite Hc. unfold get_or_raise. rewrite Ht. cbn [of_option mbind res_bind]. fold start.
  assert (((start <=? 0) || (start <? len toks)) = true) as -> by (apply orb_true_iff; right; apply Z.ltb_lt; lia).
  cbn [require mbind res_bind]. rewrite Hr. cbn [of_option mbind res_bind].
  destruct (mrope_some r start (len toks)) as (m & ->); [lia|done|]. cbn [mbind res_bind]. rewrite Hs. cbn [of_option mbind res_bind].
  rewrite (new_int16_ok _ Hs16). cbn [mbind res_bind]. eexists. split; [done|]. unfold staged_from. cbn.
  rewrite (int16_row_id _ H16). split_and!; try done. destruct (Z.ltb_spec 0 start); [done|]. by replace start with 0 by lia.
Qed.

Lemma prepare_inputs_ok id toks table slot (use : bool) : prefill_ok id toks table slot ->
  exists mi ts lens, _prepare_inputs empty s o use = Ok (mi, ts, set_seq_lens lens s) /\ lens <> [] /\
    staged_from id toks table slot (if use then sumZ (cached_length o) else 0) mi.
Proof.
  intros P. destruct (prefill_request_ok _ _ _ _ P) as (_ & Hp & Hone). destruct (pr_batch _ _ _ _ P) as [Hids _].
  destruct (pr_counts _ _ _ _ P) as (Ht & [n Hn] & _ & [c Hc] & Hsl). destruct (prepare_prefill_ok _ _ _ _ use P) as (mi & Emi & Hmi).
  unfold _prepare_inputs. rewrite Hids. assert ((0 <? total_num_scheduled_tokens o) = true) as -> by by apply Z.ltb_lt.
  cbn [require mbind res_bind len length Z.of_nat Z.ltb Z.compare mapM]. unfold get_or_raise. rewrite Hn. cbn [of_option mbind res_bind].
  rewrite Hone, Hp, Emi. cbn [mbind res_bind]. destruct (num_computed_tokens_cpu (input_batch s)) as [|c0 cs]; [done|].
  cbn in Hc. injection Hc as ->. destruct (seq_lens s) as [|l0 ls] eqn:El; [done|].
  assert (Hw : set_rows (RowSlice (len [id])) [c + n] (l0 :: ls) = Ok ((c + n) :: ls)).
  { unfold set_rows. rewrite Z.min_l by (unfold len; cbn [length]; lia). done. }
  assert (np_zip Z.add (py_take (len [id]) (c :: cs)) [n] = Ok [c + n]) as -> by by destruct cs.
  cbn [mbind res_bind]. rewrite Hw. cbn [mbind res_bind].
  exists mi, [n], ((c + n) :: ls). by split_and!.
Qed.
End prefill.

Section staging.
Context {M : Type} (copy : Z -> Z -> Z -> M -> option M) (reads : M -> Z -> Z -> option Z) (block_size : Z).
Context (copy_reads : forall src dst n dev dev', copy src dst n dev = Some dev' -> forall b off,
  reads dev' b off = if decide (b = dst /\ 0 <= off < n) then reads dev src off else reads dev b off).
Context (empty : Z -> Z -> list (list Z)).

Lemma prefill_ok_again s o dev id toks table slot lens : lens <> [] ->
  prefill_ok reads block_size s o dev id toks table slot ->
  prefill_ok reads block_size (set_seq_lens lens s) o dev id toks table slot.
Proof. intros Hl P. destruct P as [P1 P2 P3 P4 (C1 & C2 & C3 & C4 & C5) P6 P7 P8 P9]. by split. Qed.

(** The copies a prefill asks for, block by block. *)
Lemma copies_of (src dst n : list Z) : length src = length n -> (length n <= length dst)%nat ->
  (forall c, c ∈ zip (zip src dst) n -> exists i, src !! i = Some c.1.1 /\ dst !! i = Some c.1.2 /\ n !! i = Some c.2) /\
  (fun c : Z * Z * Z => c.1.2) <$> zip (zip src dst) n = take (length n) dst /\
  forall i a b m, src !! i = Some a -> dst !! i = Some b -> n !! i = Some m -> (a, b, m) ∈ zip (zip src dst) n.
Proof.
  intros H1 H2. split; [|split].
  - intros [[a b] m] (i & Hi)%list_elem_of_lookup. apply lookup_zip_Some in Hi as [Hab Hm].
    apply lookup_zip_Some in Hab as [Ha Hb]. by exists i.
  - change (fun c : Z * Z * Z => c.1.2) with ((snd : Z * Z -> Z) ∘ (fst : Z * Z * Z -> Z * Z)). rewrite list_fmap_compose.
    rewrite fst_zip by (rewrite length_zip; lia). revert dst n H1 H2.
    induction src as [|a src IH]; intros [|b dst] [|m n] H1 H2; cbn in *; try done; try lia. f_equal. apply IH; lia.
  - intros i a b m Ha Hb Hm. apply (list_elem_of_lookup_2 _ i). apply lookup_zip_Some. split; [|done]. by apply lookup_zip_Some.
Qed.

(** Every copied part in place covers the prefix when the parts leave no gap. *)
Lemma parts_cover (f : Z -> Z -> option Z) (toks table lengths : list Z) : 0 < block_size -> len lengths <= len table ->
  (forall i b n off, table !! i = Some b -> lengths !! i = Some n -> 0 <= off < n ->
    f b off = toks !! Z.to_nat (Z.of_nat i * block_size + off)) ->
  no_gap block_size lengths -> forall p, 0 <= p < sumZ lengths -> exists b, table !! Z.to_nat (p / block_size) = Some b /\
    f b (p mod block_size) = toks !! Z.to_nat p.
Proof.
  intros Hbs Hl Hf Hg p Hp. destruct (no_gap_sum block_size lengths p Hbs Hg Hp) as (n & Hn & Hlt).
  pose proof (Z.mod_pos_bound p block_size Hbs) as Hmod. pose proof (lookup_lt_Some _ _ _ Hn) as Hi.
  destruct (lookup_lt_is_Some_2 table (Z.to_nat (p / block_size))) as [b Hb]; [unfold len in *; lia|].
  exists b. split; [done|]. rewrite (Hf _ b n _ Hb Hn) by lia. do 2 f_equal. rewrite Z2Nat.id by (apply Z.div_pos; lia).
  pose proof (Z.div_mod p block_size). lia.
Qed.

(** C16: A prefill stages its tokens from a position [start] on, at their positions, whatever
    becomes of the copies: [start] is the sum of the cached lengths when all copies were made,
    and 0 when one failed and the cached prefix is given up.  Every copied part then reads at
    its place in the request's blocks as the tokens there; so if the cached lengths leave no gap
    inside a block, every token before [start] does.  With a gap (see
    [PrefixCacheSpec.partial_hit_leaves_a_gap]) some token before [start] is neither copied nor
    staged. *)
Theorem prefill_covers_request s o dev id toks table slot : prefill_ok reads block_size s o dev id toks table slot ->
  exists mi s' dev' start, stage_step empty copy s o dev = Ok (mi, s', dev') /\
    staged_from id toks table slot start mi /\ (start = sumZ (cached_length o) \/ start = 0) /\
    (0 < start -> forall i b n off, table !! i = Some b -> cached_length o !! i = Some n -> 0 <= off < n ->
      reads dev' b off = toks !! Z.to_nat (Z.of_nat i * block_size + off)) /\
    (no_gap block_size (cached_length o) -> forall p, 0 <= p < start -> exists b, table !! Z.to_nat (p / block_size) = Some b /\
      reads dev' b (p mod block_size) = toks !! Z.to_nat p).
Proof.
  intros P. destruct (prepare_inputs_ok reads block_size empty s o dev id toks table slot true P) as (mi & ts & lens & E1 & Hl & St).
  pose proof (pr_cached _ _ _ _ _ _ _ _ _ P) as Hca. destruct (ca_lengths _ _ _ _ _ _ Hca) as [L1 L2].
  destruct (ca_apart _ _ _ _ _ _ Hca) as [Hnd Hap]. pose proof St as (Hpr & _ & _ & _ & _ & Htab & _).
  destruct (pr_caching _ _ _ _ _ _ _ _ _ P) as [_ Hdec].
  unfold stage_step. rewrite E1. cbn [mbind res_bind]. unfold try_copy_prefix_cached_kv. rewrite Hpr.
  change (model (set_seq_lens lens s)) with (model s). rewrite Hdec, Htab. cbn [andb negb concat app]. rewrite app_nil_r.
  unfold copy_cached_kv_blocks. case_bool_decide as Hnil.
  { exists mi. eexists _, _, (sumZ (cached_length o)). split; [done|]. split; [done|]. split; [by left|].
    rewrite Hnil in L1. destruct (cached_length o); [|done]. cbn. split; [lia|intros _ p Hp; lia]. }
  rewrite L1, Z.eqb_refl. cbn [negb mbind res_bind].
  destruct (copy_blocks copy _ dev) as [ok dev'] eqn:Ec. cbn [fst snd].
  destruct (copies_of (cached_block_table o) table (cached_length o)) as (C1 & C2 & C3); [unfold len in *; lia..|].
  destruct (copy_blocks_reads copy reads copy_reads (zip (zip (cached_block_table o) table) (cached_length o)) dev ok dev') as [_ Hcopied]; [by rewrite C2| |exact Ec|].
  { intros c c' Hc Hc' Heq. destruct (C1 c Hc) as (i & Hi & _). apply (Hap c.1.1); [apply (list_elem_of_lookup_2 _ _ _ Hi)|].
    rewrite Heq, <- C2. apply list_elem_of_fmap. by exists c'. }
  destruct ok.
  - assert (Hpart : forall i b n off, table !! i = Some b -> cached_length o !! i = Some n -> 0 <= off < n ->
      reads dev' b off = toks !! Z.to_nat (Z.of_nat i * block_size + off)).
    { intros i b n off Hb Hn Hoff. destruct (lookup_lt_is_Some_2 (cached_block_table o) i) as [a Ha].
      { apply lookup_lt_Some in Hn. unfold len in *. lia. }
      rewrite <- (ca_holds _ _ _ _ _ _ Hca i a n Ha Hn off Hoff). apply (Hcopied eq_refl (a, b, n) off (C3 _ _ _ _ Ha Hb Hn)). done. }
    exists mi. eexists _, _, (sumZ (cached_length o)). split; [done|]. split; [done|]. split; [by left|]. split; [done|].
    apply (parts_cover (reads dev')); [apply P|done|done].
  - destruct (prepare_inputs_ok reads block_size empty (set_seq_lens lens s) o dev id toks table slot false
      (prefill_ok_again _ _ _ _ _ _ _ _ Hl P)) as (mi2 & ts2 & lens2 & E2 & _ & St2).
    rewrite E2. cbn [mbind res_bind]. exists mi2. eexists _, _, 0. split; [done|]. split; [done|]. split; [by right|].
    split; [lia|intros _ p Hp; lia].
Qed.
End staging.

(** ** A small instance *)
Module PrefillToy.
(** A prefill of five tokens of which a block of two and one token more are cached; memory is a
    function, and block 9 cannot be copied. *)
Definition memory := Z -> Z -> option Z.
Definition copy (src dst n : Z) (dev : memory) : option memory :=
  if src =? 9 then None
  else Some (fun b off => if decide (b = dst /\ 0 <= off < n) then dev src off else dev b off).
Definition held (second : Z) : memory := fun b off =>
  if b =? 6 then [31; 32] !! Z.to_nat off else if b =? second then [33] !! Z.to_nat off else None.

Definition prefiller : Runner :=
  {| model := {| layout := ByOrder; is_decoder := true; use_multiple_decoder := false; decoder_batch_size := 4;
       decoder_batch_sizes := [] |};
     enable_prefix_caching := true; available_blocks := []; requests := {["c" := {| mrope_positions := None; mrope_position_delta := None |}]};
     input_batch := {| req_ids := ["c"]; req_id_to_index := {["c" := 0]}; num_computed_tokens_cpu := [0];
       num_tokens_no_spec := [5]; token_ids_cpu := [[31; 32; 33; 34; 35]]; block_table := [[]]; num_blocks_per_row := [3] |};
     seq_lens := [0; 0] |}.

Definition prefill_step (second : Z) : SchedulerOutput :=
  {| num_scheduled_tokens := {["c" := 5]}; total_num_scheduled_tokens := 5;
     scheduled_new_reqs := [("c"%string, [31; 32; 33; 34; 35])]; cached_req_ids := []; resumed_req_ids := ∅;
     block_table_dict := {["c" := [1; 2; 3]]}; cached_block_table := [6; second]; cached_length := [2; 1];
     dummy_block := Some 8; cache_slot_id_dict := {["c" := 1]} |}.

Lemma prefill_fine second : second = 7 \/ second = 9 ->
  prefill_ok (fun dev : memory => dev) 2 prefiller (prefill_step second) (held second) "c" [31; 32; 33; 34; 35] [1; 2; 3] 1.
Proof.
  intros Hs. split; try done.
  - by left.
  - split; [done|]. repeat constructor; cbn; lia.
  - eexists. split; [done|]. by left.
  - split; try done.
    + intros [|[|i]] n Hn; cbn in Hn; simplify_eq; lia.
    + intros [|[|i]] src n Hsrc Hn off Hoff; cbn in Hsrc, Hn; simplify_eq; unfold held.
      * cbn. destruct (decide (off = 0)) as [->|]; [done|]. by assert (off = 1) as -> by lia.
      * assert (off = 0) as -> by lia. destruct Hs as [->| ->]; done.
    + split; [apply (bool_decide_unpack _); vm_compute; exact I|]. intros b Hb. cbn in Hb.
      destruct Hs as [->| ->]; repeat (apply elem_of_cons in Hb as [->|Hb]; [apply (bool_decide_unpack _); vm_compute; exact I|]);
        by apply not_elem_of_nil in Hb.
Qed.

Lemma prefill_covers_request_witness :
  (exists mi s' dev' start, stage_step InputsToy.scratch copy prefiller (prefill_step 7) (held 7) = Ok (mi, s', dev') /\
    staged_from "c" [31; 32; 33; 34; 35] [1; 2; 3] 1 start mi) /\
  exists mi s' dev', stage_step InputsToy.scratch copy prefiller (prefill_step 9) (held 9) = Ok (mi, s', dev') /\
    input_tokens mi = [[31; 32; 33; 34; 35]].
Proof.
  assert (Hcopy : forall src dst n (dev dev' : memory), copy src dst n dev = Some dev' -> forall b off,
    dev' b off = if decide (b = dst /\ 0 <= off < n) then dev src off else dev b off).
  { intros src dst n dev dev' E b off. unfold copy in E. destruct (src =? 9); [done|]. by injection E as <-. }
  split.
  - destruct (prefill_covers_request copy (fun dev : memory => dev) 2 Hcopy InputsToy.scratch prefiller (prefill_step 7) (held 7)
      "c" [31; 32; 33; 34; 35] [1; 2; 3] 1 (prefill_fine 7 ltac:(by left))) as (mi & s' & dev' & start & E & St & _).
    by exists mi, s', dev', start.
  - eexists _, _, _. split; [vm_compute; reflexivity|done].
Defined.
End PrefillToy.
