(* ===== verification/RunnerReorder.v ===== *)
(** * Model runners: the order of the batch

    [_may_reorder_batch] of both runners ([rbln_model_runner.py], [optimum_model_runner.py]):
    the requests are sorted by descending length, stably.  One runner moves them in one pass
    ([reorder_input_batch]) and records the swaps that the logits processors replay; the other
    swaps the requests of the batch themselves. *)
From S2P Require Import Prelude WorkerUtils.

(** ** Definitions *)

(** [np.argsort(keys, kind="stable")]: equal keys stay in order. *)
Fixpoint insert_by (keys : list Z) (i : Z) (l : list Z) : list Z :=
  match l with
  | [] => [i]
  | j :: l' => if keys !!! Z.to_nat i <? keys !!! Z.to_nat j then i :: l else j :: insert_by keys i l'
  end.

Definition argsort_stable (keys : list Z) : list Z :=
  foldl (fun l i => insert_by keys i l) [] (py_range (len keys)).

Definition sorted_order (toks : list Z) : list Z := argsort_stable ((fun t => t * -1) <$> toks).

(** The inner loop: one cycle of the permutation. *)
Fixpoint follow_cycle (fuel : nat) (src dst : Z) (src_to_dst : gmap Z Z) (moved : list (Z * Z))
    : res (gmap Z Z * list (Z * Z)) :=
  if src =? dst then Ok (src_to_dst, moved)
  else match fuel with
       | O => Raise OutOfFuel
       | S fuel =>
           let next_dst := default dst (src_to_dst !! dst) in
           follow_cycle fuel src next_dst (<[dst := dst]> src_to_dst) (moved ++ [(src, dst)])
       end.

(** The dictionary is read in the order it was filled in, [src] by [src]. *)
Definition swap_records (order : list Z) : res (list (Z * Z)) :=
  let src_to_dst : gmap Z Z := list_to_map (zip order (py_range (len order))) in
  st ← foldM (fun st src =>
    dst ← of_option (st.1 !! src) KeyError;
    follow_cycle (length order) src dst st.1 st.2) (src_to_dst, []) order;
  Ok st.2.

(** [np.all(toks[:-1] >= toks[1:])]. *)
Definition non_increasing (toks : list Z) : bool :=
  forallb (fun ab => ab.2 <=? ab.1) (zip toks (tail toks)).

(** The batch afterwards and the records appended for the logits processors. *)
Definition _may_reorder_batch {T G F} (sort_batch_by_length : bool) (num_kv_cache_groups : Z) (ib : InputBatch T G F)
    : res (InputBatch T G F * list (Z * Z)) :=
  if negb sort_batch_by_length || (num_kv_cache_groups =? 0) then Ok (ib, [])
  else
    let n := len (req_ids ib) in
    let toks := py_take n (num_tokens_no_spec ib) in
    if (n <=? 1) || non_increasing toks then Ok (ib, [])
    else
      let order := sorted_order toks in
      moved ← (if is_pooling_model ib then Ok [] else swap_records order);
      ib ← reorder_input_batch ib order;
      Ok (ib, moved).

(** The other runner's, over any batch with a [swap_states]. *)
Definition optimum_may_reorder_batch {B} (swap_states : Z -> Z -> B -> B) (sort_batch_by_length : bool)
    (num_tokens_no_spec : list Z) (num_reqs : Z) (b : B) : res B :=
  if negb sort_batch_by_length then Ok b
  else if num_reqs <=? 1 then Ok b
  else
    moved ← swap_records (sorted_order (py_take num_reqs num_tokens_no_spec));
    Ok (foldl (fun b ab => swap_states ab.1 ab.2 b) b moved).

(** ** Swaps *)
Definition swap {A} (a b : Z) (f : Z -> A) : Z -> A :=
  fun k => if decide (k = a) then f b else if decide (k = b) then f a else f k.

(** What replaying the records makes of one value per request. *)
Definition replay {A} (moved : list (Z * Z)) (f : Z -> A) : Z -> A :=
  foldl (fun f ab => swap ab.1 ab.2 f) f moved.

Lemma replay_app {A} m1 m2 (f : Z -> A) : replay (m1 ++ m2) f = replay m2 (replay m1 f).
Proof. apply foldl_app. Qed.

(** The permutation that is still to be done: an injection of the slots. *)
Record pending (n : Z) (v : Z -> Z) : Prop := {
  pe_range : forall i, 0 <= i < n -> 0 <= v i < n;
  pe_inj : forall i j, 0 <= i < n -> 0 <= j < n -> v i = v j -> i = j
}.

Definition upd (v : Z -> Z) (i x : Z) : Z -> Z := fun j => if decide (j = i) then x else v j.

(** What is left when the request at [src] has gone to [v src]. *)
Definition advance (v : Z -> Z) (src : Z) : Z -> Z := upd (upd v src (v (v src))) (v src) (v src).

Definition unsettled (n : Z) (v : Z -> Z) : nat := length (filter (fun i => v i <> i) (py_range n)).

Lemma filter_shorter {A} (P Q : A -> Prop) `{forall x, Decision (P x), forall x, Decision (Q x)} (l : list A) x :
  (forall y, y ∈ l -> Q y -> P y) -> x ∈ l -> P x -> ~ Q x -> (length (filter Q l) < length (filter P l))%nat.
Proof.
  intros Hsub Hx HP HQ. assert (Hle : forall l, (forall y, y ∈ l -> Q y -> P y) -> (length (filter Q l) <= length (filter P l))%nat).
  { clear. induction l as [|y l IH]; intros Hsub; [done|]. rewrite !filter_cons.
    assert (length (filter Q l) <= length (filter P l))%nat by (apply IH; intros z Hz; apply Hsub; by right).
    repeat case_decide; cbn; try lia. exfalso. eauto using list_elem_of_here. }
  induction l as [|y l IH]; [by apply not_elem_of_nil in Hx|]. rewrite !filter_cons.
  apply elem_of_cons in Hx as [<-|Hx].
  - rewrite decide_False, decide_True by done. cbn. specialize (Hle l). assert (length (filter Q l) <= length (filter P l))%nat; [|lia].
    apply Hle. intros z Hz. apply Hsub. by right.
  - assert (length (filter Q l) < length (filter P l))%nat by (apply IH; [intros z Hz; apply Hsub; by right|done]).
    repeat case_decide; cbn; try lia. exfalso. eauto using list_elem_of_here.
Qed.

Section advance.
Context (n : Z) (v : Z -> Z) (src : Z) (Hv : pending n v) (Hsrc : 0 <= src < n) (Hne : v src <> src).

Lemma advance_moves : v (v src) <> v src.
Proof. intros E. apply Hne, (pe_inj _ _ Hv); [by apply (pe_range _ _ Hv)|done|done]. Qed.

Lemma advance_pending : pending n (advance v src).
Proof.
  pose proof advance_moves. pose proof (pe_range _ _ Hv) as R. pose proof (pe_inj _ _ Hv) as J. split.
  - intros i Hi. unfold advance, upd. repeat case_decide; auto.
  - assert (Hvs : 0 <= v src < n) by auto.
    assert (Hcross : forall i j, 0 <= i < n -> 0 <= j < n -> i <> j -> v i <> v j) by (intros i j Hi Hj Hij E; auto).
    intros i j Hi Hj. unfold advance, upd.
    destruct (decide (i = v src)) as [->|Hi1], (decide (j = v src)) as [->|Hj1]; [done| | |].
    + destruct (decide (j = src)) as [->|Hj2]; [congruence|]. intros E. exfalso. by apply (Hcross src j).
    + destruct (decide (i = src)) as [->|Hi2]; [congruence|]. intros E. exfalso. by apply (Hcross i src).
    + destruct (decide (i = src)) as [->|Hi2], (decide (j = src)) as [->|Hj2]; [done| | |by apply J].
      * intros E. exfalso. by apply (Hcross (v src) j).
      * intros E. exfalso. by apply (Hcross i (v src)).
Qed.

Lemma advance_unsettled : (unsettled n (advance v src) < unsettled n v)%nat.
Proof.
  pose proof (pe_range _ _ Hv src Hsrc). apply (filter_shorter _ _ _ (v src)).
  - intros y _. unfold advance, upd. repeat case_decide; subst; done.
  - apply elem_of_seqZ. lia.
  - apply advance_moves.
  - unfold advance, upd. rewrite decide_True by done. by intros [].
Qed.

(** Every request still finds its place. *)
Lemma advance_reaches {A} (cur tgt : Z -> A) : (forall i, 0 <= i < n -> tgt (v i) = cur i) ->
  forall i, 0 <= i < n -> tgt (advance v src i) = swap src (v src) cur i.
Proof.
  intros Ht i Hi. pose proof (pe_range _ _ Hv src Hsrc). unfold advance, upd, swap. repeat case_decide; subst; try done; by rewrite Ht.
Qed.
End advance.

(** ** The loops *)

(** The swaps stay within the slots. *)
Definition in_slots (n : Z) (moved : list (Z * Z)) : Prop :=
  Forall (fun ab => (0 <= ab.1 < n) /\ (0 <= ab.2 < n)) moved.

(** The dictionary agrees with [v] except at the sources already done, which [v] fixes. *)
Definition agrees (n : Z) (v : Z -> Z) (done_ : list Z) (m : gmap Z Z) : Prop :=
  (forall i, i ∈ done_ -> v i = i) /\ forall i, 0 <= i < n -> i ∉ done_ -> m !! i = Some (v i).

Lemma follow_ok n done_ src (tgt : forall A, (Z -> A) -> Z -> A) : 0 <= src < n -> src ∉ done_ -> forall fuel v m moved,
  pending n v -> (unsettled n v <= fuel)%nat ->
  (forall i, i ∈ done_ -> v i = i) -> (forall i, 0 <= i < n -> i ∉ done_ -> i <> src -> m !! i = Some (v i)) ->
  in_slots n moved -> (forall A (f : Z -> A) i, 0 <= i < n -> tgt A f (v i) = replay moved f i) ->
  exists v' m' moved', follow_cycle fuel src (v src) m moved = Ok (m', moved') /\ pending n v' /\
    agrees n v' (src :: done_) m' /\ in_slots n moved' /\ forall A (f : Z -> A) i, 0 <= i < n -> tgt A f (v' i) = replay moved' f i.
Proof.
  intros Hsrc Hd. induction fuel as [|fuel IH]; intros v m moved Hv Hf Hfix Hm Hins Ht; cbn [follow_cycle].
  all: destruct (Z.eqb_spec src (v src)) as [Heq|Hne].
  1, 3: exists v, m, moved; split; [done|]; split; [done|]; split; [|done]; split;
    [intros i [->|Hi]%elem_of_cons; [done|by apply Hfix]|intros i Hi [Hne Hn]%not_elem_of_cons; by apply Hm].
  - exfalso. pose proof (advance_unsettled n v src Hv Hsrc (not_eq_sym Hne)). lia.
  - apply not_eq_sym in Hne. pose proof (pe_range _ _ Hv src Hsrc) as Hr. pose proof (advance_moves n v src Hv Hsrc Hne) as Hmv.
    assert (Hvd : v src ∉ done_) by (intros Hin; by apply Hmv, Hfix).
    rewrite (Hm (v src) Hr Hvd Hne). cbn [default].
    assert (Ha : v (v src) = advance v src src) by (unfold advance, upd; by rewrite decide_False, decide_True by done).
    rewrite Ha. apply IH.
    + by apply advance_pending.
    + pose proof (advance_unsettled n v src Hv Hsrc Hne). lia.
    + intros i Hi. unfold advance, upd. destruct (decide (i = v src)) as [->|]; [done|].
      destruct (decide (i = src)) as [->|]; [done|by apply Hfix].
    + intros i Hi Hn Hns. unfold advance, upd. destruct (decide (i = v src)) as [->|Hiv].
      * by rewrite lookup_insert_eq.
      * rewrite lookup_insert_ne, decide_False by done. by apply Hm.
    + apply Forall_app. split; [done|]. by apply Forall_singleton.
    + intros A f i Hi. rewrite replay_app. cbn. rewrite (advance_reaches n v src Hv Hsrc Hne (replay moved f) (tgt A f)); auto.
Qed.

Lemma cycles_ok n (tgt : forall A, (Z -> A) -> Z -> A) fuel srcs : NoDup srcs -> (forall i, i ∈ srcs -> 0 <= i < n) ->
  forall done_ v m moved, (forall i, i ∈ srcs -> i ∉ done_) -> pending n v -> (Z.to_nat n <= fuel)%nat -> agrees n v done_ m ->
  in_slots n moved -> (forall A (f : Z -> A) i, 0 <= i < n -> tgt A f (v i) = replay moved f i) ->
  exists v' m' moved', foldM (fun st src => dst ← of_option (st.1 !! src) KeyError; follow_cycle fuel src dst st.1 st.2) (m, moved) srcs
      = Ok (m', moved') /\ (forall i, i ∈ srcs \/ i ∈ done_ -> v' i = i) /\ in_slots n moved' /\
    forall A (f : Z -> A) i, 0 <= i < n -> tgt A f (v' i) = replay moved' f i.
Proof.
  induction srcs as [|src srcs IH]; intros Hnd Hr done_ v m moved Hfresh Hv Hfuel [Hfix Hm] Hins Ht; cbn [foldM].
  { exists v, m, moved. split; [done|]. split; [|done]. intros i [Hi|Hi]; [by apply not_elem_of_nil in Hi|by apply Hfix]. }
  apply NoDup_cons in Hnd as [Hnot Hnd]. assert (Hsrc : 0 <= src < n) by (apply Hr; by left).
  assert (Hd : src ∉ done_) by (apply Hfresh; by left). cbn [fst snd]. rewrite (Hm src Hsrc Hd). cbn [of_option mbind res_bind].
  assert (Hu : (unsettled n v <= fuel)%nat).
  { unfold unsettled. etrans; [apply length_filter|]. unfold py_range. rewrite length_seqZ. done. }
  destruct (follow_ok n done_ src tgt Hsrc Hd fuel v m moved Hv Hu Hfix) as (v1 & m1 & moved1 & -> & Hv1 & Hag & Hin1 & Ht1); [auto|done|done|].
  cbn [mbind res_bind]. destruct (IH Hnd) with (done_ := src :: done_) (v := v1) (m := m1) (moved := moved1) as (v2 & m2 & moved2 & E & Hid & Hin2 & Ht2);
    [intros i Hi; apply Hr; by right| |done|done|done|done|done|].
  - intros i Hi [->|Hin]%elem_of_cons; [done|]. apply (Hfresh i); [by right|done].
  - exists v2, m2, moved2. split; [done|]. split; [|done]. intros i [[->|Hi]%elem_of_cons|Hi].
    + apply Hid. right. by left.
    + apply Hid. by left.
    + apply Hid. right. by right.
Qed.

(** ** The order *)

(** Longest first, and in the old order where the lengths are equal. *)
Definition longest_first (toks order : list Z) : Prop :=
  forall a b i j, (a < b)%nat -> order !! a = Some i -> order !! b = Some j ->
    toks !!! Z.to_nat j < toks !!! Z.to_nat i \/ (toks !!! Z.to_nat i = toks !!! Z.to_nat j /\ i < j).

Definition before (keys : list Z) (i j : Z) : Prop :=
  keys !!! Z.to_nat i < keys !!! Z.to_nat j \/ (keys !!! Z.to_nat i = keys !!! Z.to_nat j /\ i < j).

Lemma sorted_lookup {A} (R : A -> A -> Prop) l a b x y : StronglySorted R l -> (a < b)%nat ->
  l !! a = Some x -> l !! b = Some y -> R x y.
Proof.
  intros Hs. revert a b. induction Hs as [|z l Hs IH Hall]; intros [|a] [|b] Hab Ha Hb; try done; try lia.
  - cbn in Ha, Hb. injection Ha as <-. rewrite Forall_forall in Hall. apply Hall, (list_elem_of_lookup_2 _ _ _ Hb).
  - apply (IH a b); [lia|done|done].
Qed.

Lemma insert_by_perm keys i l : insert_by keys i l ≡ₚ i :: l.
Proof. induction l as [|j l IH]; cbn; [done|]. destruct (_ <? _); [done|]. rewrite IH. apply Permutation_swap. Qed.

Lemma insert_by_sorted keys i l : StronglySorted (before keys) l -> (forall j, j ∈ l -> j < i) ->
  StronglySorted (before keys) (insert_by keys i l).
Proof.
  induction 1 as [|j l Hs IH Hall]; intros Hi; cbn; [repeat constructor|].
  destruct (Z.ltb_spec (keys !!! Z.to_nat i) (keys !!! Z.to_nat j)) as [Hlt|Hge].
  - constructor; [by constructor|]. constructor; [by left|]. rewrite Forall_forall in Hall |- *. intros k Hk. left.
    destruct (Hall k Hk) as [|[? _]]; lia.
  - constructor; [apply IH; intros k Hk; apply Hi; by right|]. rewrite insert_by_perm. constructor; [|done].
    specialize (Hi j ltac:(by left)). unfold before. lia.
Qed.

Lemma argsort_spec keys : argsort_stable keys ≡ₚ py_range (len keys) /\ StronglySorted (before keys) (argsort_stable keys).
Proof.
  unfold argsort_stable. assert (H : forall n, let l := foldl (fun l i => insert_by keys i l) [] (seqZ 0 (Z.of_nat n)) in
    l ≡ₚ seqZ 0 (Z.of_nat n) /\ StronglySorted (before keys) l).
  { induction n as [|n [IHp IHs]]; [by split; [|constructor]|]. replace (Z.of_nat (S n)) with (Z.of_nat n + 1) by lia.
    rewrite seqZ_app, foldl_app by lia. cbn zeta.
    assert (seqZ (0 + Z.of_nat n) 1 = [Z.of_nat n]) as -> by (rewrite seqZ_cons, seqZ_nil by lia; done). cbn [foldl]. split.
    - rewrite insert_by_perm, IHp. symmetry. apply Permutation_app_comm.
    - apply insert_by_sorted; [done|]. intros j Hj. rewrite IHp in Hj. apply elem_of_seqZ in Hj. lia. }
  unfold py_range, len. apply (H (length keys)).
Qed.

Lemma sorted_order_perm toks : sorted_order toks ≡ₚ py_range (len toks).
Proof. unfold sorted_order. etrans; [apply argsort_spec|]. unfold len. by rewrite length_fmap. Qed.

Lemma sorted_order_first toks : longest_first toks (sorted_order toks).
Proof.
  intros a b i j Hab Hi Hj. pose proof (proj2 (argsort_spec ((fun t => t * -1) <$> toks))) as Hs. fold (sorted_order toks) in Hs.
  assert (Hk : forall i, i ∈ sorted_order toks -> ((fun t => t * -1) <$> toks) !!! Z.to_nat i = - (toks !!! Z.to_nat i)).
  { intros k Hk. rewrite sorted_order_perm in Hk. apply elem_of_seqZ in Hk. unfold len in Hk.
    destruct (lookup_lt_is_Some_2 toks (Z.to_nat k)) as [t Ht]; [lia|]. rewrite (list_lookup_total_correct _ _ _ Ht).
    rewrite (list_lookup_total_correct _ _ (t * -1)); [lia|]. by rewrite list_lookup_fmap, Ht. }
  pose proof (sorted_lookup _ _ a b i j Hs Hab Hi Hj) as Hb.
  unfold before in Hb. rewrite !Hk in Hb by (by eapply list_elem_of_lookup_2). lia.
Qed.

Definition destinations (order : list Z) : gmap Z Z := list_to_map (zip order (py_range (len order))).

Lemma destinations_spec order n : order ≡ₚ py_range n -> len order = Z.max 0 n /\
  forall i, 0 <= i < n -> exists k, destinations order !! i = Some k /\ 0 <= k < n /\ order !! Z.to_nat k = Some i.
Proof.
  intros Hp. assert (Hl : len order = Z.max 0 n).
  { unfold len. rewrite Hp. unfold py_range. rewrite length_seqZ. lia. }
  split; [done|]. intros i Hi. assert (Hin : i ∈ order) by (rewrite Hp; apply elem_of_seqZ; lia).
  apply list_elem_of_lookup in Hin as [k Hk]. pose proof (lookup_lt_Some _ _ _ Hk) as Hlt. exists (Z.of_nat k).
  rewrite Nat2Z.id. split; [|split; [unfold len in Hl; lia|done]].
  assert (Hfst : (zip order (py_range (len order))).*1 = order).
  { apply fst_zip. unfold py_range, len. rewrite length_seqZ. lia. }
  apply elem_of_list_to_map; [rewrite Hfst, Hp; apply NoDup_seqZ|]. apply (list_elem_of_lookup_2 _ k), lookup_zip_Some.
  split; [done|]. unfold py_range. apply lookup_seqZ. unfold len. lia.
Qed.

(** The records, replayed, put at every slot what the sorted order puts there. *)
Lemma swap_records_ok order n : 0 <= n -> order ≡ₚ py_range n -> exists moved, swap_records order = Ok moved /\ in_slots n moved /\
  forall A (f : Z -> A) k, 0 <= k < n -> replay moved f k = f (order !!! Z.to_nat k).
Proof.
  intros Hn Hp. destruct (destinations_spec order n Hp) as [Hl Hd]. set (v := fun i => default 0 (destinations order !! i)).
  assert (Hv : forall i, 0 <= i < n -> destinations order !! i = Some (v i) /\ 0 <= v i < n /\ order !! Z.to_nat (v i) = Some i).
  { intros i Hi. unfold v. destruct (Hd i Hi) as (k & -> & Hk). by split. }
  assert (Hnd : NoDup order) by (rewrite Hp; apply NoDup_seqZ).
  assert (Hin : forall i, i ∈ order <-> 0 <= i < n) by (intros i; rewrite Hp; unfold py_range; rewrite elem_of_seqZ; lia).
  destruct (cycles_ok n (fun A f k => f (order !!! Z.to_nat k)) (length order) order Hnd (fun i => proj1 (Hin i))
    [] v (destinations order) []) as (v' & m' & moved & E & Hid & Hslots & Ht).
  - intros i _. apply not_elem_of_nil.
  - split; [intros i Hi; by apply Hv|]. intros i j Hi Hj E.
    destruct (Hv i Hi) as (_ & _ & H1), (Hv j Hj) as (_ & _ & H2). rewrite E in H1. congruence.
  - unfold len in Hl. lia.
  - split; [intros i Hi; by apply not_elem_of_nil in Hi|]. intros i Hi _. by apply Hv.
  - constructor.
  - intros A f i Hi. cbn. f_equal. apply list_lookup_total_correct. by apply Hv.
  - exists moved. unfold swap_records. fold (destinations order). rewrite E. split; [done|]. split; [done|].
    intros A f k Hk. rewrite <- (Ht A f k Hk), Hid; [done|]. left. by apply Hin.
Qed.

(** In order already, so the sorted order moves nothing; and the converse. *)
Lemma non_increasing_spec toks : non_increasing toks = true <->
  forall i, (S i < length toks)%nat -> toks !!! S i <= toks !!! i.
Proof.
  unfold non_increasing. rewrite forallb_forall. split.
  - intros H i Hi. destruct (lookup_lt_is_Some_2 toks i) as [a Ha]; [lia|]. destruct (lookup_lt_is_Some_2 toks (S i) Hi) as [b Hb].
    rewrite (list_lookup_total_correct _ _ _ Ha), (list_lookup_total_correct _ _ _ Hb). apply Z.leb_le, (H (a, b)).
    apply list_elem_of_In, (list_elem_of_lookup_2 _ i), lookup_zip_Some. split; [done|]. by rewrite lookup_tail.
  - intros H [a b] (i & Hi)%list_elem_of_In%list_elem_of_lookup. apply lookup_zip_Some in Hi as [Ha Hb]. rewrite lookup_tail in Hb.
    apply Z.leb_le. cbn. pose proof (H i (lookup_lt_Some _ _ _ Hb)) as Hle.
    by rewrite (list_lookup_total_correct _ _ _ Ha), (list_lookup_total_correct _ _ _ Hb) in Hle.
Qed.

Lemma perm_of_one (order : list Z) n : n <= 1 -> order ≡ₚ py_range n -> order = py_range n.
Proof.
  intros Hn Hp. destruct (Z.le_gt_cases n 0).
  - unfold py_range in *. rewrite seqZ_nil in * by lia. by apply Permutation_nil_r in Hp.
  - assert (n = 1) as -> by lia. by apply Permutation_singleton_r in Hp.
Qed.

Lemma sorted_order_identity toks : non_increasing toks = true -> sorted_order toks = py_range (len toks).
Proof.
  intros Hi. rewrite non_increasing_spec in Hi.
  assert (Hmono : forall i j, (i <= j)%nat -> (j < length toks)%nat -> toks !!! j <= toks !!! i).
  { intros i j. induction 1 as [|j Hij IH]; [lia|]. intros Hj. pose proof (Hi j Hj). specialize (IH ltac:(lia)). lia. }
  apply (StronglySorted_unique_strong Z.lt); [intros x y _ _ H1 H2; lia| | |by apply sorted_order_perm].
  - pose proof (sorted_order_perm toks) as Hp. pose proof (sorted_order_first toks) as Hf. revert Hp Hf.
    generalize (sorted_order toks) as order. intros order Hp Hf.
    assert (Hb : forall i, i ∈ order -> 0 <= i < len toks) by (intros i; rewrite Hp; unfold py_range; rewrite elem_of_seqZ; lia).
    clear Hp. induction order as [|i order IH]; [constructor|]. constructor.
    + apply IH; [|intros j Hj; apply Hb; by right]. intros a b x y Hab Hx Hy. apply (Hf (S a) (S b)); [lia|done|done].
    + apply Forall_forall. intros j (b & Hj)%list_elem_of_lookup. destruct (Hf 0%nat (S b) i j) as [Hlt|[_ Hlt]]; [lia|done|done| |done].
      destruct (Z.lt_ge_cases i j); [done|]. exfalso. pose proof (Hb i ltac:(by left)) as Hbi. unfold len in Hbi.
      pose proof (Hb j ltac:(right; by apply (list_elem_of_lookup_2 _ b))). specialize (Hmono (Z.to_nat j) (Z.to_nat i)). lia.
  - unfold py_range. assert (H : forall n m, StronglySorted Z.lt (seqZ m (Z.of_nat n))).
    { induction n as [|n IH]; intros m; [constructor|]. rewrite seqZ_cons by lia. constructor.
      - replace (Z.pred (Z.of_nat (S n))) with (Z.of_nat n) by lia. apply IH.
      - apply Forall_forall. intros x Hx%elem_of_seqZ. lia. }
    apply H.
Qed.

(** ** The theorem *)

Lemma identity_non_increasing toks : longest_first toks (py_range (len toks)) -> non_increasing toks = true.
Proof.
  intros Hf. apply non_increasing_spec. intros i Hi.
  assert (Hr : forall j, (j < length toks)%nat -> py_range (len toks) !! j = Some (Z.of_nat j)).
  { intros j Hj. unfold py_range. apply lookup_seqZ. unfold len. lia. }
  pose proof (Hf i (S i) _ _ ltac:(lia) (Hr i ltac:(lia)) (Hr (S i) Hi)) as H. rewrite !Nat2Z.id in H. lia.
Qed.

Lemma replay_ext {A} n moved : in_slots n moved -> forall f g : Z -> A, (forall k, 0 <= k < n -> f k = g k) ->
  forall k, 0 <= k < n -> replay moved f k = replay moved g k.
Proof.
  induction 1 as [|[i j] moved [Hi Hj] Hm IH]; intros f g Hfg k Hk; [by apply Hfg|]. cbn in *.
  apply IH; [|done]. intros l Hl. unfold swap. repeat case_decide; by apply Hfg.
Qed.

(** The two runners. *)
Section runners.
Context {B S : Type} (swap_states : Z -> Z -> B -> B) (slot : B -> Z -> S) (n : Z).

(** vLLM's [swap_states] exchanges two requests of the batch. *)
Hypothesis swap_swaps : forall i j b k, 0 <= i < n -> 0 <= j < n -> 0 <= k < n ->
  slot (swap_states i j b) k = swap i j (slot b) k.

Lemma swaps_follow_replay moved b : in_slots n moved -> forall k, 0 <= k < n ->
  slot (foldl (fun b ab => swap_states ab.1 ab.2 b) b moved) k = replay moved (slot b) k.
Proof.
  intros Hm. revert b. induction Hm as [|[i j] moved [Hi Hj] Hm IH]; intros b k Hk; [done|]. cbn in *.
  rewrite IH by done. apply (replay_ext n); [done| |done]. intros l Hl. by apply swap_swaps.
Qed.

(** C33: Both runners put the requests in the same order: longest first, and as they were where
    the lengths are equal.  One reorders the batch in one pass, unless it is in order already,
    and the swaps it records take every per-request value of a logits processor to the same
    place; the other ends in that order by swapping. *)
Theorem runners_sort_alike {T G F} (groups : Z) (ib : InputBatch T G F) (b : B) :
  groups <> 0 -> len (req_ids ib) = n -> n <= len (num_tokens_no_spec ib) ->
  let toks := py_take n (num_tokens_no_spec ib) in
  exists order moved b', order ≡ₚ py_range n /\ longest_first toks order /\
    _may_reorder_batch true groups ib = (if decide (order = py_range n) then Ok (ib, [])
      else ib' ← reorder_input_batch ib order; Ok (ib', if is_pooling_model ib then [] else moved)) /\
    (forall A (f : Z -> A) k, 0 <= k < n -> replay moved f k = f (order !!! Z.to_nat k)) /\
    optimum_may_reorder_batch swap_states true (num_tokens_no_spec ib) n b = Ok b' /\
    forall k, 0 <= k < n -> slot b' k = slot b (order !!! Z.to_nat k).
Proof.
  intros Hg Hn Hlen toks. assert (Hlt : len toks = n).
  { unfold toks, py_take, len in *. rewrite length_take. lia. }
  pose proof (sorted_order_perm toks) as Hp. rewrite Hlt in Hp. pose proof (sorted_order_first toks) as Hf.
  assert (Hn0 : 0 <= n) by (rewrite <- Hn; apply len_nonneg).
  destruct (swap_records_ok (sorted_order toks) n Hn0 Hp) as (moved & E & Hs & Hr).
  assert (Hb : exists b', optimum_may_reorder_batch swap_states true (num_tokens_no_spec ib) n b = Ok b' /\
    forall k, 0 <= k < n -> slot b' k = slot b (sorted_order toks !!! Z.to_nat k)).
  { unfold optimum_may_reorder_batch. cbn [negb]. fold toks. destruct (Z.leb_spec n 1) as [Hle|_].
    - exists b. split; [done|]. intros k Hk. rewrite (perm_of_one _ _ Hle Hp). f_equal. symmetry.
      apply list_lookup_total_correct. unfold py_range. apply lookup_seqZ. lia.
    - rewrite E. cbn [mbind res_bind]. eexists. split; [done|]. intros k Hk. rewrite swaps_follow_replay by done. by apply Hr. }
  destruct Hb as (b' & Eb & Hb). exists (sorted_order toks), moved, b'. split; [done|]. split; [done|]. split; [|by split_and!].
  unfold _may_reorder_batch. destruct (Z.eqb_spec groups 0); [done|]. cbn [negb orb]. rewrite Hn. fold toks. rewrite E.
  destruct (Z.leb_spec n 1) as [Hle|Hgt]; cbn [orb].
  { by rewrite decide_True by by apply perm_of_one. }
  destruct (non_increasing toks) eqn:Hni.
  - rewrite decide_True; [done|]. rewrite <- Hlt. by apply sorted_order_identity.
  - rewrite decide_False; [by destruct (is_pooling_model ib)|]. intros Eo. rewrite Eo, <- Hlt in Hf.
    by rewrite (identity_non_increasing toks Hf) in Hni.
Qed.
End runners.

Module ReorderToy.
Definition batch : InputBatch Z Z Z :=
  mkBatch [Some "a"; Some "b"; Some "c"] [[]; []; []] [[]; []; []] {["a" := 0; "b" := 1; "c" := 2]}
    [1; 3; 3] [1; 3; 3] [0; 2; 2] [[1; 0; 0]; [7; 8; 9]; [4; 5; 6]]
    [[true; false; false]; [true; true; true]; [true; true; true]] 3
    [] [] [0; 0; 0] false
    [10; 11; 12] [10; 11; 12] [1; 2; 3] [0; 0; 0] [0; 0; 0] [0; 0; 0] [1; 1; 1] [] [] None.

Lemma runners_sort_alike_witness : exists moved b',
  _may_reorder_batch true 1 batch = (ib' ← reorder_input_batch batch [1; 2; 0]; Ok (ib', moved)) /\
  moved = [(1, 0); (1, 2)] /\ (b' : Z -> Z) 0 = 1.
Proof.
  destruct (runners_sort_alike (@swap Z) (fun (f : Z -> Z) k => f k) 3 (fun i j b k _ _ _ => eq_refl) 1 batch (fun k => k))
    as (order & moved & b' & _ & _ & E & _ & Eb & _).
  - done.
  - reflexivity.
  - vm_compute. discriminate.
  - exists [(1, 0); (1, 2)], b'. split; [vm_compute; reflexivity|]. split; [done|].
    vm_compute in Eb. injection Eb as <-. reflexivity.
Defined.
End ReorderToy.
