(* ===== verification/InputStager.v ===== *)
(** * Input staging

    [input_stager.py]: the inputs of a forward are copied into buffers that are kept per shape
    and type, and padded there.  A staged tensor is its buffer, so it is modelled by the
    buffer's key; what a key holds is read from the stager. *)
From S2P Require Import Prelude.

(** ** Definitions *)
Section stager.

(** Values of hidden states; new memory with any contents. *)
Context {H : Type} (empty empty_positions : Z -> Z -> list (list Z)) (empty_hidden : Z -> Z -> Z -> list (list (list H)))
  (empty_row : Z -> list Z).

Record InputLayout := {
  num_reqs : Z;
  num_reqs_padded : Z;
  query_len : Z;
  query_len_padded : Z;
  input_pad_value : Z;
  position_pad_value : Z;
  hidden_state_pad_value : H;
  token_index_pad_value : Z
}.

Definition shape (l : InputLayout) : Z * Z := (num_reqs_padded l, query_len_padded l).

(** A tensor with the name of its type. *)
Record Tensor (A : Type) := { dtype : string; data : A }.

Record InputBuffer := { buf_ids : list (list Z); buf_positions : list (list Z) }.

Record InputStager := {
  _buffers : gmap (Z * Z * (string * string)) InputBuffer;
  _hidden_state_buffers : gmap (Z * Z * (string * Z)) (list (list (list H)));
  _token_indices_buffers : gmap (string * Z) (list Z)
}.

(** The keys of the buffers; the other inputs are handed on. *)
Record StagedModelInputs := {
  staged_inputs : Z * Z * (string * string);
  staged_token_indices : option (string * Z);
  staged_hidden_states : option (Z * Z * (string * Z))
}.

(** [buf[:n].copy_(src)], which broadcasts a single element. *)
Definition broadcast {A} (k : Z) (src : list A) : res (list A) :=
  if len src =? k then Ok src
  else match src with
       | [x] => Ok (replicate (Z.to_nat k) x)
       | _ => Raise RuntimeError
       end.

Definition copy_prefix {A} (n : Z) (src buf : list A) : res (list A) :=
  let k := Z.min n (len buf) in
  src ← broadcast k src; Ok (src ++ drop (Z.to_nat k) buf).

(** [buf[:n, :q].copy_(src)]. *)
Definition copy_block {A} (n q : Z) (src buf : list (list A)) : res (list (list A)) :=
  let k := Z.min n (len buf) in
  src ← broadcast k src;
  rows ← mapM (fun sb => copy_prefix q sb.1 sb.2) (zip src (py_take k buf));
  Ok (rows ++ drop (Z.to_nat k) buf).

(** [buf.fill_(v)], [buf[n:].fill_(v)] and [buf[:n, q:].fill_(v)]. *)
Definition fill_row {A} (v : A) (row : list A) : list A := replicate (length row) v.
Definition fill_tail {A} (q : Z) (v : A) (row : list A) : list A := py_take q row ++ fill_row v (drop (Z.to_nat q) row).
Definition fill {A} (v : A) (buf : list (list A)) : list (list A) := fill_row v <$> buf.
Definition fill_rows {A} (n : Z) (v : A) (buf : list (list A)) : list (list A) :=
  py_take n buf ++ fill v (drop (Z.to_nat n) buf).
Definition fill_columns {A} (n q : Z) (v : A) (buf : list (list A)) : list (list A) :=
  (fill_tail q v <$> py_take n buf) ++ drop (Z.to_nat n) buf.

Definition has_shape {A} (s : Z * Z) (buf : list (list A)) : bool :=
  (len buf =? s.1) && forallb (fun row => len row =? s.2) buf.

Definition _get_or_create_buffer (l : InputLayout) (ids positions : Tensor (list (list Z))) (s : InputStager)
    : (Z * Z * (string * string)) * InputBuffer * InputStager :=
  let key := (shape l, (dtype _ ids, dtype _ positions)) in
  match _buffers s !! key with
  | Some buf => (key, buf, s)
  | None =>
      let buf := {| buf_ids := empty (num_reqs_padded l) (query_len_padded l);
                    buf_positions := empty_positions (num_reqs_padded l) (query_len_padded l) |} in
      (key, buf, {| _buffers := <[key := buf]> (_buffers s); _hidden_state_buffers := _hidden_state_buffers s;
                    _token_indices_buffers := _token_indices_buffers s |})
  end.

Definition _stage_hidden_states (hidden_states : option (Tensor (list (list (list H))))) (hidden_size : Z) (l : InputLayout)
    (s : InputStager) : res (option (Z * Z * (string * Z)) * InputStager) :=
  match hidden_states with
  | None => Ok (None, s)
  | Some h =>
      let key := (shape l, (dtype _ h, hidden_size)) in
      let buf := default (empty_hidden (num_reqs_padded l) (query_len_padded l) hidden_size)
                   (_hidden_state_buffers s !! key) in
      let pad := replicate (Z.to_nat hidden_size) (hidden_state_pad_value l) in
      let buf := fill_rows (num_reqs l) pad buf in
      let buf := fill_columns (num_reqs l) (query_len l) pad buf in
      buf ← copy_block (num_reqs l) (query_len l) (data _ h) buf;
      Ok (Some key, {| _buffers := _buffers s; _hidden_state_buffers := <[key := buf]> (_hidden_state_buffers s);
                       _token_indices_buffers := _token_indices_buffers s |})
  end.

Definition _stage_token_indices (token_indices : option (Tensor (list Z))) (l : InputLayout) (s : InputStager)
    : res (option (string * Z) * InputStager) :=
  match token_indices with
  | None => Ok (None, s)
  | Some t =>
      let num_indices := len (data _ t) in
      assert! num_indices <=? num_reqs_padded l;
      let key := (dtype _ t, num_reqs_padded l) in
      let buf := default (empty_row (num_reqs_padded l)) (_token_indices_buffers s !! key) in
      let buf := fill_row (token_index_pad_value l) buf in
      buf ← copy_prefix num_indices (data _ t) buf;
      Ok (Some key, {| _buffers := _buffers s; _hidden_state_buffers := _hidden_state_buffers s;
                       _token_indices_buffers := <[key := buf]> (_token_indices_buffers s) |})
  end.

Definition stage (ids positions : Tensor (list (list Z))) (token_indices : option (Tensor (list Z)))
    (hidden_states : option (Tensor (list (list (list H))))) (hidden_size : Z) (l : InputLayout) (s : InputStager)
    : res (StagedModelInputs * InputStager) :=
  let '(key, buf, s) := _get_or_create_buffer l ids positions s in
  assert! has_shape (shape l) (buf_ids buf);
  new_ids ← copy_block (num_reqs l) (query_len l) (data _ ids) (fill (input_pad_value l) (buf_ids buf));
  new_positions ← copy_block (num_reqs l) (query_len l) (data _ positions) (fill (position_pad_value l) (buf_positions buf));
  let s := {| _buffers := <[key := {| buf_ids := new_ids; buf_positions := new_positions |}]> (_buffers s);
              _hidden_state_buffers := _hidden_state_buffers s;
              _token_indices_buffers := _token_indices_buffers s |} in
  t ← _stage_token_indices token_indices l s;
  h ← _stage_hidden_states hidden_states hidden_size l t.2;
  Ok ({| staged_inputs := key; staged_token_indices := t.1; staged_hidden_states := h.1 |}, h.2).
End stager.
Arguments InputLayout : clear implicits.
Arguments InputStager : clear implicits.
Arguments dtype {A} _.
Arguments data {A} _.

(** ** What is staged *)

(** A row, and a batch, behind which [v] is repeated. *)
Definition padded_row {A} (n : nat) (v : A) (row : list A) : list A := row ++ replicate (n - length row) v.
Definition padded {A} (n q : nat) (v : A) (rows : list (list A)) : list (list A) :=
  padded_row n (replicate q v) (padded_row q v <$> rows).

Definition shaped {A} (n q : nat) (buf : list (list A)) : Prop := length buf = n /\ Forall (fun row => length row = q) buf.

Lemma copy_prefix_ok {A} n (src buf : list A) : len src = n -> n <= len buf ->
  copy_prefix n src buf = Ok (src ++ drop (length src) buf).
Proof.
  intros Hn Hle. unfold copy_prefix, broadcast. rewrite Z.min_l by done. subst n. rewrite Z.eqb_refl. cbn.
  unfold len. by rewrite Nat2Z.id.
Qed.

Lemma copy_block_ok {A} n q qp (src buf : list (list A)) : len src = n -> (length src <= length buf)%nat ->
  Forall (fun row => length row = q) src -> Forall (fun row => length row = qp) (take (length src) buf) -> (q <= qp)%nat ->
  copy_block n (Z.of_nat q) src buf = Ok (zip_with (fun s b => s ++ drop q b) src (take (length src) buf) ++ drop (length src) buf).
Proof.
  intros Hn Hle Hs Hb Hq. unfold copy_block, broadcast. rewrite Z.min_l by (unfold len in *; lia). subst n. rewrite Z.eqb_refl.
  cbn [mbind res_bind]. unfold py_take, len. rewrite Nat2Z.id.
  assert (mapM (fun sb => copy_prefix (Z.of_nat q) sb.1 sb.2) (zip src (take (length src) buf))
    = Ok (zip_with (fun s b => s ++ drop q b) src (take (length src) buf))) as ->; [|done].
  assert (Hl : length src = length (take (length src) buf)) by (rewrite length_take; lia).
  revert Hs Hb Hl. generalize (take (length src) buf) as rows. clear - Hq.
  induction src as [|s src IH]; intros [|b rows] Hs Hb Hl; try done. apply Forall_cons in Hs as [Hs Hss]. apply Forall_cons in Hb as [Hb Hbs].
  cbn. rewrite copy_prefix_ok by (unfold len; lia). cbn [mbind res_bind]. rewrite Hs. cbn in IH. rewrite IH; [done|done|done|by injection Hl].
Qed.

Lemma fill_shaped {A} n q (v : A) buf : shaped n q buf -> fill v buf = replicate n (replicate q v).
Proof.
  intros [Hn Hq]. subst n. induction Hq as [|row buf Hr Hq IH]; [done|]. unfold fill in *. rewrite fmap_cons, IH. cbn.
  unfold fill_row. by rewrite Hr.
Qed.

Lemma has_shape_ok {A} n q (buf : list (list A)) : shaped n q buf -> has_shape (Z.of_nat n, Z.of_nat q) buf = true.
Proof.
  intros [Hn Hq]. unfold has_shape. apply andb_true_iff. split; [apply Z.eqb_eq; cbn; unfold len; lia|].
  apply forallb_forall. intros row Hr%list_elem_of_In. rewrite Forall_forall in Hq. apply Z.eqb_eq. cbn. unfold len. by rewrite Hq.
Qed.

(** Rows over a buffer of which the rest is [v]. *)
Lemma overlay_padded {A} n q qp (v : A) (src buf : list (list A)) : (length src <= n)%nat -> Forall (fun row => length row = q) src ->
  length buf = n -> (forall b, b ∈ take (length src) buf -> drop q b = replicate (qp - q) v) ->
  drop (length src) buf = replicate (n - length src) (replicate qp v) ->
  zip_with (fun s b => s ++ drop q b) src (take (length src) buf) ++ drop (length src) buf = padded n qp v src.
Proof.
  intros Hle Hs Hn Htake Hdrop. unfold padded, padded_row at 1. rewrite length_fmap, Hdrop. f_equal.
  assert (Hl : length src = length (take (length src) buf)) by (rewrite length_take; lia).
  revert Hs Htake Hl. generalize (take (length src) buf) as rows. clear.
  induction src as [|s src IH]; intros [|b rows] Hs Hb Hl; try done. apply Forall_cons in Hs as [Hs Hss]. cbn. f_equal.
  - unfold padded_row. rewrite Hb by (by left). by rewrite Hs.
  - apply IH; [done| |by injection Hl]. intros c Hc. apply Hb. by right.
Qed.

Lemma copy_filled {A} n q qp (v : A) (src buf : list (list A)) : shaped n qp buf -> (length src <= n)%nat -> (q <= qp)%nat ->
  Forall (fun row => length row = q) src ->
  copy_block (len src) (Z.of_nat q) src (fill v buf) = Ok (padded n qp v src).
Proof.
  intros Hb Hle Hq Hs. rewrite (fill_shaped _ _ _ _ Hb).
  rewrite (copy_block_ok _ q qp); [|done|by rewrite length_replicate|done| |done].
  - f_equal. apply (overlay_padded n q); [done|done|by rewrite length_replicate| |by rewrite drop_replicate].
    intros b Hin. rewrite take_replicate in Hin. apply elem_of_replicate in Hin as [-> _]. by rewrite drop_replicate.
  - rewrite take_replicate. apply Forall_replicate. by rewrite length_replicate.
Qed.

(** The hidden states, whose buffer is filled around the region that is copied. *)
Lemma copy_hidden {A} n q qp (v : A) (src buf : list (list A)) : shaped n qp buf -> (length src <= n)%nat -> (q <= qp)%nat ->
  Forall (fun row => length row = q) src ->
  copy_block (len src) (Z.of_nat q) src (fill_columns (len src) (Z.of_nat q) v (fill_rows (len src) v buf)) = Ok (padded n qp v src).
Proof.
  intros [Hn Hb] Hle Hq Hs. unfold fill_columns, fill_rows, py_take, len. rewrite !Nat2Z.id.
  assert (Hlt : length (take (length src) buf) = length src) by (rewrite length_take; lia).
  rewrite take_app_le, take_ge by lia. rewrite drop_app_le, (drop_ge (take _ _)) by lia. cbn [app].
  assert (Hd : fill v (drop (length src) buf) = replicate (n - length src) (replicate qp v)).
  { apply fill_shaped. split; [rewrite length_drop; lia|]. by apply Forall_drop. }
  rewrite Hd. set (front := fill_tail (Z.of_nat q) v <$> take (length src) buf).
  assert (Hf : length front = length src) by (unfold front; by rewrite length_fmap).
  rewrite (copy_block_ok _ q qp).
  - f_equal. apply (overlay_padded n q); [done|done| | |].
    + rewrite length_app, length_replicate. lia.
    + rewrite take_app_le, take_ge by lia. intros b (row & -> & Hrow)%list_elem_of_fmap. unfold fill_tail, py_take. rewrite Nat2Z.id.
      rewrite Forall_forall in Hb. pose proof (Hb row) as Hr. rewrite drop_app_ge by (rewrite length_take; lia).
      assert (length row = qp) as Hqp by (apply Hr; by apply elem_of_take in Hrow as (j & Hj & _); apply (list_elem_of_lookup_2 _ _ _ Hj)).
      rewrite length_take, Hqp. replace (q - q `min` qp)%nat with 0%nat by lia. rewrite drop_0. unfold fill_row. by rewrite length_drop, Hqp.
    + by rewrite drop_app_le, (drop_ge front) by lia.
  - done.
  - rewrite length_app, length_replicate. lia.
  - done.
  - rewrite take_app_le, take_ge by lia. apply Forall_fmap, Forall_forall. intros row Hrow. cbn. unfold fill_tail, fill_row, py_take.
    rewrite Nat2Z.id, length_app, length_take, length_replicate, length_drop. rewrite Forall_forall in Hb.
    assert (length row = qp) as -> by (apply Hb; by apply elem_of_take in Hrow as (j & Hj & _); apply (list_elem_of_lookup_2 _ _ _ Hj)). lia.
  - done.
Qed.

Section staging.
Context {H : Type} (empty empty_positions : Z -> Z -> list (list Z)) (empty_hidden : Z -> Z -> Z -> list (list (list H)))
  (empty_row : Z -> list Z).

(** New memory has the shape asked for. *)
Context (empty_shape : forall n q, shaped (Z.to_nat n) (Z.to_nat q) (empty n q) /\ shaped (Z.to_nat n) (Z.to_nat q) (empty_positions n q))
  (empty_hidden_shape : forall n q h, shaped (Z.to_nat n) (Z.to_nat q) (empty_hidden n q h))
  (empty_row_length : forall n, length (empty_row n) = Z.to_nat n).

(** The buffers have the shapes of their keys. *)
Record stager_ok (s : InputStager H) : Prop := {
  so_buffers : forall n q t buf, _buffers s !! (n, q, t) = Some buf ->
    shaped (Z.to_nat n) (Z.to_nat q) (buf_ids buf) /\ shaped (Z.to_nat n) (Z.to_nat q) (buf_positions buf);
  so_hidden : forall n q t buf, _hidden_state_buffers s !! (n, q, t) = Some buf -> shaped (Z.to_nat n) (Z.to_nat q) buf;
  so_tokens : forall t n buf, _token_indices_buffers s !! (t, n) = Some buf -> length buf = Z.to_nat n
}.

(** Inputs of [num_reqs] rows of [query_len], within the padded shape. *)
Definition batch_of {A} (l : InputLayout H) (rows : list (list A)) : Prop :=
  len rows = num_reqs l /\ Forall (fun row => len row = query_len l) rows.

Definition layout_ok (l : InputLayout H) : Prop :=
  0 <= num_reqs l <= num_reqs_padded l /\ 0 <= query_len l <= query_len_padded l.

Definition padded_to {A} (l : InputLayout H) (v : A) (rows : list (list A)) : list (list A) :=
  padded (Z.to_nat (num_reqs_padded l)) (Z.to_nat (query_len_padded l)) v rows.

Lemma padded_shaped {A} n q (v : A) rows : (length rows <= n)%nat -> Forall (fun row => (length row <= q)%nat) rows ->
  shaped n q (padded n q v rows).
Proof.
  intros Hn Hq. unfold padded, padded_row at 1. split.
  - rewrite length_app, length_fmap, length_replicate. lia.
  - apply Forall_app. split; [|apply Forall_replicate, length_replicate].
    apply Forall_fmap. eapply Forall_impl; [exact Hq|]. intros row Hr. cbn in Hr |- *. unfold padded_row. rewrite length_app, length_replicate. lia.
Qed.

Lemma batch_fits {A} l (rows : list (list A)) : layout_ok l -> batch_of l rows ->
  (length rows <= Z.to_nat (num_reqs_padded l))%nat /\ Forall (fun row => length row = Z.to_nat (query_len l)) rows /\
  forall v, shaped (Z.to_nat (num_reqs_padded l)) (Z.to_nat (query_len_padded l)) (padded_to l v rows).
Proof.
  intros [Hn Hq] [Hr Hrows].
  assert (Hf : Forall (fun row => length row = Z.to_nat (query_len l)) rows).
  { eapply Forall_impl; [exact Hrows|]. cbn. intros row E. unfold len in E. lia. }
  split; [unfold len in Hr; lia|]. split; [done|]. intros v. apply padded_shaped; [unfold len in Hr; lia|].
  eapply Forall_impl; [exact Hf|]. cbn. lia.
Qed.

Lemma copy_batch {A} l (v : A) (rows buf : list (list A)) : layout_ok l -> batch_of l rows ->
  shaped (Z.to_nat (num_reqs_padded l)) (Z.to_nat (query_len_padded l)) buf ->
  copy_block (num_reqs l) (query_len l) rows (fill v buf) = Ok (padded_to l v rows) /\
  copy_block (num_reqs l) (query_len l) rows (fill_columns (num_reqs l) (query_len l) v (fill_rows (num_reqs l) v buf)) = Ok (padded_to l v rows).
Proof.
  intros Hl Hb Hs. destruct (batch_fits l rows Hl Hb) as (Hn & Hq & _). destruct Hl as [Hl1 Hl2], Hb as [Hr _].
  rewrite <- Hr. rewrite <- (Z2Nat.id (query_len l)) by lia. split; [apply copy_filled|apply copy_hidden]; (done || lia).
Qed.

(** The buffer of a key, kept or new. *)
Lemma get_buffer_ok (l : InputLayout H) (ids positions : Tensor (list (list Z))) s : stager_ok s -> exists buf s1,
  _get_or_create_buffer empty empty_positions l ids positions s = ((shape l, (dtype ids, dtype positions)), buf, s1) /\
  shaped (Z.to_nat (num_reqs_padded l)) (Z.to_nat (query_len_padded l)) (buf_ids buf) /\
  shaped (Z.to_nat (num_reqs_padded l)) (Z.to_nat (query_len_padded l)) (buf_positions buf) /\ stager_ok s1 /\
  _hidden_state_buffers s1 = _hidden_state_buffers s /\ _token_indices_buffers s1 = _token_indices_buffers s /\
  forall k, k <> (shape l, (dtype ids, dtype positions)) -> _buffers s1 !! k = _buffers s !! k.
Proof.
  intros S. unfold _get_or_create_buffer. destruct (_buffers s !! _) as [buf|] eqn:E.
  - exists buf, s. split; [done|]. unfold shape in E. destruct (so_buffers _ S _ _ _ _ E) as [H1 H2]. by split_and!.
  - eexists _, _. split; [done|]. destruct (empty_shape (num_reqs_padded l) (query_len_padded l)) as [H1 H2]. cbn.
    split; [done|]. split; [done|]. split; [|split; [done|split; [done|intros k Hk; by apply lookup_insert_ne]]].
    split; cbn; [|apply S|apply S]. intros n q t buf Hb. apply lookup_insert_Some in Hb as [[Hk <-]|[_ Hb]]; [|by apply (so_buffers _ S _ _ t)].
    unfold shape in Hk. by injection Hk as <- <- _.
Qed.

Lemma stage_tokens_ok (l : InputLayout H) (t : option (Tensor (list Z))) s : stager_ok s ->
  (forall x, t = Some x -> len (data x) <= num_reqs_padded l) -> exists k s1,
  _stage_token_indices empty_row t l s = Ok (k, s1) /\ stager_ok s1 /\ _buffers s1 = _buffers s /\
  _hidden_state_buffers s1 = _hidden_state_buffers s /\ (t = None -> k = None) /\
  (forall x, t = Some x -> exists key, k = Some key /\ _token_indices_buffers s1 !! key
    = Some (padded_row (Z.to_nat (num_reqs_padded l)) (token_index_pad_value l) (data x))).
Proof.
  intros S Ht. destruct t as [x|]; [|by exists None, s]. specialize (Ht x eq_refl). unfold _stage_token_indices.
  destruct (Z.leb_spec (len (data x)) (num_reqs_padded l)); [|lia]. cbn [require mbind res_bind].
  set (key := (dtype x, num_reqs_padded l)).
  assert (Hl : length (default (empty_row (num_reqs_padded l)) (_token_indices_buffers s !! key)) = Z.to_nat (num_reqs_padded l)).
  { destruct (_token_indices_buffers s !! key) as [buf|] eqn:E; [apply (so_tokens _ S _ _ _ E)|apply empty_row_length]. }
  unfold fill_row. rewrite Hl. rewrite copy_prefix_ok by (done || unfold len in *; rewrite length_replicate; lia).
  cbn [mbind res_bind]. rewrite drop_replicate. eexists _, _. split; [done|]. cbn. split; [|split; [done|split; [done|split; [done|]]]].
  - split; cbn; [apply S|apply S|]. intros t n buf Hb. apply lookup_insert_Some in Hb as [[Hk <-]|[_ Hb]]; [|by apply (so_tokens _ S t)].
    injection Hk as _ <-. rewrite length_app, length_replicate. unfold len in Ht. lia.
  - intros y [= <-]. exists key. split; [done|]. by rewrite lookup_insert_eq.
Qed.

Lemma stage_hidden_ok (l : InputLayout H) (h : option (Tensor (list (list (list H))))) (size : Z) s : stager_ok s -> layout_ok l ->
  (forall x, h = Some x -> batch_of l (data x)) -> exists k s1,
  _stage_hidden_states empty_hidden h size l s = Ok (k, s1) /\ stager_ok s1 /\ _buffers s1 = _buffers s /\
  _token_indices_buffers s1 = _token_indices_buffers s /\
  (forall x, h = Some x -> exists key, k = Some key /\ _hidden_state_buffers s1 !! key
    = Some (padded_to l (replicate (Z.to_nat size) (hidden_state_pad_value l)) (data x))).
Proof.
  intros S Hl Hh. destruct h as [x|]; [|by exists None, s]. specialize (Hh x eq_refl). unfold _stage_hidden_states.
  set (key := (shape l, (dtype x, size))). cbn zeta.
  assert (Hb : shaped (Z.to_nat (num_reqs_padded l)) (Z.to_nat (query_len_padded l))
      (default (empty_hidden (num_reqs_padded l) (query_len_padded l) size) (_hidden_state_buffers s !! key))).
  { destruct (_hidden_state_buffers s !! key) as [buf|] eqn:E; [apply (so_hidden _ S _ _ _ _ E)|apply empty_hidden_shape]. }
  destruct (copy_batch l (replicate (Z.to_nat size) (hidden_state_pad_value l)) (data x) _ Hl Hh Hb) as [_ E]. rewrite E.
  cbn [mbind res_bind]. eexists _, _. split; [done|]. cbn. split; [|split; [done|split; [done|]]].
  - split; cbn; [apply S| |apply S]. intros n q t buf Hk. apply lookup_insert_Some in Hk as [[Hk <-]|[_ Hk]]; [|by apply (so_hidden _ S _ _ t)].
    unfold key, shape in Hk. injection Hk as <- <- _. by apply batch_fits.
  - intros y [= <-]. exists key. split; [done|]. by rewrite lookup_insert_eq.
Qed.

(** The buffers afterwards. *)
Lemma stage_ok s l ids positions tokens hidden size : stager_ok s -> layout_ok l ->
  batch_of l (data ids) -> batch_of l (data positions) ->
  (forall x, tokens = Some x -> len (data x) <= num_reqs_padded l) -> (forall x, hidden = Some x -> batch_of l (data x)) ->
  exists st s', stage empty empty_positions empty_hidden empty_row ids positions tokens hidden size l s = Ok (st, s') /\
    stager_ok s' /\
    _buffers s' = <[staged_inputs st := {| buf_ids := padded_to l (input_pad_value l) (data ids);
                                           buf_positions := padded_to l (position_pad_value l) (data positions) |}]> (_buffers s) /\
    (tokens = None -> staged_token_indices st = None) /\
    (forall x, tokens = Some x -> exists k, staged_token_indices st = Some k /\ _token_indices_buffers s' !! k
       = Some (padded_row (Z.to_nat (num_reqs_padded l)) (token_index_pad_value l) (data x))) /\
    forall x, hidden = Some x -> exists k, staged_hidden_states st = Some k /\ _hidden_state_buffers s' !! k
       = Some (padded_to l (replicate (Z.to_nat size) (hidden_state_pad_value l)) (data x)).
Proof.
  intros S Hl Hi Hp Ht Hh. destruct (get_buffer_ok l ids positions s S) as (buf & s1 & E & B1 & B2 & S1 & _ & _ & Hother).
  unfold stage. rewrite E. assert (has_shape (shape l) (buf_ids buf) = true) as ->.
  { pose proof (has_shape_ok _ _ _ B1) as Hs. destruct Hl as [Hl1 Hl2]. by rewrite !Z2Nat.id in Hs by lia. }
  cbn [require mbind res_bind].
  destruct (copy_batch l (input_pad_value l) (data ids) _ Hl Hi B1) as [-> _].
  destruct (copy_batch l (position_pad_value l) (data positions) _ Hl Hp B2) as [-> _]. cbn [mbind res_bind]. cbn zeta.
  set (key := (shape l, (dtype ids, dtype positions))) in *.
  match goal with |- context [_stage_token_indices _ _ _ ?x] => set (s2 := x) end.
  assert (S2 : stager_ok s2).
  { split; cbn; [|apply S1|apply S1]. intros n q t b Hb. apply lookup_insert_Some in Hb as [[Hk <-]|[_ Hb]]; [|by apply (so_buffers _ S1 _ _ t)].
    unfold key, shape in Hk. injection Hk as <- <- _. split; by apply batch_fits. }
  destruct (stage_tokens_ok l tokens s2 S2 Ht) as (k & s3 & -> & S3 & B3 & H3 & N3 & T3). cbn [mbind res_bind fst snd].
  destruct (stage_hidden_ok l hidden size s3 S3 Hl Hh) as (k' & s4 & -> & S4 & B4 & T4 & H4). cbn [mbind res_bind fst snd].
  eexists _, s4. split; [done|]. cbn [staged_inputs staged_token_indices staged_hidden_states].
  split; [done|]. rewrite B4, B3. split; [|split; [apply N3|split; [rewrite T4; apply T3|done]]].
  cbn. apply map_eq. intros j. destruct (decide (j = key)) as [->|Hj]; [by rewrite !lookup_insert_eq|].
  rewrite !lookup_insert_ne by done. by apply Hother.
Qed.

(** C32: What is staged is the inputs with the layout's padding around them, whatever the buffers
    held before; the buffers of other shapes and types keep what was staged there. *)
Theorem staged_inputs_padded s l ids positions tokens hidden size : stager_ok s -> layout_ok l ->
  batch_of l (data ids) -> batch_of l (data positions) ->
  (forall x, tokens = Some x -> len (data x) <= num_reqs_padded l) -> (forall x, hidden = Some x -> batch_of l (data x)) ->
  exists st s', stage empty empty_positions empty_hidden empty_row ids positions tokens hidden size l s = Ok (st, s') /\
    stager_ok s' /\
    _buffers s' !! staged_inputs st = Some {| buf_ids := padded_to l (input_pad_value l) (data ids);
                                              buf_positions := padded_to l (position_pad_value l) (data positions) |} /\
    (forall k, k <> staged_inputs st -> _buffers s' !! k = _buffers s !! k) /\
    (forall x, tokens = Some x -> exists k, staged_token_indices st = Some k /\ _token_indices_buffers s' !! k
       = Some (padded_row (Z.to_nat (num_reqs_padded l)) (token_index_pad_value l) (data x))) /\
    forall x, hidden = Some x -> exists k, staged_hidden_states st = Some k /\ _hidden_state_buffers s' !! k
       = Some (padded_to l (replicate (Z.to_nat size) (hidden_state_pad_value l)) (data x)).
Proof.
  intros S Hl Hi Hp Ht Hh. destruct (stage_ok s l ids positions tokens hidden size S Hl Hi Hp Ht Hh) as (st & s' & E & S' & B & _ & T & K).
  exists st, s'. split; [done|]. split; [done|]. rewrite B. split; [by rewrite lookup_insert_eq|]. split; [|done].
  intros k Hk. by rewrite lookup_insert_ne.
Qed.

End staging.

(** ** A small instance *)
Module StagerToy.
Definition noise (n q : Z) : list (list Z) := replicate (Z.to_nat n) (replicate (Z.to_nat q) 99).

Definition layout : InputLayout Z :=
  {| num_reqs := 1; num_reqs_padded := 2; query_len := 2; query_len_padded := 3; input_pad_value := 0;
     position_pad_value := -1; hidden_state_pad_value := 0; token_index_pad_value := 7 |}.
Definition ids : Tensor (list (list Z)) := {| dtype := "int32"; data := [[5; 6]] |}.
Definition places : Tensor (list (list Z)) := {| dtype := "int64"; data := [[0; 1]] |}.
Definition index : Tensor (list Z) := {| dtype := "int32"; data := [1] |}.
Definition states : Tensor (list (list (list Z))) := {| dtype := "bfloat16"; data := [[[8; 8]; [9; 9]]] |}.

(** A buffer of the same key that an earlier step has left. *)
Definition used : InputStager Z :=
  {| _buffers := {[((2, 3), ("int32"%string, "int64"%string)) := {| buf_ids := noise 2 3; buf_positions := noise 2 3 |}]};
     _hidden_state_buffers := ∅; _token_indices_buffers := ∅ |}.

Lemma noise_shaped n q : shaped (Z.to_nat n) (Z.to_nat q) (noise n q).
Proof. split; [apply length_replicate|]. apply Forall_replicate, length_replicate. Qed.

Lemma staged_inputs_padded_witness : exists st s',
  stage noise noise (fun n q h => replicate (Z.to_nat n) (replicate (Z.to_nat q) [])) (fun n => replicate (Z.to_nat n) 99)
    ids places (Some index) (Some states) 2 layout used = Ok (st, s') /\
  _buffers s' !! staged_inputs st = Some {| buf_ids := [[5; 6; 0]; [0; 0; 0]]; buf_positions := [[0; 1; -1]; [-1; -1; -1]] |}.
Proof.
  edestruct (staged_inputs_padded noise noise (fun n q h => replicate (Z.to_nat n) (replicate (Z.to_nat q) ([] : list Z)))
    (fun n => replicate (Z.to_nat n) 99)) with (s := used) (l := layout) (ids := ids) (positions := places)
    (tokens := Some index) (hidden := Some states) (size := 2) as (st & s' & E & _ & B & _).
  - intros n q. split; apply noise_shaped.
  - intros n q h. split; [apply length_replicate|]. apply Forall_replicate, length_replicate.
  - intros n. apply length_replicate.
  - split; cbn.
    + intros n q t buf Hb. apply lookup_singleton_Some in Hb as [Hk <-]. injection Hk as <- <- _. split; apply noise_shaped.
    + intros n q t buf Hb. by rewrite lookup_empty in Hb.
    + intros t n buf Hb. by rewrite lookup_empty in Hb.
  - split; cbn; lia.
  - by split; [|repeat constructor].
  - by split; [|repeat constructor].
  - intros x [= <-]. cbn. unfold len. cbn. lia.
  - intros x [= <-]. by split; [|repeat constructor].
  - exists st, s'. by split.
Defined.
End StagerToy.
