(* ===== verification/EagleDraft.v ===== *)
(** * The EAGLE drafter: what the draft model is given

    [spec_decode/eagle.py], [spec_decode/utils.py] and the EAGLE branch of the runner's
    [propose_draft_token_ids]: the token that follows the accepted ones, the row it is drafted
    from, and the passes of the draft model, each over the staged buffers of [InputStager] in
    the padding of [DPUtils].  The draft model is a parameter; its calls are kept in order.
    Block tables and KV bindings, which the drafter hands on, are left out. *)
From S2P Require Import Prelude DPUtils InputStager RunnerInputs.

(** ** [utils.py] *)
Definition amax (l : list Z) : res Z :=
  match l with [] => Raise IndexError | x :: l => Ok (maxZ x l) end.

Definition valid_token (vocab_size t : Z) : bool := negb (t =? -1) && (t <? vocab_size).

(** The last valid token of a row, 0 without one, and how many there are. *)
Definition last_valid (vocab_size : Z) (row : list Z) : res (Z * Z) :=
  let is_valid := valid_token vocab_size <$> row in
  let token_offsets := py_range (len row) in
  last_valid_index ← amax (zip_with (fun i (v : bool) => if v then i else -1) token_offsets is_valid);
  Ok (sumZ (zip_with (fun i t => if i =? last_valid_index then t else 0) token_offsets row),
      sumZ (Z.b2z <$> is_valid)).

Definition eagle_prepare_next_token_padded (sampled_token_ids : list (list Z)) (discard_request_mask : list bool)
    (backup_next_token_ids : list Z) (vocab_size : Z) : res (list Z * list Z) :=
  rows ← mapM (last_valid vocab_size) sampled_token_ids;
  next ← np_zip (fun (tc : Z * Z) backup => if 0 <? tc.2 then tc.1 else backup) rows backup_next_token_ids;
  both ← np_zip pair backup_next_token_ids next;
  next_token_ids ← np_zip (fun (d : bool) (bn : Z * Z) => if d then bn.1 else bn.2) discard_request_mask both;
  valid_count ← np_zip (fun (d : bool) (tc : Z * Z) => if d then 0 else tc.2) discard_request_mask rows;
  Ok (next_token_ids, valid_count).

Definition eagle_prepare_inputs_padded (cu_num_draft_tokens valid_sampled_tokens_count query_start_loc : list Z)
    : res (list Z * list Z) :=
  num_draft_tokens ← np_zip Z.sub cu_num_draft_tokens (0 :: removelast cu_num_draft_tokens);
  num_rejected_tokens ← np_zip (fun d valid => if 0 <? d then d + 1 - valid else 0) num_draft_tokens
    valid_sampled_tokens_count;
  token_indices_to_sample ← np_zip (fun q rejected => q - 1 - rejected) (tail query_start_loc) num_rejected_tokens;
  Ok (token_indices_to_sample, num_rejected_tokens).

(** ** Tensors *)

(** [l.view(n, -1)]. *)
Definition view_rows {A} (n : Z) (l : list A) : res (list (list A)) :=
  if (n <=? 0) || negb (len l mod n =? 0) then Raise RuntimeError
  else let q := len l / n in Ok ((fun i => py_slice l (i * q) ((i + 1) * q)) <$> py_range n).

(** [buf[idx] = vals]. *)
Definition put_at (idx vals buf : list Z) : res (list Z) :=
  vals ← broadcast (len idx) vals;
  foldM (fun buf (iv : Z * Z) =>
    let i := if iv.1 <? 0 then len buf + iv.1 else iv.1 in
    if (0 <=? i) && (i <? len buf) then Ok (<[Z.to_nat i := iv.2]> buf) else Raise IndexError) buf (zip idx vals).

(** [torch.stack(rows, dim=1)]. *)
Definition stack_columns (n : Z) (columns : list (list Z)) : res (list (list Z)) :=
  if negb (forallb (fun c => len c =? n) columns) then Raise RuntimeError
  else mapM (fun i => mapM (fun c => of_option (py_nth c i) RuntimeError) columns) (py_range n).

(** ** The drafter *)
Record Config := {
  num_speculative_tokens : Z;
  drafter_max_model_len : Z;
  effective_drafter_max_model_len : Z;
  drafter_max_num_tokens : Z;
  hidden_size : Z;
  vocab_size : Z;
  draft_id_to_target_id : option (list Z);
  draft_has_moe : bool;
  shape_config : ShapeConfig;
  data_parallel_size : Z;
  dp_status : option DPStatus;
  dp_rank : nat
}.

(** vLLM's [CommonAttentionMetadata], the fields that change. *)
Record CommonAttentionMetadata := {
  cm_query_start_loc : list Z;
  cm_seq_lens : list Z;
  cm_num_actual_tokens : Z;
  cm_max_query_len : Z;
  cm_max_seq_len : Z
}.

Section eagle.

(** Elements of hidden states; new memory with any contents. *)
Context {H : Type} (zero : H) (empty empty_positions : Z -> Z -> list (list Z))
  (empty_hidden : Z -> Z -> Z -> list (list (list H))) (empty_row : Z -> list Z).

(** What a pass of the draft model reads: the staged tensors and the attention metadata. *)
Record Call := {
  c_input_ids : list (list Z);
  c_positions : list (list Z);
  c_hidden_states : list (list (list H));
  c_token_indices : option (list Z);
  c_attn : CommonAttentionMetadata;
  c_is_prefill : bool;
  c_batch_pad : Z;
  c_back_pad : option (list Z);
  c_num_tokens_across_dp : option (list Z)
}.

(** The draft model: the hidden states and the draft id of every row, or an exception. *)
Context (model_executable : Call -> res (list (list H) * list Z)).

(** The drafter's buffers, and its calls of the model so far. *)
Record Drafter := {
  d_input_ids : list Z;
  backup_next_token_ids : list Z;
  input_stager : InputStager H;
  calls : list Call
}.

Definition set_input_ids ids (s : Drafter) : Drafter :=
  {| d_input_ids := ids; backup_next_token_ids := backup_next_token_ids s; input_stager := input_stager s; calls := calls s |}.
Definition set_backup ids (s : Drafter) : Drafter :=
  {| d_input_ids := d_input_ids s; backup_next_token_ids := ids; input_stager := input_stager s; calls := calls s |}.
Definition set_stager st (s : Drafter) : Drafter :=
  {| d_input_ids := d_input_ids s; backup_next_token_ids := backup_next_token_ids s; input_stager := st; calls := calls s |}.
Definition log_call c (s : Drafter) : Drafter :=
  {| d_input_ids := d_input_ids s; backup_next_token_ids := backup_next_token_ids s; input_stager := input_stager s;
     calls := calls s ++ [c] |}.

Definition _to_target_token_ids (cfg : Config) (draft_token_ids : list Z) : res (list Z) :=
  match draft_id_to_target_id cfg with
  | None => Ok draft_token_ids
  | Some d2t => offsets ← np_take d2t draft_token_ids; np_zip Z.add draft_token_ids offsets
  end.

(** [requests]: [get_token_id] of every cached request. *)
Definition prepare_next_token_ids_padded (cfg : Config) (cm : CommonAttentionMetadata) (sampled_token_ids : list (list Z))
    (requests : gmap string (Z -> Z)) (b : Batch) (discard_request_mask : list bool) (s : Drafter)
    : res (list Z * list Z * Drafter) :=
  ids ← mapM (fun i =>
    req ← of_option (py_nth (req_ids b) i) IndexError;
    get_token_id ← of_option (requests !! req) KeyError;
    seq_len ← of_option (py_nth (cm_seq_lens cm) i) IndexError;
    Ok (get_token_id seq_len)) (py_range (RunnerInputs.num_reqs b));
  backup ← store 0 ids (backup_next_token_ids s);
  let batch_size := len sampled_token_ids in
  next ← eagle_prepare_next_token_padded sampled_token_ids (py_take batch_size discard_request_mask)
    (py_take batch_size backup) (vocab_size cfg);
  Ok (next.1, next.2, set_backup backup s).

Definition prepare_inputs_padded (cm : CommonAttentionMetadata) (m : SpecDecodeMetadata) (valid_sampled_tokens_count : list Z)
    : res (CommonAttentionMetadata * list Z * list Z) :=
  p ← eagle_prepare_inputs_padded (cu_num_draft_tokens m) valid_sampled_tokens_count (cm_query_start_loc cm);
  new_query_len_per_req ← np_zip Z.sub (tail (cm_query_start_loc cm)) (removelast (cm_query_start_loc cm));
  total_num_tokens ← of_option (last (cm_query_start_loc cm)) IndexError;
  max_query_len ← amax new_query_len_per_req;
  max_seq_len ← amax (cm_seq_lens cm);
  Ok ({| cm_query_start_loc := cm_query_start_loc cm; cm_seq_lens := cm_seq_lens cm;
         cm_num_actual_tokens := total_num_tokens; cm_max_query_len := max_query_len;
         cm_max_seq_len := max_seq_len |}, p.1, p.2).

Definition _determine_batch_execution_and_padding (cfg : Config) (n num_tokens : Z) (is_prefill first_pass : bool)
    : res (BatchDescriptor * option (list Z)) :=
  status ← (if data_parallel_size cfg =? 1 then Ok None
            else match dp_status cfg with None => Raise AssertionError | Some st => Ok (Some st) end);
  determine_draft_batch_execution_and_padding (shape_config cfg) status (dp_rank cfg) n num_tokens is_prefill
    (draft_has_moe cfg) first_pass None.

(** The target's tokens one to the left, and the tokens that follow in the rows drafted from. *)
Definition shift_tokens (n : Z) (target : list Z) (next_token_ids token_indices : list Z) (buf : list Z) : res (list Z) :=
  assert! n =? len target;
  buf ← copy_prefix (n - 1) (tail target) buf;
  put_at token_indices next_token_ids buf.

(** The tensors a pass is staged into, read from the stager. *)
Definition _preprocess (cfg : Config) (n n_padded num_input_tokens : Z) (positions : list Z) (hidden : list (list H))
    (is_prefill : bool) (token_indices : option (list Z)) (shift : option (list Z * list Z)) (s : Drafter)
    : res (list (list Z) * list (list Z) * list (list (list H)) * option (list Z) * Drafter) :=
  ids ← match shift, token_indices with
        | None, _ => Ok (d_input_ids s)
        | Some _, None => Raise AssertionError
        | Some (target, next), Some idx => shift_tokens num_input_tokens target next idx (d_input_ids s)
        end;
  input_ids ← view_rows n (py_take num_input_tokens ids);
  positions ← view_rows n (py_take num_input_tokens positions);
  hidden ← view_rows n (py_take num_input_tokens hidden);
  query_len ← of_option (len <$> head input_ids) RuntimeError;
  let layout := {| InputStager.num_reqs := n; InputStager.num_reqs_padded := if is_prefill : bool then n else n_padded;
                   InputStager.query_len := query_len;
                   query_len_padded := if is_prefill then drafter_max_num_tokens cfg else query_len;
                   input_pad_value := 0; position_pad_value := 0; hidden_state_pad_value := zero;
                   token_index_pad_value := 0 |} in
  st ← stage empty empty_positions empty_hidden empty_row {| dtype := "int32"; data := input_ids |}
    {| dtype := "int64"; data := positions |} ((fun t => {| dtype := "int32"; data := t |}) <$> token_indices)
    (Some {| dtype := "hidden"; data := hidden |}) (hidden_size cfg) layout (input_stager s);
  let '(staged, stager) := st in
  buf ← of_option (_buffers stager !! staged_inputs staged) KeyError;
  key ← of_option (staged_hidden_states staged) AssertionError;
  h ← of_option (_hidden_state_buffers stager !! key) KeyError;
  t ← match staged_token_indices staged with
      | None => Ok None
      | Some key => t ← of_option (_token_indices_buffers stager !! key) KeyError; Ok (Some t)
      end;
  Ok (buf_ids buf, buf_positions buf, h, t, set_stager stager (set_input_ids ids s)).

(** The passes after the first, over one token of every request. *)
Fixpoint draft_passes (k : nat) (cfg : Config) (n n_padded : Z) (across : option (list Z)) (seq_lens positions : list Z)
    (max_seq_len : Z) (hidden : list (list H)) (latest : list Z) (s : Drafter) : res (list (list Z) * Drafter) :=
  match k with
  | O => Ok ([], s)
  | S k =>
      ids ← copy_prefix n latest (d_input_ids s);
      let positions := (fun p => p + 1) <$> positions in
      seq_lens ← np_zip (fun l p => if drafter_max_model_len cfg <=? p then 1 else l + 1) seq_lens (py_take n positions);
      pre ← _preprocess cfg n n_padded n (py_take n positions) (py_take n hidden) false None None (set_input_ids ids s);
      let '(ids, pos, h, t, s) := pre in
      let call := {| c_input_ids := ids; c_positions := pos; c_hidden_states := h; c_token_indices := None;
                     c_attn := {| cm_query_start_loc := py_range (n + 1); cm_seq_lens := seq_lens;
                                  cm_num_actual_tokens := n; cm_max_query_len := 1; cm_max_seq_len := max_seq_len |};
                     c_is_prefill := false; c_batch_pad := n_padded; c_back_pad := None;
                     c_num_tokens_across_dp := across |} in
      out ← model_executable call;
      draft ← _to_target_token_ids cfg (py_take n out.2);
      rest ← draft_passes k cfg n n_padded across seq_lens positions max_seq_len out.1 draft (log_call call s);
      Ok (draft :: rest.1, rest.2)
  end.

Definition propose (cfg : Config) (r : Runner) (b : Batch) (target_token_ids target_positions : list Z)
    (target_hidden_states : list (list H)) (next_token_ids token_indices_to_sample : list Z)
    (cm : CommonAttentionMetadata) (num_rejected_tokens : option (list Z)) (s : Drafter) : res (list (list Z) * Drafter) :=
  assert! forallb (fun row => len row =? hidden_size cfg) target_hidden_states;
  let num_tokens := len target_token_ids in
  let n := RunnerInputs.num_reqs b in
  d ← _determine_batch_execution_and_padding cfg n num_tokens (is_prefill r) true;
  pre ← _preprocess cfg n (DPUtils.num_reqs_padded d.1) num_tokens target_positions target_hidden_states (is_prefill r)
    (Some token_indices_to_sample) (Some (target_token_ids, next_token_ids)) s;
  let '(ids, pos, h, t, s) := pre in
  let call := {| c_input_ids := ids; c_positions := pos; c_hidden_states := h; c_token_indices := t; c_attn := cm;
                 c_is_prefill := is_prefill r; c_batch_pad := DPUtils.num_reqs_padded d.1;
                 c_back_pad := Some (decode_back_pad r); c_num_tokens_across_dp := d.2 |} in
  out ← model_executable call;
  let s := log_call call s in
  if num_speculative_tokens cfg =? 1 then
    draft ← _to_target_token_ids cfg (py_take n out.2);
    Ok ((fun t => [t]) <$> draft, s)
  else
    positions ← np_take target_positions token_indices_to_sample;
    draft ← _to_target_token_ids cfg (py_take n out.2);
    seq_lens ← match num_rejected_tokens with
               | Some rejected =>
                   if 1 <? num_speculative_tokens cfg then np_zip Z.sub (cm_seq_lens cm) rejected else Ok (cm_seq_lens cm)
               | None => Ok (cm_seq_lens cm)
               end;
    d ← _determine_batch_execution_and_padding cfg n n false false;
    rest ← draft_passes (Z.to_nat (num_speculative_tokens cfg - 1)) cfg n (DPUtils.num_reqs_padded d.1) d.2 seq_lens
      positions (cm_max_seq_len cm) out.1 draft s;
    drafts ← stack_columns (len draft) (draft :: rest.1);
    Ok (drafts, rest.2).

(** The EAGLE branch of the runner's [propose_draft_token_ids]. *)
Definition propose_draft_token_ids (cfg : Config) (r : Runner) (b : Batch) (requests : gmap string (Z -> Z))
    (sampled_token_ids : list (list Z)) (hidden_states : list (list H)) (m : option SpecDecodeMetadata)
    (cm : CommonAttentionMetadata) (s : Drafter) : res (list (list Z) * Drafter) :=
  next ← prepare_next_token_ids_padded cfg cm sampled_token_ids requests b (discard_request_mask r) s;
  let '(next_token_ids, valid_sampled_tokens_count, s) := next in
  let n := RunnerInputs.num_reqs b in
  let back_pad := py_take n (decode_back_pad r) in
  match m with
  | None =>
      num_staged_tokens ← of_option (py_nth (cm_query_start_loc cm) n) IndexError;
      token_indices ← np_zip (fun q p => q - 1 - p) (py_slice (cm_query_start_loc cm) 1 (n + 1)) back_pad;
      propose cfg r b (py_take num_staged_tokens (input_ids r)) (py_take num_staged_tokens (positions r)) hidden_states
        next_token_ids token_indices cm None s
  | Some m =>
      p ← prepare_inputs_padded cm m valid_sampled_tokens_count;
      let '(cm, token_indices, num_rejected_tokens) := p in
      token_indices ← np_zip Z.sub token_indices back_pad;
      let total_num_tokens := cm_num_actual_tokens cm in
      propose cfg r b (py_take total_num_tokens (input_ids r)) (py_take total_num_tokens (positions r)) hidden_states
        next_token_ids token_indices cm (Some num_rejected_tokens) s
  end.

(** [_build_attention_metadata], the part the drafter gets, and the guard in [sample_tokens]:
    a batch too long for the drafter gets zeros. *)
Definition attention_metadata (r : Runner) (n num_tokens max_query_len : Z) : res CommonAttentionMetadata :=
  max_seq_len ← amax (py_take n (seq_lens r));
  Ok {| cm_query_start_loc := py_take (n + 1) (query_start_loc r); cm_seq_lens := py_take n (seq_lens r);
        cm_num_actual_tokens := num_tokens; cm_max_query_len := max_query_len; cm_max_seq_len := max_seq_len |}.

Definition draft_step (cfg : Config) (r : Runner) (b : Batch) (requests : gmap string (Z -> Z))
    (sampled_token_ids : list (list Z)) (hidden_states : list (list H)) (m : option SpecDecodeMetadata)
    (cm : CommonAttentionMetadata) (s : Drafter) : res (list (list Z) * Drafter) :=
  if cm_max_seq_len cm + num_spec_tokens r <=? effective_drafter_max_model_len cfg then
    propose_draft_token_ids cfg r b requests sampled_token_ids hidden_states m cm s
  else Ok (replicate (length (req_ids b)) (replicate (Z.to_nat (num_spec_tokens r)) 0), s).
End eagle.
Arguments Call : clear implicits.
Arguments Drafter : clear implicits.
