(* ===== verification/EaglePasses.v ===== *)
(** * The EAGLE drafter: its passes

    What the parts of the drafter compute: the last valid token of a row, writes at indices,
    batches cut into rows, the tensors a pass is staged into, and the passes after the first. *)
From S2P Require Import Prelude KvLayout DPUtils InputStager RunnerInputs FlatRows EagleDraft.

(** ** Rows of sampled tokens *)
Definition valid (vocab_size t : Z) : Prop := valid_token vocab_size t = true.

Lemma last_valid_total vocab_size row : row <> [] -> exists tc, last_valid vocab_size row = Ok tc.
Proof.
  intros Hrow. unfold last_valid. destruct row as [|t row]; [done|].
  assert (exists k, py_range (len (t :: row)) = 0 :: k) as [k ->].
  { unfold py_range, len. cbn [length]. rewrite seqZ_cons by lia. by eexists. }
  cbn. by eexists.
Qed.

Lemma amax_is m l : m ∈ l -> (forall y, y ∈ l -> y <= m) -> amax l = Ok m.
Proof.
  intros Hm Hl. destruct l as [|x l]; [by apply not_elem_of_nil in Hm|]. cbn. f_equal.
  destruct (maxZ_spec x l) as (H1 & H2 & H3). apply Z.le_antisymm.
  - by apply Hl.
  - apply elem_of_cons in Hm as [->|Hm]; auto.
Qed.

Lemma pick_one s k row : s <= k ->
  sumZ (zip_with (fun i t => if i =? k then t else 0) (seqZ s (len row)) row) = default 0 (at_ row (k - s)).
Proof.
  revert s. induction row as [|t row IH]; intros s Hk; [done|]. unfold len. cbn [length].
  rewrite seqZ_cons by lia. replace (Z.pred (Z.of_nat (S (length row)))) with (len row) by (unfold len; lia).
  cbn [zip_with]. rewrite sumZ_cons. destruct (Z.eqb_spec s k) as [->|Hne].
  - rewrite Z.sub_diag. cbn. clear IH. assert (H0 : forall s', k < s' ->
      sumZ (zip_with (fun i t => if i =? k then t else 0) (seqZ s' (len row)) row) = 0); [|rewrite H0 by lia; apply Z.add_0_r].
    induction row as [|t' row IH]; intros s' Hs; [done|]. unfold len. cbn [length]. rewrite seqZ_cons by lia.
    replace (Z.pred (Z.of_nat (S (length row)))) with (len row) by (unfold len; lia). cbn [zip_with].
    rewrite sumZ_cons, IH by lia. by destruct (Z.eqb_spec s' k); [lia|].
  - rewrite IH by lia. replace (Z.to_nat (k - s)) with (S (Z.to_nat (k - Z.succ s))) by lia. done.
Qed.

Lemma count_valid vocab_size l k : Forall (valid vocab_size) l ->
  sumZ (Z.b2z <$> (valid_token vocab_size <$> l ++ replicate k (-1))) = len l.
Proof.
  induction 1 as [|x l Hx Hl IH].
  - cbn [app]. rewrite !fmap_replicate. induction k as [|k IH]; [done|]. exact IH.
  - cbn [app fmap list_fmap]. rewrite sumZ_cons. cbn [fmap list_fmap] in IH. rewrite IH, len_cons, Hx. cbn. lia.
Qed.

(** The row of a request that emitted tokens: they are counted, and the last is found. *)
Lemma last_valid_emitted vocab_size e t k : Forall (valid vocab_size) (e ++ [t]) ->
  last_valid vocab_size ((e ++ [t]) ++ replicate k (-1)) = Ok (t, len (e ++ [t])).
Proof.
  intros Hv. unfold last_valid. rewrite count_valid by done. set (row := (e ++ [t]) ++ replicate k (-1)).
  assert (Ht : row !! length e = Some t).
  { subst row. rewrite <- app_assoc, lookup_app_r, Nat.sub_diag by lia. done. }
  rewrite (amax_is (len e)).
  - cbn [mbind res_bind]. unfold py_range. rewrite pick_one by apply len_nonneg.
    rewrite Z.sub_0_r. assert (Z.to_nat (len e) = length e) as -> by (unfold len; lia). by rewrite Ht.
  - apply list_elem_of_lookup. exists (length e). rewrite lookup_zip_with. unfold py_range.
    rewrite lookup_seqZ_lt by (apply lookup_lt_Some in Ht; unfold len; lia). rewrite list_lookup_fmap, Ht.
    cbn. assert (valid_token vocab_size t = true) as ->; [|done].
    apply Forall_app in Hv as [_ Hv]. by apply Forall_cons in Hv as [Hv _].
  - intros y [i Hi]%list_elem_of_lookup. rewrite lookup_zip_with in Hi. apply bind_Some in Hi as (i' & Hi' & Hi).
    apply bind_Some in Hi as (v & Hv' & [= <-]). unfold py_range in Hi'. apply lookup_seqZ in Hi' as [-> Hlt].
    rewrite list_lookup_fmap in Hv'. pose proof (len_nonneg e). destruct v; [|lia].
    destruct (decide (i < length (e ++ [t]))%nat) as [Hl|Hl]; [rewrite length_app in Hl; cbn in Hl; unfold len; lia|].
    subst row. rewrite lookup_app_r in Hv' by lia. apply fmap_Some in Hv' as (u & Hu & Hv').
    apply lookup_replicate in Hu as [-> _]. done.
Qed.

(** ** Writes at indices, and rows *)
Definition write_one (buf : list Z) (iv : Z * Z) : res (list Z) :=
  let i := if iv.1 <? 0 then len buf + iv.1 else iv.1 in
  if (0 <=? i) && (i <? len buf) then Ok (<[Z.to_nat i := iv.2]> buf) else Raise IndexError.

Lemma write_one_ok buf i v : 0 <= i < len buf -> write_one buf (i, v) = Ok (<[Z.to_nat i := v]> buf).
Proof.
  intros Hi. unfold write_one. cbn. destruct (Z.ltb_spec i 0); [lia|].
  by rewrite (proj2 (Z.leb_le 0 i)), (proj2 (Z.ltb_lt i (len buf))) by lia.
Qed.

Lemma writes_ok idx vals buf : length idx = length vals -> NoDup idx -> Forall (fun i => 0 <= i < len buf) idx ->
  exists buf', foldM write_one buf (zip idx vals) = Ok buf' /\ length buf' = length buf /\
    (forall k i v, idx !! k = Some i -> vals !! k = Some v -> at_ buf' i = Some v) /\
    forall i, 0 <= i -> i ∉ idx -> at_ buf' i = at_ buf i.
Proof.
  revert vals buf. induction idx as [|i idx IH]; intros [|v vals] buf Hl Hnd Hr; try done; [by exists buf|].
  apply NoDup_cons in Hnd as [Hi Hnd]. apply Forall_cons in Hr as [Hri Hr]. cbn [zip zip_with foldM].
  rewrite write_one_ok by done.
  cbn [mbind res_bind]. destruct (IH vals (<[Z.to_nat i := v]> buf)) as (buf' & E & Hlen & Hat & Hother).
  { by injection Hl. } { done. } { by unfold len in *; rewrite length_insert. }
  exists buf'. split; [done|]. rewrite Hlen, length_insert. split; [done|]. split.
  - intros [|k] j w Hj Hw; cbn in Hj, Hw; [|by apply (Hat k)]. injection Hj as <-. injection Hw as <-.
    rewrite Hother by (done || lia). apply list_lookup_insert_eq. unfold len in Hri. lia.
  - intros j Hj Hnin. rewrite not_elem_of_cons in Hnin. destruct Hnin as [Hne Hnin]. rewrite Hother by done.
    apply list_lookup_insert_ne. lia.
Qed.

Lemma put_at_ok idx vals buf : length idx = length vals -> NoDup idx -> Forall (fun i => 0 <= i < len buf) idx ->
  exists buf', put_at idx vals buf = Ok buf' /\ length buf' = length buf /\
    (forall k i v, idx !! k = Some i -> vals !! k = Some v -> at_ buf' i = Some v) /\
    forall i, 0 <= i -> i ∉ idx -> at_ buf' i = at_ buf i.
Proof.
  intros Hl. unfold put_at, broadcast, len. rewrite Hl, Z.eqb_refl. by apply writes_ok.
Qed.

(** The element in column [j] of row [i]. *)
Definition cell {A} (rows : list (list A)) (i : nat) (j : Z) : option A := row ← rows !! i; at_ row j.

Definition cut {A} (q : Z) (l : list A) (i : Z) : list A := py_slice l (i * q) ((i + 1) * q).

Lemma cut_at {A} q (l : list A) i j : 0 <= i -> 0 <= j < q -> at_ (cut q l i) j = at_ l (i * q + j).
Proof.
  intros Hi Hj. unfold cut, py_slice. rewrite lookup_take_lt by nia. rewrite lookup_drop. f_equal. nia.
Qed.

Lemma cut_len {A} q (l : list A) i : 0 <= i -> 0 <= q -> (i + 1) * q <= len l -> len (cut q l i) = q.
Proof. intros Hi Hq Hl. unfold cut, py_slice, len in *. rewrite length_take, length_drop. nia. Qed.

Lemma view_rows_ok {A} n q (l : list A) : 0 < n -> 0 <= q -> n * q <= len l ->
  view_rows n (py_take (n * q) l) = Ok (cut q l <$> py_range n).
Proof.
  intros Hn Hq Hl. unfold view_rows. assert (len (py_take (n * q) l) = q * n) as ->.
  { unfold py_take, len in *. rewrite length_take. nia. }
  rewrite (proj2 (Z.leb_gt n 0)) by lia. rewrite Z.mod_mul, Z.div_mul by lia. cbn [orb negb Z.eqb]. f_equal.
  apply list_fmap_ext. intros k i Hi. apply list_elem_of_lookup_2, py_range_elem in Hi. unfold cut, py_slice, py_take.
  rewrite skipn_firstn_comm, take_take. f_equal. nia.
Qed.

Lemma cuts_batch {A} n q (l : list A) : 0 < n -> 0 <= q -> n * q <= len l ->
  len (cut q l <$> py_range n) = n /\ Forall (fun row => len row = q) (cut q l <$> py_range n).
Proof.
  intros Hn Hq Hl. split; [unfold len, py_range; rewrite length_fmap, length_seqZ; lia|].
  apply Forall_fmap, Forall_forall. intros i Hi%py_range_elem. cbn. apply cut_len; nia.
Qed.

Lemma cuts_lookup {A} n q (l : list A) i : (i < Z.to_nat n)%nat ->
  (cut q l <$> py_range n) !! i = Some (cut q l (Z.of_nat i)).
Proof. intros Hi. rewrite list_lookup_fmap. unfold py_range. by rewrite lookup_seqZ_lt by lia. Qed.

Lemma padded_lookup {A} n q (v : A) rows i row : rows !! i = Some row ->
  padded n q v rows !! i = Some (padded_row q v row).
Proof.
  intros Hi. pose proof (lookup_lt_Some _ _ _ Hi). unfold padded, padded_row at 1.
  rewrite lookup_app_l by (by rewrite length_fmap). by rewrite list_lookup_fmap, Hi.
Qed.

Lemma padded_cell {A} n q (v : A) rows i j x : 0 <= j -> cell rows i j = Some x -> cell (padded n q v rows) i j = Some x.
Proof.
  unfold cell. intros Hj Hc. apply bind_Some in Hc as (row & Hrow & Hx). rewrite (padded_lookup _ _ _ _ _ row) by done.
  cbn. unfold padded_row. by apply lookup_app_l_Some.
Qed.

Lemma cuts_cell {A} n q (l : list A) i j : (i < Z.to_nat n)%nat -> 0 <= j < q ->
  cell (cut q l <$> py_range n) i j = at_ l (Z.of_nat i * q + j).
Proof. intros Hi Hj. unfold cell. rewrite cuts_lookup by done. cbn. apply cut_at; lia. Qed.

(** Columns of one length make rows. *)
Lemma stack_columns_ok n columns : 0 <= n -> Forall (fun c => len c = n) columns ->
  exists out, stack_columns n columns = Ok out /\ len out = n /\
    forall k c i v, columns !! k = Some c -> c !! i = Some v -> exists rw, out !! i = Some rw /\ rw !! k = Some v.
Proof.
  intros Hn Hc. unfold stack_columns. assert (forallb (fun c => len c =? n) columns = true) as ->.
  { apply forallb_forall. intros c Hin%list_elem_of_In. rewrite Forall_forall in Hc. by apply Z.eqb_eq, Hc. }
  cbn [negb]. set (rw (i : Z) := (fun c => default 0 (at_ c i)) <$> columns).
  exists (rw <$> py_range n). split; [|split].
  - apply mapM_Ok. intros i Hi%py_range_elem. unfold rw. apply mapM_Ok. intros c Hin. rewrite Forall_forall in Hc.
    rewrite py_nth_at by lia. by destruct (at_some c i) as [v ->]; [rewrite (Hc c Hin)|].
  - unfold len. rewrite length_fmap. by apply py_range_len.
  - intros k c i v Hk Hi. pose proof (lookup_lt_Some _ _ _ Hi). rewrite Forall_forall in Hc.
    assert (len c = n) by (apply Hc; by eapply list_elem_of_lookup_2). exists (rw (Z.of_nat i)). split.
    + rewrite list_lookup_fmap. unfold py_range. rewrite lookup_seqZ_lt by (unfold len in *; lia). done.
    + unfold rw. by rewrite list_lookup_fmap, Hk; cbn; rewrite Nat2Z.id, Hi.
Qed.

(** ** A pass *)
Section passes.
Context {H : Type} (zero : H) (empty empty_positions : Z -> Z -> list (list Z))
  (empty_hidden : Z -> Z -> Z -> list (list (list H))) (empty_row : Z -> list Z).
Context (empty_shape : forall n q, shaped (Z.to_nat n) (Z.to_nat q) (empty n q) /\ shaped (Z.to_nat n) (Z.to_nat q) (empty_positions n q))
  (empty_hidden_shape : forall n q h, shaped (Z.to_nat n) (Z.to_nat q) (empty_hidden n q h))
  (empty_row_length : forall n, length (empty_row n) = Z.to_nat n).
Context (cfg : Config).

Let preprocess := _preprocess zero empty empty_positions empty_hidden empty_row cfg.

(** The tensors of a pass over [n] rows of [q] tokens. *)
Lemma preprocess_ok n n_padded q pos hid pre idx shift s ids :
  0 < n -> n <= n_padded -> 0 < q -> (pre = true -> q <= drafter_max_num_tokens cfg) ->
  n * q <= len ids -> n * q <= len pos -> n * q <= len hid ->
  (forall l, idx = Some l -> len l = n) -> stager_ok (input_stager s) ->
  match shift, idx with
  | None, _ => Ok (d_input_ids s)
  | Some _, None => Raise AssertionError
  | Some (target, next), Some l => shift_tokens (n * q) target next l (d_input_ids s)
  end = Ok ids ->
  exists ids' pos' h t s', preprocess n n_padded (n * q) pos hid pre idx shift s = Ok (ids', pos', h, t, s') /\
    (exists st, s' = set_stager st (set_input_ids ids s) /\ stager_ok st) /\
    (exists np qp, n <= np /\ (pre = false -> np = n_padded /\ qp = Z.to_nat q) /\ len ids' = np /\
       ids' = padded (Z.to_nat np) qp 0 (cut q ids <$> py_range n) /\ pos' = padded (Z.to_nat np) qp 0 (cut q pos <$> py_range n)) /\
    forall l, idx = Some l -> exists k, t = Some (l ++ replicate k 0).
Proof.
  intros Hn Hp Hq Hmax Hi Hpos Hh Hidx S E. unfold preprocess, _preprocess. rewrite E. cbn [mbind res_bind].
  rewrite !view_rows_ok by lia. cbn [mbind res_bind].
  destruct (cuts_batch n q ids) as [I1 I2]; [lia..|]. destruct (cuts_batch n q pos) as [P1 P2]; [lia..|].
  destruct (cuts_batch n q hid) as [D1 D2]; [lia..|].
  assert (Hhead : head (cut q ids <$> py_range n) = Some (cut q ids 0)).
  { rewrite head_lookup. apply (cuts_lookup n q ids 0). lia. }
  rewrite Hhead. cbn [fmap option_fmap option_map of_option mbind res_bind]. rewrite cut_len by nia.
  match goal with |- context [stage _ _ _ _ _ _ _ _ _ ?x _] => set (layout := x) end.
  assert (Hl : layout_ok layout) by (subst layout; split; cbn; destruct pre; cbn; try specialize (Hmax eq_refl); lia).
  destruct (stage_ok empty empty_positions empty_hidden empty_row empty_shape empty_hidden_shape empty_row_length
    (input_stager s) layout {| dtype := "int32"; data := cut q ids <$> py_range n |}
    {| dtype := "int64"; data := cut q pos <$> py_range n |} ((fun t => {| dtype := "int32"; data := t |}) <$> idx)
    (Some {| dtype := "hidden"; data := cut q hid <$> py_range n |}) (hidden_size cfg)) as (st & s' & Est & S' & B & N & T & K).
  { done. } { done. } { done. } { done. }
  { intros x Hx. apply fmap_Some in Hx as (l & Hl' & ->). cbn. rewrite (Hidx l Hl'). subst layout. cbn. by destruct pre. }
  { intros x [= <-]. done. }
  rewrite Est. cbn [mbind res_bind]. rewrite B, lookup_insert_eq. cbn [of_option mbind res_bind buf_ids buf_positions].
  destruct (K _ eq_refl) as (key & -> & Hkey). cbn [of_option mbind res_bind]. rewrite Hkey. cbn [of_option mbind res_bind].
  assert (exists t, (match staged_token_indices st with
     | None => Ok None
     | Some key => t ← of_option (_token_indices_buffers s' !! key) KeyError; Ok (Some t)
     end) = Ok t /\ forall l, idx = Some l -> exists k, t = Some (l ++ replicate k 0)) as (t & -> & Ht).
  { destruct idx as [l|]; [|by rewrite N; [exists None|]].
    destruct (T _ eq_refl) as (k & -> & Hk). cbn [of_option mbind res_bind]. rewrite Hk. cbn. eexists. split; [done|].
    intros l' [= <-]. by eexists. }
  cbn [mbind res_bind]. eexists _, _, _, _, _. split; [done|]. split; [by exists s'|]. split; [|done].
  exists (InputStager.num_reqs_padded layout), (Z.to_nat (query_len_padded layout)).
  split; [apply Hl|]. split; [|split; [|done]].
  { intros ->. done. }
  destruct Hl as [Hl1 Hl2]. destruct (padded_shaped (Z.to_nat (InputStager.num_reqs_padded layout)) (Z.to_nat (query_len_padded layout)) (input_pad_value layout) (cut q ids <$> py_range n)) as [Hlen _].
  { unfold len in I1. subst layout. cbn in Hl1 |- *. lia. }
  { eapply Forall_impl; [exact I2|]. intros row Hr. subst layout. cbn in Hr, Hl2 |- *. unfold len in Hr. lia. }
  unfold padded_to, len. cbn [data]. rewrite Hlen. subst layout. cbn in Hl1 |- *. lia.
Qed.

(** The draft model answers with a row for every staged row, and its ids are within the
    mapping to the target's vocabulary. *)
Definition known_id (t : Z) : Prop :=
  match draft_id_to_target_id cfg with None => True | Some d2t => 0 <= t < len d2t end.

Context (model : Call H -> res (list (list H) * list Z)).

Definition model_ok : Prop := forall c, exists out, model c = Ok out /\
  len (c_input_ids c) <= len out.1 /\ len (c_input_ids c) <= len out.2 /\ Forall known_id out.2.

(** The target's id of a draft id. *)
Definition target_id (t : Z) : Z :=
  match draft_id_to_target_id cfg with None => t | Some d2t => t + default 0 (at_ d2t t) end.

Lemma to_target_ok l : Forall known_id l -> _to_target_token_ids cfg l = Ok (target_id <$> l).
Proof.
  unfold _to_target_token_ids, target_id, known_id. destruct (draft_id_to_target_id cfg) as [d2t|]; [|by rewrite list_fmap_id].
  intros Hl. assert (np_take d2t l = Ok ((fun t => default 0 (at_ d2t t)) <$> l)) as ->.
  { rewrite <- (list_fmap_id l) at 1. apply mapM_over. rewrite Forall_forall in Hl. intros t Ht. unfold id.
    rewrite py_nth_at by (specialize (Hl t Ht); lia). destruct (at_some d2t t (Hl t Ht)) as [v ->]. done. }
  cbn [mbind res_bind]. rewrite <- (list_fmap_id l) at 1. apply np_zip_fmap.
Qed.

(** The length of a request's sequence in a later pass. *)
Definition later_len (l p : Z) (m : Z) : Z := if drafter_max_model_len cfg <=? p + m then 1 else l + m.

Let passes := draft_passes zero empty empty_positions empty_hidden empty_row model.

(** What a later pass over [n] requests reads. *)
Definition reads (c : Call H) (positions seq_lens latest : list Z) (m : Z) : Prop :=
  forall i p l v, positions !! i = Some p -> seq_lens !! i = Some l -> latest !! i = Some v ->
    c_input_ids c !! i = Some [v] /\ c_positions c !! i = Some [p + m] /\
    cm_seq_lens (c_attn c) !! i = Some (later_len l p m).

Lemma single_row n (l : list Z) (k : nat) v rest i x : (i < Z.to_nat n)%nat -> (Z.to_nat n <= k)%nat ->
  l !! i = Some x -> padded k 1 v (cut 1 (l ++ rest) <$> py_range n) !! i = Some [x].
Proof.
  intros Hi Hk Hx. rewrite (padded_lookup _ _ _ _ _ (cut 1 (l ++ rest) (Z.of_nat i))) by (by apply cuts_lookup).
  assert (cut 1 (l ++ rest) (Z.of_nat i) = [x]) as ->; [|done].
  unfold cut, py_slice. replace (Z.to_nat ((Z.of_nat i + 1) * 1 - Z.of_nat i * 1)) with 1%nat by lia.
  replace (Z.to_nat (Z.of_nat i * 1)) with i by lia. apply lookup_app_l_Some with (l2 := rest) in Hx.
  by rewrite (drop_S _ _ _ Hx).
Qed.

Definition next_len (l p : Z) : Z := if drafter_max_model_len cfg <=? p then 1 else l + 1.

Lemma reads_next c positions seq_lens latest m : 0 <= m ->
  reads c ((fun p => p + 1) <$> positions) (zip_with next_len seq_lens ((fun p => p + 1) <$> positions)) latest m ->
  reads c positions seq_lens latest (m + 1).
Proof.
  intros Hm Hr i p l v Hpi Hli Hvi. destruct (Hr i (p + 1) (next_len l (p + 1)) v) as (R1 & R2 & R3).
  { by rewrite list_lookup_fmap, Hpi. }
  { by rewrite lookup_zip_with, list_lookup_fmap, Hpi, Hli. }
  { done. }
  rewrite R1, R2, R3. split; [done|]. split; [do 2 f_equal; lia|]. unfold later_len, next_len. f_equal.
  destruct (Z.leb_spec (drafter_max_model_len cfg) (p + 1)), (Z.leb_spec (drafter_max_model_len cfg) (p + 1 + m)),
    (Z.leb_spec (drafter_max_model_len cfg) (p + (m + 1))); lia.
Qed.

Lemma passes_ok n n_padded across max_seq k : forall seq_lens positions hidden latest s, model_ok -> 0 < n -> n <= n_padded ->
  stager_ok (input_stager s) -> n <= len (d_input_ids s) -> len positions = n -> len seq_lens = n -> n <= len hidden ->
  len latest = n -> exists ds s' cs,
  passes k cfg n n_padded across seq_lens positions max_seq hidden latest s = Ok (ds, s') /\
  calls s' = calls s ++ cs /\ length cs = k /\ length ds = k /\
  forall m c, cs !! m = Some c -> exists out prev, model c = Ok out /\
    ds !! m = Some (target_id <$> py_take n out.2) /\ len (py_take n out.2) = n /\
    (latest :: ds) !! m = Some prev /\ len prev = n /\ reads c positions seq_lens prev (Z.of_nat m + 1).
Proof.
  induction k as [|k IH]; intros seq_lens positions hidden latest s M Hn Hp Hst Hb Hpos Hseq Hh Hl.
  { exists [], s, []. cbn. rewrite app_nil_r. done. }
  cbn [passes draft_passes]. unfold passes. cbn [draft_passes].
  rewrite copy_prefix_ok by done. cbn [mbind res_bind].
  set (pos1 := (fun p => p + 1) <$> positions). assert (Hpos1 : len pos1 = n) by (subst pos1; unfold len in *; by rewrite length_fmap).
  assert (Htp : py_take n pos1 = pos1) by (unfold py_take; apply firstn_all2; unfold len in Hpos1; lia). rewrite Htp.
  rewrite np_zip_same by (unfold len in *; lia). cbn [mbind res_bind].
  set (seq1 := zip_with _ seq_lens pos1). set (s1 := set_input_ids _ s).
  assert (Hth : len (py_take n hidden) = n) by (unfold py_take, len in *; rewrite length_take; lia).
  destruct (preprocess_ok n n_padded 1 pos1 (py_take n hidden) false None None s1 (d_input_ids s1)) as
    (ids' & pos' & h & t & s2 & E & (st & -> & S2) & (np & qp & Hnp & Hpre & Hlen & -> & ->) & _); try done; try lia.
  { subst s1. cbn. rewrite len_app. unfold len in *. rewrite length_drop. lia. }
  rewrite Z.mul_1_r in E. unfold preprocess in E. rewrite E. cbn [mbind res_bind]. destruct (Hpre eq_refl) as [-> ->].
  match goal with |- context [model ?x] => set (call := x) end.
  destruct (M call) as (out & Hout & O1 & O2 & O3). rewrite Hout. cbn [mbind res_bind].
  assert (Hcall : len (c_input_ids call) = n_padded) by exact Hlen. rewrite Hcall in O1, O2.
  rewrite to_target_ok by (by apply Forall_take). cbn [mbind res_bind].
  set (draft := target_id <$> py_take n out.2).
  assert (Hd : len (py_take n out.2) = n) by (unfold py_take, len in *; rewrite length_take; lia).
  destruct (IH seq1 pos1 out.1 draft (log_call call (set_stager st (set_input_ids (d_input_ids s1) s1)))) as
    (ds & s' & cs & Erest & Hcalls & Hcs & Hds & Hall); try done; try lia.
  { subst s1. cbn. rewrite len_app. unfold len in *. rewrite length_drop. lia. }
  { subst seq1. unfold len in *. rewrite length_zip_with. lia. }
  { subst draft. unfold len in *. by rewrite length_fmap. }
  unfold passes in Erest. rewrite Erest. cbn [mbind res_bind fst snd]. exists (draft :: ds), s', (call :: cs).
  split; [done|]. split; [rewrite Hcalls; cbn; by rewrite <- app_assoc|]. split; [cbn; lia|]. split; [cbn; lia|].
  intros [|m] c Hc; cbn in Hc.
  - injection Hc as <-. exists out, latest. split; [done|]. split; [done|]. split; [done|]. split; [done|]. split; [done|].
    intros i p l v Hpi Hli Hvi. pose proof (lookup_lt_Some _ _ _ Hpi). cbn [c_input_ids c_positions c_attn call cm_seq_lens].
    assert (Hi : (i < Z.to_nat n)%nat) by (unfold len in Hpos; lia).
    split; [apply single_row; [done|lia|done]|]. split.
    + rewrite <- (app_nil_r pos1). apply single_row; [done|lia|]. subst pos1. by rewrite list_lookup_fmap, Hpi.
    + subst seq1 pos1. rewrite lookup_zip_with, list_lookup_fmap, Hpi, Hli. cbn. unfold later_len. done.
  - destruct (Hall m c Hc) as (o & prev & Ho & Hm & Hlo & Hprev & Hlp & Hr). exists o, prev. split; [done|]. split; [done|]. split; [done|].
    split; [done|]. split; [done|]. replace (Z.of_nat (Datatypes.S m) + 1) with (Z.of_nat m + 1 + 1) by lia.
    apply reads_next; [lia|done].
Qed.

(** ** The first pass *)
Lemma shift_ok target idx vals buf : 0 < len target <= len buf -> length idx = length vals -> NoDup idx ->
  Forall (fun i => 0 <= i < len target) idx ->
  exists buf', shift_tokens (len target) target vals idx buf = Ok buf' /\ len buf' = len buf /\
    (forall k i v, idx !! k = Some i -> vals !! k = Some v -> at_ buf' i = Some v) /\
    forall i, 0 <= i < len target - 1 -> i ∉ idx -> at_ buf' i = at_ target (i + 1).
Proof.
  intros Hn Hl Hnd Hr. unfold shift_tokens. rewrite Z.eqb_refl. cbn [require mbind res_bind].
  destruct target as [|t target]; [unfold len in Hn; cbn in Hn; lia|]. cbn [tail].
  rewrite len_cons in Hn, Hr |- *. rewrite copy_prefix_ok by lia. cbn [mbind res_bind].
  set (buf1 := target ++ drop (length target) buf).
  assert (Hb : len buf1 = len buf) by (subst buf1; unfold len in *; rewrite length_app, length_drop; lia).
  destruct (put_at_ok idx vals buf1 Hl Hnd) as (buf' & E & L & A & O).
  { eapply Forall_impl; [exact Hr|]. intros i Hi. cbn in Hi. lia. }
  exists buf'. split; [done|]. split; [unfold len in *; lia|]. split; [done|]. intros i Hi Hnin.
  rewrite O by (done || lia). subst buf1. rewrite lookup_app_l by (unfold len in Hi; lia).
  replace (Z.to_nat (i + 1)) with (S (Z.to_nat i)) by lia. done.
Qed.
End passes.
