(* ===== verification/EagleDraftSpec.v ===== *)
(** * The EAGLE drafter: the draft follows what was accepted

    After a step the draft model reads, at every position up to the last token that was kept,
    the token that follows it, the rejected drafts being left behind; every later pass reads
    the token drafted by the pass before it, one position further. *)
From S2P Require Import Prelude KvLayout DPUtils InputStager RunnerInputs FlatRows RunnerInputsSpec EagleDraft EaglePasses.

Lemma removelast_sums s l : l <> [] -> s :: removelast (sums s l) = starts s l.
Proof.
  revert s. induction l as [|x l IH]; intros s Hl; [done|]. cbn [sums starts].
  destruct l as [|y l]; [done|]. rewrite <- (IH (s + x)) by done. done.
Qed.

Lemma sums_less_starts s l : zip_with Z.sub (sums s l) (starts s l) = l.
Proof. revert s. induction l as [|x l IH]; intros s; cbn; [done|]. rewrite IH. f_equal. lia. Qed.

(** Counts from cumulative sums. *)
Lemma count_diff l : l <> [] -> np_zip Z.sub (sums 0 l) (0 :: removelast (sums 0 l)) = Ok l.
Proof.
  intros Hl. rewrite removelast_sums by done. rewrite np_zip_same by (by rewrite length_sums, length_row_starts).
  by rewrite sums_less_starts.
Qed.

Lemma zip_pred a b : zip_with (fun q p => q - 1 - p) a b = (fun q => q - 1) <$> zip_with Z.sub a b.
Proof. revert b. induction a as [|x a IH]; intros [|y b]; cbn; try done. rewrite IH. f_equal. lia. Qed.

Lemma zip_diag {A B} (f : A -> A -> B) l : zip_with f l l = (fun x => f x x) <$> l.
Proof. induction l; cbn; congruence. Qed.

Lemma length_removelast {A} (x : A) l : length (removelast (x :: l)) = length l.
Proof. revert x. induction l as [|y l IH]; intros x; [done|]. cbn [removelast length] in *. by rewrite IH. Qed.

Lemma amax_total l : l <> [] -> exists m, amax l = Ok m.
Proof. destruct l as [|x l]; [done|]. by eexists. Qed.

Lemma amax_elem l m : amax l = Ok m -> m ∈ l.
Proof. destruct l as [|x l]; [done|]. intros [= <-]. apply maxZ_spec. Qed.

Lemma sub_both a b c : zip_with Z.sub (zip_with (fun q x => q - 1 - x) a b) c = zip_with (fun e x => e - 1 - x) (zip_with Z.sub a c) b.
Proof. revert b c. induction a as [|x a IH]; intros [|y b] [|z c]; cbn; try done. rewrite IH. f_equal. lia. Qed.

Section follow.
Context (r : Runner) (b : Batch) (num_tokens : gmap string Z) (use_spec : bool) (xs : list Req) (n_arange : Z)
  (drafts : odict string (list Z)) (Hok : step_ok r b num_tokens use_spec xs n_arange) (D : drafts_ok use_spec xs drafts).
Context (cfg : Config) (sampled : list (list Z)) (requests : gmap string (Z -> Z)).

Let win := window r use_spec.
Let n := len xs.

(** The step has computed all of the request that is there, or not yet. *)
Definition discarded (x : Req) : bool := x_computed x + x_sched x <? x_tokens x.

(** What the rejection sampler answers: every request whose step is complete has a row of
    tokens of the vocabulary, one more than its drafts at most, with placeholders behind them;
    [known] is [get_token_id]. *)
Context (row emitted : Req -> list Z) (known : Req -> Z -> Z).

Record verified : Prop := {
  ve_rows : sampled = row <$> xs;
  ve_some : forall x, x ∈ xs -> row x <> [];
  ve_emitted : forall x, x ∈ xs -> discarded x = false -> emitted x <> [] /\ Forall (valid (vocab_size cfg)) (emitted x) /\
    len (emitted x) <= len (drafted drafts x) + 1 /\ exists k, row x = emitted x ++ replicate k (-1);
  ve_discarded : forall x, x ∈ xs -> discarded x = true -> drafted drafts x = [];
  ve_requests : forall x, x ∈ xs -> requests !! x_id x = Some (known x)
}.

Hypothesis V : verified.

Definition kept_count (x : Req) : Z := if discarded x then 0 else len (emitted x).
Definition rejected (x : Req) : Z :=
  if 0 <? len (drafted drafts x) then len (drafted drafts x) + 1 - kept_count x else 0.

(** The position of the last token kept, its column in the window, and the token behind it. *)
Definition last_kept (x : Req) : Z := x_computed x + x_sched x - 1 - rejected x.
Definition column_of (x : Req) : Z := front r use_spec x + x_sched x - 1 - rejected x.
Definition next_token (x : Req) : Z :=
  if discarded x then known x (x_computed x + x_sched x) else default 0 (last (emitted x)).

Lemma rejected_bounds x : x ∈ xs -> 0 <= rejected x <= len (drafted drafts x).
Proof.
  intros Hx. unfold rejected, kept_count. pose proof (len_nonneg (drafted drafts x)).
  destruct (Z.ltb_spec 0 (len (drafted drafts x))); [|lia]. destruct (discarded x) eqn:Ed.
  - rewrite (ve_discarded V x Hx Ed) in *. unfold len in *. cbn in *. lia.
  - destruct (ve_emitted V x Hx Ed) as (He & _ & Hl & _). destruct (emitted x); [done|]. rewrite len_cons in *.
    pose proof (len_nonneg l). lia.
Qed.

Lemma column_bounds x : x ∈ xs -> 0 <= column_of x < win x.
Proof.
  intros Hx. pose proof (rejected_bounds x Hx). pose proof (do_bound _ _ _ D x Hx).
  destruct (window_facts _ _ _ _ _ _ Hok x Hx) as (F1 & F2 & F3 & F4 & _). unfold column_of, win. lia.
Qed.

(** ** The next tokens *)
Lemma sampled_row x : x ∈ xs -> exists tc, last_valid (vocab_size cfg) (row x) = Ok tc /\
  (discarded x = false -> tc = (next_token x, kept_count x) /\ 0 < kept_count x).
Proof.
  intros Hx. unfold next_token, kept_count. destruct (discarded x) eqn:Ed.
  - destruct (last_valid_total (vocab_size cfg) (row x)) as [tc Htc]; [by apply V|]. by exists tc.
  - destruct (ve_emitted V x Hx Ed) as (He & Hv & _ & k & Hr). destruct (exists_last He) as (e & t & Et). rewrite Hr, Et in *.
    rewrite last_valid_emitted by done. eexists. split; [done|]. intros _. rewrite last_snoc. split; [done|].
    rewrite len_app. pose proof (len_nonneg e). unfold len at 2. cbn. lia.
Qed.

(** The metadata of the step, as far as the drafter reads it. *)
Definition cm_for (cm : CommonAttentionMetadata) : Prop :=
  cm_query_start_loc cm = 0 :: sums 0 (win <$> xs) /\ cm_seq_lens cm = (fun x => x_computed x + x_sched x) <$> xs.

Lemma backups_ok cm : cm_for cm -> mapM (fun i =>
    req ← of_option (py_nth (req_ids b) i) IndexError;
    get_token_id ← of_option (requests !! req) KeyError;
    seq_len ← of_option (py_nth (cm_seq_lens cm) i) IndexError;
    Ok (get_token_id seq_len)) (py_range n) = Ok ((fun x => known x (x_computed x + x_sched x)) <$> xs).
Proof.
  intros [_ ->]. assert (py_range n = x_row <$> xs) as ->.
  { apply list_eq. intros i. unfold py_range. rewrite list_lookup_fmap. destruct (xs !! i) as [x|] eqn:Hi.
    - pose proof (lookup_lt_Some _ _ _ Hi). unfold n, len. rewrite lookup_seqZ_lt by lia. cbn.
      by rewrite (so_rows _ _ _ _ _ _ Hok i x Hi).
    - apply lookup_ge_None in Hi. rewrite lookup_seqZ_ge by (unfold n, len; lia). done. }
  apply mapM_over. intros x Hx. rewrite (so_names _ _ _ _ _ _ Hok).
  rewrite (per_request _ _ _ _ _ _ Hok x_id x Hx). cbn [of_option mbind res_bind]. rewrite (ve_requests V x Hx).
  cbn [of_option mbind res_bind]. by rewrite (per_request _ _ _ _ _ _ Hok (fun x => x_computed x + x_sched x) x Hx).
Qed.
Lemma take_prefix {A} (f : Req -> A) l : f <$> xs `prefix_of` l -> py_take n l = f <$> xs.
Proof. intros [rest ->]. apply take_front. unfold n, len. by rewrite length_fmap. Qed.

Lemma next_tokens_ok {H} cm mask (s : Drafter H) : cm_for cm -> discarded <$> xs `prefix_of` mask ->
  n <= len (backup_next_token_ids s) -> exists backup,
  len backup = len (backup_next_token_ids s) /\ prepare_next_token_ids_padded cfg cm sampled requests b mask s =
    Ok (next_token <$> xs, kept_count <$> xs, set_backup backup s).
Proof.
  intros Hcm Hmask Hb. unfold prepare_next_token_ids_padded. rewrite (so_count _ _ _ _ _ _ Hok). fold n.
  rewrite backups_ok by done. cbn [mbind res_bind]. set (backups := (fun x => known x _) <$> xs).
  assert (Hlb : len backups = n) by (subst backups; unfold n, len; by rewrite length_fmap).
  rewrite store_front by lia. cbn [mbind res_bind]. rewrite (ve_rows V).
  assert (Hres : len (backups ++ drop (length backups) (backup_next_token_ids s)) = len (backup_next_token_ids s)).
  { rewrite len_app. unfold len in *. rewrite length_drop. lia. }
  assert (Hbatch : len (row <$> xs) = n) by (unfold n, len; by rewrite length_fmap). rewrite Hbatch.
  rewrite (take_prefix discarded) by done. rewrite take_front by done. unfold eagle_prepare_next_token_padded.
  set (tc x := match last_valid (vocab_size cfg) (row x) with Ok tc => tc | Raise _ => (0, 0) end).
  rewrite (mapM_over _ row tc); [|intros x Hx; subst tc; cbn; by destruct (sampled_row x Hx) as (t & -> & _)].
  cbn [mbind res_bind]. subst backups. do 4 (rewrite ?np_zip_fmap; cbn [mbind res_bind fst snd]).
  eexists. split; [exact Hres|]. do 3 f_equal.
  - apply list_fmap_ext. intros i x Hx%list_elem_of_lookup_2. destruct (sampled_row x Hx) as (t & Et & Ht). subst tc.
    unfold next_token. cbn. rewrite Et. destruct (discarded x) eqn:Ed; [done|]. destruct (Ht eq_refl) as [-> Hk].
    cbn. unfold next_token. by rewrite Ed, (proj2 (Z.ltb_lt 0 _)).
  - apply list_fmap_ext. intros i x Hx%list_elem_of_lookup_2. destruct (sampled_row x Hx) as (t & Et & Ht). subst tc.
    unfold kept_count. cbn. rewrite Et. destruct (discarded x) eqn:Ed; [done|]. destruct (Ht eq_refl) as [-> Hk].
    cbn. unfold kept_count. by rewrite Ed.
Qed.

(** ** The rows drafted from *)
Let ys := marks r use_spec drafts 0 0 xs.

Definition index_of (y : Z * Z * Req) : Z := y.1.1 + column_of y.2.

Lemma index_token_end y : token_end r use_spec y - 1 - rejected y.2 = index_of y.
Proof. unfold token_end, index_of, column_of. lia. Qed.

Lemma plain_indices : np_zip (fun q p => q - 1 - p) (sums 0 (win <$> xs)) (back r use_spec <$> xs) =
  Ok ((fun y => token_end r use_spec y - 1) <$> ys).
Proof.
  rewrite np_zip_same by (by rewrite length_sums, !length_fmap).
  destruct (marks_ends _ _ _ _ _ _ Hok drafts 0 0 xs) as [E _]; [done|].
  change ((fun y => token_end r use_spec y - 1) <$> ys) with ((fun y => (fun q => q - 1) (token_end r use_spec y)) <$> ys).
  rewrite (list_fmap_compose (token_end r use_spec) (fun q => q - 1)). unfold ys. rewrite <- E. f_equal. apply zip_pred.
Qed.

Lemma index_lookup i x : xs !! i = Some x ->
  (index_of <$> ys) !! i = Some (off win xs i + column_of x).
Proof.
  intros Hi. destruct (mark_lookup r use_spec xs drafts i x Hi) as [s Hs]. unfold ys. by rewrite list_lookup_fmap, Hs.
Qed.
(** With one window length, windows follow each other at its multiples. *)
Context (W : Z) (same_window : forall x, x ∈ xs -> win x = W).

Lemma off_same i : (i <= length xs)%nat -> off win xs i = Z.of_nat i * W.
Proof.
  intros Hi. unfold off. assert (win <$> take i xs = replicate i W) as ->.
  { apply list_eq. intros k. rewrite list_lookup_fmap. destruct (decide (k < i)%nat) as [Hk|Hk].
    - rewrite lookup_take_lt, lookup_replicate_2 by done. destruct (lookup_lt_is_Some_2 xs k) as [x Hx]; [lia|].
      rewrite Hx. cbn. f_equal. apply same_window. by eapply list_elem_of_lookup_2.
    - rewrite !lookup_ge_None_2; [done|by rewrite length_replicate; lia|rewrite length_take; lia]. }
  clear. induction i as [|i IH]; [done|]. cbn [replicate]. rewrite sumZ_cons, IH. lia.
Qed.

Lemma window_pos : 0 < W.
Proof.
  pose proof (so_some _ _ _ _ _ _ Hok) as Hs. destruct (xs !! 0%nat) as [x|] eqn:Hx.
  - apply list_elem_of_lookup_2 in Hx. pose proof (column_bounds x Hx). rewrite (same_window x Hx) in *. lia.
  - apply lookup_ge_None in Hx. by destruct (nil_length_inv xs); [lia|].
Qed.

Lemma total_windows : sumZ (win <$> xs) = n * W.
Proof.
  pose proof (off_same (length xs) (le_n _)) as E. unfold off in E. by rewrite firstn_all in E.
Qed.

(** The rows drafted from: one in every window. *)
Definition indices : list Z := index_of <$> ys.

Lemma indices_lookup i x : xs !! i = Some x -> indices !! i = Some (Z.of_nat i * W + column_of x).
Proof.
  intros Hi. unfold indices. rewrite (index_lookup i x Hi), off_same; [done|]. apply lookup_lt_Some in Hi. lia.
Qed.

Lemma indices_length : length indices = length xs.
Proof. unfold indices, ys. rewrite length_fmap, <- (length_fmap (fun y => y.2)), (marks_reqs _ _ _ (fun x => x)). by rewrite list_fmap_id. Qed.

Lemma indices_elem j : j ∈ indices -> exists i x, xs !! i = Some x /\ j = Z.of_nat i * W + column_of x.
Proof.
  intros [i Hj]%list_elem_of_lookup. pose proof (lookup_lt_Some _ _ _ Hj) as Hi. rewrite indices_length in Hi.
  destruct (lookup_lt_is_Some_2 xs i Hi) as [x Hx]. rewrite (indices_lookup i x Hx) in Hj. injection Hj as <-. by exists i, x.
Qed.

Lemma column_in_window i x : xs !! i = Some x -> 0 <= column_of x < W.
Proof. intros Hx%list_elem_of_lookup_2. rewrite <- (same_window x Hx). by apply column_bounds. Qed.

Lemma index_unique i j x y c : xs !! i = Some x -> xs !! j = Some y -> 0 <= c < W ->
  Z.of_nat i * W + c = Z.of_nat j * W + column_of y -> i = j /\ c = column_of y.
Proof.
  intros Hi Hj Hc E. pose proof (column_in_window j y Hj). destruct (Z.lt_trichotomy (Z.of_nat i) (Z.of_nat j)) as [?|[?|?]]; [nia| |nia].
  split; [lia|]. nia.
Qed.

Lemma indices_NoDup : NoDup indices.
Proof.
  apply NoDup_alt. intros i j k Hi Hj. pose proof (lookup_lt_Some _ _ _ Hi) as Li. pose proof (lookup_lt_Some _ _ _ Hj) as Lj.
  rewrite indices_length in Li, Lj. destruct (lookup_lt_is_Some_2 xs i Li) as [x Hx]. destruct (lookup_lt_is_Some_2 xs j Lj) as [y Hy].
  rewrite (indices_lookup i x Hx) in Hi. rewrite (indices_lookup j y Hy) in Hj. injection Hi as <-. injection Hj as Hj.
  by destruct (index_unique i j x y (column_of x) Hx Hy (column_in_window i x Hx) (eq_sym Hj)).
Qed.

Lemma indices_range : Forall (fun j => 0 <= j < n * W) indices.
Proof.
  apply Forall_forall. intros j (i & x & Hi & ->)%indices_elem. pose proof (column_in_window i x Hi).
  apply lookup_lt_Some in Hi. unfold n, len. nia.
Qed.
(** ** The drafter *)
Context {H : Type} (zero : H) (empty empty_positions : Z -> Z -> list (list Z))
  (empty_hidden : Z -> Z -> Z -> list (list (list H))) (empty_row : Z -> list Z).
Context (empty_shape : forall n q, shaped (Z.to_nat n) (Z.to_nat q) (empty n q) /\ shaped (Z.to_nat n) (Z.to_nat q) (empty_positions n q))
  (empty_hidden_shape : forall n q h, shaped (Z.to_nat n) (Z.to_nat q) (empty_hidden n q h))
  (empty_row_length : forall n, length (empty_row n) = Z.to_nat n).
Context (model : Call H -> res (list (list H) * list Z)) (M : model_ok cfg model).

(** The drafter's buffers are those of [__init__], and the padded batches hold the requests. *)
Record drafter_ok (hidden : list (list H)) (s : Drafter H) : Prop := {
  dr_stager : stager_ok (input_stager s);
  dr_buffers : n * W <= len (d_input_ids s) /\ n <= len (backup_next_token_ids s);
  dr_hidden : n * W <= len hidden /\ forallb (fun row => len row =? hidden_size cfg) hidden = true;
  dr_tokens : is_prefill r = true -> W <= drafter_max_num_tokens cfg;
  dr_first : exists d a, _determine_batch_execution_and_padding cfg n (n * W) (is_prefill r) true = Ok (d, a) /\
    n <= DPUtils.num_reqs_padded d;
  dr_later : exists d a, _determine_batch_execution_and_padding cfg n n false false = Ok (d, a) /\ n <= DPUtils.num_reqs_padded d;
  dr_drafts : 1 <= num_speculative_tokens cfg
}.

Let preprocess := _preprocess zero empty empty_positions empty_hidden empty_row cfg.

(** What the first pass reads of request [x] of row [i]. *)
Definition reads_window (c : Call H) (i : nat) (x : Req) : Prop :=
  (exists t, c_token_indices c = Some t /\ t !! i = Some (Z.of_nat i * W + column_of x)) /\
  cm_seq_lens (c_attn c) !! i = Some (x_computed x + x_sched x) /\
  forall j, 0 <= j <= column_of x ->
    let p := x_computed x - front r use_spec x + j in
    cell (c_positions c) i j = Some p /\
    cell (c_input_ids c) i j = if p =? last_kept x then Some (next_token x) else at_ (x_ids x) (p + 1).

(** And a later pass, the [k]-th, of the token [v] drafted before it. *)
Definition reads_token (c : Call H) (i : nat) (x : Req) (v k : Z) : Prop :=
  c_input_ids c !! i = Some [v] /\ c_positions c !! i = Some [last_kept x + k] /\
  cm_seq_lens (c_attn c) !! i = Some (later_len cfg (last_kept x + 1) (last_kept x) k).

Section after.
Context (r' : Runner) (St : staged r use_spec xs r').

Lemma windows_nonneg' : nonneg win xs.
Proof. apply (windows_nonneg _ _ _ _ _ _ Hok). Qed.

Lemma take_rows_prefix (f : Req -> Z -> Z) l : rows win f xs `prefix_of` l -> py_take (n * W) l = rows win f xs.
Proof. intros [rest ->]. apply take_front. rewrite rows_len by apply windows_nonneg'. apply total_windows. Qed.

Lemma row_cell {A} (f : Req -> Z -> A) i x j : xs !! i = Some x -> 0 <= j < W ->
  at_ (rows win f xs) (Z.of_nat i * W + j) = Some (f x j).
Proof.
  intros Hi Hj. rewrite <- (off_same i) by (apply lookup_lt_Some in Hi; lia).
  apply rows_at; [apply windows_nonneg'|done|]. rewrite (same_window x); [done|by eapply list_elem_of_lookup_2].
Qed.

(** The token in the next column is the one at the next position. *)
Lemma next_column x j : x ∈ xs -> 0 <= j -> j < column_of x ->
  Some (token_at x (lookup_at r use_spec x (j + 1))) = at_ (x_ids x) (x_computed x - front r use_spec x + j + 1).
Proof.
  intros Hx Hj Hc. pose proof (rejected_bounds x Hx). pose proof (column_bounds x Hx).
  destruct (window_facts _ _ _ _ _ _ Hok x Hx) as (F1 & F2 & F3 & F4 & F5 & F6). unfold column_of in *.
  assert (lookup_at r use_spec x (j + 1) = x_computed x - front r use_spec x + j + 1) as ->.
  { unfold lookup_at. destruct (window_fixed r use_spec); lia. }
  apply (token_at_row _ _ _ _ _ _ Hok x _ Hx). pose proof (so_model _ _ _ _ _ _ Hok).
  destruct (so_bounds _ _ _ _ _ _ Hok x Hx). unfold win in *. lia.
Qed.
Lemma column_last x j : x_computed x - front r use_spec x + j = last_kept x <-> j = column_of x.
Proof. unfold last_kept, column_of. lia. Qed.

(** The target's tokens after the shift. *)
Lemma shifted_cell (buf : list Z) i x j :
  (forall k c v, indices !! k = Some c -> (next_token <$> xs) !! k = Some v -> at_ buf c = Some v) ->
  (forall c, 0 <= c < n * W - 1 -> c ∉ indices -> at_ buf c = at_ (id_rows r use_spec xs) (c + 1)) ->
  xs !! i = Some x -> 0 <= j <= column_of x ->
  at_ buf (Z.of_nat i * W + j) = if x_computed x - front r use_spec x + j =? last_kept x then Some (next_token x)
                                 else at_ (x_ids x) (x_computed x - front r use_spec x + j + 1).
Proof.
  intros Hat Hother Hi Hj. pose proof (column_in_window i x Hi). pose proof (lookup_lt_Some _ _ _ Hi) as Hlt.
  pose proof (list_elem_of_lookup_2 _ _ _ Hi) as Hx. pose proof (column_last x j) as Hlast.
  destruct (Z.eqb_spec (x_computed x - front r use_spec x + j) (last_kept x)) as [E|E].
  - apply Hlast in E as ->. apply (Hat i); [by apply indices_lookup|]. by rewrite list_lookup_fmap, Hi.
  - assert (j < column_of x) by (destruct (Z.eq_dec j (column_of x)); [tauto|lia]). rewrite <- next_column by (done || lia).
    rewrite Hother.
    + rewrite <- Z.add_assoc. unfold id_rows. apply (row_cell (fun x j => token_at x (lookup_at r use_spec x j)) i x (j + 1)); [done|lia].
    + unfold n, len. nia.
    + intros (k & y & Hk & Heq)%indices_elem. assert (Hcw : 0 <= j < W) by lia.
      destruct (index_unique i k x y j Hi Hk Hcw Heq) as [<- Hc].
      rewrite Hi in Hk. injection Hk as <-. lia.
Qed.

(** The buffers of the first pass. *)
Lemma first_pass_ok hidden n_padded s : drafter_ok hidden s -> n <= n_padded ->
  exists ids pos h t s1, preprocess n n_padded (n * W) (pos_rows r use_spec xs) hidden (is_prefill r) (Some indices)
    (Some (id_rows r use_spec xs, next_token <$> xs)) s = Ok (ids, pos, h, t, s1) /\
  calls s1 = calls s /\ stager_ok (input_stager s1) /\ n <= len (d_input_ids s1) /\ n <= len ids /\
  forall i x, xs !! i = Some x -> (exists u, t = Some u /\ u !! i = Some (Z.of_nat i * W + column_of x)) /\
    forall j, 0 <= j <= column_of x -> cell pos i j = Some (x_computed x - front r use_spec x + j) /\
      cell ids i j = if x_computed x - front r use_spec x + j =? last_kept x then Some (next_token x)
                     else at_ (x_ids x) (x_computed x - front r use_spec x + j + 1).
Proof.
  intros Dr Hn. pose proof window_pos as HW. pose proof (xs_pos _ _ _ _ _ _ Hok) as Hpos. fold n in Hpos.
  assert (Hlen : forall f : Req -> Z -> Z, len (rows win f xs) = n * W).
  { intros f. rewrite rows_len by apply windows_nonneg'. apply total_windows. }
  destruct (dr_buffers _ _ Dr) as [Hb _]. destruct (shift_ok (id_rows r use_spec xs) indices (next_token <$> xs) (d_input_ids s))
    as (buf & E & Hlb & Hat & Hother).
  { unfold id_rows. rewrite Hlen. nia. } { by rewrite indices_length, length_fmap. } { apply indices_NoDup. }
  { unfold id_rows. rewrite Hlen. apply indices_range. }
  unfold id_rows at 1 in E. rewrite Hlen in E.
  destruct (preprocess_ok zero empty empty_positions empty_hidden empty_row empty_shape empty_hidden_shape empty_row_length cfg
    n n_padded W (pos_rows r use_spec xs) hidden (is_prefill r) (Some indices) (Some (id_rows r use_spec xs, next_token <$> xs)) s buf)
    as (ids & pos & h & t & s1 & Ep & (st & -> & Hst) & (np & qp & Hnp & _ & Hids & -> & ->) & Ht); try done.
  { apply Dr. } { lia. } { unfold pos_rows. by rewrite Hlen. } { apply Dr. }
  { intros l [= <-]. unfold n, len. by rewrite indices_length. } { apply Dr. }
  eexists _, _, h, t, _. split; [exact Ep|]. split; [done|]. split; [done|]. split; [cbn; nia|]. split; [lia|].
  intros i x Hi. pose proof (lookup_lt_Some _ _ _ Hi) as Hlt. pose proof (list_elem_of_lookup_2 _ _ _ Hi) as Hx.
  assert (Hin : (i < Z.to_nat n)%nat) by (unfold n, len; lia). split.
  { destruct (Ht _ eq_refl) as [k ->]. eexists. split; [done|]. apply lookup_app_l_Some. by apply indices_lookup. }
  intros j Hj. pose proof (column_in_window i x Hi). split.
  - apply padded_cell; [lia|]. rewrite cuts_cell by (done || lia). apply (row_cell (fun x j => x_computed x - front r use_spec x + j)); [done|lia].
  - assert (Hc : 0 <= j < W) by lia. pose proof (shifted_cell buf i x j Hat) as Hcell.
    unfold id_rows at 1 in Hother. rewrite Hlen in Hother. specialize (Hcell Hother Hi Hj).
    destruct (at_some buf (Z.of_nat i * W + j)) as [v Hv]; [unfold n, len in *; nia|]. rewrite Hv in Hcell. rewrite <- Hcell.
    apply padded_cell; [lia|]. by rewrite cuts_cell by done.
Qed.
Lemma drafted_positions : np_take (pos_rows r use_spec xs) indices = Ok (last_kept <$> xs).
Proof.
  rewrite <- (marks_reqs r use_spec drafts last_kept 0 0 xs). fold ys. unfold indices. apply mapM_over.
  intros y Hy. destruct (mark_elem _ _ _ _ y Hy) as (i & Hi & Ho). pose proof (lookup_lt_Some _ _ _ Hi).
  pose proof (column_in_window i y.2 Hi). unfold index_of. rewrite Ho.
  change (off (window r use_spec) xs i) with (off win xs i). rewrite off_same by lia.
  rewrite py_nth_at by (pose proof window_pos; nia).
  assert (at_ (pos_rows r use_spec xs) (Z.of_nat i * W + column_of y.2) = Some (last_kept y.2)) as ->; [|done].
  etrans; [apply (row_cell (fun x j => x_computed x - front r use_spec x + j)); [done|lia]|]. f_equal. by apply column_last.
Qed.

(** The length of every sequence, without what was rejected. *)
Lemma kept_lens cm rej : cm_for cm -> 1 < num_speculative_tokens cfg ->
  (rej = Some (rejected <$> xs) \/ rej = None /\ forall x, x ∈ xs -> rejected x = 0) ->
  match rej with
  | Some rejected => if 1 <? num_speculative_tokens cfg then np_zip Z.sub (cm_seq_lens cm) rejected else Ok (cm_seq_lens cm)
  | None => Ok (cm_seq_lens cm)
  end = Ok ((fun x => last_kept x + 1) <$> xs).
Proof.
  intros [_ ->] Hn [->|[-> Hr]].
  - rewrite (proj2 (Z.ltb_lt 1 _)) by done. rewrite np_zip_fmap. f_equal. apply list_fmap_ext. intros i x _. unfold last_kept. lia.
  - f_equal. apply list_fmap_ext. intros i x Hx%list_elem_of_lookup_2. unfold last_kept. rewrite (Hr x Hx). lia.
Qed.

(** The calls [cs] of the model give the drafts [out]: what each of them reads, and that its
    ids are a column of [out]. *)
Definition follows (cs : list (Call H)) (out : list (list Z)) : Prop :=
  forall k c, cs !! k = Some c -> exists o, model c = Ok o /\ forall i x, xs !! i = Some x ->
    exists rw d, out !! i = Some rw /\ o.2 !! i = Some d /\ rw !! k = Some (target_id cfg d) /\
      match k with
      | O => reads_window c i x
      | S k' => exists v, rw !! k' = Some v /\ reads_token c i x v (Z.of_nat k)
      end.

Lemma draft_column (o : list (list H) * list Z) i x : len (py_take n o.2) = n -> xs !! i = Some x ->
  exists d, o.2 !! i = Some d /\ (target_id cfg <$> py_take n o.2) !! i = Some (target_id cfg d).
Proof.
  intros Hl Hi. apply lookup_lt_Some in Hi. unfold py_take, len in *.
  destruct (lookup_lt_is_Some_2 o.2 i) as [d Hd]; [rewrite length_take in Hl; lia|]. exists d. split; [done|].
  by rewrite list_lookup_fmap, lookup_take_lt, Hd by lia.
Qed.

(** The later calls follow the first one. *)
Lemma follows_rest c cs o ds out : model c = Ok o -> len (py_take n o.2) = n ->
  (forall i x, xs !! i = Some x -> reads_window c i x) ->
  (forall k col i v, ((target_id cfg <$> py_take n o.2) :: ds) !! k = Some col -> col !! i = Some v ->
     exists rw, out !! i = Some rw /\ rw !! k = Some v) ->
  (forall m c, cs !! m = Some c -> exists o' prev, model c = Ok o' /\
     ds !! m = Some (target_id cfg <$> py_take n o'.2) /\ len (py_take n o'.2) = n /\
     ((target_id cfg <$> py_take n o.2) :: ds) !! m = Some prev /\ len prev = n /\
     reads cfg c (last_kept <$> xs) ((fun x => last_kept x + 1) <$> xs) prev (Z.of_nat m + 1)) ->
  follows (c :: cs) out.
Proof.
  intros Hc Hl Hfirst Hrows Hrest [|m] c' Hc'; cbn in Hc'.
  - injection Hc' as <-. exists o. split; [done|]. intros i x Hi. destruct (draft_column o i x Hl Hi) as (d & Hd & Ht).
    destruct (Hrows 0%nat _ i _ eq_refl Ht) as (rw & Hrw & H0). exists rw, d. auto.
  - destruct (Hrest m c' Hc') as (o' & prev & Ho & Hds & Hl' & Hprev & Hlp & Hreads). exists o'. split; [done|].
    intros i x Hi. destruct (draft_column o' i x Hl' Hi) as (d & Hd & Ht).
    destruct (Hrows (S m) _ i _ Hds Ht) as (rw & Hrw & Hm). exists rw, d. split; [done|]. split; [done|]. split; [done|].
    pose proof (lookup_lt_Some _ _ _ Hi). destruct (lookup_lt_is_Some_2 prev i) as [v Hv]; [unfold n, len in Hlp; lia|].
    destruct (Hrows m _ i _ Hprev Hv) as (rw' & Hrw' & Hv'). rewrite Hrw in Hrw'. injection Hrw' as <-. exists v.
    split; [done|]. replace (Z.of_nat (S m)) with (Z.of_nat m + 1) by lia. apply (Hreads i); [..|done]; by rewrite list_lookup_fmap, Hi.
Qed.
Let propose' := propose zero empty empty_positions empty_hidden empty_row model.

(** The passes after the first, and the drafts of all of them. *)
Lemma rest_ok hidden cm o c s d0 a : drafter_ok hidden s -> model c = Ok o -> len (py_take n o.2) = n -> n <= len o.1 ->
  stager_ok (input_stager d0) -> n <= len (d_input_ids d0) -> (forall i x, xs !! i = Some x -> reads_window c i x) ->
  forall n_padded, n <= n_padded -> exists out s' cs ds,
  draft_passes zero empty empty_positions empty_hidden empty_row model (Z.to_nat (num_speculative_tokens cfg - 1)) cfg n n_padded a
    ((fun x => last_kept x + 1) <$> xs) (last_kept <$> xs) (cm_max_seq_len cm) o.1 (target_id cfg <$> py_take n o.2) d0 = Ok (ds, s') /\
  stack_columns n ((target_id cfg <$> py_take n o.2) :: ds) = Ok out /\ len out = n /\
  calls s' = calls d0 ++ cs /\ len (c :: cs) = num_speculative_tokens cfg /\ follows (c :: cs) out.
Proof.
  intros Dr Hc Hl Ho Hst Hb Hfirst n_padded Hp. pose proof (dr_drafts _ _ Dr).
  pose proof (xs_pos _ _ _ _ _ _ Hok) as Hpos. fold n in Hpos. assert (Hld : len (target_id cfg <$> py_take n o.2) = n) by (unfold len in *; by rewrite length_fmap).
  destruct (passes_ok zero empty empty_positions empty_hidden empty_row empty_shape empty_hidden_shape empty_row_length cfg model
    n n_padded a (cm_max_seq_len cm) (Z.to_nat (num_speculative_tokens cfg - 1)) ((fun x => last_kept x + 1) <$> xs)
    (last_kept <$> xs) o.1 (target_id cfg <$> py_take n o.2) d0) as (ds & s' & cs & E & Hcalls & Hcs & Hds & Hall); try done.
  { unfold n, len. by rewrite length_fmap. } { unfold n, len. by rewrite length_fmap. }
  destruct (stack_columns_ok n ((target_id cfg <$> py_take n o.2) :: ds)) as (out & Hs & Hlo & Hrows); [lia| |].
  { apply Forall_cons. split; [done|]. apply Forall_forall. intros col [m Hm]%list_elem_of_lookup.
    destruct (lookup_lt_is_Some_2 cs m) as [c' Hc']; [apply lookup_lt_Some in Hm; lia|].
    destruct (Hall m c' Hc') as (o' & _ & _ & Hm' & Hlo' & _). rewrite Hm in Hm'. injection Hm' as ->. unfold len in *. by rewrite length_fmap. }
  exists out, s', cs, ds. split; [done|]. split; [done|]. split; [done|]. split; [done|]. split; [rewrite len_cons; unfold len; lia|].
  by apply (follows_rest c cs o ds).
Qed.
Lemma single_follows c o : model c = Ok o -> len (py_take n o.2) = n -> (forall i x, xs !! i = Some x -> reads_window c i x) ->
  len ((fun t => [t]) <$> (target_id cfg <$> py_take n o.2)) = n /\
  follows [c] ((fun t => [t]) <$> (target_id cfg <$> py_take n o.2)).
Proof.
  intros Hc Hl Hfirst. split; [unfold len in *; by rewrite !length_fmap|].
  apply (follows_rest c [] o [] _ Hc Hl Hfirst); [|by intros []].
  intros [|[]] col i v Hcol Hi; try done. cbn in Hcol. injection Hcol as <-. exists [v]. split; [|done].
  by rewrite list_lookup_fmap, Hi.
Qed.

Lemma propose_ok hidden cm rej s : drafter_ok hidden s -> cm_for cm ->
  (rej = Some (rejected <$> xs) \/ rej = None /\ forall x, x ∈ xs -> rejected x = 0) ->
  exists out s' cs, propose' cfg r' b (id_rows r use_spec xs) (pos_rows r use_spec xs) hidden (next_token <$> xs) indices cm rej s
    = Ok (out, s') /\
  len out = n /\ calls s' = calls s ++ cs /\ len cs = num_speculative_tokens cfg /\ follows cs out.
Proof.
  intros Dr Hcm Hrej. destruct (dr_hidden _ _ Dr) as [_ Hh]. destruct (dr_first _ _ Dr) as (d & a & Ed & Hd).
  destruct (dr_later _ _ Dr) as (d' & a' & Ed' & Hd').
  assert (Hlen : len (id_rows r use_spec xs) = n * W).
  { unfold id_rows. rewrite rows_len by apply windows_nonneg'. apply total_windows. }
  destruct (first_pass_ok hidden (DPUtils.num_reqs_padded d) s Dr Hd) as (ids & pos & h & t & s1 & Ep & Hcalls & Hst & Hb & Hids & Hcells).
  unfold propose', propose. rewrite Hh. cbn [require mbind res_bind]. rewrite Hlen, (so_count _ _ _ _ _ _ Hok), (st_prefill _ _ _ _ St). fold n.
  rewrite Ed. cbn [mbind res_bind fst snd]. unfold preprocess in Ep. rewrite Ep. cbn [mbind res_bind].
  match goal with |- context [model ?x] => set (c := x) end.
  destruct (M c) as (o & Ho & O1 & O2 & O3). rewrite Ho. cbn [mbind res_bind].
  assert (Hl : len (py_take n o.2) = n) by (cbn in O2; unfold py_take, len in *; rewrite length_take; lia).
  assert (Hfirst : forall i x, xs !! i = Some x -> reads_window c i x).
  { intros i x Hi. destruct (Hcells i x Hi) as [Ht Hj]. split; [done|]. split; [|done].
    cbn. destruct Hcm as [_ ->]. by rewrite list_lookup_fmap, Hi. }
  rewrite to_target_ok by (by apply Forall_take). cbn [mbind res_bind].
  destruct (Z.eqb_spec (num_speculative_tokens cfg) 1) as [H1|H1].
  - destruct (single_follows c o Ho Hl Hfirst) as [Hout Hf]. eexists _, _, [c]. split; [done|]. split; [done|].
    split; [cbn; by rewrite Hcalls|]. split; [by rewrite H1|done].
  - pose proof (dr_drafts _ _ Dr). rewrite drafted_positions. cbn [mbind res_bind]. rewrite kept_lens by (done || lia).
    cbn [mbind res_bind]. rewrite Ed'. cbn [mbind res_bind fst snd].
    destruct (rest_ok hidden cm o c s (log_call c s1) a' Dr Ho Hl) with (n_padded := DPUtils.num_reqs_padded d')
      as (out & s' & cs & ds & -> & Hs & Hout & Hcs & Hk & Hf); try done; [cbn in O1; lia|].
    cbn [mbind res_bind fst snd]. assert (len (target_id cfg <$> py_take n o.2) = n) as -> by (unfold len in *; by rewrite length_fmap).
    rewrite Hs. cbn [mbind res_bind]. exists out, s', (c :: cs). split; [done|]. split; [done|].
    split; [rewrite Hcs; cbn; rewrite Hcalls; by rewrite <- app_assoc|]. done.
Qed.
(** ** The runner *)
Lemma fields_some {A} (f : Req -> A) : f <$> xs <> [].
Proof. intros E. apply (so_some _ _ _ _ _ _ Hok). by destruct xs. Qed.

Lemma fields_len {A} (f : Req -> A) : len (f <$> xs) = n.
Proof. unfold n, len. by rewrite length_fmap. Qed.

Lemma metadata_ok num_tokens' max_query_len : exists cm, attention_metadata r' n num_tokens' max_query_len = Ok cm /\ cm_for cm /\
  exists x, x ∈ xs /\ cm_max_seq_len cm = x_computed x + x_sched x.
Proof.
  destruct (st_starts _ _ _ _ St) as [k Hk]. destruct (st_lens _ _ _ _ St) as [k' Hk'].
  unfold attention_metadata. rewrite Hk, Hk', take_front by apply fields_len.
  destruct (amax_total _ (fields_some (fun x => x_computed x + x_sched x))) as [m Hm]. rewrite Hm. cbn [mbind res_bind].
  apply amax_elem, list_elem_of_fmap in Hm as (x & -> & Hx).
  eexists. split; [done|]. split; [|by exists x]. split; [|done]. cbn [cm_query_start_loc]. change (window r use_spec) with win.
  apply (take_front (n + 1) (0 :: sums 0 (win <$> xs))). rewrite len_cons. unfold len at 1. rewrite length_sums.
  pose proof (fields_len win). unfold len in *. lia.
Qed.

Lemma last_start : last (0 :: sums 0 (win <$> xs)) = Some (n * W).
Proof.
  pose proof (sums_last _ (fields_some win)) as E. rewrite total_windows in E. rewrite <- E. pose proof (fields_some win).
  by destruct (win <$> xs).
Qed.

Lemma draft_indices : np_zip Z.sub (zip_with (fun q x => q - 1 - x) (sums 0 (win <$> xs)) (rejected <$> xs)) (back r use_spec <$> xs)
  = Ok indices.
Proof.
  rewrite np_zip_same by (rewrite length_zip_with, length_sums, !length_fmap; lia). rewrite sub_both.
  destruct (marks_ends _ _ _ _ _ _ Hok drafts 0 0 xs) as [E _]; [done|]. unfold win. rewrite E.
  rewrite <- (marks_reqs r use_spec drafts rejected 0 0 xs). fold ys. f_equal. unfold indices.
  rewrite zip_with_fmap_l, zip_with_fmap_r, zip_diag. apply list_fmap_ext. intros i y _. apply index_token_end.
Qed.

Lemma padded_inputs_ok cm : cm_for cm -> drafts <> [] -> exists cm' idx,
  prepare_inputs_padded cm (metadata r use_spec xs drafts) (kept_count <$> xs) = Ok (cm', idx, rejected <$> xs) /\
  cm_for cm' /\ cm_num_actual_tokens cm' = n * W /\ np_zip Z.sub idx (back r use_spec <$> xs) = Ok indices.
Proof.
  intros [Hq Hs] Hd. unfold prepare_inputs_padded, eagle_prepare_inputs_padded. rewrite Hq, Hs.
  change (cu_num_draft_tokens (metadata r use_spec xs drafts)) with (sums 0 ((fun y => len (drafted drafts y.2)) <$> ys)).
  unfold ys. rewrite (marks_reqs r use_spec drafts (fun x => len (drafted drafts x))). rewrite count_diff by apply fields_some.
  cbn [mbind res_bind]. rewrite np_zip_fmap. cbn [mbind res_bind tail].
  change (fun x => if 0 <? len (drafted drafts x) then len (drafted drafts x) + 1 - kept_count x else 0) with rejected.
  rewrite (np_zip_same (fun q x => q - 1 - x)) by (by rewrite length_sums, !length_fmap). cbn [mbind res_bind fst snd].
  rewrite np_zip_same by (by rewrite length_removelast). cbn [mbind res_bind]. rewrite last_start. cbn [of_option mbind res_bind].
  destruct (amax_total (zip_with Z.sub (sums 0 (win <$> xs)) (removelast (0 :: sums 0 (win <$> xs))))) as [mq ->].
  { intros E%(f_equal length). rewrite length_zip_with, length_removelast, length_sums, length_fmap in E.
    pose proof (xs_pos _ _ _ _ _ _ Hok). unfold len in *. cbn in E. lia. }
  destruct (amax_total _ (fields_some (fun x => x_computed x + x_sched x))) as [m ->]. cbn [mbind res_bind].
  eexists _, _. split; [done|]. split; [done|]. split; [done|]. apply draft_indices.
Qed.

Lemma staged_tokens : py_take (n * W) (input_ids r') = id_rows r use_spec xs /\ py_take (n * W) (positions r') = pos_rows r use_spec xs.
Proof. split; apply take_rows_prefix; apply St. Qed.

Lemma no_drafts_kept : drafts = [] -> forall x, x ∈ xs -> rejected x = 0.
Proof. intros E x _. unfold rejected, drafted. by rewrite E. Qed.
(** Without drafts the rows come straight from the query starts. *)
Lemma plain_rows cm : cm_for cm -> drafts = [] ->
  py_nth (cm_query_start_loc cm) n = Some (n * W) /\
  np_zip (fun q p => q - 1 - p) (py_slice (cm_query_start_loc cm) 1 (n + 1)) (back r use_spec <$> xs) = Ok indices.
Proof.
  intros [-> _] Hd. pose proof (xs_pos _ _ _ _ _ _ Hok) as Hpos. fold n in Hpos.
  assert (Hl : length (sums 0 (win <$> xs)) = Z.to_nat n) by (rewrite length_sums, length_fmap; unfold n, len; lia). split.
  - rewrite py_nth_at by lia. rewrite <- last_start, last_lookup. cbn [length]. f_equal. cbn. by rewrite Hl.
  - assert (py_slice (0 :: sums 0 (win <$> xs)) 1 (n + 1) = sums 0 (win <$> xs)) as ->.
    { unfold py_slice. change (Z.to_nat 1) with 1%nat. cbn [drop]. rewrite drop_0. apply firstn_all2. lia. }
    rewrite plain_indices. f_equal. unfold indices. apply list_fmap_ext. intros i y Hy%list_elem_of_lookup_2.
    destruct (mark_elem _ _ _ _ y Hy) as (k & Hk%list_elem_of_lookup_2 & _). rewrite <- index_token_end, (no_drafts_kept Hd) by done. lia.
Qed.

Lemma backup_ok hidden s backup : drafter_ok hidden s -> len backup = len (backup_next_token_ids s) -> drafter_ok hidden (set_backup backup s).
Proof. intros [] Hb. split; cbn; try done. by rewrite Hb. Qed.
End after.

(** C17: Drafting follows what was accepted.  The first pass of the draft model reads, in the
    window of every request, up to the last token kept, at each position the token that
    follows it -- the next token behind the last -- and answers from that row; every later
    pass reads the id drafted by the pass before it, one position and one token further. *)
Theorem draft_follows_accepted total hidden s max_query_len : 0 < total -> drafter_ok hidden s ->
  (forall x, x ∈ xs -> x_computed x + x_sched x + num_spec_tokens r <= effective_drafter_max_model_len cfg) ->
  exists r' inp cm out s' cs,
  _prepare_inputs r b num_tokens total drafts (x_sched <$> xs) = Ok (r', inp) /\
  attention_metadata r' n (total_query_tokens inp) max_query_len = Ok cm /\
  draft_step zero empty empty_positions empty_hidden empty_row model cfg r' b requests sampled hidden
    (spec_decode_metadata inp) cm s = Ok (out, s') /\
  len out = n /\ calls s' = calls s ++ cs /\ len cs = num_speculative_tokens cfg /\ follows cs out.
Proof.
  intros Ht Dr Hfit. destruct (prepare_ok _ _ _ _ _ _ Hok drafts total Ht D) as (r' & inp & Hp & St & _ & Htot & Hnone & Hsome).
  destruct (metadata_ok r' St (total_query_tokens inp) max_query_len) as (cm & Hmeta & Hcm & x & Hx & Hmax).
  destruct (dr_buffers _ _ Dr) as [_ Hb]. destruct (next_tokens_ok cm (discard_request_mask r') s Hcm (st_mask _ _ _ _ St) Hb) as (backup & Hlb & Hnext).
  pose proof (backup_ok _ _ _ Dr Hlb) as Dr'. destruct (st_back _ _ _ _ St) as [k Hback]. destruct (staged_tokens r' St) as [Hids Hposs].
  assert (Hbp : py_take n (decode_back_pad r') = back r use_spec <$> xs) by (rewrite Hback; apply take_front, fields_len).
  exists r', inp, cm. unfold draft_step. rewrite Hmax, (st_spec _ _ _ _ St), (proj2 (Z.leb_le _ _) (Hfit x Hx)).
  unfold propose_draft_token_ids. rewrite Hnext. cbn [mbind res_bind]. rewrite (so_count _ _ _ _ _ _ Hok). fold n. rewrite Hbp.
  destruct (decide (drafts = [])) as [Hd|Hd].
  - destruct (Hnone Hd) as [-> _]. destruct (plain_rows r' St cm Hcm Hd) as [-> ->]. cbn [of_option mbind res_bind]. rewrite Hids, Hposs.
    destruct (propose_ok r' St hidden cm None _ Dr' Hcm) as (out & s' & cs & E & Hout & Hcalls & Hcs & Hf).
    { right. split; [done|]. by apply no_drafts_kept. }
    by exists out, s', cs.
  - destruct (Hsome Hd) as [-> _]. destruct (padded_inputs_ok r' St cm Hcm Hd) as (cm' & idx & -> & Hcm' & Hn & Hidx).
    cbn [mbind res_bind]. rewrite Hidx. cbn [mbind res_bind]. rewrite Hn, Hids, Hposs.
    destruct (propose_ok r' St hidden cm' (Some (rejected <$> xs)) _ Dr' Hcm') as (out & s' & cs & E & Hout & Hcalls & Hcs & Hf); [by left|].
    by exists out, s', cs.
Qed.
End follow.

(** ** Two requests on one rank

    Request [a] drafted one token, which was accepted; [z] drafted none, and its window starts
    one token early. *)
Module EagleToy.
Import RunnerToy.

Definition shapes : ShapeConfig :=
  {| cfg_buckets := [4]; find_bucket := fun n => if n <=? 4 then Ok 4 else Raise ValueError; max_num_tokens := 16;
     specialized_moe_decode := false |}.

Definition cfg : Config :=
  {| num_speculative_tokens := 2; drafter_max_model_len := 8; effective_drafter_max_model_len := 16;
     drafter_max_num_tokens := 12; hidden_size := 1; vocab_size := 100; draft_id_to_target_id := Some [40; 41; 42; 43];
     draft_has_moe := false; shape_config := shapes; data_parallel_size := 1; dp_status := None; dp_rank := 0 |}.

Definition model (c : Call Z) : res (list (list Z) * list Z) :=
  Ok ((fun _ => [7]) <$> c_input_ids c, (fun row => sumZ row mod 4) <$> c_input_ids c).

Definition drafter : Drafter Z :=
  {| d_input_ids := replicate 12 88; backup_next_token_ids := replicate 4 88;
     input_stager := {| _buffers := ∅; _hidden_state_buffers := ∅; _token_indices_buffers := ∅ |}; calls := [] |}.

Definition row (x : Req) : list Z := if decide (x_id x = "a"%string) then [14; 50; -1] else [60; -1; -1].
Definition emitted (x : Req) : list Z := if decide (x_id x = "a"%string) then [14; 50] else [60].
Definition known (x : Req) (i : Z) : Z := -1.
Definition requests : gmap string (Z -> Z) := <["a"%string := known a]> (<["z"%string := known z]> ∅).
Definition hidden : list (list Z) := replicate 6 [9].

Lemma model_answers : model_ok cfg model.
Proof.
  intros c. eexists. split; [done|]. cbn [fst snd]. unfold len. rewrite !length_fmap. split; [lia|]. split; [lia|].
  apply Forall_fmap, Forall_forall. intros x _. unfold known_id. cbn. change (len [40; 41; 42; 43]) with 4.
  apply Z.mod_pos_bound. lia.
Qed.

Lemma both x : x ∈ [a; z] -> x = a \/ x = z.
Proof. rewrite !elem_of_cons. intros [->|[->|Hx]]; [auto..|]. by apply not_elem_of_nil in Hx. Qed.

Lemma verified_toy : verified [a; z] drafts cfg [row a; row z] requests row emitted known.
Proof.
  split; [done|..].
  - intros x [->| ->]%both; done.
  - intros x [->| ->]%both _; (split; [done|]; split; [by repeat constructor|]; split; [by vm_compute|]).
    + by exists 1%nat.
    + by exists 2%nat.
  - intros x [->| ->]%both; done.
  - intros x [->| ->]%both; done.
Qed.

Lemma drafter_toy : drafter_ok runner [a; z] cfg 3 hidden drafter.
Proof.
  split; try done.
  - eexists _, _. split; [vm_compute; reflexivity|done].
  - eexists _, _. split; [vm_compute; reflexivity|done].
Qed.

(** The drafts, and what the two passes read and from which rows the first one drafts. *)
Example drafted_toy :
  match p ← _prepare_inputs runner batch num_tokens 3 drafts [2; 1];
        cm ← attention_metadata p.1 2 6 3;
        draft_step 0 StagerToy.noise StagerToy.noise (fun n q h => replicate (Z.to_nat n) (replicate (Z.to_nat q) []))
          (fun n => replicate (Z.to_nat n) 99) model cfg p.1 batch requests [row a; row z] hidden (spec_decode_metadata p.2) cm drafter with
  | Ok (out, s) => (out, (fun c => (c_input_ids c, c_positions c, c_token_indices c, cm_seq_lens (c_attn c))) <$> calls s)
  | Raise _ => ([], [])
  end = ([[42; 44]; [44; 40]],
         [([[14; 50; 25]; [26; 60; 88]; [0; 0; 0]; [0; 0; 0]], [[3; 4; 5]; [5; 6; 7]; [0; 0; 0]; [0; 0; 0]],
           Some [1; 4; 0; 0], [5; 7]);
          ([[42]; [44]; [0]; [0]], [[5]; [7]; [0]; [0]], None, [6; 8])]).
Proof. vm_compute. reflexivity. Qed.

Lemma draft_follows_accepted_witness : exists r' inp cm out s' cs,
  _prepare_inputs runner batch num_tokens 3 drafts [2; 1] = Ok (r', inp) /\
  attention_metadata r' 2 6 3 = Ok cm /\
  draft_step 0 StagerToy.noise StagerToy.noise (fun n q h => replicate (Z.to_nat n) (replicate (Z.to_nat q) []))
    (fun n => replicate (Z.to_nat n) 99) model cfg r' batch requests [row a; row z] hidden (spec_decode_metadata inp) cm drafter
    = Ok (out, s') /\
  calls s' = cs /\ len cs = 2.
Proof.
  destruct (draft_follows_accepted runner batch num_tokens true [a; z] 16 drafts batch_ok batch_drafts cfg [row a; row z] requests
    row emitted known verified_toy 3 (fun x Hx => eq_refl) 0 StagerToy.noise StagerToy.noise
    (fun n q h => replicate (Z.to_nat n) (replicate (Z.to_nat q) ([] : list Z))) (fun n => replicate (Z.to_nat n) 99))
    with (model := model) (total := 3) (hidden := hidden) (s := drafter) (max_query_len := 3) as (r' & inp & cm & out & s' & cs & E1 & E2 & E3 & _ & E4 & E5 & _).
  - intros n q. split; apply StagerToy.noise_shaped.
  - intros n q h. split; [apply length_replicate|]. apply Forall_replicate, length_replicate.
  - intros n. apply length_replicate.
  - apply model_answers.
  - lia.
  - apply drafter_toy.
  - intros x [->| ->]%both; cbn; lia.
  - exists r', inp, cm, out, s', cs. split; [exact E1|].
    assert (total_query_tokens inp = 6) as Ht by (vm_compute in E1; by injection E1 as _ <-). rewrite Ht in E2.
    split; [exact E2|]. split; [exact E3|]. split; [exact E4|exact E5].
Defined.
End EagleToy.
