(* ===== verification/AttnMetadata.v ===== *)
(** * Attention metadata

    [v1/attention/backends/flash_attention.py], [RBLNFlashAttentionMetadataBuilder]: where the
    queries of every request start, its blocks, the masks of the kernels that are not causal
    by themselves, and what the sliding-window kernel reads of its cache.  A tensor has its
    shape and its elements in rows of the last dimension; staged tensors live in buffers the
    builder keeps, one for each slot, shape and type. *)
From S2P Require Import Prelude DPUtils InputStager RunnerInputs.

Record Tensor := { t_shape : list Z; t_dtype : string; t_rows : list (list Z) }.

(** The cache a group of layers has: vLLM's kinds, and the window that is shifted in place. *)
Inductive KVCacheSpec :=
  | FullAttentionSpec
  | SlidingWindowSpec (sliding_window : Z)
  | RBLNSlidingWindowSpec (sliding_window : Z).

Record Builder := {
  use_custom_kernel : bool;
  chunked_prefill_size : Z;
  enforce_eager : bool;
  is_causal : bool;
  b_max_model_len : Z;
  kv_cache_spec : KVCacheSpec;
  _staged : gmap (string * list Z * string) Tensor
}.

(** The staged fields are keys of [_staged], or tensors of their own after a cast. *)
Inductive Field := Buffer (key : string * list Z * string) | Own (t : Tensor).

Record RBLNFlashAttentionMetadata := {
  md_seq_lens : Field;
  md_block_tables : Field;
  md_is_prefill : bool;
  md_attn_masks : option Field;
  md_swa_appends : bool;
  md_cache_seq_lens : option Field;
  md_cache_offsets : option Field;
  md_local_block_tables : option Field;
  md_swa_attn_masks : option Field
}.

Definition read (staged : gmap (string * list Z * string) Tensor) (f : Field) : res Tensor :=
  match f with Buffer key => of_option (staged !! key) KeyError | Own t => Ok t end.

(** ** Construction *)
Definition swa_appends (spec : KVCacheSpec) : bool :=
  match spec with SlidingWindowSpec _ => true | _ => false end.

Definition builder_init (use_custom_kernel use_flash_causal_attn use_non_causal enforce_eager : bool)
    (max_num_batched_tokens max_model_len : Z) (spec : KVCacheSpec) : res Builder :=
  if swa_appends spec && use_custom_kernel then Raise NotImplementedError
  else Ok {| use_custom_kernel := use_custom_kernel; chunked_prefill_size := max_num_batched_tokens;
             enforce_eager := enforce_eager; is_causal := use_flash_causal_attn && negb use_non_causal;
             b_max_model_len := max_model_len; kv_cache_spec := spec; _staged := ∅ |}.

Definition _stage (t : Tensor) (slot : string) (staged : gmap (string * list Z * string) Tensor)
    : Field * gmap (string * list Z * string) Tensor :=
  let key := (slot, t_shape t, t_dtype t) in (Buffer key, <[key := t]> staged).

Definition stage_opt (t : option Tensor) (slot : string) (staged : gmap (string * list Z * string) Tensor)
    : option Field * gmap (string * list Z * string) Tensor :=
  match t with
  | None => (None, staged)
  | Some t => let '(f, staged) := _stage t slot staged in (Some f, staged)
  end.

(** ** Tensors *)

(** [utils.pad] along the rows. *)
Definition pad (target_len : Z) (v : list Z) (rows : list (list Z)) : list (list Z) :=
  rows ++ replicate (Z.to_nat (target_len - len rows)) v.

(** [row[a:b] = vals] and [row[:b] = 1]. *)
Definition write_slice (a b : Z) (vals row : list Z) : res (list Z) :=
  let lo := Z.min a (len row) in
  let hi := Z.max lo (Z.min b (len row)) in
  vals ← broadcast (hi - lo) vals;
  Ok (py_take lo row ++ vals ++ drop (Z.to_nat hi) row).

Definition ones_until (b : Z) (row : list Z) : list Z :=
  let hi := Z.min b (len row) in replicate (Z.to_nat hi) 1 ++ drop (Z.to_nat hi) row.

(** Row [t] of [1 - triu(ones(n, n), 1)]. *)
Definition causal_row (n t : Z) : list Z := (fun s => if s <=? t then 1 else 0) <$> py_range n.

Definition zeros (n : Z) : list Z := replicate (Z.to_nat n) 0.

(** ** The masks *)
Definition prefill_mask (b : Builder) (step : Z) : res (list (list Z)) :=
  let n := chunked_prefill_size b in
  mapM (fun t =>
    let row := zeros (b_max_model_len b) in
    let row := if n <=? step then ones_until step row else row in
    write_slice step (step + n) (causal_row n t) row) (py_range n).

Definition decode_mask (b : Builder) (batch_pad : Z) (seq_lens : list Z) : res (list (list Z)) :=
  foldM (fun mask il => row ← of_option (mask !! Z.to_nat il.1) IndexError;
                        Ok (<[Z.to_nat il.1 := ones_until (il.2 + 1) row]> mask))
    (replicate (Z.to_nat batch_pad) (zeros (b_max_model_len b))) (zip (py_range (len seq_lens)) seq_lens).

Definition swa_mask (sliding_window : Z) (cache_seq_lens : list Z) : list (list Z) :=
  (fun c => (fun s => if 0 <? s - c then 0 else 1) <$> py_range sliding_window) <$> cache_seq_lens.

(** ** [build] *)
Definition column (l : list Z) : list (list Z) := (fun x => [x]) <$> l.

(** What the sliding-window kernel reads: [cache_seq_lens] and [cache_offsets], not padded. *)
Definition swa_cache (sliding_window n : Z) (seq_lens num_computed : list Z) (back_pad : option (list Z))
    : res (list Z * list Z) :=
  let num_computed := py_take n num_computed in
  num_computed ← match back_pad with
                 | Some back_pad => np_zip Z.add num_computed (py_take n back_pad)
                 | None => Ok num_computed
                 end;
  query_lens ← np_zip Z.sub (py_take n seq_lens) num_computed;
  let cache_seq_lens := (fun c => Z.min c sliding_window) <$> num_computed in
  cache_offsets ← np_zip Z.add cache_seq_lens query_lens;
  Ok (cache_seq_lens, cache_offsets).

Definition mask_dtype (b : Builder) : string := if enforce_eager b then "float16" else "float32".

Definition cast32 (t : Tensor) : Tensor :=
  {| t_shape := t_shape t; t_dtype := "int32"; t_rows := map (map wrap32) (t_rows t) |}.

(** [__post_init__]: a tensor has a truth value when it has one element. *)
Definition cast_if_true (staged : gmap (string * list Z * string) Tensor) (f : option Field) : res (option Field) :=
  match f with
  | None => Ok None
  | Some f =>
      t ← read staged f;
      match concat (t_rows t) return res (option Field) with
      | [x] => if x =? 0 then Ok None else Ok (Some (Own (cast32 t)))
      | _ => Raise RuntimeError
      end
  end.

Definition post_init (custom : bool) (staged : gmap (string * list Z * string) Tensor) (md : RBLNFlashAttentionMetadata)
    : res RBLNFlashAttentionMetadata :=
  if negb custom then Ok md
  else
    t ← read staged (md_seq_lens md);
    cache_seq_lens ← cast_if_true staged (md_cache_seq_lens md);
    cache_offsets ← cast_if_true staged (md_cache_offsets md);
    Ok {| md_seq_lens := Own (cast32 t);
          md_block_tables := md_block_tables md; md_is_prefill := md_is_prefill md; md_attn_masks := md_attn_masks md;
          md_swa_appends := md_swa_appends md; md_cache_seq_lens := cache_seq_lens; md_cache_offsets := cache_offsets;
          md_local_block_tables := md_local_block_tables md; md_swa_attn_masks := md_swa_attn_masks md |}.

(** The common metadata as the builder reads it; [block_table] has a row for every request. *)
Record Common := { query_start : list Z; lens : list Z; block_table : list (list Z); n_reqs : Z }.

(** The tensors, before they are staged. *)
Record Tensors := {
  x_seq_idx : Tensor;
  x_block_tables : Tensor;
  x_attn_masks : option Tensor;
  x_cache_seq_lens : option Tensor;
  x_cache_offsets : option Tensor;
  x_local_block_tables : option Tensor;
  x_swa_attn_masks : option Tensor
}.

Definition build_tensors (b : Builder) (cm : Common) (positions : list Z) (batch_pad : Z) (is_prefill skip_attn_masks : bool)
    (back_pad : option (list Z)) : res Tensors :=
  let n := n_reqs cm in
  query_seq_lens ← np_zip Z.sub (tail (query_start cm)) (removelast (query_start cm));
  num_computed ← np_zip Z.sub (lens cm) query_seq_lens;
  seq_idx ← np_take positions (py_take n (query_start cm));
  let width := default 0 (len <$> head (block_table cm)) in
  let max_seq_len := b_max_model_len b in
  let masked := negb (is_causal b) && negb skip_attn_masks in
  blocks_masks ← (if is_prefill : bool then
      row ← of_option (head (block_table cm)) IndexError;
      masks ← (if masked then
          step ← of_option (head seq_idx) IndexError;
          mask ← prefill_mask b step;
          Ok (Some {| t_shape := [1; 1; 1; chunked_prefill_size b; max_seq_len]; t_dtype := mask_dtype b; t_rows := mask |})
        else Ok None);
      Ok ([width], [row], masks)
    else
      masks ← (if masked then
          mask ← decode_mask b batch_pad (lens cm);
          Ok (Some {| t_shape := [batch_pad; 1; 1; 1; max_seq_len]; t_dtype := mask_dtype b; t_rows := mask |})
        else Ok None);
      let rows := pad batch_pad (zeros width) (block_table cm) in
      Ok ([len rows; width], rows, masks));
  let '(blocks_shape, blocks, masks) := blocks_masks in
  let seq_idx := if is_prefill then column seq_idx else pad batch_pad [0] (column seq_idx) in
  let tall dtype rows := {| t_shape := [len rows; 1]; t_dtype := dtype; t_rows := rows |} in
  swa ← match kv_cache_spec b with
        | RBLNSlidingWindowSpec sliding_window =>
            c ← swa_cache sliding_window n (lens cm) num_computed back_pad;
            let seqs := if is_prefill then column c.1 else pad batch_pad [0] (column c.1) in
            let offsets := if is_prefill then column c.2 else pad batch_pad [0] (column c.2) in
            let masks := if is_prefill then None
                         else Some {| t_shape := [len seqs; 1; 1; sliding_window]; t_dtype := "float32";
                                      t_rows := swa_mask sliding_window (concat seqs) |} in
            Ok (Some (tall "int32" seqs), Some (tall "int32" offsets),
                Some {| t_shape := removelast blocks_shape ++ [Z.min 1 width]; t_dtype := "int32";
                        t_rows := py_take 1 <$> blocks |}, masks)
        | _ => Ok (None, None, None, None)
        end;
  let '(seqs, offsets, local, swa_masks) := swa in
  Ok {| x_seq_idx := tall "int64" seq_idx; x_block_tables := {| t_shape := blocks_shape; t_dtype := "int32"; t_rows := blocks |};
        x_attn_masks := masks; x_cache_seq_lens := seqs; x_cache_offsets := offsets; x_local_block_tables := local;
        x_swa_attn_masks := swa_masks |}.

Definition set_staged (staged : gmap (string * list Z * string) Tensor) (b : Builder) : Builder :=
  {| use_custom_kernel := use_custom_kernel b; chunked_prefill_size := chunked_prefill_size b; enforce_eager := enforce_eager b;
     is_causal := is_causal b; b_max_model_len := b_max_model_len b; kv_cache_spec := kv_cache_spec b; _staged := staged |}.

Definition build (b : Builder) (cm : Common) (positions : list Z) (batch_pad : Z) (is_prefill skip_attn_masks : bool)
    (back_pad : option (list Z)) : res (RBLNFlashAttentionMetadata * Builder) :=
  x ← build_tensors b cm positions batch_pad is_prefill skip_attn_masks back_pad;
  let '(seq_lens, staged) := _stage (x_seq_idx x) "seq_idx" (_staged b) in
  let '(block_tables, staged) := _stage (x_block_tables x) "block_tables" staged in
  let '(attn_masks, staged) := stage_opt (x_attn_masks x) "attn_masks" staged in
  let '(cache_seq_lens, staged) := stage_opt (x_cache_seq_lens x) "cache_seq_lens" staged in
  let '(cache_offsets, staged) := stage_opt (x_cache_offsets x) "cache_offsets" staged in
  let '(local_block_tables, staged) := stage_opt (x_local_block_tables x) "local_block_tables" staged in
  let '(swa_attn_masks, staged) := stage_opt (x_swa_attn_masks x) "swa_attn_masks" staged in
  md ← post_init (use_custom_kernel b) staged
    {| md_seq_lens := seq_lens; md_block_tables := block_tables; md_is_prefill := is_prefill; md_attn_masks := attn_masks;
       md_swa_appends := swa_appends (kv_cache_spec b); md_cache_seq_lens := cache_seq_lens; md_cache_offsets := cache_offsets;
       md_local_block_tables := local_block_tables; md_swa_attn_masks := swa_attn_masks |};
  Ok (md, set_staged staged b).
