(* ===== verification/AttnMetadataSpec.v ===== *)
(** * Attention metadata: theorems

    What the kernels read follows the windows of the step's inputs; the shapes follow the
    phase and the padded batch only; and what is staged stays apart.  Two lemmas at the end
    say which positions the masks leave out or take in too many. *)
From S2P Require Import Prelude KvLayout DPUtils InputStager RunnerInputs FlatRows RunnerInputsSpec EagleDraft EaglePasses EagleDraftSpec AttnMetadata.

(** ** Rows *)
Lemma pad_lookup n v rows i row : rows !! i = Some row -> pad n v rows !! i = Some row.
Proof. intros Hi. unfold pad. by apply lookup_app_l_Some. Qed.

Lemma pad_behind n v rows i : len rows <= Z.of_nat i < n -> pad n v rows !! i = Some v.
Proof.
  intros Hi. unfold pad, len in *. rewrite lookup_app_r by lia. apply lookup_replicate_2. lia.
Qed.

Lemma pad_len n v rows : len (pad n v rows) = Z.max n (len rows).
Proof. unfold pad, len. rewrite length_app, length_replicate. lia. Qed.

Lemma column_lookup l i x : l !! i = Some x -> AttnMetadata.column l !! i = Some [x].
Proof. intros Hi. unfold AttnMetadata.column. by rewrite list_lookup_fmap, Hi. Qed.

Lemma column_len l : len (AttnMetadata.column l) = len l.
Proof. unfold AttnMetadata.column, len. by rewrite length_fmap. Qed.

Lemma zeros_len n : 0 <= n -> len (zeros n) = n.
Proof. intros. unfold zeros, len. rewrite length_replicate. lia. Qed.

Lemma zeros_at n s : 0 <= s < n -> at_ (zeros n) s = Some 0.
Proof. intros. unfold zeros. apply lookup_replicate_2. lia. Qed.

(** ** Masks *)
Lemma ones_until_len b row : 0 <= b -> len (ones_until b row) = len row.
Proof. intros. unfold ones_until, len. rewrite length_app, length_replicate, length_drop. lia. Qed.

Lemma ones_until_at b row s : 0 <= b -> 0 <= s < len row -> at_ (ones_until b row) s = if s <? b then Some 1 else at_ row s.
Proof.
  intros Hb Hs. unfold ones_until. destruct (Z.ltb_spec s b).
  - apply lookup_app_l_Some, lookup_replicate_2. lia.
  - rewrite lookup_app_r by (rewrite length_replicate; lia). rewrite length_replicate, lookup_drop. f_equal. lia.
Qed.

Lemma write_slice_ok a n vals row : len vals = n -> 0 <= a -> 0 <= n -> a + n <= len row ->
  exists row', write_slice a (a + n) vals row = Ok row' /\ len row' = len row /\
    forall s, 0 <= s < len row -> at_ row' s = if (a <=? s) && (s <? a + n) then at_ vals (s - a) else at_ row s.
Proof.
  intros Hv Ha Hn Hle. unfold write_slice, broadcast. rewrite (Z.min_l a), (Z.min_l (a + n)), (Z.max_r a) by lia.
  replace (a + n - a) with n by lia. rewrite Hv, Z.eqb_refl. cbn [mbind res_bind]. eexists. split; [done|].
  unfold py_take, len in *. split; [rewrite !length_app, length_take, length_drop; lia|]. intros s Hs.
  destruct (Z.leb_spec a s); cbn [andb].
  - rewrite lookup_app_r by (rewrite length_take; lia). rewrite length_take, Nat.min_l by lia.
    destruct (Z.ltb_spec s (a + n)).
    + rewrite lookup_app_l by lia. f_equal. lia.
    + rewrite lookup_app_r by lia. rewrite lookup_drop. f_equal. lia.
  - rewrite lookup_app_l by (rewrite length_take; lia). apply lookup_take_lt. lia.
Qed.

Lemma causal_row_at n t s : 0 <= s < n -> at_ (causal_row n t) s = Some (if s <=? t then 1 else 0).
Proof. intros Hs. unfold causal_row. by rewrite list_lookup_fmap, py_range_at. Qed.

Lemma causal_row_len n t : 0 <= n -> len (causal_row n t) = n.
Proof. intros. unfold causal_row, len. rewrite length_fmap. by apply py_range_len. Qed.

(** The mask of a chunk that starts at [step]: row [t] takes in the chunk up to its own
    position, and what is before the chunk when that is a chunk at least. *)
Definition prefill_sees (n step t s : Z) : bool := (s <=? step + t) && ((step <=? s) || (n <=? step)).

Lemma prefill_mask_ok b step : let n := chunked_prefill_size b in 0 <= n -> 0 <= step -> step + n <= b_max_model_len b ->
  exists mask, prefill_mask b step = Ok mask /\ len mask = n /\ Forall (fun row => len row = b_max_model_len b) mask /\
    forall t s, 0 <= t < n -> 0 <= s < b_max_model_len b ->
      cell mask (Z.to_nat t) s = Some (if prefill_sees n step t s then 1 else 0).
Proof.
  intros n Hn Hs Hle. unfold prefill_mask. fold n.
  set (base := if n <=? step then ones_until step (zeros (b_max_model_len b)) else zeros (b_max_model_len b)).
  assert (Hb : len base = b_max_model_len b) by (subst base; destruct (n <=? step); rewrite ?ones_until_len by lia; apply zeros_len; lia).
  destruct (mapM_total (fun t row => len row = b_max_model_len b /\ forall s, 0 <= s < b_max_model_len b ->
     at_ row s = Some (if prefill_sees n step t s then 1 else 0))
     (fun t => write_slice step (step + n) (causal_row n t) base) (py_range n)) as (mask & E & F).
  - intros t Ht%py_range_elem. destruct (write_slice_ok step n (causal_row n t) base) as (row & E & L & A); [by apply causal_row_len|lia..|].
    exists row. split; [done|]. split; [lia|]. intros s Hss. rewrite A by lia. unfold prefill_sees.
    destruct (Z.leb_spec step s), (Z.ltb_spec s (step + n)); cbn [andb orb].
    + rewrite causal_row_at by lia. rewrite andb_true_r. f_equal. destruct (Z.leb_spec (s - step) t), (Z.leb_spec s (step + t)); lia.
    + subst base. destruct (Z.leb_spec s (step + t)); [lia|]. cbn. destruct (n <=? step); rewrite ?ones_until_at, ?zeros_at by (rewrite ?zeros_len; lia); [|done].
      by destruct (Z.ltb_spec s step); [lia|].
    + subst base. rewrite (proj2 (Z.leb_le s (step + t))) by lia. cbn.
      destruct (Z.leb_spec n step); rewrite ?ones_until_at, ?zeros_at by (rewrite ?zeros_len; lia); [|done].
      by destruct (Z.ltb_spec s step); [|lia].
    + lia.
  - exists mask. split; [exact E|]. pose proof (Forall2_length _ _ _ F) as Hl.
    assert (len mask = n) by (unfold len in *; rewrite <- Hl; apply py_range_len; lia). split; [done|]. split.
    + apply Forall_forall. intros row [i Hi]%list_elem_of_lookup. by destruct (Forall2_lookup_r _ _ _ _ _ F Hi) as (t & _ & ? & _).
    + intros t s Ht Hss. assert (Hr : at_ (py_range n) t = Some t) by (apply py_range_at; lia).
      destruct (Forall2_lookup_l _ _ _ _ _ F Hr) as (row & Hrow & _ & A). unfold cell. rewrite Hrow. cbn. by apply A.
Qed.

Definition mark_row (mask : list (list Z)) (il : Z * Z) : res (list (list Z)) :=
  row ← of_option (at_ mask il.1) IndexError; Ok (<[Z.to_nat il.1 := ones_until (il.2 + 1) row]> mask).

Lemma mark_row_ok mask k l row : mask !! k = Some row ->
  mark_row mask (Z.of_nat k, l) = Ok (<[k := ones_until (l + 1) row]> mask).
Proof. intros Hk. unfold mark_row. cbn. by rewrite Nat2Z.id, Hk. Qed.

Lemma mark_rows seq_lens k mask : (k + length seq_lens <= length mask)%nat ->
  exists mask', foldM mark_row mask (zip (seqZ (Z.of_nat k) (len seq_lens)) seq_lens) = Ok mask' /\ length mask' = length mask /\
    forall i row, mask !! i = Some row ->
      mask' !! i = Some (if decide (k <= i)%nat then match seq_lens !! (i - k)%nat with Some l => ones_until (l + 1) row | None => row end else row).
Proof.
  revert k mask. induction seq_lens as [|l seq_lens IH]; intros k mask Hk.
  { exists mask. split; [done|]. split; [done|]. intros i row Hi. rewrite Hi. by case_decide. }
  cbn in Hk. rewrite len_cons, seqZ_cons by (pose proof (len_nonneg seq_lens); lia). cbn [zip zip_with foldM].
  destruct (lookup_lt_is_Some_2 mask k) as [row Hrow]; [lia|]. rewrite (mark_row_ok _ _ _ row) by done. cbn [mbind res_bind].
  replace (Z.pred (1 + len seq_lens)) with (len seq_lens) by lia. replace (Z.succ (Z.of_nat k)) with (Z.of_nat (S k)) by lia.
  destruct (IH (S k) (<[k := ones_until (l + 1) row]> mask)) as (mask' & E & L & A); [rewrite length_insert; lia|].
  exists mask'. split; [exact E|]. split; [by rewrite L, length_insert|]. intros i row' Hi.
  destruct (decide (i = k)) as [->|Hne].
  - rewrite Hrow in Hi. injection Hi as <-. rewrite (A k (ones_until (l + 1) row)) by (apply list_lookup_insert_eq; lia).
    rewrite decide_False, decide_True by lia. by rewrite Nat.sub_diag.
  - rewrite (A i row') by (by rewrite list_lookup_insert_ne). destruct (decide (k <= i)%nat).
    + rewrite decide_True by lia. by replace (i - k)%nat with (S (i - S k)) by lia.
    + by rewrite decide_False by lia.
Qed.

(** A request takes in the positions up to the length of its sequence. *)
Lemma decode_mask_ok b batch_pad seq_lens : 0 <= b_max_model_len b -> len seq_lens <= batch_pad -> Forall (fun l => 0 <= l) seq_lens ->
  exists mask, decode_mask b batch_pad seq_lens = Ok mask /\ len mask = batch_pad /\
    Forall (fun row => len row = b_max_model_len b) mask /\
    (forall i l s, seq_lens !! i = Some l -> 0 <= s < b_max_model_len b -> cell mask i s = Some (if s <=? l then 1 else 0)) /\
    forall i, len seq_lens <= Z.of_nat i < batch_pad -> mask !! i = Some (zeros (b_max_model_len b)).
Proof.
  intros Hm Hle Hpos. pose proof (len_nonneg seq_lens). set (base := replicate (Z.to_nat batch_pad) (zeros (b_max_model_len b))).
  destruct (mark_rows seq_lens 0 base) as (mask & E & L & A); [subst base; rewrite length_replicate; unfold len in *; lia|].
  change (Z.of_nat 0) with 0 in E. exists mask. split; [exact E|].
  assert (Hl : len mask = batch_pad) by (unfold len; rewrite L; subst base; rewrite length_replicate; lia). split; [done|].
  assert (Hb : forall i, (i < length mask)%nat -> base !! i = Some (zeros (b_max_model_len b))).
  { intros i Hi. apply lookup_replicate_2. rewrite L in Hi. subst base. by rewrite length_replicate in Hi. }
  rewrite Forall_forall in Hpos. split; [|split].
  - apply Forall_forall. intros row [i Hi]%list_elem_of_lookup. pose proof (lookup_lt_Some _ _ _ Hi) as Hlt.
    rewrite (A i _ (Hb i Hlt)) in Hi. rewrite decide_True in Hi by lia. injection Hi as <-. rewrite Nat.sub_0_r.
    destruct (seq_lens !! i) as [l|] eqn:El; [|by apply zeros_len]. rewrite ones_until_len; [by apply zeros_len|].
    apply list_elem_of_lookup_2, Hpos in El. lia.
  - intros i l s Hi Hs. pose proof (lookup_lt_Some _ _ _ Hi). assert (Hlt : (i < length mask)%nat) by (unfold len in *; lia).
    unfold cell. rewrite (A i _ (Hb i Hlt)), decide_True by lia. rewrite Nat.sub_0_r, Hi. cbn.
    apply list_elem_of_lookup_2, Hpos in Hi. rewrite ones_until_at, zeros_at by (rewrite ?zeros_len; lia).
    destruct (Z.ltb_spec s (l + 1)), (Z.leb_spec s l); lia || done.
  - intros i Hi. assert (Hlt : (i < length mask)%nat) by (unfold len in *; lia). rewrite (A i _ (Hb i Hlt)), decide_True by lia.
    rewrite Nat.sub_0_r, lookup_ge_None_2 by (unfold len in *; lia). done.
Qed.

(** ** What the masks leave out, and take in

    A chunk behind a cached prefix shorter than a chunk does not see the prefix; one that ends
    behind the model length cannot be masked; and a decode sees one position behind its
    sequence. *)
Lemma short_prefix_unseen b step t s : let n := chunked_prefill_size b in 0 <= step -> step + n <= b_max_model_len b ->
  step < n -> 0 <= t < n -> 0 <= s < step ->
  exists mask, prefill_mask b step = Ok mask /\ cell mask (Z.to_nat t) s = Some 0.
Proof.
  intros n Hs Hle Hn Ht Hss. destruct (prefill_mask_ok b step) as (mask & E & _ & _ & A); [lia..|]. exists mask. split; [done|].
  rewrite A by lia. unfold prefill_sees. by rewrite (proj2 (Z.leb_gt step s)), (proj2 (Z.leb_gt _ step)), andb_false_r by lia.
Qed.

Lemma last_chunk_raises b step : let n := chunked_prefill_size b in 1 < n -> 0 <= step -> step < b_max_model_len b < step + n ->
  prefill_mask b step = Raise RuntimeError.
Proof.
  intros n Hn Hs Hle. unfold prefill_mask. fold n. assert (Hr : exists l, py_range n = 0 :: l).
  { unfold py_range. rewrite seqZ_cons by lia. by eexists. }
  destruct Hr as [l ->]. cbn [mapM]. set (base := if n <=? step then _ else _).
  assert (Hb : len base = b_max_model_len b) by (subst base; destruct (n <=? step); rewrite ?ones_until_len by lia; apply zeros_len; lia).
  unfold write_slice, broadcast. rewrite Hb, (Z.min_l step), (Z.min_r (step + n)), (Z.max_r step) by lia.
  pose proof (causal_row_len n 0 ltac:(lia)) as Hc. destruct (Z.eqb_spec (len (causal_row n 0)) (b_max_model_len b - step)); [lia|].
  destruct (causal_row n 0) as [|x [|y k]]; [done| |done]. unfold len in Hc. cbn in Hc. lia.
Qed.

Lemma decode_sees_past_end b batch_pad seq_lens i l : 0 <= b_max_model_len b -> len seq_lens <= batch_pad ->
  Forall (fun l => 0 <= l) seq_lens -> seq_lens !! i = Some l -> 0 <= l < b_max_model_len b ->
  exists mask, decode_mask b batch_pad seq_lens = Ok mask /\ cell mask i l = Some 1.
Proof.
  intros Hm Hle Hpos Hi Hl. destruct (decode_mask_ok b batch_pad seq_lens Hm Hle Hpos) as (mask & E & _ & _ & A & _).
  exists mask. split; [done|]. rewrite (A i l l Hi Hl). by rewrite Z.leb_refl.
Qed.

Lemma swa_mask_cell w l i c s : l !! i = Some c -> 0 <= s < w -> cell (swa_mask w l) i s = Some (if s <=? c then 1 else 0).
Proof.
  intros Hi Hs. unfold cell, swa_mask. rewrite list_lookup_fmap, Hi. cbn. rewrite list_lookup_fmap, py_range_at by done. cbn.
  f_equal. destruct (Z.ltb_spec 0 (s - c)), (Z.leb_spec s c); lia.
Qed.

(** ** Shapes *)

(** A tensor's rows fill its shape. *)
Definition well_shaped (t : Tensor) : Prop :=
  exists last, t_shape t = removelast (t_shape t) ++ [last] /\ len (t_rows t) = foldr Z.mul 1 (removelast (t_shape t)) /\
    Forall (fun row => len row = last) (t_rows t).

Definition shape_of (o : option Tensor) : option (list Z * string) := (fun t => (t_shape t, t_dtype t)) <$> o.

(** The shapes of a phase: nothing in them depends on the requests. *)
Record Shapes := { s_rows : Z; s_blocks : list Z; s_mask : option (list Z); s_local : option (list Z); s_swa : option (list Z) }.

Definition fixed_shapes (b : Builder) (is_prefill skip : bool) (batch_pad width : Z) : Shapes :=
  let masked := negb (is_causal b) && negb skip in
  let window := match kv_cache_spec b with RBLNSlidingWindowSpec w => Some w | _ => None end in
  {| s_rows := if is_prefill then 1 else batch_pad;
     s_blocks := if is_prefill then [width] else [batch_pad; width];
     s_mask := if masked then Some (if is_prefill then [1; 1; 1; chunked_prefill_size b; b_max_model_len b]
                                    else [batch_pad; 1; 1; 1; b_max_model_len b]) else None;
     s_local := (fun _ => if is_prefill then [Z.min 1 width] else [batch_pad; Z.min 1 width]) <$> window;
     s_swa := if is_prefill then None else (fun w => [batch_pad; 1; 1; w]) <$> window |}.

Definition has_shapes (b : Builder) (s : Shapes) (t : Tensors) : Prop :=
  let window := match kv_cache_spec b with RBLNSlidingWindowSpec w => true | _ => false end in
  let seqs := if window then Some ([s_rows s; 1], "int32"%string) else None in
  shape_of (Some (x_seq_idx t)) = Some ([s_rows s; 1], "int64"%string) /\
  shape_of (Some (x_block_tables t)) = Some (s_blocks s, "int32"%string) /\
  shape_of (x_attn_masks t) = (fun m => (m, mask_dtype b)) <$> s_mask s /\
  shape_of (x_cache_seq_lens t) = seqs /\ shape_of (x_cache_offsets t) = seqs /\
  shape_of (x_local_block_tables t) = (fun m => (m, "int32"%string)) <$> s_local s /\
  shape_of (x_swa_attn_masks t) = (fun m => (m, "float32"%string)) <$> s_swa s.

Lemma take_starts s l : take (length l) (s :: sums s l) = starts s l.
Proof. revert s. induction l as [|x l IH]; intros s; [done|]. cbn [length sums starts take]. by rewrite <- IH. Qed.

Lemma starts_from_sums s l : removelast (s :: sums s l) = starts s l.
Proof.
  rewrite <- take_starts, removelast_firstn_len. f_equal. cbn. by rewrite length_sums.
Qed.

(** ** What [build] makes of a batch

    Request [x] has its queries in [q x] rows, [l x] tokens with them, its first query at
    position [p x], [bk x] rows of padding behind, and the blocks [blocks x]. *)
Section batch.
Context {X : Type} (q l p bk : X -> Z) (blocks : X -> list Z) (xs : list X) (x0 : X) (width : Z).
Context (b : Builder) (positions : list Z) (batch_pad : Z) (pre skip : bool) (back : option (list Z)) (m : list (list Z)).

Definition cm_of : Common :=
  {| query_start := 0 :: sums 0 (q <$> xs); lens := l <$> xs; block_table := blocks <$> xs; n_reqs := len xs |}.

Record rows_ok : Prop := {
  ba_first : head xs = Some x0;
  ba_width : forall x, x ∈ xs -> len (blocks x) = width;
  ba_positions : np_take positions (starts 0 (q <$> xs)) = Ok (p <$> xs);
  ba_back : match back with Some pads => py_take (len xs) pads = bk <$> xs | None => forall x, x ∈ xs -> bk x = 0 end
}.

Definition mask_ok : Prop := negb (is_causal b) && negb skip = true ->
  (if pre then prefill_mask b (p x0) else decode_mask b batch_pad (l <$> xs)) = Ok m.

Definition tall (dtype : string) (rows : list (list Z)) : Tensor := {| t_shape := [len rows; 1]; t_dtype := dtype; t_rows := rows |}.
Definition padded (v : list Z) (rows : list (list Z)) : list (list Z) := if pre then rows else pad batch_pad v rows.

(** The tokens in the cache before the first query. *)
Definition computed (x : X) : Z := l x - q x + bk x.

Definition blocks_shape : list Z := if pre then [width] else [len (pad batch_pad (zeros width) (blocks <$> xs)); width].
Definition block_rows : list (list Z) := if pre then [blocks x0] else pad batch_pad (zeros width) (blocks <$> xs).

Definition seqs (w : Z) : list (list Z) := padded [0] (AttnMetadata.column ((fun x => Z.min (computed x) w) <$> xs)).
Definition offsets (w : Z) : list (list Z) :=
  padded [0] (AttnMetadata.column ((fun x => Z.min (computed x) w + (l x - computed x)) <$> xs)).

Definition for_window {A} (f : Z -> A) : option A :=
  match kv_cache_spec b with RBLNSlidingWindowSpec w => Some (f w) | _ => None end.

Definition answer : Tensors :=
  {| x_seq_idx := tall "int64" (padded [0] (AttnMetadata.column (p <$> xs)));
     x_block_tables := {| t_shape := blocks_shape; t_dtype := "int32"; t_rows := block_rows |};
     x_attn_masks := if negb (is_causal b) && negb skip
       then Some {| t_shape := if pre then [1; 1; 1; chunked_prefill_size b; b_max_model_len b] else [batch_pad; 1; 1; 1; b_max_model_len b];
                    t_dtype := mask_dtype b; t_rows := m |} else None;
     x_cache_seq_lens := for_window (fun w => tall "int32" (seqs w));
     x_cache_offsets := for_window (fun w => tall "int32" (offsets w));
     x_local_block_tables := for_window (fun _ => {| t_shape := removelast blocks_shape ++ [Z.min 1 width]; t_dtype := "int32";
                                                     t_rows := py_take 1 <$> block_rows |});
     x_swa_attn_masks := if pre then None
       else for_window (fun w => {| t_shape := [len (seqs w); 1; 1; w]; t_dtype := "float32"; t_rows := swa_mask w (concat (seqs w)) |}) |}.

Lemma swa_cache_ok w : rows_ok -> swa_cache w (len xs) (l <$> xs) ((fun x => l x - q x) <$> xs) back =
  Ok ((fun x => Z.min (computed x) w) <$> xs, (fun x => Z.min (computed x) w + (l x - computed x)) <$> xs).
Proof.
  intros B. unfold swa_cache. assert (Ht : forall f : X -> Z, py_take (len xs) (f <$> xs) = f <$> xs).
  { intros f. unfold py_take, len. rewrite Nat2Z.id. apply firstn_all2. by rewrite length_fmap. }
  rewrite !Ht. pose proof (ba_back B) as Hb. destruct back as [pads|].
  - rewrite Hb. rewrite np_zip_fmap. cbn [mbind res_bind]. rewrite np_zip_fmap. cbn [mbind res_bind].
    rewrite <- list_fmap_compose, np_zip_fmap. done.
  - cbn [mbind res_bind]. rewrite np_zip_fmap. cbn [mbind res_bind]. rewrite <- list_fmap_compose, np_zip_fmap.
    cbn [mbind res_bind]. f_equal. f_equal; apply list_fmap_ext; intros i x Hx%list_elem_of_lookup_2; unfold computed; cbn;
      rewrite (Hb x Hx); f_equal; lia.
Qed.

Lemma build_tensors_ok : rows_ok -> mask_ok -> build_tensors b cm_of positions batch_pad pre skip back = Ok answer.
Proof.
  intros B Hm. pose proof (ba_first B) as Hf. assert (Hne : q <$> xs <> []) by (by destruct xs).
  assert (Hw : default 0 (len <$> head (blocks <$> xs)) = width).
  { pose proof (ba_width B) as H. destruct xs as [|x l']; [done|]. cbn. apply H. by left. }
  unfold build_tensors. cbn [query_start lens block_table n_reqs cm_of tail].
  rewrite starts_from_sums, np_zip_same by (by rewrite length_sums, length_row_starts). rewrite sums_less_starts.
  cbn [mbind res_bind]. rewrite np_zip_fmap. cbn [mbind res_bind].
  assert (py_take (len xs) (0 :: sums 0 (q <$> xs)) = starts 0 (q <$> xs)) as ->.
  { rewrite <- take_starts, length_fmap. unfold py_take, len. by rewrite Nat2Z.id. }
  rewrite (ba_positions B). cbn [mbind res_bind]. rewrite Hw.
  assert (Hh : head (p <$> xs) = Some (p x0)) by (destruct xs; [done|]; cbn in Hf |- *; by injection Hf as ->).
  assert (Hhb : head (blocks <$> xs) = Some (blocks x0)) by (destruct xs; [done|]; cbn in Hf |- *; by injection Hf as ->).
  unfold mask_ok in Hm. unfold answer, for_window, blocks_shape, block_rows, seqs, offsets, padded.
  destruct pre; rewrite ?Hhb; cbn [of_option mbind res_bind];
    destruct (negb (is_causal b) && negb skip); rewrite ?Hh; cbn [of_option mbind res_bind]; rewrite ?Hm by done; cbn [mbind res_bind];
    (destruct (kv_cache_spec b) as [|w|w]; [done|done|]); rewrite swa_cache_ok by done; done.
Qed.
End batch.

(** ** Staging *)
Abbreviation Staged := (gmap (string * list Z * string) Tensor).

(** A field is the buffer of its slot, which holds the tensor. *)
Definition slot_holds (staged : Staged) (slot : string) (f : option Field) (t : option Tensor) : Prop :=
  match t with
  | None => f = None
  | Some t => f = Some (Buffer (slot, t_shape t, t_dtype t)) /\ staged !! (slot, t_shape t, t_dtype t) = Some t
  end.

Lemma stage_opt_holds t slot staged : slot_holds (stage_opt t slot staged).2 slot (stage_opt t slot staged).1 t.
Proof. destruct t as [t|]; [|done]. cbn. split; [done|]. apply lookup_insert_eq. Qed.

Lemma stage_opt_keeps t slot staged slot' f t' : slot <> slot' ->
  slot_holds staged slot' f t' -> slot_holds (stage_opt t slot staged).2 slot' f t'.
Proof.
  intros Hne. destruct t as [t|], t' as [t'|]; try done. cbn. intros [-> Ht]. split; [done|].
  rewrite lookup_insert_ne; [done|]. intros [= E _ _]. done.
Qed.

Lemma slot_read staged slot f t : slot_holds staged slot (Some f) (Some t) -> read staged f = Ok t.
Proof. intros [[= ->] Ht]. cbn. by rewrite Ht. Qed.

(** What the metadata's fields hold. *)
Record holds (staged : Staged) (md : RBLNFlashAttentionMetadata) (t : Tensors) : Prop := {
  ho_seq_lens : slot_holds staged "seq_idx" (Some (md_seq_lens md)) (Some (x_seq_idx t));
  ho_blocks : slot_holds staged "block_tables" (Some (md_block_tables md)) (Some (x_block_tables t));
  ho_masks : slot_holds staged "attn_masks" (md_attn_masks md) (x_attn_masks t);
  ho_seqs : slot_holds staged "cache_seq_lens" (md_cache_seq_lens md) (x_cache_seq_lens t);
  ho_offsets : slot_holds staged "cache_offsets" (md_cache_offsets md) (x_cache_offsets t);
  ho_local : slot_holds staged "local_block_tables" (md_local_block_tables md) (x_local_block_tables t);
  ho_swa : slot_holds staged "swa_attn_masks" (md_swa_attn_masks md) (x_swa_attn_masks t)
}.

(** Stages [t] in a slot and keeps what is known of the others. *)
Ltac next_slot t slot s f s' :=
  pose proof (stage_opt_holds t slot s);
  repeat match goal with
         | H : slot_holds s ?slot' ?g ?u |- _ => apply (stage_opt_keeps t slot s slot' g u) in H; [|done]
         end;
  destruct (stage_opt t slot s) as [f s']; cbn [fst snd] in *.

(** Every tensor is staged in a buffer of its own. *)
Lemma build_stages b cm positions batch_pad pre skip back t :
  build_tensors b cm positions batch_pad pre skip back = Ok t ->
  exists md staged, holds staged md t /\ md_is_prefill md = pre /\ md_swa_appends md = swa_appends (kv_cache_spec b) /\
    build b cm positions batch_pad pre skip back = (md ← post_init (use_custom_kernel b) staged md; Ok (md, set_staged staged b)).
Proof.
  intros E. unfold build. rewrite E. cbn [mbind res_bind]. unfold _stage at 1 2.
  set (s0 := <[_ := x_seq_idx t]> (_staged b)). set (s1 := <[_ := x_block_tables t]> s0).
  assert (H0 : slot_holds s1 "seq_idx" (Some (Buffer ("seq_idx"%string, t_shape (x_seq_idx t), t_dtype (x_seq_idx t)))) (Some (x_seq_idx t))).
  { split; [done|]. subst s1 s0. rewrite lookup_insert_ne by done. apply lookup_insert_eq. }
  assert (H1 : slot_holds s1 "block_tables" (Some (Buffer ("block_tables"%string, t_shape (x_block_tables t), t_dtype (x_block_tables t)))) (Some (x_block_tables t))).
  { split; [done|]. apply lookup_insert_eq. }
  next_slot (x_attn_masks t) "attn_masks"%string s1 f2 s2. next_slot (x_cache_seq_lens t) "cache_seq_lens"%string s2 f3 s3.
  next_slot (x_cache_offsets t) "cache_offsets"%string s3 f4 s4. next_slot (x_local_block_tables t) "local_block_tables"%string s4 f5 s5.
  next_slot (x_swa_attn_masks t) "swa_attn_masks"%string s5 f6 s6.
  eexists {| md_seq_lens := _ |}, s6. split; [|split; [|split; [|done]]]; done || by split.
Qed.

Lemma build_staged b cm positions batch_pad pre skip back t : use_custom_kernel b = false ->
  build_tensors b cm positions batch_pad pre skip back = Ok t ->
  exists md staged, build b cm positions batch_pad pre skip back = Ok (md, set_staged staged b) /\ md_is_prefill md = pre /\
    md_swa_appends md = swa_appends (kv_cache_spec b) /\ holds staged md t.
Proof.
  intros Hc E. destruct (build_stages _ _ _ _ _ _ _ _ E) as (md & staged & Hh & Hp & Hs & ->). rewrite Hc. by exists md, staged.
Qed.

(** With the custom kernel, the truth value of the cache lengths decides: those of several
    requests have none. *)
Lemma many_cache_lens_raise b cm positions batch_pad pre skip back t c : use_custom_kernel b = true ->
  build_tensors b cm positions batch_pad pre skip back = Ok t -> x_cache_seq_lens t = Some c -> (1 < length (concat (t_rows c)))%nat ->
  build b cm positions batch_pad pre skip back = Raise RuntimeError.
Proof.
  intros Hc E Hx Hl. destruct (build_stages _ _ _ _ _ _ _ _ E) as (md & staged & [H1 _ _ H2 _ _ _] & _ & _ & ->).
  rewrite Hc. unfold post_init. cbn [negb]. rewrite (slot_read _ _ _ _ H1). cbn [mbind res_bind].
  rewrite Hx in H2. destruct H2 as [-> H2]. unfold cast_if_true, read. rewrite H2. cbn [of_option mbind res_bind].
  destruct (concat (t_rows c)) as [|x [|y l]]; cbn in Hl; [lia|lia|done].
Qed.

(** And those of one request that has nothing in its cache are dropped. *)
Lemma zero_cache_len_dropped staged key t : staged !! key = Some t -> concat (t_rows t) = [0] ->
  cast_if_true staged (Some (Buffer key)) = Ok None.
Proof. intros Hk Ht. unfold cast_if_true, read. rewrite Hk. cbn [of_option mbind res_bind]. by rewrite Ht. Qed.

(** ** Well-formed metadata *)
Section shapes.
Context {X : Type} (q l p bk : X -> Z) (blocks : X -> list Z) (xs : list X) (x0 : X) (width : Z).
Context (b : Builder) (positions : list Z) (batch_pad : Z) (pre skip : bool) (back : option (list Z)).

(** The batch fits the graph: a prefill is of one request, whose chunk ends within the model
    length when it is masked, and a decode fills its padded batch at most. *)
Record fits : Prop := {
  fi_prefill : pre = true -> len xs = 1 /\ (is_causal b = false -> 0 <= p x0 /\ p x0 + chunked_prefill_size b <= b_max_model_len b);
  fi_decode : pre = false -> len xs <= batch_pad;
  fi_lens : forall x, x ∈ xs -> 0 <= l x;
  fi_sizes : 0 <= chunked_prefill_size b /\ 0 <= b_max_model_len b;
  fi_window : forall w, kv_cache_spec b = RBLNSlidingWindowSpec w -> 0 <= w
}.

(** The rows of the mask, if there is one. *)
Lemma mask_exists : fits -> exists m, mask_ok l p xs x0 b batch_pad pre skip m /\
  (negb (is_causal b) && negb skip = true ->
     len m = (if pre then chunked_prefill_size b else batch_pad) /\ Forall (fun row => len row = b_max_model_len b) m).
Proof.
  intros F. destruct (fi_sizes F) as [S1 S2]. unfold mask_ok. destruct (negb (is_causal b) && negb skip) eqn:Em; [|by exists []].
  apply andb_true_iff in Em as [Hc%negb_true_iff _]. destruct pre eqn:Ep.
  - destruct (fi_prefill F Ep) as [_ Hp]. destruct (Hp Hc) as [P1 P2].
    destruct (prefill_mask_ok b (p x0) S1 P1 P2) as (m & E & L & R & _). by exists m.
  - destruct (decode_mask_ok b batch_pad (l <$> xs)) as (m & E & L & R & _); [done| | |by exists m].
    + unfold len. rewrite length_fmap. by apply (fi_decode F).
    + apply Forall_fmap, Forall_forall. intros x Hx. by apply (fi_lens F).
Qed.

Lemma padded_len v rows : fits -> len rows = len xs -> len (padded batch_pad pre v rows) = (if pre then 1 else batch_pad).
Proof.
  intros F Hr. unfold padded. destruct pre eqn:Ep; [|rewrite pad_len; pose proof (fi_decode F Ep); lia].
  rewrite Hr. by apply (fi_prefill F).
Qed.

Lemma padded_rows v rows n : len v = n -> Forall (fun row => len row = n) rows -> Forall (fun row => len row = n) (padded batch_pad pre v rows).
Proof.
  intros Hv Hr. unfold padded, pad. destruct pre; [done|]. apply Forall_app. split; [done|]. by apply Forall_replicate.
Qed.

Lemma tall_ok dtype rows n : len rows = n -> Forall (fun row => len row = 1) rows ->
  shape_of (Some (tall dtype rows)) = Some ([n; 1], dtype) /\ well_shaped (tall dtype rows).
Proof. intros <- Hr. split; [done|]. exists 1. cbn. split; [done|]. split; [lia|done]. Qed.

Lemma column_rows (f : list Z) : Forall (fun row => len row = 1) (AttnMetadata.column f).
Proof. unfold AttnMetadata.column. apply Forall_fmap, Forall_forall. by intros. Qed.

Lemma tall_padded dtype (f : X -> Z) : fits -> let rows := padded batch_pad pre [0] (AttnMetadata.column (f <$> xs)) in
  shape_of (Some (tall dtype rows)) = Some ([if pre then 1 else batch_pad; 1], dtype) /\ well_shaped (tall dtype rows).
Proof.
  intros F rows. apply tall_ok.
  - apply padded_len; [done|]. rewrite column_len. unfold len. by rewrite length_fmap.
  - apply padded_rows; [done|]. apply column_rows.
Qed.
Context (B : rows_ok q p bk blocks xs x0 width positions back) (F : fits).

Lemma width_nonneg : 0 <= width.
Proof.
  rewrite <- (ba_width _ _ _ _ _ _ _ _ _ B x0); [apply len_nonneg|]. pose proof (ba_first _ _ _ _ _ _ _ _ _ B) as H.
  destruct xs; [done|]. injection H as ->. by left.
Qed.

(** The rows of blocks, and what a window reads of them. *)
Lemma block_rows_ok : let rows := block_rows blocks xs x0 width batch_pad pre in
  len rows = (if pre then 1 else batch_pad) /\ Forall (fun row => len row = width) rows /\
  blocks_shape blocks xs width batch_pad pre = if pre then [width] else [batch_pad; width].
Proof.
  pose proof width_nonneg as Hw. pose proof (ba_width _ _ _ _ _ _ _ _ _ B) as Hb. pose proof (ba_first _ _ _ _ _ _ _ _ _ B) as H0.
  assert (Hx0 : x0 ∈ xs) by (destruct xs; [done|]; injection H0 as ->; by left).
  assert (Hl : len (blocks <$> xs) = len xs) by (unfold len; by rewrite length_fmap).
  unfold block_rows, blocks_shape. destruct pre eqn:Ep.
  - split; [done|]. split; [|done]. apply Forall_singleton. by apply Hb.
  - assert (Hp : len (pad batch_pad (zeros width) (blocks <$> xs)) = batch_pad) by (rewrite pad_len; pose proof (fi_decode F Ep); lia).
    split; [done|]. split; [|by rewrite Hp]. unfold pad. apply Forall_app. split; [|by apply Forall_replicate, zeros_len].
    apply Forall_fmap, Forall_forall. intros x Hx. by apply Hb.
Qed.

Lemma blocks_tensor rows n k dtype : len rows = (if pre then 1 else batch_pad) -> Forall (fun row => len row = k) rows ->
  n = (if pre then [k] else [batch_pad; k]) -> well_shaped {| t_shape := n; t_dtype := dtype; t_rows := rows |}.
Proof. intros Hl Hr ->. exists k. destruct pre; cbn; (split; [done|]; split; [lia|done]). Qed.

Lemma swa_tensor w (f : X -> Z) : 0 <= w -> let rows := padded batch_pad pre [0] (AttnMetadata.column (f <$> xs)) in
  well_shaped {| t_shape := [len rows; 1; 1; w]; t_dtype := "float32"; t_rows := swa_mask w (concat rows) |}.
Proof.
  intros Hw rows. exists w. cbn [t_shape t_rows removelast app foldr]. split; [done|]. split.
  - assert (Hc : Forall (fun row => len row = 1) rows) by (apply padded_rows; [done|apply column_rows]).
    assert (len (swa_mask w (concat rows)) = len (concat rows)) as -> by (unfold swa_mask, len; by rewrite length_fmap).
    rewrite (concat_len _ 1) by (by apply Forall_forall). lia.
  - unfold swa_mask. apply Forall_fmap, Forall_forall. intros c _. cbn. unfold len. rewrite length_fmap. by apply py_range_len.
Qed.

(** The tensors of the batch, with the mask [m]. *)
Lemma answer_shapes m : (negb (is_causal b) && negb skip = true ->
    len m = (if pre then chunked_prefill_size b else batch_pad) /\ Forall (fun row => len row = b_max_model_len b) m) ->
  let t := answer q l p bk blocks xs x0 width b batch_pad pre skip m in
  has_shapes b (fixed_shapes b pre skip batch_pad width) t /\
  well_shaped (x_seq_idx t) /\ well_shaped (x_block_tables t) /\
  forall o u, In o [x_attn_masks t; x_cache_seq_lens t; x_cache_offsets t; x_local_block_tables t; x_swa_attn_masks t] ->
    o = Some u -> well_shaped u.
Proof.
  intros Hm t. destruct block_rows_ok as (R1 & R2 & R3). pose proof width_nonneg as Hw.
  pose proof (fun d f => tall_padded d f F) as T. cbn zeta in T.
  assert (L : forall f : X -> Z, len (padded batch_pad pre [0] (AttnMetadata.column (f <$> xs))) = if pre then 1 else batch_pad).
  { intros f. apply (padded_len _ _ F). rewrite column_len. unfold len. by rewrite length_fmap. }
  split; [|split; [apply T|split]].
  - unfold has_shapes, fixed_shapes, t, answer, for_window, seqs, offsets. cbn [s_rows s_blocks s_mask s_local s_swa x_seq_idx
      x_block_tables x_attn_masks x_cache_seq_lens x_cache_offsets x_local_block_tables x_swa_attn_masks].
    split; [apply T|]. split; [cbn; by rewrite R3|]. split; [destruct (_ && _), pre; done|].
    destruct (kv_cache_spec b) as [|w|w]; [by destruct pre|by destruct pre|]. split; [apply T|]. split; [apply T|].
    rewrite R3. split; [by destruct pre|]. cbn. rewrite L. by destruct pre.
  - unfold t, answer. cbn [x_block_tables]. by eapply blocks_tensor.
  - intros o u Ho Hu. subst o. unfold t, answer, for_window, seqs, offsets in Ho. cbn [x_attn_masks x_cache_seq_lens x_cache_offsets
      x_local_block_tables x_swa_attn_masks] in Ho. destruct Ho as [Ho|[Ho|[Ho|[Ho|[Ho|[]]]]]].
    + destruct (_ && _); [|done]. injection Ho as <-. destruct (Hm eq_refl) as [M1 M2]. exists (b_max_model_len b).
      destruct pre; cbn; (split; [done|]; split; [lia|done]).
    + destruct (kv_cache_spec b); try done. injection Ho as <-. apply T.
    + destruct (kv_cache_spec b); try done. injection Ho as <-. apply T.
    + destruct (kv_cache_spec b); try done. injection Ho as <-. eapply blocks_tensor with (k := Z.min 1 width).
      * unfold len in *. by rewrite length_fmap.
      * apply Forall_fmap. eapply Forall_impl; [exact R2|]. intros row Hr. cbn in Hr |- *. unfold py_take, len in *. rewrite length_take. lia.
      * rewrite R3. by destruct pre.
    + pose proof swa_tensor as Sw. pose proof (fi_window F) as Fw. destruct pre; [done|].
      destruct (kv_cache_spec b) as [|w|w] eqn:Ek; try done. injection Ho as <-. by apply Sw, Fw.
Qed.

(** C19: The metadata of a step has the shapes its graph was compiled for: they depend on the
    phase, the padded batch and the width of the block tables, never on the requests; every
    tensor's rows fill its shape; and without the custom kernel each is staged in a buffer
    of its own. *)
Theorem metadata_shapes_fixed : use_custom_kernel b = false -> exists t md staged,
  build_tensors b (cm_of q l blocks xs) positions batch_pad pre skip back = Ok t /\
  build b (cm_of q l blocks xs) positions batch_pad pre skip back = Ok (md, set_staged staged b) /\ holds staged md t /\
  has_shapes b (fixed_shapes b pre skip batch_pad width) t /\
  well_shaped (x_seq_idx t) /\ well_shaped (x_block_tables t) /\
  forall o u, In o [x_attn_masks t; x_cache_seq_lens t; x_cache_offsets t; x_local_block_tables t; x_swa_attn_masks t] ->
    o = Some u -> well_shaped u.
Proof.
  intros Hc. destruct (mask_exists F) as (m & Hm & Hl). pose proof (build_tensors_ok _ _ _ _ _ _ _ _ _ _ _ _ _ _ _ B Hm) as E.
  destruct (build_staged _ _ _ _ _ _ _ _ Hc E) as (md & staged & Eb & _ & _ & Hh).
  eexists _, md, staged. split; [exact E|]. split; [exact Eb|]. split; [exact Hh|]. by apply answer_shapes.
Qed.
End shapes.

(** ** What a request's rows hold *)
Definition row_of (o : option Tensor) (i : nat) : option (list Z) := t ← o; t_rows t !! i.
Definition cell_of (o : option Tensor) (i : nat) (s : Z) : option Z := t ← o; cell (t_rows t) i s.

Section rows.
Context {X : Type} (q l p bk : X -> Z) (blocks : X -> list Z) (xs : list X) (x0 : X) (width : Z).
Context (b : Builder) (positions : list Z) (batch_pad : Z) (pre skip : bool) (back : option (list Z)).
Context (B : rows_ok q p bk blocks xs x0 width positions back) (F : fits l p xs x0 b batch_pad pre).
Context (m : list (list Z)) (Hm : mask_ok l p xs x0 b batch_pad pre skip m).

Let t := answer q l p bk blocks xs x0 width b batch_pad pre skip m.

(** The part of the metadata that is about request [x], in row [i]. *)
Definition reads_request (u : Tensors) (i : nat) (x : X) : Prop :=
  t_rows (x_seq_idx u) !! i = Some [p x] /\ t_rows (x_block_tables u) !! i = Some (blocks x) /\
  (forall w, kv_cache_spec b = RBLNSlidingWindowSpec w ->
     let c := Z.min (computed q l bk x) w in
     row_of (x_cache_seq_lens u) i = Some [c] /\ row_of (x_cache_offsets u) i = Some [c + (l x - computed q l bk x)] /\
     row_of (x_local_block_tables u) i = Some (take 1 (blocks x)) /\
     (pre = false -> forall s, 0 <= s < w -> cell_of (x_swa_attn_masks u) i s = Some (if s <=? c then 1 else 0))) /\
  (is_causal b = false -> skip = false -> forall s, 0 <= s < b_max_model_len b ->
     if pre then forall k, 0 <= k < chunked_prefill_size b ->
       cell_of (x_attn_masks u) (Z.to_nat k) s = Some (if prefill_sees (chunked_prefill_size b) (p x) k s then 1 else 0)
     else cell_of (x_attn_masks u) i s = Some (if s <=? l x then 1 else 0)).

(** Behind the requests of a decode the rows are zero. *)
Definition padding_zero (u : Tensors) : Prop := pre = false -> forall i, len xs <= Z.of_nat i < batch_pad ->
  t_rows (x_seq_idx u) !! i = Some [0] /\ t_rows (x_block_tables u) !! i = Some (zeros width) /\
  (forall v, row_of (x_cache_seq_lens u) i = Some v -> v = [0]) /\
  (forall v, row_of (x_cache_offsets u) i = Some v -> v = [0]) /\
  (forall v, row_of (x_attn_masks u) i = Some v -> v = zeros (b_max_model_len b)).

Lemma padded_lookup' v rows i row : rows !! i = Some row -> padded batch_pad pre v rows !! i = Some row.
Proof. intros Hi. unfold padded. destruct pre; [done|]. by apply pad_lookup. Qed.

Lemma column_row (f : X -> Z) i x : xs !! i = Some x -> padded batch_pad pre [0] (AttnMetadata.column (f <$> xs)) !! i = Some [f x].
Proof. intros Hi. apply padded_lookup', column_lookup. by rewrite list_lookup_fmap, Hi. Qed.

Lemma block_row i x : xs !! i = Some x -> block_rows blocks xs x0 width batch_pad pre !! i = Some (blocks x).
Proof.
  intros Hi. unfold block_rows. pose proof (fi_prefill _ _ _ _ _ _ _ F) as Hp. pose proof (ba_first _ _ _ _ _ _ _ _ _ B) as H0.
  destruct pre; [|apply pad_lookup; by rewrite list_lookup_fmap, Hi]. destruct (Hp eq_refl) as [Hl _].
  destruct xs as [|y [|z k]]; try done. injection H0 as ->. destruct i as [|i]; [by injection Hi as ->|by destruct i].
  unfold len in Hl. cbn in Hl. lia.
Qed.

Lemma column_concat i c rows : Forall (fun row : list Z => len row = 1) rows -> rows !! i = Some [c] -> concat rows !! i = Some c.
Proof.
  intros Hr Hi. pose proof (concat_at rows 1 (Z.of_nat i) 0) as E. rewrite Z.mul_1_r, Z.add_0_r, Nat2Z.id in E.
  rewrite E; [by rewrite Hi|by apply Forall_forall|lia|lia].
Qed.

Lemma mask_cells i x s : xs !! i = Some x -> is_causal b = false -> skip = false -> 0 <= s < b_max_model_len b ->
  if pre then forall k, 0 <= k < chunked_prefill_size b ->
     cell m (Z.to_nat k) s = Some (if prefill_sees (chunked_prefill_size b) (p x) k s then 1 else 0)
  else cell m i s = Some (if s <=? l x then 1 else 0).
Proof.
  intros Hi Hc Hsk Hs. unfold mask_ok in Hm. rewrite Hc, Hsk in Hm. specialize (Hm eq_refl). destruct (fi_sizes _ _ _ _ _ _ _ F) as [S1 S2].
  pose proof (fi_prefill _ _ _ _ _ _ _ F) as Hp. pose proof (fi_decode _ _ _ _ _ _ _ F) as Hd. pose proof (ba_first _ _ _ _ _ _ _ _ _ B) as H0.
  destruct pre.
  - destruct (Hp eq_refl) as [Hl Hfit]. destruct (Hfit Hc) as [P1 P2]. assert (x = x0) as ->.
    { destruct xs as [|y [|z k]]; try done; [injection H0 as ->; destruct i as [|i]; [by injection Hi|by destruct i]|]. unfold len in Hl. cbn in Hl. lia. }
    intros k Hk. destruct (prefill_mask_ok b (p x0) S1 P1 P2) as (m' & E & _ & _ & A). rewrite E in Hm. injection Hm as <-. by apply A.
  - destruct (decode_mask_ok b batch_pad (l <$> xs)) as (m' & E & _ & _ & A & _); [done| | |].
    + unfold len in *. rewrite length_fmap. by apply Hd.
    + apply Forall_fmap, Forall_forall. intros y Hy. by apply (fi_lens _ _ _ _ _ _ _ F).
    + rewrite E in Hm. injection Hm as <-. apply (A i); [by rewrite list_lookup_fmap, Hi|done].
Qed.

Lemma answer_reads i x : xs !! i = Some x -> reads_request t i x.
Proof.
  intros Hi. unfold reads_request, t, answer, row_of, cell_of, for_window. cbn [x_seq_idx x_block_tables x_attn_masks x_cache_seq_lens
    x_cache_offsets x_local_block_tables x_swa_attn_masks tall t_rows].
  split; [by apply column_row|]. split; [by apply block_row|]. split.
  - intros w ->. cbn [mbind option_bind t_rows]. split; [by apply (column_row (fun x => Z.min (computed q l bk x) w))|].
    split; [by apply (column_row (fun x => Z.min (computed q l bk x) w + (l x - computed q l bk x)))|].
    split; [by rewrite list_lookup_fmap, (block_row i x Hi)|]. intros Hpre s Hs.
    pose proof (column_row (fun x => Z.min (computed q l bk x) w) i x Hi) as Hrow.
    pose proof (column_concat i _ _ (padded_rows batch_pad pre [0] _ 1 eq_refl (column_rows ((fun x => Z.min (computed q l bk x) w) <$> xs))) Hrow) as Hcat.
    rewrite Hpre in Hcat |- *. cbn [mbind option_bind t_rows]. by apply swa_mask_cell.
  - intros Hc Hsk s Hs. pose proof (mask_cells i x s Hi Hc Hsk Hs) as Hcells. rewrite Hc, Hsk. cbn [negb andb mbind option_bind t_rows].
    by destruct pre.
Qed.

Lemma answer_padding : padding_zero t.
Proof.
  intros Hpre i Hri. unfold t, answer, row_of, for_window. cbn [x_seq_idx x_block_tables x_attn_masks x_cache_seq_lens x_cache_offsets tall t_rows].
  assert (Hcol : forall f : X -> Z, padded batch_pad pre [0] (AttnMetadata.column (f <$> xs)) !! i = Some [0]).
  { intros f. unfold padded. rewrite Hpre. apply pad_behind. rewrite column_len. unfold len in *. by rewrite length_fmap. }
  split; [apply Hcol|]. split; [unfold block_rows; rewrite Hpre; apply pad_behind; unfold len in *; by rewrite length_fmap|].
  split; [|split].
  - intros v. destruct (kv_cache_spec b); cbn [mbind option_bind]; try done. cbn [tall t_rows]. unfold seqs. rewrite Hcol. by intros [= <-].
  - intros v. destruct (kv_cache_spec b); cbn [mbind option_bind]; try done. cbn [tall t_rows]. unfold offsets. rewrite Hcol. by intros [= <-].
  - intros v. unfold mask_ok in Hm. destruct (negb (is_causal b) && negb skip); [|done]. cbn [mbind option_bind t_rows].
    specialize (Hm eq_refl). rewrite Hpre in Hm. destruct (fi_sizes _ _ _ _ _ _ _ F) as [S1 S2].
    destruct (decode_mask_ok b batch_pad (l <$> xs)) as (m' & E & _ & _ & _ & A); [done| | |].
    + unfold len in *. rewrite length_fmap. lia.
    + apply Forall_fmap, Forall_forall. intros y Hy. by apply (fi_lens _ _ _ _ _ _ _ F).
    + rewrite E in Hm. injection Hm as <-. rewrite A by (unfold len in *; by rewrite length_fmap). by intros [= <-].
Qed.
End rows.

(** ** The metadata of a step of the model runner *)
Section step.
Context (r : Runner) (bt : Batch) (num_tokens : gmap string Z) (use_spec : bool) (xs : list Req) (n_arange : Z)
  (drafts : odict string (list Z)) (Hok : step_ok r bt num_tokens use_spec xs n_arange) (D : drafts_ok use_spec xs drafts).
Context (b : Builder) (blocks : Req -> list Z) (width batch_pad : Z).

Let win := window r use_spec.
Let seen (x : Req) : Z := x_computed x + x_sched x.

(** The position of the first query. *)
Definition first_position (x : Req) : Z := x_computed x - front r use_spec x.

(** [_build_attention_metadata] reads these of the runner's buffers. *)
Definition common (r' : Runner) : Common :=
  {| query_start := py_take (len xs + 1) (query_start_loc r'); lens := py_take (len xs) (seq_lens r');
     block_table := blocks <$> xs; n_reqs := len xs |}.

Record builder_fits : Prop := {
  bf_plain : use_custom_kernel b = false;
  bf_width : forall x, x ∈ xs -> len (blocks x) = width;
  bf_prefill : is_prefill r = true -> len xs = 1 /\
    (is_causal b = false -> forall x, x ∈ xs -> first_position x + chunked_prefill_size b <= b_max_model_len b);
  bf_decode : is_prefill r = false -> len xs <= batch_pad;
  bf_sizes : 0 <= chunked_prefill_size b /\ 0 <= b_max_model_len b;
  bf_window : forall w, kv_cache_spec b = RBLNSlidingWindowSpec w -> 0 <= w
}.

Hypothesis Bf : builder_fits.

Lemma first_of_step : exists x0, head xs = Some x0 /\ x0 ∈ xs.
Proof. pose proof (so_some _ _ _ _ _ _ Hok). destruct xs as [|x l]; [done|]. exists x. split; [done|by left]. Qed.

Lemma first_bounds x : x ∈ xs -> 0 <= first_position x /\ 0 <= seen x /\ computed win seen (back r use_spec) x = first_position x.
Proof.
  intros Hx. destruct (window_facts _ _ _ _ _ _ Hok x Hx) as (F1 & F2 & F3 & F4 & F5 & F6).
  destruct (so_bounds _ _ _ _ _ _ Hok x Hx). unfold first_position, seen, computed, win. lia.
Qed.

Lemma step_fits x0 : head xs = Some x0 -> x0 ∈ xs -> fits seen first_position xs x0 b batch_pad (is_prefill r).
Proof.
  intros H0 Hx0. split; try apply Bf.
  - intros Hp. destruct (bf_prefill Bf Hp) as [Hl Hm]. split; [done|]. intros Hc. split; [by apply first_bounds|by apply Hm].
  - intros x Hx. by apply first_bounds.
Qed.

Lemma step_batch r' x0 : staged r use_spec xs r' -> head xs = Some x0 ->
  rows_ok win first_position (back r use_spec) blocks xs x0 width (positions r') (Some (decode_back_pad r')).
Proof.
  intros St H0. split; [done|apply Bf| |].
  - change (win <$> xs) with (window r use_spec <$> xs). rewrite <- (marks_starts r use_spec drafts 0 0 xs). rewrite <- (marks_reqs r use_spec drafts first_position 0 0 xs).
    apply mapM_over. intros y Hy. destruct (mark_elem _ _ _ _ y Hy) as (i & Hi & ->). pose proof (list_elem_of_lookup_2 _ _ _ Hi) as Hx.
    pose proof (windows_nonneg _ _ _ _ _ _ Hok) as Hnn. pose proof (off_nonneg win xs i Hnn). unfold win in *.
    destruct (window_facts _ _ _ _ _ _ Hok y.2 Hx) as (F1 & F2 & F3 & F4 & _). rewrite py_nth_at by done.
    pose proof (rows_at win (fun x j => x_computed x - front r use_spec x + j) xs i y.2 0 Hnn Hi) as Hrow.
    rewrite Z.add_0_r in Hrow. erewrite prefix_lookup_Some; [|apply Hrow; unfold win; lia|apply St]. cbn. f_equal.
    unfold first_position. lia.
  - destruct (st_back _ _ _ _ St) as [k ->]. apply take_front. unfold len. by rewrite length_fmap.
Qed.

Lemma common_ok r' : staged r use_spec xs r' -> common r' = cm_of win seen blocks xs.
Proof.
  intros St. unfold common, cm_of. destruct (st_starts _ _ _ _ St) as [k ->]. destruct (st_lens _ _ _ _ St) as [k' ->].
  f_equal; [|apply take_front; unfold len; by rewrite length_fmap].
  apply (take_front (len xs + 1) (0 :: sums 0 (win <$> xs))). rewrite len_cons. unfold len. rewrite length_sums, length_fmap. lia.
Qed.

(** C18: Without the custom kernel, and for a masked prefill chunk that ends within the model
    length (one that does not raises, [last_chunk_raises]), what the attention kernels are told
    of a step follows its windows: where a request's first query stands, its blocks, the tokens
    a sliding window has in its cache and where the new ones go; the rows behind the requests
    are zero.  Of the masks of the kernels that need one it states the exact cells: a decode
    takes in the positions of its sequence and the one behind it, a prefill chunk is causal
    within itself and takes in the tokens before it when they are a whole chunk or more. *)
Theorem attention_follows_window total : 0 < total -> exists r' inp t md staged,
  _prepare_inputs r bt num_tokens total drafts (x_sched <$> xs) = Ok (r', inp) /\
  build b (common r') (positions r') batch_pad (is_prefill r) false (Some (decode_back_pad r')) = Ok (md, set_staged staged b) /\
  holds staged md t /\
  (forall i x, xs !! i = Some x ->
     t_rows (x_seq_idx t) !! i = Some [first_position x] /\ t_rows (x_block_tables t) !! i = Some (blocks x) /\
     (forall w, kv_cache_spec b = RBLNSlidingWindowSpec w -> let c := Z.min (first_position x) w in
        row_of (x_cache_seq_lens t) i = Some [c] /\
        row_of (x_cache_offsets t) i = Some [c + front r use_spec x + x_sched x] /\
        row_of (x_local_block_tables t) i = Some (take 1 (blocks x)) /\
        (is_prefill r = false -> forall s, 0 <= s < w -> cell_of (x_swa_attn_masks t) i s = Some (if s <=? c then 1 else 0))) /\
     (is_causal b = false -> forall s, 0 <= s < b_max_model_len b ->
        if is_prefill r then forall k, 0 <= k < chunked_prefill_size b -> cell_of (x_attn_masks t) (Z.to_nat k) s =
          Some (if prefill_sees (chunked_prefill_size b) (first_position x) k s then 1 else 0)
        else cell_of (x_attn_masks t) i s = Some (if s <=? x_computed x + x_sched x then 1 else 0))) /\
  padding_zero xs width b batch_pad (is_prefill r) t.
Proof.
  intros Ht. destruct (prepare_ok _ _ _ _ _ _ Hok drafts total Ht D) as (r' & inp & Hp & St & _).
  destruct first_of_step as (x0 & H0 & Hx0). pose proof (step_fits x0 H0 Hx0) as F. pose proof (step_batch r' x0 St H0) as B.
  destruct (mask_exists _ _ _ _ _ _ _ false F) as (m & Hm & _).
  pose proof (build_tensors_ok _ _ _ _ _ _ _ _ _ _ _ _ _ _ _ B Hm) as E. rewrite <- (common_ok r' St) in E.
  destruct (build_staged _ _ _ _ _ _ _ _ (bf_plain Bf) E) as (md & sg & Eb & _ & _ & Hh).
  eexists r', inp, _, md, sg. split; [exact Hp|]. split; [exact Eb|]. split; [exact Hh|].
  split; [|by eapply answer_padding]. intros i x Hi. destruct (first_bounds x (list_elem_of_lookup_2 _ _ _ Hi)) as (_ & _ & Hc).
  destruct (answer_reads _ _ _ _ _ _ _ _ _ _ _ _ _ _ B F m Hm i x Hi) as (R1 & R2 & R3 & R4).
  split; [exact R1|]. split; [exact R2|]. split; [|intros Hcs; by apply R4]. intros w Hw. destruct (R3 w Hw) as (S1 & S2 & S3 & S4).
  rewrite Hc in S1, S2, S4. split; [exact S1|]. split; [|by split]. rewrite S2. do 2 f_equal. unfold first_position, seen. lia.
Qed.
End step.

(** ** A decode and a prefill *)
Module AttnToy.
Import RunnerToy.

Definition toy_builder (n : Z) : Builder :=
  {| use_custom_kernel := false; chunked_prefill_size := n; enforce_eager := false; is_causal := false; b_max_model_len := 8;
     kv_cache_spec := RBLNSlidingWindowSpec 4; _staged := ∅ |}.

Definition toy_blocks (x : Req) : list Z := if decide (x_id x = "a"%string) then [5; 6] else [7; 8].

Lemma toy_fits : builder_fits runner true [a; z] (toy_builder 4) toy_blocks 2 4.
Proof.
  split; try done.
  - intros x Hx. apply list_elem_of_In in Hx. by destruct Hx as [<-|[<-|[]]].
  - intros w [= <-]. lia.
Qed.

(** Request [z] has its window one token early, so its cache starts there too. *)
Lemma attention_follows_window_witness : exists r' inp t md staged,
  _prepare_inputs runner batch num_tokens 3 drafts [2; 1] = Ok (r', inp) /\
  build (toy_builder 4) (common [a; z] toy_blocks r') (positions r') 4 false false (Some (decode_back_pad r'))
    = Ok (md, set_staged staged (toy_builder 4)) /\
  t_rows (x_seq_idx t) !! 1%nat = Some [5] /\ row_of (x_cache_seq_lens t) 1 = Some [4] /\ row_of (x_cache_offsets t) 1 = Some [6].
Proof.
  destruct (attention_follows_window runner batch num_tokens true [a; z] 16 drafts batch_ok batch_drafts (toy_builder 4) toy_blocks 2 4
    toy_fits 3 ltac:(lia)) as (r' & inp & t & md & staged & E1 & E2 & _ & Hx & _).
  exists r', inp, t, md, staged. split; [exact E1|]. split; [exact E2|].
  destruct (Hx 1%nat z eq_refl) as (H1 & _ & H2 & _). split; [exact H1|]. destruct (H2 4 eq_refl) as (H3 & H4 & _).
  split; [exact H3|exact H4].
Defined.

(** The second chunk of a prompt. *)
Lemma metadata_shapes_fixed_witness : exists t md staged,
  build_tensors (toy_builder 4) (cm_of (fun _ => 4) (fun _ => 8) (fun _ => [7; 9]) [tt]) [4; 5; 6; 7] 1 true false None = Ok t /\
  build (toy_builder 4) (cm_of (fun _ => 4) (fun _ => 8) (fun _ => [7; 9]) [tt]) [4; 5; 6; 7] 1 true false None
    = Ok (md, set_staged staged (toy_builder 4)) /\
  has_shapes (toy_builder 4) (fixed_shapes (toy_builder 4) true false 1 2) t.
Proof.
  edestruct (metadata_shapes_fixed (fun _ : unit => 4) (fun _ => 8) (fun _ => 4) (fun _ => 0) (fun _ => [7; 9]) [tt] tt 2 (toy_builder 4)
    [4; 5; 6; 7] 1 true false None) as (t & md & staged & E1 & E2 & _ & E3 & _).
  - split; [done| |done|done]. by intros [].
  - split; try done. intros w [= <-]. lia.
  - done.
  - exists t, md, staged. split; [exact E1|]. split; [exact E2|exact E3].
Defined.

(** The first prefix hit of two tokens under a chunk of four: the chunk does not see them. *)
Example prefix_unseen : prefill_mask (toy_builder 4) 2 =
  Ok [[0; 0; 1; 0; 0; 0; 0; 0]; [0; 0; 1; 1; 0; 0; 0; 0]; [0; 0; 1; 1; 1; 0; 0; 0]; [0; 0; 1; 1; 1; 1; 0; 0]].
Proof. reflexivity. Qed.
End AttnToy.
